(* ===== verification/_CoqProject ===== *)
-Q . S2P
Prelude.v
Queue.v
RingBuffer.v
Pool.v
UnorderedMap.v
PageAlloc.v
FlipBuffer.v
FragBuffer.v
NetUtils.v
SendQueue.v
ReceiveQueue.v
Tcp.v
TcpFacts.v
TcpStates.v
TcpStream.v
Net.v
NetFacts.v
ArpFacts.v
Text.v
TextFacts.v
Words.v
KeyValue.v
KernelDefs.v
Ramfs.v
RamfsFacts.v
RamfsIO.v
Vfs.v
VfsFacts.v
Memory.v
MemoryFacts.v
MemoryAreas.v
MemoryFaults.v
MemoryFork.v
Machine.v
MachineFacts.v
Pci.v
Screen.v
ScreenFacts.v
Sched.v
SchedFacts.v
Blocking.v
Rtl8139.v
Terminal.v
TerminalFacts.v
Rtl8139Facts.v
Kernel.v
KernelFacts.v
Stacks.v
Launch.v
Userspace.v
Support.v
Shell.v
ShellFacts.v
Init.v
InitFacts.v
LiveHttpd.v
LiveHttpdFacts.v
Syscalls.v
Boot.v
Console.v
NetTests.v
UnitTest.v
UnitTests.v
