(* ===== verification/Prelude.v ===== *)
(** * peos2: a verified model of a small operating system

    peos2 is a 32 bit kernel in C++ with its own support library (namespace
    p2), network stack and a few user programs.  This development models it:
    containers, text functions, the network protocols, the file systems,
    address spaces, the scheduler and the life of processes, terminals and
    drivers, and the programs.  It proves what makes them correct, as
    refinements of abstract state machines where a component has such a
    contract.

    ** How the code is modelled

    Operations are executable functions.  One that can fail an assertion or
    have undefined behaviour returns an [outcome]: [Ret], [Panic] (a failed
    assert or panic(): it ends the running process, or the system when there is
    none, and what was going on is not resumed), [Undef] (an access outside an object, signed overflow,
    the use of an indeterminate value) or [NoFuel].  State is passed
    explicitly.  Machine integers are [Z] with their wrap around written out
    ([u8] ... [u64], [i32], [to_i32]); signed arithmetic that overflows is
    [Undef].  Memory is a list of bytes where the code sees bytes.  The
    content of uninitialised storage is a parameter (junk), never a chosen
    value.  Callbacks are data: the continuation a protocol stores is a
    constructor that an interpreter runs.  A context switch ends an
    operation; what its caller does when it runs again is a definition of its
    own.

    ** Files

    - [Prelude]: outcomes, machine integers, arrays, tactics and lemmas;
    - [Queue], [RingBuffer], [Pool], [UnorderedMap], [PageAlloc],
      [FlipBuffer], [FragBuffer]: libraries/support/*.h, one container each.
      [Pool] also defines the class [SlotPool] with its laws; [UnorderedMap]
      is proved against the class, and the kernel tables use the relation
      [fpm] between a fixed pool and a finite map;
    - [NetUtils], [SendQueue], [ReceiveQueue], [Tcp] (with [TcpFacts],
      [TcpStates] and [TcpStream]): libraries/net/utils.*, libraries/net/tcp;
    - [Net] (with [NetFacts] and [ArpFacts]): libraries/net/ethernet, arp,
      ipv4, udp, icmp, retryable.h, protocol_stack.h;
    - [Text] (with [TextFacts]), [Words], [KeyValue]: string.h, string.cc,
      format.h, filesystem.h, utils.cc, keyvalue.h, kernel/tar.cc, address
      formatting, programs/command_line.h and the argument vector of the shell;
    - [KernelDefs]: kernel/syscall_decls.h, result.h;
    - [Ramfs] (with [RamfsFacts] and [RamfsIO]): kernel/ramfs.cc;
    - [Vfs] (with [VfsFacts]): kernel/filesystem.cc;
    - [Memory] (with [MemoryFacts], [MemoryAreas], [MemoryFaults],
      [MemoryFork]): kernel/memory.cc;
    - [Machine] (with [MachineFacts]): input and output ports, the descriptor
      tables, the interrupt controllers and the timer (kernel/x86.cc, x86.h,
      protected_mode.cc, timer.cc, the initialisation in serial.cc and
      keyboard.cc);
    - [Pci]: kernel/pci.cc;
    - [Screen] (with [ScreenFacts]): kernel/screen.cc, screen_private.h,
      mem_range.h, and sending to the serial port;
    - [Sched] (with [SchedFacts]): the scheduler of kernel/process.cc,
      process_private.h, locks.h;
    - [Blocking]: kernel/support/blocking_queue.h;
    - [Terminal] (with [TerminalFacts]): kernel/terminal.cc,
      terminal_private.h, keyboard.cc, the receiver of serial.cc;
    - [Rtl8139] (with [Rtl8139Facts]): the network card, kernel/rtl8139.cc;
    - [Kernel] (with [KernelFacts]): stack_portal.h, syscall_utils.h, elf.cc and
      the parts of process.cc that combine scheduler, memory and files;
      [Stacks] is about portals and the stacks written through them, [Launch]
      about building, loading and starting a process;
    - [Userspace]: libraries/support/userspace.h, and programs as computations
      that make system calls; [Syscalls]: kernel/syscalls.cc, the wrappers of
      syscall_macros.h and syscall_decls.h;
    - [Support]: libraries/support/utils.h, limits.h, optional.h, function.h,
      logging.h;
    - [Shell] (with [ShellFacts]): programs/shell, programs/ls;
    - [Init] (with [InitFacts]): kernel/init.cc, multiboot.cc, tar.h;
    - [LiveHttpd] (with [LiveHttpdFacts]): programs/live-httpd;
    - [Boot]: kernel/main.cc, panic.cc, debug.h; [Console]: what filesystem.cc,
      memory.cc, process.cc and x86.cc print;
    - [NetTests]: the recorded packets of libraries/net/unittests;
      [UnitTest]: the test harness, libraries/support/unittest.*;
      [UnitTests]: the unit tests of the repository, run on the model.

    The components are composed as the code composes them: TCP runs on its
    queues, the stack runs TCP, UDP and ICMP, the VFS calls drivers through a
    record of operations that [Ramfs] fills in, the memory model carries the
    VFS state its fault handler reads from, and a kernel state is a scheduler
    state and a memory state.  Terminals and the network card share the
    blocking queue, which suspends and wakes processes of the scheduler.  A
    device is a function from the port accesses so far to the next answer, a
    kernel that a user program runs on a function from the calls so far to the
    next reply; theorems about drivers and programs hold for every such
    function that keeps the stated laws.  The laws of programs are what the
    theorems on the other side give: the reader of the archive relies on the
    cursor of [RamfsIO], the web server on the framing of [Rtl8139Facts].

    ** What is proved

    - Containers (C1, C3 to C8): each refines its abstract container for every
      sequence of operations its contract allows; a handle that the flip buffer
      accepts is not shared with one of the next 65535 allocations; fragments
      in any order are reassembled.
    - Checksums and transport (C10, C11, C13, C17, C18): the checksum verifies
      at the receiver; the queues refine their contracts; the state machine
      moves only along its edges; a server opens a connection and gets the
      stream of the peer, segments out of order included (C13).
    - Lower layers (C20, C21, C23, C24): a datagram survives the trip, and
      reassembly and address resolution work.
    - From the card to the web server and back (C12, C15, C22): the driver
      sends the packets of the stream it is given, delivers the packets it
      receives, and the web server relays between it and the stack.
    - Text (C29): an address survives printing and parsing.
    - Terminals and screen (C14, C16, C19, C25): line editing with reads that
      find input, a blocked reader
      gets the line that is typed, the display shows the buffer in focus, and
      printing is what a typewriter does.
    - Programs (C27, C30): the archive is unpacked into files over its data,
      the shell runs the lines of its input, as long as names and lines fit the
      buffers of the programs.
    - Files (C32 to C34, C36): the RAM file system refines a finite map of
      paths, reads of non-negative length stay inside the file, reference counts are exact, errors
      for bad descriptors.
    - Starting (C31, C35): [kernel_main] ends with the init program running in
      a space of its own, with the stacks the code lays out; exec loads the
      segments of a program file, sets up its arguments and returns to its
      entry point.  Both are compositions of the theorems on memory, page
      faults, the scheduler and the files.
    - Scheduler (C2, C28): the linked queues refine two sequences; no running
      process starves.
    - Memory (C9, C26, C37 to C40): page tables are a map that [map_page] changes
      at one place; areas are disjoint; faults are resolved with a fresh page
      of the right contents; a fork duplicates the anonymous memory of the
      parent; pointer checks accept exactly what they should, up to wrap
      around.

    Theorems without a number complete the picture (the scan of
    the PCI bus, key value lines, descriptor encodings, interrupt masks, scan
    codes, the system call table and its wrappers, demultiplexing, words of a
    command line, what the child of the shell does, optional values and
    closures) or show that the code misbehaves on an input.  Others compare
    the model with the repository's own expectations: the recorded packets are
    accepted and reassembled, the test harness reports exactly what its suites
    do, and the unit tests pass on the model.

    ** Fuel and bounds

    Loops whose number of rounds the state bounds get that bound: the size of
    the table they walk plus one (queues of processes, directory chains, free
    lists), the number of pages of a range ([page_rounds]), the length of the
    input, the room of a buffer that every round fills by at least one byte.
    The refinement theorems show the bound to be enough: they conclude [Ret].
    A tick of the ARP probes erases while it iterates and may start again; it
    gets the rounds of one pass for each probe, and ends
    ([ArpFacts.arp_tick_returns]).
    Loops that the code never leaves (the shell, the web server) are run for a
    number of turns, and theorems hold for every number.  Where a loop of the
    code should end and may not, a theorem says so for every fuel.

    ** Not modelled

    Assembly (boot.s, crti.s, crtn.s and the inline assembly: loading processor
    tables, the switch of stacks itself, waiting for interrupts); its effect
    on the state is where the operations of the model end.  Log lines of the
    components ([Support] has the macros, [Boot] the debug line of the
    kernel).  Interrupts that arrive inside a kernel operation: operations are
    atomic up to a context switch.  The translation cache of the processor.
    The instructions of user programs: a program is a computation that makes
    system calls, and the kernel it runs on is a parameter with laws, which
    are theorems about the kernel models here.  Of the unit tests, the suite
    of the IPv4 layer with its mocks, and what [UnitTests] names.

    ** How far the development goes

    Every component of the kernel, the libraries and the programs has a model,
    from the boot loader's record to the byte stream a web server answers.
    What is left to do is to run user programs on the kernel model itself
    instead of on a kernel with laws, for which the instructions of the
    processor would have to be modelled. *)


From Stdlib Require Export ZArith Lia.
From stdpp Require Export base numbers list.

#[global] Open Scope Z_scope.
#[global] Set Warnings "-clear-no-such-hyp".

#[global] Arguments Z.geb : simpl never.
#[global] Arguments Z.gtb : simpl never.
#[global] Arguments Z.quot : simpl never.
#[global] Arguments Z.rem : simpl never.

(** ** Outcomes

    Every operation that can stop the program returns an [outcome].  [Panic]
    is a failed [assert] (the build defines NDEBUG, which is the flag that
    turns the asserts of support/assert.h on) or an explicit [panic()].
    [Undef] is undefined behaviour: an access outside an object, signed
    overflow, the use of an object that was never constructed.  [NoFuel] is an
    artefact of the model only: a loop was given too little fuel. *)

Inductive outcome (A : Type) : Type :=
| Ret (a : A)
| Panic
| Undef
| NoFuel.
Arguments Ret {A} a.
Arguments Panic {A}.
Arguments Undef {A}.
Arguments NoFuel {A}.

#[export] Instance outcome_ret : MRet outcome := fun A a => Ret a.
#[export] Instance outcome_bind : MBind outcome := fun A B f m =>
  match m with
  | Ret a => f a
  | Panic => Panic
  | Undef => Undef
  | NoFuel => NoFuel
  end.

(** [assert(b)] of support/assert.h *)
Definition passert (b : bool) : outcome unit := if b then Ret tt else Panic.

(** Stateful code: a step from a state to an outcome and a new state *)
Definition stM (S A : Type) : Type := S -> outcome (A * S).

#[export] Instance stM_ret S : MRet (stM S) := fun A a s => Ret (a, s).
#[export] Instance stM_bind S : MBind (stM S) := fun A B f m s =>
  match m s with
  | Ret (a, s') => f a s'
  | Panic => Panic
  | Undef => Undef
  | NoFuel => NoFuel
  end.

Definition sget {S} : stM S S := fun s => Ret (s, s).
Definition sput {S} (s' : S) : stM S unit := fun _ => Ret (tt, s').
Definition smodify {S} (f : S -> S) : stM S unit := fun s => Ret (tt, f s).
Definition sret {S A} (a : A) : stM S A := fun s => Ret (a, s).

(** A computation without state inside one with state *)
Definition lift {S A} (o : outcome A) : stM S A := fun s =>
  match o with
  | Ret a => Ret (a, s)
  | Panic => Panic
  | Undef => Undef
  | NoFuel => NoFuel
  end.

Definition sassert {S} (b : bool) : stM S unit := lift (passert b).

(** [for (x : l) f(x);] *)
Fixpoint sforeach {S A} (l : list A) (f : A -> stM S unit) : stM S unit :=
  match l with
  | [] => sret tt
  | x :: l' => fun s => match f x s with
                        | Ret (_, s') => sforeach l' f s'
                        | Panic => Panic
                        | Undef => Undef
                        | NoFuel => NoFuel
                        end
  end.

(** ** Machine integers

    Unsigned integers wrap; signed 32 bit arithmetic is checked, since
    overflow is undefined behaviour. *)

Definition u8 (x : Z) : Z := x mod 2 ^ 8.
Definition u16 (x : Z) : Z := x mod 2 ^ 16.
Definition u32 (x : Z) : Z := x mod 2 ^ 32.
Definition u64 (x : Z) : Z := x mod 2 ^ 64.

Definition INT_MAX : Z := 2 ^ 31 - 1.
Definition INT_MIN : Z := - 2 ^ 31.

(** Conversion of an unsigned value to [int] (two's complement) *)
Definition to_i32 (x : Z) : Z :=
  let y := u32 x in if y <? 2 ^ 31 then y else y - 2 ^ 32.

(** The value of a signed 32 bit expression: undefined when out of range *)
Definition i32 (x : Z) : outcome Z :=
  if (INT_MIN <=? x) && (x <=? INT_MAX) then Ret x else Undef.

(** ** Arrays: lists with [Z] indices *)

Definition znth {A} (l : list A) (i : Z) : option A :=
  if 0 <=? i then l !! Z.to_nat i else None.

Definition zlen {A} (l : list A) : Z := Z.of_nat (length l).

Definition zset {A} (l : list A) (i : Z) (v : A) : list A :=
  if 0 <=? i then <[Z.to_nat i := v]> l else l.

Definition arr_get {A} (l : list A) (i : Z) : outcome A :=
  match znth l i with Some x => Ret x | None => Undef end.

Definition arr_set {A} (l : list A) (i : Z) (v : A) : outcome (list A) :=
  if (0 <=? i) && (i <? zlen l) then Ret (zset l i v) else Undef.

(** [blit d i s] is [d] with [s] written at position [i]. *)
Definition blit {A} (d : list A) (i : nat) (s : list A) : list A :=
  take i d ++ s ++ drop (i + length s) d.

(** [memcpy(d + i, s, n)]: undefined when it leaves either object. *)
Definition arr_blit {A} (d : list A) (i : Z) (s : list A) (n : Z) : outcome (list A) :=
  if (0 <=? i) && (0 <=? n) && (i + n <=? zlen d) && (n <=? zlen s)
  then Ret (blit d (Z.to_nat i) (take (Z.to_nat n) s))
  else Undef.

(** [pad_to n d l] is [l] extended with copies of [d] to length [n]. *)
Definition pad_to {A} (n : Z) (d : A) (l : list A) : list A :=
  l ++ replicate (Z.to_nat (n - zlen l)) d.

(** [overlay d l off data] writes the bytes [data] at position [off] of [l],
    one after the other, extending [l] with [d] as needed. *)
Fixpoint overlay {A} (d : A) (l : list A) (off : Z) (data : list A) : list A :=
  match data with
  | [] => l
  | v :: rest => overlay d (zset (pad_to (off + 1) d l) off v) (off + 1) rest
  end.

(** ** Tactics *)

(** Turns boolean tests on [Z] in the context into propositions. *)
Ltac zbool :=
  repeat match goal with
  | H : context [?a <? ?b] |- _ => destruct (Z.ltb_spec a b)
  | H : context [?a <=? ?b] |- _ => destruct (Z.leb_spec a b)
  | H : context [?a =? ?b] |- _ => destruct (Z.eqb_spec a b)
  | H : context [?a >=? ?b] |- _ => rewrite Z.geb_leb in H
  | H : context [?a >? ?b] |- _ => rewrite Z.gtb_ltb in H
  | |- context [?a >=? ?b] => rewrite Z.geb_leb
  | |- context [?a >? ?b] => rewrite Z.gtb_ltb
  | |- context [?a <? ?b] => destruct (Z.ltb_spec a b)
  | |- context [?a <=? ?b] => destruct (Z.leb_spec a b)
  | |- context [?a =? ?b] => destruct (Z.eqb_spec a b)
  end; simpl in *; try lia; try congruence.

(** Decides an [if] on a comparison whose result follows by arithmetic. *)
Ltac zif :=
  match goal with
  | |- context [if ?a <? ?b then _ else _] =>
      first [ rewrite (proj2 (Z.ltb_lt a b)) by lia
            | rewrite (proj2 (Z.ltb_ge a b)) by lia ]
  | |- context [if ?a <=? ?b then _ else _] =>
      first [ rewrite (proj2 (Z.leb_le a b)) by lia
            | rewrite (proj2 (Z.leb_gt a b)) by lia ]
  | |- context [if ?a =? ?b then _ else _] =>
      first [ rewrite (proj2 (Z.eqb_eq a b)) by lia
            | rewrite (proj2 (Z.eqb_neq a b)) by lia ]
  | |- context [if ?a >=? ?b then _ else _] => rewrite (Z.geb_leb a b); zif
  | |- context [if ?a >? ?b then _ else _] => rewrite (Z.gtb_ltb a b); zif
  end.

(** Replaces a boolean comparison by its value when arithmetic decides it. *)
Ltac zb_case b :=
  first [ replace b with true by (symmetry; lia) | replace b with false by (symmetry; lia) ];
  rewrite ?andb_true_l, ?andb_false_l, ?orb_true_l, ?orb_false_l.

(** [lia] with division and remainder by constants *)
Ltac dlia := Z.div_mod_to_equations; lia.

(** Inverts a chain of binds that is known to return. *)
Ltac inv_ret :=
  repeat match goal with
  | H : mbind _ ?m = Ret _ |- _ =>
      let E := fresh "E" in
      destruct m eqn:E; simpl in H; try discriminate H
  | H : passert ?b = Ret _ |- _ =>
      let E := fresh "E" in
      unfold passert in H; destruct b eqn:E; try discriminate H; clear H
  | H : Ret _ = Ret _ |- _ => injection H as H; subst
  | H : (let '(_, _) := ?p in _) = Ret _ |- _ => destruct p; simpl in H
  | p : unit |- _ => destruct p
  end.

Create HintDb peos discriminated.
Create Rewrite HintDb peos_rw.

(** ** Lemmas on outcomes *)

Lemma mbind_Ret {A B} (f : A -> outcome B) a : mbind f (Ret a) = f a.
Proof. reflexivity. Qed.

(** Takes the first step of a chain of binds that is known to return. *)
Ltac bind_ret H :=
  match type of H with
  | mbind _ ?m = Ret _ =>
      let E := fresh "Es" in
      destruct m eqn:E; [rewrite mbind_Ret in H|discriminate H|discriminate H|discriminate H]
  end.

Lemma Ret_inj {A} (a b : A) : Ret a = Ret b -> a = b.
Proof. congruence. Qed.

(** What holds of the result of a computation that returns *)
Definition ensures {A} (m : outcome A) (Q : A -> Prop) : Prop := match m with Ret a => Q a | _ => True end.

Lemma ensures_bind {A B} (m : outcome A) (f : A -> outcome B) (R : A -> Prop) (Q : B -> Prop) :
  ensures m R -> (forall a, R a -> ensures (f a) Q) -> ensures (mbind f m) Q.
Proof. destruct m; simpl; auto. Qed.

Lemma ensures_mono {A} (m : outcome A) (R Q : A -> Prop) : ensures m R -> (forall a, R a -> Q a) -> ensures m Q.
Proof. destruct m; simpl; auto. Qed.

Lemma ensures_elim {A} (m : outcome A) (Q : A -> Prop) a : ensures m Q -> m = Ret a -> Q a.
Proof. intros H ->. exact H. Qed.

(** What a computation without a known postcondition gives: its equation *)
Lemma ensures_eq {A} (m : outcome A) : ensures m (fun a => m = Ret a).
Proof. destruct m; simpl; auto. Qed.

Lemma passert_true b : b = true -> passert b = Ret tt.
Proof. intros ->. reflexivity. Qed.

Lemma passert_false b : b = false -> passert b = Panic.
Proof. intros ->. reflexivity. Qed.

Lemma i32_Ret x : INT_MIN <= x <= INT_MAX -> i32 x = Ret x.
Proof. intros [? ?]. unfold i32. repeat (rewrite (proj2 (Z.leb_le _ _)) by lia). reflexivity. Qed.

(** Discharges the range check of the next signed expression. *)
Ltac i32_step :=
  match goal with
  | |- context [mbind ?f (i32 ?x)] =>
      rewrite (i32_Ret x) by (unfold INT_MIN, INT_MAX in *; first [lia | nia]); simpl
  end.

#[export] Hint Rewrite @mbind_Ret : peos_rw.

(** ** Lemmas on arrays *)

Section arrays.
Context {A : Type}.
Implicit Types l d s : list A.
Implicit Types x v : A.

Lemma zlen_nonneg l : 0 <= zlen l.
Proof. unfold zlen. lia. Qed.

Lemma zlen_app l s : zlen (l ++ s) = zlen l + zlen s.
Proof. unfold zlen. rewrite length_app. lia. Qed.

Lemma zlen_cons x l : zlen (x :: l) = zlen l + 1.
Proof. unfold zlen. simpl. lia. Qed.

Lemma zlen_zset l i v : zlen (zset l i v) = zlen l.
Proof. unfold zset, zlen. destruct (0 <=? i); [rewrite length_insert|]; reflexivity. Qed.

Lemma zlen_replicate n (x : A) : zlen (replicate n x) = Z.of_nat n.
Proof. unfold zlen. rewrite length_replicate. reflexivity. Qed.

Lemma znth_Some_lt l i x : znth l i = Some x -> 0 <= i < zlen l.
Proof.
  unfold znth, zlen. destruct (Z.leb_spec 0 i); [|discriminate].
  intros Hl. apply lookup_lt_Some in Hl. lia.
Qed.

Lemma znth_lt_Some l i : 0 <= i < zlen l -> exists x, znth l i = Some x.
Proof.
  unfold znth, zlen. intros ?. rewrite (proj2 (Z.leb_le 0 i)) by lia.
  apply lookup_lt_is_Some_2. lia.
Qed.

Lemma znth_ge_None l i : zlen l <= i -> znth l i = None.
Proof.
  unfold znth, zlen. intros ?. destruct (0 <=? i); [|reflexivity].
  apply lookup_ge_None_2. lia.
Qed.

Lemma znth_of_nat l (n : nat) : znth l (Z.of_nat n) = l !! n.
Proof. unfold znth. rewrite (proj2 (Z.leb_le _ _)) by lia. rewrite Nat2Z.id. reflexivity. Qed.

Lemma znth_zset l i j v :
  znth (zset l i v) j =
  if (i =? j) && (0 <=? i) && (i <? zlen l) then Some v else znth l j.
Proof.
  unfold znth, zset, zlen. destruct (Z.leb_spec 0 i), (Z.leb_spec 0 j);
    destruct (Z.eqb_spec i j); simpl; try lia; try reflexivity.
  - subst j. destruct (Z.ltb_spec i (Z.of_nat (length l))).
    + apply list_lookup_insert_eq. lia.
    + rewrite list_insert_ge by lia. reflexivity.
  - apply list_lookup_insert_ne. lia.
Qed.

Lemma znth_zset_eq l i v : 0 <= i < zlen l -> znth (zset l i v) i = Some v.
Proof.
  intros. rewrite znth_zset, Z.eqb_refl.
  rewrite (proj2 (Z.leb_le _ _)), (proj2 (Z.ltb_lt _ _)) by lia. reflexivity.
Qed.

Lemma znth_zset_ne l i j v : i <> j -> znth (zset l i v) j = znth l j.
Proof. intros. rewrite znth_zset, (proj2 (Z.eqb_neq i j)) by done. reflexivity. Qed.

Lemma znth_app_l l s i : i < zlen l -> znth (l ++ s) i = znth l i.
Proof.
  unfold znth, zlen. intros. destruct (Z.leb_spec 0 i); [|reflexivity].
  apply lookup_app_l. lia.
Qed.

Lemma znth_app_r l s i : zlen l <= i -> znth (l ++ s) i = znth s (i - zlen l).
Proof.
  unfold znth, zlen. intros.
  rewrite (proj2 (Z.leb_le 0 i)), (proj2 (Z.leb_le 0 _)) by lia.
  rewrite lookup_app_r by lia. f_equal. lia.
Qed.

Lemma znth_cons_0 x l : znth (x :: l) 0 = Some x.
Proof. reflexivity. Qed.

Lemma znth_cons_pos x l i : 0 < i -> znth (x :: l) i = znth l (i - 1).
Proof. intros. change (x :: l) with ([x] ++ l). apply znth_app_r. unfold zlen; simpl; lia. Qed.

Lemma znth_replicate n x i : 0 <= i < Z.of_nat n -> znth (replicate n x) i = Some x.
Proof.
  intros. unfold znth. rewrite (proj2 (Z.leb_le 0 i)) by lia.
  apply lookup_replicate_2. lia.
Qed.

Lemma zlen_take l n : 0 <= n <= zlen l -> zlen (take (Z.to_nat n) l) = n.
Proof. unfold zlen. intros. rewrite length_take. lia. Qed.

Lemma znth_take l n i : i < n -> znth (take (Z.to_nat n) l) i = znth l i.
Proof.
  unfold znth. intros. destruct (Z.leb_spec 0 i); [|reflexivity]. apply lookup_take_lt. lia.
Qed.

Lemma zlen_drop l n : 0 <= n <= zlen l -> zlen (drop (Z.to_nat n) l) = zlen l - n.
Proof. unfold zlen. intros. rewrite length_drop. lia. Qed.

Lemma znth_drop l n i : 0 <= n -> 0 <= i -> znth (drop (Z.to_nat n) l) i = znth l (n + i).
Proof.
  unfold znth. intros. rewrite (proj2 (Z.leb_le 0 i)), (proj2 (Z.leb_le 0 (n + i))), lookup_drop by lia. f_equal. lia.
Qed.

Lemma znth_eq l s :
  zlen l = zlen s -> (forall i, 0 <= i < zlen l -> znth l i = znth s i) -> l = s.
Proof.
  intros Hlen Heq. apply list_eq. intros i.
  destruct (decide (i < length l)%nat).
  - rewrite <-!znth_of_nat. apply Heq. unfold zlen. lia.
  - rewrite !lookup_ge_None_2; [reflexivity| |]; unfold zlen in Hlen; lia.
Qed.

Lemma arr_get_Ret l i x : znth l i = Some x -> arr_get l i = Ret x.
Proof. unfold arr_get. intros ->. reflexivity. Qed.

Lemma arr_get_inv l i x : arr_get l i = Ret x -> znth l i = Some x.
Proof. unfold arr_get. destruct (znth l i); congruence. Qed.

Lemma arr_set_Ret l i v : 0 <= i < zlen l -> arr_set l i v = Ret (zset l i v).
Proof.
  intros. unfold arr_set.
  rewrite (proj2 (Z.leb_le _ _)), (proj2 (Z.ltb_lt _ _)) by lia. reflexivity.
Qed.

Lemma zlen_pad_to n x l : zlen (pad_to n x l) = Z.max n (zlen l).
Proof. unfold pad_to. rewrite zlen_app, zlen_replicate. pose proof (zlen_nonneg l). lia. Qed.

Lemma pad_to_id n x l : n <= zlen l -> pad_to n x l = l.
Proof.
  intros. unfold pad_to. replace (Z.to_nat (n - zlen l)) with 0%nat by lia.
  apply app_nil_r.
Qed.

Lemma pad_to_step n x l : zlen l < n -> pad_to n x (l ++ [x]) = pad_to n x l.
Proof.
  intros. unfold pad_to. rewrite <-app_assoc. f_equal. rewrite zlen_app.
  replace (Z.to_nat (n - zlen l)) with (S (Z.to_nat (n - (zlen l + zlen [x]))))
    by (unfold zlen at 2; simpl; lia).
  reflexivity.
Qed.

Lemma znth_pad_to n x l k :
  znth (pad_to n x l) k =
  if k <? zlen l then znth l k else if k <? n then Some x else None.
Proof.
  pose proof (zlen_nonneg l). unfold pad_to. destruct (Z.ltb_spec k (zlen l)).
  - apply znth_app_l. lia.
  - rewrite znth_app_r by lia. destruct (Z.ltb_spec k n).
    + apply znth_replicate. lia.
    + apply znth_ge_None. rewrite zlen_replicate. lia.
Qed.

Lemma zlen_overlay x data : forall l off, 0 <= off ->
  zlen (overlay x l off data) =
  if zlen data =? 0 then zlen l else Z.max (zlen l) (off + zlen data).
Proof.
  induction data as [|v data IH]; intros l off Hoff; simpl; [reflexivity|].
  rewrite IH by lia. rewrite zlen_zset, zlen_pad_to, zlen_cons.
  pose proof (zlen_nonneg data). pose proof (zlen_nonneg l).
  destruct (Z.eqb_spec (zlen data) 0), (Z.eqb_spec (zlen data + 1) 0); lia.
Qed.

Lemma znth_overlay x data : forall l off k, 0 <= off ->
  znth (overlay x l off data) k =
  if (off <=? k) && (k <? off + zlen data) then znth data (k - off)
  else if (k <? zlen l) || (zlen data =? 0) then znth l k
  else if k <? off then Some x else None.
Proof.
  induction data as [|v data IH]; intros l off k Hoff.
  - simpl. change (zlen []) with 0. rewrite orb_true_r.
    destruct ((off <=? k) && (k <? off + 0)) eqn:E; [lia|reflexivity].
  - cbn [overlay]. rewrite IH by lia. clear IH.
    rewrite zlen_zset, zlen_pad_to, zlen_cons, znth_zset, zlen_pad_to, znth_pad_to.
    pose proof (zlen_nonneg data). pose proof (zlen_nonneg l).
    destruct (Z.lt_trichotomy k off) as [Hk|[->|Hk]].
    + zb_case (off + 1 <=? k). zb_case (off <=? k). zb_case (off =? k). zb_case (k <? off).
      zb_case (zlen data + 1 =? 0). simpl. rewrite orb_false_r.
      zb_case (k <? Z.max (off + 1) (zlen l)). zb_case (k <? off + 1). reflexivity.
    + zb_case (off + 1 <=? off). zb_case (off <=? off). zb_case (off <? off + (zlen data + 1)).
      zb_case (off =? off). zb_case (0 <=? off). zb_case (off <? Z.max (off + 1) (zlen l)).
      simpl. rewrite Z.sub_diag. reflexivity.
    + zb_case (off + 1 <=? k). zb_case (off <=? k). zb_case (off =? k). zb_case (k <? off).
      replace (off + 1 + zlen data) with (off + (zlen data + 1)) by lia. simpl.
      destruct (Z.ltb_spec k (off + (zlen data + 1))); simpl.
      * rewrite znth_cons_pos by lia. f_equal. lia.
      * zb_case (k <? off + 1). zb_case (zlen data + 1 =? 0). rewrite orb_false_r.
        destruct (Z.ltb_spec k (zlen l)).
        -- zb_case (k <? Z.max (off + 1) (zlen l)). reflexivity.
        -- destruct (_ || _); reflexivity.
Qed.

Lemma overlay_append x l data : overlay x l (zlen l) data = l ++ data.
Proof.
  pose proof (zlen_nonneg l). pose proof (zlen_nonneg data).
  apply znth_eq.
  - rewrite zlen_overlay, zlen_app by lia. destruct (Z.eqb_spec (zlen data) 0); lia.
  - intros k Hk. rewrite znth_overlay by lia.
    rewrite zlen_overlay in Hk by lia.
    destruct (Z.leb_spec (zlen l) k), (Z.ltb_spec k (zlen l + zlen data)),
      (Z.ltb_spec k (zlen l)), (Z.eqb_spec (zlen data) 0); simpl; try lia;
      first [rewrite znth_app_r by lia; reflexivity | rewrite znth_app_l by lia; reflexivity].
Qed.

Lemma length_blit d i s : (i + length s <= length d)%nat -> length (blit d i s) = length d.
Proof. intros. unfold blit. rewrite !length_app, length_take, length_drop. lia. Qed.

Lemma lookup_blit d i s j :
  (i + length s <= length d)%nat ->
  blit d i s !! j =
  if decide (i <= j < i + length s)%nat then s !! (j - i)%nat else d !! j.
Proof.
  intros Hle. unfold blit. destruct (decide (j < i)%nat).
  - rewrite lookup_app_l by (rewrite length_take; lia).
    rewrite lookup_take_lt by lia. rewrite decide_False by lia. reflexivity.
  - rewrite lookup_app_r by (rewrite length_take; lia). rewrite length_take_le by lia.
    destruct (decide (j < i + length s)%nat).
    + rewrite lookup_app_l by lia. rewrite decide_True by lia. reflexivity.
    + rewrite lookup_app_r by lia. rewrite lookup_drop, decide_False by lia.
      f_equal. lia.
Qed.

Lemma blit_nil d i : blit d i [] = d.
Proof. unfold blit. simpl. rewrite Nat.add_0_r. apply take_drop. Qed.

Lemma arr_blit_Ret d i s n :
  0 <= i -> 0 <= n -> i + n <= zlen d -> n <= zlen s ->
  arr_blit d i s n = Ret (blit d (Z.to_nat i) (take (Z.to_nat n) s)).
Proof.
  intros. unfold arr_blit. repeat (rewrite (proj2 (Z.leb_le _ _)) by lia). reflexivity.
Qed.
End arrays.

#[export] Hint Rewrite @zlen_app @zlen_cons @zlen_zset @zlen_replicate @zlen_pad_to : peos_rw.
#[export] Hint Resolve zlen_nonneg : peos.

(** ** Lemmas on machine integers *)

Lemma u32_small x : 0 <= x < 2 ^ 32 -> u32 x = x.
Proof. apply Z.mod_small. Qed.

Lemma u16_small x : 0 <= x < 2 ^ 16 -> u16 x = x.
Proof. apply Z.mod_small. Qed.

Lemma u32_range x : 0 <= u32 x < 2 ^ 32.
Proof. apply Z.mod_pos_bound. lia. Qed.

Lemma u16_range x : 0 <= u16 x < 2 ^ 16.
Proof. apply Z.mod_pos_bound. lia. Qed.

Lemma u8_range x : 0 <= u8 x < 2 ^ 8.
Proof. apply Z.mod_pos_bound. lia. Qed.

(** Adding a multiple of the modulus to both indices of a circular buffer
    does not change the slots they denote. *)
Lemma mod_shift a b m : m <> 0 -> (a - b * m) mod m = a mod m.
Proof. intros. rewrite <-(Z.mod_add a (- b) m) by done. f_equal. lia. Qed.

(** Two positions less than [m] apart denote different slots. *)
Lemma mod_inj_lt a b m : 0 < m -> a <= b < a + m -> a mod m = b mod m -> a = b.
Proof.
  intros ? ? Heq. pose proof (Z.div_mod a m ltac:(lia)) as Ha.
  pose proof (Z.div_mod b m ltac:(lia)) as Hb. rewrite Heq in Ha.
  assert (b - a = m * (b / m - a / m)) by lia.
  assert (b / m - a / m = 0) by nia. nia.
Qed.

(** ** Lemmas on bit operations *)

Lemma land_ones_mod x n : 0 <= n -> Z.land x (2 ^ n - 1) = x mod 2 ^ n.
Proof. intros Hn. rewrite <-Z.land_ones by exact Hn. f_equal. rewrite Z.ones_equiv. lia. Qed.

Lemma land_lnot_mod x n : 0 <= n -> Z.land x (Z.lnot (2 ^ n - 1)) = x / 2 ^ n * 2 ^ n.
Proof.
  intros Hn. replace (2 ^ n - 1) with (Z.ones n) by (rewrite Z.ones_equiv; lia). rewrite <-Z.ldiff_land, Z.ldiff_ones_r, Z.shiftl_mul_pow2, Z.shiftr_div_pow2 by exact Hn. reflexivity.
Qed.

Lemma lor_below n x y : 0 <= n -> 0 <= x < 2 ^ n -> 0 <= y < 2 ^ n -> 0 <= Z.lor x y < 2 ^ n.
Proof.
  intros Hn Hx Hy. split; [apply Z.lor_nonneg; lia|]. replace (Z.lor x y) with (Z.lor x y mod 2 ^ n); [apply Z.mod_pos_bound, Z.pow_pos_nonneg; lia|].
  rewrite <-Z.land_ones, Z.land_lor_distr_l, !Z.land_ones, !Z.mod_small by lia. reflexivity.
Qed.

(** Bitwise or of numbers that occupy different bits is their sum. *)
Lemma land_shiftl_small a b n : 0 <= n -> 0 <= b < 2 ^ n -> Z.land (Z.shiftl a n) b = 0.
Proof.
  intros Hn Hb. apply Z.bits_inj'. intros i Hi.
  rewrite Z.land_spec, Z.bits_0, Z.shiftl_spec by assumption.
  destruct (Z.lt_ge_cases i n); [rewrite (Z.testbit_neg_r a) by lia; reflexivity|].
  rewrite <-(Z.mod_small b (2 ^ n)) by assumption. rewrite Z.mod_pow2_bits_high by lia. apply andb_false_r.
Qed.

Lemma lor_shiftl_add a b n : 0 <= n -> 0 <= b < 2 ^ n -> Z.lor (Z.shiftl a n) b = a * 2 ^ n + b.
Proof.
  intros Hn Hb. pose proof (land_shiftl_small a b n Hn Hb) as H0.
  rewrite <-(Z.shiftl_mul_pow2 a n Hn), Z.add_nocarry_lxor, Z.lxor_lor by assumption. reflexivity.
Qed.
