(* ===== verification/Queue.v ===== *)
(** * p2::queue (libraries/support/queue.h)

    The bounded FIFO on a circular array.  [queue.t] has the fields of the
    class; the operations keep the unbounded-looking indices of the source and
    its signed 32 bit arithmetic, checked for overflow.  The abstraction
    [queue.rep] relates a queue to the list of its elements, and the
    refinement lemmas show that each operation implements the list operation
    it stands for, without overflow and inside the array. *)

From S2P Require Import Prelude.

Module queue.

Record t (T : Type) := mk {
  items : list T;
  read_idx : Z;
  write_idx : Z
}.
Arguments mk {T}.
Arguments items {T}.
Arguments read_idx {T}.
Arguments write_idx {T}.

Section ops.
Context {T : Type}.
Variable MaxLen : Z.
Variable dflt : T.
Implicit Type q : t T.

(** The member initializers: the array holds whatever storage it was given. *)
Definition init (storage : list T) : t T := mk storage 0 0.

Definition normalize q : outcome (t T) :=
  let smallest := Z.quot (read_idx q) MaxLen in
  k ← i32 (smallest * MaxLen);
  r ← i32 (read_idx q - k);
  w ← i32 (write_idx q - k);
  Ret (mk (items q) r w).

Definition push_back q (val : T) : outcome (t T * bool) :=
  n ← i32 (write_idx q - read_idx q);
  if n >=? MaxLen then Ret (q, false)
  else
    its ← arr_set (items q) (Z.rem (write_idx q) MaxLen) val;
    w ← i32 (write_idx q + 1);
    q' ← normalize (mk its (read_idx q) w);
    Ret (q', true).

(** [while (_read_idx + offset >= _write_idx && push_back(T()));] *)
Fixpoint replace_fill (fuel : nat) q (offset : Z) : outcome (t T) :=
  match fuel with
  | O => NoFuel
  | S fuel' =>
      pos ← i32 (read_idx q + offset);
      if pos >=? write_idx q then
        '(q', ok) ← push_back q dflt;
        if ok : bool then replace_fill fuel' q' offset else Ret q'
      else Ret q
  end.

Definition replace_fuel : nat := S (S (Z.to_nat MaxLen)).

Definition replace q (offset : Z) (val : T) : outcome (t T * bool) :=
  q1 ← replace_fill replace_fuel q offset;
  pos ← i32 (read_idx q1 + offset);
  if pos >? write_idx q1 then Ret (q1, false)
  else
    its ← arr_set (items q1) (Z.rem pos MaxLen) val;
    Ret (mk its (read_idx q1) (write_idx q1), true).

Definition pop_front q : outcome (t T * T) :=
  x ← arr_get (items q) (Z.rem (read_idx q) MaxLen);
  r ← i32 (read_idx q + 1);
  Ret (mk (items q) r (write_idx q), x).

Definition front q : outcome T := arr_get (items q) (Z.rem (read_idx q) MaxLen).

Definition size q : Z := write_idx q - read_idx q.

Definition full q : bool := size q =? MaxLen.

Definition begin q : Z := read_idx q.

Definition end_ q : Z := write_idx q.

(** [operator [] (int idx)] *)
Definition at_ q (idx : Z) : outcome T := arr_get (items q) (Z.rem idx MaxLen).

Definition clear q : t T := mk (items q) 0 0.

(** ** The abstraction *)

Record rep q (l : list T) : Prop := {
  rep_items : zlen (items q) = MaxLen;
  rep_read : 0 <= read_idx q;
  rep_size : write_idx q = read_idx q + zlen l;
  rep_cap : zlen l <= MaxLen;
  rep_bound : write_idx q < 2 * MaxLen;
  rep_nth : forall k, 0 <= k < zlen l ->
    znth (items q) ((read_idx q + k) mod MaxLen) = znth l k
}.

Hypothesis MaxLen_pos : 0 < MaxLen.
Hypothesis MaxLen_int : 2 * MaxLen <= INT_MAX.

Lemma queue_rep_init storage : zlen storage = MaxLen -> rep (init storage) [].
Proof. intros. split; unfold zlen in *; simpl in *; lia. Qed.

Lemma queue_rep_clear q l : rep q l -> rep (clear q) [].
Proof. intros []. apply queue_rep_init. assumption. Qed.

Lemma queue_rep_len_size q l : rep q l -> size q = zlen l.
Proof. intros []. unfold size. lia. Qed.

Lemma queue_rep_full q l : rep q l -> full q = (zlen l =? MaxLen).
Proof. intros Hr. unfold full. rewrite (queue_rep_len_size _ _ Hr). reflexivity. Qed.

(** Moving both indices down by a multiple of the capacity keeps the contents. *)
Lemma queue_rep_normalize its r w l :
  zlen its = MaxLen -> 0 <= r -> w = r + zlen l -> zlen l <= MaxLen -> w <= 2 * MaxLen ->
  (forall k, 0 <= k < zlen l -> znth its ((r + k) mod MaxLen) = znth l k) ->
  exists q', normalize (mk its r w) = Ret q' /\ rep q' l /\ read_idx q' < MaxLen.
Proof.
  intros Hits Hr Hw Hcap Hb Hnth. pose proof (zlen_nonneg l).
  pose proof (Z.quot_rem' r MaxLen). pose proof (Z.rem_bound_pos r MaxLen ltac:(lia) ltac:(lia)).
  assert (0 <= Z.quot r MaxLen) by (apply Z.quot_pos; lia).
  unfold normalize; simpl. unfold INT_MAX in *.
  i32_step.
  i32_step.
  i32_step.
  eexists; split; [reflexivity|]. split; [|simpl; lia].
  split; simpl; try lia.
  intros k Hk. rewrite <-Hnth by lia. f_equal.
  replace (r - Z.quot r MaxLen * MaxLen + k) with (r + k - Z.quot r MaxLen * MaxLen) by lia.
  apply mod_shift. lia.
Qed.

Lemma queue_rem_slot x : 0 <= x -> Z.rem x MaxLen = x mod MaxLen.
Proof. intros. apply Z.rem_mod_nonneg; lia. Qed.

Lemma queue_slot_range x : 0 <= x mod MaxLen < MaxLen.
Proof. apply Z.mod_pos_bound. assumption. Qed.

Lemma queue_push_back_full q l v : rep q l -> zlen l = MaxLen -> push_back q v = Ret (q, false).
Proof.
  intros Hr Hfull. destruct Hr as [Hi Hrd Hs Hc Hb Hn]. unfold push_back.
  i32_step.
  rewrite Z.geb_leb, (proj2 (Z.leb_le _ _)) by lia. reflexivity.
Qed.

Lemma queue_push_back_room q l v : rep q l -> zlen l < MaxLen ->
  exists q', push_back q v = Ret (q', true) /\ rep q' (l ++ [v]).
Proof.
  intros Hr Hroom. pose proof (zlen_nonneg l). destruct Hr as [Hi Hrd Hs Hc Hb Hn].
  unfold push_back. i32_step.
  rewrite Z.geb_leb, (proj2 (Z.leb_gt _ _)) by lia.
  pose proof (queue_slot_range (write_idx q)).
  rewrite queue_rem_slot, arr_set_Ret by lia. simpl.
  i32_step.
  destruct (queue_rep_normalize (zset (items q) (write_idx q mod MaxLen) v)
              (read_idx q) (write_idx q + 1) (l ++ [v])) as (q' & -> & Hrep & _);
    rewrite ?zlen_zset, ?zlen_app; change (zlen [v]) with 1; try lia.
  - intros k Hk. destruct (decide (k = zlen l)) as [->|].
    + rewrite znth_app_r, Z.sub_diag by lia. simpl. rewrite <-Hs.
      apply znth_zset_eq. lia.
    + rewrite znth_app_l by lia. rewrite <-Hn by lia. apply znth_zset_ne.
      intros Heq. symmetry in Heq. apply (mod_inj_lt (read_idx q + k)) in Heq; lia.
  - exists q'. split; [reflexivity|assumption].
Qed.

(** [replace_fill] extends the queue with default elements up to [offset]. *)
Lemma queue_replace_fill_spec fuel : forall q l offset,
  rep q l -> 0 <= offset <= INT_MAX - 2 * MaxLen -> (Z.to_nat (MaxLen - zlen l) < fuel)%nat ->
  exists q', replace_fill fuel q offset = Ret q' /\
             rep q' (pad_to (Z.min (offset + 1) MaxLen) dflt l).
Proof.
  induction fuel as [|fuel IH]; intros q l offset Hr Ho Hf; [lia|].
  pose proof Hr as [Hi Hrd Hs Hc Hb Hn]. pose proof (zlen_nonneg l).
  simpl. i32_step.
  rewrite Z.geb_leb. destruct (Z.leb_spec (write_idx q) (read_idx q + offset)).
  - destruct (decide (zlen l = MaxLen)).
    + rewrite (queue_push_back_full q l) by assumption. simpl.
      exists q. rewrite pad_to_id by lia. auto.
    + destruct (queue_push_back_room q l dflt) as (q' & -> & Hr'); [assumption|lia|]. simpl.
      destruct (IH q' (l ++ [dflt]) offset) as (q'' & -> & Hr''); auto.
      * rewrite zlen_app. change (zlen [dflt]) with 1. lia.
      * exists q''. split; [reflexivity|]. rewrite pad_to_step in Hr'' by lia. assumption.
  - exists q. rewrite pad_to_id by lia. auto.
Qed.

(** Overwriting one element of the contents *)
Lemma queue_rep_set q l k v : rep q l -> 0 <= k < zlen l ->
  rep (mk (zset (items q) ((read_idx q + k) mod MaxLen) v) (read_idx q) (write_idx q)) (zset l k v).
Proof.
  intros [Hi Hrd Hs Hc Hb Hn] Hk. pose proof (queue_slot_range (read_idx q + k)).
  split; simpl; rewrite ?zlen_zset; try lia.
  intros j Hj. destruct (decide (j = k)) as [->|].
  - rewrite !znth_zset_eq by lia. reflexivity.
  - rewrite (znth_zset_ne l) by congruence. rewrite <-Hn by lia. apply znth_zset_ne.
    intros Heq. destruct (decide (j < k)).
    + symmetry in Heq. apply (mod_inj_lt (read_idx q + j)) in Heq; lia.
    + apply (mod_inj_lt (read_idx q + k)) in Heq; lia.
Qed.

Lemma queue_replace_fill_rep q l offset : rep q l -> 0 <= offset <= INT_MAX - 2 * MaxLen ->
  exists q', replace_fill replace_fuel q offset = Ret q' /\
             rep q' (pad_to (Z.min (offset + 1) MaxLen) dflt l).
Proof.
  intros Hr Ho. apply queue_replace_fill_spec; auto. pose proof (zlen_nonneg l).
  unfold replace_fuel. lia.
Qed.

Lemma queue_replace_rep q l offset v : rep q l -> 0 <= offset < MaxLen -> offset <= INT_MAX - 2 * MaxLen ->
  exists q', replace q offset v = Ret (q', true) /\
             rep q' (zset (pad_to (offset + 1) dflt l) offset v).
Proof.
  intros Hr Ho Hi. destruct (queue_replace_fill_rep q l offset Hr ltac:(lia)) as (q1 & E & Hr1).
  unfold replace. rewrite E; simpl. rewrite Z.min_l in Hr1 by lia.
  pose proof Hr1 as [Hits Hrd Hs Hc Hb Hn]. rewrite zlen_pad_to in *.
  pose proof (queue_slot_range (read_idx q1 + offset)).
  i32_step.
  rewrite Z.gtb_ltb, (proj2 (Z.ltb_ge _ _)) by lia.
  rewrite queue_rem_slot, arr_set_Ret by lia. simpl.
  eexists. split; [reflexivity|]. apply queue_rep_set; auto. rewrite zlen_pad_to. lia.
Qed.

(** [replace] at the capacity: the guard is off by one and the front element
    is overwritten. *)
Lemma queue_replace_at_capacity q l v : rep q l -> MaxLen <= INT_MAX - 2 * MaxLen ->
  exists q', replace q MaxLen v = Ret (q', true) /\ rep q' (zset (pad_to MaxLen dflt l) 0 v).
Proof.
  intros Hr Hi. destruct (queue_replace_fill_rep q l MaxLen Hr ltac:(lia)) as (q1 & E & Hr1).
  unfold replace. rewrite E; simpl. rewrite Z.min_r in Hr1 by lia.
  pose proof Hr1 as [Hits Hrd Hs Hc Hb Hn]. rewrite zlen_pad_to in *. pose proof (rep_cap _ _ Hr).
  pose proof (queue_slot_range (read_idx q1 + 0)).
  i32_step.
  rewrite Z.gtb_ltb, (proj2 (Z.ltb_ge _ _)) by lia.
  assert ((read_idx q1 + MaxLen) mod MaxLen = (read_idx q1 + 0) mod MaxLen) as Em
    by (rewrite <-(Z.mod_add (read_idx q1 + 0) 1 MaxLen) by lia; f_equal; lia).
  rewrite queue_rem_slot, Em, arr_set_Ret by lia. simpl.
  eexists. split; [reflexivity|]. apply queue_rep_set; auto. rewrite zlen_pad_to. lia.
Qed.

Lemma queue_replace_beyond q l offset v : rep q l -> MaxLen < offset <= INT_MAX - 2 * MaxLen ->
  exists q', replace q offset v = Ret (q', false) /\ rep q' (pad_to MaxLen dflt l).
Proof.
  intros Hr Ho. destruct (queue_replace_fill_rep q l offset Hr ltac:(lia)) as (q1 & E & Hr1).
  unfold replace. rewrite E; simpl. rewrite Z.min_r in Hr1 by lia.
  pose proof Hr1 as [Hits Hrd Hs Hc Hb Hn]. rewrite zlen_pad_to in *. pose proof (rep_cap _ _ Hr).
  i32_step.
  rewrite Z.gtb_ltb, (proj2 (Z.ltb_lt _ _)) by lia. eauto.
Qed.

Lemma queue_at_rep q l k x : rep q l -> znth l k = Some x -> at_ q (begin q + k) = Ret x.
Proof.
  intros [Hi Hrd Hs Hc Hb Hn] Hx. pose proof (znth_Some_lt _ _ _ Hx).
  unfold at_, begin. rewrite queue_rem_slot by lia. apply arr_get_Ret. rewrite Hn by lia. assumption.
Qed.

Lemma queue_front_rep q x l : rep q (x :: l) -> front q = Ret x.
Proof.
  intros Hr. pose proof (queue_at_rep q (x :: l) 0 x Hr eq_refl) as H.
  unfold at_, begin in H. rewrite Z.add_0_r in H. exact H.
Qed.

Lemma queue_pop_front_rep q x l : rep q (x :: l) ->
  exists q', pop_front q = Ret (q', x) /\ rep q' l.
Proof.
  intros Hr. unfold pop_front. pose proof (queue_front_rep _ _ _ Hr) as Hf. unfold front in Hf.
  rewrite Hf; simpl. destruct Hr as [Hi Hrd Hs Hc Hb Hn]. rewrite zlen_cons in *.
  pose proof (zlen_nonneg l).
  i32_step.
  eexists. split; [reflexivity|]. split; simpl; try lia.
  intros k Hk. replace (read_idx q + 1 + k) with (read_idx q + (k + 1)) by lia.
  rewrite Hn by lia. rewrite znth_cons_pos by lia. f_equal. lia.
Qed.

(** ** Sequences of operations and their specification *)

Inductive op := OPush (v : T) | OPop | OReplace (offset : Z) (v : T) | OClear.

Inductive res := RBool (b : bool) | RVal (v : T) | RUnit.

Definition step q (o : op) : outcome (t T * res) :=
  match o with
  | OPush v => '(q', b) ← push_back q v; Ret (q', RBool b)
  | OPop => '(q', v) ← pop_front q; Ret (q', RVal v)
  | OReplace k v => '(q', b) ← replace q k v; Ret (q', RBool b)
  | OClear => Ret (clear q, RUnit)
  end.

Fixpoint run q (os : list op) : outcome (t T * list res) :=
  match os with
  | [] => Ret (q, [])
  | o :: os' =>
      '(q', r) ← step q o;
      '(q'', rs) ← run q' os';
      Ret (q'', r :: rs)
  end.

(** What the queue does, on the list of its elements.  A replace at the
    capacity fills the queue up and overwrites the front, one beyond it fills
    the queue up and is refused.  [None] when the caller breaks the contract:
    pop of an empty queue ("Don't call this if size() == 0"), a negative offset
    or one near the end of the range of [int]. *)
Definition spec_step (l : list T) (o : op) : option (list T * res) :=
  match o with
  | OPush v => if zlen l <? MaxLen then Some (l ++ [v], RBool true) else Some (l, RBool false)
  | OPop => match l with [] => None | x :: l' => Some (l', RVal x) end
  | OReplace k v =>
      if (0 <=? k) && (k <? MaxLen) then Some (zset (pad_to (k + 1) dflt l) k v, RBool true)
      else if k =? MaxLen then Some (zset (pad_to MaxLen dflt l) 0 v, RBool true)
      else if (MaxLen <? k) && (k <=? INT_MAX - 2 * MaxLen) then Some (pad_to MaxLen dflt l, RBool false)
      else None
  | OClear => Some ([], RUnit)
  end.

Fixpoint spec_run (l : list T) (os : list op) : option (list T * list res) :=
  match os with
  | [] => Some (l, [])
  | o :: os' =>
      match spec_step l o with
      | None => None
      | Some (l', r) =>
          match spec_run l' os' with
          | None => None
          | Some (l'', rs) => Some (l'', r :: rs)
          end
      end
  end.

Hypothesis MaxLen_int3 : 3 * MaxLen <= INT_MAX.

Lemma queue_step_refines q l o l' r : rep q l -> spec_step l o = Some (l', r) ->
  exists q', step q o = Ret (q', r) /\ rep q' l'.
Proof.
  intros Hr Hs. destruct o as [v| |k v|]; simpl in Hs.
  - destruct (Z.ltb_spec (zlen l) MaxLen); simplify_eq.
    + destruct (queue_push_back_room q l v Hr) as (q' & E & Hr'); [assumption|].
      simpl. rewrite E. eexists; split; [reflexivity|assumption].
    + pose proof (rep_cap _ _ Hr). simpl. rewrite (queue_push_back_full q l' v Hr) by lia.
      eexists; split; [reflexivity|assumption].
  - destruct l as [|x l0]; simplify_eq.
    destruct (queue_pop_front_rep q x l' Hr) as (q' & E & Hr'). simpl. rewrite E.
    eexists; split; [reflexivity|assumption].
  - assert (exists b q', r = RBool b /\ replace q k v = Ret (q', b) /\ rep q' l') as (b & q' & -> & E & Hr').
    { destruct ((0 <=? k) && (k <? MaxLen)) eqn:Ek; [|destruct (Z.eqb_spec k MaxLen) as [->|]; [|destruct ((MaxLen <? k) && (k <=? INT_MAX - 2 * MaxLen)) eqn:Eb]]; simplify_eq.
      - destruct (queue_replace_rep q l k v Hr) as (q' & ? & ?); [lia|lia|]. eauto 10.
      - destruct (queue_replace_at_capacity q l v Hr) as (q' & ? & ?); [lia|]. eauto 10.
      - destruct (queue_replace_beyond q l k v Hr) as (q' & ? & ?); [lia|]. eauto 10. }
    simpl. rewrite E. eexists; split; [reflexivity|assumption].
  - simplify_eq. simpl. eexists; split; [reflexivity|]. eapply queue_rep_clear; eassumption.
Qed.

Lemma queue_run_refines os : forall q l l' rs, rep q l -> spec_run l os = Some (l', rs) ->
  exists q', run q os = Ret (q', rs) /\ rep q' l'.
Proof.
  induction os as [|o os IH]; intros q l l' rs Hr Hs; simpl in Hs; simplify_eq.
  - exists q. auto.
  - destruct (spec_step l o) as [[l1 r]|] eqn:E1; [|discriminate].
    destruct (spec_run l1 os) as [[l2 rs']|] eqn:E2; simplify_eq.
    destruct (queue_step_refines q l o l1 r Hr E1) as (q1 & E & Hr1).
    destruct (IH q1 l1 l' rs' Hr1 E2) as (q2 & E' & Hr2).
    exists q2. simpl. rewrite E. simpl. rewrite E'. auto.
Qed.
End ops.
Arguments OPop {T}.
Arguments OClear {T}.
Arguments RUnit {T}.
Arguments RBool {T}.

(** C1.  The circular queue refines a bounded list.  Any sequence of pushes,
    pops, replaces and clears that never pops an empty queue and replaces only
    at non-negative offsets (up to [INT_MAX - 2 * MaxLen]) runs on the circular
    array without signed overflow and without leaving the array, returns
    exactly the results that [spec_run] gives on the list of elements, and ends
    in a queue that represents the resulting list.  A push on a full queue is
    refused and changes nothing; a replace at exactly the capacity, where the
    guard of the code is off by one, reports success and overwrites the front
    element; one beyond the capacity is refused, but has filled the queue. *)
Theorem queue_refines_fifo {T} (MaxLen : Z) (dflt : T) (storage : list T)
    (ops : list (op (T:=T))) (l : list T) (rs : list (res (T:=T))) :
  0 < MaxLen -> 3 * MaxLen <= INT_MAX -> zlen storage = MaxLen ->
  spec_run MaxLen dflt [] ops = Some (l, rs) ->
  exists q, run MaxLen dflt (init storage) ops = Ret (q, rs) /\ rep MaxLen q l.
Proof.
  intros Hpos Hint Hst Hs. eapply queue_run_refines; eauto; [lia|].
  apply queue_rep_init; auto.
Qed.

Lemma queue_refines_fifo_witness :
  exists q, run 2 0 (init [7; 7]) [OPush 1; OPush 2; OPush 3; OPop; OReplace 1 9; OPop; OReplace 2 5; OPop; OReplace 3 5; OPop; OPop]
    = Ret (q, [RBool true; RBool true; RBool false; RVal 1; RBool true; RVal 2; RBool true; RVal 5; RBool false; RVal 0; RVal 0])
    /\ rep 2 q [].
Proof.
  apply (queue_refines_fifo 2 0 [7; 7]); [lia | unfold INT_MAX; lia | reflexivity | reflexivity].
Defined.

(** [replace] with an offset equal to the capacity is accepted although
    no such element exists: the guard [_read_idx + offset > _write_idx] is off
    by one, so the call reports success and overwrites the front element. *)
Theorem queue_replace_clobbers_front {T} (MaxLen : Z) (dflt : T) (q : t T) (l : list T) (v : T) :
  0 < MaxLen -> 3 * MaxLen <= INT_MAX -> rep MaxLen q l ->
  exists q', replace MaxLen dflt q MaxLen v = Ret (q', true) /\
             rep MaxLen q' (zset (pad_to MaxLen dflt l) 0 v) /\ front MaxLen q' = Ret v.
Proof.
  intros Hpos Hint Hr. assert (2 * MaxLen <= INT_MAX) by lia.
  destruct (queue_replace_at_capacity MaxLen dflt Hpos H q l v Hr ltac:(lia)) as (q' & E & Hr').
  exists q'. split; [assumption|]. split; [assumption|].
  assert (zlen (zset (pad_to MaxLen dflt l) 0 v) > 0) as Hl
    by (rewrite zlen_zset, zlen_pad_to; lia).
  destruct (zset (pad_to MaxLen dflt l) 0 v) as [|x l'] eqn:El; [unfold zlen in Hl; simpl in Hl; lia|].
  rewrite (queue_front_rep MaxLen Hpos q' x l' Hr'). f_equal.
  assert (znth (x :: l') 0 = Some v) as Hx by
    (rewrite <-El; apply znth_zset_eq; rewrite zlen_pad_to; lia).
  rewrite znth_cons_0 in Hx. congruence.
Qed.

Lemma queue_replace_clobbers_front_witness :
  exists q', replace 2 0 (mk [5; 6] 0 2) 2 9 = Ret (q', true) /\
             rep 2 q' (zset (pad_to 2 0 [5; 6]) 0 9) /\ front 2 q' = Ret 9.
Proof.
  apply (queue_replace_clobbers_front 2 0 (mk [5; 6] 0 2) [5; 6] 9);
    [lia | unfold INT_MAX; lia |].
  split; simpl; try (unfold zlen; simpl; lia).
  intros k Hk. unfold zlen in Hk; simpl in Hk.
  assert (k = 0 \/ k = 1) as [->| ->] by lia; reflexivity.
Defined.
End queue.
