(* ===== verification/RingBuffer.v ===== *)
(** * p2::ring_buffer (libraries/support/ring_buffer.h)

    The byte queue under the TCP send and receive queues and the network
    driver.  A ring buffer is a [queue.t] of bytes; the signed/unsigned
    conversions of the source are written out: [offset + length] is an
    unsigned sum, [i + offset] is converted back to [int].  A pointer and a
    length are one list. *)

From S2P Require Import Prelude Queue.

Module ring_buffer.

Abbreviation t := (queue.t Z).

Section ops.
Variable MaxLen : Z.
Implicit Type rb : t.

Definition size rb : Z := u32 (queue.size rb).

Definition capacity : Z := MaxLen.

Definition remaining rb : Z := u32 (capacity - size rb).

Definition clear rb : t := queue.clear rb.

(** [for (i = 0; i < length; ++i) { ok = _queue.replace(i + offset, data[i]); assert(ok); }] *)
Fixpoint write_loop rb (data : list Z) (pos : Z) : outcome t :=
  match data with
  | [] => Ret rb
  | c :: rest =>
      '(rb', push_ok) ← queue.replace MaxLen 0 rb (to_i32 pos) c;
      passert push_ok;;
      write_loop rb' rest (pos + 1)
  end.

Definition write rb (data : list Z) (offset : Z) : outcome (t * bool) :=
  let offset := if offset =? -1 then queue.size rb else offset in
  if u32 (offset + zlen data) >? capacity then Ret (rb, false)
  else
    rb' ← write_loop rb data offset;
    Ret (rb', true).

Fixpoint pop_loop rb (n : nat) : outcome (t * list Z) :=
  match n with
  | O => Ret (rb, [])
  | S n' =>
      '(rb', c) ← queue.pop_front MaxLen rb;
      '(rb'', cs) ← pop_loop rb' n';
      Ret (rb'', c :: cs)
  end.

(** The bytes written to [data]; their number is the returned count. *)
Definition read_front rb (max_length : Z) : outcome (t * list Z) :=
  pop_loop rb (Z.to_nat (Z.min max_length (size rb))).

Fixpoint peek_loop rb (start : Z) (n : nat) : outcome (list Z) :=
  match n with
  | O => Ret []
  | S n' =>
      c ← queue.at_ MaxLen rb (to_i32 (queue.begin rb + start));
      cs ← peek_loop rb (start + 1) n';
      Ret (c :: cs)
  end.

Definition peek rb (start length : Z) : outcome (list Z) :=
  e ← i32 (start + length);
  let max_length := Z.max (Z.min e (to_i32 (size rb)) - start) 0 in
  peek_loop rb start (Z.to_nat max_length).

Definition consume rb (max_length : Z) : outcome (t * Z) :=
  let n := Z.min max_length (size rb) in
  '(rb', _) ← pop_loop rb (Z.to_nat n);
  Ret (rb', n).

(** ** Refinement *)

Hypothesis MaxLen_pos : 0 < MaxLen.
Hypothesis MaxLen_int : 3 * MaxLen <= INT_MAX.

Definition rep rb (l : list Z) : Prop := queue.rep MaxLen rb l.

Let MaxLen_int2 : 2 * MaxLen <= INT_MAX.
Proof. lia. Qed.

Lemma rb_len_bound rb l : rep rb l -> 0 <= zlen l <= MaxLen.
Proof. intros Hr. pose proof (zlen_nonneg l). pose proof (queue.rep_cap _ _ _ Hr). lia. Qed.

Lemma rb_size rb l : rep rb l -> size rb = zlen l.
Proof.
  intros Hr. unfold size. rewrite (queue.queue_rep_len_size MaxLen rb l Hr).
  pose proof (rb_len_bound rb l Hr). apply u32_small. unfold INT_MAX in *. lia.
Qed.

Lemma rb_remaining rb l : rep rb l -> remaining rb = MaxLen - zlen l.
Proof.
  intros Hr. unfold remaining, capacity. rewrite (rb_size rb l Hr).
  pose proof (rb_len_bound rb l Hr). apply u32_small. unfold INT_MAX in *. lia.
Qed.

Lemma rb_clear rb l : rep rb l -> rep (clear rb) [].
Proof. intros Hr. eapply queue.queue_rep_clear; eassumption. Qed.

Lemma to_i32_id x : 0 <= x <= INT_MAX -> to_i32 x = x.
Proof.
  unfold INT_MAX, to_i32. intros. rewrite u32_small by lia.
  rewrite (proj2 (Z.ltb_lt _ _)) by lia. reflexivity.
Qed.

Lemma rb_write_loop data : forall rb l pos, rep rb l -> 0 <= pos -> pos + zlen data <= MaxLen ->
  exists rb', write_loop rb data pos = Ret rb' /\ rep rb' (overlay 0 l pos data).
Proof.
  induction data as [|c data IH]; intros rb l pos Hr Hp Hle; simpl.
  - exists rb. auto.
  - rewrite zlen_cons in Hle. pose proof (zlen_nonneg data).
    rewrite to_i32_id by (unfold INT_MAX in *; lia).
    destruct (queue.queue_replace_rep MaxLen 0 MaxLen_pos MaxLen_int2 rb l pos c Hr)
      as (rb1 & -> & Hr1); [lia|lia|].
    simpl. apply IH; auto; lia.
Qed.

Lemma rb_write rb l data offset :
  rep rb l -> 0 <= offset -> offset + zlen data <= MaxLen ->
  exists rb', write rb data offset = Ret (rb', true) /\ rep rb' (overlay 0 l offset data).
Proof.
  intros Hr Ho Hle. pose proof (zlen_nonneg data). unfold write, capacity.
  rewrite (proj2 (Z.eqb_neq _ _)) by lia.
  rewrite u32_small by (unfold INT_MAX in *; lia).
  rewrite Z.gtb_ltb, (proj2 (Z.ltb_ge _ _)) by lia.
  destruct (rb_write_loop data rb l offset) as (rb' & -> & Hr'); auto. simpl. eauto.
Qed.

Lemma rb_append rb l data :
  rep rb l -> zlen l + zlen data <= MaxLen ->
  exists rb', write rb data (-1) = Ret (rb', true) /\ rep rb' (l ++ data).
Proof.
  intros Hr Hle. pose proof (rb_len_bound rb l Hr). pose proof (zlen_nonneg data).
  unfold write, capacity. simpl. rewrite (queue.queue_rep_len_size MaxLen rb l Hr).
  rewrite u32_small by (unfold INT_MAX in *; lia).
  rewrite Z.gtb_ltb, (proj2 (Z.ltb_ge _ _)) by lia.
  destruct (rb_write_loop data rb l (zlen l)) as (rb' & -> & Hr'); auto; [lia|].
  rewrite overlay_append in Hr'. simpl. eauto.
Qed.

Lemma rb_write_refused rb l data offset :
  rep rb l -> 0 <= offset -> MaxLen < offset + zlen data < 2 ^ 32 ->
  write rb data offset = Ret (rb, false).
Proof.
  intros Hr Ho Hle. unfold write, capacity. rewrite (proj2 (Z.eqb_neq _ _)) by lia.
  rewrite u32_small by lia.
  rewrite Z.gtb_ltb, (proj2 (Z.ltb_lt _ _)) by lia. reflexivity.
Qed.

Lemma rb_append_refused rb l data :
  rep rb l -> MaxLen < zlen l + zlen data < 2 ^ 32 -> write rb data (-1) = Ret (rb, false).
Proof.
  intros Hr Hle. unfold write, capacity. simpl.
  rewrite (queue.queue_rep_len_size MaxLen rb l Hr), u32_small by (pose proof (zlen_nonneg l); pose proof (zlen_nonneg data); lia).
  rewrite Z.gtb_ltb, (proj2 (Z.ltb_lt _ _)) by lia. reflexivity.
Qed.

Lemma rb_pop_loop n : forall rb l, rep rb l -> (n <= length l)%nat ->
  exists rb', pop_loop rb n = Ret (rb', take n l) /\ rep rb' (drop n l).
Proof.
  induction n as [|n IH]; intros rb l Hr Hn; simpl.
  - exists rb. auto.
  - destruct l as [|c l]; [simpl in Hn; lia|].
    destruct (queue.queue_pop_front_rep MaxLen MaxLen_pos MaxLen_int2 rb c l Hr) as (rb1 & -> & Hr1).
    simpl. simpl in Hn. destruct (IH rb1 l Hr1 ltac:(lia)) as (rb2 & -> & Hr2). simpl. eauto.
Qed.

Lemma rb_read_front rb l n : rep rb l -> 0 <= n ->
  exists rb', read_front rb n = Ret (rb', take (Z.to_nat n) l) /\ rep rb' (drop (Z.to_nat n) l).
Proof.
  intros Hr Hn. unfold read_front. rewrite (rb_size rb l Hr).
  destruct (rb_pop_loop (Z.to_nat (Z.min n (zlen l))) rb l Hr) as (rb' & -> & Hr');
    [unfold zlen; lia|].
  exists rb'. destruct (decide (n <= zlen l)).
  - rewrite Z.min_l in * by lia. auto.
  - rewrite Z.min_r in * by lia. unfold zlen in *. rewrite Nat2Z.id in *.
    rewrite !take_ge, !drop_ge in * by lia. auto.
Qed.

Lemma rb_consume rb l n : rep rb l -> 0 <= n <= zlen l ->
  exists rb', consume rb n = Ret (rb', n) /\ rep rb' (drop (Z.to_nat n) l).
Proof.
  intros Hr Hn. unfold consume. rewrite (rb_size rb l Hr), Z.min_l by lia.
  destruct (rb_pop_loop (Z.to_nat n) rb l Hr) as (rb' & -> & Hr'); [unfold zlen in *; lia|].
  simpl. eauto.
Qed.

Lemma rb_peek_loop n : forall rb l start, rep rb l -> 0 <= start -> start + Z.of_nat n <= zlen l ->
  peek_loop rb start n = Ret (take n (drop (Z.to_nat start) l)).
Proof.
  induction n as [|n IH]; intros rb l start Hr Hs Hn; simpl; [reflexivity|].
  destruct (znth_lt_Some l start) as [c Hc]; [lia|].
  pose proof (rb_len_bound rb l Hr).
  pose proof (queue.rep_read _ _ _ Hr). pose proof (queue.rep_bound _ _ _ Hr).
  pose proof (queue.rep_size _ _ _ Hr).
  rewrite to_i32_id by (unfold queue.begin, INT_MAX in *; lia).
  rewrite (queue.queue_at_rep MaxLen MaxLen_pos rb l start c Hr Hc). simpl.
  rewrite (IH rb l (start + 1) Hr) by lia. simpl. f_equal.
  unfold znth in Hc. rewrite (proj2 (Z.leb_le 0 start)) in Hc by lia.
  rewrite (drop_S _ _ _ Hc). simpl. do 3 f_equal. lia.
Qed.

Lemma rb_peek rb l start n :
  rep rb l -> 0 <= start <= MaxLen -> 0 <= n <= MaxLen ->
  peek rb start n = Ret (take (Z.to_nat n) (drop (Z.to_nat start) l)).
Proof.
  intros Hr Hs Hn. pose proof (rb_len_bound rb l Hr). unfold peek. i32_step.
  rewrite (rb_size rb l Hr), to_i32_id by (unfold INT_MAX in *; lia).
  destruct (decide (start <= zlen l)).
  - rewrite (rb_peek_loop _ rb l start Hr) by lia. f_equal.
    destruct (decide (start + n <= zlen l)).
    + f_equal. lia.
    + rewrite !take_ge by (rewrite length_drop; unfold zlen in *; lia). reflexivity.
  - rewrite Z.max_r by lia. simpl. rewrite drop_ge by (unfold zlen in *; lia).
    rewrite take_nil. reflexivity.
Qed.
End ops.

(** C3.  Reassembly by offset: writing a block at an offset that fits, and then
    reading from the front, returns the old contents with the block laid over
    them; the gap between the old end and the offset reads as zero bytes.  No
    assertion fails and every index stays inside the array. *)
Theorem ring_buffer_write_read (MaxLen : Z) (rb : t) (l data : list Z) (offset : Z) :
  0 < MaxLen -> 3 * MaxLen <= INT_MAX -> rep MaxLen rb l ->
  0 <= offset -> offset + zlen data <= MaxLen ->
  exists rb1 rb2,
    write MaxLen rb data offset = Ret (rb1, true) /\
    read_front MaxLen rb1 MaxLen = Ret (rb2, overlay 0 l offset data) /\
    size rb2 = 0.
Proof.
  intros Hp Hi Hr Ho Hle.
  destruct (rb_write MaxLen Hp Hi rb l data offset Hr Ho Hle) as (rb1 & E1 & Hr1).
  destruct (rb_read_front MaxLen Hp Hi rb1 _ MaxLen Hr1 ltac:(lia)) as (rb2 & E2 & Hr2).
  pose proof (rb_len_bound MaxLen rb1 _ Hr1) as Hb.
  rewrite take_ge, drop_ge in * by (unfold zlen in Hb; lia).
  exists rb1, rb2. split; [assumption|]. split; [assumption|].
  rewrite (rb_size MaxLen Hi rb2 [] Hr2). reflexivity.
Qed.

Lemma ring_buffer_write_read_witness :
  exists rb1 rb2,
    write 8 (queue.init (replicate 8 7)) [1; 2] 3 = Ret (rb1, true) /\
    read_front 8 rb1 8 = Ret (rb2, overlay 0 [] 3 [1; 2]) /\ size rb2 = 0.
Proof.
  apply (ring_buffer_write_read 8 (queue.init (replicate 8 7)) [] [1; 2] 3);
    [lia | unfold INT_MAX; lia | apply queue.queue_rep_init; [lia|reflexivity] | lia | ].
  unfold zlen; simpl; lia.
Defined.
End ring_buffer.
