(* ===== verification/Pool.v ===== *)
(** * p2::pool and p2::fixed_pool (libraries/support/pool.h)

    The index allocator almost every table of the system is built on: slots in
    an array, a watermark, and a doubly linked list of freed slots threaded
    through the nodes.  The model keeps the node array, the links and the
    index sentinel ([END], the largest value of the index type).  [pool.rep]
    relates a pool to the ghost list of its free slots and to the finite map
    from live indices to values; every operation is shown to implement the
    corresponding operation on the map. *)

From S2P Require Import Prelude.
From Stdlib Require Import Sorted.
From stdpp Require Import gmap list.
#[local] Open Scope Z_scope.

Module pool.

Record node (T : Type) := mk_node {
  next_free : Z;
  prev_free : Z;
  value : option T   (* None: storage without a constructed object *)
}.
Arguments mk_node {T}.
Arguments next_free {T}.
Arguments prev_free {T}.
Arguments value {T}.

Record t (T : Type) := mk {
  data : list (node T);       (* [_data_begin, _data_end) *)
  watermark : Z;
  free_list_head : Z;
  free_list_tail : Z;
  count : Z
}.
Arguments mk {T}.
Arguments data {T}.
Arguments watermark {T}.
Arguments free_list_head {T}.
Arguments free_list_tail {T}.
Arguments count {T}.

Section ops.
Context {T : Type}.
Variable END : Z.
Implicit Type p : t T.
Implicit Type n : node T.

Definition capacity p : Z := zlen (data p).

Definition fresh_node : node T := mk_node END END None.

Definition set_next (i : Z) n : node T := mk_node i (prev_free n) (value n).
Definition set_prev (i : Z) n : node T := mk_node (next_free n) i (value n).
Definition construct (v : T) n : node T := mk_node (next_free n) (prev_free n) (Some v).

(** [_data_begin[i].field = x] *)
Definition upd_node (d : list (node T)) (i : Z) (f : node T -> node T) : outcome (list (node T)) :=
  n ← arr_get d i; arr_set d i (f n).

Definition clear p : t T := mk (data p) 0 END END 0.

(** A pool on raw storage *)
Definition init (storage : list (node T)) : t T := mk storage 0 END END 0.

Definition size p : Z := count p.
Definition full p : bool := count p >=? capacity p.
Definition end_sentinel : Z := END.

(** The node of an index below the watermark is in the storage. *)
Definition valid p (idx : Z) : bool :=
  if idx >=? watermark p then false
  else
    match znth (data p) idx with
    | None => false
    | Some n =>
        if negb (next_free n =? END) then false
        else if idx =? free_list_head p then false
        else if idx =? free_list_tail p then false
        else true
    end.

(** [operator []] *)
Definition get p (idx : Z) : outcome T :=
  passert (valid p idx);;
  n ← arr_get (data p) idx;
  match value n with Some v => Ret v | None => Undef end.

(** Assignment through the reference [operator []] returns *)
Definition modify p (idx : Z) (f : T -> T) : outcome (t T) :=
  v ← get p idx;
  d ← upd_node (data p) idx (construct (f v));
  Ret (mk d (watermark p) (free_list_head p) (free_list_tail p) (count p)).

(** [at]: [None] is the null pointer *)
Definition at_ p (idx : Z) : option T :=
  if valid p idx then match znth (data p) idx with Some n => value n | None => None end
  else None.

Definition prepend_to_free_list p (idx : Z) : outcome (t T) :=
  d1 ← (if negb (free_list_head p =? END)
        then upd_node (data p) (free_list_head p) (set_prev idx) else Ret (data p));
  d2 ← upd_node d1 idx (set_next (free_list_head p));
  Ret (mk d2 (watermark p) idx
         (if free_list_tail p =? END then idx else free_list_tail p) (count p)).

(** The body of [increase_size] runs once per index from the watermark to
    [idx]; [k] is the number of iterations left. *)
Fixpoint increase_loop (k : nat) p : outcome (t T) :=
  match k with
  | O => Ret p
  | S k' =>
      d ← arr_set (data p) (watermark p) fresh_node;
      p1 ← prepend_to_free_list
             (mk d (watermark p) (free_list_head p) (free_list_tail p) (count p)) (watermark p);
      increase_loop k' (mk (data p1) (watermark p1 + 1) (free_list_head p1)
                           (free_list_tail p1) (count p1))
  end.

Definition increase_size p (idx : Z) : outcome (t T) :=
  passert (idx <? capacity p);;
  increase_loop (Z.to_nat (idx - watermark p)) p.

Definition remove_from_free_list p (idx : Z) : outcome (t T) :=
  n ← arr_get (data p) idx;
  let next := next_free n in
  let prev := prev_free n in
  d1 ← (if negb (prev =? END) then upd_node (data p) prev (set_next next) else Ret (data p));
  d2 ← (if negb (next =? END) then upd_node d1 next (set_prev prev) else Ret d1);
  Ret (mk d2 (watermark p)
         (if free_list_head p =? idx then next else free_list_head p)
         (if free_list_tail p =? idx then prev else free_list_tail p)
         (count p)).

Definition emplace p0 (idx : Z) (v : T) : outcome (t T) :=
  p ← increase_size p0 idx;
  passert (idx <? capacity p);;
  if valid p idx then
    d ← upd_node (data p) idx (construct v);
    Ret (mk d (watermark p) (free_list_head p) (free_list_tail p) (count p))
  else
    p1 ← (if idx =? watermark p
          then Ret (mk (data p) (watermark p + 1) (free_list_head p) (free_list_tail p) (count p))
          else remove_from_free_list p idx);
    d ← arr_set (data p1) idx fresh_node;
    d' ← upd_node d idx (construct v);
    Ret (mk d' (watermark p1) (free_list_head p1) (free_list_tail p1) (count p1 + 1)).

Definition emplace_anywhere p (v : T) : outcome (t T * Z) :=
  let idx := if negb (free_list_head p =? END) then free_list_head p else watermark p in
  p' ← emplace p idx v;
  Ret (p', idx).

Definition erase p (idx : Z) : outcome (t T) :=
  passert (valid p idx);;
  if idx =? watermark p - 1 then
    Ret (mk (data p) (watermark p - 1) (free_list_head p) (free_list_tail p) (count p - 1))
  else
    p1 ← prepend_to_free_list p idx;
    Ret (mk (data p1) (watermark p1) (free_list_head p1) (free_list_tail p1) (count p1 - 1)).

(** ** Iterators: an index that skips the gaps

    The index has the width of the pool's indices: past the last one it starts
    again with 0.  An iterator whose element was erased when it was the last
    one stands behind the watermark, and goes on from the beginning. *)

Definition it_succ (idx : Z) : Z := if idx =? END then 0 else idx + 1.

Fixpoint jump_to_valid (fuel : nat) p (idx : Z) : Z :=
  match fuel with
  | O => idx
  | S fuel' =>
      if negb (idx =? watermark p) && negb (valid p idx) then jump_to_valid fuel' p (it_succ idx) else idx
  end.

(** The watermark is reached after at most this many steps. *)
Definition it_steps p (idx : Z) : Z := if idx <=? watermark p then watermark p - idx else END + 1 - idx + watermark p.

Definition it_from p (idx : Z) : Z := jump_to_valid (Z.to_nat (it_steps p idx)) p idx.
Definition it_begin p : Z := it_from p 0.
Definition it_end p : Z := watermark p.
Definition it_next p (idx : Z) : Z := it_from p (it_succ idx).

(** The elements a range-for over the pool visits, in order *)
Fixpoint visit (fuel : nat) p (idx : Z) : list (Z * T) :=
  match fuel with
  | O => []
  | S fuel' =>
      if idx =? it_end p then []
      else match at_ p idx with
           | Some v => (idx, v) :: visit fuel' p (it_next p idx)
           | None => []
           end
  end.

Definition entries p : list (Z * T) := visit (S (Z.to_nat (watermark p))) p (it_begin p).

(** ** The free list

    [dseg d pr l e]: the nodes [l] are linked in order in [d], the first one's
    predecessor link is [pr] and the last one's successor link is [e]. *)

Fixpoint dseg (d : list (node T)) (pr : Z) (l : list Z) (e : Z) : Prop :=
  match l with
  | [] => True
  | x :: l' => (exists v, znth d x = Some (mk_node (default e (head l')) pr v)) /\ dseg d x l' e
  end.

Lemma dseg_app d l1 : forall pr l2 e,
  dseg d pr (l1 ++ l2) e <->
  dseg d pr l1 (default e (head l2)) /\ dseg d (default pr (last l1)) l2 e.
Proof.
  induction l1 as [|x l1 IH]; intros pr l2 e; simpl; [tauto|].
  rewrite IH. replace (default e (head (l1 ++ l2)))
    with (default (default e (head l2)) (head l1)) by (destruct l1; reflexivity).
  replace (default x (last l1)) with (default pr (last (x :: l1)))
    by (destruct l1; simpl; [reflexivity|destruct (last (z :: l1)) eqn:E; [reflexivity|]; apply last_None in E; discriminate]).
  simpl. tauto.
Qed.

Lemma dseg_frame d i m l : i ∉ l -> forall pr e, dseg (zset d i m) pr l e <-> dseg d pr l e.
Proof.
  induction l as [|x l IH]; intros Hni pr e; simpl; [tauto|].
  rewrite not_elem_of_cons in Hni. destruct Hni as [Hne Hni].
  rewrite IH by assumption. rewrite znth_zset_ne by congruence. tauto.
Qed.

Lemma dseg_set_next d pr l y e e' : y ∉ l ->
  dseg d pr (l ++ [y]) e ->
  exists m, znth d y = Some m /\ dseg (zset d y (set_next e' m)) pr (l ++ [y]) e'.
Proof.
  intros Hni Hd. apply dseg_app in Hd. destruct Hd as [H1 [[v Hy] _]]. simpl in *.
  exists (mk_node e (default pr (last l)) v). split; [assumption|].
  apply dseg_app. split; [apply dseg_frame; assumption|].
  simpl. split; [|exact I]. exists v. apply znth_zset_eq. eapply znth_Some_lt; eauto.
Qed.

Lemma dseg_set_prev d pr y l e pr2 : y ∉ l ->
  dseg d pr (y :: l) e ->
  exists m, znth d y = Some m /\ dseg (zset d y (set_prev pr2 m)) pr2 (y :: l) e.
Proof.
  intros Hni [[v Hy] H2]. exists (mk_node (default e (head l)) pr v). split; [assumption|].
  simpl. split; [|apply dseg_frame; assumption].
  exists v. apply znth_zset_eq. eapply znth_Some_lt; eauto.
Qed.

(** In a list of valid indices only the last node has the sentinel as its
    successor. *)
Lemma dseg_next_END d l : forall pr x, (forall y, y ∈ l -> y <> END) ->
  dseg d pr l END -> x ∈ l ->
  exists m, znth d x = Some m /\ (next_free m = END -> last l = Some x).
Proof.
  induction l as [|y l IH]; intros pr x HE Hd Hx; [apply not_elem_of_nil in Hx; done|].
  destruct Hd as [[v Hy] Hd]. apply elem_of_cons in Hx. destruct Hx as [->|Hx].
  - eexists. split; [exact Hy|]. simpl. destruct l as [|z l]; simpl; [auto|].
    intros E. exfalso. apply (HE z); [set_solver|assumption].
  - destruct (IH y x) as (m & Hm & Hl); [intros; apply HE; set_solver|assumption|assumption|].
    exists m. split; [assumption|]. intros Hn. specialize (Hl Hn).
    destruct l; [discriminate|]. simpl in *. assumption.
Qed.

(** ** The abstraction *)

Record rep p (fl : list Z) (m : gmap Z T) : Prop := {
  rep_wm : 0 <= watermark p <= zlen (data p);
  rep_cap : zlen (data p) <= END;
  rep_head : free_list_head p = default END (head fl);
  rep_tail : free_list_tail p = default END (last fl);
  rep_seg : dseg (data p) END fl END;
  rep_nodup : NoDup fl;
  rep_free : forall x, x ∈ fl -> 0 <= x < watermark p /\ m !! x = None;
  rep_used : forall i, 0 <= i < watermark p -> i ∉ fl ->
    exists v, znth (data p) i = Some (mk_node END END (Some v)) /\ m !! i = Some v;
  rep_dom : forall i, is_Some (m !! i) -> 0 <= i < watermark p;
  rep_count : count p = Z.of_nat (base.size m);
  rep_total : watermark p = count p + zlen fl
}.

Lemma pool_upd_node d i f n : znth d i = Some n -> upd_node d i f = Ret (zset d i (f n)).
Proof.
  intros H. unfold upd_node. rewrite (arr_get_Ret _ _ _ H). simpl.
  apply arr_set_Ret. eapply znth_Some_lt; eauto.
Qed.

Lemma pool_rep_init storage : zlen storage <= END -> rep (init storage) [] ∅.
Proof.
  intros H. pose proof (zlen_nonneg storage). split; simpl; try done; try lia.
  - constructor.
  - intros x Hx. apply not_elem_of_nil in Hx. done.
  - intros i [v Hv]. rewrite lookup_empty in Hv. discriminate.
Qed.

Lemma pool_rep_clear p fl m : rep p fl m -> rep (clear p) [] ∅.
Proof. intros []. apply (pool_rep_init (data p)). assumption. Qed.

Lemma pool_free_not_END p fl m x : rep p fl m -> x ∈ fl -> x <> END.
Proof. intros [] Hx. apply rep_free0 in Hx. lia. Qed.

Lemma pool_valid p fl m i : rep p fl m -> valid p i = bool_decide (is_Some (m !! i)).
Proof.
  intros Hr. pose proof Hr as []. unfold valid. rewrite Z.geb_leb.
  destruct (Z.leb_spec (watermark p) i).
  { symmetry. apply bool_decide_eq_false. intros Hs. apply rep_dom0 in Hs. lia. }
  destruct (decide (0 <= i)).
  2:{ unfold znth. rewrite (proj2 (Z.leb_gt 0 i)) by lia.
      symmetry. apply bool_decide_eq_false. intros Hs. apply rep_dom0 in Hs. lia. }
  destruct (decide (i ∈ fl)) as [Hi|Hi].
  - destruct (rep_free0 i Hi) as [_ Hm]. rewrite Hm.
    destruct (dseg_next_END (data p) fl END i) as (n & Hn & Hl); auto.
    { intros y Hy. eapply pool_free_not_END; eauto. }
    rewrite Hn. rewrite bool_decide_false by (apply is_Some_None).
    destruct (Z.eqb_spec (next_free n) END) as [E|]; simpl; [|reflexivity].
    rewrite (Hl E) in rep_tail0. simpl in rep_tail0. rewrite rep_tail0, Z.eqb_refl.
    destruct (i =? free_list_head p); reflexivity.
  - destruct (rep_used0 i) as (v & Hv & Hm); [lia|assumption|]. rewrite Hv, Hm. rewrite bool_decide_true by eauto.
    cbn [next_free]. rewrite Z.eqb_refl. cbn [negb].
    assert (i <> END) by lia.
    destruct (Z.eqb_spec i (free_list_head p)) as [E|].
    { exfalso. rewrite rep_head0 in E. destruct fl as [|x fl]; simpl in E; [lia|]. set_solver. }
    destruct (Z.eqb_spec i (free_list_tail p)) as [E|]; [|reflexivity].
    exfalso. rewrite rep_tail0 in E. destruct (last fl) as [x|] eqn:El; simpl in E; [|lia].
    apply last_Some_elem_of in El. subst. done.
Qed.

Lemma pool_live_not_free p fl m i v : rep p fl m -> m !! i = Some v -> i ∉ fl.
Proof. intros [] Hi Hx. apply rep_free0 in Hx. destruct Hx. congruence. Qed.

Lemma pool_live_node p fl m i v : rep p fl m -> m !! i = Some v ->
  0 <= i < watermark p /\ znth (data p) i = Some (mk_node END END (Some v)).
Proof.
  intros Hr Hi. pose proof (pool_live_not_free _ _ _ _ _ Hr Hi). pose proof Hr as [].
  assert (0 <= i < watermark p) by (apply rep_dom0; eauto). split; [assumption|].
  destruct (rep_used0 i) as (v' & Hv & Hm); [assumption|assumption|]. congruence.
Qed.

Lemma pool_valid_true p fl m i v : rep p fl m -> m !! i = Some v -> valid p i = true.
Proof. intros Hr Hi. rewrite (pool_valid p fl m i Hr), bool_decide_true by eauto. reflexivity. Qed.

Lemma pool_valid_false p fl m i : rep p fl m -> m !! i = None -> valid p i = false.
Proof.
  intros Hr Hi. rewrite (pool_valid p fl m i Hr), bool_decide_false; [reflexivity|].
  rewrite Hi. apply is_Some_None.
Qed.

Lemma pool_at p fl m i : rep p fl m -> at_ p i = m !! i.
Proof.
  intros Hr. unfold at_. destruct (m !! i) as [v|] eqn:E.
  - rewrite (pool_valid_true p fl m i v Hr E).
    destruct (pool_live_node p fl m i v Hr E) as [_ ->]. reflexivity.
  - rewrite (pool_valid_false p fl m i Hr E). reflexivity.
Qed.

Lemma pool_get p fl m i v : rep p fl m -> m !! i = Some v -> get p i = Ret v.
Proof.
  intros Hr E. unfold get. rewrite (pool_valid_true p fl m i v Hr E). simpl.
  destruct (pool_live_node p fl m i v Hr E) as [_ H]. rewrite (arr_get_Ret _ _ _ H). reflexivity.
Qed.

Lemma pool_get_panic p fl m i : rep p fl m -> m !! i = None -> get p i = Panic.
Proof. intros Hr E. unfold get. rewrite (pool_valid_false p fl m i Hr E). reflexivity. Qed.

(** ** Operations on the map *)

Lemma pool_modify p fl m i v f : rep p fl m -> m !! i = Some v ->
  exists p', modify p i f = Ret p' /\ rep p' fl (<[i := f v]> m) /\ capacity p' = capacity p.
Proof.
  intros Hr E. pose proof (pool_live_not_free _ _ _ _ _ Hr E) as Hni.
  destruct (pool_live_node p fl m i v Hr E) as [Hi Hn]. pose proof Hr as [].
  unfold modify. rewrite (pool_get p fl m i v Hr E). simpl.
  rewrite (pool_upd_node _ _ _ _ Hn). simpl. eexists. split; [reflexivity|].
  split; [|unfold capacity; simpl; apply zlen_zset].
  split; simpl; rewrite ?zlen_zset; auto.
  - apply dseg_frame; assumption.
  - intros x Hx. destruct (rep_free0 x Hx). split; [assumption|].
    rewrite lookup_insert_ne by (intros ->; done). assumption.
  - intros j Hj Hjf. destruct (decide (i = j)) as [<-|Hne].
    + exists (f v). rewrite lookup_insert_eq, znth_zset_eq by lia. auto.
    + rewrite znth_zset_ne, lookup_insert_ne by assumption. auto.
  - intros j. rewrite lookup_insert. case_decide; [subst; auto|apply rep_dom0].
  - rewrite map_size_insert_Some by eauto. assumption.
Qed.

Record links p (fl : list Z) : Prop := {
  links_head : free_list_head p = default END (head fl);
  links_tail : free_list_tail p = default END (last fl);
  links_seg : dseg (data p) END fl END;
  links_nodup : NoDup fl;
  links_END : forall y, y ∈ fl -> y <> END
}.

Lemma pool_rep_links p fl m : rep p fl m -> links p fl.
Proof. intros Hr. pose proof Hr as []. split; auto. intros y. eapply pool_free_not_END; eauto. Qed.

Lemma last_cons_default (x e : Z) l : default e (last (x :: l)) = default x (last l).
Proof.
  destruct l as [|y l]; [reflexivity|]. rewrite last_cons_cons.
  destruct (last (y :: l)) eqn:E; [reflexivity|]. apply last_None in E. discriminate.
Qed.

Lemma pool_prepend p fl idx x v :
  links p fl -> idx ∉ fl -> idx <> END -> znth (data p) idx = Some (mk_node x END v) ->
  exists p', prepend_to_free_list p idx = Ret p' /\ links p' (idx :: fl) /\
    zlen (data p') = zlen (data p) /\
    (forall j, j ∉ idx :: fl -> znth (data p') j = znth (data p) j) /\
    watermark p' = watermark p /\ count p' = count p.
Proof.
  intros [Hh Ht Hs Hn HE] Hni Hidx Hnode. unfold prepend_to_free_list.
  assert (0 <= idx < zlen (data p)) as Hrange by (eapply znth_Some_lt; eauto).
  destruct fl as [|y fl]; simpl in Hh.
  - simpl in Ht. rewrite Hh, Ht, !Z.eqb_refl. simpl.
    rewrite (pool_upd_node _ _ _ _ Hnode). simpl. eexists. split; [reflexivity|].
    split; [|split; [apply zlen_zset|split; [|auto]]].
    + split; simpl; auto.
      * split; [|exact I]. eexists. apply znth_zset_eq. assumption.
      * apply NoDup_singleton.
      * intros z Hz. apply list_elem_of_singleton in Hz. congruence.
    + intros j Hj. simpl. apply znth_zset_ne. set_solver.
  - rewrite Hh. assert (y <> END) by (apply HE; set_solver).
    rewrite (proj2 (Z.eqb_neq y END)) by assumption. simpl.
    apply NoDup_cons in Hn. destruct Hn as [Hy Hn].
    destruct (dseg_set_prev (data p) END y fl END idx Hy Hs) as (ny & Hny & Hs').
    rewrite (pool_upd_node _ _ _ _ Hny). simpl.
    assert (znth (zset (data p) y (set_prev idx ny)) idx = Some (mk_node x END v)) as Hnode'
      by (rewrite znth_zset_ne by set_solver; assumption).
    rewrite (pool_upd_node _ _ _ _ Hnode'). simpl. eexists. split; [reflexivity|].
    split; [|split; [simpl; rewrite !zlen_zset; reflexivity|split; [|auto]]].
    + split.
      * reflexivity.
      * cbn [free_list_tail]. rewrite Ht. rewrite !last_cons_default.
        destruct (Z.eqb_spec (default y (last fl)) END) as [E|]; [|reflexivity].
        exfalso. destruct (last fl) as [z|] eqn:El; simpl in E; [|congruence].
        apply last_Some_elem_of in El. apply (HE z); [set_solver|assumption].
      * cbn [data]. split.
        -- exists v. apply znth_zset_eq. rewrite zlen_zset. assumption.
        -- apply dseg_frame; [assumption|]. exact Hs'.
      * apply NoDup_cons. split; [assumption|]. apply NoDup_cons. auto.
      * intros z Hz. apply elem_of_cons in Hz. destruct Hz as [->|Hz]; auto.
    + intros j Hj. cbn [data]. rewrite !znth_zset_ne by set_solver. reflexivity.
Qed.

Lemma pool_erase p fl m i v : rep p fl m -> m !! i = Some v ->
  exists p' fl', erase p i = Ret p' /\ rep p' fl' (delete i m) /\ capacity p' = capacity p.
Proof.
  intros Hr E. pose proof (pool_live_not_free _ _ _ _ _ Hr E) as Hni.
  destruct (pool_live_node p fl m i v Hr E) as [Hi Hn].
  pose proof (pool_rep_links _ _ _ Hr) as Hl. pose proof Hr as [].
  assert (Z.of_nat (base.size (delete i m)) = Z.of_nat (base.size m) - 1) as Hsz.
  { rewrite map_size_delete_Some by eauto.
    assert (base.size m <> 0%nat) by (intros H0; apply map_size_empty_iff in H0; subst; done). lia. }
  unfold erase. rewrite (pool_valid_true p fl m i v Hr E). simpl.
  destruct (Z.eqb_spec i (watermark p - 1)) as [->|Hne].
  - eexists _, fl. split; [reflexivity|]. split; [|reflexivity].
    split; simpl; auto; try lia.
    + intros x Hx. destruct (rep_free0 x Hx). split; [|rewrite lookup_delete_ne; [assumption|set_solver]].
      assert (x <> watermark p - 1) by set_solver. lia.
    + intros j Hj Hjf. destruct (rep_used0 j) as (w & Hw & Hm); [lia|assumption|].
      exists w. rewrite lookup_delete_ne by lia. auto.
    + intros j [w Hj]. apply lookup_delete_Some in Hj. destruct Hj as [? Hj].
      pose proof (rep_dom0 j (ex_intro _ w Hj)). lia.
  - destruct (pool_prepend p fl i END (Some v) Hl Hni ltac:(lia) Hn)
      as (p1 & -> & [Hh Ht Hs Hnd HE] & Hlen & Hother & Hw & Hc). simpl.
    eexists _, (i :: fl). split; [reflexivity|]. split; [|unfold capacity; simpl; assumption].
    split; simpl; auto; try lia; rewrite ?Hw, ?Hlen; auto.
    + intros x Hx. apply elem_of_cons in Hx. destruct Hx as [->|Hx].
      * rewrite lookup_delete_eq. auto.
      * destruct (rep_free0 x Hx). rewrite lookup_delete_ne by set_solver. auto.
    + intros j Hj Hjf. rewrite Hother by assumption.
      destruct (rep_used0 j) as (w & Hw' & Hm); [assumption|set_solver|].
      exists w. rewrite lookup_delete_ne by set_solver. auto.
    + intros j [w Hj]. apply lookup_delete_Some in Hj. destruct Hj as [? Hj].
      apply rep_dom0. eauto.
    + rewrite zlen_cons. lia.
Qed.

Lemma pool_erase_panic p fl m i : rep p fl m -> m !! i = None -> erase p i = Panic.
Proof. intros Hr E. unfold erase. rewrite (pool_valid_false p fl m i Hr E). reflexivity. Qed.

Lemma pool_increase_loop k : forall p fl m, rep p fl m -> watermark p + Z.of_nat k <= zlen (data p) ->
  exists p' fl', increase_loop k p = Ret p' /\ rep p' fl' m /\
    watermark p' = watermark p + Z.of_nat k /\ capacity p' = capacity p.
Proof.
  induction k as [|k IH]; intros p fl m Hr Hk.
  { exists p, fl. split; [reflexivity|]. split; [assumption|]. split; [lia|reflexivity]. }
  pose proof (pool_rep_links _ _ _ Hr) as [Hh Ht Hs Hnd HE]. pose proof Hr as [].
  assert (watermark p ∉ fl) as Hni by (intros Hx; apply rep_free0 in Hx; lia).
  simpl. rewrite arr_set_Ret by lia. simpl.
  destruct (pool_prepend (mk (zset (data p) (watermark p) fresh_node) (watermark p)
              (free_list_head p) (free_list_tail p) (count p)) fl (watermark p) END None)
    as (p1 & -> & [Hh1 Ht1 Hs1 Hnd1 HE1] & Hlen & Hother & Hw & Hc); simpl in *.
  { split; simpl; auto. apply dseg_frame; assumption. }
  { assumption. }
  { lia. }
  { apply znth_zset_eq. lia. }
  rewrite zlen_zset in Hlen.
  destruct (IH (mk (data p1) (watermark p1 + 1) (free_list_head p1) (free_list_tail p1) (count p1))
              (watermark p :: fl) m) as (p2 & fl2 & E2 & Hr2 & Hw2 & Hc2); simpl; [|lia|].
  - split; simpl; auto; rewrite ?Hw, ?Hlen, ?Hc; auto; try lia.
    + intros x Hx. apply elem_of_cons in Hx. destruct Hx as [->|Hx].
      * split; [lia|]. destruct (m !! watermark p) eqn:Em; [|reflexivity].
        pose proof (rep_dom0 _ (ex_intro _ _ Em)). lia.
      * destruct (rep_free0 x Hx). split; [lia|assumption].
    + intros j Hj Hjf. rewrite Hother, znth_zset_ne by set_solver.
      apply rep_used0; [|set_solver]. assert (j <> watermark p) by set_solver. lia.
    + intros j Hj. apply rep_dom0 in Hj. lia.
    + rewrite zlen_cons. lia.
  - exists p2, fl2. split; [assumption|]. split; [assumption|]. simpl in *.
    unfold capacity in *. simpl in *. split; lia.
Qed.

Lemma dseg_ext d d2 l : forall pr e, (forall j, j ∈ l -> znth d2 j = znth d j) ->
  dseg d pr l e -> dseg d2 pr l e.
Proof.
  induction l as [|x l IH]; intros pr e Hext; simpl; [auto|].
  intros [[v Hv] Hd]. split.
  - exists v. rewrite Hext by set_solver. assumption.
  - apply IH; [|assumption]. intros j Hj. apply Hext. set_solver.
Qed.

(** Unlinking redirects the successor link of the node before ... *)
Lemma pool_unlink_prev d l e e2 : NoDup l -> (forall y, y ∈ l -> y <> END) -> dseg d END l e ->
  exists d1,
    (if negb (default END (last l) =? END)
     then upd_node d (default END (last l)) (set_next e2) else Ret d) = Ret d1 /\
    dseg d1 END l e2 /\ zlen d1 = zlen d /\ (forall j, j ∉ l -> znth d1 j = znth d j).
Proof.
  intros Hn HE Hd. destruct l as [|y l _] using rev_ind.
  - simpl. rewrite Z.eqb_refl. simpl. exists d. auto.
  - rewrite last_snoc. simpl. apply NoDup_app in Hn. destruct Hn as (_ & Hdis & _).
    assert (y ∉ l) as Hy by (intros Hx; apply (Hdis y Hx); set_solver).
    rewrite (proj2 (Z.eqb_neq y END)) by (apply HE; set_solver). simpl.
    destruct (dseg_set_next d END l y e e2 Hy Hd) as (n & Hnn & Hs).
    rewrite (pool_upd_node _ _ _ _ Hnn). eexists. split; [reflexivity|]. split; [assumption|].
    split; [apply zlen_zset|]. intros j Hj. apply znth_zset_ne. set_solver.
Qed.

(** ... and the predecessor link of the node after. *)
Lemma pool_unlink_next d pr l pr2 : NoDup l -> (forall y, y ∈ l -> y <> END) -> dseg d pr l END ->
  exists d1,
    (if negb (default END (head l) =? END)
     then upd_node d (default END (head l)) (set_prev pr2) else Ret d) = Ret d1 /\
    dseg d1 pr2 l END /\ zlen d1 = zlen d /\ (forall j, j ∉ l -> znth d1 j = znth d j).
Proof.
  intros Hn HE Hd. destruct l as [|y l]; simpl head; simpl default.
  - rewrite Z.eqb_refl. simpl. exists d. auto.
  - apply NoDup_cons in Hn. destruct Hn as [Hy Hn].
    rewrite (proj2 (Z.eqb_neq y END)) by (apply HE; set_solver). cbn [negb].
    destruct (dseg_set_prev d pr y l END pr2 Hy Hd) as (n & Hnn & Hs).
    rewrite (pool_upd_node _ _ _ _ Hnn). eexists. split; [reflexivity|]. split; [assumption|].
    split; [apply zlen_zset|]. intros j Hj. apply znth_zset_ne. set_solver.
Qed.

Lemma pool_remove p l1 x l2 : links p (l1 ++ x :: l2) ->
  exists p', remove_from_free_list p x = Ret p' /\ links p' (l1 ++ l2) /\
    zlen (data p') = zlen (data p) /\
    (forall j, j ∉ l1 ++ x :: l2 -> znth (data p') j = znth (data p) j) /\
    watermark p' = watermark p /\ count p' = count p.
Proof.
  intros [Hh Ht Hs Hn HE]. apply dseg_app in Hs. destruct Hs as [Hs1 [[v Hx] Hs2]].
  apply NoDup_app in Hn. destruct Hn as (Hn1 & Hdis & Hn2).
  apply NoDup_cons in Hn2. destruct Hn2 as [Hx2 Hn2].
  assert (x ∉ l1) as Hx1 by (intros Hy; apply (Hdis x Hy); set_solver).
  destruct (pool_unlink_prev (data p) l1 _ (default END (head l2)) Hn1
              ltac:(intros; apply HE; set_solver) Hs1) as (d1 & E1 & Hd1 & Hl1 & Ho1).
  assert (dseg d1 x l2 END) as Hs2'.
  { eapply dseg_ext; [|exact Hs2]. intros j Hj. apply Ho1. set_solver. }
  destruct (pool_unlink_next d1 x l2 (default END (last l1)) Hn2
              ltac:(intros; apply HE; set_solver) Hs2') as (d2 & E2 & Hd2 & Hl2 & Ho2).
  unfold remove_from_free_list. rewrite (arr_get_Ret _ _ _ Hx). simpl.
  rewrite E1. simpl. rewrite E2. simpl. eexists. split; [reflexivity|].
  split; [|repeat split; simpl; [lia|]].
  2:{ intros j Hj. rewrite Ho2, Ho1 by set_solver. reflexivity. }
  split; simpl.
  - rewrite Hh. destruct l1 as [|y l1]; simpl.
    + rewrite Z.eqb_refl. reflexivity.
    + rewrite (proj2 (Z.eqb_neq y x)) by set_solver. reflexivity.
  - rewrite Ht. destruct l2 as [|z l2 _] using rev_ind.
    + rewrite last_snoc, app_nil_r. simpl. rewrite Z.eqb_refl. reflexivity.
    + rewrite app_comm_cons, !app_assoc, !last_snoc. simpl.
      rewrite (proj2 (Z.eqb_neq z x)) by set_solver. reflexivity.
  - apply dseg_app. split; [|assumption]. eapply dseg_ext; [|exact Hd1].
    intros j Hj. apply Ho2. set_solver.
  - apply NoDup_app. split; [assumption|]. split; [|assumption]. intros y Hy. set_solver.
  - intros y Hy. apply HE. set_solver.
Qed.
(** ** [emplace] *)

Lemma pool_increase_size p fl m idx : rep p fl m -> idx < capacity p ->
  exists p' fl', increase_size p idx = Ret p' /\ rep p' fl' m /\
    idx <= watermark p' /\ capacity p' = capacity p.
Proof.
  intros Hr Hidx. unfold increase_size. rewrite passert_true by lia. simpl.
  pose proof (rep_wm _ _ _ Hr). unfold capacity in *.
  destruct (pool_increase_loop (Z.to_nat (idx - watermark p)) p fl m Hr) as (p1 & fl1 & E & ? & ? & ?);
    [lia|]. exists p1, fl1. repeat (split; [assumption|]). split; [lia|assumption].
Qed.

(** Overwriting a live slot *)
Lemma pool_emplace_live p fl m idx v w : rep p fl m -> m !! idx = Some w ->
  exists p', (d ← upd_node (data p) idx (construct v);
    Ret (mk d (watermark p) (free_list_head p) (free_list_tail p) (count p))) = Ret p' /\
    rep p' fl (<[idx := v]> m) /\ capacity p' = capacity p.
Proof.
  intros Hr E. destruct (pool_modify p fl m idx w (fun _ => v) Hr E) as (p' & H & ?).
  unfold modify in H. rewrite (pool_get _ _ _ _ _ Hr E) in H. eauto.
Qed.

(** A pool whose slot [idx] has just left the free list (or the region above
    the watermark) and is given the value [v] *)
Lemma pool_rep_add p1 (d : list (node T)) fl m idx v :
  links p1 fl -> d = zset (zset (data p1) idx fresh_node) idx (construct v fresh_node) ->
  idx ∉ fl -> m !! idx = None -> 0 <= idx < watermark p1 ->
  watermark p1 <= zlen (data p1) -> zlen (data p1) <= END ->
  (forall x, x ∈ fl -> 0 <= x < watermark p1 /\ m !! x = None) ->
  (forall i, 0 <= i < watermark p1 -> i <> idx -> i ∉ fl ->
    exists w, znth (data p1) i = Some (mk_node END END (Some w)) /\ m !! i = Some w) ->
  (forall i, is_Some (m !! i) -> 0 <= i < watermark p1) ->
  count p1 = Z.of_nat (base.size m) -> watermark p1 = count p1 + 1 + zlen fl ->
  rep (mk d (watermark p1) (free_list_head p1) (free_list_tail p1) (count p1 + 1)) fl (<[idx := v]> m).
Proof.
  intros [Hh Ht Hs Hnd HE] -> Hni Hm Hi Hwm Hcap Hfree Hused Hdom Hc Htot.
  split; simpl; rewrite ?zlen_zset; auto; try lia.
  - do 2 (apply dseg_frame; [assumption|]). assumption.
  - intros x Hx. destruct (Hfree x Hx). rewrite lookup_insert_ne by set_solver. auto.
  - intros i Hi' Hif. destruct (decide (idx = i)) as [<-|Hne].
    + exists v. rewrite lookup_insert_eq, znth_zset_eq by (rewrite zlen_zset; lia). auto.
    + rewrite lookup_insert_ne, !znth_zset_ne by assumption. auto.
  - intros i. rewrite lookup_insert. case_decide; [subst; auto|apply Hdom].
  - rewrite map_size_insert_None by assumption. lia.
Qed.

Lemma pool_fresh_construct d idx v : 0 <= idx < zlen d ->
  (d1 ← arr_set d idx fresh_node; upd_node d1 idx (construct v)) =
  Ret (zset (zset d idx fresh_node) idx (construct v fresh_node)).
Proof.
  intros. rewrite arr_set_Ret by assumption. simpl.
  apply pool_upd_node. apply znth_zset_eq. assumption.
Qed.

Lemma pool_emplace p fl m idx v : rep p fl m -> 0 <= idx < capacity p ->
  exists p' fl', emplace p idx v = Ret p' /\ rep p' fl' (<[idx := v]> m) /\ capacity p' = capacity p.
Proof.
  intros Hr0 Hidx. destruct (pool_increase_size p fl m idx Hr0) as (p1 & fl1 & E & Hr & Hw & Hcap); [lia|].
  unfold emplace. rewrite E. simpl. rewrite passert_true by lia. simpl. rewrite <-Hcap in *.
  clear E Hr0 Hcap p fl. destruct (m !! idx) as [w|] eqn:Em.
  { rewrite (pool_valid_true _ _ _ _ _ Hr Em).
    destruct (pool_emplace_live p1 fl1 m idx v w Hr Em) as (p' & H & ?). eauto. }
  rewrite (pool_valid_false _ _ _ _ Hr Em).
  pose proof (pool_rep_links _ _ _ Hr) as Hl. pose proof Hr as []. unfold capacity in *.
  destruct (Z.eqb_spec idx (watermark p1)) as [Ei|Hne].
  - assert (idx ∉ fl1) as Hni by (intros Hx; apply rep_free0 in Hx; lia).
    simpl. rewrite arr_set_Ret by lia. simpl.
    rewrite (pool_upd_node _ _ _ fresh_node) by (apply znth_zset_eq; lia). simpl.
    eexists _, fl1. split; [reflexivity|]. split; [|simpl; rewrite !zlen_zset; reflexivity].
    apply (pool_rep_add (mk (data p1) (watermark p1 + 1) (free_list_head p1) (free_list_tail p1) (count p1)));
      simpl; auto; try lia.
    + destruct Hl; split; assumption.
    + intros x Hx. destruct (rep_free0 x Hx). split; [lia|assumption].
    + intros i Hi ? ?. apply rep_used0; [lia|assumption].
    + intros i Hi. apply rep_dom0 in Hi. lia.
  - assert (idx ∈ fl1) as Hin.
    { destruct (decide (idx ∈ fl1)) as [|Hni]; [assumption|].
      destruct (rep_used0 idx ltac:(lia) Hni) as (? & _ & ?). congruence. }
    destruct (list_elem_of_split _ _ Hin) as (l1 & l2 & ->).
    destruct (pool_remove p1 l1 idx l2 Hl) as (p2 & -> & Hl2 & Hlen & Hother & Hw2 & Hc2). simpl.
    rewrite arr_set_Ret by lia. simpl.
    rewrite (pool_upd_node _ _ _ fresh_node) by (apply znth_zset_eq; lia). simpl.
    eexists _, (l1 ++ l2). split; [reflexivity|]. split; [|simpl; rewrite !zlen_zset; assumption].
    apply NoDup_app in rep_nodup0. destruct rep_nodup0 as (_ & Hdis & Hn2).
    apply NoDup_cons in Hn2. destruct Hn2 as [Hx2 _].
    apply pool_rep_add; auto; try lia; rewrite ?Hw2, ?Hc2; auto; try lia.
    + rewrite elem_of_app. intros [Hx|Hx]; [apply (Hdis idx Hx); set_solver|done].
    + intros x Hx. apply rep_free0. set_solver.
    + intros i Hi Hne' Hif. rewrite Hother by set_solver. apply rep_used0; [assumption|set_solver].
    + rewrite rep_total0, !zlen_app, zlen_cons. lia.
Qed.

(** An element placed at the watermark extends the pool by one. *)
Lemma pool_emplace_watermark p fl m v : rep p fl m -> watermark p < capacity p ->
  exists p', emplace p (watermark p) v = Ret p' /\ rep p' fl (<[watermark p := v]> m) /\ capacity p' = capacity p.
Proof.
  intros Hr Hcap. pose proof (pool_rep_links _ _ _ Hr) as Hl. pose proof Hr as []. unfold capacity in *.
  assert (m !! watermark p = None) as Hm.
  { destruct (m !! watermark p) eqn:E; [|reflexivity]. pose proof (rep_dom0 _ (ex_intro _ _ E)). lia. }
  unfold emplace, increase_size, capacity. rewrite passert_true by lia. rewrite Z.sub_diag. simpl.
  unfold passert. rewrite (proj2 (Z.ltb_lt _ _)) by lia. simpl. rewrite (pool_valid_false _ _ _ _ Hr Hm), Z.eqb_refl. simpl.
  rewrite arr_set_Ret by lia. simpl. rewrite (pool_upd_node _ _ _ fresh_node) by (apply znth_zset_eq; lia). simpl.
  eexists. split; [reflexivity|]. split; [|simpl; rewrite !zlen_zset; reflexivity].
  apply (pool_rep_add (mk (data p) (watermark p + 1) (free_list_head p) (free_list_tail p) (count p))); simpl; auto; try lia.
  - destruct Hl; split; assumption.
  - intros Hx. apply rep_free0 in Hx. lia.
  - intros x Hx. destruct (rep_free0 x Hx). split; [lia|assumption].
  - intros i Hi ? ?. apply rep_used0; [lia|assumption].
  - intros i Hi. apply rep_dom0 in Hi. lia.
Qed.

Lemma pool_emplace_panic p fl m idx v : rep p fl m -> capacity p <= idx -> emplace p idx v = Panic.
Proof. intros Hr Hi. unfold emplace, increase_size. rewrite passert_false by lia. reflexivity. Qed.

(** A pool that is not full always finds a free index. *)
Lemma pool_emplace_anywhere p fl m v : rep p fl m -> Z.of_nat (base.size m) < capacity p ->
  exists p' fl' i, emplace_anywhere p v = Ret (p', i) /\ rep p' fl' (<[i := v]> m) /\
    m !! i = None /\ 0 <= i < capacity p /\ capacity p' = capacity p.
Proof.
  intros Hr Hsz. pose proof Hr as []. unfold emplace_anywhere, capacity in *.
  pose proof (zlen_nonneg fl).
  assert (exists i, (if negb (free_list_head p =? END) then free_list_head p else watermark p) = i /\
            m !! i = None /\ 0 <= i < zlen (data p)) as (i & -> & Hm & Hi).
  { rewrite rep_head0. destruct fl as [|x fl]; simpl.
    - rewrite Z.eqb_refl. simpl. change (zlen []) with 0 in *. eexists. split; [reflexivity|].
      split; [|lia]. destruct (m !! watermark p) eqn:Em; [|reflexivity].
      pose proof (rep_dom0 _ (ex_intro _ _ Em)). lia.
    - destruct (rep_free0 x) as [? ?]; [set_solver|].
      rewrite (proj2 (Z.eqb_neq x END)) by lia. simpl. eexists. split; [reflexivity|]. split; [assumption|lia]. }
  destruct (pool_emplace p fl m i v Hr Hi) as (p' & fl' & -> & Hr' & Hcap). simpl.
  exists p', fl', i. auto.
Qed.

Lemma pool_emplace_anywhere_full p fl m v : rep p fl m -> capacity p <= Z.of_nat (base.size m) ->
  emplace_anywhere p v = Panic.
Proof.
  intros Hr Hsz. pose proof Hr as []. unfold emplace_anywhere, capacity in *.
  pose proof (zlen_nonneg fl). destruct fl as [|x fl]; [|rewrite zlen_cons in *; pose proof (zlen_nonneg fl); lia].
  simpl in rep_head0. rewrite rep_head0, Z.eqb_refl. simpl.
  rewrite (pool_emplace_panic p [] m) by (unfold capacity; assumption || lia). reflexivity.
Qed.

Lemma pool_full p fl m : rep p fl m -> full p = (capacity p <=? Z.of_nat (base.size m)).
Proof. intros []. unfold full. rewrite Z.geb_leb. congruence. Qed.

Lemma pool_size p fl m : rep p fl m -> size p = Z.of_nat (base.size m).
Proof. intros []. assumption. Qed.

(** ** Iteration visits the live elements in the order of their indices *)

Definition live (m : gmap Z T) (i : Z) : option (Z * T) := pair i <$> m !! i.

Lemma it_succ_small i : 0 <= i < END -> it_succ i = i + 1.
Proof. intros H. unfold it_succ. rewrite (proj2 (Z.eqb_neq _ _)) by lia. reflexivity. Qed.

Lemma it_from_small p i : i <= watermark p -> it_from p i = jump_to_valid (Z.to_nat (watermark p - i)) p i.
Proof. intros H. unfold it_from, it_steps. rewrite (proj2 (Z.leb_le _ _)) by lia. reflexivity. Qed.

Lemma pool_wm_END p fl m : rep p fl m -> 0 <= watermark p <= END.
Proof. intros Hr. pose proof (rep_wm _ _ _ Hr). pose proof (rep_cap _ _ _ Hr). lia. Qed.

Lemma pool_jump p fl m : rep p fl m -> forall k i, 0 <= i -> i + Z.of_nat k = watermark p ->
  let j := jump_to_valid k p i in
  i <= j <= watermark p /\ (j < watermark p -> is_Some (m !! j)) /\
  omap (live m) (seqZ i (watermark p - i)) = omap (live m) (seqZ j (watermark p - j)).
Proof.
  intros Hr. pose proof (pool_wm_END p fl m Hr) as Hw. induction k as [|k IH]; intros i Hi Hk; cbn [jump_to_valid].
  - cbv zeta. split; [lia|]. split; [lia|reflexivity].
  - rewrite (proj2 (Z.eqb_neq i _)) by lia. simpl.
    destruct (m !! i) as [v|] eqn:E.
    + rewrite (pool_valid_true p fl m i v Hr E). simpl. split; [lia|]. split; [rewrite E; eauto|reflexivity].
    + rewrite (pool_valid_false p fl m i Hr E). simpl. rewrite it_succ_small by lia.
      destruct (IH (i + 1)) as (? & ? & H); [lia|lia|]. split; [lia|]. split; [assumption|].
      rewrite <-H, (seqZ_cons i) by lia. simpl. unfold live at 1. rewrite E. simpl.
      f_equal. f_equal; lia.
Qed.

(** An iterator behind the watermark starts again from the beginning. *)
Lemma it_jump_past p k : forall (a : nat) i, 0 <= watermark p < i -> i + Z.of_nat k = END + 1 -> (0 < k)%nat ->
  jump_to_valid (k + a) p i = jump_to_valid a p 0.
Proof.
  induction k as [|k IH]; intros a i Hi Hk Hpos; [lia|]. cbn [Nat.add jump_to_valid].
  rewrite (proj2 (Z.eqb_neq i _)) by lia. unfold valid at 1. rewrite Z.geb_leb, (proj2 (Z.leb_le _ _)) by lia. cbn [negb andb].
  destruct k as [|k].
  - unfold it_succ. rewrite (proj2 (Z.eqb_eq i END)) by lia. reflexivity.
  - rewrite it_succ_small by lia. apply IH; lia.
Qed.

Lemma it_from_past p i : 0 <= watermark p < i -> i <= END -> it_from p i = it_begin p.
Proof.
  intros Hi He. unfold it_begin, it_from, it_steps. rewrite (proj2 (Z.leb_gt _ _)), (proj2 (Z.leb_le 0 _)) by lia.
  replace (Z.to_nat (END + 1 - i + watermark p)) with (Z.to_nat (END + 1 - i) + Z.to_nat (watermark p))%nat by lia.
  rewrite it_jump_past by lia. f_equal. lia.
Qed.

Lemma pool_it_from p fl m i : rep p fl m -> 0 <= i <= watermark p ->
  i <= it_from p i <= watermark p /\ (it_from p i <> it_end p -> is_Some (m !! it_from p i)).
Proof.
  intros Hr Hi. rewrite it_from_small by lia.
  destruct (pool_jump p fl m Hr (Z.to_nat (watermark p - i)) i) as (Hj & Hlive & _); [lia|lia|]. unfold it_end.
  split; [exact Hj|]. intros Hne. apply Hlive. lia.
Qed.

(** The step of an iterator: to a later live element or the end, or, from
    behind the watermark, to the first live element or the end *)
Lemma pool_it_next p fl m i : rep p fl m -> 0 <= i < END ->
  let j := it_next p i in
  (if i <? watermark p then i < j else 0 <= j) /\ j <= watermark p /\ (j <> it_end p -> is_Some (m !! j)).
Proof.
  intros Hr Hi. pose proof (pool_wm_END p fl m Hr). cbv zeta. unfold it_next. rewrite it_succ_small by lia.
  destruct (Z.ltb_spec i (watermark p)).
  - destruct (pool_it_from p fl m (i + 1) Hr) as [? ?]; [lia|]. split; [lia|]. split; [lia|assumption].
  - rewrite it_from_past by lia. destruct (pool_it_from p fl m 0 Hr) as [? ?]; [lia|]. fold (it_begin p) in *.
    split; [lia|]. split; [lia|assumption].
Qed.

Lemma pool_visit p fl m : rep p fl m -> forall fuel i, 0 <= i <= watermark p ->
  (Z.to_nat (watermark p - i) < fuel)%nat ->
  visit fuel p (it_from p i) = omap (live m) (seqZ i (watermark p - i)).
Proof.
  intros Hr. induction fuel as [|fuel IH]; intros i Hi Hf; [lia|].
  pose proof (pool_wm_END p fl m Hr) as Hw.
  destruct (pool_jump p fl m Hr (Z.to_nat (watermark p - i)) i) as (Hj & Hlive & ->); [lia|lia|].
  rewrite <-(it_from_small p i) in * by lia. set (j := it_from p i) in *. clearbody j.
  cbn [visit]. unfold it_end. destruct (Z.eqb_spec j (watermark p)) as [->|Hne].
  { rewrite seqZ_nil by lia. reflexivity. }
  destruct Hlive as [v Hv]; [lia|]. rewrite (pool_at p fl m j Hr), Hv.
  rewrite seqZ_cons by lia. simpl. unfold live at 1. rewrite Hv. simpl. f_equal.
  unfold it_next. rewrite it_succ_small by lia. rewrite IH by lia. do 2 f_equal; lia.
Qed.

Lemma pool_entries p fl m : rep p fl m -> entries p = omap (live m) (seqZ 0 (watermark p)).
Proof.
  intros Hr. pose proof (rep_wm _ _ _ Hr). unfold entries, it_begin.
  rewrite (pool_visit p fl m Hr) by lia. do 2 f_equal; lia.
Qed.

Lemma pool_entries_elem p fl m i v : rep p fl m -> (i, v) ∈ entries p <-> m !! i = Some v.
Proof.
  intros Hr. rewrite (pool_entries p fl m Hr), list_elem_of_omap. unfold live. split.
  - intros (j & _ & H). apply fmap_Some in H. destruct H as (w & ? & [= -> ->]). assumption.
  - intros H. exists i. rewrite H. split; [|reflexivity].
    apply elem_of_seqZ. pose proof (rep_dom _ _ _ Hr i (ex_intro _ v H)). lia.
Qed.
Lemma pool_entries_sorted p fl m : rep p fl m -> StronglySorted Z.lt (entries p).*1.
Proof.
  intros Hr. rewrite (pool_entries p fl m Hr). generalize 0 as i.
  pose proof (rep_wm _ _ _ Hr) as [Hw _]. revert Hw. generalize (watermark p) as w.
  apply (natlike_ind (fun w => forall i, StronglySorted Z.lt (omap (live m) (seqZ i w)).*1)).
  - intros i. rewrite seqZ_nil by lia. constructor.
  - intros w Hw IH i. rewrite seqZ_cons by lia. rewrite Z.pred_succ. simpl. unfold live at 1.
    destruct (m !! i) as [v|]; simpl; [|apply IH]. constructor; [apply IH|].
    apply Forall_forall. intros j Hj. apply list_elem_of_fmap in Hj. destruct Hj as ([j' v'] & -> & Hj).
    apply list_elem_of_omap in Hj. destruct Hj as (k & Hk & Hl). apply elem_of_seqZ in Hk.
    unfold live in Hl. apply fmap_Some in Hl. destruct Hl as (? & _ & [= -> _]). simpl. lia.
Qed.

(** ** Sequences of operations and their specification

    The specification is a finite map with a capacity.  Which free index
    [emplace_anywhere] picks is left open; that it is free, in range and that
    the call succeeds exactly when the map is not full is not. *)

Inductive op :=
| Clear
| EmplaceAnywhere (v : T)
| Emplace (idx : Z) (v : T)
| Erase (idx : Z)
| Modify (idx : Z) (f : T -> T)
| At (idx : Z)
| Get (idx : Z)
| Size
| Full
| Iterate.

Inductive res :=
| RUnit
| RIdx (i : Z)
| RPtr (v : option T)
| RVal (v : T)
| RNat (n : Z)
| RBool (b : bool)
| RList (l : list (Z * T)).

Definition step p (o : op) : outcome (t T * res) :=
  match o with
  | Clear => Ret (clear p, RUnit)
  | EmplaceAnywhere v => '(p', i) ← emplace_anywhere p v; Ret (p', RIdx i)
  | Emplace idx v => p' ← emplace p idx v; Ret (p', RUnit)
  | Erase idx => p' ← erase p idx; Ret (p', RUnit)
  | Modify idx f => p' ← modify p idx f; Ret (p', RUnit)
  | At idx => Ret (p, RPtr (at_ p idx))
  | Get idx => v ← get p idx; Ret (p, RVal v)
  | Size => Ret (p, RNat (size p))
  | Full => Ret (p, RBool (full p))
  | Iterate => Ret (p, RList (entries p))
  end.

Fixpoint run p (ops : list op) : outcome (list res) :=
  match ops with
  | [] => Ret []
  | o :: ops' => '(p', r) ← step p o; rs ← run p' ops'; Ret (r :: rs)
  end.

Inductive spec_step (cap : Z) (m : gmap Z T) : op -> outcome (gmap Z T * res) -> Prop :=
| spec_clear : spec_step cap m Clear (Ret (∅, RUnit))
| spec_anywhere v i : Z.of_nat (base.size m) < cap -> 0 <= i < cap -> m !! i = None ->
    spec_step cap m (EmplaceAnywhere v) (Ret (<[i := v]> m, RIdx i))
| spec_anywhere_full v : cap <= Z.of_nat (base.size m) -> spec_step cap m (EmplaceAnywhere v) Panic
| spec_emplace idx v : idx < cap -> spec_step cap m (Emplace idx v) (Ret (<[idx := v]> m, RUnit))
| spec_emplace_out idx v : cap <= idx -> spec_step cap m (Emplace idx v) Panic
| spec_erase idx : is_Some (m !! idx) -> spec_step cap m (Erase idx) (Ret (delete idx m, RUnit))
| spec_erase_none idx : m !! idx = None -> spec_step cap m (Erase idx) Panic
| spec_modify idx f v : m !! idx = Some v -> spec_step cap m (Modify idx f) (Ret (<[idx := f v]> m, RUnit))
| spec_modify_none idx f : m !! idx = None -> spec_step cap m (Modify idx f) Panic
| spec_at idx : spec_step cap m (At idx) (Ret (m, RPtr (m !! idx)))
| spec_get idx v : m !! idx = Some v -> spec_step cap m (Get idx) (Ret (m, RVal v))
| spec_get_none idx : m !! idx = None -> spec_step cap m (Get idx) Panic
| spec_size : spec_step cap m Size (Ret (m, RNat (Z.of_nat (base.size m))))
| spec_full : spec_step cap m Full (Ret (m, RBool (cap <=? Z.of_nat (base.size m))))
| spec_iterate l : StronglySorted Z.lt l.*1 -> (forall i v, (i, v) ∈ l <-> m !! i = Some v) ->
    spec_step cap m Iterate (Ret (m, RList l)).

Inductive spec_run (cap : Z) : gmap Z T -> list op -> outcome (list res) -> Prop :=
| spec_nil m : spec_run cap m [] (Ret [])
| spec_cons m o ops m' r rs : spec_step cap m o (Ret (m', r)) -> spec_run cap m' ops (Ret rs) ->
    spec_run cap m (o :: ops) (Ret (r :: rs))
| spec_later m o ops m' r : spec_step cap m o (Ret (m', r)) -> spec_run cap m' ops Panic ->
    spec_run cap m (o :: ops) Panic
| spec_stop m o ops : spec_step cap m o Panic -> spec_run cap m (o :: ops) Panic.

(** Indices are unsigned. *)
Definition op_ok (o : op) : bool :=
  match o with
  | Emplace idx _ | Erase idx | Modify idx _ | At idx | Get idx => 0 <=? idx
  | _ => true
  end.

Lemma pool_step p fl m o : rep p fl m -> op_ok o = true ->
  (step p o = Panic /\ spec_step (capacity p) m o Panic) \/
  (exists p' fl' m' r, step p o = Ret (p', r) /\ spec_step (capacity p) m o (Ret (m', r)) /\
     rep p' fl' m' /\ capacity p' = capacity p).
Proof.
  intros Hr Hok. destruct o as [|v|idx v|idx|idx f|idx|idx| | |]; simpl in *.
  - right. eexists _, _, _, _. split; [reflexivity|]. split; [constructor|].
    split; [eapply pool_rep_clear; eauto|reflexivity].
  - destruct (Z.lt_ge_cases (Z.of_nat (base.size m)) (capacity p)) as [H|H].
    + destruct (pool_emplace_anywhere p fl m v Hr H) as (p' & fl' & i & -> & ? & ? & ? & ?).
      right. eexists _, _, _, _. split; [reflexivity|]. split; [constructor; assumption|]. eauto.
    + rewrite (pool_emplace_anywhere_full p fl m v Hr H). left. split; [reflexivity|].
      constructor. assumption.
  - destruct (Z.lt_ge_cases idx (capacity p)) as [H|H].
    + destruct (pool_emplace p fl m idx v Hr ltac:(lia)) as (p' & fl' & -> & ? & ?).
      right. eexists _, _, _, _. split; [reflexivity|]. split; [constructor; assumption|]. eauto.
    + rewrite (pool_emplace_panic p fl m idx v Hr H). left. split; [reflexivity|].
      constructor. assumption.
  - destruct (m !! idx) as [w|] eqn:E.
    + destruct (pool_erase p fl m idx w Hr E) as (p' & fl' & -> & ? & ?).
      right. eexists _, _, _, _. split; [reflexivity|]. split; [constructor; eauto|]. eauto.
    + rewrite (pool_erase_panic p fl m idx Hr E). left. split; [reflexivity|]. constructor. assumption.
  - destruct (m !! idx) as [w|] eqn:E.
    + destruct (pool_modify p fl m idx w f Hr E) as (p' & -> & ? & ?).
      right. eexists _, _, _, _. split; [reflexivity|]. split; [constructor; eauto|]. eauto.
    + unfold modify. rewrite (pool_get_panic p fl m idx Hr E). left. split; [reflexivity|].
      constructor. assumption.
  - right. rewrite (pool_at p fl m idx Hr). eexists _, fl, _, _. split; [reflexivity|]. split; [constructor|]. auto.
  - destruct (m !! idx) as [w|] eqn:E.
    + rewrite (pool_get p fl m idx w Hr E). right. eexists _, _, _, _.
      split; [reflexivity|]. split; [constructor; eassumption|]. eauto.
    + rewrite (pool_get_panic p fl m idx Hr E). left. split; [reflexivity|]. constructor. assumption.
  - right. rewrite (pool_size p fl m Hr). eexists _, fl, _, _. split; [reflexivity|]. split; [constructor|]. auto.
  - right. rewrite (pool_full p fl m Hr). eexists _, fl, _, _. split; [reflexivity|]. split; [constructor|]. auto.
  - right. eexists _, _, _, _. split; [reflexivity|]. split; [|eauto]. constructor.
    + eapply pool_entries_sorted; eassumption.
    + intros i v. eapply pool_entries_elem; eassumption.
Qed.

Lemma pool_run p fl m ops : rep p fl m -> forallb op_ok ops = true ->
  spec_run (capacity p) m ops (run p ops).
Proof.
  revert p fl m. induction ops as [|o ops IH]; intros p fl m Hr Hok; [constructor|].
  simpl in *. apply andb_true_iff in Hok. destruct Hok as [Ho Hok].
  destruct (pool_step p fl m o Hr Ho) as [[-> Hs]|(p' & fl' & m' & r & -> & Hs & Hr' & Hc)]; simpl.
  { apply spec_stop. assumption. }
  specialize (IH p' fl' m' Hr' Hok). rewrite Hc in IH.
  destruct (run p' ops) eqn:E; simpl; rewrite ?E in IH; try solve [inversion IH].
  - eapply spec_cons; eassumption.
  - eapply spec_later; eassumption.
Qed.
End ops.
End pool.

(** ** The interface of a slot pool

    What the tables of the system rely on: a partial map from indices to
    objects.  Clients are written and verified against this class;
    [p2::fixed_pool] implements it. *)

Class SlotPool (P : Type -> Type) := {
  sp_at {T} : P T -> Z -> option T;
  sp_emplace_anywhere {T} : P T -> T -> outcome (P T * Z);
  sp_erase {T} : P T -> Z -> outcome (P T);
  sp_modify {T} : P T -> Z -> (T -> T) -> outcome (P T);
  sp_entries {T} : P T -> list (Z * T);
  sp_size {T} : P T -> Z;
  sp_full {T} : P T -> bool;
  sp_capacity {T} : P T -> Z
}.

Class SlotPoolLaws (P : Type -> Type) `{SlotPool P} := {
  sp_model {T} : P T -> gmap Z T -> Prop;
  sp_at_model {T} (p : P T) m i : sp_model p m -> sp_at p i = m !! i;
  sp_emplace_anywhere_model {T} (p : P T) m v : sp_model p m ->
    Z.of_nat (base.size m) < sp_capacity p ->
    exists p' i, sp_emplace_anywhere p v = Ret (p', i) /\ m !! i = None /\
      sp_model p' (<[i := v]> m) /\ sp_capacity p' = sp_capacity p;
  sp_emplace_anywhere_full {T} (p : P T) m v : sp_model p m ->
    sp_capacity p <= Z.of_nat (base.size m) -> sp_emplace_anywhere p v = Panic;
  sp_erase_model {T} (p : P T) m i v : sp_model p m -> m !! i = Some v ->
    exists p', sp_erase p i = Ret p' /\ sp_model p' (delete i m) /\ sp_capacity p' = sp_capacity p;
  sp_erase_panic {T} (p : P T) m i : sp_model p m -> m !! i = None -> sp_erase p i = Panic;
  sp_modify_model {T} (p : P T) m i v f : sp_model p m -> m !! i = Some v ->
    exists p', sp_modify p i f = Ret p' /\ sp_model p' (<[i := f v]> m) /\
      sp_capacity p' = sp_capacity p;
  sp_entries_model {T} (p : P T) m i v : sp_model p m -> (i, v) ∈ sp_entries p <-> m !! i = Some v;
  sp_entries_sorted {T} (p : P T) m : sp_model p m -> StronglySorted Z.lt (sp_entries p).*1;
  sp_size_model {T} (p : P T) m : sp_model p m -> sp_size p = Z.of_nat (base.size m);
  sp_full_model {T} (p : P T) m : sp_model p m ->
    sp_full p = (sp_capacity p <=? Z.of_nat (base.size m))
}.

(** [fixed_pool<T, Capacity, uint16_t>] *)
Definition fixed_pool (T : Type) : Type := pool.t T.
Definition U16_MAX : Z := 65535.
Definition new_fixed_pool {T} (Capacity : Z) : fixed_pool T :=
  pool.init U16_MAX (replicate (Z.to_nat Capacity) (pool.fresh_node U16_MAX)).

#[export] Instance fixed_pool_ops : SlotPool fixed_pool := {|
  sp_at T := pool.at_ U16_MAX;
  sp_emplace_anywhere T := pool.emplace_anywhere U16_MAX;
  sp_erase T := pool.erase U16_MAX;
  sp_modify T := pool.modify U16_MAX;
  sp_entries T := pool.entries U16_MAX;
  sp_size T := pool.size;
  sp_full T := pool.full;
  sp_capacity T := pool.capacity
|}.

Definition fp_model {T} (p : fixed_pool T) (m : gmap Z T) : Prop := exists fl, pool.rep U16_MAX p fl m.

Lemma fp_new {T} Capacity : Capacity <= U16_MAX -> fp_model (new_fixed_pool (T := T) Capacity) ∅.
Proof. intros. exists []. apply pool.pool_rep_init. rewrite zlen_replicate. unfold U16_MAX in *. lia. Qed.

Lemma fp_new_capacity {T} Capacity : 0 <= Capacity ->
  sp_capacity (new_fixed_pool (T := T) Capacity) = Capacity.
Proof. intros. simpl. unfold pool.capacity. simpl. rewrite zlen_replicate. lia. Qed.

Lemma fp_emplace {A} (p : fixed_pool A) m v n : fp_model p m -> sp_capacity p = n -> Z.of_nat (base.size m) < n ->
  exists p' i, pool.emplace_anywhere U16_MAX p v = Ret (p', i) /\ fp_model p' (<[i := v]> m) /\ m !! i = None /\
    sp_capacity p' = n.
Proof.
  intros [fl Hr] Hc Hsz. simpl in Hc. destruct (pool.pool_emplace_anywhere _ _ _ _ v Hr) as (p' & fl' & i & -> & Hr' & Hi & _ & Hc').
  { rewrite Hc. assumption. }
  exists p', i. split; [reflexivity|]. split; [exists fl'; exact Hr'|]. split; [assumption|]. simpl. congruence.
Qed.

(** A pool with one element *)
Lemma fp_entries_singleton {A} (p : fixed_pool A) k h : fp_model p {[ k := h ]} -> pool.entries U16_MAX p = [(k, h)].
Proof.
  intros [fl Hr]. pose proof (pool.pool_entries_sorted _ _ _ _ Hr) as Hs.
  assert (forall i v, (i, v) ∈ pool.entries U16_MAX p <-> i = k /\ v = h) as He.
  { intros i v. rewrite (pool.pool_entries_elem _ _ _ _ _ _ Hr), lookup_singleton_Some. naive_solver. }
  destruct (pool.entries U16_MAX p) as [|[i v] [|[j u] l]].
  - exfalso. apply (not_elem_of_nil (k, h)). apply He. auto.
  - destruct (proj1 (He i v)) as [-> ->]; [apply list_elem_of_here|reflexivity].
  - exfalso. destruct (proj1 (He i v)) as [-> ->]; [apply list_elem_of_here|].
    destruct (proj1 (He j u)) as [-> ->]; [apply list_elem_of_further, list_elem_of_here|].
    inversion Hs as [|? ? _ Hall]. inversion Hall. simpl in *. lia.
Qed.

Lemma fp_entries_empty {A} (p : fixed_pool A) : fp_model p ∅ -> pool.entries U16_MAX p = [].
Proof.
  intros [fl Hr]. destruct (pool.entries U16_MAX p) as [|[i v] l] eqn:E; [reflexivity|exfalso].
  assert ((i, v) ∈ pool.entries U16_MAX p) as Hin by (rewrite E; apply list_elem_of_here).
  eapply pool.pool_entries_elem in Hin; [|exact Hr]. rewrite lookup_empty in Hin. discriminate.
Qed.

Lemma fp_clear {A} (p : fixed_pool A) m : fp_model p m -> fp_model (pool.clear U16_MAX p) ∅.
Proof. intros [fl Hr]. exists []. eapply pool.pool_rep_clear. exact Hr. Qed.

(** A pool from which nothing was erased holds a sequence: elements get the
    indices 0, 1, 2 ... in the order they were added. *)
Definition fp_seq {A} (p : fixed_pool A) (l : list A) : Prop :=
  exists m, pool.rep U16_MAX p [] m /\ pool.watermark p = zlen l /\ forall i, m !! i = znth l i.

Lemma fp_seq_new {A} Capacity : Capacity <= U16_MAX -> fp_seq (new_fixed_pool (T := A) Capacity) [].
Proof.
  intros H. exists ∅. split; [|split; [reflexivity|]].
  - apply pool.pool_rep_init. rewrite zlen_replicate. unfold U16_MAX in *. lia.
  - intros i. rewrite lookup_empty. unfold znth. destruct (0 <=? i); reflexivity.
Qed.

Lemma fp_seq_append {A} (p : fixed_pool A) l v : fp_seq p l -> zlen l < sp_capacity p ->
  exists p', pool.emplace_anywhere U16_MAX p v = Ret (p', zlen l) /\ fp_seq p' (l ++ [v]) /\ sp_capacity p' = sp_capacity p.
Proof.
  intros (m & Hr & Hw & Hm) Hc. simpl in Hc. rewrite <-Hw in Hc. pose proof (zlen_nonneg l).
  destruct (pool.pool_emplace_watermark _ p [] m v Hr Hc) as (p' & E & Hr' & Hc'). exists p'. split; [|split].
  - unfold pool.emplace_anywhere. rewrite (pool.rep_head _ _ _ _ Hr). simpl. rewrite E. simpl. rewrite Hw. reflexivity.
  - exists (<[pool.watermark p := v]> m). split; [exact Hr'|].
    assert (m !! pool.watermark p = None) as Hn by (rewrite Hw, Hm; apply znth_ge_None; lia). split.
    + rewrite (pool.rep_total _ _ _ _ Hr'), (pool.rep_count _ _ _ _ Hr'), map_size_insert_None by assumption.
      rewrite zlen_app. change (zlen [v]) with 1. change (zlen (@nil Z)) with 0.
      rewrite <-Hw, (pool.rep_total _ _ _ _ Hr), (pool.rep_count _ _ _ _ Hr). change (zlen (@nil Z)) with 0. lia.
    + intros i. rewrite Hw. destruct (Z.eq_dec i (zlen l)) as [->|Hne].
      * rewrite lookup_insert_eq, znth_app_r, Z.sub_diag by lia. reflexivity.
      * rewrite lookup_insert_ne, Hm by congruence. destruct (Z.lt_ge_cases i (zlen l)).
        -- rewrite znth_app_l by lia. reflexivity.
        -- rewrite !znth_ge_None; [reflexivity|rewrite zlen_app; change (zlen [v]) with 1; lia|lia].
  - exact Hc'.
Qed.

Lemma fp_seq_full {A} (p : fixed_pool A) l v : fp_seq p l -> sp_capacity p <= zlen l ->
  pool.emplace_anywhere U16_MAX p v = Panic.
Proof.
  intros (m & Hr & Hw & _) Hc. apply (pool.pool_emplace_anywhere_full _ _ _ _ _ Hr).
  pose proof (pool.rep_total _ _ _ _ Hr) as Ht. rewrite (pool.rep_count _ _ _ _ Hr) in Ht. change (zlen (@nil Z)) with 0 in Ht. simpl in Hc. lia.
Qed.

Lemma fp_seq_get {A} (p : fixed_pool A) l i x : fp_seq p l -> znth l i = Some x -> pool.get U16_MAX p i = Ret x.
Proof. intros (m & Hr & _ & Hm) Hx. eapply pool.pool_get; [exact Hr|]. rewrite Hm. exact Hx. Qed.

Lemma fp_seq_valid {A} (p : fixed_pool A) l i : fp_seq p l -> 0 <= i < zlen l -> pool.valid U16_MAX p i = true.
Proof.
  intros (m & Hr & _ & Hm) Hi. destruct (znth_lt_Some l i Hi) as [x Hx]. eapply pool.pool_valid_true; [exact Hr|]. rewrite Hm. exact Hx.
Qed.

Lemma fp_seq_modify {A} (p : fixed_pool A) l i x f : fp_seq p l -> znth l i = Some x ->
  exists p', pool.modify U16_MAX p i f = Ret p' /\ fp_seq p' (zset l i (f x)) /\ sp_capacity p' = sp_capacity p.
Proof.
  intros (m & Hr & Hw & Hm) Hx. pose proof (znth_Some_lt _ _ _ Hx) as Hi. rewrite <-Hm in Hx.
  destruct (pool.pool_modify _ p [] m i x f Hr Hx) as (p' & E & Hr' & Hc). exists p'. split; [exact E|]. split; [|exact Hc].
  exists (<[i := f x]> m). split; [exact Hr'|]. split.
  - rewrite zlen_zset, <-Hw. unfold pool.modify in E. inv_ret. reflexivity.
  - intros j. rewrite znth_zset. destruct (Z.eqb_spec i j) as [->|Hne].
    + rewrite lookup_insert_eq, (proj2 (Z.leb_le _ _)), (proj2 (Z.ltb_lt _ _)) by lia. reflexivity.
    + rewrite lookup_insert_ne by assumption. apply Hm.
Qed.

Lemma fp_seq_get_panic {A} (p : fixed_pool A) l i : fp_seq p l -> znth l i = None -> pool.get U16_MAX p i = Panic.
Proof. intros (m & Hr & _ & Hm) Hx. eapply pool.pool_get_panic; [exact Hr|]. rewrite Hm. exact Hx. Qed.

(** Iteration visits the sequence. *)
Lemma fp_seq_entries {A} (p : fixed_pool A) l : fp_seq p l -> map snd (pool.entries U16_MAX p) = l.
Proof.
  intros (m & Hr & Hw & Hm). rewrite (pool.pool_entries _ _ _ _ Hr), Hw. clear Hr Hw.
  assert (forall (k : nat) i, 0 <= i -> i + Z.of_nat k = zlen l -> map snd (omap (pool.live m) (seqZ i (Z.of_nat k))) = drop (Z.to_nat i) l) as H.
  { induction k as [|k IH]; intros i Hi Hk; [rewrite seqZ_nil, drop_ge by (unfold zlen in Hk; lia); reflexivity|].
    rewrite seqZ_cons by lia. replace (Z.pred (Z.of_nat (S k))) with (Z.of_nat k) by lia. destruct (znth_lt_Some l i) as [v Hv]; [lia|].
    cbn [omap list_omap]. unfold pool.live at 1. rewrite Hm, Hv. cbn [fmap option_fmap option_map map snd]. rewrite IH by lia.
    unfold znth in Hv. rewrite (proj2 (Z.leb_le 0 i)) in Hv by lia. rewrite (drop_S l v _ Hv). do 2 f_equal. lia. }
  unfold zlen. rewrite H by (unfold zlen; lia). reflexivity.
Qed.

(** *** A pool with its capacity, as a finite map

    The form the kernel tables use: every operation as a case distinction on
    the map. *)

Definition fpm {A} (cap : Z) (p : fixed_pool A) (m : gmap Z A) : Prop := fp_model p m /\ sp_capacity p = cap.

Section fpm.
Context {A : Type} (cap : Z).
Implicit Types (p : fixed_pool A) (m : gmap Z A).

Lemma fpm_new : 0 <= cap <= U16_MAX -> fpm cap (new_fixed_pool (T := A) cap) ∅.
Proof. intros H. split; [apply fp_new; lia|apply fp_new_capacity; lia]. Qed.

Lemma fpm_get p m i : fpm cap p m -> pool.get U16_MAX p i = match m !! i with Some v => Ret v | None => Panic end.
Proof. intros [[fl Hr] _]. destruct (m !! i) eqn:E; [eapply pool.pool_get|eapply pool.pool_get_panic]; eauto. Qed.

Lemma fpm_at p m i : fpm cap p m -> pool.at_ U16_MAX p i = m !! i.
Proof. intros [[fl Hr] _]. eapply pool.pool_at; eauto. Qed.

Lemma fpm_valid p m i : fpm cap p m -> pool.valid U16_MAX p i = match m !! i with Some _ => true | None => false end.
Proof. intros [[fl Hr] _]. destruct (m !! i) eqn:E; [eapply pool.pool_valid_true|eapply pool.pool_valid_false]; eauto. Qed.

Lemma fpm_dom p m i v : fpm cap p m -> m !! i = Some v -> 0 <= i < pool.watermark p.
Proof. intros [[fl Hr] _] Hi. apply (pool.rep_dom _ _ _ _ Hr). eauto. Qed.

Lemma fpm_watermark p m : fpm cap p m -> 0 <= pool.watermark p <= cap.
Proof. intros [[fl Hr] Hc]. rewrite <-Hc. exact (pool.rep_wm _ _ _ _ Hr). Qed.

Lemma fpm_cap p m : fpm cap p m -> 0 <= cap <= U16_MAX.
Proof. intros H. pose proof (fpm_watermark _ _ H). destruct H as [[fl Hr] Hc]. pose proof (pool.rep_cap _ _ _ _ Hr). simpl in Hc. unfold pool.capacity in Hc. lia. Qed.

Lemma fpm_dom_cap p m i v : fpm cap p m -> m !! i = Some v -> 0 <= i < cap.
Proof. intros H Hi. pose proof (fpm_dom _ _ _ _ H Hi). pose proof (fpm_watermark _ _ H). lia. Qed.

Lemma fpm_full p m : fpm cap p m -> pool.full p = (cap <=? Z.of_nat (base.size m)).
Proof. intros [[fl Hr] Hc]. rewrite (pool.pool_full _ _ _ _ Hr). simpl in Hc. rewrite Hc. reflexivity. Qed.

Lemma fpm_modify p m i v f : fpm cap p m -> m !! i = Some v ->
  exists p', pool.modify U16_MAX p i f = Ret p' /\ fpm cap p' (<[i := f v]> m) /\ pool.watermark p' = pool.watermark p.
Proof.
  intros [[fl Hr] Hc] Hi. destruct (pool.pool_modify _ _ _ _ _ _ f Hr Hi) as (p' & E & Hr' & Hc').
  exists p'. split; [exact E|]. split; [split; [exists fl; exact Hr'|exact (eq_trans Hc' Hc)]|].
  unfold pool.modify in E. inv_ret. reflexivity.
Qed.

Lemma fpm_modify_panic p m i f : fpm cap p m -> m !! i = None -> pool.modify U16_MAX p i f = Panic.
Proof. intros H Hi. unfold pool.modify. rewrite (fpm_get _ _ _ H), Hi. reflexivity. Qed.

Lemma fpm_erase p m i v : fpm cap p m -> m !! i = Some v ->
  exists p', pool.erase U16_MAX p i = Ret p' /\ fpm cap p' (delete i m).
Proof.
  intros [[fl Hr] Hc] Hi. destruct (pool.pool_erase _ _ _ _ _ _ Hr Hi) as (p' & fl' & E & Hr' & Hc').
  exists p'. split; [exact E|split; [exists fl'; exact Hr'|exact (eq_trans Hc' Hc)]].
Qed.

Lemma fpm_erase_panic p m i : fpm cap p m -> m !! i = None -> pool.erase U16_MAX p i = Panic.
Proof. intros [[fl Hr] _] Hi. eapply pool.pool_erase_panic; eauto. Qed.

Lemma fpm_emplace_anywhere p m v : fpm cap p m -> Z.of_nat (base.size m) < cap ->
  exists p' i, pool.emplace_anywhere U16_MAX p v = Ret (p', i) /\ fpm cap p' (<[i := v]> m) /\ m !! i = None /\ 0 <= i < cap.
Proof.
  intros [[fl Hr] Hc] Hsz. rewrite <-Hc in Hsz. destruct (pool.pool_emplace_anywhere _ _ _ _ v Hr Hsz) as (p' & fl' & i & E & Hr' & Hi & Hi' & Hc').
  exists p', i. split; [exact E|]. split; [split; [exists fl'; exact Hr'|exact (eq_trans Hc' Hc)]|]. split; [exact Hi|].
  rewrite <-Hc. exact Hi'.
Qed.

Lemma fpm_emplace_full p m v : fpm cap p m -> cap <= Z.of_nat (base.size m) -> pool.emplace_anywhere U16_MAX p v = Panic.
Proof. intros [[fl Hr] Hc] Hsz. rewrite <-Hc in Hsz. eapply pool.pool_emplace_anywhere_full; eauto. Qed.

(** Inversion of a successful allocation *)
Lemma fpm_emplace_inv p m v p' i : fpm cap p m -> pool.emplace_anywhere U16_MAX p v = Ret (p', i) ->
  fpm cap p' (<[i := v]> m) /\ m !! i = None /\ 0 <= i < cap.
Proof.
  intros H E. destruct (Z.lt_ge_cases (Z.of_nat (base.size m)) cap) as [Hsz|Hsz].
  - destruct (fpm_emplace_anywhere p m v H Hsz) as (p1 & i1 & E1 & ? & ? & ?). rewrite E in E1. injection E1 as <- <-. auto.
  - rewrite (fpm_emplace_full _ _ _ H Hsz) in E. discriminate.
Qed.

Lemma fpm_emplace_at p m i v : fpm cap p m -> 0 <= i < cap ->
  exists p', pool.emplace U16_MAX p i v = Ret p' /\ fpm cap p' (<[i := v]> m).
Proof.
  intros [[fl Hr] Hc] Hi. rewrite <-Hc in Hi. destruct (pool.pool_emplace _ _ _ _ i v Hr Hi) as (p' & fl' & E & Hr' & Hc').
  exists p'. split; [exact E|split; [exists fl'; exact Hr'|exact (eq_trans Hc' Hc)]].
Qed.

Lemma fpm_emplace_at_panic p m i v : fpm cap p m -> cap <= i -> pool.emplace U16_MAX p i v = Panic.
Proof. intros [[fl Hr] Hc] Hi. rewrite <-Hc in Hi. eapply pool.pool_emplace_panic; eauto. Qed.

Lemma fpm_size p m : fpm cap p m -> Z.of_nat (base.size m) <= cap.
Proof.
  intros H. pose proof (fpm_watermark _ _ H). destruct H as [[fl Hr] _].
  pose proof (pool.rep_count _ _ _ _ Hr). pose proof (pool.rep_total _ _ _ _ Hr). pose proof (zlen_nonneg fl). lia.
Qed.

(** Iterators *)
Lemma fpm_it_begin p m : fpm cap p m ->
  let j := pool.it_begin U16_MAX p in 0 <= j <= cap /\ (j <> pool.it_end p -> is_Some (m !! j)).
Proof.
  intros H. pose proof (fpm_watermark _ _ H). destruct H as [[fl Hr] _].
  destruct (pool.pool_it_from _ p fl m 0 Hr) as [? ?]; [lia|]. split; [unfold pool.it_begin; lia|assumption].
Qed.

Lemma fpm_it_next p m i : fpm cap p m -> 0 <= i < cap ->
  let j := pool.it_next U16_MAX p i in
  (is_Some (m !! i) -> i < j) /\ 0 <= j <= cap /\ (j <> pool.it_end p -> is_Some (m !! j)).
Proof.
  intros H Hi. pose proof (fpm_watermark _ _ H). pose proof (fpm_cap _ _ H). pose proof (fpm_dom p m i) as Hd.
  pose proof H as [[fl Hr] _]. destruct (pool.pool_it_next _ p fl m i Hr) as (Hlow & Hw & Hlive); [lia|]. cbv zeta.
  split; [|split; [destruct (i <? _); lia|assumption]].
  intros [v Hv]. specialize (Hd v H Hv). rewrite (proj2 (Z.ltb_lt _ _)) in Hlow by lia. exact Hlow.
Qed.
End fpm.

#[export, refine] Instance fixed_pool_laws : SlotPoolLaws fixed_pool := {| sp_model T := fp_model |}.
Proof.
  - intros T p m i [fl Hr]. eapply pool.pool_at; eauto.
  - intros T p m v [fl Hr] H. destruct (pool.pool_emplace_anywhere _ p fl m v Hr H)
      as (p' & fl' & i & E & ? & ? & _ & ?). exists p', i. repeat split; auto. exists fl'. assumption.
  - intros T p m v [fl Hr] H. eapply pool.pool_emplace_anywhere_full; eauto.
  - intros T p m i v [fl Hr] H. destruct (pool.pool_erase _ p fl m i v Hr H) as (p' & fl' & E & ? & ?).
    exists p'. repeat split; auto. exists fl'. assumption.
  - intros T p m i [fl Hr] H. eapply pool.pool_erase_panic; eauto.
  - intros T p m i v f [fl Hr] H. destruct (pool.pool_modify _ p fl m i v f Hr H) as (p' & E & ? & ?).
    exists p'. repeat split; auto. exists fl. assumption.
  - intros T p m i v [fl Hr]. eapply pool.pool_entries_elem; eauto.
  - intros T p m [fl Hr]. eapply pool.pool_entries_sorted; eauto.
  - intros T p m [fl Hr]. eapply pool.pool_size; eauto.
  - intros T p m [fl Hr]. eapply pool.pool_full; eauto.
Defined.

(** C4: any sequence of operations on a pool of any capacity the index type
    allows behaves like a finite map of that capacity.  In particular
    [emplace_anywhere] succeeds exactly when the pool is not full and never
    hands out an index in use, also after arbitrary interleavings of erasures
    and of [emplace] at chosen indices, which take slots out of the middle of
    the free list; and no operation touches memory outside the storage. *)
Theorem pool_refines_finite_map {T} (END : Z) (storage : list (pool.node T)) (ops : list (pool.op)) :
  zlen storage <= END -> forallb pool.op_ok ops = true ->
  pool.spec_run (zlen storage) ∅ ops (pool.run END (pool.init END storage) ops).
Proof.
  intros Hs Hok. apply (pool.pool_run END (pool.init END storage) []); [|assumption].
  apply pool.pool_rep_init. assumption.
Qed.

Lemma pool_refines_finite_map_witness :
  exists ops : list (@pool.op Z), pool.run 65535 (@new_fixed_pool Z 4) ops =
    Ret [pool.RUnit; pool.RIdx 2; pool.RIdx 1; pool.RUnit; pool.RIdx 2; pool.RList [(1, 12); (2, 13); (3, 10)]] /\
    pool.spec_run 4 ∅ ops (pool.run 65535 (@new_fixed_pool Z 4) ops).
Proof.
  exists [pool.Emplace 3 10; pool.EmplaceAnywhere 11; pool.EmplaceAnywhere 12; pool.Erase 2;
     pool.EmplaceAnywhere 13; pool.Iterate].
  split; [vm_compute; reflexivity|].
  apply (pool_refines_finite_map 65535 (replicate 4 (pool.fresh_node U16_MAX))); [vm_compute; congruence|reflexivity].
Defined.
