(* ===== verification/UnorderedMap.v ===== *)
(** * p2::unordered_map (libraries/support/unordered_map.h)

    A map from keys to values kept as an unsorted pool of entries.  The
    operations and their correctness are stated against the [SlotPool]
    interface; [Pool.fixed_pool] is the instance the source uses. *)

From Stdlib Require Import Sorted.
From S2P Require Import Prelude Pool.
From stdpp Require Import gmap list.
#[local] Open Scope Z_scope.

Module unordered_map.
Section map.
Context {P : Type -> Type} `{!SlotPool P, !SlotPoolLaws P}.
Context {K V : Type} `{Countable K}.

Record entry := mk_entry { key : K; value : V }.

Definition t : Type := P entry.
Implicit Type p : t.

(** [None] is [end()] *)
Fixpoint find_in (l : list (Z * entry)) (k : K) : option Z :=
  match l with
  | [] => None
  | (i, e) :: l' => if decide (key e = k) then Some i else find_in l' k
  end.

Definition find p (k : K) : option Z := find_in (sp_entries p) k.

Definition insert p (k : K) (v : V) : outcome (t * bool) :=
  match find p k with
  | Some _ => Ret (p, false)
  | None => '(p', _) ← sp_emplace_anywhere p (mk_entry k v); Ret (p', true)
  end.

Definition erase p (it : Z) : outcome t := sp_erase p it.

(** [operator []]: the position of the entry whose value is referenced *)
Definition index p (dflt : V) (k : K) : outcome (t * Z) :=
  match find p k with
  | Some i => Ret (p, i)
  | None =>
      '(p', _) ← insert p k dflt;
      match find p' k with
      | Some i => Ret (p', i)
      | None => Panic
      end
  end.

(** [m[k] = v] *)
Definition assign p (dflt : V) (k : K) (v : V) : outcome t :=
  '(p', i) ← index p dflt k; sp_modify (P := P) p' i (fun e => mk_entry (key e) v).

Definition size p : Z := sp_size p.
Definition full p : bool := sp_full p.

(** The value [find] leads to *)
Definition lookup p (k : K) : option V :=
  match find p k with
  | Some i => value <$> sp_at p i
  | None => None
  end.

(** [auto it = find(k); if (it != end()) erase(it);] *)
Definition erase_key p (k : K) : outcome t :=
  match find p k with
  | Some i => erase p i
  | None => Ret p
  end.

(** ** Abstraction to a finite map *)

Inductive rep p (g : gmap K V) : Prop :=
| rep_intro (m : gmap Z entry) (Hmodel : sp_model p m)
    (Hunique : forall i j e e', m !! i = Some e -> m !! j = Some e' -> key e = key e' -> i = j)
    (Hlookup : forall k v, g !! k = Some v <-> exists i, m !! i = Some (mk_entry k v))
    (Hsize : base.size g = base.size m).

Lemma um_find_in l k :
  match find_in l k with
  | Some i => exists v, (i, mk_entry k v) ∈ l
  | None => forall i e, (i, e) ∈ l -> key e <> k
  end.
Proof.
  induction l as [|[i e] l IH]; simpl.
  - intros i e He. apply not_elem_of_nil in He. done.
  - case_decide as E.
    + exists (value e). destruct e. simpl in E. subst. apply list_elem_of_here.
    + destruct (find_in l k).
      * destruct IH as [v ?]. exists v. apply list_elem_of_further. assumption.
      * intros j e' He. apply elem_of_cons in He. destruct He as [[= -> ->]|]; eauto.
Qed.

(** [find] on a represented map *)
Lemma um_find p (m : gmap Z entry) k : sp_model p m ->
  match find p k with
  | Some i => exists v, m !! i = Some (mk_entry k v)
  | None => forall i e, m !! i = Some e -> key e <> k
  end.
Proof.
  intros Hm. pose proof (um_find_in (sp_entries p) k) as H1. unfold find.
  destruct (find_in (sp_entries p) k).
  - destruct H1 as [v Hv]. exists v. eapply sp_entries_model; eauto.
  - intros i e He. apply (H1 i). eapply sp_entries_model; eauto.
Qed.

Lemma um_find_rep p g k : rep p g ->
  match find p k with
  | Some i => exists v, sp_at p i = Some (mk_entry k v) /\ g !! k = Some v
  | None => g !! k = None
  end.
Proof.
  intros [m Hm Hu Hl Hs]. pose proof (um_find p m k Hm) as Hf. destruct (find p k).
  - destruct Hf as [v Hv]. exists v. rewrite (sp_at_model p m) by assumption.
    split; [assumption|]. apply Hl. eauto.
  - destruct (g !! k) as [v|] eqn:E; [|reflexivity]. apply Hl in E. destruct E as [i Hi].
    destruct (Hf i _ Hi). reflexivity.
Qed.

Lemma um_lookup p g k : rep p g -> lookup p k = g !! k.
Proof.
  intros Hr. pose proof (um_find_rep p g k Hr) as Hf. unfold lookup.
  destruct (find p k); [|congruence]. destruct Hf as (v & -> & ->). reflexivity.
Qed.

(** Adding an entry for a new key *)
Lemma um_emplace p g k v : rep p g -> g !! k = None -> Z.of_nat (base.size g) < sp_capacity p ->
  exists p' i, sp_emplace_anywhere p (mk_entry k v) = Ret (p', i) /\
    rep p' (<[k := v]> g) /\ sp_capacity p' = sp_capacity p.
Proof.
  intros [m Hm Hu Hl Hs] Hk Hsz. rewrite Hs in Hsz.
  destruct (sp_emplace_anywhere_model p m (mk_entry k v) Hm Hsz) as (p' & i & E & Hi & Hm' & Hc).
  assert (forall j e, m !! j = Some e -> key e <> k) as Hnew.
  { intros j [k2 w] Hj Hke. simpl in Hke. subst.
    assert (g !! k = Some w) by (apply Hl; eauto). congruence. }
  exists p', i. split; [assumption|]. split; [|assumption]. exists (<[i := mk_entry k v]> m); auto.
  - intros a b e e' Ha Hb Hke. rewrite lookup_insert_Some in Ha, Hb.
    destruct Ha as [[<- <-]|[? Ha]], Hb as [[<- <-]|[? Hb]]; eauto.
    + exfalso. eapply Hnew; eauto.
    + exfalso. eapply Hnew; eauto.
  - intros k2 w. rewrite lookup_insert_Some, Hl. split.
    + intros [[<- <-]|[Hne [j Hj]]].
      * exists i. apply lookup_insert_eq.
      * exists j. rewrite lookup_insert_ne; [assumption|congruence].
    + intros [j Hj]. apply lookup_insert_Some in Hj. destruct Hj as [[<- [= <- <-]]|[? Hj]]; [auto|].
      right. split; [|eauto]. intros <-. eapply (Hnew j); [eassumption|reflexivity].
  - rewrite !map_size_insert_None by assumption. congruence.
Qed.

Lemma um_insert p g k v : rep p g ->
  if decide (is_Some (g !! k)) then insert p k v = Ret (p, false)
  else if Z.of_nat (base.size g) <? sp_capacity p then
    exists p', insert p k v = Ret (p', true) /\ rep p' (<[k := v]> g) /\ sp_capacity p' = sp_capacity p
  else insert p k v = Panic.
Proof.
  intros Hr. pose proof (um_find_rep p g k Hr) as Hf. unfold insert.
  destruct (find p k).
  - destruct Hf as (w & _ & ->). rewrite decide_True by eauto. reflexivity.
  - rewrite Hf. rewrite decide_False by (apply is_Some_None).
    destruct (Z.ltb_spec (Z.of_nat (base.size g)) (sp_capacity p)) as [Hlt|Hge].
    + destruct (um_emplace p g k v Hr Hf Hlt) as (p' & i & -> & ? & ?). simpl. eauto.
    + destruct Hr as [m Hm _ _ Hs]. rewrite (sp_emplace_anywhere_full p m); [reflexivity|assumption|].
      rewrite <-Hs. assumption.
Qed.

Lemma um_set p g i k w v : rep p g -> sp_at p i = Some (mk_entry k w) ->
  exists p', sp_modify p i (fun e => mk_entry (key e) v) = Ret p' /\
    rep p' (<[k := v]> g) /\ sp_capacity p' = sp_capacity p.
Proof.
  intros [m Hm Hu Hl Hs] Hi. rewrite (sp_at_model p m) in Hi by assumption.
  destruct (sp_modify_model p m i _ (fun e => mk_entry (key e) v) Hm Hi) as (p' & E & Hm' & Hc).
  exists p'. split; [assumption|]. split; [|assumption]. simpl in Hm'.
  exists (<[i := mk_entry k v]> m); auto.
  - intros a b e e' Ha Hb Hke. rewrite lookup_insert_Some in Ha, Hb.
    destruct Ha as [[<- <-]|[? Ha]], Hb as [[<- <-]|[? Hb]]; eauto.
  - intros k2 w2. rewrite lookup_insert_Some, Hl. split.
    + intros [[<- <-]|[Hne [j Hj]]].
      * exists i. apply lookup_insert_eq.
      * exists j. rewrite lookup_insert_ne; [assumption|]. intros ->. congruence.
    + intros [j Hj]. apply lookup_insert_Some in Hj. destruct Hj as [[<- [= <- <-]]|[Hne Hj]]; [auto|].
      right. split; [|eauto]. intros <-. apply Hne. eapply Hu; eauto.
  - rewrite !map_size_insert_Some; [assumption|eauto|]. exists w. apply Hl. eauto.
Qed.

Lemma um_set_at p p' g i k w v : rep p g -> sp_at p i = Some (mk_entry k w) ->
  sp_modify p i (fun e => mk_entry (key e) v) = Ret p' -> sp_at p' i = Some (mk_entry k v).
Proof.
  intros [m Hm _ _ _] Hi E. rewrite (sp_at_model p m) in Hi by assumption.
  destruct (sp_modify_model p m i _ (fun e => mk_entry (key e) v) Hm Hi) as (p2 & E2 & Hm2 & _).
  rewrite E in E2. injection E2 as <-. rewrite (sp_at_model p' _ i Hm2). apply lookup_insert_eq.
Qed.

Lemma um_find_at p g i k v : rep p g -> sp_at p i = Some (mk_entry k v) -> find p k = Some i.
Proof.
  intros [m Hm Hu _ _] Hi. rewrite (sp_at_model p m) in Hi by assumption. pose proof (um_find p m k Hm) as Hf.
  destruct (find p k) as [j|]; [|destruct (Hf i _ Hi); reflexivity].
  destruct Hf as [u Hj]. f_equal. eapply Hu; [exact Hj|exact Hi|reflexivity].
Qed.

Lemma um_erase_key p g k : rep p g ->
  exists p', erase_key p k = Ret p' /\ rep p' (delete k g) /\ sp_capacity p' = sp_capacity p.
Proof.
  intros Hr. pose proof (um_find_rep p g k Hr) as Hf. unfold erase_key.
  destruct (find p k) as [i|].
  2:{ exists p. rewrite delete_id by assumption. auto. }
  destruct Hf as (v & Hi & Hg). pose proof Hr as [m Hm Hu Hl Hs].
  rewrite (sp_at_model p m) in Hi by assumption.
  destruct (sp_erase_model p m i _ Hm Hi) as (p' & E & Hm' & Hc).
  exists p'. split; [assumption|]. split; [|assumption]. exists (delete i m); auto.
  - intros a b e e' Ha Hb. rewrite lookup_delete_Some in Ha, Hb. destruct Ha, Hb. eauto.
  - intros k2 w. rewrite lookup_delete_Some, Hl. split.
    + intros [Hne [j Hj]]. exists j. rewrite lookup_delete_Some. split; [|assumption].
      intros <-. congruence.
    + intros [j Hj]. apply lookup_delete_Some in Hj. destruct Hj as [Hne Hj].
      split; [|eauto]. intros <-. apply Hne. eapply Hu; eauto.
  - rewrite !map_size_delete_Some; [lia|eauto|eauto].
Qed.

Lemma um_assign p g d k v : rep p g ->
  if bool_decide (is_Some (g !! k)) || (Z.of_nat (base.size g) <? sp_capacity p) then
    exists p', assign p d k v = Ret p' /\ rep p' (<[k := v]> g) /\ sp_capacity p' = sp_capacity p
  else assign p d k v = Panic.
Proof.
  intros Hr. pose proof (um_find_rep p g k Hr) as Hf. unfold assign, index.
  pose proof (um_insert p g k d Hr) as Hi. destruct (find p k) as [i|].
  - destruct Hf as (w & Ha & Hg). rewrite bool_decide_true by eauto. simpl.
    eapply um_set; eauto.
  - rewrite Hf in Hi |- *. rewrite decide_False in Hi by (apply is_Some_None).
    rewrite bool_decide_false by (apply is_Some_None). simpl.
    destruct (_ <? _); [|rewrite Hi; reflexivity].
    destruct Hi as (p1 & -> & Hr1 & Hc1). simpl.
    pose proof (um_find_rep p1 _ k Hr1) as Hf1. rewrite lookup_insert_eq in Hf1.
    destruct (find p1 k) as [i|]; [|discriminate]. destruct Hf1 as (w & Ha & _). simpl.
    destruct (um_set p1 _ i k w v Hr1 Ha) as (p2 & -> & Hr2 & Hc2).
    rewrite insert_insert_eq in Hr2. exists p2. rewrite Hc2. auto.
Qed.

Lemma um_size p g : rep p g -> size p = Z.of_nat (base.size g).
Proof. intros [m Hm _ _ Hs]. unfold size. rewrite (sp_size_model p m), Hs by assumption. reflexivity. Qed.

Lemma um_full p g : rep p g -> full p = (sp_capacity p <=? Z.of_nat (base.size g)).
Proof. intros [m Hm _ _ Hs]. unfold full. rewrite (sp_full_model p m), Hs by assumption. reflexivity. Qed.

Lemma um_new p : sp_model p ∅ -> rep p ∅.
Proof.
  intros Hm. exists ∅; auto.
  - intros i j e e' Hi. rewrite lookup_empty in Hi. discriminate.
  - intros k v. split; [|intros [i Hi]]; rewrite ?lookup_empty in *; discriminate.
Qed.

(** ** Sequences of operations *)

Inductive op := Insert (k : K) (v : V) | Assign (k : K) (v : V) | EraseKey (k : K) | Lookup (k : K) | Size | Full.
Inductive res := RBool (b : bool) | RUnit | RVal (v : option V) | RNat (n : Z).

Definition step (d : V) p (o : op) : outcome (t * res) :=
  match o with
  | Insert k v => '(p', b) ← insert p k v; Ret (p', RBool b)
  | Assign k v => p' ← assign p d k v; Ret (p', RUnit)
  | EraseKey k => p' ← erase_key p k; Ret (p', RUnit)
  | Lookup k => Ret (p, RVal (lookup p k))
  | Size => Ret (p, RNat (size p))
  | Full => Ret (p, RBool (full p))
  end.

Fixpoint run (d : V) p (ops : list op) : outcome (list res) :=
  match ops with
  | [] => Ret []
  | o :: ops' => '(p', r) ← step d p o; rs ← run d p' ops'; Ret (r :: rs)
  end.

(** A finite map with a capacity *)
Definition spec_step (cap : Z) (g : gmap K V) (o : op) : outcome (gmap K V * res) :=
  match o with
  | Insert k v =>
      if decide (is_Some (g !! k)) then Ret (g, RBool false)
      else if Z.of_nat (base.size g) <? cap then Ret (<[k := v]> g, RBool true) else Panic
  | Assign k v =>
      if bool_decide (is_Some (g !! k)) || (Z.of_nat (base.size g) <? cap)
      then Ret (<[k := v]> g, RUnit) else Panic
  | EraseKey k => Ret (delete k g, RUnit)
  | Lookup k => Ret (g, RVal (g !! k))
  | Size => Ret (g, RNat (Z.of_nat (base.size g)))
  | Full => Ret (g, RBool (cap <=? Z.of_nat (base.size g)))
  end.

Fixpoint spec_run (cap : Z) (g : gmap K V) (ops : list op) : outcome (list res) :=
  match ops with
  | [] => Ret []
  | o :: ops' => '(g', r) ← spec_step cap g o; rs ← spec_run cap g' ops'; Ret (r :: rs)
  end.

Lemma um_step d p g o : rep p g ->
  match spec_step (sp_capacity p) g o with
  | Ret (g', r) => exists p', step d p o = Ret (p', r) /\ rep p' g' /\ sp_capacity p' = sp_capacity p
  | _ => step d p o = Panic
  end.
Proof.
  intros Hr. destruct o as [k v|k v|k|k| |]; simpl.
  - pose proof (um_insert p g k v Hr) as Hi. case_decide; [rewrite Hi; simpl; eauto|].
    destruct (_ <? _); [|rewrite Hi; reflexivity]. destruct Hi as (p' & -> & ?). simpl. eauto.
  - pose proof (um_assign p g d k v Hr) as Hi. destruct (_ || _); [|rewrite Hi; reflexivity].
    destruct Hi as (p' & -> & ?). simpl. eauto.
  - destruct (um_erase_key p g k Hr) as (p' & -> & ?). simpl. eauto.
  - rewrite (um_lookup p g k Hr). eauto.
  - rewrite (um_size p g Hr). eauto.
  - rewrite (um_full p g Hr). eauto.
Qed.

Lemma um_run d ops : forall p g, rep p g -> run d p ops = spec_run (sp_capacity p) g ops.
Proof.
  induction ops as [|o ops IH]; intros p g Hr; [reflexivity|]. simpl.
  pose proof (um_step d p g o Hr) as Hs.
  assert (forall x, spec_step (sp_capacity p) g o = x -> x <> Undef /\ x <> NoFuel) as Hn.
  { intros x <-. destruct o; simpl; repeat case_decide; repeat destruct (_ || _); repeat destruct (_ <? _); simpl; done. }
  destruct (spec_step (sp_capacity p) g o) as [[g' r]| | |]; try (destruct (Hn _ eq_refl); done).
  - destruct Hs as (p' & -> & Hr' & Hc). simpl. rewrite (IH p' g' Hr'), Hc. reflexivity.
  - rewrite Hs. reflexivity.
Qed.
End map.
End unordered_map.

(** C5: over every implementation of the slot pool interface, [unordered_map]
    is observationally a finite map with a capacity: [insert] never overwrites
    and reports whether the key was new, [operator []] assigns or creates,
    [find] returns exactly the current binding, a full map panics only on a
    new key. *)
Theorem unordered_map_refines_gmap {P : Type -> Type} `{SlotPoolLaws P} {K V} `{Countable K}
    (p : P (@unordered_map.entry K V)) (d : V) (ops : list unordered_map.op) :
  sp_model p ∅ ->
  unordered_map.run d p ops = unordered_map.spec_run (sp_capacity p) ∅ ops.
Proof. intros Hm. apply unordered_map.um_run. apply unordered_map.um_new. assumption. Qed.

Lemma unordered_map_refines_gmap_witness :
  let ops := [unordered_map.Insert 5 50; unordered_map.Insert 5 51; unordered_map.Assign 7 70;
              unordered_map.EraseKey 5; unordered_map.Lookup 7; unordered_map.Lookup 5;
              unordered_map.Insert 8 80; unordered_map.Full] in
  unordered_map.run 0 (new_fixed_pool 2) ops =
    Ret [unordered_map.RBool true; unordered_map.RBool false; unordered_map.RUnit; unordered_map.RUnit;
         unordered_map.RVal (Some 70); unordered_map.RVal None; unordered_map.RBool true;
         unordered_map.RBool true] /\
  unordered_map.run 0 (new_fixed_pool 2) ops = unordered_map.spec_run (sp_capacity (new_fixed_pool (T := @unordered_map.entry Z Z) 2)) ∅ ops.
Proof.
  split; [vm_compute; reflexivity|].
  apply (unordered_map_refines_gmap (new_fixed_pool 2) 0). apply fp_new. unfold U16_MAX. lia.
Defined.
