(* ===== verification/PageAlloc.v ===== *)
(** * p2::page_allocator (libraries/support/page_alloc.h)

    The physical page allocator: a watermark that grows through the region and
    a stack of freed pages kept in a bookkeeping area at the start of the
    region.  Addresses are 32 bit.  The stack is the array [fs]; its initial
    content is arbitrary, as the bookkeeping memory is never cleared. *)

From S2P Require Import Prelude.
From stdpp Require Import gmap fin_sets list.
#[local] Open Scope Z_scope.

Module page_allocator.

Record region := mk_region { start : Z; end_ : Z }.

Definition region_size (r : region) : Z := u32 (end_ r - start r).

Record t := mk {
  phys_region : region;
  phys_bookkeeping : region;
  watermark : Z;
  fs : list Z;      (* [_fs_start, _fs_end) *)
  fs_head : Z       (* _fs_head - _fs_start *)
}.

Definition PAGE : Z := 0x1000.

Definition aligned (x : Z) : bool := Z.land x 0xFFF =? 0.

(** Bytes and pages the free stack of a region takes *)
Definition needed_for_bookkeeping (r : region) : Z := u32 (u32 (end_ r - start r) / 0x1000 * 4).
Definition free_list_size_pages (r : region) : Z := u32 (needed_for_bookkeeping r + 0x0FFF) / 0x1000.

(** The constructor; [mem] is what the bookkeeping memory holds. *)
Definition page_allocator (r : region) (mem : list Z) : outcome t :=
  passert (aligned (start r));;
  passert (aligned (end_ r));;
  let bk := mk_region (start r) (u32 (start r + free_list_size_pages r * 0x1000)) in
  passert (aligned (start bk));;
  passert (aligned (end_ bk));;
  passert (end_ bk <? end_ r);;
  Ret (mk r bk (end_ bk) mem 0).

Definition alloc_page (a : t) : outcome (t * Z) :=
  if negb (fs_head a =? 0) then
    passert (0 <? fs_head a);;
    passert (fs_head a <? zlen (fs a));;
    page ← arr_get (fs a) (fs_head a - 1);
    Ret (mk (phys_region a) (phys_bookkeeping a) (watermark a) (fs a) (fs_head a - 1), page)
  else
    passert (watermark a <? end_ (phys_region a));;
    Ret (mk (phys_region a) (phys_bookkeeping a) (u32 (watermark a + 0x1000)) (fs a) (fs_head a),
         watermark a).

(** [alloc_page_zero]: [mem] is the memory the page address leads to. *)
Definition alloc_page_zero (mem : Z -> Z) (a : t) : outcome (t * Z * (Z -> Z)) :=
  '(a, page) ← alloc_page a;
  Ret (a, page, fun x => if (page <=? x) && (x <? page + 0x1000) then 0 else mem x).

(** [internal_page_allocator]: the region is its own storage. *)
Definition internal_page_allocator (storage capacity : Z) (mem : list Z) : outcome t :=
  page_allocator (mk_region storage (u32 (storage + capacity))) mem.

Definition free_page (a : t) (page : Z) : outcome t :=
  passert (aligned page);;
  if page =? u32 (watermark a - 0x1000) then
    passert (end_ (phys_bookkeeping a) <? watermark a);;
    Ret (mk (phys_region a) (phys_bookkeeping a) (u32 (watermark a - 0x1000)) (fs a) (fs_head a))
  else
    passert (fs_head a <? zlen (fs a));;
    passert (0 <=? fs_head a);;
    fs' ← arr_set (fs a) (fs_head a) page;
    Ret (mk (phys_region a) (phys_bookkeeping a) (watermark a) fs' (fs_head a + 1)).

Definition free_pages (a : t) : Z :=
  u32 (u32 (end_ (phys_region a) - watermark a) / 0x1000 + fs_head a).

(** ** Well-formed allocators

    [A] is the set of pages the clients hold, [N] the number of pages above
    the bookkeeping area. *)

Definition page_no (a : t) (k : Z) : Z := end_ (phys_bookkeeping a) + PAGE * k.

Definition stack (a : t) : list Z := take (Z.to_nat (fs_head a)) (fs a).

Definition is_page (a : t) (w x : Z) : Prop := exists k, 0 <= k < w /\ x = page_no a k.

Record rep (a : t) (N : Z) (A : gset Z) : Prop := {
  rep_base : 0 <= end_ (phys_bookkeeping a) /\ end_ (phys_bookkeeping a) mod PAGE = 0;
  rep_end : end_ (phys_region a) = page_no a N /\ end_ (phys_region a) < 2 ^ 32;
  rep_wm : exists w, 0 <= w <= N /\ watermark a = page_no a w /\
      (forall x, x ∈ stack a -> is_page a w x) /\ (forall x, x ∈ A -> is_page a w x) /\
      w = Z.of_nat (base.size A) + fs_head a;
  rep_head : 0 <= fs_head a <= zlen (fs a);
  rep_room : N < zlen (fs a);
  rep_nodup : NoDup (stack a);
  rep_disj : forall x, x ∈ stack a -> x ∉ A
}.

Lemma pa_aligned x : 0 <= x -> aligned x = (x mod PAGE =? 0).
Proof. intros. unfold aligned, PAGE. change 0xFFF with (Z.ones 12). rewrite Z.land_ones by lia. reflexivity. Qed.

Lemma pa_page_aligned a k : 0 <= page_no a k -> end_ (phys_bookkeeping a) mod PAGE = 0 -> aligned (page_no a k) = true.
Proof.
  intros Hp Hb. rewrite pa_aligned by assumption. apply Z.eqb_eq. unfold page_no in *.
  rewrite Z.mul_comm, Z_mod_plus_full. assumption.
Qed.

Lemma pa_free_pages a N A : rep a N A -> free_pages a = N - Z.of_nat (base.size A).
Proof.
  intros [Hb [He He2] (w & Hw & Hwm & _ & _ & Hcnt) Hh Hr _ _]. unfold free_pages, page_no, PAGE in *.
  rewrite Hwm, He. replace (_ - _) with ((N - w) * 0x1000) by lia.
  rewrite (u32_small (_ * _)) by lia. rewrite Z.div_mul by lia. rewrite u32_small by lia. lia.
Qed.

(** Taking a page off the stack *)
Lemma pa_alloc_stack a N A : rep a N A -> fs_head a <> 0 ->
  exists a' x, alloc_page a = Ret (a', x) /\ rep a' N ({[x]} ∪ A) /\ (x ∉ A) /\ is_page a N x /\
    phys_bookkeeping a' = phys_bookkeeping a.
Proof.
  intros [Hb He (w & Hw & Hwm & Hst & HA & Hcnt) Hh Hr Hnd Hdj] Hne.
  unfold alloc_page. rewrite (proj2 (Z.eqb_neq _ _)) by assumption. cbn [negb].
  rewrite !passert_true by lia. simpl.
  destruct (znth_lt_Some (fs a) (fs_head a - 1)) as [x Hx]; [lia|].
  rewrite (arr_get_Ret _ _ _ Hx). simpl. eexists _, x. split; [reflexivity|].
  assert (stack a = take (Z.to_nat (fs_head a - 1)) (fs a) ++ [x]) as Es.
  { unfold stack. replace (Z.to_nat (fs_head a)) with (S (Z.to_nat (fs_head a - 1))) by lia.
    apply take_S_r. unfold znth in Hx. destruct (0 <=? fs_head a - 1); [assumption|discriminate]. }
  rewrite Es in *. apply NoDup_app in Hnd. destruct Hnd as (Hnd & Hx1 & _).
  assert (x ∉ A) by (apply Hdj; set_solver).
  destruct (Hst x) as (k & Hk & Ek); [set_solver|].
  split; [|split; [assumption|split; [exists k; split; [lia|assumption]|reflexivity]]].
  split; simpl; auto; try lia.
  - exists w. unfold page_no, stack in *. simpl. split; [lia|]. split; [assumption|].
    split; [intros y Hy; apply Hst; set_solver|]. split.
    + intros y Hy. apply elem_of_union in Hy. destruct Hy as [Hy|Hy]; [|exact (HA y Hy)].
      apply elem_of_singleton in Hy. subst y. exists k. split; [lia|assumption].
    + rewrite size_union by set_solver. rewrite size_singleton. lia.
  - unfold stack. simpl. intros y Hy Hin. apply elem_of_union in Hin. destruct Hin as [Hin|Hin].
    + apply elem_of_singleton in Hin. subst y. apply (Hx1 x Hy). set_solver.
    + apply (Hdj y); [set_solver|assumption].
Qed.

(** Raising the watermark *)
Lemma pa_alloc_fresh a N A : rep a N A -> fs_head a = 0 -> Z.of_nat (base.size A) < N ->
  exists a' x, alloc_page a = Ret (a', x) /\ rep a' N ({[x]} ∪ A) /\ (x ∉ A) /\ is_page a N x /\
    phys_bookkeeping a' = phys_bookkeeping a.
Proof.
  intros [Hb [He He2] (w & Hw & Hwm & Hst & HA & Hcnt) Hh Hr Hnd Hdj] H0 Hlt.
  unfold alloc_page. rewrite H0. simpl. unfold page_no, PAGE in *.
  rewrite passert_true by lia. simpl. eexists _, (watermark a). split; [reflexivity|].
  assert (watermark a ∉ A) as Hni.
  { intros Hin. destruct (HA _ Hin) as (k & Hk & Ek). unfold page_no, PAGE in Ek. lia. }
  split; [|split; [assumption|split; [exists w; unfold page_no, PAGE; split; [lia|assumption]|reflexivity]]].
  assert (stack a = []) as Es by (unfold stack; rewrite H0; reflexivity).
  split; simpl; unfold stack; simpl; try lia; auto.
  - exists (w + 1). rewrite u32_small by lia. unfold page_no, PAGE. simpl.
    split; [lia|]. split; [lia|]. split; [intros x Hx; apply not_elem_of_nil in Hx; done|]. split.
    + intros x Hx. apply elem_of_union in Hx. destruct Hx as [Hx|Hx].
      * apply elem_of_singleton in Hx. subst x. exists w. unfold page_no, PAGE. simpl. lia.
      * destruct (HA x Hx) as (k & Hk & Ek). exists k. split; [lia|assumption].
    + rewrite size_union by set_solver. rewrite size_singleton. lia.
  - constructor.
  - intros x Hx. apply not_elem_of_nil in Hx. done.
Qed.

Lemma pa_alloc a N A : rep a N A -> Z.of_nat (base.size A) < N ->
  exists a' x, alloc_page a = Ret (a', x) /\ rep a' N ({[x]} ∪ A) /\ (x ∉ A) /\ is_page a N x /\
    phys_bookkeeping a' = phys_bookkeeping a.
Proof.
  intros Hr Hlt. destruct (decide (fs_head a = 0)).
  - apply pa_alloc_fresh; assumption.
  - apply pa_alloc_stack; assumption.
Qed.

Lemma pa_alloc_exhausted a N A : rep a N A -> N <= Z.of_nat (base.size A) -> alloc_page a = Panic.
Proof.
  intros [Hb [He He2] (w & Hw & Hwm & Hst & HA & Hcnt) Hh Hr Hnd Hdj] Hge.
  assert (fs_head a = 0) by lia. unfold alloc_page. rewrite H. simpl.
  rewrite passert_false; [reflexivity|]. unfold page_no, PAGE in *. lia.
Qed.

Lemma pa_size_difference (A : gset Z) x : x ∈ A -> Z.of_nat (base.size (A ∖ {[x]})) = Z.of_nat (base.size A) - 1.
Proof.
  intros Hx. rewrite size_difference by set_solver. rewrite size_singleton.
  assert (base.size A <> 0%nat) by (intros H0; apply size_empty_inv in H0; set_solver). lia.
Qed.

(** Returning the topmost page lowers the watermark ... *)
Lemma pa_free_top a N A x : rep a N A -> x ∈ A -> x = watermark a - 0x1000 ->
  exists a', free_page a x = Ret a' /\ rep a' N (A ∖ {[x]}) /\ phys_bookkeeping a' = phys_bookkeeping a.
Proof.
  intros [Hb [He He2] (w & Hw & Hwm & Hst & HA & Hcnt) Hh Hr Hnd Hdj] Hx Ex.
  pose proof (HA x Hx) as (k & Hk & Ek).
  assert (aligned x = true) as Hal by (rewrite Ek; apply pa_page_aligned; unfold page_no, PAGE in *; lia).
  unfold page_no, PAGE in *. unfold free_page. rewrite Hal. simpl.
  rewrite u32_small by lia. rewrite (proj2 (Z.eqb_eq _ _)) by assumption.
  rewrite passert_true by lia. simpl. eexists. split; [reflexivity|]. split; [|reflexivity].
  split; simpl; auto; unfold stack; simpl; auto.
  - exists (w - 1). unfold page_no, PAGE. simpl. split; [lia|]. split; [lia|]. split; [|split].
    + intros y Hy. destruct (Hst y Hy) as (j & Hj & Ej). exists j. unfold page_no, PAGE in *. simpl.
      split; [|assumption]. assert (j <> w - 1); [|lia]. intros ->. apply (Hdj y Hy).
      replace y with x by lia. assumption.
    + intros y Hy. apply elem_of_difference in Hy. destruct Hy as [Hy Hny].
      destruct (HA y Hy) as (j & Hj & Ej). exists j. unfold page_no, PAGE in *. simpl.
      split; [|assumption]. assert (j <> w - 1); [|lia]. intros ->. apply Hny.
      apply elem_of_singleton. lia.
    + rewrite pa_size_difference by assumption. lia.
  - intros y Hy. pose proof (Hdj y Hy). set_solver.
Qed.

(** ... any other page goes on the stack. *)
Lemma pa_free_push a N A x : rep a N A -> x ∈ A -> x <> watermark a - 0x1000 ->
  exists a', free_page a x = Ret a' /\ rep a' N (A ∖ {[x]}) /\ phys_bookkeeping a' = phys_bookkeeping a.
Proof.
  intros [Hb [He He2] (w & Hw & Hwm & Hst & HA & Hcnt) Hh Hr Hnd Hdj] Hx Ex.
  pose proof (HA x Hx) as (k & Hk & Ek).
  assert (aligned x = true) as Hal by (rewrite Ek; apply pa_page_aligned; unfold page_no, PAGE in *; lia).
  unfold free_page. rewrite Hal. simpl.
  rewrite (u32_small (_ - _)) by (unfold page_no, PAGE in *; lia).
  rewrite (proj2 (Z.eqb_neq _ _)) by assumption. rewrite !passert_true by lia. simpl.
  rewrite arr_set_Ret by lia. simpl. eexists. split; [reflexivity|]. split; [|reflexivity].
  assert (stack (mk (phys_region a) (phys_bookkeeping a) (watermark a)
                   (zset (fs a) (fs_head a) x) (fs_head a + 1)) = stack a ++ [x]) as Es.
  { unfold stack. simpl. replace (Z.to_nat (fs_head a + 1)) with (S (Z.to_nat (fs_head a))) by lia.
    unfold zset. rewrite (proj2 (Z.leb_le 0 _)) by lia.
    rewrite (take_S_r _ _ x); [|apply list_lookup_insert_eq; unfold zlen in *; lia].
    rewrite take_insert_ge by lia. reflexivity. }
  split; rewrite ?Es; simpl; rewrite ?zlen_zset; auto; try lia.
  - exists w. unfold page_no in *. simpl. split; [lia|]. split; [assumption|]. split; [|split].
    + intros y Hy. apply elem_of_app in Hy. destruct Hy as [Hy|Hy]; [exact (Hst y Hy)|].
      apply list_elem_of_singleton in Hy. subst y. exists k. split; [lia|assumption].
    + intros y Hy. apply HA. set_solver.
    + rewrite pa_size_difference by assumption. lia.
  - apply NoDup_app. split; [assumption|]. split; [|apply NoDup_singleton].
    intros y Hy Hin. apply list_elem_of_singleton in Hin. subst y. apply (Hdj x Hy Hx).
  - intros y Hy. apply elem_of_app in Hy. destruct Hy as [Hy|Hy].
    + pose proof (Hdj y Hy). set_solver.
    + apply list_elem_of_singleton in Hy. subst y. set_solver.
Qed.

Lemma pa_free a N A x : rep a N A -> x ∈ A ->
  exists a', free_page a x = Ret a' /\ rep a' N (A ∖ {[x]}) /\ phys_bookkeeping a' = phys_bookkeeping a.
Proof.
  intros Hr Hx. destruct (decide (x = watermark a - 0x1000)).
  - apply pa_free_top; assumption.
  - apply pa_free_push; assumption.
Qed.

(** ** The constructor *)

Lemma pa_bookkeeping_pages n : 0 <= n -> (n * 4 + 0xFFF) / 0x1000 = (n + 1023) / 1024.
Proof. intros. pose proof (Z.div_mod (n + 1023) 1024). pose proof (Z.div_mod (n*4 + 0xFFF) 0x1000).
  pose proof (Z.mod_pos_bound (n + 1023) 1024). pose proof (Z.mod_pos_bound (n*4 + 0xFFF) 0x1000). lia. Qed.

(** Number of pages of a region, with and without its bookkeeping *)
Definition region_pages (r : region) : Z := (end_ r - start r) / 0x1000.
Definition usable_pages (r : region) : Z := region_pages r - (region_pages r + 1023) / 1024.

Lemma pa_bookkeeping r : 0 <= start r <= end_ r -> end_ r < 2 ^ 32 ->
  free_list_size_pages r = (region_pages r + 1023) / 1024.
Proof.
  intros Hs He. unfold free_list_size_pages, needed_for_bookkeeping, region_pages.
  rewrite (u32_small (end_ r - start r)) by lia.
  pose proof (Z.div_pos (end_ r - start r) 0x1000). pose proof (Z.mul_div_le (end_ r - start r) 0x1000).
  rewrite !u32_small by (rewrite ?u32_small; lia). apply pa_bookkeeping_pages. lia.
Qed.

Lemma pa_init r mem : 0 <= start r < end_ r -> end_ r < 2 ^ 32 ->
  start r mod PAGE = 0 -> end_ r mod PAGE = 0 -> 0x1000 < end_ r - start r ->
  zlen mem = free_list_size_pages r * 1024 ->
  exists a, page_allocator r mem = Ret a /\ rep a (usable_pages r) ∅ /\
    end_ (phys_bookkeeping a) = start r + 0x1000 * (region_pages r - usable_pages r).
Proof.
  intros Hs He Has Hae Hmin Hmem. unfold PAGE in *.
  rewrite pa_bookkeeping in Hmem by lia. unfold page_allocator. rewrite pa_bookkeeping by lia. unfold usable_pages.
  assert (end_ r - start r = 0x1000 * region_pages r) as Hn.
  { unfold region_pages. apply Z.div_exact; [lia|]. rewrite Zminus_mod, Has, Hae. reflexivity. }
  set (n := region_pages r) in *. clearbody n. set (b := (n + 1023) / 1024) in *.
  assert (n + 1023 - 1024 < 1024 * b <= n + 1023) as Hb.
  { unfold b. pose proof (Z.div_mod (n + 1023) 1024). pose proof (Z.mod_pos_bound (n + 1023) 1024). lia. }
  clearbody b.
  assert ((start r + b * 0x1000) mod 0x1000 = 0) as Hb0
    by (rewrite Z_mod_plus_full; assumption).
  rewrite u32_small by lia. cbn [start end_].
  rewrite !pa_aligned by lia. unfold PAGE. rewrite Has, Hae, Hb0. rewrite !passert_true by lia.
  simpl. eexists. split; [reflexivity|]. split; [|simpl; lia].
  split; simpl; unfold stack, page_no, PAGE; simpl; rewrite ?Z.mul_0_r; auto; try lia.
  - exists 0. unfold page_no, PAGE. simpl.
    split; [lia|]. split; [lia|]. split; [intros x Hx; apply not_elem_of_nil in Hx; done|].
    split; [set_solver|reflexivity].
  - constructor.
  - intros x Hx. apply not_elem_of_nil in Hx. done.
Qed.

(** ** Sequences of allocations and frees *)

Inductive op := Alloc | Free (page : Z) | FreePages.
Inductive res := RPage (x : Z) | RUnit | RNat (n : Z).

Definition step (a : t) (o : op) : outcome (t * res) :=
  match o with
  | Alloc => '(a', x) ← alloc_page a; Ret (a', RPage x)
  | Free x => a' ← free_page a x; Ret (a', RUnit)
  | FreePages => Ret (a, RNat (free_pages a))
  end.

(** The contract: a set of [N] pages starting at [base], some of them held
    by clients.  Clients only return pages they hold. *)
Inductive spec_step (base N : Z) (A : gset Z) : op -> outcome (gset Z * res) -> Prop :=
| spec_alloc x k : Z.of_nat (base.size A) < N -> x ∉ A -> 0 <= k < N -> x = base + 0x1000 * k ->
    spec_step base N A Alloc (Ret ({[x]} ∪ A, RPage x))
| spec_exhausted : N <= Z.of_nat (base.size A) -> spec_step base N A Alloc Panic
| spec_free x : x ∈ A -> spec_step base N A (Free x) (Ret (A ∖ {[x]}, RUnit))
| spec_free_pages : spec_step base N A FreePages (Ret (A, RNat (N - Z.of_nat (base.size A)))).

Definition allowed (A : gset Z) (o : op) : Prop :=
  match o with Free x => x ∈ A | _ => True end.

(** Every operation a client may make is one of the contract's. *)
Definition implements (base N : Z) (a : t) (A : gset Z) : Prop :=
  forall o, allowed A o ->
  (step a o = Panic /\ spec_step base N A o Panic) \/
  (exists a' A' r, step a o = Ret (a', r) /\ spec_step base N A o (Ret (A', r)) /\ rep a' N A' /\
     end_ (phys_bookkeeping a') = base).

Lemma pa_implements a N A base : rep a N A -> end_ (phys_bookkeeping a) = base -> implements base N a A.
Proof.
  intros Hr Hbase o Ho. destruct o as [|x|]; simpl in *.
  - destruct (Z.lt_ge_cases (Z.of_nat (base.size A)) N) as [Hlt|Hge].
    + destruct (pa_alloc a N A Hr Hlt) as (a' & x & -> & Hr' & Hx & (k & Hk & Ek) & Hbk).
      right. eexists _, _, _. split; [reflexivity|]. split; [|rewrite Hbk; eauto].
      apply spec_alloc with (k := k); auto. unfold page_no, PAGE in Ek. lia.
    + rewrite (pa_alloc_exhausted a N A Hr Hge). left. split; [reflexivity|]. constructor. assumption.
  - destruct (pa_free a N A x Hr Ho) as (a' & -> & Hr' & Hbk). right.
    eexists _, _, _. split; [reflexivity|]. split; [constructor; assumption|]. rewrite Hbk. auto.
  - rewrite (pa_free_pages a N A Hr). right. eexists _, _, _.
    split; [reflexivity|]. split; [constructor|]. auto.
Qed.

(** What a client holds after an operation *)
Definition held (A : gset Z) (o : op) (r : res) : gset Z :=
  match o, r with
  | Alloc, RPage x => {[x]} ∪ A
  | Free x, _ => A ∖ {[x]}
  | _, _ => A
  end.

(** States reached by clients that only return pages they hold *)
Inductive reach (r : region) (mem : list Z) : t -> gset Z -> Prop :=
| reach_init a : page_allocator r mem = Ret a -> reach r mem a ∅
| reach_step a A o a' x : reach r mem a A -> allowed A o -> step a o = Ret (a', x) ->
    reach r mem a' (held A o x).

(** Regions the constructor accepts *)
Record region_ok (r : region) (mem : list Z) : Prop := {
  ok_order : 0 <= start r < end_ r;
  ok_width : end_ r < 2 ^ 32;
  ok_start : start r mod PAGE = 0;
  ok_end : end_ r mod PAGE = 0;
  ok_min : 0x1000 < end_ r - start r;
  ok_mem : zlen mem = free_list_size_pages r * 1024
}.

Lemma pa_reach r mem a A : region_ok r mem -> reach r mem a A ->
  rep a (usable_pages r) A /\
  end_ (phys_bookkeeping a) = start r + 0x1000 * (region_pages r - usable_pages r).
Proof.
  intros [] Hreach. induction Hreach as [a Ha|a A o a' x Hreach IH Hal Hs].
  - destruct (pa_init r mem) as (a2 & E & ?); try assumption. congruence.
  - destruct IH as [Hr Hb].
    destruct (pa_implements a _ A _ Hr eq_refl o Hal) as [[E _]|(a2 & A2 & y & E & Hsp & Hr2 & Hb2)];
      [congruence|].
    assert (a2 = a' /\ y = x) as [-> ->] by (split; congruence).
    assert (held A o x = A2) as -> by (inversion Hsp; reflexivity).
    split; [assumption|congruence].
Qed.
End page_allocator.

(** C6: whatever sequence of calls clients make, as long as they only free
    pages they hold, [alloc_page] hands out an aligned page of the region
    above the bookkeeping area that nobody holds, it panics only when every
    usable page is held, [free_page] never overruns the free stack, and
    [free_pages] is exactly the number of pages not held. *)
Theorem page_allocator_refines_set (r : page_allocator.region) (mem : list Z)
    (a : page_allocator.t) (A : gset Z) :
  page_allocator.region_ok r mem -> page_allocator.reach r mem a A ->
  page_allocator.implements
    (page_allocator.start r +
       0x1000 * (page_allocator.region_pages r - page_allocator.usable_pages r))
    (page_allocator.usable_pages r) a A.
Proof.
  intros Hok Hreach. destruct (page_allocator.pa_reach r mem a A Hok Hreach) as [Hr Hb].
  apply page_allocator.pa_implements; assumption.
Qed.

Lemma page_allocator_refines_set_witness :
  exists a, page_allocator.alloc_page a = Ret (page_allocator.mk (page_allocator.mk_region 0x100000 0x104000)
      (page_allocator.mk_region 0x100000 0x101000) 0x103000 (0x101000 :: replicate 1023 7) 0, 0x101000) /\
    page_allocator.implements 0x101000 3 a {[0x102000]}.
Proof.
  eexists. split; [|replace 0x101000 with (0x100000 + 0x1000 * (4 - 3)) by reflexivity;
    apply (page_allocator_refines_set (page_allocator.mk_region 0x100000 0x104000) (replicate 1024 7))].
  2:{ split; vm_compute; repeat split; congruence. }
  2:{ replace ({[0x102000]} : gset Z) with
        (page_allocator.held ({[0x102000]} ∪ ({[0x101000]} ∪ ∅)) (page_allocator.Free 0x101000) page_allocator.RUnit)
        by (vm_compute; reflexivity).
      eapply page_allocator.reach_step;
        [eapply (page_allocator.reach_step _ _ _ _ page_allocator.Alloc _ (page_allocator.RPage 0x102000));
         [eapply (page_allocator.reach_step _ _ _ _ page_allocator.Alloc _ (page_allocator.RPage 0x101000));
          [apply page_allocator.reach_init; vm_compute; reflexivity|exact I|vm_compute; reflexivity]
         |exact I|vm_compute; reflexivity]
        |simpl; set_solver|vm_compute; reflexivity]. }
  vm_compute. reflexivity.
Defined.
