(* ===== verification/FlipBuffer.v ===== *)
(** * p2::flip_buffer (libraries/support/flip_buffer.h)

    Two buffers used in turn; allocations are 64 bit handles that carry the
    buffer, its generation and an offset, and go stale when their buffer is
    reused.  The bytes themselves belong to the clients; the model keeps the
    allocation state and [data] returns the place a handle leads to. *)

From S2P Require Import Prelude.

Module flip_buffer.

Record buffer := mk_buffer { size : Z; generation : Z }.

Record t := mk {
  buffer0 : buffer;
  buffer1 : buffer;
  cur_buf : bool     (* _cur_buf == &_buffers[1] *)
}.

Definition ptr_buffer (ptr : Z) : Z := u8 (Z.shiftr ptr 62).
Definition ptr_generation (ptr : Z) : Z := u16 (Z.shiftr (Z.land ptr 0x0000FFFF00000000) 32).
Definition ptr_offset (ptr : Z) : Z := u32 (Z.land ptr 0x00000000FFFFFFFF).

Definition create_ptr (buffer gen offset : Z) : Z :=
  Z.lor (Z.lor (u64 (Z.shiftl (u8 buffer) 62)) (u64 (Z.shiftl (u16 gen) 32))) (u32 offset).

Definition reset (b : buffer) : buffer := mk_buffer 0 (u16 (generation b + 1)).

Definition init : t := mk (mk_buffer 0 1000) (mk_buffer 0 60000) false.

Definition get (f : t) (b : bool) : buffer := if b then buffer1 f else buffer0 f.
Definition set (f : t) (b : bool) (x : buffer) : t :=
  if b then mk (buffer0 f) x (cur_buf f) else mk x (buffer1 f) (cur_buf f).

Definition flip (f : t) : t := mk (buffer0 f) (buffer1 f) (negb (cur_buf f)).

Section ops.
Variable MaxLen : Z.

Definition alloc (f : t) (length : Z) : t * Z :=
  if length >? MaxLen then (f, 0)
  else
    let f1 :=
      if length >? u32 (MaxLen - size (get f (cur_buf f))) then
        let f' := flip f in set f' (cur_buf f') (reset (get f' (cur_buf f')))
      else f in
    let b := get f1 (cur_buf f1) in
    (set f1 (cur_buf f1) (mk_buffer (u32 (size b + length)) (generation b)),
     create_ptr (if cur_buf f1 then 2 else 1) (generation b) (size b)).

(** The buffer and the offset the pointer leads to; [None] is null *)
Definition data (f : t) (h : Z) : option (bool * Z) :=
  let look b :=
    if negb (ptr_generation h =? generation (get f b)) then None
    else if ptr_offset h >=? size (get f b) then None
    else Some (b, ptr_offset h) in
  if ptr_buffer h =? 1 then look false
  else if ptr_buffer h =? 2 then look true
  else None.

Fixpoint run (f : t) (lens : list Z) : t * list (Z * Z) :=
  match lens with
  | [] => (f, [])
  | n :: rest =>
      let '(f1, h) := alloc f n in
      let '(f2, hs) := run f1 rest in (f2, (h, n) :: hs)
  end.

(** ** Handles decode to what they were created from *)

Lemma flip_shiftl_small x n : 0 <= x -> 0 <= n -> x * 2 ^ n < 2 ^ 64 -> u64 (Z.shiftl x n) = Z.shiftl x n.
Proof.
  intros. unfold u64. rewrite Z.shiftl_mul_pow2 by lia.
  apply Z.mod_small. pose proof (Z.pow_pos_nonneg 2 n). nia.
Qed.

Lemma flip_create b g o : b = 1 \/ b = 2 -> 0 <= g < 2 ^ 16 -> 0 <= o < 2 ^ 32 ->
  create_ptr b g o = Z.lor (Z.lor (Z.shiftl b 62) (Z.shiftl g 32)) o.
Proof.
  intros Hb Hg Ho. unfold create_ptr, u8. rewrite u16_small, u32_small by assumption.
  rewrite Z.mod_small by lia. rewrite !flip_shiftl_small by lia. reflexivity.
Qed.

Lemma flip_decode b g o : b = 1 \/ b = 2 -> 0 <= g < 2 ^ 16 -> 0 <= o < 2 ^ 32 ->
  ptr_buffer (create_ptr b g o) = b /\ ptr_generation (create_ptr b g o) = g /\
  ptr_offset (create_ptr b g o) = o.
Proof.
  intros Hb Hg Ho. rewrite flip_create by assumption.
  assert (forall x n, 0 <= x < 2 ^ n -> 0 <= n -> Z.shiftr x n = 0) as Hsmall.
  { intros x n Hx Hn. rewrite Z.shiftr_div_pow2 by lia. apply Z.div_small. assumption. }
  split; [|split].
  - unfold ptr_buffer. rewrite !Z.shiftr_lor, Z.shiftr_shiftl_l by lia.
    rewrite Z.shiftr_shiftl_r by lia. change (62 - 62) with 0. change (62 - 32) with 30.
    rewrite (Hsmall g 30), (Hsmall o 62) by lia. rewrite !Z.lor_0_r, Z.shiftl_0_r.
    unfold u8. apply Z.mod_small. lia.
  - unfold ptr_generation. rewrite Z.shiftr_land.
    change (Z.shiftr 0x0000FFFF00000000 32) with (Z.ones 16).
    rewrite !Z.shiftr_lor, !Z.shiftr_shiftl_l by lia. change (62 - 32) with 30. change (32 - 32) with 0.
    rewrite (Hsmall o 32) by lia. rewrite Z.lor_0_r, Z.shiftl_0_r, Z.land_lor_distr_l.
    rewrite !Z.land_ones by lia. rewrite (Z.mod_small g) by lia.
    replace (Z.shiftl b 30 mod 2 ^ 16) with 0 by (destruct Hb; subst; reflexivity).
    simpl. apply u16_small. assumption.
  - unfold ptr_offset. change 0x00000000FFFFFFFF with (Z.ones 32).
    rewrite Z.land_ones, <-Z.land_ones by lia. rewrite !Z.land_lor_distr_l.
    rewrite !Z.land_ones by lia. rewrite (Z.mod_small o) by lia.
    replace (Z.shiftl b 62 mod 2 ^ 32) with 0 by (destruct Hb; subst; reflexivity).
    rewrite Z.shiftl_mul_pow2, Z_mod_mult by lia. simpl. apply u32_small. assumption.
Qed.

(** ** Invariant *)

Hypothesis HMaxLen : 0 <= MaxLen < 2 ^ 32.

Definition buffer_ok (b : buffer) : Prop := 0 <= size b <= MaxLen /\ 0 <= generation b < 2 ^ 16.
Definition wf (f : t) : Prop := buffer_ok (buffer0 f) /\ buffer_ok (buffer1 f).

Lemma flip_wf_get f b : wf f -> buffer_ok (get f b).
Proof. intros [? ?]. destruct b; assumption. Qed.

Lemma flip_get_set f b c x : get (set f b x) c = if Bool.eqb b c then x else get f c.
Proof. destruct b, c; reflexivity. Qed.

Lemma flip_cur_set f b x : cur_buf (set f b x) = cur_buf f.
Proof. destruct b; reflexivity. Qed.

Lemma flip_wf_set f b x : wf f -> buffer_ok x -> wf (set f b x).
Proof. intros [? ?] ?. destruct b; split; assumption. Qed.

Lemma flip_wf_init : wf init.
Proof. unfold wf, buffer_ok; simpl; lia. Qed.

Definition tag (b : bool) : Z := if b then 2 else 1.

(** What one successful allocation does: it extends the current buffer, or
    resets the other one and starts there. *)
Lemma flip_alloc f n : wf f -> 0 <= n <= MaxLen ->
  exists c f', alloc f n = (f', create_ptr (tag c) (generation (get f' c)) (size (get f' c) - n)) /\
    wf f' /\ cur_buf f' = c /\
    (forall b, b <> c -> get f' b = get f b) /\
    ((c = cur_buf f /\ get f' c = mk_buffer (size (get f c) + n) (generation (get f c))) \/
     (c = negb (cur_buf f) /\ get f' c = mk_buffer n (u16 (generation (get f c) + 1)) /\
      MaxLen < size (get f (cur_buf f)) + n)).
Proof.
  intros Hwf Hn. unfold alloc. rewrite Z.gtb_ltb, (proj2 (Z.ltb_ge MaxLen n)) by lia.
  destruct (flip_wf_get f (cur_buf f) Hwf) as [Hs Hg].
  rewrite Z.gtb_ltb, (u32_small (MaxLen - _)) by lia.
  destruct (Z.ltb_spec (MaxLen - size (get f (cur_buf f))) n) as [Hover|Hfits].
  - set (c := negb (cur_buf f)).
    exists c, (set (set (flip f) c (reset (get f c))) c (mk_buffer n (u16 (generation (get f c) + 1)))).
    rewrite !flip_get_set, !flip_cur_set, Bool.eqb_reflx. cbn [size generation].
    split; [|split; [|split; [|split]]].
    + cbv zeta. change (cur_buf (flip f)) with c. change (get (flip f) c) with (get f c).
      rewrite ?flip_cur_set, ?flip_get_set. change (cur_buf (flip f)) with c. rewrite ?Bool.eqb_reflx.
      cbn [size generation reset]. rewrite Z.sub_diag, u32_small by lia. reflexivity.
    + apply flip_wf_set; [apply flip_wf_set|].
      * destruct Hwf. split; assumption.
      * split; [simpl; lia|]. apply u16_range.
      * split; [simpl; lia|]. apply u16_range.
    + reflexivity.
    + intros b Hb. rewrite !flip_get_set.
      destruct (Bool.eqb c b) eqn:E; [apply Bool.eqb_prop in E; congruence|]. reflexivity.
    + right. rewrite ?Bool.eqb_reflx. split; [reflexivity|]. split; [reflexivity|lia].
  - set (c := cur_buf f) in *.
    exists c, (set f c (mk_buffer (size (get f c) + n) (generation (get f c)))).
    rewrite !flip_get_set, !flip_cur_set, Bool.eqb_reflx. cbn [size generation].
    split; [|split; [|split; [|split]]].
    + cbv zeta. rewrite u32_small by lia.
      replace (size (get f c) + n - n) with (size (get f c)) by lia. reflexivity.
    + apply flip_wf_set; [assumption|]. split; [simpl; lia|assumption].
    + reflexivity.
    + intros b Hb. rewrite !flip_get_set.
      destruct (Bool.eqb c b) eqn:E; [apply Bool.eqb_prop in E; congruence|]. reflexivity.
    + left. rewrite ?Bool.eqb_reflx. split; reflexivity.
Qed.

Lemma flip_alloc_refused f n : MaxLen < n -> alloc f n = (f, 0).
Proof. intros. unfold alloc. rewrite Z.gtb_ltb, (proj2 (Z.ltb_lt MaxLen n)) by lia. reflexivity. Qed.

Lemma flip_data f c o : wf f -> 0 <= o <= MaxLen ->
  forall g, 0 <= g < 2 ^ 16 ->
  data f (create_ptr (tag c) g o) =
  if (g =? generation (get f c)) && (o <? size (get f c)) then Some (c, o) else None.
Proof.
  intros Hwf Ho g Hg. unfold data.
  destruct (flip_decode (tag c) g o) as (-> & -> & ->); [destruct c; simpl; lia|lia|lia|].
  rewrite !Z.geb_leb, !Z.leb_antisym. destruct c; simpl;
    destruct (_ =? _); simpl; try reflexivity; destruct (_ <? _); reflexivity.
Qed.

(** ** Runs of allocations

    [r] counts how often buffer [b] was reset.  Without a reset everything
    allocated in [b] lies behind what was allocated before. *)
Lemma flip_run b lens : forall f f' hs, wf f -> Forall (fun n => 0 <= n) lens -> run f lens = (f', hs) ->
  wf f' /\ exists r, 0 <= r <= zlen lens /\
    generation (get f' b) = (generation (get f b) + r) mod 2 ^ 16 /\
    (r = 0 -> size (get f b) <= size (get f' b) /\
       forall h n, (h, n) ∈ hs -> ptr_buffer h = tag b -> size (get f b) <= ptr_offset h).
Proof.
  induction lens as [|n lens IH]; intros f f' hs Hwf Hpos Hrun; simpl in Hrun.
  - injection Hrun as <- <-. split; [assumption|]. exists 0. change (zlen []) with 0.
    destruct (flip_wf_get f b Hwf). rewrite Z.add_0_r, Z.mod_small by lia.
    split; [lia|]. split; [reflexivity|]. intros _. split; [lia|].
    intros h n Hin. apply not_elem_of_nil in Hin. done.
  - inversion Hpos as [|? ? Hn Hpos']. subst. rewrite zlen_cons.
    destruct (Z.lt_ge_cases MaxLen n) as [Hbig|Hsmall].
    { rewrite flip_alloc_refused in Hrun by assumption.
      destruct (run f lens) as [f2 hs2] eqn:E. injection Hrun as <- <-.
      destruct (IH f f2 hs2 Hwf Hpos' E) as (Hwf2 & r & Hr & Hg & H0).
      split; [assumption|]. exists r. split; [lia|]. split; [assumption|]. intros Hz.
      destruct (H0 Hz) as [Hsz Hall]. split; [assumption|]. intros h m Hin Hb.
      apply elem_of_cons in Hin. destruct Hin as [[= -> ->]|Hin]; [|eauto]. destruct b; discriminate Hb. }
    destruct (flip_alloc f n Hwf ltac:(lia)) as (c & f1 & E1 & Hwf1 & Hc & Hoth & Hcase).
    rewrite E1 in Hrun. destruct (run f1 lens) as [f2 hs2] eqn:E. injection Hrun as <- <-.
    destruct (IH f1 f2 hs2 Hwf1 Hpos' E) as (Hwf2 & r & Hr & Hg & H0).
    destruct (flip_wf_get f1 c Hwf1) as [Hs1 Hg1]. split; [assumption|].
    assert (ptr_buffer (create_ptr (tag c) (generation (get f1 c)) (size (get f1 c) - n)) = tag c /\
      ptr_offset (create_ptr (tag c) (generation (get f1 c)) (size (get f1 c) - n)) = size (get f1 c) - n)
      as [Hdb Hdo].
    { destruct (flip_decode (tag c) (generation (get f1 c)) (size (get f1 c) - n)) as (? & _ & ?); auto.
      - destruct c; simpl; lia.
      - destruct Hcase as [[_ Ec]|(_ & Ec & _)]; rewrite Ec in *; simpl in *; [|lia].
        destruct (flip_wf_get f c Hwf). lia. }
    destruct (Bool.bool_dec b c) as [<-|Hne].
    + destruct Hcase as [[_ Ec]|(_ & Ec & _)].
      * exists r. split; [lia|]. rewrite Ec in *. simpl in *. split; [assumption|].
        intros Hz. destruct (H0 Hz) as [Hsz Hall]. split; [lia|]. intros h m Hin Hb.
        apply elem_of_cons in Hin. destruct Hin as [[= -> ->]|Hin]; [lia|].
        specialize (Hall h m Hin Hb). lia.
      * exists (r + 1). split; [lia|]. split; [|lia]. rewrite Hg, Ec. simpl. unfold u16.
        rewrite Z.add_mod_idemp_l by lia. f_equal. lia.
    + rewrite (Hoth b Hne) in *. exists r. split; [lia|]. split; [assumption|].
      intros Hz. destruct (H0 Hz) as [Hsz Hall]. split; [assumption|]. intros h m Hin Hb.
      apply elem_of_cons in Hin. destruct Hin as [[= -> ->]|Hin]; [|eauto].
      exfalso. apply Hne. rewrite Hdb in Hb. destruct b, c; simpl in *; congruence.
Qed.

Fixpoint total (lens : list Z) : Z := match lens with [] => 0 | n :: l => n + total l end.

(** A buffer that is not the current one is reset only after the current
    one overflows; [slack] bytes fit before that happens. *)
Lemma flip_run_keeps b lens : forall f f' hs, wf f -> Forall (fun n => 0 <= n <= MaxLen) lens ->
  run f lens = (f', hs) ->
  cur_buf f = b \/ (cur_buf f = negb b /\ size (get f (negb b)) + total lens <= MaxLen) ->
  total lens <= MaxLen ->
  generation (get f' b) = generation (get f b) /\ size (get f b) <= size (get f' b).
Proof.
  induction lens as [|n lens IH]; intros f f' hs Hwf Hpos Hrun Hcur Htot; simpl in *.
  - injection Hrun as <- <-. split; [reflexivity|lia].
  - inversion Hpos as [|? ? Hn Hpos']. subst.
    assert (0 <= total lens).
    { clear - Hpos'. induction Hpos'; simpl; [lia|]. unfold total in *; lia. }
    destruct (flip_alloc f n Hwf ltac:(lia)) as (c & f1 & E1 & Hwf1 & Hc & Hoth & Hcase).
    rewrite E1 in Hrun. destruct (run f1 lens) as [f2 hs2] eqn:E. injection Hrun as <- <-.
    destruct (flip_wf_get f c Hwf) as [Hs0 _].
    destruct (Bool.bool_dec c b) as [->|Hne].
    + destruct Hcase as [[_ Ec]|(Ec & _ & Hover)].
      * destruct (IH f1 f2 hs2 Hwf1 Hpos' E) as [Hg Hsz]; [auto|lia|].
        rewrite Ec in *. simpl in *. split; [assumption|lia].
      * exfalso. destruct Hcur as [Hcur|[Hcur Hfit]].
        -- rewrite Hcur in Ec. destruct b; discriminate Ec.
        -- rewrite Hcur in Hover. lia.
    + assert (c = negb b) as -> by (destruct b, c; simpl; congruence).
      destruct (IH f1 f2 hs2 Hwf1 Hpos' E) as [Hg Hsz]; [|lia|].
      * right. split; [assumption|]. destruct Hcase as [[Ec1 Ec]|(Ec1 & Ec & _)]; rewrite Ec; simpl.
        -- destruct Hcur as [Hcur|[_ Hfit]]; [destruct b; congruence|lia].
        -- lia.
      * rewrite (Hoth b) in * by congruence. auto.
Qed.
End ops.

Definition reachable (MaxLen : Z) (f : t) : Prop :=
  exists lens hs, Forall (fun n => 0 <= n) lens /\ run MaxLen init lens = (f, hs).

Lemma flip_reachable_wf MaxLen f : 0 <= MaxLen < 2 ^ 32 -> reachable MaxLen f -> wf MaxLen f.
Proof.
  intros Hm (lens & hs & Hpos & Hrun). eapply (flip_run MaxLen Hm false); [|eassumption|eassumption].
  apply flip_wf_init. assumption.
Qed.
End flip_buffer.

(** C7: the handle of an allocation leads to a free range of the buffer right
    away; it stays usable as long as no more than [MaxLen] further bytes are
    allocated; and as long as [data] accepts it, none of the later allocations
    (up to 65535 of them, the range of the generation counter) has been given
    a byte of its range. *)
Theorem flip_buffer_handles_safe (MaxLen : Z) (f f1 f2 : flip_buffer.t) (n h : Z)
    (lens : list Z) (hs : list (Z * Z)) :
  0 <= MaxLen < 2 ^ 32 -> flip_buffer.reachable MaxLen f -> 0 < n <= MaxLen ->
  Forall (fun k => 0 <= k <= MaxLen) lens ->
  flip_buffer.alloc MaxLen f n = (f1, h) -> flip_buffer.run MaxLen f1 lens = (f2, hs) ->
  (exists b o, flip_buffer.data f1 h = Some (b, o) /\ 0 <= o /\ o + n <= MaxLen /\
    (flip_buffer.total lens <= MaxLen -> flip_buffer.data f2 h = Some (b, o)) /\
    (zlen lens < 65536 -> flip_buffer.data f2 h <> None ->
       forall h' n', (h', n') ∈ hs -> flip_buffer.ptr_buffer h' = flip_buffer.tag b ->
         o + n <= flip_buffer.ptr_offset h')).
Proof.
  intros Hm Hreach Hn Hlens Ha Hrun.
  pose proof (flip_buffer.flip_reachable_wf MaxLen f Hm Hreach) as Hwf.
  destruct (flip_buffer.flip_alloc MaxLen Hm f n Hwf ltac:(lia)) as (c & f' & E & Hwf1 & Hc & _ & Hcase).
  rewrite E in Ha. injection Ha as <- <-.
  pose proof (flip_buffer.flip_wf_get _ f' c Hwf1) as [Hs1 Hg1].
  pose proof (flip_buffer.flip_wf_get _ f c Hwf) as [Hs0 _].
  assert (n <= flip_buffer.size (flip_buffer.get f' c)) as Hns.
  { destruct Hcase as [[_ Ec]|(_ & Ec & _)]; rewrite Ec; simpl; lia. }
  assert (Forall (fun k => 0 <= k) lens) as Hpos by (eapply Forall_impl; [exact Hlens|]; simpl; lia).
  destruct (flip_buffer.flip_run MaxLen Hm c lens f' f2 hs Hwf1 Hpos Hrun) as (Hwf2 & r & Hr & Hg & H0).
  exists c, (flip_buffer.size (flip_buffer.get f' c) - n).
  rewrite !(flip_buffer.flip_data MaxLen) by (assumption || lia).
  rewrite Z.eqb_refl, (proj2 (Z.ltb_lt _ _)) by lia. split; [reflexivity|]. split; [lia|]. split; [lia|]. split.
  - intros Htot. destruct (flip_buffer.flip_run_keeps MaxLen Hm c lens f' f2 hs Hwf1 Hlens Hrun) as [-> Hsz];
      [auto|assumption|]. rewrite Z.eqb_refl, (proj2 (Z.ltb_lt _ _)) by lia. reflexivity.
  - intros Hlen Hlive h' n' Hin Hb.
    destruct (Z.eqb_spec (flip_buffer.generation (flip_buffer.get f' c))
                         (flip_buffer.generation (flip_buffer.get f2 c))) as [Eg|]; [|done].
    assert (r = 0) as Hr0.
    { rewrite <-Eg in Hg. destruct (Z.eq_dec r 0); [assumption|exfalso].
      revert Hg. rewrite <-(Z.mod_small (flip_buffer.generation _) (2 ^ 16)) at 1 by assumption.
      intros Hg. pose proof (Z.mod_pos_bound (flip_buffer.generation (flip_buffer.get f' c) + r) (2 ^ 16)).
      pose proof (Z.div_mod (flip_buffer.generation (flip_buffer.get f' c) + r) (2 ^ 16)).
      rewrite Z.mod_small in Hg by assumption. nia. }
    destruct (H0 Hr0) as [_ Hall]. specialize (Hall h' n' Hin Hb). lia.
Qed.

Lemma flip_buffer_handles_safe_witness :
  let '(f1, h) := flip_buffer.alloc 100 flip_buffer.init 60 in
  let '(f2, hs) := flip_buffer.run 100 f1 [30; 50; 40] in
  (exists b o, flip_buffer.data f1 h = Some (b, o) /\ 0 <= o /\ o + 60 <= 100 /\
    (flip_buffer.total [30; 50; 40] <= 100 -> flip_buffer.data f2 h = Some (b, o)) /\
    (zlen [30; 50; 40] < 65536 -> flip_buffer.data f2 h <> None ->
       forall h' n', (h', n') ∈ hs -> flip_buffer.ptr_buffer h' = flip_buffer.tag b ->
         o + 60 <= flip_buffer.ptr_offset h')).
Proof.
  destruct (flip_buffer.alloc 100 flip_buffer.init 60) as [f1 h] eqn:E1.
  destruct (flip_buffer.run 100 f1 [30; 50; 40]) as [f2 hs] eqn:E2.
  apply (flip_buffer_handles_safe 100 flip_buffer.init f1 f2 60 h [30; 50; 40] hs);
    [lia| |lia| |assumption|assumption].
  - exists [], []. split; [constructor|reflexivity].
  - repeat constructor; lia.
Defined.
