(* ===== verification/FragBuffer.v ===== *)
(** * p2::frag_buffer (libraries/support/frag_buffer.h)

    Reassembly of a byte string from fragments that arrive in any order, with
    overlaps and duplicates.  The state is the byte array and a pool of holes,
    half open intervals of positions not received yet; the last hole ends at
    INT_MAX.  [in_hole] is the set of positions the holes describe. *)

From S2P Require Import Prelude Pool.
From stdpp Require Import gmap list.
#[local] Open Scope Z_scope.

Module frag_buffer.

Record hole := mk_hole { start : Z; end_ : Z }.

Definition overlaps (h other : hole) : bool := (start other <? end_ h) && (end_ other >? start h).

Record t := mk {
  data : list Z;              (* uint8_t _data[_MaxLen] *)
  holes : fixed_pool hole
}.

Section ops.
Variable MaxLen : Z.

Definition reset (f : t) : outcome t :=
  '(hs, _) ← pool.emplace_anywhere U16_MAX (pool.clear U16_MAX (holes f)) (mk_hole 0 INT_MAX);
  Ret (mk (data f) hs).

(** The constructor, on uninitialised storage for the bytes *)
Definition frag_buffer (storage : list Z) : outcome t :=
  reset (mk storage (new_fixed_pool (MaxLen / 40))).

Definition emplace_if (b : bool) (hs : fixed_pool hole) (h : hole) : outcome (fixed_pool hole) :=
  if b then '(hs', _) ← pool.emplace_anywhere U16_MAX hs h; Ret hs' else Ret hs.

(** One hole that overlaps the addition is replaced by what is left of it. *)
Definition split_hole (addition : hole) (hs : fixed_pool hole) (i : Z) : outcome (fixed_pool hole * bool) :=
  existing ← pool.get U16_MAX hs i;
  if overlaps addition existing then
    d_left ← i32 (start addition - start existing);
    d_right ← i32 (end_ existing - end_ addition);
    let leftover_left := Z.max d_left 0 in
    let leftover_right := Z.max d_right 0 in
    hs1 ← pool.erase U16_MAX hs i;
    hs2 ← emplace_if (leftover_left >? 0) hs1
            (mk_hole (start existing) (start existing + leftover_left));
    hs3 ← emplace_if (leftover_right >? 0) hs2
            (mk_hole (end_ existing - leftover_right) (end_ existing));
    Ret (hs3, true)
  else Ret (hs, false).

(** [for (int i = 0; i < _holes.watermark(); ++i)]; the watermark may move
    while the loop runs, but never above the capacity. *)
Fixpoint insert_loop (fuel : nat) (addition : hole) (hs : fixed_pool hole) (i : Z) (removed : bool) :
    outcome (fixed_pool hole * bool) :=
  match fuel with
  | O => NoFuel
  | S fuel' =>
      if i <? pool.watermark hs then
        if negb (pool.valid U16_MAX hs i) then insert_loop fuel' addition hs (i + 1) removed
        else
          '(hs', r) ← split_hole addition hs i;
          insert_loop fuel' addition hs' (i + 1) (removed || r)
      else Ret (hs, removed)
  end.

Definition insert (f : t) (start_pos : Z) (bytes : list Z) (length : Z) : outcome t :=
  sum ← i32 (start_pos + length);
  let end_pos := Z.min sum MaxLen in
  let addition := mk_hole start_pos end_pos in
  '(hs, removed_holes) ← insert_loop (S (Z.to_nat (pool.capacity (holes f)))) addition (holes f) 0 false;
  d ← (if removed_holes : bool then arr_blit (data f) start_pos bytes length else Ret (data f));
  Ret (mk d hs).

Definition continuous_size (f : t) : outcome Z :=
  if negb (pool.size (holes f) =? 1) then Ret 0
  else
    match pool.entries U16_MAX (holes f) with
    | (_, h) :: _ => Ret (start h)
    | [] => Panic
    end.

(** ** Holes as a set of positions *)

Definition contains (h : hole) (x : Z) : Prop := start h <= x < end_ h.

Definition in_hole (m : gmap Z hole) (x : Z) : Prop := exists i h, m !! i = Some h /\ contains h x.

Definition hole_ok (h : hole) : Prop := 0 <= start h < end_ h /\ end_ h <= INT_MAX.

(** No two holes overlap or touch. *)
Definition disjoint_holes (m : gmap Z hole) : Prop :=
  forall i j h g, m !! i = Some h -> m !! j = Some g -> i <> j -> end_ h < start g \/ end_ g < start h.

Record holes_ok (m : gmap Z hole) : Prop := {
  ok_each : forall i h, m !! i = Some h -> hole_ok h;
  ok_disjoint : disjoint_holes m
}.

Definition no_overlap (a : hole) (m : gmap Z hole) : Prop := forall i h, m !! i = Some h -> overlaps a h = false.

(** Adding one hole that is apart from the others *)
Lemma fb_holes_insert m i h : holes_ok m -> hole_ok h -> m !! i = None ->
  (forall j g, m !! j = Some g -> end_ h < start g \/ end_ g < start h) -> holes_ok (<[i := h]> m).
Proof.
  intros [He Hd] Hh Hi Hdis. split.
  - intros j g Hj. apply lookup_insert_Some in Hj. destruct Hj as [[<- <-]|[_ Hj]]; eauto.
  - intros a b g1 g2 Ha Hb Hne. rewrite lookup_insert_Some in Ha, Hb.
    destruct Ha as [[<- <-]|[? Ha]], Hb as [[<- <-]|[? Hb]]; eauto; try congruence.
    destruct (Hdis a g1 Ha); auto.
Qed.

Lemma fb_holes_delete m i : holes_ok m -> holes_ok (delete i m).
Proof.
  intros [He Hd]. split.
  - intros j g Hj. apply lookup_delete_Some in Hj. destruct Hj. eauto.
  - intros a b g1 g2 Ha Hb. rewrite lookup_delete_Some in Ha, Hb. destruct Ha, Hb. eauto.
Qed.

Lemma fb_in_hole_insert m i h x : m !! i = None -> in_hole (<[i := h]> m) x <-> contains h x \/ in_hole m x.
Proof.
  intros Hi. split.
  - intros (j & g & Hj & Hx). apply lookup_insert_Some in Hj.
    destruct Hj as [[<- <-]|[_ Hj]]; [auto|]. right. exists j, g. auto.
  - intros [Hx|(j & g & Hj & Hx)].
    + exists i, h. rewrite lookup_insert_eq. auto.
    + exists j, g. rewrite lookup_insert_ne by congruence. auto.
Qed.

(** [emplace_if] of a hole disjoint from the others, on a pool with room *)
Lemma fb_emplace_if (b : bool) hs m h : fp_model hs m -> holes_ok m ->
  (b = true -> hole_ok h /\ Z.of_nat (base.size m) < pool.capacity hs /\
     forall j g, m !! j = Some g -> end_ h < start g \/ end_ g < start h) ->
  exists hs' m', emplace_if b hs h = Ret hs' /\ fp_model hs' m' /\ holes_ok m' /\
    pool.capacity hs' = pool.capacity hs /\
    Z.of_nat (base.size m') = Z.of_nat (base.size m) + Z.b2z b /\
    (forall x, in_hole m' x <-> (b = true /\ contains h x) \/ in_hole m x) /\
    (forall j g, m' !! j = Some g -> m !! j = Some g \/ (b = true /\ g = h)).
Proof.
  intros [fl Hr] Hok Hb. destruct b; simpl.
  - destruct (Hb eq_refl) as (Hh & Hroom & Hdis).
    destruct (pool.pool_emplace_anywhere U16_MAX hs fl m h Hr Hroom)
      as (hs' & fl' & i & -> & Hr' & Hi & _ & Hc). simpl.
    eexists _, _. split; [reflexivity|]. split; [exists fl'; eassumption|].
    split; [apply fb_holes_insert; assumption|]. split; [assumption|].
    split; [rewrite map_size_insert_None by assumption; lia|]. split.
    + intros x. rewrite fb_in_hole_insert by assumption. tauto.
    + intros j g Hj. apply lookup_insert_Some in Hj. destruct Hj as [[<- <-]|[_ Hj]]; auto.
  - exists hs, m. split; [reflexivity|]. split; [exists fl; assumption|]. split; [assumption|].
    split; [reflexivity|]. split; [lia|]. split; [|auto]. intros x. intuition discriminate.
Qed.

Definition left_over (a e : hole) : bool := start a - start e >? 0.
Definition right_over (a e : hole) : bool := end_ e - end_ a >? 0.

Lemma fb_max_pos x : (Z.max x 0 >? 0) = (x >? 0).
Proof. lia. Qed.

Lemma fb_b2z b : 0 <= Z.b2z b <= 1.
Proof. destruct b; simpl; lia. Qed.

(** Replacing one overlapping hole [e] by what the addition [a] leaves of it *)
Lemma fb_split hs m a i e : fp_model hs m -> holes_ok m -> m !! i = Some e ->
  0 <= start a < end_ a -> end_ a <= INT_MAX -> overlaps a e = true ->
  Z.of_nat (base.size m) - 1 + Z.b2z (left_over a e) + Z.b2z (right_over a e) <= pool.capacity hs ->
  exists hs' m', split_hole a hs i = Ret (hs', true) /\ fp_model hs' m' /\ holes_ok m' /\
    pool.capacity hs' = pool.capacity hs /\
    Z.of_nat (base.size m') = Z.of_nat (base.size m) - 1 + Z.b2z (left_over a e) + Z.b2z (right_over a e) /\
    (forall x, ~ contains a x -> in_hole m' x <-> in_hole m x) /\
    (forall j h, m' !! j = Some h -> overlaps a h = true -> m !! j = Some h /\ j <> i).
Proof.
  intros [fl Hr] Hok Hi Ha Hmax Hov Hroom. pose proof Hok as [Heach Hdisj].
  pose proof (Heach i e Hi) as [He1 He2]. unfold split_hole, left_over, right_over in *.
  rewrite (pool.pool_get _ hs fl m i e Hr Hi). simpl. rewrite Hov. unfold overlaps in *. unfold INT_MAX in *.
  i32_step. i32_step. rewrite !fb_max_pos.
  pose proof (fb_b2z (start a - start e >? 0)). pose proof (fb_b2z (end_ e - end_ a >? 0)).
  destruct (pool.pool_erase _ hs fl m i e Hr Hi) as (hs1 & fl1 & -> & Hr1 & Hc1). simpl.
  assert (Z.of_nat (base.size (delete i m)) = Z.of_nat (base.size m) - 1) as Hsz.
  { rewrite map_size_delete_Some by eauto.
    assert (base.size m <> 0%nat) by (intros Hz; apply map_size_empty_iff in Hz; subst; done). lia. }
  assert (forall j g, delete i m !! j = Some g -> end_ e < start g \/ end_ g < start e) as Hde.
  { intros j g Hj. apply lookup_delete_Some in Hj. destruct Hj as [Hne Hj]. apply (Hdisj i j); auto. }
  destruct (fb_emplace_if (start a - start e >? 0) hs1 (delete i m)
              (mk_hole (start e) (start e + Z.max (start a - start e) 0)))
    as (hs2 & m2 & -> & Hm2 & Hok2 & Hc2 & Hsz2 & Hin2 & Hfrom2).
  { exists fl1. assumption. }
  { apply fb_holes_delete. assumption. }
  { intros Hb. split; [unfold hole_ok, INT_MAX; simpl; lia|]. rewrite Hb in Hroom. simpl in Hroom.
    split; [lia|].
    intros j g Hj. specialize (Hde j g Hj). simpl. lia. }
  simpl. destruct (fb_emplace_if (end_ e - end_ a >? 0) hs2 m2
              (mk_hole (end_ e - Z.max (end_ e - end_ a) 0) (end_ e)))
    as (hs3 & m3 & -> & Hm3 & Hok3 & Hc3 & Hsz3 & Hin3 & Hfrom3); [assumption|assumption| |].
  { intros Hb. split; [unfold hole_ok, INT_MAX; simpl; lia|]. rewrite Hb in Hroom. simpl in Hroom.
    split; [lia|].
    intros j g Hj. destruct (Hfrom2 j g Hj) as [Hj'|[? ->]]; simpl; [|lia].
    specialize (Hde j g Hj'). lia. }
  simpl. exists hs3, m3. split; [reflexivity|]. split; [assumption|]. split; [assumption|].
  split; [congruence|]. split; [lia|]. split.
  - intros x Hx. rewrite Hin3, Hin2. unfold contains in *. simpl. split.
    + intros [[? ?]|[[? ?]|(j & g & Hj & Hg)]]; [exists i, e; split; [assumption|unfold contains; lia]..|].
      apply lookup_delete_Some in Hj. destruct Hj as [? Hj]. exists j, g. auto.
    + intros (j & g & Hj & Hg). destruct (decide (j = i)) as [->|Hne].
      * assert (g = e) as -> by congruence. unfold contains in Hg. lia.
      * right. right. exists j, g. rewrite lookup_delete_ne by congruence. auto.
  - intros j h Hj Hoh. destruct (Hfrom3 j h Hj) as [Hj2|[? ->]]; [|simpl in Hoh; lia].
    destruct (Hfrom2 j h Hj2) as [Hj1|[? ->]]; [|simpl in Hoh; lia].
    apply lookup_delete_Some in Hj1. destruct Hj1. auto.
Qed.

(** When both sides are left over, no other hole overlaps the addition. *)
Lemma fb_split_only m a i e j h : holes_ok m -> m !! i = Some e -> m !! j = Some h -> i <> j ->
  left_over a e = true -> right_over a e = true -> overlaps a h = false.
Proof.
  intros [He Hd] Hi Hj Hne Hl Hr. specialize (Hd i j e h Hi Hj Hne).
  pose proof (He i e Hi) as []. pose proof (He j h Hj) as [].
  unfold left_over, right_over, overlaps in *. lia.
Qed.

(** ** The loop of [insert]

    [budget]: there is room for one more hole, unless that room has been used
    by a split, after which nothing overlaps any more. *)
Definition budget (a : hole) (n0 : Z) (m : gmap Z hole) : Prop :=
  Z.of_nat (base.size m) <= n0 \/ (Z.of_nat (base.size m) <= n0 + 1 /\ no_overlap a m).

Lemma fb_insert_loop a n0 fuel : 0 <= start a < end_ a -> end_ a <= INT_MAX ->
  forall hs m i removed, fp_model hs m -> holes_ok m -> budget a n0 m ->
  n0 < pool.capacity hs -> 0 <= i ->
  (forall j h, m !! j = Some h -> overlaps a h = true -> i <= j) ->
  (Z.to_nat (pool.capacity hs - i) < fuel)%nat ->
  exists hs' m' r, insert_loop fuel a hs i removed = Ret (hs', r) /\ fp_model hs' m' /\ holes_ok m' /\
    pool.capacity hs' = pool.capacity hs /\
    Z.of_nat (base.size m') <= n0 + 1 /\
    (forall x, in_hole m' x <-> in_hole m x /\ ~ contains a x) /\
    (r = false -> removed = false /\ no_overlap a m).
Proof.
  intros Ha Hmax. induction fuel as [|fuel IH]; intros hs m i removed Hm Hok Hbud Hn0 Hi Hdone Hfuel; [lia|].
  cbn [insert_loop]. pose proof Hm as [fl Hr].
  pose proof (pool.rep_wm _ _ _ _ Hr) as Hwm. fold (pool.capacity hs) in Hwm.
  destruct (Z.ltb_spec i (pool.watermark hs)) as [Hlt|Hge].
  2:{ assert (no_overlap a m) as Hno.
      { intros j h Hj. destruct (overlaps a h) eqn:E; [|reflexivity].
        pose proof (Hdone j h Hj E). pose proof (pool.rep_dom _ _ _ _ Hr j (ex_intro _ h Hj)). lia. }
      exists hs, m, removed. split; [reflexivity|]. split; [assumption|]. split; [assumption|].
      split; [reflexivity|]. split; [destruct Hbud as [|[]]; lia|]. split; [|auto].
      intros x. split; [|tauto]. intros (j & h & Hj & Hx). split; [exists j, h; auto|].
      specialize (Hno j h Hj). unfold overlaps, contains in *. lia. }
  destruct (m !! i) as [e|] eqn:Em.
  2:{ rewrite (pool.pool_valid_false _ hs fl m i Hr Em). simpl.
      apply IH; auto; try lia. intros j h Hj Ho. pose proof (Hdone j h Hj Ho).
      assert (j <> i) by congruence. lia. }
  rewrite (pool.pool_valid_true _ hs fl m i e Hr Em). simpl.
  destruct (overlaps a e) eqn:Eo.
  2:{ unfold split_hole. rewrite (pool.pool_get _ hs fl m i e Hr Em). simpl. rewrite Eo. simpl.
      rewrite orb_false_r. apply IH; auto; try lia. intros j h Hj Ho. pose proof (Hdone j h Hj Ho).
      assert (j <> i) by congruence. lia. }
  assert (Z.of_nat (base.size m) <= n0) as Hsz.
  { destruct Hbud as [|[_ Hno]]; [assumption|]. rewrite (Hno i e Em) in Eo. discriminate. }
  destruct (fb_split hs m a i e Hm Hok Em Ha Hmax Eo) as (hs1 & m1 & -> & Hm1 & Hok1 & Hc1 & Hsz1 & Hin1 & Hfrom1).
  { destruct (left_over a e), (right_over a e); simpl; lia. }
  simpl. rewrite orb_true_r.
  destruct (IH hs1 m1 (i + 1) true Hm1 Hok1) as (hs2 & m2 & r & E2 & Hm2 & Hok2 & Hc2 & Hsz2 & Hin2 & Hr2).
  - destruct (left_over a e) eqn:El, (right_over a e) eqn:Er; simpl in Hsz1; unfold budget; try (left; lia).
    right. split; [lia|]. intros j h Hj. destruct (overlaps a h) eqn:E; [|reflexivity].
    destruct (Hfrom1 j h Hj E) as [Hj' Hne].
    rewrite (fb_split_only m a i e j h Hok Em Hj') in E by congruence. discriminate.
  - lia.
  - lia.
  - intros j h Hj Ho. destruct (Hfrom1 j h Hj Ho) as [Hj' Hne]. pose proof (Hdone j h Hj' Ho). lia.
  - rewrite Hc1. lia.
  - exists hs2, m2, r. split; [assumption|]. split; [assumption|]. split; [assumption|].
    split; [congruence|]. split; [lia|]. split.
    + intros x. rewrite Hin2. split; intros [Hx Hnx]; split; auto; apply (Hin1 x Hnx); assumption.
    + intros Hrf. destruct (Hr2 Hrf). discriminate.
Qed.

(** ** Whole insertions *)

Hypothesis HMin : 40 <= MaxLen < INT_MAX.

Record inv (f : t) (m : gmap Z hole) : Prop := {
  inv_model : fp_model (holes f) m;
  inv_holes : holes_ok m;
  inv_len : zlen (data f) = MaxLen;
  inv_cap : pool.capacity (holes f) = MaxLen / 40
}.

Lemma fb_insert f m s bytes : inv f m -> 0 <= s -> 0 < zlen bytes -> s + zlen bytes <= MaxLen ->
  Z.of_nat (base.size m) < MaxLen / 40 ->
  exists f' m', insert f s bytes (zlen bytes) = Ret f' /\ inv f' m' /\
    Z.of_nat (base.size m') <= Z.of_nat (base.size m) + 1 /\
    (forall x, in_hole m' x <-> in_hole m x /\ ~ (s <= x < s + zlen bytes)) /\
    (data f' = blit (data f) (Z.to_nat s) bytes \/
     (data f' = data f /\ forall x, s <= x < s + zlen bytes -> ~ in_hole m x)).
Proof.
  intros [Hm Hok Hlen Hcap] Hs Hb Hend Hroom. unfold insert, INT_MAX in *.
  rewrite (i32_Ret (s + zlen bytes)) by (unfold INT_MAX, INT_MIN; lia). rewrite mbind_Ret. cbv zeta.
  rewrite Z.min_l by lia.
  destruct (fb_insert_loop (mk_hole s (s + zlen bytes)) (Z.of_nat (base.size m))
              (S (Z.to_nat (pool.capacity (holes f)))) ltac:(simpl; lia) ltac:(simpl; unfold INT_MAX; lia)
              (holes f) m 0 false Hm Hok)
    as (hs & m' & r & -> & Hm' & Hok' & Hc' & Hsz' & Hin' & Hr'); [left; lia|lia|lia| |lia|].
  { intros j h Hj _. destruct Hm as [fl Hr]. destruct (pool.rep_dom _ _ _ _ Hr j (ex_intro _ h Hj)). assumption. }
  simpl. unfold contains in Hin'. simpl in Hin'. destruct r.
  - rewrite arr_blit_Ret by lia. unfold zlen at 1. rewrite Nat2Z.id, firstn_all. simpl.
    eexists _, m'. split; [reflexivity|]. split; [|auto].
    split; simpl; auto; [|congruence]. unfold zlen in *. rewrite length_blit by lia. assumption.
  - destruct (Hr' eq_refl) as [_ Hno]. simpl. eexists _, m'. split; [reflexivity|]. split; [|split; [assumption|split; [assumption|]]].
    + split; simpl; auto. congruence.
    + right. split; [reflexivity|]. intros x Hx (j & h & Hj & Hc). specialize (Hno j h Hj).
      unfold overlaps, contains in *. simpl in *. lia.
Qed.

Lemma fb_init storage : zlen storage = MaxLen -> MaxLen / 40 <= U16_MAX ->
  exists f m, frag_buffer storage = Ret f /\ inv f m /\ data f = storage /\
    Z.of_nat (base.size m) = 1 /\ (forall x, in_hole m x <-> 0 <= x < INT_MAX).
Proof.
  intros Hlen Hcap. unfold frag_buffer, reset. simpl.
  assert (1 <= MaxLen / 40) by (apply Z.div_le_lower_bound; lia).
  destruct (fp_new (T := hole) (MaxLen / 40) Hcap) as [fl Hr].
  pose proof (fp_new_capacity (T := hole) (MaxLen / 40) ltac:(lia)) as Hc. simpl in Hc.
  apply pool.pool_rep_clear in Hr.
  destruct (pool.pool_emplace_anywhere _ _ _ _ (mk_hole 0 INT_MAX) Hr) as (hs & fl' & i & -> & Hr' & _ & _ & Hc').
  { rewrite map_size_empty. unfold pool.capacity, pool.clear in *. simpl in *. lia. }
  simpl. eexists _, _. split; [reflexivity|]. split; [|split; [reflexivity|split]].
  - split; simpl; auto.
    + exists fl'. eassumption.
    + apply fb_holes_insert.
      * split; [intros j g|intros j k g1 g2]; rewrite lookup_empty; discriminate.
      * unfold hole_ok, INT_MAX. simpl. lia.
      * apply lookup_empty.
      * intros j g. rewrite lookup_empty. discriminate.
    + unfold pool.capacity, pool.clear in *. simpl in *. lia.
  - rewrite map_size_insert_None by apply lookup_empty. rewrite map_size_empty. reflexivity.
  - intros x. rewrite fb_in_hole_insert by apply lookup_empty. unfold contains, in_hole. simpl.
    split; [intros [?|(j & h & Hj & _)]; [assumption|rewrite lookup_empty in Hj; discriminate]|auto].
Qed.

(** ** Reassembling a message *)

Definition fragment : Type := Z * list Z.

Definition fragment_of (M : list Z) (fr : fragment) : Prop :=
  0 <= fr.1 /\ 0 < zlen fr.2 /\ fr.1 + zlen fr.2 <= zlen M /\
  forall k, 0 <= k < zlen fr.2 -> znth fr.2 k = znth M (fr.1 + k).

Definition covered (frs : list fragment) (x : Z) : Prop :=
  exists fr, fr ∈ frs /\ fr.1 <= x < fr.1 + zlen fr.2.

Fixpoint insert_all (f : t) (frs : list fragment) : outcome t :=
  match frs with
  | [] => Ret f
  | (s, bytes) :: rest => f' ← insert f s bytes (zlen bytes); insert_all f' rest
  end.

Definition agrees (M : list Z) (f : t) (m : gmap Z hole) : Prop :=
  forall x, 0 <= x < MaxLen -> ~ in_hole m x -> znth (data f) x = znth M x.

Lemma fb_agrees_blit M f m m' s bytes d hs : inv f m -> agrees M f m -> fragment_of M (s, bytes) ->
  zlen M <= MaxLen -> (forall x, in_hole m' x <-> in_hole m x /\ ~ (s <= x < s + zlen bytes)) ->
  d = blit (data f) (Z.to_nat s) bytes -> agrees M (mk d hs) m'.
Proof.
  intros [_ _ Hlen _] Hag (Hs & Hb & Hend & Hk) HM Hin -> x Hx Hnh. simpl in *.
  unfold znth. rewrite (proj2 (Z.leb_le 0 x)) by lia. unfold zlen in *.
  rewrite lookup_blit by lia. case_decide as Hc.
  - specialize (Hk (x - s) ltac:(lia)). unfold znth in Hk.
    rewrite (proj2 (Z.leb_le 0 (x - s))), (proj2 (Z.leb_le 0 (s + (x - s)))) in Hk by lia.
    replace (Z.to_nat x - Z.to_nat s)%nat with (Z.to_nat (x - s)) by lia.
    rewrite Hk. f_equal. lia.
  - assert (~ in_hole m x) as Hnm by (intros Hm; apply Hnh; apply Hin; split; [assumption|lia]).
    specialize (Hag x ltac:(lia) Hnm). unfold znth in Hag.
    rewrite (proj2 (Z.leb_le 0 x)) in Hag by lia. assumption.
Qed.

(** The state after the fragments [frs] of the message [M] *)
Definition received (M : list Z) (frs : list fragment) (f : t) : Prop :=
  exists m, inv f m /\ agrees M f m /\ Z.of_nat (base.size m) <= 1 + zlen frs /\
    forall x, in_hole m x <-> 0 <= x < INT_MAX /\ ~ covered frs x.

Lemma fb_covered_snoc frs fr x : covered (frs ++ [fr]) x <-> covered frs x \/ fr.1 <= x < fr.1 + zlen fr.2.
Proof.
  unfold covered. split.
  - intros (g & Hg & Hx). apply elem_of_app in Hg. destruct Hg as [Hg|Hg]; [left; eauto|].
    apply list_elem_of_singleton in Hg. subst g. auto.
  - intros [(g & Hg & Hx)|Hx]; [exists g|exists fr]; (split; [apply elem_of_app|assumption]); [auto|].
    right. apply list_elem_of_here.
Qed.

Lemma fb_received_init M storage : zlen storage = MaxLen -> MaxLen / 40 <= U16_MAX ->
  exists f, frag_buffer storage = Ret f /\ received M [] f.
Proof.
  intros Hlen Hcap. destruct (fb_init storage Hlen Hcap) as (f & m & E & Hinv & _ & Hsz & Hin).
  exists f. split; [assumption|]. exists m. split; [assumption|]. split; [|split].
  - intros x Hx Hn. destruct Hn. apply Hin. lia.
  - change (zlen []) with 0. lia.
  - intros x. rewrite Hin. split; [|tauto]. intros Hx. split; [assumption|].
    intros (fr & Hfr & _). apply not_elem_of_nil in Hfr. done.
Qed.

Lemma fb_received_step M frs f fr : zlen M <= MaxLen -> received M frs f -> fragment_of M fr ->
  zlen frs + 1 < MaxLen / 40 ->
  exists f', insert f fr.1 fr.2 (zlen fr.2) = Ret f' /\ received M (frs ++ [fr]) f'.
Proof.
  intros HM (m & Hinv & Hag & Hsz & Hin) Hfr Hroom. destruct fr as [s bytes]. pose proof Hfr as (Hs & Hb & Hend & _). cbn [fst snd] in *.
  destruct (fb_insert f m s bytes Hinv) as (f1 & m1 & E & Hinv1 & Hsz1 & Hin1 & Hd); [lia..|].
  exists f1. split; [assumption|]. exists m1. split; [assumption|]. split; [|split].
  - destruct Hd as [Hd|[Hd Hno]].
    + destruct f1 as [d1 hs1]. apply (fb_agrees_blit M f m m1 s bytes); auto.
    + intros x Hx Hnh. rewrite Hd. apply Hag; [assumption|]. intros Hh. apply Hnh. apply Hin1.
      split; [assumption|]. intros Hr. apply (Hno x Hr Hh).
  - rewrite zlen_app. change (zlen [(s, bytes)]) with 1. lia.
  - intros x. rewrite Hin1, Hin, fb_covered_snoc. cbn [fst snd]. tauto.
Qed.

Lemma fb_received_all M rest : zlen M <= MaxLen -> Forall (fragment_of M) rest ->
  forall frs f, received M frs f -> zlen frs + zlen rest < MaxLen / 40 ->
  exists f', insert_all f rest = Ret f' /\ received M (frs ++ rest) f'.
Proof.
  intros HM Hrest. induction Hrest as [|fr rest Hfr _ IH]; intros frs f Hrec Hroom.
  - exists f. rewrite app_nil_r. auto.
  - rewrite zlen_cons in Hroom. pose proof (zlen_nonneg rest).
    destruct (fb_received_step M frs f fr HM Hrec Hfr ltac:(lia)) as (f1 & E & Hrec1).
    destruct (IH _ f1 Hrec1) as (f2 & E2 & Hrec2).
    { rewrite zlen_app. change (zlen [fr]) with 1. lia. }
    exists f2. destruct fr as [s bytes]. cbn [insert_all fst snd] in *. rewrite E. cbn [mbind outcome_bind].
    rewrite <-app_assoc in Hrec2. auto.
Qed.

(** A set of holes that touches nothing and covers exactly the tail of the
    line is a single hole. *)
Lemma fb_single_hole m k : holes_ok m -> 0 <= k < INT_MAX -> (forall x, in_hole m x <-> k <= x < INT_MAX) ->
  exists i, m = {[ i := mk_hole k INT_MAX ]}.
Proof.
  intros [He Hd] Hk Hin. destruct (proj2 (Hin k) ltac:(lia)) as (i & h & Hi & Hc).
  assert (h = mk_hole k INT_MAX) as ->.
  { pose proof (He i h Hi) as [Hh1 Hh2]. destruct h as [a b]. unfold contains in *. simpl in *.
    assert (a = k).
    { assert (in_hole m a) as Ha by (exists i, (mk_hole a b); split; [assumption|unfold contains; simpl; lia]).
      apply Hin in Ha. lia. }
    assert (b = INT_MAX); [|congruence].
    destruct (Z.eq_dec b INT_MAX) as [|Hne]; [assumption|exfalso].
    destruct (proj2 (Hin b) ltac:(lia)) as (j & g & Hj & Hg). unfold contains in Hg.
    destruct (decide (i = j)) as [<-|Hij]; [rewrite Hi in Hj; injection Hj as <-; simpl in Hg; lia|].
    destruct (Hd i j _ _ Hi Hj Hij); simpl in *; lia. }
  exists i. apply map_eq. intros j. destruct (decide (i = j)) as [<-|Hij]; [rewrite lookup_singleton_eq; assumption|].
  rewrite lookup_singleton_ne by assumption. destruct (m !! j) as [g|] eqn:Ej; [|reflexivity].
  pose proof (He j g Ej) as [Hg1 Hg2]. destruct (Hd i j _ _ Hi Ej Hij); simpl in *; [unfold INT_MAX in *; lia|].
  assert (in_hole m (start g)) as Hs by (exists j, g; split; [assumption|unfold contains; lia]).
  apply Hin in Hs. lia.
Qed.

Lemma fb_size_one (m : gmap Z hole) i h : m !! i = Some h -> base.size m = 1%nat -> m = {[ i := h ]}.
Proof.
  intros Hi Hsz. assert (base.size (delete i m) = 0%nat) as H0 by (rewrite map_size_delete_Some by eauto; lia).
  apply map_size_empty_iff in H0. rewrite <-(insert_delete_id m i h Hi), H0. reflexivity.
Qed.

Lemma fb_continuous_size f m : inv f m -> (exists x, in_hole m x) -> exists n, continuous_size f = Ret n /\
  (n = 0 \/ exists i h, m = {[ i := h ]} /\ n = start h) /\
  (forall i h, m = {[ i := h ]} -> n = start h).
Proof.
  intros [[fl Hr] Hok _ _] [x (i0 & h0 & Hi0 & _)]. unfold continuous_size. rewrite (pool.pool_size _ _ _ _ Hr).
  destruct (Z.eqb_spec (Z.of_nat (base.size m)) 1) as [E|E]; simpl.
  - rename i0 into i, h0 into h. pose proof (fb_size_one m i h Hi0 ltac:(lia)) as ->.
    destruct (pool.entries U16_MAX (holes f)) as [|[j g] l] eqn:El.
    + exfalso. assert ((i, h) ∈ pool.entries U16_MAX (holes f)) as Hin
        by (eapply pool.pool_entries_elem; [eassumption|apply lookup_singleton_eq]).
      rewrite El in Hin. apply not_elem_of_nil in Hin. done.
    + assert ((j, g) ∈ pool.entries U16_MAX (holes f)) as Hin by (rewrite El; apply list_elem_of_here).
      eapply pool.pool_entries_elem in Hin; [|eassumption]. apply lookup_singleton_Some in Hin. destruct Hin as [<- <-].
      exists (start h). split; [reflexivity|]. split; [right; eauto|].
      intros i' h' Heq. assert (h = h'); [|congruence].
      assert (({[i := h]} : gmap Z hole) !! i = Some h) as Hl by apply lookup_singleton_eq.
      rewrite Heq in Hl. apply lookup_singleton_Some in Hl. symmetry. apply Hl.
  - exists 0. split; [reflexivity|]. split; [auto|]. intros i h ->. rewrite map_size_singleton in E. lia.
Qed.

Lemma fb_covered_dec frs x : covered frs x \/ ~ covered frs x.
Proof.
  destruct (decide (Exists (fun fr => fr.1 <= x < fr.1 + zlen fr.2) frs)) as [Hex|Hne]; [left|right].
  - apply Exists_exists in Hex. destruct Hex as (fr & ? & ?). exists fr. auto.
  - intros (fr & ? & ?). apply Hne. apply Exists_exists. eauto.
Qed.

(** [continuous_size] is the length of what was received, once it has no gaps. *)
Lemma fb_received_size M frs f : Forall (fragment_of M) frs -> zlen M <= MaxLen -> received M frs f ->
  exists n, continuous_size f = Ret n /\
    (forall k, 0 < k -> n = k <-> forall x, covered frs x <-> 0 <= x < k) /\
    (forall x, 0 <= x < n -> znth (data f) x = znth M x).
Proof.
  intros Hfrs HM (m & Hinv & Hag & _ & Hin).
  assert (forall x, covered frs x -> 0 <= x < MaxLen) as Hcov.
  { intros x (fr & Hfr & Hx). apply (proj1 (Forall_forall _ _) Hfrs) in Hfr. destruct Hfr as (? & ? & ? & _). lia. }
  assert (in_hole m (INT_MAX - 1)) as Hlast.
  { apply Hin. split; [unfold INT_MAX; lia|]. intros Hc. apply Hcov in Hc. lia. }
  destruct (fb_continuous_size f m Hinv (ex_intro _ _ Hlast)) as (n & En & Hn & Hn1).
  exists n. split; [assumption|].
  assert (0 < n -> forall x, covered frs x <-> 0 <= x < n) as Hpre.
  { intros Hpos x. destruct Hn as [->|(i & h & -> & ->)]; [lia|].
    assert (forall y, in_hole {[i := h]} y <-> contains h y) as Hone.
    { intros y. split; [|intros Hy; exists i, h; rewrite lookup_singleton_eq; auto].
      intros (j & g & Hj & Hg). apply lookup_singleton_Some in Hj. destruct Hj as [_ <-]. assumption. }
    apply Hone in Hlast. unfold contains in *. split.
    - intros Hc. pose proof (Hcov x Hc). destruct (Z.lt_ge_cases x (start h)); [lia|].
      assert (in_hole {[i := h]} x) as Hx by (apply Hone; lia). apply Hin in Hx. destruct Hx. done.
    - intros Hx. destruct (fb_covered_dec frs x) as [Hc|Hc]; [assumption|exfalso].
      assert (in_hole {[i := h]} x) as Hh by (apply Hin; split; [lia|assumption]). apply Hone in Hh. lia. }
  split.
  - intros k Hk. split; [intros <-; apply Hpre; assumption|]. intros Hc.
    assert (k <= MaxLen) by (pose proof (Hcov (k - 1) (proj2 (Hc (k - 1)) ltac:(lia))); lia).
    destruct (fb_single_hole m k) as [i Hi]; [apply Hinv|lia| |apply (Hn1 i _ Hi)].
    intros x. rewrite Hin, Hc. lia.
  - intros x Hx. assert (0 <= x < MaxLen) by (apply Hcov; apply Hpre; lia).
    apply Hag; [assumption|]. intros Hh. apply Hin in Hh. destruct Hh as [_ Hh]. apply Hh. apply Hpre; lia.
Qed.
End ops.
End frag_buffer.

Import frag_buffer.

(** C8: reassembly.  Whatever the order, the overlaps and the duplicates in
    which fragments of a message arrive (fewer of them than the pool has room
    for holes), no insertion fails; [continuous_size] is [k > 0] exactly when
    the positions received so far are [0 .. k-1]; and then the first [k] bytes
    of the buffer are those of the message. *)
Theorem frag_buffer_reassembles (MaxLen : Z) (storage M : list Z) (frs : list fragment) :
  40 <= MaxLen < INT_MAX -> MaxLen / 40 <= U16_MAX -> zlen storage = MaxLen -> zlen M <= MaxLen ->
  Forall (fragment_of M) frs -> zlen frs < MaxLen / 40 ->
  exists f n, (f0 ← frag_buffer MaxLen storage; insert_all MaxLen f0 frs) = Ret f /\
    continuous_size f = Ret n /\
    (forall k, 0 < k -> n = k <-> forall x, covered frs x <-> 0 <= x < k) /\
    (forall x, 0 <= x < n -> znth (data f) x = znth M x).
Proof.
  intros Hmin Hcap Hst HM Hfrs Hcount.
  destruct (fb_received_init MaxLen Hmin M storage Hst Hcap) as (f0 & -> & H0).
  destruct (fb_received_all MaxLen Hmin M frs HM Hfrs [] f0 H0) as (f & E & Hf); [change (zlen []) with 0; lia|].
  destruct (fb_received_size MaxLen Hmin M frs f Hfrs HM Hf) as (n & En & Hn & Hd).
  exists f, n. auto.
Qed.

Lemma frag_buffer_reassembles_witness :
  exists f n, (f0 ← frag_buffer 160 (replicate 160 0);
               insert_all 160 f0 [(2, [3; 4]); (3, [4; 5]); (0, [1; 2; 3])]) = Ret f /\
    continuous_size f = Ret n /\
    (forall k, 0 < k -> n = k <-> forall x, covered [(2, [3; 4]); (3, [4; 5]); (0, [1; 2; 3])] x <-> 0 <= x < k) /\
    (forall x, 0 <= x < n -> znth (data f) x = znth [1; 2; 3; 4; 5] x).
Proof.
  apply frag_buffer_reassembles; try (vm_compute; repeat split; congruence).
  - repeat constructor; try (vm_compute; congruence); simpl;
      intros k Hk; unfold zlen in Hk; simpl in Hk;
      (assert (k = 0 \/ k = 1 \/ k = 2) as [->|[->| ->]] by lia; try reflexivity; lia).
Defined.

(** The clamping of the end position is not applied to the copy.  A
    fragment that starts inside the buffer and reaches past its end writes
    outside the array, for every length of the overhang. *)
Theorem frag_buffer_insert_overruns (MaxLen s : Z) (storage bytes : list Z) :
  40 <= MaxLen < INT_MAX -> MaxLen / 40 <= U16_MAX -> zlen storage = MaxLen ->
  0 <= s < MaxLen -> MaxLen < s + zlen bytes <= INT_MAX -> 1 < MaxLen / 40 ->
  (f ← frag_buffer MaxLen storage; insert MaxLen f s bytes (zlen bytes)) = Undef.
Proof.
  intros Hmin Hcap Hst Hs Hover Hroom. unfold INT_MAX in *.
  destruct (fb_init MaxLen Hmin storage Hst Hcap) as (f0 & m0 & -> & [Hm Hok Hlen Hc] & _ & Hsz0 & Hin0).
  rewrite mbind_Ret. unfold insert.
  rewrite (i32_Ret (s + zlen bytes)) by (unfold INT_MAX, INT_MIN; lia). rewrite mbind_Ret. cbv zeta.
  rewrite Z.min_r by lia.
  destruct (fb_insert_loop (mk_hole s MaxLen) 1 (S (Z.to_nat (pool.capacity (holes f0))))
              ltac:(simpl; lia) ltac:(simpl; unfold INT_MAX; lia) (holes f0) m0 0 false Hm Hok)
    as (hs & m' & r & -> & _ & _ & _ & _ & _ & Hr'); [left; lia|lia|lia| |lia|].
  { intros j h Hj _. destruct Hm as [fl Hr]. destruct (pool.rep_dom _ _ _ _ Hr j (ex_intro _ h Hj)). assumption. }
  rewrite mbind_Ret. destruct r.
  - unfold arr_blit. rewrite (proj2 (Z.leb_gt (s + zlen bytes) _)) by lia.
    rewrite andb_false_r. reflexivity.
  - destruct (Hr' eq_refl) as [_ Hno]. exfalso.
    destruct (proj2 (Hin0 s)) as (j & h & Hj & Hx); [unfold INT_MAX; lia|].
    specialize (Hno j h Hj). unfold overlaps, contains in *. simpl in *. lia.
Qed.

Lemma frag_buffer_insert_overruns_witness :
  (f ← frag_buffer 10000 (replicate (Z.to_nat 10000) 0); insert 10000 f 9999 [1; 2] (zlen [1; 2])) = Undef.
Proof.
  apply (frag_buffer_insert_overruns 10000 9999 (replicate (Z.to_nat 10000) 0) [1; 2]); vm_compute; repeat split; congruence.
Defined.
