(* ===== verification/NetUtils.v ===== *)
(** * Byte order, word sums and checksums (libraries/net/utils.{h,cc},
      tcp/utils.cc, and the folding of ipv4/utils.cc)

    Memory is a list of bytes; the machine is little endian. *)

From S2P Require Import Prelude.

(** ** Byte order *)

Module bytes.

Definition byte_ok (b : Z) : Prop := 0 <= b < 256.

(** Memory of a [uint16_t] and a [uint32_t] *)
Definition le16 (x : Z) : list Z := [u8 x; u8 (Z.shiftr x 8)].
Definition le32 (x : Z) : list Z := [u8 x; u8 (Z.shiftr x 8); u8 (Z.shiftr x 16); u8 (Z.shiftr x 24)].

Definition of_le16 (b0 b1 : Z) : Z := b0 + 256 * b1.
Definition of_le32 (b0 b1 b2 b3 : Z) : Z := b0 + 256 * b1 + 65536 * b2 + 16777216 * b3.

(** [__builtin_bswap16] and [__builtin_bswap32] *)
Definition bswap16 (x : Z) : Z := Z.lor (Z.shiftl (u8 x) 8) (u8 (Z.shiftr x 8)).
Definition bswap32 (x : Z) : Z :=
  Z.lor (Z.lor (Z.shiftl (u8 x) 24) (Z.shiftl (u8 (Z.shiftr x 8)) 16))
        (Z.lor (Z.shiftl (u8 (Z.shiftr x 16)) 8) (u8 (Z.shiftr x 24))).

Definition ntohs (x : Z) : Z := bswap16 x.
Definition ntohl (x : Z) : Z := bswap32 x.
Definition htons (x : Z) : Z := ntohs x.
Definition htonl (x : Z) : Z := ntohl x.

Lemma bswap16_div x : bswap16 x = (x mod 256) * 256 + (x / 256) mod 256.
Proof.
  unfold bswap16, u8. rewrite Z.shiftr_div_pow2 by lia. change (2 ^ 8) with 256.
  rewrite lor_shiftl_add by dlia. reflexivity.
Qed.

Lemma bswap32_div x : bswap32 x =
  (x mod 256) * 2 ^ 24 + ((x / 2 ^ 8) mod 256) * 2 ^ 16 + ((x / 2 ^ 16) mod 256) * 2 ^ 8 + (x / 2 ^ 24) mod 256.
Proof.
  unfold bswap32, u8. rewrite !Z.shiftr_div_pow2 by lia. change (2 ^ 8) with 256.
  set (a := x mod 256). set (b := (x / 256) mod 256). set (c := (x / 2 ^ 16) mod 256). set (d := (x / 2 ^ 24) mod 256).
  assert (0 <= a < 256 /\ 0 <= b < 256 /\ 0 <= c < 256 /\ 0 <= d < 256) as (Ha & Hb & Hc & Hd)
    by (repeat split; apply Z.mod_pos_bound; lia). clearbody a b c d.
  rewrite (lor_shiftl_add c d 8) by lia. rewrite <-Z.lor_assoc.
  rewrite (lor_shiftl_add b _ 16) by lia. rewrite (lor_shiftl_add a _ 24) by lia. lia.
Qed.

Lemma of_le16_le16 x : 0 <= x < 2 ^ 16 -> of_le16 (u8 x) (u8 (Z.shiftr x 8)) = x.
Proof. intros. unfold of_le16, u8. rewrite Z.shiftr_div_pow2 by lia. change (2 ^ 8) with 256. dlia. Qed.

Lemma of_le32_le32 x : 0 <= x < 2 ^ 32 ->
  of_le32 (u8 x) (u8 (Z.shiftr x 8)) (u8 (Z.shiftr x 16)) (u8 (Z.shiftr x 24)) = x.
Proof.
  intros. unfold of_le32, u8. rewrite !Z.shiftr_div_pow2 by lia.
  change (2 ^ 8) with 256. change (2 ^ 16) with (256 * 256). change (2 ^ 24) with (256 * 256 * 256).
  rewrite <-!Z.div_div by lia. dlia.
Qed.

Lemma bswap16_range x : 0 <= bswap16 x < 2 ^ 16.
Proof. rewrite bswap16_div. dlia. Qed.

Lemma bswap32_range x : 0 <= bswap32 x < 2 ^ 32.
Proof. rewrite bswap32_div. dlia. Qed.

(** Swapping twice is the identity: [ntohs] undoes [htons]. *)
Lemma ntohs_htons x : 0 <= x < 2 ^ 16 -> ntohs (htons x) = x.
Proof. intros. unfold htons, ntohs. rewrite !bswap16_div. dlia. Qed.

(** The digits of a little endian word *)
Lemma of_le32_digits a b c d : byte_ok a -> byte_ok b -> byte_ok c -> byte_ok d ->
  let x := of_le32 a b c d in
  x mod 256 = a /\ (x / 2 ^ 8) mod 256 = b /\ (x / 2 ^ 16) mod 256 = c /\ (x / 2 ^ 24) mod 256 = d.
Proof.
  intros Ha Hb Hc Hd x. unfold byte_ok in *.
  assert (x / 2 ^ 8 = b + 256 * c + 65536 * d) as H1 by (symmetry; apply (Z.div_unique_pos _ _ _ a); unfold x, of_le32; lia).
  assert (x / 2 ^ 16 = c + 256 * d) as H2 by (symmetry; apply (Z.div_unique_pos _ _ _ (a + 256 * b)); unfold x, of_le32; lia).
  assert (x / 2 ^ 24 = d) as H3 by (symmetry; apply (Z.div_unique_pos _ _ _ (a + 256 * b + 65536 * c)); unfold x, of_le32; lia).
  rewrite H1, H2, H3. repeat split.
  - symmetry. apply (Z.mod_unique_pos _ _ (b + 256 * c + 65536 * d)); unfold x, of_le32; lia.
  - symmetry. apply (Z.mod_unique_pos _ _ (c + 256 * d)); lia.
  - symmetry. apply (Z.mod_unique_pos _ _ d); lia.
  - apply Z.mod_small. lia.
Qed.

Lemma bswap32_le32 a b c d : byte_ok a -> byte_ok b -> byte_ok c -> byte_ok d ->
  bswap32 (of_le32 a b c d) = of_le32 d c b a.
Proof.
  intros Ha Hb Hc Hd. rewrite bswap32_div.
  destruct (of_le32_digits a b c d Ha Hb Hc Hd) as (-> & -> & -> & ->). unfold of_le32. lia.
Qed.

Lemma u8_ok x : byte_ok (u8 x).
Proof. apply u8_range. Qed.

Lemma ntohl_htonl x : 0 <= x < 2 ^ 32 -> ntohl (htonl x) = x.
Proof.
  intros Hx. unfold htonl, ntohl. rewrite <-(of_le32_le32 x Hx) at 1.
  rewrite !bswap32_le32 by apply u8_ok. apply of_le32_le32. assumption.
Qed.
End bytes.

(** ** Sums of words *)

Module checksum.
Import bytes.

Definition read32 (data : list Z) : outcome (Z * list Z) :=
  match data with
  | b0 :: b1 :: b2 :: b3 :: rest => Ret (of_le32 b0 b1 b2 b3, rest)
  | _ => Undef
  end.

Definition read16 (data : list Z) : outcome (Z * list Z) :=
  match data with
  | b0 :: b1 :: rest => Ret (of_le16 b0 b1, rest)
  | _ => Undef
  end.

Definition read8 (data : list Z) : outcome Z :=
  match data with b :: _ => Ret b | [] => Undef end.

(** [while (length >= 4)] *)
Fixpoint sum32_loop (fuel : nat) (sum : Z) (ptr32 : list Z) (length : Z) : outcome (Z * list Z * Z) :=
  match fuel with
  | O => NoFuel
  | S fuel' =>
      if length >=? 4 then
        '(w, ptr32') ← read32 ptr32;
        sum32_loop fuel' (u64 (sum + w)) ptr32' (length - 4)
      else Ret (sum, ptr32, length)
  end.

Definition sum_words (data : list Z) (length : Z) : outcome Z :=
  '(sum, ptr16, length) ← sum32_loop (S (Z.to_nat length)) 0 data length;
  '(sum, ptr8, length) ←
    (if length >=? 2 then
       '(w, ptr16') ← read16 ptr16; Ret (u64 (sum + w), ptr16', length - 2)
     else Ret (sum, ptr16, length));
  '(sum, length) ←
    (if length >? 0 then
       b ← read8 ptr8; Ret (u64 (sum + htons (u16 (Z.shiftl b 8))), length - 1)
     else Ret (sum, length));
  passert (length =? 0);;
  Ret sum.

(** [while (sum > 0xFFFF) sum = (sum >> 16) + (sum & 0xFFFF);]  Six rounds
    are enough for 64 bits. *)
Fixpoint fold_carries (fuel : nat) (sum : Z) : outcome Z :=
  match fuel with
  | O => NoFuel
  | S fuel' =>
      if sum >? 0xFFFF
      then fold_carries fuel' (u64 (Z.shiftr sum 16 + Z.land sum 0xFFFF))
      else Ret sum
  end.

(** [~(uint16_t)sum] returned as [uint16_t] *)
Definition complement (sum : Z) : Z := 0xFFFF - u16 sum.

Definition finish (sum : Z) : outcome Z :=
  s ← fold_carries 6 sum; Ret (complement s).

(** tcp/utils.cc: the checksum over the pseudo header and two pieces *)
Definition pseudo_header (src_addr dest_addr protocol length : Z) : list Z :=
  le32 (htonl src_addr) ++ le32 (htonl dest_addr) ++ [0; u8 protocol] ++ le16 (htons (u16 length)).

Definition tcp_checksum (src_addr dest_addr protocol : Z) (data1 data2 : list Z) : outcome Z :=
  s0 ← sum_words (pseudo_header src_addr dest_addr protocol (zlen data1 + zlen data2)) 12;
  s1 ← sum_words data1 (zlen data1);
  s2 ← sum_words data2 (zlen data2);
  finish (u64 (u64 (s0 + s1) + s2)).

(** ** Reference: the sum of the 16 bit words, the last byte padded *)

Fixpoint wsum (l : list Z) : Z :=
  match l with
  | [] => 0
  | [b] => b
  | b0 :: b1 :: rest => of_le16 b0 b1 + wsum rest
  end.

Definition bytes_ok (l : list Z) : Prop := Forall byte_ok l.

Lemma bytes_ok_app l s : bytes_ok (l ++ s) <-> bytes_ok l /\ bytes_ok s.
Proof. apply Forall_app. Qed.

(** Induction two bytes at a time *)
Lemma list_ind2 (P : list Z -> Prop) :
  P [] -> (forall b, P [b]) -> (forall b0 b1 l, P l -> P (b0 :: b1 :: l)) -> forall l, P l.
Proof.
  intros H0 H1 H2. fix IH 1. intros [|b0 [|b1 l]]; [apply H0|apply H1|apply H2, IH].
Qed.

Lemma wsum_nonneg l : bytes_ok l -> 0 <= wsum l <= 65535 * zlen l.
Proof.
  induction l as [|b|b0 b1 l IH] using list_ind2; intros Hb.
  - change (zlen []) with 0. simpl. lia.
  - inversion Hb as [|? ? Hb0 _]. subst. unfold byte_ok in *. change (zlen [b]) with 1. simpl. lia.
  - inversion Hb as [|? ? Hb0 Hb']. inversion Hb' as [|? ? Hb1 Hb'']. subst.
    specialize (IH Hb''). unfold byte_ok, of_le16 in *. rewrite !zlen_cons. cbn [wsum]. unfold of_le16. lia.
Qed.

Lemma wsum_app l s : Z.even (zlen l) = true -> wsum (l ++ s) = wsum l + wsum s.
Proof.
  induction l as [|b|b0 b1 l IH] using list_ind2; intros He; [reflexivity|discriminate He|].
  simpl app. cbn [wsum]. rewrite IH; [lia|].
  rewrite !zlen_cons in He. rewrite <-He, !Z.even_add. simpl.
  destruct (Z.even (zlen l)); reflexivity.
Qed.

(** ** [sum_words] computes the reference sum modulo 65535 *)

Lemma csum_loop B fuel : B <= 2 ^ 64 -> forall l sum, bytes_ok l -> 0 <= sum -> sum + 2 ^ 32 * zlen l < B ->
  zlen l < Z.of_nat fuel ->
  exists s rest, sum32_loop fuel sum l (zlen l) = Ret (s, rest, zlen rest) /\ zlen rest < 4 /\ bytes_ok rest /\
    0 <= s /\ s + 2 ^ 32 * zlen rest < B /\
    (exists k, sum + wsum l + 65535 * k = s + wsum rest /\ 0 <= k) .
Proof.
  intros HB. induction fuel as [|fuel IH]; intros l sum Hb Hs Hbound Hf; [pose proof (zlen_nonneg l); lia|].
  cbn [sum32_loop]. rewrite Z.geb_leb. destruct (Z.leb_spec 4 (zlen l)) as [H4|H4].
  - destruct l as [|b0 [|b1 [|b2 [|b3 l]]]]; try (exfalso; revert H4; vm_compute; congruence).
    unfold bytes_ok in Hb. rewrite !Forall_cons in Hb. destruct Hb as (B0 & B1 & B2 & B3 & Hb).
    cbn [read32]. rewrite mbind_Ret. rewrite !zlen_cons in *. pose proof (zlen_nonneg l).
    unfold byte_ok, of_le32 in *.
    assert (0 <= b0 + 256 * b1 + 65536 * b2 + 16777216 * b3 < 2 ^ 32) as Hw by lia.
    unfold u64. rewrite Z.mod_small by lia.
    replace (zlen l + 1 + 1 + 1 + 1 - 4) with (zlen l) by lia.
    destruct (IH l (sum + (b0 + 256 * b1 + 65536 * b2 + 16777216 * b3)) Hb) as (s & rest & E & Hr & Hbr & Hs0 & Hsb & k & Hk & Hk0);
      [lia|lia|lia|]. exists s, rest. repeat (split; [assumption|]).
    exists (k + b2 + 256 * b3). cbn [wsum]. unfold of_le16. lia.
  - exists sum, l. repeat (split; [assumption || reflexivity|]). exists 0. lia.
Qed.

Lemma csum_pad b : byte_ok b -> htons (u16 (Z.shiftl b 8)) = b.
Proof.
  unfold byte_ok. intros. unfold htons, ntohs. rewrite Z.shiftl_mul_pow2, u16_small, bswap16_div by lia. dlia.
Qed.

#[local] Arguments Z.geb !_ !_ /.
#[local] Arguments Z.gtb !_ !_ /.

(** Every byte string short enough for the address space has a sum, and it
    differs from the reference sum by a multiple of 65535. *)
Lemma csum_sum_words l : bytes_ok l -> zlen l < 2 ^ 28 ->
  exists s k, sum_words l (zlen l) = Ret s /\ s = wsum l + 65535 * k /\ 0 <= k /\ 0 <= s < 2 ^ 61.
Proof.
  intros Hb Hlen. pose proof (zlen_nonneg l). unfold sum_words.
  destruct (csum_loop (2 ^ 61) (S (Z.to_nat (zlen l))) ltac:(lia) l 0 Hb)
    as (s & rest & E & Hr & Hbr & Hs0 & Hsb & k & Hk & Hk0); [lia..|].
  rewrite E, mbind_Ret. clear E.
  destruct rest as [|b0 [|b1 [|b2 [|b3 rest]]]]; unfold bytes_ok in Hbr; rewrite ?Forall_cons in Hbr;
    unfold byte_ok in Hbr; [..|exfalso; rewrite !zlen_cons in Hr; pose proof (zlen_nonneg rest); lia].
  - change (wsum []) with 0 in Hk. change (zlen []) with 0 in Hsb. exists s, k. split; [reflexivity|]. lia.
  - destruct Hbr as [B0 _]. change (zlen [b0]) with 1 in *. cbn -[u64 Z.mul Z.pow htons u16 Z.shiftl] in *. rewrite csum_pad by assumption. unfold u64.
    rewrite Z.mod_small by lia. simpl. eexists _, k. split; [reflexivity|]. lia.
  - destruct Hbr as (B0 & B1 & _). change (zlen [b0; b1]) with 2 in *. cbn -[u64 Z.mul Z.pow of_le16 htons u16 Z.shiftl] in *. unfold of_le16, u64 in *.
    rewrite Z.mod_small by lia. simpl. eexists _, k. split; [reflexivity|]. lia.
  - destruct Hbr as (B0 & B1 & B2 & _). change (zlen [b0; b1; b2]) with 3 in *. cbn -[u64 Z.mul Z.pow of_le16 htons u16 Z.shiftl] in *. rewrite csum_pad by assumption.
    unfold of_le16, u64 in *. rewrite (Z.mod_small (s + _)) by lia. rewrite Z.mod_small by lia.
    simpl. eexists _, k. split; [reflexivity|]. lia.
Qed.

(** ** Folding the carries *)

(** The representative of [s] modulo 65535 that one's complement addition
    keeps: 0 only for 0, else in 1 .. 65535 *)
Definition ones_norm (s : Z) : Z := if s =? 0 then 0 else (s - 1) mod 65535 + 1.

Lemma csum_fold_step s : 65535 < s < 2 ^ 64 ->
  let s1 := u64 (Z.shiftr s 16 + Z.land s 0xFFFF) in
  s1 = s / 65536 + s mod 65536 /\ ones_norm s1 = ones_norm s.
Proof.
  intros Hs. change 0xFFFF with (Z.ones 16). rewrite Z.land_ones, Z.shiftr_div_pow2 by lia.
  change (2 ^ 16) with 65536. unfold u64. rewrite Z.mod_small by dlia. split; [reflexivity|].
  unfold ones_norm. pose proof (Z.div_mod s 65536 ltac:(lia)) as Hd.
  pose proof (Z.mod_pos_bound s 65536 ltac:(lia)). pose proof (Z.div_le_lower_bound s 65536 1 ltac:(lia) ltac:(lia)).
  rewrite !(proj2 (Z.eqb_neq _ _)) by lia. f_equal.
  replace (s - 1) with (s / 65536 + s mod 65536 - 1 + (s / 65536) * 65535) by lia.
  rewrite Z_mod_plus_full. reflexivity.
Qed.

Lemma csum_fold_stop fuel s : 0 <= s <= 65535 -> fold_carries (S fuel) s = Ret s /\ ones_norm s = s.
Proof.
  intros Hs. simpl. rewrite Z.gtb_ltb, (proj2 (Z.ltb_ge 65535 s)) by lia. split; [reflexivity|].
  unfold ones_norm. destruct (Z.eqb_spec s 0); [auto|]. rewrite Z.mod_small by lia. lia.
Qed.

(** One more round of folding suffices when the bound shrinks enough. *)
Lemma csum_fold_bound fuel b b1 : b <= 2 ^ 64 -> b / 65536 + 65536 <= b1 ->
  (forall s, 0 <= s < b1 -> fold_carries fuel s = Ret (ones_norm s)) ->
  (0 < fuel)%nat ->
  forall s, 0 <= s < b -> fold_carries (S fuel) s = Ret (ones_norm s).
Proof.
  intros Hb Hb1 IH Hf s Hs. destruct (Z.lt_ge_cases 65535 s) as [Hgt|Hle].
  - destruct (csum_fold_step s ltac:(lia)) as [E1 E2]. cbn [fold_carries].
    rewrite Z.gtb_ltb, (proj2 (Z.ltb_lt 65535 s)) by lia. rewrite <-E2. apply IH.
    rewrite E1. pose proof (Z.mod_pos_bound s 65536). pose proof (Z.div_le_mono s b 65536).
    pose proof (Z.div_pos s 65536). lia.
  - destruct (csum_fold_stop fuel s ltac:(lia)) as [-> ->]. reflexivity.
Qed.

Lemma csum_fold_carries s : 0 <= s < 2 ^ 64 -> fold_carries 6 s = Ret (ones_norm s).
Proof.
  apply (csum_fold_bound 5 _ (2 ^ 49)); [lia|vm_compute; congruence| |lia].
  apply (csum_fold_bound 4 _ (2 ^ 34)); [lia|vm_compute; congruence| |lia].
  apply (csum_fold_bound 3 _ (2 ^ 19)); [lia|vm_compute; congruence| |lia].
  apply (csum_fold_bound 2 _ 65544); [lia|vm_compute; congruence| |lia].
  intros x Hx. destruct (Z.lt_ge_cases 65535 x) as [Hgt|Hle].
  - destruct (csum_fold_step x ltac:(lia)) as [E1 E2]. cbn [fold_carries].
    rewrite Z.gtb_ltb, (proj2 (Z.ltb_lt 65535 x)) by lia. rewrite <-E2.
    destruct (csum_fold_stop 0 (u64 (Z.shiftr x 16 + Z.land x 65535))) as [H1 H2]; [rewrite E1; dlia|].
    rewrite H2. exact H1.
  - destruct (csum_fold_stop 1 x ltac:(lia)) as [-> ->]. reflexivity.
Qed.

Lemma csum_norm_range s : 0 <= s -> 0 <= ones_norm s <= 65535.
Proof. intros. unfold ones_norm. destruct (Z.eqb_spec s 0); [lia|]. pose proof (Z.mod_pos_bound (s - 1) 65535). lia. Qed.

Lemma csum_norm_mod s k : 0 < s -> 0 <= k -> ones_norm (s + 65535 * k) = ones_norm s.
Proof.
  intros. unfold ones_norm. rewrite !(proj2 (Z.eqb_neq _ _)) by lia.
  replace (s + 65535 * k - 1) with (s - 1 + k * 65535) by lia. rewrite Z_mod_plus_full. reflexivity.
Qed.

Lemma csum_finish s : 0 <= s < 2 ^ 64 -> finish s = Ret (65535 - ones_norm s).
Proof.
  intros Hs. unfold finish. rewrite csum_fold_carries by assumption. simpl. unfold complement.
  pose proof (csum_norm_range s ltac:(lia)). rewrite u16_small by lia. reflexivity.
Qed.

(** Adding the complement to a sum gives zero (all ones). *)
Lemma csum_complement_zero S : 0 < S -> ones_norm (S + (65535 - ones_norm S)) = 65535.
Proof.
  intros HS. unfold ones_norm at 2. rewrite (proj2 (Z.eqb_neq S 0)) by lia.
  pose proof (Z.div_mod (S - 1) 65535 ltac:(lia)) as Hd. pose proof (Z.mod_pos_bound (S - 1) 65535 ltac:(lia)).
  pose proof (Z.div_pos (S - 1) 65535 ltac:(lia) ltac:(lia)).
  replace (S + (65535 - ((S - 1) mod 65535 + 1))) with (65535 + 65535 * ((S - 1) / 65535)) by lia.
  rewrite csum_norm_mod by lia. reflexivity.
Qed.

Lemma le16_ok x : bytes_ok (le16 x).
Proof. repeat constructor; apply u8_ok. Qed.

Lemma le32_ok x : bytes_ok (le32 x).
Proof. repeat constructor; apply u8_ok. Qed.

Lemma wsum_le16 x : 0 <= x < 2 ^ 16 -> wsum (le16 x) = x.
Proof. intros. unfold le16. cbn [wsum]. rewrite of_le16_le16 by assumption. lia. Qed.

Lemma csum_pseudo_ok src dst proto len : bytes_ok (pseudo_header src dst proto len).
Proof.
  unfold pseudo_header. rewrite !bytes_ok_app. repeat split; auto using le32_ok, le16_ok.
  repeat constructor; try apply u8_ok. unfold byte_ok. lia.
Qed.

(** The length field makes the pseudo header's sum positive. *)
Lemma csum_pseudo_pos src dst proto len : 0 < len < 2 ^ 16 -> 0 < wsum (pseudo_header src dst proto len).
Proof.
  intros Hlen. unfold pseudo_header. rewrite !wsum_app by reflexivity.
  pose proof (wsum_nonneg _ (le32_ok (htonl src))). pose proof (wsum_nonneg _ (le32_ok (htonl dst))).
  assert (0 <= wsum [0; u8 proto]) by (cbn [wsum]; unfold of_le16; pose proof (u8_range proto); lia).
  rewrite wsum_le16 by (apply bswap16_range). rewrite u16_small by lia.
  assert (0 < htons len); [|lia].
  pose proof (bswap16_range len) as Hr. change (bswap16 len) with (htons len) in Hr.
  destruct (Z.eq_dec (htons len) 0) as [E|]; [|lia].
  exfalso. pose proof (ntohs_htons len ltac:(lia)) as Hn. rewrite E in Hn.
  change (ntohs 0) with 0 in Hn. lia.
Qed.

Lemma csum_tcp src dst proto d1 d2 : bytes_ok d1 -> bytes_ok d2 -> 0 < zlen d1 + zlen d2 < 2 ^ 16 ->
  tcp_checksum src dst proto d1 d2 =
  Ret (65535 - ones_norm (wsum (pseudo_header src dst proto (zlen d1 + zlen d2)) + wsum d1 + wsum d2)).
Proof.
  intros H1 H2 Hlen. pose proof (zlen_nonneg d1). pose proof (zlen_nonneg d2). unfold tcp_checksum.
  set (ph := pseudo_header src dst proto (zlen d1 + zlen d2)). pose proof (csum_pseudo_ok src dst proto (zlen d1 + zlen d2)) as Hp.
  pose proof (csum_pseudo_pos src dst proto (zlen d1 + zlen d2) Hlen) as Hpos. fold ph in Hp, Hpos.
  destruct (csum_sum_words ph Hp ltac:(change (zlen ph) with 12; lia)) as (s0 & k0 & E0 & Es0 & Hk0 & Hb0).
  destruct (csum_sum_words d1 H1 ltac:(lia)) as (s1 & k1 & E1 & Es1 & Hk1 & Hb1).
  destruct (csum_sum_words d2 H2 ltac:(lia)) as (s2 & k2 & E2 & Es2 & Hk2 & Hb2).
  change (zlen ph) with 12 in E0. rewrite E0, E1, E2. rewrite !mbind_Ret. unfold u64.
  rewrite (Z.mod_small (s0 + s1)) by lia. rewrite Z.mod_small by lia. rewrite csum_finish by lia.
  pose proof (wsum_nonneg d1 H1). pose proof (wsum_nonneg d2 H2).
  replace (s0 + s1 + s2) with (wsum ph + wsum d1 + wsum d2 + 65535 * (k0 + k1 + k2)) by lia.
  rewrite csum_norm_mod by lia. reflexivity.
Qed.
End checksum.

(** C10: for every segment that fits a datagram, [tcp::checksum] of a header
    whose checksum field is zero is the one's complement checksum of the
    pseudo header followed by the segment, and once it is stored in the field
    the same function, which the receiver computes, yields 0; both
    computations end. *)
Theorem tcp_checksum_verifies (src dst proto : Z) (pre post payload : list Z) :
  checksum.bytes_ok pre -> checksum.bytes_ok post -> checksum.bytes_ok payload ->
  Z.even (zlen pre) = true -> Z.even (zlen post) = true -> zlen pre + zlen post + zlen payload + 2 < 2 ^ 16 ->
  exists c, checksum.tcp_checksum src dst proto (pre ++ [0; 0] ++ post) payload = Ret c /\ 0 <= c < 2 ^ 16 /\
  c = 65535 - checksum.ones_norm (checksum.wsum
        (checksum.pseudo_header src dst proto (zlen pre + zlen post + zlen payload + 2) ++
         pre ++ [0; 0] ++ post ++ payload)) /\
  checksum.tcp_checksum src dst proto (pre ++ bytes.le16 c ++ post) payload = Ret 0.
Proof.
  intros Hpre Hpost Hpay Hev Hev2 Hlen.
  pose proof (zlen_nonneg pre). pose proof (zlen_nonneg post). pose proof (zlen_nonneg payload).
  assert (forall w, zlen w = 2 -> zlen (pre ++ w ++ post) + zlen payload = zlen pre + zlen post + zlen payload + 2) as Hz
    by (intros; rewrite !zlen_app; lia).
  eexists. rewrite checksum.csum_tcp, (Hz [0; 0] eq_refl).
  2:{ rewrite !checksum.bytes_ok_app. repeat split; auto. repeat constructor; unfold bytes.byte_ok; lia. }
  2:{ assumption. }
  2:{ rewrite (Hz [0; 0] eq_refl). lia. }
  split; [reflexivity|].
  set (ph := checksum.pseudo_header src dst proto (zlen pre + zlen post + zlen payload + 2)).
  assert (0 < checksum.wsum ph) as Hpos by (apply checksum.csum_pseudo_pos; lia).
  pose proof (checksum.wsum_nonneg pre Hpre). pose proof (checksum.wsum_nonneg post Hpost).
  pose proof (checksum.wsum_nonneg payload Hpay).
  rewrite !(checksum.wsum_app pre), !(checksum.wsum_app [0; 0]), !(checksum.wsum_app ph), (checksum.wsum_app pre),
    (checksum.wsum_app [0; 0]), (checksum.wsum_app post) by (assumption || reflexivity).
  change (checksum.wsum [0; 0]) with 0.
  set (S := checksum.wsum ph + (checksum.wsum pre + (0 + checksum.wsum post)) + checksum.wsum payload).
  replace (checksum.wsum ph + (checksum.wsum pre + (0 + (checksum.wsum post + checksum.wsum payload)))) with S
    by (unfold S; lia).
  pose proof (checksum.csum_norm_range S ltac:(unfold S; lia)) as Hn.
  split; [lia|]. split; [reflexivity|].
  rewrite checksum.csum_tcp.
  - rewrite (Hz (bytes.le16 _) eq_refl). fold ph. rewrite !(checksum.wsum_app pre), !(checksum.wsum_app (bytes.le16 _)) by (assumption || reflexivity).
    rewrite checksum.wsum_le16 by lia. do 2 f_equal.
    replace (_ + _) with (S + (65535 - checksum.ones_norm S)) by (unfold S; lia).
    rewrite checksum.csum_complement_zero by (unfold S; lia). reflexivity.
  - rewrite !checksum.bytes_ok_app. auto using checksum.le16_ok.
  - assumption.
  - rewrite (Hz (bytes.le16 _) eq_refl). lia.
Qed.

Lemma tcp_checksum_verifies_witness :
  exists c, checksum.tcp_checksum 0xC0A80102 0xC0A80101 6 ([0; 80; 200; 1] ++ [0; 0] ++ [7; 7]) [104; 105; 33] = Ret c /\
    c <> 0 /\
    checksum.tcp_checksum 0xC0A80102 0xC0A80101 6 ([0; 80; 200; 1] ++ bytes.le16 c ++ [7; 7]) [104; 105; 33] = Ret 0.
Proof.
  destruct (tcp_checksum_verifies 0xC0A80102 0xC0A80101 6 [0; 80; 200; 1] [7; 7] [104; 105; 33]) as (c & E & _ & _ & E0);
    try reflexivity; try solve [repeat constructor; unfold bytes.byte_ok; lia].
  exists c. split; [exact E|]. split; [|exact E0].
  intros ->. revert E. vm_compute. congruence.
Defined.
