(* ===== verification/SendQueue.v ===== *)
(** * net::tcp::send_queue (libraries/net/tcp/send_queue.{h,cc})

    The retransmission queue of a connection: the bytes sent but not yet
    acknowledged, and the segments they were written in.  [spec] is the
    abstract queue: a list of segments with their bytes, the sequence number
    of the first, and how many have been handed out for sending. *)

From S2P Require Import Prelude Queue RingBuffer.

Record tcp_send_segment := mk_send_segment {
  ss_flags : Z;
  ss_seqnbr : Z;
  ss_data_length : Z;
  ss_send_length : Z
}.

Module send_queue.

Record t := mk {
  ack_pos : Z;
  write_pos : Z;
  read_pos : Z;
  wndsz : Z;
  data_buffer : ring_buffer.t;             (* p2::ring_buffer<0xFFFF> *)
  segments : queue.t tcp_send_segment      (* p2::queue<tcp_send_segment, 100> *)
}.

Definition BUF : Z := 0xFFFF.
Definition SEGS : Z := 100.

Definition reset (q : t) (seqnbr : Z) : t :=
  mk seqnbr seqnbr 0 0xFFFF (ring_buffer.clear (data_buffer q)) (queue.clear (segments q)).

(** A freshly constructed queue *)
Definition init : t :=
  reset (mk 0 0 0 0xFFFF (queue.init (replicate (Z.to_nat BUF) 0))
           (queue.init (replicate (Z.to_nat SEGS) (mk_send_segment 0 0 0 0)))) 0.

(** [data] is null or leads to [data_length] bytes. *)
Definition write_back (q : t) (segment : tcp_send_segment) (data : option (list Z)) (data_length send_length : Z) :
    outcome (t * bool) :=
  if data_length >? u32 (ring_buffer.capacity BUF - ring_buffer.size (data_buffer q)) then Ret (q, false)
  else if negb (ss_seqnbr segment =? write_pos q) then Ret (q, false)
  else
    buf ← (match data with
           | Some d => '(b, _) ← ring_buffer.write BUF (data_buffer q) d (-1); Ret b
           | None => Ret (data_buffer q)
           end);
    let segment_ := mk_send_segment (ss_flags segment) (ss_seqnbr segment) data_length send_length in
    '(segs, ok) ← queue.push_back SEGS (segments q) segment_;
    Ret (mk (ack_pos q) (u32 (write_pos q + data_length)) (read_pos q) (wndsz q) buf segs, ok).

(** [None]: the function returned 0 without writing to [*segment]; otherwise
    the segment and the bytes written to [data]. *)
Definition read_one_segment (q : t) (length : Z) : outcome (t * option (tcp_send_segment * list Z)) :=
  if queue.size (segments q) =? 0 then Ret (q, None)
  else
    active ← queue.at_ SEGS (segments q) (to_i32 (queue.begin (segments q) + read_pos q));
    if u32 (ss_seqnbr active + ss_send_length active) >? u32 (ack_pos q + wndsz q) then Ret (q, None)
    else
      bytes ← ring_buffer.peek BUF (data_buffer q) (to_i32 (ss_seqnbr active - ack_pos q))
                (to_i32 (Z.min (ss_data_length active) length));
      passert (zlen bytes =? ss_data_length active);;
      Ret (mk (ack_pos q) (write_pos q) (u32 (read_pos q + 1)) (wndsz q) (data_buffer q) (segments q),
           Some (active, bytes)).

Definition has_readable (q : t) : bool := u32 (queue.size (segments q)) >? read_pos q.

Definition set_window (q : t) (w : Z) : t :=
  mk (ack_pos q) (write_pos q) (read_pos q) w (data_buffer q) (segments q).

Definition write_cursor (q : t) : Z := write_pos q.

Fixpoint ack_loop (fuel : nat) (q : t) (new_ack_pos : Z) : outcome t :=
  match fuel with
  | O => NoFuel
  | S fuel' =>
      if new_ack_pos >? ack_pos q then
        passert (queue.size (segments q) >? 0);;
        segment ← queue.front SEGS (segments q);
        if u32 (ss_seqnbr segment + ss_data_length segment) >? new_ack_pos then Ret q
        else
          '(buf, _) ← ring_buffer.consume BUF (data_buffer q) (ss_data_length segment);
          '(segs, _) ← queue.pop_front SEGS (segments q);
          ack_loop fuel'
            (mk (u32 (ss_seqnbr segment + ss_data_length segment)) (write_pos q)
                (if read_pos q >? 0 then read_pos q - 1 else read_pos q) (wndsz q) buf segs) new_ack_pos
      else Ret q
  end.

(** Every iteration removes a segment. *)
Definition ack (q : t) (new_ack_pos : Z) : outcome t :=
  ack_loop (S (Z.to_nat (queue.size (segments q)))) q new_ack_pos.

(** ** The abstract queue *)

Record aseg := mk_aseg { a_flags : Z; a_bytes : list Z; a_send : Z }.

Record spec := mk_spec {
  sp_ack : Z;             (* sequence number of the first byte *)
  sp_segs : list aseg;
  sp_read : Z             (* segments handed out so far *)
}.

Definition payload (l : list aseg) : list Z := concat (map a_bytes l).

Definition sp_write (s : spec) : Z := sp_ack s + zlen (payload (sp_segs s)).

(** The segment records, with consecutive sequence numbers *)
Fixpoint layout (pos : Z) (l : list aseg) : list tcp_send_segment :=
  match l with
  | [] => []
  | s :: l' => mk_send_segment (a_flags s) pos (zlen (a_bytes s)) (a_send s) :: layout (pos + zlen (a_bytes s)) l'
  end.

Definition aseg_ok (s : aseg) : Prop := 0 <= a_send s <= zlen (a_bytes s).

Record rep (q : t) (s : spec) : Prop := {
  rep_segs : queue.rep SEGS (segments q) (layout (sp_ack s) (sp_segs s));
  rep_data : ring_buffer.rep BUF (data_buffer q) (payload (sp_segs s));
  rep_ack : ack_pos q = sp_ack s /\ 0 <= sp_ack s;
  rep_write : write_pos q = sp_write s /\ sp_write s < 2 ^ 32;
  rep_read : read_pos q = sp_read s /\ 0 <= sp_read s <= zlen (sp_segs s);
  rep_asegs : Forall aseg_ok (sp_segs s);
  rep_wnd : wndsz q = 0xFFFF
}.

Lemma sq_payload_app l s : payload (l ++ [s]) = payload l ++ a_bytes s.
Proof. unfold payload. rewrite map_app, concat_app. simpl. rewrite app_nil_r. reflexivity. Qed.

Lemma sq_layout_app l : forall pos s, layout pos (l ++ [s]) =
  layout pos l ++ [mk_send_segment (a_flags s) (pos + zlen (payload l)) (zlen (a_bytes s)) (a_send s)].
Proof.
  induction l as [|x l IH]; intros pos s; simpl.
  - change (zlen (payload [])) with 0. rewrite Z.add_0_r. reflexivity.
  - rewrite IH. do 3 f_equal. unfold payload. simpl. rewrite zlen_app. f_equal; lia.
Qed.

Lemma sq_layout_len l : forall pos, zlen (layout pos l) = zlen l.
Proof. induction l as [|x l IH]; intros pos; simpl; [reflexivity|]. rewrite !zlen_cons, IH. reflexivity. Qed.

(** The record of the [k]th segment, and where its bytes are *)
Lemma sq_layout_nth l : forall pos k s, znth l k = Some s ->
  exists off, off = zlen (payload (take (Z.to_nat k) l)) /\ znth (layout pos l) k = Some (mk_send_segment (a_flags s) (pos + off) (zlen (a_bytes s)) (a_send s)) /\
    0 <= off /\ off + zlen (a_bytes s) <= zlen (payload l) /\
    take (length (a_bytes s)) (drop (Z.to_nat off) (payload l)) = a_bytes s.
Proof.
  induction l as [|x l IH]; intros pos k s Hk.
  - apply znth_Some_lt in Hk. change (zlen []) with 0 in Hk. lia.
  - pose proof (znth_Some_lt _ _ _ Hk). pose proof (zlen_nonneg (a_bytes x)). unfold payload. simpl.
    fold (payload l). rewrite zlen_app. destruct (Z.eq_dec k 0) as [->|Hne].
    + injection Hk as ->. exists 0. rewrite Z.add_0_r. pose proof (zlen_nonneg (payload l)).
      split; [reflexivity|]. split; [reflexivity|]. split; [lia|]. split; [lia|]. change (Z.to_nat 0) with 0%nat. rewrite drop_0. apply take_app_length.
    + rewrite znth_cons_pos in Hk by lia. destruct (IH (pos + zlen (a_bytes x)) (k - 1) s Hk) as (off & Eo & E & Ho & Hle & Ht).
      exists (zlen (a_bytes x) + off). rewrite znth_cons_pos by lia. rewrite E.
      split.
      { replace (Z.to_nat k) with (S (Z.to_nat (k - 1))) by lia. simpl take. unfold payload in *. simpl.
        rewrite zlen_app. lia. }
      split; [do 2 f_equal; lia|]. split; [lia|]. split; [lia|].
      unfold zlen. replace (Z.to_nat (Z.of_nat (length (a_bytes x)) + off)) with (length (a_bytes x) + Z.to_nat off)%nat by lia.
      rewrite drop_app_add. assumption.
Qed.

Lemma sq_segs_bound q s : rep q s -> zlen (sp_segs s) <= SEGS.
Proof. intros []. pose proof (queue.rep_cap _ _ _ rep_segs0) as H. rewrite sq_layout_len in H. assumption. Qed.

Lemma sq_data_bound q s : rep q s -> 0 <= zlen (payload (sp_segs s)) <= BUF.
Proof. intros []. pose proof (queue.rep_cap _ _ _ rep_data0). pose proof (zlen_nonneg (payload (sp_segs s))). lia. Qed.

Definition pos_SEGS : 0 < SEGS := eq_refl.
Definition pos_BUF : 0 < BUF := eq_refl.
Lemma int_SEGS : 2 * SEGS <= INT_MAX.
Proof. vm_compute. congruence. Qed.
Lemma int_BUF : 3 * BUF <= INT_MAX.
Proof. vm_compute. congruence. Qed.

Lemma sq_reset q s n : rep q s -> 0 <= n < 2 ^ 32 -> rep (reset q n) (mk_spec n [] 0).
Proof.
  intros [] Hn. split; simpl; auto; try lia.
  - eapply queue.queue_rep_clear; [apply pos_SEGS|eassumption].
  - eapply ring_buffer.rb_clear; [apply pos_BUF|eassumption].
  - unfold sp_write. simpl. change (zlen (payload [])) with 0. lia.
  - change (zlen []) with 0. lia.
Qed.

(** ** Operations *)

Lemma sq_remaining q s : rep q s ->
  u32 (ring_buffer.capacity BUF - ring_buffer.size (data_buffer q)) = BUF - zlen (payload (sp_segs s)).
Proof. intros []. apply (ring_buffer.rb_remaining BUF int_BUF _ _ rep_data0). Qed.

Lemma sq_write_full q s seg data n send : rep q s -> BUF < zlen (payload (sp_segs s)) + n ->
  write_back q seg data n send = Ret (q, false).
Proof.
  intros Hr Hn. unfold write_back. rewrite (sq_remaining q s Hr), Z.gtb_ltb, (proj2 (Z.ltb_lt _ _)) by lia. reflexivity.
Qed.

(** A write that fits; whether it is accepted depends on the segment queue. *)
Lemma sq_write_fits q s flags bytes send dl sl : rep q s -> zlen (payload (sp_segs s)) + zlen bytes <= BUF ->
  exists buf, ring_buffer.rep BUF buf (payload (sp_segs s) ++ bytes) /\
  write_back q (mk_send_segment flags (sp_write s) dl sl) (Some bytes) (zlen bytes) send =
  ('(segs, ok) ← queue.push_back SEGS (segments q) (mk_send_segment flags (sp_write s) (zlen bytes) send);
   Ret (mk (ack_pos q) (u32 (write_pos q + zlen bytes)) (read_pos q) (wndsz q) buf segs, ok)).
Proof.
  intros Hr Hn. unfold write_back. rewrite (sq_remaining q s Hr), Z.gtb_ltb, (proj2 (Z.ltb_ge _ _)) by lia.
  pose proof Hr as []. destruct rep_write0 as [Hw _]. rewrite Hw. simpl. rewrite Z.eqb_refl. simpl.
  destruct (ring_buffer.rb_append BUF pos_BUF int_BUF _ _ bytes rep_data0 Hn) as (buf & -> & Hb). simpl.
  exists buf. auto.
Qed.

Definition sp_append (s : spec) (a : aseg) : spec := mk_spec (sp_ack s) (sp_segs s ++ [a]) (sp_read s).

Lemma sq_write_back q s flags bytes send dl sl : rep q s -> zlen (payload (sp_segs s)) + zlen bytes <= BUF ->
  zlen (sp_segs s) < SEGS -> sp_write s + zlen bytes < 2 ^ 32 -> 0 <= send <= zlen bytes ->
  exists q', write_back q (mk_send_segment flags (sp_write s) dl sl) (Some bytes) (zlen bytes) send = Ret (q', true) /\
    rep q' (sp_append s (mk_aseg flags bytes send)).
Proof.
  intros Hr Hn Hs Hw Hsend. destruct (sq_write_fits q s flags bytes send dl sl Hr Hn) as (buf & Hb & ->).
  pose proof (sq_data_bound q s Hr). pose proof (zlen_nonneg bytes). pose proof Hr as [].
  destruct (queue.queue_push_back_room SEGS pos_SEGS int_SEGS _ _
              (mk_send_segment flags (sp_write s) (zlen bytes) send) rep_segs0) as (segs & -> & Hsegs).
  { rewrite sq_layout_len. assumption. }
  simpl. eexists. split; [reflexivity|]. destruct rep_ack0, rep_write0 as [Ew _], rep_read0.
  split; simpl; unfold sp_write in *; simpl; rewrite ?sq_layout_app, ?sq_payload_app, ?zlen_app; auto; try lia.
  - rewrite Ew, u32_small by lia. simpl. lia.
  - unfold zlen at 2. simpl. lia.
  - apply Forall_app. split; [assumption|]. repeat constructor; simpl; lia.
Qed.

(** With a hundred segments outstanding the write is refused, but only after
    its bytes went into the data buffer and the write cursor moved on. *)
Lemma sq_write_no_slot q s flags bytes send dl sl : rep q s -> zlen (payload (sp_segs s)) + zlen bytes <= BUF ->
  zlen (sp_segs s) = SEGS -> sp_write s + zlen bytes < 2 ^ 32 ->
  exists q', write_back q (mk_send_segment flags (sp_write s) dl sl) (Some bytes) (zlen bytes) send = Ret (q', false) /\
    write_cursor q' = sp_write s + zlen bytes /\ segments q' = segments q /\
    ring_buffer.rep BUF (data_buffer q') (payload (sp_segs s) ++ bytes).
Proof.
  intros Hr Hn Hs Hw. destruct (sq_write_fits q s flags bytes send dl sl Hr Hn) as (buf & Hb & ->).
  pose proof (zlen_nonneg bytes). pose proof (sq_data_bound q s Hr). pose proof Hr as [].
  rewrite (queue.queue_push_back_full SEGS pos_SEGS int_SEGS _ _ _ rep_segs0) by (rewrite sq_layout_len; assumption).
  simpl. eexists. split; [reflexivity|]. destruct rep_ack0, rep_write0 as [Ew _]. unfold write_cursor. simpl.
  unfold sp_write in *. rewrite Ew, u32_small by lia. auto.
Qed.

Definition sp_advance (s : spec) : spec := mk_spec (sp_ack s) (sp_segs s) (sp_read s + 1).

(** Sequence number of the next segment to hand out *)
Definition sp_next_seq (s : spec) : Z := sp_ack s + zlen (payload (take (Z.to_nat (sp_read s)) (sp_segs s))).

Lemma sq_read q s a len : rep q s -> znth (sp_segs s) (sp_read s) = Some a -> zlen (a_bytes a) <= len ->
  sp_ack s + BUF < 2 ^ 32 ->
  exists q', read_one_segment q len =
      Ret (q', Some (mk_send_segment (a_flags a) (sp_next_seq s) (zlen (a_bytes a)) (a_send a), a_bytes a)) /\
    rep q' (sp_advance s).
Proof.
  intros Hr Ha Hlen Hwrap. pose proof (sq_data_bound q s Hr) as Hdb. pose proof (sq_segs_bound q s Hr) as Hsb.
  pose proof (zlen_nonneg (a_bytes a)). pose proof (znth_Some_lt _ _ _ Ha).
  pose proof Hr as []. destruct rep_ack0 as [Eack ?], rep_read0 as [Eread ?].
  assert (aseg_ok a) as Hok.
  { apply (proj1 (Forall_forall _ _) rep_asegs0). unfold znth in Ha. destruct (0 <=? sp_read s); [|discriminate].
    eapply list_elem_of_lookup_2; eassumption. }
  destruct (sq_layout_nth (sp_segs s) (sp_ack s) (sp_read s) a Ha) as (off & Eo & El & Ho & Hle & Ht).
  unfold read_one_segment, aseg_ok, SEGS, BUF in *.
  rewrite (queue.queue_rep_len_size _ _ _ rep_segs0), sq_layout_len, (proj2 (Z.eqb_neq _ _)) by lia.
  pose proof (queue.rep_read _ _ _ rep_segs0). pose proof (queue.rep_bound _ _ _ rep_segs0).
  pose proof (queue.rep_size _ _ _ rep_segs0) as Hqs. rewrite sq_layout_len in Hqs.
  rewrite ring_buffer.to_i32_id by (unfold queue.begin, INT_MAX; lia). rewrite Eread.
  rewrite (queue.queue_at_rep 100 pos_SEGS _ _ _ _ rep_segs0 El). simpl.
  rewrite Eack, rep_wnd0, !u32_small by lia. rewrite Z.gtb_ltb, (proj2 (Z.ltb_ge _ _)) by lia.
  replace (sp_ack s + off - sp_ack s) with off by lia. rewrite Z.min_l by lia.
  rewrite !ring_buffer.to_i32_id by (unfold INT_MAX; lia).
  rewrite (ring_buffer.rb_peek _ pos_BUF int_BUF _ _ _ _ rep_data0) by (unfold BUF; lia). simpl.
  assert (take (Z.to_nat (zlen (a_bytes a))) (drop (Z.to_nat off) (payload (sp_segs s))) = a_bytes a) as ->
    by (unfold zlen; rewrite Nat2Z.id; assumption).
  rewrite passert_true by lia. simpl.
  eexists. split; [unfold sp_next_seq; rewrite Eo; reflexivity|].
  split; simpl; auto. lia.
Qed.

Lemma sq_has_readable q s : rep q s -> has_readable q = (sp_read s <? zlen (sp_segs s)).
Proof.
  intros Hr. pose proof (sq_segs_bound q s Hr). pose proof Hr as []. destruct rep_read0. unfold has_readable, SEGS in *.
  rewrite (queue.queue_rep_len_size _ _ _ rep_segs0), sq_layout_len, Z.gtb_ltb, u32_small by lia. congruence.
Qed.

(** ** Acknowledgements *)

(** Drop the segments that end at or before [n]. *)
Fixpoint ack_list (n pos : Z) (l : list aseg) (read : Z) : spec :=
  match l with
  | [] => mk_spec pos [] read
  | a :: l' =>
      if n <=? pos then mk_spec pos l read
      else if n <? pos + zlen (a_bytes a) then mk_spec pos l read
      else ack_list n (pos + zlen (a_bytes a)) l' (Z.max 0 (read - 1))
  end.

Definition sp_acked (n : Z) (s : spec) : spec := ack_list n (sp_ack s) (sp_segs s) (sp_read s).

Lemma sq_drop_front q a l pos read : rep q (mk_spec pos (a :: l) read) ->
  exists buf segs, ring_buffer.consume BUF (data_buffer q) (zlen (a_bytes a)) = Ret (buf, zlen (a_bytes a)) /\
    queue.pop_front SEGS (segments q) =
      Ret (segs, mk_send_segment (a_flags a) pos (zlen (a_bytes a)) (a_send a)) /\
    rep (mk (u32 (pos + zlen (a_bytes a))) (write_pos q)
           (if read_pos q >? 0 then read_pos q - 1 else read_pos q) (wndsz q) buf segs)
        (mk_spec (pos + zlen (a_bytes a)) l (Z.max 0 (read - 1))).
Proof.
  intros Hr. pose proof (sq_data_bound q _ Hr) as Hdb. pose proof (zlen_nonneg (a_bytes a)).
  pose proof Hr as []. simpl in *. unfold sp_write, payload in *. simpl in *. fold (payload l) in *.
  rewrite zlen_app in *. pose proof (zlen_nonneg (payload l)). destruct rep_ack0, rep_write0, rep_read0 as [Er ?].
  destruct (ring_buffer.rb_consume BUF pos_BUF int_BUF _ _ (zlen (a_bytes a)) rep_data0) as (buf & Eb & Hb).
  { rewrite zlen_app. lia. }
  destruct (queue.queue_pop_front_rep SEGS pos_SEGS int_SEGS _ _ _ rep_segs0) as (segs & Es & Hs).
  exists buf, segs. split; [assumption|]. split; [assumption|]. rewrite u32_small by lia.
  rewrite zlen_cons in *. split; simpl; auto; try lia.
  - unfold zlen in Hb. rewrite Nat2Z.id, drop_app_length in Hb. assumption.
  - unfold sp_write. simpl. fold (payload l). lia.
  - rewrite Er, Z.gtb_ltb. pose proof (zlen_nonneg l). destruct (Z.ltb_spec 0 read); lia.
  - inversion rep_asegs0. assumption.
Qed.

Lemma sq_ack_loop n l : forall q pos read fuel, rep q (mk_spec pos l read) -> (length l < fuel)%nat ->
  if n <=? pos + zlen (payload l)
  then exists q', ack_loop fuel q n = Ret q' /\ rep q' (ack_list n pos l read)
  else ack_loop fuel q n = Panic.
Proof.
  induction l as [|a l IH]; intros q pos read fuel Hr Hf; (destruct fuel as [|fuel]; [simpl in Hf; lia|]);
    cbn [ack_loop ack_list].
  - change (zlen (payload [])) with 0. rewrite Z.add_0_r. pose proof Hr as [Hsegs _ [Eack _] _ _ _ _]. simpl in *.
    rewrite Eack, Z.gtb_ltb. destruct (Z.leb_spec n pos), (Z.ltb_spec pos n); try lia.
    + exists q. auto.
    + rewrite (queue.queue_rep_len_size _ _ _ Hsegs). reflexivity.
  - pose proof (sq_drop_front q a l pos read Hr) as (buf & segs & Eb & Es & Hr').
    pose proof (sq_data_bound q _ Hr) as Hdb. unfold payload in *. simpl in *. fold (payload l) in *. rewrite zlen_app in *.
    pose proof (zlen_nonneg (a_bytes a)). pose proof (zlen_nonneg (payload l)).
    pose proof Hr as [Hsegs _ [Eack ?] [_ Hw] _ _ _]. unfold sp_write, payload in *. simpl in *. rewrite zlen_app in *.
    fold (payload l) in *. rewrite Eack, Z.gtb_ltb. destruct (Z.ltb_spec pos n) as [Hlt|Hge].
    2:{ destruct (Z.leb_spec n (pos + (zlen (a_bytes a) + zlen (payload l)))); [|lia].
        destruct (Z.leb_spec n pos); [|lia]. exists q. auto. }
    rewrite (queue.queue_rep_len_size _ _ _ Hsegs), zlen_cons, sq_layout_len.
    pose proof (zlen_nonneg l). rewrite passert_true by lia. simpl.
    rewrite (queue.queue_front_rep SEGS pos_SEGS _ _ _ Hsegs). simpl.
    rewrite u32_small by lia. rewrite Z.gtb_ltb.
    destruct (Z.leb_spec n pos); [lia|]. destruct (Z.ltb_spec n (pos + zlen (a_bytes a))) as [Hin|Hout].
    + destruct (Z.leb_spec n (pos + (zlen (a_bytes a) + zlen (payload l)))); [|lia]. exists q. auto.
    + rewrite Eb. simpl. rewrite Es. simpl. rewrite u32_small in Hr' by lia.
      specialize (IH _ _ _ fuel Hr' ltac:(lia)). rewrite Z.add_assoc. apply IH.
Qed.

Lemma sq_ack q s n : rep q s ->
  if n <=? sp_write s then exists q', ack q n = Ret q' /\ rep q' (sp_acked n s) else ack q n = Panic.
Proof.
  intros Hr. destruct s as [pos l read]. unfold ack. apply (sq_ack_loop n l q pos read); [assumption|].
  pose proof Hr as []. rewrite (queue.queue_rep_len_size _ _ _ rep_segs0), sq_layout_len. simpl. unfold zlen. lia.
Qed.

(** ** Sequences of operations *)

Inductive op :=
| OWrite (flags : Z) (bytes : list Z) (send : Z)   (* connection::transmit *)
| ORead (len : Z)
| OAck (n : Z)
| OReset (n : Z).

Inductive res :=
| RBool (b : bool)
| RSeg (r : option (tcp_send_segment * list Z))
| RUnit.

Definition step (q : t) (o : op) : outcome (t * res) :=
  match o with
  | OWrite flags bytes send =>
      '(q', b) ← write_back q (mk_send_segment flags (write_cursor q) 0 0) (Some bytes) (zlen bytes) send;
      Ret (q', RBool b)
  | ORead len => '(q', r) ← read_one_segment q len; Ret (q', RSeg r)
  | OAck n => q' ← ack q n; Ret (q', RUnit)
  | OReset n => Ret (reset q n, RUnit)
  end.

Fixpoint run (q : t) (ops : list op) : outcome (t * list res) :=
  match ops with
  | [] => Ret (q, [])
  | o :: ops' => '(q1, r) ← step q o; '(q2, rs) ← run q1 ops'; Ret (q2, r :: rs)
  end.

(** [None]: the caller or the network left the contract.  A write needs a
    free segment slot, sequence numbers must not wrap, only what has not been
    read is read, into a buffer that is large enough, and nothing beyond the
    write cursor is acknowledged. *)
Definition spec_step (s : spec) (o : op) : option (spec * res) :=
  match o with
  | OWrite flags bytes send =>
      if BUF <? zlen (payload (sp_segs s)) + zlen bytes then Some (s, RBool false)
      else if (zlen (sp_segs s) <? SEGS) && (sp_write s + zlen bytes <? 2 ^ 32) && (0 <=? send) && (send <=? zlen bytes)
      then Some (sp_append s (mk_aseg flags bytes send), RBool true) else None
  | ORead len =>
      match znth (sp_segs s) (sp_read s) with
      | Some a =>
          if (zlen (a_bytes a) <=? len) && (sp_ack s + BUF <? 2 ^ 32)
          then Some (sp_advance s, RSeg (Some (mk_send_segment (a_flags a) (sp_next_seq s) (zlen (a_bytes a)) (a_send a), a_bytes a)))
          else None
      | None => match sp_segs s with [] => Some (s, RSeg None) | _ => None end
      end
  | OAck n => if n <=? sp_write s then Some (sp_acked n s, RUnit) else None
  | OReset n => if (0 <=? n) && (n <? 2 ^ 32) then Some (mk_spec n [] 0, RUnit) else None
  end.

Fixpoint spec_run (s : spec) (ops : list op) : option (spec * list res) :=
  match ops with
  | [] => Some (s, [])
  | o :: ops' =>
      match spec_step s o with
      | None => None
      | Some (s1, r) =>
          match spec_run s1 ops' with None => None | Some (s2, rs) => Some (s2, r :: rs) end
      end
  end.

Lemma sq_step q s o s' r : rep q s -> spec_step s o = Some (s', r) ->
  exists q', step q o = Ret (q', r) /\ rep q' s'.
Proof.
  intros Hr Hs. destruct o as [flags bytes send|len|n|n]; cbn [spec_step step] in *.
  - destruct (rep_write _ _ Hr) as [Ew _]. unfold write_cursor. rewrite Ew.
    destruct (Z.ltb_spec BUF (zlen (payload (sp_segs s)) + zlen bytes)).
    + injection Hs as <- <-. rewrite (sq_write_full q s) by assumption. simpl. eauto.
    + destruct (_ && _) eqn:E; [|discriminate]. injection Hs as <- <-.
      destruct (sq_write_back q s flags bytes send 0 0 Hr) as (q' & -> & ?); [lia..|]. simpl. eauto.
  - destruct (znth (sp_segs s) (sp_read s)) as [a|] eqn:Ea.
    + destruct (_ && _) eqn:E; [|discriminate]. injection Hs as <- <-.
      destruct (sq_read q s a len Hr Ea) as (q' & -> & ?); [lia..|]. simpl. eauto.
    + destruct (sp_segs s) eqn:El; [|discriminate]. injection Hs as <- <-. unfold read_one_segment.
      pose proof Hr as []. rewrite (queue.queue_rep_len_size _ _ _ rep_segs0), sq_layout_len, El. simpl. eauto.
  - pose proof (sq_ack q s n Hr) as Ha. destruct (n <=? sp_write s); [|discriminate].
    injection Hs as <- <-. destruct Ha as (q' & -> & ?). simpl. eauto.
  - destruct (_ && _) eqn:E; [|discriminate]. injection Hs as <- <-.
    eexists. split; [reflexivity|]. eapply sq_reset; [eassumption|lia].
Qed.

Lemma sq_run ops : forall q s s' rs, rep q s -> spec_run s ops = Some (s', rs) ->
  exists q', run q ops = Ret (q', rs) /\ rep q' s'.
Proof.
  induction ops as [|o ops IH]; intros q s s' rs Hr Hs; simpl in *.
  - injection Hs as <- <-. eauto.
  - destruct (spec_step s o) as [[s1 r]|] eqn:E1; [|discriminate].
    destruct (spec_run s1 ops) as [[s2 rs2]|] eqn:E2; [|discriminate]. injection Hs as <- <-.
    destruct (sq_step q s o s1 r Hr E1) as (q1 & -> & Hr1). simpl.
    destruct (IH q1 s1 s2 rs2 Hr1 E2) as (q2 & -> & Hr2). simpl. eauto.
Qed.

Lemma sq_init : rep init (mk_spec 0 [] 0).
Proof.
  assert (rep (mk 0 0 0 0xFFFF (queue.init (replicate (Z.to_nat BUF) 0))
           (queue.init (replicate (Z.to_nat SEGS) (mk_send_segment 0 0 0 0)))) (mk_spec 0 [] 0)) as H.
  { split; cbn [segments data_buffer ack_pos write_pos read_pos wndsz sp_ack sp_segs sp_read]; try lia.
    - apply queue.queue_rep_init; [apply pos_SEGS|]. rewrite zlen_replicate. reflexivity.
    - apply queue.queue_rep_init; [apply pos_BUF|]. rewrite zlen_replicate. reflexivity.
    - unfold sp_write. simpl. change (zlen (payload [])) with 0. lia.
    - change (zlen []) with 0. lia.
    - constructor. }
  eapply sq_reset; [exact H|lia].
Qed.

(** What an acknowledgement removes: a prefix of the bytes, never beyond the
    acknowledged position, ending where a segment that is only partly
    acknowledged begins. *)
Lemma sq_ack_list n l : forall pos read, pos + zlen (payload l) >= n -> 0 <= read <= zlen l ->
  let s := ack_list n pos l read in
  exists dropped, payload l = dropped ++ payload (sp_segs s) /\ sp_ack s = pos + zlen dropped /\
    sp_ack s <= Z.max pos n /\ 0 <= sp_read s <= zlen (sp_segs s) /\
    (forall a rest, sp_segs s = a :: rest -> sp_ack s < n -> n < sp_ack s + zlen (a_bytes a)).
Proof.
  induction l as [|a l IH]; intros pos read Hn Hread; cbn [ack_list].
  - exists []. change (zlen (payload [])) with 0 in Hn. change (zlen []) with 0 in *. cbn [sp_segs sp_ack sp_read app]. change (zlen (@nil Z)) with 0. change (zlen (@nil aseg)) with 0.
    repeat split; try lia.
  - destruct (Z.leb_spec n pos); [|destruct (Z.ltb_spec n (pos + zlen (a_bytes a)))].
    + exists []. change (zlen (@nil Z)) with 0. simpl. repeat split; try lia.
    + exists []. change (zlen (@nil Z)) with 0. simpl. repeat split; try lia. intros b rest [= <- <-] _. lia.
    + unfold payload in Hn. simpl in Hn. fold (payload l) in Hn. rewrite zlen_app in Hn. rewrite zlen_cons in Hread.
      pose proof (zlen_nonneg l).
      destruct (IH (pos + zlen (a_bytes a)) (Z.max 0 (read - 1))) as (d & E & Hack & Hle & Hrd & Hlast); [lia|lia|].
      exists (a_bytes a ++ d). rewrite zlen_app. unfold payload at 1. simpl. fold (payload l). rewrite E, app_assoc.
      repeat split; auto; lia.
Qed.
End send_queue.

Import send_queue.

(** C11: the send queue is a retransmission queue.  Under the contract of
    [spec_step], every sequence of writes, reads, acknowledgements and resets
    returns what the abstract queue returns: reads hand out the segments in
    the order they were written, each with its own bytes and the sequence
    number of its first byte; an acknowledgement drops exactly the segments
    it covers and leaves the others for retransmission; no assertion fails. *)
Theorem send_queue_refines (ops : list op) (s : spec) (rs : list res) :
  spec_run (mk_spec 0 [] 0) ops = Some (s, rs) ->
  exists q, run init ops = Ret (q, rs) /\ write_cursor q = sp_write s /\
    has_readable q = (sp_read s <? zlen (sp_segs s)).
Proof.
  intros Hs. destruct (sq_run ops _ _ _ _ sq_init Hs) as (q & -> & Hr).
  exists q. split; [reflexivity|]. split; [apply (rep_write _ _ Hr)|]. apply sq_has_readable. assumption.
Qed.

Lemma send_queue_refines_witness :
  exists q, run init [OReset 1000; OWrite 2 [33] 0; OWrite 0 [1; 2; 3] 3; ORead 20480; OAck 1002; ORead 20480] =
    Ret (q, [RUnit; RBool true; RBool true; RSeg (Some (mk_send_segment 2 1000 1 0, [33])); RUnit;
             RSeg (Some (mk_send_segment 0 1001 3 3, [1; 2; 3]))]) /\
    write_cursor q = 1004 /\ has_readable q = (1 <? 1).
Proof.
  apply (send_queue_refines [OReset 1000; OWrite 2 [33] 0; OWrite 0 [1; 2; 3] 3; ORead 20480; OAck 1002; ORead 20480]
           (mk_spec 1001 [mk_aseg 0 [1; 2; 3] 3] 1)).
  vm_compute. reflexivity.
Defined.

(** Cumulative acknowledgement.  For every queue that represents an
    abstract queue and every acknowledgement number up to the write cursor,
    [ack] removes a prefix of the unacknowledged bytes, none of them beyond
    the number, and stops only in front of a segment that is not covered
    completely; the remaining bytes and segments are untouched.  A number
    beyond the write cursor, which any peer can send, fails the assertion. *)
Theorem send_queue_ack_cumulative (q : t) (s : spec) (n : Z) :
  rep q s ->
  (n <= sp_write s -> exists q' dropped, ack q n = Ret q' /\ rep q' (sp_acked n s) /\
     payload (sp_segs s) = dropped ++ payload (sp_segs (sp_acked n s)) /\
     ack_pos q' = ack_pos q + zlen dropped /\ ack_pos q' <= Z.max (ack_pos q) n /\
     (forall a rest, sp_segs (sp_acked n s) = a :: rest -> ack_pos q' < n -> n < ack_pos q' + zlen (a_bytes a))) /\
  (sp_write s < n -> ack q n = Panic).
Proof.
  intros Hr. pose proof (sq_ack q s n Hr) as Ha. pose proof (rep_ack _ _ Hr) as [Eack _]. split; intros Hn.
  - rewrite (proj2 (Z.leb_le _ _)) in Ha by lia. destruct Ha as (q' & E & Hr').
    destruct (sq_ack_list n (sp_segs s) (sp_ack s) (sp_read s)) as (d & Ed & Hd & Hle & _ & Hlast).
    { unfold sp_write in Hn. lia. }
    { apply (rep_read _ _ Hr). }
    fold (sp_acked n s) in *. pose proof (rep_ack _ _ Hr') as [Eack' _].
    exists q', d. rewrite Eack, Eack'. auto 10.
  - rewrite (proj2 (Z.leb_gt _ _)) in Ha by lia. assumption.
Qed.

Lemma send_queue_ack_cumulative_witness : ack (reset init 7) 8 = Panic.
Proof.
  apply (send_queue_ack_cumulative (reset init 7) (mk_spec 7 [] 0) 8).
  - eapply sq_reset; [apply sq_init|lia].
  - vm_compute. reflexivity.
Defined.
