(* ===== verification/ReceiveQueue.v ===== *)
(** * net::tcp::receive_queue (libraries/net/tcp/receive_queue.{h,cc})

    Puts the segments of a connection back in order: a pool of segment
    records, not sorted, over a ring buffer of bytes addressed relative to the
    read cursor.  The invariant [inv] says, for a byte stream [M], that each
    pending record describes bytes of [M] that are in the buffer. *)

From Stdlib Require Import Sorted.
From S2P Require Import Prelude Queue RingBuffer Pool.
From stdpp Require Import gmap list.
#[local] Open Scope Z_scope.

Record tcp_recv_segment := mk_recv_segment { rs_flags : Z; rs_seqnbr : Z; rs_length : Z }.

Module receive_queue.

Record t := mk {
  segments : fixed_pool tcp_recv_segment;   (* p2::fixed_pool<tcp_recv_segment, 200> *)
  data_buffer : ring_buffer.t;              (* p2::ring_buffer<0xFFFF> *)
  read_cursor : Z
}.

Definition BUF : Z := 0xFFFF.
Definition SEGS : Z := 200.
Definition SEQ_MAX : Z := 0xFFFFFFFF.

Definition init : t := mk (new_fixed_pool SEGS) (queue.init (replicate (Z.to_nat BUF) 0)) 0.

Definition reset (q : t) (seqnbr : Z) : t :=
  mk (pool.clear U16_MAX (segments q)) (ring_buffer.clear (data_buffer q)) seqnbr.

(** The two range checks of [insert] *)
Definition out_of_window (q : t) (seqnbr : Z) : bool :=
  if u32 (SEQ_MAX - read_cursor q) <? ring_buffer.capacity BUF
  then (seqnbr <? read_cursor q) && (seqnbr >=? u32 (read_cursor q + ring_buffer.capacity BUF))
  else seqnbr <? read_cursor q.

Definition insert (q : t) (segment : tcp_recv_segment) (data : list Z) : outcome (t * bool) :=
  if pool.full (segments q) then Ret (q, false)
  else if out_of_window q (rs_seqnbr segment) then Ret (q, false)
  else
    '(buf, ok) ← ring_buffer.write BUF (data_buffer q) data (to_i32 (rs_seqnbr segment - read_cursor q));
    if negb ok then Ret (mk (segments q) buf (read_cursor q), false)
    else
      '(segs, idx) ← pool.emplace_anywhere U16_MAX (segments q) segment;
      segs' ← pool.modify U16_MAX segs idx (fun s => mk_recv_segment (rs_flags s) (rs_seqnbr s) (zlen data));
      Ret (mk segs' buf (read_cursor q), true).

(** The loop of [find_front_segment]; [best] is [lowest_it], [None] for the end. *)
Fixpoint find_front (l : list (Z * tcp_recv_segment)) (lowest_seq : Z) (best : option Z) : option Z :=
  match l with
  | [] => best
  | (i, s) :: l' =>
      if rs_seqnbr s <? lowest_seq then find_front l' (rs_seqnbr s) (Some i) else find_front l' lowest_seq best
  end.

Definition find_front_segment (q : t) : outcome Z :=
  match find_front (pool.entries U16_MAX (segments q)) SEQ_MAX None with
  | Some i => Ret i
  | None => Panic
  end.

(** The segment and the bytes written to [buffer]; the function returns true. *)
Definition read_one_segment (q : t) (len : Z) : outcome (t * (tcp_recv_segment * list Z)) :=
  front ← find_front_segment q;
  seg ← pool.get U16_MAX (segments q) (u16 front);
  passert (rs_seqnbr seg =? read_cursor q);;
  '(buf, bytes) ← ring_buffer.read_front BUF (data_buffer q) (Z.min len (rs_length seg));
  passert (zlen bytes =? rs_length seg);;
  segs ← pool.erase U16_MAX (segments q) (u16 front);
  Ret (mk segs buf (u32 (read_cursor q + rs_length seg)), (seg, bytes)).

Definition readable_until (q : t) : outcome Z :=
  if pool.size (segments q) =? 0 then Ret (read_cursor q)
  else
    front ← find_front_segment q;
    seg ← pool.get U16_MAX (segments q) front;
    if rs_seqnbr seg =? read_cursor q then Ret (u32 (read_cursor q + rs_length seg)) else Ret (read_cursor q).

Definition has_readable (q : t) : outcome bool :=
  if pool.size (segments q) =? 0 then Ret false
  else
    front ← find_front_segment q;
    seg ← pool.get U16_MAX (segments q) front;
    Ret (rs_seqnbr seg =? read_cursor q).

(** ** The front segment has the lowest sequence number *)

Lemma rq_find_front l : forall low best,
  match find_front l low best with
  | Some i => (Some i = best /\ forall j s, (j, s) ∈ l -> low <= rs_seqnbr s) \/
      exists s, (i, s) ∈ l /\ rs_seqnbr s < low /\ forall j s', (j, s') ∈ l -> rs_seqnbr s <= rs_seqnbr s'
  | None => best = None /\ forall j s, (j, s) ∈ l -> low <= rs_seqnbr s
  end.
Proof.
  induction l as [|[i s] l IH]; intros low best; cbn [find_front].
  - destruct best as [b|]; [left|]; (split; [reflexivity|]); intros j s Hj; apply not_elem_of_nil in Hj; done.
  - destruct (Z.ltb_spec (rs_seqnbr s) low) as [Hlt|Hge].
    + specialize (IH (rs_seqnbr s) (Some i)). destruct (find_front l (rs_seqnbr s) (Some i)) as [k|]; [|destruct IH; discriminate].
      right. destruct IH as [[[= ->] Hall]|(s' & Hin & Hlt' & Hall)].
      * exists s. split; [apply list_elem_of_here|]. split; [assumption|].
        intros j s' Hj. apply elem_of_cons in Hj. destruct Hj as [[= -> ->]|Hj]; [lia|eauto].
      * exists s'. split; [apply list_elem_of_further; assumption|]. split; [lia|].
        intros j s2 Hj. apply elem_of_cons in Hj. destruct Hj as [[= -> ->]|Hj]; [lia|eauto].
    + specialize (IH low best). destruct (find_front l low best) as [k|].
      * destruct IH as [[E Hall]|(s' & Hin & Hlt' & Hall)]; [left|right].
        -- split; [assumption|]. intros j s' Hj. apply elem_of_cons in Hj. destruct Hj as [[= -> ->]|Hj]; [lia|eauto].
        -- exists s'. split; [apply list_elem_of_further; assumption|]. split; [assumption|].
           intros j s2 Hj. apply elem_of_cons in Hj. destruct Hj as [[= -> ->]|Hj]; [lia|eauto].
      * destruct IH as [-> Hall]. split; [reflexivity|].
        intros j s' Hj. apply elem_of_cons in Hj. destruct Hj as [[= -> ->]|Hj]; [lia|eauto].
Qed.

(** On a queue with a segment below the largest sequence number, the front is
    found and is minimal. *)
Lemma rq_front q m i0 s0 : fp_model (segments q) m -> m !! i0 = Some s0 -> rs_seqnbr s0 < SEQ_MAX ->
  exists i s, find_front_segment q = Ret i /\ m !! i = Some s /\
    forall j s', m !! j = Some s' -> rs_seqnbr s <= rs_seqnbr s'.
Proof.
  intros [fl Hr] Hi0 Hlt. unfold find_front_segment.
  pose proof (rq_find_front (pool.entries U16_MAX (segments q)) SEQ_MAX None) as Hf.
  assert (forall j s, (j, s) ∈ pool.entries U16_MAX (segments q) <-> m !! j = Some s) as He
    by (intros; eapply pool.pool_entries_elem; eassumption).
  destruct (find_front _ SEQ_MAX None) as [i|].
  - destruct Hf as [[[=] _]|(s & Hin & _ & Hall)]. exists i, s. split; [reflexivity|].
    split; [apply He; assumption|]. intros j s' Hj. apply (Hall j). apply He. assumption.
  - destruct Hf as [_ Hall]. apply He in Hi0. apply Hall in Hi0. lia.
Qed.

Lemma rq_nonempty q m i s : fp_model (segments q) m -> m !! i = Some s -> (pool.size (segments q) =? 0) = false.
Proof.
  intros [fl Hr] Hi. rewrite (pool.pool_size _ _ _ _ Hr). apply Z.eqb_neq.
  assert (base.size m <> 0%nat) by (intros Hz; apply map_size_empty_iff in Hz; subst; done). lia.
Qed.

Lemma rq_has_readable q m i0 s0 : fp_model (segments q) m -> m !! i0 = Some s0 -> rs_seqnbr s0 < SEQ_MAX ->
  exists i s, has_readable q = Ret (rs_seqnbr s =? read_cursor q) /\ find_front_segment q = Ret i /\
    m !! i = Some s /\ forall j s', m !! j = Some s' -> rs_seqnbr s <= rs_seqnbr s'.
Proof.
  intros Hm Hi0 Hlt. destruct (rq_front q m i0 s0 Hm Hi0 Hlt) as (i & s & E & Hi & Hall).
  exists i, s. unfold has_readable. rewrite (rq_nonempty q m i0 s0 Hm Hi0), E. simpl.
  destruct Hm as [fl Hr]. rewrite (pool.pool_get _ _ _ _ _ _ Hr Hi). auto.
Qed.

(** ** Stale segments *)

(** A successful insertion keeps the segments that are pending. *)
Lemma rq_insert_keeps q m seg data q' b i s : fp_model (segments q) m -> m !! i = Some s ->
  insert q seg data = Ret (q', b) ->
  exists m', fp_model (segments q') m' /\ m' !! i = Some s /\ read_cursor q' = read_cursor q.
Proof.
  intros Hm Hi. unfold insert. pose proof Hm as [fl Hr]. rewrite (pool.pool_full _ _ _ _ Hr).
  destruct (Z.leb_spec (pool.capacity (segments q)) (Z.of_nat (base.size m))) as [|Hroom].
  { intros [= <- <-]. eauto. }
  destruct (out_of_window q (rs_seqnbr seg)); [intros [= <- <-]; eauto|].
  destruct (ring_buffer.write BUF (data_buffer q) data _) as [[buf ok]| | |]; simpl; try discriminate.
  destruct ok; simpl; [|intros [= <- <-]; eauto].
  destruct (pool.pool_emplace_anywhere _ _ _ _ seg Hr Hroom) as (p & fl' & idx & -> & Hr' & Hidx & _ & _). simpl.
  destruct (pool.pool_modify _ _ _ _ idx seg
    (fun s => mk_recv_segment (rs_flags s) (rs_seqnbr s) (zlen data)) Hr') as (p2 & -> & Hr2 & _);
    [apply lookup_insert_eq|]. simpl. intros [= <- <-].
  eexists. split; [exists fl'; exact Hr2|]. rewrite !lookup_insert_ne by congruence. auto.
Qed.

Fixpoint insert_all (q : t) (l : list (tcp_recv_segment * list Z)) : outcome t :=
  match l with
  | [] => Ret q
  | (seg, data) :: rest => '(q', _) ← insert q seg data; insert_all q' rest
  end.

Lemma rq_insert_all_keeps l : forall q m q' i s, fp_model (segments q) m -> m !! i = Some s ->
  insert_all q l = Ret q' ->
  exists m', fp_model (segments q') m' /\ m' !! i = Some s /\ read_cursor q' = read_cursor q.
Proof.
  induction l as [|[seg data] l IH]; intros q m q' i s Hm Hi E; simpl in E.
  - injection E as <-. eauto.
  - destruct (insert q seg data) as [[q1 b]| | |] eqn:E1; try discriminate. simpl in E.
    destruct (rq_insert_keeps q m seg data q1 b i s Hm Hi E1) as (m1 & Hm1 & Hi1 & <-). eauto.
Qed.

(** ** Reordering *)

Definition overlap (a n b k : Z) : Prop := a < b + k /\ b < a + n.

Record inv (q : t) (M : list Z) (base : Z) (m : gmap Z tcp_recv_segment) : Prop := {
  inv_model : fp_model (segments q) m;
  inv_cap : pool.capacity (segments q) = SEGS;
  inv_base : 0 <= base /\ base + zlen M + BUF < SEQ_MAX;
  inv_cursor : base <= read_cursor q <= base + zlen M;
  inv_pending : forall i s, m !! i = Some s ->
    read_cursor q <= rs_seqnbr s /\ 0 < rs_length s /\ rs_seqnbr s + rs_length s <= base + zlen M;
  inv_disjoint : forall i j s r, m !! i = Some s -> m !! j = Some r -> i <> j ->
    ~ overlap (rs_seqnbr s) (rs_length s) (rs_seqnbr r) (rs_length r);
  inv_data : exists l, ring_buffer.rep BUF (data_buffer q) l /\
    forall i s, m !! i = Some s -> forall j, 0 <= j < rs_length s ->
      znth l (rs_seqnbr s + j - read_cursor q) = znth M (rs_seqnbr s + j - base)
}.

Lemma rq_BUF_pos : 0 < BUF.
Proof. reflexivity. Qed.
Lemma rq_BUF_int : 3 * BUF <= INT_MAX.
Proof. vm_compute. congruence. Qed.

Definition piece (M : list Z) (off n : Z) : list Z := take (Z.to_nat n) (drop (Z.to_nat off) M).

Lemma rq_piece_len M off n : 0 <= off -> 0 <= n -> off + n <= zlen M -> zlen (piece M off n) = n.
Proof. unfold piece, zlen. intros. rewrite length_take, length_drop. lia. Qed.

Lemma rq_piece_nth M off n j : 0 <= off -> 0 <= j < n -> znth (piece M off n) j = znth M (off + j).
Proof.
  intros Ho Hj. unfold piece, znth. rewrite !(proj2 (Z.leb_le 0 _)) by lia.
  rewrite lookup_take_lt, lookup_drop by lia. f_equal. lia.
Qed.

Lemma rq_insert q M base m flags off n : inv q M base m -> Z.of_nat (base.size m) < SEGS ->
  read_cursor q <= base + off -> 0 < n -> off + n <= zlen M -> base + off + n - read_cursor q <= BUF ->
  (forall i s, m !! i = Some s -> ~ overlap (base + off) n (rs_seqnbr s) (rs_length s)) ->
  exists q' i, insert q (mk_recv_segment flags (base + off) 0) (piece M off n) = Ret (q', true) /\
    m !! i = None /\ inv q' M base (<[i := mk_recv_segment flags (base + off) n]> m) /\
    read_cursor q' = read_cursor q.
Proof.
  intros [[fl Hr] Hcap [Hb Hwrap] Hcur Hpend Hdis (l & Hl & Hdata)] Hroom Hoff Hn Hend Hwin Hnew.
  pose proof (rq_piece_len M off n ltac:(lia) ltac:(lia) Hend) as Hlen. unfold BUF, SEQ_MAX, SEGS in *.
  unfold insert. rewrite (pool.pool_full _ _ _ _ Hr), (proj2 (Z.leb_gt _ _)) by lia.
  unfold out_of_window, ring_buffer.capacity, SEQ_MAX, BUF. simpl rs_seqnbr.
  rewrite (u32_small (_ - _)) by lia. rewrite (proj2 (Z.ltb_ge _ 65535)), (proj2 (Z.ltb_ge (base + off) _)) by lia.
  rewrite ring_buffer.to_i32_id by (unfold INT_MAX; lia).
  destruct (ring_buffer.rb_write 65535 rq_BUF_pos rq_BUF_int _ l (piece M off n) (base + off - read_cursor q) Hl)
    as (buf & -> & Hl'); [lia|lia|]. simpl.
  destruct (pool.pool_emplace_anywhere _ _ _ _ (mk_recv_segment flags (base + off) 0) Hr)
    as (p & fl' & idx & -> & Hr' & Hidx & _ & Hc1); [lia|]. simpl.
  destruct (pool.pool_modify _ _ _ _ idx (mk_recv_segment flags (base + off) 0)
    (fun s => mk_recv_segment (rs_flags s) (rs_seqnbr s) (zlen (piece M off n))) Hr') as (p2 & -> & Hr2 & Hc2);
    [apply lookup_insert_eq|]. simpl in *. rewrite insert_insert_eq, Hlen in Hr2.
  eexists _, idx. split; [reflexivity|]. split; [assumption|]. split; [|reflexivity].
  split; simpl; auto; try (unfold SEGS, SEQ_MAX, BUF; lia).
  - exists fl'. exact Hr2.
  - intros i s Hi. apply lookup_insert_Some in Hi. destruct Hi as [[<- <-]|[_ Hi]]; [simpl; lia|eauto].
  - intros i j s r Hi Hj Hne. rewrite lookup_insert_Some in Hi, Hj.
    destruct Hi as [[<- <-]|[_ Hi]], Hj as [[<- <-]|[_ Hj]]; simpl; eauto; try congruence.
    specialize (Hnew i s Hi). unfold overlap in *. lia.
  - exists (overlay 0 l (base + off - read_cursor q) (piece M off n)). split; [assumption|].
    intros i s Hi j Hj. rewrite znth_overlay, Hlen by lia. apply lookup_insert_Some in Hi.
    destruct Hi as [[<- <-]|[_ Hi]]; simpl in *.
    + zb_case (base + off - read_cursor q <=? base + off + j - read_cursor q).
      zb_case (base + off + j - read_cursor q <? base + off - read_cursor q + n). simpl.
      rewrite rq_piece_nth by lia. f_equal. lia.
    + specialize (Hnew i s Hi). pose proof (Hpend i s Hi). unfold overlap in Hnew.
      assert (~ (base + off - read_cursor q <= rs_seqnbr s + j - read_cursor q < base + off - read_cursor q + n)) as Hout by lia.
      replace (_ && _) with false by lia. specialize (Hdata i s Hi j Hj).
      destruct (znth_lt_Some M (rs_seqnbr s + j - base)) as [x Hx]; [lia|].
      pose proof (znth_Some_lt l _ x (eq_trans Hdata Hx)). zb_case (rs_seqnbr s + j - read_cursor q <? zlen l).
      assumption.
Qed.

(** Reading the segment at the cursor *)
Lemma rq_read q M base m i s len : inv q M base m -> m !! i = Some s -> rs_seqnbr s = read_cursor q ->
  rs_length s <= len ->
  exists q', read_one_segment q len = Ret (q', (s, piece M (read_cursor q - base) (rs_length s))) /\
    inv q' M base (delete i m) /\ read_cursor q' = read_cursor q + rs_length s.
Proof.
  intros Hinv Hi Hs Hlen. pose proof Hinv as [Hm Hcap [Hb Hwrap] Hcur Hpend Hdis (l & Hl & Hdata)].
  pose proof (Hpend i s Hi) as (_ & Hpos & Hend). unfold BUF, SEQ_MAX, SEGS in *.
  destruct (rq_front q m i s Hm Hi ltac:(unfold SEQ_MAX; lia)) as (f & s' & Ef & Hf & Hmin).
  assert (f = i) as ->.
  { destruct (decide (f = i)) as [|Hne]; [assumption|exfalso]. apply (Hdis f i s' s Hf Hi Hne).
    pose proof (Hpend f s' Hf). pose proof (Hmin i s Hi). unfold overlap. lia. }
  assert (s' = s) as -> by congruence. destruct Hm as [fl Hr].
  pose proof (pool.rep_dom _ _ _ _ Hr i (ex_intro _ s Hi)). pose proof (pool.rep_wm _ _ _ _ Hr).
  unfold pool.capacity in Hcap. unfold read_one_segment. rewrite Ef. simpl. rewrite u16_small by lia.
  rewrite (pool.pool_get _ _ _ _ _ _ Hr Hi). simpl. rewrite passert_true by lia. simpl. rewrite Z.min_r by lia.
  destruct (ring_buffer.rb_read_front BUF rq_BUF_pos rq_BUF_int _ l (rs_length s) Hl ltac:(lia)) as (buf & -> & Hl'). simpl.
  assert (rs_length s <= zlen l) as Hll.
  { specialize (Hdata i s Hi (rs_length s - 1) ltac:(lia)).
    destruct (znth_lt_Some M (rs_seqnbr s + (rs_length s - 1) - base)) as [x Hx]; [lia|].
    pose proof (znth_Some_lt l _ x (eq_trans Hdata Hx)). lia. }
  assert (take (Z.to_nat (rs_length s)) l = piece M (read_cursor q - base) (rs_length s)) as Ebytes.
  { apply znth_eq.
    - rewrite rq_piece_len by lia. unfold zlen in *. rewrite length_take. lia.
    - intros k Hk. assert (k < rs_length s) by (unfold zlen in *; rewrite length_take in Hk; lia).
      rewrite rq_piece_nth by lia. specialize (Hdata i s Hi k ltac:(lia)).
      replace (rs_seqnbr s + k - read_cursor q) with k in Hdata by lia.
      replace (read_cursor q - base + k) with (rs_seqnbr s + k - base) by lia. rewrite <-Hdata.
      unfold znth. rewrite (proj2 (Z.leb_le 0 k)) by lia. apply lookup_take_lt. lia. }
  rewrite Ebytes, rq_piece_len by lia. rewrite passert_true by lia. simpl.
  destruct (pool.pool_erase _ _ _ _ _ _ Hr Hi) as (p & fl' & -> & Hr' & Hc'). simpl.
  rewrite u32_small by lia. eexists. split; [reflexivity|]. split; [|reflexivity].
  split; simpl; auto; try (unfold pool.capacity in *; unfold SEGS, SEQ_MAX, BUF; lia).
  - exists fl'. exact Hr'.
  - intros j r Hj. apply lookup_delete_Some in Hj. destruct Hj as [Hne Hj].
    pose proof (Hpend j r Hj). pose proof (Hdis i j s r Hi Hj Hne). unfold overlap in *. lia.
  - intros a b x y Ha Hb'. rewrite lookup_delete_Some in Ha, Hb'. destruct Ha, Hb'. eauto.
  - exists (drop (Z.to_nat (rs_length s)) l). split; [assumption|].
    intros j r Hj k Hk. apply lookup_delete_Some in Hj. destruct Hj as [Hne Hj].
    pose proof (Hpend j r Hj). pose proof (Hdis i j s r Hi Hj Hne). unfold overlap in *.
    rewrite <-(Hdata j r Hj k Hk). unfold znth. rewrite !(proj2 (Z.leb_le 0 _)) by lia.
    rewrite lookup_drop. f_equal. lia.
Qed.

(** The reading loop of [connection::step] *)
Fixpoint drain (fuel : nat) (q : t) (len : Z) : outcome (t * list Z) :=
  match fuel with
  | O => NoFuel
  | S fuel' =>
      b ← has_readable q;
      if b : bool then
        '(q1, (_, bytes)) ← read_one_segment q len;
        '(q2, rest) ← drain fuel' q1 len;
        Ret (q2, bytes ++ rest)
      else Ret (q, [])
  end.

Definition drained (q : t) (m : gmap Z tcp_recv_segment) : Prop :=
  forall i s, m !! i = Some s -> rs_seqnbr s <> read_cursor q.

(** Positions that are pending *)
Definition pending (base : Z) (m : gmap Z tcp_recv_segment) (x : Z) : Prop :=
  exists i s, m !! i = Some s /\ rs_seqnbr s - base <= x < rs_seqnbr s + rs_length s - base.

Lemma rq_piece_split M c n k : 0 <= c -> 0 <= n -> 0 <= k -> c + n + k <= zlen M ->
  piece M c n ++ piece M (c + n) k = piece M c (n + k).
Proof.
  intros. unfold piece. replace (Z.to_nat (c + n)) with (Z.to_nat c + Z.to_nat n)%nat by lia.
  rewrite <-drop_drop. replace (Z.to_nat (n + k)) with (Z.to_nat n + Z.to_nat k)%nat by lia.
  apply take_take_drop.
Qed.

Lemma rq_has_readable_false q m : fp_model (segments q) m -> m = ∅ -> has_readable q = Ret false.
Proof. intros [fl Hr] ->. unfold has_readable. rewrite (pool.pool_size _ _ _ _ Hr). reflexivity. Qed.

Lemma rq_drain M base len : forall fuel q m, inv q M base m -> (base.size m < fuel)%nat ->
  (forall i s, m !! i = Some s -> rs_length s <= len) ->
  exists q' m' n, drain fuel q len = Ret (q', piece M (read_cursor q - base) n) /\ inv q' M base m' /\
    0 <= n /\ read_cursor q' = read_cursor q + n /\ drained q' m' /\ (base.size m' <= base.size m)%nat /\
    (forall i s, m' !! i = Some s -> rs_length s <= len) /\
    (forall x, pending base m x <-> (read_cursor q - base <= x < read_cursor q - base + n) \/ pending base m' x).
Proof.
  induction fuel as [|fuel IH]; intros q m Hinv Hf Hlen; [lia|]. cbn [drain].
  assert (forall v, has_readable q = Ret v -> v = false ->
    drained q m -> exists q' m' n, (b ← has_readable q;
      if b : bool then '(q1, (_, bytes)) ← read_one_segment q len;
        '(q2, rest) ← drain fuel q1 len; Ret (q2, bytes ++ rest)
      else Ret (q, [])) = Ret (q', piece M (read_cursor q - base) n) /\ inv q' M base m' /\
    0 <= n /\ read_cursor q' = read_cursor q + n /\ drained q' m' /\ (base.size m' <= base.size m)%nat /\
    (forall i s, m' !! i = Some s -> rs_length s <= len) /\
    (forall x, pending base m x <-> (read_cursor q - base <= x < read_cursor q - base + n) \/ pending base m' x)) as Hstop.
  { intros v -> -> Hd. simpl. exists q, m, 0. split; [reflexivity|]. split; [assumption|].
    repeat (split; [lia || assumption|]). intros x. split; [auto|intros [?|?]; [lia|assumption]]. }
  destruct (decide (m = ∅)) as [->|Hne].
  { apply (Hstop false); [|reflexivity|intros i s Hi; rewrite lookup_empty in Hi; discriminate].
    apply (rq_has_readable_false q ∅); [apply Hinv|reflexivity]. }
  apply map_choose in Hne. destruct Hne as (i0 & s0 & Hi0). pose proof Hinv as [Hm _ [Hb Hwrap] Hcur Hpend Hdis _].
  pose proof (Hpend i0 s0 Hi0). unfold BUF, SEQ_MAX in *.
  destruct (rq_has_readable q m i0 s0 Hm Hi0) as (i & s & Ehr & _ & Hi & Hmin); [unfold SEQ_MAX; lia|].
  destruct (Z.eqb_spec (rs_seqnbr s) (read_cursor q)) as [Heq|Hneq].
  2:{ apply (Hstop _ Ehr eq_refl). intros j r Hj. pose proof (Hmin j r Hj). pose proof (Hpend i s Hi). lia. }
  rewrite Ehr. simpl. destruct (Hpend i s Hi) as (_ & Hpos & Hend).
  destruct (rq_read q M base m i s len Hinv Hi Heq (Hlen i s Hi)) as (q1 & -> & Hinv1 & Hc1). simpl.
  assert (base.size (delete i m) < base.size m)%nat as Hsz.
  { rewrite map_size_delete_Some by eauto.
    assert (base.size m <> 0%nat) by (intros Hz; apply map_size_empty_iff in Hz; subst; done). lia. }
  destruct (IH q1 (delete i m) Hinv1 ltac:(lia)) as (q2 & m2 & n & -> & Hinv2 & Hn & Hc2 & Hd2 & Hsz2 & Hlen2 & Hp2).
  { intros j r Hj. apply lookup_delete_Some in Hj. destruct Hj. eauto. }
  simpl. exists q2, m2, (rs_length s + n). pose proof (inv_cursor _ _ _ _ Hinv2).
  rewrite Hc1. replace (read_cursor q + rs_length s - base) with (read_cursor q - base + rs_length s) by lia.
  rewrite rq_piece_split by lia. split; [reflexivity|]. split; [assumption|]. split; [lia|]. split; [lia|].
  split; [assumption|]. split; [lia|]. split; [assumption|].
  intros x. rewrite Hc1 in Hp2. split.
  - intros (j & r & Hj & Hx). destruct (decide (i = j)) as [<-|Hij].
    + assert (r = s) as -> by congruence. left. lia.
    + destruct (proj1 (Hp2 x)) as [?|?]; [exists j, r; rewrite lookup_delete_ne by assumption; auto|left; lia|auto].
  - intros Hx. assert ((read_cursor q - base <= x < read_cursor q - base + rs_length s) \/
      ((read_cursor q + rs_length s - base <= x < read_cursor q + rs_length s - base + n) \/ pending base m2 x)) as [Hx'|Hx']
      by (destruct Hx; [lia|auto]).
    + exists i, s. split; [assumption|lia].
    + apply Hp2 in Hx'. destruct Hx' as (j & r & Hj & Hr). apply lookup_delete_Some in Hj. destruct Hj.
      exists j, r. auto.
Qed.

(** Pieces of the stream arriving one after the other, each followed by the
    reading loop; the bytes delivered in all *)
Fixpoint receive (q : t) (M : list Z) (base len : Z) (l : list (Z * Z)) : outcome (t * list Z) :=
  match l with
  | [] => Ret (q, [])
  | (off, n) :: rest =>
      '(q1, _) ← insert q (mk_recv_segment 0 (base + off) 0) (piece M off n);
      '(q2, bytes) ← drain (S (Z.to_nat (pool.size (segments q1)))) q1 len;
      '(q3, more) ← receive q2 M base len rest;
      Ret (q3, bytes ++ more)
  end.

Definition covered (l : list (Z * Z)) (x : Z) : Prop := exists p, p ∈ l /\ p.1 <= x < p.1 + p.2.

Definition apart (l : list (Z * Z)) (p : Z * Z) : Prop :=
  forall r, r ∈ l -> r.1 + r.2 <= p.1 \/ p.1 + p.2 <= r.1.

(** Pieces of a message, pairwise apart *)
Fixpoint pieces_ok (M : list Z) (len : Z) (past l : list (Z * Z)) : Prop :=
  match l with
  | [] => True
  | p :: rest => 0 <= p.1 /\ 0 < p.2 <= len /\ p.1 + p.2 <= zlen M /\ apart past p /\ pieces_ok M len (p :: past) rest
  end.

(** What has been received is what was delivered and what is pending. *)
Definition accounts (q : t) (base : Z) (m : gmap Z tcp_recv_segment) (past : list (Z * Z)) : Prop :=
  forall x, covered past x <-> (0 <= x < read_cursor q - base) \/ pending base m x.

Lemma rq_receive M base len l : zlen M <= BUF -> forall q m past, inv q M base m -> drained q m ->
  accounts q base m past -> pieces_ok M len past l -> Forall (fun p => 0 < p.2) past ->
  Z.of_nat (base.size m) + zlen l <= SEGS -> (forall i s, m !! i = Some s -> rs_length s <= len) ->
  exists q' m' n, receive q M base len l = Ret (q', piece M (read_cursor q - base) n) /\ 0 <= n /\
    read_cursor q' = read_cursor q + n /\ inv q' M base m' /\ drained q' m' /\ accounts q' base m' (rev l ++ past).
Proof.
  intros HM. induction l as [|[off n] l IH]; intros q m past Hinv Hd Hacc Hok Hpos Hroom Hlen; cbn [receive pieces_ok] in *.
  - exists q, m, 0. split; [reflexivity|]. repeat (split; [lia || assumption|]). assumption.
  - destruct Hok as (Ho & Hn & Hend & Hap & Hok). simpl in Ho, Hn, Hend. rewrite zlen_cons in Hroom.
    pose proof (zlen_nonneg l). pose proof Hinv as [_ _ [Hb Hwrap] Hcur Hpend _ _].
    assert (forall x, off <= x < off + n -> ~ covered past x) as Hfresh.
    { intros x Hx (r & Hr & Hxr). pose proof (Hap r Hr). simpl in *. lia. }
    assert (read_cursor q <= base + off) as Hco.
    { destruct (Z.le_gt_cases (read_cursor q) (base + off)); [assumption|exfalso].
      apply (Hfresh off); [lia|]. apply Hacc. left. lia. }
    destruct (rq_insert q M base m 0 off n Hinv ltac:(lia) Hco ltac:(lia) Hend ltac:(lia))
      as (q1 & i & -> & Hi & Hinv1 & Hc1).
    { intros j s Hj [H1 H2]. pose proof (Hpend j s Hj). apply (Hfresh (Z.max off (rs_seqnbr s - base))); [lia|].
      apply Hacc. right. exists j, s. split; [assumption|lia]. }
    set (m1 := <[i := mk_recv_segment 0 (base + off) n]> m) in *. rewrite mbind_Ret. cbv beta iota.
    assert (base.size m1 = S (base.size m)) as Hs1 by (apply map_size_insert_None; assumption).
    destruct (rq_drain M base len (S (Z.to_nat (pool.size (segments q1)))) q1 m1 Hinv1)
      as (q2 & m2 & k & -> & Hinv2 & Hk & Hc2 & Hd2 & Hs2 & Hlen2 & Hp2).
    { destruct (inv_model _ _ _ _ Hinv1) as [fl Hr]. rewrite (pool.pool_size _ _ _ _ Hr). lia. }
    { intros j s Hj. apply lookup_insert_Some in Hj. destruct Hj as [[_ <-]|[_ Hj]]; [simpl; lia|eauto]. }
    simpl. pose proof (inv_cursor _ _ _ _ Hinv2).
    assert (accounts q2 base m2 ((off, n) :: past)) as Hacc2.
    { intros x. transitivity ((off <= x < off + n) \/ covered past x).
      - split.
        + intros (r & Hr & Hx). apply elem_of_cons in Hr. destruct Hr as [->|Hr]; [auto|]. right. exists r. auto.
        + intros [Hx|(r & Hr & Hx)]; [exists (off, n); split; [apply list_elem_of_here|assumption]|].
          exists r. split; [apply list_elem_of_further; assumption|assumption].
      - rewrite (Hacc x). assert (pending base m1 x <-> (off <= x < off + n) \/ pending base m x) as Hp1.
        { split.
          - intros (j & s & Hj & Hx). apply lookup_insert_Some in Hj. destruct Hj as [[_ <-]|[_ Hj]]; [simpl in Hx; left; lia|].
            right. exists j, s. auto.
          - intros [Hx|(j & s & Hj & Hx)]; [exists i, (mk_recv_segment 0 (base + off) n); unfold m1; rewrite lookup_insert_eq; simpl; split; [reflexivity|lia]|].
            exists j, s. unfold m1. rewrite lookup_insert_ne by congruence. auto. }
        rewrite Hc1 in Hp2. specialize (Hp2 x). rewrite Hc2, Hc1.
        assert (0 <= x < read_cursor q + k - base <->
                0 <= x < read_cursor q - base \/ read_cursor q - base <= x < read_cursor q - base + k) as -> by lia.
        tauto. }
    destruct (IH q2 m2 ((off, n) :: past) Hinv2 Hd2 Hacc2 Hok) as (q3 & m3 & n3 & -> & Hn3 & Hc3 & Hinv3 & Hd3 & Hacc3).
    { constructor; [simpl; lia|assumption]. }
    { lia. }
    { assumption. }
    simpl. exists q3, m3, (k + n3). pose proof (inv_cursor _ _ _ _ Hinv3). rewrite Hc1 in *.
    rewrite Hc2. replace (read_cursor q + k - base) with (read_cursor q - base + k) by lia.
    rewrite rq_piece_split by lia. split; [reflexivity|]. split; [lia|]. split; [lia|]. split; [assumption|].
    split; [assumption|]. rewrite <-app_assoc. exact Hacc3.
Qed.

Lemma rq_init M base : 0 <= base -> base + zlen M + BUF < SEQ_MAX -> inv (reset init base) M base ∅.
Proof.
  intros Hb Hw. pose proof (zlen_nonneg M).
  assert (fp_model (segments init) ∅) as [fl Hr] by (apply fp_new; vm_compute; congruence).
  split; cbn [segments data_buffer read_cursor reset].
  - exists []. eapply pool.pool_rep_clear. exact Hr.
  - apply (fp_new_capacity (T := tcp_recv_segment) SEGS). vm_compute. congruence.
  - lia.
  - lia.
  - intros i s. rewrite lookup_empty. discriminate.
  - intros i j s r. rewrite lookup_empty. discriminate.
  - exists []. split.
    + eapply ring_buffer.rb_clear; [apply rq_BUF_pos|]. apply queue.queue_rep_init; [apply rq_BUF_pos|].
      rewrite zlen_replicate. reflexivity.
    + intros i s. rewrite lookup_empty. discriminate.
Qed.
End receive_queue.

Import receive_queue.

(** Whatever the order in which the pieces of a message (up to 200 of
    them, none overlapping another, each small enough for the read buffer)
    arrive, every insertion and every read of the receiving loop succeeds, and
    the bytes delivered are the prefix of the message up to the first byte
    that has not arrived; when all pieces have arrived, the whole message. *)
Theorem receive_queue_reorders (M : list Z) (base len : Z) (l : list (Z * Z)) :
  zlen M <= BUF -> 0 <= base -> base + zlen M + BUF < SEQ_MAX -> zlen l <= SEGS -> pieces_ok M len [] l ->
  exists q n, receive (reset init base) M base len l = Ret (q, take (Z.to_nat n) M) /\
    0 <= n <= zlen M /\ read_cursor q = base + n /\
    (forall x, 0 <= x < n -> covered (rev l) x) /\ ~ covered (rev l) n.
Proof.
  intros HM Hb Hw Hcnt Hok.
  destruct (rq_receive M base len l HM (reset init base) ∅ [] (rq_init M base Hb Hw))
    as (q & m & n & -> & Hn & Hc & Hinv & Hd & Hacc); auto; simpl in *.
  - intros i s. rewrite lookup_empty. discriminate.
  - intros x. split.
    + intros (p & Hp & _). apply not_elem_of_nil in Hp. done.
    + intros [?|(i & s & Hi & _)]; [simpl in *; lia|]. rewrite lookup_empty in Hi. discriminate.
  - intros i s. rewrite lookup_empty. discriminate.
  - rewrite app_nil_r in Hacc. pose proof (inv_cursor _ _ _ _ Hinv) as Hcur.
    exists q, n. unfold piece. replace (Z.to_nat (base - base)) with 0%nat by lia. rewrite drop_0.
    split; [reflexivity|]. split; [lia|]. split; [assumption|]. split.
    + intros x Hx. apply Hacc. left. lia.
    + intros Hcov. apply Hacc in Hcov. destruct Hcov as [?|(i & s & Hi & Hx)]; [lia|].
      apply (Hd i s Hi). pose proof (inv_pending _ _ _ _ Hinv i s Hi). lia.
Qed.

Lemma receive_queue_reorders_witness :
  exists q n, receive (reset init 1000) [1; 2; 3; 4; 5; 6] 1000 20480 [(4, 2); (0, 1); (1, 3)] =
      Ret (q, take (Z.to_nat n) [1; 2; 3; 4; 5; 6]) /\
    0 <= n <= zlen [1; 2; 3; 4; 5; 6] /\ read_cursor q = 1000 + n /\
    (forall x, 0 <= x < n -> covered (rev [(4, 2); (0, 1); (1, 3)]) x) /\ ~ covered (rev [(4, 2); (0, 1); (1, 3)]) n.
Proof.
  apply (receive_queue_reorders [1; 2; 3; 4; 5; 6] 1000 20480 [(4, 2); (0, 1); (1, 3)]);
    try (vm_compute; congruence).
  cbn [pieces_ok fst snd]. change (zlen [1; 2; 3; 4; 5; 6]) with 6. unfold apart.
  repeat split; try lia; intros r Hr;
    repeat (apply elem_of_cons in Hr; destruct Hr as [->|Hr]; [simpl; lia|]); apply not_elem_of_nil in Hr; done.
Defined.

(** One segment that was overtaken by the read cursor, which a duplicate
    of a buffered segment becomes as soon as the original is read, blocks the
    queue for good: no sequence of later insertions makes it readable again. *)
Theorem receive_queue_duplicate_blocks (q q' : t) (m : gmap Z tcp_recv_segment) (i : Z) (s : tcp_recv_segment)
    (l : list (tcp_recv_segment * list Z)) :
  fp_model (segments q) m -> m !! i = Some s -> rs_seqnbr s < read_cursor q <= SEQ_MAX ->
  insert_all q l = Ret q' -> has_readable q' = Ret false.
Proof.
  intros Hm Hi Hs E. destruct (rq_insert_all_keeps l q m q' i s Hm Hi E) as (m' & Hm' & Hi' & Hc).
  destruct (rq_has_readable q' m' i s Hm' Hi') as (j & r & -> & _ & _ & Hmin); [lia|].
  pose proof (Hmin i s Hi'). f_equal. apply Z.eqb_neq. lia.
Qed.

(** Bytes 0-1 are late; bytes 2-3 arrive twice; then everything else comes in. *)
Definition duplicate_scenario : outcome t :=
  '(q1, _) ← insert (reset init 1000) (mk_recv_segment 0 1002 0) [3; 4];
  '(q2, _) ← insert q1 (mk_recv_segment 0 1002 0) [3; 4];
  '(q3, _) ← insert q2 (mk_recv_segment 0 1000 0) [1; 2];
  '(q4, _) ← drain 4 q3 20480;
  insert_all q4 [(mk_recv_segment 0 1004 0, [5; 6])].

Definition stale_pool : fixed_pool tcp_recv_segment :=
  match pool.emplace_anywhere U16_MAX (new_fixed_pool 2) (mk_recv_segment 0 1002 2) with
  | Ret (p, _) => p
  | _ => new_fixed_pool 2
  end.

Lemma receive_queue_duplicate_blocks_witness :
  (q ← duplicate_scenario; b ← has_readable q; Ret (read_cursor q, b)) = Ret (1004, false) /\
  has_readable (mk stale_pool (queue.init []) 1004) = Ret false.
Proof.
  split; [vm_compute; reflexivity|].
  destruct (fp_new (T := tcp_recv_segment) 2) as [fl Hr]; [vm_compute; congruence|].
  destruct (pool.pool_emplace_anywhere _ _ _ _ (mk_recv_segment 0 1002 2) Hr) as (p & fl' & i & E & Hr' & _).
  { vm_compute. reflexivity. }
  apply (receive_queue_duplicate_blocks (mk stale_pool (queue.init []) 1004) _ (<[i := mk_recv_segment 0 1002 2]> ∅) i
           (mk_recv_segment 0 1002 2) []).
  - exists fl'. cbn [segments]. replace stale_pool with p; [exact Hr'|]. unfold stale_pool. rewrite E. reflexivity.
  - apply lookup_insert_eq.
  - vm_compute. split; [reflexivity|congruence].
  - reflexivity.
Defined.
