(* ===== verification/Tcp.v ===== *)
(** * TCP (libraries/net/tcp/{connection,connection_state,connection_table,
      protocol}.{h,cc})

    Connections, the seven states, the table that owns the connections, and
    the demultiplexing of incoming segments.  Handlers are computations on
    [world]: the table and the datagrams handed to the network layer
    ([net::ipv4::protocol] is an abstract class; its [send] is recorded).  A
    reference to a connection is its handle in the table.  The application's
    callback and the local address are parameters. *)

From S2P Require Import Prelude Queue RingBuffer Pool NetUtils SendQueue ReceiveQueue.
From stdpp Require Import gmap list.
#[local] Open Scope Z_scope.

Module tcp.
Import bytes.

Definition FIN : Z := 0x0001.
Definition SYN : Z := 0x0002.
Definition ACK : Z := 0x0010.

Definition has (flags f : Z) : bool := negb (Z.land flags f =? 0).

Record endpoint := mk_endpoint { ipaddr : Z; port : Z }.
Definition wildcard : endpoint := mk_endpoint 0 0.

Record header := mk_header {
  src_port : Z; dest_port : Z; seq_nbr : Z; ack_nbr : Z; flags_hdrsz : Z; wndsz : Z; checksum : Z; urgptr : Z
}.

(** net::ipv4::datagram_metadata *)
Record datagram_metadata := mk_datagram { src_addr : Z; dest_addr : Z }.

Record segment_metadata := mk_metadata {
  tcp_header : header;
  datagram : datagram_metadata;
  flags : Z
}.

Inductive connection_state := LISTEN | SYN_RCVD | ESTABLISHED | LAST_ACK | FIN_WAIT_1 | FIN_WAIT_2 | CLOSING.

#[export] Instance connection_state_eq_dec : EqDecision connection_state.
Proof. solve_decision. Defined.

Record connection := mk_connection {
  handle : Z;
  remote : endpoint;
  local : endpoint;
  state : connection_state;
  rx_queue : receive_queue.t;
  tx_queue : send_queue.t;
  next_outgoing_seqnbr : Z;
  callback : bool             (* _callback != nullptr *)
}.

Definition set_handle (h : Z) (c : connection) : connection :=
  mk_connection h (remote c) (local c) (state c) (rx_queue c) (tx_queue c) (next_outgoing_seqnbr c) (callback c).
Definition set_callback (b : bool) (c : connection) : connection :=
  mk_connection (handle c) (remote c) (local c) (state c) (rx_queue c) (tx_queue c) (next_outgoing_seqnbr c) b.
Definition set_state (s : connection_state) (c : connection) : connection :=
  mk_connection (handle c) (remote c) (local c) s (rx_queue c) (tx_queue c) (next_outgoing_seqnbr c) (callback c).
Definition set_rx (q : receive_queue.t) (c : connection) : connection :=
  mk_connection (handle c) (remote c) (local c) (state c) q (tx_queue c) (next_outgoing_seqnbr c) (callback c).
Definition set_tx (q : send_queue.t) (c : connection) : connection :=
  mk_connection (handle c) (remote c) (local c) (state c) (rx_queue c) q (next_outgoing_seqnbr c) (callback c).
Definition set_next (n : Z) (c : connection) : connection :=
  mk_connection (handle c) (remote c) (local c) (state c) (rx_queue c) (tx_queue c) n (callback c).

(** A datagram passed to [ipv4.send(PROTO_TCP, dest, data, length)] *)
Record out_datagram := mk_out { out_dest : Z; out_bytes : list Z }.

Record world := mk_world {
  connections : fixed_pool connection;          (* 40 *)
  new_connections : fixed_pool Z;               (* 10 *)
  finished_connections : fixed_pool Z;          (* 10 *)
  table_callback : bool;
  sent : list out_datagram
}.

Definition set_connections (p : fixed_pool connection) (w : world) : world :=
  mk_world p (new_connections w) (finished_connections w) (table_callback w) (sent w).

Definition init_world : world := mk_world (new_fixed_pool 40) (new_fixed_pool 10) (new_fixed_pool 10) false [].

(** What an application does inside [callback::on_receive] *)
Inductive app_action :=
| AppSend (data : list Z)
| AppClose.

Section tcp.
Variable local_address : Z.
Variable on_receive_cb : list Z -> list app_action.

(** ** Connections *)

(** [connection_table::operator []] *)
Definition get_conn (h : Z) : stM world connection :=
  w ← sget; lift (pool.get U16_MAX (connections w) h).

Definition upd_conn (h : Z) (f : connection -> connection) : stM world unit :=
  w ← sget; p ← lift (pool.modify U16_MAX (connections w) h f); sput (set_connections p w).

Definition count_specific_matches (filter e : endpoint) : Z :=
  let ip :=
    if negb (ipaddr filter =? 0) then (if ipaddr e =? ipaddr filter then Some 1 else None) else Some 0 in
  match ip with
  | None => -1
  | Some n =>
      if negb (port filter =? 0) then (if port e =? port filter then n + 1 else -1) else n
  end.

Definition compare (c : connection) (remote_ local_ : endpoint) : Z :=
  let remote_match := count_specific_matches (remote c) remote_ in
  let local_match := count_specific_matches (local c) local_ in
  if (remote_match >=? 0) && (local_match >=? 0) then remote_match + local_match else -1.

Definition transition (h : Z) (s : connection_state) : stM world unit := upd_conn h (set_state s).

Definition reset_rx (h seqnbr : Z) : stM world unit :=
  upd_conn h (fun c => set_rx (receive_queue.reset (rx_queue c) seqnbr) c).

Definition reset_tx (h seqnbr : Z) : stM world unit :=
  upd_conn h (fun c => set_tx (send_queue.reset (tx_queue c) seqnbr) c).

(** [receive_queue::insert] of [length] bytes when the segment holds fewer:
    the checks come first, then the copy reads past the segment. *)
Definition insert_short (q : receive_queue.t) (seqnbr length : Z) : outcome bool :=
  if pool.full (receive_queue.segments q) then Ret false
  else if receive_queue.out_of_window q seqnbr then Ret false
  else
    let off := to_i32 (seqnbr - receive_queue.read_cursor q) in
    let off := if off =? -1 then queue.size (receive_queue.data_buffer q) else off in
    if u32 (off + length) >? receive_queue.BUF then Ret false else Undef.

Definition sequence (h : Z) (md : segment_metadata) (data : list Z) (length : Z) : stM world unit :=
  c ← get_conn h;
  if length <=? zlen data then
    '(q, _) ← lift (receive_queue.insert (rx_queue c)
                (mk_recv_segment (flags md) (seq_nbr (tcp_header md)) 0) (take (Z.to_nat length) data));
    upd_conn h (set_rx q)
  else
    _ ← lift (insert_short (rx_queue c) (seq_nbr (tcp_header md)) length);
    sret tt.

Definition transmit (h flags_ : Z) (data : list Z) (send_length : Z) : stM world unit :=
  c ← get_conn h;
  '(q, _) ← lift (send_queue.write_back (tx_queue c)
                    (mk_send_segment flags_ (send_queue.write_cursor (tx_queue c)) 0 0)
                    (Some data) (zlen data) send_length);
  upd_conn h (set_tx q).

Definition phantom : list Z := [33].

Definition transmit_phantom (h flags_ : Z) : stM world unit := transmit h flags_ phantom 0.

(** [connection::send(const char *, size_t)] *)
Definition send_data (h : Z) (data : list Z) : stM world unit := transmit h 0 data (zlen data).

Definition header_bytes (hdr : header) : list Z :=
  le16 (src_port hdr) ++ le16 (dest_port hdr) ++ le32 (seq_nbr hdr) ++ le32 (ack_nbr hdr) ++
  le16 (flags_hdrsz hdr) ++ le16 (wndsz hdr) ++ le16 (checksum hdr) ++ le16 (urgptr hdr).

Definition set_checksum (c : Z) (hdr : header) : header :=
  mk_header (src_port hdr) (dest_port hdr) (seq_nbr hdr) (ack_nbr hdr) (flags_hdrsz hdr) (wndsz hdr) c (urgptr hdr).

Definition PROTO_TCP : Z := 6.

Definition emit (d : out_datagram) (w : world) : world :=
  mk_world (connections w) (new_connections w) (finished_connections w) (table_callback w) (sent w ++ [d]).

(** The header [connection::send] fills in, in network byte order *)
Definition outgoing_header (c : connection) (flags_ seqnbr : Z) : header :=
  mk_header (htons (port (local c))) (htons (port (remote c))) (htonl seqnbr)
    (htonl (receive_queue.read_cursor (rx_queue c)))
    (htons (Z.lor (Z.land flags_ 0x1FF) (Z.shiftl 5 12))) (htons 10000) 0 0.

(** [connection::send(flags, seqnbr, data, length)] *)
Definition send_segment (h flags_ seqnbr : Z) (data : list Z) : stM world unit :=
  c ← get_conn h;
  let flags_ := Z.lor flags_ ACK in
  let hdr := outgoing_header c flags_ seqnbr in
  let empty := ((has flags_ SYN || has flags_ FIN) && (zlen data =? 1)) || (zlen data =? 0) in
  let payload := if empty then [] else data in
  csum ← lift (checksum.tcp_checksum local_address (ipaddr (remote c)) PROTO_TCP (header_bytes hdr) payload);
  sassert (empty || (zlen data + 20 <? 1500));;
  smodify (emit (mk_out (ipaddr (remote c)) (header_bytes (set_checksum csum hdr) ++ payload)));;
  upd_conn h (set_next (u32 (seqnbr + zlen data))).

(** ** The table *)

Definition finish_connection (h : Z) : stM world unit :=
  w ← sget;
  '(p, _) ← lift (pool.emplace_anywhere U16_MAX (finished_connections w) h);
  sput (mk_world (connections w) (new_connections w) p (table_callback w) (sent w)).

Definition create_connection (remote_ local_ : endpoint) (s : connection_state) : stM world Z :=
  w ← sget;
  '(p, id) ← lift (pool.emplace_anywhere U16_MAX (connections w)
      (mk_connection 0 remote_ local_ s receive_queue.init send_queue.init 0 false));
  sput (set_connections p w);;
  upd_conn id (set_handle id);;
  upd_conn id (set_callback (table_callback w));;
  w' ← sget;
  '(np, _) ← lift (pool.emplace_anywhere U16_MAX (new_connections w') id);
  sput (mk_world (connections w') np (finished_connections w') (table_callback w') (sent w'));;
  sret id.

(** The loop of [find_best_match] *)
Fixpoint best_match (l : list (Z * connection)) (remote_ local_ : endpoint) (score : Z) (best : option Z) : option Z :=
  match l with
  | [] => best
  | (i, c) :: l' =>
      let s := compare c remote_ local_ in
      if s >? score then best_match l' remote_ local_ s (Some i) else best_match l' remote_ local_ score best
  end.

Definition find_best_match (w : world) (remote_ local_ : endpoint) : option Z :=
  best_match (pool.entries U16_MAX (connections w)) remote_ local_ (-1) None.

(** ** States *)

Definition mark_for_destruction (h : Z) : stM world unit := c ← get_conn h; finish_connection (handle c).

Definition ISN : Z := 0xDEADBEEF.

Definition early_recv (s : connection_state) (h : Z) (md : segment_metadata) (data : list Z) (length : Z) : stM world unit :=
  match s with
  | LISTEN =>
      if negb (has (flags md) SYN) then sret tt
      else
        id ← create_connection
          (mk_endpoint (src_addr (datagram md)) (src_port (tcp_header md)))
          (mk_endpoint (dest_addr (datagram md)) (dest_port (tcp_header md))) SYN_RCVD;
        reset_rx id (seq_nbr (tcp_header md));;
        reset_tx id ISN;;
        sequence id md phantom 1
  | SYN_RCVD => if has (flags md) ACK then transition h ESTABLISHED else sret tt
  | ESTABLISHED =>
      if has (flags md) FIN && (length =? 0) then sequence h md phantom 1 else sequence h md data length
  | FIN_WAIT_1 =>
      if has (flags md) FIN && (length =? 0) then sequence h md phantom 1;; transition h CLOSING else sret tt
  | FIN_WAIT_2 =>
      if has (flags md) FIN && (length =? 0) then sequence h md phantom 1 else sret tt
  | LAST_ACK | CLOSING => sret tt
  end.

Definition active_close (s : connection_state) (h : Z) : stM world unit :=
  match s with
  | ESTABLISHED => transmit_phantom h FIN;; transition h FIN_WAIT_1
  | _ => sret tt
  end.

(** [connection::close] *)
Definition close (h : Z) : stM world unit := c ← get_conn h; active_close (state c) h.

Definition run_action (h : Z) (a : app_action) : stM world unit :=
  match a with AppSend data => send_data h data | AppClose => close h end.

Definition on_full_receive (h : Z) (data : list Z) : stM world unit :=
  c ← get_conn h;
  if callback c then sforeach (on_receive_cb data) (run_action h) else sret tt.

Definition sequenced_recv (s : connection_state) (h : Z) (seg : tcp_recv_segment) (data : list Z) : stM world unit :=
  match s with
  | SYN_RCVD => if negb (has (rs_flags seg) SYN) then sret tt else transmit h SYN phantom 0
  | ESTABLISHED =>
      if has (rs_flags seg) FIN then transmit h FIN phantom 0;; transition h LAST_ACK
      else on_full_receive h data
  | FIN_WAIT_2 => if has (rs_flags seg) FIN then mark_for_destruction h else sret tt
  | _ => sret tt
  end.

Definition remote_consumed_all (s : connection_state) (h : Z) : stM world unit :=
  match s with
  | LAST_ACK | CLOSING => mark_for_destruction h
  | FIN_WAIT_1 => transition h FIN_WAIT_2
  | _ => sret tt
  end.

(** ** [connection::step] *)

Definition STEP_BUF : Z := 20 * 1024.

Fixpoint step_rx (fuel : nat) (h : Z) : stM world unit :=
  match fuel with
  | O => lift NoFuel
  | S fuel' =>
      c ← get_conn h;
      more ← lift (receive_queue.has_readable (rx_queue c));
      if more : bool then
        '(q, (seg, bytes)) ← lift (receive_queue.read_one_segment (rx_queue c) STEP_BUF);
        upd_conn h (set_rx q);;
        sequenced_recv (state c) h seg bytes;;
        step_rx fuel' h
      else sret tt
  end.

(** When [read_one_segment] returns 0 without a segment, the loop sends the
    stale contents of its variables and goes round again with the same
    queue: it never ends. *)
Fixpoint step_tx (fuel : nat) (h : Z) : stM world unit :=
  match fuel with
  | O => lift NoFuel
  | S fuel' =>
      c ← get_conn h;
      if send_queue.has_readable (tx_queue c) then
        '(q, r) ← lift (send_queue.read_one_segment (tx_queue c) STEP_BUF);
        upd_conn h (set_tx q);;
        match r with
        | Some (seg, bytes) => send_segment h (ss_flags seg) (ss_seqnbr seg) bytes
        | None => lift NoFuel
        end;;
        step_tx fuel' h
      else sret tt
  end.

(** Each turn of the loops takes one segment off a queue: 200 and 100. *)
Definition step (h : Z) : stM world unit :=
  c ← get_conn h;
  received_sequenced ← lift (receive_queue.has_readable (rx_queue c));
  step_rx 201 h;;
  c' ← get_conn h;
  (if received_sequenced && negb (send_queue.has_readable (tx_queue c'))
   then send_segment h 0 (next_outgoing_seqnbr c') [] else sret tt);;
  step_tx 101 h.

(** [connection::on_receive] *)
Definition on_receive (h : Z) (md : segment_metadata) (data : list Z) (length : Z) : stM world unit :=
  c ← get_conn h;
  early_recv (state c) h md data length;;
  (if has (flags md) ACK then
     c1 ← get_conn h;
     q ← lift (send_queue.ack (tx_queue c1) (ack_nbr (tcp_header md)));
     upd_conn h (set_tx q);;
     c2 ← get_conn h;
     (if ack_nbr (tcp_header md) >=? send_queue.write_cursor (tx_queue c2)
      then remote_consumed_all (state c2) h else sret tt)
   else sret tt);;
  step h.

Definition step_new_connections : stM world unit :=
  w ← sget;
  sforeach (pool.entries U16_MAX (new_connections w)) (fun '(_, h) =>
    w' ← sget; if pool.valid U16_MAX (connections w') h then step h else sret tt);;
  smodify (fun w => mk_world (connections w) (pool.clear U16_MAX (new_connections w)) (finished_connections w)
                      (table_callback w) (sent w)).

(** The loop of [destroy_finished_connections], which stops at the first
    handle that is not valid any more *)
Fixpoint destroy_loop (l : list (Z * Z)) : stM world unit :=
  match l with
  | [] => sret tt
  | (_, h) :: l' =>
      w ← sget;
      if negb (pool.valid U16_MAX (connections w) h) then sret tt
      else p ← lift (pool.erase U16_MAX (connections w) h); sput (set_connections p w);; destroy_loop l'
  end.

Definition destroy_finished_connections : stM world unit :=
  w ← sget;
  destroy_loop (pool.entries U16_MAX (finished_connections w));;
  smodify (fun w => mk_world (connections w) (new_connections w) (pool.clear U16_MAX (finished_connections w))
                      (table_callback w) (sent w)).

(** ** [tcp::protocol] *)

Definition nth0 (l : list Z) (i : nat) : Z := nth i l 0.

Definition parse_header (data : list Z) : header :=
  let h16 i := ntohs (of_le16 (nth0 data i) (nth0 data (i + 1))) in
  let h32 i := ntohl (of_le32 (nth0 data i) (nth0 data (i + 1)) (nth0 data (i + 2)) (nth0 data (i + 3))) in
  mk_header (h16 0%nat) (h16 2%nat) (h32 4%nat) (h32 8%nat) (h16 12%nat) (h16 14%nat) (h16 16%nat) (h16 18%nat).

Definition protocol_on_receive (dg : datagram_metadata) (data : list Z) : stM world unit :=
  if zlen data <? 20 then sret tt
  else
    let hdr := parse_header data in
    let flags_ := Z.land (flags_hdrsz hdr) 0x1FF in
    let hdrsz := u8 (Z.shiftr (flags_hdrsz hdr) 12 * 4) in
    w ← sget;
    match find_best_match w (mk_endpoint (src_addr dg) (src_port hdr)) (mk_endpoint (dest_addr dg) (dest_port hdr)) with
    | Some h =>
        on_receive h (mk_metadata hdr dg flags_) (drop (Z.to_nat hdrsz) data) (u32 (zlen data - hdrsz));;
        step_new_connections;;
        destroy_finished_connections
    | None => sret tt
    end.

Definition listen (local_ : endpoint) : stM world unit := _ ← create_connection wildcard local_ LISTEN; sret tt.

Definition set_table_callback (b : bool) (w : world) : world :=
  mk_world (connections w) (new_connections w) (finished_connections w) b (sent w).
End tcp.
End tcp.
