(* ===== verification/TcpFacts.v ===== *)
(** * Facts about the TCP handlers of Tcp.v

    [wrep] describes a world by finite maps: the connections by handle, the
    handles that are new and finished, and the datagrams sent.  Each handler
    is evaluated on that description; the properties of the protocol follow. *)

From Stdlib Require Import Sorted Relations.
From S2P Require Import Prelude Queue RingBuffer Pool NetUtils SendQueue ReceiveQueue Tcp.
From stdpp Require Import gmap list relations.
#[local] Open Scope Z_scope.

Import tcp.

Record wrep (w : world) (m : gmap Z connection) (nm fm : gmap Z Z) (cb : bool) (out : list out_datagram) : Prop := {
  wr_conns : fp_model (connections w) m;
  wr_cap : sp_capacity (connections w) = 40;
  wr_new : fp_model (new_connections w) nm;
  wr_new_cap : sp_capacity (new_connections w) = 10;
  wr_fin : fp_model (finished_connections w) fm;
  wr_fin_cap : sp_capacity (finished_connections w) = 10;
  wr_cb : table_callback w = cb;
  wr_sent : sent w = out
}.

Lemma tcp_init_world : wrep init_world ∅ ∅ ∅ false [].
Proof. split; try reflexivity; apply fp_new; vm_compute; congruence. Qed.

(** ** Evaluating the primitives *)

Lemma stM_bind_Ret {A B} (m : stM world A) (f : A -> stM world B) w a w' :
  m w = Ret (a, w') -> mbind f m w = f a w'.
Proof. intros H. unfold mbind, stM_bind. rewrite H. reflexivity. Qed.

Lemma tcp_get w m nm fm cb out h c : wrep w m nm fm cb out -> m !! h = Some c -> get_conn h w = Ret (c, w).
Proof.
  intros [[fl Hr] _ _ _ _ _ _ _] Hh. unfold get_conn, mbind, stM_bind, sget. unfold lift.
  rewrite (pool.pool_get _ _ _ _ _ _ Hr Hh). reflexivity.
Qed.

Lemma tcp_upd w m nm fm cb out h c f : wrep w m nm fm cb out -> m !! h = Some c ->
  exists w', upd_conn h f w = Ret (tt, w') /\ wrep w' (<[h := f c]> m) nm fm cb out.
Proof.
  intros [[fl Hr] Hcap Hn Hnc Hf Hfc Hcb Hs] Hh. unfold upd_conn, mbind, stM_bind, sget, lift.
  destruct (pool.pool_modify _ _ _ _ _ _ f Hr Hh) as (p & -> & Hr' & Hc').
  eexists. split; [reflexivity|]. split; simpl; auto.
  - exists fl. exact Hr'.
  - simpl in Hcap. congruence.
Qed.

Definition new_connection (b : bool) (id : Z) (r l : endpoint) (s : connection_state) : connection :=
  mk_connection id r l s receive_queue.init send_queue.init 0 b.

Lemma tcp_create w m nm fm cb out r l s : wrep w m nm fm cb out ->
  Z.of_nat (base.size m) < 40 -> Z.of_nat (base.size nm) < 10 ->
  exists w' id k, create_connection r l s w = Ret (id, w') /\ m !! id = None /\ nm !! k = None /\
    wrep w' (<[id := new_connection cb id r l s]> m) (<[k := id]> nm) fm cb out.
Proof.
  intros Hw Hm Hn. pose proof Hw as [Hc Hcap Hnew Hnc Hf Hfc Hcb Hs]. unfold create_connection.
  rewrite (stM_bind_Ret _ _ _ w w) by reflexivity.
  destruct (fp_emplace _ _ (mk_connection 0 r l s receive_queue.init send_queue.init 0 false) _ Hc Hcap Hm)
    as (p & id & E & Hp & Hid & Hpc).
  rewrite (stM_bind_Ret _ _ _ (p, id) w) by (unfold lift; rewrite E; reflexivity). cbv beta iota.
  rewrite (stM_bind_Ret _ _ _ tt (set_connections p w)) by reflexivity.
  assert (wrep (set_connections p w) (<[id := mk_connection 0 r l s receive_queue.init send_queue.init 0 false]> m)
            nm fm cb out) as Hw1 by (split; assumption).
  destruct (tcp_upd _ _ _ _ _ _ id _ (set_handle id) Hw1 (lookup_insert_eq _ _ _)) as (w2 & E2 & Hw2).
  rewrite (stM_bind_Ret _ _ _ _ _ E2). rewrite insert_insert_eq in Hw2.
  destruct (tcp_upd _ _ _ _ _ _ id _ (set_callback (table_callback w)) Hw2 (lookup_insert_eq _ _ _)) as (w3 & E3 & Hw3).
  rewrite (stM_bind_Ret _ _ _ _ _ E3). rewrite insert_insert_eq in Hw3.
  rewrite (stM_bind_Ret _ _ _ w3 w3) by reflexivity.
  pose proof Hw3 as [H3c H3cap H3n H3nc H3f H3fc H3cb H3s].
  destruct (fp_emplace _ _ id _ H3n H3nc Hn) as (np & k & Ek & Hnp & Hk & Hnpc).
  rewrite (stM_bind_Ret _ _ _ (np, k) w3) by (unfold lift; rewrite Ek; reflexivity). cbv beta iota.
  rewrite (stM_bind_Ret _ _ _ tt (mk_world (connections w3) np (finished_connections w3) (table_callback w3) (sent w3)))
    by reflexivity.
  eexists _, id, k. split; [reflexivity|]. split; [assumption|]. split; [assumption|].
  simpl in H3c. unfold set_callback, set_handle in H3c. simpl in H3c. rewrite Hcb in H3c. split; assumption.
Qed.

Lemma tcp_finish w m nm fm cb out h : wrep w m nm fm cb out -> Z.of_nat (base.size fm) < 10 ->
  exists w' k, finish_connection h w = Ret (tt, w') /\ fm !! k = None /\ wrep w' m nm (<[k := h]> fm) cb out.
Proof.
  intros [Hc Hcap Hnew Hnc Hf Hfc Hcb Hs] Hsz. unfold finish_connection. rewrite (stM_bind_Ret _ _ _ w w) by reflexivity.
  destruct (fp_emplace _ _ h _ Hf Hfc Hsz) as (p & k & E & Hp & Hk & Hpc).
  rewrite (stM_bind_Ret _ _ _ (p, k) w) by (unfold lift; rewrite E; reflexivity). cbv beta iota.
  eexists _, k. split; [reflexivity|]. split; [assumption|]. split; assumption.
Qed.

(** ** The most specific connection *)

Lemma tcp_best_match l r e : forall score best,
  match best_match l r e score best with
  | Some i => (Some i = best /\ forall j c, (j, c) ∈ l -> compare c r e <= score) \/
      exists c, (i, c) ∈ l /\ score < compare c r e /\ forall j c', (j, c') ∈ l -> compare c' r e <= compare c r e
  | None => best = None /\ forall j c, (j, c) ∈ l -> compare c r e <= score
  end.
Proof.
  induction l as [|[i c] l IH]; intros score best; cbn [best_match].
  - destruct best; [left|]; (split; [reflexivity|]); intros j c Hj; apply not_elem_of_nil in Hj; done.
  - rewrite Z.gtb_ltb. destruct (Z.ltb_spec score (compare c r e)) as [Hlt|Hge].
    + specialize (IH (compare c r e) (Some i)).
      destruct (best_match l r e (compare c r e) (Some i)) as [k|]; [|destruct IH; discriminate].
      right. destruct IH as [[[= ->] Hall]|(c' & Hin & Hlt' & Hall)].
      * exists c. split; [apply list_elem_of_here|]. split; [assumption|]. intros j c' Hj.
        apply elem_of_cons in Hj. destruct Hj as [[= -> ->]|Hj]; [lia|eauto].
      * exists c'. split; [apply list_elem_of_further; assumption|]. split; [lia|]. intros j c2 Hj.
        apply elem_of_cons in Hj. destruct Hj as [[= -> ->]|Hj]; [lia|eauto].
    + specialize (IH score best). destruct (best_match l r e score best) as [k|].
      * destruct IH as [[E Hall]|(c' & Hin & Hlt' & Hall)]; [left|right].
        -- split; [assumption|]. intros j c' Hj. apply elem_of_cons in Hj. destruct Hj as [[= -> ->]|Hj]; [lia|eauto].
        -- exists c'. split; [apply list_elem_of_further; assumption|]. split; [assumption|]. intros j c2 Hj.
           apply elem_of_cons in Hj. destruct Hj as [[= -> ->]|Hj]; [lia|eauto].
      * destruct IH as [-> Hall]. split; [reflexivity|]. intros j c' Hj.
        apply elem_of_cons in Hj. destruct Hj as [[= -> ->]|Hj]; [lia|eauto].
Qed.

(** Demultiplexing.  [find_best_match] answers with a connection exactly
    when some connection's non-wildcard fields all agree with the endpoints of
    the segment, and then with one that has the largest number of agreeing
    non-wildcard fields: an established connection wins over the listener it
    came from. *)
Theorem tcp_find_best_match (w : world) (m : gmap Z connection) (nm fm : gmap Z Z) (cb : bool)
    (out : list out_datagram) (r e : endpoint) :
  wrep w m nm fm cb out ->
  match find_best_match w r e with
  | Some h => exists c, m !! h = Some c /\ 0 <= compare c r e /\
      forall h' c', m !! h' = Some c' -> compare c' r e <= compare c r e
  | None => forall h c, m !! h = Some c -> compare c r e = -1
  end.
Proof.
  intros [[fl Hr] _ _ _ _ _ _ _]. unfold find_best_match.
  pose proof (tcp_best_match (pool.entries U16_MAX (connections w)) r e (-1) None) as Hb.
  assert (forall j c, (j, c) ∈ pool.entries U16_MAX (connections w) <-> m !! j = Some c) as He
    by (intros; eapply pool.pool_entries_elem; eassumption).
  destruct (best_match _ r e (-1) None) as [h|].
  - destruct Hb as [[[=] _]|(c & Hin & Hlt & Hall)]. exists c. split; [apply He; assumption|]. split; [lia|].
    intros h' c' Hc'. apply (Hall h'). apply He. assumption.
  - destruct Hb as [_ Hall]. intros h c Hc. apply He in Hc. apply Hall in Hc.
    assert (-1 <= compare c r e); [|lia]. unfold compare, count_specific_matches.
    repeat (match goal with |- context [if ?b then _ else _] => destruct b eqn:? end; try lia).
Qed.

Lemma tcp_find_best_match_witness :
  exists w id m nm, create_connection wildcard (mk_endpoint 0 8080) LISTEN init_world = Ret (id, w) /\
  wrep w m nm ∅ false [] /\
  match find_best_match w (mk_endpoint 1 2) (mk_endpoint 3 8080) with
  | Some h => exists c, m !! h = Some c /\ 0 <= compare c (mk_endpoint 1 2) (mk_endpoint 3 8080) /\
      forall h' c', m !! h' = Some c' ->
        compare c' (mk_endpoint 1 2) (mk_endpoint 3 8080) <= compare c (mk_endpoint 1 2) (mk_endpoint 3 8080)
  | None => forall h c, m !! h = Some c -> compare c (mk_endpoint 1 2) (mk_endpoint 3 8080) = -1
  end.
Proof.
  destruct (tcp_create _ _ _ _ _ _ wildcard (mk_endpoint 0 8080) LISTEN tcp_init_world)
    as (w & id & k & E & _ & _ & Hw); [vm_compute; reflexivity|vm_compute; reflexivity|].
  eexists w, id, _, _. split; [exact E|]. split; [exact Hw|].
  eapply (tcp_find_best_match w). exact Hw.
Defined.

(** A table with one connection *)
Lemma tcp_match_single w id c nm fm cb out r e : wrep w (<[id := c]> ∅) nm fm cb out -> 0 <= compare c r e ->
  find_best_match w r e = Some id.
Proof.
  intros Hw Hcmp. pose proof (wr_conns _ _ _ _ _ _ Hw) as [fl Hr]. unfold find_best_match.
  pose proof (tcp_best_match (pool.entries U16_MAX (connections w)) r e (-1) None) as Hb.
  destruct (best_match _ _ _ (-1) None) as [h|].
  - destruct Hb as [[[=] _]|(c' & Hin & _ & _)]. eapply pool.pool_entries_elem in Hin; [|exact Hr].
    apply lookup_insert_Some in Hin. destruct Hin as [[-> _]|[_ Hin]]; [reflexivity|].
    rewrite lookup_empty in Hin. discriminate.
  - destruct Hb as [_ Hb]. exfalso.
    assert ((id, c) ∈ pool.entries U16_MAX (connections w)) as Hin
      by (eapply pool.pool_entries_elem; [exact Hr|apply lookup_insert_eq]).
    apply Hb in Hin. lia.
Qed.

(** ** Segments for a listening endpoint *)

(** A connection on which nothing was ever sent, such as a listener's *)
Definition fresh (c : connection) : Prop :=
  send_queue.rep (tx_queue c) (send_queue.mk_spec 0 [] 0) /\
  fp_model (receive_queue.segments (rx_queue c)) ∅.

Lemma tcp_fresh_new b id r l s : fresh (new_connection b id r l s).
Proof. split; simpl; [apply send_queue.sq_init|]. apply fp_new. vm_compute. congruence. Qed.

Definition seg_flags (data : list Z) : Z := Z.land (flags_hdrsz (parse_header data)) 0x1FF.

Definition matching (w : world) (dg : datagram_metadata) (data : list Z) : option Z :=
  find_best_match w (mk_endpoint (src_addr dg) (src_port (parse_header data)))
                    (mk_endpoint (dest_addr dg) (dest_port (parse_header data))).

(** A single segment with the ACK flag, without SYN and with a non-zero
    acknowledgement number, sent to a listening port, halts the system: the
    listener drops it, but its empty send queue is still asked to acknowledge
    and its assertion fails. *)
Theorem tcp_listener_panics_on_ack (la : Z) (app : list Z -> list app_action) (w : world)
    (m : gmap Z connection) (nm fm : gmap Z Z) (cb : bool) (out : list out_datagram)
    (dg : datagram_metadata) (data : list Z) (h : Z) (c : connection) :
  wrep w m nm fm cb out -> 20 <= zlen data -> matching w dg data = Some h -> m !! h = Some c ->
  state c = LISTEN -> fresh c -> has (seg_flags data) ACK = true -> has (seg_flags data) SYN = false ->
  0 < ack_nbr (parse_header data) ->
  protocol_on_receive la app dg data w = Panic.
Proof.
  intros Hw Hlen Hmatch Hc Hst [Htx _] Hack Hsyn Hn. unfold protocol_on_receive.
  rewrite (proj2 (Z.ltb_ge _ _)) by lia. cbv zeta. rewrite (stM_bind_Ret _ _ _ w w) by reflexivity.
  unfold matching in Hmatch. rewrite Hmatch. unfold mbind at 1. unfold stM_bind.
  assert (on_receive la app h (mk_metadata (parse_header data) dg (seg_flags data))
            (drop (Z.to_nat (u8 (Z.shiftr (flags_hdrsz (parse_header data)) 12 * 4))) data)
            (u32 (zlen data - u8 (Z.shiftr (flags_hdrsz (parse_header data)) 12 * 4))) w = Panic) as E.
  { unfold on_receive. rewrite (stM_bind_Ret _ _ _ _ _ (tcp_get _ _ _ _ _ _ _ _ Hw Hc)), Hst.
    cbn [early_recv flags]. rewrite Hsyn. cbn [negb]. rewrite (stM_bind_Ret _ _ _ tt w) by reflexivity.
    rewrite Hack. unfold mbind at 1. unfold stM_bind at 1.
    rewrite (stM_bind_Ret _ _ _ _ _ (tcp_get _ _ _ _ _ _ _ _ Hw Hc)). cbn [tcp_header].
    pose proof (send_queue.sq_ack _ _ (ack_nbr (parse_header data)) Htx) as Ha.
    change (send_queue.sp_write _) with 0 in Ha. rewrite (proj2 (Z.leb_gt _ _)) in Ha by lia.
    unfold mbind, stM_bind, lift. rewrite Ha. reflexivity. }
  unfold seg_flags in E. rewrite E. reflexivity.
Qed.

(** An ACK segment from port 5555 to port 8080 *)
Definition probe : list Z :=
  header_bytes (mk_header (bytes.htons 5555) (bytes.htons 8080) (bytes.htonl 1) (bytes.htonl 1)
                  (bytes.htons 0x5010) 0 0 0).

Lemma tcp_listener_panics_on_ack_witness :
  (listen (mk_endpoint 0 8080);; protocol_on_receive 7 (fun _ => []) (mk_datagram 1 2) probe) init_world = Panic.
Proof.
  destruct (tcp_create _ _ _ _ _ _ wildcard (mk_endpoint 0 8080) LISTEN tcp_init_world)
    as (w & id & k & E & _ & _ & Hw); [vm_compute; reflexivity|vm_compute; reflexivity|].
  unfold listen. unfold mbind at 1. unfold stM_bind at 1. rewrite (stM_bind_Ret _ _ _ _ _ E). unfold sret.
  assert (matching w (mk_datagram 1 2) probe = Some id) as Hm
    by (eapply tcp_match_single; [exact Hw|vm_compute; congruence]).
  apply (tcp_listener_panics_on_ack 7 (fun _ => []) w _ _ _ _ _ (mk_datagram 1 2) probe id
           (new_connection false id wildcard (mk_endpoint 0 8080) LISTEN) Hw);
    [vm_compute; congruence|exact Hm|apply lookup_insert_eq|reflexivity|apply tcp_fresh_new|vm_compute; reflexivity..].
Defined.

(** ** Headers on the wire *)

Definition header_ok (hdr : header) : Prop :=
  0 <= src_port hdr < 2 ^ 16 /\ 0 <= dest_port hdr < 2 ^ 16 /\ 0 <= seq_nbr hdr < 2 ^ 32 /\
  0 <= ack_nbr hdr < 2 ^ 32 /\ 0 <= flags_hdrsz hdr < 2 ^ 16 /\ 0 <= wndsz hdr < 2 ^ 16 /\
  0 <= checksum hdr < 2 ^ 16 /\ 0 <= urgptr hdr < 2 ^ 16.

Lemma tcp_parse_header_bytes hdr rest : header_ok hdr ->
  parse_header (header_bytes hdr ++ rest) =
  mk_header (bytes.ntohs (src_port hdr)) (bytes.ntohs (dest_port hdr)) (bytes.ntohl (seq_nbr hdr))
    (bytes.ntohl (ack_nbr hdr)) (bytes.ntohs (flags_hdrsz hdr)) (bytes.ntohs (wndsz hdr))
    (bytes.ntohs (checksum hdr)) (bytes.ntohs (urgptr hdr)).
Proof.
  intros (H1 & H2 & H3 & H4 & H5 & H6 & H7 & H8). unfold parse_header, header_bytes, bytes.le16, bytes.le32, nth0.
  cbn [nth app Nat.add]. rewrite !bytes.of_le16_le16, !bytes.of_le32_le32 by assumption. reflexivity.
Qed.

Lemma tcp_header_bytes_ok hdr : checksum.bytes_ok (header_bytes hdr) /\ zlen (header_bytes hdr) = 20.
Proof.
  split; [|reflexivity]. unfold header_bytes. rewrite !checksum.bytes_ok_app.
  repeat split; auto using checksum.le16_ok, checksum.le32_ok.
Qed.

Lemma tcp_outgoing_header_ok c f seq csum : 0 <= csum < 2 ^ 16 -> header_ok (set_checksum csum (outgoing_header c f seq)).
Proof. intros. unfold header_ok; simpl. repeat split; try apply bytes.bswap16_range; try apply bytes.bswap32_range; lia. Qed.

Lemma tcp_send_segment la w m nm fm cb out h c f seq data :
  wrep w m nm fm cb out -> m !! h = Some c -> zlen data + 20 < 1500 -> checksum.bytes_ok data ->
  exists w' d csum, send_segment la h f seq data w = Ret (tt, w') /\
    wrep w' (<[h := set_next (u32 (seq + zlen data)) c]> m) nm fm cb (out ++ [d]) /\ 0 <= csum < 2 ^ 16 /\
    let empty := ((has (Z.lor f ACK) SYN || has (Z.lor f ACK) FIN) && (zlen data =? 1)) || (zlen data =? 0) in
    d = mk_out (ipaddr (remote c))
          (header_bytes (set_checksum csum (outgoing_header c (Z.lor f ACK) seq)) ++ (if empty then [] else data)).
Proof.
  intros Hw Hc Hlen Hb. unfold send_segment.
  rewrite (stM_bind_Ret _ _ _ _ _ (tcp_get _ _ _ _ _ _ _ _ Hw Hc)). cbv zeta.
  set (f1 := Z.lor f ACK). set (empty := ((has f1 SYN || has f1 FIN) && (zlen data =? 1)) || (zlen data =? 0)).
  pose proof (zlen_nonneg data).
  destruct (tcp_header_bytes_ok (outgoing_header c f1 seq)) as [Hhb Hhl].
  assert (checksum.bytes_ok (if empty then [] else data) /\ 0 <= zlen (if empty then [] else data) < 1500) as [Hpb Hpl]
    by (destruct empty; split; [constructor|vm_compute; split; congruence|assumption|lia]).
  pose proof (checksum.csum_tcp la (ipaddr (remote c)) PROTO_TCP _ _ Hhb Hpb ltac:(rewrite Hhl; lia)) as Ec.
  set (csum := 65535 - _) in Ec.
  assert (0 <= csum < 2 ^ 16) as Hcs.
  { pose proof (checksum.wsum_nonneg _ Hhb). pose proof (checksum.wsum_nonneg _ Hpb).
    pose proof (checksum.wsum_nonneg _ (checksum.csum_pseudo_ok la (ipaddr (remote c)) PROTO_TCP
      (zlen (header_bytes (outgoing_header c f1 seq)) + zlen (if empty then [] else data)))).
    unfold csum. match goal with |- context [checksum.ones_norm ?s] => pose proof (checksum.csum_norm_range s ltac:(lia)) end. lia. }
  clearbody csum. rewrite (stM_bind_Ret _ _ _ csum w) by (unfold lift; rewrite Ec; reflexivity).
  rewrite (stM_bind_Ret _ _ _ tt w).
  2:{ unfold sassert, lift. rewrite passert_true; [reflexivity|]. destruct empty; [reflexivity|]. simpl. lia. }
  match goal with |- context [smodify (emit ?x)] => set (d := x) end.
  rewrite (stM_bind_Ret _ _ _ tt (emit d w)) by reflexivity.
  assert (wrep (emit d w) m nm fm cb (out ++ [d])) as Hw1.
  { destruct Hw as [H1 H2 H3 H4 H5 H6 H7 H8]. split; simpl; auto. rewrite H8. reflexivity. }
  destruct (tcp_upd _ _ _ _ _ _ h c (set_next (u32 (seq + zlen data))) Hw1 Hc) as (w2 & -> & Hw2).
  exists w2, d, csum. split; [reflexivity|]. split; [assumption|]. split; [assumption|reflexivity].
Qed.

(** ** [step] on a connection with nothing to do *)

Definition quiet (c : connection) : Prop :=
  receive_queue.has_readable (rx_queue c) = Ret false /\ send_queue.has_readable (tx_queue c) = false.

Lemma tcp_step_rx_quiet app w m nm fm cb out h c fuel : wrep w m nm fm cb out -> m !! h = Some c ->
  receive_queue.has_readable (rx_queue c) = Ret false -> step_rx app (S fuel) h w = Ret (tt, w).
Proof.
  intros Hw Hc Hq. cbn [step_rx]. rewrite (stM_bind_Ret _ _ _ _ _ (tcp_get _ _ _ _ _ _ _ _ Hw Hc)).
  rewrite (stM_bind_Ret _ _ _ false w) by (unfold lift; rewrite Hq; reflexivity). reflexivity.
Qed.

Lemma tcp_step_tx_quiet la w m nm fm cb out h c fuel : wrep w m nm fm cb out -> m !! h = Some c ->
  send_queue.has_readable (tx_queue c) = false -> step_tx la (S fuel) h w = Ret (tt, w).
Proof.
  intros Hw Hc Hq. cbn [step_tx]. rewrite (stM_bind_Ret _ _ _ _ _ (tcp_get _ _ _ _ _ _ _ _ Hw Hc)). rewrite Hq. reflexivity.
Qed.

Lemma tcp_step_quiet la app w m nm fm cb out h c : wrep w m nm fm cb out -> m !! h = Some c -> quiet c ->
  step la app h w = Ret (tt, w).
Proof.
  intros Hw Hc [Hrx Htx]. unfold step. rewrite (stM_bind_Ret _ _ _ _ _ (tcp_get _ _ _ _ _ _ _ _ Hw Hc)).
  rewrite (stM_bind_Ret _ _ _ false w) by (unfold lift; rewrite Hrx; reflexivity).
  rewrite (stM_bind_Ret _ _ _ _ _ (tcp_step_rx_quiet app w m nm fm cb out h c 200 Hw Hc Hrx)).
  rewrite (stM_bind_Ret _ _ _ _ _ (tcp_get _ _ _ _ _ _ _ _ Hw Hc)). cbn [andb].
  rewrite (stM_bind_Ret _ _ _ tt w) by reflexivity.
  apply (tcp_step_tx_quiet la w m nm fm cb out h c 100 Hw Hc Htx).
Qed.

Lemma tcp_fresh_quiet c : fresh c -> quiet c.
Proof.
  intros [Htx Hrx]. split.
  - apply (receive_queue.rq_has_readable_false _ ∅ Hrx). reflexivity.
  - rewrite (send_queue.sq_has_readable _ _ Htx). reflexivity.
Qed.

(** ** Accepting a connection *)

Lemma tcp_transmit w m nm fm cb out h c sp f bytes send : wrep w m nm fm cb out -> m !! h = Some c ->
  send_queue.rep (tx_queue c) sp ->
  zlen (send_queue.payload (send_queue.sp_segs sp)) + zlen bytes <= send_queue.BUF ->
  zlen (send_queue.sp_segs sp) < send_queue.SEGS -> send_queue.sp_write sp + zlen bytes < 2 ^ 32 ->
  0 <= send <= zlen bytes ->
  exists w' q, transmit h f bytes send w = Ret (tt, w') /\ wrep w' (<[h := set_tx q c]> m) nm fm cb out /\
    send_queue.rep q (send_queue.sp_append sp (send_queue.mk_aseg f bytes send)).
Proof.
  intros Hw Hc Hq H1 H2 H3 H4. unfold transmit. rewrite (stM_bind_Ret _ _ _ _ _ (tcp_get _ _ _ _ _ _ _ _ Hw Hc)).
  destruct (send_queue.sq_write_back (tx_queue c) sp f bytes send 0 0 Hq H1 H2 H3 H4) as (q & E & Hq').
  pose proof (send_queue.rep_write _ _ Hq) as [Ew _]. unfold send_queue.write_cursor. rewrite Ew.
  rewrite (stM_bind_Ret _ _ _ (q, true) w) by (unfold lift; rewrite E; reflexivity). cbv beta iota.
  destruct (tcp_upd _ _ _ _ _ _ h c (set_tx q) Hw Hc) as (w' & -> & Hw'). eauto.
Qed.

(** One turn of the receive loop: the segment at the cursor goes to the state. *)
Lemma tcp_step_rx_turn app w m nm fm cb out h c fuel M base sm i s :
  wrep w m nm fm cb out -> m !! h = Some c -> receive_queue.inv (rx_queue c) M base sm -> sm !! i = Some s ->
  rs_seqnbr s = receive_queue.read_cursor (rx_queue c) -> rs_length s <= STEP_BUF ->
  receive_queue.has_readable (rx_queue c) = Ret true /\
  exists w' q, receive_queue.inv q M base (delete i sm) /\
    receive_queue.read_cursor q = receive_queue.read_cursor (rx_queue c) + rs_length s /\
    wrep w' (<[h := set_rx q c]> m) nm fm cb out /\
    step_rx app (S fuel) h w =
      (sequenced_recv app (state c) h s
         (receive_queue.piece M (receive_queue.read_cursor (rx_queue c) - base) (rs_length s));; step_rx app fuel h) w'.
Proof.
  intros Hw Hc Hinv Hi Hs Hlen. pose proof Hinv as [Hm _ [Hb Hwrap] Hcur Hpend _ _]. pose proof (Hpend i s Hi).
  destruct (receive_queue.rq_has_readable (rx_queue c) sm i s Hm Hi) as (j & r & Ehr & _ & Hj & Hmin).
  { unfold receive_queue.BUF, receive_queue.SEQ_MAX in *. lia. }
  assert (receive_queue.has_readable (rx_queue c) = Ret true) as Etrue.
  { rewrite Ehr. f_equal. apply Z.eqb_eq. pose proof (Hmin i s Hi). pose proof (Hpend j r Hj). lia. }
  split; [assumption|].
  destruct (receive_queue.rq_read (rx_queue c) M base sm i s STEP_BUF Hinv Hi Hs Hlen) as (q & Er & Hinv' & Hc').
  cbn [step_rx]. rewrite (stM_bind_Ret _ _ _ _ _ (tcp_get _ _ _ _ _ _ _ _ Hw Hc)).
  rewrite (stM_bind_Ret _ _ _ true w) by (unfold lift; rewrite Etrue; reflexivity). cbv beta iota.
  rewrite (stM_bind_Ret _ _ _ (q, (s, receive_queue.piece M (receive_queue.read_cursor (rx_queue c) - base) (rs_length s))) w)
    by (unfold lift; rewrite Er; reflexivity). cbv beta iota.
  destruct (tcp_upd _ _ _ _ _ _ h c (set_rx q) Hw Hc) as (w' & E' & Hw').
  rewrite (stM_bind_Ret _ _ _ _ _ E'). exists w', q. auto.
Qed.

(** One turn of the transmit loop *)
Lemma tcp_step_tx_turn la w m nm fm cb out h c fuel sp a :
  wrep w m nm fm cb out -> m !! h = Some c -> send_queue.rep (tx_queue c) sp ->
  znth (send_queue.sp_segs sp) (send_queue.sp_read sp) = Some a -> zlen (send_queue.a_bytes a) <= STEP_BUF ->
  send_queue.sp_ack sp + send_queue.BUF < 2 ^ 32 ->
  exists w' q, send_queue.rep q (send_queue.sp_advance sp) /\ wrep w' (<[h := set_tx q c]> m) nm fm cb out /\
    step_tx la (S fuel) h w =
      (send_segment la h (send_queue.a_flags a) (send_queue.sp_next_seq sp) (send_queue.a_bytes a);; step_tx la fuel h) w'.
Proof.
  intros Hw Hc Hq Ha Hlen Hwrap. cbn [step_tx]. rewrite (stM_bind_Ret _ _ _ _ _ (tcp_get _ _ _ _ _ _ _ _ Hw Hc)).
  pose proof (znth_Some_lt _ _ _ Ha). rewrite (send_queue.sq_has_readable _ _ Hq), (proj2 (Z.ltb_lt _ _)) by lia.
  destruct (send_queue.sq_read (tx_queue c) sp a STEP_BUF Hq Ha Hlen Hwrap) as (q & Er & Hq').
  rewrite (stM_bind_Ret _ _ _ (q, Some (mk_send_segment (send_queue.a_flags a) (send_queue.sp_next_seq sp)
      (zlen (send_queue.a_bytes a)) (send_queue.a_send a), send_queue.a_bytes a)) w)
    by (unfold lift; rewrite Er; reflexivity). cbv beta iota.
  destruct (tcp_upd _ _ _ _ _ _ h c (set_tx q) Hw Hc) as (w' & E' & Hw').
  rewrite (stM_bind_Ret _ _ _ _ _ E'). exists w', q. auto.
Qed.

(** A connection that has just been created for a SYN *)
Record syn_received (c : connection) (base f : Z) : Prop := {
  sr_state : state c = SYN_RCVD;
  sr_base : 0 <= base /\ base + 65537 < receive_queue.SEQ_MAX;
  sr_rx : exists i, receive_queue.inv (rx_queue c) phantom base {[ i := mk_recv_segment f base 1 ]};
  sr_cursor : receive_queue.read_cursor (rx_queue c) = base;
  sr_syn : has f SYN = true;
  sr_tx : send_queue.rep (tx_queue c) (send_queue.mk_spec ISN [] 0)
}.

(** The answer to a SYN, as the receiver parses it *)
Definition syn_ack (c : connection) (base : Z) (d : out_datagram) : Prop :=
  out_dest d = ipaddr (remote c) /\ zlen (out_bytes d) = 20 /\
  let r := parse_header (out_bytes d) in
  src_port r = u16 (port (local c)) /\ dest_port r = u16 (port (remote c)) /\
  seq_nbr r = ISN /\ ack_nbr r = base + 1 /\ Z.land (flags_hdrsz r) 0x1FF = Z.lor SYN ACK.

Lemma tcp_syn_ack_wire c base csum : 0 <= base < 2 ^ 32 - 1 -> 0 <= csum < 2 ^ 16 ->
  0 <= port (local c) < 2 ^ 16 -> 0 <= port (remote c) < 2 ^ 16 ->
  receive_queue.read_cursor (rx_queue c) = base + 1 ->
  syn_ack c base (mk_out (ipaddr (remote c)) (header_bytes (set_checksum csum (outgoing_header c (Z.lor SYN ACK) ISN)) ++ [])).
Proof.
  intros Hb Hcs Hlp Hrp Hcur. unfold syn_ack. cbn [out_dest out_bytes]. split; [reflexivity|]. split; [reflexivity|].
  cbv zeta. rewrite (tcp_parse_header_bytes _ []) by (apply tcp_outgoing_header_ok; assumption).
  cbn [src_port dest_port seq_nbr ack_nbr flags_hdrsz set_checksum outgoing_header].
  rewrite !bytes.ntohs_htons, !bytes.ntohl_htonl by (rewrite ?Hcur; unfold ISN; lia || (vm_compute; split; congruence)).
  rewrite !u16_small by assumption. repeat split. rewrite Hcur. reflexivity.
Qed.

Lemma tcp_phantom_segment base : receive_queue.piece phantom (base - base) 1 = phantom.
Proof. rewrite Z.sub_diag. reflexivity. Qed.

(** The receive loop on such a connection: the SYN is consumed and answered. *)
Lemma tcp_syn_rx app w m nm fm cb out h c base f : wrep w m nm fm cb out -> m !! h = Some c -> syn_received c base f ->
  receive_queue.has_readable (rx_queue c) = Ret true /\
  exists w' qr qt, step_rx app 201 h w = Ret (tt, w') /\ wrep w' (<[h := set_tx qt (set_rx qr c)]> m) nm fm cb out /\
    receive_queue.inv qr phantom base ∅ /\ receive_queue.read_cursor qr = base + 1 /\ receive_queue.has_readable qr = Ret false /\
    send_queue.rep qt (send_queue.mk_spec ISN [send_queue.mk_aseg SYN phantom 0] 0).
Proof.
  intros Hw Hc [Hst Hb [i Hrx] Hcur Hsyn Htx].
  destruct (tcp_step_rx_turn app w m nm fm cb out h c 200 phantom base _ i _ Hw Hc Hrx (lookup_singleton_eq _ _))
    as (Etrue & w1 & qr & Hinv & Hcur1 & Hw1 & E1); [symmetry; assumption|vm_compute; congruence|].
  split; [assumption|]. rewrite E1, Hcur. cbn [rs_length]. rewrite tcp_phantom_segment, Hst. cbn [sequenced_recv rs_flags].
  rewrite Hsyn. cbn [negb]. rewrite delete_singleton_eq in Hinv.
  destruct (tcp_transmit w1 _ nm fm cb out h (set_rx qr c) (send_queue.mk_spec ISN [] 0) SYN phantom 0 Hw1
              (lookup_insert_eq _ _ _) Htx) as (w2 & qt & E2 & Hw2 & Hqt).
  1-4: unfold send_queue.sp_write; cbn [send_queue.sp_segs send_queue.sp_ack];
    change (zlen (send_queue.payload [])) with 0; change (zlen (@nil send_queue.aseg)) with 0;
    change (zlen phantom) with 1; unfold send_queue.BUF, send_queue.SEGS, ISN; lia.
  rewrite (stM_bind_Ret _ _ _ _ _ E2). rewrite insert_insert_eq in Hw2.
  assert (receive_queue.has_readable qr = Ret false) as Hq
    by (apply (receive_queue.rq_has_readable_false qr ∅); [apply Hinv|reflexivity]).
  exists w2, qr, qt. split.
  - eapply (tcp_step_rx_quiet app w2 _ nm fm cb out h _ 199 Hw2); [apply lookup_insert_eq|assumption].
  - split; [assumption|]. split; [exact Hinv|]. split; [rewrite Hcur1, Hcur; reflexivity|]. auto.
Qed.

(** The same connection when its SYN has been answered *)
Record opened (c : connection) (base : Z) : Prop := {
  op_state : state c = SYN_RCVD;
  op_rx : receive_queue.inv (rx_queue c) phantom base ∅;
  op_cursor : receive_queue.read_cursor (rx_queue c) = base + 1;
  op_tx : send_queue.rep (tx_queue c) (send_queue.mk_spec ISN [send_queue.mk_aseg SYN phantom 0] 1);
  op_next : next_outgoing_seqnbr c = ISN + 1
}.

(** [step] on such a connection sends exactly the SYN-ACK. *)
Lemma tcp_step_syn la app w m nm fm cb out h c base f : wrep w m nm fm cb out -> m !! h = Some c ->
  syn_received c base f -> 0 <= port (local c) < 2 ^ 16 -> 0 <= port (remote c) < 2 ^ 16 ->
  exists w' c' d, step la app h w = Ret (tt, w') /\ wrep w' (<[h := c']> m) nm fm cb (out ++ [d]) /\
    opened c' base /\ remote c' = remote c /\ local c' = local c /\ callback c' = callback c /\ syn_ack c base d.
Proof.
  intros Hw Hc Hsr Hlp Hrp. pose proof Hsr as [Hst [Hb Hb2] _ _ _ _].
  destruct (tcp_syn_rx app w m nm fm cb out h c base f Hw Hc Hsr) as (Etrue & w1 & qr & qt & E1 & Hw1 & Hinv & Hcur & Hquiet & Hqt).
  unfold step. rewrite (stM_bind_Ret _ _ _ _ _ (tcp_get _ _ _ _ _ _ _ _ Hw Hc)).
  rewrite (stM_bind_Ret _ _ _ true w) by (unfold lift; rewrite Etrue; reflexivity).
  rewrite (stM_bind_Ret _ _ _ _ _ E1).
  rewrite (stM_bind_Ret _ _ _ _ _ (tcp_get _ _ _ _ _ _ _ _ Hw1 (lookup_insert_eq _ _ _))).
  cbn [tx_queue set_tx]. rewrite (send_queue.sq_has_readable _ _ Hqt). cbn [send_queue.sp_read send_queue.sp_segs].
  rewrite (stM_bind_Ret _ _ _ tt w1) by reflexivity.
  destruct (tcp_step_tx_turn la w1 _ nm fm cb out h _ 100 _ (send_queue.mk_aseg SYN phantom 0) Hw1 (lookup_insert_eq _ _ _) Hqt
              eq_refl) as (w2 & q2 & Hq2 & Hw2 & ->); [vm_compute; congruence|vm_compute; reflexivity|].
  rewrite insert_insert_eq in Hw2. cbn [send_queue.a_flags send_queue.a_bytes].
  destruct (tcp_send_segment la w2 _ nm fm cb out h _ SYN (send_queue.sp_next_seq (send_queue.mk_spec ISN [send_queue.mk_aseg SYN phantom 0] 0))
              phantom Hw2 (lookup_insert_eq _ _ _)) as (w3 & d & csum & E3 & Hw3 & Hcs & Hd).
  { vm_compute. reflexivity. }
  { repeat constructor; unfold bytes.byte_ok; lia. }
  rewrite (stM_bind_Ret _ _ _ _ _ E3). rewrite insert_insert_eq in Hw3.
  eexists w3, _, d. split.
  - eapply (tcp_step_tx_quiet la w3 _ nm fm cb (out ++ [d]) h _ 99 Hw3); [apply lookup_insert_eq|].
    cbn [tx_queue set_next set_tx]. rewrite (send_queue.sq_has_readable _ _ Hq2). reflexivity.
  - split; [eassumption|]. split; [split; [assumption|exact Hinv|assumption|exact Hq2|reflexivity]|]. split; [reflexivity|]. split; [reflexivity|]. split; [reflexivity|].
    rewrite Hd. unfold receive_queue.SEQ_MAX in *.
    apply (tcp_syn_ack_wire (set_tx q2 (set_tx qt (set_rx qr c))) base csum); [lia|assumption..].
Qed.

(** What [early_recv] of the listener sets up *)
Lemma tcp_listen_syn w m nm fm cb out h md data n : wrep w m nm fm cb out ->
  Z.of_nat (base.size m) < 40 -> Z.of_nat (base.size nm) < 10 -> has (flags md) SYN = true ->
  0 <= seq_nbr (tcp_header md) -> seq_nbr (tcp_header md) + 65537 < receive_queue.SEQ_MAX ->
  exists w' id k c, early_recv LISTEN h md data n w = Ret (tt, w') /\ m !! id = None /\ nm !! k = None /\
    wrep w' (<[id := c]> m) (<[k := id]> nm) fm cb out /\ syn_received c (seq_nbr (tcp_header md)) (flags md) /\
    remote c = mk_endpoint (src_addr (datagram md)) (src_port (tcp_header md)) /\
    local c = mk_endpoint (dest_addr (datagram md)) (dest_port (tcp_header md)) /\ callback c = cb.
Proof.
  intros Hw Hm Hn Hsyn Hs1 Hs2. cbn [early_recv]. rewrite Hsyn. cbn [negb].
  destruct (tcp_create _ _ _ _ _ _ (mk_endpoint (src_addr (datagram md)) (src_port (tcp_header md)))
      (mk_endpoint (dest_addr (datagram md)) (dest_port (tcp_header md))) SYN_RCVD Hw Hm Hn) as (w1 & id & k & E1 & Hid & Hk & Hw1).
  rewrite (stM_bind_Ret _ _ _ _ _ E1). unfold reset_rx, reset_tx.
  destruct (tcp_upd _ _ _ _ _ _ id _ (fun c => set_rx (receive_queue.reset (rx_queue c) (seq_nbr (tcp_header md))) c) Hw1
              (lookup_insert_eq _ _ _)) as (w2 & E2 & Hw2).
  rewrite (stM_bind_Ret _ _ _ _ _ E2). rewrite insert_insert_eq in Hw2.
  destruct (tcp_upd _ _ _ _ _ _ id _ (fun c => set_tx (send_queue.reset (tx_queue c) ISN) c) Hw2
              (lookup_insert_eq _ _ _)) as (w3 & E3 & Hw3).
  rewrite (stM_bind_Ret _ _ _ _ _ E3). rewrite insert_insert_eq in Hw3. unfold sequence.
  rewrite (stM_bind_Ret _ _ _ _ _ (tcp_get _ _ _ _ _ _ _ _ Hw3 (lookup_insert_eq _ _ _))).
  change (1 <=? zlen phantom) with true. cbv iota. cbn [rx_queue set_tx set_rx new_connection].
  assert (receive_queue.inv (receive_queue.reset receive_queue.init (seq_nbr (tcp_header md))) phantom
            (seq_nbr (tcp_header md)) ∅) as Hinv.
  { apply receive_queue.rq_init; [assumption|]. change (zlen phantom) with 1. unfold receive_queue.BUF. lia. }
  destruct (receive_queue.rq_insert _ _ _ _ (flags md) 0 1 Hinv) as (q & i & Eq & Hi & Hinvq & Hcq).
  1-5: rewrite ?map_size_empty; cbn [receive_queue.read_cursor receive_queue.reset]; try (vm_compute; congruence); try lia.
  { unfold receive_queue.BUF. lia. }
  { intros j s. rewrite lookup_empty. discriminate. }
  rewrite Z.add_0_r in Eq, Hinvq. change (receive_queue.piece phantom 0 1) with (take (Z.to_nat 1) phantom) in Eq.
  rewrite (stM_bind_Ret _ _ _ (q, true) w3) by (unfold lift; rewrite Eq; reflexivity). cbv beta iota.
  destruct (tcp_upd _ _ _ _ _ _ id _ (set_rx q) Hw3 (lookup_insert_eq _ _ _)) as (w4 & -> & Hw4).
  rewrite insert_insert_eq in Hw4. eexists w4, id, k, _. split; [reflexivity|]. split; [assumption|]. split; [assumption|].
  split; [eassumption|]. split; [|auto]. split; auto.
  - exists i. exact Hinvq.
  - cbn [tx_queue set_rx set_tx]. eapply send_queue.sq_reset; [apply send_queue.sq_init|vm_compute; split; congruence].
Qed.

(** The header fields of any segment are in range. *)
Lemma tcp_ports_range data : 0 <= src_port (parse_header data) < 2 ^ 16 /\ 0 <= dest_port (parse_header data) < 2 ^ 16.
Proof. split; apply bytes.bswap16_range. Qed.

Lemma tcp_step_new la app w m k h fm cb out w1 m1 out1 :
  wrep w m {[ k := h ]} fm cb out -> is_Some (m !! h) ->
  step la app h w = Ret (tt, w1) -> wrep w1 m1 {[ k := h ]} fm cb out1 ->
  exists w', step_new_connections la app w = Ret (tt, w') /\ wrep w' m1 ∅ fm cb out1.
Proof.
  intros Hw [c Hc] E Hw1. pose proof Hw as [[fl Hr] _ Hn _ _ _ _ _]. unfold step_new_connections.
  rewrite (stM_bind_Ret _ _ _ w w) by reflexivity. rewrite (fp_entries_singleton _ _ _ Hn).
  rewrite (stM_bind_Ret _ _ _ tt w1).
  2:{ cbn [sforeach]. rewrite (stM_bind_Ret _ _ _ w w) by reflexivity.
      rewrite (pool.pool_valid_true _ _ _ _ _ _ Hr Hc), E. reflexivity. }
  eexists. split; [reflexivity|]. destruct Hw1 as [H1 H2 H3 H4 H5 H6 H7 H8]. split; simpl; auto.
  eapply fp_clear. exact H3.
Qed.

Lemma tcp_destroy_none w m nm cb out : wrep w m nm ∅ cb out ->
  exists w', destroy_finished_connections w = Ret (tt, w') /\ wrep w' m nm ∅ cb out.
Proof.
  intros [H1 H2 H3 H4 H5 H6 H7 H8]. unfold destroy_finished_connections. rewrite (stM_bind_Ret _ _ _ w w) by reflexivity.
  rewrite (fp_entries_empty _ H5). rewrite (stM_bind_Ret _ _ _ tt w) by reflexivity.
  eexists. split; [reflexivity|]. split; simpl; auto. eapply fp_clear. exact H5.
Qed.

(** A SYN for a listening endpoint *)
Lemma tcp_syn_opens la app w m cb out dg data h c :
  wrep w m ∅ ∅ cb out -> Z.of_nat (base.size m) < 40 -> 20 <= zlen data ->
  matching w dg data = Some h -> m !! h = Some c -> state c = LISTEN -> fresh c ->
  seg_flags data = SYN -> seq_nbr (parse_header data) + 65537 < receive_queue.SEQ_MAX ->
  exists w' id c' d, protocol_on_receive la app dg data w = Ret (tt, w') /\ m !! id = None /\
    wrep w' (<[id := c']> m) ∅ ∅ cb (out ++ [d]) /\ opened c' (seq_nbr (parse_header data)) /\ callback c' = cb /\
    remote c' = mk_endpoint (src_addr dg) (src_port (parse_header data)) /\
    local c' = mk_endpoint (dest_addr dg) (dest_port (parse_header data)) /\ syn_ack c' (seq_nbr (parse_header data)) d.
Proof.
  intros Hw Hsz Hlen Hmatch Hc Hst Hfresh Hflags Hseq. unfold protocol_on_receive.
  rewrite (proj2 (Z.ltb_ge _ _)) by lia. cbv zeta. rewrite (stM_bind_Ret _ _ _ w w) by reflexivity.
  unfold matching in Hmatch. rewrite Hmatch. fold (seg_flags data). rewrite Hflags.
  set (md := mk_metadata (parse_header data) dg SYN).
  set (body := drop _ data). set (n := u32 _).
  destruct (tcp_ports_range data) as [Hsp Hdp].
  assert (0 <= seq_nbr (parse_header data)) as Hs0 by apply bytes.bswap32_range.
  destruct (tcp_listen_syn w m ∅ ∅ cb out h md body n Hw Hsz ltac:(rewrite map_size_empty; lia) eq_refl Hs0 Hseq)
    as (w1 & id & k & c1 & E1 & Hid & _ & Hw1 & Hsr & Hrem & Hloc & Hcb).
  assert (h <> id) as Hne by congruence.
  assert ((<[id := c1]> m) !! h = Some c) as Hc1 by (rewrite lookup_insert_ne; congruence).
  assert (on_receive la app h md body n w = Ret (tt, w1)) as E2.
  { unfold on_receive. rewrite (stM_bind_Ret _ _ _ _ _ (tcp_get _ _ _ _ _ _ _ _ Hw Hc)), Hst.
    rewrite (stM_bind_Ret _ _ _ _ _ E1). change (has (flags md) ACK) with false. cbv iota.
    rewrite (stM_bind_Ret _ _ _ tt w1) by reflexivity.
    apply (tcp_step_quiet la app w1 _ _ _ _ _ h c Hw1 Hc1). apply tcp_fresh_quiet. assumption. }
  rewrite (stM_bind_Ret _ _ _ _ _ E2).
  destruct (tcp_step_syn la app w1 _ _ _ _ _ id c1 _ _ Hw1 (lookup_insert_eq _ _ _) Hsr)
    as (w2 & c2 & d & E3 & Hw2 & Hop & Hr2 & Hl2 & Hcb2 & Hd); [rewrite Hloc; exact Hdp|rewrite Hrem; exact Hsp|].
  rewrite insert_insert_eq in Hw2.
  destruct (tcp_step_new la app w1 _ k id _ _ _ w2 _ _ Hw1 ltac:(rewrite lookup_insert_eq; eauto) E3 Hw2) as (w3 & E4 & Hw3).
  rewrite (stM_bind_Ret _ _ _ _ _ E4).
  destruct (tcp_destroy_none w3 _ _ _ _ Hw3) as (w4 & E5 & Hw4). rewrite E5.
  exists w4, id, c2, d. split; [reflexivity|]. split; [exact Hid|]. split; [exact Hw4|]. split; [exact Hop|]. split; [exact (eq_trans Hcb2 Hcb)|]. split; [exact (eq_trans Hr2 Hrem)|]. split; [exact (eq_trans Hl2 Hloc)|].
  unfold syn_ack in *. rewrite Hr2, Hl2. exact Hd.
Qed.


(** A SYN from port 5555 to port 8080 *)
Definition syn_probe : list Z :=
  header_bytes (mk_header (bytes.htons 5555) (bytes.htons 8080) (bytes.htonl 1000) 0 (bytes.htons 0x5002) 0 0 0).


(** ** Empty acknowledgements *)

(** An established connection with nothing pending in either direction *)
Record idle (c : connection) (r p : Z) : Prop := {
  id_segments : fp_model (receive_queue.segments (rx_queue c)) ∅;
  id_capacity : pool.capacity (receive_queue.segments (rx_queue c)) = receive_queue.SEGS;
  id_buffer : ring_buffer.rep receive_queue.BUF (receive_queue.data_buffer (rx_queue c)) [];
  id_cursor : receive_queue.read_cursor (rx_queue c) = r /\ 0 <= r /\ r + receive_queue.BUF < receive_queue.SEQ_MAX;
  id_tx : send_queue.rep (tx_queue c) (send_queue.mk_spec p [] 0)
}.

(** An empty segment at the cursor is queued and becomes readable ... *)
Lemma tcp_insert_empty q r f : fp_model (receive_queue.segments q) ∅ ->
  pool.capacity (receive_queue.segments q) = receive_queue.SEGS ->
  ring_buffer.rep receive_queue.BUF (receive_queue.data_buffer q) [] ->
  receive_queue.read_cursor q = r -> 0 <= r -> r + receive_queue.BUF < receive_queue.SEQ_MAX ->
  exists q' i, receive_queue.insert q (mk_recv_segment f r 0) [] = Ret (q', true) /\
    receive_queue.has_readable q' = Ret true /\ receive_queue.find_front_segment q' = Ret i /\
    fp_model (receive_queue.segments q') {[ i := mk_recv_segment f r 0 ]} /\
    pool.capacity (receive_queue.segments q') = receive_queue.SEGS /\
    ring_buffer.rep receive_queue.BUF (receive_queue.data_buffer q') [] /\ receive_queue.read_cursor q' = r.
Proof.
  intros [fl Hr] Hcap Hbuf Hcur H0 Hmax. unfold receive_queue.insert, receive_queue.SEGS, receive_queue.BUF, receive_queue.SEQ_MAX in *.
  rewrite (pool.pool_full _ _ _ _ Hr), Hcap, map_size_empty. change (200 <=? Z.of_nat 0) with false. cbv iota.
  unfold receive_queue.out_of_window, ring_buffer.capacity, receive_queue.BUF, receive_queue.SEQ_MAX. cbn [rs_seqnbr]. rewrite Hcur.
  rewrite (u32_small (_ - _)), (proj2 (Z.ltb_ge _ 65535)), Z.ltb_irrefl by lia.
  rewrite Z.sub_diag, ring_buffer.to_i32_id by (unfold INT_MAX; lia).
  destruct (ring_buffer.rb_write 65535 eq_refl receive_queue.rq_BUF_int _ [] [] 0 Hbuf) as (buf & -> & Hbuf'); [lia|vm_compute; congruence|].
  cbn [mbind outcome_bind negb].
  destruct (pool.pool_emplace_anywhere _ _ _ _ (mk_recv_segment f r 0) Hr) as (p1 & fl1 & i & -> & Hr1 & _ & _ & Hc1).
  { rewrite Hcap, map_size_empty. lia. }
  cbn [mbind outcome_bind].
  destruct (pool.pool_modify _ _ _ _ i _ (fun s => mk_recv_segment (rs_flags s) (rs_seqnbr s) (zlen (@nil Z))) Hr1
              (lookup_insert_eq _ _ _)) as (p2 & -> & Hr2 & Hc2). cbn [mbind outcome_bind rs_flags rs_seqnbr] in *.
  rewrite insert_insert_eq in Hr2. change (zlen (@nil Z)) with 0 in Hr2.
  set (q' := receive_queue.mk p2 buf r). exists q', i. split; [reflexivity|].
  assert (fp_model (receive_queue.segments q') (<[i := mk_recv_segment f r 0]> ∅)) as Hm by (exists fl1; exact Hr2).
  destruct (receive_queue.rq_has_readable q' _ i _ Hm (lookup_insert_eq _ _ _)) as (j & s & Eh & Ef & Hj & _).
  { unfold receive_queue.SEQ_MAX. simpl. lia. }
  apply lookup_insert_Some in Hj. destruct Hj as [[-> <-]|[_ Hj]]; [|rewrite lookup_empty in Hj; discriminate].
  cbn [rs_seqnbr] in Eh. replace (receive_queue.read_cursor q') with r in Eh by reflexivity. rewrite Z.eqb_refl in Eh.
  split; [assumption|]. split; [assumption|]. split; [exact Hm|]. split; [simpl; congruence|].
  split; [exact Hbuf'|reflexivity].
Qed.

(** ... and reading it leaves the queue as it was. *)
Lemma tcp_read_empty q r f i len : fp_model (receive_queue.segments q) {[ i := mk_recv_segment f r 0 ]} ->
  pool.capacity (receive_queue.segments q) = receive_queue.SEGS ->
  ring_buffer.rep receive_queue.BUF (receive_queue.data_buffer q) [] -> receive_queue.read_cursor q = r ->
  receive_queue.find_front_segment q = Ret i -> 0 <= r < 2 ^ 32 -> 0 <= len ->
  exists q', receive_queue.read_one_segment q len = Ret (q', (mk_recv_segment f r 0, [])) /\
    fp_model (receive_queue.segments q') ∅ /\ pool.capacity (receive_queue.segments q') = receive_queue.SEGS /\
    ring_buffer.rep receive_queue.BUF (receive_queue.data_buffer q') [] /\ receive_queue.read_cursor q' = r.
Proof.
  intros [fl Hr] Hcap Hbuf Hcur Hf H0 Hlen. unfold receive_queue.read_one_segment. rewrite Hf. cbn [mbind outcome_bind].
  pose proof (pool.rep_dom _ _ _ _ Hr i ltac:(rewrite lookup_singleton_eq; eauto)). pose proof (pool.rep_wm _ _ _ _ Hr).
  unfold receive_queue.SEGS, pool.capacity in *. rewrite u16_small by lia.
  rewrite (pool.pool_get _ _ _ _ _ _ Hr (lookup_singleton_eq _ _)). cbn [mbind outcome_bind rs_seqnbr rs_length].
  rewrite Hcur, Z.eqb_refl. cbn [passert mbind outcome_bind]. rewrite Z.min_r by lia.
  destruct (ring_buffer.rb_read_front receive_queue.BUF eq_refl receive_queue.rq_BUF_int _ [] 0 Hbuf ltac:(lia)) as (buf & -> & Hb').
  cbn [mbind outcome_bind]. rewrite take_nil. change (zlen [] =? 0) with true. cbn [passert mbind outcome_bind].
  destruct (pool.pool_erase _ _ _ _ _ _ Hr (lookup_singleton_eq _ _)) as (p & fl' & -> & Hr' & Hc').
  cbn [mbind outcome_bind]. rewrite delete_singleton_eq in Hr'. rewrite Z.add_0_r, u32_small by lia.
  eexists. split; [reflexivity|]. unfold pool.capacity in *. cbn [receive_queue.segments receive_queue.data_buffer receive_queue.read_cursor].
  split; [exists fl'; exact Hr'|]. split; [congruence|]. rewrite drop_nil in Hb'. auto.
Qed.

Lemma tcp_ack_idle q p : send_queue.rep q (send_queue.mk_spec p [] 0) ->
  exists q', send_queue.ack q p = Ret q' /\ send_queue.rep q' (send_queue.mk_spec p [] 0).
Proof.
  intros Hq. pose proof (send_queue.sq_ack q _ p Hq) as Ha. unfold send_queue.sp_write in Ha. cbn [send_queue.sp_ack send_queue.sp_segs] in Ha.
  change (zlen (send_queue.payload [])) with 0 in Ha. rewrite Z.add_0_r, Z.leb_refl in Ha. exact Ha.
Qed.

(** [early_recv] and the acknowledgement, on an idle connection *)
Lemma tcp_idle_early w m cb out h c r p hdr dg : wrep w m ∅ ∅ cb out -> m !! h = Some c -> state c = ESTABLISHED ->
  idle c r p -> seq_nbr hdr = r ->
  exists w' q i, early_recv ESTABLISHED h (mk_metadata hdr dg ACK) [] 0 w = Ret (tt, w') /\
    wrep w' (<[h := set_rx q c]> m) ∅ ∅ cb out /\ receive_queue.has_readable q = Ret true /\
    receive_queue.find_front_segment q = Ret i /\ fp_model (receive_queue.segments q) {[ i := mk_recv_segment ACK r 0 ]} /\
    pool.capacity (receive_queue.segments q) = receive_queue.SEGS /\
    ring_buffer.rep receive_queue.BUF (receive_queue.data_buffer q) [] /\ receive_queue.read_cursor q = r.
Proof.
  intros Hw Hc Hst [Hseg Hcap Hbuf (Hcur & H0 & Hmax) _] Hseq.
  cbn [early_recv flags]. change (has ACK FIN) with false. cbv iota. cbn [andb]. unfold sequence.
  rewrite (stM_bind_Ret _ _ _ _ _ (tcp_get _ _ _ _ _ _ _ _ Hw Hc)). change (0 <=? zlen []) with true. cbv iota.
  cbn [flags tcp_header]. rewrite Hseq. change (take (Z.to_nat 0) (@nil Z)) with (@nil Z).
  destruct (tcp_insert_empty (rx_queue c) r ACK Hseg Hcap Hbuf Hcur H0 Hmax) as (q & i & E & Hh & Hf & Hm & Hc' & Hb & Hcr).
  rewrite (stM_bind_Ret _ _ _ (q, true) w) by (unfold lift; rewrite E; reflexivity). cbv beta iota.
  destruct (tcp_upd _ _ _ _ _ _ h c (set_rx q) Hw Hc) as (w' & -> & Hw'). exists w', q, i. auto 10.
Qed.

(** [step] with an empty segment pending sends an empty acknowledgement. *)
Lemma tcp_idle_step la app w m cb out h c q i r p : wrep w m ∅ ∅ cb out -> m !! h = Some c -> state c = ESTABLISHED ->
  rx_queue c = q -> receive_queue.has_readable q = Ret true ->
  receive_queue.find_front_segment q = Ret i -> fp_model (receive_queue.segments q) {[ i := mk_recv_segment ACK r 0 ]} ->
  pool.capacity (receive_queue.segments q) = receive_queue.SEGS ->
  ring_buffer.rep receive_queue.BUF (receive_queue.data_buffer q) [] -> receive_queue.read_cursor q = r ->
  0 <= r -> r + receive_queue.BUF < receive_queue.SEQ_MAX -> send_queue.rep (tx_queue c) (send_queue.mk_spec p [] 0) ->
  (callback c = true -> app [] = []) ->
  exists w' c' csum, step la app h w = Ret (tt, w') /\ state c' = ESTABLISHED /\ idle c' r p /\ 0 <= csum < 2 ^ 16 /\
    remote c' = remote c /\ local c' = local c /\ callback c' = callback c /\
    wrep w' (<[h := c']> m) ∅ ∅ cb (out ++ [mk_out (ipaddr (remote c))
      (header_bytes (set_checksum csum (outgoing_header c' ACK (next_outgoing_seqnbr c))) ++ [])]).
Proof.
  intros Hw Hc Hst Hrx Hh Hf Hm Hcap Hbuf Hcur H0 Hmax Htx Happ. subst q. unfold step.
  rewrite (stM_bind_Ret _ _ _ _ _ (tcp_get _ _ _ _ _ _ _ _ Hw Hc)).
  rewrite (stM_bind_Ret _ _ _ true w) by (unfold lift; rewrite Hh; reflexivity).
  destruct (tcp_read_empty (rx_queue c) r ACK i STEP_BUF Hm Hcap Hbuf Hcur Hf) as (q' & Er & Hm' & Hcap' & Hbuf' & Hcur').
  { unfold receive_queue.BUF, receive_queue.SEQ_MAX in *. lia. }
  { vm_compute. congruence. }
  destruct (tcp_upd _ _ _ _ _ _ h c (set_rx q') Hw Hc) as (w1 & E1 & Hw1).
  assert (receive_queue.has_readable q' = Ret false) as Hq' by (apply (receive_queue.rq_has_readable_false _ ∅ Hm'); reflexivity).
  assert (step_rx app 201 h w = Ret (tt, w1)) as Erx.
  { cbn [step_rx]. rewrite (stM_bind_Ret _ _ _ _ _ (tcp_get _ _ _ _ _ _ _ _ Hw Hc)).
    rewrite (stM_bind_Ret _ _ _ true w) by (unfold lift; rewrite Hh; reflexivity). cbv beta iota.
    rewrite (stM_bind_Ret _ _ _ (q', (mk_recv_segment ACK r 0, [])) w) by (unfold lift; rewrite Er; reflexivity). cbv beta iota.
    rewrite (stM_bind_Ret _ _ _ _ _ E1), Hst. cbn [sequenced_recv rs_flags]. change (has ACK FIN) with false. cbv iota.
    rewrite (stM_bind_Ret _ _ _ tt w1).
    - apply (tcp_step_rx_quiet app w1 _ _ _ _ _ h _ 199 Hw1 (lookup_insert_eq _ _ _) Hq').
    - unfold on_full_receive. rewrite (stM_bind_Ret _ _ _ _ _ (tcp_get _ _ _ _ _ _ _ _ Hw1 (lookup_insert_eq _ _ _))).
      cbn [callback set_rx]. destruct (callback c); [rewrite Happ by reflexivity|]; reflexivity. }
  rewrite (stM_bind_Ret _ _ _ _ _ Erx).
  rewrite (stM_bind_Ret _ _ _ _ _ (tcp_get _ _ _ _ _ _ _ _ Hw1 (lookup_insert_eq _ _ _))).
  cbn [tx_queue set_rx next_outgoing_seqnbr]. rewrite (send_queue.sq_has_readable _ _ Htx).
  cbn [send_queue.sp_read send_queue.sp_segs]. change (0 <? zlen []) with false. cbn [andb negb].
  destruct (tcp_send_segment la w1 _ _ _ _ _ h _ 0 (next_outgoing_seqnbr c) [] Hw1 (lookup_insert_eq _ _ _))
    as (w2 & d & csum & E2 & Hw2 & Hcs & Hd); [vm_compute; reflexivity|constructor|].
  rewrite (stM_bind_Ret _ _ _ _ _ E2). rewrite insert_insert_eq in Hw2.
  eexists w2, _, csum. split.
  - apply (tcp_step_tx_quiet la w2 _ _ _ _ _ h _ 100 Hw2 (lookup_insert_eq _ _ _)).
    cbn [tx_queue set_next set_rx]. rewrite (send_queue.sq_has_readable _ _ Htx). reflexivity.
  - cbv zeta in Hd. change (Z.lor 0 ACK) with ACK in Hd. change (zlen (@nil Z) =? 0) with true in Hd.
    rewrite orb_true_r in Hd. rewrite Hd in Hw2.
    split; [|split; [|split; [|split; [|split; [|split; [|exact Hw2]]]]]]; try assumption; try reflexivity.
    split; cbn [rx_queue tx_queue set_next set_rx]; auto.
Qed.

Lemma tcp_step_new_none la app w m fm cb out : wrep w m ∅ fm cb out ->
  exists w', step_new_connections la app w = Ret (tt, w') /\ wrep w' m ∅ fm cb out.
Proof.
  intros [H1 H2 H3 H4 H5 H6 H7 H8]. unfold step_new_connections. rewrite (stM_bind_Ret _ _ _ w w) by reflexivity.
  rewrite (fp_entries_empty _ H3). rewrite (stM_bind_Ret _ _ _ tt w) by reflexivity.
  eexists. split; [reflexivity|]. split; simpl; auto. eapply fp_clear. exact H3.
Qed.

(** An established connection with nothing to send answers an empty
    acknowledgement with an empty acknowledgement and is back in the same
    situation, so two such hosts that exchange one never stop: the segments
    that carry no data are queued as if they did, which the comment on
    [connection::sequence] excludes. *)
Theorem tcp_empty_ack_answered (la : Z) (app : list Z -> list app_action) (w : world) (m : gmap Z connection)
    (cb : bool) (out : list out_datagram) (dg : datagram_metadata) (data : list Z) (h r p : Z) (c : connection) :
  wrep w m ∅ ∅ cb out -> zlen data = 20 -> matching w dg data = Some h -> m !! h = Some c ->
  state c = ESTABLISHED -> idle c r p -> (callback c = true -> app [] = []) ->
  Z.shiftr (flags_hdrsz (parse_header data)) 12 = 5 -> seg_flags data = ACK ->
  seq_nbr (parse_header data) = r -> ack_nbr (parse_header data) = p ->
  exists w' c' d, protocol_on_receive la app dg data w = Ret (tt, w') /\
    wrep w' (<[h := c']> m) ∅ ∅ cb (out ++ [d]) /\ state c' = ESTABLISHED /\ idle c' r p /\
    out_dest d = ipaddr (remote c) /\ zlen (out_bytes d) = 20 /\ seg_flags (out_bytes d) = ACK /\
    ack_nbr (parse_header (out_bytes d)) = r.
Proof.
  intros Hw Hlen Hmatch Hc Hst Hidle Happ Hhs Hflags Hseq Hack. unfold protocol_on_receive. rewrite Hlen.
  change (20 <? 20) with false. cbv iota zeta. rewrite (stM_bind_Ret _ _ _ w w) by reflexivity.
  unfold matching in Hmatch. rewrite Hmatch. fold (seg_flags data). rewrite Hflags, Hhs.
  change (u8 (5 * 4)) with 20. change (u32 (20 - 20)) with 0.
  rewrite drop_ge by (unfold zlen in Hlen; lia).
  destruct (tcp_idle_early w m cb out h c r p (parse_header data) dg Hw Hc Hst Hidle Hseq)
    as (w1 & q & i & E1 & Hw1 & Hh & Hf & Hm & Hcap & Hbuf & Hcur).
  destruct Hidle as [_ _ _ (_ & H0 & Hmax) Htx].
  destruct (tcp_ack_idle (tx_queue c) p Htx) as (qt & Ea & Hqt).
  destruct (tcp_upd _ _ _ _ _ _ h _ (set_tx qt) Hw1 (lookup_insert_eq _ _ _)) as (w2 & E2 & Hw2). rewrite insert_insert_eq in Hw2.
  destruct (tcp_idle_step la app w2 _ cb out h _ q i r p Hw2 (lookup_insert_eq _ _ _) Hst eq_refl Hh Hf Hm Hcap Hbuf Hcur H0 Hmax Hqt Happ)
    as (w3 & c3 & csum & E3 & Hst3 & Hid3 & Hcs & Hr3 & Hl3 & _ & Hw3). rewrite insert_insert_eq in Hw3.
  assert (on_receive la app h (mk_metadata (parse_header data) dg ACK) [] 0 w = Ret (tt, w3)) as Eon.
  { unfold on_receive. rewrite (stM_bind_Ret _ _ _ _ _ (tcp_get _ _ _ _ _ _ _ _ Hw Hc)), Hst.
    rewrite (stM_bind_Ret _ _ _ _ _ E1). change (has (flags (mk_metadata (parse_header data) dg ACK)) ACK) with true. cbv iota.
    rewrite (stM_bind_Ret _ _ _ tt w2); [exact E3|]. cbn [tcp_header]. rewrite Hack.
    rewrite (stM_bind_Ret _ _ _ _ _ (tcp_get _ _ _ _ _ _ _ _ Hw1 (lookup_insert_eq _ _ _))). cbn [tx_queue set_rx].
    rewrite (stM_bind_Ret _ _ _ qt w1) by (unfold lift; rewrite Ea; reflexivity).
    rewrite (stM_bind_Ret _ _ _ _ _ E2).
    rewrite (stM_bind_Ret _ _ _ _ _ (tcp_get _ _ _ _ _ _ _ _ Hw2 (lookup_insert_eq _ _ _))).
    cbn [state set_tx set_rx]. rewrite Hst. destruct (_ >=? _); reflexivity. }
  rewrite (stM_bind_Ret _ _ _ _ _ Eon).
  destruct (tcp_step_new_none la app w3 _ _ _ _ Hw3) as (w4 & E4 & Hw4). rewrite (stM_bind_Ret _ _ _ _ _ E4).
  destruct (tcp_destroy_none w4 _ _ _ _ Hw4) as (w5 & -> & Hw5).
  eexists w5, c3, _. split; [reflexivity|]. split; [exact Hw5|]. split; [assumption|]. split; [assumption|].
  cbn [out_dest out_bytes]. split; [reflexivity|]. split; [reflexivity|]. unfold seg_flags.
  rewrite (tcp_parse_header_bytes _ []) by (apply tcp_outgoing_header_ok; assumption).
  cbn [flags_hdrsz ack_nbr set_checksum outgoing_header]. destruct (id_cursor _ _ _ Hid3) as [-> _].
  split; [vm_compute; reflexivity|]. apply bytes.ntohl_htonl. unfold receive_queue.BUF, receive_queue.SEQ_MAX in *. lia.
Qed.

Lemma tcp_new_idle b id r l : idle (new_connection b id r l ESTABLISHED) 0 0.
Proof.
  split; cbn [rx_queue tx_queue new_connection].
  - apply fp_new. vm_compute. congruence.
  - apply (fp_new_capacity (T := tcp_recv_segment) receive_queue.SEGS). vm_compute. congruence.
  - apply queue.queue_rep_init; [apply receive_queue.rq_BUF_pos|]. rewrite zlen_replicate. reflexivity.
  - split; [reflexivity|]. vm_compute. split; congruence.
  - apply send_queue.sq_init.
Qed.

(** An empty acknowledgement from port 5555 to port 8080 *)
Definition empty_ack : list Z :=
  header_bytes (mk_header (bytes.htons 5555) (bytes.htons 8080) 0 0 (bytes.htons 0x5010) 0 0 0).

Lemma tcp_empty_ack_answered_witness :
  exists w w' d, protocol_on_receive 7 (fun _ => []) (mk_datagram 1 2) empty_ack w = Ret (tt, w') /\
    sent w = [] /\ sent w' = [d] /\ seg_flags (out_bytes d) = ACK.
Proof.
  destruct (tcp_create _ _ _ _ _ _ (mk_endpoint 1 5555) (mk_endpoint 2 8080) ESTABLISHED tcp_init_world)
    as (w & id & k & E & _ & _ & Hw); [vm_compute; reflexivity|vm_compute; reflexivity|].
  set (c := new_connection false id (mk_endpoint 1 5555) (mk_endpoint 2 8080) ESTABLISHED) in *.
  destruct (tcp_step_new 7 (fun _ => []) w _ k id _ _ _ w _ _ Hw ltac:(rewrite lookup_insert_eq; eauto)
    (tcp_step_quiet _ _ _ _ _ _ _ _ _ _ Hw (lookup_insert_eq _ _ _) (tcp_fresh_quiet _ (tcp_fresh_new _ _ _ _ _))) Hw)
    as (w1 & E1 & Hw1).
  destruct (tcp_empty_ack_answered 7 (fun _ => []) w1 _ _ _ (mk_datagram 1 2) empty_ack id 0 0 c Hw1)
    as (w2 & c2 & d & E2 & Hw2 & _ & _ & _ & _ & Hfl & _);
    [reflexivity|eapply tcp_match_single; [exact Hw1|vm_compute; congruence]|apply lookup_insert_eq|reflexivity
    |apply tcp_new_idle|reflexivity|vm_compute; reflexivity..|].
  exists w1, w2, d. split; [exact E2|]. split; [apply (wr_sent _ _ _ _ _ _ Hw1)|]. split; [apply (wr_sent _ _ _ _ _ _ Hw2)|exact Hfl].
Defined.
