(* ===== verification/TcpStates.v ===== *)
(** * The connection state machine of TCP

    [edge] is the graph of transitions the seven states of
    connection_state.cc can make.  Every handler of Tcp.v is shown to move
    each connection along paths of [edge] only, and to leave its endpoints
    alone. *)

From S2P Require Import Prelude Queue RingBuffer Pool NetUtils SendQueue ReceiveQueue Tcp.
From stdpp Require Import gmap list relations.
#[local] Open Scope Z_scope.

Import tcp.

Inductive edge : connection_state -> connection_state -> Prop :=
| edge_accept : edge SYN_RCVD ESTABLISHED
| edge_passive_close : edge ESTABLISHED LAST_ACK
| edge_active_close : edge ESTABLISHED FIN_WAIT_1
| edge_fin_acked : edge FIN_WAIT_1 FIN_WAIT_2
| edge_simultaneous : edge FIN_WAIT_1 CLOSING.

(** The connection a handle refers to *)
Definition conn (w : world) (h : Z) : option connection := pool.at_ U16_MAX (connections w) h.

(** The table is a well-formed pool. *)
Definition tab (w : world) : Prop := exists m, fp_model (connections w) m.

Definition related (R : connection_state -> connection_state -> Prop) (w w' : world) : Prop :=
  forall h c, conn w h = Some c ->
    exists c', conn w' h = Some c' /\ R (state c) (state c') /\ remote c' = remote c /\ local c' = local c.

Definition same : world -> world -> Prop := related eq.
Definition evolves : world -> world -> Prop := related (rtc edge).

Lemma st_related_trans R w1 w2 w3 : Transitive R -> related R w1 w2 -> related R w2 w3 -> related R w1 w3.
Proof.
  intros HT H1 H2 h c Hc. destruct (H1 h c Hc) as (c2 & Hc2 & HR2 & Er2 & El2).
  destruct (H2 h c2 Hc2) as (c3 & Hc3 & HR3 & Er3 & El3). exists c3. repeat split; [assumption| |congruence|congruence].
  etransitivity; eassumption.
Qed.

Lemma st_same_evolves w w' : same w w' -> evolves w w'.
Proof.
  intros H h c Hc. destruct (H h c Hc) as (c' & Hc' & -> & ? & ?). exists c'.
  repeat split; auto. apply rtc_refl.
Qed.

Lemma st_same_connections w w' : connections w' = connections w -> same w w'.
Proof. intros E h c Hc. exists c. unfold conn in *. rewrite E. auto. Qed.

(** [okM P R m]: from worlds with a well-formed table that satisfy [P], a
    computation that returns relates the tables by [R]. *)
Definition okM {A} (P : world -> Prop) (R : world -> world -> Prop) (m : stM world A) : Prop :=
  forall w a w', tab w -> P w -> m w = Ret (a, w') -> tab w' /\ R w w'.

Definition any : world -> Prop := fun _ => True.

Definition at_state (h : Z) (s : connection_state) (w : world) : Prop :=
  exists c, conn w h = Some c /\ state c = s.

Lemma st_at_state_same h s w w' : same w w' -> at_state h s w -> at_state h s w'.
Proof. intros Hs (c & Hc & <-). destruct (Hs h c Hc) as (c' & Hc' & E & _). exists c'. auto. Qed.

Lemma st_bind_inv {A B} (m : stM world A) (f : A -> stM world B) w b w2 :
  mbind f m w = Ret (b, w2) -> exists a w1, m w = Ret (a, w1) /\ f a w1 = Ret (b, w2).
Proof. unfold mbind, stM_bind. destruct (m w) as [[a w1]| | |]; try discriminate. eauto. Qed.

Lemma st_lift_inv {A} (o : outcome A) (w w' : world) a : lift o w = Ret (a, w') -> o = Ret a /\ w' = w.
Proof. unfold lift. destruct o; try discriminate. intros [= -> ->]. auto. Qed.

Section rules.
Context {A B : Type}.

(** The first part keeps the states, so what was known still holds. *)
Lemma ok_bind_same (P : world -> Prop) (R : world -> world -> Prop) (m : stM world A) (f : A -> stM world B) :
  (forall w w', same w w' -> P w -> P w') -> (forall w1 w2 w3, same w1 w2 -> R w2 w3 -> R w1 w3) ->
  okM any same m -> (forall a, okM P R (f a)) -> okM P R (mbind f m).
Proof.
  intros HP HR Hm Hf w b w2 Ht Hp E. apply st_bind_inv in E. destruct E as (a & w1 & E1 & E2).
  destruct (Hm w a w1 Ht I E1) as [Ht1 Hs1]. destruct (Hf a w1 b w2 Ht1 (HP _ _ Hs1 Hp) E2) as [Ht2 Hr2].
  split; [assumption|]. eapply HR; eassumption.
Qed.

(** Reading a connection tells what state it is in. *)
Lemma ok_bind_get (P : world -> Prop) (R : world -> world -> Prop) h (f : connection -> stM world B) :
  (forall c, okM (fun w => P w /\ conn w h = Some c) R (f c)) -> okM P R (mbind f (get_conn h)).
Proof.
  intros Hf w b w2 Ht Hp E. apply st_bind_inv in E. destruct E as (c & w1 & E1 & E2).
  unfold get_conn in E1. apply st_bind_inv in E1. destruct E1 as (w0 & w0' & [= <- <-] & E1).
  apply st_lift_inv in E1. destruct E1 as [E1 ->]. apply (Hf c w b w2 Ht); [|assumption].
  split; [assumption|]. destruct Ht as [m [fl Hr]]. unfold conn. rewrite (pool.pool_at _ _ _ _ _ Hr).
  destruct (m !! h) as [c'|] eqn:Em; [rewrite (pool.pool_get _ _ _ _ _ _ Hr Em) in E1; congruence|].
  rewrite (pool.pool_get_panic _ _ _ _ _ Hr Em) in E1. discriminate.
Qed.

Lemma ok_weaken (P P' : world -> Prop) (R R' : world -> world -> Prop) (m : stM world A) :
  (forall w, P' w -> P w) -> (forall w w', R w w' -> R' w w') -> okM P R m -> okM P' R' m.
Proof. intros HP HR Hm w a w' Ht Hp E. destruct (Hm w a w' Ht (HP w Hp) E). auto. Qed.

Lemma ok_bind_evolves (P : world -> Prop) (m : stM world A) (f : A -> stM world B) :
  okM P evolves m -> (forall a, okM any evolves (f a)) -> okM P evolves (mbind f m).
Proof.
  intros Hm Hf w b w2 Ht Hp E. apply st_bind_inv in E. destruct E as (a & w1 & E1 & E2).
  destruct (Hm w a w1 Ht Hp E1) as [Ht1 Hs1]. destruct (Hf a w1 b w2 Ht1 I E2) as [Ht2 Hs2].
  split; [assumption|]. eapply st_related_trans; eauto with typeclass_instances.
Qed.
End rules.

Lemma ok_same_bind {A B} (m : stM world A) (f : A -> stM world B) :
  okM any same m -> (forall a, okM any same (f a)) -> okM any same (mbind f m).
Proof.
  intros Hm Hf. apply ok_bind_same; auto.
  intros w1 w2 w3 H1 H2. eapply st_related_trans; eauto with typeclass_instances.
Qed.

Lemma ok_connections {A} P (m : stM world A) :
  (forall w a w', m w = Ret (a, w') -> connections w' = connections w) -> okM P same m.
Proof.
  intros H w a w' [mp Hm] _ E. apply H in E. split; [exists mp; rewrite E; exact Hm|].
  apply st_same_connections. assumption.
Qed.

Lemma ok_ret {A} P (a : A) : okM P same (sret a).
Proof. apply ok_connections. intros w b w' [= _ ->]. reflexivity. Qed.

Lemma ok_lift {A} P (o : outcome A) : okM P same (lift o).
Proof. apply ok_connections. intros w b w' E. apply st_lift_inv in E. destruct E as [_ ->]. reflexivity. Qed.

Lemma ok_sget P : okM P same (@sget world).
Proof. apply ok_connections. intros w b w' [= _ ->]. reflexivity. Qed.

Lemma ok_get P h : okM P same (get_conn h).
Proof.
  apply ok_connections. intros w c w' E. unfold get_conn in E. apply st_bind_inv in E.
  destruct E as (w0 & w0' & [= <- <-] & E1). apply st_lift_inv in E1. destruct E1 as [_ ->]. reflexivity.
Qed.

(** Modifying one connection *)
Lemma st_upd w h f w' u : tab w -> upd_conn h f w = Ret (u, w') ->
  tab w' /\ exists c, conn w h = Some c /\ forall k, conn w' k = if decide (h = k) then Some (f c) else conn w k.
Proof.
  intros [m [fl Hr]] E. unfold upd_conn in E. apply st_bind_inv in E. destruct E as (w0 & w0' & [= <- <-] & E).
  apply st_bind_inv in E. destruct E as (p & w1 & E1 & [= _ <-]). apply st_lift_inv in E1. destruct E1 as [E1 ->].
  destruct (m !! h) as [c|] eqn:Em.
  2:{ unfold pool.modify in E1. rewrite (pool.pool_get_panic _ _ _ _ _ Hr Em) in E1. discriminate. }
  destruct (pool.pool_modify _ _ _ _ _ _ f Hr Em) as (p' & E' & Hr' & _). rewrite E1 in E'. injection E' as <-.
  split; [eexists; exists fl; exact Hr'|]. exists c. unfold conn. rewrite (pool.pool_at _ _ _ _ _ Hr). split; [assumption|].
  intros k. simpl. rewrite (pool.pool_at _ _ _ _ _ Hr'), (pool.pool_at _ _ _ _ _ Hr), lookup_insert. reflexivity.
Qed.

Lemma ok_upd P h f : (forall c, state (f c) = state c /\ remote (f c) = remote c /\ local (f c) = local c) ->
  okM P same (upd_conn h f).
Proof.
  intros Hf w u w' Ht _ E. destruct (st_upd w h f w' u Ht E) as [Ht' (c & Hc & Hk)]. split; [assumption|].
  intros k d Hd. destruct (Hf c) as (Hs & Hr & Hl). rewrite Hk. case_decide as Ek.
  - subst k. assert (d = c) as -> by congruence. eexists. split; [reflexivity|]. rewrite Hs, Hr, Hl. auto.
  - exists d. auto.
Qed.

(** A transition along an edge *)
Lemma ok_transition h s s' : edge s s' -> okM (at_state h s) evolves (transition h s').
Proof.
  intros He w u w' Ht (c0 & Hc0 & Hs) E. unfold transition in E.
  destruct (st_upd w h _ w' u Ht E) as [Ht' (c & Hc & Hk)]. split; [assumption|].
  assert (c0 = c) as -> by congruence. intros k d Hd. rewrite Hk. case_decide as Ek.
  - subst k. assert (d = c) as -> by congruence. eexists. split; [reflexivity|]. simpl.
    rewrite Hs. split; [apply rtc_once; assumption|auto].
  - exists d. repeat split; auto. apply rtc_refl.
Qed.

(** Adding a connection keeps the others. *)
Lemma st_add w v p i : tab w -> pool.emplace_anywhere U16_MAX (connections w) v = Ret (p, i) ->
  tab (set_connections p w) /\ same w (set_connections p w).
Proof.
  intros [m [fl Hr]] Ep.
  destruct (Z.lt_ge_cases (Z.of_nat (base.size m)) (pool.capacity (connections w))) as [Hlt|Hge].
  2:{ rewrite (pool.pool_emplace_anywhere_full _ _ _ _ _ Hr Hge) in Ep. discriminate. }
  destruct (pool.pool_emplace_anywhere _ _ _ _ v Hr Hlt) as (q' & fl' & i' & E' & Hr' & Hi & _).
  assert (p = q' /\ i = i') as [-> ->] by (split; congruence).
  split; [eexists; exists fl'; exact Hr'|].
  intros h c Hc. unfold conn in *. rewrite (pool.pool_at _ _ _ _ _ Hr) in Hc. simpl. rewrite (pool.pool_at _ _ _ _ _ Hr').
  exists c. rewrite lookup_insert_ne by congruence. auto.
Qed.

(** ** Operations that keep every state *)

Create HintDb tcp_ok discriminated.
#[local] Hint Resolve ok_ret ok_lift ok_sget ok_get : tcp_ok.

(** Walks through a handler made of operations that keep the states. *)
Ltac keep :=
  repeat first
    [ solve [eauto with tcp_ok]
    | solve [apply ok_upd; intros; repeat split]
    | solve [apply ok_connections; intros ? ? ? E; simpl in E; injection E as ? ?; subst; reflexivity]
    | apply ok_same_bind; [|intros]
    | match goal with |- okM _ _ (let '(_, _) := ?p in _) => destruct p end
    | match goal with |- okM _ _ (if ?b then _ else _) => destruct b end ].

Lemma ok_sequence h md data n : okM any same (sequence h md data n).
Proof. unfold sequence. keep. Qed.

Lemma ok_transmit h f data n : okM any same (transmit h f data n).
Proof. unfold transmit. keep. Qed.

Lemma ok_reset_rx h n : okM any same (reset_rx h n).
Proof. unfold reset_rx. keep. Qed.

Lemma ok_reset_tx h n : okM any same (reset_tx h n).
Proof. unfold reset_tx. keep. Qed.

Lemma ok_finish h : okM any same (finish_connection h).
Proof.
  unfold finish_connection. apply ok_connections. intros w a w' E. apply st_bind_inv in E.
  destruct E as (w0 & w0' & [= <- <-] & E). apply st_bind_inv in E. destruct E as ([p k] & w1 & E1 & [= _ <-]).
  apply st_lift_inv in E1. destruct E1 as [_ ->]. reflexivity.
Qed.

#[local] Hint Resolve ok_sequence ok_transmit ok_reset_rx ok_reset_tx ok_finish : tcp_ok.

Lemma ok_mark h : okM any same (mark_for_destruction h).
Proof. unfold mark_for_destruction. keep. Qed.

Lemma ok_send_segment la h f n data : okM any same (send_segment la h f n data).
Proof. unfold send_segment, sassert. keep. Qed.

Lemma ok_create r l s : okM any same (create_connection r l s).
Proof.
  intros w id w' Ht _ E. unfold create_connection in E. apply st_bind_inv in E.
  destruct E as (w0 & w0' & [= <- <-] & E). apply st_bind_inv in E. destruct E as ([p k] & w1 & E1 & E).
  apply st_lift_inv in E1. destruct E1 as [E1 ->]. destruct (st_add w _ p k Ht E1) as [Ht1 Hs1].
  apply st_bind_inv in E. destruct E as ([] & w2 & [= <-] & E).
  assert (okM any same (upd_conn k (set_handle k);; upd_conn k (set_callback (table_callback w));;
            w3 ← sget; '(np, _) ← lift (pool.emplace_anywhere U16_MAX (new_connections w3) k);
            sput (mk_world (connections w3) np (finished_connections w3) (table_callback w3) (sent w3));; sret k)) as Hrest.
  { apply ok_same_bind; [keep|intros _]. apply ok_same_bind; [keep|intros _].
    apply ok_connections. intros v a v' Ev. apply st_bind_inv in Ev. destruct Ev as (x & y & [= <- <-] & Ev).
    apply st_bind_inv in Ev. destruct Ev as ([np j] & v1 & E2 & Ev). apply st_lift_inv in E2. destruct E2 as [_ ->].
    apply st_bind_inv in Ev. destruct Ev as ([] & v2 & [= <-] & [= _ <-]). reflexivity. }
  destruct (Hrest _ _ _ Ht1 I E) as [Ht2 Hs2]. split; [assumption|].
  eapply st_related_trans; eauto with typeclass_instances.
Qed.

#[local] Hint Resolve ok_mark ok_send_segment ok_create : tcp_ok.

(** ** Handlers that move connections *)

Lemma ok_evolves {A} P (m : stM world A) : okM any same m -> okM P evolves m.
Proof. apply ok_weaken; [intros; exact I|apply st_same_evolves]. Qed.

Lemma st_same_then_evolves w1 w2 w3 : same w1 w2 -> evolves w2 w3 -> evolves w1 w3.
Proof. intros H1 H2. apply (st_related_trans _ _ w2); [apply _|apply st_same_evolves; assumption|assumption]. Qed.

(** Keeping operations in front of a transition *)
Lemma ok_then h s {A B} (m : stM world A) (f : A -> stM world B) :
  okM any same m -> (forall a, okM (at_state h s) evolves (f a)) -> okM (at_state h s) evolves (mbind f m).
Proof. intros Hm Hf. apply ok_bind_same; eauto using st_at_state_same, st_same_then_evolves. Qed.

Lemma ok_early_recv s h md data n : okM (at_state h s) evolves (early_recv s h md data n).
Proof.
  destruct s; cbn [early_recv]; try (apply ok_evolves; solve [keep]).
  - destruct (has _ _); [apply ok_transition; constructor|apply ok_evolves; keep].
  - destruct (has _ _ && _); [|apply ok_evolves; keep].
    apply ok_then; [keep|intros _; apply ok_transition; constructor].
Qed.

Lemma ok_remote_consumed_all s h : okM (at_state h s) evolves (remote_consumed_all s h).
Proof.
  destruct s; cbn [remote_consumed_all]; try (apply ok_evolves; solve [keep]).
  apply ok_transition. constructor.
Qed.

Lemma ok_active_close s h : okM (at_state h s) evolves (active_close s h).
Proof.
  destruct s; cbn [active_close]; try (apply ok_evolves; solve [keep]).
  apply ok_then; [unfold transmit_phantom; keep|intros _; apply ok_transition; constructor].
Qed.

Lemma st_at_conn h c w : any w /\ conn w h = Some c -> at_state h (state c) w.
Proof. intros [_ H]. exists c. auto. Qed.

Lemma ok_close h : okM any evolves (close h).
Proof.
  unfold close. apply ok_bind_get. intros c. eapply ok_weaken; [apply st_at_conn|intros ? ? H; exact H|].
  apply ok_active_close.
Qed.

Lemma ok_foreach {A} (l : list A) (f : A -> stM world unit) :
  (forall x, okM any evolves (f x)) -> okM any evolves (sforeach l f).
Proof.
  intros Hf. induction l as [|x l IH]; cbn [sforeach]; [apply ok_evolves; keep|].
  intros w a w' Ht _ E. destruct (f x w) as [[u w1]| | |] eqn:E1; try discriminate.
  destruct (Hf x w u w1 Ht I E1) as [Ht1 Hs1]. destruct (IH w1 a w' Ht1 I E) as [Ht2 Hs2].
  split; [assumption|]. eapply st_related_trans; eauto with typeclass_instances.
Qed.

Section handlers.
Variable la : Z.
Variable app : list Z -> list app_action.

Lemma ok_on_full_receive h data : okM any evolves (on_full_receive app h data).
Proof.
  unfold on_full_receive. apply ok_bind_evolves; [apply ok_evolves; keep|]. intros c.
  destruct (callback c); [|apply ok_evolves; keep]. apply ok_foreach. intros []; cbn [run_action].
  - apply ok_evolves. unfold send_data. keep.
  - apply ok_close.
Qed.

Lemma ok_sequenced_recv s h seg data : okM (at_state h s) evolves (sequenced_recv app s h seg data).
Proof.
  destruct s; cbn [sequenced_recv]; try (apply ok_evolves; solve [keep]).
  destruct (has _ _).
  - apply ok_then; [keep|intros _; apply ok_transition; constructor].
  - eapply ok_weaken; [|intros ? ? H; exact H|apply ok_on_full_receive]. intros; exact I.
Qed.

(** A handler for the state the connection is in, after keeping operations *)
Lemma ok_dispatch h c {B} (m : stM world B) : okM (at_state h (state c)) evolves m ->
  okM (fun w => any w /\ conn w h = Some c) evolves m.
Proof. apply ok_weaken; [apply st_at_conn|auto]. Qed.

Lemma ok_step_rx h fuel : okM any evolves (step_rx app fuel h).
Proof.
  induction fuel as [|fuel IH]; cbn [step_rx]; [apply ok_evolves; keep|].
  apply ok_bind_get. intros c. apply ok_dispatch. apply ok_then; [keep|intros more].
  destruct more; [|apply ok_evolves; keep]. apply ok_then; [keep|intros [q [seg data]]].
  apply ok_then; [keep|intros _]. apply ok_bind_evolves; [apply ok_sequenced_recv|intros _; exact IH].
Qed.

Lemma ok_step_tx h fuel : okM any same (step_tx la fuel h).
Proof.
  induction fuel as [|fuel IH]; cbn [step_tx]; [keep|].
  apply ok_same_bind; [keep|intros c]. destruct (send_queue.has_readable _); [|keep].
  apply ok_same_bind; [keep|intros [q r]]. apply ok_same_bind; [keep|intros _].
  apply ok_same_bind; [destruct r as [[seg data]|]; keep|intros _; exact IH].
Qed.

Lemma ok_step h : okM any evolves (step la app h).
Proof.
  unfold step. apply ok_bind_evolves; [apply ok_evolves; keep|intros c].
  apply ok_bind_evolves; [apply ok_evolves; keep|intros b]. apply ok_bind_evolves; [apply ok_step_rx|intros _].
  apply ok_evolves. apply ok_same_bind; [keep|intros c']. apply ok_same_bind; [keep|intros _]. apply ok_step_tx.
Qed.

Lemma ok_on_receive h md data n : okM any evolves (on_receive la app h md data n).
Proof.
  unfold on_receive. apply ok_bind_get. intros c. apply ok_dispatch.
  apply ok_bind_evolves; [apply ok_early_recv|intros _]. apply ok_bind_evolves; [|intros _; apply ok_step].
  destruct (has _ _); [|apply ok_evolves; keep]. apply ok_bind_evolves; [apply ok_evolves; keep|intros c1].
  apply ok_bind_evolves; [apply ok_evolves; keep|intros q]. apply ok_bind_evolves; [apply ok_evolves; keep|intros _].
  apply ok_bind_get. intros c2. apply ok_dispatch. destruct (_ >=? _); [apply ok_remote_consumed_all|apply ok_evolves; keep].
Qed.

Lemma ok_step_new_connections : okM any evolves (step_new_connections la app).
Proof.
  unfold step_new_connections. apply ok_bind_evolves; [apply ok_evolves; keep|intros w0].
  apply ok_bind_evolves; [|intros _; apply ok_evolves; keep].
  apply ok_foreach. intros [k h]. apply ok_bind_evolves; [apply ok_evolves; keep|intros w1].
  destruct (pool.valid _ _ _); [apply ok_step|apply ok_evolves; keep].
Qed.
End handlers.

(** ** Destruction *)

(** Connections only disappear. *)
Definition shrinks (w w' : world) : Prop := forall h, conn w' h = conn w h \/ conn w' h = None.

Lemma st_erase w h p : tab w -> pool.erase U16_MAX (connections w) h = Ret p ->
  tab (set_connections p w) /\ shrinks w (set_connections p w).
Proof.
  intros [m [fl Hr]] E. destruct (m !! h) as [c|] eqn:Em.
  2:{ rewrite (pool.pool_erase_panic _ _ _ _ _ Hr Em) in E. discriminate. }
  destruct (pool.pool_erase _ _ _ _ _ _ Hr Em) as (p' & fl' & E' & Hr' & _). rewrite E in E'. injection E' as <-.
  split; [eexists; exists fl'; exact Hr'|]. intros k. unfold conn. simpl.
  rewrite (pool.pool_at _ _ _ _ _ Hr'), (pool.pool_at _ _ _ _ _ Hr), lookup_delete. case_decide; auto.
Qed.

Lemma ok_destroy_loop l : okM any shrinks (destroy_loop l).
Proof.
  induction l as [|[k h] l IH]; intros w a w' Ht _ E; cbn [destroy_loop] in E.
  - injection E as _ <-. split; [assumption|]. intros k. auto.
  - apply st_bind_inv in E. destruct E as (w0 & w0' & [= <- <-] & E). destruct (negb _).
    { injection E as _ <-. split; [assumption|]. intros j. auto. }
    apply st_bind_inv in E. destruct E as (p & w1 & E1 & E). apply st_lift_inv in E1. destruct E1 as [E1 ->].
    apply st_bind_inv in E. destruct E as ([] & w2 & [= <-] & E).
    destruct (st_erase w h p Ht E1) as [Ht1 Hs1]. destruct (IH _ _ _ Ht1 I E) as [Ht2 Hs2].
    split; [assumption|]. intros j. destruct (Hs2 j) as [->|H2]; [apply Hs1|auto].
Qed.

Lemma ok_destroy : okM any shrinks destroy_finished_connections.
Proof.
  intros w a w' Ht _ E. unfold destroy_finished_connections in E. apply st_bind_inv in E.
  destruct E as (w0 & w0' & [= <- <-] & E). apply st_bind_inv in E. destruct E as ([] & w1 & E1 & [= _ <-]).
  destruct (ok_destroy_loop _ _ _ _ Ht I E1) as [[m Hm] Hs]. split; [exists m; exact Hm|exact Hs].
Qed.

(** C17: whatever segment arrives, and whatever the application does in its
    callback, each connection of the table either moves along the edges of
    the TCP state machine, keeping its endpoints, or is removed; the table
    stays well formed. *)
Theorem tcp_state_machine (la : Z) (app : list Z -> list app_action) (dg : datagram_metadata) (data : list Z)
    (w w' : world) :
  tab w -> protocol_on_receive la app dg data w = Ret (tt, w') ->
  tab w' /\ forall h c, conn w h = Some c ->
    conn w' h = None \/
    exists c', conn w' h = Some c' /\ rtc edge (state c) (state c') /\ remote c' = remote c /\ local c' = local c.
Proof.
  intros Ht E. unfold protocol_on_receive in E.
  destruct (zlen data <? 20).
  { injection E as <-. split; [assumption|]. intros h c Hc. right. exists c. repeat split; auto. apply rtc_refl. }
  cbv zeta in E. apply st_bind_inv in E. destruct E as (w0 & w0' & [= <- <-] & E).
  destruct (find_best_match _ _ _) as [h0|].
  2:{ injection E as <-. split; [assumption|]. intros h c Hc. right. exists c. repeat split; auto. apply rtc_refl. }
  apply st_bind_inv in E. destruct E as ([] & w1 & E1 & E). apply st_bind_inv in E. destruct E as ([] & w2 & E2 & E3).
  destruct (ok_on_receive la app _ _ _ _ _ _ _ Ht I E1) as [Ht1 Hs1].
  destruct (ok_step_new_connections la app _ _ _ Ht1 I E2) as [Ht2 Hs2].
  destruct (ok_destroy _ _ _ Ht2 I E3) as [Ht3 Hs3]. split; [assumption|].
  intros h c Hc. assert (evolves w w2) as Hev by (apply (st_related_trans _ _ w1); [apply _|assumption|assumption]).
  destruct (Hev h c Hc) as (c2 & Hc2 & Hr). destruct (Hs3 h) as [Es| ->]; [|auto].
  right. exists c2. rewrite Es. auto.
Qed.

Definition syn_segment : list Z :=
  header_bytes (mk_header (bytes.htons 5555) (bytes.htons 8080) (bytes.htonl 1000) 0 (bytes.htons 0x5002) 0 0 0).

Lemma tcp_state_machine_witness :
  exists w w', listen (mk_endpoint 0 8080) init_world = Ret (tt, w) /\
    protocol_on_receive 7 (fun _ => []) (mk_datagram 1 2) syn_segment w = Ret (tt, w') /\ tab w'.
Proof.
  assert (match listen (mk_endpoint 0 8080) init_world with
          | Ret (_, w) => match protocol_on_receive 7 (fun _ => []) (mk_datagram 1 2) syn_segment w with
                          | Ret _ => true | _ => false end
          | _ => false end = true) as H by (vm_compute; reflexivity).
  destruct (listen (mk_endpoint 0 8080) init_world) as [[[] w]| | |] eqn:E1; try discriminate H.
  destruct (protocol_on_receive 7 (fun _ => []) (mk_datagram 1 2) syn_segment w) as [[[] w']| | |] eqn:E2;
    try discriminate H.
  exists w, w'. split; [reflexivity|]. split; [assumption|].
  apply (tcp_state_machine 7 (fun _ => []) (mk_datagram 1 2) syn_segment w w'); [|assumption].
  assert (tab init_world) as Hi by (exists ∅; apply fp_new; vm_compute; congruence).
  unfold listen in E1. apply st_bind_inv in E1. destruct E1 as (id & w1 & E1 & [= <-]).
  apply (ok_create _ _ _ _ _ _ Hi I E1).
Defined.
