(* ===== verification/TcpStream.v ===== *)
(** * The byte stream of an established connection

    [conv] is the abstract state of a conversation: how much of the peer's
    message has been handed to the application, which pieces wait for a gap to
    close, and what was sent and is not acknowledged.  [conv_step] says what
    one segment of the peer does to it, which pieces the application gets and
    what is sent in answer.  [protocol_on_receive] implements it. *)

From S2P Require Import Prelude Queue RingBuffer Pool NetUtils SendQueue ReceiveQueue Tcp TcpFacts.
From stdpp Require Import gmap list.
#[local] Open Scope Z_scope.

Module stream.
Import tcp.

(** ** The abstract conversation *)

(** A segment of the peer: the place of its data in the message, and the
    sequence number it acknowledges *)
Record seg := mk_seg { sg_off : Z; sg_len : Z; sg_ack : Z }.

(** A segment sent in answer *)
Record answer := mk_answer { an_seq : Z; an_ack : Z; an_data : list Z }.

Record conv := mk_conv { cv_next : Z; cv_wait : list (Z * Z); cv_tx : send_queue.spec }.

Definition elsewhere (next : Z) (p : Z * Z) : bool := negb (p.1 =? next).

(** The pieces that can be handed over from [next] on, the new [next] and the
    pieces that still wait *)
Fixpoint deliver (fuel : nat) (next : Z) (wait : list (Z * Z)) : list (Z * Z) * (Z * list (Z * Z)) :=
  match fuel with
  | O => ([], (next, wait))
  | S fuel' =>
      match List.find (fun p => p.1 =? next) wait with
      | None => ([], (next, wait))
      | Some p =>
          let '(l, r) := deliver fuel' (next + p.2) (List.filter (elsewhere next) wait) in (p :: l, r)
      end
  end.

Definition byte_okb (b : Z) : bool := (0 <=? b) && (b <? 256).

(** The contract of [connection::send]: a datagram has room for the reply, and
    the send queue too. *)
Definition reply_ok (sp : send_queue.spec) (r : list Z) : bool :=
  (0 <? zlen r) && (zlen r + 20 <? 1500) && forallb byte_okb r &&
  (zlen (send_queue.payload (send_queue.sp_segs sp)) + zlen r <=? send_queue.BUF) &&
  (zlen (send_queue.sp_segs sp) <? send_queue.SEGS) && (send_queue.sp_write sp + zlen r <? 2 ^ 32).

Definition as_seg (r : list Z) : send_queue.aseg := send_queue.mk_aseg 0 r (zlen r).

Fixpoint queue_replies (sp : send_queue.spec) (rs : list (list Z)) : option send_queue.spec :=
  match rs with
  | [] => Some sp
  | r :: rs' => if reply_ok sp r then queue_replies (send_queue.sp_append sp (as_seg r)) rs' else None
  end.

(** The replies with their sequence numbers *)
Fixpoint numbered (pos : Z) (rs : list (list Z)) : list (Z * list Z) :=
  match rs with [] => [] | r :: rs' => (pos, r) :: numbered (pos + zlen r) rs' end.

Definition all_sent (sp : send_queue.spec) : send_queue.spec :=
  send_queue.mk_spec (send_queue.sp_ack sp) (send_queue.sp_segs sp) (zlen (send_queue.sp_segs sp)).

Definition answers (pos ack : Z) (delivered : bool) (rs : list (list Z)) : list answer :=
  match rs with
  | [] => if delivered then [mk_answer pos ack []] else []
  | _ => map (fun '(s, r) => mk_answer s ack r) (numbered pos rs)
  end.

Section conversation.
Context (M : list Z) (base : Z) (reply : list Z -> list (list Z)).

Definition apartb (o n : Z) (p : Z * Z) : bool := (o + n <=? p.1) || (p.1 + p.2 <=? o).

(** New data: it fits behind the read cursor and into the read buffer, and none
    of it waits already. *)
Definition data_ok (st : conv) (s : seg) : bool :=
  (cv_next st <=? sg_off s) && (0 <? sg_len s) && (sg_len s <=? STEP_BUF) && (sg_off s + sg_len s <=? zlen M) &&
  (sg_off s + sg_len s - cv_next st <=? receive_queue.BUF) && (zlen (cv_wait st) <? receive_queue.SEGS) &&
  forallb (apartb (sg_off s) (sg_len s)) (cv_wait st).

(** An acknowledgement without data *)
Definition empty_ok (st : conv) (s : seg) : bool :=
  (sg_off s =? cv_next st) && (sg_len s =? 0) && (zlen (cv_wait st) <? receive_queue.SEGS).

(** Data that has been handed over already *)
Definition is_old (st : conv) (s : seg) : bool := (sg_off s <? cv_next st) && (sg_off s + sg_len s <=? cv_next st).

(** What the code relies on: new data, or none, or what has been handed over
    already; nothing is acknowledged that was not sent. *)
Definition seg_ok (st : conv) (s : seg) : bool :=
  (is_old st s || data_ok st s || empty_ok st s) && (sg_ack s <=? send_queue.sp_write (cv_tx st)) &&
  (send_queue.sp_write (cv_tx st) + send_queue.BUF <? 2 ^ 32).

Definition chunk (p : Z * Z) : list Z := receive_queue.piece M p.1 p.2.

Definition conv_step (st : conv) (s : seg) : option (conv * (list (list Z) * list answer)) :=
  if seg_ok st s then
    let wait := if is_old st s then cv_wait st else (sg_off s, sg_len s) :: cv_wait st in
    let '(ds, (next, wait')) := deliver (S (length wait)) (cv_next st) wait in
    let chunks := map chunk ds in
    let rs := concat (map reply chunks) in
    let sp := send_queue.sp_acked (sg_ack s) (cv_tx st) in
    match queue_replies sp rs with
    | None => None
    | Some sp' =>
        Some (mk_conv next wait' (all_sent sp'),
              (chunks, answers (send_queue.sp_write sp) (base + next) (match ds with [] => false | _ => true end) rs))
    end
  else None.

Fixpoint conv_run (st : conv) (l : list seg) : option (conv * (list (list Z) * list answer)) :=
  match l with
  | [] => Some (st, ([], []))
  | s :: l' =>
      match conv_step st s with
      | None => None
      | Some (st1, (c1, a1)) =>
          match conv_run st1 l' with None => None | Some (st2, (c2, a2)) => Some (st2, (c1 ++ c2, a1 ++ a2)) end
      end
  end.

(** ** What a conversation hands over *)

Implicit Types (next : Z) (wait : list (Z * Z)).

(** Pieces of the message from [lo] on that do not overlap *)
Record pieces_wf (lo : Z) (wait : list (Z * Z)) : Prop := {
  pw_in : forall p, p ∈ wait -> lo <= p.1 /\ 0 < p.2 /\ p.1 + p.2 <= zlen M;
  pw_apart : forall p q, p ∈ wait -> q ∈ wait -> p = q \/ p.1 + p.2 <= q.1 \/ q.1 + q.2 <= p.1
}.

Lemma find_at next wait :
  match List.find (fun p => p.1 =? next) wait with
  | Some p => p ∈ wait /\ p.1 = next
  | None => forall p, p ∈ wait -> p.1 <> next
  end.
Proof.
  destruct (List.find _ wait) as [p|] eqn:E.
  - apply find_some in E. destruct E as [Hin E]. rewrite list_elem_of_In. split; [exact Hin|apply Z.eqb_eq, E].
  - intros p Hp. apply list_elem_of_In in Hp. apply Z.eqb_neq. exact (find_none _ _ E p Hp).
Qed.

Lemma elem_of_rest next wait (q : Z * Z) : q ∈ List.filter (elsewhere next) wait <-> q ∈ wait /\ q.1 <> next.
Proof. rewrite !list_elem_of_In, filter_In. unfold elsewhere. rewrite negb_true_iff, Z.eqb_neq. tauto. Qed.

Lemma length_rest next wait : (length (List.filter (elsewhere next) wait) <= length wait)%nat /\
  forall p, p ∈ wait -> p.1 = next -> (length (List.filter (elsewhere next) wait) < length wait)%nat.
Proof.
  induction wait as [|q wait [IH1 IH2]]; cbn [List.filter length]; [split; [lia|intros p Hp; apply not_elem_of_nil in Hp; done]|].
  assert (elsewhere next q = negb (q.1 =? next)) as -> by reflexivity. destruct (Z.eqb_spec q.1 next) as [E|E]; cbn [negb length]; (split; [lia|]); intros p Hp Hn; [lia|].
  apply elem_of_cons in Hp. destruct Hp as [->|Hp]; [congruence|]. specialize (IH2 p Hp Hn). lia.
Qed.

Lemma rest_all next wait : (forall p, p ∈ wait -> p.1 <> next) -> List.filter (elsewhere next) wait = wait.
Proof.
  induction wait as [|q wait IH]; intros H; [reflexivity|]. cbn [List.filter]. unfold elsewhere at 1. rewrite (proj2 (Z.eqb_neq q.1 next)) by (apply H, list_elem_of_here). cbn [negb]. f_equal. apply IH. intros p Hp. apply H, list_elem_of_further, Hp.
Qed.

Lemma deliver_none fuel next wait : (forall p, p ∈ wait -> p.1 <> next) -> deliver fuel next wait = ([], (next, wait)).
Proof.
  intros H. destruct fuel as [|fuel]; [reflexivity|]. cbn [deliver]. pose proof (find_at next wait) as Hf. destruct (List.find _ wait) as [p|]; [|reflexivity].
  destruct Hf as [Hp Hn]. exfalso. exact (H p Hp Hn).
Qed.

(** An empty piece at the cursor is handed over alone. *)
Lemma deliver_empty fuel next wait : (forall p, p ∈ wait -> p.1 <> next) -> deliver (S fuel) next ((next, 0) :: wait) = ([(next, 0)], (next, wait)).
Proof.
  intros H. cbn [deliver List.find fst snd]. rewrite Z.eqb_refl. cbn [List.filter]. unfold elsewhere at 1. cbn [fst]. rewrite Z.eqb_refl. cbn [negb snd]. rewrite rest_all by exact H.
  rewrite Z.add_0_r, deliver_none by exact H. reflexivity.
Qed.

Lemma pieces_wf_rest next wait p : pieces_wf next wait -> p ∈ wait -> p.1 = next -> pieces_wf (next + p.2) (List.filter (elsewhere next) wait).
Proof.
  intros [Hin Hap] Hp Hn. split.
  - intros q Hq. apply elem_of_rest in Hq. destruct Hq as [Hq Hne]. pose proof (Hin q Hq). pose proof (Hin p Hp). destruct (Hap p q Hp Hq) as [->|[?|?]]; [congruence|lia|lia].
  - intros q r Hq Hr. apply elem_of_rest in Hq, Hr. apply Hap; tauto.
Qed.

Lemma deliver_spec fuel : forall next wait ds next' wait', 0 <= next -> pieces_wf next wait -> (length wait < fuel)%nat -> deliver fuel next wait = (ds, (next', wait')) ->
  next <= next' /\ (next' <= zlen M \/ next' = next) /\ concat (map chunk ds) = receive_queue.piece M next (next' - next) /\
  pieces_wf (next' + 1) wait' /\ (length wait' <= length wait)%nat /\
  forall x, receive_queue.covered wait x <-> next <= x < next' \/ receive_queue.covered wait' x.
Proof.
  induction fuel as [|fuel IH]; intros next wait ds next' wait' H0 Hwf Hf E; [lia|]. cbn [deliver] in E. pose proof (find_at next wait) as Hfind. destruct (List.find _ wait) as [p|].
  - destruct Hfind as [Hp Hn]. destruct (deliver fuel (next + p.2) _) as [l [n1 w1]] eqn:E1. injection E as <- <- <-. pose proof (pw_in _ _ Hwf p Hp) as Hpi.
    destruct (IH (next + p.2) _ _ _ _ ltac:(lia) (pieces_wf_rest _ _ _ Hwf Hp Hn) ltac:(pose proof (proj2 (length_rest next wait) p Hp Hn); lia) E1) as (H1 & H2 & H3 & H4 & H5 & H6).
    split; [lia|]. split; [lia|]. split; [|split; [exact H4|split; [pose proof (proj1 (length_rest next wait)); lia|]]].
    + cbn [map concat]. rewrite H3. unfold chunk. rewrite Hn, receive_queue.rq_piece_split by lia. f_equal. lia.
    + intros x. transitivity (next <= x < next + p.2 \/ receive_queue.covered (List.filter (elsewhere next) wait) x).
      * split; [intros (q & Hq & Hx)|intros [Hx|(q & Hq & Hx)]].
        -- destruct (Z.eq_dec q.1 next) as [Eq|]; [|right; exists q; split; [apply elem_of_rest; auto|exact Hx]]. left.
           destruct (pw_apart _ _ Hwf p q Hp Hq) as [->|?]; [lia|]. pose proof (pw_in _ _ Hwf q Hq). lia.
        -- exists p. split; [exact Hp|lia].
        -- apply elem_of_rest in Hq. exists q. tauto.
      * rewrite H6. split; [intros [?|[?|?]]; [left; lia|left; lia|right; assumption]|intros [?|?]; [|right; right; assumption]]. destruct (Z.lt_ge_cases x (next + p.2)); [left; lia|right; left; lia].
  - injection E as <- <- <-. split; [lia|]. split; [auto|]. split; [rewrite Z.sub_diag; reflexivity|]. split; [|split; [lia|]].
    + split; [|exact (pw_apart _ _ Hwf)]. intros q Hq. pose proof (pw_in _ _ Hwf q Hq). pose proof (Hfind q Hq). lia.
    + intros x. split; [auto|intros [?|?]; [lia|assumption]].
Qed.

(** ** Sending *)

Lemma queue_replies_app rs1 rs2 : forall sp, queue_replies sp (rs1 ++ rs2) = match queue_replies sp rs1 with Some sp' => queue_replies sp' rs2 | None => None end.
Proof. induction rs1 as [|r rs1 IH]; intros sp; [reflexivity|]. cbn [app queue_replies]. destruct (reply_ok sp r); [apply IH|reflexivity]. Qed.

Lemma numbered_app rs1 rs2 : forall pos, numbered pos (rs1 ++ rs2) = numbered pos rs1 ++ numbered (pos + zlen (concat rs1)) rs2.
Proof.
  induction rs1 as [|r rs1 IH]; intros pos; cbn [app numbered concat].
  - change (zlen []) with 0. rewrite Z.add_0_r. reflexivity.
  - rewrite IH, zlen_app, Z.add_assoc. reflexivity.
Qed.

Lemma write_append sp r : send_queue.sp_write (send_queue.sp_append sp (as_seg r)) = send_queue.sp_write sp + zlen r.
Proof. unfold send_queue.sp_write. cbn [send_queue.sp_ack send_queue.sp_segs send_queue.sp_append]. rewrite send_queue.sq_payload_app, zlen_app. cbn [send_queue.a_bytes as_seg]. lia. Qed.

Lemma queue_replies_spec rs : forall sp sp', queue_replies sp rs = Some sp' ->
  send_queue.sp_ack sp' = send_queue.sp_ack sp /\ send_queue.sp_segs sp' = send_queue.sp_segs sp ++ map as_seg rs /\ send_queue.sp_read sp' = send_queue.sp_read sp /\
  send_queue.sp_write sp' = send_queue.sp_write sp + zlen (concat rs) /\ Forall (fun r => 0 < zlen r /\ zlen r + 20 < 1500 /\ checksum.bytes_ok r) rs.
Proof.
  induction rs as [|r rs IH]; intros sp sp' E; cbn [queue_replies map concat] in *.
  - injection E as <-. rewrite app_nil_r. change (zlen []) with 0. rewrite Z.add_0_r. auto.
  - destruct (reply_ok sp r) eqn:Er; [|discriminate]. destruct (IH _ _ E) as (H1 & H2 & H3 & H4 & H5). rewrite write_append in H4. rewrite H1, H2, H3, zlen_app.
    split; [reflexivity|]. split; [cbn [send_queue.sp_segs send_queue.sp_append]; rewrite <-app_assoc; reflexivity|]. split; [reflexivity|]. split; [lia|]. constructor; [|exact H5].
    unfold reply_ok in Er. repeat (apply andb_prop in Er; destruct Er as [Er ?]). split; [lia|]. split; [lia|].
    apply Forall_forall. intros b Hb. apply list_elem_of_In in Hb. match goal with H : forallb _ _ = true |- _ => pose proof (proj1 (forallb_forall _ _) H b Hb) as Hk end. unfold byte_okb in Hk. unfold bytes.byte_ok. lia.
Qed.

(** An acknowledgement moves the start of the queue, not its end. *)
Lemma acked_spec n sp : n <= send_queue.sp_write sp -> send_queue.sp_read sp = zlen (send_queue.sp_segs sp) ->
  send_queue.sp_write (send_queue.sp_acked n sp) = send_queue.sp_write sp /\ send_queue.sp_ack (send_queue.sp_acked n sp) <= send_queue.sp_write sp /\
  send_queue.sp_read (send_queue.sp_acked n sp) = zlen (send_queue.sp_segs (send_queue.sp_acked n sp)).
Proof.
  intros Hn Hr. destruct sp as [pos l read]. unfold send_queue.sp_acked, send_queue.sp_write in *. cbn [send_queue.sp_ack send_queue.sp_segs send_queue.sp_read] in *.
  destruct (send_queue.sq_ack_list n l pos read) as (d & Ed & Ea & _ & _); [lia|pose proof (zlen_nonneg l); lia|]. cbv zeta in *. rewrite Ed, zlen_app.
  pose proof (zlen_nonneg (send_queue.payload (send_queue.sp_segs (send_queue.ack_list n pos l read)))). split; [lia|]. split; [lia|]. clear - Hr.
  revert pos read Hr. induction l as [|a l IH]; intros pos read Hr; cbn [send_queue.ack_list]; [exact Hr|]. rewrite zlen_cons in Hr. pose proof (zlen_nonneg l).
  destruct (n <=? pos); [cbn; rewrite zlen_cons; exact Hr|]. destruct (n <? _); [cbn; rewrite zlen_cons; exact Hr|]. apply IH. lia.
Qed.

(** ** The conversation keeps its books *)

Record conv_ok (st : conv) : Prop := {
  co_next : 0 <= cv_next st <= zlen M;
  co_wait : pieces_wf (cv_next st + 1) (cv_wait st);
  co_room : zlen (cv_wait st) <= receive_queue.SEGS;
  co_sent : send_queue.sp_read (cv_tx st) = zlen (send_queue.sp_segs (cv_tx st))
}.

(** What has been received is what was handed over and what waits. *)
Definition accounts (st : conv) (past : list (Z * Z)) : Prop :=
  forall x, 0 <= x -> receive_queue.covered past x <-> x < cv_next st \/ receive_queue.covered (cv_wait st) x.

Definition place (s : seg) : Z * Z := (sg_off s, sg_len s).

(** The answers that carry data, with their sequence numbers *)
Definition data_answers (l : list answer) : list (Z * list Z) :=
  map (fun a => (an_seq a, an_data a)) (List.filter (fun a => 0 <? zlen (an_data a)) l).

Lemma data_answers_app l1 l2 : data_answers (l1 ++ l2) = data_answers l1 ++ data_answers l2.
Proof. unfold data_answers. rewrite List.filter_app, map_app. reflexivity. Qed.

Lemma data_answers_replies pos ack d rs : Forall (fun r => 0 < zlen r /\ zlen r + 20 < 1500 /\ checksum.bytes_ok r) rs -> data_answers (answers pos ack d rs) = numbered pos rs.
Proof.
  intros H. assert (forall p, data_answers (map (fun '(s, r) => mk_answer s ack r) (numbered p rs)) = numbered p rs) as Hn.
  { induction H as [|r rs [Hr _] _ IH]; intros p; [reflexivity|]. cbn [numbered map]. unfold data_answers in *. cbn [List.filter an_data an_seq]. rewrite (proj2 (Z.ltb_lt _ _)) by exact Hr. cbn [map an_seq an_data]. rewrite IH. reflexivity. }
  destruct rs as [|r rs]; [destruct d; reflexivity|]. apply Hn.
Qed.

Lemma pieces_wf_cons next wait o n : next <= o -> 0 < n -> o + n <= zlen M -> forallb (apartb o n) wait = true -> pieces_wf (next + 1) wait -> pieces_wf next ((o, n) :: wait).
Proof.
  intros Ho Hn Hend Hap [Hin Hd]. assert (forall q, q ∈ wait -> o + n <= q.1 \/ q.1 + q.2 <= o) as Hq.
  { intros q Hq. apply list_elem_of_In in Hq. pose proof (proj1 (forallb_forall _ _) Hap q Hq) as H. unfold apartb in H. lia. }
  split.
  - intros p Hp. apply elem_of_cons in Hp. destruct Hp as [->|Hp]; [cbn; lia|]. pose proof (Hin p Hp). lia.
  - intros p q Hp Hq'. apply elem_of_cons in Hp, Hq'. destruct Hp as [->|Hp], Hq' as [->|Hq']; cbn [fst snd]; [auto|right; specialize (Hq q Hq'); lia|right; specialize (Hq p Hp); lia|auto].
Qed.

Lemma covered_cons p l x : receive_queue.covered (p :: l) x <-> p.1 <= x < p.1 + p.2 \/ receive_queue.covered l x.
Proof.
  split; [intros (q & Hq & Hx)|intros [Hx|(q & Hq & Hx)]].
  - apply elem_of_cons in Hq. destruct Hq as [->|Hq]; [auto|]. right. exists q. auto.
  - exists p. split; [apply list_elem_of_here|exact Hx].
  - exists q. split; [apply list_elem_of_further, Hq|exact Hx].
Qed.

Definition waiting_with (st : conv) (s : seg) : list (Z * Z) := if is_old st s then cv_wait st else place s :: cv_wait st.

Lemma waiting_not_next st : conv_ok st -> forall p, p ∈ cv_wait st -> p.1 <> cv_next st.
Proof. intros [_ Hw _ _] p Hp. pose proof (pw_in _ _ Hw p Hp). lia. Qed.

(** The three kinds of segments *)
Lemma deliver_step st s ds next' wait' : conv_ok st -> seg_ok st s = true ->
  deliver (S (length (waiting_with st s))) (cv_next st) (waiting_with st s) = (ds, (next', wait')) ->
  cv_next st <= next' <= zlen M /\ concat (map chunk ds) = receive_queue.piece M (cv_next st) (next' - cv_next st) /\ pieces_wf (next' + 1) wait' /\ (ds = [] -> next' = cv_next st) /\ zlen wait' <= receive_queue.SEGS /\
  forall x, 0 <= x -> (sg_off s <= x < sg_off s + sg_len s \/ x < cv_next st \/ receive_queue.covered (cv_wait st) x) <-> x < next' \/ receive_queue.covered wait' x.
Proof.
  intros Hco Hok E. pose proof Hco as [Hn Hw Hroom _]. pose proof (waiting_not_next st Hco) as Hne. unfold seg_ok in Hok. apply andb_prop in Hok. destruct Hok as [Hok _]. apply andb_prop in Hok. destruct Hok as [Hok _].
  unfold waiting_with in E. destruct (is_old st s) eqn:Eo.
  - rewrite deliver_none in E by exact Hne. injection E as <- <- <-. unfold is_old in Eo. rewrite Z.sub_diag. do 5 (split; [lia || reflexivity || assumption || auto|]). intros x Hx. split; [|tauto].
    intros [?|?]; [left; lia|tauto].
  - cbn [orb] in Hok. apply orb_prop in Hok. destruct Hok as [Hd|He].
    + unfold data_ok in Hd. repeat (apply andb_prop in Hd; destruct Hd as [Hd ?]).
      assert (pieces_wf (cv_next st) (place s :: cv_wait st)) as Hwf by (apply pieces_wf_cons; first [assumption|lia]).
      destruct (deliver_spec _ _ _ _ _ _ (proj1 Hn) Hwf (Nat.lt_succ_diag_r _) E) as (D1 & D2 & D3 & D4 & D5 & D6). split; [lia|]. split; [exact D3|]. split; [exact D4|]. split; [|split].
      * intros ->. apply (f_equal zlen) in D3. cbn [map concat] in D3. change (zlen []) with 0 in D3. unfold receive_queue.piece, zlen in *. rewrite length_take, length_drop in D3. lia.
      * unfold zlen in *. cbn [length] in D5. lia.
      * intros x Hx. specialize (D6 x). rewrite covered_cons in D6. cbn [place fst snd] in D6. split; intros Hc; [|destruct Hc as [Hc|Hc]].
        -- destruct (Z.lt_ge_cases x (cv_next st)); [left; lia|]. destruct Hc as [Hc|[Hc|Hc]]; [| lia |]; (destruct (proj1 D6) as [?|?]; [tauto|left; lia|right; assumption]).
        -- destruct (Z.lt_ge_cases x (cv_next st)); [tauto|]. destruct (proj2 D6) as [?|?]; [left; lia|tauto|tauto].
        -- destruct (proj2 D6) as [?|?]; tauto.
    + unfold empty_ok in He. repeat (apply andb_prop in He; destruct He as [He ?]). unfold place in E. assert (sg_off s = cv_next st) as E1 by lia. assert (sg_len s = 0) as E2 by lia. rewrite E1, E2 in *.
      cbn [length] in E. rewrite deliver_empty in E by exact Hne. injection E as <- <- <-. rewrite Z.sub_diag. do 5 (split; [lia || reflexivity || assumption || discriminate|]).
      intros x Hx. split; [intros [?|?]; [lia|assumption]|tauto].
Qed.

(** One step: what is handed over continues the message, what is answered
    continues the replies, and everything handed over is acknowledged. *)
Record step_books (st st' : conv) (cs : list (list Z)) (ans : list answer) : Prop := {
  sb_ok : conv_ok st';
  sb_next : cv_next st <= cv_next st';
  sb_chunks : concat cs = receive_queue.piece M (cv_next st) (cv_next st' - cv_next st);
  sb_write : send_queue.sp_write (cv_tx st') = send_queue.sp_write (cv_tx st) + zlen (concat (concat (map reply cs)));
  sb_data : data_answers ans = numbered (send_queue.sp_write (cv_tx st)) (concat (map reply cs));
  sb_acks : Forall (fun a => base + cv_next st <= an_ack a <= base + cv_next st') ans;
  sb_quiet : cs = [] -> ans = [] /\ cv_next st' = cv_next st;
  sb_last : cs <> [] -> exists a, last ans = Some a /\ an_ack a = base + cv_next st'
}.

Lemma answers_acks pos ack d rs : Forall (fun a => an_ack a = ack) (answers pos ack d rs) /\
  (d = true -> exists a, last (answers pos ack d rs) = Some a /\ an_ack a = ack) /\ (d = false -> rs = [] -> answers pos ack d rs = []).
Proof.
  assert (forall rs p, Forall (fun a => an_ack a = ack) (map (fun '(s, r) => mk_answer s ack r) (numbered p rs))) as Hn.
  { clear. induction rs as [|r rs IH]; intros p; constructor; [reflexivity|apply IH]. }
  assert (Forall (fun a => an_ack a = ack) (answers pos ack d rs)) as Hall by (destruct rs; [destruct d; repeat constructor|apply Hn]). split; [exact Hall|]. split.
  - intros ->. destruct (last (answers pos ack true rs)) as [a|] eqn:El; [|apply last_None in El; destruct rs; discriminate].
    exists a. split; [reflexivity|]. apply last_Some_elem_of in El. exact (proj1 (Forall_forall _ _) Hall a El).
  - intros -> ->. reflexivity.
Qed.

Lemma conv_step_books st s st' cs ans : conv_ok st -> conv_step st s = Some (st', (cs, ans)) ->
  step_books st st' cs ans /\
  forall x, 0 <= x -> (sg_off s <= x < sg_off s + sg_len s \/ x < cv_next st \/ receive_queue.covered (cv_wait st) x) <-> x < cv_next st' \/ receive_queue.covered (cv_wait st') x.
Proof.
  intros Hco E. unfold conv_step in E. destruct (seg_ok st s) eqn:Hok; [|discriminate].
  change (if is_old st s then cv_wait st else (sg_off s, sg_len s) :: cv_wait st) with (waiting_with st s) in E.
  destruct (deliver _ _ _) as [ds [next' wait']] eqn:Ed. destruct (queue_replies _ _) as [sp'|] eqn:Eq; [|discriminate]. injection E as <- <- <-.
  destruct (deliver_step st s ds next' wait' Hco Hok Ed) as (H1 & H2 & H3 & H4 & H4' & H5). split; [|exact H5].
  pose proof Hco as [Hn _ _ Hs]. unfold seg_ok in Hok. apply andb_prop in Hok. destruct Hok as [Hok _]. apply andb_prop in Hok. destruct Hok as [_ Hack].
  destruct (acked_spec (sg_ack s) (cv_tx st) ltac:(lia) Hs) as (Hw & _ & Hr).
  destruct (queue_replies_spec _ _ _ Eq) as (Q1 & Q2 & Q3 & Q4 & Q5).
  destruct (answers_acks (send_queue.sp_write (send_queue.sp_acked (sg_ack s) (cv_tx st))) (base + next') (match ds with [] => false | _ => true end) (concat (map reply (map chunk ds)))) as (A1 & A2 & A3).
  constructor; cbn [cv_next cv_wait cv_tx].
  - constructor; cbn [cv_next cv_wait cv_tx]; [lia|exact H3|exact H4'|reflexivity].
  - lia.
  - exact H2.
  - change (send_queue.sp_write (all_sent sp')) with (send_queue.sp_write sp'). rewrite Q4, Hw. reflexivity.
  - rewrite data_answers_replies by exact Q5. rewrite Hw. reflexivity.
  - eapply Forall_impl; [exact A1|]. cbn. intros a Ha. lia.
  - intros Hnil. destruct ds; [|discriminate]. split; [apply A3; reflexivity|apply H4; reflexivity].
  - intros Hnn. destruct ds; [contradiction|]. apply A2. reflexivity.
Qed.

Lemma conv_run_books l : forall st st' cs ans past, conv_ok st -> accounts st past -> conv_run st l = Some (st', (cs, ans)) ->
  step_books st st' cs ans /\ accounts st' (rev (map place l) ++ past).
Proof.
  induction l as [|s l IH]; intros st st' cs ans past Hco Hacc E; cbn [conv_run map rev] in *.
  - injection E as <- <- <-. split; [|exact Hacc]. constructor; cbn; try (assumption || reflexivity || lia || constructor || contradiction).
    + rewrite Z.sub_diag. reflexivity.
    + change (zlen []) with 0. lia.
    + auto.
    + reflexivity.
  - destruct (conv_step st s) as [[st1 [c1 a1]]|] eqn:E1; [|discriminate]. destruct (conv_run st1 l) as [[st2 [c2 a2]]|] eqn:E2; [|discriminate]. injection E as <- <- <-.
    destruct (conv_step_books st s st1 c1 a1 Hco E1) as [[B1 B2 B3 B4 B5 B6 B7 B8] Hcov].
    assert (accounts st1 (place s :: past)) as Hacc1.
    { intros x Hx. rewrite covered_cons, (Hacc x Hx), <-(Hcov x Hx). reflexivity. }
    destruct (IH st1 st2 c2 a2 (place s :: past) B1 Hacc1 E2) as [[C1 C2 C3 C4 C5 C6 C7 C8] Hacc2]. split; [|rewrite <-app_assoc; exact Hacc2].
    pose proof (co_next _ Hco). pose proof (co_next _ C1). constructor.
    + exact C1.
    + lia.
    + rewrite concat_app, B3, C3. replace (cv_next st1) with (cv_next st + (cv_next st1 - cv_next st)) at 2 by lia. rewrite receive_queue.rq_piece_split by lia. f_equal. lia.
    + rewrite map_app, !concat_app, zlen_app, C4, B4. lia.
    + rewrite map_app, concat_app, data_answers_app, numbered_app, B5, C5, B4. reflexivity.
    + apply Forall_app. split; [eapply Forall_impl; [exact B6|]|eapply Forall_impl; [exact C6|]]; cbn; intros; lia.
    + intros Hnil. apply app_eq_nil in Hnil. destruct Hnil as [-> ->]. destruct (B7 eq_refl) as [-> HB]. destruct (C7 eq_refl) as [-> HC]. split; [reflexivity|lia].
    + intros Hnn. destruct c2 as [|c c2].
      * destruct (C7 eq_refl) as [-> ->]. rewrite app_nil_r in *. apply B8. exact Hnn.
      * destruct C8 as (a & Ha & Hb); [discriminate|]. exists a. split; [|exact Hb]. rewrite last_app, Ha. reflexivity.
Qed.

End conversation.

(** A segment that is sent again because its acknowledgement was lost is not
    acknowledged again. *)
Lemma old_not_answered M base reply st s st' cs ans : conv_ok M st -> is_old st s = true -> conv_step M base reply st s = Some (st', (cs, ans)) -> ans = [].
Proof.
  intros Hco Ho E. unfold conv_step in E. destruct (seg_ok M st s); [|discriminate]. rewrite Ho, deliver_none in E by exact (waiting_not_next M st Hco).
  cbn [map concat queue_replies answers] in E. injection E as _ _ <-. reflexivity.
Qed.

(** ** The receive queue *)

(** An empty segment at the cursor goes through the queue and leaves it as it was. *)
Lemma rq_empty_roundtrip q M base m flags len : receive_queue.inv q M base m -> Z.of_nat (base.size m) < receive_queue.SEGS -> 0 <= len ->
  (forall i s, m !! i = Some s -> rs_seqnbr s <> receive_queue.read_cursor q) ->
  exists q1 q2, receive_queue.insert q (mk_recv_segment flags (receive_queue.read_cursor q) 0) [] = Ret (q1, true) /\
    receive_queue.has_readable q1 = Ret true /\
    receive_queue.read_one_segment q1 len = Ret (q2, (mk_recv_segment flags (receive_queue.read_cursor q) 0, [])) /\
    receive_queue.inv q2 M base m /\ receive_queue.read_cursor q2 = receive_queue.read_cursor q.
Proof.
  intros [[fl Hr] Hcap [Hb Hwrap] Hcur Hpend Hdis (l & Hl & Hdata)] Hroom Hlen Hnew. unfold receive_queue.BUF, receive_queue.SEQ_MAX, receive_queue.SEGS in *. pose proof (zlen_nonneg M).
  unfold receive_queue.insert. rewrite (pool.pool_full _ _ _ _ Hr), Hcap, (proj2 (Z.leb_gt _ _)) by lia.
  unfold receive_queue.out_of_window, ring_buffer.capacity, receive_queue.BUF, receive_queue.SEQ_MAX. cbn [rs_seqnbr].
  rewrite (u32_small (_ - _)), (proj2 (Z.ltb_ge _ 65535)), Z.ltb_irrefl, Z.sub_diag, ring_buffer.to_i32_id by (unfold INT_MAX; lia).
  destruct (ring_buffer.rb_write 65535 eq_refl receive_queue.rq_BUF_int _ l [] 0 Hl) as (buf & -> & Hl'); [lia|vm_compute; congruence|]. cbn [mbind outcome_bind negb overlay] in *.
  destruct (pool.pool_emplace_anywhere _ _ _ _ (mk_recv_segment flags (receive_queue.read_cursor q) 0) Hr) as (p1 & fl1 & i & -> & Hr1 & Hi & _ & Hc1); [lia|]. cbn [mbind outcome_bind].
  destruct (pool.pool_modify _ _ _ _ i _ (fun s => mk_recv_segment (rs_flags s) (rs_seqnbr s) (zlen (@nil Z))) Hr1 (lookup_insert_eq _ _ _)) as (p2 & -> & Hr2 & Hc2).
  cbn [mbind outcome_bind rs_flags rs_seqnbr] in *. rewrite insert_insert_eq in Hr2. change (zlen (@nil Z)) with 0 in Hr2. set (e := mk_recv_segment flags _ 0) in *.
  set (q1 := receive_queue.mk p2 buf (receive_queue.read_cursor q)). assert (fp_model (receive_queue.segments q1) (<[i:=e]> m)) as Hm by (exists fl1; exact Hr2).
  destruct (receive_queue.rq_has_readable q1 _ i e Hm (lookup_insert_eq _ _ _)) as (j & s & Eh & Ef & Hj & Hmin); [unfold receive_queue.SEQ_MAX; cbn; lia|].
  assert (j = i) as ->.
  { destruct (decide (j = i)) as [|Hne]; [assumption|exfalso]. rewrite lookup_insert_ne in Hj by congruence. pose proof (Hpend j s Hj). pose proof (Hnew j s Hj). pose proof (Hmin i e (lookup_insert_eq _ _ _)) as Hle. cbn in Hle. lia. }
  rewrite lookup_insert_eq in Hj. injection Hj as <-. change (rs_seqnbr e =? receive_queue.read_cursor q1) with (receive_queue.read_cursor q =? receive_queue.read_cursor q) in Eh. rewrite Z.eqb_refl in Eh.
  pose proof (pool.rep_dom _ _ _ _ Hr2 i ltac:(rewrite lookup_insert_eq; eauto)). pose proof (pool.rep_wm _ _ _ _ Hr2). unfold pool.capacity in *.
  destruct (pool.pool_erase _ _ _ _ _ _ Hr2 (lookup_insert_eq _ _ _)) as (p3 & fl3 & E3 & Hr3 & Hc3). rewrite delete_insert_id in Hr3 by exact Hi.
  destruct (ring_buffer.rb_read_front receive_queue.BUF eq_refl receive_queue.rq_BUF_int _ l 0 Hl' ltac:(lia)) as (buf' & Eb & Hb'). cbn in Hb'.
  exists q1, (receive_queue.mk p3 buf' (receive_queue.read_cursor q)). split; [reflexivity|]. split; [exact Eh|]. split.
  - unfold receive_queue.read_one_segment. rewrite Ef. cbn [mbind outcome_bind]. rewrite u16_small by lia. change (receive_queue.segments q1) with p2.
    rewrite (pool.pool_get _ _ _ _ _ _ Hr2 (lookup_insert_eq _ _ _)). cbn [mbind outcome_bind rs_seqnbr rs_length e receive_queue.read_cursor receive_queue.data_buffer q1]. rewrite Z.eqb_refl. cbn [passert mbind outcome_bind].
    rewrite Z.min_r, Eb by lia. cbn [mbind outcome_bind]. change (take (Z.to_nat 0) l) with (@nil Z). change (zlen [] =? 0) with true. cbn [passert mbind outcome_bind]. rewrite E3. cbn [mbind outcome_bind]. rewrite Z.add_0_r, u32_small by lia. reflexivity.
  - split; [|reflexivity]. split; cbn [receive_queue.segments receive_queue.data_buffer receive_queue.read_cursor]; auto; try (unfold receive_queue.SEQ_MAX, receive_queue.BUF; lia).
    + exists fl3. exact Hr3.
    + unfold pool.capacity, receive_queue.SEGS in *. lia.
    + exists l. split; [exact Hb'|exact Hdata].
Qed.

(** The records of the queue are the pieces that wait. *)
Definition record_place (base : Z) (p : Z * tcp_recv_segment) : Z * Z := (rs_seqnbr p.2 - base, rs_length p.2).

Record held (base : Z) (m : gmap Z tcp_recv_segment) (wait : list (Z * Z)) : Prop := {
  he_places : wait ≡ₚ map (record_place base) (map_to_list m);
  he_plain : forall i s, m !! i = Some s -> has (rs_flags s) FIN = false /\ rs_length s <= STEP_BUF
}.

Lemma held_in base m wait p : held base m wait -> p ∈ wait -> exists i s, m !! i = Some s /\ rs_seqnbr s = base + p.1 /\ rs_length s = p.2.
Proof.
  intros [Hp _] Hin. rewrite Hp in Hin. apply list_elem_of_fmap in Hin. destruct Hin as ([i s] & -> & Hin). apply elem_of_map_to_list in Hin. exists i, s. cbn. split; [exact Hin|]. split; lia.
Qed.

Lemma held_at base m wait i s : held base m wait -> m !! i = Some s -> (rs_seqnbr s - base, rs_length s) ∈ wait.
Proof. intros [Hp _] Hi. rewrite Hp. apply list_elem_of_fmap. exists (i, s). split; [reflexivity|]. apply elem_of_map_to_list. exact Hi. Qed.

Lemma held_size base m wait : held base m wait -> length wait = base.size m.
Proof. intros [Hp _]. rewrite Hp, length_map. apply length_map_to_list. Qed.

Lemma held_insert base m wait i s : held base m wait -> m !! i = None -> has (rs_flags s) FIN = false -> rs_length s <= STEP_BUF ->
  held base (<[i:=s]> m) ((rs_seqnbr s - base, rs_length s) :: wait).
Proof.
  intros [Hp Hf] Hi Hs Hl. split.
  - rewrite map_to_list_insert by exact Hi. cbn [map]. rewrite Hp. reflexivity.
  - intros j r Hj. apply lookup_insert_Some in Hj. destruct Hj as [[_ <-]|[_ Hj]]; [auto|eauto].
Qed.

#[local] Instance filter_perm {A} (f : A -> bool) : Proper (Permutation ==> Permutation) (List.filter f).
Proof.
  intros l0 l0' H. induction H as [|x l1 l2 _ IH|x y l|l1 l2 l3 _ IH1 _ IH2]; cbn; [reflexivity| | |etransitivity; eassumption].
  - destruct (f x); [constructor|]; exact IH.
  - destruct (f x), (f y); try reflexivity. constructor.
Qed.

(** Taking the piece at the cursor away *)
Lemma held_rest base q M m wait i s : held base m wait -> receive_queue.inv q M base m -> m !! i = Some s ->
  held base (delete i m) (List.filter (elsewhere (rs_seqnbr s - base)) wait).
Proof.
  intros [Hp Hf] Hinv Hi. split.
  - rewrite Hp. rewrite <-(insert_delete_id m i s Hi) at 1. rewrite (map_to_list_insert (delete i m)) by apply lookup_delete_eq.
    cbn [map List.filter]. assert (elsewhere (rs_seqnbr s - base) (record_place base (i, s)) = false) as -> by (unfold elsewhere, record_place; cbn; rewrite Z.eqb_refl; reflexivity).
    rewrite rest_all; [reflexivity|]. intros p Hin. apply list_elem_of_fmap in Hin. destruct Hin as ([j r] & -> & Hin). apply elem_of_map_to_list, lookup_delete_Some in Hin. destruct Hin as [Hne Hj].
    unfold record_place. cbn. pose proof (receive_queue.inv_disjoint _ _ _ _ Hinv i j s r Hi Hj Hne) as Hd. pose proof (receive_queue.inv_pending _ _ _ _ Hinv i s Hi). pose proof (receive_queue.inv_pending _ _ _ _ Hinv j r Hj). unfold receive_queue.overlap in Hd. lia.
  - intros j r Hj. apply lookup_delete_Some in Hj. destruct Hj. eauto.
Qed.

(** ** The handlers *)

Section handlers.
Context (la : Z) (app : list Z -> list app_action) (M : list Z) (base : Z) (reply : list Z -> list (list Z)).
Context (cb : bool).

(** The application answers what it gets with data, and never closes. *)
Definition talks (c : connection) : Prop := forall d, if callback c then app d = map AppSend (reply d) else reply d = [].

Lemma send_replies h rs : forall w m out c sp sp', wrep w m ∅ ∅ cb out -> m !! h = Some c -> send_queue.rep (tx_queue c) sp -> queue_replies sp rs = Some sp' ->
  exists w' q, sforeach (map AppSend rs) (run_action h) w = Ret (tt, w') /\ wrep w' (<[h := set_tx q c]> m) ∅ ∅ cb out /\ send_queue.rep q sp'.
Proof.
  induction rs as [|r rs IH]; intros w m out c sp sp' Hw Hc Hq E; cbn [map sforeach queue_replies] in *.
  - injection E as <-. exists w, (tx_queue c). split; [reflexivity|]. split; [|exact Hq]. replace (set_tx (tx_queue c) c) with c by (destruct c; reflexivity). rewrite insert_id by exact Hc. exact Hw.
  - destruct (reply_ok sp r) eqn:Er; [|discriminate]. unfold reply_ok in Er. repeat (apply andb_prop in Er; destruct Er as [Er ?]). pose proof (zlen_nonneg r).
    destruct (tcp_transmit w m ∅ ∅ cb out h c sp 0 r (zlen r) Hw Hc Hq) as (w1 & q1 & E1 & Hw1 & Hq1); [lia..|].
    cbn [run_action]. unfold send_data. rewrite E1.
    destruct (IH w1 _ out (set_tx q1 c) _ sp' Hw1 (lookup_insert_eq _ _ _) Hq1 E) as (w2 & q2 & E2 & Hw2 & Hq2). rewrite insert_insert_eq in Hw2.
    exists w2, q2. split; [exact E2|]. split; [exact Hw2|exact Hq2].
Qed.

(** Handing a piece to the application *)
Lemma hand_over h w m out c sp sp' s d : wrep w m ∅ ∅ cb out -> m !! h = Some c -> talks c -> send_queue.rep (tx_queue c) sp -> has (rs_flags s) FIN = false ->
  queue_replies sp (reply d) = Some sp' ->
  exists w' q, sequenced_recv app ESTABLISHED h s d w = Ret (tt, w') /\ wrep w' (<[h := set_tx q c]> m) ∅ ∅ cb out /\ send_queue.rep q sp'.
Proof.
  intros Hw Hc Ht Hq Hf E. cbn [sequenced_recv]. rewrite Hf. unfold on_full_receive. rewrite (stM_bind_Ret _ _ _ _ _ (tcp_get _ _ _ _ _ _ _ _ Hw Hc)).
  specialize (Ht d). destruct (callback c); rewrite Ht in *; [apply (send_replies h (reply d) w m out c sp sp' Hw Hc Hq E)|].
  apply (send_replies h [] w m out c sp sp' Hw Hc Hq E).
Qed.

(** Whether the queue is readable *)
Lemma held_quiet q sm wait next : receive_queue.inv q M base sm -> held base sm wait -> receive_queue.read_cursor q = base + next ->
  (forall p, p ∈ wait -> p.1 <> next) -> receive_queue.has_readable q = Ret false.
Proof.
  intros Hinv Hh Hcur Hno. pose proof (receive_queue.inv_model _ _ _ _ Hinv) as Hm. destruct (map_choose_or_empty sm) as [(i0 & s0 & Hi0)|He]; [|apply (receive_queue.rq_has_readable_false q sm Hm He)].
  pose proof (receive_queue.inv_base _ _ _ _ Hinv). pose proof (receive_queue.inv_pending _ _ _ _ Hinv i0 s0 Hi0). unfold receive_queue.BUF in *.
  destruct (receive_queue.rq_has_readable q sm i0 s0 Hm Hi0) as (i & s & -> & _ & Hi & _); [unfold receive_queue.SEQ_MAX in *; lia|]. f_equal. apply Z.eqb_neq. rewrite Hcur.
  pose proof (Hno _ (held_at _ _ _ _ _ Hh Hi)) as Hn. cbn in Hn. lia.
Qed.

(** The receive loop hands over what [deliver] says. *)
Lemma rx_loop h fuel_d : forall fuel w m out c sm wait next sp ds next' wait' sp',
  wrep w m ∅ ∅ cb out -> m !! h = Some c -> state c = ESTABLISHED -> talks c -> receive_queue.inv (rx_queue c) M base sm -> held base sm wait ->
  receive_queue.read_cursor (rx_queue c) = base + next -> send_queue.rep (tx_queue c) sp -> (length wait < fuel_d)%nat -> (length wait < fuel)%nat ->
  deliver fuel_d next wait = (ds, (next', wait')) -> queue_replies sp (concat (map reply (map (chunk M) ds))) = Some sp' ->
  exists w' q qt sm', step_rx app fuel h w = Ret (tt, w') /\ wrep w' (<[h := set_tx qt (set_rx q c)]> m) ∅ ∅ cb out /\ receive_queue.inv q M base sm' /\
    held base sm' wait' /\ receive_queue.read_cursor q = base + next' /\ send_queue.rep qt sp'.
Proof.
  induction fuel_d as [|fuel_d IH]; intros fuel w m out c sm wait next sp ds next' wait' sp' Hw Hc Hst Ht Hinv Hh Hcur Hq Hfd Hf Ed Er; [lia|]. destruct fuel as [|fuel]; [lia|].
  cbn [deliver] in Ed. pose proof (find_at next wait) as Hfind. destruct (List.find _ wait) as [p|].
  - destruct Hfind as [Hp Hn]. destruct (held_in _ _ _ _ Hh Hp) as (i & s & Hi & Es & El). destruct (he_plain _ _ _ Hh i s Hi) as [Hfin Hlen].
    destruct (deliver fuel_d (next + p.2) _) as [l [n1 w1]] eqn:E1. injection Ed as <- <- <-. cbn [map concat] in Er. rewrite queue_replies_app in Er.
    destruct (queue_replies sp (reply (chunk M p))) as [sp1|] eqn:Er1; [|discriminate].
    destruct (tcp_step_rx_turn app w m ∅ ∅ cb out h c fuel M base sm i s Hw Hc Hinv Hi ltac:(lia) Hlen) as (_ & w2 & q1 & Hinv1 & Hc1 & Hw2 & ->).
    assert (receive_queue.piece M (receive_queue.read_cursor (rx_queue c) - base) (rs_length s) = chunk M p) as -> by (unfold chunk; rewrite El; f_equal; lia).
    rewrite Hst. destruct (hand_over h w2 _ out (set_rx q1 c) sp sp1 s (chunk M p) Hw2 (lookup_insert_eq _ _ _) Ht Hq Hfin Er1) as (w3 & qt1 & E3 & Hw3 & Hq1).
    rewrite (stM_bind_Ret _ _ _ _ _ E3). rewrite insert_insert_eq in Hw3. pose proof (length_rest next wait) as [_ Hlt]. specialize (Hlt p Hp Hn).
    pose proof (held_rest base (rx_queue c) M sm wait i s Hh Hinv Hi) as Hh1. replace (rs_seqnbr s - base) with next in Hh1 by lia.
    destruct (IH fuel w3 _ out (set_tx qt1 (set_rx q1 c)) (delete i sm) _ (next + p.2) sp1 l n1 w1 sp' Hw3 (lookup_insert_eq _ _ _) Hst Ht Hinv1 Hh1 ltac:(cbn [rx_queue set_tx set_rx]; lia) Hq1 ltac:(lia) ltac:(lia) E1 Er)
      as (w4 & q2 & qt2 & sm2 & E4 & Hw4 & H1 & H2 & H3 & H4).
    rewrite insert_insert_eq in Hw4. exists w4, q2, qt2, sm2. split; [exact E4|]. split; [exact Hw4|]. auto.
  - injection Ed as <- <- <-. cbn [map concat queue_replies] in Er. injection Er as <-.
    pose proof (held_quiet _ _ _ _ Hinv Hh Hcur Hfind) as Hr. exists w, (rx_queue c), (tx_queue c), sm. split; [apply (tcp_step_rx_quiet app w m ∅ ∅ cb out h c fuel Hw Hc Hr)|].
    replace (set_tx (tx_queue c) (set_rx (rx_queue c) c)) with c by (destruct c; reflexivity). rewrite insert_id by exact Hc. auto.
Qed.

(** ** On the wire *)

(** The datagram [d] carries the answer [a] from [l] to [r]. *)
Definition on_wire (r l : endpoint) (d : out_datagram) (a : answer) : Prop :=
  out_dest d = ipaddr r /\ src_port (parse_header (out_bytes d)) = port l /\ dest_port (parse_header (out_bytes d)) = port r /\
  seq_nbr (parse_header (out_bytes d)) = an_seq a /\ ack_nbr (parse_header (out_bytes d)) = an_ack a /\
  seg_flags (out_bytes d) = ACK /\ drop 20 (out_bytes d) = an_data a.

Definition ports_ok (c : connection) : Prop := 0 <= port (local c) < 2 ^ 16 /\ 0 <= port (remote c) < 2 ^ 16.

Lemma wire_ok c seq csum data : ports_ok c -> 0 <= csum < 2 ^ 16 -> 0 <= seq < 2 ^ 32 -> 0 <= receive_queue.read_cursor (rx_queue c) < 2 ^ 32 ->
  on_wire (remote c) (local c) (mk_out (ipaddr (remote c)) (header_bytes (set_checksum csum (outgoing_header c ACK seq)) ++ data))
    (mk_answer seq (receive_queue.read_cursor (rx_queue c)) data).
Proof.
  intros [Hl Hr] Hcs Hseq Hack. unfold on_wire, seg_flags. cbn [out_dest out_bytes an_seq an_ack an_data]. rewrite !tcp_parse_header_bytes by (apply tcp_outgoing_header_ok; assumption).
  cbn [src_port dest_port seq_nbr ack_nbr flags_hdrsz set_checksum outgoing_header]. rewrite !bytes.ntohs_htons, !bytes.ntohl_htonl by assumption. repeat split.
Qed.

(** What sending leaves alone *)
Definition same_but_tx (c c' : connection) : Prop :=
  state c' = state c /\ rx_queue c' = rx_queue c /\ remote c' = remote c /\ local c' = local c /\ callback c' = callback c.

Lemma numbered_range pos rs s r : (s, r) ∈ numbered pos rs -> pos <= s /\ s + zlen r <= pos + zlen (concat rs).
Proof.
  revert pos. induction rs as [|x rs IH]; intros pos Hin; cbn [numbered concat] in *; [apply not_elem_of_nil in Hin; done|]. rewrite zlen_app. pose proof (zlen_nonneg (concat rs)). pose proof (zlen_nonneg x).
  apply elem_of_cons in Hin. destruct Hin as [[= -> ->]|Hin]; [lia|]. specialize (IH _ Hin). lia.
Qed.

(** The transmit loop sends the queued replies. *)
Lemma tx_loop h rest : forall fuel w m out c sp sent_before, wrep w m ∅ ∅ cb out -> m !! h = Some c -> ports_ok c -> send_queue.rep (tx_queue c) sp ->
  send_queue.sp_segs sp = sent_before ++ map as_seg rest -> send_queue.sp_read sp = zlen sent_before -> (length rest < fuel)%nat ->
  Forall (fun r => 0 < zlen r /\ zlen r + 20 < 1500 /\ checksum.bytes_ok r) rest -> send_queue.sp_ack sp + send_queue.BUF < 2 ^ 32 ->
  0 <= receive_queue.read_cursor (rx_queue c) < 2 ^ 32 -> next_outgoing_seqnbr c = send_queue.sp_ack sp + zlen (send_queue.payload sent_before) ->
  exists w' c' ds, step_tx la fuel h w = Ret (tt, w') /\ wrep w' (<[h := c']> m) ∅ ∅ cb (out ++ ds) /\
    Forall2 (on_wire (remote c) (local c)) ds (map (fun '(s, r) => mk_answer s (receive_queue.read_cursor (rx_queue c)) r) (numbered (next_outgoing_seqnbr c) rest)) /\
    send_queue.rep (tx_queue c') (all_sent sp) /\ same_but_tx c c' /\ next_outgoing_seqnbr c' = send_queue.sp_write sp.
Proof.
  induction rest as [|r rest IH]; intros fuel w m out c sp sent_before Hw Hc Hp Hq Esegs Eread Hf Hok Hwrap Hcur Hnext; (destruct fuel as [|fuel]; [cbn in Hf; lia|]).
  - cbn [map] in Esegs. rewrite app_nil_r in Esegs. exists w, c, []. rewrite app_nil_r, insert_id by exact Hc. split.
    + apply (tcp_step_tx_quiet la w m ∅ ∅ cb out h c fuel Hw Hc). rewrite (send_queue.sq_has_readable _ _ Hq), Eread, Esegs. apply Z.ltb_irrefl.
    + split; [exact Hw|]. split; [constructor|]. split; [|split; [repeat split|rewrite Hnext; unfold send_queue.sp_write; rewrite Esegs; reflexivity]].
      destruct sp as [pos l rd]. cbn [send_queue.sp_read send_queue.sp_segs] in *. unfold all_sent. cbn. rewrite Esegs, <-Eread. rewrite Esegs in Hq. exact Hq.
  - inversion Hok as [|? ? [Hr0 [Hr1 Hr2]] Hok']; subst. pose proof (zlen_nonneg sent_before) as Hz.
    assert (znth (send_queue.sp_segs sp) (send_queue.sp_read sp) = Some (as_seg r)) as Ha by (rewrite Esegs, Eread; cbn [map]; rewrite znth_app_r, Z.sub_diag by lia; reflexivity).
    assert (send_queue.sp_next_seq sp = next_outgoing_seqnbr c) as Es.
    { unfold send_queue.sp_next_seq. rewrite Eread, Esegs, Hnext. unfold zlen at 2. rewrite Nat2Z.id, take_app_length. reflexivity. }
    destruct (tcp_step_tx_turn la w m ∅ ∅ cb out h c fuel sp (as_seg r) Hw Hc Hq Ha ltac:(cbn; unfold STEP_BUF; lia) Hwrap) as (w1 & q1 & Hq1 & Hw1 & ->).
    cbn [send_queue.a_flags send_queue.a_bytes as_seg]. rewrite Es.
    destruct (tcp_send_segment la w1 _ ∅ ∅ cb out h (set_tx q1 c) 0 (next_outgoing_seqnbr c) r Hw1 (lookup_insert_eq _ _ _) Hr1 Hr2) as (w2 & d & csum & E2 & Hw2 & Hcs & Hd).
    rewrite (stM_bind_Ret _ _ _ _ _ E2). rewrite insert_insert_eq in Hw2. cbv zeta in Hd. change (Z.lor 0 ACK) with ACK in Hd.
    change (has ACK SYN || has ACK FIN) with false in Hd. rewrite andb_false_l, (proj2 (Z.eqb_neq (zlen r) 0)) in Hd by lia. cbn [orb] in Hd.
    pose proof (send_queue.rep_write _ _ Hq) as [_ Hwr]. pose proof (send_queue.rep_ack _ _ Hq) as [_ Hac].
    assert (send_queue.sp_write sp = next_outgoing_seqnbr c + zlen r + zlen (send_queue.payload (map as_seg rest))) as Hwrite.
    { unfold send_queue.sp_write. rewrite Esegs, Hnext. cbn [map]. unfold send_queue.payload. rewrite map_app, concat_app. cbn [map concat send_queue.a_bytes as_seg]. rewrite !zlen_app. lia. }
    pose proof (zlen_nonneg (send_queue.payload (map as_seg rest))). pose proof (zlen_nonneg (send_queue.payload sent_before)).
    rewrite u32_small in Hw2 by lia.
    destruct (IH fuel w2 _ _ (set_next (next_outgoing_seqnbr c + zlen r) (set_tx q1 c)) (send_queue.sp_advance sp) (sent_before ++ [as_seg r]) Hw2 (lookup_insert_eq _ _ _) Hp Hq1)
      as (w3 & c3 & ds & E3 & Hw3 & Hds & Hq3 & Hsame & Hn3).
    + cbn [send_queue.sp_segs send_queue.sp_advance]. rewrite Esegs, <-app_assoc. reflexivity.
    + cbn [send_queue.sp_read send_queue.sp_advance]. rewrite zlen_app. change (zlen [as_seg r]) with 1. lia.
    + cbn in Hf. lia.
    + exact Hok'.
    + exact Hwrap.
    + exact Hcur.
    + cbn [next_outgoing_seqnbr set_next send_queue.sp_ack send_queue.sp_advance]. rewrite send_queue.sq_payload_app, zlen_app, Hnext. cbn. lia.
    + rewrite insert_insert_eq, <-app_assoc in Hw3. exists w3, c3, (d :: ds). split; [exact E3|]. split; [exact Hw3|]. split; [|split; [exact Hq3|split; [exact Hsame|exact Hn3]]].
      cbn [numbered map]. constructor; [|exact Hds]. rewrite Hd. apply (wire_ok (set_tx q1 c)); [exact Hp|exact Hcs|lia|exact Hcur].
Qed.

(** ** One segment *)

(** The connection is in the state [st] of the conversation. *)
Record talking (c : connection) (st : conv) : Prop := {
  tk_state : state c = ESTABLISHED;
  tk_ports : ports_ok c;
  tk_talks : talks c;
  tk_rx : exists sm, receive_queue.inv (rx_queue c) M base sm /\ held base sm (cv_wait st);
  tk_cursor : receive_queue.read_cursor (rx_queue c) = base + cv_next st;
  tk_tx : send_queue.rep (tx_queue c) (cv_tx st);
  tk_seqnbr : next_outgoing_seqnbr c = send_queue.sp_write (cv_tx st)
}.

(** The queue after a segment has been put into it: a record for every piece
    that waits, or besides an empty one at the cursor *)
Definition queued (q : receive_queue.t) (st : conv) (s : seg) : Prop :=
  receive_queue.read_cursor q = base + cv_next st /\
  ((exists sm, receive_queue.inv q M base sm /\ held base sm (waiting_with st s)) \/
   (waiting_with st s = (cv_next st, 0) :: cv_wait st /\ receive_queue.has_readable q = Ret true /\
    exists q2 f sm, receive_queue.read_one_segment q STEP_BUF = Ret (q2, (mk_recv_segment f (receive_queue.read_cursor q) 0, [])) /\ has f FIN = false /\
      receive_queue.inv q2 M base sm /\ held base sm (cv_wait st) /\ receive_queue.read_cursor q2 = base + cv_next st)).

Lemma cursor_range q sm : receive_queue.inv q M base sm -> 0 <= receive_queue.read_cursor q < 2 ^ 32 - receive_queue.BUF.
Proof. intros Hinv. pose proof (receive_queue.inv_base _ _ _ _ Hinv). pose proof (receive_queue.inv_cursor _ _ _ _ Hinv). unfold receive_queue.SEQ_MAX in *. lia. Qed.

(** An old segment is dropped. *)
Lemma insert_old q sm flags off data : receive_queue.inv q M base sm -> base + off < receive_queue.read_cursor q -> receive_queue.insert q (mk_recv_segment flags (base + off) 0) data = Ret (q, false).
Proof.
  intros Hinv Hoff. pose proof (cursor_range _ _ Hinv) as Hc. pose proof (receive_queue.inv_base _ _ _ _ Hinv). pose proof (receive_queue.inv_cursor _ _ _ _ Hinv). unfold receive_queue.BUF, receive_queue.SEQ_MAX in *. unfold receive_queue.insert. destruct (pool.full _); [reflexivity|].
  unfold receive_queue.out_of_window, ring_buffer.capacity, receive_queue.SEQ_MAX, receive_queue.BUF. rewrite u32_small, (proj2 (Z.ltb_ge _ 65535)) by lia. cbn [rs_seqnbr]. rewrite (proj2 (Z.ltb_lt _ _)) by lia. reflexivity.
Qed.

Lemma insert_queued c st s flags data : talking c st -> conv_ok M st -> seg_ok M st s = true -> has flags FIN = false -> zlen data = sg_len s ->
  (0 <= sg_off s -> data = receive_queue.piece M (sg_off s) (sg_len s)) ->
  exists q b, receive_queue.insert (rx_queue c) (mk_recv_segment flags (base + sg_off s) 0) data = Ret (q, b) /\ queued q st s.
Proof.
  intros [_ _ _ (sm & Hinv & Hh) Hcur _ _] Hco Hok Hfin Hlen Hdata. pose proof Hco as [Hn Hw Hroom _].
  unfold seg_ok in Hok. apply andb_prop in Hok. destruct Hok as [Hok _]. apply andb_prop in Hok. destruct Hok as [Hok _]. unfold queued, waiting_with.
  pose proof (held_size _ _ _ Hh) as Hsz. destruct (is_old st s) eqn:Eo.
  - unfold is_old in Eo. exists (rx_queue c), false. split; [apply (insert_old _ sm); [exact Hinv|lia]|]. split; [exact Hcur|]. left. exists sm. auto.
  - cbn [orb] in Hok. apply orb_prop in Hok. destruct Hok as [Hd|He].
    + unfold data_ok in Hd. repeat (apply andb_prop in Hd; destruct Hd as [Hd ?]). rewrite Hdata by lia.
      match goal with H : forallb _ _ = true |- _ => rename H into Hap end.
      destruct (receive_queue.rq_insert (rx_queue c) M base sm flags (sg_off s) (sg_len s) Hinv) as (q & i & E & Hi & Hinv' & Hc'); try (unfold zlen in *; lia).
      { intros j r Hj. pose proof (held_at _ _ _ _ _ Hh Hj) as Hin. apply list_elem_of_In in Hin. pose proof (proj1 (forallb_forall _ _) Hap _ Hin) as H'. unfold apartb in H'. cbn in H'. unfold receive_queue.overlap. lia. }
      exists q, true. split; [exact E|]. split; [lia|]. left. eexists. split; [exact Hinv'|]. unfold place. pose proof (held_insert base sm (cv_wait st) i (mk_recv_segment flags (base + sg_off s) (sg_len s)) Hh Hi Hfin ltac:(cbn; lia)) as Hh'.
      cbn [rs_seqnbr rs_length] in Hh'. replace (base + sg_off s - base) with (sg_off s) in Hh' by lia. exact Hh'.
    + unfold empty_ok in He. repeat (apply andb_prop in He; destruct He as [He ?]). assert (data = []) as -> by (destruct data; [reflexivity|rewrite zlen_cons in Hlen; pose proof (zlen_nonneg data); lia]).
      assert (base + sg_off s = receive_queue.read_cursor (rx_queue c)) as -> by lia.
      destruct (rq_empty_roundtrip (rx_queue c) M base sm flags STEP_BUF Hinv) as (q1 & q2 & E1 & E2 & E3 & Hinv' & Hc'); [unfold zlen in *; lia|vm_compute; discriminate| |].
      { intros i r Hi. pose proof (waiting_not_next M st Hco _ (held_at _ _ _ _ _ Hh Hi)) as Hne. cbn in Hne. lia. }
      assert (receive_queue.read_cursor q1 = receive_queue.read_cursor (rx_queue c)) as Ec.
      { clear - E1. unfold receive_queue.insert in E1. destruct (pool.full _); [congruence|]. destruct (receive_queue.out_of_window _ _); [congruence|].
        destruct (ring_buffer.write _ _ _ _) as [[buf ok]| | |]; cbn in E1; try discriminate. destruct ok; cbn in E1; [|congruence].
        destruct (pool.emplace_anywhere _ _ _) as [[p i]| | |]; cbn in E1; try discriminate. destruct (pool.modify _ _ _ _); cbn in E1; try discriminate. injection E1 as <-. reflexivity. }
      exists q1, true. split; [exact E1|]. split; [lia|]. right. split; [unfold place; do 2 f_equal; f_equal; lia|]. split; [exact E2|].
      exists q2, flags, sm. rewrite Ec. split; [exact E3|]. split; [exact Hfin|]. split; [exact Hinv'|]. split; [exact Hh|]. lia.
Qed.

Definition handed (ds : list (Z * Z)) : bool := match ds with [] => false | _ => true end.

Lemma waiting_length st s : conv_ok M st -> seg_ok M st s = true -> (length (waiting_with st s) < 201)%nat.
Proof.
  intros [_ _ Hroom _] Hok. unfold seg_ok in Hok. apply andb_prop in Hok. destruct Hok as [Hok _]. apply andb_prop in Hok. destruct Hok as [Hok _]. unfold waiting_with, receive_queue.SEGS, zlen in *.
  destruct (is_old st s); [lia|]. cbn [length orb] in *. apply orb_prop in Hok. destruct Hok as [Hd|He]; [unfold data_ok in Hd|unfold empty_ok in He]; unfold receive_queue.SEGS, zlen in *.
  - repeat (apply andb_prop in Hd; destruct Hd as [Hd ?]). lia.
  - repeat (apply andb_prop in He; destruct He as [He ?]). lia.
Qed.

(** The receive loop after a segment *)
Lemma queued_rx h w m out c st s sp ds next' wait' sp' : wrep w m ∅ ∅ cb out -> m !! h = Some c -> state c = ESTABLISHED -> talks c ->
  queued (rx_queue c) st s -> conv_ok M st -> seg_ok M st s = true -> send_queue.rep (tx_queue c) sp ->
  deliver (S (length (waiting_with st s))) (cv_next st) (waiting_with st s) = (ds, (next', wait')) -> queue_replies sp (concat (map reply (map (chunk M) ds))) = Some sp' ->
  receive_queue.has_readable (rx_queue c) = Ret (handed ds) /\
  exists w' q qt sm', step_rx app 201 h w = Ret (tt, w') /\ wrep w' (<[h := set_tx qt (set_rx q c)]> m) ∅ ∅ cb out /\ receive_queue.inv q M base sm' /\
    held base sm' wait' /\ receive_queue.read_cursor q = base + next' /\ send_queue.rep qt sp'.
Proof.
  intros Hw Hc Hst Ht [Hcur [(sm & Hinv & Hh)|(Ew & Hr & q2 & f & sm & Erd & Hfin & Hinv & Hh & Hc2)]] Hco Hok Hq Ed Er.
  - split; [|exact (rx_loop h _ 201 w m out c sm _ _ sp ds next' wait' sp' Hw Hc Hst Ht Hinv Hh Hcur Hq (Nat.lt_succ_diag_r _) (waiting_length st s Hco Hok) Ed Er)].
    cbn [deliver] in Ed. pose proof (find_at (cv_next st) (waiting_with st s)) as Hfind. destruct (List.find _ _) as [p|].
    + destruct Hfind as [Hp Hn]. destruct (held_in _ _ _ _ Hh Hp) as (i & r & Hi & Es & El). destruct (he_plain _ _ _ Hh i r Hi) as [_ Hlen].
      destruct (deliver _ (cv_next st + p.2) _) as [l rr]. injection Ed as <- _. exact (proj1 (tcp_step_rx_turn app w m ∅ ∅ cb out h c 200 M base sm i r Hw Hc Hinv Hi ltac:(lia) Hlen)).
    + injection Ed as <- _ _. exact (held_quiet _ _ _ _ Hinv Hh Hcur Hfind).
  - rewrite Ew in Ed. cbn [length] in Ed. pose proof (waiting_not_next M st Hco) as Hne. rewrite deliver_empty in Ed by exact Hne. injection Ed as <- <- <-. split; [exact Hr|].
    cbn [map concat] in Er. rewrite app_nil_r in Er. change (chunk M (cv_next st, 0)) with (@nil Z) in Er.
    destruct (tcp_upd _ _ _ _ _ _ h c (set_rx q2) Hw Hc) as (w1 & E1 & Hw1).
    destruct (hand_over h w1 _ out (set_rx q2 c) sp sp' (mk_recv_segment f (receive_queue.read_cursor (rx_queue c)) 0) [] Hw1 (lookup_insert_eq _ _ _) Ht Hq Hfin Er) as (w2 & qt & E2 & Hw2 & Hq2).
    rewrite insert_insert_eq in Hw2. exists w2, q2, qt, sm. split; [|auto 6].
    cbn [step_rx]. rewrite (stM_bind_Ret _ _ _ _ _ (tcp_get _ _ _ _ _ _ _ _ Hw Hc)).
    rewrite (stM_bind_Ret _ _ _ true w) by (unfold lift; rewrite Hr; reflexivity). cbv beta iota.
    rewrite (stM_bind_Ret _ _ _ (q2, (mk_recv_segment f (receive_queue.read_cursor (rx_queue c)) 0, [])) w) by (unfold lift; rewrite Erd; reflexivity). cbv beta iota.
    rewrite (stM_bind_Ret _ _ _ _ _ E1), Hst, (stM_bind_Ret _ _ _ _ _ E2).
    apply (tcp_step_rx_quiet app w2 _ ∅ ∅ cb out h _ 199 Hw2 (lookup_insert_eq _ _ _)). exact (held_quiet _ _ _ _ Hinv Hh Hc2 Hne).
Qed.

(** Sending the replies, once they are queued *)
Lemma step_tx_replies h w m out c sp sp' rs next wait sm : wrep w m ∅ ∅ cb out -> m !! h = Some c -> state c = ESTABLISHED -> ports_ok c -> talks c ->
  receive_queue.inv (rx_queue c) M base sm -> held base sm wait -> receive_queue.read_cursor (rx_queue c) = base + next ->
  send_queue.rep (tx_queue c) sp' -> queue_replies sp rs = Some sp' -> send_queue.sp_read sp = zlen (send_queue.sp_segs sp) -> send_queue.sp_ack sp + send_queue.BUF < 2 ^ 32 ->
  next_outgoing_seqnbr c = send_queue.sp_write sp ->
  exists w' c' ds, step_tx la 101 h w = Ret (tt, w') /\ wrep w' (<[h := c']> m) ∅ ∅ cb (out ++ ds) /\
    Forall2 (on_wire (remote c) (local c)) ds (map (fun '(s, r) => mk_answer s (base + next) r) (numbered (send_queue.sp_write sp) rs)) /\
    talking c' (mk_conv next wait (all_sent sp')) /\ remote c' = remote c /\ local c' = local c.
Proof.
  intros Hw Hc Hst Hp Ht Hinv Hh Hcur Hqt Eq Rd Hwrap Hn. destruct (queue_replies_spec rs sp sp' Eq) as (Q1 & Q2 & Q3 & Q4 & Q5). pose proof (cursor_range _ _ Hinv) as Hcr. unfold receive_queue.BUF in Hcr.
  destruct (tx_loop h rs 101 w m out c sp' (send_queue.sp_segs sp) Hw Hc Hp Hqt Q2) as (w3 & c3 & ds3 & E3 & Hw3 & Hd3 & Hq3 & (S1 & S2 & S3 & S4 & S5) & Hn3).
  - rewrite Q3. exact Rd.
  - pose proof (send_queue.sq_segs_bound _ _ Hqt) as Hb. rewrite Q2, zlen_app in Hb. unfold send_queue.SEGS, zlen in Hb. rewrite length_map in Hb. lia.
  - exact Q5.
  - rewrite Q1. exact Hwrap.
  - lia.
  - rewrite Hn, Q1. reflexivity.
  - exists w3, c3, ds3. split; [exact E3|]. split; [exact Hw3|]. rewrite Hn, Hcur in Hd3. split; [exact Hd3|]. split; [|auto].
    split; cbn [cv_next cv_wait cv_tx]; [exact (eq_trans S1 Hst)|unfold ports_ok in *; rewrite S3, S4; exact Hp|unfold talks in *; rewrite S5; exact Ht|exists sm; rewrite S2; auto|rewrite S2; exact Hcur|exact Hq3|exact Hn3].
Qed.

(** An acknowledgement without data *)
Lemma send_empty_ack h w m out c : wrep w m ∅ ∅ cb out -> m !! h = Some c -> ports_ok c -> 0 <= receive_queue.read_cursor (rx_queue c) < 2 ^ 32 -> 0 <= next_outgoing_seqnbr c < 2 ^ 32 ->
  exists w' d, send_segment la h 0 (next_outgoing_seqnbr c) [] w = Ret (tt, w') /\ wrep w' m ∅ ∅ cb (out ++ [d]) /\
    on_wire (remote c) (local c) d (mk_answer (next_outgoing_seqnbr c) (receive_queue.read_cursor (rx_queue c)) []).
Proof.
  intros Hw Hc Hp Hcur Hnr. destruct (tcp_send_segment la w m ∅ ∅ cb out h c 0 (next_outgoing_seqnbr c) [] Hw Hc) as (w2 & d & csum & E2 & Hw2 & Hcs & Hd); [vm_compute; reflexivity|constructor|].
  cbv zeta in Hd. change (Z.lor 0 ACK) with ACK in Hd. change (zlen (@nil Z)) with 0 in *. rewrite Z.eqb_refl, orb_true_r in Hd.
  rewrite Z.add_0_r, u32_small in Hw2 by exact Hnr. replace (set_next (next_outgoing_seqnbr c) c) with c in Hw2 by (destruct c; reflexivity). rewrite insert_id in Hw2 by exact Hc.
  exists w2, d. split; [exact E2|]. split; [exact Hw2|]. rewrite Hd. apply (wire_ok c (next_outgoing_seqnbr c) csum []); assumption.
Qed.

(** [step] after a segment *)
Lemma step_queued h w m out c st s st' cs ans : wrep w m ∅ ∅ cb out -> m !! h = Some c -> state c = ESTABLISHED -> talks c -> ports_ok c ->
  queued (rx_queue c) st s -> conv_ok M st -> send_queue.rep (tx_queue c) (send_queue.sp_acked (sg_ack s) (cv_tx st)) ->
  next_outgoing_seqnbr c = send_queue.sp_write (cv_tx st) -> conv_step M base reply st s = Some (st', (cs, ans)) ->
  exists w' c' ds, step la app h w = Ret (tt, w') /\ wrep w' (<[h := c']> m) ∅ ∅ cb (out ++ ds) /\ Forall2 (on_wire (remote c) (local c)) ds ans /\
    talking c' st' /\ remote c' = remote c /\ local c' = local c.
Proof.
  intros Hw Hc Hst Ht Hp Hqd Hco Hq Hnext E. unfold conv_step in E. destruct (seg_ok M st s) eqn:Hok; [|discriminate].
  change (if is_old st s then cv_wait st else (sg_off s, sg_len s) :: cv_wait st) with (waiting_with st s) in E.
  destruct (deliver _ _ _) as [ds [next' wait']] eqn:Ed. destruct (queue_replies _ _) as [sp'|] eqn:Eq; [|discriminate]. injection E as <- <- <-.
  set (sp := send_queue.sp_acked (sg_ack s) (cv_tx st)) in *. set (rs := concat (map reply (map (chunk M) ds))) in *.
  destruct (queued_rx h w m out c st s sp ds next' wait' sp' Hw Hc Hst Ht Hqd Hco Hok Hq Ed Eq) as (Er & w1 & q & qt & sm & E1 & Hw1 & Hinv & Hh & Hcur & Hqt).
  destruct (queue_replies_spec rs sp sp' Eq) as (Q1 & Q2 & Q3 & Q4 & Q5). unfold seg_ok in Hok. apply andb_prop in Hok. destruct Hok as [Hok Hroom]. apply andb_prop in Hok. destruct Hok as [_ Hack].
  destruct (acked_spec (sg_ack s) (cv_tx st) ltac:(lia) (co_sent _ _ Hco)) as (Wr & Ak & Rd). fold sp in Wr, Ak, Rd. pose proof (cursor_range _ _ Hinv) as Hcr. unfold receive_queue.BUF in Hcr.
  unfold step. rewrite (stM_bind_Ret _ _ _ _ _ (tcp_get _ _ _ _ _ _ _ _ Hw Hc)). rewrite (stM_bind_Ret _ _ _ (handed ds) w) by (unfold lift; rewrite Er; reflexivity).
  rewrite (stM_bind_Ret _ _ _ _ _ E1), (stM_bind_Ret _ _ _ _ _ (tcp_get _ _ _ _ _ _ _ _ Hw1 (lookup_insert_eq _ _ _))).
  set (c1 := set_tx qt (set_rx q c)) in *. assert (next_outgoing_seqnbr c1 = send_queue.sp_write sp) as Hn1 by (cbn [next_outgoing_seqnbr c1 set_tx set_rx]; congruence).
  assert (send_queue.has_readable (tx_queue c1) = negb (match rs with [] => true | _ => false end)) as ->.
  { cbn [tx_queue c1 set_tx]. rewrite (send_queue.sq_has_readable _ _ Hqt), Q2, Q3, Rd, zlen_app. unfold zlen at 3. rewrite length_map. pose proof (zlen_nonneg (send_queue.sp_segs sp)). destruct rs; cbn [length]; [apply Z.ltb_ge|apply Z.ltb_lt]; lia. }
  assert (forall w2 out2, wrep w2 (<[h:=c1]> m) ∅ ∅ cb out2 -> _) as Htx by (intros w2 out2 Hw2; exact (step_tx_replies h w2 _ out2 c1 sp sp' rs next' wait' sm Hw2 (lookup_insert_eq _ _ _) Hst Hp Ht Hinv Hh Hcur Hqt Eq Rd ltac:(lia) Hn1)).
  setoid_rewrite insert_insert_eq in Htx. change (remote c1) with (remote c) in Htx. change (local c1) with (local c) in Htx.
  destruct (handed ds && match rs with [] => true | _ => false end) eqn:Eb.
  - destruct ds as [|p ds]; [discriminate|]. destruct rs as [|r rs'] eqn:Ers; [|discriminate].
    destruct (send_empty_ack h w1 _ out c1 Hw1 (lookup_insert_eq _ _ _) Hp) as (w2 & d & E2 & Hw2 & Hd).
    + cbn [rx_queue c1 set_tx set_rx]. lia.
    + pose proof (send_queue.rep_write _ _ Hqt) as [_ ?]. pose proof (send_queue.rep_ack _ _ Hq) as [_ ?]. rewrite Hn1. change (concat []) with (@nil Z) in Q4. change (zlen (@nil Z)) with 0 in Q4. unfold send_queue.sp_write at 1. pose proof (zlen_nonneg (send_queue.payload (send_queue.sp_segs sp))). lia.
    + rewrite negb_involutive, Eb, (stM_bind_Ret _ _ _ _ _ E2). destruct (Htx w2 _ Hw2) as (w3 & c3 & ds3 & E3 & Hw3 & Hd3 & Ht3 & Hr3). inversion Hd3; subst ds3. rewrite app_nil_r in Hw3.
      exists w3, c3, [d]. split; [exact E3|]. split; [exact Hw3|]. split; [|split; [exact Ht3|exact Hr3]]. constructor; [|constructor]. rewrite Hn1 in Hd. cbn [rx_queue c1 set_tx set_rx] in Hd. rewrite Hcur in Hd. exact Hd.
  - rewrite negb_involutive, Eb, (stM_bind_Ret _ _ _ tt w1) by reflexivity. destruct (Htx w1 out Hw1) as (w3 & c3 & ds3 & E3 & Hw3 & Hd3 & Ht3 & Hr3).
    exists w3, c3, ds3. split; [exact E3|]. split; [exact Hw3|]. split; [|split; [exact Ht3|exact Hr3]]. destruct rs; [destruct ds; [|discriminate]|]; exact Hd3.
Qed.

(** [connection::on_receive] with a segment of the conversation *)
Lemma on_receive_segment h w m out c st s st' cs ans md data : wrep w m ∅ ∅ cb out -> m !! h = Some c -> talking c st -> conv_ok M st ->
  has (flags md) ACK = true -> has (flags md) FIN = false -> seq_nbr (tcp_header md) = base + sg_off s -> ack_nbr (tcp_header md) = sg_ack s -> zlen data = sg_len s ->
  (0 <= sg_off s -> data = receive_queue.piece M (sg_off s) (sg_len s)) -> conv_step M base reply st s = Some (st', (cs, ans)) ->
  exists w' c' ds, on_receive la app h md data (zlen data) w = Ret (tt, w') /\ wrep w' (<[h := c']> m) ∅ ∅ cb (out ++ ds) /\
    Forall2 (on_wire (remote c) (local c)) ds ans /\ talking c' st' /\ remote c' = remote c /\ local c' = local c.
Proof.
  intros Hw Hc Htk Hco Hack Hfin Hseq Han Hlen Hdata E. pose proof Htk as [Hst Hp Ht _ _ Hq Hn].
  assert (seg_ok M st s = true) as Hok by (unfold conv_step in E; destruct (seg_ok M st s); [reflexivity|discriminate]).
  destruct (insert_queued c st s (flags md) data Htk Hco Hok Hfin Hlen Hdata) as (q & b & Ei & Hqd).
  destruct (tcp_upd _ _ _ _ _ _ h c (set_rx q) Hw Hc) as (w1 & E1 & Hw1).
  assert (early_recv ESTABLISHED h md data (zlen data) w = Ret (tt, w1)) as Ee.
  { cbn [early_recv]. rewrite Hfin. cbn [andb]. unfold sequence. rewrite (stM_bind_Ret _ _ _ _ _ (tcp_get _ _ _ _ _ _ _ _ Hw Hc)), Z.leb_refl.
    unfold zlen. rewrite Nat2Z.id, firstn_all, Hseq. rewrite (stM_bind_Ret _ _ _ (q, b) w) by (unfold lift; rewrite Ei; reflexivity). exact E1. }
  pose proof (send_queue.sq_ack (tx_queue c) _ (sg_ack s) Hq) as Ha. unfold seg_ok in Hok. apply andb_prop in Hok. destruct Hok as [Hok _]. apply andb_prop in Hok. destruct Hok as [_ Hle]. rewrite Hle in Ha. destruct Ha as (qt & Ea & Hqt).
  destruct (tcp_upd _ _ _ _ _ _ h (set_rx q c) (set_tx qt) Hw1 (lookup_insert_eq _ _ _)) as (w2 & E2 & Hw2). rewrite insert_insert_eq in Hw2.
  destruct (step_queued h w2 _ out (set_tx qt (set_rx q c)) st s st' cs ans Hw2 (lookup_insert_eq _ _ _) Hst Ht Hp Hqd Hco Hqt Hn E) as (w3 & c3 & ds & E3 & Hw3 & H).
  rewrite insert_insert_eq in Hw3. exists w3, c3, ds. split; [|auto].
  unfold on_receive. rewrite (stM_bind_Ret _ _ _ _ _ (tcp_get _ _ _ _ _ _ _ _ Hw Hc)), Hst, (stM_bind_Ret _ _ _ _ _ Ee), Hack.
  rewrite (stM_bind_Ret _ _ _ tt w2); [exact E3|]. rewrite Han.
  rewrite (stM_bind_Ret _ _ _ _ _ (tcp_get _ _ _ _ _ _ _ _ Hw1 (lookup_insert_eq _ _ _))). cbn [tx_queue set_rx].
  rewrite (stM_bind_Ret _ _ _ qt w1) by (unfold lift; rewrite Ea; reflexivity). rewrite (stM_bind_Ret _ _ _ _ _ E2).
  rewrite (stM_bind_Ret _ _ _ _ _ (tcp_get _ _ _ _ _ _ _ _ Hw2 (lookup_insert_eq _ _ _))). cbn [state set_tx set_rx]. rewrite Hst. destruct (_ >=? _); reflexivity.
Qed.

(** ** Datagrams *)

(** The connection [h] fits the endpoints of a segment better than all others. *)
Definition preferred (m : gmap Z connection) (h : Z) (r l : endpoint) : Prop :=
  exists c, m !! h = Some c /\ 0 <= compare c r l /\ forall h' c', h' <> h -> m !! h' = Some c' -> compare c' r l < compare c r l.

Lemma preferred_match w m out h r l : wrep w m ∅ ∅ cb out -> preferred m h r l -> find_best_match w r l = Some h.
Proof.
  intros Hw (c & Hc & H0 & Hbest). pose proof (tcp_find_best_match w m ∅ ∅ cb out r l Hw) as Hf. destruct (find_best_match w r l) as [h'|].
  - destruct Hf as (c' & Hc' & _ & Hmax). destruct (decide (h' = h)) as [->|Hne]; [reflexivity|exfalso]. pose proof (Hbest h' c' Hne Hc'). pose proof (Hmax h c Hc). lia.
  - specialize (Hf h c Hc). lia.
Qed.

Lemma preferred_update m h r l c c' : preferred m h r l -> m !! h = Some c -> remote c' = remote c -> local c' = local c -> preferred (<[h := c']> m) h r l.
Proof.
  intros (c0 & Hc0 & H0 & Hbest) Hc Hr Hl. assert (c0 = c) as -> by congruence. assert (compare c' r l = compare c r l) as Ec by (unfold compare; rewrite Hr, Hl; reflexivity).
  exists c'. split; [apply lookup_insert_eq|]. split; [lia|]. intros h' c2 Hne Hc2. rewrite lookup_insert_ne in Hc2 by congruence. rewrite Ec. eauto.
Qed.

(** The datagram [data] is the segment [s] of the peer, from port [sp] to port [dp]. *)
Record carries (sp dp : Z) (data : list Z) (s : seg) : Prop := {
  ca_size : zlen data < 2 ^ 32;
  ca_ports : src_port (parse_header data) = sp /\ dest_port (parse_header data) = dp;
  ca_flags : has (seg_flags data) ACK = true /\ has (seg_flags data) FIN = false;
  ca_numbers : seq_nbr (parse_header data) = base + sg_off s /\ ack_nbr (parse_header data) = sg_ack s;
  ca_header : 20 <= Z.shiftr (flags_hdrsz (parse_header data)) 12 * 4 <= zlen data;
  ca_data : let body := drop (Z.to_nat (Z.shiftr (flags_hdrsz (parse_header data)) 12 * 4)) data in
    zlen body = sg_len s /\ (0 <= sg_off s -> body = receive_queue.piece M (sg_off s) (sg_len s))
}.

Lemma hdrsz_u8 data : u8 (Z.shiftr (flags_hdrsz (parse_header data)) 12 * 4) = Z.shiftr (flags_hdrsz (parse_header data)) 12 * 4.
Proof.
  assert (0 <= flags_hdrsz (parse_header data) < 2 ^ 16) as H by apply bytes.bswap16_range. rewrite Z.shiftr_div_pow2 by lia. unfold u8. apply Z.mod_small. change (2 ^ 12) with 4096. change (2 ^ 16) with 65536 in H. change (2 ^ 8) with 256. dlia.
Qed.

(** [protocol::on_receive] *)
Lemma receive_datagram h w m out c st s st' cs ans dg data sp dp : wrep w m ∅ ∅ cb out -> m !! h = Some c -> talking c st -> conv_ok M st ->
  preferred m h (mk_endpoint (src_addr dg) sp) (mk_endpoint (dest_addr dg) dp) -> carries sp dp data s -> conv_step M base reply st s = Some (st', (cs, ans)) ->
  exists w' c' ds, protocol_on_receive la app dg data w = Ret (tt, w') /\ wrep w' (<[h := c']> m) ∅ ∅ cb (out ++ ds) /\
    Forall2 (on_wire (remote c) (local c)) ds ans /\ talking c' st' /\ remote c' = remote c /\ local c' = local c.
Proof.
  intros Hw Hc Htk Hco Hpref [Hsz [Hsp Hdp] [Hack Hfin] [Hseq Han] Hhd [Hlen Hdata]] E. set (k := Z.shiftr _ 12 * 4) in *. set (body := drop (Z.to_nat k) data) in *.
  destruct (on_receive_segment h w m out c st s st' cs ans (mk_metadata (parse_header data) dg (seg_flags data)) body Hw Hc Htk Hco Hack Hfin Hseq Han Hlen Hdata E) as (w1 & c1 & ds & E1 & Hw1 & H).
  assert (u32 (zlen data - k) = zlen body) as El by (unfold body, zlen in *; rewrite length_drop; rewrite u32_small; lia).
  unfold protocol_on_receive. rewrite (proj2 (Z.ltb_ge _ _)) by lia. cbv zeta. rewrite (stM_bind_Ret _ _ _ w w) by reflexivity. rewrite Hsp, Hdp, (preferred_match w m out h _ _ Hw Hpref).
  rewrite hdrsz_u8. fold k body. rewrite El. fold (seg_flags data). rewrite (stM_bind_Ret _ _ _ _ _ E1).
  destruct (tcp_step_new_none la app w1 _ _ _ _ Hw1) as (w2 & E2 & Hw2). rewrite (stM_bind_Ret _ _ _ _ _ E2).
  destruct (tcp_destroy_none w2 _ _ _ _ Hw2) as (w3 & -> & Hw3). exists w3, c1, ds. auto.
Qed.

(** Any number of datagrams *)
Lemma receive_datagrams h dg sp dp datas : forall segs w m out c st st' cs ans, Forall2 (carries sp dp) datas segs -> wrep w m ∅ ∅ cb out -> m !! h = Some c -> talking c st -> conv_ok M st ->
  preferred m h (mk_endpoint (src_addr dg) sp) (mk_endpoint (dest_addr dg) dp) -> conv_run M base reply st segs = Some (st', (cs, ans)) ->
  exists w' c' ds, sforeach datas (protocol_on_receive la app dg) w = Ret (tt, w') /\ wrep w' (<[h := c']> m) ∅ ∅ cb (out ++ ds) /\
    Forall2 (on_wire (remote c) (local c)) ds ans /\ talking c' st' /\ remote c' = remote c /\ local c' = local c.
Proof.
  induction datas as [|data datas IH]; intros segs w m out c st st' cs ans Hf Hw Hc Htk Hco Hpref E; inversion Hf as [|? s ? segs' Hs Hf']; subst; cbn [conv_run sforeach] in *.
  - injection E as <- <- <-. exists w, c, []. rewrite app_nil_r, insert_id by exact Hc. split; [reflexivity|]. split; [exact Hw|]. split; [constructor|auto].
  - destruct (conv_step M base reply st s) as [[st1 [c1 a1]]|] eqn:E1; [|discriminate]. destruct (conv_run M base reply st1 segs') as [[st2 [c2 a2]]|] eqn:E2; [|discriminate]. injection E as <- <- <-.
    destruct (receive_datagram h w m out c st s st1 c1 a1 dg data sp dp Hw Hc Htk Hco Hpref Hs E1) as (w1 & cn & ds1 & -> & Hw1 & Hd1 & Htk1 & Hr & Hl).
    destruct (conv_step_books M base reply st s st1 c1 a1 Hco E1) as [Hbooks _].
    destruct (IH segs' w1 _ (out ++ ds1) cn st1 st2 c2 a2 Hf' Hw1 (lookup_insert_eq _ _ _) Htk1 (sb_ok _ _ _ _ _ _ _ Hbooks) (preferred_update _ _ _ _ _ _ Hpref Hc Hr Hl) E2) as (w2 & cn2 & ds2 & E3 & Hw2 & Hd2 & Htk2 & Hr2 & Hl2).
    rewrite insert_insert_eq, <-app_assoc in Hw2. rewrite Hr, Hl in Hd2. exists w2, cn2, (ds1 ++ ds2). split; [exact E3|]. split; [exact Hw2|]. split; [apply Forall2_app; assumption|]. split; [exact Htk2|]. split; congruence.
Qed.

(** The acknowledgement that ends the handshake *)
Definition ends_handshake (sp dp : Z) (data : list Z) : Prop :=
  20 <= zlen data /\ src_port (parse_header data) = sp /\ dest_port (parse_header data) = dp /\ has (seg_flags data) ACK = true /\ ack_nbr (parse_header data) = ISN + 1.

Definition start : conv := mk_conv 0 [] (send_queue.mk_spec (ISN + 1) [] 0).

Lemma start_ok : conv_ok M start.
Proof.
  split; cbn [cv_next cv_wait cv_tx start]; [pose proof (zlen_nonneg M); lia| |vm_compute; discriminate|reflexivity].
  split; [intros p Hp|intros p q Hp]; apply not_elem_of_nil in Hp; done.
Qed.

(** The queue of a connection that has consumed the SYN can receive any message. *)
Lemma inv_fresh q : receive_queue.inv q phantom (base - 1) ∅ -> receive_queue.read_cursor q = base -> base + zlen M + receive_queue.BUF < receive_queue.SEQ_MAX -> receive_queue.inv q M base ∅.
Proof.
  intros [H1 H2 [H3 H3'] H4 H5 H6 (l & Hl & _)] Hc Hw. pose proof (zlen_nonneg M). split; [exact H1|exact H2|lia|lia| | |].
  - intros i s Hi. rewrite lookup_empty in Hi. discriminate.
  - intros i j s r Hi. rewrite lookup_empty in Hi. discriminate.
  - exists l. split; [exact Hl|]. intros i s Hi. rewrite lookup_empty in Hi. discriminate.
Qed.

Lemma handshake_ends h w m out c dg data sp dp : wrep w m ∅ ∅ cb out -> m !! h = Some c -> opened c (base - 1) -> talks c -> ports_ok c ->
  preferred m h (mk_endpoint (src_addr dg) sp) (mk_endpoint (dest_addr dg) dp) -> ends_handshake sp dp data -> base + zlen M + receive_queue.BUF < receive_queue.SEQ_MAX ->
  exists w' c', protocol_on_receive la app dg data w = Ret (tt, w') /\ wrep w' (<[h := c']> m) ∅ ∅ cb out /\ talking c' start /\ remote c' = remote c /\ local c' = local c.
Proof.
  intros Hw Hc [Hst Hinv Hcur Htx Hnext] Ht Hp Hpref (Hlen & Hsp & Hdp & Hack & Hnbr) Hfit.
  destruct (tcp_upd _ _ _ _ _ _ h c (set_state ESTABLISHED) Hw Hc) as (w1 & E1 & Hw1).
  pose proof (send_queue.sq_ack (tx_queue c) _ (ISN + 1) Htx) as Ha. change (ISN + 1 <=? _) with true in Ha. destruct Ha as (qt & Ea & Hqt).
  destruct (tcp_upd _ _ _ _ _ _ h (set_state ESTABLISHED c) (set_tx qt) Hw1 (lookup_insert_eq _ _ _)) as (w2 & E2 & Hw2). rewrite insert_insert_eq in Hw2.
  set (c2 := set_tx qt (set_state ESTABLISHED c)) in *. change (send_queue.sp_acked _ _) with (send_queue.mk_spec (ISN + 1) [] 0) in Hqt.
  assert (talking c2 start) as Htk.
  { split; cbn [cv_next cv_wait cv_tx start]; [reflexivity|exact Hp|exact Ht| |cbn [rx_queue c2 set_tx set_state]; lia|exact Hqt|exact Hnext].
    exists ∅. split; [apply inv_fresh; [exact Hinv|cbn [rx_queue c2 set_tx set_state]; lia|exact Hfit]|]. split; [reflexivity|]. intros i s Hi. rewrite lookup_empty in Hi. discriminate. }
  assert (quiet c2) as Hquiet.
  { split; [apply (receive_queue.rq_has_readable_false _ ∅); [apply Hinv|reflexivity]|]. cbn [tx_queue c2 set_tx]. rewrite (send_queue.sq_has_readable _ _ Hqt). reflexivity. }
  assert (forall d n, on_receive la app h (mk_metadata (parse_header data) dg (seg_flags data)) d n w = Ret (tt, w2)) as E3.
  { intros d n. unfold on_receive. rewrite (stM_bind_Ret _ _ _ _ _ (tcp_get _ _ _ _ _ _ _ _ Hw Hc)), Hst. cbn [early_recv flags]. rewrite Hack. unfold transition. rewrite (stM_bind_Ret _ _ _ _ _ E1).
    rewrite (stM_bind_Ret _ _ _ tt w2); [apply (tcp_step_quiet la app w2 _ ∅ ∅ cb out h c2 Hw2 (lookup_insert_eq _ _ _) Hquiet)|].
    rewrite (stM_bind_Ret _ _ _ _ _ (tcp_get _ _ _ _ _ _ _ _ Hw1 (lookup_insert_eq _ _ _))). cbn [tx_queue set_state tcp_header]. rewrite Hnbr.
    rewrite (stM_bind_Ret _ _ _ qt w1) by (unfold lift; rewrite Ea; reflexivity). rewrite (stM_bind_Ret _ _ _ _ _ E2).
    rewrite (stM_bind_Ret _ _ _ _ _ (tcp_get _ _ _ _ _ _ _ _ Hw2 (lookup_insert_eq _ _ _))). destruct (_ >=? _); reflexivity. }
  unfold protocol_on_receive. rewrite (proj2 (Z.ltb_ge _ _)) by lia. cbv zeta. rewrite (stM_bind_Ret _ _ _ w w) by reflexivity. rewrite Hsp, Hdp, (preferred_match w m out h _ _ Hw Hpref).
  fold (seg_flags data). rewrite (stM_bind_Ret _ _ _ _ _ (E3 _ _)).
  destruct (tcp_step_new_none la app w2 _ _ _ _ Hw2) as (w3 & E4 & Hw3). rewrite (stM_bind_Ret _ _ _ _ _ E4).
  destruct (tcp_destroy_none w3 _ _ _ _ Hw3) as (w4 & -> & Hw4). exists w4, c2. auto.
Qed.

End handlers.

(** ** The promise

    The segments of the peer were answered with [ans], and the application was
    given the chunks [cs]: these are the message up to the first byte that has
    not come, the answers carry the replies to them, numbered from [first] on,
    and acknowledge what the application was given. *)
Record served (M : list Z) (base first : Z) (reply : list Z -> list (list Z)) (segs : list seg) (n : Z) (cs : list (list Z)) (ans : list answer) : Prop := {
  sv_message : concat cs = take (Z.to_nat n) M;
  sv_arrived : forall x, 0 <= x < n -> receive_queue.covered (map place segs) x;
  sv_missing : ~ receive_queue.covered (map place segs) n;
  sv_replies : data_answers ans = numbered first (concat (map reply cs));
  sv_acks : Forall (fun a => base <= an_ack a <= base + n) ans;
  sv_last : cs <> [] -> exists a, last ans = Some a /\ an_ack a = base + n
}.

Lemma conv_served M base reply segs st cs ans : conv_run M base reply start segs = Some (st, (cs, ans)) -> served M base (ISN + 1) reply segs (cv_next st) cs ans.
Proof.
  intros E. destruct (conv_run_books M base reply segs start st cs ans [] (start_ok M)) as [[B1 B2 B3 B4 B5 B6 B7 B8] Hacc]; [|exact E|].
  { intros x Hx. split; [intros (p & Hp & _); apply not_elem_of_nil in Hp; done|]. intros [Hlt|(p & Hp & _)]; [cbn in Hlt; lia|apply not_elem_of_nil in Hp; done]. }
  assert (forall x, receive_queue.covered (rev (map place segs) ++ []) x <-> receive_queue.covered (map place segs) x) as Hrev.
  { intros x. unfold receive_queue.covered. rewrite app_nil_r. split; intros (p & Hp & Hx); exists p; (split; [|exact Hx]); apply list_elem_of_In; apply list_elem_of_In in Hp; [rewrite in_rev|rewrite <-in_rev]; exact Hp. }
  cbn [cv_next cv_tx start] in *. change (send_queue.sp_write (send_queue.mk_spec (ISN + 1) [] 0)) with (ISN + 1) in *. rewrite Z.add_0_r in *. split.
  - rewrite B3. unfold receive_queue.piece. change (Z.to_nat 0) with 0%nat. rewrite drop_0, Z.sub_0_r. reflexivity.
  - intros x Hx. apply Hrev, Hacc; lia.
  - intros Hcov. apply Hrev, Hacc in Hcov; [|lia]. destruct Hcov as [?|(p & Hp & Hx)]; [lia|]. pose proof (pw_in _ _ _ (co_wait _ _ B1) p Hp). lia.
  - exact B5.
  - exact B6.
  - exact B8.
Qed.

End stream.

Import tcp stream.


(** An echo server, and a peer on port 5555 that sends four bytes in two
    segments, the second one first, acknowledges the echo and sends the first
    segment again *)
Definition echo (d : list Z) : list (list Z) := match d with [] => [] | _ => [d] end.

Definition peer_segment (seq ack flags_ : Z) (payload : list Z) : list Z :=
  header_bytes (mk_header (bytes.htons 5555) (bytes.htons 8080) (bytes.htonl seq) (bytes.htonl ack) (bytes.htons (0x5000 + flags_)) 0 0 0) ++ payload.

Definition peer_message : list Z := [72; 105; 33; 10].

Definition peer_datas : list (list Z) :=
  [peer_segment 1003 (ISN + 1) ACK [33; 10]; peer_segment 1001 (ISN + 1) ACK [72; 105]; peer_segment 1005 (ISN + 5) ACK []; peer_segment 1001 (ISN + 5) ACK [72; 105]].

Definition peer_segs : list seg := [mk_seg 2 2 (ISN + 1); mk_seg 0 2 (ISN + 1); mk_seg 4 0 (ISN + 5); mk_seg 0 2 (ISN + 5)].

Lemma peer_carries : Forall2 (carries peer_message 1001 5555 8080) peer_datas peer_segs.
Proof. repeat constructor; vm_compute; try reflexivity; try discriminate. Qed.

