(* ===== verification/Net.v ===== *)
(** * Ethernet, ARP, IPv4, UDP and ICMP (libraries/net/{ethernet,arp,ipv4,udp,
      icmp}, retryable.h, protocol_stack.h)

    One [stack] is the state of a [protocol_stack_impl]: the hardware
    address, the ARP table and its active probes, the IPv4 configuration, the
    datagrams that wait for an address, the reassembly buffers and the TCP
    table.  Frames handed to the device are recorded in [frames].  The lambda
    passed to [fetch_network] is a [waiter].

    TCP hands its datagrams to [ipv4.send] as it produces them; the TCP model
    records them in order and [tcp_deliver] passes them on when the handler
    returns, which is the same sequence of calls because TCP reads nothing of
    the state below it but the local address. *)

From S2P Require Import Prelude Queue Pool UnorderedMap FlipBuffer FragBuffer NetUtils Tcp.
From stdpp Require Import gmap list.
#[local] Open Scope Z_scope.

Module net.
Import bytes.

(** ** Data *)

Definition address := list Z.                          (* net::ethernet::address: 6 octets *)
Definition wildcard_address : address := [0; 0; 0; 0; 0; 0].
Definition broadcast_address : address := [255; 255; 255; 255; 255; 255].

Definition ET_IPV4 : Z := 0x0800.
Definition ET_ARP : Z := 0x0806.

Definition OP_REQUEST : Z := 1.
Definition OP_REPLY : Z := 2.

Definition PROTO_ICMP : Z := 1.
Definition PROTO_TCP : Z := 6.
Definition PROTO_UDP : Z := 17.

Definition FLAGS_MF : Z := 0x02.

(** The listeners the stack registers with [fetch_network] *)
Inductive waiter :=
| WNothing                                                     (* [](auto) {} *)
| WSend (protocol destination data_handle length : Z)           (* protocol_impl::send *)
| WGateway (gateway : Z).                                       (* protocol_impl::configure *)

(** retryable<ipv4_lookup_result &>; the operation sends a request for [pr_ip] *)
Record probe := mk_probe {
  pr_ip : Z;
  pr_waiters : fixed_pool waiter;       (* 32 *)
  pr_last_delta : Z;
  pr_retry_timer : Z;
  pr_retries : Z
}.

Record cache_entry := mk_cache_entry { ce_ipaddr : Z; ce_hwaddr : address }.

(** dest, source, id, protocol *)
Definition reassembly_buffer_identifier : Type := (Z * Z * Z * Z)%type.

Record reassembly_buffer := mk_reassembly { ttl : Z; received_last : bool; rdata : frag_buffer.t }.

Definition MAPPINGS : Z := 64.
Definition PROBES : Z := 32.
Definition WAITERS : Z := 32.
Definition WAIT_BUF : Z := 10240.
Definition REASSEMBLIES : Z := 10.
Definition REASSEMBLY_LEN : Z := 10000.

Record stack := mk_stack {
  hwaddr : address;
  mappings : queue.t cache_entry;
  active_probes : fixed_pool (unordered_map.entry (K := Z) (V := probe));
  local : Z; netmask : Z; default_gateway : Z;
  arp_wait_buffer : flip_buffer.t;
  wait_bytes : bool -> list Z;          (* the bytes of its two buffers *)
  next_datagram_id : Z;
  reassembly_buffers : fixed_pool (unordered_map.entry (K := reassembly_buffer_identifier) (V := reassembly_buffer));
  tcp_world : tcp.world;
  frames : list (list Z)
}.

Definition set_mappings q s := mk_stack (hwaddr s) q (active_probes s) (local s) (netmask s) (default_gateway s)
  (arp_wait_buffer s) (wait_bytes s) (next_datagram_id s) (reassembly_buffers s) (tcp_world s) (frames s).
Definition set_probes p s := mk_stack (hwaddr s) (mappings s) p (local s) (netmask s) (default_gateway s)
  (arp_wait_buffer s) (wait_bytes s) (next_datagram_id s) (reassembly_buffers s) (tcp_world s) (frames s).
Definition set_config l n g s := mk_stack (hwaddr s) (mappings s) (active_probes s) l n g
  (arp_wait_buffer s) (wait_bytes s) (next_datagram_id s) (reassembly_buffers s) (tcp_world s) (frames s).
Definition set_hwaddr a s := mk_stack a (mappings s) (active_probes s) (local s) (netmask s) (default_gateway s)
  (arp_wait_buffer s) (wait_bytes s) (next_datagram_id s) (reassembly_buffers s) (tcp_world s) (frames s).
Definition set_wait f b s := mk_stack (hwaddr s) (mappings s) (active_probes s) (local s) (netmask s) (default_gateway s)
  f b (next_datagram_id s) (reassembly_buffers s) (tcp_world s) (frames s).
Definition set_next_id n s := mk_stack (hwaddr s) (mappings s) (active_probes s) (local s) (netmask s) (default_gateway s)
  (arp_wait_buffer s) (wait_bytes s) n (reassembly_buffers s) (tcp_world s) (frames s).
Definition set_reassembly r s := mk_stack (hwaddr s) (mappings s) (active_probes s) (local s) (netmask s) (default_gateway s)
  (arp_wait_buffer s) (wait_bytes s) (next_datagram_id s) r (tcp_world s) (frames s).
Definition set_tcp w s := mk_stack (hwaddr s) (mappings s) (active_probes s) (local s) (netmask s) (default_gateway s)
  (arp_wait_buffer s) (wait_bytes s) (next_datagram_id s) (reassembly_buffers s) w (frames s).
Definition add_frame f s := mk_stack (hwaddr s) (mappings s) (active_probes s) (local s) (netmask s) (default_gateway s)
  (arp_wait_buffer s) (wait_bytes s) (next_datagram_id s) (reassembly_buffers s) (tcp_world s) (frames s ++ [f]).

(** [protocol_stack_impl(device)]: address and configuration are set later,
    by [configure]. *)
Definition init (junk : cache_entry) : stack :=
  mk_stack wildcard_address (queue.init (replicate (Z.to_nat MAPPINGS) junk)) (new_fixed_pool PROBES)
    0 0 0 flip_buffer.init (fun _ => replicate (Z.to_nat WAIT_BUF) 0) 0 (new_fixed_pool REASSEMBLIES) tcp.init_world [].

(** ** Ethernet *)

Definition FRAME_BUF : Z := 5128.

(** [ethernet::protocol::send] *)
Definition eth_send (type : Z) (destination : address) (data : list Z) : stM stack unit :=
  s ← sget;
  let hdr := destination ++ hwaddr s ++ le16 (htons type) in
  sassert (14 + zlen data <=? FRAME_BUF);;
  smodify (add_frame (hdr ++ data)).

Definition eth_configure (a : address) (s : stack) : stack := set_hwaddr a s.

(** ** ARP *)

Record arp_header := mk_arp {
  htype : Z; ptype : Z; hlen : Z; plen : Z; oper : Z; sha : address; spa : Z; tha : address; tpa : Z
}.

Definition arp_bytes (h : arp_header) : list Z :=
  le16 (htype h) ++ le16 (ptype h) ++ [u8 (hlen h); u8 (plen h)] ++ le16 (oper h) ++
  sha h ++ le32 (spa h) ++ tha h ++ le32 (tpa h).

Definition byte_at (data : list Z) (i : nat) : Z := nth i data 0.
Definition read_u16 (data : list Z) (i : nat) : Z := of_le16 (byte_at data i) (byte_at data (i + 1)).
Definition read_u32 (data : list Z) (i : nat) : Z :=
  of_le32 (byte_at data i) (byte_at data (i + 1)) (byte_at data (i + 2)) (byte_at data (i + 3)).
Definition read_addr (data : list Z) (i : nat) : address := take 6 (drop i data).

(** The header as it lies in memory *)
Definition parse_arp (data : list Z) : arp_header :=
  mk_arp (read_u16 data 0) (read_u16 data 2) (byte_at data 4) (byte_at data 5) (read_u16 data 6)
    (read_addr data 8) (read_u32 data 14) (read_addr data 18) (read_u32 data 24).

(** [arp::protocol_impl::send] *)
Definition arp_send (op tpa_ : Z) (tha_ next_hop : address) : stM stack unit :=
  s ← sget;
  eth_send ET_ARP next_hop
    (arp_bytes (mk_arp (htons 1) (htons ET_IPV4) 6 4 (htons op) (hwaddr s) (htonl (local s)) tha_ (htonl tpa_))).

(** [mapping_table::insert] *)
Definition mapping_insert (q : queue.t cache_entry) (ipaddr : Z) (hw : address) : outcome (queue.t cache_entry) :=
  q1 ← (if queue.full MAPPINGS q then '(q', _) ← queue.pop_front MAPPINGS q; Ret q' else Ret q);
  '(q2, _) ← queue.push_back MAPPINGS q1 (mk_cache_entry ipaddr hw);
  Ret q2.

(** [for (int index = begin(); index != end(); ++index)] of [mapping_table::fetch] *)
Fixpoint fetch_loop (fuel : nat) (q : queue.t cache_entry) (ipaddr index : Z) (latest_value : option address) :
    outcome (option address) :=
  match fuel with
  | O => NoFuel
  | S fuel' =>
      if index =? queue.end_ q then Ret latest_value
      else
        e ← queue.at_ MAPPINGS q index;
        fetch_loop fuel' q ipaddr (index + 1) (if ce_ipaddr e =? ipaddr then Some (ce_hwaddr e) else latest_value)
  end.

Definition mapping_fetch (q : queue.t cache_entry) (ipaddr : Z) : outcome (option address) :=
  fetch_loop (S (Z.to_nat MAPPINGS)) q ipaddr (queue.begin q) None.

(** [arp::protocol_impl::fetch_cached] *)
Definition fetch_cached (ipaddr : Z) : stM stack (option address) := s ← sget; lift (mapping_fetch (mappings s) ipaddr).

(** ** Retryable operations *)

Definition new_probe (ipaddr : Z) : probe := mk_probe ipaddr (new_fixed_pool WAITERS) 200 0 0.

(** [retryable::tick]: the new state, whether the operation runs, the result *)
Definition retryable_tick (p : probe) (dt : Z) : outcome (probe * bool * bool) :=
  timer ← i32 (pr_retry_timer p - dt);
  if timer <=? 0 then
    if pr_retries p >? 4 then
      Ret (mk_probe (pr_ip p) (pr_waiters p) (pr_last_delta p) timer (pr_retries p + 1), false, false)
    else
      delta ← i32 (pr_last_delta p * 2);
      Ret (mk_probe (pr_ip p) (pr_waiters p) delta delta (pr_retries p + 1), true, true)
  else Ret (mk_probe (pr_ip p) (pr_waiters p) (pr_last_delta p) timer (pr_retries p), false, true).

Definition retryable_reset (p : probe) : probe :=
  mk_probe (pr_ip p) (pr_waiters p) (Z.quot (pr_last_delta p) 2) (Z.quot (pr_retry_timer p) 2) 0.

Definition retryable_await (p : probe) (f : waiter) : outcome probe :=
  '(w, _) ← pool.emplace_anywhere U16_MAX (pr_waiters p) f;
  Ret (mk_probe (pr_ip p) w (pr_last_delta p) (pr_retry_timer p) (pr_retries p)).

(** The probe's operation *)
Definition send_request (ipaddr : Z) : stM stack unit := arp_send OP_REQUEST ipaddr wildcard_address broadcast_address.

(** [probe_it->value.tick(dt)] *)
Definition probe_tick (i : Z) (dt : Z) : stM stack bool :=
  s ← sget;
  match sp_at (active_probes s) i with
  | None => lift Undef
  | Some e =>
      '(p', run, ok) ← lift (retryable_tick (unordered_map.value e) dt);
      ps ← lift (sp_modify (active_probes s) i (fun e => unordered_map.mk_entry (unordered_map.key e) p'));
      sput (set_probes ps s);;
      (if run : bool then send_request (pr_ip p') else sret tt);;
      sret ok
  end.

(** ** IPv4: sending *)

Record ip_header := mk_ip {
  ihl : Z; version : Z; ecn_dscp : Z; total_len : Z; id : Z; frag_ofs : Z; hdr_ttl : Z; protocol : Z;
  hdr_checksum : Z; src_addr : Z; dest_addr : Z
}.

Definition ip_bytes (h : ip_header) : list Z :=
  [u8 (ihl h + 16 * version h); u8 (ecn_dscp h)] ++ le16 (total_len h) ++ le16 (id h) ++ le16 (frag_ofs h) ++
  [u8 (hdr_ttl h); u8 (protocol h)] ++ le16 (hdr_checksum h) ++ le32 (src_addr h) ++ le32 (dest_addr h).

Definition set_ip_checksum (c : Z) (h : ip_header) : ip_header :=
  mk_ip (ihl h) (version h) (ecn_dscp h) (total_len h) (id h) (frag_ofs h) (hdr_ttl h) (protocol h) c (src_addr h) (dest_addr h).

(** ipv4/utils.cc *)
Definition ip_checksum (h : ip_header) (options : list Z) : outcome Z :=
  passert (hdr_checksum h =? 0);;
  s0 ← checksum.sum_words (ip_bytes h) 20;
  s1 ← checksum.sum_words options (zlen options);
  checksum.finish (u64 (s0 + s1)).

Definition send_single_datagram (proto src dst : Z) (next_hop : address) (data : list Z) : stM stack unit :=
  s ← sget;
  let hdr := mk_ip 5 4 0 (htons (u16 (20 + zlen data))) (htons (next_datagram_id s)) (htons 0) 65 proto 0
               (htonl src) (htonl dst) in
  sput (set_next_id (u16 (next_datagram_id s + 1)) s);;
  csum ← lift (ip_checksum hdr []);
  if 20 + zlen data >? 1500 then sret tt
  else eth_send ET_IPV4 next_hop (ip_bytes (set_ip_checksum csum hdr) ++ data).

(** [send(protocol, destination, next_hop, data, length)] *)
Definition send_via (proto destination : Z) (next_hop : address) (data : list Z) : stM stack unit :=
  s ← sget; send_single_datagram proto (local s) destination next_hop data.

(** [memcpy(_arp_wait_buffer.data(handle), data, length)] *)
Definition wait_store (h : Z) (data : list Z) (s : stack) : outcome stack :=
  match flip_buffer.data (arp_wait_buffer s) h with
  | Some (b, off) =>
      d ← arr_blit (wait_bytes s b) off data (zlen data);
      Ret (set_wait (arp_wait_buffer s) (fun b' => if Bool.eqb b b' then d else wait_bytes s b') s)
  | None => if zlen data =? 0 then Ret s else Undef
  end.

(** The lambda a [waiter] stands for; [None] is a null lookup result. *)
Definition run_waiter (w : waiter) (result : option address) : stM stack unit :=
  match w with
  | WNothing => sret tt
  | WSend proto destination h length =>
      match result with
      | None => sret tt
      | Some next_hop =>
          s ← sget;
          match flip_buffer.data (arp_wait_buffer s) h with
          | None => sret tt
          | Some (b, off) =>
              if off + length <=? zlen (wait_bytes s b)
              then send_via proto destination next_hop (take (Z.to_nat length) (drop (Z.to_nat off) (wait_bytes s b)))
              else lift Undef
          end
      end
  | WGateway gateway =>
      match result with
      | None => sret tt
      | Some _ => r ← fetch_cached gateway; sassert (match r with Some _ => true | None => false end)
      end
  end.

(** [retryable::notify_all] *)
Definition notify_all (p : probe) (result : option address) : stM stack unit :=
  sforeach (pool.entries U16_MAX (pr_waiters p)) (fun '(_, w) => run_waiter w result).

Definition probe_await (i : Z) (f : waiter) (g : probe -> probe) : stM stack unit :=
  s ← sget;
  match sp_at (active_probes s) i with
  | None => lift Undef
  | Some e =>
      p' ← lift (retryable_await (g (unordered_map.value e)) f);
      ps ← lift (sp_modify (active_probes s) i (fun e => unordered_map.mk_entry (unordered_map.key e) p'));
      sput (set_probes ps s)
  end.

(** [arp::protocol_impl::fetch_network] *)
Definition fetch_network (ipaddr : Z) (callback : waiter) : stM stack unit :=
  cached ← fetch_cached ipaddr;
  match cached with
  | Some a => run_waiter callback (Some a)
  | None =>
      s ← sget;
      match unordered_map.find (active_probes s) ipaddr with
      | Some i => probe_await i callback retryable_reset
      | None =>
          '(ps, _) ← lift (unordered_map.insert (active_probes s) ipaddr (new_probe ipaddr));
          sput (set_probes ps s);;
          match unordered_map.find ps ipaddr with
          | None => lift Panic
          | Some i => probe_await i callback (fun p => p);; _ ← probe_tick i 0; sret tt
          end
      end
  end.

(** [arp::protocol_impl::write_cache_entry] *)
Definition write_cache_entry (ipaddr : Z) (hw : address) : stM stack unit :=
  s ← sget;
  q ← lift (mapping_insert (mappings s) ipaddr hw);
  sput (set_mappings q s);;
  match unordered_map.find (active_probes s) ipaddr with
  | None => sret tt
  | Some i =>
      match sp_at (active_probes s) i with
      | None => lift Undef
      | Some e =>
          notify_all (unordered_map.value e) (Some hw);;
          s' ← sget;
          ps ← lift (unordered_map.erase (active_probes s') i);
          sput (set_probes ps s')
      end
  end.

(** [arp::protocol_impl::on_receive] *)
Definition arp_on_receive (mac_src : address) (data : list Z) : stM stack unit :=
  sassert (zlen data >=? 28);;
  s ← sget;
  let hdr := parse_arp data in
  if negb (ntohs (htype hdr) =? 1) || negb (ntohs (ptype hdr) =? ET_IPV4) then sret tt
  else if negb (hlen hdr =? 6) || negb (plen hdr =? 4) then sret tt
  else if bool_decide (hwaddr s = sha hdr) then sret tt
  else if ntohs (oper hdr) =? OP_REQUEST then
    if ntohl (tpa hdr) =? local s then arp_send OP_REPLY (ntohl (spa hdr)) (sha hdr) mac_src else sret tt
  else if ntohs (oper hdr) =? OP_REPLY then write_cache_entry (ntohl (spa hdr)) (sha hdr)
  else sret tt.

(** The loop of [arp::protocol_impl::tick], from the iterator [it] on.  The
    end is looked up in every round and the iterator moves on from the index of
    the entry it has erased: when that was the last one of the pool, the
    iterator is behind the end and starts again from the first probe. *)
Fixpoint arp_tick_loop (fuel : nat) (it : Z) (delta_ms : Z) : stM stack unit :=
  match fuel with
  | O => lift NoFuel
  | S fuel' =>
      s ← sget;
      if it =? pool.it_end (active_probes s) then sret tt
      else
        ok ← probe_tick it (to_i32 delta_ms);
        (if ok : bool then sret tt
         else
           s' ← sget;
           match sp_at (active_probes s') it with
           | None => lift Undef
           | Some e =>
               notify_all (unordered_map.value e) None;;
               s'' ← sget;
               ps ← lift (unordered_map.erase (active_probes s'') it);
               sput (set_probes ps s'')
           end);;
        s ← sget;
        arp_tick_loop fuel' (pool.it_next U16_MAX (active_probes s) it) delta_ms
  end.

(** A pass over the probes takes at most [PROBES] rounds, and every new start
    has removed one of them: this many rounds are enough ([arp_tick_returns]). *)
Definition TICK_ROUNDS : nat := Z.to_nat (PROBES * PROBES + 1).

(** [arp::protocol_impl::tick] *)
Definition arp_tick (delta_ms : Z) : stM stack unit :=
  s ← sget; arp_tick_loop TICK_ROUNDS (pool.it_begin U16_MAX (active_probes s)) delta_ms.

(** [ipv4::protocol_impl::send(protocol, destination, data, length)] *)
Definition ipv4_send (proto destination : Z) (data : list Z) : stM stack bool :=
  s ← sget;
  let next_hop_ipaddr :=
    if Z.land (local s) (netmask s) =? Z.land destination (netmask s) then destination else default_gateway s in
  cached ← fetch_cached next_hop_ipaddr;
  match cached with
  | Some hw => send_via proto destination hw data;; sret true
  | None =>
      if zlen data >? WAIT_BUF then fetch_network next_hop_ipaddr WNothing;; sret false
      else
        s ← sget;
        let '(f, h) := flip_buffer.alloc WAIT_BUF (arp_wait_buffer s) (zlen data) in
        s' ← lift (wait_store h data (set_wait f (wait_bytes s) s));
        sput s';;
        fetch_network next_hop_ipaddr (WSend proto destination h (zlen data));;
        sret true
  end.

(** [ipv4::protocol_impl::configure] *)
Definition ipv4_configure (l n g : Z) : stM stack unit :=
  smodify (set_config l n g);; fetch_network g (WGateway g).

(** ** IPv4: receiving *)

Definition is_broadcast_address (addr mask : Z) : bool :=
  Z.land addr (0xFFFFFFFF - mask) =? Z.land 0xFFFFFFFF (0xFFFFFFFF - mask).

Definition is_same_subnet (addr1 addr2 mask : Z) : bool := Z.land addr1 mask =? Z.land addr2 mask.

Definition is_recipient (s : stack) (dst : Z) : bool :=
  if dst =? local s then true
  else is_same_subnet dst (local s) (netmask s) && is_broadcast_address dst (netmask s).

(** The header as it lies in memory *)
Definition parse_ip (data : list Z) : ip_header :=
  mk_ip (byte_at data 0 mod 16) (byte_at data 0 / 16) (byte_at data 1) (read_u16 data 2) (read_u16 data 4)
    (read_u16 data 6) (byte_at data 8) (byte_at data 9) (read_u16 data 10) (read_u32 data 12) (read_u32 data 16).

(** What is left of a packet once [on_receive] has checked it *)
Record packet := mk_packet {
  pk_src : Z; pk_dest : Z; pk_id : Z; pk_protocol : Z;
  pk_more : bool;             (* flags & FLAGS_MF *)
  pk_whole : bool;            (* hdr.frag_ofs == 0 *)
  pk_offset : Z;              (* frag_offset *)
  pk_payload : list Z
}.

(** The checks of [ipv4::protocol_impl::on_receive]; [None]: dropped *)
Definition check_packet (s : stack) (data : list Z) : outcome (option packet) :=
  passert (zlen data >? 20);;
  let hdr := parse_ip data in
  let total := ntohs (total_len hdr) in
  let frag := ntohs (frag_ofs hdr) in
  let dst := ntohl (dest_addr hdr) in
  let header_length := ihl hdr * 4 in
  let flags := u8 (Z.shiftr frag 12) in
  if negb (version hdr =? 4) then Ret None
  else if header_length >? 60 then Ret None
  else if total <? header_length then Ret None
  else if total >? zlen data then Ret None
  else if hdr_ttl hdr =? 0 then Ret None
  else
    let options := if header_length >? 20 then take (Z.to_nat (header_length - 20)) (drop 20 data) else [] in
    csum ← ip_checksum (set_ip_checksum 0 hdr) options;
    if negb (ntohs (hdr_checksum hdr) =? htons csum) then Ret None
    else if negb (is_recipient s dst) then Ret None
    else
      let payload_size := Z.min (total - header_length) (zlen data - 20) in
      Ret (Some (mk_packet (ntohl (src_addr hdr)) dst (ntohs (id hdr)) (protocol hdr)
             (negb (Z.land flags FLAGS_MF =? 0)) (frag_ofs hdr =? 0) (u16 (Z.land frag 0x1FFF * 8))
             (take (Z.to_nat payload_size) (drop (Z.to_nat header_length) data)))).

(** [udp::protocol_impl::on_receive] *)
Definition udp_on_receive (data : list Z) : outcome unit := passert (zlen data >=? 8).

Section stack.
Variable on_receive_cb : list Z -> list tcp.app_action.
(** The uninitialised bytes of a new reassembly buffer *)
Variable storage : list Z.

(** [tcp::protocol::on_receive] and the datagrams it sends *)
Definition tcp_deliver (src dst : Z) (data : list Z) : stM stack unit :=
  s ← sget;
  let w := tcp_world s in
  '(_, w') ← lift (tcp.protocol_on_receive (local s) on_receive_cb (tcp.mk_datagram src dst) data
    (tcp.mk_world (tcp.connections w) (tcp.new_connections w) (tcp.finished_connections w) (tcp.table_callback w) []));
  sput (set_tcp w' s);;
  sforeach (tcp.sent w') (fun d => _ ← ipv4_send PROTO_TCP (tcp.out_dest d) (tcp.out_bytes d); sret tt).

Definition forward_datagram (src dst proto : Z) (data : list Z) : stM stack bool :=
  if proto =? PROTO_TCP then tcp_deliver src dst data;; sret true
  else if proto =? PROTO_UDP then lift (udp_on_receive data);; sret true
  else if proto =? PROTO_ICMP then sret true
  else sret false.

Definition ident (p : packet) : reassembly_buffer_identifier := (pk_dest p, pk_src p, pk_id p, pk_protocol p).

(** The buffer for a packet: found or inserted *)
Definition find_buffer (p : packet) : stM stack Z :=
  s ← sget;
  match unordered_map.find (reassembly_buffers s) (ident p) with
  | Some i => sret i
  | None =>
      fb ← lift (frag_buffer.frag_buffer REASSEMBLY_LEN storage);
      '(m, _) ← lift (unordered_map.insert (reassembly_buffers s) (ident p) (mk_reassembly 20000 false fb));
      sput (set_reassembly m s);;
      match unordered_map.find m (ident p) with
      | Some i => sret i
      | None => lift Panic
      end
  end.

Definition reassemble (p : packet) : stM stack unit :=
  s ← sget;
  if unordered_map.full (reassembly_buffers s) then sret tt
  else
    i ← find_buffer p;
    s1 ← sget;
    match sp_at (reassembly_buffers s1) i with
    | None => lift Undef
    | Some e =>
        let buffer := unordered_map.value e in
        let last := received_last buffer || negb (pk_more p) in
        fb ← lift (frag_buffer.insert REASSEMBLY_LEN (rdata buffer) (pk_offset p) (pk_payload p) (zlen (pk_payload p)));
        m ← lift (sp_modify (reassembly_buffers s1) i
                    (fun e => unordered_map.mk_entry (unordered_map.key e) (mk_reassembly (ttl buffer) last fb)));
        sput (set_reassembly m s1);;
        size ← lift (frag_buffer.continuous_size fb);
        if last && (size >? 0) then
          _ ← forward_datagram (pk_src p) (pk_dest p) (pk_protocol p) (take (Z.to_nat size) (frag_buffer.data fb));
          s2 ← sget;
          m2 ← lift (unordered_map.erase (reassembly_buffers s2) i);
          sput (set_reassembly m2 s2)
        else sret tt
    end.

Definition handle_packet (p : packet) : stM stack unit :=
  if negb (pk_more p) && pk_whole p
  then _ ← forward_datagram (pk_src p) (pk_dest p) (pk_protocol p) (pk_payload p); sret tt
  else reassemble p.

(** [ipv4::protocol_impl::on_receive] *)
Definition ipv4_on_receive (data : list Z) : stM stack unit :=
  s ← sget;
  r ← lift (check_packet s data);
  match r with
  | None => sret tt
  | Some p => handle_packet p
  end.

(** [ipv4::protocol_impl::tick]: the iterator moves on only past a buffer
    that is already expired or is dropped now. *)
Fixpoint ip_tick_loop (fuel : nat) (l : list (Z * unordered_map.entry (K := reassembly_buffer_identifier) (V := reassembly_buffer)))
    (delta_ms : Z) : stM stack unit :=
  match fuel with
  | O => lift NoFuel
  | S fuel' =>
      match l with
      | [] => sret tt
      | (i, _) :: l' =>
          s ← sget;
          match sp_at (reassembly_buffers s) i with
          | None => lift Undef
          | Some e =>
              let b := unordered_map.value e in
              if ttl b <=? 0 then ip_tick_loop fuel' l' delta_ms
              else
                let t := to_i32 (ttl b - delta_ms) in
                m ← lift (sp_modify (reassembly_buffers s) i (fun e =>
                      unordered_map.mk_entry (unordered_map.key e) (mk_reassembly t (received_last b) (rdata b))));
                sput (set_reassembly m s);;
                if t <=? 0 then
                  m' ← lift (unordered_map.erase m i);
                  sput (set_reassembly m' s);; ip_tick_loop fuel' l' delta_ms
                else ip_tick_loop fuel' l delta_ms
          end
      end
  end.

Definition ipv4_tick (fuel : nat) (delta_ms : Z) : stM stack unit :=
  s ← sget; ip_tick_loop fuel (sp_entries (reassembly_buffers s)) delta_ms.

(** [ethernet::protocol::on_receive] *)
Definition eth_on_receive (data : list Z) : stM stack unit :=
  if zlen data <? 14 then sret tt
  else
    let pdu_size := u16 (zlen data - 14) in
    let pdu := take (Z.to_nat pdu_size) (drop 14 data) in
    let type := ntohs (read_u16 data 12) in
    if type =? ET_ARP then arp_on_receive (read_addr data 6) pdu
    else if type =? ET_IPV4 then ipv4_on_receive pdu
    else sret tt.

(** [protocol_stack_impl::tick] *)
Definition stack_tick (delta_ms : Z) : stM stack unit := arp_tick delta_ms.
End stack.
End net.
