(* ===== verification/NetFacts.v ===== *)
(** * Properties of the lower network layers

    A datagram survives the trip through the headers of the sender and the
    checks of the receiver; fragments are reassembled; address resolution
    releases the datagrams that wait for it and gives up after five
    requests. *)

From S2P Require Import Prelude Queue Pool UnorderedMap FlipBuffer FragBuffer NetUtils Tcp Net.
From stdpp Require Import gmap list.
#[local] Open Scope Z_scope.

Import net.
Import bytes.

(** ** Evaluating the monad *)

Lemma net_bind_Ret {A B} (m : stM stack A) (f : A -> stM stack B) s a s' :
  m s = Ret (a, s') -> mbind f m s = f a s'.
Proof. intros E. unfold mbind, stM_bind. rewrite E. reflexivity. Qed.

Lemma net_lift {A} (o : outcome A) a (s : stack) : o = Ret a -> lift o s = Ret (a, s).
Proof. intros ->. reflexivity. Qed.

Lemma net_assert (b : bool) (s : stack) : b = true -> sassert b s = Ret (tt, s).
Proof. intros ->. reflexivity. Qed.

(** Runs the next statement of a sequence, given the equation for it. *)
Ltac step_with E := rewrite (net_bind_Ret _ _ _ _ _ E); cbv beta.
Ltac step_get s := rewrite (net_bind_Ret sget _ s s s eq_refl); cbv beta.

(** ** Headers *)

Definition ip_header_ok (h : ip_header) : Prop :=
  0 <= ihl h < 16 /\ 0 <= version h < 16 /\ 0 <= ecn_dscp h < 256 /\ 0 <= total_len h < 2 ^ 16 /\ 0 <= id h < 2 ^ 16 /\
  0 <= frag_ofs h < 2 ^ 16 /\ 0 <= hdr_ttl h < 256 /\ 0 <= protocol h < 256 /\ 0 <= hdr_checksum h < 2 ^ 16 /\
  0 <= src_addr h < 2 ^ 32 /\ 0 <= dest_addr h < 2 ^ 32.

Lemma u8_small x : 0 <= x < 256 -> u8 x = x.
Proof. apply Z.mod_small. Qed.

(** The receiver's view of the header bytes is the header. *)
Lemma net_parse_ip_bytes h rest : ip_header_ok h -> parse_ip (ip_bytes h ++ rest) = h.
Proof.
  intros (H1 & H2 & H3 & H4 & H5 & H6 & H7 & H8 & H9 & H10 & H11).
  unfold parse_ip, ip_bytes, read_u16, read_u32, byte_at. cbn [app nth le16 le32 Nat.add].
  rewrite !of_le16_le16, !of_le32_le32 by assumption.
  rewrite (u8_small (ihl h + 16 * version h)), (u8_small (ecn_dscp h)), (u8_small (hdr_ttl h)), (u8_small (protocol h)) by lia.
  replace ((ihl h + 16 * version h) mod 16) with (ihl h) by dlia.
  replace ((ihl h + 16 * version h) / 16) with (version h) by dlia. destruct h. reflexivity.
Qed.

Lemma net_ip_bytes_ok h : checksum.bytes_ok (ip_bytes h) /\ zlen (ip_bytes h) = 20.
Proof.
  split; [|reflexivity]. unfold ip_bytes. rewrite !checksum.bytes_ok_app.
  repeat split; auto using checksum.le16_ok, checksum.le32_ok; repeat constructor; apply u8_ok.
Qed.

(** The checksum is defined for every header and fits its field. *)
Lemma net_ip_checksum h options : hdr_checksum h = 0 -> checksum.bytes_ok options -> zlen options < 2 ^ 16 ->
  exists c, ip_checksum h options = Ret c /\ 0 <= c < 2 ^ 16.
Proof.
  intros H0 Ho Hlen. destruct (net_ip_bytes_ok h) as [Hb Hl]. unfold ip_checksum. rewrite (passert_true _ (proj2 (Z.eqb_eq _ _) H0)), mbind_Ret.
  destruct (checksum.csum_sum_words _ Hb) as (s0 & k0 & E0 & _ & _ & Hs0); [rewrite Hl; lia|]. rewrite Hl in E0. rewrite E0, mbind_Ret.
  destruct (checksum.csum_sum_words _ Ho) as (s1 & k1 & E1 & _ & _ & Hs1); [lia|]. rewrite E1, mbind_Ret.
  replace (u64 (s0 + s1)) with (s0 + s1) by (symmetry; apply Z.mod_small; lia).
  rewrite checksum.csum_finish by lia. eexists. split; [reflexivity|].
  pose proof (checksum.csum_norm_range (s0 + s1)). lia.
Qed.

(** ** Sending a datagram to a known hardware address *)

Lemma net_eth_send type dst data s : 14 + zlen data <= FRAME_BUF ->
  eth_send type dst data s = Ret (tt, add_frame (dst ++ hwaddr s ++ le16 (htons type) ++ data) s).
Proof.
  intros Hlen. unfold eth_send. step_get s. cbv zeta.
  rewrite (net_bind_Ret _ _ _ tt _ (net_assert _ _ (proj2 (Z.leb_le _ _) Hlen))). cbv beta. unfold smodify.
  rewrite <-!app_assoc. reflexivity.
Qed.

(** The header [send_single_datagram] fills in *)
Definition sent_header (i proto src dst len csum : Z) : ip_header :=
  mk_ip 5 4 0 (htons (u16 (20 + len))) (htons i) (htons 0) 65 proto csum (htonl src) (htonl dst).

Definition ip_frame (from to_ : address) (i proto src dst csum : Z) (data : list Z) : list Z :=
  to_ ++ from ++ le16 (htons ET_IPV4) ++ ip_bytes (sent_header i proto src dst (zlen data) csum) ++ data.

Lemma net_send_via s proto dst nh data : zlen data <= 1480 ->
  exists csum, ip_checksum (sent_header (next_datagram_id s) proto (local s) dst (zlen data) 0) [] = Ret csum /\
    0 <= csum < 2 ^ 16 /\
    send_via proto dst nh data s =
    Ret (tt, add_frame (ip_frame (hwaddr s) nh (next_datagram_id s) proto (local s) dst csum data)
               (set_next_id (u16 (next_datagram_id s + 1)) s)).
Proof.
  intros Hlen. destruct (net_ip_checksum (sent_header (next_datagram_id s) proto (local s) dst (zlen data) 0) [])
    as (csum & E & Hr); [reflexivity|constructor|reflexivity|].
  exists csum. split; [exact E|]. split; [exact Hr|].
  unfold send_via. step_get s. unfold send_single_datagram. step_get s.
  cbv zeta. rewrite (net_bind_Ret (sput _) _ s tt _ eq_refl). cbv beta.
  rewrite (net_bind_Ret _ _ _ csum _ (net_lift _ _ _ E)). cbv beta.
  rewrite Z.gtb_ltb, (proj2 (Z.ltb_ge _ _)) by lia.
  rewrite net_eth_send; [unfold ip_frame; reflexivity|].
  rewrite zlen_app, (proj2 (net_ip_bytes_ok _)). unfold FRAME_BUF. lia.
Qed.

(** ** Receiving it *)

Lemma net_eth_receive cb st (from to_ : address) type pdu s :
  zlen from = 6 -> zlen to_ = 6 -> zlen pdu < 2 ^ 16 -> 0 <= type < 2 ^ 16 ->
  eth_on_receive cb st (to_ ++ from ++ le16 (htons type) ++ pdu) s =
  (if type =? ET_ARP then arp_on_receive from pdu else if type =? ET_IPV4 then ipv4_on_receive cb st pdu else sret tt) s.
Proof.
  intros Hf Ht Hp Hty. unfold eth_on_receive.
  destruct to_ as [|t0 [|t1 [|t2 [|t3 [|t4 [|t5 [|]]]]]]]; try (unfold zlen in Ht; simpl in Ht; lia).
  destruct from as [|f0 [|f1 [|f2 [|f3 [|f4 [|f5 [|]]]]]]]; try (unfold zlen in Hf; simpl in Hf; lia).
  cbn [app le16]. rewrite !zlen_cons. pose proof (zlen_nonneg pdu).
  rewrite (proj2 (Z.ltb_ge _ _)) by lia. cbv zeta.
  unfold read_u16, byte_at, read_addr. cbn [nth Nat.add drop take].
  rewrite of_le16_le16 by apply bswap16_range. rewrite ntohs_htons by assumption.
  replace (u16 _) with (zlen pdu) by (rewrite u16_small; lia).
  rewrite (take_ge pdu) by (unfold zlen; lia). reflexivity.
Qed.

(** A packet with the header [send_single_datagram] writes passes the checks. *)
Lemma net_check_sent s i proto src dst csum data :
  0 <= i < 2 ^ 16 -> 0 <= proto < 256 -> 0 <= src < 2 ^ 32 -> 0 <= dst < 2 ^ 32 -> 0 < zlen data <= 1480 ->
  0 <= csum < 2 ^ 16 -> ip_checksum (sent_header i proto src dst (zlen data) 0) [] = Ret csum -> is_recipient s dst = true ->
  check_packet s (ip_bytes (sent_header i proto src dst (zlen data) csum) ++ data) =
  Ret (Some (mk_packet src dst i proto false true 0 data)).
Proof.
  intros Hi Hp Hs Hd Hlen Hc Ec Hrec. unfold check_packet.
  assert (zlen (ip_bytes (sent_header i proto src dst (zlen data) csum) ++ data) = 20 + zlen data) as Hz
    by (rewrite zlen_app, (proj2 (net_ip_bytes_ok _)); reflexivity).
  rewrite Hz, (passert_true (20 + zlen data >? 20)) by lia. cbn [mbind outcome_bind].
  rewrite net_parse_ip_bytes.
  2:{ unfold ip_header_ok. cbn [sent_header ihl version ecn_dscp total_len id frag_ofs hdr_ttl protocol hdr_checksum src_addr dest_addr].
      pose proof (bswap16_range (u16 (20 + zlen data))). pose proof (bswap16_range i). pose proof (bswap32_range src).
      pose proof (bswap32_range dst). unfold htons, htonl, ntohs, ntohl in *. change (bswap16 0) with 0. lia. }
  cbv zeta. cbn [sent_header ihl version total_len id frag_ofs hdr_ttl protocol hdr_checksum src_addr dest_addr].
  rewrite !ntohs_htons, !ntohl_htonl by (try assumption; try apply u16_range; lia). rewrite u16_small by lia.
  change (negb (4 =? 4)) with false. change (5 * 4 >? 60) with false. change (5 * 4 >? 20) with false. cbv iota.
  zb_case (20 + zlen data <? 5 * 4). zb_case (20 + zlen data >? 20 + zlen data). change (65 =? 0) with false. cbv iota.
  change (set_ip_checksum 0 _) with (sent_header i proto src dst (zlen data) 0). rewrite Ec. cbn [mbind outcome_bind].
  unfold htons at 1. rewrite Z.eqb_refl, Hrec. cbn [negb]. do 2 f_equal.
  rewrite Z.min_l by lia. change (Z.to_nat (5 * 4)) with (length (ip_bytes (sent_header i proto src dst (zlen data) csum))).
  rewrite drop_app_length, take_ge by (unfold zlen; lia). reflexivity.
Qed.

(** The frame a datagram leaves in is accepted by the host it addresses. *)
Lemma net_delivered (cb : list Z -> list tcp.app_action) (st : list Z) (a b : stack)
    (proto dst : Z) (nh : address) (data : list Z) :
  zlen (hwaddr a) = 6 -> zlen nh = 6 -> 0 <= local a < 2 ^ 32 -> 0 <= next_datagram_id a < 2 ^ 16 ->
  0 <= dst < 2 ^ 32 -> 0 <= proto < 256 -> 0 < zlen data <= 1480 -> is_recipient b dst = true ->
  exists a' f, send_via proto dst nh data a = Ret (tt, a') /\ frames a' = frames a ++ [f] /\
    eth_on_receive cb st f b = (_ ← forward_datagram cb (local a) dst proto data; sret tt) b.
Proof.
  intros Hhw Hnh Hl Hid Hd Hp Hlen Hrec.
  destruct (net_send_via a proto dst nh data ltac:(lia)) as (csum & Ec & Hc & ->).
  eexists _, _. split; [reflexivity|]. split; [reflexivity|].
  unfold ip_frame. rewrite net_eth_receive.
  - cbn [Z.eqb]. change (ET_IPV4 =? ET_ARP) with false. change (ET_IPV4 =? ET_IPV4) with true. cbv iota.
    unfold ipv4_on_receive. step_get b.
    rewrite (net_bind_Ret _ _ b _ b (net_lift _ _ _ (net_check_sent b _ _ _ _ _ _ Hid Hp Hl Hd Hlen Hc Ec Hrec))).
    reflexivity.
  - assumption.
  - assumption.
  - rewrite zlen_app, (proj2 (net_ip_bytes_ok _)). lia.
  - unfold ET_IPV4. lia.
Qed.

(** C20: a datagram handed to [send] for a known next hop leaves as one frame,
    and a host that is addressed by it (directly or by its subnet's broadcast
    address) hands exactly that payload, from the sender's address, to the
    datagram's protocol: no header field, length or checksum check of the
    receiver refuses what the sender writes. *)
Theorem net_datagram_delivered (cb : list Z -> list tcp.app_action) (st : list Z) (a b : stack)
    (proto dst : Z) (nh : address) (data : list Z) :
  zlen (hwaddr a) = 6 -> zlen nh = 6 -> 0 <= local a < 2 ^ 32 -> 0 <= next_datagram_id a < 2 ^ 16 ->
  0 <= dst < 2 ^ 32 -> 0 <= proto < 256 -> 0 < zlen data <= 1480 -> is_recipient b dst = true ->
  exists a' f, send_via proto dst nh data a = Ret (tt, a') /\ frames a' = frames a ++ [f] /\
    eth_on_receive cb st f b = (_ ← forward_datagram cb (local a) dst proto data; sret tt) b.
Proof. apply net_delivered. Qed.

(** A configured host *)
Definition host (hw : address) (ip : Z) : stack :=
  set_config ip 0xFFFFFF00 0x0A000001 (eth_configure hw (init (mk_cache_entry 0 wildcard_address))).

Lemma net_datagram_delivered_witness :
  exists a' f, send_via PROTO_UDP 0x0A0000FF broadcast_address [1; 2; 3] (host [2; 0; 0; 0; 0; 1] 0x0A000005) = Ret (tt, a') /\
    frames a' = [f] /\
    eth_on_receive (fun _ => []) [] f (host [2; 0; 0; 0; 0; 2] 0x0A000006) =
    (_ ← forward_datagram (fun _ => []) 0x0A000005 0x0A0000FF PROTO_UDP [1; 2; 3]; sret tt) (host [2; 0; 0; 0; 0; 2] 0x0A000006).
Proof.
  apply (net_datagram_delivered (fun _ => []) [] (host [2; 0; 0; 0; 0; 1] 0x0A000005) (host [2; 0; 0; 0; 0; 2] 0x0A000006)
           PROTO_UDP 0x0A0000FF broadcast_address [1; 2; 3]);
    try reflexivity; unfold PROTO_UDP; cbn [next_datagram_id local host set_config eth_configure set_hwaddr init]; try lia.
  vm_compute. split; congruence.
Defined.

(** ** The reassembly table is touched by nothing but the reassembly *)

Definition keeps {A} (m : stM stack A) : Prop :=
  forall s a s', m s = Ret (a, s') -> reassembly_buffers s' = reassembly_buffers s.

Lemma keeps_bind {A B} (m : stM stack A) (f : A -> stM stack B) : keeps m -> (forall a, keeps (f a)) -> keeps (mbind f m).
Proof.
  intros Hm Hf s b s' E. unfold mbind, stM_bind in E. destruct (m s) as [[a s1]| | |] eqn:E1; try discriminate E.
  rewrite (Hf a s1 b s' E). eapply Hm. eassumption.
Qed.

Lemma keeps_get_bind {B} (f : stack -> stM stack B) : (forall s, keeps (f s)) -> keeps (mbind f sget).
Proof. intros H s b s' E. eapply H. exact E. Qed.

Lemma keeps_lift {A} (o : outcome A) : keeps (lift o).
Proof. intros s a s' E. unfold lift in E. destruct o; try discriminate E. injection E as _ <-. reflexivity. Qed.

Lemma keeps_ret {A} (a : A) : keeps (sret a).
Proof. intros s b s' E. injection E as _ <-. reflexivity. Qed.

Lemma keeps_foreach {A} (l : list A) (f : A -> stM stack unit) : (forall x, keeps (f x)) -> keeps (sforeach l f).
Proof.
  intros Hf. induction l as [|x l IH]; [apply keeps_ret|]. intros s a s' E. cbn [sforeach] in E.
  destruct (f x s) as [[u s1]| | |] eqn:E1; try discriminate E. rewrite (IH s1 a s' E). eapply Hf. eassumption.
Qed.

Lemma keeps_modify (f : stack -> stack) : (forall s, reassembly_buffers (f s) = reassembly_buffers s) -> keeps (smodify f).
Proof. intros Hf s a s' E. injection E as _ <-. apply Hf. Qed.

Create HintDb keeps.
#[local] Hint Resolve keeps_lift keeps_ret : keeps.

Lemma keeps_elim {A} (m : stM stack A) s a s' : keeps m -> m s = Ret (a, s') -> reassembly_buffers s' = reassembly_buffers s.
Proof. intros H. apply H. Qed.

Lemma bind_inv {A B} (m : stM stack A) (f : A -> stM stack B) s r :
  mbind f m s = Ret r -> exists a s1, m s = Ret (a, s1) /\ f a s1 = Ret r.
Proof. unfold mbind, stM_bind. intros E. destruct (m s) as [[a s1]| | |]; try discriminate E. eauto. Qed.

Lemma lift_inv {A} (o : outcome A) (s : stack) a s1 : lift o s = Ret (a, s1) -> o = Ret a /\ s1 = s.
Proof. unfold lift. destruct o; intros E; try discriminate E. injection E as -> ->. auto. Qed.

Lemma get_inv (s a s1 : stack) : sget s = Ret (a, s1) -> a = s /\ s1 = s.
Proof. intros [= -> ->]. auto. Qed.

Lemma put_inv (t s : stack) a s1 : sput t s = Ret (a, s1) -> s1 = t.
Proof. intros E. injection E as _ <-. reflexivity. Qed.

Lemma ret_inv {A} (x : A) (s : stack) a s1 : sret x s = Ret (a, s1) -> a = x /\ s1 = s.
Proof. intros [= -> ->]. auto. Qed.

(** Follows a handler that returns step by step and collects what its calls keep. *)
Ltac keeps_step :=
  match goal with
  | E : mbind _ _ _ = Ret _ |- _ => apply bind_inv in E; destruct E as (? & ? & ? & ?)
  | E : sget _ = Ret (_, _) |- _ => apply get_inv in E; destruct E; subst
  | E : sput _ _ = Ret (_, _) |- _ => apply put_inv in E; subst
  | E : sret _ _ = Ret (_, _) |- _ => apply ret_inv in E; destruct E; subst
  | E : lift _ _ = Ret (_, _) |- _ => apply lift_inv in E; destruct E; subst
  | E : (match ?x with _ => _ end) _ = Ret _ |- _ => destruct x eqn:?
  | H : ?m ?s0 = Ret (?a, ?s1) |- context [reassembly_buffers ?s1] =>
      rewrite (keeps_elim m s0 a s1 ltac:(solve [auto with keeps]) H)
  end.

Ltac keeps_run := let E := fresh "E" in intros ? ? ? E; repeat keeps_step; try reflexivity.

Lemma keeps_eth_send type dst data : keeps (eth_send type dst data).
Proof.
  unfold eth_send. apply keeps_get_bind. intros s. apply keeps_bind; [apply keeps_lift|]. intros _.
  apply keeps_modify. reflexivity.
Qed.

#[local] Hint Resolve keeps_eth_send : keeps.

Lemma keeps_arp_send op tpa tha nh : keeps (arp_send op tpa tha nh).
Proof. unfold arp_send. apply keeps_get_bind. auto with keeps. Qed.
#[local] Hint Resolve keeps_arp_send : keeps.

Lemma keeps_send_via proto dst nh data : keeps (send_via proto dst nh data).
Proof. unfold send_via, send_single_datagram. keeps_run. Qed.
#[local] Hint Resolve keeps_send_via : keeps.

Lemma keeps_run_waiter w r : keeps (run_waiter w r).
Proof. destruct w, r; unfold run_waiter, fetch_cached, sassert; try apply keeps_ret; keeps_run. Qed.
#[local] Hint Resolve keeps_run_waiter : keeps.

Lemma keeps_probe_await i f g : keeps (probe_await i f g).
Proof. unfold probe_await. keeps_run. Qed.

Lemma keeps_probe_tick i dt : keeps (probe_tick i dt).
Proof. unfold probe_tick, send_request. keeps_run. Qed.
#[local] Hint Resolve keeps_probe_await keeps_probe_tick : keeps.

Lemma keeps_fetch_network ip w : keeps (fetch_network ip w).
Proof. unfold fetch_network, fetch_cached. keeps_run. Qed.
#[local] Hint Resolve keeps_fetch_network : keeps.

Lemma keeps_wait_store h data s s' : wait_store h data s = Ret s' -> reassembly_buffers s' = reassembly_buffers s.
Proof.
  unfold wait_store. intros E. destruct (flip_buffer.data _ _) as [[b off]|]; [|destruct (_ =? _); congruence].
  destruct (arr_blit _ _ _ _); try discriminate E. apply Ret_inj in E. subst s'. reflexivity.
Qed.

Lemma keeps_ipv4_send proto dst data : keeps (ipv4_send proto dst data).
Proof.
  unfold ipv4_send, fetch_cached. keeps_run.
  match goal with H : wait_store _ _ _ = Ret _ |- _ => apply keeps_wait_store in H; rewrite H end. reflexivity.
Qed.
#[local] Hint Resolve keeps_ipv4_send : keeps.

(** ** Reassembly *)

Section reassembly.
Variable cb : list Z -> list tcp.app_action.
Variable st : list Z.
Hypothesis st_len : zlen st = REASSEMBLY_LEN.
Variable M : list Z.
Hypothesis M_len : 0 < zlen M <= REASSEMBLY_LEN.
Variable k : reassembly_buffer_identifier.

Definition frag (p : packet) : frag_buffer.fragment := (pk_offset p, pk_payload p).

Definition ends (fr : frag_buffer.fragment) : Prop := fr.1 + zlen fr.2 = zlen M.

(** A packet that carries a fragment of [M]; the last one has no MF flag *)
Definition carries (p : packet) : Prop :=
  ident p = k /\ frag_buffer.fragment_of M (frag p) /\ negb (pk_more p) = bool_decide (ends (frag p)) /\
  negb (pk_more p) && pk_whole p = false.

Definition complete (frs : list frag_buffer.fragment) : Prop :=
  Exists ends frs /\ forall x, 0 <= x < zlen M -> frag_buffer.covered frs x.

(** The state of the table once the packets [ps] were received *)
Definition holding (ps : list packet) (g0 : gmap reassembly_buffer_identifier reassembly_buffer)
    (t : fixed_pool (unordered_map.entry (K := reassembly_buffer_identifier) (V := reassembly_buffer))) : Prop :=
  sp_capacity t = REASSEMBLIES /\
  match ps with
  | [] => unordered_map.rep t g0
  | _ => exists fb, unordered_map.rep t (<[k := mk_reassembly 20000 (bool_decide (Exists ends (frag <$> ps))) fb]> g0) /\
           frag_buffer.received REASSEMBLY_LEN M (frag <$> ps) fb
  end.

Lemma net_find_some (t : fixed_pool (unordered_map.entry (K := reassembly_buffer_identifier) (V := reassembly_buffer))) g b :
  unordered_map.rep t g -> g !! k = Some b ->
  exists i, unordered_map.find t k = Some i /\ sp_at t i = Some (unordered_map.mk_entry k b).
Proof.
  intros Hr Hb. pose proof (unordered_map.um_find_rep t g k Hr) as Hf. destruct (unordered_map.find t k) as [i|]; [|congruence].
  destruct Hf as (v & Ha & Hv). rewrite Hb in Hv. injection Hv as <-. eauto.
Qed.

(** [find_buffer] finds the buffer or makes a fresh one. *)
Lemma net_find_buffer s ps g0 p : holding ps g0 (reassembly_buffers s) -> ident p = k ->
  Z.of_nat (base.size g0) < REASSEMBLIES - 1 -> g0 !! k = None ->
  exists t i fb, find_buffer st p s = Ret (i, set_reassembly t s) /\ sp_capacity t = REASSEMBLIES /\
    sp_at t i = Some (unordered_map.mk_entry k (mk_reassembly 20000 (bool_decide (Exists ends (frag <$> ps))) fb)) /\
    unordered_map.rep t (<[k := mk_reassembly 20000 (bool_decide (Exists ends (frag <$> ps))) fb]> g0) /\
    unordered_map.find t k = Some i /\
    frag_buffer.received REASSEMBLY_LEN M (frag <$> ps) fb.
Proof.
  intros [Hcap Hh] Hk Hsz Hnew. unfold find_buffer. step_get s. rewrite Hk.
  destruct ps as [|p0 ps].
  - pose proof (unordered_map.um_find_rep _ g0 k Hh) as Hf.
    destruct (unordered_map.find (reassembly_buffers s) k) as [i|]; [destruct Hf as (v & _ & Hv); congruence|].
    destruct (frag_buffer.fb_received_init REASSEMBLY_LEN ltac:(unfold REASSEMBLY_LEN, INT_MAX; lia) M st st_len)
      as (fb & Efb & Hfb); [vm_compute; congruence|].
    rewrite (net_bind_Ret _ _ _ fb s (net_lift _ _ _ Efb)). cbv beta.
    pose proof (unordered_map.um_insert (reassembly_buffers s) g0 k (mk_reassembly 20000 false fb) Hh) as Hi.
    rewrite decide_False in Hi by (rewrite Hnew; intros [? [=]]).
    rewrite Hcap, (proj2 (Z.ltb_lt _ _)) in Hi by lia. destruct Hi as (t & Et & Ht & Hc).
    rewrite (net_bind_Ret _ _ _ (t, true) s (net_lift _ _ _ Et)). cbv beta iota.
    rewrite (net_bind_Ret (sput _) _ s tt _ eq_refl). cbv beta.
    destruct (net_find_some t _ _ Ht (lookup_insert_eq _ _ _)) as (i & Ei & Ha). rewrite Ei.
    exists t, i, fb. split; [reflexivity|]. split; [congruence|]. rewrite bool_decide_eq_false_2 by (intros He; inversion He). auto.
  - destruct Hh as (fb & Hr & Hfb). destruct (net_find_some _ _ _ Hr (lookup_insert_eq _ _ _)) as (i & Ei & Ha).
    rewrite Ei. exists (reassembly_buffers s), i, fb. split; [destruct s; reflexivity|]. auto.
Qed.

Lemma net_size_insert (g0 : gmap reassembly_buffer_identifier reassembly_buffer) b :
  g0 !! k = None -> base.size (<[k := b]> g0) = S (base.size g0).
Proof. intros. apply map_size_insert_None. assumption. Qed.

Lemma net_not_full ps g0 t : holding ps g0 t -> Z.of_nat (base.size g0) < REASSEMBLIES - 1 -> g0 !! k = None ->
  unordered_map.full t = false.
Proof.
  intros [Hcap Hh] Hsz Hnew. destruct ps as [|p ps]; [|destruct Hh as (fb & Hh & _)];
    rewrite (unordered_map.um_full _ _ Hh), Hcap, ?net_size_insert by assumption; apply Z.leb_gt; lia.
Qed.

Lemma net_more_last ps p : carries p ->
  bool_decide (Exists ends (frag <$> ps)) || negb (pk_more p) = bool_decide (Exists ends (frag <$> ps ++ [p])).
Proof.
  intros (_ & _ & -> & _). rewrite fmap_app. destruct (bool_decide (Exists ends (frag <$> ps))) eqn:E1; simpl.
  - apply bool_decide_eq_true in E1. symmetry. apply bool_decide_eq_true. apply Exists_app. auto.
  - apply bool_decide_eq_false in E1. apply bool_decide_ext. rewrite Exists_app, Exists_cons, Exists_nil. tauto.
Qed.

(** The buffer is complete exactly when the last fragment is there and there are no gaps. *)
Lemma net_complete_size frs n : Forall (frag_buffer.fragment_of M) frs ->
  (forall j, 0 < j -> n = j <-> forall x, frag_buffer.covered frs x <-> 0 <= x < j) ->
  (bool_decide (Exists ends frs) && (n >? 0) = true <-> complete frs) /\ (complete frs -> n = zlen M).
Proof.
  intros Hfrs Hn.
  assert (forall x, frag_buffer.covered frs x -> 0 <= x < zlen M) as Hcov.
  { intros x (fr & Hfr & Hx). apply (proj1 (Forall_forall _ _) Hfrs) in Hfr. destruct Hfr as (? & ? & ? & _). lia. }
  assert (complete frs -> n = zlen M) as Hc.
  { intros [_ Hall]. apply Hn; [lia|]. intros x. split; [apply Hcov|apply Hall]. }
  split; [|auto]. rewrite andb_true_iff, bool_decide_eq_true. split.
  - intros [He Hpos]. split; [assumption|]. intros x Hx. apply Z.gtb_lt in Hpos.
    pose proof (proj1 (Hn n ltac:(lia)) eq_refl) as Hspan. apply Hspan.
    apply Exists_exists in He. destruct He as (fr & Hfr & He).
    pose proof (proj1 (Forall_forall _ _) Hfrs _ Hfr) as (? & ? & _). unfold ends in He.
    assert (frag_buffer.covered frs (zlen M - 1)) as Hl by (exists fr; split; [assumption|lia]). apply Hspan in Hl. lia.
  - intros Hcm. split; [apply Hcm|]. rewrite (Hc Hcm). apply Z.gtb_lt. lia.
Qed.

(** Receiving one fragment: the buffer is kept while fragments are missing, and
    the message is forwarded when it is complete. *)
Lemma net_reassemble_step s ps g0 p : holding ps g0 (reassembly_buffers s) ->
  Z.of_nat (base.size g0) < REASSEMBLIES - 1 -> g0 !! k = None -> Forall carries (ps ++ [p]) ->
  zlen ps + 1 < REASSEMBLY_LEN / 40 ->
  exists t, holding (ps ++ [p]) g0 t /\
    (~ complete (frag <$> ps ++ [p]) -> handle_packet cb st p s = Ret (tt, set_reassembly t s)) /\
    (complete (frag <$> ps ++ [p]) -> exists i, unordered_map.find t k = Some i /\
       handle_packet cb st p s =
       (_ ← forward_datagram cb (pk_src p) (pk_dest p) (pk_protocol p) M;
        s2 ← sget; m2 ← lift (unordered_map.erase (reassembly_buffers s2) i); sput (set_reassembly m2 s2)) (set_reassembly t s)).
Proof.
  intros Hh Hsz Hnew Hall Hroom. apply Forall_app in Hall. destruct Hall as [Hps Hp]. apply Forall_inv in Hp.
  pose proof Hp as (Hk & Hfr & _ & Hnw).
  destruct (net_find_buffer s ps g0 p Hh Hk Hsz Hnew) as (t1 & i & fb & Ef & Hc1 & Ha & Hr1 & Hi1 & Hfb).
  assert (Forall (frag_buffer.fragment_of M) (frag <$> ps ++ [p])) as Hfrs.
  { apply Forall_fmap. apply Forall_app. split; [|constructor; [exact Hfr|constructor]].
    eapply Forall_impl; [exact Hps|]. intros q Hq. apply Hq. }
  destruct (frag_buffer.fb_received_step REASSEMBLY_LEN ltac:(unfold REASSEMBLY_LEN, INT_MAX; lia) M (frag <$> ps) fb (frag p))
    as (fb' & Ei & Hfb'); [lia|assumption|assumption|unfold zlen in *; rewrite length_fmap; assumption|].
  assert (frag <$> ps ++ [p] = (frag <$> ps) ++ [frag p]) as Hmap by (rewrite fmap_app; reflexivity). rewrite <-Hmap in Hfb'.
  destruct (frag_buffer.fb_received_size REASSEMBLY_LEN ltac:(unfold REASSEMBLY_LEN, INT_MAX; lia) M _ fb' Hfrs ltac:(lia) Hfb')
    as (n & En & Hn & Hd).
  destruct (net_complete_size _ n Hfrs Hn) as [Hiff Hlen].
  destruct (unordered_map.um_set t1 _ i k _ (mk_reassembly 20000 (bool_decide (Exists ends (frag <$> ps ++ [p]))) fb') Hr1 Ha)
    as (t2 & Et & Hr2 & Hc2). rewrite insert_insert_eq in Hr2.
  exists t2. split.
  { split; [congruence|]. destruct (ps ++ [p]) as [|q qs] eqn:Eq; [destruct ps; discriminate|]. eauto. }
  assert (handle_packet cb st p s =
    (if bool_decide (Exists ends (frag <$> ps ++ [p])) && (n >? 0) then
       _ ← forward_datagram cb (pk_src p) (pk_dest p) (pk_protocol p) (take (Z.to_nat n) (frag_buffer.data fb'));
       s2 ← sget; m2 ← lift (unordered_map.erase (reassembly_buffers s2) i); sput (set_reassembly m2 s2)
     else sret tt) (set_reassembly t2 s)) as E.
  { unfold handle_packet. rewrite Hnw. unfold reassemble. step_get s. rewrite (net_not_full _ _ _ Hh Hsz Hnew).
    step_with Ef. step_get (set_reassembly t1 s). cbn [reassembly_buffers set_reassembly]. rewrite Ha. cbv zeta.
    cbn [unordered_map.value received_last rdata ttl].
    rewrite (net_bind_Ret _ _ _ fb' (set_reassembly t1 s) (net_lift _ _ _ Ei)). cbv beta. rewrite (net_more_last ps p Hp).
    rewrite (net_bind_Ret _ _ _ t2 (set_reassembly t1 s) (net_lift _ _ _ Et)). cbv beta.
    rewrite (net_bind_Ret (sput _) _ _ tt (set_reassembly t2 s) eq_refl). cbv beta.
    rewrite (net_bind_Ret _ _ _ n (set_reassembly t2 s) (net_lift _ _ _ En)). reflexivity. }
  split; intros Hcm.
  - rewrite E. destruct (bool_decide (Exists ends (frag <$> ps ++ [p])) && (n >? 0)) eqn:Eb; [|reflexivity].
    destruct Hcm. apply Hiff. reflexivity.
  - rewrite E, (proj2 Hiff Hcm). exists i. split.
    + eapply unordered_map.um_find_at; [exact Hr2|exact (unordered_map.um_set_at t1 t2 _ i k _ _ Hr1 Ha Et)].
    + replace (take (Z.to_nat n) (frag_buffer.data fb')) with M; [reflexivity|]. rewrite <-(Hlen Hcm) in M_len.
      destruct Hfb' as (m & [_ _ Hdl _] & _). apply znth_eq.
      * rewrite zlen_take by lia. symmetry. auto.
      * intros x Hx. rewrite <-(Hlen Hcm) in Hx. rewrite znth_take by lia. symmetry. apply Hd. assumption.
Qed.

Lemma keeps_forward_datagram src dst proto data : keeps (forward_datagram cb src dst proto data).
Proof.
  unfold forward_datagram. destruct (proto =? PROTO_TCP); [|destruct (proto =? PROTO_UDP); [|destruct (proto =? PROTO_ICMP)]];
    try solve [keeps_run].
  apply keeps_bind; [|intros; apply keeps_ret]. unfold tcp_deliver.
  pose proof (fun l => keeps_foreach l (fun d => _ ← ipv4_send PROTO_TCP (tcp.out_dest d) (tcp.out_bytes d); sret tt)
    (fun d => keeps_bind _ _ (keeps_ipv4_send _ _ _) (fun _ => keeps_ret tt))) as Hsend.
  keeps_run.
Qed.

Lemma net_complete_mono ps qs : complete (frag <$> ps) -> complete (frag <$> ps ++ qs).
Proof.
  intros [He Hall]. rewrite fmap_app. split; [apply Exists_app; auto|]. intros x Hx.
  destruct (Hall x Hx) as (fr & Hfr & Hr). exists fr. split; [apply elem_of_app; auto|assumption].
Qed.

(** The fragments before the one that completes the message *)
Lemma net_reassemble_prefix qs g0 : Z.of_nat (base.size g0) < REASSEMBLIES - 1 -> g0 !! k = None ->
  forall ps s, holding ps g0 (reassembly_buffers s) -> Forall carries (ps ++ qs) ->
  zlen ps + zlen qs < REASSEMBLY_LEN / 40 -> ~ complete (frag <$> ps ++ qs) ->
  exists t, sforeach qs (handle_packet cb st) s = Ret (tt, set_reassembly t s) /\ holding (ps ++ qs) g0 t.
Proof.
  intros Hsz Hnew. induction qs as [|q qs IH]; intros ps s Hh Hall Hroom Hnc.
  - exists (reassembly_buffers s). rewrite app_nil_r in *. split; [destruct s; reflexivity|assumption].
  - assert (ps ++ q :: qs = (ps ++ [q]) ++ qs) as Eq by (rewrite <-app_assoc; reflexivity). rewrite Eq in *.
    pose proof (proj1 (proj1 (Forall_app _ _ _) Hall)) as Hall1. rewrite zlen_cons in Hroom. pose proof (zlen_nonneg qs).
    destruct (net_reassemble_step s ps g0 q Hh Hsz Hnew Hall1 ltac:(lia)) as (t & Ht & Hno & _).
    assert (~ complete (frag <$> ps ++ [q])) as Hnq by (intros Hc; apply Hnc, net_complete_mono; assumption).
    destruct (IH (ps ++ [q]) (set_reassembly t s) Ht Hall) as (t' & E & Ht'); [|assumption|].
    { rewrite zlen_app. change (zlen [q]) with 1. lia. }
    exists t'. split; [|assumption]. cbn [sforeach]. rewrite (Hno Hnq). exact E.
Qed.
End reassembly.


(** The middle, the end and the start of a message of 20 bytes *)
Definition sample : list Z := [0; 1; 2; 3; 4; 5; 6; 7; 8; 9; 10; 11; 12; 13; 14; 15; 16; 17; 18; 19].
Definition sample_packet (more : bool) (off n : Z) : packet :=
  mk_packet 1 2 3 PROTO_UDP more false off (take (Z.to_nat n) (drop (Z.to_nat off) sample)).

Lemma sample_len more off n : 0 <= off -> 0 < n -> off + n <= 20 -> zlen (frag (sample_packet more off n)).2 = n.
Proof.
  intros. assert (zlen (drop (Z.to_nat off) sample) = 20 - off) as Hd.
  { rewrite zlen_drop; [reflexivity|]. change (zlen sample) with 20. lia. }
  cbn [frag snd sample_packet pk_payload]. rewrite zlen_take; lia.
Qed.

Lemma sample_carries more off n : 0 <= off -> 0 < n -> off + n <= 20 -> negb more = bool_decide (off + n = 20) ->
  carries sample (2, 1, 3, PROTO_UDP) (sample_packet more off n).
Proof.
  intros Ho Hn Hend Hm. pose proof (sample_len more off n Ho Hn Hend) as Hl.
  split; [reflexivity|]. split; [|split; [|apply andb_false_r]].
  - unfold frag_buffer.fragment_of. rewrite Hl. cbn [frag fst snd sample_packet pk_payload pk_offset].
    change (zlen sample) with 20. split; [lia|]. split; [lia|]. split; [lia|]. intros j Hj. rewrite znth_take, znth_drop by lia. reflexivity.
  - cbn [sample_packet pk_more]. rewrite Hm. apply bool_decide_ext. unfold ends. rewrite Hl. reflexivity.
Qed.


(** ** Short UDP datagrams *)

(** A UDP datagram with fewer than 8 bytes of payload, which any host
    that can send a datagram can produce, passes all checks of the receiver
    and makes the assertion in [udp::protocol_impl::on_receive] fail: the
    receiving system halts. *)
Theorem net_short_udp_panics (cb : list Z -> list tcp.app_action) (st : list Z) (a b : stack)
    (dst : Z) (nh : address) (data : list Z) :
  zlen (hwaddr a) = 6 -> zlen nh = 6 -> 0 <= local a < 2 ^ 32 -> 0 <= next_datagram_id a < 2 ^ 16 ->
  0 <= dst < 2 ^ 32 -> 0 < zlen data < 8 -> is_recipient b dst = true ->
  exists a' f, send_via PROTO_UDP dst nh data a = Ret (tt, a') /\ frames a' = frames a ++ [f] /\
    eth_on_receive cb st f b = Panic.
Proof.
  intros Hhw Hnh Hl Hid Hd Hlen Hrec.
  destruct (net_delivered cb st a b PROTO_UDP dst nh data) as (a' & f & E & Hf & Hr); try assumption; try (unfold PROTO_UDP; lia).
  exists a', f. split; [exact E|]. split; [exact Hf|]. rewrite Hr. unfold forward_datagram.
  change (PROTO_UDP =? PROTO_TCP) with false. change (PROTO_UDP =? PROTO_UDP) with true. cbv iota.
  unfold mbind, stM_bind, lift, udp_on_receive. rewrite passert_false by lia. reflexivity.
Qed.

Lemma net_short_udp_panics_witness :
  exists a' f, send_via PROTO_UDP 0x0A000006 [2; 0; 0; 0; 0; 2] [1; 2; 3] (host [2; 0; 0; 0; 0; 1] 0x0A000005) = Ret (tt, a') /\
    frames a' = [f] /\ eth_on_receive (fun _ => []) [] f (host [2; 0; 0; 0; 0; 2] 0x0A000006) = Panic.
Proof.
  apply (net_short_udp_panics (fun _ => []) [] (host [2; 0; 0; 0; 0; 1] 0x0A000005) (host [2; 0; 0; 0; 0; 2] 0x0A000006)
           0x0A000006 [2; 0; 0; 0; 0; 2] [1; 2; 3]);
    [reflexivity|reflexivity|vm_compute; split; congruence|vm_compute; split; congruence|lia|vm_compute; split; congruence|reflexivity].
Defined.

(** ** The expiry of reassembly buffers *)

Section expiry.
Variable delta : Z.
Hypothesis delta_ok : 1 <= delta <= 20000.

Abbreviation ent := (unordered_map.entry (K := reassembly_buffer_identifier) (V := reassembly_buffer)).

Definition fresh_ttl (e : ent) : Prop := 0 < ttl (unordered_map.value e) <= 20000.

Lemma to_i32_small x : - 2 ^ 31 <= x < 2 ^ 31 -> to_i32 x = x.
Proof. intros. unfold to_i32, u32. destruct (Z.ltb_spec (x mod 2 ^ 32) (2 ^ 31)); dlia. Qed.

(** The loop stays on a buffer until it has expired and removes it. *)
Lemma net_tick_one (n : nat) : forall (s : stack) (m : gmap Z ent) i e0 e l,
  sp_model (reassembly_buffers s) m -> m !! i = Some e -> 0 < ttl (unordered_map.value e) <= Z.of_nat n -> Z.of_nat n <= 20000 ->
  exists t j, sp_model t (delete i m) /\
    forall fuel, ip_tick_loop (S j + fuel) ((i, e0) :: l) delta s = ip_tick_loop fuel l delta (set_reassembly t s).
Proof.
  induction n as [|n IH]; intros s m i e0 e l Hm Hi Ht Hn; [lia|].
  set (e' := unordered_map.mk_entry (unordered_map.key e) (mk_reassembly (ttl (unordered_map.value e) - delta)
               (received_last (unordered_map.value e)) (rdata (unordered_map.value e)))).
  destruct (sp_modify_model (reassembly_buffers s) m i e (fun e1 => unordered_map.mk_entry (unordered_map.key e1)
    (mk_reassembly (to_i32 (ttl (unordered_map.value e) - delta)) (received_last (unordered_map.value e)) (rdata (unordered_map.value e)))) Hm Hi)
    as (t1 & E1 & Hm1 & _). rewrite to_i32_small in Hm1 by lia. fold e' in Hm1.
  assert (forall fuel, ip_tick_loop (S fuel) ((i, e0) :: l) delta s =
    (if ttl (unordered_map.value e) - delta <=? 0 then
       m' ← lift (unordered_map.erase t1 i); sput (set_reassembly m' s);; ip_tick_loop fuel l delta
     else ip_tick_loop fuel ((i, e0) :: l) delta) (set_reassembly t1 s)) as Estep.
  { intros fuel. cbn [ip_tick_loop]. step_get s. rewrite (sp_at_model _ _ i Hm), Hi. cbv zeta.
    rewrite (proj2 (Z.leb_gt (ttl _) 0)) by lia. rewrite (net_bind_Ret _ _ _ t1 s (net_lift _ _ _ E1)). cbv beta.
    rewrite (net_bind_Ret (sput _) _ s tt (set_reassembly t1 s) eq_refl). cbv beta. rewrite to_i32_small by lia. reflexivity. }
  destruct (Z.leb_spec (ttl (unordered_map.value e) - delta) 0) as [Hx|Hx].
  - destruct (sp_erase_model t1 _ i e' Hm1 (lookup_insert_eq _ _ _)) as (t2 & E2 & Hm2 & _).
    exists t2, 0%nat. split; [rewrite delete_insert_eq in Hm2; exact Hm2|]. intros fuel. rewrite Estep.
    rewrite (net_bind_Ret _ _ _ t2 (set_reassembly t1 s) (net_lift _ _ _ E2)). reflexivity.
  - destruct (IH (set_reassembly t1 s) _ i e0 e' l Hm1 (lookup_insert_eq _ _ _)) as (t2 & j & Hm2 & Hrun).
    { unfold e'. cbn [unordered_map.value ttl]. lia. }
    { lia. }
    exists t2, (S j). split; [rewrite delete_insert_eq in Hm2; exact Hm2|]. intros fuel.
    change (S (S j) + fuel)%nat with (S (S j + fuel)). rewrite Estep. rewrite (Hrun fuel). reflexivity.
Qed.

Lemma net_tick_all (l : list (Z * ent)) : forall (s : stack) (m : gmap Z ent), sp_model (reassembly_buffers s) m -> NoDup l.*1 ->
  (forall i e, m !! i = Some e <-> (i, e) ∈ l) -> Forall (fun x => fresh_ttl x.2) l ->
  exists fuel t, sp_model t (∅ : gmap Z ent) /\ ip_tick_loop fuel l delta s = Ret (tt, set_reassembly t s).
Proof.
  induction l as [|[i e] l IH]; intros s m Hm Hnd Hdom Hall.
  - exists 1%nat, (reassembly_buffers s). split; [|destruct s; reflexivity].
    replace (∅ : gmap Z ent) with m; [assumption|]. apply map_eq. intros i. rewrite lookup_empty.
    destruct (m !! i) as [e|] eqn:E; [|reflexivity]. apply Hdom, not_elem_of_nil in E. done.
  - rewrite fmap_cons in Hnd. apply NoDup_cons in Hnd. destruct Hnd as [Hi Hnd]. inversion Hall as [|? ? He Hall']. subst.
    cbn [fst snd] in *. unfold fresh_ttl in He.
    assert (m !! i = Some e) as Hie by (apply Hdom, list_elem_of_here).
    destruct (net_tick_one (Z.to_nat 20000) s m i e e l Hm Hie) as (t & j & Ht & Hrun); [lia|lia|].
    destruct (IH (set_reassembly t s) (delete i m) Ht Hnd) as (fuel & t2 & Ht2 & E2).
    + intros k x. rewrite lookup_delete_Some, Hdom, elem_of_cons. split.
      * intros [Hne [[= -> ->]|Hin]]; [done|assumption].
      * intros Hin. split; [|auto]. intros ->. apply Hi. apply list_elem_of_fmap. exists (k, x). auto.
    + assumption.
    + exists (S j + fuel)%nat, t2. split; [assumption|]. rewrite Hrun, E2. reflexivity.
Qed.
End expiry.

(** One call of [ipv4::protocol_impl::tick] with any positive time, however
    small, discards every reassembly buffer, although each is given 20 s to
    live: the loop does not move past a buffer that is still alive but
    subtracts the time again until it has expired. *)
Theorem net_tick_drops_reassemblies (delta : Z) (s : stack) (g : gmap reassembly_buffer_identifier reassembly_buffer) :
  1 <= delta <= 20000 -> unordered_map.rep (reassembly_buffers s) g ->
  (forall k b, g !! k = Some b -> 0 < ttl b <= 20000) ->
  exists fuel t, ipv4_tick fuel delta s = Ret (tt, set_reassembly t s) /\ unordered_map.rep t (∅ : gmap reassembly_buffer_identifier reassembly_buffer).
Proof.
  intros Hd [m Hm Hu Hl _] Hg.
  destruct (net_tick_all delta Hd (sp_entries (reassembly_buffers s)) s m Hm) as (fuel & t & Ht & E).
  - pose proof (sp_entries_sorted _ _ Hm) as Hs. induction Hs as [|x l Hs IH Hall]; [constructor|]. constructor; [|assumption].
    intros Hin. apply (proj1 (Forall_forall _ _) Hall) in Hin. lia.
  - intros i e. symmetry. apply sp_entries_model. exact Hm.
  - apply Forall_forall. intros [i e] Hin. apply (sp_entries_model _ _ _ _ Hm) in Hin. unfold fresh_ttl. destruct e as [k b].
    cbn [snd unordered_map.value]. apply (Hg k). apply Hl. eauto.
  - exists fuel, t. split; [exact E|]. apply unordered_map.um_new. exact Ht.
Qed.

Lemma net_tick_drops_reassemblies_witness :
  exists s fuel t, ipv4_tick fuel 1 s = Ret (tt, set_reassembly t s) /\ pool.size (reassembly_buffers s) = 1 /\
    unordered_map.rep t (∅ : gmap reassembly_buffer_identifier reassembly_buffer).
Proof.
  set (k := (1, 2, 3, 17) : reassembly_buffer_identifier). set (b := mk_reassembly 20000 false (frag_buffer.mk [] (new_fixed_pool 1))).
  pose proof (unordered_map.um_insert (P := fixed_pool) (new_fixed_pool 10) ∅ k b
    (unordered_map.um_new (P := fixed_pool) (K := reassembly_buffer_identifier) (V := reassembly_buffer) _ (fp_new 10 ltac:(vm_compute; congruence)))) as Hi.
  rewrite decide_False in Hi by (intros [? [=]]). change (Z.of_nat (base.size ∅) <? _) with true in Hi. cbv iota in Hi.
  destruct Hi as (t & _ & Ht & _). exists (set_reassembly t (host [2; 0; 0; 0; 0; 1] 2)).
  destruct (net_tick_drops_reassemblies 1 (set_reassembly t (host [2; 0; 0; 0; 0; 1] 2)) _ ltac:(lia) Ht) as (fuel & t' & E' & Ht').
  - intros k' b' Hk. apply lookup_insert_Some in Hk. destruct Hk as [[_ <-]|[_ Hk]]; [vm_compute; split; congruence|].
    rewrite lookup_empty in Hk. discriminate.
  - exists fuel, t'. split; [exact E'|]. split; [|exact Ht']. pose proof (unordered_map.um_size _ _ Ht) as Hs.
    rewrite map_size_insert_None, map_size_empty in Hs by apply lookup_empty. exact Hs.
Defined.
