(* ===== verification/ArpFacts.v ===== *)
(** * Address resolution

    The mapping table keeps the last 64 mappings and answers with the latest;
    a datagram for an unresolved next hop is kept, a request is broadcast, and
    the reply releases it; a probe gives up after five requests; and a tick of
    all probes ends, although it erases probes while it goes over them. *)

From S2P Require Import Prelude Queue Pool UnorderedMap FlipBuffer NetUtils Tcp Net NetFacts.
From stdpp Require Import gmap list.
#[local] Open Scope Z_scope.

Import net.
Import bytes.

(** ** The mapping table *)

(** The hardware address of the latest entry for [ip] *)
Fixpoint latest (l : list cache_entry) (ip : Z) (acc : option address) : option address :=
  match l with
  | [] => acc
  | e :: l' => latest l' ip (if ce_ipaddr e =? ip then Some (ce_hwaddr e) else acc)
  end.

Definition MAPPINGS_pos : 0 < MAPPINGS := eq_refl.
Lemma MAPPINGS_int : 2 * MAPPINGS <= INT_MAX.
Proof. vm_compute. congruence. Qed.

Lemma arp_fetch_loop q l ip : queue.rep MAPPINGS q l ->
  forall fuel pre post acc, l = pre ++ post -> (length post < fuel)%nat ->
  fetch_loop fuel q ip (queue.begin q + zlen pre) acc = Ret (latest post ip acc).
Proof.
  intros Hr fuel. induction fuel as [|fuel IH]; intros pre post acc Hl Hf; [lia|]. cbn [fetch_loop].
  pose proof (queue.rep_size _ _ _ Hr) as Hs. unfold queue.end_, queue.begin in *. rewrite Hs, Hl, zlen_app.
  destruct post as [|e post].
  - change (zlen []) with 0. rewrite (proj2 (Z.eqb_eq _ _)) by lia. reflexivity.
  - rewrite zlen_cons. pose proof (zlen_nonneg post). rewrite (proj2 (Z.eqb_neq _ _)) by lia.
    assert (znth l (zlen pre) = Some e) as Hn by (rewrite Hl, znth_app_r, Z.sub_diag by lia; reflexivity).
    pose proof (queue.queue_at_rep _ MAPPINGS_pos q l (zlen pre) e Hr Hn) as Ha. unfold queue.begin in Ha.
    rewrite Ha. cbn [mbind outcome_bind latest].
    rewrite <-(IH (pre ++ [e]) post (if ce_ipaddr e =? ip then Some (ce_hwaddr e) else acc)).
    + f_equal. rewrite zlen_app. change (zlen [e]) with 1. lia.
    + rewrite <-app_assoc. exact Hl.
    + simpl in Hf. lia.
Qed.

Lemma arp_fetch q l ip : queue.rep MAPPINGS q l -> mapping_fetch q ip = Ret (latest l ip None).
Proof.
  intros Hr. unfold mapping_fetch. replace (queue.begin q) with (queue.begin q + zlen (@nil cache_entry)) by (change (zlen []) with 0; lia).
  apply (arp_fetch_loop q l ip Hr _ [] l); [reflexivity|]. pose proof (queue.rep_cap _ _ _ Hr). unfold zlen, MAPPINGS in *. lia.
Qed.

(** The table after one more entry *)
Definition remember (l : list cache_entry) (e : cache_entry) : list cache_entry :=
  (if zlen l =? MAPPINGS then drop 1 l else l) ++ [e].

Lemma arp_insert q l ip hw : queue.rep MAPPINGS q l ->
  exists q', mapping_insert q ip hw = Ret q' /\ queue.rep MAPPINGS q' (remember l (mk_cache_entry ip hw)).
Proof.
  intros Hr. unfold mapping_insert, remember. rewrite (queue.queue_rep_full _ _ _ Hr).
  destruct (Z.eqb_spec (zlen l) MAPPINGS) as [Hf|Hf].
  - destruct l as [|e l]; [discriminate Hf|].
    destruct (queue.queue_pop_front_rep _ MAPPINGS_pos MAPPINGS_int q e l Hr) as (q1 & -> & Hr1). cbn [mbind outcome_bind drop].
    destruct (queue.queue_push_back_room _ MAPPINGS_pos MAPPINGS_int q1 l (mk_cache_entry ip hw) Hr1) as (q2 & -> & Hr2).
    { rewrite zlen_cons in Hf. lia. }
    exists q2. auto.
  - cbn [mbind outcome_bind].
    destruct (queue.queue_push_back_room _ MAPPINGS_pos MAPPINGS_int q l (mk_cache_entry ip hw) Hr) as (q2 & -> & Hr2).
    { pose proof (queue.rep_cap _ _ _ Hr). lia. }
    exists q2. auto.
Qed.

Fixpoint insert_all (q : queue.t cache_entry) (es : list cache_entry) : outcome (queue.t cache_entry) :=
  match es with
  | [] => Ret q
  | e :: es' => q' ← mapping_insert q (ce_ipaddr e) (ce_hwaddr e); insert_all q' es'
  end.

(** The last [n] elements of a list *)
Definition last_n {A} (n : Z) (l : list A) : list A := drop (length l - Z.to_nat n) l.

Lemma arp_remember_last l e : remember (last_n MAPPINGS l) e = last_n MAPPINGS (l ++ [e]).
Proof.
  unfold remember, last_n. rewrite length_app. simpl.
  assert (zlen (drop (length l - Z.to_nat MAPPINGS) l) = Z.min (zlen l) MAPPINGS) as ->
    by (unfold zlen, MAPPINGS; rewrite length_drop; lia).
  unfold zlen, MAPPINGS in *. destruct (Z.eqb_spec (Z.min (Z.of_nat (length l)) 64) 64).
  - rewrite drop_drop, drop_app_le by lia. do 2 f_equal. lia.
  - rewrite drop_app_le by lia. do 2 f_equal. lia.
Qed.

Lemma arp_insert_all es : forall q l, queue.rep MAPPINGS q (last_n MAPPINGS l) ->
  exists q', insert_all q es = Ret q' /\ queue.rep MAPPINGS q' (last_n MAPPINGS (l ++ es)).
Proof.
  induction es as [|e es IH]; intros q l Hr; [exists q; rewrite app_nil_r; auto|]. cbn [insert_all].
  destruct (arp_insert q _ (ce_ipaddr e) (ce_hwaddr e) Hr) as (q1 & -> & Hr1). cbn [mbind outcome_bind].
  replace (mk_cache_entry (ce_ipaddr e) (ce_hwaddr e)) with e in Hr1 by (destruct e; reflexivity).
  rewrite arp_remember_last in Hr1. destruct (IH q1 (l ++ [e]) Hr1) as (q2 & E & Hr2).
  exists q2. rewrite <-app_assoc in Hr2. auto.
Qed.

(** Whatever mappings arrive, the table never fails, and a lookup gives
    the latest of the last 64 mappings for the address, or nothing when none
    of those 64 is for it. *)
Theorem arp_mapping_latest (junk : list cache_entry) (es : list cache_entry) :
  zlen junk = MAPPINGS ->
  exists q, insert_all (queue.init junk) es = Ret q /\
    forall ip, mapping_fetch q ip = Ret (latest (last_n MAPPINGS es) ip None).
Proof.
  intros Hj. destruct (arp_insert_all es (queue.init junk) []) as (q & E & Hr).
  - apply queue.queue_rep_init; [apply MAPPINGS_pos|assumption].
  - exists q. split; [assumption|]. intros ip. apply arp_fetch. exact Hr.
Qed.

Lemma arp_mapping_latest_witness :
  exists q, insert_all (queue.init (replicate (Z.to_nat MAPPINGS) (mk_cache_entry 0 [])))
      [mk_cache_entry 1 [10]; mk_cache_entry 2 [20]; mk_cache_entry 1 [11]] = Ret q /\
    mapping_fetch q 1 = Ret (Some [11]).
Proof.
  destruct (arp_mapping_latest (replicate (Z.to_nat MAPPINGS) (mk_cache_entry 0 []))
    [mk_cache_entry 1 [10]; mk_cache_entry 2 [20]; mk_cache_entry 1 [11]]) as (q & E & Hq); [reflexivity|].
  exists q. split; [assumption|]. rewrite Hq. reflexivity.
Defined.

(** ** Retries *)

(** Ticks of a probe until it gives up: how often its operation ran, and
    whether it is still alive *)
Fixpoint tick_all (p : probe) (dts : list Z) : outcome (Z * bool) :=
  match dts with
  | [] => Ret (0, true)
  | dt :: dts' =>
      '(p', run, ok) ← retryable_tick p dt;
      if ok : bool then '(n, alive) ← tick_all p' dts'; Ret (Z.b2z run + n, alive) else Ret (0, false)
  end.

Fixpoint elapsed (dts : list Z) : Z := match dts with [] => 0 | dt :: dts' => dt + elapsed dts' end.

Lemma elapsed_nonneg D dts : Forall (fun dt => 0 <= dt <= D) dts -> 0 <= elapsed dts.
Proof. induction 1; simpl; lia. Qed.

(** The time that is left for the remaining retries, after [r] of them, when
    the next one is due in [t] ms *)
Definition time_left (r t : Z) : Z := t + (12800 - 400 * 2 ^ r).

Record waiting (p : probe) (r : Z) : Prop := {
  wt_retries : pr_retries p = r /\ 1 <= r <= 5;
  wt_delta : pr_last_delta p = 200 * 2 ^ r;
  wt_timer : 0 < pr_retry_timer p <= pr_last_delta p
}.

Lemma arp_tick_all D dts : 0 <= D <= 1000000 -> Forall (fun dt => 0 <= dt <= D) dts -> forall p r, waiting p r ->
  exists n alive, tick_all p dts = Ret (n, alive) /\ 0 <= n <= 5 - r /\
    (alive = false -> n = 5 - r /\ time_left r (pr_retry_timer p) <= elapsed dts) /\
    (alive = true -> elapsed dts < time_left r (pr_retry_timer p) + (5 - r) * D).
Proof.
  intros HD Hall. induction Hall as [|dt dts Hdt Hall IH]; intros p r [[Hr Hr5] Hd Ht].
  - exists 0, true. split; [reflexivity|]. split; [lia|]. split; [discriminate|]. intros _. unfold time_left.
    assert (2 ^ r <= 2 ^ 5) by (apply Z.pow_le_mono_r; lia). change (2 ^ 5) with 32 in *. simpl. nia.
  - cbn [tick_all elapsed]. pose proof (elapsed_nonneg D dts Hall).
    assert (2 <= 2 ^ r <= 32) as Hpow.
    { split; [apply (Z.pow_le_mono_r 2 1 r); lia|change 32 with (2 ^ 5); apply Z.pow_le_mono_r; lia]. }
    unfold retryable_tick. rewrite (i32_Ret (_ - _)) by (unfold INT_MIN, INT_MAX; lia). cbn [mbind outcome_bind].
    destruct (Z.leb_spec (pr_retry_timer p - dt) 0) as [Hfire|Hwait].
    + destruct (Z.eq_dec r 5) as [->|Hn5].
      * rewrite Hr. change (5 >? 4) with true. cbn [mbind outcome_bind]. exists 0, false. split; [reflexivity|]. split; [lia|].
        split; [|discriminate]. intros _. split; [lia|]. unfold time_left. change (400 * 2 ^ 5) with 12800. lia.
      * rewrite Hr, Z.gtb_ltb, (proj2 (Z.ltb_ge 4 r)) by lia.
        rewrite (i32_Ret (_ * _)) by (unfold INT_MIN, INT_MAX; lia). cbn [mbind outcome_bind].
        set (p' := mk_probe (pr_ip p) (pr_waiters p) (pr_last_delta p * 2) (pr_last_delta p * 2) (r + 1)). destruct (IH p' (r + 1)) as (n & alive & E & Hn & Hdead & Hlive).
        { unfold p'. split; cbn [pr_retries pr_last_delta pr_retry_timer]; rewrite ?Z.pow_add_r by lia; lia. }
        rewrite E. cbn [mbind outcome_bind Z.b2z]. exists (1 + n), alive. split; [reflexivity|]. split; [lia|].
        unfold time_left in *. unfold p' in *. cbn [pr_retry_timer] in *. rewrite Z.pow_add_r in * by lia.
        split; intros Ha; [specialize (Hdead Ha)|specialize (Hlive Ha)]; nia.
    + cbn [mbind outcome_bind]. set (p' := mk_probe (pr_ip p) (pr_waiters p) (pr_last_delta p) (pr_retry_timer p - dt) (pr_retries p)). destruct (IH p' r) as (n & alive & E & Hn & Hdead & Hlive).
      { unfold p'. split; cbn [pr_retries pr_last_delta pr_retry_timer]; lia. }
      rewrite E. cbn [mbind outcome_bind Z.b2z]. exists (0 + n), alive. split; [reflexivity|]. split; [lia|].
      unfold time_left in *. unfold p' in *. cbn [pr_retry_timer] in *.
      split; intros Ha; [specialize (Hdead Ha)|specialize (Hlive Ha)]; lia.
Qed.

(** C23: an unanswered probe sends its request at most five times, the first
    at once and then 400, 800, 1600 and 3200 ms apart; it is not given up
    before 12.4 s have passed, is given up at most five tick intervals later,
    and has then sent exactly five requests. *)
Theorem arp_probe_gives_up (ip D : Z) (dts : list Z) :
  0 <= D <= 1000000 -> Forall (fun dt => 0 <= dt <= D) dts ->
  exists n alive, tick_all (new_probe ip) (0 :: dts) = Ret (n, alive) /\ 1 <= n <= 5 /\
    (alive = false -> n = 5 /\ 12400 <= elapsed dts) /\
    (alive = true -> elapsed dts < 12400 + 4 * D).
Proof.
  intros HD Hall. cbn [tick_all]. change (retryable_tick (new_probe ip) 0) with
    (Ret (mk_probe ip (new_fixed_pool WAITERS) 400 400 1, true, true)). cbn [mbind outcome_bind].
  set (p := mk_probe _ _ _ _ _).
  destruct (arp_tick_all D dts HD Hall p 1) as (n & alive & E & Hn & Hdead & Hlive).
  { unfold p. split; cbn [pr_retries pr_last_delta pr_retry_timer]; lia. }
  rewrite E. cbn [mbind outcome_bind Z.b2z]. exists (1 + n), alive. split; [reflexivity|]. split; [lia|].
  unfold time_left, p in *. cbn [pr_retry_timer] in *. change (400 + (12800 - 400 * 2 ^ 1)) with 12400 in *.
  split; intros Ha; [specialize (Hdead Ha)|specialize (Hlive Ha)]; lia.
Qed.

Lemma arp_probe_gives_up_witness :
  exists n alive, tick_all (new_probe 1) (0 :: replicate 30 500) = Ret (n, alive) /\ alive = false /\ n = 5.
Proof.
  destruct (arp_probe_gives_up 1 500 (replicate 30 500)) as (n & alive & E & _ & Hdead & Hlive).
  - lia.
  - apply Forall_replicate. lia.
  - exists n, alive. split; [exact E|]. change (elapsed (replicate 30 500)) with 15000 in *.
    destruct alive; [specialize (Hlive eq_refl); lia|]. split; [reflexivity|]. apply (Hdead eq_refl).
Defined.

(** ** Resolution *)

Record stack_ok (s : stack) (es : list cache_entry) (pg : gmap Z probe) : Prop := {
  so_hwaddr : zlen (hwaddr s) = 6;
  so_local : 0 <= local s < 2 ^ 32;
  so_mappings : queue.rep MAPPINGS (mappings s) es;
  so_probes : unordered_map.rep (active_probes s) pg;
  so_probes_cap : sp_capacity (active_probes s) = PROBES;
  so_wait : flip_buffer.wf WAIT_BUF (arp_wait_buffer s);
  so_wait_len : forall b, zlen (wait_bytes s b) = WAIT_BUF
}.

Lemma net_parse_arp h : zlen (sha h) = 6 -> zlen (tha h) = 6 ->
  0 <= htype h < 2 ^ 16 -> 0 <= ptype h < 2 ^ 16 -> 0 <= hlen h < 256 -> 0 <= plen h < 256 -> 0 <= oper h < 2 ^ 16 ->
  0 <= spa h < 2 ^ 32 -> 0 <= tpa h < 2 ^ 32 -> parse_arp (arp_bytes h) = h /\ zlen (arp_bytes h) = 28.
Proof.
  destruct h as [ht pt hl pl op sh sp th tp]. cbn [sha tha htype ptype hlen plen oper spa tpa].
  intros Hs Ht H1 H2 H3 H4 H5 H6 H7.
  destruct sh as [|s0 [|s1 [|s2 [|s3 [|s4 [|s5 [|]]]]]]]; try (unfold zlen in Hs; simpl in Hs; lia).
  destruct th as [|t0 [|t1 [|t2 [|t3 [|t4 [|t5 [|]]]]]]]; try (unfold zlen in Ht; simpl in Ht; lia).
  split; [|reflexivity]. unfold parse_arp, arp_bytes, read_u16, read_u32, read_addr, byte_at.
  cbn [sha tha htype ptype hlen plen oper spa tpa app nth le16 le32 Nat.add drop take].
  rewrite !of_le16_le16, !of_le32_le32, !u8_small by assumption. reflexivity.
Qed.

Definition request_frame (s : stack) (ip : Z) : list Z :=
  broadcast_address ++ hwaddr s ++ le16 (htons ET_ARP) ++
  arp_bytes (mk_arp (htons 1) (htons ET_IPV4) 6 4 (htons OP_REQUEST) (hwaddr s) (htonl (local s)) wildcard_address (htonl ip)).

(** The bytes of a reply that says [ip] is at [hw] *)
Definition reply (ip : Z) (hw : address) (to_ : address) (to_ip : Z) : list Z :=
  arp_bytes (mk_arp (htons 1) (htons ET_IPV4) 6 4 (htons OP_REPLY) hw (htonl ip) to_ (htonl to_ip)).

Lemma arp_send_request s ip : zlen (hwaddr s) = 6 -> send_request ip s = Ret (tt, add_frame (request_frame s ip) s).
Proof.
  intros Hh. unfold send_request, arp_send. step_get s. rewrite net_eth_send; [reflexivity|].
  unfold arp_bytes. cbn [sha tha htype ptype hlen plen oper spa tpa]. rewrite !zlen_app, Hh. vm_compute. congruence.
Qed.

Lemma arp_cached s es pg ip : stack_ok s es pg -> fetch_cached ip s = Ret (latest es ip None, s).
Proof. intros Hs. unfold fetch_cached. step_get s. apply net_lift. apply arp_fetch. apply Hs. Qed.

(** A first lookup registers the listener and broadcasts a request. *)
Lemma arp_fetch_network_new s es pg ip w : stack_ok s es pg -> latest es ip None = None -> pg !! ip = None ->
  Z.of_nat (base.size pg) < PROBES ->
  exists ps pr j, fetch_network ip w s = Ret (tt, add_frame (request_frame s ip) (set_probes ps s)) /\
    unordered_map.rep ps (<[ip := pr]> pg) /\ sp_capacity ps = PROBES /\ fp_model (pr_waiters pr) {[ j := w ]}.
Proof.
  intros Hs Hl Hp Hsz. pose proof Hs as [Hhw _ _ Hpr Hcap _ _]. unfold fetch_network. step_with (arp_cached s es pg ip Hs).
  rewrite Hl. step_get s. pose proof (unordered_map.um_find_rep _ _ ip Hpr) as Hf.
  destruct (unordered_map.find (active_probes s) ip) as [i|]; [destruct Hf as (v & _ & Hv); congruence|].
  pose proof (unordered_map.um_insert (active_probes s) pg ip (new_probe ip) Hpr) as Hi.
  rewrite decide_False in Hi by (rewrite Hp; intros [? [=]]). rewrite Hcap, (proj2 (Z.ltb_lt _ _)) in Hi by lia.
  destruct Hi as (ps & Ei & Hr1 & Hc1). rewrite (net_bind_Ret _ _ _ (ps, true) s (net_lift _ _ _ Ei)). cbv beta iota.
  rewrite (net_bind_Ret (sput _) _ s tt (set_probes ps s) eq_refl). cbv beta.
  pose proof (unordered_map.um_find_rep _ _ ip Hr1) as Hf1. destruct (unordered_map.find ps ip) as [i|] eqn:Efi; [|rewrite lookup_insert_eq in Hf1; discriminate].
  destruct Hf1 as (v & Ha & Hv). rewrite lookup_insert_eq in Hv. injection Hv as <-.
  destruct (fp_emplace (new_fixed_pool WAITERS) ∅ w WAITERS) as (wp & j & Ew & Hw & _ & _);
    [apply fp_new; vm_compute; congruence|reflexivity|reflexivity|].
  set (pr1 := mk_probe ip wp 200 0 0).
  destruct (unordered_map.um_set ps _ i ip _ pr1 Hr1 Ha) as (ps1 & E1 & Hr2 & Hc2). rewrite insert_insert_eq in Hr2.
  pose proof (unordered_map.um_set_at ps ps1 _ i ip _ _ Hr1 Ha E1) as Ha1.
  set (pr2 := mk_probe ip wp 400 400 1).
  destruct (unordered_map.um_set ps1 _ i ip _ pr2 Hr2 Ha1) as (ps2 & E2 & Hr3 & Hc3). rewrite insert_insert_eq in Hr3.
  assert (probe_await i w (fun p => p) (set_probes ps s) = Ret (tt, set_probes ps1 s)) as Eaw.
  { unfold probe_await. step_get (set_probes ps s). cbn [active_probes set_probes]. rewrite Ha. cbn [unordered_map.value].
    unfold retryable_await. cbn [pr_waiters new_probe pr_ip pr_last_delta pr_retry_timer pr_retries]. rewrite Ew.
    rewrite (net_bind_Ret _ _ _ pr1 (set_probes ps s) (net_lift _ _ _ eq_refl)). cbv beta.
    rewrite (net_bind_Ret _ _ _ ps1 (set_probes ps s) (net_lift _ _ _ E1)). reflexivity. }
  step_with Eaw.
  assert (probe_tick i 0 (set_probes ps1 s) = Ret (true, add_frame (request_frame s ip) (set_probes ps2 s))) as Etk.
  { unfold probe_tick. step_get (set_probes ps1 s). cbn [active_probes set_probes]. rewrite Ha1. cbn [unordered_map.value].
    rewrite (net_bind_Ret _ _ _ (pr2, true, true) (set_probes ps1 s) (net_lift _ _ _ eq_refl)). cbv beta iota.
    rewrite (net_bind_Ret _ _ _ ps2 (set_probes ps1 s) (net_lift _ _ _ E2)). cbv beta.
    rewrite (net_bind_Ret (sput _) _ _ tt (set_probes ps2 s) eq_refl). cbv beta.
    cbn [pr_ip pr2]. rewrite (net_bind_Ret _ _ _ tt _ (arp_send_request (set_probes ps2 s) ip Hhw)). reflexivity. }
  rewrite (net_bind_Ret _ _ _ _ _ Etk). cbv beta.
  exists ps2, pr2, j. split; [reflexivity|]. split; [assumption|]. split; [congruence|]. exact Hw.
Qed.

Lemma latest_snoc l e ip : forall acc,
  latest (l ++ [e]) ip acc = if ce_ipaddr e =? ip then Some (ce_hwaddr e) else latest l ip acc.
Proof. induction l as [|x l IH]; intros acc; [reflexivity|]. simpl. apply IH. Qed.

(** A datagram put into the waiting buffer can be read back from it. *)
Lemma arp_wait_store s es pg data : stack_ok s es pg -> 0 < zlen data <= WAIT_BUF ->
  exists f h b off bytes, flip_buffer.alloc WAIT_BUF (arp_wait_buffer s) (zlen data) = (f, h) /\
    wait_store h data (set_wait f (wait_bytes s) s) = Ret (set_wait f bytes s) /\
    flip_buffer.data f h = Some (b, off) /\ off + zlen data <= zlen (bytes b) /\
    take (Z.to_nat (zlen data)) (drop (Z.to_nat off) (bytes b)) = data /\
    flip_buffer.wf WAIT_BUF f /\ (forall b, zlen (bytes b) = WAIT_BUF).
Proof.
  intros [_ _ _ _ _ Hwf Hlen] Hn.
  destruct (flip_buffer.flip_alloc WAIT_BUF ltac:(unfold WAIT_BUF; lia) _ (zlen data) Hwf ltac:(lia)) as (c & f & E & Hwf1 & Hc & _ & Hcase).
  set (off := flip_buffer.size (flip_buffer.get f c) - zlen data) in *.
  set (h := flip_buffer.create_ptr (flip_buffer.tag c) (flip_buffer.generation (flip_buffer.get f c)) off) in *.
  pose proof (flip_buffer.flip_wf_get _ f c Hwf1) as [Hs1 Hg1]. pose proof (flip_buffer.flip_wf_get _ _ c Hwf) as [Hs0 _].
  assert (0 <= off) as Hoff by (unfold off; destruct Hcase as [[_ Ec]|(_ & Ec & _)]; rewrite Ec; simpl; lia).
  assert (flip_buffer.data f h = Some (c, off)) as Hd.
  { unfold h. rewrite (flip_buffer.flip_data WAIT_BUF) by (assumption || unfold WAIT_BUF in *; lia).
    rewrite Z.eqb_refl, (proj2 (Z.ltb_lt _ _)) by lia. reflexivity. }
  assert (off + zlen data <= WAIT_BUF) as Hend by (unfold off; lia).
  pose proof (Hlen c) as Hlc.
  set (d := blit (wait_bytes s c) (Z.to_nat off) data).
  assert (zlen d = WAIT_BUF) as Hdl by (unfold d, zlen in *; rewrite length_blit; lia).
  exists f, h, c, off, (fun b' => if Bool.eqb c b' then d else wait_bytes s b'). split; [exact E|]. split; [|split; [|split; [|split; [|split]]]].
  - unfold wait_store. cbn [arp_wait_buffer set_wait wait_bytes]. rewrite Hd, arr_blit_Ret by lia.
    unfold zlen at 1. rewrite Nat2Z.id, firstn_all. reflexivity.
  - exact Hd.
  - rewrite Bool.eqb_reflx. lia.
  - rewrite Bool.eqb_reflx. unfold d, blit. unfold zlen in *.
    rewrite drop_app_length' by (rewrite length_take; lia). rewrite Nat2Z.id. apply take_app_length'. reflexivity.
  - exact Hwf1.
  - intros b. destruct (Bool.eqb c b); [exact Hdl|apply Hlen].
Qed.

Definition next_hop (s : stack) (dst : Z) : Z :=
  if Z.land (local s) (netmask s) =? Z.land dst (netmask s) then dst else default_gateway s.


Lemma host_ok hw ip : zlen hw = 6 -> 0 <= ip < 2 ^ 32 -> stack_ok (host hw ip) [] ∅.
Proof.
  intros Hh Hip. split; cbn [hwaddr local mappings active_probes arp_wait_buffer wait_bytes host set_config eth_configure set_hwaddr init].
  - assumption.
  - assumption.
  - apply queue.queue_rep_init; [apply MAPPINGS_pos|reflexivity].
  - apply unordered_map.um_new. apply fp_new. vm_compute. congruence.
  - reflexivity.
  - apply flip_buffer.flip_wf_init. vm_compute. split; congruence.
  - intros b. reflexivity.
Qed.


(** ** The tick of all probes

    The loop goes over the probes while it erases those that have given up.
    Erasing the last one of the pool makes the pass start again, so a tick may
    count more than once for the others; it ends all the same, since every new
    start has removed a probe. *)

(** A probe whose remaining doublings stay within an [int] *)
Record fine_probe (p : probe) : Prop := {
  fp_retries : 0 <= pr_retries p <= 5;
  fp_timer : 0 <= pr_retry_timer p <= INT_MAX;
  fp_delta : 0 <= pr_last_delta p /\ pr_last_delta p * 2 ^ (5 - pr_retries p) <= INT_MAX
}.

Lemma new_probe_fine ip : fine_probe (new_probe ip).
Proof. split; cbn [new_probe pr_retries pr_retry_timer pr_last_delta]; unfold INT_MAX; lia. Qed.

Lemma retryable_tick_fine p dt : fine_probe p -> 0 <= dt <= INT_MAX ->
  exists p' run ok, retryable_tick p dt = Ret (p', run, ok) /\ (ok = true -> fine_probe p').
Proof.
  intros [Hr Ht [Hd Hmax]] Hdt. assert (INT_MIN = -1 - INT_MAX) as Hmin by reflexivity.
  unfold retryable_tick. rewrite (i32_Ret (_ - _)) by (clear Hmax; lia). rewrite mbind_Ret.
  destruct (Z.leb_spec (pr_retry_timer p - dt) 0) as [Hfire|Hwait].
  - rewrite Z.gtb_ltb. destruct (Z.ltb_spec 4 (pr_retries p)) as [Hlast|Hmore].
    + eexists _, _, _. split; [reflexivity|discriminate].
    + assert (pr_last_delta p * 2 * 2 ^ (5 - (pr_retries p + 1)) <= INT_MAX) as Hmax2.
      { replace (5 - pr_retries p) with (Z.succ (5 - (pr_retries p + 1))) in Hmax by lia. rewrite Z.pow_succ_r in Hmax by lia. nia. }
      pose proof (Z.pow_pos_nonneg 2 (5 - (pr_retries p + 1)) ltac:(lia) ltac:(lia)).
      rewrite i32_Ret by nia. rewrite mbind_Ret. eexists _, _, _. split; [reflexivity|]. intros _.
      split; cbn [pr_retries pr_retry_timer pr_last_delta]; nia.
  - eexists _, _, _. split; [reflexivity|]. intros _. split; cbn [pr_retries pr_retry_timer pr_last_delta]; lia.
Qed.

Lemma run_waiter_none w s : run_waiter w None s = Ret (tt, s).
Proof. destruct w; reflexivity. Qed.

Lemma notify_all_none p s : notify_all p None s = Ret (tt, s).
Proof.
  unfold notify_all. induction (pool.entries U16_MAX (pr_waiters p)) as [|[i w] l IH]; [reflexivity|]. cbn [sforeach].
  rewrite run_waiter_none. exact IH.
Qed.

Record tickable (s : stack) (m : gmap Z (unordered_map.entry (K := Z) (V := probe))) : Prop := {
  tk_probes : fpm PROBES (active_probes s) m;
  tk_hwaddr : zlen (hwaddr s) = 6
}.

Definition fine_probes (m : gmap Z (unordered_map.entry (K := Z) (V := probe))) : Prop := map_Forall (fun _ e => fine_probe (unordered_map.value e)) m.

Lemma probe_tick_returns s m i e dt : tickable s m -> m !! i = Some e -> fine_probe (unordered_map.value e) -> 0 <= dt <= INT_MAX ->
  exists ok s' e', probe_tick i dt s = Ret (ok, s') /\ tickable s' (<[i := e']> m) /\ (ok = true -> fine_probe (unordered_map.value e')).
Proof.
  intros [Hm Hh] Hi Hf Hdt. unfold probe_tick. step_get s.
  change (sp_at (active_probes s) i) with (pool.at_ U16_MAX (active_probes s) i). rewrite (fpm_at _ _ _ _ Hm), Hi.
  destruct (retryable_tick_fine _ dt Hf Hdt) as (p' & run & ok & Et & Hok).
  rewrite (net_bind_Ret _ _ _ _ s (net_lift _ _ _ Et)). cbv beta iota.
  set (f := fun e => unordered_map.mk_entry (unordered_map.key e) p').
  destruct (fpm_modify _ _ _ _ _ f Hm Hi) as (ps & Ep & Hm' & _).
  change (sp_modify (active_probes s) i f) with (pool.modify U16_MAX (active_probes s) i f).
  rewrite (net_bind_Ret _ _ _ ps s (net_lift _ _ _ Ep)). cbv beta.
  rewrite (net_bind_Ret (sput _) _ s tt (set_probes ps s) eq_refl). cbv beta. destruct run.
  - rewrite (net_bind_Ret _ _ _ tt _ (arp_send_request (set_probes ps s) (pr_ip p') Hh)).
    eexists ok, _, (f e). split; [reflexivity|]. split; [split; assumption|exact Hok].
  - rewrite (net_bind_Ret _ _ _ tt (set_probes ps s) eq_refl).
    eexists ok, _, (f e). split; [reflexivity|]. split; [split; assumption|exact Hok].
Qed.

(** The rounds that are left: a pass to the end of the pool, and a whole one
    for each other probe that may be removed on the way *)
Definition rounds (m : gmap Z (unordered_map.entry (K := Z) (V := probe))) (it : Z) : Z := PROBES - it + PROBES * (Z.of_nat (base.size m) - 1).

Lemma arp_tick_loop_returns delta : 0 <= delta <= INT_MAX -> forall fuel it s m, tickable s m -> fine_probes m ->
  0 <= it -> (it <> pool.it_end (active_probes s) -> is_Some (m !! it)) -> (0 < fuel)%nat ->
  (is_Some (m !! it) -> rounds m it < Z.of_nat fuel) ->
  exists s' m', arp_tick_loop fuel it delta s = Ret (tt, s') /\ tickable s' m' /\ fine_probes m'.
Proof.
  intros Hd fuel. induction fuel as [|fuel IH]; intros it s m Hs Hf Hit Hlive Hpos Hfuel; [lia|]. cbn [arp_tick_loop]. step_get s.
  destruct (Z.eqb_spec it (pool.it_end (active_probes s))) as [_|Hne]; [exists s, m; auto|].
  destruct (Hlive Hne) as [e He]. specialize (Hfuel (ex_intro _ e He)). pose proof (fpm_dom_cap _ _ _ _ _ (tk_probes _ _ Hs) He) as Hlt.
  assert (1 <= Z.of_nat (base.size m)) as Hsz.
  { assert (base.size m <> 0%nat); [|lia]. rewrite map_size_non_empty_iff. intros ->. discriminate He. }
  assert (to_i32 delta = delta) as -> by (unfold to_i32, u32, INT_MAX in *; rewrite Z.mod_small by lia; destruct (Z.ltb_spec delta (2 ^ 31)); lia).
  destruct (probe_tick_returns s m it e delta Hs He (Hf it e He) Hd) as (ok & s1 & e1 & E1 & Hs1 & Hok). step_with E1. destruct ok.
  - rewrite (net_bind_Ret _ _ s1 tt s1 eq_refl). cbv beta. step_get s1.
    destruct (fpm_it_next _ _ _ it (tk_probes _ _ Hs1) ltac:(lia)) as (Hup & Hrange & Hnext).
    specialize (Hup ltac:(rewrite lookup_insert_eq; eauto)). apply (IH _ s1 _ Hs1); [|lia|exact Hnext|unfold rounds, PROBES in *; lia|].
    + apply map_Forall_insert_2; auto.
    + intros _. unfold rounds, PROBES in *. rewrite map_size_insert_Some by eauto. lia.
  - destruct (fpm_erase _ _ _ _ _ (tk_probes _ _ Hs1) (lookup_insert_eq m it e1)) as (ps & Ee & Hps).
    rewrite delete_insert_eq in Hps. set (s2 := set_probes ps s1).
    assert (tickable s2 (delete it m)) as Hs2 by (split; [exact Hps|exact (tk_hwaddr _ _ Hs1)]).
    match goal with |- context [mbind _ ?f s1] => assert (f s1 = Ret (tt, s2)) as Edrop end.
    { step_get s1. change (sp_at (active_probes s1) it) with (pool.at_ U16_MAX (active_probes s1) it).
      rewrite (fpm_at _ _ _ _ (tk_probes _ _ Hs1)), lookup_insert_eq. rewrite (net_bind_Ret _ _ _ tt s1 (notify_all_none _ s1)). cbv beta. step_get s1.
      rewrite (net_bind_Ret _ _ _ ps s1 (net_lift _ _ _ Ee)). reflexivity. }
    step_with Edrop. step_get s2.
    destruct (fpm_it_next _ _ _ it (tk_probes _ _ Hs2) ltac:(lia)) as (_ & Hrange & Hnext).
    apply (IH _ s2 _ Hs2); [|lia|exact Hnext|unfold rounds, PROBES in *; lia|].
    + apply map_Forall_delete. exact Hf.
    + intros _. unfold rounds, PROBES in *. rewrite map_size_delete_Some by eauto. lia.
Qed.

(** Every tick ends, within the rounds [arp_tick] provides. *)
Theorem arp_tick_returns delta s m : tickable s m -> fine_probes m -> 0 <= delta <= INT_MAX ->
  exists s' m', arp_tick delta s = Ret (tt, s') /\ tickable s' m' /\ fine_probes m'.
Proof.
  intros Hs Hf Hd. unfold arp_tick. step_get s. destruct (fpm_it_begin _ _ _ (tk_probes _ _ Hs)) as [Hb Hlive].
  apply (arp_tick_loop_returns delta Hd _ _ s m Hs Hf); [lia|exact Hlive|vm_compute; lia|].
  intros _. pose proof (fpm_size _ _ _ (tk_probes _ _ Hs)). change (Z.of_nat TICK_ROUNDS) with (PROBES * PROBES + 1). unfold rounds, PROBES in *. lia.
Qed.

(** Two probes; the second one is given up in a tick of 1 ms, which is then
    counted twice for the first one. *)
Definition two_probes : outcome (unordered_map.t (P := fixed_pool) (K := Z) (V := probe)) :=
  '(ps, _) ← unordered_map.insert (new_fixed_pool PROBES) 1 (mk_probe 1 (new_fixed_pool WAITERS) 400 400 1);
  '(ps, _) ← unordered_map.insert ps 2 (mk_probe 2 (new_fixed_pool WAITERS) 6400 1 5); Ret ps.

Definition after_tick (delta : Z) (ps : outcome (unordered_map.t (P := fixed_pool) (K := Z) (V := probe))) :
    option (option Z * bool) :=
  match ps with
  | Ret ps =>
      match arp_tick delta (set_probes ps (host [2; 0; 0; 0; 0; 1] 5)) with
      | Ret (_, s') => Some ((fun e => pr_retry_timer (unordered_map.value e)) <$> sp_at (active_probes s') 0,
                             pool.valid U16_MAX (active_probes s') 1)
      | _ => None
      end
  | _ => None
  end.

(** The first probe had 400 ms to go. *)
Lemma arp_tick_repeats : after_tick 1 two_probes = Some (Some 398, false).
Proof. vm_compute. reflexivity. Qed.
