(* ===== verification/Text.v ===== *)
(** * Strings and formatting (libraries/support/{string.h,string.cc,format.h,
      filesystem.h}, the string functions of net/ipv4/utils.cc and
      net/ethernet/utils.cc, kernel/tar.cc)

    A [p2::string] is an array of characters with a position; its text is what
    lies before the position and its C string what lies before the first NUL,
    and the two can differ.  A C string argument is the list of its characters,
    without the terminator. *)

From S2P Require Import Prelude.
#[local] Open Scope Z_scope.

Module str.

Record t := mk { storage : list Z; position : Z }.
Implicit Type s : t.

Definition capacity s : Z := zlen (storage s).
Definition size s : Z := position s.

(** [string()] on uninitialised storage *)
Definition new (junk : list Z) : outcome t :=
  passert (zlen junk >? 0);;
  st ← arr_set junk 0 0;
  Ret (mk st 0).

(** [append(char)] *)
Definition append s (c : Z) : outcome t :=
  passert (position s + 1 <? capacity s);;
  st ← arr_set (storage s) (position s) c;
  st ← arr_set st (position s + 1) 0;
  Ret (mk st (position s + 1)).

(** [append] of a C string *)
Fixpoint append_str s (cs : list Z) : outcome t :=
  match cs with
  | [] => Ret s
  | c :: cs' => s' ← append s c; append_str s' cs'
  end.

(** [string(other, max_length)]: the storage is not touched
    when nothing is appended. *)
Definition from_cstr (junk cs : list Z) (max_length : Z) : outcome t :=
  let max_length := Z.min max_length (zlen junk - 1) in
  append_str (mk junk 0) (take (Z.to_nat max_length) cs).

(** [string(other)] with the default length *)
Definition from_cstr_all (junk cs : list Z) : outcome t := from_cstr junk cs (zlen junk - 1).

(** [string(const string &)] *)
Definition copy (junk : list Z) (other : t) : outcome t :=
  append_str (mk junk 0) (take (Z.to_nat (position other)) (storage other)).

(** [operator =]: the position is reset, the storage is not *)
Definition assign s (other : t) : outcome t :=
  append_str (mk (storage s) 0) (take (Z.to_nat (position other)) (storage other)).

Definition clear s : outcome t := st ← arr_set (storage s) 0 0; Ret (mk st 0).

Definition backspace s : outcome t :=
  if position s >? 0 then
    st ← arr_set (storage s) (position s - 1) 0; Ret (mk st (position s - 1))
  else Ret s.

(** [operator []] *)
Definition at_ s (idx : Z) : outcome Z := arr_get (storage s) idx.

(** What a reader of [c_str()] sees: the characters before the first NUL *)
Fixpoint until_nul (l : list Z) : outcome (list Z) :=
  match l with
  | [] => Undef
  | c :: l' => if c =? 0 then Ret [] else r ← until_nul l'; Ret (c :: r)
  end.

Definition c_str s : outcome (list Z) := until_nul (storage s).

(** [operator ==] *)
Fixpoint eq_loop (l r : list Z) : bool :=
  match l, r with
  | [], _ => true
  | c :: l', d :: r' => if negb (c =? d) then false else eq_loop l' r'
  | _ :: _, [] => false
  end.

Definition eqb s (rhs : t) : bool :=
  if negb (size rhs =? size s) then false
  else eq_loop (take (Z.to_nat (position s)) (storage s)) (take (Z.to_nat (position rhs)) (storage rhs)).

(** [while (_storage_ref[pos] != c && pos-- > 0);] *)
Fixpoint find_loop (fuel : nat) (st : list Z) (c pos : Z) : outcome Z :=
  match fuel with
  | O => NoFuel
  | S fuel' =>
      x ← arr_get st pos;
      if x =? c then Ret pos
      else if pos >? 0 then find_loop fuel' st c (pos - 1) else Ret (pos - 1)
  end.

Definition find_last_of s (c : Z) : outcome Z := find_loop (S (Z.to_nat (position s))) (storage s) c (position s).

(** ** Numbers *)

Definition digit_as_char (digit radix : Z) : Z :=
  if radix =? 10 then 48 + digit
  else if radix =? 16 then (if digit <? 10 then 48 + digit else 65 + digit - 10)
  else 63.

Definition isdigit (c : Z) : bool := (c >=? 48) && (c <=? 57).

(** [while (value_left) { value_left /= radix; ++width; }]; 64 bits have at
    most 64 digits. *)
Fixpoint count_digits (fuel : nat) (value_left radix width : Z) : outcome Z :=
  match fuel with
  | O => NoFuel
  | S fuel' =>
      if value_left =? 0 then Ret width else count_digits fuel' (value_left / radix) radix (width + 1)
  end.

Definition number_width (value width radix : Z) : outcome Z :=
  if width =? -1 then count_digits 65 (value / radix) radix 1 else Ret width.

(** [while (pos >= start_pos)], from the last position to the first *)
Fixpoint write_digits (cells : nat) (st : list Z) (start value radix : Z) : outcome (list Z) :=
  match cells with
  | O => Ret st
  | S cells' =>
      st' ← arr_set st (start + Z.of_nat cells') (digit_as_char (value mod radix) radix);
      if value / radix =? 0 then Ret st' else write_digits cells' st' start (value / radix) radix
  end.

(** [append(uint64_t value, int width, int radix, char padding)] *)
Definition append_num s (value width radix padding : Z) : outcome t :=
  let start := position s in
  width ← number_width value width radix;
  s ← append_str s (replicate (Z.to_nat width) padding);
  st ← write_digits (Z.to_nat (position s - start)) (storage s) start value radix;
  Ret (mk st (position s)).

(** ** The text of a string *)

Record rep s (l : list Z) : Prop := {
  rep_text : take (length l) (storage s) = l;
  rep_position : position s = zlen l;
  rep_nul : znth (storage s) (zlen l) = Some 0
}.

Lemma str_rep_room s l : rep s l -> zlen l < capacity s.
Proof. intros [_ _ H]. apply znth_Some_lt in H. unfold capacity. lia. Qed.

(** The storage of a string with text [l] *)
Lemma str_rep_split s l : rep s l -> exists rest, storage s = l ++ 0 :: rest.
Proof.
  intros Hr. pose proof (str_rep_room s l Hr) as Hroom. destruct Hr as [Ht _ Hn].
  assert (length l < length (storage s))%nat as Hlt by (unfold capacity, zlen in Hroom; lia).
  rewrite <-(take_drop (length l) (storage s)), Ht.
  destruct (drop (length l) (storage s)) as [|c rest] eqn:E.
  - apply (f_equal length) in E. rewrite length_drop in E. simpl in E. lia.
  - exists rest. f_equal. f_equal.
    assert (storage s !! length l = Some c) as Hc by (rewrite <-(Nat.add_0_r (length l)), <-lookup_drop, E; reflexivity).
    unfold zlen in Hn. rewrite znth_of_nat, Hc in Hn. congruence.
Qed.

Lemma str_rep_intro l rest : rep (mk (l ++ 0 :: rest) (zlen l)) l.
Proof.
  split; cbn [storage position]; [apply take_app_length|reflexivity|].
  rewrite znth_app_r, Z.sub_diag by lia. reflexivity.
Qed.

Lemma str_new junk : 0 < zlen junk -> exists s, new junk = Ret s /\ rep s [] /\ capacity s = zlen junk.
Proof.
  intros H. unfold new. rewrite (passert_true (zlen junk >? 0)) by lia. rewrite mbind_Ret, arr_set_Ret, mbind_Ret by lia.
  eexists. split; [reflexivity|]. split; [|unfold capacity; simpl; apply zlen_zset].
  split; cbn [storage position]; [reflexivity|reflexivity|]. apply znth_zset_eq. change (zlen []) with 0. lia.
Qed.

Lemma str_set_mid (l rest : list Z) c d : zset (l ++ c :: rest) (zlen l) d = l ++ d :: rest.
Proof.
  unfold zset. rewrite (proj2 (Z.leb_le _ _)) by apply zlen_nonneg. unfold zlen. rewrite Nat2Z.id.
  rewrite insert_app_r_alt by lia. rewrite Nat.sub_diag. reflexivity.
Qed.

(** Appending works while there is room for the terminator. *)
Lemma str_append_gen l rest c d p : p = zlen l ->
  append (mk (l ++ c :: rest) p) d =
  match rest with [] => Panic | _ :: rest' => Ret (mk ((l ++ [d]) ++ 0 :: rest') (zlen (l ++ [d]))) end.
Proof.
  intros ->. unfold append, capacity. cbn [storage position]. rewrite zlen_app, zlen_cons. pose proof (zlen_nonneg l).
  destruct rest as [|e rest].
  - rewrite passert_false; [reflexivity|]. change (zlen []) with 0. lia.
  - rewrite zlen_cons. pose proof (zlen_nonneg rest). rewrite passert_true by lia. rewrite mbind_Ret.
    rewrite arr_set_Ret by (rewrite zlen_app, !zlen_cons; lia). rewrite mbind_Ret, str_set_mid.
    rewrite arr_set_Ret by (rewrite zlen_app, !zlen_cons; lia). rewrite mbind_Ret.
    assert (zlen l + 1 = zlen (l ++ [d])) as -> by (rewrite zlen_app; reflexivity).
    replace (l ++ d :: e :: rest) with ((l ++ [d]) ++ e :: rest) by (rewrite <-app_assoc; reflexivity).
    rewrite str_set_mid. reflexivity.
Qed.

Lemma str_append s l c : rep s l ->
  if zlen l + 1 <? capacity s then exists s', append s c = Ret s' /\ rep s' (l ++ [c]) /\ capacity s' = capacity s
  else append s c = Panic.
Proof.
  intros Hr. destruct (str_rep_split s l Hr) as [rest Hst]. pose proof (rep_position _ _ Hr) as Hp.
  destruct s as [st p]. unfold capacity in *. cbn [storage position] in *. subst st.
  rewrite (str_append_gen l rest 0 c p Hp). rewrite zlen_app, zlen_cons.
  destruct rest as [|d rest].
  - change (zlen []) with 0. rewrite (proj2 (Z.ltb_ge _ _)) by lia. reflexivity.
  - rewrite zlen_cons. pose proof (zlen_nonneg rest). rewrite (proj2 (Z.ltb_lt _ _)) by lia.
    eexists. split; [reflexivity|]. split; [apply str_rep_intro|]. cbn [storage]. rewrite !zlen_app, !zlen_cons.
    change (zlen []) with 0. lia.
Qed.

Lemma str_append_str cs : forall s l, rep s l ->
  if zlen l + zlen cs <? capacity s then exists s', append_str s cs = Ret s' /\ rep s' (l ++ cs) /\ capacity s' = capacity s
  else append_str s cs = Panic.
Proof.
  induction cs as [|c cs IH]; intros s l Hr; cbn [append_str].
  - pose proof (str_rep_room s l Hr). change (zlen []) with 0. rewrite (proj2 (Z.ltb_lt _ _)) by lia.
    exists s. rewrite app_nil_r. auto.
  - pose proof (str_append s l c Hr) as H1. rewrite zlen_cons. pose proof (zlen_nonneg cs).
    destruct (Z.ltb_spec (zlen l + 1) (capacity s)).
    + destruct H1 as (s1 & -> & Hr1 & Hc1). cbn [mbind outcome_bind]. specialize (IH s1 _ Hr1).
      rewrite zlen_app, Hc1 in IH. change (zlen [c]) with 1 in IH. rewrite <-app_assoc in IH.
      replace (zlen l + (zlen cs + 1)) with (zlen l + 1 + zlen cs) by lia. exact IH.
    + rewrite H1, (proj2 (Z.ltb_ge _ _)) by lia. reflexivity.
Qed.

(** Appending to storage that is not terminated yet *)
Lemma str_append_junk junk cs : 0 < zlen cs < zlen junk ->
  exists s, append_str (mk junk 0) cs = Ret s /\ rep s cs.
Proof.
  intros H. destruct cs as [|c cs]; [unfold zlen in H; simpl in H; lia|]. destruct junk as [|j [|j' junk]];
    try (unfold zlen in H; simpl in H; lia).
  cbn [append_str]. pose proof (str_append_gen [] (j' :: junk) j c 0 eq_refl) as E. cbn [app] in E. rewrite E.
  rewrite mbind_Ret. pose proof (str_append_str cs _ [c] (str_rep_intro [c] junk)) as Ha.
  unfold capacity in Ha. cbn [storage app] in Ha. rewrite !zlen_cons in *. change (zlen []) with 0 in Ha.
  rewrite (proj2 (Z.ltb_lt _ _)) in Ha by lia. destruct Ha as (s & Es & Hr & _). exists s. auto.
Qed.

Lemma str_c_str s l : rep s l -> ~ (0 ∈ l) -> c_str s = Ret l.
Proof.
  intros Hr Hn. destruct (str_rep_split s l Hr) as [rest Hst]. unfold c_str. rewrite Hst. clear -Hn.
  induction l as [|c l IH]; [reflexivity|]. cbn [app until_nul].
  rewrite (proj2 (Z.eqb_neq c 0)) by (intros ->; apply Hn, list_elem_of_here).
  rewrite IH by (intros Hin; apply Hn, list_elem_of_further, Hin). reflexivity.
Qed.

(** ** The digits of a number, least significant first *)

Fixpoint digits_rev (fuel : nat) (radix v : Z) : list Z :=
  match fuel with
  | O => []
  | S fuel' => v mod radix :: (if v / radix =? 0 then [] else digits_rev fuel' radix (v / radix))
  end.

Lemma digits_rev_S k radix v :
  digits_rev (S k) radix v = v mod radix :: (if v / radix =? 0 then [] else digits_rev k radix (v / radix)).
Proof. reflexivity. Qed.

(** The fuel is enough for 64 bits in any radix. *)
Definition digits (radix v : Z) : list Z := rev (digits_rev 65 radix v).

Definition chars (radix : Z) (ds : list Z) : list Z := (fun d => digit_as_char d radix) <$> ds.

(** The number a list of digits denotes, most significant first *)
Definition value_of (radix : Z) (ds : list Z) : Z := fold_left (fun a d => a * radix + d) ds 0.

Section digits.
Variable radix : Z.
Hypothesis radix_ge : 2 <= radix.

Lemma str_div_halves v k : 0 <= v < 2 ^ Z.of_nat (S k) -> 0 <= v / radix < 2 ^ Z.of_nat k.
Proof.
  intros [H0 H1]. split; [apply Z.div_pos; lia|]. apply Z.div_lt_upper_bound; [lia|].
  rewrite Nat2Z.inj_succ, Z.pow_succ_r in H1 by lia. pose proof (Z.pow_nonneg 2 (Z.of_nat k)). nia.
Qed.

Lemma str_value_of_snoc ds d : value_of radix (ds ++ [d]) = value_of radix ds * radix + d.
Proof. unfold value_of. rewrite fold_left_app. reflexivity. Qed.

Lemma str_digits_value k : forall v, 0 <= v < 2 ^ Z.of_nat (S k) -> value_of radix (rev (digits_rev (S k) radix v)) = v.
Proof.
  induction k as [|k IH]; intros v Hv; rewrite digits_rev_S; cbn [rev]; rewrite str_value_of_snoc;
    pose proof (Z.div_mod v radix ltac:(lia)) as Hdm.
  - change (Z.of_nat 1) with 1 in Hv. assert (v / radix = 0) as E by (apply Z.div_small; lia). rewrite E in *. simpl. unfold value_of. simpl. lia.
  - destruct (Z.eqb_spec (v / radix) 0) as [E|E]; [rewrite E in *; unfold value_of; simpl; lia|].
    rewrite IH by (apply str_div_halves; assumption). lia.
Qed.

(** No leading zero, except in the number zero *)
Lemma str_digits_lead k : forall v, 0 <= v < 2 ^ Z.of_nat (S k) ->
  exists d ds, rev (digits_rev (S k) radix v) = d :: ds /\ (d = 0 -> v = 0 /\ ds = []).
Proof.
  induction k as [|k IH]; intros v Hv; rewrite digits_rev_S; cbn [rev].
  - change (Z.of_nat 1) with 1 in Hv. assert (v / radix = 0) as E by (apply Z.div_small; lia). rewrite E. simpl.
    exists (v mod radix), []. split; [reflexivity|]. intros Hm. pose proof (Z.div_mod v radix ltac:(lia)). split; [lia|reflexivity].
  - destruct (Z.eqb_spec (v / radix) 0) as [E|E].
    + exists (v mod radix), []. split; [reflexivity|]. intros Hm. pose proof (Z.div_mod v radix ltac:(lia)). split; [lia|reflexivity].
    + destruct (IH (v / radix)) as (d & ds & -> & Hd); [apply str_div_halves; assumption|].
      exists d, (ds ++ [v mod radix]). split; [reflexivity|]. intros H0. destruct (Hd H0). contradiction.
Qed.

Lemma str_digits_range k : forall v, Forall (fun d => 0 <= d < radix) (digits_rev k radix v).
Proof.
  induction k as [|k IH]; intros v; cbn [digits_rev]; [constructor|]. constructor; [apply Z.mod_pos_bound; lia|].
  destruct (_ =? 0); [constructor|apply IH].
Qed.

Lemma str_count k : forall v w, 0 <= v < 2 ^ Z.of_nat k ->
  count_digits (S k) v radix w = Ret (w + zlen (if v =? 0 then [] else digits_rev k radix v)).
Proof.
  induction k as [|k IH]; intros v w Hv.
  - change (2 ^ Z.of_nat 0) with 1 in Hv. assert (v = 0) as -> by lia. cbn. f_equal. unfold zlen. simpl. lia.
  - change (count_digits (S (S k)) v radix w) with (if v =? 0 then Ret w else count_digits (S k) (v / radix) radix (w + 1)). destruct (Z.eqb_spec v 0) as [->|Hne]; [f_equal; unfold zlen; simpl; lia|].
    rewrite IH by (apply str_div_halves; assumption). rewrite digits_rev_S, zlen_cons. f_equal. lia.
Qed.

(** The loop that writes the digits over the padding *)
Lemma str_write_digits n : forall pre region post v fuel, length region = n -> 0 <= v < 2 ^ Z.of_nat fuel -> (0 < fuel)%nat ->
  write_digits n (pre ++ region ++ post) (zlen pre) v radix =
  Ret (pre ++ (take (n - length (digits_rev fuel radix v)) region ++ chars radix (rev (take n (digits_rev fuel radix v)))) ++ post).
Proof.
  induction n as [|n IH]; intros pre region post v fuel Hr Hv Hf.
  - destruct region; [|discriminate Hr]. cbn [write_digits]. rewrite take_nil, take_0. reflexivity.
  - destruct region as [|x region' _] using rev_ind; [discriminate Hr|].
    rewrite length_app in Hr. simpl in Hr. cbn [write_digits].
    assert (zlen pre + Z.of_nat n = zlen (pre ++ region')) as Ei by (rewrite zlen_app; unfold zlen; lia).
    replace (pre ++ (region' ++ [x]) ++ post) with ((pre ++ region') ++ x :: post) by (rewrite <-!app_assoc; reflexivity).
    rewrite Ei. rewrite arr_set_Ret by (rewrite !zlen_app, zlen_cons; pose proof (zlen_nonneg pre); pose proof (zlen_nonneg region'); pose proof (zlen_nonneg post); lia).
    rewrite mbind_Ret, str_set_mid. destruct fuel as [|fuel]; [lia|]. cbn [digits_rev].
    destruct (Z.eqb_spec (v / radix) 0) as [E|E].
    + cbn [length take rev app chars fmap list_fmap]. rewrite Nat.sub_succ, Nat.sub_0_r, take_app_le by lia.
      rewrite (take_ge region') by lia. rewrite take_nil. cbn [rev app fmap list_fmap]. rewrite <-!app_assoc. reflexivity.
    + replace ((pre ++ region') ++ digit_as_char (v mod radix) radix :: post)
        with (pre ++ region' ++ (digit_as_char (v mod radix) radix :: post)) by (rewrite <-!app_assoc; reflexivity).
      assert (0 < fuel)%nat as Hf'.
      { destruct fuel; [|lia]. change (2 ^ Z.of_nat 1) with 2 in Hv. exfalso. apply E, Z.div_small. lia. }
      rewrite (IH pre region' (digit_as_char (v mod radix) radix :: post) (v / radix) fuel) by (lia || (apply str_div_halves; assumption)).
      do 2 f_equal. cbn [length take rev]. unfold chars. rewrite fmap_app. rewrite Nat.sub_succ. rewrite <-!app_assoc.
      rewrite take_app_le by lia. reflexivity.
Qed.
End digits.

(** What a number contributes: its digits, padded or cut to the width *)
Definition number_text (v width radix padding : Z) : list Z :=
  if width =? -1 then chars radix (digits radix v)
  else replicate (Z.to_nat width - length (digits radix v)) padding ++
       chars radix (drop (length (digits radix v) - Z.to_nat width) (digits radix v)).

Lemma str_rev_take {A} n (l : list A) : rev (take n l) = drop (length l - n) (rev l).
Proof.
  destruct (decide (n <= length l)%nat).
  - rewrite <-(take_drop n l) at 3. rewrite rev_app_distr, drop_app_length'; [reflexivity|].
    rewrite length_rev, length_drop. reflexivity.
  - rewrite take_ge by lia. replace (length l - n)%nat with 0%nat by lia. reflexivity.
Qed.

Lemma str_number_width v width radix : 2 <= radix -> 0 <= v < 2 ^ 64 ->
  number_width v width radix = Ret (if width =? -1 then zlen (digits radix v) else width).
Proof.
  intros Hr Hv. unfold number_width. destruct (Z.eqb_spec width (-1)) as [->|]; [|reflexivity].
  rewrite (str_count radix Hr 64).
  - unfold digits, zlen. rewrite length_rev, (digits_rev_S 64).
    destruct (v / radix =? 0); cbn [length]; apply f_equal; lia.
  - split; [apply Z.div_pos; lia|]. apply Z.div_lt_upper_bound; [lia|]. change (Z.of_nat 64) with 64. lia.
Qed.

Lemma str_digits_65 v : 0 <= v < 2 ^ 64 -> 0 <= v < 2 ^ Z.of_nat 65.
Proof. change (Z.of_nat 65) with 65. lia. Qed.

Lemma str_append_num s l v width radix padding : rep s l -> 2 <= radix -> 0 <= v < 2 ^ 64 -> -1 <= width ->
  if zlen l + zlen (number_text v width radix padding) <? capacity s then
    exists s', append_num s v width radix padding = Ret s' /\
      rep s' (l ++ number_text v width radix padding) /\ capacity s' = capacity s
  else append_num s v width radix padding = Panic.
Proof.
  intros Hr Hrad Hv Hw. unfold append_num. rewrite str_number_width, mbind_Ret by assumption.
  set (w := if width =? -1 then zlen (digits radix v) else width).
  assert (0 <= w) as Hw0 by (unfold w; destruct (Z.eqb_spec width (-1)); [apply zlen_nonneg|lia]).
  set (dr := digits_rev 65 radix v).
  assert (number_text v width radix padding =
    take (Z.to_nat w - length dr) (replicate (Z.to_nat w) padding) ++ chars radix (rev (take (Z.to_nat w) dr))) as Htext.
  { unfold number_text, w. fold dr. rewrite take_replicate. destruct (Z.eqb_spec width (-1)) as [->|].
    - unfold digits. fold dr. unfold zlen. rewrite Nat2Z.id, length_rev, Nat.sub_diag, take_ge by lia. reflexivity.
    - unfold digits. fold dr. rewrite str_rev_take, length_rev. f_equal. f_equal. lia. }
  assert (zlen (number_text v width radix padding) = w) as Hlen.
  { rewrite Htext, zlen_app. unfold zlen, chars. rewrite length_fmap, length_rev, !length_take, length_replicate. lia. }
  rewrite Hlen. pose proof (str_append_str (replicate (Z.to_nat w) padding) s l Hr) as Ha.
  rewrite zlen_replicate, Z2Nat.id in Ha by lia. destruct (zlen l + w <? capacity s); [|rewrite Ha; reflexivity].
  destruct Ha as (s1 & -> & Hr1 & Hc1). rewrite mbind_Ret. destruct (str_rep_split _ _ Hr1) as [rest Hst].
  rewrite (rep_position _ _ Hr), (rep_position _ _ Hr1), Hst, zlen_app, zlen_replicate, Z2Nat.id by lia.
  replace (Z.to_nat (zlen l + w - zlen l)) with (Z.to_nat w) by lia. rewrite <-app_assoc.
  rewrite (str_write_digits radix Hrad (Z.to_nat w) l (replicate (Z.to_nat w) padding) (0 :: rest) v 65);
    [|apply length_replicate|apply str_digits_65; assumption|lia].
  rewrite mbind_Ret. fold dr. rewrite <-Htext. eexists. split; [reflexivity|]. split.
  - rewrite app_assoc. replace (zlen l + w) with (zlen (l ++ number_text v width radix padding)) by (rewrite zlen_app; lia).
    apply str_rep_intro.
  - rewrite <-Hc1. unfold capacity. cbn [storage]. rewrite Hst, !zlen_app, zlen_replicate, Hlen. lia.
Qed.
(** ** Strings whose terminator may be missing

    A string constructed from an empty source has no terminator; its text,
    which is all that [operator ==] and assignment look at, is still known. *)

Definition text s (l : list Z) : Prop := position s = zlen l /\ take (length l) (storage s) = l.

Lemma str_text_rep s l : rep s l -> text s l.
Proof. intros [H1 H2 _]. split; assumption. Qed.

Lemma str_text_take s l : text s l -> take (Z.to_nat (position s)) (storage s) = l.
Proof. intros [-> Ht]. unfold zlen. rewrite Nat2Z.id. exact Ht. Qed.

Lemma str_append_any junk cs : zlen cs < zlen junk ->
  exists s, append_str (mk junk 0) cs = Ret s /\ text s cs /\ capacity s = zlen junk /\
    (cs <> [] \/ rep (mk junk 0) [] -> rep s cs).
Proof.
  intros H. destruct cs as [|c cs].
  - exists (mk junk 0). split; [reflexivity|]. split; [split; reflexivity|]. split; [reflexivity|]. intros [?|?]; [congruence|assumption].
  - rewrite zlen_cons in H. pose proof (zlen_nonneg cs). destruct junk as [|j [|j' junk]];
      [unfold zlen at 2 in H; simpl in H; lia|unfold zlen at 2 in H; simpl in H; lia|].
    cbn [append_str]. pose proof (str_append_gen [] (j' :: junk) j c 0 eq_refl) as E. cbn [app] in E. rewrite E.
    rewrite mbind_Ret. pose proof (str_append_str cs _ [c] (str_rep_intro [c] junk)) as Ha.
    unfold capacity in Ha. cbn [storage app] in Ha. rewrite !zlen_cons in *. change (zlen []) with 0 in Ha.
    rewrite (proj2 (Z.ltb_lt _ _)) in Ha by lia. destruct Ha as (s & Es & Hr & Hc). exists s.
    split; [exact Es|]. split; [apply str_text_rep, Hr|]. split; [unfold capacity; rewrite ?Hc, ?zlen_cons; lia|]. intros _. exact Hr.
Qed.

Lemma str_from_cstr junk cs n : 0 < zlen junk -> let T := take (Z.to_nat (Z.min n (zlen junk - 1))) cs in
  exists s, from_cstr junk cs n = Ret s /\ text s T /\ capacity s = zlen junk /\ (T <> [] -> rep s T).
Proof.
  intros Hj T. unfold from_cstr. fold T. destruct (str_append_any junk T) as (s & E & Ht & Hc & Hr).
  - unfold T, zlen. rewrite length_take. unfold zlen in Hj. lia.
  - exists s. split; [exact E|]. split; [exact Ht|]. split; [exact Hc|]. intros Hn. apply Hr. left. exact Hn.
Qed.

Lemma str_eqb s s' l l' : text s l -> text s' l' -> eqb s s' = bool_decide (l = l').
Proof.
  intros Hs Hs'. unfold eqb, size. rewrite (str_text_take _ _ Hs), (str_text_take _ _ Hs').
  rewrite (proj1 Hs), (proj1 Hs'). clear Hs Hs'. destruct (Z.eqb_spec (zlen l') (zlen l)) as [E|E]; cbn [negb].
  - unfold zlen in E. apply Nat2Z.inj in E. revert l' E. induction l as [|c l IH]; intros [|d l'] E; try discriminate E; [reflexivity|].
    cbn [eq_loop]. injection E as E. destruct (Z.eqb_spec c d) as [->|Hne]; cbn [negb].
    + rewrite IH by exact E. apply bool_decide_ext. split; congruence.
    + symmetry. apply bool_decide_false. congruence.
  - symmetry. apply bool_decide_false. congruence.
Qed.

Lemma str_assign s d l : rep s [] -> text d l -> zlen l < capacity s ->
  exists s', assign s d = Ret s' /\ rep s' l /\ capacity s' = capacity s.
Proof.
  intros Hs Hd Hl. unfold assign. rewrite (str_text_take _ _ Hd).
  destruct (str_append_any (storage s) l Hl) as (s' & E & _ & Hc & Hr). exists s'. split; [exact E|]. split; [|exact Hc].
  apply Hr. right. destruct Hs as [H1 H2 H3]. split; [exact H1|reflexivity|exact H3].
Qed.

Lemma str_clear s l : rep s l -> exists s', clear s = Ret s' /\ rep s' [] /\ capacity s' = capacity s.
Proof.
  intros Hr. pose proof (str_rep_room s l Hr). pose proof (zlen_nonneg l). unfold clear. rewrite arr_set_Ret, mbind_Ret by (unfold capacity in *; lia).
  eexists. split; [reflexivity|]. split; [|unfold capacity; apply zlen_zset].
  split; cbn [storage position]; [reflexivity|reflexivity|]. apply znth_zset_eq. change (zlen []) with 0. unfold capacity in *. lia.
Qed.

Lemma str_backspace s l c : rep s (l ++ [c]) -> exists s', backspace s = Ret s' /\ rep s' l /\ capacity s' = capacity s.
Proof.
  intros Hr. pose proof (rep_position _ _ Hr) as Hp. destruct (str_rep_split s _ Hr) as [rest Hst]. rewrite zlen_app in Hp. change (zlen [c]) with 1 in Hp. pose proof (zlen_nonneg l).
  unfold backspace. rewrite Z.gtb_ltb, (proj2 (Z.ltb_lt _ _)) by lia. rewrite <-app_assoc in Hst. cbn [app] in Hst.
  assert (position s - 1 = zlen l) as -> by lia. rewrite Hst, arr_set_Ret, mbind_Ret by (rewrite zlen_app, zlen_cons; pose proof (zlen_nonneg (0 :: rest)); lia).
  eexists. split; [reflexivity|]. rewrite str_set_mid. split; [apply str_rep_intro|]. unfold capacity. cbn [storage]. rewrite Hst, !zlen_app, !zlen_cons. reflexivity.
Qed.

Lemma str_copy junk s l : rep s l -> 0 < zlen l < zlen junk -> exists s', copy junk s = Ret s' /\ rep s' l.
Proof. intros Hr Hl. unfold copy. rewrite (str_text_take _ _ (str_text_rep _ _ Hr)). apply str_append_junk, Hl. Qed.

(** Position of the last slash *)
Fixpoint last_of (c : Z) (l : list Z) : option nat :=
  match l with
  | [] => None
  | d :: l' => match last_of c l' with Some k => Some (S k) | None => if d =? c then Some O else None end
  end.

Lemma str_last_of_snoc c l d : last_of c (l ++ [d]) = if d =? c then Some (length l) else last_of c l.
Proof. induction l as [|e l IH]; cbn [app last_of length]; [destruct (d =? c); reflexivity|]. rewrite IH. destruct (d =? c); [reflexivity|destruct (last_of c l); reflexivity]. Qed.

Lemma str_last_of_lt c l k : last_of c l = Some k -> (k < length l)%nat /\ znth l (Z.of_nat k) = Some c.
Proof.
  revert k. induction l as [|d l IH]; intros k; cbn [last_of]; [discriminate|]. destruct (last_of c l) as [j|].
  - intros [= <-]. destruct (IH j eq_refl) as [H1 H2]. cbn [length]. split; [lia|]. rewrite znth_cons_pos by lia. rewrite <-H2. f_equal. lia.
  - destruct (Z.eqb_spec d c) as [->|]; [|discriminate]. intros [= <-]. cbn [length]. split; [lia|reflexivity].
Qed.

Definition last_pos (o : option nat) : Z := match o with Some k => Z.of_nat k | None => -1 end.

Lemma str_find_loop c l : forall rest x fuel, x <> c -> (length l < fuel)%nat ->
  find_loop fuel (l ++ x :: rest) c (zlen l) = Ret (last_pos (last_of c l)).
Proof.
  induction l as [|d l IH] using rev_ind; intros rest x fuel Hx Hf; (destruct fuel as [|fuel]; [lia|]); cbn [find_loop].
  - rewrite (arr_get_Ret _ _ x) by reflexivity. rewrite mbind_Ret, (proj2 (Z.eqb_neq _ _)) by assumption. reflexivity.
  - rewrite (arr_get_Ret _ _ x) by (rewrite znth_app_r, Z.sub_diag by lia; reflexivity). rewrite mbind_Ret, (proj2 (Z.eqb_neq _ _)) by assumption.
    rewrite zlen_app. change (zlen [d]) with 1. pose proof (zlen_nonneg l).
    replace (zlen l + 1 >? 0) with true by (symmetry; lia). replace (zlen l + 1 - 1) with (zlen l) by lia. rewrite str_last_of_snoc.
    rewrite <-app_assoc. cbn [app]. rewrite length_app in Hf. cbn [length] in Hf. destruct (Z.eqb_spec d c) as [->|Hd].
    + destruct fuel as [|fuel]; [lia|]. cbn [find_loop].
      rewrite (arr_get_Ret _ _ c) by (rewrite znth_app_r, Z.sub_diag by lia; reflexivity).
      rewrite mbind_Ret, Z.eqb_refl. reflexivity.
    + apply (IH (x :: rest) d); [assumption|lia].
Qed.

Lemma str_find_last_of s l c : rep s l -> c <> 0 -> find_last_of s c = Ret (last_pos (last_of c l)).
Proof.
  intros Hr Hc. destruct (str_rep_split s l Hr) as [rest Hst]. unfold find_last_of. rewrite (rep_position _ _ Hr).
  rewrite Hst. apply (str_find_loop _ _ rest 0); [congruence|]. unfold zlen. lia.
Qed.
End str.

(** ** format.h *)

Module fmt.

Inductive arg :=
| AStr (cs : list Z)
| ANum (v : Z).

(** [fmt_scan]: copies text up to the next format flag *)
Fixpoint fmt_scan (s : str.t) (f : list Z) : outcome (str.t * list Z) :=
  match f with
  | [] => Ret (s, [])
  | c :: f1 =>
      if c =? 37 then
        match f1 with
        | [] => Ret (s, [])
        | d :: f2 => if negb (d =? 37) then Ret (s, f1) else s' ← str.append s d; fmt_scan s' f2
        end
      else s' ← str.append s c; fmt_scan s' f1
  end.

Definition char_in (c : Z) (values : list Z) : bool := existsb (fun v => c =? v) values.

Definition fmt_expect (f values : list Z) : outcome (Z * list Z) :=
  match f with
  | c :: f' => if char_in c values then Ret (c, f') else Panic
  | [] => Panic
  end.

Definition fmt_peek (f values : list Z) : bool :=
  match f with c :: _ => char_in c values | [] => false end.

(** [while (isdigit(fmt_peek()))] *)
Fixpoint number_loop (f : list Z) (number : Z) : outcome (Z * list Z) :=
  match f with
  | c :: f' => if str.isdigit c then n ← i32 (number * 10 + (c - 48)); number_loop f' n else Ret (number, f)
  | [] => Ret (number, [])
  end.

Definition fmt_expect_positive_number (f : list Z) : outcome (Z * list Z) :=
  match f with
  | c :: f' => if str.isdigit c then number_loop f' (c - 48) else Panic
  | [] => Panic
  end.

Record number_traits := mk_traits { width : Z; radix : Z; fill : Z }.

Definition lxdp : list Z := [108; 120; 100; 112].

(** [expect_number]; [fmt_consume] at the end of the format moves past its
    terminator. *)
Definition expect_number (s : str.t) (f : list Z) : outcome (str.t * number_traits * list Z) :=
  '(s, f) ← fmt_scan s f;
  '(w, fl, f) ←
    (if negb (fmt_peek f lxdp) then
       match f with
       | [] => Undef
       | c :: f' => '(n, f'') ← fmt_expect_positive_number f'; Ret (n, c, f'')
       end
     else Ret (-1, 32, f));
  '(c, f) ← fmt_expect f lxdp;
  if c =? 112 then Ret (s, mk_traits 8 16 48, f)
  else if c =? 108 then '(_, f) ← fmt_expect f [120]; Ret (s, mk_traits 16 16 48, f)
  else if c =? 120 then Ret (s, mk_traits (if w =? -1 then 4 else w) 16 fl, f)
  else Ret (s, mk_traits w 10 fl, f).

(** [operator %] *)
Definition put (s : str.t) (f : list Z) (a : arg) : outcome (str.t * list Z) :=
  match a with
  | AStr cs =>
      '(s, f) ← fmt_scan s f;
      '(_, f) ← fmt_expect f [115];
      s ← str.append_str s cs;
      Ret (s, f)
  | ANum v =>
      '(s, t, f) ← expect_number s f;
      s ← str.append_num s v (width t) (radix t) (fill t);
      Ret (s, f)
  end.

Fixpoint put_all (s : str.t) (f : list Z) (args : list arg) : outcome (str.t * list Z) :=
  match args with
  | [] => Ret (s, f)
  | a :: args' => '(s, f) ← put s f a; put_all s f args'
  end.

(** [format(fmt, args...)] and [str()] *)
Definition format (junk : list Z) (f : list Z) (args : list arg) : outcome str.t :=
  s ← str.new junk;
  '(s, f) ← put_all s f args;
  '(s, _) ← fmt_scan s f;
  Ret s.

(** ** Addresses as text *)

Definition octet (a n : Z) : Z := Z.land (Z.shiftr a n) 0xFF.

(** ["%d.%d.%d.%d"] *)
Definition ipaddr_format : list Z := [37; 100; 46; 37; 100; 46; 37; 100; 46; 37; 100].

(** [ipaddr_str]: the result is copied out of the formatter *)
Definition ipaddr_str (junk junk' : list Z) (octets : Z) : outcome str.t :=
  s ← format junk ipaddr_format [ANum (octet octets 24); ANum (octet octets 16); ANum (octet octets 8); ANum (octet octets 0)];
  str.copy junk' s.

(** [parse_ipaddr]: on any other character the loop goes round without moving. *)
Fixpoint parse_ipaddr (fuel : nat) (pos : list Z) (ipaddr current_octet : Z) : outcome Z :=
  match fuel with
  | O => NoFuel
  | S fuel' =>
      let finish := u32 (Z.lor (Z.shiftl ipaddr 8) (Z.land current_octet 0xFF)) in
      match pos with
      | [] => passert ((current_octet >=? 0) && (current_octet <=? 255));; Ret finish
      | c :: pos' =>
          if str.isdigit c then
            x ← i32 (current_octet * 10);
            y ← i32 (x + (c - 48));
            parse_ipaddr fuel' pos' ipaddr y
          else if c =? 46 then
            passert ((current_octet >=? 0) && (current_octet <=? 255));; parse_ipaddr fuel' pos' finish 0
          else parse_ipaddr fuel' pos ipaddr current_octet
      end
  end.

(** ["%02x:%02x:%02x:%02x:%02x:%02x"] *)
Definition hwaddr_format : list Z :=
  [37; 48; 50; 120; 58; 37; 48; 50; 120; 58; 37; 48; 50; 120; 58; 37; 48; 50; 120; 58; 37; 48; 50; 120; 58; 37; 48; 50; 120].

Definition hwaddr_str (junk junk' : list Z) (octets : list Z) : outcome str.t :=
  s ← format junk hwaddr_format (ANum <$> octets);
  str.copy junk' s.

(** ["ARP"], ["FLOW"], ["IPv4"], ["IPv6"], and ["%04x"] *)
Definition ether_type_str (junk junk' : list Z) (type : Z) : outcome str.t :=
  if type =? 0x0806 then str.from_cstr_all junk' [65; 82; 80]
  else if type =? 0x8808 then str.from_cstr_all junk' [70; 76; 79; 87]
  else if type =? 0x0800 then str.from_cstr_all junk' [73; 80; 118; 52]
  else if type =? 0x86DD then str.from_cstr_all junk' [73; 80; 118; 54]
  else s ← format junk [37; 48; 52; 120] [ANum type]; str.copy junk' s.

(** ** filesystem.h and tar.cc *)

(** [dirname(path, dir, base)], both results wanted *)
Definition dirname (junk : list Z) (path dir base : str.t) : outcome (str.t * str.t) :=
  last_slash ← str.find_last_of path 47;
  p ← str.c_str path;
  d ← str.from_cstr junk p last_slash;
  dir' ← str.assign dir d;
  b ← str.from_cstr_all junk (drop (Z.to_nat (last_slash + 1)) p);
  base' ← str.assign base b;
  Ret (dir', base').

(** [tar_parse_octal] *)
Fixpoint octal_loop (s : str.t) (n : nat) (i ret : Z) : outcome Z :=
  match n with
  | O => Ret ret
  | S n' => c ← str.at_ s i; octal_loop s n' (i + 1) (u32 (ret * 8 + (c - 48)))
  end.

Definition tar_parse_octal (junk cs : list Z) (length : Z) : outcome Z :=
  s ← str.from_cstr junk cs length;
  octal_loop s (Z.to_nat (length - 1)) 0 0.
End fmt.
