(* ===== verification/TextFacts.v ===== *)
(** * Properties of strings and formatting *)

From S2P Require Import Prelude NetUtils Text.
#[local] Open Scope Z_scope.

Import fmt.

(** ** Numbers *)

(** Appending a number without a width writes its digits: read back in
    the same radix they denote the number, and there is no leading zero; when
    they do not fit together with the terminator the program stops instead of
    writing past the end. *)
Theorem append_number_digits (s : str.t) (l : list Z) (v radix padding : Z) :
  str.rep s l -> radix = 10 \/ radix = 16 -> 0 <= v < 2 ^ 64 ->
  exists d ds, str.value_of radix (d :: ds) = v /\ (d = 0 -> ds = []) /\ Forall (fun x => 0 <= x < radix) (d :: ds) /\
    (if zlen l + zlen (d :: ds) <? str.capacity s then
       exists s', str.append_num s v (-1) radix padding = Ret s' /\ str.rep s' (l ++ str.chars radix (d :: ds))
     else str.append_num s v (-1) radix padding = Panic).
Proof.
  intros Hr Hrad Hv. assert (2 <= radix) as H2 by lia.
  destruct (str.str_digits_lead radix H2 64 v (str.str_digits_65 v Hv)) as (d & ds & E & Hlead).
  exists d, ds. rewrite <-E. split; [apply (str.str_digits_value radix H2 64 v (str.str_digits_65 v Hv))|].
  split; [intros H0; apply (Hlead H0)|].
  split; [apply Forall_rev, str.str_digits_range; assumption|].
  pose proof (str.str_append_num s l v (-1) radix padding Hr H2 Hv ltac:(lia)) as Ha.
  unfold str.number_text in Ha. change (-1 =? -1) with true in Ha. cbv iota in Ha. fold (str.digits radix v).
  assert (zlen (str.chars radix (str.digits radix v)) = zlen (str.digits radix v)) as El by (unfold zlen, str.chars; rewrite length_fmap; reflexivity).
  rewrite El in Ha. destruct (zlen l + zlen (str.digits radix v) <? str.capacity s); [|exact Ha].
  destruct Ha as (s' & E1 & Hr1 & _). exists s'. auto.
Qed.

Lemma append_number_digits_witness :
  exists s s', str.new [7; 7; 7; 7; 7; 7] = Ret s /\ str.append_num s 2021 (-1) 10 32 = Ret s' /\ str.c_str s' = Ret [50; 48; 50; 49].
Proof.
  destruct (str.str_new [7; 7; 7; 7; 7; 7]) as (s & E & Hr & Hc); [reflexivity|].
  destruct (append_number_digits s [] 2021 10 32 Hr) as (d & ds & _ & _ & _ & H); [lia|lia|].
  exists s. change (str.new [7; 7; 7; 7; 7; 7]) with (Ret (str.mk [0; 7; 7; 7; 7; 7] 0)) in E. injection E as <-.
  eexists. split; [reflexivity|]. split; vm_compute; reflexivity.
Defined.

(** ** Assignment *)

(** Assigning an empty string empties only the count: the characters of
    the old value are still there for every reader of the C string, so after
    [s = t] with an empty [t] the two strings disagree. *)
Theorem assign_empty_keeps_cstring (s e : str.t) (l : list Z) :
  str.rep s l -> str.rep e [] -> ~ (0 ∈ l) -> l <> [] ->
  exists s', str.assign s e = Ret s' /\ str.size s' = 0 /\ str.eqb s' e = true /\
    str.c_str s' = Ret l /\ str.c_str e = Ret [].
Proof.
  intros Hs He Hn Hne. unfold str.assign. rewrite (str.rep_position _ _ He). cbn [Z.to_nat take str.append_str].
  change (zlen []) with 0. cbn [Z.to_nat take str.append_str].
  eexists. split; [reflexivity|]. split; [reflexivity|]. split; [|split].
  - unfold str.eqb, str.size. cbn [str.position]. rewrite (str.rep_position _ _ He). reflexivity.
  - apply (str.str_c_str s l Hs Hn).
  - apply (str.str_c_str e [] He). intros H. apply not_elem_of_nil in H. done.
Qed.

Lemma assign_empty_keeps_cstring_witness :
  exists s', str.assign (str.mk [97; 98; 0; 7] 2) (str.mk [0; 7; 7; 7] 0) = Ret s' /\ str.size s' = 0 /\ str.c_str s' = Ret [97; 98].
Proof.
  destruct (assign_empty_keeps_cstring (str.mk [97; 98; 0; 7] 2) (str.mk [0; 7; 7; 7] 0) [97; 98]) as (s' & E & Hs & _ & Hc & _).
  - split; reflexivity.
  - split; reflexivity.
  - intros H. repeat (apply elem_of_cons in H; destruct H as [H|H]; [discriminate H|]). apply not_elem_of_nil in H. done.
  - discriminate.
  - exists s'. auto.
Defined.

(** ** IPv4 addresses *)

Definition dec (v : Z) : list Z := str.chars 10 (str.digits 10 v).

Definition dotted (a : Z) : list Z :=
  dec (octet a 24) ++ 46 :: dec (octet a 16) ++ 46 :: dec (octet a 8) ++ 46 :: dec (octet a 0).

Lemma octet_range a n : 0 <= octet a n < 256.
Proof. unfold octet. change 0xFF with (Z.ones 8). rewrite Z.land_ones by lia. apply Z.mod_pos_bound. lia. Qed.

Lemma dec_len v : 0 <= v < 256 -> 1 <= zlen (dec v) <= 3.
Proof.
  intros Hv. assert (forallb (fun n => let k := zlen (dec (Z.of_nat n)) in (1 <=? k) && (k <=? 3)) (seq 0 256) = true) as H
    by (vm_compute; reflexivity).
  rewrite forallb_forall in H. specialize (H (Z.to_nat v)). rewrite Z2Nat.id in H by lia.
  cbv zeta in H. rewrite andb_true_iff, !Z.leb_le in H. apply H. apply in_seq. lia.
Qed.

Lemma dec_nonzero v : 0 <= v < 256 -> Forall (fun c => 48 <= c <= 57) (dec v).
Proof.
  intros Hv. unfold dec, str.chars. apply Forall_fmap. unfold str.digits. apply Forall_rev.
  eapply Forall_impl; [apply (str.str_digits_range 10 ltac:(lia))|]. intros d Hd.
  unfold compose, str.digit_as_char. change (10 =? 10) with true. cbv beta iota in *. lia.
Qed.

(** ["%d"] appends the digits of its argument ... *)
Lemma put_d s l f v : str.rep s l -> 0 <= v < 256 -> zlen l + zlen (dec v) < str.capacity s ->
  exists s', put s (37 :: 100 :: f) (ANum v) = Ret (s', f) /\ str.rep s' (l ++ dec v) /\ str.capacity s' = str.capacity s.
Proof.
  intros Hr Hv Hroom.
  change (put s (37 :: 100 :: f) (ANum v)) with (s' ← str.append_num s v (-1) 10 32; Ret (s', f)).
  pose proof (str.str_append_num s l v (-1) 10 32 Hr ltac:(lia) ltac:(lia) ltac:(lia)) as Ha.
  change (str.number_text v (-1) 10 32) with (dec v) in Ha. rewrite (proj2 (Z.ltb_lt _ _)) in Ha by assumption.
  destruct Ha as (s' & -> & Hr' & Hc'). exists s'. auto.
Qed.

(** ... and so does [".%d"], after the dot. *)
Lemma put_dot_d s l f v : str.rep s l -> 0 <= v < 256 -> zlen l + 1 + zlen (dec v) < str.capacity s ->
  exists s', put s (46 :: 37 :: 100 :: f) (ANum v) = Ret (s', f) /\ str.rep s' (l ++ 46 :: dec v) /\ str.capacity s' = str.capacity s.
Proof.
  intros Hr Hv Hroom. pose proof (zlen_nonneg (dec v)).
  pose proof (str.str_append s l 46 Hr) as Ha. rewrite (proj2 (Z.ltb_lt _ _)) in Ha by lia. destruct Ha as (s1 & E1 & Hr1 & Hc1).
  destruct (put_d s1 (l ++ [46]) f v Hr1 Hv) as (s2 & E2 & Hr2 & Hc2); [rewrite zlen_app; change (zlen [46]) with 1; lia|].
  exists s2. split; [|split; [rewrite <-app_assoc in Hr2; exact Hr2|congruence]].
  rewrite <-E2. unfold put, expect_number. cbn [fmt_scan]. change (46 =? 37) with false. cbv iota. rewrite E1. reflexivity.
Qed.

Lemma dotted_len a : zlen (dotted a) <= 15.
Proof.
  unfold dotted. rewrite !zlen_app, !zlen_cons, !zlen_app, !zlen_cons, !zlen_app, !zlen_cons.
  pose proof (dec_len _ (octet_range a 24)). pose proof (dec_len _ (octet_range a 16)).
  pose proof (dec_len _ (octet_range a 8)). pose proof (dec_len _ (octet_range a 0)). lia.
Qed.

Lemma ipaddr_str_text junk junk' a : zlen junk = 16 -> zlen junk' = 16 ->
  exists s, ipaddr_str junk junk' a = Ret s /\ str.rep s (dotted a).
Proof.
  intros Hj Hj'. unfold ipaddr_str, format. destruct (str.str_new junk ltac:(lia)) as (s0 & -> & Hr0 & Hc0). rewrite mbind_Ret.
  pose proof (dotted_len a) as Hlen. unfold dotted in Hlen. rewrite !zlen_app, !zlen_cons, !zlen_app, !zlen_cons, !zlen_app, !zlen_cons in Hlen.
  pose proof (zlen_nonneg (dec (octet a 0))). pose proof (zlen_nonneg (dec (octet a 8))).
  pose proof (zlen_nonneg (dec (octet a 16))). pose proof (zlen_nonneg (dec (octet a 24))).
  unfold ipaddr_format. cbn [put_all].
  destruct (put_d s0 [] [46; 37; 100; 46; 37; 100; 46; 37; 100] (octet a 24) Hr0 (octet_range _ _)) as (s1 & -> & Hr1 & Hc1).
  { change (zlen []) with 0. lia. }
  rewrite mbind_Ret. cbv beta iota.
  destruct (put_dot_d s1 _ [46; 37; 100; 46; 37; 100] (octet a 16) Hr1 (octet_range _ _)) as (s2 & -> & Hr2 & Hc2).
  { cbn [app]. lia. }
  rewrite mbind_Ret. cbv beta iota.
  destruct (put_dot_d s2 _ [46; 37; 100] (octet a 8) Hr2 (octet_range _ _)) as (s3 & -> & Hr3 & Hc3).
  { cbn [app]. rewrite zlen_app, zlen_cons. lia. }
  rewrite mbind_Ret. cbv beta iota.
  destruct (put_dot_d s3 _ [] (octet a 0) Hr3 (octet_range _ _)) as (s4 & -> & Hr4 & Hc4).
  { cbn [app]. rewrite !zlen_app, !zlen_cons. lia. }
  cbn [mbind outcome_bind fmt_scan].
  replace ((([] ++ dec (octet a 24)) ++ 46 :: dec (octet a 16)) ++ 46 :: dec (octet a 8)) with
    (dec (octet a 24) ++ 46 :: dec (octet a 16) ++ 46 :: dec (octet a 8)) in Hr4 by (cbn [app]; rewrite <-!app_assoc; reflexivity).
  unfold str.copy. rewrite (str.rep_position _ _ Hr4).
  assert (forall l, Z.to_nat (zlen l) = length (l : list Z)) as Hz by (intros; unfold zlen; lia). rewrite Hz, (str.rep_text _ _ Hr4).
  replace ((dec (octet a 24) ++ 46 :: dec (octet a 16) ++ 46 :: dec (octet a 8)) ++ 46 :: dec (octet a 0)) with (dotted a)
    by (unfold dotted; rewrite <-!app_assoc; cbn [app]; rewrite <-!app_assoc; reflexivity).
  apply str.str_append_junk. pose proof (dotted_len a). split; [|lia].
  unfold dotted. rewrite zlen_app, zlen_cons. pose proof (zlen_nonneg (dec (octet a 16) ++ 46 :: dec (octet a 8) ++ 46 :: dec (octet a 0))). lia.
Qed.

(** Reading the digits back *)
Lemma parse_digits ds : forall fuel rest ip cur, Forall (fun d => 0 <= d < 10) ds -> 0 <= cur ->
  fold_left (fun a d => a * 10 + d) ds cur <= 255 ->
  parse_ipaddr (length ds + fuel) (str.chars 10 ds ++ rest) ip cur =
  parse_ipaddr fuel rest ip (fold_left (fun a d => a * 10 + d) ds cur).
Proof.
  induction ds as [|d ds IH]; intros fuel rest ip cur Hds Hcur Hle; [reflexivity|].
  inversion Hds as [|? ? Hd Hds']. subst. cbn [fold_left] in *.
  assert (forall l a, Forall (fun d => 0 <= d < 10) l -> 0 <= a -> a <= fold_left (fun a d => a * 10 + d) l a) as Hmono.
  { clear. induction l as [|x l IHl]; intros a Hl Ha; [simpl; lia|]. inversion Hl as [|? ? Hx Hl']. subst. cbn [fold_left].
    specialize (IHl (a * 10 + x) Hl' ltac:(lia)). lia. }
  specialize (Hmono ds (cur * 10 + d) Hds' ltac:(lia)).
  cbn [length Nat.add]. change (str.chars 10 (d :: ds) ++ rest) with (str.digit_as_char d 10 :: (str.chars 10 ds ++ rest)).
  cbn [parse_ipaddr]. unfold str.digit_as_char at 1 2 3. change (10 =? 10) with true. cbv iota. unfold str.isdigit.
  rewrite Z.geb_leb, (proj2 (Z.leb_le 48 _)), (proj2 (Z.leb_le _ 57)) by lia. cbn [andb].
  rewrite (i32_Ret (cur * 10)), mbind_Ret by (unfold INT_MIN, INT_MAX; lia).
  rewrite (i32_Ret (cur * 10 + (48 + d - 48))), mbind_Ret by (unfold INT_MIN, INT_MAX; lia).
  replace (cur * 10 + (48 + d - 48)) with (cur * 10 + d) by lia. apply IH; [assumption|lia|assumption].
Qed.

Lemma parse_dec v fuel rest ip : 0 <= v < 256 ->
  parse_ipaddr (length (dec v) + fuel) (dec v ++ rest) ip 0 = parse_ipaddr fuel rest ip v.
Proof.
  intros Hv. assert (fold_left (fun a d => a * 10 + d) (str.digits 10 v) 0 = v) as E
    by (apply (str.str_digits_value 10 ltac:(lia) 64 v (str.str_digits_65 v ltac:(lia)))).
  unfold dec. replace (length (str.chars 10 (str.digits 10 v))) with (length (str.digits 10 v)) by (unfold str.chars; rewrite length_fmap; reflexivity).
  rewrite parse_digits; [rewrite E; reflexivity| |lia|lia]. apply Forall_rev, str.str_digits_range. lia.
Qed.

Definition shift_in (ip v : Z) : Z := u32 (Z.lor (Z.shiftl ip 8) (Z.land v 0xFF)).

Lemma parse_dot v fuel rest ip : 0 <= v < 256 ->
  parse_ipaddr (S fuel) (46 :: rest) ip v = parse_ipaddr fuel rest (shift_in ip v) 0.
Proof.
  intros Hv. cbn [parse_ipaddr]. change (str.isdigit 46) with false. change (46 =? 46) with true. cbv iota.
  rewrite passert_true by lia. reflexivity.
Qed.

Lemma parse_end v fuel ip : 0 <= v < 256 -> parse_ipaddr (S fuel) [] ip v = Ret (shift_in ip v).
Proof. intros Hv. cbn [parse_ipaddr]. rewrite passert_true by lia. reflexivity. Qed.

Lemma shift_in_octets a : 0 <= a < 2 ^ 32 ->
  shift_in (shift_in (shift_in (shift_in 0 (octet a 24)) (octet a 16)) (octet a 8)) (octet a 0) = a.
Proof.
  intros Ha. assert (forall ip v, 0 <= v < 256 -> 0 <= ip < 2 ^ 24 -> shift_in ip v = ip * 256 + v) as Hs.
  { intros ip v Hv Hip. unfold shift_in. change 0xFF with (Z.ones 8). rewrite Z.land_ones, (Z.mod_small v) by lia.
    rewrite lor_shiftl_add by lia. change (2 ^ 8) with 256. apply u32_small. lia. }
  assert (forall n, 0 <= n -> octet a n = (a / 2 ^ n) mod 256) as Ho.
  { intros n Hn. unfold octet. change 0xFF with (Z.ones 8). rewrite Z.land_ones, Z.shiftr_div_pow2 by lia. reflexivity. }
  pose proof (octet_range a 24). pose proof (octet_range a 16). pose proof (octet_range a 8). pose proof (octet_range a 0).
  rewrite (Hs 0) by lia. rewrite (Hs (0 * 256 + _)) by lia. rewrite (Hs ((0 * 256 + _) * 256 + _)) by lia. rewrite Hs by lia.
  rewrite !Ho by lia. change (2 ^ 24) with (256 * 256 * 256). change (2 ^ 16) with (256 * 256). change (2 ^ 8) with 256. change (2 ^ 0) with 1.
  rewrite <-!Z.div_div by lia. rewrite Z.div_1_r. dlia.
Qed.

(** C29: every IPv4 address printed by [ipaddr_str] fits its buffer and is
    read back by [parse_ipaddr] as the same address. *)
Theorem ipaddr_roundtrip (junk junk' : list Z) (a : Z) :
  zlen junk = 16 -> zlen junk' = 16 -> 0 <= a < 2 ^ 32 ->
  exists s text, ipaddr_str junk junk' a = Ret s /\ str.c_str s = Ret text /\
    parse_ipaddr (S (length text)) text 0 0 = Ret a.
Proof.
  intros Hj Hj' Ha. destruct (ipaddr_str_text junk junk' a Hj Hj') as (s & E & Hr).
  exists s, (dotted a). split; [exact E|]. split.
  - apply (str.str_c_str s _ Hr). unfold dotted. intros Hin.
    assert (forall v, 0 <= v < 256 -> ~ (0 ∈ dec v)) as Hd.
    { intros v Hv H0. apply (proj1 (Forall_forall _ _) (dec_nonzero v Hv)) in H0. lia. }
    repeat (apply elem_of_app in Hin; destruct Hin as [Hin|Hin]; [eapply Hd; [apply octet_range|exact Hin]|];
            apply elem_of_cons in Hin; destruct Hin as [Hin|Hin]; [discriminate Hin|]).
    eapply Hd; [apply octet_range|exact Hin].
  - replace (S (length (dotted a))) with (length (dec (octet a 24)) + S (length (dec (octet a 16)) + S (length (dec (octet a 8)) +
      S (length (dec (octet a 0)) + 1))))%nat by (unfold dotted; repeat (rewrite length_app; cbn [length]); lia).
    unfold dotted. rewrite parse_dec, parse_dot, parse_dec, parse_dot, parse_dec, parse_dot by apply octet_range.
    rewrite <-(app_nil_r (dec (octet a 0))) at 2. rewrite parse_dec, parse_end by apply octet_range.
    f_equal. apply shift_in_octets. assumption.
Qed.

Lemma ipaddr_roundtrip_witness :
  exists s, ipaddr_str (replicate 16 7) (replicate 16 9) 0xC0A80164 = Ret s /\
    str.c_str s = Ret [49; 57; 50; 46; 49; 54; 56; 46; 49; 46; 49; 48; 48] /\
    parse_ipaddr 14 [49; 57; 50; 46; 49; 54; 56; 46; 49; 46; 49; 48; 48] 0 0 = Ret 0xC0A80164.
Proof.
  destruct (ipaddr_roundtrip (replicate 16 7) (replicate 16 9) 0xC0A80164 eq_refl eq_refl ltac:(lia)) as (s & text & E & Hc & Hp).
  exists s. split; [exact E|]. vm_compute in E. injection E as <-. vm_compute in Hc. injection Hc as <-. split; [reflexivity|exact Hp].
Defined.

(** ** Formats that only insert strings *)

Module formats.
Import fmt.

(** The format of texts that are each followed by a string, and an end *)
Definition template (pieces : list (list Z * list Z)) (tail : list Z) : list Z :=
  concat (map (fun p => p.1 ++ [37; 115]) pieces) ++ tail.

Definition filled (pieces : list (list Z * list Z)) (tail : list Z) : list Z :=
  concat (map (fun p => p.1 ++ p.2) pieces) ++ tail.

Lemma scan_text lit : forall s l, str.rep s l -> ~ (37 ∈ lit) -> zlen l + zlen lit < str.capacity s ->
  exists s', str.rep s' (l ++ lit) /\ str.capacity s' = str.capacity s /\
    fmt_scan s lit = Ret (s', []) /\ forall c rest, c <> 37 -> fmt_scan s (lit ++ 37 :: c :: rest) = Ret (s', c :: rest).
Proof.
  induction lit as [|x lit IH]; intros s l Hr Hn Hl.
  - exists s. rewrite app_nil_r. split; [exact Hr|]. split; [reflexivity|]. split; [reflexivity|]. intros c rest Hc. cbn.
    rewrite (proj2 (Z.eqb_neq c 37)) by exact Hc. reflexivity.
  - apply not_elem_of_cons in Hn as [Hx Hn]. rewrite zlen_cons in Hl. pose proof (zlen_nonneg lit). pose proof (str.str_append s l x Hr) as Ha.
    rewrite (proj2 (Z.ltb_lt _ _)) in Ha by lia. destruct Ha as (s1 & E1 & Hr1 & Hc1).
    destruct (IH s1 (l ++ [x]) Hr1 Hn) as (s' & Hr' & Hc' & E & E'); [rewrite zlen_app, Hc1; change (zlen [x]) with 1; lia|].
    exists s'. rewrite <-app_assoc in Hr'. split; [exact Hr'|]. split; [congruence|]. cbn [fmt_scan app]. rewrite (proj2 (Z.eqb_neq x 37)) by congruence. rewrite E1, mbind_Ret.
    split; [exact E|]. exact E'.
Qed.

Lemma put_all_ok pieces : forall s l tail, str.rep s l -> Forall (fun p => ~ (37 ∈ p.1)) pieces -> zlen l + zlen (filled pieces []) < str.capacity s ->
  exists s', put_all s (template pieces tail) (map (fun p => AStr p.2) pieces) = Ret (s', tail) /\ str.rep s' (l ++ filled pieces []) /\ str.capacity s' = str.capacity s.
Proof.
  induction pieces as [|[lit a] pieces IH]; intros s l tail Hr Hp Hl.
  { exists s. unfold filled. cbn. rewrite app_nil_r. auto. }
  apply Forall_cons in Hp as [Hlit Hp]. unfold filled in Hl. cbn [map concat fst snd] in *. rewrite <-!app_assoc, !zlen_app in Hl.
  change (zlen []) with 0 in Hl. pose proof (zlen_nonneg lit). pose proof (zlen_nonneg a). pose proof (zlen_nonneg (concat (map (fun p : list Z * list Z => p.1 ++ p.2) pieces))).
  unfold template. cbn [map concat fst snd put_all put]. rewrite <-!app_assoc. cbn [app].
  destruct (scan_text lit s l Hr Hlit ltac:(lia)) as (s1 & Hr1 & Hc1 & _ & ->); [|lia]. rewrite mbind_Ret. cbv beta iota. change (fmt_expect (115 :: ?r) [115]) with (Ret (115, r)).
  rewrite mbind_Ret. cbv beta iota. pose proof (str.str_append_str a s1 _ Hr1) as Ha. rewrite zlen_app, Hc1 in Ha. rewrite (proj2 (Z.ltb_lt _ _)) in Ha by lia.
  destruct Ha as (s2 & -> & Hr2 & Hc2). rewrite !mbind_Ret. cbv beta iota.
  destruct (IH s2 ((l ++ lit) ++ a) tail Hr2 Hp) as (s' & E & Hr' & Hc'); [rewrite !zlen_app, Hc2; unfold filled; rewrite zlen_app; change (zlen []) with 0; lia|].
  exists s'. split; [exact E|]. split; [|congruence]. unfold filled in *. cbn [map concat fst snd]. rewrite <-!app_assoc in Hr'. rewrite <-!app_assoc. exact Hr'.
Qed.

(** A format of strings gives its text, when there is room for it and a
    terminator. *)
Lemma format_strings junk pieces tail : Forall (fun p => ~ (37 ∈ p.1)) pieces -> ~ (37 ∈ tail) -> zlen (filled pieces tail) < zlen junk ->
  exists s, format junk (template pieces tail) (map (fun p => AStr p.2) pieces) = Ret s /\ str.rep s (filled pieces tail).
Proof.
  intros Hp Ht Hl. unfold filled in Hl. rewrite zlen_app in Hl. pose proof (zlen_nonneg tail). pose proof (zlen_nonneg (concat (map (fun p : list Z * list Z => p.1 ++ p.2) pieces))).
  destruct (str.str_new junk) as (s0 & E0 & Hr0 & Hc0); [lia|]. unfold format. rewrite E0, mbind_Ret.
  destruct (put_all_ok pieces s0 [] tail Hr0 Hp) as (s1 & -> & Hr1 & Hc1); [unfold filled; rewrite zlen_app, Hc0; change (zlen []) with 0; lia|]. rewrite mbind_Ret. cbv beta iota.
  destruct (scan_text tail s1 _ Hr1 Ht) as (s2 & Hr2 & _ & -> & _).
  { cbn [app]. unfold filled. rewrite zlen_app, Hc1, Hc0. change (zlen []) with 0. lia. }
  rewrite mbind_Ret. cbv beta iota. exists s2. split; [reflexivity|]. cbn [app] in Hr2. unfold filled in *. rewrite app_nil_r in Hr2. exact Hr2.
Qed.

(** ** Octal numbers *)

Lemma octal_fold ds : forall a, fold_left (fun a d => u32 (a * 8 + d)) ds (u32 a) = u32 (fold_left (fun a d => a * 8 + d) ds a).
Proof.
  induction ds as [|d ds IH]; intros a; [reflexivity|]. cbn [fold_left]. rewrite <-IH. f_equal. unfold u32.
  rewrite <-Z.add_mod_idemp_l, <-Z.mul_mod_idemp_l, Z.mod_mod, Z.mul_mod_idemp_l, Z.add_mod_idemp_l by lia. reflexivity.
Qed.

Lemma octal_loop_ok ds : forall s P rest ret, str.storage s = P ++ map (fun d => d + 48) ds ++ rest ->
  octal_loop s (length ds) (zlen P) ret = Ret (fold_left (fun a d => u32 (a * 8 + d)) ds ret).
Proof.
  induction ds as [|d ds IH]; intros s P rest ret Hs; cbn [length octal_loop]; [reflexivity|]. cbn [map app] in Hs. unfold str.at_.
  rewrite Hs, (arr_get_Ret _ _ (d + 48)) by (rewrite znth_app_r, Z.sub_diag by lia; reflexivity). rewrite mbind_Ret. cbn [fold_left]. replace (d + 48 - 48) with d by lia. replace (zlen P + 1) with (zlen (P ++ [d + 48])) by (rewrite zlen_app; reflexivity).
  apply (IH s _ rest). rewrite Hs, <-app_assoc. reflexivity.
Qed.

(** A size field of an archive: eleven octal digits *)
Lemma tar_octal_ok junk ds more : zlen junk = 13 -> length ds = 11%nat ->
  tar_parse_octal junk (map (fun d => d + 48) ds ++ more) 12 = Ret (u32 (str.value_of 8 ds)).
Proof.
  intros Hj Hd. unfold tar_parse_octal. destruct (str.str_from_cstr junk (map (fun d => d + 48) ds ++ more) 12 ltac:(lia)) as (s & -> & Ht & _ & _). rewrite mbind_Ret.
  rewrite Hj in Ht. change (Z.to_nat (Z.min 12 (13 - 1))) with 12%nat in Ht. rewrite take_app, length_map, Hd, take_ge in Ht by (rewrite length_map; lia).
  change (Z.to_nat (12 - 1)) with 11%nat. rewrite <-Hd. pose proof (octal_loop_ok ds s [] (take (12 - 11) more ++ drop (length (map (fun d => d + 48) ds ++ take (12 - 11) more)) (str.storage s)) 0) as E.
  change (zlen []) with 0 in E. rewrite E.
  - unfold str.value_of. rewrite <-octal_fold. reflexivity.
  - cbn [app]. rewrite app_assoc. destruct Ht as [_ Ht]. rewrite <-Ht at 1. symmetry. apply take_drop.
Qed.
End formats.
