(* ===== verification/Words.v ===== *)
(** * Command lines and key-value lines (programs/command_line.h,
      libraries/support/keyvalue.h, the line buffer of programs/shell/shell.cc,
      and the string functions of support/utils.cc they use)

    Both parsers copy the line into an arena, cut it up by writing
    terminators into it, and keep pointers to the pieces.  The arena is the
    storage of a [p2::string]; a pointer into it is an index. *)

From S2P Require Import Prelude Pool Text.
From stdpp Require Import gmap list.
#[local] Open Scope Z_scope.

(** ** utils.cc *)

Module cstring.

(** [strchr]: [None] is null *)
Fixpoint strchr (fuel : nat) (mem : list Z) (pos c : Z) : outcome (option Z) :=
  match fuel with
  | O => NoFuel
  | S fuel' =>
      x ← arr_get mem pos;
      if x =? c then Ret (Some pos)
      else if x =? 0 then Ret None
      else strchr fuel' mem (pos + 1) c
  end.

(** [strnchr] *)
Fixpoint strnchr (fuel : nat) (mem : list Z) (pos c len : Z) : outcome (option Z) :=
  match fuel with
  | O => NoFuel
  | S fuel' =>
      x ← arr_get mem pos;
      if x =? c then Ret (if len =? 0 then None else Some pos)
      else if (x =? 0) || (len =? 0) then Ret None
      else strnchr fuel' mem (pos + 1) c (len - 1)
  end.

(** [strlen] *)
Fixpoint strlen (s : list Z) : outcome Z :=
  match s with
  | [] => Undef
  | c :: s' => if c =? 0 then Ret 0 else n ← strlen s'; Ret (n + 1)
  end.

(** [strncmp]: it does not stop at a terminator. *)
Fixpoint strncmp (len : nat) (s1 s2 : list Z) : outcome Z :=
  match len with
  | O => Ret 0
  | S len' =>
      match s1, s2 with
      | x :: s1', y :: s2' => if negb (x =? y) then Ret (x - y) else strncmp len' s1' s2'
      | _, _ => Undef
      end
  end.

(** [memcmp] compares plain, that is signed, characters. *)
Definition signed_char (c : Z) : Z := if c <? 128 then c else c - 256.

Fixpoint memcmp (len : nat) (d1 d2 : list Z) : outcome Z :=
  match len with
  | O => Ret 0
  | S len' =>
      match d1, d2 with
      | x :: d1', y :: d2' => if negb (x =? y) then Ret (signed_char x - signed_char y) else memcmp len' d1' d2'
      | _, _ => Undef
      end
  end.

(** [memset] *)
Fixpoint memset (mem : list Z) (dest value : Z) (len : nat) : outcome (list Z) :=
  match len with
  | O => Ret mem
  | S len' => mem ← arr_set mem dest (u8 value); memset mem (dest + 1) value len'
  end.

(** [memcpy] inside one object *)
Fixpoint memcpy (mem : list Z) (d s : Z) (length : nat) : outcome (list Z) :=
  match length with
  | O => Ret mem
  | S length' => x ← arr_get mem s; mem ← arr_set mem d x; memcpy mem (d + 1) (s + 1) length'
  end.

(** [strncpy] *)
Fixpoint strncpy (dest : list Z) (d : Z) (src : list Z) (len : nat) : outcome (list Z) :=
  match len with
  | O => Ret dest
  | S len' =>
      match src with
      | [] => Undef
      | x :: src' =>
          dest ← arr_set dest d x;
          if x =? 0 then memset dest (d + 1) 0 len' else strncpy dest (d + 1) src' len'
      end
  end.

(** [str_equal] of keyvalue.h, the second string a C string *)
Fixpoint str_equal (mem : list Z) (pos : Z) (key : list Z) : outcome bool :=
  x ← arr_get mem pos;
  match key with
  | [] => Ret (x =? 0)
  | k :: key' => if negb (x =? k) then Ret false else if x =? 0 then Ret true else str_equal mem (pos + 1) key'
  end.

(** The C string a pointer leads to *)
Definition read (mem : list Z) (pos : Z) : outcome (list Z) := str.until_nul (drop (Z.to_nat pos) mem).

Lemma until_nul_app w rest : ~ (0 ∈ w) -> str.until_nul (w ++ 0 :: rest) = Ret w.
Proof.
  intros Hn. induction w as [|c w IH]; [reflexivity|]. cbn [app str.until_nul].
  rewrite (proj2 (Z.eqb_neq c 0)) by (intros ->; apply Hn, list_elem_of_here).
  rewrite IH by (intros Hin; apply Hn, list_elem_of_further, Hin). reflexivity.
Qed.

Lemma read_here P w rest : ~ (0 ∈ w) -> read (P ++ w ++ 0 :: rest) (zlen P) = Ret w.
Proof.
  intros Hn. unfold read, zlen. rewrite Nat2Z.id, drop_app_length. apply until_nul_app. assumption.
Qed.

Lemma arr_get_mid {A} (P : list A) x rest : arr_get (P ++ x :: rest) (zlen P) = Ret x.
Proof. apply arr_get_Ret. rewrite znth_app_r, Z.sub_diag by lia. reflexivity. Qed.

Lemma strchr_found c w : forall fuel P rest, ~ (c ∈ w) -> ~ (0 ∈ w) -> (length w < fuel)%nat ->
  strchr fuel (P ++ w ++ c :: rest) (zlen P) c = Ret (Some (zlen P + zlen w)).
Proof.
  induction w as [|x w IH]; intros fuel P rest Hc H0 Hf; (destruct fuel as [|fuel]; [simpl in Hf; lia|]); cbn [strchr app].
  - rewrite arr_get_mid, mbind_Ret, Z.eqb_refl. change (zlen []) with 0. rewrite Z.add_0_r. reflexivity.
  - rewrite arr_get_mid, mbind_Ret. apply not_elem_of_cons in Hc, H0. destruct Hc as [Hc Hc'], H0 as [H0 H0'].
    rewrite (proj2 (Z.eqb_neq x c)), (proj2 (Z.eqb_neq x 0)) by congruence.
    assert (zlen P + 1 = zlen (P ++ [x])) as -> by (rewrite zlen_app; reflexivity).
    replace (P ++ x :: w ++ c :: rest) with ((P ++ [x]) ++ w ++ c :: rest) by (rewrite <-app_assoc; reflexivity).
    rewrite IH by (assumption || (simpl in Hf; lia)). rewrite zlen_app, !zlen_cons. change (zlen (@nil Z)) with 0. apply f_equal, f_equal. lia.
Qed.

Lemma strchr_missing c w : forall fuel P rest, c <> 0 -> ~ (c ∈ w) -> ~ (0 ∈ w) -> (length w < fuel)%nat ->
  strchr fuel (P ++ w ++ 0 :: rest) (zlen P) c = Ret None.
Proof.
  induction w as [|x w IH]; intros fuel P rest Hc0 Hc H0 Hf; (destruct fuel as [|fuel]; [simpl in Hf; lia|]); cbn [strchr app].
  - rewrite arr_get_mid, mbind_Ret, (proj2 (Z.eqb_neq 0 c)) by congruence. reflexivity.
  - rewrite arr_get_mid, mbind_Ret. apply not_elem_of_cons in Hc, H0. destruct Hc as [Hc Hc'], H0 as [H0 H0'].
    rewrite (proj2 (Z.eqb_neq x c)), (proj2 (Z.eqb_neq x 0)) by congruence.
    assert (zlen P + 1 = zlen (P ++ [x])) as -> by (rewrite zlen_app; reflexivity).
    replace (P ++ x :: w ++ 0 :: rest) with ((P ++ [x]) ++ w ++ 0 :: rest) by (rewrite <-app_assoc; reflexivity).
    apply IH; try assumption. simpl in Hf. lia.
Qed.

(** Comparing with the string at a pointer *)
Lemma str_equal_read key : forall w P rest, ~ (0 ∈ w) -> ~ (0 ∈ key) ->
  str_equal (P ++ w ++ 0 :: rest) (zlen P) key = Ret (bool_decide (w = key)).
Proof.
  induction key as [|k key IH]; intros w P rest Hw Hk; cbn [str_equal].
  - destruct w as [|x w]; cbn [app]; rewrite arr_get_mid, mbind_Ret; [reflexivity|].
    rewrite (proj2 (Z.eqb_neq x 0)) by (intros ->; apply Hw, list_elem_of_here). rewrite bool_decide_eq_false_2 by discriminate. reflexivity.
  - apply not_elem_of_cons in Hk. destruct Hk as [Hk0 Hk]. destruct w as [|x w]; cbn [app]; rewrite arr_get_mid, mbind_Ret.
    + rewrite (proj2 (Z.eqb_neq 0 k)) by congruence. rewrite bool_decide_eq_false_2 by discriminate. reflexivity.
    + apply not_elem_of_cons in Hw. destruct Hw as [Hw0 Hw]. destruct (Z.eqb_spec x k) as [->|Hne]; cbn [negb].
      * rewrite (proj2 (Z.eqb_neq k 0)) by congruence. assert (zlen P + 1 = zlen (P ++ [k])) as -> by (rewrite zlen_app; reflexivity).
        replace (P ++ k :: w ++ 0 :: rest) with ((P ++ [k]) ++ w ++ 0 :: rest) by (rewrite <-app_assoc; reflexivity).
        rewrite IH by assumption. f_equal. apply bool_decide_ext. split; congruence.
      * rewrite bool_decide_eq_false_2 by congruence. reflexivity.
Qed.

(** Copying down inside one object moves the bytes, overlapping or not. *)
Lemma memcpy_down n : forall P mid k, (k + n <= length mid)%nat ->
  memcpy (P ++ mid) (zlen P) (zlen P + Z.of_nat k) n = Ret (P ++ take n (drop k mid) ++ drop n mid).
Proof.
  induction n as [|n IH]; intros P mid k Hl; cbn [memcpy]; [reflexivity|].
  destruct mid as [|m mid]; [simpl in Hl; lia|]. simpl in Hl.
  destruct (lookup_lt_is_Some_2 (m :: mid) k) as [x Hx]; [simpl; lia|].
  assert (arr_get (P ++ m :: mid) (zlen P + Z.of_nat k) = Ret x) as ->.
  { apply arr_get_Ret. rewrite znth_app_r by lia. replace (zlen P + Z.of_nat k - zlen P) with (Z.of_nat k) by lia. rewrite znth_of_nat. exact Hx. }
  rewrite mbind_Ret, arr_set_Ret by (rewrite zlen_app, zlen_cons; pose proof (zlen_nonneg P); pose proof (zlen_nonneg mid); lia).
  rewrite mbind_Ret, str.str_set_mid. replace (P ++ x :: mid) with ((P ++ [x]) ++ mid) by (rewrite <-app_assoc; reflexivity).
  replace (zlen P + 1) with (zlen (P ++ [x])) by (rewrite zlen_app; reflexivity).
  replace (zlen P + Z.of_nat k + 1) with (zlen (P ++ [x]) + Z.of_nat k) by (rewrite zlen_app; change (zlen [x]) with 1; lia).
  rewrite IH by lia. rewrite (drop_S _ _ _ Hx). cbn [take drop skipn firstn]. rewrite <-app_assoc. reflexivity.
Qed.

(** A comparison of one byte more than a string has decides equality with it. *)
Lemma strncmp_equal w2 : forall w1 r1 r2, ~ (0 ∈ w1) -> ~ (0 ∈ w2) ->
  exists z, strncmp (S (length w2)) (w1 ++ 0 :: r1) (w2 ++ 0 :: r2) = Ret z /\ (z =? 0) = bool_decide (w1 = w2).
Proof.
  induction w2 as [|y w2 IH]; intros w1 r1 r2 H1 H2.
  - destruct w1 as [|x w1]; cbn [app length strncmp]; [exists 0; split; reflexivity|]. apply not_elem_of_cons in H1.
    rewrite (proj2 (Z.eqb_neq x 0)) by intuition congruence. exists (x - 0). split; [reflexivity|].
    rewrite bool_decide_eq_false_2 by discriminate. apply Z.eqb_neq. lia.
  - apply not_elem_of_cons in H2 as [Hy H2]. destruct w1 as [|x w1]; cbn [app length strncmp].
    + rewrite (proj2 (Z.eqb_neq 0 y)) by congruence. exists (0 - y). split; [reflexivity|]. rewrite bool_decide_eq_false_2 by discriminate. apply Z.eqb_neq. lia.
    + apply not_elem_of_cons in H1 as [Hx H1]. destruct (Z.eqb_spec x y) as [->|Hne]; cbn [negb].
      * destruct (IH w1 r1 r2 H1 H2) as (z & E & Hz). cbn [strncmp] in E. exists z. split; [exact E|]. rewrite Hz. apply bool_decide_ext. split; congruence.
      * exists (x - y). split; [reflexivity|]. rewrite bool_decide_eq_false_2 by congruence. apply Z.eqb_neq. lia.
Qed.

Lemma memset_Ret n : forall P mid value, (n <= length mid)%nat ->
  memset (P ++ mid) (zlen P) value n = Ret (P ++ replicate n (u8 value) ++ drop n mid).
Proof.
  induction n as [|n IH]; intros P mid value Hl; cbn [memset]; [reflexivity|]. destruct mid as [|m mid]; [simpl in Hl; lia|]. simpl in Hl.
  rewrite arr_set_Ret by (rewrite zlen_app, zlen_cons; pose proof (zlen_nonneg P); pose proof (zlen_nonneg mid); lia).
  rewrite mbind_Ret, str.str_set_mid. replace (P ++ u8 value :: mid) with ((P ++ [u8 value]) ++ mid) by (rewrite <-app_assoc; reflexivity).
  replace (zlen P + 1) with (zlen (P ++ [u8 value])) by (rewrite zlen_app; reflexivity). rewrite IH by lia. rewrite <-app_assoc. reflexivity.
Qed.

(** [strncpy] writes the whole buffer: the string, cut off when it does not
    fit (then without a terminator), and zeros. *)
Lemma strncpy_Ret w : forall n P mid rest, ~ (0 ∈ w) -> (n <= length mid)%nat ->
  strncpy (P ++ mid) (zlen P) (w ++ 0 :: rest) n = Ret (P ++ take n (w ++ replicate n 0) ++ drop n mid).
Proof.
  induction w as [|x w IH]; intros n P mid rest H0 Hl; (destruct n as [|n]; [reflexivity|]); (destruct mid as [|m mid]; [simpl in Hl; lia|]); simpl in Hl; cbn [strncpy app];
    rewrite arr_set_Ret by (rewrite zlen_app, zlen_cons; pose proof (zlen_nonneg P); pose proof (zlen_nonneg mid); lia);
    rewrite mbind_Ret, str.str_set_mid.
  - rewrite Z.eqb_refl. replace (P ++ 0 :: mid) with ((P ++ [0]) ++ mid) by (rewrite <-app_assoc; reflexivity).
    replace (zlen P + 1) with (zlen (P ++ [0])) by (rewrite zlen_app; reflexivity). rewrite memset_Ret by lia. rewrite <-app_assoc.
    rewrite take_ge by (rewrite length_replicate; lia). reflexivity.
  - apply not_elem_of_cons in H0 as [Hx H0]. rewrite (proj2 (Z.eqb_neq x 0)) by congruence.
    replace (P ++ x :: mid) with ((P ++ [x]) ++ mid) by (rewrite <-app_assoc; reflexivity).
    replace (zlen P + 1) with (zlen (P ++ [x])) by (rewrite zlen_app; reflexivity). rewrite IH by (assumption || lia). rewrite <-app_assoc. cbn [app take drop].
    replace (take n (w ++ replicate (S n) 0)) with (take n (w ++ replicate n 0)); [reflexivity|].
    rewrite !take_app. f_equal. rewrite !take_replicate. f_equal. lia.
Qed.

Lemma strlen_Ret w rest : ~ (0 ∈ w) -> strlen (w ++ 0 :: rest) = Ret (zlen w).
Proof.
  induction w as [|x w IH]; intros H0; cbn [app strlen]; [reflexivity|]. apply not_elem_of_cons in H0 as [Hx H0].
  rewrite (proj2 (Z.eqb_neq x 0)) by congruence. rewrite IH by assumption. rewrite mbind_Ret, zlen_cons. reflexivity.
Qed.
End cstring.

(** ** command_line.h *)

Module command_line.

Definition ARENA : Z := 256.
Definition ARGS : Z := 32.

Record t := mk { arena : list Z; pos : option Z; args : fixed_pool Z }.

Definition init (junk : list Z) : outcome t :=
  s ← str.new junk;
  Ret (mk (str.storage s) (Some 0) (new_fixed_pool ARGS)).

(** [parse_component]: [None] is null *)
Definition parse_component (c : t) : outcome (t * option Z) :=
  match pos c with
  | None => Ret (c, None)
  | Some component_start =>
      sp ← cstring.strchr (S (length (arena c))) (arena c) component_start 32;
      match sp with
      | Some q => a ← arr_set (arena c) q 0; Ret (mk a (Some (q + 1)) (args c), Some component_start)
      | None => Ret (mk (arena c) None (args c), Some component_start)
      end
  end.

(** [while (const char *component = parse_component())] *)
Fixpoint parse_loop (fuel : nat) (c : t) : outcome t :=
  match fuel with
  | O => NoFuel
  | S fuel' =>
      '(c, component) ← parse_component c;
      match component with
      | None => Ret c
      | Some p =>
          x ← arr_get (arena c) p;
          if negb (x =? 0) then
            '(a, _) ← pool.emplace_anywhere U16_MAX (args c) p;
            parse_loop fuel' (mk (arena c) (pos c) a)
          else parse_loop fuel' c
      end
  end.

(** [parse]: each turn of the loop uses up at least one character or ends it. *)
Definition parse (junk : list Z) (c : t) (line : list Z) : outcome t :=
  tmp ← str.from_cstr_all junk line;
  s ← str.assign (str.mk (arena c) 0) tmp;
  parse_loop (S (S (Z.to_nat ARENA))) (mk (str.storage s) (pos c) (args c)).

Definition num_arguments (c : t) : Z := pool.watermark (args c).

Definition argument (c : t) (i : Z) : outcome (list Z) :=
  p ← pool.get U16_MAX (args c) i; cstring.read (arena c) p.

(** The words of a line: the pieces between spaces, without the empty ones *)
Fixpoint split_spaces (l cur : list Z) : list (list Z) :=
  match l with
  | [] => [cur]
  | c :: l' => if c =? 32 then cur :: split_spaces l' [] else split_spaces l' (cur ++ [c])
  end.

Definition words (l : list Z) : list (list Z) := filter (fun w => w <> []) (split_spaces l []).

Lemma split_spaces_word w rest : forall cur, ~ (32 ∈ w) ->
  split_spaces (w ++ rest) cur = split_spaces rest (cur ++ w).
Proof.
  induction w as [|c w IH]; intros cur Hn; [rewrite app_nil_r; reflexivity|]. apply not_elem_of_cons in Hn. destruct Hn as [Hc Hn].
  cbn [app split_spaces]. rewrite (proj2 (Z.eqb_neq c 32)) by congruence. rewrite IH by assumption.
  rewrite <-app_assoc. reflexivity.
Qed.

(** The words consist of characters of the line. *)
Lemma split_spaces_sub l : forall cur w c, w ∈ split_spaces l cur -> c ∈ w -> c ∈ cur ++ l.
Proof.
  induction l as [|d l IH]; intros cur w c; cbn [split_spaces].
  - intros ->%list_elem_of_singleton. rewrite app_nil_r. auto.
  - destruct (Z.eqb_spec d 32) as [->|].
    + intros [->|Hw]%elem_of_cons Hc; [apply elem_of_app; auto|]. apply (IH [] w c Hw) in Hc. apply elem_of_app. right. apply list_elem_of_further. exact Hc.
    + intros Hw Hc. apply (IH _ w c Hw) in Hc. rewrite <-app_assoc in Hc. exact Hc.
Qed.

Lemma words_sub l w c : w ∈ words l -> c ∈ w -> c ∈ l.
Proof. intros [_ Hw]%list_elem_of_filter. apply (split_spaces_sub l []). exact Hw. Qed.

(** A text is one word without spaces, or such a word, a space and the rest. *)
Lemma first_word (Q : list Z) : exists w, ~ (32 ∈ w) /\ (Q = w \/ exists Q', Q = w ++ 32 :: Q').
Proof.
  induction Q as [|c Q (w & Hn & Hc)].
  - exists []. split; [apply not_elem_of_nil|auto].
  - destruct (Z.eq_dec c 32) as [->|Hne]; [exists []; split; [apply not_elem_of_nil|right; exists Q; reflexivity]|].
    exists (c :: w). split; [apply not_elem_of_cons; auto|]. destruct Hc as [->|[Q' ->]]; [auto|right; exists Q'; reflexivity].
Qed.

(** The pieces recorded so far: each is terminated inside the part of the
    arena that is already cut up. *)
Definition recorded (P : list Z) (ps : list Z) (ws : list (list Z)) : Prop :=
  Forall2 (fun p w => forall R, cstring.read (P ++ R) p = Ret w) ps ws.

Lemma recorded_more P P' ps ws : recorded P ps ws -> recorded (P ++ P') ps ws.
Proof. intros H. eapply Forall2_impl; [exact H|]. intros p w Hp R. rewrite <-app_assoc. apply Hp. Qed.

Lemma parse_loop_words n : forall fuel P Q J a ps ws, (length Q < n)%nat -> (n < fuel)%nat -> ~ (0 ∈ Q) ->
  fp_seq a ps -> sp_capacity a = ARGS -> recorded P ps ws ->
  let r := parse_loop fuel (mk (P ++ Q ++ 0 :: J) (Some (zlen P)) a) in
  if zlen ws + zlen (words Q) <=? ARGS then
    exists c ps', r = Ret c /\ fp_seq (args c) ps' /\ recorded (arena c) ps' (ws ++ words Q)
  else r = Panic.
Proof.
  induction n as [|n IH]; intros fuel P Q J a ps ws Hn Hf H0 Ha Hcap Hrec r; [lia|]. subst r. destruct fuel as [|fuel]; [lia|].
  assert (zlen ps = zlen ws) as Hlen by (unfold zlen; rewrite (Forall2_length _ _ _ Hrec); reflexivity).
  destruct (first_word Q) as (w & Hw & Hcase). cbn [parse_loop]. unfold parse_component. cbn [pos arena args].
  destruct Hcase as [->|[Q' ->]].
  - rewrite cstring.strchr_missing by (try assumption; try lia; rewrite !length_app; simpl; lia). rewrite !mbind_Ret. cbv beta iota. cbn [arena pos args].
    unfold words. rewrite <-(app_nil_r w), split_spaces_word, app_nil_r by assumption. cbn [split_spaces app].
    destruct w as [|c w].
    + cbn [app]. rewrite cstring.arr_get_mid, mbind_Ret, Z.eqb_refl. cbn [negb]. destruct fuel as [|fuel]; [lia|].
      cbn [parse_loop]. unfold parse_component. cbn [pos]. rewrite mbind_Ret. cbv beta iota. cbn.
      rewrite app_nil_r, Z.add_0_r. rewrite <-Hlen.
      pose proof Ha as (m & Hr & Hwm & _). pose proof (pool.rep_wm _ _ _ _ Hr) as Hwm2. simpl in Hcap. unfold pool.capacity in Hcap.
      rewrite (proj2 (Z.leb_le _ _)) by lia. eexists _, ps. split; [reflexivity|]. split; [exact Ha|]. apply recorded_more. exact Hrec.
    + change ((c :: w) ++ 0 :: J) with (c :: (w ++ 0 :: J)). rewrite cstring.arr_get_mid, mbind_Ret.
      apply not_elem_of_cons in H0 as H0'. destruct H0' as [Hc0 _]. rewrite (proj2 (Z.eqb_neq c 0)) by congruence. cbn [negb].
      assert (filter (fun w : list Z => w <> []) [c :: w] = [c :: w]) as -> by reflexivity.
      change (zlen [c :: w]) with 1. rewrite <-Hlen. destruct (Z.leb_spec (zlen ps + 1) ARGS).
      * destruct (fp_seq_append a ps (zlen P) Ha) as (a' & -> & Ha' & _); [lia|]. rewrite mbind_Ret. cbv beta iota.
        destruct fuel as [|fuel]; [lia|]. cbn [parse_loop]. unfold parse_component. cbn [pos]. rewrite mbind_Ret. cbv beta iota.
        eexists _, (ps ++ [zlen P]). split; [reflexivity|]. split; [exact Ha'|]. cbn [arena].
        apply Forall2_app; [apply recorded_more; exact Hrec|]. constructor; [|constructor]. intros R.
        rewrite <-app_assoc. change (c :: w ++ 0 :: J) with ((c :: w) ++ 0 :: J). rewrite <-app_assoc. cbn [app].
        apply (cstring.read_here P (c :: w) (J ++ R)). assumption.
      * rewrite (fp_seq_full a ps _ Ha) by lia. reflexivity.
  - rewrite not_elem_of_app, not_elem_of_cons in H0. destruct H0 as (H0w & _ & H0q).
    rewrite <-app_assoc. cbn [app]. rewrite cstring.strchr_found by (try assumption; rewrite !length_app; simpl; lia). rewrite !mbind_Ret.
    cbv beta iota. rewrite app_assoc. replace (zlen P + zlen w) with (zlen (P ++ w)) by (rewrite zlen_app; reflexivity).
    rewrite arr_set_Ret by (rewrite !zlen_app, zlen_cons; pose proof (zlen_nonneg P); pose proof (zlen_nonneg w); pose proof (zlen_nonneg (Q' ++ 0 :: J)); lia).
    rewrite !mbind_Ret, str.str_set_mid. cbv beta iota. cbn [arena pos args].
    assert (zlen (P ++ w) + 1 = zlen ((P ++ w) ++ [0])) as -> by (rewrite (zlen_app (P ++ w)); reflexivity).
    assert ((P ++ w) ++ 0 :: Q' ++ 0 :: J = ((P ++ w) ++ [0]) ++ Q' ++ 0 :: J) as Emem by (rewrite <-!app_assoc; reflexivity).
    assert (words (w ++ 32 :: Q') = filter (fun w => w <> []) [w] ++ words Q') as Ew.
    { unfold words. rewrite split_spaces_word by assumption. cbn [split_spaces app]. change (32 =? 32) with true. cbv iota.
      change (w :: split_spaces Q' []) with ([w] ++ split_spaces Q' []). apply filter_app. }
    rewrite Ew. rewrite length_app in Hn. simpl in Hn.
    destruct w as [|c w].
    + rewrite app_nil_r in *. rewrite cstring.arr_get_mid, mbind_Ret, Z.eqb_refl. cbn [negb]. rewrite Emem. cbn.
      apply (IH fuel (P ++ [0]) Q' J a ps ws); try assumption; try lia. apply recorded_more. exact Hrec.
    + rewrite <-(app_assoc P (c :: w)). cbn [app]. rewrite cstring.arr_get_mid, mbind_Ret.
      apply not_elem_of_cons in H0w as H0'. destruct H0' as [Hc0 _]. rewrite (proj2 (Z.eqb_neq c 0)) by congruence. cbn [negb].
      assert (filter (fun w : list Z => w <> []) [c :: w] = [c :: w]) as -> by reflexivity. cbn [app]. rewrite zlen_cons.
      pose proof (zlen_nonneg (words Q')). rewrite <-Hlen.
      destruct (Z.leb_spec (zlen ps + 1) ARGS).
      * destruct (fp_seq_append a ps (zlen P) Ha) as (a' & -> & Ha' & Hcap'); [lia|]. rewrite mbind_Ret. cbv beta iota. cbn [arena pos args].
        replace (P ++ c :: w ++ 0 :: Q' ++ 0 :: J) with (((P ++ c :: w) ++ [0]) ++ Q' ++ 0 :: J) by (rewrite <-!app_assoc; reflexivity).
        replace (zlen ps + (zlen (words Q') + 1)) with (zlen (ws ++ [c :: w]) + zlen (words Q')) by (rewrite zlen_app; change (zlen [c :: w]) with 1; lia).
        replace (ws ++ (c :: w) :: words Q') with ((ws ++ [c :: w]) ++ words Q') by (rewrite <-app_assoc; reflexivity).
        apply (IH fuel ((P ++ c :: w) ++ [0]) Q' J a' (ps ++ [zlen P]) (ws ++ [c :: w])); try assumption; try lia; [exact (eq_trans Hcap' Hcap)|].
        apply Forall2_app; [rewrite <-app_assoc; apply recorded_more; exact Hrec|]. constructor; [|constructor]. intros R.
        rewrite <-!app_assoc. cbn [app]. apply (cstring.read_here P (c :: w) R). assumption.
      * rewrite (fp_seq_full a ps _ Ha) by lia. rewrite (proj2 (Z.leb_gt _ _)) by lia. reflexivity.
Qed.

(** *** shell.cc: [execute] fills [const char *argv[32]] and terminates it. *)
Fixpoint fill_loop (c : t) (n : nat) (i : Z) (argv : list (option (list Z))) : outcome (list (option (list Z))) :=
  match n with
  | O => arr_set argv i None
  | S n' => a ← argument c i; argv' ← arr_set argv i (Some a); fill_loop c n' (i + 1) argv'
  end.

Definition fill_argv (c : t) (junk : list (option (list Z))) : outcome (list (option (list Z))) :=
  fill_loop c (Z.to_nat (num_arguments c)) 0 junk.

(** What holds of a parsed line *)
Record parsed (c : t) (ws : list (list Z)) : Prop := {
  pd_count : num_arguments c = zlen ws;
  pd_args : forall i w, znth ws i = Some w -> argument c i = Ret w
}.

Lemma parsed_intro c ps ws : fp_seq (args c) ps -> recorded (arena c) ps ws -> parsed c ws.
Proof.
  intros Ha Hrec. split.
  - destruct Ha as (m & _ & Hw & _). unfold num_arguments. rewrite Hw. unfold zlen. rewrite (Forall2_length _ _ _ Hrec). reflexivity.
  - intros i w Hi. unfold argument. pose proof (znth_Some_lt _ _ _ Hi) as Hr.
    unfold znth in Hi. destruct (0 <=? i) eqn:E; [|discriminate].
    destruct (Forall2_lookup_r _ _ _ _ _ Hrec Hi) as (p & Hp & Hread).
    rewrite (fp_seq_get (args c) ps i p Ha) by (unfold znth; rewrite E; exact Hp). rewrite mbind_Ret.
    specialize (Hread []). rewrite app_nil_r in Hread. exact Hread.
Qed.

Lemma fill_loop_spec c ws : parsed c ws -> forall todo done argv, ws = done ++ todo -> length argv = 32%nat ->
  take (length done) argv = Some <$> done ->
  if zlen ws <? 32 then exists argv', fill_loop c (length todo) (zlen done) argv = Ret argv' /\
     take (length ws) argv' = Some <$> ws /\ znth argv' (zlen ws) = Some None
  else zlen ws = 32 -> fill_loop c (length todo) (zlen done) argv = Undef.
Proof.
  intros [Hc Ha]. induction todo as [|w todo IH]; intros done argv Hws Hl Ht; cbn [length fill_loop].
  - rewrite app_nil_r in Hws. subst done. pose proof (zlen_nonneg ws). destruct (Z.ltb_spec (zlen ws) 32).
    + rewrite arr_set_Ret by (unfold zlen in *; lia). eexists. split; [reflexivity|]. split.
      * rewrite <-Ht. unfold zset. rewrite (proj2 (Z.leb_le _ _)) by lia. apply take_insert_ge. unfold zlen. lia.
      * apply znth_zset_eq. unfold zlen in *. lia.
    + intros H32. unfold arr_set. rewrite H32. change (zlen argv) with (Z.of_nat (length argv)). rewrite Hl. reflexivity.
  - assert (znth ws (zlen done) = Some w) as Hw by (rewrite Hws, znth_app_r, Z.sub_diag by lia; reflexivity).
    rewrite (Ha _ _ Hw), mbind_Ret. assert (zlen done + 1 = zlen (done ++ [w])) as Hs by (rewrite zlen_app; reflexivity).
    assert (zlen ws = zlen done + zlen todo + 1) as Hz by (rewrite Hws, zlen_app, zlen_cons; lia).
    pose proof (zlen_nonneg todo). pose proof (zlen_nonneg done).
    destruct (Z.lt_ge_cases (zlen done) 32) as [Hlt|Hge].
    + rewrite arr_set_Ret by (unfold zlen in *; lia). rewrite mbind_Ret, Hs. apply IH.
      * rewrite <-app_assoc. exact Hws.
      * unfold zset. destruct (0 <=? zlen done); [rewrite length_insert|]; assumption.
      * rewrite length_app. simpl. unfold zset. rewrite (proj2 (Z.leb_le _ _)) by lia. unfold zlen. rewrite Nat2Z.id.
        rewrite Nat.add_1_r, (take_S_r _ _ (Some w)) by (apply list_lookup_insert_eq; unfold zlen in *; lia).
        rewrite take_insert_ge by lia. rewrite Ht, fmap_app. reflexivity.
    + rewrite (proj2 (Z.ltb_ge _ _)) by lia. intros H32. lia.
Qed.

(** Parsing any line: its words, or the assertion of the full pool *)
Lemma parse_line_words (junk junk' line : list Z) :
  zlen junk = ARENA -> zlen junk' = ARENA -> ~ (0 ∈ line) -> let ws := words (take 255 line) in
  if zlen ws <=? ARGS then exists c, (c ← init junk; parse junk' c line) = Ret c /\ parsed c ws
  else (c ← init junk; parse junk' c line) = Panic.
Proof.
  intros Hj Hj' H0 ws. unfold ARENA in Hj, Hj'. pose proof (zlen_nonneg junk).
  assert (zlen (take 255 line) <= 255) as Hle by (unfold zlen; rewrite length_take; lia).
  assert (~ (0 ∈ take 255 line)) as H0t by (intros Hin; apply H0; rewrite <-(take_drop 255 line); apply elem_of_app; auto).
  destruct (str.str_new junk ltac:(lia)) as (s0 & E0 & Hr0 & Hc0).
  assert (exists J, (c ← init junk; parse junk' c line) =
    parse_loop (S (S (Z.to_nat ARENA)))
      (mk ([] ++ take 255 line ++ 0 :: J) (Some 0) (new_fixed_pool ARGS))) as [J ->].
  { unfold init. rewrite E0, !mbind_Ret. unfold parse, str.from_cstr_all, str.from_cstr.
    rewrite Hj'. change (Z.to_nat (Z.min (256 - 1) (256 - 1))) with 255%nat. cbn [arena pos args].
    destruct (take 255 line) as [|x l] eqn:El.
    - cbn [str.append_str]. rewrite mbind_Ret. unfold str.assign. cbn [str.position str.storage].
      change (take (Z.to_nat 0) junk') with (@nil Z). cbn [str.append_str]. rewrite mbind_Ret. destruct (str.str_rep_split s0 [] Hr0) as [J HJ]. exists J. cbn [str.storage app] in *. rewrite HJ. reflexivity.
    - rewrite <-El in *. assert (0 < zlen (take 255 line)) as Hpos by (rewrite El, zlen_cons; pose proof (zlen_nonneg l); lia).
      destruct (str.str_append_junk junk' (take 255 line) ltac:(lia)) as (tmp & -> & Hrt). rewrite mbind_Ret. unfold str.assign.
      cbn [str.storage]. rewrite (str.rep_position _ _ Hrt). unfold zlen at 1. rewrite Nat2Z.id, (str.rep_text _ _ Hrt).
      destruct (str.str_append_junk (str.storage s0) (take 255 line)) as (s1 & -> & Hr1); [unfold str.capacity in Hc0; lia|].
      rewrite mbind_Ret. destruct (str.str_rep_split _ _ Hr1) as [J HJ]. exists J. rewrite HJ. reflexivity. }
  pose proof (parse_loop_words 256 (S (S (Z.to_nat ARENA))) [] (take 255 line) J (new_fixed_pool ARGS) [] [])
    as Hp. cbv zeta in Hp. change (zlen (@nil (list Z))) with 0 in Hp. change (zlen (@nil Z)) with 0 in Hp. fold ws in Hp.
  rewrite Z.add_0_l in Hp.
  specialize (Hp ltac:(unfold zlen in Hle; lia) ltac:(vm_compute; lia) H0t (fp_seq_new ARGS ltac:(vm_compute; congruence)) eq_refl ltac:(constructor)).
  destruct (zlen ws <=? ARGS) eqn:Ew; [|exact Hp]. destruct Hp as (c & ps & Ec & Ha & Hrec). cbn [app] in Hrec.
  exists c. split; [exact Ec|]. exact (parsed_intro c ps ws Ha Hrec).
Qed.
End command_line.

(** Parsing a line cuts its first 255 characters at the spaces: the
    arguments are exactly its words, in order, however many spaces separate
    them; more than 32 words stop the program.  The shell then builds the
    argument vector of those words, ended by a null pointer; with exactly 32
    words that pointer is written past the end of the vector. *)
Theorem command_line_words (junk junk' : list Z) (line : list Z) (vec : list (option (list Z))) :
  zlen junk = command_line.ARENA -> zlen junk' = command_line.ARENA -> zlen vec = 32 -> ~ (0 ∈ line) ->
  let ws := command_line.words (take 255 line) in
  if zlen ws <=? command_line.ARGS then
    exists c, (c ← command_line.init junk; command_line.parse junk' c line) = Ret c /\
      command_line.num_arguments c = zlen ws /\
      (forall i w, znth ws i = Some w -> command_line.argument c i = Ret w) /\
      (if zlen ws <? 32 then exists argv, command_line.fill_argv c vec = Ret argv /\
         take (length ws) argv = Some <$> ws /\ znth argv (zlen ws) = Some None
       else command_line.fill_argv c vec = Undef)
  else (c ← command_line.init junk; command_line.parse junk' c line) = Panic.
Proof.
  intros Hj Hj' Hv H0 ws. pose proof (command_line.parse_line_words junk junk' line Hj Hj' H0) as H. cbv zeta in H. fold ws in H.
  destruct (zlen ws <=? command_line.ARGS) eqn:Ew; [|exact H]. destruct H as (c & Ec & Hpd).
  exists c. split; [exact Ec|]. split; [apply Hpd|]. split; [apply Hpd|].
  pose proof (command_line.fill_loop_spec c ws Hpd ws [] vec eq_refl ltac:(unfold zlen in Hv; lia) eq_refl) as Hf.
  unfold command_line.fill_argv. rewrite (command_line.pd_count _ _ Hpd). unfold zlen at 2 4. rewrite Nat2Z.id.
  destruct (Z.ltb_spec (zlen ws) 32); [exact Hf|]. apply Hf. apply Z.leb_le in Ew. unfold command_line.ARGS in Ew. lia.
Qed.

Lemma command_line_words_witness :
  exists c, (c ← command_line.init (replicate 256 7); command_line.parse (replicate 256 9) c [108; 115; 32; 32; 47; 32]) = Ret c /\
    command_line.num_arguments c = 2 /\ command_line.argument c 1 = Ret [47].
Proof.
  pose proof (command_line_words (replicate 256 7) (replicate 256 9) [108; 115; 32; 32; 47; 32] (replicate 32 None) eq_refl eq_refl eq_refl) as H.
  destruct H as (c & E & Hn & Ha & _).
  - intros H. repeat (apply elem_of_cons in H; destruct H as [H|H]; [discriminate H|]). apply not_elem_of_nil in H. done.
  - exists c. split; [exact E|]. split; [exact Hn|]. apply Ha. reflexivity.
Defined.
