(* ===== verification/KeyValue.v ===== *)
(** * p2::keyvalue (libraries/support/keyvalue.h)

    Parses a line of the form [key=value key=value ...] in place. *)

From S2P Require Import Prelude Pool Text Words.
From stdpp Require Import gmap list.
#[local] Open Scope Z_scope.

Module keyvalue.

(** Brings appended lists into a normal form. *)
Ltac app_norm := repeat first [rewrite <-app_assoc | progress (cbn [app])].

Definition ATTRIBS : Z := 16.

(** A null value is [None]. *)
Record attribute := mk_attribute { name : Z; value : option Z }.

Record t := mk { arena : list Z; attribs : fixed_pool attribute; pos : Z }.

(** [parse_key]: the new arena and position, and the start of the key or null *)
Fixpoint parse_key (fuel : nat) (mem : list Z) (start pos : Z) : outcome (list Z * Z * option Z) :=
  match fuel with
  | O => NoFuel
  | S fuel' =>
      c ← arr_get mem pos;
      if c =? 61 then m ← arr_set mem pos 0; Ret (m, pos + 1, Some start)
      else if c =? 32 then Ret (mem, pos + 1, None)
      else if c =? 0 then Ret (mem, pos, None)
      else parse_key fuel' mem start (pos + 1)
  end.

Fixpoint parse_value (fuel : nat) (mem : list Z) (start pos : Z) : outcome (list Z * Z * option Z) :=
  match fuel with
  | O => NoFuel
  | S fuel' =>
      c ← arr_get mem pos;
      if c =? 61 then Ret (mem, pos + 1, None)
      else if c =? 32 then m ← arr_set mem pos 0; Ret (m, pos + 1, Some start)
      else if c =? 0 then Ret (mem, pos, Some start)
      else parse_value fuel' mem start (pos + 1)
  end.

(** The loop of [parse()], up to the terminator *)
Fixpoint parse (fuel : nat) (kv : t) : outcome t :=
  match fuel with
  | O => NoFuel
  | S fuel' =>
      c ← arr_get (arena kv) (pos kv);
      if c =? 0 then Ret kv
      else
        let n := S (length (arena kv)) in
        '(m, p, key) ← parse_key n (arena kv) (pos kv) (pos kv);
        match key with
        | None => parse fuel' (mk m (attribs kv) p)
        | Some k =>
            '(m, p, v) ← parse_value n m p p;
            '(a, _) ← pool.emplace_anywhere U16_MAX (attribs kv) (mk_attribute k v);
            parse fuel' (mk m a p)
        end
  end.

(** [keyvalue(line)]; every turn of [parse] moves on by a character. *)
Definition keyvalue (junk line : list Z) : outcome t :=
  s ← str.from_cstr_all junk line;
  parse (S (length junk)) (mk (str.storage s) (new_fixed_pool ATTRIBS) 0).

(** The loop of [operator []]; the value is the C string it points to *)
Fixpoint lookup_loop (n : nat) (kv : t) (i : Z) (key : list Z) : outcome (option (list Z)) :=
  match n with
  | O => Ret None
  | S n' =>
      if negb (pool.valid U16_MAX (attribs kv) i) then lookup_loop n' kv (i + 1) key
      else
        a ← pool.get U16_MAX (attribs kv) i;
        eq ← cstring.str_equal (arena kv) (name a) key;
        if eq : bool then
          match value a with
          | None => Ret None
          | Some v => s ← cstring.read (arena kv) v; Ret (Some s)
          end
        else lookup_loop n' kv (i + 1) key
  end.

Definition lookup (kv : t) (key : list Z) : outcome (option (list Z)) :=
  lookup_loop (Z.to_nat (pool.watermark (attribs kv))) kv 0 key.

(** ** Lines *)

(** No space, no equals sign, no terminator *)
Definition clean (w : list Z) : Prop := Forall (fun c => c <> 0 /\ c <> 32 /\ c <> 61) w.

Fixpoint render (kvs : list (list Z * list Z)) : list Z :=
  match kvs with
  | [] => []
  | [(k, v)] => k ++ 61 :: v
  | (k, v) :: kvs' => k ++ 61 :: v ++ 32 :: render kvs'
  end.

Lemma clean_no_nul w : clean w -> ~ (0 ∈ w).
Proof. intros H Hin. apply (proj1 (Forall_forall _ _) H) in Hin. lia. Qed.

Lemma kv_parse_key k : forall fuel P start rest, clean k -> (length k < fuel)%nat ->
  parse_key fuel (P ++ k ++ 61 :: rest) start (zlen P) =
  Ret ((P ++ k) ++ 0 :: rest, zlen ((P ++ k) ++ [0]), Some start).
Proof.
  induction k as [|c k IH]; intros fuel P start rest Hk Hf; (destruct fuel as [|fuel]; [simpl in Hf; lia|]); cbn [parse_key app].
  - rewrite cstring.arr_get_mid, mbind_Ret. change (61 =? 61) with true. cbv iota.
    rewrite arr_set_Ret by (rewrite zlen_app, zlen_cons; pose proof (zlen_nonneg P); pose proof (zlen_nonneg rest); lia).
    rewrite mbind_Ret, str.str_set_mid, app_nil_r. do 3 f_equal. rewrite zlen_app. reflexivity.
  - rewrite cstring.arr_get_mid, mbind_Ret. inversion Hk as [|? ? (Hc0 & Hc1 & Hc2) Hk']. subst.
    rewrite (proj2 (Z.eqb_neq c 61)), (proj2 (Z.eqb_neq c 32)), (proj2 (Z.eqb_neq c 0)) by assumption.
    assert (zlen P + 1 = zlen (P ++ [c])) as -> by (rewrite zlen_app; reflexivity).
    replace (P ++ c :: k ++ 61 :: rest) with ((P ++ [c]) ++ k ++ 61 :: rest) by (rewrite <-app_assoc; reflexivity).
    rewrite IH by (assumption || (simpl in Hf; lia)). rewrite <-(app_assoc P [c] k). reflexivity.
Qed.

Lemma kv_parse_value v : forall fuel P start e rest, clean v -> (length v < fuel)%nat -> e = 0 \/ e = 32 ->
  parse_value fuel (P ++ v ++ e :: rest) start (zlen P) =
  Ret ((P ++ v) ++ 0 :: rest, zlen (P ++ v) + (if e =? 0 then 0 else 1), Some start).
Proof.
  induction v as [|c v IH]; intros fuel P start e rest Hv Hf He; (destruct fuel as [|fuel]; [simpl in Hf; lia|]); cbn [parse_value app].
  - rewrite cstring.arr_get_mid, mbind_Ret, app_nil_r. destruct He as [->| ->].
    + change (0 =? 61) with false. change (0 =? 32) with false. change (0 =? 0) with true. cbv iota. rewrite Z.add_0_r. reflexivity.
    + change (32 =? 61) with false. change (32 =? 32) with true. change (32 =? 0) with false. cbv iota.
      rewrite arr_set_Ret by (rewrite zlen_app, zlen_cons; pose proof (zlen_nonneg P); pose proof (zlen_nonneg rest); lia).
      rewrite mbind_Ret, str.str_set_mid. reflexivity.
  - rewrite cstring.arr_get_mid, mbind_Ret. inversion Hv as [|? ? (Hc0 & Hc1 & Hc2) Hv']. subst.
    rewrite (proj2 (Z.eqb_neq c 61)), (proj2 (Z.eqb_neq c 32)), (proj2 (Z.eqb_neq c 0)) by assumption.
    assert (zlen P + 1 = zlen (P ++ [c])) as -> by (rewrite zlen_app; reflexivity).
    replace (P ++ c :: v ++ e :: rest) with ((P ++ [c]) ++ v ++ e :: rest) by (rewrite <-app_assoc; reflexivity).
    rewrite IH by (assumption || (simpl in Hf; lia)). rewrite <-(app_assoc P [c] v). reflexivity.
Qed.

(** An attribute whose name and value are terminated in [P], or reach up to
    its end: the arena continues with a terminator there. *)
Definition holds (P : list Z) (a : attribute) (kv : list Z * list Z) : Prop :=
  exists p, value a = Some p /\ clean kv.1 /\ clean kv.2 /\
    forall R, (exists A B, P ++ 0 :: R = A ++ kv.1 ++ 0 :: B /\ zlen A = name a) /\ cstring.read (P ++ 0 :: R) p = Ret kv.2.

Lemma holds_more P P' a kv : holds P a kv -> holds (P ++ 0 :: P') a kv.
Proof.
  intros (p & Hp & Hk & Hv & H). exists p. split; [assumption|]. split; [assumption|]. split; [assumption|].
  intros R. rewrite <-app_assoc. cbn [app]. apply H.
Qed.

Lemma holds_new P k v : clean k -> clean v ->
  holds (P ++ k ++ 0 :: v) (mk_attribute (zlen P) (Some (zlen ((P ++ k) ++ [0])))) (k, v).
Proof.
  intros Hk Hv. eexists. split; [reflexivity|]. split; [exact Hk|]. split; [exact Hv|]. intros R. cbn [fst snd name]. split.
  - exists P, (v ++ 0 :: R). split; [app_norm; reflexivity|reflexivity].
  - replace ((P ++ k ++ 0 :: v) ++ 0 :: R) with (((P ++ k) ++ [0]) ++ v ++ 0 :: R) by (app_norm; reflexivity).
    apply cstring.read_here. apply clean_no_nul. exact Hv.
Qed.

Definition cut (P : list Z) (attrs : list attribute) (done : list (list Z * list Z)) : Prop :=
  (P = [] /\ attrs = [] /\ done = []) \/ exists P0, P = P0 ++ [0] /\ Forall2 (holds P0) attrs done.

Lemma cut_step P attrs done k v : cut P attrs done -> clean k -> clean v ->
  Forall2 (holds (P ++ k ++ 0 :: v)) (attrs ++ [mk_attribute (zlen P) (Some (zlen ((P ++ k) ++ [0])))]) (done ++ [(k, v)]).
Proof.
  intros Hcut Hk Hv. apply Forall2_app; [|constructor; [apply holds_new; assumption|constructor]].
  destruct Hcut as [(_ & -> & ->)|(P0 & -> & Hall)]; [constructor|].
  eapply Forall2_impl; [exact Hall|]. intros a kv Ha. rewrite <-app_assoc. cbn [app]. apply holds_more. exact Ha.
Qed.

Lemma kv_parse kvs : kvs <> [] -> Forall (fun kv => clean kv.1 /\ clean kv.2) kvs ->
  forall fuel P J a attrs done, (length kvs < fuel)%nat -> fp_seq a attrs -> sp_capacity a = ATTRIBS ->
  zlen attrs + zlen kvs <= ATTRIBS -> cut P attrs done ->
  exists kv' attrs' P1, parse fuel (mk (P ++ render kvs ++ 0 :: J) a (zlen P)) = Ret kv' /\
    arena kv' = P1 ++ 0 :: J /\ fp_seq (attribs kv') attrs' /\ Forall2 (holds P1) attrs' (done ++ kvs).
Proof.
  induction kvs as [|[k v] kvs IH]; [done|]. intros _ Hcl fuel P J a attrs done Hf Ha Hcap Hroom Hcut.
  inversion Hcl as [|? ? [Hk Hv] Hcl']. cbn [fst snd] in Hk, Hv. subst. destruct fuel as [|fuel]; [simpl in Hf; lia|].
  set (e := match kvs with [] => 0 | _ => 32 end).
  set (J' := match kvs with [] => J | _ => render kvs ++ 0 :: J end).
  assert (render ((k, v) :: kvs) ++ 0 :: J = k ++ 61 :: v ++ e :: J') as Eline.
  { unfold e, J'. destruct kvs as [|kv2 kvs]; cbn [render]; app_norm; reflexivity. }
  rewrite Eline. cbn [parse arena pos attribs].
  assert (exists x, arr_get (P ++ k ++ 61 :: v ++ e :: J') (zlen P) = Ret x /\ x <> 0) as (x & Hx & Hx0).
  { destruct k as [|c k]; cbn [app]; rewrite cstring.arr_get_mid; eexists; (split; [reflexivity|]); [discriminate|].
    inversion Hk as [|? ? (Hc & _) _]. exact Hc. }
  rewrite Hx, mbind_Ret, (proj2 (Z.eqb_neq x 0)) by assumption. cbv zeta.
  rewrite kv_parse_key by (assumption || (rewrite !length_app; lia)). rewrite mbind_Ret. cbv beta iota.
  replace ((P ++ k) ++ 0 :: v ++ e :: J') with (((P ++ k) ++ [0]) ++ v ++ e :: J') by (rewrite <-app_assoc; reflexivity).
  rewrite kv_parse_value; [|exact Hv|rewrite !length_app; simpl; rewrite !length_app; lia|unfold e; destruct kvs; auto].
  rewrite mbind_Ret. cbv beta iota. rewrite zlen_cons in Hroom. pose proof (zlen_nonneg kvs).
  destruct (fp_seq_append a attrs (mk_attribute (zlen P) (Some (zlen ((P ++ k) ++ [0])))) Ha) as (a' & -> & Ha' & Hcap'); [lia|].
  rewrite mbind_Ret. cbv beta iota. pose proof (cut_step P attrs done k v Hcut Hk Hv) as Hall.
  assert (((P ++ k) ++ [0]) ++ v = P ++ k ++ 0 :: v) as EP by (rewrite <-!app_assoc; reflexivity). rewrite EP.
  unfold e, J'. destruct kvs as [|kv2 kvs].
  - destruct fuel as [|fuel]; [simpl in Hf; lia|]. change (0 =? 0) with true. cbv iota. rewrite Z.add_0_r.
    cbn [parse arena pos]. rewrite cstring.arr_get_mid, mbind_Ret. change (0 =? 0) with true. cbv iota.
    eexists _, _, _. split; [reflexivity|]. split; [reflexivity|]. split; [exact Ha'|exact Hall].
  - change (32 =? 0) with false. cbv iota.
    assert (zlen (P ++ k ++ 0 :: v) + 1 = zlen ((P ++ k ++ 0 :: v) ++ [0])) as -> by (rewrite (zlen_app (P ++ k ++ 0 :: v)); reflexivity).
    replace ((P ++ k ++ 0 :: v) ++ 0 :: render (kv2 :: kvs) ++ 0 :: J) with (((P ++ k ++ 0 :: v) ++ [0]) ++ render (kv2 :: kvs) ++ 0 :: J)
      by (rewrite <-app_assoc; reflexivity).
    destruct (IH ltac:(discriminate) Hcl' fuel ((P ++ k ++ 0 :: v) ++ [0]) J a' _ (done ++ [(k, v)]) ltac:(simpl in *; lia) Ha')
      as (kv' & attrs' & P1 & E & Har & Hat & Hh).
    + exact (eq_trans Hcap' Hcap).
    + rewrite zlen_app. change (zlen [mk_attribute _ _]) with 1. lia.
    + right. eauto.
    + exists kv', attrs', P1. rewrite <-app_assoc in Hh. auto.
Qed.

(** The value of the first pair with the key *)
Fixpoint assoc (kvs : list (list Z * list Z)) (key : list Z) : option (list Z) :=
  match kvs with
  | [] => None
  | (k, v) :: kvs' => if bool_decide (k = key) then Some v else assoc kvs' key
  end.

Lemma kv_lookup_loop kv P1 J attrs kvs key : arena kv = P1 ++ 0 :: J -> fp_seq (attribs kv) attrs -> Forall2 (holds P1) attrs kvs ->
  ~ (0 ∈ key) -> forall todo tk i, i = zlen attrs - zlen todo -> (exists pre, attrs = pre ++ todo) -> Forall2 (holds P1) todo tk ->
  lookup_loop (length todo) kv i key = Ret (assoc tk key).
Proof.
  intros Har Ha Hall Hkey todo tk i Hi Hpre Htk. revert i Hi Hpre. induction Htk as [|a [k v] todo tk Hh Htk IH]; intros i Hi [pre Hpre]; [reflexivity|].
  cbn [length lookup_loop assoc]. rewrite zlen_cons in Hi. pose proof (zlen_nonneg todo).
  assert (i = zlen pre) as Hip by (rewrite Hpre, zlen_app, zlen_cons in Hi; lia).
  assert (znth attrs i = Some a) as Hia by (rewrite Hpre, Hip, znth_app_r, Z.sub_diag by lia; reflexivity).
  pose proof (znth_Some_lt _ _ _ Hia) as Hri.
  rewrite (fp_seq_valid _ attrs i Ha Hri). cbn [negb]. rewrite (fp_seq_get _ attrs i a Ha Hia), mbind_Ret.
  destruct Hh as (p & Hp & Hk & Hv & Hmem). cbn [fst snd] in *. specialize (Hmem J). destruct Hmem as [(A & B & EA & HA) Hread].
  rewrite Har, EA, <-HA, cstring.str_equal_read by (assumption || (apply clean_no_nul; assumption)). rewrite mbind_Ret, <-EA.
  case_bool_decide as Ek.
  - rewrite Hp, Hread, mbind_Ret. reflexivity.
  - rewrite (IH (i + 1)); [reflexivity|lia|]. exists (pre ++ [a]). rewrite <-app_assoc. exact Hpre.
Qed.
End keyvalue.

(** A line of up to 16 [key=value] pairs that fits the arena is parsed
    so that a lookup gives the value of the first pair with the key, or null
    when there is none. *)
Theorem keyvalue_lookup (junk : list Z) (kvs : list (list Z * list Z)) (key : list Z) :
  kvs <> [] -> zlen kvs <= keyvalue.ATTRIBS ->
  Forall (fun kv => keyvalue.clean kv.1 /\ keyvalue.clean kv.2) kvs -> ~ (0 ∈ key) ->
  0 < zlen (keyvalue.render kvs) < zlen junk ->
  exists kv, keyvalue.keyvalue junk (keyvalue.render kvs) = Ret kv /\ keyvalue.lookup kv key = Ret (keyvalue.assoc kvs key).
Proof.
  intros Hne Hcount Hcl Hkey Hlen. unfold keyvalue.keyvalue, str.from_cstr_all, str.from_cstr.
  rewrite take_ge by (unfold zlen in *; lia).
  destruct (str.str_append_junk junk (keyvalue.render kvs) Hlen) as (s & -> & Hr). rewrite mbind_Ret.
  destruct (str.str_rep_split _ _ Hr) as [J HJ]. rewrite HJ.
  destruct (keyvalue.kv_parse kvs Hne Hcl (S (length junk)) [] J (new_fixed_pool keyvalue.ATTRIBS) [] [])
    as (kv & attrs & P1 & E & Har & Ha & Hh).
  - assert (length kvs <= length (keyvalue.render kvs))%nat as Hl.
    { clear. induction kvs as [|[k v] [|kv2 kvs] IH]; [simpl; lia|cbn [keyvalue.render]; rewrite length_app; simpl; lia|].
      cbn [keyvalue.render length] in *. rewrite length_app. cbn [length]. rewrite length_app. cbn [length]. lia. }
    unfold zlen in Hlen. lia.
  - apply fp_seq_new. vm_compute. congruence.
  - reflexivity.
  - change (zlen []) with 0. lia.
  - left. auto.
  - exists kv. split; [exact E|]. unfold keyvalue.lookup. pose proof Ha as (m & _ & Hw & _). rewrite Hw. unfold zlen. rewrite Nat2Z.id.
    apply (keyvalue.kv_lookup_loop kv P1 J attrs kvs key Har Ha Hh Hkey attrs kvs); [lia|exists []; reflexivity|exact Hh].
Qed.

(** ["ip=1 gw=2"] *)
Lemma keyvalue_lookup_witness :
  exists kv, keyvalue.keyvalue (replicate 16 7) [105; 112; 61; 49; 32; 103; 119; 61; 50] = Ret kv /\
    keyvalue.lookup kv [103; 119] = Ret (Some [50]).
Proof.
  apply (keyvalue_lookup (replicate 16 7) [([105; 112], [49]); ([103; 119], [50])] [103; 119]).
  - discriminate.
  - vm_compute. congruence.
  - repeat constructor; simpl; lia.
  - intros H. repeat (apply elem_of_cons in H; destruct H as [H|H]; [discriminate H|]). apply not_elem_of_nil in H. done.
  - vm_compute. auto.
Defined.
