(* ===== verification/KernelDefs.v ===== *)
(** * Constants and result types of the kernel (kernel/syscall_decls.h,
      libraries/support/result.h, the p2::min family of support/utils.h)

    Error codes, open and seek flags, control numbers, and the error carrying
    result type the kernel functions return. *)

From S2P Require Import Prelude.
#[local] Open Scope Z_scope.

Module kdefs.

Definition ENOSUPPORT : Z := -100.
Definition ENOENT : Z := -200.
Definition ENODIR : Z := -201.
Definition ENODRIVER : Z := -202.
Definition ENOSPACE : Z := -203.
Definition EINCONSTATE : Z := -204.
Definition EINVVAL : Z := -205.
Definition EBUSY : Z := -206.
Definition ETIMEOUT : Z := -207.

Definition OPEN_CREATE : Z := 0x04.
Definition OPEN_RETAIN_EXEC : Z := 0x10.
Definition SEEK_CUR : Z := 1.
Definition SEEK_BEG : Z := 2.
Definition CTRL_RAMFS_SET_FILE_RANGE : Z := 0x0100.
Definition CTRL_RAMFS_GET_FILE_RANGE : Z := 0x0200.

(** [p2::result<T>] *)
Inductive res (T : Type) : Type :=
| success (value : T)
| failure (code : Z).
Arguments success {T} value.
Arguments failure {T} code.

(** [operator *]: the assertion of the accessor *)
Definition res_value {T} (r : res T) : outcome T :=
  match r with success v => Ret v | failure _ => Panic end.

(** The pieces of support/utils.h; [min] and [max] are those of [Z] at the
    width of their operands. *)
Definition clamp (val low high : Z) : Z := Z.max (Z.min val high) low.

Definition ALIGN_UP (val align : Z) : Z := Z.land (u32 (u32 (val + align) - 1)) (Z.lnot (align - 1)).
Definition ALIGN_DOWN (val align : Z) : Z := Z.land val (Z.lnot (align - 1)).

End kdefs.
