(* ===== verification/Ramfs.v ===== *)
(** * The RAM file system (kernel/ramfs.cc, kernel/ramfs_private.h)

    Four append-only tables (inode-like nodes, directory entries, memory range
    files) and the table of opened files.  A directory is a singly linked list
    of entries threaded through the entry table, newest first.  File contents
    are ranges of memory, which the file system never writes: [mem] is what
    the memory holds.  [junk16] and [junk128] are the uninitialised storage
    of the strings on the stack. *)

From S2P Require Import Prelude Pool Text KernelDefs.
#[local] Open Scope Z_scope.

Module ramfs.
Import kdefs.

Definition TYPE_MEM_RANGE_FILE : Z := 1.
Definition TYPE_DIRECTORY : Z := 2.

Record ramfs_opened_file := mk_opened { of_node : Z; of_position : Z }.
Record mem_range_file := mk_range { mr_start : Z; mr_size : Z }.
Record dirent := mk_dirent { de_name : str.t; de_node : Z; de_next : Z }.
Record file_node := mk_node { fn_type : Z; fn_file : Z }.

Record t := mk {
  mem_range_files : fixed_pool mem_range_file;
  directories : fixed_pool dirent;
  nodes : fixed_pool file_node;
  root : Z;
  opened_files : fixed_pool ramfs_opened_file
}.

Definition set_files (st : t) v := mk v (directories st) (nodes st) (root st) (opened_files st).
Definition set_dirs (st : t) v := mk (mem_range_files st) v (nodes st) (root st) (opened_files st).
Definition set_nodes (st : t) v := mk (mem_range_files st) (directories st) v (root st) (opened_files st).
Definition set_opened (st : t) v := mk (mem_range_files st) (directories st) (nodes st) (root st) v.

Section ops.
Variables (junk16 junk128 : list Z).
Variable mem : Z -> Z.
Implicit Type st : t.

(** The file system part of [ramfs_init]; mounting is done by the VFS model. *)
Definition ramfs_init : outcome t :=
  '(nodes, root) ← pool.emplace_anywhere U16_MAX (new_fixed_pool 64) (mk_node TYPE_DIRECTORY U16_MAX);
  Ret (mk (new_fixed_pool 64) (new_fixed_pool 16) nodes root (new_fixed_pool 32)).

(** The loop of [find_dirent]; an entry list has at most 16 elements. *)
Fixpoint find_loop (fuel : nat) st (dirent_idx : Z) (name : str.t) : outcome (option dirent) :=
  match fuel with
  | O => NoFuel
  | S fuel' =>
      if dirent_idx =? U16_MAX then Ret None
      else
        entry ← pool.get U16_MAX (directories st) dirent_idx;
        if str.eqb (de_name entry) name then Ret (Some entry)
        else find_loop fuel' st (de_next entry) name
  end.

Definition find_dirent st (dir_node : Z) (name : str.t) : outcome (option dirent) :=
  node ← pool.get U16_MAX (nodes st) dir_node;
  if negb (fn_type node =? TYPE_DIRECTORY) then Ret None
  else find_loop 17 st (fn_file node) name.

(** Length of the first segment: what [strchr] finds, or the whole rest *)
Fixpoint segment_length (s : list Z) : nat :=
  match s with
  | [] => O
  | c :: s' => if c =? 47 then O else S (segment_length s')
  end.

Fixpoint lookup_aux (fuel : nat) st (parent : Z) (path : list Z) : outcome Z :=
  match fuel with
  | O => NoFuel
  | S fuel' =>
      match path with
      | [] => Ret parent
      | c :: seg_start =>
          if (c =? 47) && (zlen seg_start =? 0) then Ret parent
          else
            passert (c =? 47);;
            let len := segment_length seg_start in
            segment ← str.from_cstr junk16 seg_start (Z.of_nat len);
            entry ← find_dirent st parent segment;
            match entry with
            | Some e => lookup_aux fuel' st (de_node e) (drop len seg_start)
            | None => Ret U16_MAX
            end
      end
  end.

(** [lookup]: each call consumes at least one character. *)
Definition lookup st (parent : Z) (path : list Z) : outcome Z := lookup_aux (S (length path)) st parent path.

(** [read(handle, data, length)]: the returned count and the bytes copied to
    [data].  The count is computed in unsigned arithmetic and converted to
    [int]; [memcpy] takes it back to an unsigned size. *)
Definition read st (handle length : Z) : outcome (t * (Z * list Z)) :=
  fd ← pool.get U16_MAX (opened_files st) (u16 handle);
  node ← pool.get U16_MAX (nodes st) (of_node fd);
  file ← pool.get U16_MAX (mem_range_files st) (fn_file node);
  let bytes_to_copy := to_i32 (u32 (Z.min (u32 (of_position fd + length)) (mr_size file) - of_position fd)) in
  if bytes_to_copy <? 0 then Undef
  else
    let src := u32 (mr_start file + of_position fd) in
    let data := (fun k => mem (src + k)) <$> seqZ 0 bytes_to_copy in
    opened ← pool.modify U16_MAX (opened_files st) (u16 handle)
               (fun fd => mk_opened (of_node fd) (u32 (of_position fd + bytes_to_copy)));
    Ret (set_opened st opened, (bytes_to_copy, data)).

(** The content of a new file: none for a directory, an empty range else *)
Definition create_content st (type : Z) : outcome (t * Z) :=
  if type =? TYPE_DIRECTORY then Ret (st, U16_MAX)
  else if type =? TYPE_MEM_RANGE_FILE then
    '(files, f) ← pool.emplace_anywhere U16_MAX (mem_range_files st) (mk_range 0 0);
    Ret (set_files st files, f)
  else Panic.

Definition create_file st (parent_path filename : list Z) (type : Z) : outcome (t * Z) :=
  parent ← lookup st (root st) parent_path;
  if parent =? U16_MAX then Ret (st, ENOENT)
  else
    parent_node ← pool.get U16_MAX (nodes st) parent;
    if negb (fn_type parent_node =? TYPE_DIRECTORY) then Ret (st, ENODIR)
    else
      '(st, file) ← create_content st type;
      '(nodes', file_node) ← pool.emplace_anywhere U16_MAX (nodes st) (mk_node type file);
      name ← str.from_cstr_all junk16 filename;
      '(dirs, dir_entry) ← pool.emplace_anywhere U16_MAX (directories st)
                             (mk_dirent name file_node (fn_file parent_node));
      nodes' ← pool.modify U16_MAX nodes' parent (fun n => mk_node (fn_type n) dir_entry);
      Ret (set_dirs (set_nodes st nodes') dirs, file_node).

(** [p2::string<128> dir, base; p2::dirname(path, &dir, &base);] *)
Definition split_path (path : str.t) : outcome (list Z * list Z) :=
  dir ← str.new junk128;
  base ← str.new junk128;
  '(dir, base) ← fmt.dirname junk128 path dir base;
  d ← str.c_str dir;
  b ← str.c_str base;
  Ret (d, b).

Definition open st (path : list Z) (flags : Z) : outcome (t * Z) :=
  node ← lookup st (root st) path;
  '(st, node) ←
    (if node =? U16_MAX then
       if Z.land flags OPEN_CREATE =? 0 then Ret (st, ENOENT)
       else
         p ← str.from_cstr_all junk128 path;
         '(dir, base) ← split_path p;
         create_file st dir base TYPE_MEM_RANGE_FILE
     else Ret (st, node));
  if node <? 0 then Ret (st, node)
  else
    '(opened, h) ← pool.emplace_anywhere U16_MAX (opened_files st) (mk_opened (u16 node) 0);
    Ret (set_opened st opened, h).

(** [control] either returns, having stored words at the given addresses, or
    kills the calling process (the macro [verify_ptr]); [valid_pointer] is
    the check of syscall_utils.h.  The size is stored before its pointer is
    checked. *)
Inductive ctl_result :=
| Returned (st : t) (value : Z) (writes : list (Z * Z))
| Killed (writes : list (Z * Z)).

Variable valid_pointer : Z -> bool.

Definition control st (handle function param1 param2 : Z) : outcome ctl_result :=
  fd ← pool.get U16_MAX (opened_files st) (u16 handle);
  node ← pool.get U16_MAX (nodes st) (of_node fd);
  if function =? CTRL_RAMFS_SET_FILE_RANGE then
    passert (fn_type node =? TYPE_MEM_RANGE_FILE);;
    file ← pool.get U16_MAX (mem_range_files st) (fn_file node);
    passert (mr_size file =? 0);;
    files ← pool.modify U16_MAX (mem_range_files st) (fn_file node) (fun _ => mk_range param1 param2);
    Ret (Returned (set_files st files) 0 [])
  else if function =? CTRL_RAMFS_GET_FILE_RANGE then
    passert (fn_type node =? TYPE_MEM_RANGE_FILE);;
    file ← pool.get U16_MAX (mem_range_files st) (fn_file node);
    if negb (param1 =? 0) && negb (valid_pointer param1) then Ret (Killed [])
    else
      let w1 := if negb (param1 =? 0) then [(param1, mr_start file)] else [] in
      let w2 := if negb (param2 =? 0) then [(param2, mr_size file)] else [] in
      if negb (param2 =? 0) && negb (valid_pointer param2) then Ret (Killed (w1 ++ w2))
      else Ret (Returned st 0 (w1 ++ w2))
  else Ret (Returned st (-1) []).

Definition close st (handle : Z) : outcome (t * Z) :=
  opened ← pool.erase U16_MAX (opened_files st) (u16 handle);
  Ret (set_opened st opened, 0).

Definition seek st (handle offset relative : Z) : outcome (t * Z) :=
  fd ← pool.get U16_MAX (opened_files st) (u16 handle);
  node ← pool.get U16_MAX (nodes st) (of_node fd);
  file ← pool.get U16_MAX (mem_range_files st) (fn_file node);
  position ← (if relative =? SEEK_CUR then Ret (u32 (of_position fd + offset))
              else if relative =? SEEK_BEG then Ret (Z.max offset 0)
              else Panic);
  let position := clamp position 0 (mr_size file) in
  opened ← pool.modify U16_MAX (opened_files st) (u16 handle) (fun fd => mk_opened (of_node fd) position);
  Ret (set_opened st opened, 0).

(** [tell]: the position stored through the pointer *)
Definition tell st (handle position_ptr : Z) : outcome Z :=
  passert (negb (position_ptr =? 0));;
  fd ← pool.get U16_MAX (opened_files st) (u16 handle);
  Ret (to_i32 (of_position fd)).

Definition mkdir st (pathname : list Z) : outcome (t * Z) :=
  path ← str.from_cstr_all junk128 pathname;
  if str.size path =? 0 then Ret (st, -1)
  else
    last ← str.at_ path (str.size path - 1);
    path ← (if last =? 47 then str.backspace path else Ret path);
    '(dir, base) ← split_path path;
    '(st, ret) ← create_file st dir base TYPE_DIRECTORY;
    if ret >=? 0 then Ret (st, 0) else Ret (st, ret).

End ops.
End ramfs.
