(* ===== verification/RamfsFacts.v ===== *)
(** * Correctness of the RAM file system

    The linked entry lists and tables of Ramfs refine a name space: a finite
    map from paths (lists of names) to nodes.  Creating an entry adds one path
    and changes no other, except that an entry of an existing name hides what
    was below the old one. *)

From S2P Require Import Prelude Pool Text KernelDefs Ramfs.
From stdpp Require Import gmap list.
#[local] Open Scope Z_scope.

Module ramfs_spec.
Import kdefs ramfs.

Abbreviation name := (list Z).
Abbreviation path := (list name).

(** ** Path strings *)

(** Names are cut at 15 characters. *)
Definition cut (s : list Z) : name := take 15 s.

Fixpoint segs (s : list Z) : list (list Z) :=
  match s with
  | [] => [[]]
  | c :: s' => if c =? 47 then [] :: segs s'
               else match segs s' with x :: xs => (c :: x) :: xs | [] => [[c]] end
  end.

(** A trailing slash does not count. *)
Fixpoint trim (xs : list (list Z)) : list (list Z) :=
  match xs with
  | [] => []
  | [[]] => []
  | x :: xs' => x :: trim xs'
  end.

Definition components (p : list Z) : path :=
  match p with [] => [] | _ :: p' => cut <$> trim (segs p') end.

Definition absolute (p : list Z) : bool := match p with [] => true | c :: _ => c =? 47 end.

(** The part before the last slash, and the part after it *)
Definition dir_of (p : list Z) : list Z :=
  match str.last_of 47 p with Some k => take k p | None => [] end.
Definition base_of (p : list Z) : list Z :=
  match str.last_of 47 p with Some k => drop (S k) p | None => p end.

Definition strip_slash (p : list Z) : list Z :=
  match last p with Some c => if c =? 47 then removelast p else p | None => p end.

Lemma segs_cons s : exists x xs, segs s = x :: xs.
Proof. induction s as [|c s (x & xs & IH)]; cbn [segs]; [eauto|]. destruct (c =? 47); [eauto|]. rewrite IH. eauto. Qed.

Lemma segs_first s : segs s = take (segment_length s) s ::
  match drop (segment_length s) s with [] => [] | _ :: r => segs r end.
Proof.
  induction s as [|c s IH]; [reflexivity|]. cbn [segs segment_length]. destruct (c =? 47); [reflexivity|].
  rewrite IH. reflexivity.
Qed.

Lemma drop_segment s : match drop (segment_length s) s with [] => True | c :: _ => c = 47 end.
Proof.
  induction s as [|c s IH]; [exact I|]. cbn [segment_length]. destruct (Z.eqb_spec c 47) as [->|]; [reflexivity|exact IH].
Qed.

Lemma components_cons s : s <> [] ->
  components (47 :: s) = cut (take (segment_length s) s) :: components (drop (segment_length s) s).
Proof.
  intros Hs. unfold components at 1. rewrite segs_first.
  destruct (drop (segment_length s) s) as [|c r] eqn:E.
  - assert (take (segment_length s) s = s) as Et by (apply take_ge; apply (f_equal length) in E; rewrite length_drop in E; simpl in E; lia).
    rewrite Et. destruct s; [contradiction|]. reflexivity.
  - destruct (segs_cons r) as (x & xs & Er). cbn [components]. rewrite Er.
    destruct (take (segment_length s) s); reflexivity.
Qed.

(** ** The abstract name space *)

Record spec := mk_spec {
  sp_paths : gmap path (Z * bool);   (* node and whether it is a directory *)
  sp_created : Z;
  sp_opened : gmap Z Z               (* opened handles and their nodes *)
}.

Definition spec_init : spec := mk_spec {[ [] := (0, true) ]} 0 ∅.

Definition drop_below (p : path) (m : gmap path (Z * bool)) : gmap path (Z * bool) :=
  filter (fun kv => ~ p `prefix_of` kv.1) m.

Definition spec_create (S : spec) (dir base : list Z) (isdir : bool) : outcome (spec * Z) :=
  if negb (absolute dir) then Panic
  else
    let parent := components dir in
    match sp_paths S !! parent with
    | None => Ret (S, ENOENT)
    | Some (_, false) => Ret (S, ENODIR)
    | Some (_, true) =>
        if 16 <=? sp_created S then Panic
        else
          let p := parent ++ [cut base] in
          let n := sp_created S + 1 in
          Ret (mk_spec (<[p := (n, isdir)]> (drop_below p (sp_paths S))) n (sp_opened S), n)
    end.

Definition spec_mkdir (S : spec) (p : list Z) : outcome (spec * Z) :=
  match p with
  | [] => Ret (S, -1)
  | _ =>
      let q := strip_slash (take 127 p) in
      '(S, r) ← spec_create S (dir_of q) (base_of q) true;
      Ret (S, if r >=? 0 then 0 else r)
  end.

(** The node [open] finds or creates, or an error *)
Definition spec_open_node (S : spec) (p : list Z) (flags : Z) : outcome (spec * Z) :=
  if negb (absolute p) then Panic
  else
    match sp_paths S !! components p with
    | Some (n, _) => Ret (S, n)
    | None =>
        if Z.land flags OPEN_CREATE =? 0 then Ret (S, ENOENT)
        else spec_create S (dir_of (take 127 p)) (base_of (take 127 p)) false
    end.

(** The calls a client makes *)
Inductive op := Mkdir (p : list Z) | Open (p : list Z) (flags : Z) | Close (h : Z).

Definition op_ok (o : op) : Prop :=
  match o with
  | Mkdir p | Open p _ => ~ (0 ∈ p)
  | Close h => 0 <= h < 2 ^ 16
  end.

Definition set_sp_opened (S : spec) o : spec := mk_spec (sp_paths S) (sp_created S) o.

Inductive spec_step (S : spec) : op -> outcome (spec * Z) -> Prop :=
| spec_do_mkdir p : spec_step S (Mkdir p) (spec_mkdir S p)
| spec_open_panic p flags : spec_open_node S p flags = Panic -> spec_step S (Open p flags) Panic
| spec_open_error p flags S' e : spec_open_node S p flags = Ret (S', e) -> e < 0 ->
    spec_step S (Open p flags) (Ret (S', e))
| spec_open_full p flags S' n : spec_open_node S p flags = Ret (S', n) -> 0 <= n ->
    32 <= Z.of_nat (base.size (sp_opened S)) -> spec_step S (Open p flags) Panic
| spec_open_ok p flags S' n h : spec_open_node S p flags = Ret (S', n) -> 0 <= n ->
    Z.of_nat (base.size (sp_opened S)) < 32 -> sp_opened S !! h = None ->
    spec_step S (Open p flags) (Ret (set_sp_opened S' (<[h := n]> (sp_opened S')), h))
| spec_close_ok h n : sp_opened S !! h = Some n ->
    spec_step S (Close h) (Ret (set_sp_opened S (delete h (sp_opened S)), 0))
| spec_close_panic h : sp_opened S !! h = None -> spec_step S (Close h) Panic.

Inductive spec_run : spec -> list op -> outcome (spec * list Z) -> Prop :=
| run_nil S : spec_run S [] (Ret (S, []))
| run_stop S o ops : spec_step S o Panic -> spec_run S (o :: ops) Panic
| run_later S o ops S' r : spec_step S o (Ret (S', r)) -> spec_run S' ops Panic -> spec_run S (o :: ops) Panic
| run_cons S o ops S' r S'' rs : spec_step S o (Ret (S', r)) -> spec_run S' ops (Ret (S'', rs)) ->
    spec_run S (o :: ops) (Ret (S'', r :: rs)).

(** ** Entry lists and the representation relation *)

Fixpoint assoc (x : name) (l : list (name * Z)) : option Z :=
  match l with
  | [] => None
  | (y, n) :: l' => if decide (y = x) then Some n else assoc x l'
  end.

Inductive chain (ds : list dirent) : Z -> list (name * Z) -> Prop :=
| chain_nil : chain ds U16_MAX []
| chain_cons i d nm l : znth ds i = Some d -> str.text (de_name d) nm ->
    (de_next d = U16_MAX \/ de_next d < i) -> chain ds (de_next d) l -> chain ds i ((nm, de_node d) :: l).

Definition resolve (ents : Z -> list (name * Z)) (q : path) : option Z :=
  foldl (fun o x => o ≫= fun w => assoc x (ents w)) (Some 0) q.

(** The tables as sequences *)
Record tables (st : t) (ns : list file_node) (ds : list dirent) (fs : list mem_range_file)
    (ents : Z -> list (name * Z)) : Prop := {
  tb_nodes : fp_seq (nodes st) ns;
  tb_nodes_cap : sp_capacity (nodes st) = 64;
  tb_dirs : fp_seq (directories st) ds;
  tb_dirs_cap : sp_capacity (directories st) = 16;
  tb_files : fp_seq (mem_range_files st) fs;
  tb_files_cap : sp_capacity (mem_range_files st) = 64;
  tb_root : root st = 0;
  tb_counts : zlen ns = zlen ds + 1 /\ zlen fs <= zlen ds <= 16;
  tb_chain : forall w n, znth ns w = Some n -> fn_type n = TYPE_DIRECTORY -> chain ds (fn_file n) (ents w);
  tb_no_dir : forall w, (forall n, znth ns w = Some n -> fn_type n <> TYPE_DIRECTORY) -> ents w = [];
  tb_range : forall w nm n, (nm, n) ∈ ents w -> 0 <= n < zlen ns;
  tb_file : forall w n, znth ns w = Some n ->
      fn_type n = TYPE_DIRECTORY \/ fn_type n = TYPE_MEM_RANGE_FILE /\ 0 <= fn_file n < zlen fs
}.

Record rep (st : t) (S : spec) : Prop := {
  rep_tables : exists ns ds fs ents, tables st ns ds fs ents /\ sp_created S = zlen ds /\
    (forall q, resolve ents q = fst <$> sp_paths S !! q) /\
    (forall q n b, sp_paths S !! q = Some (n, b) ->
       exists node, znth ns n = Some node /\ b = (fn_type node =? TYPE_DIRECTORY));
  rep_inj : forall q1 q2 n b1 b2, sp_paths S !! q1 = Some (n, b1) -> sp_paths S !! q2 = Some (n, b2) -> q1 = q2;
  rep_opened : exists m, fp_model (opened_files st) m /\ sp_capacity (opened_files st) = 32 /\
    sp_opened S = of_node <$> m
}.

Lemma chain_app ds x i l : chain ds i l -> chain (ds ++ x) i l.
Proof.
  induction 1 as [|i d nm l Hi Ht Hn _ IH]; [constructor|]. econstructor; eauto.
  rewrite znth_app_l; [exact Hi|]. apply znth_Some_lt in Hi. lia.
Qed.

Lemma chain_end ds l : zlen ds <= U16_MAX -> chain ds U16_MAX l -> l = [].
Proof. intros Hl Hc. inversion Hc as [|i d nm l' Hi]; [reflexivity|]. apply znth_Some_lt in Hi. lia. Qed.

Lemma chain_length ds i l : zlen ds <= U16_MAX -> chain ds i l -> Z.of_nat (length l) <= zlen ds.
Proof.
  intros Hl Hc. assert (i = U16_MAX \/ Z.of_nat (length l) <= i + 1) as H.
  { induction Hc as [|i d nm l Hi _ Hn Hc IH]; [left; reflexivity|right]. cbn [length].
    pose proof (znth_Some_lt _ _ _ Hi). destruct IH as [IH|IH].
    - rewrite IH in Hc. apply chain_end in Hc; [|exact Hl]. subst l. simpl. lia.
    - destruct Hn as [Hn|Hn]; [|lia]. rewrite Hn in Hc. apply chain_end in Hc; [|exact Hl]. subst l. simpl. lia. }
  destruct Hc as [|i d nm l Hi Ht Hn Hc]; [apply zlen_nonneg|].
  apply znth_Some_lt in Hi. destruct H; lia.
Qed.

(** ** Looking up *)

Section junk.
Variables (junk16 junk128 : list Z).
Hypothesis junk16_len : zlen junk16 = 16.
Hypothesis junk128_len : zlen junk128 = 128.

Lemma find_loop_chain st ds i l nm x : fp_seq (directories st) ds -> zlen ds <= 16 -> chain ds i l -> str.text nm x ->
  forall fuel, (length l < fuel)%nat ->
  exists o, find_loop fuel st i nm = Ret o /\ de_node <$> o = assoc x l.
Proof.
  intros Hs Hl Hc Hx. induction Hc as [|i d y l Hi Ht Hn Hc IH]; intros fuel Hf; (destruct fuel as [|fuel]; [simpl in Hf; lia|]); cbn [find_loop].
  - rewrite Z.eqb_refl. exists None. auto.
  - pose proof (znth_Some_lt _ _ _ Hi). rewrite (proj2 (Z.eqb_neq _ _)) by (unfold U16_MAX; lia).
    rewrite (fp_seq_get _ _ _ _ Hs Hi), mbind_Ret, (str.str_eqb _ _ _ _ Ht Hx). cbn [assoc].
    destruct (decide (y = x)) as [->|Hne].
    + rewrite bool_decide_true by reflexivity. exists (Some d). auto.
    + rewrite bool_decide_false by exact Hne. apply IH. simpl in Hf. lia.
Qed.

Lemma find_dirent_spec st ns ds fs ents w nm x : tables st ns ds fs ents -> 0 <= w < zlen ns -> str.text nm x ->
  exists o, find_dirent st w nm = Ret o /\ de_node <$> o = assoc x (ents w).
Proof.
  intros Ht Hw Hx. destruct (znth_lt_Some ns w Hw) as [n Hn]. unfold find_dirent.
  rewrite (fp_seq_get _ _ _ _ (tb_nodes _ _ _ _ _ Ht) Hn), mbind_Ret.
  destruct (Z.eqb_spec (fn_type n) TYPE_DIRECTORY) as [E|E]; cbn [negb].
  - pose proof (tb_counts _ _ _ _ _ Ht) as [_ Hc]. pose proof (tb_chain _ _ _ _ _ Ht w n Hn E) as Hch.
    apply (find_loop_chain st ds _ _ _ _ (tb_dirs _ _ _ _ _ Ht)); [lia|exact Hch|exact Hx|].
    apply chain_length in Hch; unfold U16_MAX; lia.
  - exists None. rewrite (tb_no_dir _ _ _ _ _ Ht w); [auto|]. intros n' Hn'. congruence.
Qed.

(** Walking down from a node *)
Definition walk (ents : Z -> list (name * Z)) (w : Z) (q : path) : option Z :=
  foldl (fun o x => o ≫= fun w => assoc x (ents w)) (Some w) q.

Lemma foldl_None (ents : Z -> list (name * Z)) q : foldl (fun o x => o ≫= fun w => assoc x (ents w)) None q = None.
Proof. induction q; [reflexivity|exact IHq]. Qed.

Lemma assoc_elem x l n : assoc x l = Some n -> (x, n) ∈ l.
Proof.
  induction l as [|[y m] l IH]; cbn [assoc]; [discriminate|]. destruct (decide (y = x)) as [->|].
  - intros [= ->]. apply list_elem_of_here.
  - intros H. apply list_elem_of_further, IH, H.
Qed.

Lemma lookup_aux_spec st ns ds fs ents : tables st ns ds fs ents -> forall fuel p w, (length p < fuel)%nat -> 0 <= w < zlen ns ->
  absolute p = true -> lookup_aux junk16 fuel st w p = Ret (default U16_MAX (walk ents w (components p))).
Proof.
  intros Ht fuel. induction fuel as [|fuel IH]; intros p w Hf Hw Ha; [lia|]. cbn [lookup_aux].
  destruct p as [|c s]; [reflexivity|]. cbn [absolute] in Ha. apply Z.eqb_eq in Ha. subst c. rewrite Z.eqb_refl. cbn [andb].
  destruct s as [|c s]; [reflexivity|]. rewrite (proj2 (Z.eqb_neq _ _)) by (rewrite zlen_cons; pose proof (zlen_nonneg s); lia).
  cbn [passert]. rewrite mbind_Ret, components_cons by discriminate. set (s' := c :: s) in *.
  destruct (str.str_from_cstr junk16 s' (Z.of_nat (segment_length s'))) as (nm & -> & Hx & _); [lia|]. rewrite mbind_Ret.
  replace (take _ s') with (cut (take (segment_length s') s')) in Hx
    by (unfold cut; rewrite take_take; f_equal; rewrite junk16_len; lia).
  destruct (find_dirent_spec _ _ _ _ _ w _ _ Ht Hw Hx) as (o & -> & Ho). rewrite mbind_Ret.
  unfold walk. cbn [foldl mbind option_bind]. rewrite <-Ho. destruct o as [e|]; cbn [fmap option_fmap option_map].
  - apply IH.
    + rewrite length_drop. cbn [length] in Hf. unfold s' in *. cbn [length] in *. lia.
    + symmetry in Ho. apply assoc_elem in Ho. eapply tb_range; eauto.
    + pose proof (drop_segment s') as Hd. destruct (drop _ s'); [reflexivity|]. subst. reflexivity.
  - rewrite foldl_None. reflexivity.
Qed.

Lemma lookup_aux_relative st fuel p w : absolute p = false -> (0 < fuel)%nat -> lookup_aux junk16 fuel st w p = Panic.
Proof.
  intros Ha Hf. destruct fuel; [lia|]. destruct p as [|c s]; [discriminate|]. cbn [absolute] in Ha. cbn [lookup_aux]. rewrite Ha. reflexivity.
Qed.

Lemma lookup_spec st S p : rep st S ->
  lookup junk16 st (root st) p =
  if absolute p then Ret (default U16_MAX (fst <$> sp_paths S !! components p)) else Panic.
Proof.
  intros [(ns & ds & fs & ents & Ht & _ & Hres & _) _ _]. unfold lookup. rewrite (tb_root _ _ _ _ _ Ht).
  destruct (absolute p) eqn:Ha.
  - rewrite (lookup_aux_spec _ _ _ _ _ Ht); [|lia| |exact Ha].
    + change (walk ents 0) with (resolve ents). rewrite Hres. reflexivity.
    + pose proof (tb_counts _ _ _ _ _ Ht) as [? _]. pose proof (zlen_nonneg ds). lia.
  - apply lookup_aux_relative; [exact Ha|lia].
Qed.

(** ** Splitting a path at the last slash *)

Lemma not_elem_take (l : list Z) n : ~ (0 ∈ l) -> ~ (0 ∈ take n l).
Proof. intros H Hin. apply H. rewrite <-(take_drop n l). apply elem_of_app. left. exact Hin. Qed.

Lemma not_elem_drop (l : list Z) n : ~ (0 ∈ l) -> ~ (0 ∈ drop n l).
Proof. intros H Hin. apply H. rewrite <-(take_drop n l). apply elem_of_app. right. exact Hin. Qed.

Lemma split_path_spec s l : str.rep s l -> ~ (0 ∈ l) -> zlen l <= 127 ->
  split_path junk128 s = Ret (dir_of l, base_of l).
Proof.
  intros Hr H0 Hl. unfold split_path.
  destruct (str.str_new junk128) as (n & -> & Hn & Hnc); [lia|]. rewrite !mbind_Ret. unfold fmt.dirname.
  rewrite (str.str_find_last_of _ _ _ Hr), mbind_Ret, (str.str_c_str _ _ Hr H0), mbind_Ret by lia.
  destruct (str.str_from_cstr junk128 l (str.last_pos (str.last_of 47 l))) as (d & -> & Hd & _); [lia|]. rewrite mbind_Ret.
  replace (take _ l) with (dir_of l) in Hd.
  2:{ unfold dir_of. destruct (str.last_of 47 l) as [k|] eqn:E; cbn [str.last_pos].
      - apply str.str_last_of_lt in E. unfold zlen in Hl. rewrite junk128_len. f_equal. lia.
      - replace (Z.to_nat _) with 0%nat by lia. rewrite take_0. reflexivity. }
  assert (zlen (dir_of l) <= zlen l /\ zlen (base_of l) <= zlen l) as [Hdl Hbl].
  { unfold dir_of, base_of, zlen. destruct (str.last_of 47 l); rewrite ?length_take, ?length_drop; simpl; lia. }
  destruct (str.str_assign n d (dir_of l) Hn Hd) as (dir' & -> & Hdir & _); [lia|]. rewrite mbind_Ret.
  assert (drop (Z.to_nat (str.last_pos (str.last_of 47 l) + 1)) l = base_of l) as Eb.
  { unfold base_of. destruct (str.last_of 47 l) as [k|]; cbn [str.last_pos]; [f_equal; lia|reflexivity]. }
  rewrite Eb. unfold str.from_cstr_all.
  destruct (str.str_from_cstr junk128 (base_of l) (zlen junk128 - 1)) as (b & -> & Hb & _); [lia|]. rewrite mbind_Ret.
  rewrite take_ge in Hb by (unfold zlen in *; lia).
  destruct (str.str_assign n b (base_of l) Hn Hb) as (base' & -> & Hbase & _); [lia|]. rewrite !mbind_Ret. cbv beta iota.
  rewrite (str.str_c_str _ _ Hdir), mbind_Ret.
  - rewrite (str.str_c_str _ _ Hbase), mbind_Ret; [reflexivity|]. unfold base_of. destruct (str.last_of 47 l); [apply not_elem_drop|]; exact H0.
  - unfold dir_of. destruct (str.last_of 47 l); [apply not_elem_take; exact H0|apply not_elem_of_nil].
Qed.

(** ** Adding an entry to a directory *)

Definition add_entry (ents : Z -> list (name * Z)) (k : Z) (nm : name) (n : Z) : Z -> list (name * Z) :=
  fun w => if decide (w = k) then (nm, n) :: ents k else ents w.

Lemma resolve_snoc ents q x : resolve ents (q ++ [x]) = resolve ents q ≫= fun w => assoc x (ents w).
Proof. unfold resolve. rewrite foldl_app. reflexivity. Qed.

(** What paths mean after a fresh node [n] got the name [nm] in the
    directory at path [p], node [k], the only path of that node. *)
Lemma resolve_add ents p k nm n : resolve ents p = Some k -> (forall q, resolve ents q = Some k -> q = p) ->
  (forall q, resolve ents q <> Some n) -> ents n = [] ->
  forall q, resolve (add_entry ents k nm n) q =
    if decide (q = p ++ [nm]) then Some n
    else if decide ((p ++ [nm]) `prefix_of` q) then None else resolve ents q.
Proof.
  intros Hp Hinj Hfresh Hn q. assert (k <> n) as Hkn by (intros ->; exact (Hfresh _ Hp)).
  induction q as [|x q IH] using rev_ind.
  - rewrite decide_False by (intros E; symmetry in E; apply app_nil in E as [_ E]; discriminate E).
    rewrite decide_False by (intros [r E]; symmetry in E; rewrite <-app_assoc in E; apply app_nil in E as [_ E]; discriminate E). reflexivity.
  - rewrite resolve_snoc, IH. clear IH. destruct (decide (q = p ++ [nm])) as [->|Hq].
    + cbn [mbind option_bind]. unfold add_entry at 1. rewrite decide_False by congruence. rewrite Hn. cbn [assoc].
      rewrite decide_False by (intros E; apply (f_equal length) in E; rewrite !length_app in E; simpl in E; lia).
      rewrite decide_True by (exists [x]; reflexivity). reflexivity.
    + destruct (decide ((p ++ [nm]) `prefix_of` q)) as [[r ->]|Hpre].
      * rewrite decide_False by (intros E; apply (f_equal length) in E; rewrite !length_app in E; simpl in E;
          destruct r; [apply Hq; rewrite app_nil_r; reflexivity|simpl in E; lia]).
        rewrite decide_True by (exists (r ++ [x]); rewrite app_assoc; reflexivity). reflexivity.
      * rewrite resolve_snoc. destruct (resolve ents q) as [w|] eqn:Ew; cbn [mbind option_bind].
        -- unfold add_entry. destruct (decide (w = k)) as [->|Hwk].
           ++ apply Hinj in Ew. subst q. cbn [assoc]. destruct (decide (nm = x)) as [->|Hx].
              { rewrite decide_True by reflexivity. reflexivity. }
              rewrite decide_False by (intros E; apply app_inj_2 in E; [|reflexivity]; destruct E as [_ E]; congruence).
              rewrite decide_False; [reflexivity|].
              intros [r E]. rewrite <-app_assoc in E. apply app_inv_head in E. cbn [app] in E. injection E as E _. congruence.
           ++ rewrite decide_False by (intros E; apply app_inj_2 in E; [|reflexivity]; destruct E as [E _]; subst q; congruence).
              rewrite decide_False; [reflexivity|]. intros [r E].
              destruct r as [|z r _] using rev_ind; [rewrite app_nil_r in E; apply app_inj_2 in E; [|reflexivity]; destruct E as [E _]; subst q; congruence|].
              rewrite app_assoc in E. apply app_inj_2 in E; [|reflexivity]. destruct E as [E _]. apply Hpre. exists r. exact E.
        -- rewrite decide_False by (intros E; apply app_inj_2 in E; [|reflexivity]; destruct E as [E _]; subst q; congruence).
           destruct (decide _); reflexivity.
Qed.

Lemma znth_snoc {A} (l : list A) x i y : znth (l ++ [x]) i = Some y -> znth l i = Some y \/ i = zlen l /\ y = x.
Proof.
  intros H. pose proof (znth_Some_lt _ _ _ H) as Hi. rewrite zlen_app in Hi. change (zlen [x]) with 1 in Hi.
  destruct (Z.lt_ge_cases i (zlen l)).
  - left. rewrite znth_app_l in H by lia. exact H.
  - right. assert (i = zlen l) by lia. subst i. rewrite znth_app_r, Z.sub_diag in H by lia. injection H as <-. auto.
Qed.

Lemma create_content_spec st ns ds fs ents type : tables st ns ds fs ents ->
  type = TYPE_DIRECTORY \/ type = TYPE_MEM_RANGE_FILE ->
  exists p file fs', create_content st type = Ret (set_files st p, file) /\ fp_seq p fs' /\ sp_capacity p = 64 /\
    zlen fs <= zlen fs' <= zlen fs + 1 /\
    (type = TYPE_DIRECTORY /\ file = U16_MAX \/ type = TYPE_MEM_RANGE_FILE /\ 0 <= file < zlen fs').
Proof.
  intros Ht [-> | ->]; unfold create_content.
  - exists (mem_range_files st), U16_MAX, fs. rewrite Z.eqb_refl. split; [destruct st; reflexivity|].
    split; [eapply tb_files; eauto|]. split; [eapply tb_files_cap; eauto|]. split; [lia|auto].
  - change (TYPE_MEM_RANGE_FILE =? TYPE_DIRECTORY) with false. rewrite Z.eqb_refl. pose proof (tb_counts _ _ _ _ _ Ht) as [_ Hc].
    destruct (fp_seq_append _ _ (mk_range 0 0) (tb_files _ _ _ _ _ Ht)) as (p & -> & Hp & Hcap); [rewrite (tb_files_cap _ _ _ _ _ Ht); lia|].
    rewrite mbind_Ret. exists p, (zlen fs), (fs ++ [mk_range 0 0]). split; [reflexivity|]. split; [exact Hp|].
    split; [etransitivity; [exact Hcap|eapply tb_files_cap; eauto]|]. rewrite zlen_app. change (zlen [_]) with 1.
    pose proof (zlen_nonneg fs). split; [lia|]. right. split; [reflexivity|lia].
Qed.

(** The tables after a new node was linked into the directory [k] *)
Lemma tables_add st ns ds fs ents k n0 type file name nm st' fs' :
  tables st ns ds fs ents -> znth ns k = Some n0 -> fn_type n0 = TYPE_DIRECTORY -> zlen ds < 16 ->
  zlen fs <= zlen fs' <= zlen fs + 1 ->
  (type = TYPE_DIRECTORY /\ file = U16_MAX \/ type = TYPE_MEM_RANGE_FILE /\ 0 <= file < zlen fs') -> str.text name nm ->
  let ns' := zset (ns ++ [mk_node type file]) k (mk_node (fn_type n0) (zlen ds)) in
  let ds' := ds ++ [mk_dirent name (zlen ns) (fn_file n0)] in
  fp_seq (nodes st') ns' -> sp_capacity (nodes st') = 64 ->
  fp_seq (directories st') ds' -> sp_capacity (directories st') = 16 ->
  fp_seq (mem_range_files st') fs' -> sp_capacity (mem_range_files st') = 64 -> root st' = 0 ->
  tables st' ns' ds' fs' (add_entry ents k nm (zlen ns)).
Proof.
  intros Ht Hk Htype Hds Hfs Hfile Hnm ns' ds' H1 H2 H3 H4 H5 H6 H7.
  pose proof (znth_Some_lt _ _ _ Hk) as Hkr. pose proof (tb_counts _ _ _ _ _ Ht) as [Hc1 Hc2].
  assert (zlen ns' = zlen ns + 1) as Hlen by (unfold ns'; rewrite zlen_zset, zlen_app; reflexivity).
  assert (znth ns' k = Some (mk_node (fn_type n0) (zlen ds))) as Hk'
    by (unfold ns'; apply znth_zset_eq; rewrite zlen_app; change (zlen [_]) with 1; lia).
  assert (forall w, w <> k -> znth ns' w = znth (ns ++ [mk_node type file]) w) as Hother
    by (intros w Hw; unfold ns'; apply znth_zset_ne; congruence).
  assert (ents (zlen ns) = []) as Hnew.
  { apply (tb_no_dir _ _ _ _ _ Ht). intros n Hn. apply znth_Some_lt in Hn. lia. }
  assert (chain ds (fn_file n0) (ents k)) as Hch by (eapply tb_chain; eauto).
  split; try assumption.
  - rewrite Hlen. unfold ds'. rewrite zlen_app. change (zlen [_]) with 1. lia.
  - intros w n Hw Hn. unfold add_entry. destruct (decide (w = k)) as [->|Hne].
    + rewrite Hk' in Hw. injection Hw as <-. cbn [fn_file].
      apply (chain_cons ds' (zlen ds) (mk_dirent name (zlen ns) (fn_file n0))); cbn [de_name de_next].
      * unfold ds'. rewrite znth_app_r, Z.sub_diag by lia. reflexivity.
      * exact Hnm.
      * inversion Hch as [|? ? ? ? Hi]; [left; reflexivity|right; apply znth_Some_lt in Hi; lia].
      * apply chain_app. exact Hch.
    + rewrite Hother in Hw by exact Hne. apply znth_snoc in Hw as [Hw|[-> ->]].
      * apply chain_app. eapply tb_chain; eauto.
      * rewrite Hnew. cbn [fn_type fn_file] in *. destruct Hfile as [[_ ->]|[-> _]]; [constructor|discriminate Hn].
  - intros w Hw. unfold add_entry. destruct (decide (w = k)) as [->|Hne].
    { exfalso. apply (Hw _ Hk'). exact Htype. }
    apply (tb_no_dir _ _ _ _ _ Ht). intros n Hn. apply Hw. rewrite Hother by exact Hne.
    rewrite znth_app_l; [exact Hn|]. apply znth_Some_lt in Hn. lia.
  - intros w x n Hin. rewrite Hlen. unfold add_entry in Hin. destruct (decide (w = k)) as [->|Hne].
    + apply elem_of_cons in Hin as [[= _ ->]|Hin]; [pose proof (zlen_nonneg ns); lia|].
      pose proof (tb_range _ _ _ _ _ Ht k x n Hin). lia.
    + pose proof (tb_range _ _ _ _ _ Ht w x n Hin). lia.
  - intros w n Hw. destruct (decide (w = k)) as [->|Hne].
    + rewrite Hk' in Hw. injection Hw as <-. left. exact Htype.
    + rewrite Hother in Hw by exact Hne. apply znth_snoc in Hw as [Hw|[-> ->]].
      * destruct (tb_file _ _ _ _ _ Ht w n Hw) as [?|[? ?]]; [left; assumption|right; split; [assumption|lia]].
      * cbn [fn_type fn_file]. destruct Hfile as [[-> _]|[-> ?]]; [left; reflexivity|right; auto].
Qed.

Lemma drop_below_lookup p m q : drop_below p m !! q = if decide (p `prefix_of` q) then None else m !! q.
Proof.
  unfold drop_below. rewrite map_lookup_filter. destruct (m !! q) as [v|]; cbn [mbind option_bind].
  - destruct (decide (p `prefix_of` q)) as [H|H].
    + rewrite option_guard_False; [reflexivity|]. cbn. tauto.
    + rewrite option_guard_True; [reflexivity|exact H].
  - destruct (decide _); reflexivity.
Qed.

(** The name space after an entry was added *)
Lemma rep_add st S ns ds fs ents dirp k nm n0 b st' ns' fs' ds' :
  rep st S -> tables st ns ds fs ents -> sp_created S = zlen ds ->
  (forall q, resolve ents q = fst <$> sp_paths S !! q) ->
  (forall q n b, sp_paths S !! q = Some (n, b) -> exists node, znth ns n = Some node /\ b = (fn_type node =? TYPE_DIRECTORY)) ->
  sp_paths S !! dirp = Some (k, true) -> znth ns k = Some n0 ->
  tables st' ns' ds' fs' (add_entry ents k nm (zlen ns)) -> zlen ds' = zlen ds + 1 ->
  (forall w n, znth ns w = Some n -> exists n', znth ns' w = Some n' /\ fn_type n' = fn_type n) ->
  (exists n, znth ns' (zlen ns) = Some n /\ b = (fn_type n =? TYPE_DIRECTORY)) -> opened_files st' = opened_files st ->
  rep st' (mk_spec (<[dirp ++ [nm] := (zlen ns, b)]> (drop_below (dirp ++ [nm]) (sp_paths S))) (zlen ns) (sp_opened S)).
Proof.
  intros [_ Hinj Hop] Ht Hcr Hres Hkind Hdir Hk Ht' Hds' Hold Hnew Hopen.
  assert (forall q n, resolve ents q = Some n <-> exists b, sp_paths S !! q = Some (n, b)) as Hr.
  { intros q n. rewrite Hres. destruct (sp_paths S !! q) as [[n' b']|]; simpl; naive_solver. }
  assert (forall q n b, sp_paths S !! q = Some (n, b) -> 0 <= n < zlen ns) as Hlt.
  { intros q n b' Hq. destruct (Hkind q n b' Hq) as (node & Hn & _). exact (znth_Some_lt _ _ _ Hn). }
  split; [|intros q1 q2 n b1 b2|rewrite Hopen; exact Hop]; cbn [sp_paths].
  - exists ns', ds', fs', (add_entry ents k nm (zlen ns)). split; [exact Ht'|]. cbn [sp_created sp_paths].
    pose proof (tb_counts _ _ _ _ _ Ht) as [Hc _]. split; [lia|]. split.
    + intros q. rewrite (resolve_add ents dirp k nm (zlen ns)).
      * rewrite lookup_insert, drop_below_lookup. destruct (decide (q = dirp ++ [nm])) as [->|Hq].
        { rewrite decide_True by reflexivity. reflexivity. }
        rewrite (decide_False (P := dirp ++ [nm] = q)) by congruence. destruct (decide _); [reflexivity|apply Hres].
      * apply Hr. eauto.
      * intros q' Hq. apply Hr in Hq as [b' Hq]. eauto.
      * intros q' Hq. apply Hr in Hq as [b' Hq]. apply Hlt in Hq. lia.
      * apply (tb_no_dir _ _ _ _ _ Ht). intros n Hn. apply znth_Some_lt in Hn. lia.
    + intros q n b'. rewrite lookup_insert, drop_below_lookup. destruct (decide (dirp ++ [nm] = q)).
      * intros [= <- <-]. exact Hnew.
      * destruct (decide _); [discriminate|]. intros Hq. destruct (Hkind q n b' Hq) as (node & Hn & ->).
        destruct (Hold n node Hn) as (n' & Hn' & <-). eauto.
  - rewrite !lookup_insert, !drop_below_lookup.
    destruct (decide (dirp ++ [nm] = q1)) as [<-|]; destruct (decide (dirp ++ [nm] = q2)) as [<-|]; [reflexivity| | |].
    + destruct (decide _); [discriminate|]. intros [= <- <-] Hq. apply Hlt in Hq. lia.
    + destruct (decide _); [discriminate|]. intros Hq [= <- <-]. apply Hlt in Hq. lia.
    + destruct (decide _); [discriminate|]. destruct (decide _); [discriminate|]. apply Hinj.
Qed.

Definition kind_of (isdir : bool) : Z := if isdir then TYPE_DIRECTORY else TYPE_MEM_RANGE_FILE.

Lemma create_file_spec st S dir base isdir : rep st S ->
  match spec_create S dir base isdir with
  | Ret (S', r) => exists st', create_file junk16 st dir base (kind_of isdir) = Ret (st', r) /\ rep st' S' /\
      sp_opened S' = sp_opened S
  | _ => create_file junk16 st dir base (kind_of isdir) = Panic
  end.
Proof.
  intros Hrep. unfold spec_create, create_file. rewrite (lookup_spec st S dir Hrep).
  destruct (absolute dir); cbn [negb]; [|reflexivity]. rewrite mbind_Ret.
  destruct (sp_paths S !! components dir) as [[k b]|] eqn:Hp; [change (default U16_MAX (fst <$> Some (k, b))) with k|change (default U16_MAX (fst <$> (None : option (Z * bool)))) with U16_MAX].
  2:{ rewrite Z.eqb_refl. eauto. }
  pose proof Hrep as [(ns & ds & fs & ents & Ht & Hcr & Hres & Hkind) _ _].
  destruct (Hkind _ _ _ Hp) as (n0 & Hk & ->). pose proof (znth_Some_lt _ _ _ Hk) as Hkr.
  pose proof (tb_counts _ _ _ _ _ Ht) as [Hc1 Hc2]. 
  rewrite (proj2 (Z.eqb_neq k U16_MAX)) by (unfold U16_MAX; lia).
  rewrite (fp_seq_get _ _ _ _ (tb_nodes _ _ _ _ _ Ht) Hk), mbind_Ret.
  destruct (Z.eqb_spec (fn_type n0) TYPE_DIRECTORY) as [Hty|Hty]; cbn [negb]; [|eauto].
  destruct (create_content_spec st ns ds fs ents (kind_of isdir) Ht) as (pf & file & fs' & -> & Hpf & Hpfc & Hfl & Hfile); [destruct isdir; auto|].
  rewrite mbind_Ret. cbv beta iota. change (nodes (set_files st pf)) with (nodes st). change (directories (set_files st pf)) with (directories st).
  destruct (fp_seq_append _ _ (mk_node (kind_of isdir) file) (tb_nodes _ _ _ _ _ Ht)) as (pn & -> & Hpn & Hpnc).
  { rewrite (tb_nodes_cap _ _ _ _ _ Ht). lia. }
  rewrite mbind_Ret. cbv beta iota. unfold str.from_cstr_all.
  destruct (str.str_from_cstr junk16 base (zlen junk16 - 1)) as (nm & -> & Hnm & _); [lia|]. rewrite mbind_Ret.
  replace (take _ base) with (cut base) in Hnm by (unfold cut; rewrite junk16_len; f_equal; lia).
  rewrite Hcr. destruct (Z.leb_spec 16 (zlen ds)) as [Hfull|Hroom].
  { rewrite (fp_seq_full _ _ _ (tb_dirs _ _ _ _ _ Ht)) by (rewrite (tb_dirs_cap _ _ _ _ _ Ht); lia). reflexivity. }
  destruct (fp_seq_append _ _ (mk_dirent nm (zlen ns) (fn_file n0)) (tb_dirs _ _ _ _ _ Ht)) as (pd & -> & Hpd & Hpdc).
  { rewrite (tb_dirs_cap _ _ _ _ _ Ht). lia. }
  rewrite mbind_Ret. cbv beta iota.
  assert (znth (ns ++ [mk_node (kind_of isdir) file]) k = Some n0) as Hk2 by (rewrite znth_app_l by lia; exact Hk).
  destruct (fp_seq_modify _ _ _ _ (fun n => mk_node (fn_type n) (zlen ds)) Hpn Hk2) as (pn' & -> & Hpn' & Hpnc'). rewrite mbind_Ret.
  eexists. rewrite <-Hc1. split; [reflexivity|]. split; [|reflexivity].
  apply (rep_add st S ns ds fs ents (components dir) k (cut base) n0 isdir _
    (zset (ns ++ [mk_node (kind_of isdir) file]) k (mk_node (fn_type n0) (zlen ds))) fs'
    (ds ++ [mk_dirent nm (zlen ns) (fn_file n0)])); auto.
  - apply (tables_add st ns ds fs ents k n0 (kind_of isdir) file nm); auto; cbn [nodes directories mem_range_files set_dirs set_nodes set_files root].
    + exact (eq_trans Hpnc' (eq_trans Hpnc (tb_nodes_cap _ _ _ _ _ Ht))).
    + exact (eq_trans Hpdc (tb_dirs_cap _ _ _ _ _ Ht)).
    + exact (tb_root _ _ _ _ _ Ht).
  - rewrite zlen_app. reflexivity.
  - intros w n Hw. rewrite znth_zset. pose proof (znth_Some_lt _ _ _ Hw). destruct (Z.eqb_spec k w) as [->|]; cbn [andb].
    + replace ((0 <=? w) && (w <? zlen (ns ++ [mk_node (kind_of isdir) file]))) with true
        by (symmetry; rewrite zlen_app; change (zlen [_]) with 1; lia).
      eexists. split; [reflexivity|]. cbn [fn_type]. congruence.
    + exists n. split; [rewrite znth_app_l by lia; exact Hw|reflexivity].
  - exists (mk_node (kind_of isdir) file). split; [|destruct isdir; reflexivity].
    rewrite znth_zset_ne by lia. rewrite znth_app_r, Z.sub_diag by lia. reflexivity.
Qed.

Lemma strip_slash_snoc l c : strip_slash (l ++ [c]) = if c =? 47 then l else l ++ [c].
Proof. unfold strip_slash. rewrite last_snoc, removelast_last. reflexivity. Qed.

Lemma backspace_rep s l c : str.rep s (l ++ [c]) -> exists s', str.backspace s = Ret s' /\ str.rep s' l.
Proof.
  intros Hr. destruct (str.str_rep_split _ _ Hr) as [rest Hst]. unfold str.backspace. rewrite (str.rep_position _ _ Hr), Hst.
  rewrite zlen_app. change (zlen [c]) with 1. pose proof (zlen_nonneg l). replace (zlen l + 1 >? 0) with true by (symmetry; lia).
  replace (zlen l + 1 - 1) with (zlen l) by lia. rewrite <-app_assoc. cbn [app].
  rewrite arr_set_Ret by (rewrite zlen_app, !zlen_cons; pose proof (zlen_nonneg rest); lia).
  rewrite mbind_Ret, str.str_set_mid. eexists. split; [reflexivity|]. apply str.str_rep_intro.
Qed.

Lemma strip_spec s l c : str.rep s (l ++ [c]) ->
  exists s', (last ← str.at_ s (str.size s - 1); if last =? 47 then str.backspace s else Ret s) = Ret s' /\
    str.rep s' (strip_slash (l ++ [c])).
Proof.
  intros Hr. unfold str.at_, str.size. rewrite (str.rep_position _ _ Hr), strip_slash_snoc.
  assert (znth (str.storage s) (zlen (l ++ [c]) - 1) = Some c) as Hl.
  { destruct (str.str_rep_split _ _ Hr) as [rest ->]. rewrite zlen_app. change (zlen [c]) with 1.
    replace (zlen l + 1 - 1) with (zlen l) by lia. rewrite <-app_assoc. rewrite znth_app_r, Z.sub_diag by lia. reflexivity. }
  rewrite (arr_get_Ret _ _ _ Hl), mbind_Ret. destruct (c =? 47).
  - apply (backspace_rep _ _ _ Hr).
  - exists s. auto.
Qed.

Lemma mkdir_spec st S p : rep st S -> ~ (0 ∈ p) ->
  match spec_mkdir S p with
  | Ret (S', r) => exists st', mkdir junk16 junk128 st p = Ret (st', r) /\ rep st' S'
  | _ => mkdir junk16 junk128 st p = Panic
  end.
Proof.
  intros Hrep H0. unfold mkdir, str.from_cstr_all.
  destruct (str.str_from_cstr junk128 p (zlen junk128 - 1)) as (s & -> & Hs & _ & Hr); [lia|]. rewrite mbind_Ret.
  replace (Z.to_nat _) with 127%nat in * by lia. assert (str.size s = zlen (take 127 p)) as Hsz by exact (proj1 Hs).
  destruct p as [|c p]; [rewrite Hsz; exists st; auto|]. unfold spec_mkdir. set (q := take 127 (c :: p)) in *.
  assert (q <> []) as Hq by discriminate. specialize (Hr Hq).
  rewrite (proj2 (Z.eqb_neq (str.size s) 0)) by (rewrite Hsz; unfold zlen; destruct q; [contradiction|simpl; lia]). clear Hsz.
  assert (zlen q <= 127) as Hql by (unfold q, zlen; rewrite length_take; lia).
  assert (~ (0 ∈ q)) as Hq0 by (apply not_elem_take; exact H0).
  destruct q as [|d l _] using rev_ind; [contradiction|]. destruct (strip_spec s l d Hr) as (s' & Estrip & Hs').
  unfold mbind, outcome_bind in Estrip |- *. destruct (str.at_ s (str.size s - 1)) as [x| | |]; try discriminate Estrip.
  rewrite Estrip. assert (~ (0 ∈ strip_slash (l ++ [d])) /\ zlen (strip_slash (l ++ [d])) <= 127) as [Hc0 Hcl].
  { rewrite strip_slash_snoc. destruct (d =? 47); [|auto]. rewrite zlen_app in Hql. change (zlen [d]) with 1 in Hql.
    split; [|lia]. intros Hin. apply Hq0, elem_of_app. left. exact Hin. }
  rewrite (split_path_spec _ _ Hs' Hc0 Hcl).
  pose proof (create_file_spec st S (dir_of (strip_slash (l ++ [d]))) (base_of (strip_slash (l ++ [d]))) true Hrep) as Hcreate.
  change (kind_of true) with TYPE_DIRECTORY in Hcreate.
  destruct (spec_create _ _ _ _) as [[S' r]| | |]; try (rewrite Hcreate; reflexivity).
  destruct Hcreate as (st' & -> & Hrep' & _). exists st'. destruct (r >=? 0); (split; [reflexivity|exact Hrep']).
Qed.

Lemma open_node_spec st S p flags : rep st S -> ~ (0 ∈ p) ->
  match spec_open_node S p flags with
  | Ret (S', r) => sp_opened S' = sp_opened S /\ (0 <= r -> r < 18) /\
      (r < 0 -> exists st', open junk16 junk128 st p flags = Ret (st', r) /\ rep st' S') /\
      (0 <= r -> exists st', rep st' S' /\ open junk16 junk128 st p flags =
         '(opened, h) ← pool.emplace_anywhere U16_MAX (opened_files st') (mk_opened r 0); Ret (set_opened st' opened, h))
  | _ => open junk16 junk128 st p flags = Panic
  end.
Proof.
  intros Hrep H0. unfold spec_open_node, open. rewrite (lookup_spec st S p Hrep).
  destruct (absolute p) eqn:Ha; cbn [negb]; [|reflexivity]. rewrite mbind_Ret.
  pose proof Hrep as [(ns & ds & fs & ents & Ht & Hcr & _ & Hkind) _ _]. pose proof (tb_counts _ _ _ _ _ Ht) as [Hc1 Hc2].
  destruct (sp_paths S !! components p) as [[n b]|] eqn:Hp;
    [change (default U16_MAX (fst <$> Some (n, b))) with n|change (default U16_MAX (fst <$> (None : option (Z * bool)))) with U16_MAX].
  - destruct (Hkind _ _ _ Hp) as (node & Hn & _). apply znth_Some_lt in Hn.
    rewrite (proj2 (Z.eqb_neq n U16_MAX)) by (unfold U16_MAX; lia). rewrite mbind_Ret, (proj2 (Z.ltb_ge n 0)) by lia.
    split; [reflexivity|]. split; [lia|]. split; [lia|]. intros _. exists st. rewrite (u16_small n) by lia. auto.
  - rewrite Z.eqb_refl. destruct (Z.land flags OPEN_CREATE =? 0).
    + rewrite mbind_Ret. split; [reflexivity|]. change (ENOENT <? 0) with true. unfold ENOENT. split; [lia|]. split; [eauto|lia].
    + unfold str.from_cstr_all.
      destruct (str.str_from_cstr junk128 p (zlen junk128 - 1)) as (s & -> & Hs & _ & Hr); [lia|]. rewrite mbind_Ret.
      replace (Z.to_nat _) with 127%nat in * by lia. destruct p as [|c p].
      { exfalso. destruct Hrep as [(? & ? & ? & ents' & _ & _ & Hres' & _) _ _]. specialize (Hres' []). change (components []) with ([] : path) in Hp. rewrite Hp in Hres'. discriminate Hres'. }
      set (q := take 127 (c :: p)) in *. specialize (Hr ltac:(discriminate)).
      rewrite (split_path_spec _ _ Hr), mbind_Ret; [|apply not_elem_take; exact H0|unfold q, zlen; rewrite length_take; lia].
      cbv beta iota. pose proof (create_file_spec st S (dir_of q) (base_of q) false Hrep) as Hcreate.
      change (kind_of false) with TYPE_MEM_RANGE_FILE in Hcreate.
      assert (forall S' r, spec_create S (dir_of q) (base_of q) false = Ret (S', r) -> r < 18) as Hr18.
      { unfold spec_create. intros S' r. destruct (negb (absolute (dir_of q))); [discriminate|].
        destruct (sp_paths S !! components (dir_of q)) as [[? []]|]; [destruct (Z.leb_spec 16 (sp_created S)); [discriminate|]| |];
          intros Heq; apply Ret_inj, (f_equal snd) in Heq; cbn [snd] in Heq; unfold ENODIR, ENOENT in Heq; lia. }
      destruct (spec_create _ _ _ _) as [[S' r]| | |]; try (rewrite Hcreate; reflexivity).
      specialize (Hr18 S' r eq_refl). destruct Hcreate as (st' & -> & Hrep' & Ho). rewrite mbind_Ret. cbv beta iota.
      split; [exact Ho|]. split; [lia|]. split; intros Hsign.
      * rewrite (proj2 (Z.ltb_lt _ _)) by exact Hsign. eauto.
      * rewrite (proj2 (Z.ltb_ge _ _)) by exact Hsign. exists st'. rewrite (u16_small r) by lia. auto.
Qed.

(** ** Running a sequence of calls *)

Definition step (st : t) (o : op) : outcome (t * Z) :=
  match o with
  | Mkdir p => mkdir junk16 junk128 st p
  | Open p flags => open junk16 junk128 st p flags
  | Close h => close st h
  end.

Fixpoint run (st : t) (ops : list op) : outcome (t * list Z) :=
  match ops with
  | [] => Ret (st, [])
  | o :: ops' => '(st, r) ← step st o; '(st, rs) ← run st ops'; Ret (st, r :: rs)
  end.

Lemma rep_set_opened st S m p : rep st S -> fp_model p m -> sp_capacity p = 32 ->
  rep (set_opened st p) (set_sp_opened S (of_node <$> m)).
Proof.
  intros [(ns & ds & fs & ents & Ht & Hrest) Hinj _] Hm Hc. split; [|exact Hinj|exists m; auto].
  exists ns, ds, fs, ents. split; [|exact Hrest]. destruct Ht. split; assumption.
Qed.

Lemma step_spec st S o : rep st S -> op_ok o ->
  (step st o = Panic /\ spec_step S o Panic) \/
  (exists st' S' r, step st o = Ret (st', r) /\ spec_step S o (Ret (S', r)) /\ rep st' S').
Proof.
  intros Hrep Hok. destruct o as [p|p flags|h]; cbn [step op_ok] in *.
  - pose proof (mkdir_spec st S p Hrep Hok) as Hm. pose proof (spec_do_mkdir S p) as Hs.
    destruct (spec_mkdir S p) as [[S' r]| | |] eqn:E; [right|left|exfalso|exfalso].
    + destruct Hm as (st' & -> & Hrep'). eauto 10.
    + auto.
    + unfold spec_mkdir in E. destruct p; [discriminate|]. unfold spec_create in E. destruct (negb _); [discriminate|].
      destruct (sp_paths S !! _) as [[? []]|]; [destruct (16 <=? _)| |]; discriminate.
    + unfold spec_mkdir in E. destruct p; [discriminate|]. unfold spec_create in E. destruct (negb _); [discriminate|].
      destruct (sp_paths S !! _) as [[? []]|]; [destruct (16 <=? _)| |]; discriminate.
  - pose proof (open_node_spec st S p flags Hrep Hok) as Hm.
    assert (spec_open_node S p flags <> Undef /\ spec_open_node S p flags <> NoFuel) as [Hu Hnf].
    { unfold spec_open_node, spec_create. destruct (negb _); [split; discriminate|].
      destruct (sp_paths S !! _) as [[? ?]|]; [split; discriminate|]. destruct (_ =? 0); [split; discriminate|].
      destruct (negb _); [split; discriminate|]. destruct (sp_paths S !! _) as [[? []]|]; [destruct (16 <=? _)| |]; split; discriminate. }
    destruct (spec_open_node S p flags) as [[S' r]| | |] eqn:E; [|left|congruence|congruence].
    2:{ split; [exact Hm|]. apply spec_open_panic. exact E. }
    destruct Hm as (Ho & Hr18 & Herr & Hok'). destruct (Z.lt_ge_cases r 0) as [Hneg|Hpos].
    { right. destruct (Herr Hneg) as (st' & -> & Hrep'). eexists st', S', r. split; [reflexivity|]. split; [|exact Hrep'].
      apply spec_open_error; assumption. }
    destruct (Hok' Hpos) as (st' & Hrep' & ->). destruct (rep_opened _ _ Hrep') as (m & Hm & Hcap & Hsz).
    assert (base.size (sp_opened S) = base.size m) as Hsize by (rewrite <-Ho, Hsz; apply map_size_fmap).
    destruct (Z.lt_ge_cases (Z.of_nat (base.size m)) 32) as [Hroom|Hfull].
    + right. destruct (fp_emplace _ _ (mk_opened r 0) 32 Hm Hcap Hroom) as (p' & h & -> & Hm' & Hfresh & Hcap').
      exists (set_opened st' p'), (set_sp_opened S' (<[h := r]> (sp_opened S'))), h. split; [reflexivity|]. split.
      * apply (spec_open_ok S p flags S' r h); [exact E|lia|lia|]. rewrite <-Ho, Hsz, lookup_fmap, Hfresh. reflexivity.
      * rewrite Hsz. change r with (of_node (mk_opened r 0)). rewrite <-fmap_insert. apply rep_set_opened; assumption.
    + left. destruct Hm as [fl Hr]. rewrite (pool.pool_emplace_anywhere_full _ _ _ _ _ Hr); [|].
      * split; [reflexivity|]. apply (spec_open_full S p flags S' r); [exact E|lia|lia].
      * change (pool.capacity (opened_files st')) with (sp_capacity (opened_files st')). lia.
  - destruct (rep_opened _ _ Hrep) as (m & [fl Hm] & Hcap & Hsz). unfold close. rewrite (u16_small h) by lia.
    destruct (m !! h) as [fd|] eqn:Eh.
    + right. destruct (pool.pool_erase _ _ _ _ _ _ Hm Eh) as (p' & fl' & -> & Hm' & Hc'). rewrite mbind_Ret.
      eexists _, _, _. split; [reflexivity|]. split.
      * apply (spec_close_ok S h (of_node fd)). rewrite Hsz, lookup_fmap, Eh. reflexivity.
      * rewrite Hsz, <-fmap_delete. apply rep_set_opened; [exact Hrep|exists fl'; exact Hm'|].
        exact (eq_trans Hc' Hcap).
    + left. rewrite (pool.pool_erase_panic _ _ _ _ _ Hm Eh). split; [reflexivity|].
      apply spec_close_panic. rewrite Hsz, lookup_fmap, Eh. reflexivity.
Qed.

Lemma run_spec ops : forall st S, rep st S -> Forall op_ok ops ->
  match run st ops with
  | Ret (st', rs) => exists S', spec_run S ops (Ret (S', rs)) /\ rep st' S'
  | Panic => spec_run S ops Panic
  | _ => False
  end.
Proof.
  induction ops as [|o ops IH]; intros st S Hrep Hok; [exists S; split; [constructor|exact Hrep]|].
  inversion Hok as [|? ? Ho Hok']; subst. cbn [run].
  destruct (step_spec st S o Hrep Ho) as [[-> Hs]|(st' & S' & r & -> & Hs & Hrep')].
  { apply run_stop. exact Hs. }
  rewrite mbind_Ret. cbv beta iota. specialize (IH st' S' Hrep' Hok').
  destruct (run st' ops) as [[st'' rs]| | |]; try contradiction.
  - destruct IH as (S'' & IH & Hrep''). rewrite mbind_Ret. exists S''. split; [|exact Hrep'']. eapply run_cons; eauto.
  - eapply run_later; eauto.
Qed.

Lemma init_rep : exists st, ramfs_init = Ret st /\ rep st spec_init.
Proof.
  unfold ramfs_init.
  destruct (fp_seq_append (new_fixed_pool 64) [] (mk_node TYPE_DIRECTORY U16_MAX)) as (p & -> & Hp & Hc);
    [apply fp_seq_new; unfold U16_MAX; lia|rewrite fp_new_capacity by lia; reflexivity|].
  rewrite mbind_Ret. eexists. split; [reflexivity|]. split.
  - exists [mk_node TYPE_DIRECTORY U16_MAX], [], [], (fun _ => []). split; [|split; [reflexivity|split]].
    + assert (forall w n, znth [mk_node TYPE_DIRECTORY U16_MAX] w = Some n -> w = 0 /\ n = mk_node TYPE_DIRECTORY U16_MAX) as Hone.
      { intros w n Hn. pose proof (znth_Some_lt _ _ _ Hn) as Hw. unfold zlen in Hw. simpl in Hw. assert (w = 0) by lia. subst w.
        injection Hn as <-. auto. }
      split; cbn [nodes directories mem_range_files root].
      * exact Hp.
      * exact (eq_trans Hc (fp_new_capacity 64 ltac:(lia))).
      * apply fp_seq_new. unfold U16_MAX. lia.
      * apply fp_new_capacity. lia.
      * apply fp_seq_new. unfold U16_MAX. lia.
      * apply fp_new_capacity. lia.
      * reflexivity.
      * split; reflexivity || (unfold zlen; simpl; lia).
      * intros w n Hn _. destruct (Hone w n Hn) as [-> ->]. constructor.
      * reflexivity.
      * intros w nm n Hin. apply not_elem_of_nil in Hin. contradiction.
      * intros w n Hn. destruct (Hone w n Hn) as [-> ->]. left. reflexivity.
    + intros q. unfold spec_init. cbn [sp_paths]. destruct q as [|x q].
      * rewrite lookup_singleton. rewrite decide_True by reflexivity. reflexivity.
      * rewrite lookup_singleton_ne by discriminate. exact (foldl_None (fun _ => []) q).
    + intros q n b. unfold spec_init. cbn [sp_paths]. intros [<- [= <- <-]]%lookup_singleton_Some.
      exists (mk_node TYPE_DIRECTORY U16_MAX). split; reflexivity.
  - intros q1 q2 n b1 b2. unfold spec_init. cbn [sp_paths]. intros [<- _]%lookup_singleton_Some [<- _]%lookup_singleton_Some. reflexivity.
  - exists ∅. split; [apply fp_new; unfold U16_MAX; lia|]. split; [apply fp_new_capacity; lia|]. rewrite fmap_empty. reflexivity.
Qed.
End junk.
End ramfs_spec.

(** C32: the RAM file system is a name space.  Whatever sequence of [mkdir],
    [open] and [close] calls is made, with whatever path strings, the linked
    entry lists behave like a finite map from paths to nodes: an entry is
    found exactly under the path it was created at (names cut at 15
    characters), creating one changes the meaning of no other path except
    those below an entry it hides, the error codes are those of the map, and
    the system stops only for a relative path, on the 17th creation, on the
    33rd opened file and on the close of a handle that is not open.  No call
    runs forever or leaves the tables. *)
Theorem ramfs_refines_namespace (junk16 junk128 : list Z) (ops : list ramfs_spec.op) :
  zlen junk16 = 16 -> zlen junk128 = 128 -> Forall ramfs_spec.op_ok ops ->
  exists st, ramfs.ramfs_init = Ret st /\
  match ramfs_spec.run junk16 junk128 st ops with
  | Ret (st', rs) => exists S', ramfs_spec.spec_run ramfs_spec.spec_init ops (Ret (S', rs)) /\ ramfs_spec.rep st' S'
  | Panic => ramfs_spec.spec_run ramfs_spec.spec_init ops Panic
  | _ => False
  end.
Proof.
  intros H16 H128 Hok. destruct ramfs_spec.init_rep as (st & E & Hrep). exists st. split; [exact E|].
  apply (ramfs_spec.run_spec junk16 junk128 H16 H128 ops st ramfs_spec.spec_init Hrep Hok).
Qed.

(** Creating /a, /a/f, opening both, a missing directory, and /a/f again *)
Lemma ramfs_refines_namespace_witness :
  let ops := [ramfs_spec.Mkdir [47;97]; ramfs_spec.Open [47;97;47;102] 4; ramfs_spec.Open [47;98;47;102] 4;
              ramfs_spec.Close 0; ramfs_spec.Open [47;97;47;102] 0] in
  Forall ramfs_spec.op_ok ops /\ exists S' st',
  ramfs_spec.spec_run ramfs_spec.spec_init ops (Ret (S', [0; 0; -200; 0; 0])) /\ ramfs_spec.rep st' S'.
Proof.
  intros ops. assert (Forall ramfs_spec.op_ok ops) as Hok
    by (unfold ops; repeat constructor; simpl; rewrite ?elem_of_cons, ?elem_of_nil; intuition lia).
  split; [exact Hok|].
  destruct (ramfs_refines_namespace (replicate 16 7) (replicate 128 7) ops eq_refl eq_refl Hok) as (st & E & H).
  vm_compute in E. injection E as <-.
  match type of H with match ?r with _ => _ end => assert (match r with Ret (_, rs) => rs = [0; 0; -200; 0; 0] | _ => False end) as Hr by (vm_compute; reflexivity);
    destruct r as [[st' rs]| | |]; try contradiction end.
  subst rs. destruct H as (S' & H1 & H2). exists S', st'. split; assumption.
Defined.
