(* ===== verification/RamfsIO.v ===== *)
(** * Reading files of the RAM file system

    Sequences of [read] and [seek] on one opened file against a cursor into
    the file's contents, and what the lengths the callers do not check do. *)

From S2P Require Import Prelude Pool Text KernelDefs Ramfs.
From stdpp Require Import gmap list.
#[local] Open Scope Z_scope.

Module ramfs_io.
Import kdefs ramfs.

Section io.
Variable mem : Z -> Z.

(** The bytes of a memory range *)
Definition bytes (start size : Z) : list Z := (fun k => mem (start + k)) <$> seqZ 0 size.

(** Handle [h] is at [pos] of a regular file that holds [content]. *)
Record file_at (st : t) (h : Z) (content : list Z) (pos : Z) : Prop := {
  fa_handle : 0 <= h < 2 ^ 16;
  fa_open : exists m n, fp_model (opened_files st) m /\ m !! h = Some (mk_opened n pos) /\
    exists node file, pool.get U16_MAX (nodes st) n = Ret node /\
      pool.get U16_MAX (mem_range_files st) (fn_file node) = Ret file /\
      0 <= mr_start file /\ 0 <= mr_size file <= 2 ^ 31 /\ mr_start file + mr_size file <= 2 ^ 32 /\
      content = bytes (mr_start file) (mr_size file);
  fa_pos : 0 <= pos <= zlen content
}.

Inductive fop := FRead (len : Z) | FSeek (offset relative : Z).

Definition int_range (x : Z) : Prop := INT_MIN <= x <= INT_MAX.

Definition fop_ok (o : fop) : Prop :=
  match o with
  | FRead len => 0 <= len <= INT_MAX
  | FSeek offset relative => int_range offset /\ (relative = SEEK_CUR \/ relative = SEEK_BEG)
  end.

Definition fstep (st : t) (h : Z) (o : fop) : outcome (t * (Z * list Z)) :=
  match o with
  | FRead len => read mem st h len
  | FSeek offset relative => '(st, r) ← seek st h offset relative; Ret (st, (r, []))
  end.

Fixpoint frun (st : t) (h : Z) (ops : list fop) : outcome (t * list (Z * list Z)) :=
  match ops with
  | [] => Ret (st, [])
  | o :: ops' => '(st, r) ← fstep st h o; '(st, rs) ← frun st h ops'; Ret (st, r :: rs)
  end.

(** The cursor: a seek before the start ends up at the end of the file. *)
Definition cursor_step (content : list Z) (pos : Z) (o : fop) : Z * (Z * list Z) :=
  match o with
  | FRead len =>
      let data := take (Z.to_nat len) (drop (Z.to_nat pos) content) in
      (pos + zlen data, (zlen data, data))
  | FSeek offset relative =>
      let target := if relative =? SEEK_CUR then pos + offset else Z.max offset 0 in
      (if target <? 0 then zlen content else Z.min target (zlen content), (0, []))
  end.

Fixpoint cursor_run (content : list Z) (pos : Z) (ops : list fop) : Z * list (Z * list Z) :=
  match ops with
  | [] => (pos, [])
  | o :: ops' =>
      let '(pos, r) := cursor_step content pos o in
      let '(pos, rs) := cursor_run content pos ops' in (pos, r :: rs)
  end.

Lemma zlen_bytes start size : 0 <= size -> zlen (bytes start size) = size.
Proof. intros. unfold bytes, zlen. rewrite length_fmap, length_seqZ. lia. Qed.

Lemma seqZ_take m n k : 0 <= k -> take (Z.to_nat k) (seqZ m n) = seqZ m (Z.min n k).
Proof.
  intros Hk. unfold seqZ. rewrite <-fmap_take, take_seq. do 2 f_equal. lia.
Qed.

Lemma seqZ_drop m n k : 0 <= k -> drop (Z.to_nat k) (seqZ m n) = seqZ (m + k) (n - k).
Proof.
  intros Hk. unfold seqZ. rewrite <-fmap_drop, drop_seq. replace (Z.to_nat n - Z.to_nat k)%nat with (Z.to_nat (n - k)) by lia.
  rewrite <-(Nat.add_0_r (0 + Z.to_nat k)). rewrite <-fmap_add_seq, <-list_fmap_compose.
  apply list_fmap_ext. intros i x Hx. cbn. lia.
Qed.

(** A window of the contents is a range of memory. *)
Lemma bytes_window start size pos len : 0 <= pos -> 0 <= len ->
  take (Z.to_nat len) (drop (Z.to_nat pos) (bytes start size)) =
  (fun k => mem (start + pos + k)) <$> seqZ 0 (Z.min (size - pos) len).
Proof.
  intros Hp Hl. unfold bytes. rewrite <-fmap_drop, <-fmap_take, seqZ_drop, seqZ_take by assumption.
  rewrite Z.add_0_l. transitivity ((fun k => mem (start + k)) <$> (Z.add pos <$> seqZ 0 (Z.min (size - pos) len))).
  - rewrite fmap_add_seqZ, Z.add_0_r. reflexivity.
  - rewrite <-list_fmap_compose. apply list_fmap_ext. intros i x _. cbn. f_equal. lia.
Qed.

Lemma modify_position st h content pos pos' :
  file_at st h content pos -> 0 <= pos' <= zlen content ->
  exists p, pool.modify U16_MAX (opened_files st) (u16 h) (fun fd => mk_opened (of_node fd) pos') = Ret p /\
    file_at (set_opened st p) h content pos'.
Proof.
  intros [Hh (m & n & [fl Hm] & Hl & node & file & Hn & Hf & Hrest) _] Hp. rewrite u16_small by exact Hh.
  destruct (pool.pool_modify _ _ _ _ _ _ (fun fd => mk_opened (of_node fd) pos') Hm Hl) as (p & -> & Hm' & _).
  exists p. split; [reflexivity|]. split; [exact Hh| |exact Hp]. exists (<[h := mk_opened n pos']> m), n.
  split; [exists fl; exact Hm'|]. split; [apply lookup_insert_eq|]. exists node, file. auto.
Qed.

Lemma modify_ext {T} (p : fixed_pool T) i f g v : pool.get U16_MAX p i = Ret v -> f v = g v ->
  pool.modify U16_MAX p i f = pool.modify U16_MAX p i g.
Proof. intros Hg E. unfold pool.modify. rewrite Hg, !mbind_Ret, E. reflexivity. Qed.

Lemma fstep_spec st h content pos o : file_at st h content pos -> fop_ok o ->
  let '(pos', r) := cursor_step content pos o in
  exists st', fstep st h o = Ret (st', r) /\ file_at st' h content pos'.
Proof.
  intros Hfa Hok. pose proof Hfa as [Hh (m & n & [fl Hm] & Hl & node & file & Hn & Hf & Hs & Hz & Hb & Hc) Hp].
  pose proof (pool.pool_get _ _ _ _ _ _ Hm Hl) as Hfd. assert (zlen content = mr_size file) as Hlen by (rewrite Hc; apply zlen_bytes; lia).
  unfold INT_MAX, INT_MIN, int_range in *. destruct o as [len|offset relative]; cbn [cursor_step fstep fop_ok] in *.
  - unfold read. rewrite (u16_small h) by exact Hh. rewrite Hfd, mbind_Ret. cbn [of_node of_position]. rewrite Hn, mbind_Ret, Hf, mbind_Ret.
    unfold INT_MAX in Hok. rewrite (u32_small (pos + len)) by lia.
    assert (0 <= Z.min (pos + len) (mr_size file) - pos <= 2 ^ 31 - 1) as Hcnt by lia.
    set (cnt := Z.min (pos + len) (mr_size file) - pos) in *.
    assert (to_i32 (u32 cnt) = cnt) as -> 
      by (unfold to_i32; rewrite !(u32_small cnt) by (clearbody cnt; lia); rewrite (proj2 (Z.ltb_lt _ _)) by (clearbody cnt; lia); reflexivity).
    rewrite (proj2 (Z.ltb_ge _ _)) by lia.
    rewrite Hc, bytes_window by lia. replace (Z.min (mr_size file - pos) len) with cnt by (unfold cnt; lia).
    assert (zlen ((fun k => mem (mr_start file + pos + k)) <$> seqZ 0 cnt) = cnt) as ->
      by (unfold zlen; rewrite length_fmap, length_seqZ; lia).
    rewrite <-Hc. destruct (modify_position st h content pos (pos + cnt) Hfa) as (p & Ep & Hfa'); [unfold cnt; lia|].
    rewrite (u16_small h) in Ep by exact Hh.
    rewrite (modify_ext _ _ _ (fun fd => mk_opened (of_node fd) (pos + cnt)) _ Hfd) by (cbn; rewrite u32_small by lia; reflexivity).
    rewrite Ep, mbind_Ret. eexists. split; [|exact Hfa']. destruct (Z.eq_dec cnt 0) as [->|Hne]; [reflexivity|].
    rewrite (u32_small (mr_start file + pos)) by (unfold cnt in *; lia). reflexivity.
  - unfold seek. rewrite (u16_small h) by exact Hh. rewrite Hfd, mbind_Ret. cbn [of_node of_position]. rewrite Hn, mbind_Ret, Hf, mbind_Ret.
    destruct Hok as [Hoff Hrel]. unfold int_range, INT_MIN, INT_MAX in Hoff.
    set (pos' := if (if relative =? SEEK_CUR then pos + offset else Z.max offset 0) <? 0 then zlen content
                 else Z.min (if relative =? SEEK_CUR then pos + offset else Z.max offset 0) (zlen content)).
    assert (exists x, (if relative =? SEEK_CUR then Ret (u32 (pos + offset)) else if relative =? SEEK_BEG then Ret (Z.max offset 0) else Panic) = Ret x /\
      clamp x 0 (mr_size file) = pos') as (x & -> & Hx).
    { unfold clamp, pos'. rewrite Hlen. destruct Hrel as [-> | ->].
      - rewrite Z.eqb_refl. eexists. split; [reflexivity|]. destruct (Z.ltb_spec (pos + offset) 0).
        + replace (u32 (pos + offset)) with (pos + offset + 2 ^ 32)
            by (unfold u32; rewrite <-(Z_mod_plus_full (pos + offset) 1 (2 ^ 32)), Z.mod_small; lia). lia.
        + rewrite u32_small by lia. lia.
      - change (SEEK_BEG =? SEEK_CUR) with false. rewrite Z.eqb_refl. eexists. split; [reflexivity|].
        destruct (Z.ltb_spec (Z.max offset 0) 0); lia. }
    rewrite mbind_Ret, Hx. destruct (modify_position st h content pos pos' Hfa) as (p & Ep & Hfa').
    { unfold pos'. destruct (Z.ltb_spec (if relative =? SEEK_CUR then pos + offset else Z.max offset 0) 0); lia. }
    rewrite (u16_small h) in Ep by exact Hh. rewrite Ep, !mbind_Ret. eauto.
Qed.

Lemma frun_spec ops : forall st h content pos, file_at st h content pos -> Forall fop_ok ops ->
  let '(pos', rs) := cursor_run content pos ops in
  exists st', frun st h ops = Ret (st', rs) /\ file_at st' h content pos'.
Proof.
  induction ops as [|o ops IH]; intros st h content pos Hfa Hok; [exists st; auto|].
  inversion Hok as [|? ? Ho Hok']; subst. cbn [cursor_run frun]. pose proof (fstep_spec st h content pos o Hfa Ho) as Hs.
  destruct (cursor_step content pos o) as [pos1 r]. destruct Hs as (st1 & -> & Hfa1).
  specialize (IH st1 h content pos1 Hfa1 Hok'). destruct (cursor_run content pos1 ops) as [pos2 rs].
  destruct IH as (st2 & E & Hfa2). rewrite mbind_Ret. cbv beta iota. rewrite E, mbind_Ret. eauto.
Qed.

End io.
End ramfs_io.

(** C33: reading stays inside the file.  Any sequence of reads (of any
    non-negative length) and seeks on an opened file returns exactly the
    bytes of the file from the cursor on, never a byte outside its range, and
    keeps the cursor between 0 and the size; no call fails.  A seek relative
    to the cursor that would go before the start moves to the end of the
    file, since the position is unsigned. *)
Theorem ramfs_reads_within_file (mem : Z -> Z) (st : ramfs.t) (h : Z) (content : list Z) (pos : Z) (ops : list ramfs_io.fop) :
  ramfs_io.file_at mem st h content pos -> Forall ramfs_io.fop_ok ops ->
  let '(pos', rs) := ramfs_io.cursor_run content pos ops in
  0 <= pos' <= zlen content /\
  exists st', ramfs_io.frun mem st h ops = Ret (st', rs) /\ ramfs_io.file_at mem st' h content pos'.
Proof.
  intros Hfa Hok. pose proof (ramfs_io.frun_spec mem ops st h content pos Hfa Hok) as H.
  destruct (ramfs_io.cursor_run content pos ops) as [pos' rs]. destruct H as (st' & E & Hfa').
  split; [exact (ramfs_io.fa_pos _ _ _ _ _ Hfa')|eauto].
Qed.

(** A file of 5 bytes at address 100: read 3, read 9, seek back 4, read 2,
    seek to before the start *)
Lemma ramfs_reads_within_file_witness :
  exists st st', ramfs_io.file_at (fun a => a) st 0 [100; 101; 102; 103; 104] 0 /\
  ramfs_io.frun (fun a => a) st 0
    [ramfs_io.FRead 3; ramfs_io.FRead 9; ramfs_io.FSeek (-4) 1; ramfs_io.FRead 2; ramfs_io.FSeek (-9) 1; ramfs_io.FRead 1] =
  Ret (st', [(3, [100; 101; 102]); (2, [103; 104]); (0, []); (2, [101; 102]); (0, []); (0, [])]) /\
  ramfs_io.file_at (fun a => a) st' 0 [100; 101; 102; 103; 104] 5.
Proof.
  destruct (fp_seq_append (new_fixed_pool 64) [] (ramfs.mk_range 100 5)) as (pf & Ef & Hpf & _);
    [apply fp_seq_new; unfold U16_MAX; lia|rewrite fp_new_capacity by lia; reflexivity|].
  destruct (fp_seq_append (new_fixed_pool 64) [] (ramfs.mk_node 1 0)) as (pn & En & Hpn & _);
    [apply fp_seq_new; unfold U16_MAX; lia|rewrite fp_new_capacity by lia; reflexivity|].
  destruct (fp_emplace (new_fixed_pool 32) ∅ (ramfs.mk_opened 0 0) 32) as (po & i & Eo & Hpo & _);
    [apply fp_new; unfold U16_MAX; lia|apply fp_new_capacity; lia|reflexivity|].
  assert (i = 0) as -> by (vm_compute in Eo; congruence).
  assert (ramfs_io.file_at (fun a => a) (ramfs.mk pf (new_fixed_pool 16) pn 0 po) 0 [100; 101; 102; 103; 104] 0) as Hfa.
  { split; [lia| |unfold zlen; simpl; lia]. exists {[0 := ramfs.mk_opened 0 0]}, 0.
    split; [exact Hpo|]. split; [apply lookup_singleton_eq|]. exists (ramfs.mk_node 1 0), (ramfs.mk_range 100 5).
    split; [apply (fp_seq_get _ _ 0 _ Hpn); reflexivity|]. split; [apply (fp_seq_get _ _ 0 _ Hpf); reflexivity|].
    cbn. repeat split; try lia; reflexivity. }
  eexists. edestruct (ramfs_reads_within_file (fun a => a) _ 0 [100; 101; 102; 103; 104] 0
    [ramfs_io.FRead 3; ramfs_io.FRead 9; ramfs_io.FSeek (-4) 1; ramfs_io.FRead 2; ramfs_io.FSeek (-9) 1; ramfs_io.FRead 1] Hfa)
    as (_ & st' & E & Hfa').
  { unfold ramfs_io.fop_ok, ramfs_io.int_range, INT_MIN, INT_MAX, kdefs.SEEK_CUR. repeat constructor; lia. }
  exists st'. split; [exact Hfa|]. split; [exact E|exact Hfa'].
Defined.
