(* ===== verification/Vfs.v ===== *)
(** * The virtual file system (kernel/filesystem.cc, filesystem.h,
      filesystem_private.h)

    Nodes, directory entries and registered devices; contexts (the descriptor
    tables of processes) and the table of opened files they share.  A driver
    is a record of optional operations, as in the source; the drivers other
    than the built-in one work on a state [D] of their own, which the VFS only
    threads through.  The driver pointer of a device is either the built-in
    driver or a number that selects one of the registered ones. *)

From S2P Require Import Prelude Pool Text KernelDefs Ramfs.
#[local] Open Scope Z_scope.

Module vfs.
Import kdefs.

Definition VFS_DIRECTORY : Z := 0x01.
Definition VFS_DRIVER : Z := 0x02.
Definition VFS_CHAR_DEVICE : Z := Z.lor 0x10 VFS_DRIVER.
Definition VFS_FILESYSTEM : Z := Z.lor 0x20 (Z.lor VFS_DRIVER VFS_DIRECTORY).
Definition DIRENT_SIZE : Z := 64.

Record vfs_node := mk_node { n_type : Z; n_info : Z }.
Record vfs_dirent := mk_dirent { d_name : str.t; d_node : Z; d_next : Z }.
Inductive driver_ptr := LocalDriver | Registered (d : Z).
Record vfs_device := mk_device { dev_driver : option driver_ptr; dev_opaque : Z }.
Record opened_file := mk_opened { o_device : option Z; o_handle : Z; o_flags : Z; o_ref_count : Z }.
Record locally_opened_file := mk_local { l_node : Z; l_position : Z }.
Definition context : Type := fixed_pool Z.

(** What [control] did: returned, having stored words for the caller, or
    killed the caller *)
Inductive ctl := CtlRet (value : Z) (writes : list (Z * Z)) | CtlKilled (writes : list (Z * Z)).

(** [vfs_device_driver]: [None] is a null function pointer *)
Record driver (D : Type) := mk_driver {
  drv_write : option (Z -> list Z -> D -> outcome (D * Z));
  drv_read : option (Z -> Z -> D -> outcome (D * (Z * list Z)));
  drv_open : option (Z -> list Z -> Z -> D -> outcome (D * Z));
  drv_close : option (Z -> D -> outcome (D * Z));
  drv_control : option (Z -> Z -> Z -> Z -> D -> outcome (D * ctl));
  drv_seek : option (Z -> Z -> Z -> D -> outcome (D * Z));
  drv_tell : option (Z -> Z -> D -> outcome (D * (Z * Z)));
  drv_mkdir : option (list Z -> D -> outcome (D * Z))
}.
Arguments mk_driver {D}.
Arguments drv_write {D}.
Arguments drv_read {D}.
Arguments drv_open {D}.
Arguments drv_close {D}.
Arguments drv_control {D}.
Arguments drv_seek {D}.
Arguments drv_tell {D}.
Arguments drv_mkdir {D}.

Record t (D : Type) := mk {
  nodes : fixed_pool vfs_node;
  directories : fixed_pool vfs_dirent;
  drivers : fixed_pool vfs_device;
  root_dir : Z;
  contexts : fixed_pool context;
  opened_files : fixed_pool opened_file;
  locally_opened_files : fixed_pool locally_opened_file;
  local_driver_handle : Z;
  devs : D
}.
Arguments mk {D}.
Arguments nodes {D}.
Arguments directories {D}.
Arguments drivers {D}.
Arguments root_dir {D}.
Arguments contexts {D}.
Arguments opened_files {D}.
Arguments locally_opened_files {D}.
Arguments local_driver_handle {D}.
Arguments devs {D}.

Section ops.
Context {D : Type}.
Variable ext : Z -> driver D.
Variables (junk32 junk64 : list Z).
Implicit Type st : t D.

Definition set_nodes st (v : fixed_pool vfs_node) : t D := mk v (directories st) (drivers st) (root_dir st) (contexts st) (opened_files st) (locally_opened_files st) (local_driver_handle st) (devs st).
Definition set_directories st (v : fixed_pool vfs_dirent) : t D := mk (nodes st) v (drivers st) (root_dir st) (contexts st) (opened_files st) (locally_opened_files st) (local_driver_handle st) (devs st).
Definition set_drivers st (v : fixed_pool vfs_device) : t D := mk (nodes st) (directories st) v (root_dir st) (contexts st) (opened_files st) (locally_opened_files st) (local_driver_handle st) (devs st).
Definition set_root st (v : Z) : t D := mk (nodes st) (directories st) (drivers st) v (contexts st) (opened_files st) (locally_opened_files st) (local_driver_handle st) (devs st).
Definition set_contexts st (v : fixed_pool context) : t D := mk (nodes st) (directories st) (drivers st) (root_dir st) v (opened_files st) (locally_opened_files st) (local_driver_handle st) (devs st).
Definition set_opened st (v : fixed_pool opened_file) : t D := mk (nodes st) (directories st) (drivers st) (root_dir st) (contexts st) v (locally_opened_files st) (local_driver_handle st) (devs st).
Definition set_local st (v : fixed_pool locally_opened_file) : t D := mk (nodes st) (directories st) (drivers st) (root_dir st) (contexts st) (opened_files st) v (local_driver_handle st) (devs st).
Definition set_local_handle st (v : Z) : t D := mk (nodes st) (directories st) (drivers st) (root_dir st) (contexts st) (opened_files st) (locally_opened_files st) v (devs st).
Definition set_devs st (v : D) : t D := mk (nodes st) (directories st) (drivers st) (root_dir st) (contexts st) (opened_files st) (locally_opened_files st) (local_driver_handle st) v.

(** ** Building the tree *)

Definition vfs_create_node st (type : Z) : outcome (t D * Z) :=
  '(p, h) ← pool.emplace_anywhere U16_MAX (nodes st) (mk_node type U16_MAX);
  Ret (set_nodes st p, h).

Definition vfs_add_dirent st (dir_node : Z) (name : list Z) (node : Z) : outcome (t D) :=
  parent ← pool.get U16_MAX (nodes st) dir_node;
  passert (n_type parent =? VFS_DIRECTORY);;
  nm ← str.from_cstr_all junk32 name;
  '(p, h) ← pool.emplace_anywhere U16_MAX (directories st) (mk_dirent nm node (n_info parent));
  ns ← pool.modify U16_MAX (nodes st) dir_node (fun n => mk_node (n_type n) h);
  Ret (set_nodes (set_directories st p) ns).

Definition vfs_set_driver st (driver_node : Z) (driver : option driver_ptr) (opaque : Z) : outcome (t D) :=
  node ← pool.get U16_MAX (nodes st) driver_node;
  passert (negb (Z.land (n_type node) VFS_DRIVER =? 0));;
  '(p, h) ← pool.emplace_anywhere U16_MAX (drivers st) (mk_device driver opaque);
  ns ← pool.modify U16_MAX (nodes st) driver_node (fun n => mk_node (n_type n) h);
  Ret (set_nodes (set_drivers st p) ns).

(** The tables at program start *)
Definition empty (d : D) : t D :=
  mk (new_fixed_pool 256) (new_fixed_pool 256) (new_fixed_pool 64) 0 (new_fixed_pool 64) (new_fixed_pool 64) (new_fixed_pool 64) 0 d.

(** [vfs_init], without the registration of the system calls *)
Definition vfs_init st : outcome (t D) :=
  '(st, r) ← vfs_create_node st VFS_DIRECTORY;
  let st := set_root st r in
  '(st, l) ← vfs_create_node st VFS_FILESYSTEM;
  let st := set_local_handle st l in
  vfs_set_driver st l (Some LocalDriver) 0.

(** ** Looking up names *)

(** An entry list has at most 256 elements. *)
Fixpoint find_loop (fuel : nat) st (dirent_idx : Z) (name : str.t) : outcome (option vfs_dirent) :=
  match fuel with
  | O => NoFuel
  | S fuel' =>
      if dirent_idx =? U16_MAX then Ret None
      else
        dirent ← pool.get U16_MAX (directories st) dirent_idx;
        copy ← str.copy junk32 (d_name dirent);
        if str.eqb name copy then Ret (Some dirent)
        else find_loop fuel' st (d_next dirent) name
  end.

Definition find_dirent st (dir_node : Z) (name : str.t) : outcome (option vfs_dirent) :=
  node ← pool.get U16_MAX (nodes st) dir_node;
  passert (n_type node =? VFS_DIRECTORY);;
  find_loop 257 st (n_info node) name.

Definition is_slash (path : list Z) : bool := match path with [c] => c =? 47 | _ => false end.

Fixpoint vfs_lookup_aux (fuel : nat) st (parent : Z) (path : list Z) : outcome Z :=
  match fuel with
  | O => NoFuel
  | S fuel' =>
      match path with
      | [] => Ret parent
      | c :: seg_start =>
          if is_slash path then Ret parent
          else if negb (c =? 47) then Ret U16_MAX
          else
            let len := ramfs.segment_length seg_start in
            segment ← str.from_cstr junk32 seg_start (Z.of_nat len);
            dirent ← find_dirent st parent segment;
            match dirent with
            | Some e => vfs_lookup_aux fuel' st (d_node e) (drop len seg_start)
            | None => Ret U16_MAX
            end
      end
  end.

Definition vfs_lookup st (path : list Z) : outcome Z := vfs_lookup_aux (S (length path)) st (root_dir st) path.

(** The first driver on the path, and the rest of the path *)
Fixpoint find_first_driver_aux (fuel : nat) st (parent_idx : Z) (path : list Z) : outcome (option (Z * list Z)) :=
  match fuel with
  | O => NoFuel
  | S fuel' =>
      node ← pool.get U16_MAX (nodes st) parent_idx;
      if negb (Z.land (n_type node) VFS_DRIVER =? 0) then Ret (Some (parent_idx, path))
      else
        match path with
        | [] => Ret None
        | c :: seg_start =>
            if is_slash path || negb (c =? 47) then Ret None
            else
              let len := ramfs.segment_length seg_start in
              segment ← str.from_cstr junk32 seg_start (Z.of_nat len);
              dirent ← find_dirent st parent_idx segment;
              match dirent with
              | Some e => find_first_driver_aux fuel' st (d_node e) (drop len seg_start)
              | None => Ret None
              end
        end
  end.

Definition find_first_driver st (parent_idx : Z) (path : list Z) : outcome (option (Z * list Z)) :=
  r ← find_first_driver_aux (S (length path)) st parent_idx path;
  match r with
  | Some x => Ret (Some x)
  | None => Ret (Some (local_driver_handle st, path))
  end.

Definition vfs_get_opaque (d : vfs_device) : Z := dev_opaque d.

(** ** The built-in driver: the tree itself *)

(** [dirent_t block; memcpy(block.name, entry.name.c_str(), ...)]: the rest
    of the block is what was on the stack. *)
Definition dirent_block (name : str.t) : outcome (list Z) :=
  arr_blit junk64 0 (str.storage name) (Z.min (str.size name + 1) DIRENT_SIZE).

(** The loop of [read_locally]: position, remaining length, data so far *)
Fixpoint read_loop (fuel : nat) st (dirent_idx byte_offset position length : Z) (data : list Z) : outcome (Z * list Z) :=
  match fuel with
  | O => NoFuel
  | S fuel' =>
      if (dirent_idx =? U16_MAX) || negb (length >? 0) then Ret (position, data)
      else
        entry ← pool.get U16_MAX (directories st) dirent_idx;
        if (position >=? byte_offset) && (position <? byte_offset + DIRENT_SIZE) then
          let block_offset := position mod DIRENT_SIZE in
          let copy_length := Z.min (DIRENT_SIZE - block_offset) length in
          block ← dirent_block (d_name entry);
          let chunk := take (Z.to_nat copy_length) (drop (Z.to_nat block_offset) block) in
          read_loop fuel' st (d_next entry) (byte_offset + DIRENT_SIZE) (position + copy_length) (length - copy_length) (data ++ chunk)
        else read_loop fuel' st (d_next entry) (byte_offset + DIRENT_SIZE) position length data
  end.

Definition read_locally st (handle length : Z) : outcome (t D * (Z * list Z)) :=
  f ← pool.get U16_MAX (locally_opened_files st) (u16 handle);
  node ← pool.get U16_MAX (nodes st) (l_node f);
  passert (negb (Z.land (n_type node) VFS_DIRECTORY =? 0));;
  if n_info node =? U16_MAX then Ret (st, (0, []))
  else
    '(position, data) ← read_loop 257 st (n_info node) 0 (l_position f) length [];
    p ← pool.modify U16_MAX (locally_opened_files st) (u16 handle) (fun f => mk_local (l_node f) position);
    Ret (set_local st p, (zlen data, data)).

Definition open_locally st (path : list Z) : outcome (t D * Z) :=
  dir_handle ← vfs_lookup st path;
  if dir_handle =? U16_MAX then Ret (st, ENOENT)
  else
    '(p, h) ← pool.emplace_anywhere U16_MAX (locally_opened_files st) (mk_local dir_handle 0);
    Ret (set_local st p, h).

Definition close_locally st (handle : Z) : outcome (t D * Z) :=
  p ← pool.erase U16_MAX (locally_opened_files st) (u16 handle);
  Ret (set_local st p, 0).

(** Calls through the function pointers of a device: [None] is the null
    pointer, for a device without driver as well *)
Definition lift_dev {A} st (f : D -> outcome (D * A)) : outcome (t D * A) :=
  '(d, a) ← f (devs st); Ret (set_devs st d, a).

Definition call_open (dev : option driver_ptr) : option (t D -> Z -> list Z -> Z -> outcome (t D * Z)) :=
  match dev with
  | None => None
  | Some LocalDriver => Some (fun st _ path _ => open_locally st path)
  | Some (Registered n) => (fun f st device path flags => lift_dev st (f device path flags)) <$> drv_open (ext n)
  end.

Definition call_close (dev : option driver_ptr) : option (t D -> Z -> outcome (t D * Z)) :=
  match dev with
  | None => None
  | Some LocalDriver => Some close_locally
  | Some (Registered n) => (fun f st h => lift_dev st (f h)) <$> drv_close (ext n)
  end.

Definition call_read (dev : option driver_ptr) : option (t D -> Z -> Z -> outcome (t D * (Z * list Z))) :=
  match dev with
  | None => None
  | Some LocalDriver => Some read_locally
  | Some (Registered n) => (fun f st h length => lift_dev st (f h length)) <$> drv_read (ext n)
  end.

(** The built-in driver has no other operation. *)
Definition registered (dev : option driver_ptr) : option (driver D) :=
  match dev with Some (Registered n) => Some (ext n) | _ => None end.

(** ** Descriptors *)

(** The driver a device pointer leads to *)
Definition device_driver st (device : option Z) : outcome (option driver_ptr) :=
  match device with
  | None => Ret None
  | Some i => d ← pool.get U16_MAX (drivers st) i; Ret (dev_driver d)
  end.

(** A change of the descriptors of a context *)
Definition set_descriptors st (ctx : Z) (ds : context) : outcome (t D) :=
  p ← pool.modify U16_MAX (contexts st) ctx (fun _ => ds);
  Ret (set_contexts st p).

Definition vfs_close st (context_handle local_fd : Z) : outcome (t D * Z) :=
  ctx ← pool.get U16_MAX (contexts st) context_handle;
  file_handle ← pool.get U16_MAX ctx local_fd;
  file ← pool.get U16_MAX (opened_files st) file_handle;
  drv ← device_driver st (o_device file);
  passert (match drv with Some _ => true | None => false end);;
  ds ← pool.erase U16_MAX ctx local_fd;
  st ← set_descriptors st context_handle ds;
  files ← pool.modify U16_MAX (opened_files st) file_handle
            (fun f => mk_opened (o_device f) (o_handle f) (o_flags f) (o_ref_count f - 1));
  let st := set_opened st files in
  if o_ref_count file - 1 =? 0 then
    '(st, retval) ← match call_close drv with
                    | Some close => close st (o_handle file)
                    | None => Ret (st, 0)
                    end;
    files ← pool.erase U16_MAX (opened_files st) file_handle;
    Ret (set_opened st files, retval)
  else Ret (st, 0).

Definition fetch_opened_file st (context_handle fd : Z) : outcome (res (opened_file * driver_ptr)) :=
  if negb (pool.valid U16_MAX (contexts st) context_handle) then Ret (failure ENOENT)
  else
    ctx ← pool.get U16_MAX (contexts st) context_handle;
    if negb (pool.valid U16_MAX ctx fd) then Ret (failure ENOENT)
    else
      file_handle ← pool.get U16_MAX ctx fd;
      if negb (pool.valid U16_MAX (opened_files st) file_handle) then Ret (failure ENOENT)
      else
        file ← pool.get U16_MAX (opened_files st) file_handle;
        drv ← device_driver st (o_device file);
        match drv with
        | None => Ret (failure EINCONSTATE)
        | Some d => Ret (success (file, d))
        end.

Definition vfs_read st (context_handle fd length : Z) : outcome (t D * res (Z * list Z)) :=
  file ← fetch_opened_file st context_handle fd;
  match file with
  | failure e => Ret (st, failure e)
  | success (file, d) =>
      match call_read (Some d) with
      | None => Ret (st, failure ENOSUPPORT)
      | Some read =>
          '(st, (retval, data)) ← read st (o_handle file) length;
          if retval <? 0 then Ret (st, failure retval) else Ret (st, success (u32 retval, data))
      end
  end.

Definition vfs_open st (context_handle : Z) (filename : list Z) (flags : Z) : outcome (t D * res Z) :=
  ctx ← pool.get U16_MAX (contexts st) context_handle;
  driver ← find_first_driver st (root_dir st) filename;
  match driver with
  | None => Ret (st, failure ENODRIVER)
  | Some (node_idx, rest_path) =>
      driver_node ← pool.get U16_MAX (nodes st) node_idx;
      passert (negb (Z.land (n_type driver_node) VFS_DRIVER =? 0));;
      passert (negb (n_info driver_node =? U16_MAX));;
      device ← pool.get U16_MAX (drivers st) (n_info driver_node);
      passert (match dev_driver device with Some _ => true | None => false end);;
      match call_open (dev_driver device) with
      | None => Ret (st, failure ENOSUPPORT)
      | Some open =>
          '(st, local) ← open st (n_info driver_node) rest_path flags;
          if local <? 0 then Ret (st, failure local)
          else
            '(files, ofh) ← pool.emplace_anywhere U16_MAX (opened_files st) (mk_opened (Some (n_info driver_node)) local flags 1);
            let st := set_opened st files in
            ctx ← pool.get U16_MAX (contexts st) context_handle;
            '(ds, fd) ← pool.emplace_anywhere U16_MAX ctx ofh;
            st ← set_descriptors st context_handle ds;
            Ret (st, success fd)
      end
  end.

Definition vfs_seek st (context_handle fd offset relative : Z) : outcome (t D * Z) :=
  file ← fetch_opened_file st context_handle fd;
  match file with
  | failure e => Ret (st, e)
  | success (file, d) =>
      match registered (Some d) ≫= drv_seek with
      | None => Ret (st, ENOSUPPORT)
      | Some f => lift_dev st (f (o_handle file) offset relative)
      end
  end.

Definition vfs_create_context st : outcome (t D * res Z) :=
  if pool.full (contexts st) then Ret (st, failure ENOSPACE)
  else
    '(p, h) ← pool.emplace_anywhere U16_MAX (contexts st) (new_fixed_pool 16);
    Ret (set_contexts st p, success h).

(** [for (int i = 0; i < descriptors.watermark(); ++i)]: the watermark is read
    again in each round; it is at most 16. *)
Fixpoint destroy_loop (fuel : nat) st (context_handle i : Z) : outcome (t D) :=
  match fuel with
  | O => NoFuel
  | S fuel' =>
      ctx ← pool.get U16_MAX (contexts st) context_handle;
      if i <? pool.watermark ctx then
        st ← (if pool.valid U16_MAX ctx i then '(st, _) ← vfs_close st context_handle i; Ret st else Ret st);
        destroy_loop fuel' st context_handle (i + 1)
      else Ret st
  end.

Definition vfs_destroy_context st (context_handle : Z) : outcome (t D) :=
  st ← destroy_loop 17 st context_handle 0;
  p ← pool.erase U16_MAX (contexts st) context_handle;
  Ret (set_contexts st p).

Fixpoint close_loop (fuel : nat) st (context_handle flags i : Z) : outcome (t D) :=
  match fuel with
  | O => NoFuel
  | S fuel' =>
      ctx ← pool.get U16_MAX (contexts st) context_handle;
      if i <? pool.watermark ctx then
        st ← (if negb (pool.valid U16_MAX ctx i) then Ret st
              else
                h ← pool.get U16_MAX ctx i;
                file ← pool.get U16_MAX (opened_files st) h;
                if Z.land (o_flags file) flags =? 0 then '(st, _) ← vfs_close st context_handle i; Ret st
                else Ret st);
        close_loop fuel' st context_handle flags (i + 1)
      else Ret st
  end.

Definition vfs_close_not_matching st (context_handle flags : Z) : outcome (t D) :=
  ctx ← pool.get U16_MAX (contexts st) context_handle;
  close_loop 17 st context_handle flags 0.

Definition vfs_alias_fd st (src_ctx_handle src_fd dst_ctx_handle dst_fd : Z) : outcome (t D * Z) :=
  source ← pool.get U16_MAX (contexts st) src_ctx_handle;
  dest ← pool.get U16_MAX (contexts st) dst_ctx_handle;
  if negb (pool.valid U16_MAX source src_fd) then Ret (st, ENOENT)
  else
    h ← pool.get U16_MAX source src_fd;
    same ← (if pool.valid U16_MAX dest dst_fd then h' ← pool.get U16_MAX dest dst_fd; Ret (h' =? h) else Ret false);
    if (same : bool) then Ret (st, 0)
    else
      st ← (if pool.valid U16_MAX dest dst_fd then '(st, _) ← vfs_close st dst_ctx_handle dst_fd; Ret st else Ret st);
      source ← pool.get U16_MAX (contexts st) src_ctx_handle;
      h ← pool.get U16_MAX source src_fd;
      dest ← pool.get U16_MAX (contexts st) dst_ctx_handle;
      ds ← pool.emplace U16_MAX dest dst_fd h;
      st ← set_descriptors st dst_ctx_handle ds;
      source ← pool.get U16_MAX (contexts st) src_ctx_handle;
      h ← pool.get U16_MAX source src_fd;
      files ← pool.modify U16_MAX (opened_files st) h
                (fun f => mk_opened (o_device f) (o_handle f) (o_flags f) (o_ref_count f + 1));
      Ret (set_opened st files, 0).

Fixpoint fork_loop (fuel : nat) st (context_handle new_context i : Z) : outcome (t D) :=
  match fuel with
  | O => NoFuel
  | S fuel' =>
      source ← pool.get U16_MAX (contexts st) context_handle;
      if i <? pool.watermark source then
        st ← (if pool.valid U16_MAX source i then '(st, _) ← vfs_alias_fd st context_handle i new_context i; Ret st else Ret st);
        fork_loop fuel' st context_handle new_context (i + 1)
      else Ret st
  end.

Definition vfs_fork_context st (context_handle : Z) : outcome (t D * res Z) :=
  '(st, new_context) ← vfs_create_context st;
  match new_context with
  | failure e => Ret (st, failure e)
  | success c =>
      source ← pool.get U16_MAX (contexts st) context_handle;
      st ← fork_loop 17 st context_handle c 0;
      Ret (st, success c)
  end.

(** ** System calls

    [file_context] is the context of the calling process, [valid_pointer] and
    [valid_buffer] the checks of syscall_utils.h for it.  A pointer argument
    comes with what it points to.  The macros [verify_ptr] and [verify_buf]
    kill the caller, who does not come back. *)

Inductive sysret (A : Type) := Returns (a : A) | Kills.
Arguments Returns {A} a.
Arguments Kills {A}.

Variable valid_pointer : Z -> bool.
Variable valid_buffer : Z -> Z -> bool.
Variable file_context : Z.

Definition returns {A} (o : outcome (t D * A)) : outcome (t D * sysret A) :=
  '(st, a) ← o; Ret (st, Returns a).

Definition syscall_write st (fd data_ptr : Z) (data : list Z) : outcome (t D * sysret Z) :=
  if negb (valid_pointer data_ptr) then Ret (st, Kills)
  else
    file ← fetch_opened_file st file_context (u16 fd);
    match file with
    | failure e => Ret (st, Returns e)
    | success (file, d) =>
        match registered (Some d) ≫= drv_write with
        | None => Ret (st, Returns ENOSUPPORT)
        | Some f => returns (lift_dev st (f (o_handle file) data))
        end
    end.

(** The result and the bytes stored in the caller's buffer *)
Definition syscall_read st (fd data_ptr length : Z) : outcome (t D * sysret (Z * list Z)) :=
  if negb (valid_buffer data_ptr length) then Ret (st, Kills)
  else
    '(st, r) ← vfs_read st file_context (u16 fd) length;
    match r with
    | failure e => Ret (st, Returns (e, []))
    | success (n, data) => Ret (st, Returns (to_i32 n, data))
    end.

Definition syscall_open st (filename_ptr : Z) (filename : list Z) (flags : Z) : outcome (t D * sysret Z) :=
  if negb (valid_pointer filename_ptr) then Ret (st, Kills)
  else
    '(st, r) ← vfs_open st file_context filename flags;
    match r with
    | success fd => passert (fd >=? 0);; Ret (st, Returns fd)
    | failure e => passert (e <? 0);; Ret (st, Returns e)
    end.

Definition syscall_mkdir st (path_ptr : Z) (path : list Z) : outcome (t D * sysret Z) :=
  if negb (valid_pointer path_ptr) then Ret (st, Kills)
  else
    driver ← find_first_driver st (root_dir st) path;
    match driver with
    | None => Ret (st, Returns ENODRIVER)
    | Some (node_idx, rest_path) =>
        driver_node ← pool.get U16_MAX (nodes st) node_idx;
        passert (negb (Z.land (n_type driver_node) VFS_DRIVER =? 0));;
        passert (negb (n_info driver_node =? U16_MAX));;
        device ← pool.get U16_MAX (drivers st) (n_info driver_node);
        passert (match dev_driver device with Some _ => true | None => false end);;
        match registered (dev_driver device) ≫= drv_mkdir with
        | None => Ret (st, Returns ENOSUPPORT)
        | Some f => returns (lift_dev st (f rest_path))
        end
    end.

Definition syscall_close st (fd : Z) : outcome (t D * Z) := vfs_close st file_context (u16 fd).

Definition syscall_seek st (fd offset relative : Z) : outcome (t D * Z) :=
  vfs_seek st file_context (u16 fd) offset relative.

(** The result and the position stored at the pointer *)
Definition syscall_tell st (fd position_ptr : Z) : outcome (t D * sysret (Z * option Z)) :=
  passert (negb (position_ptr =? 0));;
  if negb (valid_pointer position_ptr) then Ret (st, Kills)
  else
    file ← fetch_opened_file st file_context (u16 fd);
    match file with
    | failure e => Ret (st, Returns (e, None))
    | success (file, d) =>
        match registered (Some d) ≫= drv_tell with
        | None => Ret (st, Returns (ENOSUPPORT, None))
        | Some f => '(st, (r, pos)) ← lift_dev st (f (o_handle file) position_ptr); Ret (st, Returns (r, Some pos))
        end
    end.

Definition syscall_control st (fd function param1 param2 : Z) : outcome (t D * sysret ctl) :=
  file ← fetch_opened_file st file_context (u16 fd);
  match file with
  | failure e => Ret (st, Returns (CtlRet e []))
  | success (file, d) =>
      match registered (Some d) ≫= drv_control with
      | None => Ret (st, Returns (CtlRet ENOSUPPORT []))
      | Some f => returns (lift_dev st (f (o_handle file) function param1 param2))
      end
  end.

Definition syscall_dup2 st (fd alias_fd : Z) : outcome (t D * Z) :=
  vfs_alias_fd st file_context (u16 fd) file_context (u16 alias_fd).

End ops.
Arguments Returns {A} a.
Arguments Kills {A}.

(** The RAM file system as a driver *)
Definition ramfs_driver (junk16 junk128 : list Z) (mem : Z -> Z) (valid_pointer : Z -> bool) : driver ramfs.t := {|
  drv_write := None;
  drv_read := Some (fun h length st => ramfs.read mem st h length);
  drv_open := Some (fun _ path flags st => ramfs.open junk16 junk128 st path flags);
  drv_close := Some (fun h st => ramfs.close st h);
  drv_control := Some (fun h f p1 p2 st =>
    r ← ramfs.control valid_pointer st h f p1 p2;
    match r with
    | ramfs.Returned st' v w => Ret (st', CtlRet v w)
    | ramfs.Killed w => Ret (st, CtlKilled w)
    end);
  drv_seek := Some (fun h off rel st => ramfs.seek st h off rel);
  drv_tell := Some (fun h ptr st => pos ← ramfs.tell st h ptr; Ret (st, (0, pos)));
  drv_mkdir := Some (fun path st => ramfs.mkdir junk16 junk128 st path)
|}.

(** [ramfs_init]: the root node, and the mount at /ramfs *)
Definition mount_ramfs (junk32 : list Z) (st : t ramfs.t) (driver_no : Z) : outcome (t ramfs.t) :=
  '(st, mountpoint) ← vfs_create_node st VFS_FILESYSTEM;
  st ← vfs_set_driver st mountpoint (Some (Registered driver_no)) 0;
  root ← vfs_lookup junk32 st [47];
  st ← vfs_add_dirent junk32 st root [114; 97; 109; 102; 115] mountpoint;
  d ← ramfs.ramfs_init;
  Ret (set_devs st d).
End vfs.
