(* ===== verification/VfsFacts.v ===== *)
(** * Descriptors and reference counts of the VFS

    The descriptor tables of all contexts, flattened to one finite map from
    (context, descriptor) to opened file, and the invariant that ties it to
    the table of opened files: an opened file exists exactly as long as a
    descriptor refers to it, and its reference count is the number of those
    descriptors. *)

From S2P Require Import Prelude Pool Text KernelDefs Ramfs Vfs.
From stdpp Require Import gmap fin_maps list.
#[local] Open Scope Z_scope.

Module vfs_inv.
Import kdefs vfs.

(** ** Counting references *)

Definition refs (FD : gmap (Z * Z) Z) (h : Z) : Z := Z.of_nat (base.size (filter (fun kv => kv.2 = h) FD)).

Lemma refs_nonneg FD h : 0 <= refs FD h.
Proof. unfold refs. lia. Qed.

Lemma refs_insert FD k h h' : FD !! k = None -> refs (<[k := h']> FD) h = refs FD h + (if decide (h' = h) then 1 else 0).
Proof.
  intros Hk. unfold refs. rewrite map_filter_insert. cbn [snd]. destruct (decide (h' = h)).
  - rewrite map_size_insert_None; [lia|]. rewrite map_lookup_filter, Hk. reflexivity.
  - rewrite delete_id by exact Hk. lia.
Qed.

Lemma refs_delete FD k h h' : FD !! k = Some h' -> refs (delete k FD) h = refs FD h - (if decide (h' = h) then 1 else 0).
Proof.
  intros Hk. pose proof (refs_insert (delete k FD) k h h' (lookup_delete_eq _ _)) as H.
  rewrite insert_delete_id in H by exact Hk. lia.
Qed.

Lemma refs_pos FD k h : FD !! k = Some h -> 0 < refs FD h.
Proof.
  intros Hk. pose proof (refs_delete FD k h h Hk) as H. rewrite decide_True in H by reflexivity.
  pose proof (refs_nonneg (delete k FD) h). lia.
Qed.

(** ** The invariant *)

Definition ctxs (p : fixed_pool context) (FD : gmap (Z * Z) Z) : Prop :=
  exists CM, fpm 64 p CM /\
    (forall c ctx, CM !! c = Some ctx -> exists m, fpm 16 ctx m /\ forall fd, FD !! (c, fd) = m !! fd) /\
    (forall c fd, CM !! c = None -> FD !! (c, fd) = None).

(** Every device of an opened file has a driver. *)
Definition has_driver {D} (st : t D) (f : opened_file) (d : driver_ptr) : Prop :=
  exists i DM o, o_device f = Some i /\ fpm 64 (drivers st) DM /\ DM !! i = Some (mk_device (Some d) o).

Record inv {D} (st : t D) (FD : gmap (Z * Z) Z) (OF : gmap Z opened_file) : Prop := {
  inv_ctxs : ctxs (contexts st) FD;
  inv_files : fpm 64 (opened_files st) OF;
  inv_count : forall h f, OF !! h = Some f -> o_ref_count f = refs FD h /\ 0 < refs FD h /\ exists d, has_driver st f d;
  inv_none : forall h, OF !! h = None -> refs FD h = 0;
  inv_drivers : exists DM, fpm 64 (drivers st) DM
}.

(** A descriptor as the code finds it *)
Definition descriptor {D} (st : t D) (c fd : Z) : option Z := pool.at_ U16_MAX (contexts st) c ≫= fun ctx => pool.at_ U16_MAX ctx fd.

Lemma ctxs_descriptor {D} (st : t D) FD c fd : ctxs (contexts st) FD -> descriptor st c fd = FD !! (c, fd).
Proof.
  intros (CM & Hp & H1 & H2). unfold descriptor. rewrite (fpm_at _ _ _ _ Hp). destruct (CM !! c) as [ctx|] eqn:E; cbn [mbind option_bind].
  - destruct (H1 c ctx E) as (m & Hm & Hfd). rewrite (fpm_at _ _ _ _ Hm), Hfd. reflexivity.
  - symmetry. apply H2. exact E.
Qed.

(** A context is either there, with its descriptors, or its use stops the
    system. *)
Lemma ctxs_get p FD c : ctxs p FD ->
  (pool.get U16_MAX p c = Panic /\ pool.valid U16_MAX p c = false /\ forall fd, FD !! (c, fd) = None) \/
  (exists ctx m, pool.get U16_MAX p c = Ret ctx /\ pool.valid U16_MAX p c = true /\ fpm 16 ctx m /\ forall fd, FD !! (c, fd) = m !! fd).
Proof.
  intros (CM & Hp & H1 & H2). rewrite (fpm_get _ _ _ _ Hp), (fpm_valid _ _ _ _ Hp). destruct (CM !! c) as [ctx|] eqn:E.
  - right. destruct (H1 c ctx E) as (m & Hm & Hfd). eauto 10.
  - left. auto.
Qed.

Lemma ctxs_update p FD FD' c ctx ds m' : ctxs p FD -> pool.get U16_MAX p c = Ret ctx -> fpm 16 ds m' ->
  (forall fd, FD' !! (c, fd) = m' !! fd) -> (forall c' fd, c' <> c -> FD' !! (c', fd) = FD !! (c', fd)) ->
  exists p', pool.modify U16_MAX p c (fun _ => ds) = Ret p' /\ ctxs p' FD'.
Proof.
  intros (CM & Hp & H1 & H2) Hg Hds Hsame Hother. rewrite (fpm_get _ _ _ _ Hp) in Hg.
  destruct (CM !! c) as [ctx0|] eqn:E; [|discriminate].
  destruct (fpm_modify _ _ _ _ _ (fun _ => ds) Hp E) as (p' & Ep & Hp' & _). exists p'. split; [exact Ep|].
  exists (<[c := ds]> CM). split; [exact Hp'|]. split.
  - intros c' ctx' Hc'. destruct (decide (c' = c)) as [->|Hne].
    + rewrite lookup_insert_eq in Hc'. injection Hc' as <-. eauto.
    + rewrite lookup_insert_ne in Hc' by congruence. destruct (H1 c' ctx' Hc') as (m & Hm & Hfd). exists m. split; [exact Hm|].
      intros fd. rewrite Hother by exact Hne. apply Hfd.
  - intros c' fd Hc'. destruct (decide (c' = c)) as [->|Hne]; [rewrite lookup_insert_eq in Hc'; discriminate|].
    rewrite lookup_insert_ne in Hc' by congruence. rewrite Hother by exact Hne. apply H2. exact Hc'.
Qed.

Lemma ctxs_delete p FD c ctx m fd : ctxs p FD -> pool.get U16_MAX p c = Ret ctx -> fpm 16 ctx m -> is_Some (m !! fd) ->
  (forall fd, FD !! (c, fd) = m !! fd) ->
  exists ds p', pool.erase U16_MAX ctx fd = Ret ds /\ pool.modify U16_MAX p c (fun _ => ds) = Ret p' /\ ctxs p' (delete (c, fd) FD).
Proof.
  intros Hp Hg Hm [h Hfd] Hall. destruct (fpm_erase _ _ _ _ _ Hm Hfd) as (ds & Eds & Hds).
  destruct (ctxs_update p FD (delete (c, fd) FD) c ctx ds (delete fd m) Hp Hg Hds) as (p' & Ep & Hp').
  - intros fd'. destruct (decide (fd' = fd)) as [->|Hne]; [rewrite !lookup_delete_eq; reflexivity|].
    rewrite !lookup_delete_ne by congruence. apply Hall.
  - intros c' fd' Hne. apply lookup_delete_ne. congruence.
  - eauto 10.
Qed.

Lemma ctxs_insert p FD c ctx m fd h ds : ctxs p FD -> pool.get U16_MAX p c = Ret ctx -> fpm 16 ctx m ->
  (forall fd, FD !! (c, fd) = m !! fd) -> fpm 16 ds (<[fd := h]> m) ->
  exists p', pool.modify U16_MAX p c (fun _ => ds) = Ret p' /\ ctxs p' (<[(c, fd) := h]> FD).
Proof.
  intros Hp Hg Hm Hall Hds. apply (ctxs_update p FD _ c ctx ds (<[fd := h]> m) Hp Hg Hds).
  - intros fd'. destruct (decide (fd' = fd)) as [->|Hne]; [rewrite !lookup_insert_eq; reflexivity|].
    rewrite !lookup_insert_ne by congruence. apply Hall.
  - intros c' fd' Hne. apply lookup_insert_ne. congruence.
Qed.

(** ** What drivers leave alone *)

Definition same_tables {D} (st st' : t D) : Prop :=
  contexts st' = contexts st /\ opened_files st' = opened_files st /\ drivers st' = drivers st.

Lemma inv_same {D} (st st' : t D) FD OF : inv st FD OF -> same_tables st st' -> inv st' FD OF.
Proof.
  intros [H1 H2 H3 H4 H5] (E1 & E2 & E3). split; rewrite ?E1, ?E2, ?E3; auto. intros h f Hh.
  destruct (H3 h f Hh) as (? & ? & d & Hd). split; [assumption|]. split; [assumption|]. exists d. unfold has_driver in *. rewrite E3. exact Hd.
Qed.

Section with_drivers.
Context {D : Type} (ext : Z -> driver D) (junk32 junk64 : list Z).
Implicit Type st : t D.

Lemma lift_dev_same {A} st (f : D -> outcome (D * A)) st' a : lift_dev st f = Ret (st', a) -> same_tables st st'.
Proof. unfold lift_dev. intros H. inv_ret. repeat split; reflexivity. Qed.

Lemma call_close_same drv close st h st' r : call_close ext drv = Some close -> close st h = Ret (st', r) -> same_tables st st'.
Proof.
  unfold call_close. destruct drv as [[|n]|]; [| |discriminate].
  - intros [= <-] H. unfold close_locally in H. inv_ret. repeat split; reflexivity.
  - destruct (drv_close (ext n)); [|discriminate]. cbn. intros [= <-] H. apply lift_dev_same in H. exact H.
Qed.

Lemma call_open_same drv open st d p fl st' r : call_open ext junk32 drv = Some open -> open st d p fl = Ret (st', r) -> same_tables st st'.
Proof.
  unfold call_open. destruct drv as [[|n]|]; [| |discriminate].
  - intros [= <-] H. unfold open_locally in H.
    destruct (vfs_lookup junk32 st p) as [x| | |]; try discriminate. rewrite mbind_Ret in H. destruct (x =? U16_MAX); [|];
      inv_ret; repeat split; reflexivity.
  - destruct (drv_open (ext n)); [|discriminate]. cbn. intros [= <-] H. apply lift_dev_same in H. exact H.
Qed.

Lemma call_read_same drv read st h len st' r : call_read ext junk64 drv = Some read -> read st h len = Ret (st', r) -> same_tables st st'.
Proof.
  unfold call_read. destruct drv as [[|n]|]; [| |discriminate].
  - intros [= <-] H. unfold read_locally in H.
    destruct (pool.get _ (locally_opened_files st) _) as [f| | |]; try discriminate. rewrite mbind_Ret in H.
    destruct (pool.get _ (nodes st) _) as [nd| | |]; try discriminate. rewrite mbind_Ret in H.
    destruct (passert _); try discriminate. rewrite mbind_Ret in H. destruct (n_info nd =? U16_MAX).
    + inv_ret. repeat split; reflexivity.
    + inv_ret. repeat split; reflexivity.
  - destruct (drv_read (ext n)); [|discriminate]. cbn. intros [= <-] H. apply lift_dev_same in H. exact H.
Qed.

(** Everything but the descriptors and the opened files *)
Definition same_rest st st' : Prop :=
  nodes st' = nodes st /\ directories st' = directories st /\ drivers st' = drivers st /\ root_dir st' = root_dir st /\
  locally_opened_files st' = locally_opened_files st /\ local_driver_handle st' = local_driver_handle st /\ devs st' = devs st.

(** [driver->close(handle)] when there is one *)
Definition close_device st (d : driver_ptr) (h : Z) : outcome (t D * Z) :=
  match call_close ext (Some d) with Some close => close st h | None => Ret (st, 0) end.

Definition add_refs (n : Z) (f : opened_file) : opened_file := mk_opened (o_device f) (o_handle f) (o_flags f) (o_ref_count f + n).

Lemma has_driver_get st f d : has_driver st f d -> device_driver st (o_device f) = Ret (Some d).
Proof.
  intros (i & DM & o & Hi & HD & Hdev). unfold device_driver. rewrite Hi, (fpm_get _ _ _ _ HD), Hdev. reflexivity.
Qed.

(** Closing one of several descriptors of an opened file leaves the device
    alone; closing the last one closes it. *)
Lemma close_spec st FD OF c fd h : inv st FD OF -> FD !! (c, fd) = Some h ->
  exists f d st1, OF !! h = Some f /\ has_driver st f d /\ same_rest st st1 /\
    if 1 <? refs FD h then
      vfs_close ext st c fd = Ret (st1, 0) /\ inv st1 (delete (c, fd) FD) (<[h := add_refs (-1) f]> OF)
    else
      vfs_close ext st c fd = ('(st2, r) ← close_device st1 d (o_handle f);
                               files ← pool.erase U16_MAX (opened_files st2) h; Ret (set_opened st2 files, r)) /\
      forall st2 r, close_device st1 d (o_handle f) = Ret (st2, r) ->
        exists st3, vfs_close ext st c fd = Ret (st3, r) /\ inv st3 (delete (c, fd) FD) (delete h OF) /\ devs st3 = devs st2.
Proof.
  intros Hinv Hfd. pose proof Hinv as [Hc Hf Hcnt Hnone HDM].
  destruct (ctxs_get _ _ c Hc) as [(_ & _ & Hx)|(ctx & m & Hget & _ & Hm & Hall)]; [rewrite Hx in Hfd; discriminate|].
  assert (m !! fd = Some h) as Hmfd by (rewrite <-Hall; exact Hfd).
  destruct (OF !! h) as [f|] eqn:Hh; [|pose proof (refs_pos _ _ _ Hfd); rewrite (Hnone h Hh) in *; lia].
  destruct (Hcnt h f Hh) as (Href & Hpos & d & Hd).
  destruct (ctxs_delete _ _ c ctx m fd Hc Hget Hm ltac:(eauto) Hall) as (ds & p' & Eds & Ep & Hp').
  destruct (fpm_modify _ _ _ _ _ (add_refs (-1)) Hf Hh) as (files & Ef & Hfiles & _).
  exists f, d, (set_opened (set_contexts st p') files). split; [reflexivity|]. split; [exact Hd|]. split; [repeat split|].
  assert (vfs_close ext st c fd =
    if o_ref_count f - 1 =? 0 then
      '(st2, r) ← close_device (set_opened (set_contexts st p') files) d (o_handle f);
      files ← pool.erase U16_MAX (opened_files st2) h; Ret (set_opened st2 files, r)
    else Ret (set_opened (set_contexts st p') files, 0)) as ->.
  { unfold vfs_close. rewrite Hget, mbind_Ret, (fpm_get _ _ _ _ Hm), Hmfd, mbind_Ret, (fpm_get _ _ _ _ Hf), Hh, mbind_Ret.
    rewrite (has_driver_get _ _ _ Hd), mbind_Ret. cbn [passert]. rewrite mbind_Ret, Eds, mbind_Ret.
    unfold set_descriptors. rewrite Ep, !mbind_Ret. change (opened_files (set_contexts st p')) with (opened_files st).
    change (fun f => mk_opened (o_device f) (o_handle f) (o_flags f) (o_ref_count f - 1)) with (add_refs (-1)).
    rewrite Ef, mbind_Ret. reflexivity. }
  assert (forall h', refs (delete (c, fd) FD) h' = refs FD h' - (if decide (h = h') then 1 else 0)) as Hrefs
    by (intros h'; apply refs_delete; exact Hfd).
  destruct (Z.ltb_spec 1 (refs FD h)) as [Hmany|Hone].
  - rewrite (proj2 (Z.eqb_neq _ _)) by lia. split; [reflexivity|]. split; [exact Hp'|exact Hfiles| | |exact HDM].
    + intros h' f' Hh'. rewrite Hrefs. destruct (decide (h = h')) as [<-|Hne].
      * rewrite lookup_insert_eq in Hh'. injection Hh' as <-. cbn [add_refs o_ref_count]. split; [lia|]. split; [lia|].
        exists d. exact Hd.
      * rewrite lookup_insert_ne in Hh' by congruence. destruct (Hcnt h' f' Hh') as (? & ? & d' & Hd'). split; [lia|]. split; [lia|]. exists d'. exact Hd'.
    + intros h' Hh'. rewrite Hrefs. destruct (decide (h = h')) as [<-|Hne]; [rewrite lookup_insert_eq in Hh'; discriminate|].
      rewrite lookup_insert_ne in Hh' by congruence. rewrite (Hnone _ Hh'). lia.
  - rewrite (proj2 (Z.eqb_eq _ _)) by lia. split; [reflexivity|]. intros st2 r Eclose.
    assert (same_tables (set_opened (set_contexts st p') files) st2) as (E1 & E2 & E3).
    { unfold close_device in Eclose. destruct (call_close ext (Some d)) eqn:Ecc.
      - exact (call_close_same _ _ _ _ _ _ Ecc Eclose).
      - injection Eclose as <- <-. repeat split. }
    rewrite Eclose, mbind_Ret, E2. cbn [opened_files set_opened].
    destruct (fpm_erase _ _ _ h _ Hfiles (lookup_insert_eq _ _ _)) as (files' & -> & Hfiles').
    rewrite mbind_Ret. eexists. split; [reflexivity|]. split; [|reflexivity]. rewrite delete_insert_eq in Hfiles'.
    split; cbn [contexts opened_files drivers set_opened].
    + rewrite E1. exact Hp'.
    + exact Hfiles'.
    + intros h' f' Hh'. apply lookup_delete_Some in Hh' as [Hne Hh']. rewrite Hrefs, decide_False by exact Hne.
      destruct (Hcnt h' f' Hh') as (? & ? & d' & i & DM & o & Hi & HD & Hdev). split; [lia|]. split; [lia|].
      exists d', i, DM, o. cbn [drivers set_opened]. rewrite E3. auto.
    + intros h' Hh'. rewrite Hrefs. destruct (decide (h = h')) as [<-|Hne]; [lia|].
      rewrite lookup_delete_ne in Hh' by exact Hne. rewrite (Hnone _ Hh'). lia.
    + rewrite E3. exact HDM.
Qed.

(** A descriptor that is not open cannot be closed. *)
Lemma close_panic st FD OF c fd : inv st FD OF -> FD !! (c, fd) = None -> vfs_close ext st c fd = Panic.
Proof.
  intros [Hc _ _ _ _] Hfd. unfold vfs_close. destruct (ctxs_get _ _ c Hc) as [(-> & _)|(ctx & m & -> & _ & Hm & Hall)]; [reflexivity|].
  rewrite mbind_Ret, (fpm_get _ _ _ _ Hm), <-Hall, Hfd. reflexivity.
Qed.

Lemma close_inv st FD OF c fd st' r : inv st FD OF -> vfs_close ext st c fd = Ret (st', r) ->
  exists h OF', FD !! (c, fd) = Some h /\ inv st' (delete (c, fd) FD) OF' /\ (forall h', h' <> h -> OF' !! h' = OF !! h').
Proof.
  intros Hinv E. destruct (FD !! (c, fd)) as [h|] eqn:Hfd; [|rewrite (close_panic _ _ _ _ _ Hinv Hfd) in E; discriminate].
  destruct (close_spec _ _ _ _ _ _ Hinv Hfd) as (f & d & st1 & Hh & Hd & Hrest & H). exists h. destruct (1 <? refs FD h).
  - destruct H as [E1 Hi]. rewrite E in E1. injection E1 as -> ->. eexists. split; [reflexivity|]. split; [exact Hi|].
    intros h' Hne. apply lookup_insert_ne. congruence.
  - destruct H as [E1 Hi]. rewrite E in E1. destruct (close_device st1 d (o_handle f)) as [[st2 r2]| | |] eqn:Ec; try discriminate E1.
    destruct (Hi st2 r2 eq_refl) as (st3 & E3 & Hinv3 & _). rewrite E in E3. injection E3 as -> ->. eexists. split; [reflexivity|].
    split; [exact Hinv3|]. intros h' Hne. apply lookup_delete_ne. congruence.
Qed.

(** ** Sharing a descriptor *)

Lemma inv_ref st FD OF c fd h : inv st FD OF -> FD !! (c, fd) = Some h -> exists f, OF !! h = Some f.
Proof.
  intros [_ _ _ Hnone _] Hfd. destruct (OF !! h) eqn:E; [eauto|]. pose proof (refs_pos _ _ _ Hfd). rewrite (Hnone h E) in *. lia.
Qed.

Lemma alias_new st FD OF c fd c' fd' h : inv st FD OF -> FD !! (c, fd) = Some h -> FD !! (c', fd') = None ->
  pool.valid U16_MAX (contexts st) c' = true -> 0 <= fd' < 16 ->
  exists st' f, OF !! h = Some f /\ vfs_alias_fd ext st c fd c' fd' = Ret (st', 0) /\
    inv st' (<[(c', fd') := h]> FD) (<[h := add_refs 1 f]> OF) /\ same_rest st st'.
Proof.
  intros Hinv Hfd Hfd' Hv Hr. pose proof Hinv as [Hc Hf Hcnt Hnone HDM]. destruct (inv_ref _ _ _ _ _ _ Hinv Hfd) as [f Hh].
  destruct (ctxs_get _ _ c Hc) as [(_ & _ & Hx)|(ctx & m & Hget & _ & Hm & Hall)]; [rewrite Hx in Hfd; discriminate|].
  destruct (ctxs_get _ _ c' Hc) as [(_ & Hx & _)|(ctx' & m' & Hget' & _ & Hm' & Hall')]; [congruence|].
  destruct (fpm_emplace_at _ _ _ _ h Hm' Hr) as (ds & Eds & Hds).
  destruct (ctxs_insert _ _ c' ctx' m' fd' h ds Hc Hget' Hm' Hall' Hds) as (p' & Ep & Hp').
  destruct (fpm_modify _ _ _ _ _ (add_refs 1) Hf Hh) as (files & Ef & Hfiles & _).
  exists (set_opened (set_contexts st p') files), f. split; [exact Hh|]. split; [|split; [|repeat split]].
  - unfold vfs_alias_fd. rewrite Hget, mbind_Ret, Hget', mbind_Ret, (fpm_valid _ _ _ _ Hm), (fpm_get _ _ _ _ Hm), <-Hall, Hfd. cbn [negb].
    rewrite mbind_Ret, (fpm_valid _ _ _ _ Hm'), <-Hall', Hfd', !mbind_Ret. cbv beta iota.
    rewrite Hget, mbind_Ret, (fpm_get _ _ _ _ Hm), <-Hall, Hfd, mbind_Ret, Hget', mbind_Ret, Eds, mbind_Ret.
    unfold set_descriptors. rewrite Ep, !mbind_Ret. cbn [contexts set_contexts opened_files].
    destruct (ctxs_get _ _ c Hp') as [(_ & _ & Hx)|(ctx2 & m2 & -> & _ & Hm2 & Hall2)].
    { specialize (Hx fd). rewrite lookup_insert_ne in Hx by congruence. congruence. }
    rewrite mbind_Ret, (fpm_get _ _ _ _ Hm2), <-Hall2, lookup_insert_ne, Hfd, mbind_Ret by congruence.
    change (fun f => mk_opened (o_device f) (o_handle f) (o_flags f) (o_ref_count f + 1)) with (add_refs 1).
    rewrite Ef. reflexivity.
  - assert (forall h', refs (<[(c', fd') := h]> FD) h' = refs FD h' + (if decide (h = h') then 1 else 0)) as Hrefs
      by (intros h'; apply refs_insert; exact Hfd').
    split; cbn [contexts opened_files drivers set_opened set_contexts]; [exact Hp'|exact Hfiles| | |exact HDM].
    + intros h' f' Hh'. rewrite Hrefs. destruct (decide (h = h')) as [<-|Hne].
      * rewrite lookup_insert_eq in Hh'. injection Hh' as <-. destruct (Hcnt h f Hh) as (? & ? & d & Hd).
        cbn [add_refs o_ref_count]. split; [lia|]. split; [lia|]. exists d. exact Hd.
      * rewrite lookup_insert_ne in Hh' by congruence. destruct (Hcnt h' f' Hh') as (? & ? & d & Hd). split; [lia|]. split; [lia|]. exists d. exact Hd.
    + intros h' Hh'. rewrite Hrefs. destruct (decide (h = h')) as [<-|Hne]; [rewrite lookup_insert_eq in Hh'; discriminate|].
      rewrite lookup_insert_ne in Hh' by congruence. rewrite (Hnone _ Hh'). lia.
Qed.

Lemma alias_unfold_close st FD OF c fd c' fd' h h' : inv st FD OF -> FD !! (c, fd) = Some h -> FD !! (c', fd') = Some h' -> h' <> h ->
  vfs_alias_fd ext st c fd c' fd' =
    ('(st1, _) ← vfs_close ext st c' fd';
     match pool.get U16_MAX (contexts st1) c with
     | Ret _ => vfs_alias_fd ext st1 c fd c' fd'
     | _ => Panic
     end).
Proof.
  intros Hinv Hfd Hfd' Hne. pose proof Hinv as [Hc _ _ _ _].
  destruct (ctxs_get _ _ c Hc) as [(_ & _ & Hx)|(ctx & m & Hget & _ & Hm & Hall)]; [rewrite Hx in Hfd; discriminate|].
  destruct (ctxs_get _ _ c' Hc) as [(_ & _ & Hx)|(ctx' & m' & Hget' & _ & Hm' & Hall')]; [rewrite Hx in Hfd'; discriminate|].
  unfold vfs_alias_fd at 1. rewrite Hget, mbind_Ret, Hget', mbind_Ret, (fpm_valid _ _ _ _ Hm), (fpm_get _ _ _ _ Hm), <-Hall, Hfd. cbn [negb].
  rewrite mbind_Ret, (fpm_valid _ _ _ _ Hm'), (fpm_get _ _ _ _ Hm'), <-Hall', Hfd', !mbind_Ret, (proj2 (Z.eqb_neq _ _)) by exact Hne. cbv beta iota.
  destruct (vfs_close ext st c' fd') as [[st1 r]| | |] eqn:Eclose; try reflexivity. rewrite !mbind_Ret. cbv beta iota.
  destruct (close_inv _ _ _ _ _ _ _ Hinv Eclose) as (hc & OF' & Hhc & Hinv' & _). pose proof Hinv' as [Hc1 _ _ _ _].
  assert ((c, fd) <> (c', fd')) as Hdiff by congruence.
  destruct (ctxs_get _ _ c Hc1) as [(-> & _)|(ctx1 & m1 & Hget1 & _ & Hm1 & Hall1)]; [reflexivity|]. rewrite Hget1, mbind_Ret.
  unfold vfs_alias_fd. rewrite Hget1, mbind_Ret, (fpm_valid _ _ _ _ Hm1), (fpm_get _ _ _ _ Hm1), <-Hall1, lookup_delete_ne, Hfd by congruence.
  rewrite mbind_Ret. destruct (ctxs_get _ _ c' Hc1) as [(-> & _)|(ctx2 & m2 & Hget2 & _ & Hm2 & Hall2)]; [reflexivity|].
  rewrite Hget2, !mbind_Ret. cbn [negb]. rewrite (fpm_valid _ _ _ _ Hm2), <-Hall2, lookup_delete_eq, !mbind_Ret. cbv beta iota.
  rewrite Hget1, mbind_Ret, (fpm_get _ _ _ _ Hm1), <-Hall1, lookup_delete_ne, Hfd, mbind_Ret, Hget2, mbind_Ret by congruence. reflexivity.
Qed.

(** There is no descriptor beyond the table. *)
Lemma alias_panic st FD OF c fd c' fd' h : inv st FD OF -> FD !! (c, fd) = Some h -> 16 <= fd' -> vfs_alias_fd ext st c fd c' fd' = Panic.
Proof.
  intros Hinv Hfd Hr. pose proof Hinv as [Hc _ _ _ _]. unfold vfs_alias_fd.
  destruct (ctxs_get _ _ c Hc) as [(_ & _ & Hx)|(ctx & m & Hget & _ & Hm & Hall)]; [rewrite Hx in Hfd; discriminate|].
  destruct (ctxs_get _ _ c' Hc) as [(Hx & _)|(ctx' & m' & Hget' & _ & Hm' & Hall')]; [rewrite Hget, mbind_Ret, Hx; reflexivity|].
  rewrite Hget, mbind_Ret, Hget', mbind_Ret, (fpm_valid _ _ _ _ Hm), (fpm_get _ _ _ _ Hm), <-Hall, Hfd. cbn [negb].
  assert (m' !! fd' = None) as Hfd'.
  { destruct (m' !! fd') eqn:E; [|reflexivity]. pose proof (fpm_dom_cap _ _ _ _ _ Hm' E). lia. }
  rewrite mbind_Ret, (fpm_valid _ _ _ _ Hm'), Hfd', !mbind_Ret. cbv beta iota.
  rewrite Hget, mbind_Ret, (fpm_get _ _ _ _ Hm), <-Hall, Hfd, mbind_Ret, Hget', mbind_Ret, (fpm_emplace_at_panic _ _ _ _ _ Hm' Hr). reflexivity.
Qed.

Lemma alias_inv st FD OF c fd c' fd' st' r : inv st FD OF -> 0 <= fd' -> vfs_alias_fd ext st c fd c' fd' = Ret (st', r) ->
  exists FD' OF', inv st' FD' OF'.
Proof.
  intros Hinv Hr E. pose proof Hinv as [Hc _ _ _ _].
  assert (forall st FD OF, inv st FD OF -> FD !! (c', fd') = None -> vfs_alias_fd ext st c fd c' fd' = Ret (st', r) ->
    exists FD' OF', inv st' FD' OF') as Hnew.
  { clear - Hr. intros st FD OF Hinv Hfd' E. pose proof Hinv as [Hc _ _ _ _]. pose proof E as E0. unfold vfs_alias_fd in E.
    destruct (ctxs_get _ _ c Hc) as [(Hx & _)|(ctx & m & Hget & _ & Hm & Hall)]; [rewrite Hx in E; discriminate|].
    destruct (ctxs_get _ _ c' Hc) as [(Hx & _)|(ctx' & m' & Hget' & Hv' & Hm' & Hall')]; [rewrite Hget, Hx in E; discriminate|].
    rewrite Hget, mbind_Ret, Hget', mbind_Ret, (fpm_valid _ _ _ _ Hm), (fpm_get _ _ _ _ Hm) in E.
    destruct (m !! fd) as [h|] eqn:Hfd; cbn [negb] in E; [|injection E as <- <-; eauto].
    rewrite mbind_Ret, (fpm_valid _ _ _ _ Hm'), <-Hall', Hfd', !mbind_Ret in E. cbv beta iota in E.
    destruct (Z.lt_ge_cases fd' 16) as [Hlt|Hge].
    - rewrite <-Hall in Hfd. destruct (alias_new _ _ _ c fd c' fd' h Hinv Hfd Hfd' Hv' ltac:(lia)) as (st2 & f & _ & E2 & Hinv2 & _).
      rewrite E0 in E2. injection E2 as <- _. eauto.
    - rewrite Hget, mbind_Ret, (fpm_get _ _ _ _ Hm), Hfd, mbind_Ret, Hget', mbind_Ret, (fpm_emplace_at_panic _ _ _ _ _ Hm' Hge) in E. discriminate. }
  destruct (FD !! (c', fd')) as [h'|] eqn:Hfd'; [|eauto].
  destruct (FD !! (c, fd)) as [h|] eqn:Hfd.
  - destruct (decide (h' = h)) as [->|Hne].
    + destruct (ctxs_get _ _ c Hc) as [(_ & _ & Hx)|(ctx & m & Hget & _ & Hm & Hall)]; [rewrite Hx in Hfd; discriminate|].
      destruct (ctxs_get _ _ c' Hc) as [(_ & _ & Hx)|(ctx' & m' & Hget' & _ & Hm' & Hall')]; [rewrite Hx in Hfd'; discriminate|].
      unfold vfs_alias_fd in E. rewrite Hget, mbind_Ret, Hget', mbind_Ret, (fpm_valid _ _ _ _ Hm), (fpm_get _ _ _ _ Hm), <-Hall, Hfd in E. cbn [negb] in E.
      rewrite mbind_Ret, (fpm_valid _ _ _ _ Hm'), (fpm_get _ _ _ _ Hm'), <-Hall', Hfd', !mbind_Ret, Z.eqb_refl in E. injection E as <- _. eauto.
    + rewrite (alias_unfold_close _ _ _ _ _ _ _ _ _ Hinv Hfd Hfd' Hne) in E.
      destruct (vfs_close ext st c' fd') as [[st1 r1]| | |] eqn:Eclose; try discriminate E. rewrite mbind_Ret in E. cbv beta iota in E.
      destruct (close_inv _ _ _ _ _ _ _ Hinv Eclose) as (hc & OF' & _ & Hinv' & _).
      destruct (pool.get U16_MAX (contexts st1) c); try discriminate E. apply (Hnew st1 _ _ Hinv' (lookup_delete_eq _ _) E).
  - unfold vfs_alias_fd in E. destruct (ctxs_get _ _ c Hc) as [(Hx & _)|(ctx & m & Hget & _ & Hm & Hall)]; [rewrite Hx in E; discriminate|].
    destruct (ctxs_get _ _ c' Hc) as [(Hx & _)|(ctx' & m' & Hget' & Hv' & Hm' & Hall')]; [rewrite Hget, Hx in E; discriminate|].
    rewrite Hget, mbind_Ret, Hget', mbind_Ret, (fpm_valid _ _ _ _ Hm), <-Hall, Hfd in E. cbn [negb] in E. injection E as <- _. eauto.
Qed.

(** ** Contexts *)

Lemma create_spec st FD OF : inv st FD OF ->
  (pool.full (contexts st) = true /\ vfs_create_context st = Ret (st, failure ENOSPACE)) \/
  (exists st' c, pool.full (contexts st) = false /\ vfs_create_context st = Ret (st', success c) /\ inv st' FD OF /\ same_rest st st' /\
     pool.valid U16_MAX (contexts st) c = false /\ (forall d, d = c \/ pool.valid U16_MAX (contexts st) d = true -> pool.valid U16_MAX (contexts st') d = true) /\
     forall fd, FD !! (c, fd) = None).
Proof.
  intros Hinv. pose proof Hinv as [(CM & Hp & H1 & H2) Hf Hcnt Hnone HDM]. unfold vfs_create_context.
  rewrite (fpm_full _ _ _ Hp). destruct (Z.leb_spec 64 (Z.of_nat (base.size CM))) as [Hfull|Hroom]; [left; auto|right].
  destruct (fpm_emplace_anywhere _ _ _ (new_fixed_pool 16 : context) Hp Hroom) as (p' & c & -> & Hp' & Hc & _). rewrite mbind_Ret.
  exists (set_contexts st p'), c. split; [reflexivity|]. split; [reflexivity|].
  assert (forall fd, FD !! (c, fd) = None) as Hfd by (intros fd; apply H2; exact Hc).
  split; [|split; [repeat split|split; [rewrite (fpm_valid _ _ _ _ Hp), Hc; reflexivity|split; [|exact Hfd]]]].
  - split; auto. exists (<[c := new_fixed_pool 16]> CM). split; [exact Hp'|]. split.
    + intros c' ctx Hc'. destruct (decide (c' = c)) as [->|Hne].
      * rewrite lookup_insert_eq in Hc'. injection Hc' as <-. exists ∅. split; [apply fpm_new; unfold U16_MAX; lia|].
        intros fd. rewrite lookup_empty. apply Hfd.
      * rewrite lookup_insert_ne in Hc' by congruence. exact (H1 c' ctx Hc').
    + intros c' fd Hc'. destruct (decide (c' = c)) as [->|Hne]; [rewrite lookup_insert_eq in Hc'; discriminate|].
      rewrite lookup_insert_ne in Hc' by congruence. apply H2. exact Hc'.
  - cbn [contexts set_contexts]. intros d. rewrite (fpm_valid _ _ _ _ Hp'), (fpm_valid _ _ _ _ Hp). destruct (decide (d = c)) as [->|Hne].
    + rewrite lookup_insert_eq. reflexivity.
    + rewrite lookup_insert_ne by congruence. intros [?|?]; [contradiction|assumption].
Qed.

Lemma ctxs_valid p FD c fd h : ctxs p FD -> FD !! (c, fd) = Some h -> 0 <= fd < 16.
Proof.
  intros Hc Hfd. destruct (ctxs_get _ _ c Hc) as [(_ & _ & Hx)|(ctx & m & _ & _ & Hm & Hall)]; [rewrite Hx in Hfd; discriminate|].
  rewrite Hall in Hfd. exact (fpm_dom_cap _ _ _ _ _ Hm Hfd).
Qed.

Lemma fork_loop_spec fuel : forall st FD OF c c' i, inv st FD OF -> c <> c' ->
  pool.valid U16_MAX (contexts st) c = true -> pool.valid U16_MAX (contexts st) c' = true ->
  0 <= i -> (forall fd, fd < i -> FD !! (c', fd) = FD !! (c, fd)) -> (forall fd, i <= fd -> FD !! (c', fd) = None) ->
  17 - i <= Z.of_nat fuel -> (0 < fuel)%nat ->
  exists st' FD' OF', fork_loop ext fuel st c c' i = Ret st' /\ inv st' FD' OF' /\ same_rest st st' /\
    (forall fd, FD' !! (c', fd) = FD !! (c, fd)) /\ (forall d fd, d <> c' -> FD' !! (d, fd) = FD !! (d, fd)).
Proof.
  induction fuel as [|fuel IH]; intros st FD OF c c' i Hinv Hne Hv Hv' Hi Hlo Hhi Hfuel Hpos; [lia|]. cbn [fork_loop].
  pose proof Hinv as [Hc _ _ _ _].
  destruct (ctxs_get _ _ c Hc) as [(_ & Hx & _)|(ctx & m & Hget & _ & Hm & Hall)]; [congruence|]. rewrite Hget, mbind_Ret.
  pose proof (fpm_watermark _ _ _ Hm) as Hw. destruct (Z.ltb_spec i (pool.watermark ctx)) as [Hlt|Hge].
  - rewrite (fpm_valid _ _ _ _ Hm). destruct (m !! i) as [h|] eqn:Hfd; rewrite <-Hall in Hfd.
    + destruct (alias_new st FD OF c i c' i h Hinv Hfd (Hhi i ltac:(lia)) Hv' ltac:(lia)) as (st1 & f & _ & -> & Hinv1 & Hrest1).
      rewrite !mbind_Ret. cbv beta iota. pose proof Hinv1 as [Hc1 _ _ _ _].
      destruct (IH st1 _ _ c c' (i + 1) Hinv1 Hne) as (st' & FD' & OF' & E & Hinv' & Hrest' & H1 & H2); try lia.
      * destruct (ctxs_get _ _ c Hc1) as [(_ & _ & Hx)|(? & ? & _ & ? & _)]; [|assumption].
        specialize (Hx i). rewrite lookup_insert_ne in Hx by congruence. congruence.
      * destruct (ctxs_get _ _ c' Hc1) as [(_ & _ & Hx)|(? & ? & _ & ? & _)]; [|assumption].
        specialize (Hx i). rewrite lookup_insert_eq in Hx. discriminate.
      * intros fd Hfd'. rewrite (lookup_insert_ne _ (c', i) (c, fd)) by congruence. destruct (decide (fd = i)) as [->|].
        { rewrite lookup_insert_eq. congruence. } rewrite lookup_insert_ne by congruence. apply Hlo. lia.
      * intros fd Hfd'. rewrite lookup_insert_ne by (intros [=]; lia). apply Hhi. lia.
      * exists st', FD', OF'. split; [exact E|]. split; [exact Hinv'|]. split.
        { destruct Hrest1 as (? & ? & ? & ? & ? & ? & ?), Hrest' as (? & ? & ? & ? & ? & ? & ?). repeat split; congruence. }
        split; intros; rewrite ?H1, ?H2 by assumption; apply lookup_insert_ne; congruence.
    + rewrite !mbind_Ret. apply (IH st FD OF); auto; try lia.
      * intros fd Hfd'. destruct (decide (fd = i)) as [->|]; [rewrite Hfd; apply Hhi; lia|]. apply Hlo. lia.
      * intros fd Hfd'. apply Hhi. lia.
  - exists st, FD, OF. split; [reflexivity|]. split; [exact Hinv|]. split; [repeat split|]. split; [|reflexivity].
    intros fd. destruct (Z.lt_ge_cases fd i); [apply Hlo; lia|]. rewrite Hhi by lia. symmetry.
    destruct (FD !! (c, fd)) as [h|] eqn:E; [|reflexivity]. rewrite Hall in E. pose proof (fpm_dom _ _ _ _ _ Hm E). lia.
Qed.

Lemma fork_spec st FD OF c : inv st FD OF -> pool.valid U16_MAX (contexts st) c = true -> pool.full (contexts st) = false ->
  exists st' c' FD' OF', vfs_fork_context ext st c = Ret (st', success c') /\ inv st' FD' OF' /\ same_rest st st' /\
    pool.valid U16_MAX (contexts st) c' = false /\
    (forall fd, FD' !! (c', fd) = FD !! (c, fd)) /\ (forall d fd, d <> c' -> FD' !! (d, fd) = FD !! (d, fd)).
Proof.
  intros Hinv Hv Hfull. unfold vfs_fork_context.
  destruct (create_spec st FD OF Hinv) as [[Hx _]|(st1 & c' & _ & -> & Hinv1 & Hrest1 & Hnv & Hv' & Hempty)]; [congruence|].
  rewrite mbind_Ret. cbv beta iota. assert (c <> c') as Hne by congruence. pose proof Hinv1 as [Hc1 _ _ _ _].
  destruct (ctxs_get _ _ c Hc1) as [(_ & Hx & _)|(ctx & m & -> & _)]; [rewrite Hv' in Hx by auto; discriminate|]. rewrite mbind_Ret.
  destruct (fork_loop_spec 17 st1 FD OF c c' 0 Hinv1 Hne) as (st' & FD' & OF' & -> & Hinv' & Hrest' & H1 & H2); auto; try lia.
  - intros fd Hlt. rewrite Hempty. symmetry. destruct (FD !! (c, fd)) eqn:E; [|reflexivity]. pose proof (ctxs_valid _ _ _ _ _ Hc1 E). lia.
  - rewrite mbind_Ret. exists st', c', FD', OF'. split; [reflexivity|]. split; [exact Hinv'|]. split; [|auto].
    destruct Hrest1 as (? & ? & ? & ? & ? & ? & ?), Hrest' as (? & ? & ? & ? & ? & ? & ?). repeat split; congruence.
Qed.

(** Destroying a context closes all its descriptors. *)
Lemma destroy_loop_inv fuel : forall st FD OF c i st', inv st FD OF -> (forall fd, fd < i -> FD !! (c, fd) = None) ->
  destroy_loop ext fuel st c i = Ret st' ->
  exists FD' OF', inv st' FD' OF' /\ (forall fd, FD' !! (c, fd) = None) /\ (forall d fd, d <> c -> FD' !! (d, fd) = FD !! (d, fd)).
Proof.
  induction fuel as [|fuel IH]; intros st FD OF c i st' Hinv Hlo E; [discriminate|]. cbn [destroy_loop] in E.
  pose proof Hinv as [Hc _ _ _ _].
  destruct (ctxs_get _ _ c Hc) as [(Hx & _)|(ctx & m & Hget & _ & Hm & Hall)]; [rewrite Hx in E; discriminate|]. rewrite Hget, mbind_Ret in E.
  destruct (Z.ltb_spec i (pool.watermark ctx)) as [Hlt|Hge].
  - rewrite (fpm_valid _ _ _ _ Hm) in E. destruct (m !! i) as [h|] eqn:Hfd; rewrite <-Hall in Hfd.
    + destruct (vfs_close ext st c i) as [[st1 r]| | |] eqn:Eclose; try discriminate E. rewrite !mbind_Ret in E.
      destruct (close_inv _ _ _ _ _ _ _ Hinv Eclose) as (_ & OF1 & _ & Hinv1 & _).
      destruct (IH st1 _ OF1 c (i + 1) st' Hinv1) as (FD' & OF' & Hinv' & H1 & H2).
      * intros fd Hfd'. destruct (decide (fd = i)) as [->|]; [apply lookup_delete_eq|]. rewrite lookup_delete_ne by congruence. apply Hlo. lia.
      * exact E.
      * exists FD', OF'. split; [exact Hinv'|]. split; [exact H1|]. intros d fd Hne. rewrite H2 by exact Hne. apply lookup_delete_ne. congruence.
    + rewrite !mbind_Ret in E. apply (IH st FD OF c (i + 1) st' Hinv); [|exact E].
      intros fd Hfd'. destruct (decide (fd = i)) as [->|]; [exact Hfd|]. apply Hlo. lia.
  - injection E as <-. exists FD, OF. split; [exact Hinv|]. split; [|reflexivity]. intros fd. destruct (Z.lt_ge_cases fd i); [apply Hlo; lia|].
    destruct (FD !! (c, fd)) as [h|] eqn:Ef; [|reflexivity]. rewrite Hall in Ef. pose proof (fpm_dom _ _ _ _ _ Hm Ef). lia.
Qed.

Lemma destroy_inv st FD OF c st' : inv st FD OF -> vfs_destroy_context ext st c = Ret st' ->
  exists FD' OF', inv st' FD' OF' /\ (forall fd, FD' !! (c, fd) = None) /\ (forall d fd, d <> c -> FD' !! (d, fd) = FD !! (d, fd)).
Proof.
  intros Hinv E. unfold vfs_destroy_context in E. destruct (destroy_loop ext 17 st c 0) as [st1| | |] eqn:El; try discriminate E.
  rewrite mbind_Ret in E. destruct (destroy_loop_inv 17 st FD OF c 0 st1 Hinv) as (FD' & OF' & Hinv1 & H1 & H2); [|exact El|].
  - intros fd Hlt. destruct (FD !! (c, fd)) eqn:Ef; [|reflexivity]. destruct Hinv as [Hc _ _ _ _]. pose proof (ctxs_valid _ _ _ _ _ Hc Ef). lia.
  - pose proof Hinv1 as [(CM & Hp & Ha & Hb) Hf Hcnt Hnone HDM]. exists FD', OF'. split; [|auto].
    destruct (CM !! c) as [ctx|] eqn:Ec; [|rewrite (fpm_erase_panic _ _ _ _ Hp Ec) in E; discriminate].
    destruct (fpm_erase _ _ _ _ _ Hp Ec) as (p' & Ep & Hp'). unfold context in *. rewrite Ep, mbind_Ret in E. injection E as <-.
    split; auto. exists (delete c CM). split; [exact Hp'|]. split.
    + intros c' ctx' Hc'. apply lookup_delete_Some in Hc' as [_ Hc']. exact (Ha c' ctx' Hc').
    + intros c' fd Hc'. destruct (decide (c' = c)) as [->|Hne]; [apply H1|]. rewrite lookup_delete_ne in Hc' by congruence. apply Hb. exact Hc'.
Qed.

Lemma close_loop_inv fuel : forall st FD OF c flags i st', inv st FD OF -> close_loop ext fuel st c flags i = Ret st' ->
  exists FD' OF', inv st' FD' OF'.
Proof.
  induction fuel as [|fuel IH]; intros st FD OF c flags i st' Hinv E; [discriminate|]. cbn [close_loop] in E.
  destruct (pool.get U16_MAX (contexts st) c) as [ctx| | |]; try discriminate E. rewrite mbind_Ret in E.
  destruct (i <? pool.watermark ctx); [|injection E as <-; eauto].
  destruct (negb (pool.valid U16_MAX ctx i)); [rewrite mbind_Ret in E; eauto|].
  destruct (pool.get U16_MAX ctx i) as [h| | |]; try discriminate E. rewrite mbind_Ret in E.
  destruct (pool.get U16_MAX (opened_files st) h) as [f| | |]; try discriminate E. rewrite mbind_Ret in E.
  destruct (Z.land (o_flags f) flags =? 0); [|rewrite mbind_Ret in E; eauto].
  destruct (vfs_close ext st c i) as [[st1 r]| | |] eqn:Eclose; try discriminate E. rewrite !mbind_Ret in E.
  destruct (close_inv _ _ _ _ _ _ _ Hinv Eclose) as (_ & OF1 & _ & Hinv1 & _). eauto.
Qed.

(** ** Opening *)

Lemma open_inv st FD OF c path flags st' r : inv st FD OF -> vfs_open ext junk32 st c path flags = Ret (st', r) ->
  exists FD' OF', inv st' FD' OF'.
Proof.
  intros Hinv E. unfold vfs_open in E.
  destruct (pool.get U16_MAX (contexts st) c) as [ctx0| | |]; try discriminate E. rewrite mbind_Ret in E.
  destruct (find_first_driver junk32 st (root_dir st) path) as [[[n rest]|]| | |]; try discriminate E; rewrite mbind_Ret in E;
    [|injection E as <- _; eauto].
  destruct (pool.get U16_MAX (nodes st) n) as [node| | |]; try discriminate E. rewrite mbind_Ret in E.
  do 2 bind_ret E.
  pose proof Hinv as [_ _ _ _ [DM HDM]]. rewrite (fpm_get _ _ _ _ HDM) in E.
  destruct (DM !! n_info node) as [[[d|] op]|] eqn:Hdev; [|rewrite mbind_Ret in E; discriminate E|discriminate E].
  rewrite mbind_Ret in E. cbn [dev_driver passert] in E. rewrite mbind_Ret in E.
  destruct (call_open ext junk32 (Some d)) as [open|] eqn:Eco; [|injection E as <- _; eauto].
  destruct (open st (n_info node) rest flags) as [[st1 local]| | |] eqn:Eo; try discriminate E. rewrite mbind_Ret in E. cbv beta iota in E.
  pose proof (call_open_same _ _ _ _ _ _ _ _ Eco Eo) as Hsame. pose proof (inv_same _ _ _ _ Hinv Hsame) as Hinv1.
  destruct (local <? 0); [injection E as <- _; eauto|].
  pose proof Hinv1 as [Hc1 Hf1 Hcnt1 Hnone1 _]. destruct Hsame as (_ & _ & E3).
  set (f := mk_opened (Some (n_info node)) local flags 1) in *.
  destruct (pool.emplace_anywhere U16_MAX (opened_files st1) f) as [[files ofh]| | |] eqn:Ee; try discriminate E. rewrite mbind_Ret in E. cbv beta iota in E.
  destruct (fpm_emplace_inv _ _ _ _ _ _ Hf1 Ee) as (Hfiles & Hnew & _). cbn [contexts set_opened] in E.
  destruct (ctxs_get _ _ c Hc1) as [(Hx & _)|(ctx & m & Hget & _ & Hm & Hall)]; [rewrite Hx in E; discriminate|]. rewrite Hget, mbind_Ret in E.
  destruct (pool.emplace_anywhere U16_MAX ctx ofh) as [[ds fd]| | |] eqn:Ed; try discriminate E. rewrite mbind_Ret in E. cbv beta iota in E.
  destruct (fpm_emplace_inv _ _ _ _ _ _ Hm Ed) as (Hds & Hfd & _). rewrite <-Hall in Hfd.
  destruct (ctxs_insert _ _ c ctx m fd ofh ds Hc1 Hget Hm Hall Hds) as (p' & Ep & Hp').
  unfold set_descriptors in E. cbn [contexts set_opened] in E. rewrite Ep, !mbind_Ret in E. injection E as <- _.
  exists (<[(c, fd) := ofh]> FD), (<[ofh := f]> OF).
  assert (forall h, refs (<[(c, fd) := ofh]> FD) h = refs FD h + (if decide (ofh = h) then 1 else 0)) as Hrefs
    by (intros h; apply refs_insert; exact Hfd).
  split; cbn [contexts opened_files drivers set_opened set_contexts]; [exact Hp'|exact Hfiles| | |rewrite E3; eauto].
  - intros h f' Hh. rewrite Hrefs. destruct (decide (ofh = h)) as [<-|Hne].
    + rewrite lookup_insert_eq in Hh. injection Hh as <-. rewrite (Hnone1 _ Hnew). split; [reflexivity|]. split; [lia|].
      exists d, (n_info node), DM, op. cbn [drivers set_opened set_contexts]. rewrite E3. auto.
    + rewrite lookup_insert_ne in Hh by congruence. destruct (Hcnt1 h f' Hh) as (? & ? & d' & Hd'). split; [lia|]. split; [lia|]. exists d'. exact Hd'.
  - intros h Hh. rewrite Hrefs. destruct (decide (ofh = h)) as [<-|Hne]; [rewrite lookup_insert_eq in Hh; discriminate|].
    rewrite lookup_insert_ne in Hh by congruence. rewrite (Hnone1 _ Hh). lia.
Qed.

(** ** Reading and seeking *)

Lemma fetch_spec st FD OF c fd : inv st FD OF ->
  match FD !! (c, fd) with
  | None => fetch_opened_file st c fd = Ret (failure ENOENT)
  | Some h => exists f d, OF !! h = Some f /\ has_driver st f d /\ fetch_opened_file st c fd = Ret (success (f, d))
  end.
Proof.
  intros Hinv. pose proof Hinv as [Hc Hf Hcnt Hnone _]. unfold fetch_opened_file.
  destruct (ctxs_get _ _ c Hc) as [(_ & -> & Hx)|(ctx & m & -> & -> & Hm & Hall)]; cbn [negb]; [rewrite Hx; reflexivity|].
  rewrite mbind_Ret, (fpm_valid _ _ _ _ Hm), Hall, (fpm_get _ _ _ _ Hm). destruct (m !! fd) as [h|] eqn:Hfd; cbn [negb]; [|reflexivity].
  rewrite mbind_Ret, (fpm_valid _ _ _ _ Hf), (fpm_get _ _ _ _ Hf). rewrite <-Hall in Hfd. destruct (inv_ref _ _ _ _ _ _ Hinv Hfd) as [f Hh].
  rewrite Hh. cbn [negb]. rewrite mbind_Ret. destruct (Hcnt h f Hh) as (_ & _ & d & Hd). rewrite (has_driver_get _ _ _ Hd), mbind_Ret. eauto.
Qed.

Lemma read_same st FD OF c fd len st' r : inv st FD OF -> vfs_read ext junk64 st c fd len = Ret (st', r) -> same_tables st st'.
Proof.
  intros Hinv E. unfold vfs_read in E. pose proof (fetch_spec st FD OF c fd Hinv) as H. destruct (FD !! (c, fd)) as [h|].
  - destruct H as (f & d & _ & _ & Ef). rewrite Ef, mbind_Ret in E. destruct (call_read ext junk64 (Some d)) as [read|] eqn:Er.
    + destruct (read st (o_handle f) len) as [[st1 [rv data]]| | |] eqn:Erd; try discriminate E. rewrite mbind_Ret in E.
      pose proof (call_read_same _ _ _ _ _ _ _ Er Erd). destruct (rv <? 0); injection E as <- _; assumption.
    + injection E as <- _. repeat split.
  - rewrite H, mbind_Ret in E. injection E as <- _. repeat split.
Qed.

Lemma seek_same st FD OF c fd off rel st' r : inv st FD OF -> vfs_seek ext st c fd off rel = Ret (st', r) -> same_tables st st'.
Proof.
  intros Hinv E. unfold vfs_seek in E. pose proof (fetch_spec st FD OF c fd Hinv) as H. destruct (FD !! (c, fd)) as [h|].
  - destruct H as (f & d & _ & _ & Ef). rewrite Ef, mbind_Ret in E. destruct (registered ext (Some d) ≫= drv_seek).
    + exact (lift_dev_same _ _ _ _ E).
    + injection E as <- _. repeat split.
  - rewrite H, mbind_Ret in E. injection E as <- _. repeat split.
Qed.

(** ** Reachable states

    Any interleaving of calls, by whatever processes, with changes of the
    tree and progress of the drivers on their own. *)

Inductive vop :=
| VCreateNode (type : Z) | VAddDirent (dir : Z) (name : list Z) (node : Z) | VSetDriver (node : Z) (d : option driver_ptr) (opaque : Z)
| VCreate | VFork (c : Z) | VDestroy (c : Z)
| VOpen (c : Z) (path : list Z) (flags : Z) | VClose (c fd : Z) | VCloseNotMatching (c flags : Z)
| VAlias (c fd c' fd' : Z) | VRead (c fd len : Z) | VSeek (c fd off rel : Z)
| VProgress (d : D).

Definition forget {A} (o : outcome (t D * A)) : outcome (t D) := '(st, _) ← o; Ret st.

Definition vstep st (o : vop) : outcome (t D) :=
  match o with
  | VCreateNode type => forget (vfs_create_node st type)
  | VAddDirent dir name node => vfs_add_dirent junk32 st dir name node
  | VSetDriver node d opaque => vfs_set_driver st node d opaque
  | VCreate => forget (vfs_create_context st)
  | VFork c => forget (vfs_fork_context ext st c)
  | VDestroy c => vfs_destroy_context ext st c
  | VOpen c path flags => forget (vfs_open ext junk32 st c path flags)
  | VClose c fd => forget (vfs_close ext st c fd)
  | VCloseNotMatching c flags => vfs_close_not_matching ext st c flags
  | VAlias c fd c' fd' => forget (vfs_alias_fd ext st c fd c' fd')
  | VRead c fd len => forget (vfs_read ext junk64 st c fd len)
  | VSeek c fd off rel => forget (vfs_seek ext st c fd off rel)
  | VProgress d => Ret (set_devs st d)
  end.

(** Descriptors are unsigned. *)
Definition vop_ok (o : vop) : Prop := match o with VAlias _ _ _ fd' => 0 <= fd' | _ => True end.

Inductive reachable : t D -> Prop :=
| reach_init d st : vfs_init (empty d) = Ret st -> reachable st
| reach_step st o st' : reachable st -> vop_ok o -> vstep st o = Ret st' -> reachable st'.

Lemma forget_inv {A} (o : outcome (t D * A)) st' : forget o = Ret st' -> exists a, o = Ret (st', a).
Proof. unfold forget. intros H. destruct o as [[st a]| | |]; try discriminate H. rewrite mbind_Ret in H. injection H as <-. eauto. Qed.

Lemma set_driver_inv st FD OF node d op st' : inv st FD OF -> vfs_set_driver st node d op = Ret st' -> inv st' FD OF.
Proof.
  intros Hinv E. unfold vfs_set_driver in E. destruct Hinv as [Hc Hf Hcnt Hnone [DM HDM]].
  destruct (pool.get U16_MAX (nodes st) node) as [nd| | |]; try discriminate E. rewrite mbind_Ret in E.
  destruct (passert _); try discriminate E. rewrite mbind_Ret in E.
  destruct (pool.emplace_anywhere U16_MAX (drivers st) (mk_device d op)) as [[p h]| | |] eqn:Ee; try discriminate E. rewrite mbind_Ret in E. cbv beta iota in E.
  destruct (fpm_emplace_inv _ _ _ _ _ _ HDM Ee) as (HDM' & Hnew & _).
  destruct (pool.modify U16_MAX (nodes st) node _); try discriminate E. rewrite mbind_Ret in E. injection E as <-.
  split; auto; cbn [drivers set_nodes set_drivers]; [|eauto]. intros h' f Hh. destruct (Hcnt h' f Hh) as (? & ? & d' & i & DM2 & o & Hi & HD2 & Hdev).
  split; [assumption|]. split; [assumption|]. exists d', i, (<[h := mk_device d op]> DM), o. split; [exact Hi|].
  cbn [drivers set_nodes set_drivers]. split; [exact HDM'|].
  assert (DM !! i = Some (mk_device (Some d') o)) as Hdev'.
  { rewrite <-(fpm_at _ _ _ _ HDM), (fpm_at _ _ _ _ HD2). exact Hdev. }
  rewrite lookup_insert_ne by congruence. exact Hdev'.
Qed.

Lemma step_inv st FD OF o st' : inv st FD OF -> vop_ok o -> vstep st o = Ret st' -> exists FD' OF', inv st' FD' OF'.
Proof.
  intros Hinv Hok E. destruct o; cbn [vstep vop_ok] in *;
    try (apply forget_inv in E as [a E]).
  - unfold vfs_create_node in E. destruct (pool.emplace_anywhere _ _ _) as [[p h]| | |]; try discriminate E. rewrite mbind_Ret in E.
    injection E as <- _. exists FD, OF. apply (inv_same _ _ _ _ Hinv). repeat split.
  - exists FD, OF. apply (inv_same _ _ _ _ Hinv). unfold vfs_add_dirent in E. inv_ret. repeat split.
  - exists FD, OF. exact (set_driver_inv _ _ _ _ _ _ _ Hinv E).
  - destruct (create_spec st FD OF Hinv) as [[_ E']|(st1 & c & _ & E' & Hinv1 & _)]; rewrite E in E'; injection E' as -> _; eauto.
  - unfold vfs_fork_context in E. destruct (create_spec st FD OF Hinv) as [[_ E']|(st1 & c' & Hfull & E' & Hinv1 & _ & Hnv & Hv' & _)];
      rewrite E', mbind_Ret in E; cbv beta iota in E.
    + injection E as <- _. eauto.
    + destruct (pool.get U16_MAX (contexts st1) c) eqn:Eg; try discriminate E.
      assert (c = c' \/ pool.valid U16_MAX (contexts st) c = true) as [->|Hv].
      { destruct (decide (c = c')); [left; assumption|right]. destruct Hinv1 as [Hc1 _ _ _ _].
        unfold vfs_create_context in E'. rewrite Hfull in E'.
        destruct Hinv as [(CM & Hp & _) _ _ _ _].
        destruct (pool.emplace_anywhere U16_MAX (contexts st) (new_fixed_pool 16)) as [[p' i]| | |] eqn:Ee; try discriminate E'.
        rewrite mbind_Ret in E'. injection E' as <- <-. destruct (fpm_emplace_inv _ _ _ _ _ _ Hp Ee) as (Hp' & _ & _).
        cbn [contexts set_contexts] in Eg. rewrite (fpm_get _ _ _ _ Hp'), lookup_insert_ne in Eg by congruence.
        rewrite (fpm_valid _ _ _ _ Hp). destruct (CM !! c); [reflexivity|discriminate Eg]. }
      * rewrite mbind_Ret in E. destruct (fork_loop ext 17 st1 c' c' 0) as [st2| | |] eqn:Ef; try discriminate E. rewrite mbind_Ret in E. injection E as <- _.
        assert (forall fuel st FD OF i st', inv st FD OF -> 0 <= i -> fork_loop ext fuel st c' c' i = Ret st' -> exists FD' OF', inv st' FD' OF') as Hself.
        { clear. induction fuel as [|fuel IH]; intros st FD OF i st' Hinv Hi E; [discriminate|]. cbn [fork_loop] in E.
          destruct (pool.get U16_MAX (contexts st) c'); try discriminate E. rewrite mbind_Ret in E. destruct (i <? _); [|injection E as <-; eauto].
          destruct (pool.valid U16_MAX a i); [|rewrite mbind_Ret in E; apply (IH st FD OF (i + 1) st' Hinv); [lia|exact E]].
          destruct (vfs_alias_fd ext st c' i c' i) as [[st1 r]| | |] eqn:Ea; try discriminate E. rewrite !mbind_Ret in E.
          destruct (alias_inv _ _ _ _ _ _ _ _ _ Hinv Hi Ea) as (FD1 & OF1 & Hinv1). apply (IH st1 FD1 OF1 (i + 1) st' Hinv1); [lia|exact E]. }
        apply (Hself 17%nat st1 FD OF 0 st2 Hinv1); [lia|exact Ef].
      * destruct (fork_spec st FD OF c Hinv Hv Hfull) as (st2 & c2 & FD2 & OF2 & E2 & Hinv2 & _).
        unfold vfs_fork_context in E2. rewrite E', mbind_Ret in E2. cbv beta iota in E2. rewrite Eg, mbind_Ret in E2. rewrite mbind_Ret in E.
        rewrite E in E2. injection E2 as -> _. eauto.
  - destruct (destroy_inv _ _ _ _ _ Hinv E) as (FD' & OF' & ? & _). eauto.
  - exact (open_inv _ _ _ _ _ _ _ _ Hinv E).
  - destruct (close_inv _ _ _ _ _ _ _ Hinv E) as (_ & OF' & _ & Hinv' & _). eauto.
  - unfold vfs_close_not_matching in E. destruct (pool.get _ _ _); try discriminate E. rewrite mbind_Ret in E. exact (close_loop_inv _ _ _ _ _ _ _ _ Hinv E).
  - exact (alias_inv _ _ _ _ _ _ _ _ _ Hinv Hok E).
  - exists FD, OF. apply (inv_same _ _ _ _ Hinv). exact (read_same _ _ _ _ _ _ _ _ Hinv E).
  - exists FD, OF. apply (inv_same _ _ _ _ Hinv). exact (seek_same _ _ _ _ _ _ _ _ _ Hinv E).
  - injection E as <-. exists FD, OF. apply (inv_same _ _ _ _ Hinv). repeat split.
Qed.

Lemma inv_empty d : inv (empty d : t D) ∅ ∅.
Proof.
  assert (forall h, refs ∅ h = 0) as Hz by (intros h; unfold refs; rewrite map_filter_empty; reflexivity).
  split; cbn [contexts opened_files drivers empty].
  - exists ∅. split; [apply fpm_new; unfold U16_MAX; lia|]. split; intros c x; rewrite ?lookup_empty; [discriminate|reflexivity].
  - apply fpm_new. unfold U16_MAX. lia.
  - intros h f Hh. rewrite lookup_empty in Hh. discriminate.
  - intros h _. apply Hz.
  - exists ∅. apply fpm_new. unfold U16_MAX. lia.
Qed.

Lemma reachable_inv st : reachable st -> exists FD OF, inv st FD OF.
Proof.
  induction 1 as [d st E|st o st' _ (FD & OF & Hinv) Hok E]; [|exact (step_inv _ _ _ _ _ Hinv Hok E)].
  exists ∅, ∅. unfold vfs_init, vfs_create_node in E.
  destruct (pool.emplace_anywhere U16_MAX (nodes (empty d)) _) as [[p r]| | |]; try discriminate E. rewrite !mbind_Ret in E. cbv beta iota in E.
  destruct (pool.emplace_anywhere U16_MAX (nodes (set_root _ _)) _) as [[p2 l]| | |]; try discriminate E. rewrite !mbind_Ret in E. cbv beta iota in E.
  eapply set_driver_inv; [|exact E]. eapply inv_same; [apply (inv_empty d)|]. repeat split.
Qed.
End with_drivers.
End vfs_inv.

(** C34: reference counts are exact.  In every state the calls of any number
    of processes can lead to, with any drivers, an opened file is in the
    table exactly as long as some descriptor of some context refers to it and
    its count is the number of these descriptors.  Closing a descriptor
    therefore works without touching the device while another one is left,
    and the last close calls the driver, with the handle the driver gave out,
    and removes the file. *)
Theorem vfs_refcounts_exact {D} (ext : Z -> vfs.driver D) (junk32 junk64 : list Z) (st : vfs.t D) :
  vfs_inv.reachable ext junk32 junk64 st ->
  exists FD : gmap (Z * Z) Z, (forall c fd, FD !! (c, fd) = vfs_inv.descriptor st c fd) /\
  (forall h, match pool.at_ U16_MAX (vfs.opened_files st) h with
             | Some f => vfs.o_ref_count f = vfs_inv.refs FD h /\ 0 < vfs_inv.refs FD h
             | None => vfs_inv.refs FD h = 0
             end) /\
  (forall c fd h, vfs_inv.descriptor st c fd = Some h ->
     exists f d st1, pool.at_ U16_MAX (vfs.opened_files st) h = Some f /\ vfs_inv.has_driver st f d /\ vfs_inv.same_rest st st1 /\
     if 1 <? vfs_inv.refs FD h then vfs.vfs_close ext st c fd = Ret (st1, 0)
     else vfs.vfs_close ext st c fd = ('(st2, r) ← vfs_inv.close_device ext st1 d (vfs.o_handle f);
                                       files ← pool.erase U16_MAX (vfs.opened_files st2) h; Ret (vfs.set_opened st2 files, r))).
Proof.
  intros (FD & OF & Hinv)%vfs_inv.reachable_inv. pose proof Hinv as [Hc Hf Hcnt Hnone _]. exists FD.
  split; [intros c fd; symmetry; apply vfs_inv.ctxs_descriptor; exact Hc|]. split.
  - intros h. rewrite (fpm_at _ _ _ _ Hf). destruct (OF !! h) as [f|] eqn:E; [|exact (Hnone h E)]. destruct (Hcnt h f E) as (? & ? & _). auto.
  - intros c fd h Hd. rewrite (vfs_inv.ctxs_descriptor _ _ _ _ Hc) in Hd.
    destruct (vfs_inv.close_spec ext st FD OF c fd h Hinv Hd) as (f & d & st1 & Hh & Hdr & Hrest & H). exists f, d, st1.
    rewrite (fpm_at _ _ _ _ Hf). split; [exact Hh|]. split; [exact Hdr|]. split; [exact Hrest|].
    destruct (1 <? vfs_inv.refs FD h); apply H.
Qed.

(** A forked context shares every open file.  With a free context left,
    the copy has the same file under every descriptor number, the
    descriptors of the other contexts and the devices are as before, and the
    result is reachable, so the reference counts stay exact; without a free
    context the call fails with ENOSPACE and changes nothing. *)
Theorem vfs_fork_shares_descriptors {D} (ext : Z -> vfs.driver D) (junk32 junk64 : list Z) (st : vfs.t D) (c : Z) :
  vfs_inv.reachable ext junk32 junk64 st -> pool.valid U16_MAX (vfs.contexts st) c = true ->
  if pool.full (vfs.contexts st) then vfs.vfs_fork_context ext st c = Ret (st, kdefs.failure kdefs.ENOSPACE)
  else exists st' c', vfs.vfs_fork_context ext st c = Ret (st', kdefs.success c') /\ vfs_inv.reachable ext junk32 junk64 st' /\
    pool.valid U16_MAX (vfs.contexts st) c' = false /\
    (forall fd, vfs_inv.descriptor st' c' fd = vfs_inv.descriptor st c fd) /\
    (forall d fd, d <> c' -> vfs_inv.descriptor st' d fd = vfs_inv.descriptor st d fd) /\ vfs_inv.same_rest st st'.
Proof.
  intros Hr Hv. pose proof (vfs_inv.reachable_inv _ _ _ _ Hr) as (FD & OF & Hinv). destruct (pool.full (vfs.contexts st)) eqn:Hfull.
  - unfold vfs.vfs_fork_context, vfs.vfs_create_context. rewrite Hfull. reflexivity.
  - destruct (vfs_inv.fork_spec ext st FD OF c Hinv Hv Hfull) as (st' & c' & FD' & OF' & E & Hinv' & Hrest & Hnv & H1 & H2).
    exists st', c'. split; [exact E|]. destruct Hinv as [Hc _ _ _ _], Hinv' as [Hc' _ _ _ _].
    split; [eapply (vfs_inv.reach_step _ _ _ _ (vfs_inv.VFork c) _ Hr I); cbn [vfs_inv.vstep]; rewrite E; reflexivity|].
    split; [exact Hnv|]. split; [|split; [|exact Hrest]]; intros;
      rewrite (vfs_inv.ctxs_descriptor _ _ _ _ Hc), (vfs_inv.ctxs_descriptor _ _ _ _ Hc'); auto.
Qed.

(** C36: what a bad descriptor does.  Reading, writing, seeking, asking for
    the position and control calls report ENOENT and change nothing; but
    [close] of a descriptor that is not open, and [dup2] to a number outside
    the table, end in a panic. *)
Theorem vfs_bad_descriptor {D} (ext : Z -> vfs.driver D) (junk32 junk64 : list Z) (st : vfs.t D)
    (valid_pointer : Z -> bool) (valid_buffer : Z -> Z -> bool) (ctx fd : Z) :
  vfs_inv.reachable ext junk32 junk64 st -> vfs_inv.descriptor st ctx (u16 fd) = None ->
  (forall p len, valid_buffer p len = true ->
     vfs.syscall_read ext junk64 valid_buffer ctx st fd p len = Ret (st, vfs.Returns (kdefs.ENOENT, []))) /\
  (forall p data, valid_pointer p = true -> vfs.syscall_write ext valid_pointer ctx st fd p data = Ret (st, vfs.Returns kdefs.ENOENT)) /\
  (forall off rel, vfs.syscall_seek ext ctx st fd off rel = Ret (st, kdefs.ENOENT)) /\
  (forall p, p <> 0 -> valid_pointer p = true -> vfs.syscall_tell ext valid_pointer ctx st fd p = Ret (st, vfs.Returns (kdefs.ENOENT, None))) /\
  (forall f p1 p2, vfs.syscall_control ext ctx st fd f p1 p2 = Ret (st, vfs.Returns (vfs.CtlRet kdefs.ENOENT []))) /\
  vfs.syscall_close ext ctx st fd = Panic /\
  (forall src h, vfs_inv.descriptor st ctx (u16 src) = Some h -> 16 <= u16 fd -> vfs.syscall_dup2 ext ctx st src fd = Panic).
Proof.
  intros (FD & OF & Hinv)%vfs_inv.reachable_inv Hd. pose proof Hinv as [Hc _ _ _ _]. rewrite (vfs_inv.ctxs_descriptor _ _ _ _ Hc) in Hd.
  pose proof (vfs_inv.fetch_spec st FD OF ctx (u16 fd) Hinv) as Hf. rewrite Hd in Hf.
  split; [intros p len Hv; unfold vfs.syscall_read, vfs.vfs_read; rewrite Hv, Hf; reflexivity|].
  split; [intros p data Hv; unfold vfs.syscall_write; rewrite Hv, Hf; reflexivity|].
  split; [intros off rel; unfold vfs.syscall_seek, vfs.vfs_seek; rewrite Hf; reflexivity|].
  split; [intros p Hp Hv; unfold vfs.syscall_tell; rewrite (proj2 (Z.eqb_neq p 0) Hp), Hv, Hf; reflexivity|].
  split; [intros f p1 p2; unfold vfs.syscall_control; rewrite Hf; reflexivity|].
  split; [exact (vfs_inv.close_panic _ _ _ _ _ _ Hinv Hd)|].
  intros src h Hsrc Hge. rewrite (vfs_inv.ctxs_descriptor _ _ _ _ Hc) in Hsrc. exact (vfs_inv.alias_panic _ _ _ _ _ _ _ _ _ Hinv Hsrc Hge).
Qed.

(** A small system for the witnesses: one registered driver that accepts
    everything and counts its open handles, mounted at /d; two contexts. *)
Definition counting_driver : vfs.driver Z := {|
  vfs.drv_write := None; vfs.drv_read := None;
  vfs.drv_open := Some (fun _ _ _ n => Ret (n + 1, n));
  vfs.drv_close := Some (fun _ n => Ret (n - 1, 0));
  vfs.drv_control := None; vfs.drv_seek := None; vfs.drv_tell := None; vfs.drv_mkdir := None |}.

Abbreviation demo_junk := (replicate 32 7).
Abbreviation demo_ext := (fun _ : Z => counting_driver).

Definition demo_ops : list (@vfs_inv.vop Z) :=
  [vfs_inv.VCreateNode 18; vfs_inv.VSetDriver 2 (Some (vfs.Registered 0)) 0; vfs_inv.VAddDirent 0 [100] 2;
   vfs_inv.VCreate; vfs_inv.VOpen 0 [47; 100] 0; vfs_inv.VOpen 0 [47; 100] 0; vfs_inv.VAlias 0 1 0 5; vfs_inv.VFork 0].

Fixpoint demo_run (st : vfs.t Z) (ops : list (@vfs_inv.vop Z)) : outcome (vfs.t Z) :=
  match ops with
  | [] => Ret st
  | o :: ops' => st ← vfs_inv.vstep demo_ext demo_junk (replicate 64 0) st o; demo_run st ops'
  end.

Lemma demo_reachable ops : forall st st', vfs_inv.reachable demo_ext demo_junk (replicate 64 0) st -> Forall vfs_inv.vop_ok ops ->
  demo_run st ops = Ret st' -> vfs_inv.reachable demo_ext demo_junk (replicate 64 0) st'.
Proof.
  induction ops as [|o ops IH]; intros st st' Hr Hok E; cbn [demo_run] in E; [injection E as <-; exact Hr|].
  inversion Hok; subst. bind_ret E. eapply IH; [|eassumption|exact E]. eapply vfs_inv.reach_step; eassumption.
Qed.

Definition demo_state : outcome (vfs.t Z) := st ← vfs.vfs_init (vfs.empty 0); demo_run st demo_ops.

Lemma demo_state_reachable st : demo_state = Ret st -> vfs_inv.reachable demo_ext demo_junk (replicate 64 0) st.
Proof.
  unfold demo_state. intros E. bind_ret E. eapply demo_reachable; [|shelve|exact E]. eapply vfs_inv.reach_init. exact Es.
  Unshelve. repeat constructor; discriminate.
Qed.

(** Two files, three descriptors in context 0, shared with context 1: the
    counts are 2 and 4, and three closes leave the second file open. *)
Lemma vfs_refcounts_exact_witness :
  exists st FD, demo_state = Ret st /\ vfs_inv.refs FD 0 = 2 /\ vfs_inv.refs FD 1 = 4 /\
  (forall c fd, FD !! (c, fd) = vfs_inv.descriptor st c fd) /\ vfs_inv.descriptor st 1 5 = Some 1.
Proof.
  assert (exists st, demo_state = Ret st /\ vfs_inv.descriptor st 1 5 = Some 1 /\
    (vfs.o_ref_count <$> pool.at_ U16_MAX (vfs.opened_files st) 0) = Some 2 /\
    (vfs.o_ref_count <$> pool.at_ U16_MAX (vfs.opened_files st) 1) = Some 4) as (st & E & H1 & H2 & H3).
  { destruct demo_state as [st| | |] eqn:E; [|vm_compute in E; discriminate E..].
    exists st. split; [reflexivity|]. vm_compute in E. injection E as <-. vm_compute. auto. }
  destruct (vfs_refcounts_exact demo_ext demo_junk (replicate 64 0) st (demo_state_reachable st E)) as (FD & HFD & Hcnt & _).
  exists st, FD. split; [exact E|]. pose proof (Hcnt 0) as C0. pose proof (Hcnt 1) as C1.
  destruct (pool.at_ U16_MAX (vfs.opened_files st) 0); [|discriminate H2]. destruct (pool.at_ U16_MAX (vfs.opened_files st) 1); [|discriminate H3].
  cbn in H2, H3. injection H2 as H2. injection H3 as H3. destruct C0 as [C0 _], C1 as [C1 _]. split; [lia|]. split; [lia|]. auto.
Defined.

Lemma vfs_fork_shares_descriptors_witness :
  exists st st' c', demo_state = Ret st /\ vfs.vfs_fork_context demo_ext st 0 = Ret (st', kdefs.success c') /\
  vfs_inv.descriptor st' c' 5 = Some 1.
Proof.
  assert (exists st, demo_state = Ret st /\ pool.valid U16_MAX (vfs.contexts st) 0 = true /\ pool.full (vfs.contexts st) = false /\
    vfs_inv.descriptor st 0 5 = Some 1) as (st & E & H1 & H2 & H3).
  { destruct demo_state as [st| | |] eqn:E; [|vm_compute in E; discriminate E..].
    exists st. split; [reflexivity|]. vm_compute in E. injection E as <-. vm_compute. auto. }
  pose proof (vfs_fork_shares_descriptors demo_ext demo_junk (replicate 64 0) st 0 (demo_state_reachable st E) H1) as H. rewrite H2 in H.
  destruct H as (st' & c' & Ef & _ & _ & Hd & _). exists st, st', c'. split; [exact E|]. split; [exact Ef|]. rewrite Hd. exact H3.
Defined.

Lemma vfs_bad_descriptor_witness :
  exists st, demo_state = Ret st /\ vfs.syscall_seek demo_ext 0 st 9 0 1 = Ret (st, -200) /\
  vfs.syscall_close demo_ext 0 st 9 = Panic.
Proof.
  assert (exists st, demo_state = Ret st /\ vfs_inv.descriptor st 0 (u16 9) = None) as (st & E & H1).
  { destruct demo_state as [st| | |] eqn:E; [|vm_compute in E; discriminate E..].
    exists st. split; [reflexivity|]. vm_compute in E. injection E as <-. vm_compute. auto. }
  destruct (vfs_bad_descriptor demo_ext demo_junk (replicate 64 0) st (fun _ => true) (fun _ _ => true) 0 9 (demo_state_reachable st E) H1)
    as (_ & _ & Hs & _ & _ & Hc & _).
  exists st. split; [exact E|]. split; [apply Hs|exact Hc].
Defined.
