(* ===== verification/Memory.v ===== *)
(** * Address spaces (kernel/memory.cc, memory.h, memory_private.h, memareas.h)

    Two level page tables, the areas of each address space and the page fault
    handler.  Page directories and page tables are pages of 1024 entries in
    kernel memory, kept in [tables] by their (kernel) address; the contents of
    physical memory are [ram].  Writes through virtual addresses go through
    the page tables of the current space and need its write permission; the
    translation cache of the processor is not modelled.  The file calls the
    fault handler makes are parameters, working on a state [V]. *)

From S2P Require Import Prelude Pool PageAlloc KernelDefs.
From stdpp Require Import gmap.
#[local] Open Scope Z_scope.

Module memory.
Import kdefs.

Definition MEM_AREA_READWRITE : Z := 0x0001.
Definition MEM_AREA_EXECUTABLE : Z := 0x0002.
Definition MEM_AREA_USER : Z := 0x0004.
Definition MEM_AREA_CACHE_DISABLED : Z := 0x0008.
Definition MEM_AREA_GLOBAL : Z := 0x0010.
Definition MEM_AREA_SYSCALL : Z := 0x0100.
Definition MEM_AREA_RETAIN_EXEC : Z := 0x0200.
Definition MEM_AREA_NO_FORK : Z := 0x0400.

Definition AREA_LINEAR_MAP : Z := 1.
Definition AREA_ALLOC : Z := 2.
Definition AREA_FILE : Z := 3.

Definition MEM_PE_P : Z := 0x0001.
Definition MEM_PE_RW : Z := 0x0002.
Definition MEM_PE_U : Z := 0x0004.
Definition MEM_PE_W : Z := 0x0008.
Definition MEM_PE_D : Z := 0x0010.
Definition MEM_PDE_S : Z := 0x0080.
Definition MEM_PTE_D : Z := 0x0040.
Definition MEM_PTE_G : Z := 0x0080.

Definition KERNEL_VIRTUAL_BASE : Z := 0xC0000000.
Definition KERNEL_SCRATCH_BASE : Z := 0xE0000000.
Definition PHYS2KERNVIRT (value : Z) : Z := u32 (value + KERNEL_VIRTUAL_BASE).
Definition KERNVIRT2PHYS (value : Z) : Z := u32 (value - KERNEL_VIRTUAL_BASE).

(** [page_dir_entry] and [page_table_entry]: 12 bits of flags, 20 of address *)
Record pte := mk_pte { e_flags : Z; e_frame : Z }.
Record area_info := mk_area { a_start : Z; a_end : Z; a_type : Z; a_flags : Z; a_info : Z }.
Record linear_map_info := mk_linear { lm_phys_start : Z }.
Record file_map_info := mk_file { fm_fd : Z; fm_offset : Z; fm_size : Z }.
Record space_info := mk_space {
  sp_page_dir : Z;
  sp_areas : fixed_pool area_info;
  sp_linear_maps : fixed_pool linear_map_info;
  sp_file_maps : fixed_pool file_map_info
}.

(** The constructor [space_info(page_dir)] *)
Definition new_space (page_dir : Z) : space_info :=
  mk_space page_dir (new_fixed_pool 32) (new_fixed_pool 16) (new_fixed_pool 16).

Record t (V : Type) := mk {
  page_dir_allocator : page_allocator.t;
  page_table_allocator : page_allocator.t;
  user_space_allocator : option page_allocator.t;
  tables : gmap Z (list pte);
  spaces : fixed_pool space_info;
  current_space : Z;
  ram : Z -> Z;
  vstate : V
}.
Arguments mk {V}.
Arguments page_dir_allocator {V}.
Arguments page_table_allocator {V}.
Arguments user_space_allocator {V}.
Arguments tables {V}.
Arguments spaces {V}.
Arguments current_space {V}.
Arguments ram {V}.
Arguments vstate {V}.

(** Flags are tested with [&]. *)
Definition has (flags bit : Z) : bool := negb (Z.land flags bit =? 0).

Definition page_flags (mem_flags : Z) : Z :=
  let converted := MEM_PE_P in
  let converted := if has mem_flags MEM_AREA_READWRITE then Z.lor converted MEM_PE_RW else converted in
  let converted := if has mem_flags MEM_AREA_USER then Z.lor converted MEM_PE_U else converted in
  let converted := if has mem_flags MEM_AREA_CACHE_DISABLED then Z.lor converted MEM_PE_D else converted in
  if has mem_flags MEM_AREA_GLOBAL then Z.lor converted MEM_PTE_G else converted.

(** Stores into the bit fields *)
Definition flags12 (x : Z) : Z := x mod 2 ^ 12.
Definition frame20 (x : Z) : Z := x mod 2 ^ 20.

Definition pte_frame (e : pte) : Z := u32 (Z.shiftl (e_frame e) 12).

(** Bytes of physical memory *)
Definition write_bytes (ram : Z -> Z) (phys : Z) (data : list Z) : Z -> Z :=
  fun a => match znth data (a - phys) with Some b => b | None => ram a end.
Definition read_bytes (ram : Z -> Z) (phys len : Z) : list Z := (fun k => ram (phys + k)) <$> seqZ 0 len.

Section ops.
Context {V : Type}.
Implicit Type st : t V.

Definition set_dir_alloc st (v : page_allocator.t) : t V := mk v (page_table_allocator st) (user_space_allocator st) (tables st) (spaces st) (current_space st) (ram st) (vstate st).
Definition set_table_alloc st (v : page_allocator.t) : t V := mk (page_dir_allocator st) v (user_space_allocator st) (tables st) (spaces st) (current_space st) (ram st) (vstate st).
Definition set_user_alloc st (v : option page_allocator.t) : t V := mk (page_dir_allocator st) (page_table_allocator st) v (tables st) (spaces st) (current_space st) (ram st) (vstate st).
Definition set_tables st (v : gmap Z (list pte)) : t V := mk (page_dir_allocator st) (page_table_allocator st) (user_space_allocator st) v (spaces st) (current_space st) (ram st) (vstate st).
Definition set_spaces st (v : fixed_pool space_info) : t V := mk (page_dir_allocator st) (page_table_allocator st) (user_space_allocator st) (tables st) v (current_space st) (ram st) (vstate st).
Definition set_current st (v : Z) : t V := mk (page_dir_allocator st) (page_table_allocator st) (user_space_allocator st) (tables st) (spaces st) v (ram st) (vstate st).
Definition set_ram st (v : Z -> Z) : t V := mk (page_dir_allocator st) (page_table_allocator st) (user_space_allocator st) (tables st) (spaces st) (current_space st) v (vstate st).
Definition set_vstate st (v : V) : t V := mk (page_dir_allocator st) (page_table_allocator st) (user_space_allocator st) (tables st) (spaces st) (current_space st) (ram st) v.

Definition get_space st (h : Z) : outcome space_info := pool.get U16_MAX (spaces st) h.

(** A change of a space through the reference [spaces[h]] *)
Definition update_space st (h : Z) (f : space_info -> space_info) : outcome (t V) :=
  p ← pool.modify U16_MAX (spaces st) h f; Ret (set_spaces st p).

(** ** Pages *)

Definition zero_table : list pte := replicate 1024 (mk_pte 0 0).

(** [alloc_page_zero] of the allocators of directories and tables *)
Definition alloc_dir st : outcome (t V * Z) :=
  '(a, page) ← page_allocator.alloc_page (page_dir_allocator st);
  Ret (set_tables (set_dir_alloc st a) (<[page := zero_table]> (tables st)), page).

Definition alloc_table st : outcome (t V * Z) :=
  '(a, page) ← page_allocator.alloc_page (page_table_allocator st);
  Ret (set_tables (set_table_alloc st a) (<[page := zero_table]> (tables st)), page).

Definition alloc_page st : outcome (t V * Z) :=
  match user_space_allocator st with
  | None => Panic
  | Some a => '(a, page) ← page_allocator.alloc_page a; Ret (set_user_alloc st (Some a), page)
  end.

Definition free_page st (page : Z) : outcome (t V) :=
  match user_space_allocator st with
  | None => Panic
  | Some a => a ← page_allocator.free_page a page; Ret (set_user_alloc st (Some a))
  end.

(** ** Page tables *)

(** The entry [idx] of the page at a kernel address *)
Definition get_entry st (page idx : Z) : outcome pte :=
  match tables st !! page with Some es => arr_get es idx | None => Undef end.

Definition set_entry st (page idx : Z) (e : pte) : outcome (t V) :=
  match tables st !! page with
  | Some es => es' ← arr_set es idx e; Ret (set_tables st (<[page := es']> (tables st)))
  | None => Undef
  end.

Definition dir_index (virt : Z) : Z := Z.shiftr virt 22.
Definition table_index (virt : Z) : Z := Z.land (Z.shiftr virt 12) 0x3FF.

(** The table a directory entry points to *)
Definition table_of (pde : pte) : Z := PHYS2KERNVIRT (u32 (Z.shiftl (e_frame pde) 12)).

Definition find_pte st (space : space_info) (virtual_address : Z) : outcome (option pte) :=
  pde ← get_entry st (sp_page_dir space) (dir_index virtual_address);
  if negb (has (e_flags pde) MEM_PE_P) then Ret None
  else
    passert (negb (table_of pde =? 0));;
    e ← get_entry st (table_of pde) (table_index virtual_address);
    if negb (has (e_flags e) MEM_PE_P) then Ret None else Ret (Some e).

Definition map_page st (space_handle virt phys flags : Z) : outcome (t V) :=
  passert (Z.land virt 0xFFF =? 0);;
  passert (Z.land phys 0xFFF =? 0);;
  space ← get_space st space_handle;
  let page_dir := sp_page_dir space in
  let directory_idx := dir_index virt in
  let pde_flags := Z.land flags (Z.lnot (Z.lor MEM_PDE_S MEM_PTE_D)) in
  pde ← get_entry st page_dir directory_idx;
  if negb (has (e_flags pde) MEM_PE_P) && negb (has flags MEM_PE_P) then Ret st
  else
    '(st, page_table) ←
      (if negb (has (e_flags pde) MEM_PE_P) then
         '(st, page_table) ← alloc_table st;
         st ← set_entry st page_dir directory_idx
                (mk_pte (flags12 pde_flags) (frame20 (Z.shiftr (KERNVIRT2PHYS page_table) 12)));
         Ret (st, page_table)
       else
         st ← set_entry st page_dir directory_idx
                (mk_pte (flags12 (Z.lor (e_flags pde) pde_flags)) (e_frame pde));
         Ret (st, table_of pde));
    set_entry st page_table (table_index virt) (mk_pte (flags12 flags) (frame20 (Z.shiftr phys 12))).

(** Stores and loads through a virtual page address of a space; both levels
    must allow the write. *)
Definition write_allowed st (space : space_info) (virt : Z) : outcome bool :=
  pde ← get_entry st (sp_page_dir space) (dir_index virt);
  e ← find_pte st space virt;
  match e with
  | None => Ret false
  | Some e => Ret (has (e_flags e) MEM_PE_RW && has (e_flags pde) MEM_PE_RW)
  end.

Definition store_page st (space_handle virt : Z) (data : list Z) : outcome (t V) :=
  space ← get_space st space_handle;
  ok ← write_allowed st space virt;
  e ← find_pte st space virt;
  match e with
  | Some e => if (ok : bool) then Ret (set_ram st (write_bytes (ram st) (pte_frame e) data)) else Undef
  | None => Undef
  end.

Definition load_page st (space_handle virt len : Z) : outcome (list Z) :=
  space ← get_space st space_handle;
  e ← find_pte st space virt;
  match e with
  | Some e => Ret (read_bytes (ram st) (pte_frame e) len)
  | None => Undef
  end.

(** ** Areas *)

Definition overlaps_existing_area st (space_handle start end_ : Z) : outcome bool :=
  space ← get_space st space_handle;
  Ret (existsb (fun ia => (start <? a_end ia.2) && (end_ >? a_start ia.2)) (pool.entries U16_MAX (sp_areas space))).

Definition add_area st (space_handle : Z) (a : area_info) : outcome (t V * Z) :=
  space ← get_space st space_handle;
  '(p, h) ← pool.emplace_anywhere U16_MAX (sp_areas space) a;
  st ← update_space st space_handle (fun s => mk_space (sp_page_dir s) p (sp_linear_maps s) (sp_file_maps s));
  Ret (st, h).

Definition add_linear st (space_handle phys_start : Z) : outcome (t V * Z) :=
  space ← get_space st space_handle;
  '(p, h) ← pool.emplace_anywhere U16_MAX (sp_linear_maps space) (mk_linear phys_start);
  st ← update_space st space_handle (fun s => mk_space (sp_page_dir s) (sp_areas s) p (sp_file_maps s));
  Ret (st, h).

Definition add_file st (space_handle : Z) (f : file_map_info) : outcome (t V * Z) :=
  space ← get_space st space_handle;
  '(p, h) ← pool.emplace_anywhere U16_MAX (sp_file_maps space) f;
  st ← update_space st space_handle (fun s => mk_space (sp_page_dir s) (sp_areas s) (sp_linear_maps s) p);
  Ret (st, h).

Definition mem_map_linear st (space_handle start end_ phys_start flags : Z) : outcome (t V * Z) :=
  o ← overlaps_existing_area st space_handle start end_;
  passert (negb o);;
  '(st, map_handle) ← add_linear st space_handle phys_start;
  add_area st space_handle (mk_area start end_ AREA_LINEAR_MAP flags map_handle).

(** Rounds of a loop over the pages of a range; enough unless the address
    wraps around, when the loop does not end. *)
Definition page_rounds (start end_ : Z) : nat := S (Z.to_nat ((end_ - start + 0xFFF) / 0x1000)).

Fixpoint eager_loop (fuel : nat) st (space_handle virt end_ phys flags : Z) : outcome (t V) :=
  match fuel with
  | O => NoFuel
  | S fuel' =>
      if virt <? end_ then
        st ← map_page st space_handle virt phys (page_flags flags);
        eager_loop fuel' st space_handle (u32 (virt + 0x1000)) end_ (u32 (phys + 0x1000)) flags
      else Ret st
  end.

Definition mem_map_linear_eager st (space_handle start end_ phys_start flags : Z) : outcome (t V * Z) :=
  o ← overlaps_existing_area st space_handle start end_;
  passert (negb o);;
  st ← eager_loop (page_rounds start end_) st space_handle start end_ phys_start flags;
  '(st, map_handle) ← add_linear st space_handle phys_start;
  add_area st space_handle (mk_area start end_ AREA_LINEAR_MAP flags map_handle).

Definition mem_map_alloc st (space_handle start end_ flags : Z) : outcome (t V * Z) :=
  o ← overlaps_existing_area st space_handle start end_;
  passert (negb o);;
  add_area st space_handle (mk_area start end_ AREA_ALLOC flags 0).

Definition mem_map_fd st (space_handle start end_ fd offset file_size flags : Z) : outcome (t V * Z) :=
  o ← overlaps_existing_area st space_handle start end_;
  passert (negb o);;
  passert (fd >? 2);;
  '(st, map_handle) ← add_file st space_handle (mk_file fd offset file_size);
  add_area st space_handle (mk_area start end_ AREA_FILE flags map_handle).

(** The index loops over the areas skip the holes. *)
Fixpoint find_area_loop (l : list (Z * area_info)) (address : Z) : option Z :=
  match l with
  | [] => None
  | (i, a) :: l' => if (address >=? a_start a) && (address <? a_end a) then Some i else find_area_loop l' address
  end.

Definition mem_find_area st (space_handle address : Z) : outcome (option Z) :=
  space ← get_space st space_handle;
  Ret (find_area_loop (pool.entries U16_MAX (sp_areas space)) address).

Definition mem_area_flags st (space_handle address : Z) : outcome (option Z) :=
  area_handle ← mem_find_area st space_handle address;
  match area_handle with
  | None => Ret None
  | Some h => space ← get_space st space_handle; a ← pool.get U16_MAX (sp_areas space) h; Ret (Some (a_flags a))
  end.

(** ** Removing areas and spaces *)

Fixpoint unmap_loop (fuel : nat) st (space_handle page_address end_ type : Z) : outcome (t V) :=
  match fuel with
  | O => NoFuel
  | S fuel' =>
      if page_address <? end_ then
        space ← get_space st space_handle;
        e ← find_pte st space page_address;
        st ← match e with
             | None => Ret st
             | Some e =>
                 st ← (if (type =? AREA_ALLOC) || (type =? AREA_FILE) then free_page st (pte_frame e) else Ret st);
                 map_page st space_handle page_address 0xDEAD000 0
             end;
        unmap_loop fuel' st space_handle (u32 (page_address + 0x1000)) end_ type
      else Ret st
  end.

Definition unmap_area st (space_handle area_handle : Z) : outcome (t V) :=
  space ← get_space st space_handle;
  area ← pool.get U16_MAX (sp_areas space) area_handle;
  st ← unmap_loop (page_rounds (a_start area) (a_end area)) st space_handle (a_start area) (a_end area) (a_type area);
  space ← get_space st space_handle;
  p ← pool.erase U16_MAX (sp_areas space) area_handle;
  update_space st space_handle (fun s => mk_space (sp_page_dir s) p (sp_linear_maps s) (sp_file_maps s)).

(** [for (size_t i = 0; i < areas.watermark(); ++i)] over at most 32 areas *)
Fixpoint unmap_areas_loop (fuel : nat) st (space_handle i : Z) (keep : area_info -> bool) : outcome (t V) :=
  match fuel with
  | O => NoFuel
  | S fuel' =>
      space ← get_space st space_handle;
      if i <? pool.watermark (sp_areas space) then
        st ← (if negb (pool.valid U16_MAX (sp_areas space) i) then Ret st
              else
                area ← pool.get U16_MAX (sp_areas space) i;
                if keep area then Ret st else unmap_area st space_handle i);
        unmap_areas_loop fuel' st space_handle (i + 1) keep
      else Ret st
  end.

Fixpoint free_tables_loop (n : nat) st (page_dir i : Z) : outcome (t V) :=
  match n with
  | O => Ret st
  | S n' =>
      pde ← get_entry st page_dir i;
      st ← (if negb (has (e_flags pde) MEM_PE_P) then Ret st
            else
              a ← page_allocator.free_page (page_table_allocator st) (table_of pde);
              set_entry (set_table_alloc st a) page_dir i (mk_pte 0 0));
      free_tables_loop n' st page_dir (i + 1)
  end.

Definition mem_destroy_space st (space_handle : Z) : outcome (t V) :=
  passert (negb (space_handle =? current_space st));;
  st ← unmap_areas_loop 33 st space_handle 0 (fun _ => false);
  space ← get_space st space_handle;
  st ← free_tables_loop 1024 st (sp_page_dir space) 0;
  a ← page_allocator.free_page (page_dir_allocator st) (sp_page_dir space);
  let st := set_dir_alloc st a in
  p ← pool.erase U16_MAX (spaces st) space_handle;
  Ret (set_spaces st p).

Definition mem_unmap_not_matching st (space_handle flags : Z) : outcome (t V) :=
  unmap_areas_loop 33 st space_handle 0 (fun a => has (a_flags a) flags).

(** ** Creating, activating and forking spaces *)

Definition mem_create_space st : outcome (t V * Z) :=
  '(st, page_dir) ← alloc_dir st;
  '(p, h) ← pool.emplace_anywhere U16_MAX (spaces st) (new_space page_dir);
  Ret (set_spaces st p, h).

Definition mem_page_dir st (space_handle : Z) : outcome Z :=
  space ← get_space st space_handle; Ret (KERNVIRT2PHYS (sp_page_dir space)).

(** The new state and the value loaded into CR3 *)
Definition mem_activate_space st (space_handle : Z) : outcome (t V * Z) :=
  cr3 ← mem_page_dir st space_handle; Ret (set_current st space_handle, cr3).

Definition mem_set_current_space st (space_handle : Z) : t V := set_current st space_handle.

Definition SOURCE_WINDOW : Z := 0xFFFE0000.
Definition DEST_WINDOW : Z := 0xFFFE1000.

(** [proc_space] is [proc_get_space( *proc_current_pid())]. *)
Definition copy_page_contents st (proc_space source_phys dest_phys : Z) : outcome (t V) :=
  passert (Z.land source_phys 0xFFF =? 0);;
  passert (Z.land dest_phys 0xFFF =? 0);;
  let flags := Z.lor MEM_PE_P (Z.lor MEM_PE_RW MEM_PE_D) in
  st ← map_page st proc_space SOURCE_WINDOW source_phys flags;
  st ← map_page st proc_space DEST_WINDOW dest_phys flags;
  data ← load_page st proc_space SOURCE_WINDOW 0x1000;
  st ← store_page st proc_space DEST_WINDOW data;
  st ← map_page st proc_space SOURCE_WINDOW 0 0;
  map_page st proc_space DEST_WINDOW 0 0.

Fixpoint copy_linear_loop (fuel : nat) st (source : space_info) (dest_handle page_address end_ : Z) : outcome (t V) :=
  match fuel with
  | O => NoFuel
  | S fuel' =>
      if page_address <? end_ then
        e ← find_pte st source page_address;
        st ← match e with None => Ret st | Some e => map_page st dest_handle page_address (pte_frame e) (e_flags e) end;
        copy_linear_loop fuel' st source dest_handle (u32 (page_address + 0x1000)) end_
      else Ret st
  end.

Fixpoint copy_alloc_loop (fuel : nat) st (proc_space : Z) (source : space_info) (dest_handle page_address end_ flags : Z) : outcome (t V) :=
  match fuel with
  | O => NoFuel
  | S fuel' =>
      if page_address <? end_ then
        e ← find_pte st source page_address;
        st ← match e with
             | None => Ret st
             | Some e =>
                 '(st, phys_address) ← alloc_page st;
                 st ← map_page st dest_handle page_address phys_address (page_flags flags);
                 copy_page_contents st proc_space (pte_frame e) phys_address
             end;
        copy_alloc_loop fuel' st proc_space source dest_handle (u32 (page_address + 0x1000)) end_ flags
      else Ret st
  end.

Definition copy_area st (proc_space : Z) (area : area_info) (source : space_info) (dest_handle : Z) : outcome (t V) :=
  if a_type area =? AREA_LINEAR_MAP then
    info ← pool.get U16_MAX (sp_linear_maps source) (a_info area);
    '(st, _) ← mem_map_linear st dest_handle (a_start area) (a_end area) (lm_phys_start info) (a_flags area);
    copy_linear_loop (page_rounds (a_start area) (a_end area)) st source dest_handle (a_start area) (a_end area)
  else if a_type area =? AREA_FILE then
    info ← pool.get U16_MAX (sp_file_maps source) (a_info area);
    '(st, _) ← mem_map_fd st dest_handle (a_start area) (a_end area) (fm_fd info) (fm_offset info) (fm_size info) (a_flags area);
    Ret st
  else if a_type area =? AREA_ALLOC then
    '(st, _) ← mem_map_alloc st dest_handle (a_start area) (a_end area) (a_flags area);
    copy_alloc_loop (page_rounds (a_start area) (a_end area)) st proc_space source dest_handle (a_start area) (a_end area) (a_flags area)
  else Ret st.

Fixpoint fork_areas st (proc_space : Z) (areas : list (Z * area_info)) (source : space_info) (dest_handle : Z) : outcome (t V) :=
  match areas with
  | [] => Ret st
  | (_, a) :: areas' =>
      st ← (if has (a_flags a) MEM_AREA_NO_FORK then Ret st else copy_area st proc_space a source dest_handle);
      fork_areas st proc_space areas' source dest_handle
  end.

Definition mem_fork_space st (proc_space space_handle : Z) : outcome (t V * Z) :=
  source ← get_space st space_handle;
  '(st, new_space_handle) ← mem_create_space st;
  st ← fork_areas st proc_space (pool.entries U16_MAX (sp_areas source)) source new_space_handle;
  Ret (st, new_space_handle).

(** ** Writing into other spaces *)

Definition mem_write_page st (space_handle virt_addr : Z) (data : list Z) : outcome (t V) :=
  passert (Z.land virt_addr 0xFFF =? 0);;
  area_handle ← mem_find_area st space_handle virt_addr;
  match area_handle with
  | None => Panic
  | Some h =>
      space ← get_space st space_handle;
      area ← pool.get U16_MAX (sp_areas space) h;
      passert (a_type area =? AREA_ALLOC);;
      e ← find_pte st space virt_addr;
      '(st, e) ← match e with
                 | Some e => Ret (st, e)
                 | None =>
                     '(st, page) ← alloc_page st;
                     st ← map_page st space_handle virt_addr page (page_flags (a_flags area));
                     e ← find_pte st space virt_addr;
                     match e with Some e => Ret (st, e) | None => Panic end
                 end;
      passert (zlen data <=? 0x1000);;
      st ← map_page st (current_space st) KERNEL_SCRATCH_BASE (pte_frame e)
             (Z.lor MEM_PE_P (Z.lor MEM_PE_RW (Z.lor MEM_PE_W MEM_PE_D)));
      st ← store_page st (current_space st) KERNEL_SCRATCH_BASE data;
      map_page st (current_space st) KERNEL_SCRATCH_BASE 0 0
  end.

Fixpoint portal_loop (fuel : nat) st (virt_address length dest_space dest_virt_address flags area_flags offset : Z) : outcome (t V) :=
  match fuel with
  | O => NoFuel
  | S fuel' =>
      if offset <? length then
        space ← get_space st dest_space;
        e ← find_pte st space (u32 (dest_virt_address + offset));
        st ← match e with
             | Some e => map_page st (current_space st) (u32 (virt_address + offset)) (pte_frame e) (page_flags flags)
             | None =>
                 '(st, phys_address) ← alloc_page st;
                 st ← map_page st (current_space st) (u32 (virt_address + offset)) phys_address (page_flags flags);
                 map_page st dest_space (u32 (dest_virt_address + offset)) phys_address (page_flags area_flags)
             end;
        portal_loop fuel' st virt_address length dest_space dest_virt_address flags area_flags (offset + 0x1000)
      else Ret st
  end.

Definition mem_map_portal st (virt_address length dest_space dest_virt_address flags : Z) : outcome (t V * Z) :=
  start_area ← mem_find_area st dest_space dest_virt_address;
  end_area ← mem_find_area st dest_space (u32 (dest_virt_address + length - 1));
  match start_area, end_area with
  | Some s, Some e =>
      space ← get_space st dest_space;
      area ← pool.get U16_MAX (sp_areas space) s;
      passert (a_type area =? AREA_ALLOC);;
      passert (s =? e);;
      st ← portal_loop (page_rounds 0 length) st virt_address length dest_space dest_virt_address flags (a_flags area) 0;
      Ret (st, 0)
  | _, _ => Panic
  end.

Fixpoint unmap_portal_loop (fuel : nat) st (virt_address length offset : Z) : outcome (t V) :=
  match fuel with
  | O => NoFuel
  | S fuel' =>
      if offset <? length then
        st ← map_page st (current_space st) (u32 (virt_address + offset)) 0xDEAD0000 0;
        unmap_portal_loop fuel' st virt_address length (offset + 0x1000)
      else Ret st
  end.

Definition mem_unmap_portal st (virt_address length : Z) : outcome (t V) :=
  unmap_portal_loop (page_rounds 0 length) st virt_address length 0.

(** ** Page faults *)

(** [vfs_seek] and [vfs_read] for the current process: what they return, and
    the bytes read *)
Variable vfs_seek : Z -> Z -> Z -> V -> outcome (V * Z).
Variable vfs_read : Z -> Z -> V -> outcome (V * res (Z * list Z)).

Definition zero_page : list Z := replicate (Z.to_nat 0x1000) 0.

Definition page_fault_linear_map st (area : area_info) (faulted_address : Z) : outcome (t V) :=
  space ← get_space st (current_space st);
  info ← pool.get U16_MAX (sp_linear_maps space) (a_info area);
  let page_address := ALIGN_DOWN faulted_address 0x1000 in
  let area_offset := page_address - a_start area in
  map_page st (current_space st) page_address (u32 (lm_phys_start info + area_offset)) (page_flags (a_flags area)).

Definition page_fault_alloc st (area : area_info) (faulted_address : Z) : outcome (t V) :=
  let page_address := ALIGN_DOWN faulted_address 0x1000 in
  '(st, phys_block) ← alloc_page st;
  st ← map_page st (current_space st) page_address phys_block (page_flags (Z.lor (a_flags area) MEM_AREA_READWRITE));
  st ← store_page st (current_space st) page_address zero_page;
  if has (a_flags area) MEM_AREA_READWRITE then Ret st
  else map_page st (current_space st) page_address phys_block (page_flags (Z.land (a_flags area) (Z.lnot MEM_AREA_READWRITE))).

Definition page_fault_file st (area : area_info) (faulted_address : Z) : outcome (t V) :=
  let page_address := ALIGN_DOWN faulted_address 0x1000 in
  '(st, phys_block) ← alloc_page st;
  st ← map_page st (current_space st) page_address phys_block (page_flags (Z.lor (a_flags area) MEM_AREA_READWRITE));
  st ← store_page st (current_space st) page_address zero_page;
  space ← get_space st (current_space st);
  info ← pool.get U16_MAX (sp_file_maps space) (a_info area);
  let area_offset := page_address - a_start area in
  let file_offset := u32 (area_offset + fm_offset info) in
  '(v, r) ← vfs_seek (fm_fd info) (to_i32 file_offset) SEEK_BEG (vstate st);
  let st := set_vstate st v in
  if r <? 0 then Panic
  else
    let read_count := Z.min (u32 (fm_offset info + fm_size info - file_offset)) 0x1000 in
    '(v, r) ← vfs_read (fm_fd info) read_count (vstate st);
    let st := set_vstate st v in
    match r with
    | failure _ => Panic
    | success (_, data) =>
        st ← store_page st (current_space st) page_address data;
        if has (a_flags area) MEM_AREA_READWRITE then Ret st
        else map_page st (current_space st) page_address phys_block (page_flags (Z.land (a_flags area) (Z.lnot MEM_AREA_READWRITE)))
    end.

(** What the handler did to the process that caused the fault *)
Inductive fault_result := Resumed | CallerKilled.

Definition int_page_fault st (error_code faulted_address : Z) : outcome (t V * fault_result) :=
  if has error_code 1 then Ret (st, CallerKilled)
  else
    area_handle ← mem_find_area st (current_space st) faulted_address;
    match area_handle with
    | None => Ret (st, CallerKilled)
    | Some h =>
        space ← get_space st (current_space st);
        area ← pool.get U16_MAX (sp_areas space) h;
        st ← (if a_type area =? AREA_LINEAR_MAP then page_fault_linear_map st area faulted_address
              else if a_type area =? AREA_ALLOC then page_fault_alloc st area faulted_address
              else if a_type area =? AREA_FILE then page_fault_file st area faulted_address
              else Panic);
        Ret (st, Resumed)
    end.

Definition syscall_mmap st (start end_ fd offset flags : Z) : outcome (t V * Z) :=
  '(st, _) ← mem_map_fd st (current_space st) start end_ fd offset (2 ^ 32 - 1) (Z.lor (u8 flags) MEM_AREA_USER);
  Ret (st, 0).

(** ** Setting up *)

(** [mem_map_kernel]: the addresses the linker and the boot loader give *)
Fixpoint map_segments st (space_handle : Z) (segments : list (Z * Z)) (current_address last_flags : Z) : outcome (t V) :=
  match segments with
  | [] => Ret st
  | (virt, flags) :: segments' =>
      st ← (if negb (virt =? current_address) && negb (last_flags =? -1) then
              '(st, _) ← mem_map_linear_eager st space_handle current_address virt (KERNVIRT2PHYS current_address) (u16 last_flags);
              passert (virt >=? current_address);;
              Ret st
            else Ret st);
      map_segments st space_handle segments' virt flags
  end.

Definition mem_map_kernel st (space_handle flags start_READONLY stop_READONLY kernel_end multiboot_last : Z) : outcome (t V) :=
  match user_space_allocator st with
  | None => Panic
  | Some a =>
      let end_ := Z.max multiboot_last kernel_end in
      let no_exec := Z.land flags (Z.lnot MEM_AREA_EXECUTABLE) in
      map_segments st space_handle
        [(0, -1);
         (KERNEL_VIRTUAL_BASE, no_exec);
         (ALIGN_UP start_READONLY 0x1000, Z.land flags (Z.lnot MEM_AREA_READWRITE));
         (ALIGN_DOWN stop_READONLY 0x1000, no_exec);
         (ALIGN_UP end_ 0x1000, -1);
         (PHYS2KERNVIRT (page_allocator.start (page_allocator.phys_bookkeeping a)), no_exec);
         (PHYS2KERNVIRT (page_allocator.end_ (page_allocator.phys_bookkeeping a)), -1)] 0 0
  end.

End ops.

(** The scan of the boot loader's memory map in [mem_init]: the region with
    the longest available entry.  Entries are 64 bit, the region is 32 bit. *)
Record mmap_entry := mk_mmap { mm_addr : Z; mm_len : Z; mm_type : Z }.
Definition MULTIBOOT_MEMORY_AVAILABLE : Z := 1.

Definition scan_entry (largest : page_allocator.region) (e : mmap_entry) : page_allocator.region :=
  if (mm_type e =? MULTIBOOT_MEMORY_AVAILABLE) && (mm_len e >? u32 (page_allocator.end_ largest - page_allocator.start largest))
  then page_allocator.mk_region (u32 (mm_addr e)) (u32 (mm_addr e + mm_len e))
  else largest.

(** The region handed to the page allocator: above the kernel and the modules *)
Definition boot_region (entries : list mmap_entry) (kernel_end multiboot_last : Z) : page_allocator.region :=
  let largest := fold_left scan_entry entries (page_allocator.mk_region 0 0) in
  let start := Z.max (Z.max (page_allocator.start largest) (KERNVIRT2PHYS kernel_end)) (KERNVIRT2PHYS multiboot_last) in
  page_allocator.mk_region (ALIGN_UP start 0x1000) (ALIGN_DOWN (page_allocator.end_ largest) 0x1000).

(** The rest of [mem_init]: [bookkeeping] is what the memory of the
    allocator's free stack holds; the interrupt and system call registrations
    are left out. *)
Definition mem_init {V} (st : t V) (entries : list mmap_entry) (bookkeeping : list Z)
    (start_READONLY stop_READONLY kernel_end multiboot_last : Z) : outcome (t V * Z) :=
  a ← page_allocator.page_allocator (boot_region entries kernel_end multiboot_last) bookkeeping;
  let st := set_user_alloc st (Some a) in
  '(st, start_space) ← mem_create_space st;
  st ← mem_map_kernel st start_space MEM_AREA_READWRITE start_READONLY stop_READONLY kernel_end multiboot_last;
  mem_activate_space st start_space.

End memory.
