(* ===== verification/MemoryFacts.v ===== *)
(** * Page tables as a map

    The two level tables of all address spaces implement one partial map from
    (space, page) to page table entries: [map_page] changes it at exactly one
    place. *)

From S2P Require Import Prelude Pool PageAlloc KernelDefs Memory.
From stdpp Require Import gmap.
#[local] Open Scope Z_scope.

Module paging.
Import kdefs memory.

(** ** Bits *)

Lemma has_P f : has f MEM_PE_P = Z.odd f.
Proof.
  unfold has, MEM_PE_P. change 1 with (Z.ones 1). rewrite Z.land_ones by lia. change (2 ^ 1) with 2. rewrite Zmod_odd.
  destruct (Z.odd f); reflexivity.
Qed.

Lemma odd_mod_pow f n : 0 < n -> Z.odd (f mod 2 ^ n) = Z.odd f.
Proof. intros. rewrite <-!Z.bit0_odd, Z.mod_pow2_bits_low by lia. reflexivity. Qed.

Lemma odd_flags12 f : Z.odd (flags12 f) = Z.odd f.
Proof. apply odd_mod_pow. lia. Qed.

Lemma odd_lor a b : Z.odd (Z.lor a b) = Z.odd a || Z.odd b.
Proof. rewrite <-!Z.bit0_odd. apply Z.lor_spec. Qed.

Lemma odd_land a b : Z.odd (Z.land a b) = Z.odd a && Z.odd b.
Proof. rewrite <-!Z.bit0_odd. apply Z.land_spec. Qed.

Lemma odd_pde_flags f : Z.odd (Z.land f (Z.lnot (Z.lor MEM_PDE_S MEM_PTE_D))) = Z.odd f.
Proof. rewrite odd_land. apply andb_true_r. Qed.

Lemma has_testbit f k : 0 <= k -> has f (2 ^ k) = Z.testbit f k.
Proof.
  intros Hk. unfold has. destruct (Z.testbit f k) eqn:E.
  - apply negb_true_iff, Z.eqb_neq. intros H. pose proof (Z.land_spec f (2 ^ k) k) as Hs.
    rewrite H, Z.bits_0, E, Z.pow2_bits_true in Hs by assumption. discriminate.
  - apply negb_false_iff, Z.eqb_eq, Z.bits_inj'. intros n Hn. rewrite Z.land_spec, Z.bits_0, Z.pow2_bits_eqb by assumption.
    destruct (Z.eqb_spec k n) as [<-|]; [rewrite E|apply andb_false_r]. reflexivity.
Qed.

Lemma has_RW f : has f MEM_PE_RW = Z.testbit f 1.
Proof. apply (has_testbit f 1). lia. Qed.

Lemma testbit_flags12 f k : 0 <= k < 12 -> Z.testbit (flags12 f) k = Z.testbit f k.
Proof. intros. apply Z.mod_pow2_bits_low. lia. Qed.

Lemma RW_pde_flags f : has (Z.land f (Z.lnot (Z.lor MEM_PDE_S MEM_PTE_D))) MEM_PE_RW = has f MEM_PE_RW.
Proof. rewrite !has_RW, Z.land_spec. apply andb_true_r. Qed.

Lemma dir_index_div v : dir_index v = v / 2 ^ 22.
Proof. apply Z.shiftr_div_pow2. lia. Qed.

Lemma table_index_mod v : table_index v = (v / 2 ^ 12) mod 1024.
Proof. unfold table_index. change 0x3FF with (Z.ones 10). rewrite Z.land_ones, Z.shiftr_div_pow2 by lia. reflexivity. Qed.

Lemma dir_index_range v : 0 <= v < 2 ^ 32 -> 0 <= dir_index v < 1024.
Proof. intros. rewrite dir_index_div. split; [apply Z.div_pos; lia|apply Z.div_lt_upper_bound; lia]. Qed.

Lemma table_index_range v : 0 <= table_index v < 1024.
Proof. rewrite table_index_mod. apply Z.mod_pos_bound. lia. Qed.

(** The two indices determine the page. *)
Lemma index_page v v' : 0 <= v < 2 ^ 32 -> 0 <= v' < 2 ^ 32 ->
  v / 4096 = v' / 4096 <-> dir_index v = dir_index v' /\ table_index v = table_index v'.
Proof.
  intros Hv Hv'. rewrite !dir_index_div, !table_index_mod. change (2 ^ 22) with (4096 * 1024). change (2 ^ 12) with 4096.
  rewrite <-!Z.div_div by lia. split; [intros ->; auto|]. intros [H1 H2].
  rewrite (Z.div_mod (v / 4096) 1024), (Z.div_mod (v' / 4096) 1024) by lia. congruence.
Qed.

Lemma aligned_mod x : (Z.land x 0xFFF =? 0) = (x mod 4096 =? 0).
Proof. change 0xFFF with (Z.ones 12). rewrite Z.land_ones by lia. reflexivity. Qed.

(** A directory entry leads back to its table. *)
Lemma table_of_page x fl : 0 <= x < 2 ^ 32 -> x mod 4096 = 0 ->
  table_of (mk_pte fl (frame20 (Z.shiftr (KERNVIRT2PHYS x) 12))) = x.
Proof.
  intros Hx Ha. unfold table_of, PHYS2KERNVIRT, KERNVIRT2PHYS, KERNEL_VIRTUAL_BASE, frame20. cbn [e_frame].
  rewrite Z.shiftr_div_pow2, Z.shiftl_mul_pow2 by lia.
  assert (0 <= u32 (x - 0xC0000000) < 2 ^ 32) as Hr by (apply Z.mod_pos_bound; lia).
  assert (u32 (x - 0xC0000000) mod 4096 = 0) as Hm.
  { unfold u32. rewrite Z.mod_mod_divide by (exists (2 ^ 20); reflexivity).
    rewrite Zminus_mod, Ha. reflexivity. }
  set (y := u32 (x - 0xC0000000)) in *. rewrite (Z.mod_small (y / 2 ^ 12)) by (split; [apply Z.div_pos; lia|apply Z.div_lt_upper_bound; lia]).
  replace (y / 2 ^ 12 * 2 ^ 12) with y by (change (2 ^ 12) with 4096; pose proof (Z.div_mod y 4096); lia).
  rewrite (u32_small y) by exact Hr. unfold y, u32. rewrite Zplus_mod_idemp_l. replace (x - 0xC0000000 + 0xC0000000) with x by lia.
  apply Z.mod_small. exact Hx.
Qed.

Section facts.
Context {V : Type}.
Implicit Type st : t V.

Definition entry st (page idx : Z) : option pte := tables st !! page ≫= fun es => znth es idx.

(** ** Well-formed page tables

    [SM]: the spaces; [DA], [TA]: the directory and table pages handed out *)
Record wf st (SM : gmap Z space_info) (ND NT : Z) (DA TA : gset Z) : Prop := {
  wf_spaces : fpm 128 (spaces st) SM;
  wf_dirs : page_allocator.rep (page_dir_allocator st) ND DA;
  wf_tabs : page_allocator.rep (page_table_allocator st) NT TA;
  wf_base : 0 < page_allocator.end_ (page_allocator.phys_bookkeeping (page_table_allocator st));
  wf_apart : forall x y, page_allocator.is_page (page_dir_allocator st) ND x ->
      page_allocator.is_page (page_table_allocator st) NT y -> x <> y;
  wf_dir : forall h s, SM !! h = Some s -> sp_page_dir s ∈ DA;
  wf_dir_inj : forall h s h' s', SM !! h = Some s -> SM !! h' = Some s' -> sp_page_dir s = sp_page_dir s' -> h = h';
  wf_table : forall p, p ∈ DA \/ p ∈ TA -> exists es, tables st !! p = Some es /\ length es = 1024%nat;
  wf_pde : forall h s i e, SM !! h = Some s -> entry st (sp_page_dir s) i = Some e -> has (e_flags e) MEM_PE_P = true -> table_of e ∈ TA;
  wf_pde_inj : forall h s i e h' s' i' e', SM !! h = Some s -> SM !! h' = Some s' ->
      entry st (sp_page_dir s) i = Some e -> entry st (sp_page_dir s') i' = Some e' ->
      has (e_flags e) MEM_PE_P = true -> has (e_flags e') MEM_PE_P = true -> table_of e = table_of e' -> h = h' /\ i = i'
}.

Lemma held_is_page a N A x : page_allocator.rep a N A -> x ∈ A -> page_allocator.is_page a N x.
Proof.
  intros Hr Hx. destruct (page_allocator.rep_wm _ _ _ Hr) as (w & Hw & _ & _ & HA & _). destruct (HA x Hx) as (k & Hk & ->).
  exists k. split; [lia|reflexivity].
Qed.

Lemma page_range a N A x : page_allocator.rep a N A -> page_allocator.is_page a N x ->
  page_allocator.end_ (page_allocator.phys_bookkeeping a) <= x < 2 ^ 32 /\ x mod 4096 = 0.
Proof.
  intros Hr (k & Hk & ->). destruct (page_allocator.rep_base _ _ _ Hr) as [Hb Hm]. destruct (page_allocator.rep_end _ _ _ Hr) as [He He2].
  unfold page_allocator.page_no, page_allocator.PAGE in *. split; [lia|]. rewrite Z.mul_comm, Z_mod_plus_full. exact Hm.
Qed.

Lemma wf_apart_held st SM ND NT DA TA x y : wf st SM ND NT DA TA -> x ∈ DA -> y ∈ TA -> x <> y.
Proof. intros H Hx Hy. apply (wf_apart _ _ _ _ _ _ H); eapply held_is_page; eauto using wf_dirs, wf_tabs. Qed.

(** Every index of a handed out page holds an entry. *)
Lemma wf_entry st SM ND NT DA TA p i : wf st SM ND NT DA TA -> p ∈ DA \/ p ∈ TA -> 0 <= i < 1024 ->
  exists e, entry st p i = Some e /\ get_entry st p i = Ret e.
Proof.
  intros H Hp Hi. destruct (wf_table _ _ _ _ _ _ H p Hp) as (es & He & Hl). unfold entry, get_entry. rewrite He.
  destruct (znth_lt_Some es i) as [e Hx]; [unfold zlen; lia|]. exists e. cbn. split; [exact Hx|]. apply arr_get_Ret. exact Hx.
Qed.

Lemma entry_get st p i e : get_entry st p i = Ret e -> entry st p i = Some e.
Proof. unfold get_entry, entry. destruct (tables st !! p); [|discriminate]. apply arr_get_inv. Qed.

(** ** Walking the tables *)

Definition walk st (s : space_info) (virt : Z) : option pte :=
  pde ← entry st (sp_page_dir s) (dir_index virt);
  if has (e_flags pde) MEM_PE_P then
    e ← entry st (table_of pde) (table_index virt);
    if has (e_flags e) MEM_PE_P then Some e else None
  else None.

Lemma find_pte_walk st SM ND NT DA TA h s virt : wf st SM ND NT DA TA -> SM !! h = Some s -> 0 <= virt < 2 ^ 32 ->
  find_pte st s virt = Ret (walk st s virt).
Proof.
  intros Hwf Hs Hv. unfold find_pte, walk. pose proof (wf_dir _ _ _ _ _ _ Hwf h s Hs) as Hd.
  destruct (wf_entry _ _ _ _ _ _ (sp_page_dir s) (dir_index virt) Hwf ltac:(auto) (dir_index_range _ Hv)) as (pde & Hpde & ->).
  rewrite Hpde, mbind_Ret. cbn [mbind option_bind]. destruct (has (e_flags pde) MEM_PE_P) eqn:HP; cbn [negb]; [|reflexivity].
  pose proof (wf_pde _ _ _ _ _ _ Hwf h s _ _ Hs Hpde HP) as Ht.
  assert (table_of pde <> 0) as Hnz.
  { destruct (page_range _ _ _ _ (wf_tabs _ _ _ _ _ _ Hwf) (held_is_page _ _ _ _ (wf_tabs _ _ _ _ _ _ Hwf) Ht)) as [? _].
    pose proof (wf_base _ _ _ _ _ _ Hwf). lia. }
  rewrite (proj2 (Z.eqb_neq _ _) Hnz). cbn [negb passert]. rewrite mbind_Ret.
  destruct (wf_entry _ _ _ _ _ _ (table_of pde) (table_index virt) Hwf ltac:(auto) (table_index_range _)) as (e & He & ->).
  rewrite He, mbind_Ret. cbn [mbind option_bind]. destruct (has (e_flags e) MEM_PE_P); reflexivity.
Qed.

(** ** Storing an entry *)

Lemma set_entry_spec st p i e es : tables st !! p = Some es -> 0 <= i < zlen es ->
  set_entry st p i e = Ret (set_tables st (<[p := zset es i e]> (tables st))).
Proof. intros Hp Hi. unfold set_entry. rewrite Hp, arr_set_Ret by exact Hi. reflexivity. Qed.

Lemma entry_set st p i e es q j : tables st !! p = Some es -> 0 <= i < zlen es ->
  entry (set_tables st (<[p := zset es i e]> (tables st))) q j = if decide (q = p /\ j = i) then Some e else entry st q j.
Proof.
  intros Hp Hi. unfold entry. cbn [tables set_tables]. destruct (decide (q = p /\ j = i)) as [[-> ->]|Hne].
  - rewrite lookup_insert_eq. cbn. apply znth_zset_eq. exact Hi.
  - destruct (decide (q = p)) as [->|Hq].
    + rewrite lookup_insert_eq, Hp. cbn. apply znth_zset_ne. intros ->. apply Hne. auto.
    + rewrite lookup_insert_ne by congruence. reflexivity.
Qed.

(** A state that differs only in the entries of its tables *)
Record frame st st' : Prop := {
  fr_spaces : spaces st' = spaces st;
  fr_dirs : page_dir_allocator st' = page_dir_allocator st;
  fr_tabs : page_table_allocator st' = page_table_allocator st;
  fr_user : user_space_allocator st' = user_space_allocator st;
  fr_current : current_space st' = current_space st;
  fr_ram : ram st' = ram st;
  fr_vstate : vstate st' = vstate st;
  fr_len : forall p es, tables st !! p = Some es -> exists es', tables st' !! p = Some es' /\ length es' = length es
}.

Lemma set_entry_ok st SM ND NT DA TA p i e : wf st SM ND NT DA TA -> p ∈ DA \/ p ∈ TA -> 0 <= i < 1024 ->
  exists st', set_entry st p i e = Ret st' /\ frame st st' /\
    forall q j, entry st' q j = if decide (q = p /\ j = i) then Some e else entry st q j.
Proof.
  intros Hwf Hp Hi. destruct (wf_table _ _ _ _ _ _ Hwf p Hp) as (es & He & Hl).
  assert (0 <= i < zlen es) as Hi' by (unfold zlen; lia).
  eexists. split; [apply set_entry_spec; eassumption|]. split; [|intros q j; apply entry_set; assumption].
  split; try reflexivity. intros q es0 Hq. cbn [tables set_tables]. destruct (decide (q = p)) as [->|Hne].
  - rewrite lookup_insert_eq. eexists. split; [reflexivity|]. replace es0 with es by congruence.
    pose proof (zlen_zset es i e) as Hz. unfold zlen in Hz. lia.
  - rewrite lookup_insert_ne by congruence. eauto.
Qed.

(** The part of [wf] that a store into a table cannot touch *)
Lemma wf_frame st st' SM ND NT DA TA : wf st SM ND NT DA TA -> frame st st' ->
  (forall h s i e, SM !! h = Some s -> entry st' (sp_page_dir s) i = Some e -> has (e_flags e) MEM_PE_P = true -> table_of e ∈ TA) ->
  (forall h s i e h' s' i' e', SM !! h = Some s -> SM !! h' = Some s' ->
      entry st' (sp_page_dir s) i = Some e -> entry st' (sp_page_dir s') i' = Some e' ->
      has (e_flags e) MEM_PE_P = true -> has (e_flags e') MEM_PE_P = true -> table_of e = table_of e' -> h = h' /\ i = i') ->
  wf st' SM ND NT DA TA.
Proof.
  intros [] [] H1 H2. constructor; try assumption; repeat match goal with E : _ st' = _ |- _ => rewrite E end; try assumption.
  intros p Hp. destruct (wf_table0 p Hp) as (es & He & Hl). destruct (fr_len0 p es He) as (es' & He' & Hl'). exists es'. split; [exact He'|congruence].
Qed.

(** Storing a directory entry of space [h] that leads to a table of its own *)
Lemma wf_set_dir st st' SM ND NT DA TA h s i e : wf st SM ND NT DA TA -> SM !! h = Some s -> frame st st' ->
  (forall q j, entry st' q j = if decide (q = sp_page_dir s /\ j = i) then Some e else entry st q j) ->
  table_of e ∈ TA ->
  (forall h' s' i' e', SM !! h' = Some s' -> entry st (sp_page_dir s') i' = Some e' ->
      has (e_flags e') MEM_PE_P = true -> table_of e' = table_of e -> h' = h /\ i' = i) ->
  wf st' SM ND NT DA TA.
Proof.
  intros Hwf Hs Hfr Hent Ht Huniq. apply (wf_frame st st'); [exact Hwf|exact Hfr|..].
  - intros h1 s1 i1 e1 Hs1 He1 HP. rewrite Hent in He1. case_decide; [congruence|]. eapply wf_pde; eauto.
  - intros h1 s1 i1 e1 h2 s2 i2 e2 Hs1 Hs2 He1 He2 HP1 HP2 Heq. rewrite Hent in He1, He2.
    destruct (decide (sp_page_dir s1 = sp_page_dir s /\ i1 = i)) as [[Hd1 ->]|_]; destruct (decide (sp_page_dir s2 = sp_page_dir s /\ i2 = i)) as [[Hd2 ->]|_].
    + split; [|reflexivity]. apply (wf_dir_inj _ _ _ _ _ _ Hwf h1 s1 h2 s2); congruence.
    + injection He1 as <-. pose proof (wf_dir_inj _ _ _ _ _ _ Hwf h1 s1 h s Hs1 Hs Hd1) as ->.
      destruct (Huniq h2 s2 i2 e2) as [-> ->]; auto.
    + injection He2 as <-. pose proof (wf_dir_inj _ _ _ _ _ _ Hwf h2 s2 h s Hs2 Hs Hd2) as ->. eauto.
    + eapply (wf_pde_inj _ _ _ _ _ _ Hwf h1 s1 i1 e1 h2 s2 i2 e2); eauto.
Qed.

(** Storing into a table page leaves the directories alone. *)
Lemma wf_set_table st st' SM ND NT DA TA tb i e : wf st SM ND NT DA TA -> tb ∈ TA -> frame st st' ->
  (forall q j, entry st' q j = if decide (q = tb /\ j = i) then Some e else entry st q j) ->
  wf st' SM ND NT DA TA /\ forall h s j, SM !! h = Some s -> entry st' (sp_page_dir s) j = entry st (sp_page_dir s) j.
Proof.
  intros Hwf Ht Hfr Hent.
  assert (forall h s j, SM !! h = Some s -> entry st' (sp_page_dir s) j = entry st (sp_page_dir s) j) as Hsame.
  { intros h s j Hs. rewrite Hent. case_decide as Hd; [|reflexivity]. destruct Hd as [Hd _]. exfalso.
    exact (wf_apart_held _ _ _ _ _ _ (sp_page_dir s) tb Hwf (wf_dir _ _ _ _ _ _ Hwf h s Hs) Ht Hd). }
  split; [|exact Hsame]. apply (wf_frame st st'); [exact Hwf|exact Hfr|..].
  - intros h s j e1 Hs He. rewrite (Hsame h) in He by assumption. eapply wf_pde; eauto.
  - intros h1 s1 i1 e1 h2 s2 i2 e2 Hs1 Hs2 He1 He2. rewrite (Hsame h1) in He1 by assumption. rewrite (Hsame h2) in He2 by assumption.
    eapply (wf_pde_inj _ _ _ _ _ _ Hwf); eauto.
Qed.

(** What no operation on page tables changes *)
Record outside st st' : Prop := {
  out_spaces : spaces st' = spaces st;
  out_dirs : page_dir_allocator st' = page_dir_allocator st;
  out_user : user_space_allocator st' = user_space_allocator st;
  out_current : current_space st' = current_space st;
  out_ram : ram st' = ram st;
  out_vstate : vstate st' = vstate st
}.

#[local] Instance outside_preorder : PreOrder outside.
Proof. split; [intros st; constructor; reflexivity|]. intros a b c [] []. constructor; congruence. Qed.

Lemma frame_outside st st' : frame st st' -> outside st st'.
Proof. intros []. constructor; assumption. Qed.

(** A new table *)
Lemma alloc_table_ok st SM ND NT DA TA : wf st SM ND NT DA TA -> Z.of_nat (base.size TA) < NT ->
  exists st' x, alloc_table st = Ret (st', x) /\ wf st' SM ND NT DA ({[x]} ∪ TA) /\ (x ∉ TA) /\ (forall y, y ∈ DA -> y <> x) /\
    0 <= x < 2 ^ 32 /\ x mod 4096 = 0 /\ outside st st' /\
    forall q j, entry st' q j = if decide (q = x) then znth zero_table j else entry st q j.
Proof.
  intros Hwf Hsz. destruct (page_allocator.pa_alloc _ _ _ (wf_tabs _ _ _ _ _ _ Hwf) Hsz) as (a & x & Ha & Hr & Hx & Hpg & Hbk).
  pose proof (page_range _ _ _ _ (wf_tabs _ _ _ _ _ _ Hwf) Hpg) as [Hrange Hal].
  pose proof (proj1 (page_allocator.rep_base _ _ _ (wf_tabs _ _ _ _ _ _ Hwf))) as H0.
  assert (forall y, y ∈ DA -> y <> x) as Hxd.
  { intros y Hy. apply (wf_apart _ _ _ _ _ _ Hwf); [|exact Hpg]. eapply held_is_page; eauto using wf_dirs. }
  unfold alloc_table. rewrite Ha, mbind_Ret. eexists _, x. split; [reflexivity|].
  set (st' := set_tables _ _).
  assert (forall q j, entry st' q j = if decide (q = x) then znth zero_table j else entry st q j) as Hent.
  { intros q j. unfold entry, st'. cbn [tables set_tables set_table_alloc]. case_decide as Hq.
    - subst. rewrite lookup_insert_eq. reflexivity.
    - rewrite lookup_insert_ne by congruence. reflexivity. }
  assert (forall h s j, SM !! h = Some s -> entry st' (sp_page_dir s) j = entry st (sp_page_dir s) j) as Hdir.
  { intros h s j Hs. rewrite Hent. case_decide as Hq; [|reflexivity]. exfalso. apply (Hxd _ (wf_dir _ _ _ _ _ _ Hwf h s Hs) Hq). }
  split.
  - destruct Hwf. constructor; try assumption.
    + change (0 < page_allocator.end_ (page_allocator.phys_bookkeeping a)). congruence.
    + intros y z Hy Hz. apply wf_apart0; [exact Hy|]. unfold page_allocator.is_page, page_allocator.page_no in *.
      cbn [page_table_allocator set_tables set_table_alloc st'] in Hz. rewrite Hbk in Hz. exact Hz.
    + intros p Hp. cbn [tables set_tables set_table_alloc st']. destruct (decide (p = x)) as [->|Hq].
      * rewrite lookup_insert_eq. eexists. split; [reflexivity|apply length_replicate].
      * rewrite lookup_insert_ne by congruence. apply wf_table0. set_solver.
    + intros h s i e Hs He HP. rewrite (Hdir h) in He by assumption. apply elem_of_union_r. eauto.
    + intros h1 s1 i1 e1 h2 s2 i2 e2 Hs1 Hs2 He1 He2. rewrite (Hdir h1) in He1 by assumption. rewrite (Hdir h2) in He2 by assumption. eauto.
  - split; [exact Hx|]. split; [exact Hxd|]. split; [lia|]. split; [exact Hal|]. split; [constructor; reflexivity|exact Hent].
Qed.

(** ** What a store does to the walk *)

(** Two walks agree where the directory entry leads to the same table and the tables agree. *)
Lemma walk_ext st st' s virt :
  (forall pde, entry st (sp_page_dir s) (dir_index virt) = Some pde -> exists pde', entry st' (sp_page_dir s) (dir_index virt) = Some pde' /\
     has (e_flags pde') MEM_PE_P = has (e_flags pde) MEM_PE_P /\
     (has (e_flags pde) MEM_PE_P = true -> table_of pde' = table_of pde /\ entry st' (table_of pde) (table_index virt) = entry st (table_of pde) (table_index virt))) ->
  (entry st (sp_page_dir s) (dir_index virt) = None -> entry st' (sp_page_dir s) (dir_index virt) = None) ->
  walk st' s virt = walk st s virt.
Proof.
  intros H1 H2. unfold walk. destruct (entry st (sp_page_dir s) (dir_index virt)) as [pde|] eqn:E; cbn [mbind option_bind]; [|rewrite (H2 eq_refl); reflexivity].
  destruct (H1 pde eq_refl) as (pde' & -> & Hf & Ht). cbn [mbind option_bind]. rewrite Hf. destruct (has (e_flags pde) MEM_PE_P) eqn:HP; [|reflexivity].
  destruct (Ht eq_refl) as [-> ->]. reflexivity.
Qed.

Lemma walk_set_table st st' SM ND NT DA TA h s virt pde e : wf st SM ND NT DA TA -> SM !! h = Some s -> 0 <= virt < 2 ^ 32 ->
  entry st (sp_page_dir s) (dir_index virt) = Some pde -> has (e_flags pde) MEM_PE_P = true ->
  (forall q j, entry st' q j = if decide (q = table_of pde /\ j = table_index virt) then Some e else entry st q j) ->
  forall h' s' virt', SM !! h' = Some s' -> 0 <= virt' < 2 ^ 32 ->
    walk st' s' virt' = if decide (h' = h /\ virt' / 4096 = virt / 4096) then (if has (e_flags e) MEM_PE_P then Some e else None) else walk st s' virt'.
Proof.
  intros Hwf Hs Hv Hpde HP Hent h' s' virt' Hs' Hv'.
  pose proof (wf_pde _ _ _ _ _ _ Hwf h s _ _ Hs Hpde HP) as Ht.
  assert (forall h s j, SM !! h = Some s -> entry st' (sp_page_dir s) j = entry st (sp_page_dir s) j) as Hdir.
  { intros h1 s1 j Hs1. rewrite Hent. case_decide as Hd; [|reflexivity]. destruct Hd as [Hd _]. exfalso.
    exact (wf_apart_held _ _ _ _ _ _ _ _ Hwf (wf_dir _ _ _ _ _ _ Hwf h1 s1 Hs1) Ht Hd). }
  case_decide as Hc.
  - destruct Hc as [-> Hpg]. replace s' with s in * by congruence. apply index_page in Hpg; [|assumption..]. destruct Hpg as [Hd Hi].
    unfold walk. rewrite (Hdir h), Hd, Hpde by assumption. cbn [mbind option_bind]. rewrite HP, Hent, Hi, decide_True by auto. reflexivity.
  - apply walk_ext; [|rewrite (Hdir h') by assumption; auto]. intros pde' Hp'. exists pde'. rewrite (Hdir h') by assumption.
    split; [exact Hp'|]. split; [reflexivity|]. intros HP'. split; [reflexivity|]. rewrite Hent. case_decide as Hd; [|reflexivity].
    destruct Hd as [Heq Hi]. destruct (wf_pde_inj _ _ _ _ _ _ Hwf h' s' _ _ h s _ _ Hs' Hs Hp' Hpde HP' HP Heq) as [-> Hd].
    exfalso. apply Hc. split; [reflexivity|]. apply index_page; auto.
Qed.

(** The middle of [map_page]: the directory entry of [virt] leads to a table,
    and no walk has changed. *)
Definition table_ready st st' (SM : gmap Z space_info) (ND NT : Z) (DA TA : gset Z) (s : space_info) (virt tb fl : Z) : Prop :=
  exists TA', wf st' SM ND NT DA TA' /\ (forall x, x ∈ TA -> x ∈ TA') /\ outside st st' /\
    (forall h' s' virt', SM !! h' = Some s' -> walk st' s' virt' = walk st s' virt') /\
    exists pde, entry st' (sp_page_dir s) (dir_index virt) = Some pde /\ has (e_flags pde) MEM_PE_P = true /\ table_of pde = tb /\
      (has fl MEM_PE_RW = true -> has (e_flags pde) MEM_PE_RW = true).

Lemma present_table st SM ND NT DA TA h s virt pde fl : wf st SM ND NT DA TA -> SM !! h = Some s -> 0 <= virt < 2 ^ 32 ->
  entry st (sp_page_dir s) (dir_index virt) = Some pde -> has (e_flags pde) MEM_PE_P = true ->
  exists st', set_entry st (sp_page_dir s) (dir_index virt) (mk_pte (flags12 (Z.lor (e_flags pde) fl)) (e_frame pde)) = Ret st' /\
    table_ready st st' SM ND NT DA TA s virt (table_of pde) fl.
Proof.
  intros Hwf Hs Hv Hpde HP. set (e := mk_pte _ _).
  assert (has (e_flags e) MEM_PE_P = true) as HPe.
  { rewrite has_P in HP |- *. unfold e. cbn [e_flags]. rewrite odd_flags12, odd_lor, HP. reflexivity. }
  assert (has fl MEM_PE_RW = true -> has (e_flags e) MEM_PE_RW = true) as HRW.
  { rewrite !has_RW. unfold e. cbn [e_flags]. rewrite testbit_flags12, Z.lor_spec by lia. intros ->. apply orb_true_r. }
  assert (table_of e = table_of pde) as Hte by reflexivity.
  destruct (set_entry_ok _ _ _ _ _ _ (sp_page_dir s) (dir_index virt) e Hwf (or_introl (wf_dir _ _ _ _ _ _ Hwf h s Hs)) (dir_index_range _ Hv)) as (st' & E & Hfr & Hent).
  exists st'. split; [exact E|]. pose proof (wf_pde _ _ _ _ _ _ Hwf h s _ _ Hs Hpde HP) as Ht.
  exists TA. split.
  { apply (wf_set_dir st st' SM ND NT DA TA h s (dir_index virt) e); [assumption..|rewrite Hte; assumption|].
    intros h' s' i' e' Hs' He' HP' Heq. exact (wf_pde_inj _ _ _ _ _ _ Hwf h' s' i' e' h s _ _ Hs' Hs He' Hpde HP' HP Heq). }
  split; [auto|]. split; [apply frame_outside, Hfr|]. split; [|exists e; rewrite Hent, decide_True by auto; auto].
  intros h' s' virt' Hs'. apply walk_ext.
  - intros pde' Hp'. rewrite Hent. case_decide as Hd.
    + destruct Hd as [Hd Hi]. rewrite Hd, Hi, Hpde in Hp'. injection Hp' as <-. exists e. split; [reflexivity|]. split; [congruence|].
      intros _. split; [reflexivity|]. rewrite Hent. case_decide as Hq; [|reflexivity]. destruct Hq as [Hq _].
      exfalso. exact (wf_apart_held _ _ _ _ _ _ _ _ Hwf (wf_dir _ _ _ _ _ _ Hwf h s Hs) Ht (eq_sym Hq)).
    + exists pde'. split; [exact Hp'|]. split; [reflexivity|]. intros HP'. split; [reflexivity|]. rewrite Hent. case_decide as Hq; [|reflexivity].
      destruct Hq as [Hq _]. exfalso. pose proof (wf_pde _ _ _ _ _ _ Hwf h' s' _ _ Hs' Hp' HP') as Ht'.
      exact (wf_apart_held _ _ _ _ _ _ _ _ Hwf (wf_dir _ _ _ _ _ _ Hwf h s Hs) Ht' (eq_sym Hq)).
  - intros Hn. rewrite Hent. case_decide as Hd; [|exact Hn]. destruct Hd as [Hd Hi]. rewrite Hd, Hi in Hn. congruence.
Qed.

Lemma absent_table st SM ND NT DA TA h s virt pde fl : wf st SM ND NT DA TA -> SM !! h = Some s -> 0 <= virt < 2 ^ 32 ->
  entry st (sp_page_dir s) (dir_index virt) = Some pde -> has (e_flags pde) MEM_PE_P = false -> Z.odd fl = true ->
  Z.of_nat (base.size TA) < NT ->
  exists st1 st' x, alloc_table st = Ret (st1, x) /\
    set_entry st1 (sp_page_dir s) (dir_index virt) (mk_pte (flags12 fl) (frame20 (Z.shiftr (KERNVIRT2PHYS x) 12))) = Ret st' /\
    table_ready st st' SM ND NT DA TA s virt x fl.
Proof.
  intros Hwf Hs Hv Hpde HP Hfl Hsz. destruct (alloc_table_ok _ _ _ _ _ _ Hwf Hsz) as (st1 & x & E1 & Hwf1 & Hx & Hxd & Hxr & Hxa & Hout & Hent1).
  set (e := mk_pte (flags12 fl) (frame20 (Z.shiftr (KERNVIRT2PHYS x) 12))). assert (table_of e = x) as Hte by (apply table_of_page; assumption).
  assert (has fl MEM_PE_RW = true -> has (e_flags e) MEM_PE_RW = true) as HRW.
  { rewrite !has_RW. unfold e. cbn [e_flags]. rewrite testbit_flags12 by lia. auto. }
  assert (has (e_flags e) MEM_PE_P = true) as HPe by (rewrite has_P; cbn [e e_flags]; rewrite odd_flags12; exact Hfl).
  destruct (set_entry_ok _ _ _ _ _ _ (sp_page_dir s) (dir_index virt) e Hwf1 (or_introl (wf_dir _ _ _ _ _ _ Hwf h s Hs)) (dir_index_range _ Hv)) as (st' & E & Hfr & Hent).
  exists st1, st', x. split; [exact E1|]. split; [exact E|].
  assert (forall h1 s1 j, SM !! h1 = Some s1 -> entry st1 (sp_page_dir s1) j = entry st (sp_page_dir s1) j) as Hdir.
  { intros h1 s1 j Hs1. rewrite Hent1. case_decide as Hq; [|reflexivity]. exfalso. apply (Hxd _ (wf_dir _ _ _ _ _ _ Hwf h1 s1 Hs1) Hq). }
  assert (forall q, q ∈ TA -> forall j, entry st' q j = entry st q j) as Htab.
  { intros q Hq j. rewrite Hent, decide_False, Hent1, decide_False; [reflexivity|congruence|]. intros [Hd _].
    exact (wf_apart_held _ _ _ _ _ _ _ _ Hwf (wf_dir _ _ _ _ _ _ Hwf h s Hs) Hq (eq_sym Hd)). }
  exists ({[x]} ∪ TA). split.
  { apply (wf_set_dir st1 st' SM ND NT DA _ h s (dir_index virt) e); [assumption..|rewrite Hte; set_solver|].
    intros h' s' i' e' Hs' He' HP' Heq. exfalso. rewrite (Hdir h') in He' by assumption.
    pose proof (wf_pde _ _ _ _ _ _ Hwf h' s' _ _ Hs' He' HP'). congruence. }
  split; [intros; set_solver|]. split; [etrans; [exact Hout|apply frame_outside, Hfr]|].
  split; [|exists e; rewrite Hent, decide_True by auto; auto].
  intros h' s' virt' Hs'. destruct (decide (sp_page_dir s' = sp_page_dir s /\ dir_index virt' = dir_index virt)) as [[Hd Hi]|Hne].
  - unfold walk. rewrite Hent, decide_True by auto. rewrite Hd, Hi, Hpde. cbn [mbind option_bind]. rewrite HP, HPe, Hte, Hent.
    rewrite decide_False by (intros [Hq _]; apply (Hxd _ (wf_dir _ _ _ _ _ _ Hwf h s Hs)); auto).
    rewrite Hent1, decide_True by reflexivity. unfold zero_table. rewrite znth_replicate; [reflexivity|].
    pose proof (table_index_range virt'). lia.
  - apply walk_ext; rewrite Hent, decide_False, (Hdir h') by assumption; [|auto]. intros pde' Hp'. exists pde'. split; [exact Hp'|]. split; [reflexivity|].
    intros HP'. split; [reflexivity|]. apply Htab. exact (wf_pde _ _ _ _ _ _ Hwf h' s' _ _ Hs' Hp' HP').
Qed.

(** [map_page], as a change of the map the tables implement *)
Definition mapped st st' (SM : gmap Z space_info) (ND NT : Z) (DA TA : gset Z) (h virt phys flags : Z) : Prop :=
  exists TA', wf st' SM ND NT DA TA' /\ (forall x, x ∈ TA -> x ∈ TA') /\ outside st st' /\
    (forall h' s' virt', SM !! h' = Some s' -> 0 <= virt' < 2 ^ 32 ->
      walk st' s' virt' =
        if decide (h' = h /\ virt' / 4096 = virt / 4096)
        then (if Z.odd flags then Some (mk_pte (flags12 flags) (frame20 (Z.shiftr phys 12))) else None)
        else walk st s' virt') /\
    (has flags MEM_PE_P = true -> has flags MEM_PE_RW = true -> forall s, SM !! h = Some s -> write_allowed st' s virt = Ret true).

(** A table page is needed when the walk of [virt] stops at the directory. *)
Definition table_missing st (s : space_info) (virt : Z) : bool :=
  match entry st (sp_page_dir s) (dir_index virt) with Some pde => negb (Z.odd (e_flags pde)) | None => false end.

Lemma set_leaf st st1 SM ND NT DA TA h s virt phys flags tb : SM !! h = Some s -> 0 <= virt < 2 ^ 32 ->
  table_ready st st1 SM ND NT DA TA s virt tb (Z.land flags (Z.lnot (Z.lor MEM_PDE_S MEM_PTE_D))) ->
  exists st', set_entry st1 tb (table_index virt) (mk_pte (flags12 flags) (frame20 (Z.shiftr phys 12))) = Ret st' /\
    mapped st st' SM ND NT DA TA h virt phys flags.
Proof.
  intros Hs Hv (TA' & Hwf & Hsub & Hout & Hwalk & pde & Hpde & HP & <- & HRW). set (e := mk_pte (flags12 flags) (frame20 (Z.shiftr phys 12))).
  pose proof (wf_pde _ _ _ _ _ _ Hwf h s _ _ Hs Hpde HP) as Ht.
  destruct (set_entry_ok _ _ _ _ _ _ (table_of pde) (table_index virt) e Hwf (or_intror Ht) (table_index_range _)) as (st' & E & Hfr & Hent).
  destruct (wf_set_table _ _ _ _ _ _ _ _ _ _ Hwf Ht Hfr Hent) as [Hwf' Hdir].
  exists st'. split; [exact E|]. exists TA'. split; [exact Hwf'|]. split; [exact Hsub|].
  split; [etrans; [exact Hout|apply frame_outside, Hfr]|].
  assert (forall h' s' virt', SM !! h' = Some s' -> 0 <= virt' < 2 ^ 32 -> walk st' s' virt' =
    if decide (h' = h /\ virt' / 4096 = virt / 4096) then (if Z.odd flags then Some e else None) else walk st s' virt') as Hw.
  { intros h' s' virt' Hs' Hv'. rewrite (walk_set_table st1 st' SM ND NT DA TA' h s virt pde e Hwf Hs Hv Hpde HP Hent h' s' virt' Hs' Hv').
    rewrite has_P. cbn [e e_flags]. rewrite odd_flags12, (Hwalk h' s' virt' Hs'). reflexivity. }
  split; [exact Hw|]. intros Hfl Hrw s0 Hs0. replace s0 with s in * by congruence. unfold write_allowed.
  destruct (wf_entry _ _ _ _ _ _ (sp_page_dir s) (dir_index virt) Hwf' (or_introl (wf_dir _ _ _ _ _ _ Hwf' h s Hs)) (dir_index_range _ Hv)) as (pde' & Hp & ->).
  rewrite (Hdir h) in Hp by assumption. replace pde' with pde by congruence.
  rewrite mbind_Ret, (find_pte_walk st' SM ND NT DA TA' h s virt), mbind_Ret, (Hw h s virt), decide_True by auto.
  rewrite has_P in Hfl. rewrite Hfl, HRW by (rewrite RW_pde_flags; exact Hrw). cbn [e e_flags].
  rewrite has_RW, testbit_flags12, <-has_RW, Hrw by lia. reflexivity.
Qed.

Lemma map_page_mapped st SM ND NT DA TA h s virt phys flags : wf st SM ND NT DA TA -> SM !! h = Some s ->
  0 <= virt < 2 ^ 32 -> virt mod 4096 = 0 -> phys mod 4096 = 0 ->
  (table_missing st s virt = true -> Z.odd flags = true -> Z.of_nat (base.size TA) < NT) ->
  exists st', map_page st h virt phys flags = Ret st' /\ mapped st st' SM ND NT DA TA h virt phys flags.
Proof.
  intros Hwf Hs Hv Hva Hpa Hroom. unfold map_page. rewrite !aligned_mod, Hva, Hpa. cbn [Z.eqb passert]. rewrite !mbind_Ret.
  unfold get_space. rewrite (fpm_get _ _ _ _ (wf_spaces _ _ _ _ _ _ Hwf)), Hs, mbind_Ret.
  destruct (wf_entry _ _ _ _ _ _ (sp_page_dir s) (dir_index virt) Hwf (or_introl (wf_dir _ _ _ _ _ _ Hwf h s Hs)) (dir_index_range _ Hv)) as (pde & Hpde & ->).
  rewrite mbind_Ret. unfold table_missing in Hroom. rewrite Hpde in Hroom. destruct (has (e_flags pde) MEM_PE_P) eqn:HP; cbn [negb andb].
  - destruct (present_table st SM ND NT DA TA h s virt pde (Z.land flags (Z.lnot (Z.lor MEM_PDE_S MEM_PTE_D))) Hwf Hs Hv Hpde HP) as (st1 & -> & Hr).
    rewrite !mbind_Ret. apply (set_leaf st st1 SM ND NT DA TA h s); assumption.
  - rewrite has_P in *. destruct (Z.odd flags) eqn:Hfl; cbn [negb].
    + rewrite HP in Hroom. destruct (absent_table st SM ND NT DA TA h s virt pde (Z.land flags (Z.lnot (Z.lor MEM_PDE_S MEM_PTE_D)))) as (st1 & st2 & x & E1 & E2 & Hr); auto.
      { rewrite has_P. exact HP. } { rewrite odd_pde_flags. exact Hfl. }
      rewrite E1, mbind_Ret, E2, !mbind_Ret. apply (set_leaf st st2 SM ND NT DA TA h s); assumption.
    + exists st. split; [reflexivity|]. exists TA. split; [exact Hwf|]. split; [auto|]. split; [reflexivity|]. split; [|rewrite has_P; congruence].
      intros h' s' virt' Hs' Hv'. case_decide as Hd; [|reflexivity]. destruct Hd as [-> Hpg]. rewrite Hfl.
      replace s' with s by congruence. apply index_page in Hpg; [|assumption..]. destruct Hpg as [Hd _].
      unfold walk. rewrite Hd, Hpde. cbn [mbind option_bind]. rewrite has_P, HP. reflexivity.
Qed.

(** ** The first state and new spaces *)

Lemma wf_initial st ND NT : fpm 128 (spaces st) ∅ ->
  page_allocator.rep (page_dir_allocator st) ND ∅ -> page_allocator.rep (page_table_allocator st) NT ∅ ->
  0 < page_allocator.end_ (page_allocator.phys_bookkeeping (page_table_allocator st)) ->
  (forall x y, page_allocator.is_page (page_dir_allocator st) ND x -> page_allocator.is_page (page_table_allocator st) NT y -> x <> y) ->
  wf st ∅ ND NT ∅ ∅.
Proof. intros. constructor; auto; try set_solver; intros *; rewrite lookup_empty; discriminate. Qed.

Lemma create_space_ok st SM ND NT DA TA : wf st SM ND NT DA TA ->
  Z.of_nat (base.size DA) < ND -> Z.of_nat (base.size SM) < 128 ->
  exists st' h x, mem_create_space st = Ret (st', h) /\ SM !! h = None /\
    wf st' (<[h := new_space x]> SM) ND NT ({[x]} ∪ DA) TA /\
    (forall virt, 0 <= virt < 2 ^ 32 -> walk st' (new_space x) virt = None) /\
    (forall h' s' virt, SM !! h' = Some s' -> walk st' s' virt = walk st s' virt).
Proof.
  intros Hwf Hsz Hn. destruct (page_allocator.pa_alloc _ _ _ (wf_dirs _ _ _ _ _ _ Hwf) Hsz) as (a & x & Ha & Hr & Hx & Hpg & Hbk).
  unfold mem_create_space, alloc_dir. rewrite Ha, !mbind_Ret.
  destruct (fpm_emplace_anywhere 128 (spaces st) SM (new_space x) (wf_spaces _ _ _ _ _ _ Hwf) Hn) as (p & h & E & Hp & Hh & _).
  cbn [spaces set_tables set_dir_alloc]. rewrite E, mbind_Ret. eexists _, h, x. split; [reflexivity|]. split; [exact Hh|].
  set (st' := set_spaces _ _).
  assert (forall q j, entry st' q j = if decide (q = x) then znth zero_table j else entry st q j) as Hent.
  { intros q j. unfold entry, st'. cbn [tables set_tables set_dir_alloc set_spaces]. case_decide as Hq.
    - subst. rewrite lookup_insert_eq. reflexivity.
    - rewrite lookup_insert_ne by congruence. reflexivity. }
  assert (forall h' s' j, SM !! h' = Some s' -> entry st' (sp_page_dir s') j = entry st (sp_page_dir s') j) as Hdir.
  { intros h' s' j Hs'. rewrite Hent, decide_False; [reflexivity|]. intros Heq. apply Hx. rewrite <-Heq. exact (wf_dir _ _ _ _ _ _ Hwf h' s' Hs'). }
  assert (forall q j, q ∈ TA -> entry st' q j = entry st q j) as Htab.
  { intros q j Hq. rewrite Hent, decide_False; [reflexivity|]. intros Heq.
    refine (wf_apart _ _ _ _ _ _ Hwf x q Hpg _ (eq_sym Heq)). eapply held_is_page; eauto using wf_tabs. }
  assert (forall j e, entry st' x j = Some e -> has (e_flags e) MEM_PE_P = false) as Hzero.
  { intros j e. rewrite Hent, decide_True by reflexivity. intros He. pose proof (znth_Some_lt _ _ _ He) as Hj.
    unfold zero_table in *. rewrite zlen_replicate in Hj. rewrite znth_replicate in He by exact Hj. injection He as <-. reflexivity. }
  split; [|split].
  - assert (forall h1 s1 i e, <[h:=new_space x]> SM !! h1 = Some s1 -> entry st' (sp_page_dir s1) i = Some e -> has (e_flags e) MEM_PE_P = true ->
        SM !! h1 = Some s1 /\ entry st (sp_page_dir s1) i = Some e) as Hold.
    { intros h1 s1 i e Hs1 He HP. apply lookup_insert_Some in Hs1. destruct Hs1 as [[<- <-]|[_ Hs1]].
      - rewrite (Hzero i e He) in HP. discriminate.
      - rewrite (Hdir h1) in He by assumption. auto. }
    destruct Hwf. constructor; try assumption.
    + intros y z Hy Hz. apply wf_apart0; [|exact Hz]. unfold page_allocator.is_page, page_allocator.page_no in *.
      cbn [page_dir_allocator set_tables set_dir_alloc set_spaces st'] in Hy. rewrite Hbk in Hy. exact Hy.
    + intros h1 s1 Hs1. apply lookup_insert_Some in Hs1. destruct Hs1 as [[<- <-]|[_ Hs1]]; [cbn; set_solver|].
      apply elem_of_union_r. eauto.
    + intros h1 s1 h2 s2 H1 H2. apply lookup_insert_Some in H1, H2.
      destruct H1 as [[<- <-]|[? H1]]; destruct H2 as [[<- <-]|[? H2]]; cbn; intros Heq; [reflexivity|exfalso..|eauto].
      * apply Hx. rewrite Heq. eauto.
      * apply Hx. rewrite <-Heq. eauto.
    + intros q Hq. cbn [tables set_tables set_dir_alloc set_spaces st']. destruct (decide (q = x)) as [->|Hne].
      * rewrite lookup_insert_eq. eexists. split; [reflexivity|apply length_replicate].
      * rewrite lookup_insert_ne by congruence. apply wf_table0. set_solver.
    + intros h1 s1 i e Hs1 He HP. destruct (Hold h1 s1 i e Hs1 He HP). eauto.
    + intros h1 s1 i1 e1 h2 s2 i2 e2 Hs1 Hs2 He1 He2 HP1 HP2. destruct (Hold _ _ _ _ Hs1 He1 HP1). destruct (Hold _ _ _ _ Hs2 He2 HP2). eauto.
  - intros virt Hv. unfold walk. cbn [sp_page_dir new_space]. destruct (entry st' x (dir_index virt)) as [e|] eqn:He; [|reflexivity].
    cbn [mbind option_bind]. rewrite (Hzero _ _ He). reflexivity.
  - intros h' s' virt Hs'. apply walk_ext; rewrite (Hdir h') by assumption; [|auto]. intros pde Hp'. exists pde. split; [exact Hp'|].
    split; [reflexivity|]. intros HP. split; [reflexivity|]. apply Htab. exact (wf_pde _ _ _ _ _ _ Hwf h' s' _ _ Hs' Hp' HP).
Qed.

End facts.
(** ** A machine with two hundred pages for directories and tables *)

Definition demo_pages (base : Z) : page_allocator.t :=
  page_allocator.mk (page_allocator.mk_region base (base + 0x64000)) (page_allocator.mk_region base (base + 0x1000))
    (base + 0x1000) (replicate 1024 0) 0.

Lemma demo_pages_rep base : 0 <= base < 0xE0000000 -> base mod 4096 = 0 -> page_allocator.rep (demo_pages base) 99 ∅.
Proof.
  intros Hb Ha. assert (0 <= base + 0x1000 /\ (base + 0x1000) mod 4096 = 0) as Hm by (split; [lia|rewrite Zplus_mod, Ha; reflexivity]).
  split; cbn [demo_pages page_allocator.phys_bookkeeping page_allocator.phys_region page_allocator.end_ page_allocator.fs page_allocator.fs_head page_allocator.watermark];
    unfold page_allocator.page_no, page_allocator.PAGE, page_allocator.stack; cbn [demo_pages page_allocator.phys_bookkeeping page_allocator.end_ page_allocator.fs_head];
    try (rewrite zlen_replicate; lia); try lia; try exact Hm.
  - exists 0. split; [lia|]. split; [cbn; lia|]. split; [intros x Hx; apply elem_of_nil in Hx; destruct Hx|]. split; [set_solver|reflexivity].
  - constructor.
  - intros x Hx. apply elem_of_nil in Hx. destruct Hx.
Qed.

Definition demo_boot : t unit :=
  mk (demo_pages 0xC0100000) (demo_pages 0xC0200000) (Some (demo_pages 0x1000000)) ∅ (new_fixed_pool 128) 0 (fun _ => 7) tt.

Lemma demo_boot_wf : wf demo_boot ∅ 99 99 ∅ ∅.
Proof.
  apply wf_initial; [apply fpm_new; unfold U16_MAX; lia|apply demo_pages_rep; [lia|reflexivity]..|cbn; lia|].
  intros x y (i & Hi & ->) (j & Hj & ->). unfold page_allocator.page_no, page_allocator.PAGE. cbn. lia.
Qed.
End paging.

(** C37: the page tables of all address spaces together are one map from
    (space, page) to entries.  [map_page] of an aligned page always
    succeeds, taking at most one table page, which it needs only when the
    directory has no table for that address; it changes the lookup
    [find_pte] of exactly that page of exactly that space, to the new frame
    and flags when the present bit is set and to nothing when it is not; the
    tables stay well formed: no table is shared by two directory entries, and
    directories and tables stay apart. *)
Theorem map_page_updates_one_page {V} (st : memory.t V) SM ND NT DA TA h s virt phys flags :
  paging.wf st SM ND NT DA TA -> SM !! h = Some s ->
  0 <= virt < 2 ^ 32 -> virt mod 4096 = 0 -> phys mod 4096 = 0 ->
  (paging.table_missing st s virt = true -> Z.odd flags = true -> Z.of_nat (base.size TA) < NT) ->
  exists st' TA', memory.map_page st h virt phys flags = Ret st' /\ paging.wf st' SM ND NT DA TA' /\
    (forall x, x ∈ TA -> x ∈ TA') /\ paging.outside st st' /\
    forall h' s' virt', SM !! h' = Some s' -> 0 <= virt' < 2 ^ 32 ->
      memory.find_pte st' s' virt' =
        if decide (h' = h /\ virt' / 4096 = virt / 4096)
        then Ret (if Z.odd flags then Some (memory.mk_pte (memory.flags12 flags) (memory.frame20 (Z.shiftr phys 12))) else None)
        else memory.find_pte st s' virt'.
Proof.
  intros Hwf Hs Hv Hva Hpa Hroom.
  destruct (paging.map_page_mapped st SM ND NT DA TA h s virt phys flags) as (st' & E & TA' & Hwf' & Hsub & Hout & Hw & _); try assumption.
  exists st', TA'. do 4 (split; [assumption|]). intros h' s' virt' Hs' Hv'.
  rewrite (paging.find_pte_walk st' SM ND NT DA TA' h' s' virt'), (Hw h' s' virt') by assumption.
  case_decide; [reflexivity|]. symmetry. eapply paging.find_pte_walk; eauto.
Qed.

(** A first page in a new space *)
Lemma map_page_updates_one_page_witness : exists st h s st', memory.mem_create_space paging.demo_boot = Ret (st, h) /\
  memory.map_page st h 0x8000000 0x5000 7 = Ret st' /\
  memory.find_pte st' s 0x8000123 = Ret (Some (memory.mk_pte 7 5)) /\ memory.find_pte st' s 0x8001000 = Ret None.
Proof.
  destruct (paging.create_space_ok paging.demo_boot ∅ 99 99 ∅ ∅ paging.demo_boot_wf) as (st & h & x & E & _ & Hwf & Hnew & _);
    [reflexivity..|].
  exists st, h, (memory.new_space x).
  destruct (map_page_updates_one_page st _ _ _ _ _ h (memory.new_space x) 0x8000000 0x5000 7 Hwf) as (st' & TA' & E' & Hwf' & _ & _ & Hf);
    [apply lookup_insert_eq|lia|reflexivity|reflexivity|intros; reflexivity|].
  exists st'. split; [exact E|]. split; [exact E'|]. split.
  - rewrite (Hf h); [|apply lookup_insert_eq|lia]. rewrite decide_True by auto. reflexivity.
  - rewrite (Hf h); [|apply lookup_insert_eq|lia]. rewrite decide_False by (intros [_ H]; discriminate).
    rewrite (paging.find_pte_walk st _ _ _ _ _ h (memory.new_space x) 0x8001000 Hwf), Hnew; [reflexivity|lia|apply lookup_insert_eq|lia].
Defined.
