(* ===== verification/MemoryAreas.v ===== *)
(** * Areas of address spaces

    The areas of a space are disjoint and their records exist, whatever the
    kernel does; the page fault handler relies on it. *)

From S2P Require Import Prelude Pool PageAlloc KernelDefs Memory MemoryFacts.
From stdpp Require Import gmap.
#[local] Open Scope Z_scope.

Module areas.
Import kdefs memory.

(** ** The invariant *)

Definition disjoint (a b : area_info) : Prop := a_end a <= a_start b \/ a_end b <= a_start a.
Definition covers (a : area_info) (address : Z) : Prop := a_start a <= address < a_end a.

(** The areas, linear maps and file maps of a space *)
Record space_ok (s : space_info) (ma : gmap Z area_info) : Prop := {
  so_areas : fpm 32 (sp_areas s) ma;
  so_disjoint : forall i a j b, ma !! i = Some a -> ma !! j = Some b -> i <> j -> disjoint a b;
  so_linear : exists ml, fpm 16 (sp_linear_maps s) ml /\ forall i a, ma !! i = Some a -> a_type a = AREA_LINEAR_MAP -> is_Some (ml !! a_info a);
  so_file : exists mf, fpm 16 (sp_file_maps s) mf /\ forall i a, ma !! i = Some a -> a_type a = AREA_FILE -> is_Some (mf !! a_info a);
  so_type : forall i a, ma !! i = Some a -> a_type a = AREA_LINEAR_MAP \/ a_type a = AREA_ALLOC \/ a_type a = AREA_FILE
}.

Definition pool_ok (p : fixed_pool space_info) : Prop :=
  exists SM, fpm 128 p SM /\ forall h s, SM !! h = Some s -> exists ma, space_ok s ma.

Section facts.
Context {V : Type}.
Implicit Type st : t V.

Definition ok st : Prop := pool_ok (spaces st).

(** ** Operations that leave the spaces alone *)

Definition keeps {A} st (m : outcome (t V * A)) : Prop := ensures m (fun r => spaces r.1 = spaces st).
Definition keeps_ st (m : outcome (t V)) : Prop := ensures m (fun st' => spaces st' = spaces st).

Lemma alloc_table_keeps st : keeps st (alloc_table st).
Proof. unfold keeps, alloc_table. destruct (page_allocator.alloc_page _) as [[a x]| | |]; reflexivity || exact I. Qed.

Lemma alloc_page_keeps st : keeps st (alloc_page st).
Proof.
  unfold keeps, alloc_page. destruct (user_space_allocator st) as [u|]; [|exact I].
  destruct (page_allocator.alloc_page u) as [[a x]| | |]; reflexivity || exact I.
Qed.

Lemma free_page_keeps st x : keeps_ st (free_page st x).
Proof. unfold keeps_, free_page. destruct (user_space_allocator st) as [u|]; [|exact I]. destruct (page_allocator.free_page u x); reflexivity || exact I. Qed.

Lemma set_entry_keeps st p i e : keeps_ st (set_entry st p i e).
Proof. unfold keeps_, set_entry. destruct (tables st !! p) as [es|]; [|exact I]. destruct (arr_set es i e); reflexivity || exact I. Qed.

Lemma store_page_keeps st h virt data : keeps_ st (store_page st h virt data).
Proof.
  unfold keeps_, store_page. do 3 (eapply ensures_bind; [apply ensures_eq|]; intros ? _).
  repeat case_match; reflexivity || exact I.
Qed.

Lemma map_page_keeps st h virt phys flags : keeps_ st (map_page st h virt phys flags).
Proof.
  unfold keeps_, map_page. do 4 (eapply ensures_bind; [apply ensures_eq|]; intros ? _). case_match; [reflexivity|].
  eapply (ensures_bind _ _ (fun r => spaces r.1 = spaces st)).
  - case_match.
    + eapply ensures_bind; [apply alloc_table_keeps|]. intros [st1 x] H1. eapply ensures_bind; [apply set_entry_keeps|].
      intros st2 H2. simpl in *. congruence.
    + eapply ensures_bind; [apply set_entry_keeps|]. intros st2 H2. exact H2.
  - intros [st1 x] H1. eapply ensures_mono; [apply set_entry_keeps|]. simpl in *. congruence.
Qed.

End facts.

(** Walks through an operation whose steps all leave the spaces of [st0] alone. *)
Ltac keep st0 :=
  cbn beta iota;
  lazymatch goal with
  | |- ensures (mbind _ ?m) _ =>
      lazymatch type of m with
      | outcome (t _) => apply (ensures_bind m _ (fun x => spaces x = spaces st0)); [keep st0|intros ? ?; keep st0]
      | outcome (t _ * _) => apply (ensures_bind m _ (fun x => spaces x.1 = spaces st0)); [keep st0|intros [? ?] ?; keep st0]
      | _ => apply (ensures_bind m _ (fun _ => True)); [destruct m; exact I|intros ? _; keep st0]
      end
  | |- ensures (match _ with _ => _ end) _ => case_match; keep st0
  | |- ensures (Ret _) _ => simpl in *; congruence
  | |- ensures Panic _ => exact I
  | |- ensures NoFuel _ => exact I
  | |- ensures Undef _ => exact I
  | |- ensures _ _ =>
      eapply ensures_mono;
      [first [apply map_page_keeps|apply alloc_page_keeps|apply free_page_keeps|apply store_page_keeps|solve [auto]]
      |intros; simpl in *; congruence]
  end.

Section loops.
Context {V : Type}.
Implicit Type st : t V.

Lemma eager_loop_keeps fuel : forall st h virt end_ phys flags, keeps_ st (eager_loop fuel st h virt end_ phys flags).
Proof. induction fuel as [|fuel IH]; intros st h virt end_ phys flags; unfold keeps_ in *; simpl; [exact I|]. keep st. Qed.

Lemma unmap_loop_keeps fuel : forall st h page end_ type, keeps_ st (unmap_loop fuel st h page end_ type).
Proof. induction fuel as [|fuel IH]; intros st h page end_ type; unfold keeps_ in *; simpl; [exact I|]. keep st. Qed.

Lemma copy_page_contents_keeps st ps src dst : keeps_ st (copy_page_contents st ps src dst).
Proof. unfold keeps_, copy_page_contents. keep st. Qed.

Lemma copy_linear_loop_keeps fuel : forall st src h page end_, keeps_ st (copy_linear_loop fuel st src h page end_).
Proof. induction fuel as [|fuel IH]; intros st src h page end_; unfold keeps_ in *; simpl; [exact I|]. keep st. Qed.

Lemma copy_alloc_loop_keeps fuel : forall st ps src h page end_ flags, keeps_ st (copy_alloc_loop fuel st ps src h page end_ flags).
Proof.
  pose proof copy_page_contents_keeps as Hc.
  induction fuel as [|fuel IH]; intros st ps src h page end_ flags; unfold keeps_ in *; simpl; [exact I|]. keep st.
Qed.

Lemma free_tables_loop_keeps n : forall st dir i, keeps_ st (free_tables_loop n st dir i).
Proof.
  pose proof (@set_entry_keeps V) as He.
  induction n as [|n IH]; intros st dir i; unfold keeps_ in *; simpl; [reflexivity|]. keep st.
Qed.

Lemma portal_loop_keeps fuel : forall st virt len h dest flags af off, keeps_ st (portal_loop fuel st virt len h dest flags af off).
Proof. induction fuel as [|fuel IH]; intros st virt len h dest flags af off; unfold keeps_ in *; simpl; [exact I|]. keep st. Qed.

Lemma unmap_portal_loop_keeps fuel : forall st virt len off, keeps_ st (unmap_portal_loop fuel st virt len off).
Proof. induction fuel as [|fuel IH]; intros st virt len off; unfold keeps_ in *; simpl; [exact I|]. keep st. Qed.

Lemma mem_write_page_keeps st h virt data : keeps_ st (mem_write_page st h virt data).
Proof. unfold keeps_, mem_write_page. keep st. Qed.

Lemma mem_map_portal_keeps st virt len h dest flags : keeps st (mem_map_portal st virt len h dest flags).
Proof. pose proof portal_loop_keeps as Hp. unfold keeps, keeps_ in *. unfold mem_map_portal. keep st. Qed.

Lemma mem_unmap_portal_keeps st virt len : keeps_ st (mem_unmap_portal st virt len).
Proof. apply unmap_portal_loop_keeps. Qed.

Lemma int_page_fault_keeps seek read st code address : keeps st (int_page_fault seek read st code address).
Proof. unfold keeps, int_page_fault, page_fault_linear_map, page_fault_alloc, page_fault_file. keep st. Qed.

End loops.

(** ** Operations that change a space *)

Section spaces.
Context {V : Type}.
Implicit Type st : t V.

(** The invariant, with the space at [h] in view *)
Definition at_ st (h : Z) (s : space_info) : Prop :=
  exists SM, fpm 128 (spaces st) SM /\ (forall h s, SM !! h = Some s -> exists ma, space_ok s ma) /\ SM !! h = Some s.

Lemma at_ok st h s : at_ st h s -> ok st.
Proof. intros (SM & ? & ? & _). exists SM. auto. Qed.

Lemma at_space_ok st h s : at_ st h s -> exists ma, space_ok s ma.
Proof. intros (SM & _ & H & Hs). eauto. Qed.

Lemma at_get st h s : at_ st h s -> get_space st h = Ret s.
Proof. intros (SM & Hp & _ & Hs). unfold get_space. rewrite (fpm_get _ _ _ _ Hp), Hs. reflexivity. Qed.

Lemma at_keep st st' h s : spaces st' = spaces st -> at_ st h s -> at_ st' h s.
Proof. intros E (SM & Hp & H). exists SM. rewrite E. auto. Qed.

Lemma ok_keep st st' : spaces st' = spaces st -> ok st -> ok st'.
Proof. unfold ok. intros ->. auto. Qed.

Lemma get_space_at st h : ok st -> ensures (get_space st h) (at_ st h).
Proof.
  intros (SM & Hp & H). unfold get_space. rewrite (fpm_get _ _ _ _ Hp). destruct (SM !! h) eqn:E; [|exact I].
  exists SM. auto.
Qed.

Lemma update_space_at st h s f ma : at_ st h s -> space_ok (f s) ma ->
  exists st', update_space st h f = Ret st' /\ at_ st' h (f s).
Proof.
  intros (SM & Hp & H & Hs) Hf. unfold update_space. destruct (fpm_modify _ _ _ _ _ f Hp Hs) as (p & -> & Hp' & _).
  rewrite mbind_Ret. eexists. split; [reflexivity|]. exists (<[h := f s]> SM). cbn [spaces set_spaces]. split; [exact Hp'|].
  split; [|apply lookup_insert_eq]. intros h' s' Hs'. apply lookup_insert_Some in Hs'. destruct Hs' as [[_ <-]|[_ Hs']]; eauto.
Qed.

(** [add_linear], [add_file]: the record is there, the areas are the same. *)
Definition has_linear (s : space_info) (k : Z) : Prop := exists ml, fpm 16 (sp_linear_maps s) ml /\ is_Some (ml !! k).
Definition has_file (s : space_info) (k : Z) : Prop := exists mf, fpm 16 (sp_file_maps s) mf /\ is_Some (mf !! k).

Lemma is_Some_insert {A} (m : gmap Z A) k v i : is_Some (m !! i) -> is_Some (<[k := v]> m !! i).
Proof. intros. rewrite lookup_insert_is_Some. destruct (decide (k = i)); auto. Qed.

Lemma add_linear_at st h s ma phys : at_ st h s -> space_ok s ma ->
  ensures (add_linear st h phys) (fun r => exists s', at_ r.1 h s' /\ space_ok s' ma /\ has_linear s' r.2 /\ sp_areas s' = sp_areas s).
Proof.
  intros Hat Hso. unfold add_linear. rewrite (at_get _ _ _ Hat), mbind_Ret. destruct Hso as [Ha Hd (ml & Hml & Hl) Hf Ht].
  eapply ensures_bind; [apply ensures_eq|]. intros [p k] E. destruct (fpm_emplace_inv _ _ _ _ _ _ Hml E) as (Hp & _).
  assert (space_ok (mk_space (sp_page_dir s) (sp_areas s) p (sp_file_maps s)) ma) as Hso.
  { constructor; auto. eexists. split; [exact Hp|]. intros. apply is_Some_insert. eauto. }
  destruct (update_space_at st h s (fun s => mk_space (sp_page_dir s) (sp_areas s) p (sp_file_maps s)) ma Hat Hso) as (st' & -> & Hat').
  rewrite mbind_Ret. simpl. eexists. split; [exact Hat'|]. split; [exact Hso|]. split; [|reflexivity].
  eexists. split; [exact Hp|]. rewrite lookup_insert_eq. eauto.
Qed.

Lemma add_file_at st h s ma f : at_ st h s -> space_ok s ma ->
  ensures (add_file st h f) (fun r => exists s', at_ r.1 h s' /\ space_ok s' ma /\ has_file s' r.2 /\ sp_areas s' = sp_areas s).
Proof.
  intros Hat Hso. unfold add_file. rewrite (at_get _ _ _ Hat), mbind_Ret. destruct Hso as [Ha Hd Hl (mf & Hmf & Hf) Ht].
  eapply ensures_bind; [apply ensures_eq|]. intros [p k] E. destruct (fpm_emplace_inv _ _ _ _ _ _ Hmf E) as (Hp & _).
  assert (space_ok (mk_space (sp_page_dir s) (sp_areas s) (sp_linear_maps s) p) ma) as Hso.
  { constructor; auto. eexists. split; [exact Hp|]. intros. apply is_Some_insert. eauto. }
  destruct (update_space_at st h s (fun s => mk_space (sp_page_dir s) (sp_areas s) (sp_linear_maps s) p) ma Hat Hso) as (st' & -> & Hat').
  rewrite mbind_Ret. simpl. eexists. split; [exact Hat'|]. split; [exact Hso|]. split; [|reflexivity].
  eexists. split; [exact Hp|]. rewrite lookup_insert_eq. eauto.
Qed.

(** A new area that overlaps no other one *)
Definition fits (s : space_info) (ma : gmap Z area_info) (a : area_info) : Prop :=
  (forall i b, ma !! i = Some b -> disjoint a b) /\
  (a_type a = AREA_LINEAR_MAP -> has_linear s (a_info a)) /\ (a_type a = AREA_FILE -> has_file s (a_info a)) /\
  (a_type a = AREA_LINEAR_MAP \/ a_type a = AREA_ALLOC \/ a_type a = AREA_FILE).

Lemma disjoint_sym a b : disjoint a b -> disjoint b a.
Proof. unfold disjoint. tauto. Qed.

Lemma space_ok_add s ma a p k : space_ok s ma -> fits s ma a -> fpm 32 p (<[k := a]> ma) -> ma !! k = None ->
  space_ok (mk_space (sp_page_dir s) p (sp_linear_maps s) (sp_file_maps s)) (<[k := a]> ma).
Proof.
  intros [Ha Hd (ml & Hml & Hl) (mf & Hmf & Hf) Ht] (Hfd & Hfl & Hff & Hft) Hp Hk. constructor; cbn [sp_areas sp_linear_maps sp_file_maps].
  - exact Hp.
  - intros i b j c Hi Hj Hne. apply lookup_insert_Some in Hi, Hj. destruct Hi as [[<- <-]|[? Hi]], Hj as [[<- <-]|[? Hj]]; try congruence; eauto.
    apply disjoint_sym. eauto.
  - exists ml. split; [exact Hml|]. intros i b Hi Hb. apply lookup_insert_Some in Hi. destruct Hi as [[<- <-]|[? Hi]]; [|eauto].
    destruct (Hfl Hb) as (ml' & Hml' & Hx). destruct Hx as [v Hx]. pose proof (fpm_at _ _ _ (a_info a) Hml) as H1.
    rewrite (fpm_at _ _ _ (a_info a) Hml'), Hx in H1. eauto.
  - exists mf. split; [exact Hmf|]. intros i b Hi Hb. apply lookup_insert_Some in Hi. destruct Hi as [[<- <-]|[? Hi]]; [|eauto].
    destruct (Hff Hb) as (mf' & Hmf' & Hx). destruct Hx as [v Hx]. pose proof (fpm_at _ _ _ (a_info a) Hmf) as H1.
    rewrite (fpm_at _ _ _ (a_info a) Hmf'), Hx in H1. eauto.
  - intros i b Hi. apply lookup_insert_Some in Hi. destruct Hi as [[<- <-]|[? Hi]]; eauto.
Qed.

(** The area the operation added *)
Definition added st (h : Z) (a : area_info) (st' : t V) (k : Z) : Prop :=
  exists s s' ma, at_ st h s /\ space_ok s ma /\ at_ st' h s' /\ space_ok s' (<[k := a]> ma) /\ ma !! k = None.

Lemma add_area_at st h s ma a : at_ st h s -> space_ok s ma -> fits s ma a ->
  ensures (add_area st h a) (fun r => exists s', at_ r.1 h s' /\ space_ok s' (<[r.2 := a]> ma) /\ ma !! r.2 = None).
Proof.
  intros Hat Hso Hfit. unfold add_area. rewrite (at_get _ _ _ Hat), mbind_Ret.
  eapply ensures_bind; [apply ensures_eq|]. intros [p k] E. destruct (fpm_emplace_inv _ _ _ _ _ _ (so_areas _ _ Hso) E) as (Hp & Hk & _).
  pose proof (space_ok_add s ma a p k Hso Hfit Hp Hk) as Hso'.
  destruct (update_space_at st h s (fun s => mk_space (sp_page_dir s) p (sp_linear_maps s) (sp_file_maps s)) _ Hat Hso') as (st' & -> & Hat').
  rewrite mbind_Ret. simpl. eauto.
Qed.

(** The overlap test *)
Lemma no_overlap st h s ma start end_ : at_ st h s -> space_ok s ma ->
  ensures (overlaps_existing_area st h start end_)
    (fun o => o = false -> forall i b, ma !! i = Some b -> forall t f n, disjoint (mk_area start end_ t f n) b).
Proof.
  intros Hat Hso. unfold overlaps_existing_area. rewrite (at_get _ _ _ Hat), mbind_Ret. simpl. intros Ho i b Hi t f n.
  destruct (so_areas _ _ Hso) as [[fl Hr] _]. assert ((i, b) ∈ pool.entries U16_MAX (sp_areas s)) as Hin by (eapply pool.pool_entries_elem; eauto).
  assert ((start <? a_end b) && (end_ >? a_start b) = false) as Hb.
  { apply not_true_iff_false. intros Ht. apply not_true_iff_false in Ho. apply Ho, existsb_exists. exists (i, b). split; [|exact Ht].
    apply list_elem_of_In. exact Hin. }
  unfold disjoint. simpl. apply andb_false_iff in Hb. destruct Hb; lia.
Qed.

(** The [mem_map] operations: the area is added, disjoint from all others. *)
Lemma passert_ensures b : ensures (passert b) (fun _ => b = true).
Proof. destruct b; reflexivity || exact I. Qed.

(** What every one of them checks first *)
Lemma map_checked {B} st h start end_ (k : outcome B) (Q : B -> Prop) : ok st ->
  (forall s ma, at_ st h s -> space_ok s ma -> (forall i b, ma !! i = Some b -> forall t f n, disjoint (mk_area start end_ t f n) b) -> ensures k Q) ->
  ensures (o ← overlaps_existing_area st h start end_; passert (negb o);; k) Q.
Proof.
  intros Hok Hk. pose proof (get_space_at st h Hok) as Hg. destruct (get_space st h) as [s| | |] eqn:E;
    [|unfold overlaps_existing_area; rewrite E; exact I..].
  destruct (at_space_ok st h s Hg) as [ma Hso]. eapply ensures_bind; [exact (no_overlap st h s ma start end_ Hg Hso)|].
  intros o Ho. eapply ensures_bind; [apply passert_ensures|]. intros [] Hb. apply (Hk s ma Hg Hso), Ho. destruct o; [discriminate|reflexivity].
Qed.

Lemma mem_map_linear_ok st h start end_ phys flags : ok st ->
  ensures (mem_map_linear st h start end_ phys flags) (fun r => exists k, added st h (mk_area start end_ AREA_LINEAR_MAP flags k) r.1 r.2).
Proof.
  intros Hok. apply map_checked; [exact Hok|]. intros s ma Hat Hso Hd.
  eapply ensures_bind; [exact (add_linear_at st h s ma phys Hat Hso)|]. intros [st1 k] (s1 & Hat1 & Hso1 & Hl & _).
  eapply ensures_mono; [apply (add_area_at st1 h s1 ma); [exact Hat1|exact Hso1|]|].
  - split; [intros; eapply Hd; eauto|]. simpl. split; [auto|]. split; [discriminate|auto].
  - intros [st2 j] (s2 & Hat2 & Hso2 & Hj). exists k, s, s2, ma. auto.
Qed.

Lemma mem_map_alloc_ok st h start end_ flags : ok st ->
  ensures (mem_map_alloc st h start end_ flags) (fun r => added st h (mk_area start end_ AREA_ALLOC flags 0) r.1 r.2).
Proof.
  intros Hok. apply map_checked; [exact Hok|]. intros s ma Hat Hso Hd.
  eapply ensures_mono; [apply (add_area_at st h s ma); [exact Hat|exact Hso|]|].
  - split; [intros; eapply Hd; eauto|]. simpl. split; [discriminate|]. split; [discriminate|auto].
  - intros [st2 j] (s2 & Hat2 & Hso2 & Hj). exists s, s2, ma. auto.
Qed.

Lemma mem_map_fd_ok st h start end_ fd offset size flags : ok st ->
  ensures (mem_map_fd st h start end_ fd offset size flags) (fun r => exists k, added st h (mk_area start end_ AREA_FILE flags k) r.1 r.2).
Proof.
  intros Hok. apply map_checked; [exact Hok|]. intros s ma Hat Hso Hd.
  eapply ensures_bind; [apply passert_ensures|]. intros ? _.
  eapply ensures_bind; [exact (add_file_at st h s ma _ Hat Hso)|]. intros [st1 k] (s1 & Hat1 & Hso1 & Hl & _).
  eapply ensures_mono; [apply (add_area_at st1 h s1 ma); [exact Hat1|exact Hso1|]|].
  - split; [intros; eapply Hd; eauto|]. simpl. split; [discriminate|]. split; auto.
  - intros [st2 j] (s2 & Hat2 & Hso2 & Hj). exists k, s, s2, ma. auto.
Qed.

Lemma mem_map_linear_eager_ok st h start end_ phys flags : ok st ->
  ensures (mem_map_linear_eager st h start end_ phys flags) (fun r => exists k, added st h (mk_area start end_ AREA_LINEAR_MAP flags k) r.1 r.2).
Proof.
  intros Hok. apply map_checked; [exact Hok|]. intros s ma Hat Hso Hd.
  eapply ensures_bind; [apply eager_loop_keeps|]. intros st0 Hk. pose proof (at_keep _ _ _ _ Hk Hat) as Hat0.
  eapply ensures_bind; [exact (add_linear_at st0 h s ma phys Hat0 Hso)|]. intros [st1 k] (s1 & Hat1 & Hso1 & Hl & _).
  eapply ensures_mono; [apply (add_area_at st1 h s1 ma); [exact Hat1|exact Hso1|]|].
  - split; [intros; eapply Hd; eauto|]. simpl. split; [auto|]. split; [discriminate|auto].
  - intros [st2 j] (s2 & Hat2 & Hso2 & Hj). exists k, s, s2, ma. auto.
Qed.

Lemma added_ok st h a st' k : added st h a st' k -> ok st'.
Proof. intros (s & s' & ma & _ & _ & H & _). eapply at_ok, H. Qed.

(** Removing an area *)
Lemma space_ok_delete s ma p k : space_ok s ma -> fpm 32 p (delete k ma) ->
  space_ok (mk_space (sp_page_dir s) p (sp_linear_maps s) (sp_file_maps s)) (delete k ma).
Proof.
  intros [Ha Hd (ml & Hml & Hl) (mf & Hmf & Hf) Ht] Hp.
  assert (forall i b, delete k ma !! i = Some b -> ma !! i = Some b) as Hsub by (intros i b Hi; apply lookup_delete_Some in Hi; tauto).
  constructor; cbn [sp_areas sp_linear_maps sp_file_maps]; eauto 8.
Qed.

Lemma unmap_area_ok st h k : ok st -> ensures (unmap_area st h k) ok.
Proof.
  intros Hok. unfold unmap_area. eapply ensures_bind; [apply (get_space_at st h Hok)|]. intros s Hat.
  eapply ensures_bind; [apply ensures_eq|]. intros a Ha. eapply ensures_bind; [apply unmap_loop_keeps|]. intros st1 Hk.
  pose proof (at_keep _ _ _ _ Hk Hat) as Hat1. rewrite (at_get _ _ _ Hat1), mbind_Ret. destruct (at_space_ok _ _ _ Hat1) as [ma Hso].
  pose proof (fpm_get _ _ _ k (so_areas _ _ Hso)) as Hg. rewrite Ha in Hg. destruct (ma !! k) as [a'|] eqn:Hm; [|discriminate].
  destruct (fpm_erase _ _ _ _ _ (so_areas _ _ Hso) Hm) as (p & -> & Hp). rewrite mbind_Ret.
  pose proof (space_ok_delete s ma p k Hso Hp) as Hso'.
  destruct (update_space_at st1 h s (fun s => mk_space (sp_page_dir s) p (sp_linear_maps s) (sp_file_maps s)) _ Hat1 Hso') as (st' & -> & Hat').
  exact (at_ok _ _ _ Hat').
Qed.

Lemma unmap_areas_loop_ok fuel keep : forall st h i, ok st -> ensures (unmap_areas_loop fuel st h i keep) ok.
Proof.
  induction fuel as [|fuel IH]; intros st h i Hok; simpl; [exact I|]. eapply ensures_bind; [apply ensures_eq|]. intros s _.
  case_match; [|exact Hok]. eapply ensures_bind; [|intros st1 Hok1; apply IH, Hok1].
  case_match; [exact Hok|]. eapply ensures_bind; [apply ensures_eq|]. intros a _. case_match; [exact Hok|]. apply unmap_area_ok, Hok.
Qed.

Lemma new_space_ok x : space_ok (new_space x) ∅.
Proof.
  split; try (intros *; rewrite lookup_empty; discriminate).
  - apply fpm_new. unfold U16_MAX. lia.
  - exists ∅. split; [apply fpm_new; unfold U16_MAX; lia|]. intros *. rewrite lookup_empty. discriminate.
  - exists ∅. split; [apply fpm_new; unfold U16_MAX; lia|]. intros *. rewrite lookup_empty. discriminate.
Qed.

Lemma mem_create_space_ok st : ok st -> ensures (mem_create_space st) (fun r => ok r.1).
Proof.
  intros (SM & Hp & H). unfold mem_create_space, alloc_dir. destruct (page_allocator.alloc_page _) as [[a x]| | |]; [|exact I..].
  rewrite !mbind_Ret. eapply ensures_bind; [apply ensures_eq|]. intros [p h] E. destruct (fpm_emplace_inv _ _ _ _ _ _ Hp E) as (Hp' & _).
  simpl. eexists. split; [exact Hp'|]. intros h' s' Hs'. apply lookup_insert_Some in Hs'. destruct Hs' as [[_ <-]|[_ Hs']]; [|eauto].
  exists ∅. apply new_space_ok.
Qed.

Lemma mem_destroy_space_ok st h : ok st -> ensures (mem_destroy_space st h) ok.
Proof.
  intros Hok. unfold mem_destroy_space. eapply ensures_bind; [apply ensures_eq|]. intros ? _.
  eapply ensures_bind; [apply unmap_areas_loop_ok, Hok|]. intros st1 Hok1. eapply ensures_bind; [apply (get_space_at st1 h Hok1)|]. intros s Hat.
  eapply ensures_bind; [apply free_tables_loop_keeps|]. intros st2 Hk. destruct (page_allocator.free_page _ _); [|exact I..]. rewrite mbind_Ret.
  apply (at_keep _ _ _ _ Hk) in Hat. destruct Hat as (SM & Hp & H & Hs). cbn [spaces set_dir_alloc].
  destruct (fpm_erase _ _ _ _ _ Hp Hs) as (p & -> & Hp'). rewrite mbind_Ret. simpl. eexists. split; [exact Hp'|].
  intros h' s' Hs'. apply lookup_delete_Some in Hs'. eapply H, Hs'.
Qed.

Lemma copy_area_ok st ps a src h : ok st -> ensures (copy_area st ps a src h) ok.
Proof.
  intros Hok. unfold copy_area. repeat case_match; try exact Hok.
  - eapply ensures_bind; [apply ensures_eq|]. intros info _. eapply ensures_bind; [apply mem_map_linear_ok, Hok|]. intros [st1 k] (n & Hadd).
    eapply ensures_mono; [apply copy_linear_loop_keeps|]. intros st2 Hk. eapply ok_keep; [exact Hk|]. eapply added_ok, Hadd.
  - eapply ensures_bind; [apply ensures_eq|]. intros info _. eapply ensures_bind; [apply mem_map_fd_ok, Hok|]. intros [st1 k] (n & Hadd).
    eapply added_ok, Hadd.
  - eapply ensures_bind; [apply mem_map_alloc_ok, Hok|]. intros [st1 k] Hadd.
    eapply ensures_mono; [apply copy_alloc_loop_keeps|]. intros st2 Hk. eapply ok_keep; [exact Hk|]. eapply added_ok, Hadd.
Qed.

Lemma fork_areas_ok l : forall st ps src h, ok st -> ensures (fork_areas st ps l src h) ok.
Proof.
  induction l as [|[i a] l IH]; intros st ps src h Hok; simpl; [exact Hok|].
  eapply ensures_bind; [|intros st1 Hok1; apply IH, Hok1]. case_match; [exact Hok|]. apply copy_area_ok, Hok.
Qed.

Lemma mem_fork_space_ok st ps h : ok st -> ensures (mem_fork_space st ps h) (fun r => ok r.1).
Proof.
  intros Hok. unfold mem_fork_space. eapply ensures_bind; [apply ensures_eq|]. intros s _.
  eapply ensures_bind; [apply mem_create_space_ok, Hok|]. intros [st1 n] Hok1.
  eapply ensures_bind; [apply fork_areas_ok, Hok1|]. intros st2 Hok2. exact Hok2.
Qed.

Lemma map_segments_ok l : forall st h cur last, ok st -> ensures (map_segments st h l cur last) ok.
Proof.
  induction l as [|[v f] l IH]; intros st h cur last Hok; simpl; [exact Hok|].
  eapply ensures_bind; [|intros st1 Hok1; apply IH, Hok1]. case_match; [|exact Hok].
  eapply ensures_bind; [apply mem_map_linear_eager_ok, Hok|]. intros [st1 k] (n & Hadd). eapply ensures_bind; [apply passert_ensures|].
  intros ? _. eapply added_ok, Hadd.
Qed.

Lemma find_area_loop_Some l address i : find_area_loop l address = Some i -> exists a, (i, a) ∈ l /\ covers a address.
Proof.
  induction l as [|[j b] l IH]; simpl; [discriminate|]. destruct ((address >=? a_start b) && (address <? a_end b)) eqn:E.
  - intros H. injection H as <-. exists b. split; [apply list_elem_of_here|]. unfold covers. lia.
  - intros H. destruct (IH H) as (a & Ha & Hc). exists a. split; [apply list_elem_of_further, Ha|exact Hc].
Qed.

Lemma find_area_loop_None l address : find_area_loop l address = None -> forall i a, (i, a) ∈ l -> ~ covers a address.
Proof.
  induction l as [|[j b] l IH]; simpl; intros H i a Hin; [apply elem_of_nil in Hin; destruct Hin|].
  destruct ((address >=? a_start b) && (address <? a_end b)) eqn:E; [discriminate|]. apply elem_of_cons in Hin. destruct Hin as [Heq|Hin]; [|eauto].
  injection Heq as -> ->. unfold covers. lia.
Qed.

(** [mem_find_area] finds the one area that holds the address. *)
Lemma find_area_spec st h s ma address : at_ st h s -> space_ok s ma ->
  exists r, mem_find_area st h address = Ret r /\ forall i, r = Some i <-> exists a, ma !! i = Some a /\ covers a address.
Proof.
  intros Hat Hso. unfold mem_find_area. rewrite (at_get _ _ _ Hat), mbind_Ret. eexists. split; [reflexivity|].
  destruct (so_areas _ _ Hso) as [[fl Hr] _]. intros i.
  assert (forall j b, (j, b) ∈ pool.entries U16_MAX (sp_areas s) <-> ma !! j = Some b) as Hel by (intros; eapply pool.pool_entries_elem; eauto).
  destruct (find_area_loop _ address) as [j|] eqn:E.
  - destruct (find_area_loop_Some _ _ _ E) as (b & Hb & Hc). apply Hel in Hb. split; [intros [= <-]; eauto|].
    intros (a & Ha & Hca). destruct (decide (i = j)) as [->|Hne]; [reflexivity|exfalso].
    pose proof (so_disjoint _ _ Hso i a j b Ha Hb Hne). unfold disjoint, covers in *. lia.
  - split; [discriminate|]. intros (a & Ha & Hc). exfalso. apply (find_area_loop_None _ _ E i a); [apply Hel, Ha|exact Hc].
Qed.

End spaces.

(** ** All operations *)

Section run.
Context {V : Type}.
Variable seek : Z -> Z -> Z -> V -> outcome (V * Z).
Variable read : Z -> Z -> V -> outcome (V * res (Z * list Z)).
Implicit Type st : t V.

Inductive step : t V -> t V -> Prop :=
| S_create st st' h : mem_create_space st = Ret (st', h) -> step st st'
| S_destroy st st' h : mem_destroy_space st h = Ret st' -> step st st'
| S_linear st st' h a b p f k : mem_map_linear st h a b p f = Ret (st', k) -> step st st'
| S_eager st st' h a b p f k : mem_map_linear_eager st h a b p f = Ret (st', k) -> step st st'
| S_alloc st st' h a b f k : mem_map_alloc st h a b f = Ret (st', k) -> step st st'
| S_fd st st' h a b fd o n f k : mem_map_fd st h a b fd o n f = Ret (st', k) -> step st st'
| S_mmap st st' a b fd o f r : syscall_mmap st a b fd o f = Ret (st', r) -> step st st'
| S_unmap st st' h k : unmap_area st h k = Ret st' -> step st st'
| S_unmap_not_matching st st' h f : mem_unmap_not_matching st h f = Ret st' -> step st st'
| S_fork st st' ps h k : mem_fork_space st ps h = Ret (st', k) -> step st st'
| S_map_page st st' h virt phys f : map_page st h virt phys f = Ret st' -> step st st'
| S_write st st' h virt data : mem_write_page st h virt data = Ret st' -> step st st'
| S_portal st st' virt n h dest f r : mem_map_portal st virt n h dest f = Ret (st', r) -> step st st'
| S_unportal st st' virt n : mem_unmap_portal st virt n = Ret st' -> step st st'
| S_fault st st' code address r : int_page_fault seek read st code address = Ret (st', r) -> step st st'
| S_activate st st' h cr3 : mem_activate_space st h = Ret (st', cr3) -> step st st'
| S_current st h : step st (mem_set_current_space st h)
| S_kernel st st' h f ro_start ro_end kend mlast : mem_map_kernel st h f ro_start ro_end kend mlast = Ret st' -> step st st'.

Inductive reach : t V -> Prop :=
| R_boot st : spaces st = new_fixed_pool 128 -> reach st
| R_step st st' : reach st -> step st st' -> reach st'.

Lemma ensures_keep {A} st (m : outcome (t V * A)) st' x : ok st -> keeps st m -> m = Ret (st', x) -> ok st'.
Proof. intros Hok Hk ->. exact (ok_keep _ _ Hk Hok). Qed.

Lemma ensures_keep_ st (m : outcome (t V)) st' : ok st -> keeps_ st m -> m = Ret st' -> ok st'.
Proof. intros Hok Hk ->. exact (ok_keep _ _ Hk Hok). Qed.

Lemma ensures_added st h a (m : outcome (t V * Z)) st' k : ensures m (fun r => added st h a r.1 r.2) -> m = Ret (st', k) -> ok st'.
Proof. intros H ->. exact (added_ok _ _ _ _ _ H). Qed.

Lemma ensures_added_ex st h (a : Z -> area_info) (m : outcome (t V * Z)) st' k : ensures m (fun r => exists n, added st h (a n) r.1 r.2) -> m = Ret (st', k) -> ok st'.
Proof. intros H ->. destruct H as [n H]. exact (added_ok _ _ _ _ _ H). Qed.

Lemma step_ok st st' : ok st -> step st st' -> ok st'.
Proof.
  intros Hok Hs. destruct Hs as [st st' h E|st st' h E|st st' h a b p f k E|st st' h a b p f k E|st st' h a b f k E|st st' h a b fd o n f k E
    |st st' a b fd o f r E|st st' h k E|st st' h f E|st st' ps h k E|st st' h virt phys f E|st st' h virt data E|st st' virt n h dest f r E
    |st st' virt n E|st st' code address r E|st st' h cr3 E|st h|st st' h f r1 r2 kend mlast E].
  - exact (ensures_elim _ _ _ (mem_create_space_ok st Hok) E).
  - exact (ensures_elim _ _ _ (mem_destroy_space_ok st h Hok) E).
  - exact (ensures_added_ex _ _ _ _ _ _ (mem_map_linear_ok st h a b p f Hok) E).
  - exact (ensures_added_ex _ _ _ _ _ _ (mem_map_linear_eager_ok st h a b p f Hok) E).
  - exact (ensures_added _ _ _ _ _ _ (mem_map_alloc_ok st h a b f Hok) E).
  - exact (ensures_added_ex _ _ _ _ _ _ (mem_map_fd_ok st h a b fd o n f Hok) E).
  - unfold syscall_mmap in E. bind_ret E. destruct a0 as [st1 k]. injection E as <- _.
    exact (ensures_added_ex _ _ _ _ _ _ (mem_map_fd_ok st _ a b fd o _ _ Hok) Es).
  - exact (ensures_elim _ _ _ (unmap_area_ok st h k Hok) E).
  - exact (ensures_elim _ _ _ (unmap_areas_loop_ok _ _ st h 0 Hok) E).
  - exact (ensures_elim _ _ _ (mem_fork_space_ok st ps h Hok) E).
  - exact (ensures_keep_ _ _ _ Hok (map_page_keeps _ _ _ _ _) E).
  - exact (ensures_keep_ _ _ _ Hok (mem_write_page_keeps _ _ _ _) E).
  - exact (ensures_keep _ _ _ _ Hok (mem_map_portal_keeps _ _ _ _ _ _) E).
  - exact (ensures_keep_ _ _ _ Hok (mem_unmap_portal_keeps _ _ _) E).
  - exact (ensures_keep _ _ _ _ Hok (int_page_fault_keeps _ _ _ _ _) E).
  - unfold mem_activate_space in E. bind_ret E. injection E as <- _. exact Hok.
  - exact Hok.
  - unfold mem_map_kernel in E. destruct (user_space_allocator st); [|discriminate]. exact (ensures_elim _ _ _ (map_segments_ok _ st h 0 0 Hok) E).
Qed.

Lemma reach_ok st : reach st -> ok st.
Proof.
  induction 1 as [st E|st st' _ IH Hs]; [|eapply step_ok; eauto]. exists ∅. rewrite E. split; [apply fpm_new; unfold U16_MAX; lia|].
  intros *. rewrite lookup_empty. discriminate.
Qed.

End run.

(** A space with a data area and a device *)
Definition demo_areas : outcome (t unit) :=
  '(st, h) ← mem_create_space paging.demo_boot;
  '(st, _) ← mem_map_alloc st h 0x1000 0x3000 MEM_AREA_READWRITE;
  '(st, _) ← mem_map_linear st h 0x3000 0x4000 0xB8000 MEM_AREA_READWRITE;
  Ret (set_current st h).

Lemma demo_areas_reach seek read st : demo_areas = Ret st -> reach seek read st.
Proof.
  intros E. unfold demo_areas in E. bind_ret E. destruct a as [st1 h]. bind_ret E. destruct a as [st2 k]. bind_ret E. destruct a as [st3 j].
  injection E as <-.
  apply (R_step _ _ st3); [|apply S_current]. apply (R_step _ _ st2); [|eapply S_linear; eauto]. apply (R_step _ _ st1); [|eapply S_alloc; eauto].
  apply (R_step _ _ paging.demo_boot); [|eapply S_create; eauto]. apply R_boot. reflexivity.
Qed.
End areas.

(** C38: whatever sequence of memory operations the kernel performs (creating,
    forking and destroying spaces, mapping and unmapping areas, page faults,
    portals, writes into other spaces), the areas of every address space stay
    pairwise disjoint, an address lies in at most one of them and
    [mem_find_area] finds exactly that one, and the linear map or file map an
    area refers to exists, so the page fault handler never reads a record
    that is not there. *)
Theorem memory_areas_disjoint {V} seek read (st : memory.t V) h s :
  areas.reach seek read st -> memory.get_space st h = Ret s ->
  exists ma : gmap Z memory.area_info,
    (forall i, pool.at_ U16_MAX (memory.sp_areas s) i = ma !! i) /\
    (forall i a j b, ma !! i = Some a -> ma !! j = Some b -> i <> j -> areas.disjoint a b) /\
    (forall address, exists r, memory.mem_find_area st h address = Ret r /\
       forall i, r = Some i <-> exists a, ma !! i = Some a /\ areas.covers a address) /\
    (forall i a, ma !! i = Some a ->
       (memory.a_type a = memory.AREA_LINEAR_MAP /\ exists r, pool.get U16_MAX (memory.sp_linear_maps s) (memory.a_info a) = Ret r) \/
       memory.a_type a = memory.AREA_ALLOC \/
       (memory.a_type a = memory.AREA_FILE /\ exists r, pool.get U16_MAX (memory.sp_file_maps s) (memory.a_info a) = Ret r)).
Proof.
  intros Hr Hg. pose proof (ensures_elim _ _ _ (areas.get_space_at st h (areas.reach_ok _ _ st Hr)) Hg) as Hat.
  destruct (areas.at_space_ok _ _ _ Hat) as [ma Hso]. exists ma.
  split; [intros i; apply fpm_at with (cap := 32), Hso|]. split; [apply Hso|]. split; [intros; apply (areas.find_area_spec st h s ma); assumption|].
  intros i a Hi. destruct Hso as [_ _ (ml & Hml & Hl) (mf & Hmf & Hf) Ht]. destruct (Ht i a Hi) as [E|[E|E]]; [left|right; left; exact E|right; right]; split; try exact E.
  - destruct (Hl i a Hi E) as [v Hv]. exists v. rewrite (fpm_get _ _ _ _ Hml), Hv. reflexivity.
  - destruct (Hf i a Hi E) as [v Hv]. exists v. rewrite (fpm_get _ _ _ _ Hmf), Hv. reflexivity.
Qed.

Lemma memory_areas_disjoint_witness : exists st s (ma : gmap Z memory.area_info), areas.demo_areas = Ret st /\ memory.get_space st 0 = Ret s /\
  memory.mem_find_area st 0 0x2FFF = Ret (Some 0) /\ memory.mem_find_area st 0 0x3000 = Ret (Some 1) /\
  memory.mem_find_area st 0 0x4000 = Ret None /\
  (forall i, pool.at_ U16_MAX (memory.sp_areas s) i = ma !! i) /\
  forall i a j b, ma !! i = Some a -> ma !! j = Some b -> i <> j -> areas.disjoint a b.
Proof.
  destruct areas.demo_areas as [st| | |] eqn:E; [|vm_compute in E; discriminate..].
  destruct (memory.get_space st 0) as [s| | |] eqn:Es;
    [|exfalso; revert Es; replace st with (match areas.demo_areas with Ret s => s | _ => paging.demo_boot end) by (rewrite E; reflexivity); vm_compute; discriminate..].
  destruct (memory_areas_disjoint (fun _ _ _ v => Ret (v, 0)) (fun _ _ v => Ret (v, kdefs.failure 0)) st 0 s) as (ma & Hma & Hd & _);
    [apply areas.demo_areas_reach, E|exact Es|].
  exists st, s, ma. split; [reflexivity|]. split; [exact Es|].
  split; [|split; [|split; [|split; assumption]]];
    replace st with (match areas.demo_areas with Ret s => s | _ => paging.demo_boot end) by (rewrite E; reflexivity); vm_compute; reflexivity.
Defined.
