(* ===== verification/MemoryFaults.v ===== *)
(** * Page faults

    A fault inside an area gives the process a fresh page: zeroed, or filled
    from the mapped file, with the permissions of the area; nothing else
    changes. *)

From S2P Require Import Prelude Pool PageAlloc KernelDefs Memory MemoryFacts MemoryAreas.
From stdpp Require Import gmap.
#[local] Open Scope Z_scope.

Module faults.
Import kdefs memory.

(** ** Flags and frames *)

Lemma page_flags_ext f g : (forall b, b ∈ [MEM_AREA_READWRITE; MEM_AREA_USER; MEM_AREA_CACHE_DISABLED; MEM_AREA_GLOBAL] -> has f b = has g b) ->
  page_flags f = page_flags g.
Proof. intros H. unfold page_flags. rewrite !H by set_solver. reflexivity. Qed.

Lemma page_flags_range f : 0 <= page_flags f < 2 ^ 12 /\ Z.odd (page_flags f) = true /\ has (page_flags f) MEM_PE_RW = has f MEM_AREA_READWRITE.
Proof. unfold page_flags. repeat case_match; vm_compute; repeat split; reflexivity || discriminate. Qed.

Lemma has_lor f g b k : 0 <= k -> b = 2 ^ k -> has (Z.lor f g) b = has f b || has g b.
Proof. intros Hk ->. rewrite !paging.has_testbit by exact Hk. apply Z.lor_spec. Qed.

Lemma has_land f g b k : 0 <= k -> b = 2 ^ k -> has (Z.land f g) b = has f b && has g b.
Proof. intros Hk ->. rewrite !paging.has_testbit by exact Hk. apply Z.land_spec. Qed.

(** The flags of the page are those of the area, before and after the page is filled. *)
Lemma page_flags_writable f : has f MEM_AREA_READWRITE = true -> page_flags (Z.lor f MEM_AREA_READWRITE) = page_flags f.
Proof.
  intros H. apply page_flags_ext. intros b Hb. rewrite !elem_of_cons, elem_of_nil in Hb.
  destruct Hb as [-> | [-> | [-> | [-> | []]]]];
    [rewrite (has_lor _ _ _ 0)|rewrite (has_lor _ _ _ 2)|rewrite (has_lor _ _ _ 3)|rewrite (has_lor _ _ _ 4)]; try reflexivity; try lia;
    rewrite ?H; apply orb_false_r || reflexivity.
Qed.

Lemma page_flags_readonly f : has f MEM_AREA_READWRITE = false -> page_flags (Z.land f (Z.lnot MEM_AREA_READWRITE)) = page_flags f.
Proof.
  intros H. apply page_flags_ext. intros b Hb. rewrite !elem_of_cons, elem_of_nil in Hb.
  destruct Hb as [-> | [-> | [-> | [-> | []]]]];
    [rewrite (has_land _ _ _ 0)|rewrite (has_land _ _ _ 2)|rewrite (has_land _ _ _ 3)|rewrite (has_land _ _ _ 4)]; try reflexivity; try lia;
    rewrite ?H; apply andb_true_r || reflexivity.
Qed.

Lemma writable_flags f : has (page_flags (Z.lor f MEM_AREA_READWRITE)) MEM_PE_RW = true.
Proof. rewrite (proj2 (proj2 (page_flags_range _))), (has_lor _ _ _ 0) by (lia || reflexivity). apply orb_true_r. Qed.

Lemma pte_frame_page x fl : 0 <= x < 2 ^ 32 -> x mod 4096 = 0 -> pte_frame (mk_pte fl (frame20 (Z.shiftr x 12))) = x.
Proof.
  intros Hx Ha. unfold pte_frame, frame20. cbn [e_frame]. rewrite Z.shiftr_div_pow2, Z.shiftl_mul_pow2 by lia.
  rewrite (Z.mod_small (x / 2 ^ 12)) by (split; [apply Z.div_pos; lia|apply Z.div_lt_upper_bound; lia]).
  replace (x / 2 ^ 12 * 2 ^ 12) with x by (change (2 ^ 12) with 4096; pose proof (Z.div_mod x 4096); lia). apply u32_small. exact Hx.
Qed.

Lemma align_down_page v : 0 <= v < 2 ^ 32 ->
  0 <= ALIGN_DOWN v 0x1000 < 2 ^ 32 /\ ALIGN_DOWN v 0x1000 mod 4096 = 0 /\ ALIGN_DOWN v 0x1000 / 4096 = v / 4096.
Proof.
  intros Hv. assert (ALIGN_DOWN v 0x1000 = v / 4096 * 4096) as ->.
  { unfold ALIGN_DOWN. change (0x1000 - 1) with (Z.ones 12). rewrite <-Z.ldiff_land, Z.ldiff_ones_r, Z.shiftr_div_pow2, Z.shiftl_mul_pow2 by lia. reflexivity. }
  pose proof (Z.div_mod v 4096). pose proof (Z.mod_pos_bound v 4096). pose proof (Z.div_pos v 4096).
  split; [lia|]. split; [apply Z_mod_mult|]. rewrite Z.div_mul by lia. reflexivity.
Qed.

(** ** Memory *)

(** The page at [x] holds [data] followed by zeros; the rest of memory is as before. *)
Definition page_holds (before after : Z -> Z) (x : Z) (data : list Z) : Prop :=
  forall y, after y = if decide (x <= y < x + 4096) then default 0 (znth data (y - x)) else before y.

Lemma zero_page_written r x : page_holds r (write_bytes r x zero_page) x [].
Proof.
  intros y. unfold write_bytes. case_decide as Hy.
  - unfold zero_page. rewrite znth_replicate by lia. symmetry. rewrite znth_ge_None by (unfold zlen; simpl; lia). reflexivity.
  - destruct (znth zero_page (y - x)) as [b|] eqn:E; [|reflexivity]. apply znth_Some_lt in E. unfold zero_page in E. rewrite zlen_replicate in E. lia.
Qed.

Lemma data_written r r1 x data : page_holds r r1 x [] -> zlen data <= 4096 -> page_holds r (write_bytes r1 x data) x data.
Proof.
  intros H Hl y. unfold write_bytes. rewrite (H y). destruct (znth data (y - x)) as [b|] eqn:E.
  - apply znth_Some_lt in E. rewrite decide_True by lia. reflexivity.
  - case_decide; [|reflexivity]. rewrite znth_ge_None by (unfold zlen; simpl; lia). reflexivity.
Qed.

Section facts.
Context {V : Type}.
Implicit Type st : t V.

(** A store through a mapping that allows it *)
Lemma store_page_ok st SM ND NT DA TA h s virt data e : paging.wf st SM ND NT DA TA -> SM !! h = Some s -> 0 <= virt < 2 ^ 32 ->
  write_allowed st s virt = Ret true -> paging.walk st s virt = Some e ->
  store_page st h virt data = Ret (set_ram st (write_bytes (ram st) (pte_frame e) data)).
Proof.
  intros Hwf Hs Hv Hw He. unfold store_page, get_space. rewrite (fpm_get _ _ _ _ (paging.wf_spaces _ _ _ _ _ _ Hwf)), Hs, mbind_Ret, Hw, mbind_Ret.
  rewrite (paging.find_pte_walk _ _ _ _ _ _ h s virt Hwf Hs Hv), mbind_Ret, He. reflexivity.
Qed.

(** States that agree on everything page tables are made of *)
Lemma wf_same st st' SM ND NT DA TA : spaces st' = spaces st -> page_dir_allocator st' = page_dir_allocator st ->
  page_table_allocator st' = page_table_allocator st -> tables st' = tables st -> paging.wf st SM ND NT DA TA -> paging.wf st' SM ND NT DA TA.
Proof.
  intros H1 H2 H3 H4 []. assert (forall p i, paging.entry st' p i = paging.entry st p i) as He by (intros; unfold paging.entry; rewrite H4; reflexivity).
  constructor; rewrite ?H1, ?H2, ?H3, ?H4; auto.
  - intros h s i e Hs. rewrite He. eauto.
  - intros h s i e h' s' i' e' Hs Hs'. rewrite !He. eauto.
Qed.

Lemma walk_same st st' s virt : tables st' = tables st -> paging.walk st' s virt = paging.walk st s virt.
Proof. intros H. unfold paging.walk, paging.entry. rewrite H. reflexivity. Qed.

(** The state after a fault of the current space at [page]: page [x], which
    nobody held, is mapped there and holds [data]. *)
Record filled st st' (SM : gmap Z space_info) (ND NT : Z) (DA TA : gset Z) (N : Z) (A : gset Z) (page x fl : Z) (data : list Z) : Prop := {
  fi_wf : exists TA', paging.wf st' SM ND NT DA TA' /\ forall y, y ∈ TA -> y ∈ TA';
  fi_user : exists u, user_space_allocator st' = Some u /\ page_allocator.rep u N ({[x]} ∪ A);
  fi_fresh : x ∉ A;
  fi_page : 0 <= x < 2 ^ 32 /\ x mod 4096 = 0;
  fi_ram : page_holds (ram st) (ram st') x data;
  fi_spaces : spaces st' = spaces st;
  fi_current : current_space st' = current_space st;
  fi_walk : forall h' s' virt', SM !! h' = Some s' -> 0 <= virt' < 2 ^ 32 ->
    paging.walk st' s' virt' = if decide (h' = current_space st /\ virt' / 4096 = page / 4096)
                               then Some (mk_pte fl (frame20 (Z.shiftr x 12))) else paging.walk st s' virt'
}.

(** What the handlers start with: a space, a free page, and a table page if one is needed *)
Record ready st (SM : gmap Z space_info) (ND NT : Z) (DA TA : gset Z) (N : Z) (A : gset Z) (s : space_info) (page : Z) : Prop := {
  re_wf : paging.wf st SM ND NT DA TA;
  re_space : SM !! current_space st = Some s;
  re_page : 0 <= page < 2 ^ 32 /\ page mod 4096 = 0;
  re_user : exists u, user_space_allocator st = Some u /\ page_allocator.rep u N A;
  re_free : Z.of_nat (base.size A) < N;
  re_table : paging.table_missing st s page = true -> Z.of_nat (base.size TA) < NT
}.

Lemma fresh_page st SM ND NT DA TA N A s page f : ready st SM ND NT DA TA N A s page ->
  exists st1 st2 st3 x, alloc_page st = Ret (st1, x) /\
    map_page st1 (current_space st1) page x (page_flags (Z.lor f MEM_AREA_READWRITE)) = Ret st2 /\
    store_page st2 (current_space st2) page zero_page = Ret st3 /\
    filled st st3 SM ND NT DA TA N A page x (page_flags (Z.lor f MEM_AREA_READWRITE)) [] /\
    write_allowed st3 s page = Ret true /\ vstate st3 = vstate st.
Proof.
  intros [Hwf Hs [Hp Hpa] (u & Hu & Hrep) Hfree Htab].
  destruct (page_allocator.pa_alloc _ _ _ Hrep Hfree) as (u' & x & Ha & Hrep' & Hx & Hpg & _).
  destruct (paging.page_range _ _ _ _ Hrep Hpg) as [Hxr Hxa]. pose proof (proj1 (page_allocator.rep_base _ _ _ Hrep)) as H0.
  set (st1 := set_user_alloc st (Some u')). assert (paging.wf st1 SM ND NT DA TA) as Hwf1 by (apply (wf_same st); auto).
  destruct (page_flags_range (Z.lor f MEM_AREA_READWRITE)) as (Hfl & Hodd & _). set (fl := page_flags (Z.lor f MEM_AREA_READWRITE)) in *.
  destruct (paging.map_page_mapped st1 SM ND NT DA TA (current_space st1) s page x fl) as (st2 & E2 & TA' & Hwf2 & Hsub & Hout & Hw & Hrw); try assumption.
  { intros Hm _. apply Htab. exact Hm. }
  assert (paging.walk st2 s page = Some (mk_pte fl (frame20 (Z.shiftr x 12)))) as Hw2.
  { rewrite (Hw (current_space st1) s page Hs Hp), decide_True, Hodd by auto. unfold flags12. rewrite Z.mod_small by exact Hfl. reflexivity. }
  pose proof (Hrw ltac:(rewrite paging.has_P; exact Hodd) (writable_flags f) s Hs) as Hal. destruct Hout as [O1 O2 O3 O4 O5 O6].
  exists st1, st2, (set_ram st2 (write_bytes (ram st2) x zero_page)), x. unfold alloc_page. rewrite Hu, Ha, mbind_Ret.
  split; [reflexivity|]. split; [exact E2|]. split; [|split; [|split; [exact Hal|exact O6]]].
  - rewrite O4. rewrite (store_page_ok st2 SM ND NT DA TA' (current_space st1) s page zero_page _ Hwf2 Hs Hp Hal Hw2).
    rewrite pte_frame_page by (assumption || lia). reflexivity.
  - constructor; cbn [user_space_allocator ram spaces current_space set_ram]; try assumption.
    + exists TA'. split; [apply (wf_same st2); auto|exact Hsub].
    + exists u'. rewrite O3. auto.
    + split; [lia|exact Hxa].
    + rewrite O5. apply zero_page_written.
    + intros h' s' virt' Hs' Hv'. rewrite (walk_same st2) by reflexivity. rewrite (Hw h' s' virt' Hs' Hv'). change (current_space st1) with (current_space st).
      case_decide; [|reflexivity]. rewrite Hodd. unfold flags12. rewrite Z.mod_small by exact Hfl. reflexivity.
Qed.

Lemma walk_table st s virt e : paging.walk st s virt = Some e -> paging.table_missing st s virt = false.
Proof.
  unfold paging.walk, paging.table_missing. destruct (paging.entry st _ _) as [pde|]; [|reflexivity]. cbn [mbind option_bind].
  rewrite paging.has_P. destruct (Z.odd (e_flags pde)); [reflexivity|discriminate].
Qed.

(** The last step of the handlers: the page becomes read only if the area is. *)
Lemma seal_page st st3 SM ND NT DA TA N A s page x f data : ready st SM ND NT DA TA N A s page ->
  filled st st3 SM ND NT DA TA N A page x (page_flags (Z.lor f MEM_AREA_READWRITE)) data ->
  exists st', (if has f MEM_AREA_READWRITE then Ret st3
      else map_page st3 (current_space st3) page x (page_flags (Z.land f (Z.lnot MEM_AREA_READWRITE)))) = Ret st' /\
    filled st st' SM ND NT DA TA N A page x (page_flags f) data /\ vstate st' = vstate st3.
Proof.
  intros Hre Hfi. destruct (has f MEM_AREA_READWRITE) eqn:Hf.
  - exists st3. split; [reflexivity|]. rewrite <-(page_flags_writable f Hf). auto.
  - rewrite page_flags_readonly by exact Hf. destruct Hre as [_ Hs [Hp Hpa] _ _ _]. destruct Hfi as [(TA' & Hwf & Hsub) Hu Hx [Hxr Hxa] Hram Hsp Hc Hw].
    destruct (page_flags_range f) as (Hfl & Hodd & _).
    destruct (paging.map_page_mapped st3 SM ND NT DA TA' (current_space st3) s page x (page_flags f)) as (st' & E & TA2 & Hwf2 & Hsub2 & Hout & Hw2 & _); try assumption.
    { rewrite Hc. exact Hs. }
    { rewrite (walk_table st3 s page _ (eq_trans (Hw (current_space st) s page Hs Hp) (decide_True _ _ (conj eq_refl eq_refl)))). discriminate. }
    exists st'. split; [exact E|]. destruct Hout as [O1 O2 O3 O4 O5 O6]. split; [|exact O6]. constructor; try congruence; auto.
    + exists TA2. auto.
    + destruct Hu as (u & Hu & Hr). exists u. rewrite O3. auto.
    + rewrite O5. exact Hram.
    + intros h' s' virt' Hs' Hv'. rewrite (Hw2 h' s' virt' Hs' Hv'), Hc, Hodd. unfold flags12. rewrite Z.mod_small by exact Hfl.
      case_decide as Hd; [reflexivity|]. rewrite (Hw h' s' virt' Hs' Hv'), decide_False by exact Hd. reflexivity.
Qed.

Lemma page_fault_alloc_ok st SM ND NT DA TA N A s address a : ready st SM ND NT DA TA N A s (ALIGN_DOWN address 0x1000) ->
  exists st' x, page_fault_alloc st a address = Ret st' /\
    filled st st' SM ND NT DA TA N A (ALIGN_DOWN address 0x1000) x (page_flags (a_flags a)) [].
Proof.
  intros Hre. destruct (fresh_page st SM ND NT DA TA N A s _ (a_flags a) Hre) as (st1 & st2 & st3 & x & E1 & E2 & E3 & Hfi & _).
  destruct (seal_page _ _ _ _ _ _ _ _ _ _ _ _ _ _ Hre Hfi) as (st' & E4 & Hfi' & _).
  exists st', x. split; [|exact Hfi']. unfold page_fault_alloc. cbv zeta.
  rewrite E1, mbind_Ret, E2, mbind_Ret, E3, mbind_Ret. exact E4.
Qed.

Section file.
Variable seek : Z -> Z -> Z -> V -> outcome (V * Z).
Variable read : Z -> Z -> V -> outcome (V * res (Z * list Z)).

(** Where in the file the page starts, and how many bytes of it are read *)
Definition file_offset (a : area_info) (info : file_map_info) (address : Z) : Z :=
  u32 (ALIGN_DOWN address 0x1000 - a_start a + fm_offset info).
Definition read_count (a : area_info) (info : file_map_info) (address : Z) : Z :=
  Z.min (u32 (fm_offset info + fm_size info - file_offset a info address)) 0x1000.

(** The file system reads [data] there. *)
Definition file_reads (v : V) (a : area_info) (info : file_map_info) (address : Z) (v' : V) (data : list Z) : Prop :=
  exists v1 r n, seek (fm_fd info) (to_i32 (file_offset a info address)) SEEK_BEG v = Ret (v1, r) /\ 0 <= r /\
    read (fm_fd info) (read_count a info address) v1 = Ret (v', success (n, data)) /\ zlen data <= read_count a info address.

Lemma page_fault_file_ok st SM ND NT DA TA N A s address a info v' data : ready st SM ND NT DA TA N A s (ALIGN_DOWN address 0x1000) ->
  pool.get U16_MAX (sp_file_maps s) (a_info a) = Ret info -> file_reads (vstate st) a info address v' data ->
  exists st' x, page_fault_file seek read st a address = Ret st' /\
    filled st st' SM ND NT DA TA N A (ALIGN_DOWN address 0x1000) x (page_flags (a_flags a)) data /\ vstate st' = v'.
Proof.
  intros Hre Hinfo (v1 & r & n & Hseek & Hr & Hread & Hlen).
  destruct (fresh_page st SM ND NT DA TA N A s _ (a_flags a) Hre) as (st1 & st2 & st3 & x & E1 & E2 & E3 & Hfi & Hal & Hv).
  pose proof (re_space _ _ _ _ _ _ _ _ _ _ Hre) as Hs. destruct (re_page _ _ _ _ _ _ _ _ _ _ Hre) as [Hp _].
  destruct Hfi as [(TA' & Hwf & Hsub) Hu Hx [Hxr Hxa] Hram Hsp Hc Hw].
  set (st4 := set_vstate (set_vstate st3 v1) v'). set (st5 := set_ram st4 (write_bytes (ram st4) x data)).
  assert (paging.wf st4 SM ND NT DA TA') as Hwf4 by (apply (wf_same st3); auto).
  assert (paging.walk st4 s (ALIGN_DOWN address 0x1000) = Some (mk_pte (page_flags (Z.lor (a_flags a) MEM_AREA_READWRITE)) (frame20 (Z.shiftr x 12)))) as Hw4.
  { rewrite (walk_same st3) by reflexivity. rewrite (Hw (current_space st)) by assumption. rewrite decide_True by auto. reflexivity. }
  assert (store_page st4 (current_space st4) (ALIGN_DOWN address 0x1000) data = Ret st5) as E5.
  { change (current_space st4) with (current_space st3). rewrite Hc.
    rewrite (store_page_ok st4 SM ND NT DA TA' (current_space st) s _ data _ Hwf4 Hs Hp Hal Hw4), pte_frame_page by assumption. reflexivity. }
  destruct (seal_page st st5 SM ND NT DA TA N A s (ALIGN_DOWN address 0x1000) x (a_flags a) data Hre) as (st' & E6 & Hfi' & Hv').
  { constructor; try assumption.
    - exists TA'. split; [apply (wf_same st4); auto|exact Hsub].
    - split; assumption.
    - apply data_written; [exact Hram|]. unfold read_count in Hlen. lia. }
  exists st', x. split; [|split; [exact Hfi'|exact Hv']]. unfold page_fault_file. cbv zeta.
  rewrite E1, mbind_Ret, E2, mbind_Ret, E3, mbind_Ret. unfold get_space. rewrite Hc.
  rewrite (fpm_get _ _ _ _ (paging.wf_spaces _ _ _ _ _ _ Hwf)), Hs, mbind_Ret, Hinfo, mbind_Ret.
  fold (file_offset a info address). rewrite Hv, Hseek, mbind_Ret. rewrite (proj2 (Z.ltb_ge r 0) Hr).
  fold (read_count a info address). cbn [vstate set_vstate]. rewrite Hread, mbind_Ret. fold st4. rewrite E5, mbind_Ret. exact E6.
Qed.

End file.

(** The handler on a fault inside an area: the page is not present *)
Lemma fault_in_area st s ma i a address (seek : Z -> Z -> Z -> V -> outcome (V * Z)) (read : Z -> Z -> V -> outcome (V * res (Z * list Z))) code :
  areas.at_ st (current_space st) s -> areas.space_ok s ma -> ma !! i = Some a -> areas.covers a address -> has code 1 = false ->
  int_page_fault seek read st code address =
    (st ← (if a_type a =? AREA_LINEAR_MAP then page_fault_linear_map st a address
           else if a_type a =? AREA_ALLOC then page_fault_alloc st a address
           else if a_type a =? AREA_FILE then page_fault_file seek read st a address else Panic);
     Ret (st, Resumed)).
Proof.
  intros Hat Hso Hi Hc Hcode. unfold int_page_fault. rewrite Hcode.
  destruct (areas.find_area_spec st _ s ma address Hat Hso) as (r & -> & Hr). rewrite mbind_Ret. rewrite (proj2 (Hr i)) by eauto.
  rewrite (areas.at_get _ _ _ Hat), mbind_Ret, (fpm_get _ _ _ _ (areas.so_areas _ _ Hso)), Hi, mbind_Ret. reflexivity.
Qed.

(** ** Areas come and go without touching the tables *)

Record respaced st st' : Prop := {
  rs_dirs : page_dir_allocator st' = page_dir_allocator st;
  rs_tabs : page_table_allocator st' = page_table_allocator st;
  rs_user : user_space_allocator st' = user_space_allocator st;
  rs_tables : tables st' = tables st;
  rs_current : current_space st' = current_space st;
  rs_ram : ram st' = ram st;
  rs_vstate : vstate st' = vstate st
}.

Lemma update_space_wf st SM ND NT DA TA h s f : paging.wf st SM ND NT DA TA -> SM !! h = Some s -> sp_page_dir (f s) = sp_page_dir s ->
  exists st', update_space st h f = Ret st' /\ paging.wf st' (<[h := f s]> SM) ND NT DA TA /\ respaced st st'.
Proof.
  intros [] Hs Hd. unfold update_space. destruct (fpm_modify _ _ _ _ _ f wf_spaces Hs) as (p & -> & Hp & _). rewrite mbind_Ret.
  eexists. split; [reflexivity|]. split; [|constructor; reflexivity].
  assert (forall h' s', <[h := f s]> SM !! h' = Some s' -> exists s0, SM !! h' = Some s0 /\ sp_page_dir s' = sp_page_dir s0) as Hold.
  { intros h' s' Hs'. apply lookup_insert_Some in Hs'. destruct Hs' as [[<- <-]|[_ Hs']]; eauto. }
  constructor; auto.
  - intros h' s' Hs'. destruct (Hold _ _ Hs') as (s0 & H0 & ->). eauto.
  - intros h1 s1 h2 s2 H1 H2. destruct (Hold _ _ H1) as (? & ? & ->). destruct (Hold _ _ H2) as (? & ? & ->). eauto.
  - intros h1 s1 i e H1. destruct (Hold _ _ H1) as (? & ? & ->). eauto.
  - intros h1 s1 i1 e1 h2 s2 i2 e2 H1 H2. destruct (Hold _ _ H1) as (? & ? & ->). destruct (Hold _ _ H2) as (? & ? & ->). eauto.
Qed.

Lemma add_area_wf st SM ND NT DA TA h s a : paging.wf st SM ND NT DA TA -> SM !! h = Some s ->
  ensures (add_area st h a) (fun r => exists s', paging.wf r.1 (<[h := s']> SM) ND NT DA TA /\ sp_page_dir s' = sp_page_dir s /\ respaced st r.1).
Proof.
  intros Hwf Hs. unfold add_area, get_space. rewrite (fpm_get _ _ _ _ (paging.wf_spaces _ _ _ _ _ _ Hwf)), Hs, mbind_Ret.
  eapply ensures_bind; [apply ensures_eq|]. intros [p k] _.
  destruct (update_space_wf st SM ND NT DA TA h s (fun s => mk_space (sp_page_dir s) p (sp_linear_maps s) (sp_file_maps s)) Hwf Hs eq_refl) as (st' & -> & Hwf' & Hr).
  rewrite mbind_Ret. eexists. split; [exact Hwf'|]. auto.
Qed.

Lemma add_file_wf st SM ND NT DA TA h s f : paging.wf st SM ND NT DA TA -> SM !! h = Some s ->
  ensures (add_file st h f) (fun r => exists s', paging.wf r.1 (<[h := s']> SM) ND NT DA TA /\ sp_page_dir s' = sp_page_dir s /\ respaced st r.1).
Proof.
  intros Hwf Hs. unfold add_file, get_space. rewrite (fpm_get _ _ _ _ (paging.wf_spaces _ _ _ _ _ _ Hwf)), Hs, mbind_Ret.
  eapply ensures_bind; [apply ensures_eq|]. intros [p k] _.
  destruct (update_space_wf st SM ND NT DA TA h s (fun s => mk_space (sp_page_dir s) (sp_areas s) (sp_linear_maps s) p) Hwf Hs eq_refl) as (st' & -> & Hwf' & Hr).
  rewrite mbind_Ret. eexists. split; [exact Hwf'|]. auto.
Qed.

Lemma mem_map_alloc_wf st SM ND NT DA TA h s a b f : paging.wf st SM ND NT DA TA -> SM !! h = Some s ->
  ensures (mem_map_alloc st h a b f) (fun r => exists s', paging.wf r.1 (<[h := s']> SM) ND NT DA TA /\ sp_page_dir s' = sp_page_dir s /\ respaced st r.1).
Proof.
  intros Hwf Hs. unfold mem_map_alloc. do 2 (eapply ensures_bind; [apply ensures_eq|]; intros ? _). apply add_area_wf; assumption.
Qed.

Lemma mem_map_fd_wf st SM ND NT DA TA h s a b fd o n f : paging.wf st SM ND NT DA TA -> SM !! h = Some s ->
  ensures (mem_map_fd st h a b fd o n f) (fun r => exists s', paging.wf r.1 (<[h := s']> SM) ND NT DA TA /\ sp_page_dir s' = sp_page_dir s /\ respaced st r.1).
Proof.
  intros Hwf Hs. unfold mem_map_fd. do 3 (eapply ensures_bind; [apply ensures_eq|]; intros ? _).
  eapply ensures_bind; [exact (add_file_wf st SM ND NT DA TA h s _ Hwf Hs)|]. intros [st1 k] (s1 & Hwf1 & Hd1 & Hr1).
  eapply ensures_mono; [apply (add_area_wf st1 (<[h := s1]> SM) ND NT DA TA h s1); [exact Hwf1|apply lookup_insert_eq]|].
  intros [st2 j] (s2 & Hwf2 & Hd2 & Hr2). exists s2. rewrite insert_insert_eq in Hwf2. split; [exact Hwf2|]. split; [congruence|].
  destruct Hr1, Hr2. constructor; simpl in *; congruence.
Qed.

End facts.

(** A process with a heap, and one with a program of 0x1800 bytes mapped for 0x3000 *)
Definition demo_heap : outcome (t unit) :=
  '(st, h) ← mem_create_space paging.demo_boot;
  '(st, _) ← mem_map_alloc st h 0x1000 0x3000 MEM_AREA_USER;
  Ret (set_current st h).

Definition demo_program : outcome (t unit) :=
  '(st, h) ← mem_create_space paging.demo_boot;
  '(st, _) ← mem_map_fd st h 0x8048000 0x804B000 3 0x400 0x1800 MEM_AREA_USER;
  Ret (set_current st h).

(** Both are ready for a fault anywhere. *)
Lemma demo_ready (m : t unit -> Z -> outcome (t unit * Z)) st page :
  (forall st SM DA h s, paging.wf st SM 99 99 DA ∅ -> SM !! h = Some s ->
     ensures (m st h) (fun r => exists s', paging.wf r.1 (<[h := s']> SM) 99 99 DA ∅ /\ sp_page_dir s' = sp_page_dir s /\ respaced st r.1)) ->
  ('(st, h) ← mem_create_space paging.demo_boot; '(st, _) ← m st h; Ret (set_current st h)) = Ret st ->
  0 <= page < 2 ^ 32 -> page mod 4096 = 0 ->
  exists SM DA s, ready st SM 99 99 DA ∅ 99 ∅ s page /\ get_space st (current_space st) = Ret s.
Proof.
  intros Hm E Hp Ha. destruct (paging.create_space_ok paging.demo_boot ∅ 99 99 ∅ ∅ paging.demo_boot_wf) as (st1 & h & x & E1 & _ & Hwf1 & _);
    [reflexivity..|].
  assert (user_space_allocator st1 = Some (paging.demo_pages 0x1000000)) as Hu1.
  { pose proof E1 as E1'. unfold mem_create_space, alloc_dir in E1'. bind_ret E1'. destruct a as [st0 y]. bind_ret Es. destruct a as [u z]. bind_ret E1'. destruct a as [p j].
    injection Es as <- <-. injection E1' as <- _. reflexivity. }
  rewrite E1, mbind_Ret in E. bind_ret E. destruct a as [st2 k]. injection E as <-.
  destruct (ensures_elim _ _ _ (Hm st1 _ _ h (new_space x) Hwf1 (lookup_insert_eq _ _ _)) Es) as (s & Hwf & _ & Hr). simpl in Hwf, Hr.
  rewrite insert_insert_eq in Hwf. exists (<[h := s]> ∅), ({[x]} ∪ ∅), s.
  assert (SM_s : (<[h := s]> (∅ : gmap Z space_info)) !! h = Some s) by apply lookup_insert_eq.
  split; [|unfold get_space; cbn [spaces set_current current_space]; rewrite (fpm_get _ _ _ _ (paging.wf_spaces _ _ _ _ _ _ Hwf)), SM_s; reflexivity].
  constructor; auto.
  - apply (wf_same st2); auto.
  - exists (paging.demo_pages 0x1000000). cbn [user_space_allocator set_current]. rewrite (rs_user _ _ Hr). split; [exact Hu1|].
    apply paging.demo_pages_rep; [lia|reflexivity].
  - reflexivity.
  - intros _. reflexivity.
Qed.

(** The first area of the current space of a demonstration state *)
Definition demo_area (m : outcome (t unit)) : outcome area_info :=
  st ← m; s ← get_space st (current_space st); pool.get U16_MAX (sp_areas s) 0.
Definition demo_file (m : outcome (t unit)) : outcome file_map_info :=
  st ← m; s ← get_space st (current_space st); pool.get U16_MAX (sp_file_maps s) 0.

Lemma demo_area_ok (m : outcome (t unit)) st s a : m = Ret st -> areas.ok st -> get_space st (current_space st) = Ret s -> demo_area m = Ret a ->
  exists ma, areas.at_ st (current_space st) s /\ areas.space_ok s ma /\ ma !! 0 = Some a.
Proof.
  intros -> Hok Hs Ha. unfold demo_area in Ha. rewrite mbind_Ret, Hs, mbind_Ret in Ha.
  pose proof (ensures_elim _ _ _ (areas.get_space_at st _ Hok) Hs) as Hat. destruct (areas.at_space_ok _ _ _ Hat) as [ma Hso].
  exists ma. split; [exact Hat|]. split; [exact Hso|]. rewrite (fpm_get _ _ _ _ (areas.so_areas _ _ Hso)) in Ha.
  destruct (ma !! 0); congruence.
Qed.

Lemma demo_heap_ok st : demo_heap = Ret st -> areas.ok st.
Proof.
  intros E. apply (areas.reach_ok (fun _ _ _ v => Ret (v, 0)) (fun _ _ v => Ret (v, failure 0))). unfold demo_heap in E.
  bind_ret E. destruct a as [st1 h]. bind_ret E. destruct a as [st2 k]. injection E as <-.
  apply (areas.R_step _ _ st2); [|apply areas.S_current]. apply (areas.R_step _ _ st1); [|eapply areas.S_alloc; eauto].
  apply (areas.R_step _ _ paging.demo_boot); [|eapply areas.S_create; eauto]. apply areas.R_boot. reflexivity.
Qed.

Lemma demo_program_ok st : demo_program = Ret st -> areas.ok st.
Proof.
  intros E. apply (areas.reach_ok (fun _ _ _ v => Ret (v, 0)) (fun _ _ v => Ret (v, failure 0))). unfold demo_program in E.
  bind_ret E. destruct a as [st1 h]. bind_ret E. destruct a as [st2 k]. injection E as <-.
  apply (areas.R_step _ _ st2); [|apply areas.S_current]. apply (areas.R_step _ _ st1); [|eapply areas.S_fd; eauto].
  apply (areas.R_step _ _ paging.demo_boot); [|eapply areas.S_create; eauto]. apply areas.R_boot. reflexivity.
Qed.

(** A file system whose only file holds the byte 0x90 everywhere *)
Definition demo_seek (fd pos rel : Z) (v : unit) : outcome (unit * Z) := Ret (tt, pos).
Definition demo_read (fd count : Z) (v : unit) : outcome (unit * res (Z * list Z)) := Ret (tt, success (count, replicate (Z.to_nat count) 0x90)).
End faults.

(** C39: a fault of the current process on an absent page of one of its
    anonymous areas, while a physical page is free, is resolved: the handler
    maps at the faulting page of that space, and nowhere else, a page that
    nobody held, all zero, with exactly the permissions of the area; no other
    byte of memory, no other mapping and no space changes. *)
Theorem page_fault_gives_zero_page {V} seek read (st : memory.t V) SM ND NT DA TA N A s ma i a address code :
  faults.ready st SM ND NT DA TA N A s (kdefs.ALIGN_DOWN address 0x1000) ->
  areas.at_ st (memory.current_space st) s -> areas.space_ok s ma -> ma !! i = Some a -> areas.covers a address ->
  memory.a_type a = memory.AREA_ALLOC -> memory.has code 1 = false ->
  exists st' x, memory.int_page_fault seek read st code address = Ret (st', memory.Resumed) /\
    faults.filled st st' SM ND NT DA TA N A (kdefs.ALIGN_DOWN address 0x1000) x (memory.page_flags (memory.a_flags a)) [].
Proof.
  intros Hre Hat Hso Hi Hc Ht Hcode. destruct (faults.page_fault_alloc_ok st SM ND NT DA TA N A s address a Hre) as (st' & x & E & Hfi).
  exists st', x. split; [|exact Hfi]. rewrite (faults.fault_in_area st s ma i a address seek read code) by assumption.
  rewrite Ht. change (memory.AREA_ALLOC =? memory.AREA_LINEAR_MAP) with false. change (memory.AREA_ALLOC =? memory.AREA_ALLOC) with true.
  cbn iota. rewrite E. reflexivity.
Qed.

Lemma page_fault_gives_zero_page_witness : exists st st' x, faults.demo_heap = Ret st /\
  memory.int_page_fault faults.demo_seek faults.demo_read st 4 0x2ABC = Ret (st', memory.Resumed) /\
  memory.ram st x = 7 /\ memory.ram st' x = 0 /\ memory.ram st' (x + 4096) = memory.ram st (x + 4096).
Proof.
  destruct faults.demo_heap as [st| | |] eqn:E; [|vm_compute in E; discriminate..].
  destruct (faults.demo_ready (fun st h => memory.mem_map_alloc st h 0x1000 0x3000 memory.MEM_AREA_USER) st 0x2000) as (SM & DA & s & Hre & Hs);
    [intros; eapply faults.mem_map_alloc_wf; eauto|exact E|lia|reflexivity|].
  destruct (faults.demo_area_ok faults.demo_heap st s (memory.mk_area 0x1000 0x3000 memory.AREA_ALLOC memory.MEM_AREA_USER 0))
    as (ma & Hat & Hso & Hi); [exact E|apply faults.demo_heap_ok, E|exact Hs|vm_compute; reflexivity|].
  destruct (page_fault_gives_zero_page faults.demo_seek faults.demo_read st SM 99 99 DA ∅ 99 ∅ s ma 0
    (memory.mk_area 0x1000 0x3000 memory.AREA_ALLOC memory.MEM_AREA_USER 0) 0x2ABC 4) as (st' & x & E' & Hfi);
    [exact Hre|exact Hat|exact Hso|exact Hi|split; simpl; lia|reflexivity|reflexivity|].
  exists st, st', x. split; [reflexivity|]. split; [exact E'|].
  assert (forall y, memory.ram st y = 7) as H7.
  { intros y. replace st with (match faults.demo_heap with Ret s => s | _ => paging.demo_boot end) by (rewrite E; reflexivity). vm_compute. reflexivity. }
  split; [apply H7|]. split.
  - rewrite (faults.fi_ram _ _ _ _ _ _ _ _ _ _ _ _ _ Hfi x), decide_True, Z.sub_diag by lia. reflexivity.
  - rewrite (faults.fi_ram _ _ _ _ _ _ _ _ _ _ _ _ _ Hfi (x + 4096)), decide_False by lia. reflexivity.
Defined.

(** C40: a fault on an absent page of a mapped file maps a fresh page that
    holds the bytes the file system reads at the offset of that page in the
    mapping, followed by zeros, with exactly the permissions of the area.
    The number of bytes asked for is the distance from there to the end of the
    mapped part of the file, computed modulo 2^32 and cut at one page: a page
    that starts past the end of the mapped part asks for a full page of the
    bytes that follow it in the file. *)
Theorem page_fault_loads_file {V} seek read (st : memory.t V) SM ND NT DA TA N A s ma i a info address code v' data :
  faults.ready st SM ND NT DA TA N A s (kdefs.ALIGN_DOWN address 0x1000) ->
  areas.at_ st (memory.current_space st) s -> areas.space_ok s ma -> ma !! i = Some a -> areas.covers a address ->
  memory.a_type a = memory.AREA_FILE -> memory.has code 1 = false ->
  pool.get U16_MAX (memory.sp_file_maps s) (memory.a_info a) = Ret info ->
  faults.file_reads seek read (memory.vstate st) a info address v' data ->
  exists st' x, memory.int_page_fault seek read st code address = Ret (st', memory.Resumed) /\
    faults.filled st st' SM ND NT DA TA N A (kdefs.ALIGN_DOWN address 0x1000) x (memory.page_flags (memory.a_flags a)) data /\
    memory.vstate st' = v'.
Proof.
  intros Hre Hat Hso Hi Hc Ht Hcode Hinfo Hread.
  destruct (faults.page_fault_file_ok seek read st SM ND NT DA TA N A s address a info v' data Hre Hinfo Hread) as (st' & x & E & Hfi & Hv).
  exists st', x. split; [|split; assumption]. rewrite (faults.fault_in_area st s ma i a address seek read code) by assumption.
  rewrite Ht. change (memory.AREA_FILE =? memory.AREA_LINEAR_MAP) with false. change (memory.AREA_FILE =? memory.AREA_ALLOC) with false.
  change (memory.AREA_FILE =? memory.AREA_FILE) with true. cbn iota. rewrite E. reflexivity.
Qed.

(** The third page of the program, past its 0x1800 bytes: it should be zero *)
Lemma page_fault_loads_file_witness : exists st st' x, faults.demo_program = Ret st /\
  memory.int_page_fault faults.demo_seek faults.demo_read st 4 0x804A010 = Ret (st', memory.Resumed) /\
  memory.ram st' x = 0x90.
Proof.
  destruct faults.demo_program as [st| | |] eqn:E; [|vm_compute in E; discriminate..].
  set (a := memory.mk_area 0x8048000 0x804B000 memory.AREA_FILE memory.MEM_AREA_USER 0). set (info := memory.mk_file 3 0x400 0x1800).
  destruct (faults.demo_ready (fun st h => memory.mem_map_fd st h 0x8048000 0x804B000 3 0x400 0x1800 memory.MEM_AREA_USER) st 0x804A000) as (SM & DA & s & Hre & Hs);
    [intros; eapply faults.mem_map_fd_wf; eauto|exact E|lia|reflexivity|].
  destruct (faults.demo_area_ok faults.demo_program st s a) as (ma & Hat & Hso & Hi); [exact E|apply faults.demo_program_ok, E|exact Hs|vm_compute; reflexivity|].
  assert (faults.demo_file faults.demo_program = Ret info) as Hf by (vm_compute; reflexivity).
  unfold faults.demo_file in Hf. rewrite E, mbind_Ret, Hs, mbind_Ret in Hf.
  destruct (page_fault_loads_file faults.demo_seek faults.demo_read st SM 99 99 DA ∅ 99 ∅ s ma 0 a info 0x804A010 4 tt (replicate 4096 0x90))
    as (st' & x & E' & Hfi & _); [exact Hre|exact Hat|exact Hso|exact Hi|split; simpl; lia|reflexivity|reflexivity|exact Hf| |].
  { exists tt, 0x2400, 4096. split; [reflexivity|]. split; [lia|]. split; [reflexivity|]. vm_compute. discriminate. }
  exists st, st', x. split; [reflexivity|]. split; [exact E'|].
  rewrite (faults.fi_ram _ _ _ _ _ _ _ _ _ _ _ _ _ Hfi x), decide_True by lia. rewrite Z.sub_diag. reflexivity.
Defined.
