(* ===== verification/MemoryFork.v ===== *)
(** * Forking an address space

    The child gets its own copy of every page of the anonymous areas, shares
    the linearly mapped ones, and the parent is left as it was. *)

From S2P Require Import Prelude Pool PageAlloc KernelDefs Memory MemoryFacts MemoryAreas MemoryFaults.
From Stdlib Require Import Sorted.
From stdpp Require Import gmap list.
#[local] Open Scope Z_scope.

(** A computation that returns with a postcondition or stops the system, and
    neither runs into undefined behaviour nor out of fuel *)
Definition safely {A} (m : outcome A) (Q : A -> Prop) : Prop := match m with Ret a => Q a | Panic => True | _ => False end.

Lemma safely_bind {A B} (m : outcome A) (f : A -> outcome B) (R : A -> Prop) (Q : B -> Prop) :
  safely m R -> (forall a, R a -> safely (f a) Q) -> safely (mbind f m) Q.
Proof. destruct m; simpl; tauto || auto. Qed.

Lemma safely_mono {A} (m : outcome A) (R Q : A -> Prop) : safely m R -> (forall a, R a -> Q a) -> safely m Q.
Proof. destruct m; simpl; tauto || auto. Qed.

Lemma safely_Ret {A} (m : outcome A) a (Q : A -> Prop) : m = Ret a -> Q a -> safely m Q.
Proof. intros -> H. exact H. Qed.

Lemma safely_passert b : safely (passert b) (fun _ => b = true).
Proof. destruct b; simpl; auto. Qed.

Lemma safely_ensures {A} (m : outcome A) (Q : A -> Prop) : safely m (fun _ => True) -> ensures m Q -> safely m Q.
Proof. destruct m; simpl; auto. Qed.

Lemma safely_both {A} (m : outcome A) (Q R : A -> Prop) : safely m Q -> ensures m R -> safely m (fun a => Q a /\ R a).
Proof. destruct m; simpl; auto. Qed.

Lemma ensures_and {A} (m : outcome A) (Q R : A -> Prop) : ensures m Q -> ensures m R -> ensures m (fun a => Q a /\ R a).
Proof. destruct m; simpl; auto. Qed.

Module forking.
Import kdefs memory.

Section facts.
Context {V : Type}.
Implicit Type st : t V.

(** ** Mapping and allocating, or stopping for lack of pages *)

Lemma map_page_safely st SM ND NT DA TA h s virt phys flags : paging.wf st SM ND NT DA TA -> SM !! h = Some s ->
  0 <= virt < 2 ^ 32 -> virt mod 4096 = 0 -> phys mod 4096 = 0 ->
  safely (map_page st h virt phys flags) (fun st' => paging.mapped st st' SM ND NT DA TA h virt phys flags).
Proof.
  intros Hwf Hs Hv Hva Hpa.
  destruct (decide (paging.table_missing st s virt = true -> Z.odd flags = true -> Z.of_nat (base.size TA) < NT)) as [Hroom|Hno].
  - destruct (paging.map_page_mapped st SM ND NT DA TA h s virt phys flags Hwf Hs Hv Hva Hpa Hroom) as (st' & E & Hm). exact (safely_Ret _ _ _ E Hm).
  - assert (paging.table_missing st s virt = true /\ Z.odd flags = true /\ NT <= Z.of_nat (base.size TA)) as (Hm & Hfl & Hfull).
    { destruct (paging.table_missing st s virt); [|exfalso; apply Hno; discriminate]. destruct (Z.odd flags); [|exfalso; apply Hno; discriminate].
      split; [reflexivity|]. split; [reflexivity|]. apply Z.nlt_ge. intros Hlt. apply Hno. auto. }
    unfold map_page. rewrite !paging.aligned_mod, Hva, Hpa. cbn [Z.eqb passert]. rewrite !mbind_Ret.
    unfold get_space. rewrite (fpm_get _ _ _ _ (paging.wf_spaces _ _ _ _ _ _ Hwf)), Hs, mbind_Ret.
    destruct (paging.wf_entry _ _ _ _ _ _ (sp_page_dir s) (dir_index virt) Hwf (or_introl (paging.wf_dir _ _ _ _ _ _ Hwf h s Hs)) (paging.dir_index_range _ Hv)) as (pde & Hpde & ->).
    rewrite mbind_Ret. unfold paging.table_missing in Hm. rewrite Hpde in Hm. rewrite !paging.has_P, Hm, Hfl. cbn [andb negb].
    unfold alloc_table. rewrite (page_allocator.pa_alloc_exhausted _ _ _ (paging.wf_tabs _ _ _ _ _ _ Hwf) Hfull). exact I.
Qed.

(** The pages in use *)
Definition holds st (N : Z) (A : gset Z) : Prop := exists u, user_space_allocator st = Some u /\ page_allocator.rep u N A.

Lemma alloc_page_safely st N A : holds st N A ->
  safely (alloc_page st) (fun r => exists u, r.1 = set_user_alloc st (Some u) /\ page_allocator.rep u N ({[r.2]} ∪ A) /\ (r.2 ∉ A) /\
    0 <= r.2 < 2 ^ 32 /\ r.2 mod 4096 = 0).
Proof.
  intros (u & Hu & Hr). unfold alloc_page. rewrite Hu. destruct (Z.lt_ge_cases (Z.of_nat (base.size A)) N) as [Hlt|Hge].
  - destruct (page_allocator.pa_alloc _ _ _ Hr Hlt) as (u' & x & -> & Hr' & Hx & Hpg & _). rewrite mbind_Ret. simpl.
    destruct (paging.page_range _ _ _ _ Hr Hpg) as [Hrange Hal]. pose proof (proj1 (page_allocator.rep_base _ _ _ Hr)).
    exists u'. repeat (split; [first [reflexivity|assumption|lia]|]). exact Hal.
  - rewrite (page_allocator.pa_alloc_exhausted _ _ _ Hr Hge). exact I.
Qed.

(** ** Copying one page *)

(** [st'] differs from [st] in tables not reachable by any walk, and in memory *)
Definition same_view st st' (SM : gmap Z space_info) (ND NT : Z) (DA TA : gset Z) : Prop :=
  exists TA', paging.wf st' SM ND NT DA TA' /\ (forall x, x ∈ TA -> x ∈ TA') /\
    spaces st' = spaces st /\ user_space_allocator st' = user_space_allocator st /\ current_space st' = current_space st /\ vstate st' = vstate st /\
    forall h s v, SM !! h = Some s -> 0 <= v < 2 ^ 32 -> paging.walk st' s v = paging.walk st s v.

Lemma pte_frame_aligned e : 0 <= pte_frame e < 2 ^ 32 /\ pte_frame e mod 4096 = 0.
Proof.
  unfold pte_frame. split; [apply Z.mod_pos_bound; lia|]. unfold u32. rewrite Z.mod_mod_divide by (exists (2 ^ 20); reflexivity).
  rewrite Z.shiftl_mul_pow2 by lia. apply Z_mod_mult.
Qed.

Lemma read_write_bytes r src dst y : write_bytes r dst (read_bytes r src 0x1000) y = if decide (dst <= y < dst + 4096) then r (src + (y - dst)) else r y.
Proof.
  unfold write_bytes, read_bytes. case_decide as Hy.
  - assert (znth ((fun k => r (src + k)) <$> seqZ 0 0x1000) (y - dst) = Some (r (src + (y - dst)))) as ->; [|reflexivity].
    unfold znth. rewrite (proj2 (Z.leb_le 0 (y - dst))) by lia. rewrite list_lookup_fmap, lookup_seqZ_lt by lia. simpl. do 2 f_equal. lia.
  - destruct (znth _ (y - dst)) eqn:E; [|reflexivity]. apply znth_Some_lt in E. unfold zlen in E. rewrite length_fmap, length_seqZ in E. lia.
Qed.

Lemma copy_page_safely st SM ND NT DA TA ps sp src dst : paging.wf st SM ND NT DA TA -> SM !! ps = Some sp ->
  0 <= src < 2 ^ 32 -> src mod 4096 = 0 -> 0 <= dst < 2 ^ 32 -> dst mod 4096 = 0 ->
  paging.walk st sp SOURCE_WINDOW = None -> paging.walk st sp DEST_WINDOW = None ->
  safely (copy_page_contents st ps src dst) (fun st' => same_view st st' SM ND NT DA TA /\
    forall y, ram st' y = if decide (dst <= y < dst + 4096) then ram st (src + (y - dst)) else ram st y).
Proof.
  intros Hwf Hsp Hsr Hsa Hdr Hda Hw1 Hw2. unfold copy_page_contents. rewrite !paging.aligned_mod, Hsa, Hda. cbn [Z.eqb passert]. rewrite !mbind_Ret. cbv zeta.
  set (fl := Z.lor MEM_PE_P (Z.lor MEM_PE_RW MEM_PE_D)). assert (Z.odd fl = true /\ flags12 fl = fl /\ has fl MEM_PE_P = true /\ has fl MEM_PE_RW = true) as (Hodd & Hf12 & HP & HRW) by (vm_compute; auto).
  assert (0 <= SOURCE_WINDOW < 2 ^ 32 /\ SOURCE_WINDOW mod 4096 = 0 /\ 0 <= DEST_WINDOW < 2 ^ 32 /\ DEST_WINDOW mod 4096 = 0) as (H1 & H2 & H3 & H4) by (vm_compute; repeat split; discriminate || reflexivity).
  assert (SOURCE_WINDOW / 4096 <> DEST_WINDOW / 4096) as Hne by (vm_compute; discriminate).
  eapply safely_bind; [exact (map_page_safely st SM ND NT DA TA ps sp SOURCE_WINDOW src fl Hwf Hsp H1 H2 Hsa)|].
  intros st1 (TA1 & Hwf1 & Hsub1 & O1 & W1 & _).
  eapply safely_bind; [exact (map_page_safely st1 SM ND NT DA TA1 ps sp DEST_WINDOW dst fl Hwf1 Hsp H3 H4 Hda)|].
  intros st2 (TA2 & Hwf2 & Hsub2 & O2 & W2 & HA2). specialize (HA2 HP HRW sp Hsp).
  assert (paging.walk st2 sp SOURCE_WINDOW = Some (mk_pte fl (frame20 (Z.shiftr src 12)))) as E1.
  { rewrite (W2 ps sp _ Hsp H1), decide_False by (intros [_ E]; exact (Hne E)). rewrite (W1 ps sp _ Hsp H1), decide_True, Hodd, Hf12 by auto. reflexivity. }
  assert (paging.walk st2 sp DEST_WINDOW = Some (mk_pte fl (frame20 (Z.shiftr dst 12)))) as E2.
  { rewrite (W2 ps sp _ Hsp H3), decide_True, Hodd, Hf12 by auto. reflexivity. }
  assert (load_page st2 ps SOURCE_WINDOW 0x1000 = Ret (read_bytes (ram st2) src 0x1000)) as ->.
  { unfold load_page, get_space. rewrite (fpm_get _ _ _ _ (paging.wf_spaces _ _ _ _ _ _ Hwf2)), Hsp, mbind_Ret.
    rewrite (paging.find_pte_walk _ _ _ _ _ _ ps sp SOURCE_WINDOW Hwf2 Hsp H1), mbind_Ret, E1, faults.pte_frame_page by assumption. reflexivity. }
  rewrite mbind_Ret, (faults.store_page_ok st2 SM ND NT DA TA2 ps sp DEST_WINDOW _ _ Hwf2 Hsp H3 HA2 E2), mbind_Ret, faults.pte_frame_page by assumption.
  set (st3 := set_ram st2 _). assert (paging.wf st3 SM ND NT DA TA2) as Hwf3 by (apply (faults.wf_same st2); auto).
  eapply safely_bind; [exact (map_page_safely st3 SM ND NT DA TA2 ps sp SOURCE_WINDOW 0 0 Hwf3 Hsp H1 H2 eq_refl)|].
  intros st4 (TA4 & Hwf4 & Hsub4 & O4 & W4 & _).
  eapply safely_mono; [exact (map_page_safely st4 SM ND NT DA TA4 ps sp DEST_WINDOW 0 0 Hwf4 Hsp H3 H4 eq_refl)|].
  intros st5 (TA5 & Hwf5 & Hsub5 & O5 & W5 & _). destruct O1, O2, O4, O5. split.
  - exists TA5. split; [exact Hwf5|]. split; [auto 6|]. cbn [st3 set_ram spaces user_space_allocator current_space vstate] in *.
    split; [congruence|]. split; [congruence|]. split; [congruence|]. split; [congruence|].
    intros h s v Hs Hv. rewrite (W5 h s v Hs Hv). case_decide as D5.
    { destruct D5 as [-> Dv]. replace s with sp by congruence. rewrite <-Hw2. unfold paging.walk. apply paging.index_page in Dv; [|assumption..]. destruct Dv as [-> ->]. reflexivity. }
    rewrite (W4 h s v Hs Hv). case_decide as D4.
    { destruct D4 as [-> Dv]. replace s with sp by congruence. rewrite <-Hw1. unfold paging.walk. apply paging.index_page in Dv; [|assumption..]. destruct Dv as [-> ->]. reflexivity. }
    unfold st3. rewrite (faults.walk_same st2) by reflexivity. rewrite (W2 h s v Hs Hv), decide_False by exact D5. rewrite (W1 h s v Hs Hv), decide_False by exact D4. reflexivity.
  - intros y. replace (ram st5) with (ram st3) by congruence. cbn [st3 ram set_ram]. rewrite read_write_bytes. replace (ram st2) with (ram st) by congruence. reflexivity.
Qed.

(** ** Copying the pages of an area *)

Lemma walk_page st s v v' : 0 <= v < 2 ^ 32 -> 0 <= v' < 2 ^ 32 -> v / 4096 = v' / 4096 -> paging.walk st s v = paging.walk st s v'.
Proof. intros Hv Hv' E. apply paging.index_page in E; [|assumption..]. unfold paging.walk. destruct E as [-> ->]. reflexivity. Qed.

Lemma walk_dir st s s' v : sp_page_dir s' = sp_page_dir s -> paging.walk st s' v = paging.walk st s v.
Proof. intros E. unfold paging.walk. rewrite E. reflexivity. Qed.

Lemma held_page st N A x : holds st N A -> x ∈ A -> 0 <= x < 2 ^ 32 /\ x mod 4096 = 0.
Proof.
  intros (u & _ & Hr) Hx. destruct (paging.page_range _ _ _ _ Hr (paging.held_is_page _ _ _ _ Hr Hx)) as [H1 H2].
  pose proof (proj1 (page_allocator.rep_base _ _ _ Hr)). split; [lia|exact H2].
Qed.

(** Two different pages share no byte. *)
Lemma pages_apart x y k : x mod 4096 = 0 -> y mod 4096 = 0 -> x <> y -> 0 <= k < 4096 -> ~ (x <= y + k < x + 4096).
Proof. intros Hx Hy Hne Hk H. pose proof (Z.div_mod x 4096). pose proof (Z.div_mod y 4096). lia. Qed.

(** The state while pages are copied into space [d]: memory changes only on
    pages taken since, the other spaces keep their mappings. *)
Record cloning st st' (SM : gmap Z space_info) (ND NT : Z) (DA TA : gset Z) (N : Z) (A A' : gset Z) (d : Z) : Prop := {
  cl_wf : exists TA', paging.wf st' SM ND NT DA TA' /\ forall x, x ∈ TA -> x ∈ TA';
  cl_holds : holds st' N A';
  cl_sub : forall x, x ∈ A -> x ∈ A';
  cl_spaces : spaces st' = spaces st;
  cl_current : current_space st' = current_space st;
  cl_vstate : vstate st' = vstate st;
  cl_ram : forall y, (forall x, x ∈ A' -> x ∉ A -> ~ (x <= y < x + 4096)) -> ram st' y = ram st y;
  cl_walk : forall h s v, SM !! h = Some s -> h <> d -> 0 <= v < 2 ^ 32 -> paging.walk st' s v = paging.walk st s v
}.

Lemma cloning_refl st SM ND NT DA TA N A d : paging.wf st SM ND NT DA TA -> holds st N A -> cloning st st SM ND NT DA TA N A A d.
Proof. intros Hwf Hh. constructor; eauto. Qed.

(** A page held before keeps its contents. *)
Lemma cloning_ram st st' SM ND NT DA TA N A A' d x k : cloning st st' SM ND NT DA TA N A A' d -> holds st N A -> x ∈ A -> 0 <= k < 4096 ->
  ram st' (x + k) = ram st (x + k).
Proof.
  intros Hc Hh Hx Hk. apply (cl_ram _ _ _ _ _ _ _ _ _ _ _ Hc). intros y Hy Hny.
  destruct (held_page _ _ _ _ Hh Hx) as [_ Hxa]. destruct (held_page _ _ _ _ (cl_holds _ _ _ _ _ _ _ _ _ _ _ Hc) Hy) as [_ Hya].
  apply pages_apart; auto. intros ->. exact (Hny Hx).
Qed.

(** One page of the child: a private copy, or the same frame *)
Definition private_copy st st' (A A' : gset Z) (src : space_info) (d : space_info) (flags v : Z) : Prop :=
  match paging.walk st src v with
  | None => paging.walk st' d v = None
  | Some e => exists x, x ∈ A' /\ (x ∉ A) /\ paging.walk st' d v = Some (mk_pte (page_flags flags) (frame20 (Z.shiftr x 12))) /\
      forall k, 0 <= k < 4096 -> ram st' (x + k) = ram st (pte_frame e + k)
  end.

Lemma private_frame st st' N A A' src d flags v e : private_copy st st' A A' src d flags v -> holds st' N A' -> paging.walk st' d v = Some e ->
  pte_frame e ∈ A' /\ (pte_frame e ∉ A).
Proof.
  unfold private_copy. intros Hp Hh Hw. destruct (paging.walk st src v); [|congruence]. destruct Hp as (x & Hx & Hnx & Hwx & _). rewrite Hw in Hwx. injection Hwx as ->.
  destruct (held_page _ _ _ _ Hh Hx). rewrite faults.pte_frame_page by assumption. auto.
Qed.

(** Two addresses of a space that are not backed by one frame *)
Definition apart st (s : space_info) (v v' : Z) : Prop :=
  forall e e', paging.walk st s v = Some e -> paging.walk st s v' = Some e' -> pte_frame e <> pte_frame e'.

Lemma apart_keep st st' s s' v v' : paging.walk st' s' v = paging.walk st s v -> paging.walk st' s' v' = paging.walk st s v' -> apart st s v v' -> apart st' s' v v'.
Proof. unfold apart. intros -> ->. auto. Qed.

Definition shared_copy st st' (src : space_info) (d : space_info) (v : Z) : Prop :=
  match paging.walk st src v with
  | None => paging.walk st' d v = None
  | Some e => exists e', paging.walk st' d v = Some e' /\ pte_frame e' = pte_frame e /\ e_flags e' = flags12 (e_flags e)
  end.

(** A copied page stays as it is while other pages are added. *)
Lemma private_copy_keep st st1 st2 SM ND NT DA TA N A A1 A2 d src sd flags v :
  cloning st st1 SM ND NT DA TA N A A1 d -> (forall x, x ∈ A1 -> x ∈ A2) -> paging.walk st2 sd v = paging.walk st1 sd v ->
  (forall x k, x ∈ A1 -> 0 <= k < 4096 -> ram st2 (x + k) = ram st1 (x + k)) ->
  private_copy st st1 A A1 src sd flags v -> private_copy st st2 A A2 src sd flags v.
Proof.
  intros Hc Hsub Hw Hram. unfold private_copy. rewrite Hw. destruct (paging.walk st src v) as [e|]; [|auto].
  intros (x & Hx & Hnx & Hwx & Hk). exists x. split; [auto|]. split; [exact Hnx|]. split; [exact Hwx|]. intros k Hk'. rewrite Hram by assumption. auto.
Qed.

(** Taking page [x], mapping it at [p] in the child and filling it from the
    page of the parent *)
Lemma copy_one st st1 SM ND NT DA TA N A A1 d sd ps sp hs src p e flags :
  paging.wf st SM ND NT DA TA -> holds st N A -> cloning st st1 SM ND NT DA TA N A A1 d -> SM !! d = Some sd -> SM !! ps = Some sp -> ps <> d ->
  SM !! hs = Some src -> hs <> d -> paging.walk st sp SOURCE_WINDOW = None -> paging.walk st sp DEST_WINDOW = None ->
  0 <= p < 2 ^ 32 -> p mod 4096 = 0 -> paging.walk st src p = Some e -> pte_frame e ∈ A ->
  safely ('(st1, x) ← alloc_page st1; st1 ← map_page st1 d p x (page_flags flags); copy_page_contents st1 ps (pte_frame e) x)
    (fun st2 => exists A2, cloning st st2 SM ND NT DA TA N A A2 d /\ (forall x, x ∈ A1 -> x ∈ A2) /\
       (forall x k, x ∈ A1 -> 0 <= k < 4096 -> ram st2 (x + k) = ram st1 (x + k)) /\
       (forall v, 0 <= v < 2 ^ 32 -> v / 4096 <> p / 4096 -> paging.walk st2 sd v = paging.walk st1 sd v) /\
       forall v, 0 <= v < 2 ^ 32 -> v / 4096 = p / 4096 -> private_copy st st2 A A2 src sd flags v /\
         forall e', paging.walk st2 sd v = Some e' -> pte_frame e' ∉ A1).
Proof.
  intros Hwf Hh Hc Hd Hps Hpd Hhs Hsd Hw1 Hw2 Hp Hpa He HeA. destruct (cl_wf _ _ _ _ _ _ _ _ _ _ _ Hc) as (TA1 & Hwf1 & Hsub1).
  assert (0 <= SOURCE_WINDOW < 2 ^ 32 /\ 0 <= DEST_WINDOW < 2 ^ 32) as [HW1 HW2] by (vm_compute; repeat split; discriminate || reflexivity).
  eapply safely_bind; [exact (alloc_page_safely st1 N A1 (cl_holds _ _ _ _ _ _ _ _ _ _ _ Hc))|]. intros [st1' x] (u & E1 & Hr & Hx & Hxr & Hxa). simpl in E1, Hr, Hx, Hxr, Hxa. subst st1'.
  set (sta := set_user_alloc st1 (Some u)). assert (paging.wf sta SM ND NT DA TA1) as Hwfa by (apply (faults.wf_same st1); auto).
  destruct (faults.page_flags_range flags) as (Hfl & Hodd & _).
  eapply safely_bind; [exact (map_page_safely sta SM ND NT DA TA1 d sd p x (page_flags flags) Hwfa Hd Hp Hpa Hxa)|].
  intros stb (TAb & Hwfb & Hsubb & [O1 O2 O3 O4 O5 O6] & Wb & _).
  assert (forall h s v, SM !! h = Some s -> h <> d -> 0 <= v < 2 ^ 32 -> paging.walk stb s v = paging.walk st s v) as Hold.
  { intros h s v Hs Hne Hv. rewrite (Wb h s v Hs Hv), decide_False by tauto. rewrite (faults.walk_same st1) by reflexivity.
    exact (cl_walk _ _ _ _ _ _ _ _ _ _ _ Hc h s v Hs Hne Hv). }
  pose proof (pte_frame_aligned e) as [Hfr Hfa].
  eapply safely_mono; [apply (copy_page_safely stb SM ND NT DA TAb ps sp (pte_frame e) x Hwfb Hps Hfr Hfa Hxr Hxa); rewrite (Hold ps) by assumption; assumption|].
  intros st2 ((TA2 & Hwf2 & Hsub2 & S1 & S2 & S3 & S4 & W2) & Hram). exists ({[x]} ∪ A1).
  assert (forall y, ram stb y = ram st1 y) as Hramb by (intros y; rewrite O5; reflexivity).
  assert (forall z k, z ∈ A1 -> 0 <= k < 4096 -> ram st2 (z + k) = ram st1 (z + k)) as Hkeep.
  { intros z k Hz Hk. rewrite Hram, decide_False, Hramb; [reflexivity|]. destruct (held_page _ _ _ _ (cl_holds _ _ _ _ _ _ _ _ _ _ _ Hc) Hz) as [_ Hza].
    apply pages_apart; auto. intros ->. exact (Hx Hz). }
  split; [constructor|split; [intros; set_solver|split; [exact Hkeep|split]]].
  - exists TA2. split; [exact Hwf2|]. auto.
  - exists u. split; [rewrite S2, O3; reflexivity|exact Hr].
  - intros z Hz. apply elem_of_union_r. exact (cl_sub _ _ _ _ _ _ _ _ _ _ _ Hc z Hz).
  - rewrite S1, O1. exact (cl_spaces _ _ _ _ _ _ _ _ _ _ _ Hc).
  - rewrite S3, O4. exact (cl_current _ _ _ _ _ _ _ _ _ _ _ Hc).
  - rewrite S4, O6. exact (cl_vstate _ _ _ _ _ _ _ _ _ _ _ Hc).
  - intros y Hy. rewrite Hram, decide_False, Hramb; [apply (cl_ram _ _ _ _ _ _ _ _ _ _ _ Hc); intros z Hz Hnz; apply Hy; set_solver|].
    apply Hy; [set_solver|]. intros HxA. exact (Hx (cl_sub _ _ _ _ _ _ _ _ _ _ _ Hc x HxA)).
  - intros h s v Hs Hne Hv. rewrite (W2 h s v Hs Hv). exact (Hold h s v Hs Hne Hv).
  - intros v Hv Hvp. rewrite (W2 d sd v Hd Hv), (Wb d sd v Hd Hv), decide_False by tauto. apply faults.walk_same. reflexivity.
  - intros v Hv Hvp. assert (paging.walk st2 sd v = Some (mk_pte (page_flags flags) (frame20 (Z.shiftr x 12)))) as Hwx.
    { rewrite (W2 d sd v Hd Hv), (Wb d sd v Hd Hv), decide_True, Hodd by auto. unfold flags12. rewrite Z.mod_small by exact Hfl. reflexivity. }
    split; [|intros e' He'; rewrite Hwx in He'; injection He' as <-; rewrite faults.pte_frame_page by assumption; exact Hx].
    unfold private_copy. rewrite (walk_page st src v p Hv Hp Hvp), He. exists x. split; [set_solver|].
    split; [intros HxA; exact (Hx (cl_sub _ _ _ _ _ _ _ _ _ _ _ Hc x HxA))|]. split; [exact Hwx|].
    intros k Hk. rewrite Hram, decide_True by lia. rewrite Hramb. replace (pte_frame e + (x + k - x)) with (pte_frame e + k) by lia.
    exact (cloning_ram _ _ _ _ _ _ _ _ _ _ _ _ _ Hc Hh HeA Hk).
Qed.

(** The parent, the child and the process that does the copying *)
Record setting st (SM : gmap Z space_info) (ND NT : Z) (DA TA : gset Z) (N : Z) (A : gset Z) (d : Z) (sd : space_info) (ps hs : Z) (src : space_info) : Prop := {
  se_wf : paging.wf st SM ND NT DA TA;
  se_holds : holds st N A;
  se_child : SM !! d = Some sd;
  se_proc : exists sp, SM !! ps = Some sp /\ ps <> d /\ paging.walk st sp SOURCE_WINDOW = None /\ paging.walk st sp DEST_WINDOW = None;
  se_parent : SM !! hs = Some src /\ hs <> d
}.

(** The state of the child when the pages of [start, p) have been dealt with *)
Definition copied_up_to st st1 (SM : gmap Z space_info) (ND NT : Z) (DA TA : gset Z) (N : Z) (A : gset Z) (d : Z) (sd : space_info)
    (good : gset Z -> t V -> Z -> Prop) (start p : Z) : Prop :=
  exists A1, cloning st st1 SM ND NT DA TA N A A1 d /\ (forall v, start <= v < p -> good A1 st1 v) /\
    forall v, 0 <= v < 2 ^ 32 -> ~ (start <= v < p) -> paging.walk st1 sd v = paging.walk st sd v.

(** A private copy in a frame of its own *)
Definition own_copy st (A : gset Z) (src sd : space_info) (flags start : Z) (A1 : gset Z) st1 (v : Z) : Prop :=
  private_copy st st1 A A1 src sd flags v /\ forall v', start <= v' -> v' / 4096 < v / 4096 -> apart st1 sd v v'.

Lemma copy_alloc_loop_safely st SM ND NT DA TA N A d sd ps hs src start end_ flags : setting st SM ND NT DA TA N A d sd ps hs src ->
  0 <= start -> start mod 4096 = 0 -> end_ < 2 ^ 32 ->
  (forall v, start <= v < end_ -> paging.walk st sd v = None) ->
  (forall v e, start <= v < end_ -> paging.walk st src v = Some e -> pte_frame e ∈ A) ->
  forall n fuel p st1, (n < fuel)%nat -> end_ = p + 4096 * Z.of_nat n -> start <= p -> p mod 4096 = 0 ->
  copied_up_to st st1 SM ND NT DA TA N A d sd (own_copy st A src sd flags start) start p ->
  safely (copy_alloc_loop fuel st1 ps src d p end_ flags) (fun st2 =>
    copied_up_to st st2 SM ND NT DA TA N A d sd (own_copy st A src sd flags start) start end_).
Proof.
  intros [Hwf Hh Hd (sp & Hps & Hpd & Hw1 & Hw2) [Hhs Hsd]] Hs0 Hsa He Hempty Hheld. induction n as [|n IH]; intros fuel p st1 Hf Hend Hsp Hpa Hinv.
  { destruct fuel as [|fuel]; [lia|]. cbn [copy_alloc_loop]. replace end_ with p by lia. rewrite Z.ltb_irrefl. exact Hinv. }
  destruct fuel as [|fuel]; [lia|]. cbn [copy_alloc_loop]. rewrite (proj2 (Z.ltb_lt p end_)) by lia.
  destruct Hinv as (A1 & Hc & Hdone & Hrest). destruct (cl_wf _ _ _ _ _ _ _ _ _ _ _ Hc) as (TA1 & Hwf1 & _).
  assert (0 <= p < 2 ^ 32) as Hp by lia. rewrite (paging.find_pte_walk st1 SM ND NT DA TA1 hs src p Hwf1 Hhs Hp), mbind_Ret.
  rewrite (cl_walk _ _ _ _ _ _ _ _ _ _ _ Hc hs src p Hhs Hsd Hp). rewrite u32_small by lia.
  assert (forall v, p <= v < p + 4096 -> v / 4096 = p / 4096) as Hpage by (intros v Hv; pose proof (Z.div_mod p 4096); symmetry; apply Z.div_unique with (v - p); lia).
  assert (forall v, v / 4096 = p / 4096 -> p <= v < p + 4096) as Hpage' by (intros v Hv; pose proof (Z.div_mod p 4096); pose proof (Z.div_mod v 4096); pose proof (Z.mod_pos_bound v 4096); lia).
  destruct (paging.walk st src p) as [e|] eqn:Ee.
  - eapply safely_bind.
    { apply (copy_one st st1 SM ND NT DA TA N A A1 d sd ps sp hs src p e flags); try assumption. apply (Hheld p e); [lia|exact Ee]. }
    intros st2 (A2 & Hc2 & Hsub & Hram & Hout & Hin). apply IH; [lia|lia|lia|rewrite Z.add_mod, Hpa by lia; reflexivity|].
    exists A2. split; [exact Hc2|]. split.
    + intros v Hv. destruct (Z.lt_ge_cases v p) as [Hlt|Hge].
      * assert (forall w, start <= w < p -> paging.walk st2 sd w = paging.walk st1 sd w) as Hw by (intros w Hw; apply Hout; [lia|intros E; specialize (Hpage' w E); lia]).
        destruct (Hdone v ltac:(lia)) as [Hpc Hap]. split; [apply (private_copy_keep st st1 st2 SM ND NT DA TA N A A1 A2 d); auto; apply Hw; lia|].
        intros v' Hv' Hlt'. assert (v' < v) by (apply Z.nle_gt; intros Hle; apply (Z.div_le_mono _ _ 4096) in Hle; lia).
        apply (apart_keep st1 st2 sd sd); [apply Hw; lia..|exact (Hap v' Hv' Hlt')].
      * destruct (Hin v) as [Hpc Hfr]; [lia|apply Hpage; lia|]. split; [exact Hpc|]. intros v' Hv' Hlt' e1 e2 He1 He2 Heq.
        rewrite (Hpage v) in Hlt' by lia. assert (v' < p) by (apply Z.nle_gt; intros Hle; apply (Z.div_le_mono _ _ 4096) in Hle; lia).
        rewrite Hout in He2 by (lia || (intros E; specialize (Hpage' v' E); lia)). apply (Hfr e1 He1). rewrite Heq.
        exact (proj1 (private_frame _ _ _ _ _ _ _ _ _ _ (proj1 (Hdone v' ltac:(lia))) (cl_holds _ _ _ _ _ _ _ _ _ _ _ Hc) He2)).
    + intros v Hv Hn. rewrite Hout; [apply Hrest; [exact Hv|lia]|exact Hv|]. intros E. specialize (Hpage' v E). lia.
  - cbn [mbind]. rewrite mbind_Ret. apply IH; [lia|lia|lia|rewrite Z.add_mod, Hpa by lia; reflexivity|].
    exists A1. split; [exact Hc|]. split.
    + intros v Hv. destruct (Z.lt_ge_cases v p) as [Hlt|Hge]; [apply Hdone; lia|].
      assert (paging.walk st1 sd v = None) as Hnone by (rewrite Hrest by lia; apply Hempty; lia). unfold own_copy, private_copy, apart.
      rewrite (walk_page st src v p) by (lia || (apply Hpage; lia)). rewrite Ee, Hnone. split; [reflexivity|discriminate].
    + intros v Hv Hn. apply Hrest; [exact Hv|lia].
Qed.

(** The linear areas: the child maps the same frames. *)
Lemma share_one st st1 SM ND NT DA TA N A A1 d sd p e src : cloning st st1 SM ND NT DA TA N A A1 d -> SM !! d = Some sd ->
  0 <= p < 2 ^ 32 -> p mod 4096 = 0 -> paging.walk st src p = Some e ->
  safely (map_page st1 d p (pte_frame e) (e_flags e)) (fun st2 => cloning st st2 SM ND NT DA TA N A A1 d /\
    (forall v, 0 <= v < 2 ^ 32 -> v / 4096 <> p / 4096 -> paging.walk st2 sd v = paging.walk st1 sd v) /\
    forall v, 0 <= v < 2 ^ 32 -> v / 4096 = p / 4096 -> shared_copy st st2 src sd v).
Proof.
  intros Hc Hd Hp Hpa He. destruct (cl_wf _ _ _ _ _ _ _ _ _ _ _ Hc) as (TA1 & Hwf1 & Hsub1). pose proof (pte_frame_aligned e) as [Hfr Hfa].
  assert (Z.odd (e_flags e) = true) as Hodd.
  { unfold paging.walk in He. destruct (paging.entry st (sp_page_dir src) (dir_index p)) as [pde|]; [|discriminate]. cbn [mbind option_bind] in He.
    destruct (has (e_flags pde) MEM_PE_P); [|discriminate]. destruct (paging.entry st (table_of pde) (table_index p)) as [e0|]; [|discriminate]. cbn [mbind option_bind] in He.
    rewrite paging.has_P in He. destruct (Z.odd (e_flags e0)) eqn:E; [|discriminate]. congruence. }
  eapply safely_mono; [exact (map_page_safely st1 SM ND NT DA TA1 d sd p (pte_frame e) (e_flags e) Hwf1 Hd Hp Hpa Hfa)|].
  intros st2 (TA2 & Hwf2 & Hsub2 & [O1 O2 O3 O4 O5 O6] & W & _). destruct Hc as [_ Hh Hsub Hs Hcu Hv Hr Hw]. split; [|split].
  - constructor; try congruence; try assumption.
    + exists TA2. split; [exact Hwf2|]. intros z Hz. apply Hsub2, Hsub1, Hz.
    + destruct Hh as (u & Hu & Hrep). exists u. split; [congruence|exact Hrep].
    + intros y Hy. rewrite O5. auto.
    + intros h s v Hs' Hne Hv'. rewrite (W h s v Hs' Hv'), decide_False by tauto. exact (Hw h s v Hs' Hne Hv').
  - intros v Hv' Hne. rewrite (W d sd v Hd Hv'), decide_False by tauto. reflexivity.
  - intros v Hv' Heq. unfold shared_copy. rewrite (walk_page st src v p Hv' Hp Heq), He. eexists. split; [rewrite (W d sd v Hd Hv'), decide_True, Hodd by auto; reflexivity|].
    split; [apply faults.pte_frame_page; assumption|reflexivity].
Qed.

Lemma copy_linear_loop_safely st SM ND NT DA TA N A d sd ps hs src start end_ : setting st SM ND NT DA TA N A d sd ps hs src ->
  0 <= start -> start mod 4096 = 0 -> end_ < 2 ^ 32 -> (forall v, start <= v < end_ -> paging.walk st sd v = None) ->
  forall n fuel p st1, (n < fuel)%nat -> end_ = p + 4096 * Z.of_nat n -> start <= p -> p mod 4096 = 0 ->
  copied_up_to st st1 SM ND NT DA TA N A d sd (fun _ st1 v => shared_copy st st1 src sd v) start p ->
  safely (copy_linear_loop fuel st1 src d p end_) (fun st2 =>
    copied_up_to st st2 SM ND NT DA TA N A d sd (fun _ st1 v => shared_copy st st1 src sd v) start end_).
Proof.
  intros [Hwf Hh Hd _ [Hhs Hsd]] Hs0 Hsa He Hempty. induction n as [|n IH]; intros fuel p st1 Hf Hend Hsp Hpa Hinv.
  { destruct fuel as [|fuel]; [lia|]. cbn [copy_linear_loop]. replace end_ with p by lia. rewrite Z.ltb_irrefl. exact Hinv. }
  destruct fuel as [|fuel]; [lia|]. cbn [copy_linear_loop]. rewrite (proj2 (Z.ltb_lt p end_)) by lia.
  destruct Hinv as (A1 & Hc & Hdone & Hrest). destruct (cl_wf _ _ _ _ _ _ _ _ _ _ _ Hc) as (TA1 & Hwf1 & _).
  assert (0 <= p < 2 ^ 32) as Hp by lia. rewrite (paging.find_pte_walk st1 SM ND NT DA TA1 hs src p Hwf1 Hhs Hp), mbind_Ret.
  rewrite (cl_walk _ _ _ _ _ _ _ _ _ _ _ Hc hs src p Hhs Hsd Hp). rewrite u32_small by lia.
  assert (forall v, p <= v < p + 4096 -> v / 4096 = p / 4096) as Hpage by (intros v Hv; pose proof (Z.div_mod p 4096); symmetry; apply Z.div_unique with (v - p); lia).
  assert (forall v, v / 4096 = p / 4096 -> p <= v < p + 4096) as Hpage' by (intros v Hv; pose proof (Z.div_mod p 4096); pose proof (Z.div_mod v 4096); pose proof (Z.mod_pos_bound v 4096); lia).
  destruct (paging.walk st src p) as [e|] eqn:Ee.
  - eapply safely_bind; [exact (share_one st st1 SM ND NT DA TA N A A1 d sd p e src Hc Hd Hp Hpa Ee)|].
    intros st2 (Hc2 & Hout & Hin). apply IH; [lia|lia|lia|rewrite Z.add_mod, Hpa by lia; reflexivity|].
    exists A1. split; [exact Hc2|]. split.
    + intros v Hv. destruct (Z.lt_ge_cases v p) as [Hlt|Hge]; [|apply Hin; [lia|]; apply Hpage; lia].
      unfold shared_copy. rewrite Hout by (lia || (intros E; specialize (Hpage' v E); lia)). apply Hdone. lia.
    + intros v Hv Hn. rewrite Hout; [apply Hrest; [exact Hv|lia]|exact Hv|]. intros E. specialize (Hpage' v E). lia.
  - cbn [mbind]. rewrite mbind_Ret. apply IH; [lia|lia|lia|rewrite Z.add_mod, Hpa by lia; reflexivity|].
    exists A1. split; [exact Hc|]. split.
    + intros v Hv. destruct (Z.lt_ge_cases v p) as [Hlt|Hge]; [apply Hdone; lia|]. unfold shared_copy.
      rewrite (walk_page st src v p) by (lia || (apply Hpage; lia)). rewrite Ee. rewrite Hrest by lia. apply Hempty. lia.
    + intros v Hv Hn. apply Hrest; [exact Hv|lia].
Qed.

(** ** New areas of the child *)

Lemma emplace_safely {T} cap (p : fixed_pool T) m v : fpm cap p m -> safely (pool.emplace_anywhere U16_MAX p v) (fun _ => True).
Proof.
  intros Hp. destruct (Z.lt_ge_cases (Z.of_nat (base.size m)) cap) as [Hlt|Hge].
  - destruct (fpm_emplace_anywhere _ _ _ v Hp Hlt) as (p' & i & -> & _). exact I.
  - rewrite (fpm_emplace_full _ _ _ v Hp Hge). exact I.
Qed.

Lemma update_safely st h s f : areas.at_ st h s -> safely (update_space st h f) (fun _ => True).
Proof. intros (SM & Hp & _ & Hs). unfold update_space. destruct (fpm_modify _ _ _ _ _ f Hp Hs) as (p' & -> & _). exact I. Qed.

Lemma add_area_safely st h s a : areas.at_ st h s -> safely (add_area st h a) (fun _ => True).
Proof.
  intros Hat. unfold add_area. rewrite (areas.at_get _ _ _ Hat), mbind_Ret. destruct (areas.at_space_ok _ _ _ Hat) as [ma Hso].
  eapply safely_bind; [exact (emplace_safely _ _ _ _ (areas.so_areas _ _ Hso))|]. intros [p k] _.
  eapply safely_bind; [exact (update_safely _ _ _ _ Hat)|]. intros st' _. exact I.
Qed.

Lemma add_linear_safely st h s ph : areas.at_ st h s -> safely (add_linear st h ph) (fun _ => True).
Proof.
  intros Hat. unfold add_linear. rewrite (areas.at_get _ _ _ Hat), mbind_Ret. destruct (areas.at_space_ok _ _ _ Hat) as [ma Hso].
  destruct (areas.so_linear _ _ Hso) as (ml & Hml & _). eapply safely_bind; [exact (emplace_safely _ _ _ _ Hml)|]. intros [p k] _.
  eapply safely_bind; [exact (update_safely _ _ _ _ Hat)|]. intros st' _. exact I.
Qed.

Lemma add_file_safely st h s f : areas.at_ st h s -> safely (add_file st h f) (fun _ => True).
Proof.
  intros Hat. unfold add_file. rewrite (areas.at_get _ _ _ Hat), mbind_Ret. destruct (areas.at_space_ok _ _ _ Hat) as [ma Hso].
  destruct (areas.so_file _ _ Hso) as (mf & Hmf & _). eapply safely_bind; [exact (emplace_safely _ _ _ _ Hmf)|]. intros [p k] _.
  eapply safely_bind; [exact (update_safely _ _ _ _ Hat)|]. intros st' _. exact I.
Qed.

Lemma overlaps_safely st h s a b : areas.at_ st h s -> safely (overlaps_existing_area st h a b) (fun _ => True).
Proof. intros Hat. unfold overlaps_existing_area. rewrite (areas.at_get _ _ _ Hat). exact I. Qed.

Lemma mem_map_alloc_safely st h s a b f : areas.at_ st h s -> safely (mem_map_alloc st h a b f) (fun _ => True).
Proof.
  intros Hat. unfold mem_map_alloc. eapply safely_bind; [exact (overlaps_safely _ _ _ _ _ Hat)|]. intros o _.
  eapply safely_bind; [apply safely_passert|]. intros ? _. exact (add_area_safely _ _ _ _ Hat).
Qed.

Lemma mem_map_linear_safely st h s a b ph f : areas.at_ st h s -> safely (mem_map_linear st h a b ph f) (fun _ => True).
Proof.
  intros Hat. unfold mem_map_linear. eapply safely_bind; [exact (overlaps_safely _ _ _ _ _ Hat)|]. intros o _.
  eapply safely_bind; [apply safely_passert|]. intros ? _. destruct (areas.at_space_ok _ _ _ Hat) as [ma Hso].
  eapply safely_bind; [exact (safely_ensures _ _ (add_linear_safely _ _ _ ph Hat) (areas.add_linear_at st h s ma ph Hat Hso))|].
  intros [st1 k] (s1 & Hat1 & _). exact (add_area_safely _ _ _ _ Hat1).
Qed.

Lemma mem_map_fd_safely st h s a b fd o n f : areas.at_ st h s -> safely (mem_map_fd st h a b fd o n f) (fun _ => True).
Proof.
  intros Hat. unfold mem_map_fd. eapply safely_bind; [exact (overlaps_safely _ _ _ _ _ Hat)|]. intros ov _.
  do 2 (eapply safely_bind; [apply safely_passert|]; intros ? _). destruct (areas.at_space_ok _ _ _ Hat) as [ma Hso].
  eapply safely_bind; [exact (safely_ensures _ _ (add_file_safely _ _ _ _ Hat) (areas.add_file_at st h s ma _ Hat Hso))|].
  intros [st1 k] (s1 & Hat1 & _). exact (add_area_safely _ _ _ _ Hat1).
Qed.

Lemma mem_map_linear_wf st SM ND NT DA TA h s a b ph f : paging.wf st SM ND NT DA TA -> SM !! h = Some s ->
  ensures (mem_map_linear st h a b ph f) (fun r => exists s', paging.wf r.1 (<[h := s']> SM) ND NT DA TA /\ sp_page_dir s' = sp_page_dir s /\ faults.respaced st r.1).
Proof.
  intros Hwf Hs. unfold mem_map_linear. do 2 (eapply ensures_bind; [apply ensures_eq|]; intros ? _).
  eapply (ensures_bind _ _ (fun r => exists s', paging.wf r.1 (<[h := s']> SM) ND NT DA TA /\ sp_page_dir s' = sp_page_dir s /\ faults.respaced st r.1)).
  - unfold add_linear, get_space. rewrite (fpm_get _ _ _ _ (paging.wf_spaces _ _ _ _ _ _ Hwf)), Hs, mbind_Ret.
    eapply ensures_bind; [apply ensures_eq|]. intros [p k] _.
    destruct (faults.update_space_wf st SM ND NT DA TA h s (fun s => mk_space (sp_page_dir s) (sp_areas s) p (sp_file_maps s)) Hwf Hs eq_refl) as (st' & -> & Hwf' & Hr).
    rewrite mbind_Ret. eexists. split; [exact Hwf'|]. auto.
  - intros [st1 k] (s1 & Hwf1 & Hd1 & Hr1).
    eapply ensures_mono; [apply (faults.add_area_wf st1 (<[h := s1]> SM) ND NT DA TA h s1); [exact Hwf1|apply lookup_insert_eq]|].
    intros [st2 j] (s2 & Hwf2 & Hd2 & Hr2). exists s2. rewrite insert_insert_eq in Hwf2. split; [exact Hwf2|]. split; [congruence|].
    destruct Hr1, Hr2. constructor; simpl in *; congruence.
Qed.

(** All three put together: a new area, and nothing else *)
Definition area_added st st1 (SM : gmap Z space_info) (ND NT : Z) (DA TA : gset Z) (h : Z) (s : space_info) : Prop :=
  areas.ok st1 /\ exists s', paging.wf st1 (<[h := s']> SM) ND NT DA TA /\ sp_page_dir s' = sp_page_dir s /\ faults.respaced st st1.

Lemma wf_at st SM ND NT DA TA h s : paging.wf st SM ND NT DA TA -> areas.ok st -> SM !! h = Some s -> areas.at_ st h s.
Proof.
  intros Hwf Hok Hs. apply (ensures_elim _ _ _ (areas.get_space_at st h Hok)). unfold get_space.
  rewrite (fpm_get _ _ _ _ (paging.wf_spaces _ _ _ _ _ _ Hwf)), Hs. reflexivity.
Qed.

Lemma mem_map_alloc_added st SM ND NT DA TA h s a b f : paging.wf st SM ND NT DA TA -> areas.ok st -> SM !! h = Some s ->
  safely (mem_map_alloc st h a b f) (fun r => area_added st r.1 SM ND NT DA TA h s).
Proof.
  intros Hwf Hok Hs. apply safely_ensures; [eapply mem_map_alloc_safely, wf_at; eauto|].
  eapply ensures_mono; [apply ensures_and; [exact (areas.mem_map_alloc_ok st h a b f Hok)|exact (faults.mem_map_alloc_wf st SM ND NT DA TA h s a b f Hwf Hs)]|].
  intros r [H1 H2]. split; [exact (areas.added_ok _ _ _ _ _ H1)|exact H2].
Qed.

Lemma mem_map_linear_added st SM ND NT DA TA h s a b ph f : paging.wf st SM ND NT DA TA -> areas.ok st -> SM !! h = Some s ->
  safely (mem_map_linear st h a b ph f) (fun r => area_added st r.1 SM ND NT DA TA h s).
Proof.
  intros Hwf Hok Hs. apply safely_ensures; [eapply mem_map_linear_safely, wf_at; eauto|].
  eapply ensures_mono; [apply ensures_and; [exact (areas.mem_map_linear_ok st h a b ph f Hok)|exact (mem_map_linear_wf st SM ND NT DA TA h s a b ph f Hwf Hs)]|].
  intros r [[n H1] H2]. split; [exact (areas.added_ok _ _ _ _ _ H1)|exact H2].
Qed.

Lemma mem_map_fd_added st SM ND NT DA TA h s a b fd o n f : paging.wf st SM ND NT DA TA -> areas.ok st -> SM !! h = Some s ->
  safely (mem_map_fd st h a b fd o n f) (fun r => area_added st r.1 SM ND NT DA TA h s).
Proof.
  intros Hwf Hok Hs. apply safely_ensures; [eapply mem_map_fd_safely, wf_at; eauto|].
  eapply ensures_mono; [apply ensures_and; [exact (areas.mem_map_fd_ok st h a b fd o n f Hok)|exact (faults.mem_map_fd_wf st SM ND NT DA TA h s a b fd o n f Hwf Hs)]|].
  intros r [[k H1] H2]. split; [exact (areas.added_ok _ _ _ _ _ H1)|exact H2].
Qed.

(** ** The whole fork *)

(** What becomes of an address of area [a] in the child, whose directory is [x] *)
Definition good st (A : gset Z) (src : space_info) (x : Z) (a : area_info) (A' : gset Z) st' (v : Z) : Prop :=
  if has (a_flags a) MEM_AREA_NO_FORK then paging.walk st' (new_space x) v = None
  else if a_type a =? AREA_LINEAR_MAP then shared_copy st st' src (new_space x) v
  else if a_type a =? AREA_ALLOC then private_copy st st' A A' src (new_space x) (a_flags a) v
  else paging.walk st' (new_space x) v = None.

Lemma good_keep st A src x a A1 A3 st1 st3 v : good st A src x a A1 st1 v -> paging.walk st3 (new_space x) v = paging.walk st1 (new_space x) v ->
  (forall y, y ∈ A1 -> y ∈ A3) -> (forall y k, y ∈ A1 -> 0 <= k < 4096 -> ram st3 (y + k) = ram st1 (y + k)) -> good st A src x a A3 st3 v.
Proof.
  intros Hg Hw Hsub Hram. unfold good in *. destruct (has (a_flags a) MEM_AREA_NO_FORK); [congruence|].
  destruct (a_type a =? AREA_LINEAR_MAP); [unfold shared_copy in *; rewrite Hw; exact Hg|]. destruct (a_type a =? AREA_ALLOC); [|congruence].
  unfold private_copy in *. rewrite Hw. destruct (paging.walk st src v) as [e|]; [|exact Hg]. destruct Hg as (y & Hy & Hny & Hwy & Hk). exists y.
  split; [auto|]. split; [exact Hny|]. split; [exact Hwy|]. intros k Hk'. rewrite Hram by assumption. auto.
Qed.

Definition is_private (a : area_info) : Prop := has (a_flags a) MEM_AREA_NO_FORK = false /\ a_type a = AREA_ALLOC.

Lemma good_private st A src x a A' st' v : is_private a -> good st A src x a A' st' v -> private_copy st st' A A' src (new_space x) (a_flags a) v.
Proof. intros [H1 H2]. unfold good. rewrite H1, H2. auto. Qed.

(** The frames of a new area are its own. *)
Definition own_frames (A1 : gset Z) st3 (x : Z) (a : area_info) : Prop := is_private a -> forall v, areas.covers a v ->
  (forall e, paging.walk st3 (new_space x) v = Some e -> pte_frame e ∉ A1) /\
  forall v', areas.covers a v' -> v / 4096 <> v' / 4096 -> apart st3 (new_space x) v v'.

Record forked st st1 (SM : gmap Z space_info) (ND NT : Z) (DA TA : gset Z) (N : Z) (A A1 : gset Z) (d x : Z) (src : space_info) (done : list area_info) : Prop := {
  fk_wf : exists SM1 TA1 sd, paging.wf st1 SM1 ND NT DA TA1 /\ (forall y, y ∈ TA -> y ∈ TA1) /\ SM1 !! d = Some sd /\ sp_page_dir sd = x /\
      forall h, h <> d -> SM1 !! h = SM !! h;
  fk_ok : areas.ok st1;
  fk_holds : holds st1 N A1;
  fk_sub : forall y, y ∈ A -> y ∈ A1;
  fk_current : current_space st1 = current_space st;
  fk_vstate : vstate st1 = vstate st;
  fk_ram : forall y, (forall z, z ∈ A1 -> z ∉ A -> ~ (z <= y < z + 4096)) -> ram st1 y = ram st y;
  fk_walk : forall h s v, SM !! h = Some s -> h <> d -> 0 <= v < 2 ^ 32 -> paging.walk st1 s v = paging.walk st s v;
  fk_good : forall a v, a ∈ done -> areas.covers a v -> good st A src x a A1 st1 v;
  fk_apart : forall a b v v', a ∈ done -> b ∈ done -> is_private a -> is_private b -> areas.covers a v -> areas.covers b v' -> v / 4096 <> v' / 4096 ->
    apart st1 (new_space x) v v';
  fk_rest : forall v, 0 <= v < 2 ^ 32 -> (forall a, a ∈ done -> ~ areas.covers a v) -> paging.walk st1 (new_space x) v = None
}.

Lemma forked_ram st st1 SM ND NT DA TA N A A1 d x src done y k : forked st st1 SM ND NT DA TA N A A1 d x src done -> holds st N A -> y ∈ A -> 0 <= k < 4096 ->
  ram st1 (y + k) = ram st (y + k).
Proof.
  intros Hf Hh Hy Hk. apply (fk_ram _ _ _ _ _ _ _ _ _ _ _ _ _ _ Hf). intros z Hz Hnz. destruct (held_page _ _ _ _ Hh Hy) as [_ Hya].
  destruct (held_page _ _ _ _ (fk_holds _ _ _ _ _ _ _ _ _ _ _ _ _ _ Hf) Hz) as [_ Hza]. apply pages_apart; auto. intros ->. exact (Hnz Hy).
Qed.

(** Areas a fork can deal with *)
Record forkable st (A : gset Z) (src : space_info) (a : area_info) : Prop := {
  fo_bounds : 0 <= a_start a <= a_end a /\ a_end a < 2 ^ 32;
  fo_aligned : a_start a mod 4096 = 0 /\ a_end a mod 4096 = 0;
  fo_linear : a_type a = AREA_LINEAR_MAP -> exists i, pool.get U16_MAX (sp_linear_maps src) (a_info a) = Ret i;
  fo_file : a_type a = AREA_FILE -> exists i, pool.get U16_MAX (sp_file_maps src) (a_info a) = Ret i;
  fo_frames : a_type a = AREA_ALLOC -> forall v e, areas.covers a v -> paging.walk st src v = Some e -> pte_frame e ∈ A
}.

Lemma area_pages a st A src : forkable st A src a -> a_end a = a_start a + 4096 * Z.of_nat (Z.to_nat ((a_end a - a_start a) / 4096)) /\
  (Z.to_nat ((a_end a - a_start a) / 4096) < page_rounds (a_start a) (a_end a))%nat.
Proof.
  intros [[Hb _] [H1 H2] _ _ _]. assert ((a_end a - a_start a) mod 4096 = 0) as Hm by (rewrite Zminus_mod, H1, H2; reflexivity).
  pose proof (Z.div_mod (a_end a - a_start a) 4096). pose proof (Z.div_pos (a_end a - a_start a) 4096). split; [lia|].
  unfold page_rounds. assert ((a_end a - a_start a) / 4096 <= (a_end a - a_start a + 0xFFF) / 0x1000) by (apply Z.div_le_mono; lia). lia.
Qed.

(** One more area *)
Lemma forked_extend st st1 st2 st3 SM SM1 ND NT DA TA TA1 N A A1 A3 d x src done a sd s' :
  forked st st1 SM ND NT DA TA N A A1 d x src done -> (forall y, y ∈ TA -> y ∈ TA1) -> (forall h, h <> d -> SM1 !! h = SM !! h) ->
  SM1 !! d = Some sd -> sp_page_dir sd = x -> sp_page_dir s' = sp_page_dir sd -> areas.ok st2 -> faults.respaced st1 st2 ->
  cloning st2 st3 (<[d := s']> SM1) ND NT DA TA1 N A1 A3 d -> (forall b, b ∈ done -> areas.disjoint a b) -> forkable st A src a ->
  (forall v, areas.covers a v -> good st A src x a A3 st3 v) ->
  (forall v, 0 <= v < 2 ^ 32 -> ~ areas.covers a v -> paging.walk st3 s' v = paging.walk st2 s' v) ->
  (forall b, b ∈ done -> forkable st A src b) -> own_frames A1 st3 x a ->
  forked st st3 SM ND NT DA TA N A A3 d x src (a :: done).
Proof.
  intros Hf Hsub1 HSM Hsd Hx Hs' Hok [R1 R2 R3 R4 R5 R6 R7] Hc Hdis Hfo Hga Hout Hdone Hown. pose proof (cl_wf _ _ _ _ _ _ _ _ _ _ _ Hc) as (TA3 & Hwf3 & Hsub3).
  assert (forall v, paging.walk st2 s' v = paging.walk st1 (new_space x) v) as Hw21.
  { intros v. rewrite (faults.walk_same st1) by exact R4. apply walk_dir. simpl. congruence. }
  assert (forall v, paging.walk st3 s' v = paging.walk st3 (new_space x) v) as Hw3 by (intros v; apply walk_dir; simpl; congruence).
  assert (forall v, 0 <= v < 2 ^ 32 -> ~ areas.covers a v -> paging.walk st3 (new_space x) v = paging.walk st1 (new_space x) v) as Hwout.
  { intros v Hv Hn. rewrite <-Hw3, Hout, Hw21 by assumption. reflexivity. }
  assert (holds st2 N A1) as Hh2 by (destruct (fk_holds _ _ _ _ _ _ _ _ _ _ _ _ _ _ Hf) as (u & Hu & Hr); exists u; split; [congruence|exact Hr]).
  constructor.
  - exists (<[d := s']> SM1), TA3, s'. split; [exact Hwf3|]. split; [auto|]. split; [apply lookup_insert_eq|]. split; [congruence|].
    intros h Hh. rewrite lookup_insert_ne by congruence. auto.
  - apply (areas.ok_keep st2); [exact (cl_spaces _ _ _ _ _ _ _ _ _ _ _ Hc)|exact Hok].
  - exact (cl_holds _ _ _ _ _ _ _ _ _ _ _ Hc).
  - intros y Hy. apply (cl_sub _ _ _ _ _ _ _ _ _ _ _ Hc), (fk_sub _ _ _ _ _ _ _ _ _ _ _ _ _ _ Hf), Hy.
  - rewrite (cl_current _ _ _ _ _ _ _ _ _ _ _ Hc), R5. exact (fk_current _ _ _ _ _ _ _ _ _ _ _ _ _ _ Hf).
  - rewrite (cl_vstate _ _ _ _ _ _ _ _ _ _ _ Hc), R7. exact (fk_vstate _ _ _ _ _ _ _ _ _ _ _ _ _ _ Hf).
  - intros y Hy. rewrite (cl_ram _ _ _ _ _ _ _ _ _ _ _ Hc), R6.
    + apply (fk_ram _ _ _ _ _ _ _ _ _ _ _ _ _ _ Hf). intros z Hz Hnz. apply Hy; [|exact Hnz]. exact (cl_sub _ _ _ _ _ _ _ _ _ _ _ Hc z Hz).
    + intros z Hz Hnz. apply Hy; [exact Hz|]. intros HzA. exact (Hnz (fk_sub _ _ _ _ _ _ _ _ _ _ _ _ _ _ Hf z HzA)).
  - intros h s v Hs Hne Hv. rewrite (cl_walk _ _ _ _ _ _ _ _ _ _ _ Hc h s v); [|rewrite lookup_insert_ne, HSM by congruence; exact Hs|exact Hne|exact Hv].
    rewrite (faults.walk_same st1) by exact R4. exact (fk_walk _ _ _ _ _ _ _ _ _ _ _ _ _ _ Hf h s v Hs Hne Hv).
  - intros b v Hb Hcov. apply elem_of_cons in Hb. destruct Hb as [->|Hb]; [auto|].
    apply (good_keep st A src x b A1 A3 st1 st3 v).
    + exact (fk_good _ _ _ _ _ _ _ _ _ _ _ _ _ _ Hf b v Hb Hcov).
    + destruct (fo_bounds _ _ _ _ (Hdone b Hb)). apply Hwout; [unfold areas.covers in Hcov; lia|]. specialize (Hdis b Hb). unfold areas.disjoint, areas.covers in *. lia.
    + exact (cl_sub _ _ _ _ _ _ _ _ _ _ _ Hc).
    + intros y k Hy Hk. rewrite <-R6. exact (cloning_ram _ _ _ _ _ _ _ _ _ _ _ _ _ Hc Hh2 Hy Hk).
  - assert (forall b v, b ∈ done -> areas.covers b v -> paging.walk st3 (new_space x) v = paging.walk st1 (new_space x) v) as Hsame.
    { intros b v Hb Hcov. destruct (fo_bounds _ _ _ _ (Hdone b Hb)). apply Hwout; [unfold areas.covers in Hcov; lia|]. specialize (Hdis b Hb). unfold areas.disjoint, areas.covers in *. lia. }
    assert (forall b v e, b ∈ done -> is_private b -> areas.covers b v -> paging.walk st3 (new_space x) v = Some e -> pte_frame e ∈ A1) as Hold.
    { intros b v e Hb Hpb Hcov He. rewrite (Hsame b v Hb Hcov) in He.
      exact (proj1 (private_frame _ _ _ _ _ _ _ _ _ _ (good_private _ _ _ _ _ _ _ _ Hpb (fk_good _ _ _ _ _ _ _ _ _ _ _ _ _ _ Hf b v Hb Hcov)) (fk_holds _ _ _ _ _ _ _ _ _ _ _ _ _ _ Hf) He)). }
    intros b c v v' Hb Hc' Hpb Hpc Hv Hv' Hne. apply elem_of_cons in Hb, Hc'. destruct Hb as [->|Hb], Hc' as [->|Hc'].
    + exact (proj2 (Hown Hpb v Hv) v' Hv' Hne).
    + intros e e' He He' Heq. apply (proj1 (Hown Hpb v Hv) e He). rewrite Heq. exact (Hold c v' e' Hc' Hpc Hv' He').
    + intros e e' He He' Heq. apply (proj1 (Hown Hpc v' Hv') e' He'). rewrite <-Heq. exact (Hold b v e Hb Hpb Hv He).
    + apply (apart_keep st1 st3 (new_space x) (new_space x)); [exact (Hsame b v Hb Hv)|exact (Hsame c v' Hc' Hv')|].
      exact (fk_apart _ _ _ _ _ _ _ _ _ _ _ _ _ _ Hf b c v v' Hb Hc' Hpb Hpc Hv Hv' Hne).
  - intros v Hv Hn. rewrite Hwout; [|exact Hv|apply Hn, list_elem_of_here]. apply (fk_rest _ _ _ _ _ _ _ _ _ _ _ _ _ _ Hf v Hv).
    intros b Hb. apply Hn, list_elem_of_further, Hb.
Qed.

(** The parent, and the process whose windows do the copying *)
Record parents st (SM : gmap Z space_info) (d ps hs : Z) (src : space_info) : Prop := {
  pa_proc : exists sp, SM !! ps = Some sp /\ ps <> d /\ paging.walk st sp SOURCE_WINDOW = None /\ paging.walk st sp DEST_WINDOW = None;
  pa_parent : SM !! hs = Some src /\ hs <> d
}.

(** The child with its new area, before pages are copied *)
Lemma area_setting st st1 st2 SM SM1 ND NT DA TA TA1 N A A1 d x ps hs src done a sd s' :
  forked st st1 SM ND NT DA TA N A A1 d x src done -> (forall h, h <> d -> SM1 !! h = SM !! h) -> SM1 !! d = Some sd -> sp_page_dir sd = x ->
  sp_page_dir s' = sp_page_dir sd -> paging.wf st2 (<[d := s']> SM1) ND NT DA TA1 -> faults.respaced st1 st2 -> parents st SM d ps hs src ->
  (forall b, b ∈ done -> areas.disjoint a b) -> (forall b, b ∈ done -> forkable st A src b) -> forkable st A src a ->
  setting st2 (<[d := s']> SM1) ND NT DA TA1 N A1 d s' ps hs src /\
  (forall v, areas.covers a v -> paging.walk st2 s' v = None) /\
  forall v, 0 <= v < 2 ^ 32 -> paging.walk st2 src v = paging.walk st src v.
Proof.
  intros Hf HSM Hsd Hx Hs' Hwf2 Hr [(sp & Hps & Hpd & Hw1 & Hw2) [Hhs Hhd]] Hdis Hdone Hfo.
  assert (0 <= SOURCE_WINDOW < 2 ^ 32 /\ 0 <= DEST_WINDOW < 2 ^ 32) as [HW1 HW2] by (vm_compute; repeat split; discriminate || reflexivity).
  assert (forall h s v, SM !! h = Some s -> h <> d -> 0 <= v < 2 ^ 32 -> paging.walk st2 s v = paging.walk st s v) as Hw.
  { intros h s v Hs Hne Hv. rewrite (faults.walk_same st1) by exact (faults.rs_tables _ _ Hr). exact (fk_walk _ _ _ _ _ _ _ _ _ _ _ _ _ _ Hf h s v Hs Hne Hv). }
  split; [constructor|split].
  - exact Hwf2.
  - destruct (fk_holds _ _ _ _ _ _ _ _ _ _ _ _ _ _ Hf) as (u & Hu & Hrep). exists u. rewrite (faults.rs_user _ _ Hr). auto.
  - apply lookup_insert_eq.
  - exists sp. rewrite lookup_insert_ne, HSM by congruence. rewrite !(Hw ps sp) by assumption. auto.
  - rewrite lookup_insert_ne, HSM by congruence. auto.
  - intros v Hv. rewrite (faults.walk_same st1) by exact (faults.rs_tables _ _ Hr). rewrite (walk_dir st1 (new_space x) s') by (simpl; congruence).
    destruct (fo_bounds _ _ _ _ Hfo). unfold areas.covers in Hv. apply (fk_rest _ _ _ _ _ _ _ _ _ _ _ _ _ _ Hf v); [lia|].
    intros b Hb Hcb. specialize (Hdis b Hb). unfold areas.disjoint, areas.covers in *. lia.
  - intros v Hv. exact (Hw hs src v Hhs Hhd Hv).
Qed.

(** A private copy made from the parent as it is now is one of the parent at
    the start of the fork. *)
Lemma private_copy_from st st2 st3 A A1 A3 src s' x flags v : paging.walk st2 src v = paging.walk st src v -> sp_page_dir s' = x ->
  (forall y, y ∈ A -> y ∈ A1) -> (forall e k, paging.walk st src v = Some e -> 0 <= k < 4096 -> ram st2 (pte_frame e + k) = ram st (pte_frame e + k)) ->
  private_copy st2 st3 A1 A3 src s' flags v -> private_copy st st3 A A3 src (new_space x) flags v.
Proof.
  intros Hw Hx Hsub Hram. unfold private_copy. rewrite Hw, (walk_dir st3 s' (new_space x)) by (simpl; congruence). destruct (paging.walk st src v) as [e|]; [|auto].
  intros (y & Hy & Hny & Hwy & Hk). exists y. split; [exact Hy|]. split; [auto|]. split; [exact Hwy|]. intros k Hk'. rewrite Hk, Hram by auto. reflexivity.
Qed.

Lemma shared_copy_from st st2 st3 src s' x v : paging.walk st2 src v = paging.walk st src v -> sp_page_dir s' = x ->
  shared_copy st2 st3 src s' v -> shared_copy st st3 src (new_space x) v.
Proof. intros Hw Hx. unfold shared_copy. rewrite Hw, (walk_dir st3 s' (new_space x)) by (simpl; congruence). auto. Qed.

(** An area that is not inherited leaves no trace. *)
Lemma fork_skip st st1 SM ND NT DA TA N A A1 d x src done a : forked st st1 SM ND NT DA TA N A A1 d x src done -> has (a_flags a) MEM_AREA_NO_FORK = true ->
  (forall b, b ∈ done -> areas.disjoint a b) -> forkable st A src a -> forked st st1 SM ND NT DA TA N A A1 d x src (a :: done).
Proof.
  intros Hf Hno Hdis Hfo. pose proof Hf as [F1 F2 F3 F4 F5 F6 F7 F8 F9 F11 F10]. constructor; try assumption.
  - intros b v Hb Hc. apply elem_of_cons in Hb. destruct Hb as [->|Hb]; [|auto]. unfold good. rewrite Hno. destruct (fo_bounds _ _ _ _ Hfo).
    unfold areas.covers in Hc. apply F10; [lia|]. intros b Hb Hcb. specialize (Hdis b Hb). unfold areas.disjoint, areas.covers in *. lia.
  - intros b c v v' Hb Hc [Hpb Hpb'] [Hpc Hpc']. apply elem_of_cons in Hb, Hc. destruct Hb as [->|Hb]; [congruence|]. destruct Hc as [->|Hc]; [congruence|].
    apply (F11 b c); unfold is_private; auto.
  - intros v Hv Hn. apply F10; [exact Hv|]. intros b Hb. apply Hn, list_elem_of_further, Hb.
Qed.

(** The three kinds of areas *)
Lemma fork_alloc st st1 SM ND NT DA TA N A A1 d x ps hs src done a : forked st st1 SM ND NT DA TA N A A1 d x src done -> holds st N A ->
  parents st SM d ps hs src -> (forall b, b ∈ done -> areas.disjoint a b) -> (forall b, b ∈ done -> forkable st A src b) -> forkable st A src a ->
  has (a_flags a) MEM_AREA_NO_FORK = false -> a_type a = AREA_ALLOC ->
  safely (copy_area st1 ps a src d) (fun st2 => exists A2, forked st st2 SM ND NT DA TA N A A2 d x src (a :: done)).
Proof.
  intros Hf Hh Hpa Hdis Hdone Hfo Hno Ht. destruct (fk_wf _ _ _ _ _ _ _ _ _ _ _ _ _ _ Hf) as (SM1 & TA1 & sd & Hwf1 & Hsub1 & Hsd & Hx & HSM).
  unfold copy_area. rewrite Ht. change (AREA_ALLOC =? AREA_LINEAR_MAP) with false. change (AREA_ALLOC =? AREA_FILE) with false. change (AREA_ALLOC =? AREA_ALLOC) with true. cbv iota.
  eapply safely_bind; [exact (mem_map_alloc_added st1 SM1 ND NT DA TA1 d sd _ _ _ Hwf1 (fk_ok _ _ _ _ _ _ _ _ _ _ _ _ _ _ Hf) Hsd)|].
  intros [st2 k] (Hok2 & s' & Hwf2 & Hs' & Hr). simpl in Hok2, Hwf2, Hr.
  destruct (area_setting st st1 st2 SM SM1 ND NT DA TA TA1 N A A1 d x ps hs src done a sd s' Hf HSM Hsd Hx Hs' Hwf2 Hr Hpa Hdis Hdone Hfo) as (Hset & Hempty & Hsrc).
  destruct (area_pages _ _ _ _ Hfo) as [Hn Hfuel]. pose proof Hfo as [[Hb1 Hb2] [Hal _] _ _ Hfr].
  eapply safely_mono; [apply (copy_alloc_loop_safely st2 (<[d := s']> SM1) ND NT DA TA1 N A1 d s' ps hs src (a_start a) (a_end a) (a_flags a) Hset) with (n := Z.to_nat ((a_end a - a_start a) / 4096)); try assumption; try lia|].
  - intros v e Hv He. rewrite Hsrc in He by lia. apply (fk_sub _ _ _ _ _ _ _ _ _ _ _ _ _ _ Hf). exact (Hfr Ht v e Hv He).
  - exists A1. split; [apply cloning_refl; [exact Hwf2|exact (se_holds _ _ _ _ _ _ _ _ _ _ _ _ _ Hset)]|]. split; [intros; lia|]. reflexivity.
  - intros st3 (A3 & Hc & Hgood & Hrest). exists A3.
    assert (forall v, paging.walk st3 (new_space x) v = paging.walk st3 s' v) as Hdir by (intros v; apply walk_dir; simpl; congruence).
    apply (forked_extend st st1 st2 st3 SM SM1 ND NT DA TA TA1 N A A1 A3 d x src done a sd s'); try assumption.
    2:{ intros _ v Hv. split.
        - intros e He. rewrite Hdir in He. exact (proj2 (private_frame _ _ _ _ _ _ _ _ _ _ (proj1 (Hgood v Hv)) (cl_holds _ _ _ _ _ _ _ _ _ _ _ Hc) He)).
        - intros v' Hv' Hne. apply (apart_keep st3 st3 s' (new_space x)); [apply Hdir..|]. destruct (Z.lt_gt_cases (v / 4096) (v' / 4096)) as [Hcmp _].
          destruct (Hcmp Hne) as [Hlt|Hlt]; [|apply (proj2 (Hgood v Hv)); [unfold areas.covers in Hv'; lia|exact Hlt]].
          intros e e' He He' Heq. exact (proj2 (Hgood v' Hv') v ltac:(unfold areas.covers in Hv; lia) Hlt e' e He' He (eq_sym Heq)). }
    intros v Hv. unfold good. rewrite Hno, Ht. change (AREA_ALLOC =? AREA_LINEAR_MAP) with false. change (AREA_ALLOC =? AREA_ALLOC) with true. cbv iota.
    apply (private_copy_from st st2 st3 A A1 A3 src s' x); [unfold areas.covers in Hv; apply Hsrc; lia|congruence|exact (fk_sub _ _ _ _ _ _ _ _ _ _ _ _ _ _ Hf)| |exact (proj1 (Hgood v Hv))].
    intros e j He Hj. rewrite (faults.rs_ram _ _ Hr). exact (forked_ram _ _ _ _ _ _ _ _ _ _ _ _ _ _ _ _ Hf Hh (Hfr Ht v e Hv He) Hj).
Qed.

Lemma fork_linear st st1 SM ND NT DA TA N A A1 d x ps hs src done a : forked st st1 SM ND NT DA TA N A A1 d x src done ->
  parents st SM d ps hs src -> (forall b, b ∈ done -> areas.disjoint a b) -> (forall b, b ∈ done -> forkable st A src b) -> forkable st A src a ->
  has (a_flags a) MEM_AREA_NO_FORK = false -> a_type a = AREA_LINEAR_MAP ->
  safely (copy_area st1 ps a src d) (fun st2 => exists A2, forked st st2 SM ND NT DA TA N A A2 d x src (a :: done)).
Proof.
  intros Hf Hpa Hdis Hdone Hfo Hno Ht. destruct (fk_wf _ _ _ _ _ _ _ _ _ _ _ _ _ _ Hf) as (SM1 & TA1 & sd & Hwf1 & Hsub1 & Hsd & Hx & HSM).
  unfold copy_area. rewrite Ht. change (AREA_LINEAR_MAP =? AREA_LINEAR_MAP) with true. cbv iota. destruct (fo_linear _ _ _ _ Hfo Ht) as (info & ->). rewrite mbind_Ret.
  eapply safely_bind; [exact (mem_map_linear_added st1 SM1 ND NT DA TA1 d sd _ _ _ _ Hwf1 (fk_ok _ _ _ _ _ _ _ _ _ _ _ _ _ _ Hf) Hsd)|].
  intros [st2 k] (Hok2 & s' & Hwf2 & Hs' & Hr). simpl in Hok2, Hwf2, Hr.
  destruct (area_setting st st1 st2 SM SM1 ND NT DA TA TA1 N A A1 d x ps hs src done a sd s' Hf HSM Hsd Hx Hs' Hwf2 Hr Hpa Hdis Hdone Hfo) as (Hset & Hempty & Hsrc).
  destruct (area_pages _ _ _ _ Hfo) as [Hn Hfuel]. pose proof Hfo as [[Hb1 Hb2] [Hal _] _ _ _].
  eapply safely_mono; [apply (copy_linear_loop_safely st2 (<[d := s']> SM1) ND NT DA TA1 N A1 d s' ps hs src (a_start a) (a_end a) Hset) with (n := Z.to_nat ((a_end a - a_start a) / 4096)); try assumption; try lia|].
  - exists A1. split; [apply cloning_refl; [exact Hwf2|exact (se_holds _ _ _ _ _ _ _ _ _ _ _ _ _ Hset)]|]. split; [intros; lia|]. reflexivity.
  - intros st3 (A3 & Hc & Hgood & Hrest). exists A3.
    apply (forked_extend st st1 st2 st3 SM SM1 ND NT DA TA TA1 N A A1 A3 d x src done a sd s'); try assumption.
    2:{ intros [_ Hpriv]. rewrite Ht in Hpriv. discriminate. }
    intros v Hv. unfold good. rewrite Hno, Ht. change (AREA_LINEAR_MAP =? AREA_LINEAR_MAP) with true. cbv iota.
    apply (shared_copy_from st st2 st3 src s' x); [unfold areas.covers in Hv; apply Hsrc; lia|congruence|exact (Hgood v Hv)].
Qed.

Lemma fork_file st st1 SM ND NT DA TA N A A1 d x ps hs src done a : forked st st1 SM ND NT DA TA N A A1 d x src done ->
  parents st SM d ps hs src -> (forall b, b ∈ done -> areas.disjoint a b) -> (forall b, b ∈ done -> forkable st A src b) -> forkable st A src a ->
  has (a_flags a) MEM_AREA_NO_FORK = false -> a_type a = AREA_FILE ->
  safely (copy_area st1 ps a src d) (fun st2 => exists A2, forked st st2 SM ND NT DA TA N A A2 d x src (a :: done)).
Proof.
  intros Hf Hpa Hdis Hdone Hfo Hno Ht. destruct (fk_wf _ _ _ _ _ _ _ _ _ _ _ _ _ _ Hf) as (SM1 & TA1 & sd & Hwf1 & Hsub1 & Hsd & Hx & HSM).
  unfold copy_area. rewrite Ht. change (AREA_FILE =? AREA_LINEAR_MAP) with false. change (AREA_FILE =? AREA_FILE) with true. cbv iota.
  destruct (fo_file _ _ _ _ Hfo Ht) as (info & ->). rewrite mbind_Ret.
  eapply safely_bind; [exact (mem_map_fd_added st1 SM1 ND NT DA TA1 d sd _ _ _ _ _ _ Hwf1 (fk_ok _ _ _ _ _ _ _ _ _ _ _ _ _ _ Hf) Hsd)|].
  intros [st2 k] (Hok2 & s' & Hwf2 & Hs' & Hr). simpl in Hok2, Hwf2, Hr. exists A1.
  destruct (area_setting st st1 st2 SM SM1 ND NT DA TA TA1 N A A1 d x ps hs src done a sd s' Hf HSM Hsd Hx Hs' Hwf2 Hr Hpa Hdis Hdone Hfo) as (Hset & Hempty & Hsrc).
  apply (forked_extend st st1 st2 st2 SM SM1 ND NT DA TA TA1 N A A1 A1 d x src done a sd s'); try assumption; [apply cloning_refl; [exact Hwf2|exact (se_holds _ _ _ _ _ _ _ _ _ _ _ _ _ Hset)]| |reflexivity|intros [_ Hpriv]; rewrite Ht in Hpriv; discriminate].
  intros v Hv. unfold good. rewrite Hno, Ht. change (AREA_FILE =? AREA_LINEAR_MAP) with false. change (AREA_FILE =? AREA_ALLOC) with false. cbv iota.
  rewrite <-(Hempty v Hv). apply walk_dir. simpl. congruence.
Qed.

Lemma fork_one st st1 SM ND NT DA TA N A A1 d x ps hs src done a : forked st st1 SM ND NT DA TA N A A1 d x src done -> holds st N A ->
  parents st SM d ps hs src -> (forall b, b ∈ done -> areas.disjoint a b) -> (forall b, b ∈ done -> forkable st A src b) -> forkable st A src a ->
  a_type a = AREA_LINEAR_MAP \/ a_type a = AREA_ALLOC \/ a_type a = AREA_FILE ->
  safely (if has (a_flags a) MEM_AREA_NO_FORK then Ret st1 else copy_area st1 ps a src d)
    (fun st2 => exists A2, forked st st2 SM ND NT DA TA N A A2 d x src (a :: done)).
Proof.
  intros Hf Hh Hpa Hdis Hdone Hfo Ht. destruct (has (a_flags a) MEM_AREA_NO_FORK) eqn:Hno; [exists A1; apply fork_skip; assumption|].
  destruct Ht as [Ht|[Ht|Ht]]; eauto using fork_linear, fork_alloc, fork_file.
Qed.

(** All areas of the parent, whose map is [ma] *)
Lemma fork_areas_safely st SM ND NT DA TA N A d x ps hs src ma : holds st N A -> parents st SM d ps hs src -> areas.space_ok src ma ->
  (forall i a, ma !! i = Some a -> forkable st A src a) ->
  forall l pre st1 A1, forked st st1 SM ND NT DA TA N A A1 d x src pre.*2 -> (forall i a, (i, a) ∈ l \/ (i, a) ∈ pre -> ma !! i = Some a) ->
  (forall i a j b, (i, a) ∈ l -> (j, b) ∈ pre -> i <> j) -> StronglySorted Z.lt l.*1 ->
  safely (fork_areas st1 ps l src d) (fun st2 => exists A2, forked st st2 SM ND NT DA TA N A A2 d x src (reverse l ++ pre).*2).
Proof.
  intros Hh Hpa Hso Hfo. induction l as [|[i a] l IH]; intros pre st1 A1 Hf Hin Hne Hs; cbn [fork_areas]; [exists A1; exact Hf|].
  apply StronglySorted_inv in Hs. destruct Hs as [Hs Hlt]. rewrite Forall_forall in Hlt.
  assert (ma !! i = Some a) as Hi by (apply Hin; left; apply list_elem_of_here).
  assert (forall b, b ∈ pre.*2 -> exists j, (j, b) ∈ pre /\ ma !! j = Some b) as Hpre.
  { intros b Hb. apply list_elem_of_fmap in Hb. destruct Hb as ([j b'] & -> & Hb). exists j. auto. }
  eapply safely_bind.
  { apply (fork_one st st1 SM ND NT DA TA N A A1 d x ps hs src pre.*2 a Hf Hh Hpa).
    - intros b Hb. destruct (Hpre b Hb) as (j & Hj & Hmj). apply (areas.so_disjoint _ _ Hso i a j b Hi Hmj). apply (Hne i a j b); [apply list_elem_of_here|exact Hj].
    - intros b Hb. destruct (Hpre b Hb) as (j & _ & Hmj). eauto.
    - eauto.
    - exact (areas.so_type _ _ Hso i a Hi). }
  intros st2 (A2 & Hf2). rewrite reverse_cons, <-app_assoc. apply (IH ((i, a) :: pre) st2 A2 Hf2); [| |exact Hs].
  - intros j b [Hj|Hj]; [apply Hin; left; apply list_elem_of_further, Hj|]. apply elem_of_cons in Hj. destruct Hj as [Hj|Hj]; [injection Hj as -> ->; exact Hi|auto].
  - intros j b j' b' Hj Hj'. apply elem_of_cons in Hj'. destruct Hj' as [Hj'|Hj']; [|exact (Hne j b j' b' (list_elem_of_further _ _ _ Hj) Hj')].
    injection Hj' as -> ->. specialize (Hlt j). assert (j ∈ l.*1) as Hjl by (apply list_elem_of_fmap; exists (j, b); auto). specialize (Hlt Hjl). simpl in Hlt. lia.
Qed.

(** The space the fork starts from *)
Lemma create_space_safely st SM ND NT DA TA : paging.wf st SM ND NT DA TA -> areas.ok st ->
  safely (mem_create_space st) (fun r => exists x, SM !! r.2 = None /\ areas.ok r.1 /\ paging.wf r.1 (<[r.2 := new_space x]> SM) ND NT ({[x]} ∪ DA) TA /\
    (forall v, 0 <= v < 2 ^ 32 -> paging.walk r.1 (new_space x) v = None) /\ (forall h s v, SM !! h = Some s -> paging.walk r.1 s v = paging.walk st s v) /\
    user_space_allocator r.1 = user_space_allocator st /\ current_space r.1 = current_space st /\ vstate r.1 = vstate st /\ ram r.1 = ram st).
Proof.
  intros Hwf Hok. destruct (Z.lt_ge_cases (Z.of_nat (base.size DA)) ND) as [Hd|Hd].
  2:{ unfold mem_create_space, alloc_dir. rewrite (page_allocator.pa_alloc_exhausted _ _ _ (paging.wf_dirs _ _ _ _ _ _ Hwf) Hd). exact I. }
  destruct (Z.lt_ge_cases (Z.of_nat (base.size SM)) 128) as [Hn|Hn].
  2:{ unfold mem_create_space, alloc_dir. destruct (page_allocator.pa_alloc _ _ _ (paging.wf_dirs _ _ _ _ _ _ Hwf) Hd) as (a & x & -> & _). rewrite !mbind_Ret.
      cbn [spaces set_tables set_dir_alloc]. rewrite (fpm_emplace_full _ _ _ _ (paging.wf_spaces _ _ _ _ _ _ Hwf) Hn). exact I. }
  destruct (paging.create_space_ok st SM ND NT DA TA Hwf Hd Hn) as (st1 & h & x & E & Hh & Hwf1 & Hnew & Hold).
  pose proof (ensures_elim _ _ _ (areas.mem_create_space_ok st Hok) E) as Hok1. rewrite E. exists x. cbn [fst snd] in *. do 5 (split; [assumption|]).
  unfold mem_create_space, alloc_dir in E. bind_ret E. destruct a as [st0 y]. bind_ret Es. destruct a as [u z]. bind_ret E. destruct a as [p j].
  injection Es as <- <-. injection E as <- _. auto.
Qed.

Lemma mem_fork_space_safely st SM ND NT DA TA N A ps sp hs src ma : paging.wf st SM ND NT DA TA -> areas.ok st -> holds st N A ->
  SM !! ps = Some sp -> paging.walk st sp SOURCE_WINDOW = None -> paging.walk st sp DEST_WINDOW = None ->
  SM !! hs = Some src -> areas.space_ok src ma -> (forall i a, ma !! i = Some a -> forkable st A src a) ->
  safely (mem_fork_space st ps hs) (fun r => SM !! r.2 = None /\ exists x A2 done, forked st r.1 SM ND NT ({[x]} ∪ DA) TA N A A2 r.2 x src done /\
    forall a, a ∈ done <-> exists i, ma !! i = Some a).
Proof.
  intros Hwf Hok Hh Hps Hw1 Hw2 Hhs Hso Hfo. unfold mem_fork_space, get_space. rewrite (fpm_get _ _ _ _ (paging.wf_spaces _ _ _ _ _ _ Hwf)), Hhs, mbind_Ret.
  eapply safely_bind; [exact (create_space_safely st SM ND NT DA TA Hwf Hok)|]. intros [st1 d] (x & Hd & Hok1 & Hwf1 & Hnew & Hold & Hu & Hcu & Hv & Hr). cbn [fst snd] in *.
  destruct (areas.so_areas _ _ Hso) as [[fl Hrep] _]. pose proof (fun i a => pool.pool_entries_elem _ _ _ _ i a Hrep) as Hel.
  eapply safely_bind.
  { apply (fork_areas_safely st SM ND NT ({[x]} ∪ DA) TA N A d x ps hs src ma Hh) with (pre := []) (A1 := A); try assumption.
    - split; [exists sp; repeat split; try assumption; congruence|split; congruence].
    - constructor; try assumption; auto.
      + exists (<[d := new_space x]> SM), TA, (new_space x). split; [exact Hwf1|]. split; [auto|]. split; [apply lookup_insert_eq|]. split; [reflexivity|].
        intros h Hne. apply lookup_insert_ne. congruence.
      + destruct Hh as (u & Hu' & Hr'). exists u. split; [congruence|exact Hr'].
      + intros y _. rewrite Hr. reflexivity.
      + intros h s v Hs _ _. exact (Hold h s v Hs).
      + intros a v Ha. apply elem_of_nil in Ha. destruct Ha.
      + intros a b v v' Ha. apply elem_of_nil in Ha. destruct Ha.
    - intros i a [Hi|Hi]; [apply Hel, Hi|apply elem_of_nil in Hi; destruct Hi].
    - intros i a j b _ Hj. apply elem_of_nil in Hj. destruct Hj.
    - exact (pool.pool_entries_sorted _ _ _ _ Hrep). }
  intros st2 (A2 & Hf). rewrite app_nil_r in Hf. split; [exact Hd|]. exists x, A2. eexists. split; [exact Hf|].
  intros a. rewrite list_elem_of_fmap. split.
  - intros ([i b] & -> & Hb). exists i. apply Hel. rewrite elem_of_reverse in Hb. exact Hb.
  - intros (i & Hi). exists (i, a). split; [reflexivity|]. rewrite elem_of_reverse. apply Hel, Hi.
Qed.

(** ** The areas of the child *)

Definition shape (a : area_info) : Z * Z * Z * Z := (a_start a, a_end a, a_type a, a_flags a).

Definition has_areas st (h : Z) (l : list (Z * Z * Z * Z)) : Prop :=
  exists s ma, areas.at_ st h s /\ areas.space_ok s ma /\ forall t, t ∈ l <-> exists i a, ma !! i = Some a /\ shape a = t.

Lemma space_map_unique s ma mb : areas.space_ok s ma -> areas.space_ok s mb -> ma = mb.
Proof.
  intros Ha Hb. apply map_eq. intros i. pose proof (fpm_get _ _ _ i (areas.so_areas _ _ Ha)) as E. rewrite (fpm_get _ _ _ i (areas.so_areas _ _ Hb)) in E.
  destruct (ma !! i), (mb !! i); congruence.
Qed.

Lemma at_unique st h s s' : areas.at_ st h s -> areas.at_ st h s' -> s = s'.
Proof. intros H H'. pose proof (areas.at_get _ _ _ H) as E. rewrite (areas.at_get _ _ _ H') in E. congruence. Qed.

Lemma added_has_areas st st' h l a k : has_areas st h l -> areas.added st h a st' k -> has_areas st' h (shape a :: l).
Proof.
  intros (s & ma & Hat & Hso & Hl) (s0 & s' & ma0 & Hat0 & Hso0 & Hat' & Hso' & Hk). rewrite <-(at_unique _ _ _ _ Hat Hat0) in Hso0. clear Hat0.
  rewrite <-(space_map_unique _ _ _ Hso Hso0) in Hso', Hk. exists s', (<[k := a]> ma). split; [exact Hat'|]. split; [exact Hso'|].
  intros t. rewrite elem_of_cons, Hl. split.
  - intros [->|(i & b & Hi & <-)]; [exists k, a; split; [apply lookup_insert_eq|reflexivity]|]. exists i, b. split; [|reflexivity].
    rewrite lookup_insert_ne; [exact Hi|]. congruence.
  - intros (i & b & Hi & <-). apply lookup_insert_Some in Hi. destruct Hi as [[_ <-]|[_ Hi]]; [left; reflexivity|right; eauto].
Qed.

Lemma keeps_has_areas st st' h l : spaces st' = spaces st -> has_areas st h l -> has_areas st' h l.
Proof. intros E (s & ma & Hat & H). exists s, ma. split; [exact (areas.at_keep _ _ _ _ E Hat)|exact H]. Qed.

Lemma has_areas_ok st h l : has_areas st h l -> areas.ok st.
Proof. intros (s & _ & Hat & _). exact (areas.at_ok _ _ _ Hat). Qed.

Lemma copy_area_shape st ps a src d l : has_areas st d l -> a_type a = AREA_LINEAR_MAP \/ a_type a = AREA_ALLOC \/ a_type a = AREA_FILE ->
  ensures (copy_area st ps a src d) (fun st' => has_areas st' d (shape a :: l)).
Proof.
  intros Hl Ht. pose proof (has_areas_ok _ _ _ Hl) as Hok. unfold copy_area, shape. destruct Ht as [Ht|[Ht|Ht]]; rewrite Ht; cbv [AREA_LINEAR_MAP AREA_FILE AREA_ALLOC Z.eqb Pos.eqb].
  - eapply ensures_bind; [apply ensures_eq|]. intros info _. eapply ensures_bind; [apply areas.mem_map_linear_ok, Hok|]. intros [st1 k] (n & Hadd).
    eapply ensures_mono; [apply areas.copy_linear_loop_keeps|]. intros st2 Hk. apply (keeps_has_areas st1); [exact Hk|]. exact (added_has_areas _ _ _ _ _ _ Hl Hadd).
  - eapply ensures_bind; [apply areas.mem_map_alloc_ok, Hok|]. intros [st1 k] Hadd.
    eapply ensures_mono; [apply areas.copy_alloc_loop_keeps|]. intros st2 Hk. apply (keeps_has_areas st1); [exact Hk|]. exact (added_has_areas _ _ _ _ _ _ Hl Hadd).
  - eapply ensures_bind; [apply ensures_eq|]. intros info _. eapply ensures_bind; [apply areas.mem_map_fd_ok, Hok|]. intros [st1 k] (n & Hadd).
    exact (added_has_areas _ _ _ _ _ _ Hl Hadd).
Qed.

(** The areas a child inherits *)
Definition inherited (ma : gmap Z area_info) (t : Z * Z * Z * Z) : Prop :=
  exists i a, ma !! i = Some a /\ has (a_flags a) MEM_AREA_NO_FORK = false /\ shape a = t.

Lemma fork_areas_shape ps src d : forall l st l0, has_areas st d l0 ->
  (forall i a, (i, a) ∈ l -> a_type a = AREA_LINEAR_MAP \/ a_type a = AREA_ALLOC \/ a_type a = AREA_FILE) ->
  ensures (fork_areas st ps l src d) (fun st' => exists l1, has_areas st' d l1 /\
    forall t, t ∈ l1 <-> t ∈ l0 \/ exists i a, (i, a) ∈ l /\ has (a_flags a) MEM_AREA_NO_FORK = false /\ shape a = t).
Proof.
  induction l as [|[i a] l IH]; intros st l0 Hl Ht; cbn [fork_areas].
  { exists l0. split; [exact Hl|]. intros t. split; [auto|]. intros [H|(i & a & Ha & _)]; [exact H|]. apply elem_of_nil in Ha. destruct Ha. }
  eapply (ensures_bind _ _ (fun st1 => has_areas st1 d (if has (a_flags a) MEM_AREA_NO_FORK then l0 else shape a :: l0))).
  - destruct (has (a_flags a) MEM_AREA_NO_FORK); [exact Hl|]. apply copy_area_shape; [exact Hl|]. apply (Ht i), list_elem_of_here.
  - intros st1 Hl1. eapply ensures_mono; [apply (IH st1 _ Hl1); intros j b Hj; apply (Ht j), list_elem_of_further, Hj|].
    intros st2 (l1 & H1 & Hel). exists l1. split; [exact H1|]. intros t. rewrite Hel. split.
    + intros [H|(j & b & Hj & Hb)]; [|right; exists j, b; split; [apply list_elem_of_further, Hj|exact Hb]].
      destruct (has (a_flags a) MEM_AREA_NO_FORK) eqn:Hno; [auto|]. apply elem_of_cons in H. destruct H as [->|H]; [|auto].
      right. exists i, a. split; [apply list_elem_of_here|auto].
    + intros [H|(j & b & Hj & Hnb & <-)]; [left; destruct (has (a_flags a) MEM_AREA_NO_FORK); [exact H|apply list_elem_of_further, H]|].
      apply elem_of_cons in Hj. destruct Hj as [Hj|Hj]; [|right; eauto]. injection Hj as -> ->. rewrite Hnb. left. apply list_elem_of_here.
Qed.

(** The child of a fork has the areas it inherits, and no others. *)
Lemma mem_fork_space_shape st SM ND NT DA TA ps hs src ma : paging.wf st SM ND NT DA TA -> areas.ok st -> SM !! hs = Some src -> areas.space_ok src ma ->
  ensures (mem_fork_space st ps hs) (fun r => exists l, has_areas r.1 r.2 l /\ forall t, t ∈ l <-> inherited ma t).
Proof.
  intros Hwf Hok Hhs Hso. unfold mem_fork_space, get_space. rewrite (fpm_get _ _ _ _ (paging.wf_spaces _ _ _ _ _ _ Hwf)), Hhs, mbind_Ret.
  pose proof (create_space_safely st SM ND NT DA TA Hwf Hok) as Hc. destruct (mem_create_space st) as [[st1 d]| | |]; [|exact I..]. rewrite mbind_Ret.
  destruct Hc as (x & _ & Hok1 & Hwf1 & _). cbn [fst snd] in *.
  destruct (areas.so_areas _ _ Hso) as [[fl Hrep] _]. pose proof (fun i a => pool.pool_entries_elem _ _ _ _ i a Hrep) as Hel.
  eapply ensures_bind.
  - apply (fork_areas_shape ps src d _ st1 []).
    + exists (new_space x), ∅. split; [apply (wf_at _ _ _ _ _ _ _ _ Hwf1 Hok1), lookup_insert_eq|]. split; [apply areas.new_space_ok|].
      intros t. rewrite elem_of_nil. split; [tauto|]. intros (i & a & Hi & _). rewrite lookup_empty in Hi. discriminate.
    + intros i a Hi. apply Hel in Hi. exact (areas.so_type _ _ Hso i a Hi).
  - intros st2 (l & Hl & Hin). exists l. split; [exact Hl|]. intros t. rewrite Hin, elem_of_nil. unfold inherited. split.
    + intros [[]|(i & a & Hi & Ha)]. exists i, a. split; [apply Hel, Hi|exact Ha].
    + intros (i & a & Hi & Ha). right. exists i, a. split; [apply Hel, Hi|exact Ha].
Qed.

(** ** What a fork promises *)

(** Space [d] of [st'] is the child of the space [src] of [st], whose areas are [ma]. *)
Record duplicated st st' (SM : gmap Z space_info) (N : Z) (A : gset Z) (ma : gmap Z area_info) (src : space_info) (d : Z) : Prop := {
  du_new : SM !! d = None;
  du_ok : areas.ok st';
  du_areas : exists l, has_areas st' d l /\ forall t, t ∈ l <-> inherited ma t;
  du_child : exists sd A', get_space st' d = Ret sd /\ holds st' N A' /\ (forall y, y ∈ A -> y ∈ A') /\
    (forall i a v, ma !! i = Some a -> areas.covers a v -> good st A src (sp_page_dir sd) a A' st' v) /\
    (forall i a j b v v', ma !! i = Some a -> ma !! j = Some b -> is_private a -> is_private b -> areas.covers a v -> areas.covers b v' ->
       v / 4096 <> v' / 4096 -> apart st' sd v v') /\
    (forall v, 0 <= v < 2 ^ 32 -> (forall i a, ma !! i = Some a -> ~ areas.covers a v) -> paging.walk st' sd v = None);
  du_others : forall h s v, SM !! h = Some s -> 0 <= v < 2 ^ 32 -> get_space st' h = Ret s /\ paging.walk st' s v = paging.walk st s v;
  du_memory : forall y k, y ∈ A -> 0 <= k < 4096 -> ram st' (y + k) = ram st (y + k);
  du_rest : current_space st' = current_space st /\ vstate st' = vstate st
}.

Lemma forked_duplicated st st' SM ND NT DA TA N A A' d x src done ma : forked st st' SM ND NT DA TA N A A' d x src done -> holds st N A -> SM !! d = None ->
  (forall a, a ∈ done <-> exists i, ma !! i = Some a) -> (exists l, has_areas st' d l /\ forall t, t ∈ l <-> inherited ma t) ->
  duplicated st st' SM N A ma src d.
Proof.
  intros Hf Hh Hd Hdone Hsh. pose proof (fun y k => forked_ram _ _ _ _ _ _ _ _ _ _ _ _ _ _ y k Hf Hh) as Hram.
  destruct Hf as [(SM1 & TA1 & sd & Hwf & _ & Hsd & Hx & HSM) F2 F3 F4 F5 F6 _ F8 F9 F11 F10].
  assert (forall h, get_space st' h = match SM1 !! h with Some s => Ret s | None => Panic end) as Hget by (intros h; apply (fpm_get 128), (paging.wf_spaces _ _ _ _ _ _ Hwf)).
  assert (forall v, paging.walk st' sd v = paging.walk st' (new_space x) v) as Hdir by (intros v; apply walk_dir; simpl; congruence).
  constructor; auto.
  - exists sd, A'. rewrite Hget, Hsd. split; [reflexivity|]. split; [exact F3|]. split; [exact F4|]. split; [|split].
    + intros i a v Hi. rewrite Hx. apply F9, Hdone. eauto.
    + intros i a j b v v' Hi Hj Hpa Hpb Hv Hv' Hne. apply (apart_keep st' st' (new_space x) sd); [apply Hdir..|]. apply (F11 a b v v'); auto; apply Hdone; eauto.
    + intros v Hv Hn. rewrite Hdir. apply F10; [exact Hv|]. intros a Ha. apply Hdone in Ha. destruct Ha as [i Hi]. exact (Hn i a Hi).
  - intros h s v Hs Hv. assert (h <> d) by congruence. rewrite Hget, HSM, Hs by assumption. split; [reflexivity|]. apply (F8 h); assumption.
Qed.

(** An area in page units, whose anonymous pages come from the page allocator *)
Definition paged st (A : gset Z) (src : space_info) (a : area_info) : Prop :=
  0 <= a_start a <= a_end a /\ a_end a < 2 ^ 32 /\ a_start a mod 4096 = 0 /\ a_end a mod 4096 = 0 /\
  (a_type a = AREA_ALLOC -> forall v e, areas.covers a v -> paging.walk st src v = Some e -> pte_frame e ∈ A).

Lemma paged_forkable st A src ma i a : areas.space_ok src ma -> ma !! i = Some a -> paged st A src a -> forkable st A src a.
Proof.
  intros Hso Hi (H1 & H2 & H3 & H4 & H5). constructor; auto; intros Ht.
  - destruct (areas.so_linear _ _ Hso) as (ml & Hml & H). destruct (H i a Hi Ht) as [l Hl]. exists l. rewrite (fpm_get _ _ _ _ Hml), Hl. reflexivity.
  - destruct (areas.so_file _ _ Hso) as (mf & Hmf & H). destruct (H i a Hi Ht) as [f Hl]. exists f. rewrite (fpm_get _ _ _ _ Hmf), Hl. reflexivity.
Qed.

End facts.
(** A process whose heap has one page in use, and its fork *)
Definition demo_touched : outcome (t unit) :=
  st ← faults.demo_heap; a ← faults.demo_area faults.demo_heap; page_fault_alloc st a 0x2ABC.

Definition demo_areas (m : outcome (t unit)) : outcome (list (Z * area_info)) :=
  st ← m; s ← get_space st (current_space st); Ret (pool.entries U16_MAX (sp_areas s)).

Definition demo_walk (m : outcome (t unit)) (v : Z) : outcome (option pte) :=
  st ← m; s ← get_space st (current_space st); Ret (paging.walk st s v).

Definition demo_forks : bool :=
  match demo_touched with
  | Ret st => match mem_fork_space st (current_space st) (current_space st) with Ret _ => true | _ => false end
  | _ => false
  end.

(** The state before the fork: the second page of the heap is in use, all zero;
    the rest of memory holds the byte 7. *)
Lemma demo_touched_state : exists st SM DA TA s ma x0, demo_touched = Ret st /\ paging.wf st SM 99 99 DA TA /\ areas.ok st /\ holds st 99 ({[x0]} ∪ ∅) /\
  SM !! current_space st = Some s /\ (paging.walk st s SOURCE_WINDOW = None /\ paging.walk st s DEST_WINDOW = None) /\ areas.space_ok s ma /\
  ma !! 0 = Some (mk_area 0x1000 0x3000 AREA_ALLOC MEM_AREA_USER 0) /\ (forall i a, ma !! i = Some a -> a = mk_area 0x1000 0x3000 AREA_ALLOC MEM_AREA_USER 0) /\
  (forall v e, 0x1000 <= v < 0x3000 -> paging.walk st s v = Some e -> pte_frame e ∈ ({[x0]} ∪ ∅ : gset Z)) /\
  paging.walk st s 0x2ABC = Some (mk_pte (page_flags MEM_AREA_USER) (frame20 (Z.shiftr x0 12))) /\ paging.walk st s 0x1000 = None /\
  forall y, ram st y = if decide (x0 <= y < x0 + 4096) then 0 else 7.
Proof.
  destruct faults.demo_heap as [st0| | |] eqn:E0; [|vm_compute in E0; discriminate..]. set (a := mk_area 0x1000 0x3000 AREA_ALLOC MEM_AREA_USER 0).
  destruct (faults.demo_ready (fun st h => mem_map_alloc st h 0x1000 0x3000 MEM_AREA_USER) st0 0x2000) as (SM & DA & s & Hre & Hs);
    [intros; eapply faults.mem_map_alloc_wf; eauto|exact E0|lia|reflexivity|].
  assert (faults.demo_area faults.demo_heap = Ret a) as Ea by (vm_compute; reflexivity).
  pose proof (faults.demo_heap_ok st0 E0) as Hok. destruct (faults.demo_area_ok faults.demo_heap st0 s a E0 Hok Hs Ea) as (ma & Hat & Hso & Hi).
  destruct (faults.page_fault_alloc_ok st0 SM 99 99 DA ∅ 99 ∅ s 0x2ABC a Hre) as (st & x & E & Hfi). change (ALIGN_DOWN 0x2ABC 0x1000) with 0x2000 in Hfi.
  pose proof Hfi as [(TA & Hwf & _) Hu _ [Hx Hxa] Hram Hsp Hcu Hw]. pose proof (faults.re_space _ _ _ _ _ _ _ _ _ _ Hre) as Hcur.
  assert (forall v, 0 <= v < 2 ^ 32 -> paging.walk st s v = if decide (v / 4096 = 2) then Some (mk_pte (page_flags MEM_AREA_USER) (frame20 (Z.shiftr x 12))) else paging.walk st0 s v) as Hwalk.
  { intros v Hv. rewrite (Hw _ _ _ Hcur Hv). change (0x2000 / 4096) with 2. destruct (decide (v / 4096 = 2)) as [Hd|Hd]; [rewrite decide_True by auto; reflexivity|rewrite decide_False by tauto; reflexivity]. }
  assert (forall v r, demo_walk faults.demo_heap v = Ret r -> paging.walk st0 s v = r) as Hdemo.
  { intros v r H. unfold demo_walk in H. rewrite E0, mbind_Ret, Hs, mbind_Ret in H. congruence. }
  assert (forall i b, ma !! i = Some b -> b = a) as Hma.
  { intros i b Hb. assert (demo_areas faults.demo_heap = Ret [(0, a)]) as Hl by (vm_compute; reflexivity). unfold demo_areas in Hl. rewrite E0, mbind_Ret, Hs, mbind_Ret in Hl.
    injection Hl as Hl. destruct (areas.so_areas _ _ Hso) as [[fl Hrep] _]. apply (pool.pool_entries_elem _ _ _ _ _ _ Hrep) in Hb. rewrite Hl in Hb.
    apply list_elem_of_singleton in Hb. congruence. }
  exists st, SM, DA, TA, s, ma, x. rewrite Hcu. split; [unfold demo_touched; rewrite Ea, E0, !mbind_Ret; exact E|]. split; [exact Hwf|].
  split; [exact (areas.ok_keep _ _ Hsp Hok)|]. split; [exact Hu|]. split; [exact Hcur|]. split; [split; rewrite Hwalk by (vm_compute; split; discriminate || reflexivity); rewrite decide_False by (vm_compute; discriminate); apply Hdemo; vm_compute; reflexivity|].
  split; [exact Hso|]. split; [exact Hi|]. split; [exact Hma|].
  assert (paging.walk st s 0x1000 = None) as H1 by (rewrite Hwalk, decide_False by (lia || (vm_compute; discriminate)); apply Hdemo; vm_compute; reflexivity).
  split; [|split; [rewrite Hwalk, decide_True by (lia || reflexivity); reflexivity|split; [exact H1|]]].
  - intros v e Hv He. destruct (decide (v / 4096 = 2)) as [Hd|Hd].
    + rewrite Hwalk, decide_True in He by (assumption || lia). injection He as <-. rewrite faults.pte_frame_page by assumption. set_solver.
    + exfalso. assert (v / 4096 = 1) as Hp by (pose proof (Z.div_mod v 4096); pose proof (Z.mod_pos_bound v 4096); lia).
      rewrite (walk_page st s v 0x1000) in He by (lia || exact Hp). congruence.
  - intros y. rewrite (Hram y). case_decide; [rewrite znth_ge_None by (unfold zlen; simpl; lia); reflexivity|]. replace st0 with (match faults.demo_heap with Ret s => s | _ => paging.demo_boot end) by (rewrite E0; reflexivity). vm_compute. reflexivity.
Qed.

End forking.

(** C26: forking a space returns or ends in a panic (as it does when a page, a
    table, a space or an area is missing), it does not run wild. When it returns,
    the child is a space that was not in use, with the areas of the parent
    except those marked as not inherited; each present page of an anonymous
    area is copied into a frame of its own, held by nobody before, with the
    contents it had and the permissions of the area; the pages of linear
    areas are shared; pages of mapped files and everything else is absent.
    No other space changes its mappings, and no byte of a page in use changes. *)
Theorem fork_duplicates_space {V} (st : memory.t V) SM ND NT DA TA N A ps sp hs src ma :
  paging.wf st SM ND NT DA TA -> areas.ok st -> forking.holds st N A ->
  SM !! ps = Some sp -> paging.walk st sp memory.SOURCE_WINDOW = None -> paging.walk st sp memory.DEST_WINDOW = None ->
  SM !! hs = Some src -> areas.space_ok src ma -> (forall i a, ma !! i = Some a -> forking.paged st A src a) ->
  safely (memory.mem_fork_space st ps hs) (fun r => forking.duplicated st r.1 SM N A ma src r.2).
Proof.
  intros Hwf Hok Hh Hps Hw1 Hw2 Hhs Hso Hpg.
  pose proof (forking.mem_fork_space_safely st SM ND NT DA TA N A ps sp hs src ma Hwf Hok Hh Hps Hw1 Hw2 Hhs Hso) as H1.
  pose proof (forking.mem_fork_space_shape st SM ND NT DA TA ps hs src ma Hwf Hok Hhs Hso) as H2.
  destruct (memory.mem_fork_space st ps hs) as [[st' d]| | |]; simpl in *; [|exact I|apply H1; eauto using forking.paged_forkable..].
  destruct H1 as (Hd & x & A2 & done & Hf & Hin); [eauto using forking.paged_forkable|]. eapply forking.forked_duplicated; eauto.
Qed.

Lemma fork_duplicates_space_witness : exists st st' d sd x, forking.demo_touched = Ret st /\
  memory.mem_fork_space st (memory.current_space st) (memory.current_space st) = Ret (st', d) /\ memory.get_space st' d = Ret sd /\
  paging.walk st' sd 0x2ABC = Some (memory.mk_pte (memory.page_flags memory.MEM_AREA_USER) (memory.frame20 (Z.shiftr x 12))) /\
  memory.ram st x = 7 /\ (forall k, 0 <= k < 4096 -> memory.ram st' (x + k) = 0) /\ paging.walk st' sd 0x1000 = None.
Proof.
  destruct forking.demo_touched_state as (st & SM & DA & TA & s & ma & x0 & E & Hwf & Hok & Hh & Hcur & [Hw1 Hw2] & Hso & Hi & Hma & Hx0 & Hin & Hout & Hram).
  pose proof (fork_duplicates_space st SM 99 99 DA TA 99 ({[x0]} ∪ ∅) (memory.current_space st) s (memory.current_space st) s ma Hwf Hok Hh Hcur Hw1 Hw2 Hcur Hso) as H.
  destruct (memory.mem_fork_space st (memory.current_space st) (memory.current_space st)) as [[st' d]| | |] eqn:Ef;
    [|exfalso; assert (forking.demo_forks = true) as Ht by (vm_compute; reflexivity); unfold forking.demo_forks in Ht; rewrite E, Ef in Ht; discriminate..].
  destruct H as [_ _ _ (sd & A' & Hsd & Hh' & _ & Hgood & _ & _) _ _ _].
  { intros i a Ha. rewrite (Hma i a Ha). split; [simpl; lia|]. split; [reflexivity|]. split; [reflexivity|]. split; [reflexivity|]. intros _. exact Hx0. }
  pose proof (Hgood 0 _ 0x2ABC Hi ltac:(split; simpl; lia)) as G1. pose proof (Hgood 0 _ 0x1000 Hi ltac:(split; simpl; lia)) as G2.
  unfold forking.good in G1, G2. cbn -[paging.walk memory.new_space] in G1, G2. unfold forking.private_copy in G1, G2. rewrite Hin in G1. rewrite Hout in G2. change (memory.has memory.MEM_AREA_USER memory.MEM_AREA_NO_FORK) with false in G1, G2.
  destruct G1 as (x & Hx & Hnx & Hwx & Hk). exists st, st', d, sd, x. split; [exact E|]. split; [exact Ef|]. split; [exact Hsd|].
  split; [rewrite <-Hwx; apply forking.walk_dir; reflexivity|]. rewrite elem_of_union, elem_of_singleton in Hnx.
  destruct (forking.held_page _ _ _ x Hh' Hx) as [Hxr Hxa]. destruct (forking.held_page _ _ _ x0 Hh (elem_of_union_l _ _ _ (proj2 (elem_of_singleton _ _) eq_refl))) as [Hx0r Hx0a].
  split; [|split; [|rewrite <-G2; apply forking.walk_dir; reflexivity]].
  - rewrite Hram, decide_False; [reflexivity|]. rewrite <-(Z.add_0_r x). apply forking.pages_apart; [assumption..|intros ->; tauto|lia].
  - intros k Hk'. rewrite Hk, faults.pte_frame_page, Hram, decide_True by (assumption || lia). reflexivity.
Defined.
