(* ===== verification/Machine.v ===== *)
(** * Ports, descriptor tables, the interrupt controller and the timer

    kernel/x86.h, x86.cc, protected_mode.h, protected_mode.cc, timer.cc and
    the set up of serial.cc and keyboard.cc.  The processor's input and output
    is a trace of port accesses.  What a device answers is not code: it is a
    function [dev] of the accesses so far, the width and the port. *)

From S2P Require Import Prelude Pool Text.
From stdpp Require Import gmap list.
#[local] Open Scope Z_scope.

Module ports.

(** ** Port input and output *)

(** The width is in bytes. *)
Inductive event :=
| Wr (width port value : Z)
| Rd (width port value : Z).

(** The latest access comes first. *)
Abbreviation trace := (list event).
Abbreviation device := (trace -> Z -> Z -> Z).

Definition outb (tr : trace) (port value : Z) : trace := Wr 1 (u16 port) (u8 value) :: tr.
Definition outw (tr : trace) (port value : Z) : trace := Wr 2 (u16 port) (u16 value) :: tr.
Definition outd (tr : trace) (port value : Z) : trace := Wr 4 (u16 port) (u32 value) :: tr.
Definition io_wait (tr : trace) : trace := Wr 1 0x80 0 :: tr.
Definition outb_wait (tr : trace) (port value : Z) : trace := io_wait (Wr 1 (u16 port) (u8 value) :: tr).

Section input.
Variable dev : device.

Definition inb (tr : trace) (port : Z) : trace * Z := let v := u8 (dev tr 1 (u16 port)) in (Rd 1 (u16 port) v :: tr, v).
Definition inw (tr : trace) (port : Z) : trace * Z := let v := u16 (dev tr 2 (u16 port)) in (Rd 2 (u16 port) v :: tr, v).
Definition ind (tr : trace) (port : Z) : trace * Z := let v := u32 (dev tr 4 (u16 port)) in (Rd 4 (u16 port) v :: tr, v).

End input.

(** The last byte that was written to a port *)
Fixpoint last_written (tr : trace) (port : Z) : option Z :=
  match tr with
  | [] => None
  | Wr 1 p v :: tr' => if p =? port then Some v else last_written tr' port
  | _ :: tr' => last_written tr' port
  end.

End ports.

Module x86.
Import ports.

(** ** Constants *)

Definition GDT_TYPE_P : Z := 0x80.
Definition GDT_TYPE_DPL3 : Z := 0x60.
Definition GDT_TYPE_W : Z := 0x02.
Definition GDT_TYPE_R : Z := 0x02.
Definition GDT_TYPE_CODE : Z := 0x18.
Definition GDT_TYPE_DATA : Z := 0x10.
Definition GDT_TYPE_32TSS_A : Z := 0x09.
Definition GDT_FLAGS_DB : Z := 0x04.
Definition GDT_FLAGS_G : Z := 0x08.
Definition IDT_TYPE_D : Z := 0x08.
Definition IDT_TYPE_INTERRUPT : Z := 0x06.
Definition IDT_TYPE_DPL3 : Z := 0x60.
Definition IDT_TYPE_P : Z := 0x80.
Definition PIC_MASTER_CMD : Z := 0x20.
Definition PIC_MASTER_DATA : Z := 0x21.
Definition PIC_SLAVE_CMD : Z := 0xA0.
Definition PIC_SLAVE_DATA : Z := 0xA1.
Definition PIC_CMD_INIT : Z := 0x11.
Definition IRQ_SYSTEM_TIMER : Z := 0.
Definition IRQ_KEYBOARD : Z := 1.
Definition IRQ_CASCADE : Z := 2.
Definition IRQ_COM1 : Z := 4.
Definition IRQ_BASE_INTERRUPT : Z := 0x20.

Definition GDT_SEGSEL (rpl index : Z) : Z := Z.lor (Z.land rpl 0x3) (Z.shiftl index 3).
Definition SEG_RPL (selector : Z) : Z := Z.land selector 3.
Definition KERNEL_CODE_SEL : Z := GDT_SEGSEL 0 1.
Definition KERNEL_DATA_SEL : Z := GDT_SEGSEL 0 2.
Definition USER_CODE_SEL : Z := GDT_SEGSEL 3 3.
Definition USER_DATA_SEL : Z := GDT_SEGSEL 3 4.
Definition TSS_SEL : Z := GDT_SEGSEL 3 5.

(** ** Segment descriptors *)

Record gdt_descriptor := mk_gdt { limit_0_15 : Z; base_0_15 : Z; base_16_23 : Z; g_type : Z; limit_16_19 : Z; g_flags : Z; base_24_31 : Z }.

(** The constructor; the fields are 16, 8 and 4 bits wide. *)
Definition new_gdt_descriptor (base limit flags type : Z) : outcome gdt_descriptor :=
  passert (limit <=? 0x000FFFFF);;
  Ret (mk_gdt (Z.land limit 0xFFFF) (Z.land base 0xFFFF) (Z.land (Z.shiftr base 16) 0xFF) (u8 type)
         (Z.land (Z.shiftr limit 16) 0xF) (Z.land flags 0xF) (Z.land (Z.shiftr base 24) 0xFF)).

(** The packed struct in memory *)
Definition gdt_bytes (d : gdt_descriptor) : list Z :=
  [Z.land (limit_0_15 d) 0xFF; Z.shiftr (limit_0_15 d) 8; Z.land (base_0_15 d) 0xFF; Z.shiftr (base_0_15 d) 8; base_16_23 d; g_type d;
   Z.lor (limit_16_19 d) (Z.shiftl (g_flags d) 4); base_24_31 d].

(** ** Interrupt gates *)

Record idt_descriptor := mk_idt { offset_0_15 : Z; segment_selector : Z; i_zero : Z; i_type : Z; offset_16_31 : Z }.

Definition new_idt_descriptor (offset segment type : Z) : idt_descriptor :=
  mk_idt (u16 offset) (u16 segment) 0 (u8 type) (u16 (Z.shiftr offset 16)).

Definition idt_bytes (d : idt_descriptor) : list Z :=
  [Z.land (offset_0_15 d) 0xFF; Z.shiftr (offset_0_15 d) 8; Z.land (segment_selector d) 0xFF; Z.shiftr (segment_selector d) 8; i_zero d; i_type d;
   Z.land (offset_16_31 d) 0xFF; Z.shiftr (offset_16_31 d) 8].

(** ** The state: the tables, the task state segment and the ports *)

(** The members of [tss_entry] that the code sets *)
Record tss_entry := mk_tss { esp0 : Z; ss0 : Z; t_cs : Z; t_ss : Z; t_ds : Z; t_es : Z; t_fs : Z; t_gs : Z }.

Record t := mk { idt_descriptors : list idt_descriptor; tss : tss_entry; io : trace }.
Implicit Type m : t.

Definition set_io m (tr : trace) : t := mk (idt_descriptors m) (tss m) tr.

(** Static storage is zero. *)
Definition initial (tr : trace) : t := mk (replicate 256 (mk_idt 0 0 0 0 0)) (mk_tss 0 0 0 0 0 0 0 0) tr.

Definition int_register m (num handler segment type : Z) : outcome t :=
  l ← arr_set (idt_descriptors m) num (new_idt_descriptor handler segment type); Ret (mk l (tss m) (io m)).

Definition tss_set_kernel_stack m (esp : Z) : t :=
  let s := tss m in mk (idt_descriptors m) (mk_tss (u32 esp) (ss0 s) (t_cs s) (t_ss s) (t_ds s) (t_es s) (t_fs s) (t_gs s)) (io m).

(** The assembly routines; where the linker puts them is a parameter. *)
Inductive isr :=
| isr_divzero | isr_debug | isr_nmi | isr_breakpoint | isr_overflow | isr_bre | isr_invop | isr_devnotavail | isr_doublefault | isr_invtss
| isr_segnotpres | isr_stacksegfault | isr_gpf | isr_fpe | isr_align | isr_machine | isr_simdfp | isr_virt | isr_sec | isr_spurious
| isr_pagefault | isr_timer | isr_kbd | isr_com1 | isr_syscall | isr_rtl8139.

Section handlers.
Variable address : isr -> Z.

Definition gate : Z := Z.lor (Z.lor IDT_TYPE_INTERRUPT IDT_TYPE_D) IDT_TYPE_P.
Definition gate3 : Z := Z.lor gate IDT_TYPE_DPL3.

(** The calls of [int_init], in order *)
Definition init_gates : list (Z * isr * Z) := [
  (0, isr_divzero, gate3); (1, isr_debug, gate3); (2, isr_nmi, gate3); (3, isr_breakpoint, gate3); (4, isr_overflow, gate3); (5, isr_bre, gate3);
  (6, isr_invop, gate3); (7, isr_devnotavail, gate3); (8, isr_doublefault, gate); (10, isr_invtss, gate3); (11, isr_segnotpres, gate3);
  (12, isr_stacksegfault, gate3); (13, isr_gpf, gate); (16, isr_fpe, gate3); (17, isr_align, gate3); (18, isr_machine, gate3); (19, isr_simdfp, gate3);
  (20, isr_virt, gate3); (30, isr_sec, gate3); (IRQ_BASE_INTERRUPT + 7, isr_spurious, gate3); (IRQ_BASE_INTERRUPT + 15, isr_spurious, gate3) ].

Fixpoint register_all m (gates : list (Z * isr * Z)) : outcome t :=
  match gates with
  | [] => Ret m
  | (num, handler, type) :: gates' => m ← int_register m num (address handler) KERNEL_CODE_SEL type; register_all m gates'
  end.

(** [stack_end] is the address of the last word of [interrupt_stack]. *)
Definition int_init m (stack_end : Z) : outcome t :=
  m ← register_all m init_gates; Ret (tss_set_kernel_stack m stack_end).

End handlers.

(** The C++ handlers of the exceptions; a breakpoint only prints the registers. *)
Definition int_exception (h : isr) : option (outcome unit) :=
  match h with
  | isr_divzero | isr_debug | isr_nmi | isr_overflow | isr_bre | isr_invop | isr_devnotavail | isr_invtss | isr_segnotpres | isr_stacksegfault | isr_fpe
  | isr_align | isr_machine | isr_simdfp | isr_virt | isr_sec | isr_gpf | isr_doublefault => Some Panic
  | isr_breakpoint | isr_spurious => Some (Ret tt)
  | _ => None
  end.

(** ** [setup_gdt] *)

Definition TSS_SIZE : Z := 104.

Definition gdt_table (tss_address : Z) : outcome (list gdt_descriptor) :=
  let big := Z.lor GDT_FLAGS_G GDT_FLAGS_DB in
  null ← new_gdt_descriptor 0 0 0 0;
  kcode ← new_gdt_descriptor 0 0x000FFFFF big (Z.lor (Z.lor GDT_TYPE_CODE GDT_TYPE_P) GDT_TYPE_R);
  kdata ← new_gdt_descriptor 0 0x000FFFFF big (Z.lor (Z.lor GDT_TYPE_DATA GDT_TYPE_P) GDT_TYPE_W);
  ucode ← new_gdt_descriptor 0 0x000FFFFF big (Z.lor (Z.lor (Z.lor GDT_TYPE_CODE GDT_TYPE_P) GDT_TYPE_DPL3) GDT_TYPE_R);
  udata ← new_gdt_descriptor 0 0x000FFFFF big (Z.lor (Z.lor (Z.lor GDT_TYPE_DATA GDT_TYPE_P) GDT_TYPE_DPL3) GDT_TYPE_W);
  task ← new_gdt_descriptor tss_address TSS_SIZE 0 (Z.lor (Z.lor GDT_TYPE_32TSS_A GDT_TYPE_DPL3) GDT_TYPE_P);
  Ret [null; kcode; kdata; ucode; udata; task].

(** The table goes to the processor with [load_gdt]. *)
Definition setup_gdt m (tss_address : Z) : outcome (t * list gdt_descriptor) :=
  table ← gdt_table tss_address;
  let data := GDT_SEGSEL 3 2 in
  Ret (mk (idt_descriptors m) (mk_tss (esp0 (tss m)) KERNEL_DATA_SEL (GDT_SEGSEL 3 1) data data data data data) (io m), table).

(** ** The interrupt controllers *)

Section pic.
Variable dev : device.

Definition pic_remap (tr : trace) (master_offset slave_offset : Z) : trace :=
  let tr := outb_wait tr PIC_MASTER_CMD PIC_CMD_INIT in
  let tr := outb_wait tr PIC_MASTER_DATA master_offset in
  let tr := outb_wait tr PIC_MASTER_DATA 0x4 in
  let tr := outb_wait tr PIC_MASTER_DATA 0x01 in
  let tr := outb_wait tr PIC_SLAVE_CMD PIC_CMD_INIT in
  let tr := outb_wait tr PIC_SLAVE_DATA slave_offset in
  let tr := outb_wait tr PIC_SLAVE_DATA 0x2 in
  outb_wait tr PIC_SLAVE_DATA 0x01.

(** The port of a line and its bit there; [irq_line] is a byte. *)
Definition line_port (irq_line : Z) : Z * Z := if irq_line <? 8 then (PIC_MASTER_DATA, irq_line) else (PIC_SLAVE_DATA, irq_line - 8).

(** [1 << n] on an [int] *)
Definition bit (n : Z) : outcome Z := if (0 <=? n) && (n <? 32) then Ret (Z.shiftl 1 n) else Undef.

Definition irq_disable (tr : trace) (irq_line : Z) : outcome trace :=
  let '(port, line) := line_port (u8 irq_line) in
  let '(tr, v) := inb dev tr port in
  b ← bit line; Ret (outb_wait tr port (Z.lor v b)).

Definition irq_enable (tr : trace) (irq_line : Z) : outcome trace :=
  let '(port, line) := line_port (u8 irq_line) in
  let '(tr, v) := inb dev tr port in
  b ← bit line; Ret (outb_wait tr port (Z.land v (Z.lnot b))).

Definition irq_eoi (tr : trace) (irq_line : Z) : trace :=
  let tr := if u8 irq_line >=? 8 then outb tr PIC_SLAVE_CMD 0x20 else tr in outb tr PIC_MASTER_CMD 0x20.

Definition pic_init (tr : trace) : outcome trace :=
  let tr := pic_remap tr IRQ_BASE_INTERRUPT (IRQ_BASE_INTERRUPT + 8) in
  let tr := outb_wait tr PIC_MASTER_DATA 0xFF in
  let tr := outb_wait tr PIC_SLAVE_DATA 0xFF in
  irq_enable tr IRQ_CASCADE.

End pic.

Definition pit_set_phase (tr : trace) (hz : Z) : outcome trace :=
  if hz =? 0 then Undef
  else
    let divisor := Z.quot 1193180 hz in
    Ret (outb (outb (outb tr 0x43 0x36) 0x40 (Z.land divisor 0xFF)) 0x40 (Z.shiftr divisor 8)).

(** [a20_enabled], [enable_a20] and [enter_protected_mode] up to the tables;
    [cr0] is the control register. *)
Definition CR0_PE : Z := 0x00000001.
Definition a20_enabled (cr0 : Z) : outcome bool := if negb (Z.land cr0 CR0_PE =? 0) then Ret true else Panic.
Definition enable_a20 (dev : device) (tr : trace) : trace := let '(tr, v) := inb dev tr 0x92 in outb tr 0x92 (Z.lor v 0x2).
Definition enter_protected_mode (dev : device) m (cr0 tss_address : Z) : outcome (t * list gdt_descriptor) :=
  let '(tr, v) := inb dev (io m) 0x70 in
  let tr := outb tr 0x70 (Z.lor v 0x80) in
  ok ← a20_enabled cr0;
  setup_gdt (set_io m (if ok : bool then tr else enable_a20 dev tr)) tss_address.

(** ** The saved registers as text *)

(** "edi: %x esi: %x ebp: %x esp: %x\nebx: ..." *)
Definition registers_format : list Z :=
  [101;100;105;58;32;37;120;32;101;115;105;58;32;37;120;32;101;98;112;58;32;37;120;32;101;115;112;58;32;37;120;10;
   101;98;120;58;32;37;120;32;101;100;120;58;32;37;120;32;101;99;120;58;32;37;120;32;101;97;120;58;32;37;120;10;
   101;105;112;58;32;37;120;32;32;99;115;58;32;37;120;32;101;102;108;58;32;37;120;32;117;101;115;58;32;37;120;10;
   32;115;115;58;32;37;120].

(** [isr_registers::to_string]; the registers in the order they are printed *)
Definition to_string (junk : list Z) (registers : list Z) : outcome str.t := fmt.format junk registers_format (map fmt.ANum registers).

(** ** Serial line and keyboard set up *)

Definition COM1_PORT_BASE : Z := 0x3F8.
Definition com_init (tr : trace) : trace :=
  fold_left (fun tr pv => outb tr (COM1_PORT_BASE + pv.1) pv.2) [(3, 0x80); (0, 0x03); (1, 0x00); (3, 0x03); (2, 0xC7); (4, 0x0B)] tr.

Definition com_setup_rx (dev : device) (address : isr -> Z) m : outcome t :=
  m ← int_register m (IRQ_BASE_INTERRUPT + IRQ_COM1) (address isr_com1) KERNEL_CODE_SEL gate3;
  tr ← irq_enable dev (io m) IRQ_COM1;
  Ret (set_io m (outb tr (COM1_PORT_BASE + 1) 0x01)).

Definition KBD_DATA : Z := 0x60.
Definition KBD_CMD : Z := 0x64.
Definition kbd_init (dev : device) (address : isr -> Z) m : outcome t :=
  let tr := outb_wait (io m) KBD_CMD 0xAA in
  let '(tr, v) := inb dev tr KBD_DATA in
  passert (v =? 0x55);;
  tr ← irq_enable dev tr IRQ_KEYBOARD;
  int_register (set_io m tr) (IRQ_BASE_INTERRUPT + IRQ_KEYBOARD) (address isr_kbd) KERNEL_CODE_SEL gate.

End x86.

(** ** timer.cc *)
Module timer.
Import ports x86.

(** A callback is named by a number; the registered ones are kept in a pool. *)
Record t := mk { tick_callbacks : fixed_pool Z; milliseconds_per_tick : Z; milliseconds_since_start : Z }.
Implicit Type c : t.

Definition initial : t := mk (new_fixed_pool 16) 0 0.

Definition timer_init (dev : device) (address : isr -> Z) c (m : x86.t) : outcome (t * x86.t) :=
  let frequency := 100 in
  tr ← pit_set_phase (io m) frequency;
  tr ← irq_enable dev tr IRQ_SYSTEM_TIMER;
  m ← int_register (set_io m tr) (IRQ_BASE_INTERRUPT + IRQ_SYSTEM_TIMER) (address isr_timer) KERNEL_CODE_SEL gate;
  Ret (mk (tick_callbacks c) (Z.quot 1000 frequency) (milliseconds_since_start c), m).

(** [int_timer]: the callbacks it calls, in order, each with the
    milliseconds of a tick *)
Definition int_timer c (tr : trace) : t * trace * list Z :=
  let tr := irq_eoi tr IRQ_SYSTEM_TIMER in
  (mk (tick_callbacks c) (milliseconds_per_tick c) (u64 (milliseconds_since_start c + milliseconds_per_tick c)), tr, map snd (pool.entries U16_MAX (tick_callbacks c))).

Definition timer_register_tick_callback c (callback : Z) : outcome t :=
  '(p, _) ← pool.emplace_anywhere U16_MAX (tick_callbacks c) callback;
  Ret (mk p (milliseconds_per_tick c) (milliseconds_since_start c)).

(** [syscall_currenttime] after the check of the pointer *)
Definition syscall_currenttime c : Z * Z := (0, milliseconds_since_start c).

End timer.
