(* ===== verification/MachineFacts.v ===== *)
(** * What the processor and the interrupt controllers are told

    The encodings of segment descriptors and interrupt gates say what their
    constructors were given, and the interrupt masks are what the calls of
    [irq_enable] and [irq_disable] ask for. *)

From S2P Require Import Prelude Pool Text Machine.
From stdpp Require Import gmap list.
#[local] Open Scope Z_scope.

Module encoding.
Import x86.

(** ** How the processor reads a descriptor *)

Definition byte_at (bytes : list Z) (i : nat) : Z := default 0 (bytes !! i).

Record segment := mk_segment { s_base : Z; s_limit : Z; s_flags : Z; s_type : Z }.

Definition read_segment (bytes : list Z) : segment :=
  mk_segment (byte_at bytes 2 + byte_at bytes 3 * 2 ^ 8 + byte_at bytes 4 * 2 ^ 16 + byte_at bytes 7 * 2 ^ 24)
    (byte_at bytes 0 + byte_at bytes 1 * 2 ^ 8 + byte_at bytes 6 mod 16 * 2 ^ 16) (byte_at bytes 6 / 16) (byte_at bytes 5).

Record gate_read := mk_gate { r_offset : Z; r_selector : Z; r_type : Z }.

Definition read_gate (bytes : list Z) : gate_read :=
  mk_gate (byte_at bytes 0 + byte_at bytes 1 * 2 ^ 8 + byte_at bytes 6 * 2 ^ 16 + byte_at bytes 7 * 2 ^ 24)
    (byte_at bytes 2 + byte_at bytes 3 * 2 ^ 8) (byte_at bytes 5).

Lemma land_FF x : Z.land x 0xFF = x mod 256.
Proof. exact (land_ones_mod x 8 ltac:(lia)). Qed.
Lemma land_FFFF x : Z.land x 0xFFFF = x mod 65536.
Proof. exact (land_ones_mod x 16 ltac:(lia)). Qed.
Lemma land_F x : Z.land x 0xF = x mod 16.
Proof. exact (land_ones_mod x 4 ltac:(lia)). Qed.

Lemma nibbles a b : 0 <= a < 16 -> 0 <= b < 16 -> Z.lor a (Z.shiftl b 4) = a + b * 16.
Proof.
  intros Ha Hb. assert (forallb (fun a => forallb (fun b => Z.lor a (Z.shiftl b 4) =? a + b * 16) (seqZ 0 16)) (seqZ 0 16) = true) as H by (vm_compute; reflexivity).
  rewrite forallb_forall in H. specialize (H a ltac:(apply list_elem_of_In, elem_of_seqZ; lia)). rewrite forallb_forall in H.
  specialize (H b ltac:(apply list_elem_of_In, elem_of_seqZ; lia)). apply Z.eqb_eq, H.
Qed.

Lemma gdt_read base limit flags type d : 0 <= base < 2 ^ 32 -> 0 <= limit -> new_gdt_descriptor base limit flags type = Ret d ->
  read_segment (gdt_bytes d) = mk_segment base limit (flags mod 16) (type mod 256) /\ Forall (fun b => 0 <= b < 256) (gdt_bytes d) /\ length (gdt_bytes d) = 8%nat.
Proof.
  intros Hb Hl E. unfold new_gdt_descriptor in E. destruct (Z.leb_spec limit 0x000FFFFF) as [Hl2|]; [|discriminate]. cbn [passert] in E. rewrite mbind_Ret in E. injection E as <-.
  unfold gdt_bytes. cbn [limit_0_15 base_0_15 base_16_23 g_type limit_16_19 g_flags base_24_31]. rewrite !land_FF, !land_FFFF, !land_F, !Z.shiftr_div_pow2 by lia.
  rewrite nibbles by dlia. change (2 ^ 8) with 256 in *. change (2 ^ 16) with 65536 in *. change (2 ^ 24) with 16777216 in *. change (2 ^ 32) with 4294967296 in *. unfold u8. change (2 ^ 8) with 256.
  split; [|split; [repeat constructor; dlia|reflexivity]].
  unfold read_segment. cbn [byte_at lookup list_lookup default]. unfold byte_at. simpl. f_equal; dlia.
Qed.

Lemma gate_bytes offset selector type : 0 <= offset < 2 ^ 32 -> 0 <= selector < 2 ^ 16 ->
  let bytes := idt_bytes (new_idt_descriptor offset selector type) in
  read_gate bytes = mk_gate offset selector (type mod 256) /\ Forall (fun b => 0 <= b < 256) bytes /\ length bytes = 8%nat.
Proof.
  intros Ho Hs. unfold idt_bytes, new_idt_descriptor. cbn [offset_0_15 segment_selector i_zero i_type offset_16_31]. unfold u8, u16. rewrite !land_FF, !Z.shiftr_div_pow2 by lia.
  change (2 ^ 8) with 256 in *. change (2 ^ 16) with 65536 in *. change (2 ^ 24) with 16777216 in *. change (2 ^ 32) with 4294967296 in *. cbv zeta.
  split; [|split; [repeat constructor; dlia|reflexivity]]. unfold read_gate, byte_at. simpl. f_equal; dlia.
Qed.

End encoding.

(** ** The interrupt masks *)
Module masks.
Import ports x86.

(** The 8259 answers a read of its data port with the mask that was written
    last. *)
Definition answers_mask (dev : device) : Prop :=
  forall tr port, port = PIC_MASTER_DATA \/ port = PIC_SLAVE_DATA -> dev tr 1 port = default 0 (last_written tr port).

(** Is the line held back? *)
Definition masked (tr : trace) (line : Z) : bool := Z.testbit (default 0 (last_written tr (line_port line).1)) (line_port line).2.

Inductive op := Enable (line : Z) | Disable (line : Z) | Eoi (line : Z).

Definition step (dev : device) (tr : trace) (o : op) : outcome trace :=
  match o with Enable line => irq_enable dev tr line | Disable line => irq_disable dev tr line | Eoi line => Ret (irq_eoi tr line) end.

Fixpoint run (dev : device) (tr : trace) (os : list op) : outcome trace :=
  match os with [] => Ret tr | o :: os' => tr ← step dev tr o; run dev tr os' end.

Definition op_line (o : op) : Z := match o with Enable l | Disable l | Eoi l => l end.

(** The lines that are open *)
Definition spec (S : gset Z) (o : op) : gset Z := match o with Enable l => {[l]} ∪ S | Disable l => S ∖ {[l]} | Eoi _ => S end.

Lemma line_port_ok l : 0 <= l < 16 -> ((line_port l).1 = PIC_MASTER_DATA \/ (line_port l).1 = PIC_SLAVE_DATA) /\ 0 <= (line_port l).2 < 8.
Proof. intros Hl. unfold line_port. destruct (Z.ltb_spec l 8); cbn [fst snd]; split; auto; lia. Qed.

(** Lines are told apart by port and bit. *)
Lemma line_port_inj l l' : 0 <= l < 16 -> 0 <= l' < 16 -> line_port l = line_port l' -> l = l'.
Proof. intros Hl Hl'. unfold line_port, PIC_MASTER_DATA, PIC_SLAVE_DATA. destruct (Z.ltb_spec l 8), (Z.ltb_spec l' 8); intros E; injection E; lia. Qed.

Lemma last_written_wait tr port v q : 0 <= port < 2 ^ 16 -> q <> 0x80 -> last_written (outb_wait tr port v) q = if port =? q then Some (u8 v) else last_written tr q.
Proof.
  intros Hp Hq. unfold outb_wait, io_wait, u16. rewrite Z.mod_small by exact Hp. cbn [last_written]. rewrite (proj2 (Z.eqb_neq 0x80 q)) by congruence. reflexivity.
Qed.

Lemma last_written_out tr port v q : 0 <= port < 2 ^ 16 -> last_written (outb tr port v) q = if port =? q then Some (u8 v) else last_written tr q.
Proof. intros Hp. unfold outb, u16. rewrite Z.mod_small by exact Hp. reflexivity. Qed.

(** A mask with one bit changed *)
Lemma write_bit tr l v' (b : bool) : 0 <= l < 16 -> (forall i, 0 <= i < 8 -> Z.testbit v' i = if i =? (line_port l).2 then b else Z.testbit (default 0 (last_written tr (line_port l).1)) i) ->
  forall tr', (forall q, last_written tr' q = last_written tr q) ->
  forall i, 0 <= i < 16 -> masked (outb_wait tr' (line_port l).1 v') i = if i =? l then b else masked tr i.
Proof.
  intros Hl Hv tr' Htr i Hi. destruct (line_port_ok l Hl) as [Hp Hb]. destruct (line_port_ok i Hi) as [Hpi Hbi]. unfold masked.
  assert (forall q, q = PIC_MASTER_DATA \/ q = PIC_SLAVE_DATA -> 0 <= q < 2 ^ 16 /\ q <> 0x80) as Hport by (unfold PIC_MASTER_DATA, PIC_SLAVE_DATA; lia).
  rewrite last_written_wait, Htr by (apply Hport; assumption). destruct (Z.eqb_spec (line_port l).1 (line_port i).1) as [Ep|Ep].
  - change (default 0 (Some (u8 v'))) with (v' mod 2 ^ 8). rewrite Z.mod_pow2_bits_low, Hv, <-Ep by lia. destruct (Z.eqb_spec (line_port i).2 (line_port l).2) as [Eb|Eb], (Z.eqb_spec i l) as [->|Hne]; try congruence.
    exfalso. apply Hne, line_port_inj; [exact Hi|exact Hl|]. rewrite (surjective_pairing (line_port i)), (surjective_pairing (line_port l)). congruence.
  - rewrite (proj2 (Z.eqb_neq i l)) by congruence. reflexivity.
Qed.

Lemma bit_ok l : 0 <= l < 16 -> bit (line_port l).2 = Ret (Z.shiftl 1 (line_port l).2).
Proof. intros Hl. destruct (line_port_ok l Hl) as [_ Hb]. unfold bit. rewrite (proj2 (Z.leb_le 0 _)), (proj2 (Z.ltb_lt _ 32)) by lia. reflexivity. Qed.

Lemma testbit_one b i : 0 <= b -> 0 <= i -> Z.testbit (Z.shiftl 1 b) i = (i =? b).
Proof. intros Hb Hi. rewrite Z.shiftl_1_l, Z.pow2_bits_eqb by exact Hb. apply Z.eqb_sym. Qed.

Section facts.
Context (dev : device) (Hdev : answers_mask dev).

Lemma read_mask tr l : 0 <= l < 16 -> inb dev tr (line_port l).1 = (Rd 1 (line_port l).1 (u8 (default 0 (last_written tr (line_port l).1))) :: tr, u8 (default 0 (last_written tr (line_port l).1))).
Proof.
  intros Hl. destruct (line_port_ok l Hl) as [Hp _]. unfold inb. replace (u16 (line_port l).1) with (line_port l).1; [rewrite Hdev by exact Hp; reflexivity|].
  destruct Hp as [-> | ->]; reflexivity.
Qed.

Lemma u8_line l : 0 <= l < 16 -> u8 l = l.
Proof. intros Hl. apply Z.mod_small. lia. Qed.

Lemma enable_ok tr l : 0 <= l < 16 -> exists tr', irq_enable dev tr l = Ret tr' /\ forall i, 0 <= i < 16 -> masked tr' i = if i =? l then false else masked tr i.
Proof.
  intros Hl. unfold irq_enable. rewrite u8_line by exact Hl. pose proof (read_mask tr l Hl) as Hr. pose proof (bit_ok l Hl) as Hb. destruct (line_port_ok l Hl) as [_ Hln].
  pose proof (write_bit tr l) as Hw. destruct (line_port l) as [port line]. cbn [fst snd] in *. rewrite Hr, Hb, mbind_Ret. eexists. split; [reflexivity|].
  apply Hw; [exact Hl| |reflexivity]. intros i Hi. unfold u8. rewrite Z.land_spec, Z.mod_pow2_bits_low, Z.lnot_spec, testbit_one by lia. destruct (i =? line); cbn [negb]; [apply andb_false_r|apply andb_true_r].
Qed.

Lemma disable_ok tr l : 0 <= l < 16 -> exists tr', irq_disable dev tr l = Ret tr' /\ forall i, 0 <= i < 16 -> masked tr' i = if i =? l then true else masked tr i.
Proof.
  intros Hl. unfold irq_disable. rewrite u8_line by exact Hl. pose proof (read_mask tr l Hl) as Hr. pose proof (bit_ok l Hl) as Hb. destruct (line_port_ok l Hl) as [_ Hln].
  pose proof (write_bit tr l) as Hw. destruct (line_port l) as [port line]. cbn [fst snd] in *. rewrite Hr, Hb, mbind_Ret. eexists. split; [reflexivity|].
  apply Hw; [exact Hl| |reflexivity]. intros i Hi. unfold u8. rewrite Z.lor_spec, Z.mod_pow2_bits_low, testbit_one by lia. destruct (i =? line); [apply orb_true_r|apply orb_false_r].
Qed.

Lemma eoi_ok tr l i : 0 <= i < 16 -> masked (irq_eoi tr l) i = masked tr i.
Proof.
  intros Hi. destruct (line_port_ok i Hi) as [Hp _]. unfold masked, irq_eoi. f_equal. f_equal.
  destruct (u8 l >=? 8); rewrite !last_written_out by (unfold PIC_MASTER_CMD, PIC_SLAVE_CMD; lia); destruct Hp as [-> | ->]; reflexivity.
Qed.

(** The open lines are those in [S]. *)
Definition open (tr : trace) (S : gset Z) : Prop := forall i, 0 <= i < 16 -> masked tr i = negb (bool_decide (i ∈ S)).

Lemma mask_step_ok tr S o : open tr S -> 0 <= op_line o < 16 -> exists tr', step dev tr o = Ret tr' /\ open tr' (spec S o).
Proof.
  intros Ho Hl. destruct o as [l|l|l]; cbn [step spec op_line] in *.
  - destruct (enable_ok tr l Hl) as (tr' & -> & H). exists tr'. split; [reflexivity|]. intros i Hi. rewrite H by exact Hi. destruct (Z.eqb_spec i l) as [->|Hne].
    + rewrite bool_decide_true by set_solver. reflexivity.
    + rewrite Ho by exact Hi. f_equal. apply bool_decide_ext. set_solver.
  - destruct (disable_ok tr l Hl) as (tr' & -> & H). exists tr'. split; [reflexivity|]. intros i Hi. rewrite H by exact Hi. destruct (Z.eqb_spec i l) as [->|Hne].
    + rewrite bool_decide_false by set_solver. reflexivity.
    + rewrite Ho by exact Hi. f_equal. apply bool_decide_ext. set_solver.
  - exists (irq_eoi tr l). split; [reflexivity|]. intros i Hi. rewrite eoi_ok by exact Hi. apply Ho, Hi.
Qed.

Lemma run_ok os : forall tr S, open tr S -> Forall (fun o => 0 <= op_line o < 16) os -> exists tr', run dev tr os = Ret tr' /\ open tr' (fold_left spec os S).
Proof.
  induction os as [|o os IH]; intros tr S Ho Hos; cbn [run fold_left]; [eauto|]. apply Forall_cons in Hos. destruct Hos as [Hl Hos].
  destruct (mask_step_ok tr S o Ho Hl) as (tr' & -> & Ho'). rewrite mbind_Ret. apply IH; assumption.
Qed.

(** After [pic_init] only the line between the controllers is open. *)
Lemma init_ok tr : exists tr', pic_init dev tr = Ret tr' /\ open tr' {[IRQ_CASCADE]}.
Proof.
  unfold pic_init. set (tr1 := outb_wait (outb_wait _ _ _) PIC_SLAVE_DATA 0xFF).
  assert (open tr1 ∅) as Ho.
  { intros i Hi. rewrite bool_decide_false by set_solver. destruct (line_port_ok i Hi) as [Hp Hb]. unfold masked, tr1.
    rewrite !last_written_wait by (unfold PIC_MASTER_DATA, PIC_SLAVE_DATA in *; lia).
    destruct Hp as [-> | ->]; cbn -[Z.testbit]; change (u8 255) with (Z.ones 8); rewrite Z.ones_spec_low by lia; reflexivity. }
  destruct (mask_step_ok tr1 ∅ (Enable IRQ_CASCADE) Ho) as (tr' & E & Ho'); [unfold op_line, IRQ_CASCADE; lia|]. exists tr'. split; [exact E|].
  cbn [spec] in Ho'. rewrite union_empty_r_L in Ho'. exact Ho'.
Qed.

End facts.
End masks.

(** ** The table of interrupt gates *)
Module gates.
Import x86 encoding.

Section facts.
Context (address : isr -> Z) (Haddress : forall h, 0 <= address h < 2 ^ 32).

Definition gate_of (m : x86.t) (n : Z) : option gate_read := read_gate ∘ idt_bytes <$> znth (idt_descriptors m) n.

Lemma register_ok m n h type : zlen (idt_descriptors m) = 256 -> 0 <= n < 256 -> 0 <= type < 256 ->
  exists m', int_register m n (address h) KERNEL_CODE_SEL type = Ret m' /\ zlen (idt_descriptors m') = 256 /\
    forall i, gate_of m' i = if i =? n then Some (mk_gate (address h) KERNEL_CODE_SEL type) else gate_of m i.
Proof.
  intros Hl Hn Ht. unfold int_register. rewrite arr_set_Ret, mbind_Ret by lia. eexists. split; [reflexivity|]. split; [cbn [idt_descriptors]; rewrite zlen_zset; exact Hl|].
  intros i. unfold gate_of. cbn [idt_descriptors]. destruct (Z.eqb_spec i n) as [->|Hne].
  - rewrite znth_zset_eq by lia. cbn [fmap option_fmap option_map compose]. f_equal.
    destruct (gate_bytes (address h) KERNEL_CODE_SEL type (Haddress h)) as [E _]; [vm_compute; split; [discriminate|reflexivity]|]. unfold compose. rewrite E, Z.mod_small by exact Ht. reflexivity.
  - rewrite znth_zset_ne by congruence. reflexivity.
Qed.

Definition good (g : Z * isr * Z) : Prop := 0 <= g.1.1 < 256 /\ 0 <= g.2 < 256.

(** The last registration of a number counts. *)
Fixpoint registered (gs : list (Z * isr * Z)) (i : Z) : option gate_read :=
  match gs with
  | [] => None
  | (n, h, type) :: gs' => match registered gs' i with Some g => Some g | None => if i =? n then Some (mk_gate (address h) KERNEL_CODE_SEL type) else None end
  end.

Lemma register_all_ok gs : forall m, zlen (idt_descriptors m) = 256 -> Forall good gs ->
  exists m', register_all address m gs = Ret m' /\ zlen (idt_descriptors m') = 256 /\
    forall i, gate_of m' i = match registered gs i with Some g => Some g | None => gate_of m i end.
Proof.
  induction gs as [|[[n h] type] gs IH]; intros m Hl Hg; cbn [register_all registered]; [eauto|]. apply Forall_cons in Hg. destruct Hg as [[Hn Ht] Hg].
  destruct (register_ok m n h type Hl Hn Ht) as (m1 & -> & Hl1 & H1). rewrite mbind_Ret. destruct (IH m1 Hl1 Hg) as (m2 & -> & Hl2 & H2). exists m2.
  split; [reflexivity|]. split; [exact Hl2|]. intros i. rewrite H2. destruct (registered gs i); [reflexivity|]. rewrite H1. destruct (i =? n); reflexivity.
Qed.

Lemma init_gates_good : Forall good init_gates.
Proof. repeat (apply Forall_cons; split; [split; vm_compute; split; first [discriminate|reflexivity]|]). apply Forall_nil. exact I. Qed.

Lemma initial_gate tr i : 0 <= i < 256 -> gate_of (initial tr) i = Some (mk_gate 0 0 0).
Proof. intros Hi. unfold gate_of, initial. cbn [idt_descriptors]. rewrite znth_replicate by lia. reflexivity. Qed.

End facts.
End gates.

(** The bytes of a segment descriptor and of an interrupt gate give back the
    base, limit, flags and type, and the offset, selector and type, that their
    constructors were given, for every 32 bit base and offset; a limit of more
    than 20 bits stops the system. *)
Theorem descriptors_roundtrip (base limit flags type offset selector : Z) :
  0 <= base < 2 ^ 32 -> 0 <= limit -> 0 <= offset < 2 ^ 32 -> 0 <= selector < 2 ^ 16 ->
  match x86.new_gdt_descriptor base limit flags type with
  | Ret d => limit < 2 ^ 20 /\ encoding.read_segment (x86.gdt_bytes d) = encoding.mk_segment base limit (flags mod 16) (type mod 256) /\ length (x86.gdt_bytes d) = 8%nat
  | Panic => 2 ^ 20 <= limit
  | _ => False
  end /\
  encoding.read_gate (x86.idt_bytes (x86.new_idt_descriptor offset selector type)) = encoding.mk_gate offset selector (type mod 256) /\
  length (x86.idt_bytes (x86.new_idt_descriptor offset selector type)) = 8%nat.
Proof.
  intros Hb Hl Ho Hs. split; [|destruct (encoding.gate_bytes offset selector type Ho Hs) as (E & _ & H); auto].
  destruct (x86.new_gdt_descriptor base limit flags type) as [d| | |] eqn:E.
  - destruct (encoding.gdt_read _ _ _ _ _ Hb Hl E) as (E2 & _ & H). split; [|auto]. unfold x86.new_gdt_descriptor in E. destruct (Z.leb_spec limit 0x000FFFFF); [lia|discriminate].
  - unfold x86.new_gdt_descriptor in E. destruct (Z.leb_spec limit 0x000FFFFF); [discriminate|lia].
  - unfold x86.new_gdt_descriptor in E. destruct (limit <=? 0x000FFFFF); discriminate.
  - unfold x86.new_gdt_descriptor in E. destruct (limit <=? 0x000FFFFF); discriminate.
Qed.

(** The flat user code segment, and a gate high in the address space *)
Lemma descriptors_roundtrip_witness : exists d, x86.new_gdt_descriptor 0 0x000FFFFF 0xC 0xFA = Ret d /\
  encoding.read_segment (x86.gdt_bytes d) = encoding.mk_segment 0 0x000FFFFF 0xC 0xFA /\
  encoding.read_gate (x86.idt_bytes (x86.new_idt_descriptor 0xC0123456 8 0xFA)) = encoding.mk_gate 0xC0123456 8 0xFA.
Proof.
  destruct (descriptors_roundtrip 0 0x000FFFFF 0xC 0xFA 0xC0123456 8) as [H1 [H2 _]]; [lia|lia|lia|lia|].
  destruct (x86.new_gdt_descriptor 0 0x000FFFFF 0xC 0xFA) as [d| | |] eqn:E; [|destruct H1; discriminate|destruct H1|destruct H1]. exists d. destruct H1 as (_ & H1 & _).
  split; [reflexivity|]. split; [exact H1|exact H2].
Defined.

(** [int_init] fills the table of interrupt gates: every exception number it
    lists leads to its routine through a present gate of the kernel's code
    segment, and every other number has no present gate. *)
Theorem int_init_gates (address : x86.isr -> Z) (tr : ports.trace) (stack_end : Z) : (forall h, 0 <= address h < 2 ^ 32) ->
  exists m, x86.int_init address (x86.initial tr) stack_end = Ret m /\
    (forall n h type, (n, h, type) ∈ x86.init_gates -> gates.gate_of m n = Some (encoding.mk_gate (address h) x86.KERNEL_CODE_SEL type)) /\
    forall n, 0 <= n < 256 -> (forall h type, (n, h, type) ∉ x86.init_gates) -> gates.gate_of m n = Some (encoding.mk_gate 0 0 0).
Proof.
  intros Ha. destruct (gates.register_all_ok address Ha x86.init_gates (x86.initial tr)) as (m & E & _ & H); [reflexivity|apply gates.init_gates_good|].
  unfold x86.int_init. rewrite E, mbind_Ret. eexists. split; [reflexivity|]. assert (forall n, gates.gate_of (x86.tss_set_kernel_stack m stack_end) n = gates.gate_of m n) as Hg by reflexivity.
  split.
  - intros n h type Hin. rewrite Hg, H. revert Hin. unfold x86.init_gates. rewrite !elem_of_cons, elem_of_nil.
    intros Hin. repeat (destruct Hin as [Hin|Hin]; [injection Hin as -> -> ->; reflexivity|]). destruct Hin.
  - intros n Hn Hno. rewrite Hg, H, gates.initial_gate by exact Hn. destruct (gates.registered address x86.init_gates n) as [g|] eqn:Eg; [|reflexivity]. exfalso.
    assert (forall gs, gates.registered address gs n = Some g -> exists h type, (n, h, type) ∈ gs) as Hex.
    { induction gs as [|[[n' h] type] gs IH]; cbn [gates.registered]; [discriminate|]. destruct (gates.registered address gs n) as [g'|].
      - intros E'. destruct (IH E') as (h' & type' & Hin). exists h', type'. apply list_elem_of_further, Hin.
      - destruct (Z.eqb_spec n n') as [->|]; [|discriminate]. intros _. exists h, type. apply list_elem_of_here. }
    destruct (Hex _ Eg) as (h & type & Hin). exact (Hno h type Hin).
Qed.

(** The interrupt controllers hold back exactly the lines that were not
    enabled, or disabled since, whatever is enabled, disabled and acknowledged
    after their initialisation; the line that connects them stays as it is
    told, too. *)
Theorem interrupt_masks (dev : ports.device) (tr : ports.trace) (os : list masks.op) :
  masks.answers_mask dev -> Forall (fun o => 0 <= masks.op_line o < 16) os ->
  exists tr', (tr ← x86.pic_init dev tr; masks.run dev tr os) = Ret tr' /\
    forall line, 0 <= line < 16 -> masks.masked tr' line = negb (bool_decide (line ∈ fold_left masks.spec os {[x86.IRQ_CASCADE]})).
Proof.
  intros Hdev Hos. destruct (masks.init_ok dev Hdev tr) as (tr1 & -> & H1). rewrite mbind_Ret.
  destruct (masks.run_ok dev Hdev os tr1 _ H1 Hos) as (tr2 & E & H2). eauto.
Qed.

(** Two controllers that keep their masks; the timer, the keyboard and line 11
    are enabled, the keyboard is disabled. *)
Lemma interrupt_masks_witness : exists dev tr, masks.answers_mask dev /\
  (tr ← x86.pic_init dev []; masks.run dev tr [masks.Enable 0; masks.Enable 1; masks.Eoi 1; masks.Enable 11; masks.Disable 1]) = Ret tr /\
  map (masks.masked tr) [0; 1; 2; 10; 11] = [false; true; false; true; false].
Proof.
  destruct (interrupt_masks (fun tr _ port => default 0 (ports.last_written tr port)) [] [masks.Enable 0; masks.Enable 1; masks.Eoi 1; masks.Enable 11; masks.Disable 1])
    as (tr & E & H); [intros tr port _; reflexivity|repeat constructor; cbn; lia|].
  exists (fun tr _ port => default 0 (ports.last_written tr port)), tr. split; [intros tr' port _; reflexivity|]. split; [exact E|].
  cbn [map]. rewrite !H by lia. vm_compute. reflexivity.
Defined.
