(* ===== verification/Pci.v ===== *)
(** * The PCI bus (kernel/pci.cc)

    The scan of the buses, the search for a device, and the command register.
    What the configuration space holds is asked through two ports. *)

From S2P Require Import Prelude Pool Machine.
From stdpp Require Import gmap list.
#[local] Open Scope Z_scope.

Module pci.
Import ports.

Definition CONFIG_ADDRESS : Z := 0xCF8.
Definition CONFIG_DATA : Z := 0xCFC.

Record pci_device := mk_device { bus : Z; slot : Z; vendor : Z; device_id : Z; iobase : Z; mmio : bool; irq : Z }.

(** The arguments are bytes. *)
Definition loc2addr (bus slot func reg : Z) : Z :=
  Z.lor (Z.lor (Z.lor (Z.lor (Z.shiftl bus 16) (Z.shiftl slot 11)) (Z.shiftl func 8)) (Z.shiftl reg 2)) 0x80000000.

Section pci.
Variable dev : device.

Definition read_config (tr : trace) (address : Z) : trace * Z := ind dev (outd tr CONFIG_ADDRESS address) CONFIG_DATA.

Definition write_config (tr : trace) (address value : Z) : trace := outd (outd tr CONFIG_ADDRESS address) CONFIG_DATA value.

(** The global table *)
Definition devices_init : fixed_pool pci_device := new_fixed_pool 32.

(** The body of the loops of [pci_init] *)
Definition probe (devices : fixed_pool pci_device) (tr : trace) (b s : Z) : outcome (fixed_pool pci_device * trace) :=
  let '(tr, reg0) := read_config tr (loc2addr b s 0 0) in
  let vendor := Z.land reg0 0xFFFF in
  if vendor =? 0xFFFF then Ret (devices, tr)
  else
    let '(tr, reg3) := read_config tr (loc2addr b s 0 3) in
    let header_type := Z.land (Z.shiftr reg3 16) 0xFF in
    if Z.land header_type 0x7F =? 0 then
      let device := u16 (Z.shiftr reg0 16) in
      let '(tr, bar0) := read_config tr (loc2addr b s 0 4) in
      let '(tr, reg15) := read_config tr (loc2addr b s 0 0xF) in
      let irq := Z.land reg15 0xFF in
      d ← (if negb (Z.land bar0 1 =? 0) then Ret (mk_device b s vendor device (Z.land bar0 (Z.lnot 3)) false irq)
           else passert (Z.land bar0 0x6 =? 0);; Ret (mk_device b s vendor device (Z.land bar0 (Z.lnot 0xF)) true irq));
      '(p, _) ← pool.emplace_anywhere U16_MAX devices d;
      Ret (p, tr)
    else Ret (devices, tr).

Fixpoint scan_slots (devices : fixed_pool pci_device) (tr : trace) (b : Z) (slots : list Z) : outcome (fixed_pool pci_device * trace) :=
  match slots with
  | [] => Ret (devices, tr)
  | s :: slots' => '(p, tr) ← probe devices tr b s; scan_slots p tr b slots'
  end.

Fixpoint scan_buses (devices : fixed_pool pci_device) (tr : trace) (buses : list Z) : outcome (fixed_pool pci_device * trace) :=
  match buses with
  | [] => Ret (devices, tr)
  | b :: buses' => '(p, tr) ← scan_slots devices tr b (seqZ 0 0xFF); scan_buses p tr buses'
  end.

Definition pci_init (devices : fixed_pool pci_device) (tr : trace) : outcome (fixed_pool pci_device * trace) := scan_buses devices tr (seqZ 0 0xFF).

(** The first device that matches, [None] for the null pointer *)
Definition pci_find_device (devices : fixed_pool pci_device) (v d : Z) : option pci_device :=
  find (fun x => (vendor x =? v) && (device_id x =? d)) (map snd (pool.entries U16_MAX devices)).

Definition pci_read_command (tr : trace) (d : pci_device) : trace * Z :=
  let '(tr, reg1) := read_config tr (loc2addr (bus d) (slot d) 0 1) in (tr, Z.land reg1 0xFFFF).

Definition pci_write_command (tr : trace) (d : pci_device) (value : Z) : trace :=
  let address := loc2addr (bus d) (slot d) 0 1 in
  let '(tr, reg1) := read_config tr address in
  write_config tr address (Z.lor (Z.land reg1 0xFFFF0000) (Z.land value 0xFFFF)).

End pci.
End pci.

(** ** What the scan finds *)
Module scan.
Import ports pci.

(** Configuration space: after an address is written, its register is read. *)
Definition answers (dev : device) (cfg : Z -> Z) : Prop :=
  (forall a, 0 <= cfg a < 2 ^ 32) /\ forall tr a, dev (Wr 4 CONFIG_ADDRESS a :: tr) 4 CONFIG_DATA = cfg a.

Definition register (cfg : Z -> Z) (b s reg : Z) : Z := cfg (loc2addr b s 0 reg).

(** The function in a slot, as its registers describe it *)
Definition described (cfg : Z -> Z) (bs : Z * Z) : option pci_device :=
  let '(b, s) := bs in
  let r := register cfg b s in
  if (r 0 mod 2 ^ 16 =? 0xFFFF) || negb (r 3 / 2 ^ 16 mod 2 ^ 7 =? 0) then None
  else
    let io := Z.odd (r 4) in
    Some (mk_device b s (r 0 mod 2 ^ 16) (r 0 / 2 ^ 16) (if io then r 4 / 4 * 4 else r 4 / 16 * 16) (negb io) (r 15 mod 2 ^ 8)).

(** Memory bars are 32 bits wide. *)
Definition bar_ok (cfg : Z -> Z) (bs : Z * Z) : Prop := Z.odd (register cfg bs.1 bs.2 4) = true \/ register cfg bs.1 bs.2 4 mod 8 < 2.

Definition locations : list (Z * Z) := concat (map (fun b => map (pair b) (seqZ 0 0xFF)) (seqZ 0 0xFF)).

Lemma land_7F_FF x : Z.land (Z.land x 0xFF) 0x7F = x mod 2 ^ 7.
Proof. rewrite <-Z.land_assoc. exact (land_ones_mod x 7 ltac:(lia)). Qed.

Lemma land_1 x : Z.land x 1 = x mod 2.
Proof. exact (land_ones_mod x 1 ltac:(lia)). Qed.

Lemma land_6 x : x mod 2 = 0 -> (Z.land x 0x6 =? 0) = (x mod 8 <? 2).
Proof.
  intros Hx. assert (Z.land x 6 = Z.land (x mod 8) 6) as ->. { change (x mod 8) with (x mod 2 ^ 3). rewrite <-(land_ones_mod x 3) by lia. rewrite <-Z.land_assoc. reflexivity. }
  assert (x mod 8 = 0 \/ x mod 8 = 2 \/ x mod 8 = 4 \/ x mod 8 = 6) as H by dlia. destruct H as [-> | [-> | [-> | ->]]]; reflexivity.
Qed.

Lemma loc2addr_u32 b s reg : 0 <= b < 0x100 -> 0 <= s < 0x100 -> 0 <= reg < 64 -> 0 <= loc2addr b s 0 reg < 2 ^ 32.
Proof. intros Hb Hs Hr. unfold loc2addr. rewrite !Z.shiftl_mul_pow2 by lia. repeat apply lor_below; lia. Qed.

(** Register and bus number of an address *)
Lemma loc2addr_reg b s reg : 0 <= reg < 64 -> loc2addr b s 0 reg mod 2 ^ 8 = reg * 4.
Proof.
  intros Hr. unfold loc2addr. rewrite <-Z.land_ones, !Z.land_lor_distr_l, !Z.land_ones, !Z.shiftl_mul_pow2 by lia.
  replace (b * 2 ^ 16 mod 2 ^ 8) with 0 by dlia. replace (s * 2 ^ 11 mod 2 ^ 8) with 0 by dlia. change (0 * 2 ^ 8 mod 2 ^ 8) with 0. change (0x80000000 mod 2 ^ 8) with 0.
  rewrite Z.lor_0_r, !Z.lor_0_l. apply Z.mod_small. lia.
Qed.

Lemma loc2addr_bus b s reg : 0 <= b < 0x100 -> 0 <= s < 32 -> 0 <= reg < 64 -> loc2addr b s 0 reg / 2 ^ 16 mod 2 ^ 8 = b.
Proof.
  intros Hb Hs Hr. unfold loc2addr. rewrite <-Z.shiftr_div_pow2, !Z.shiftr_lor, !Z.shiftr_div_pow2, !Z.shiftl_mul_pow2 by lia.
  rewrite (Z.div_small (s * 2 ^ 11)), (Z.div_small (reg * 2 ^ 2)), Z.div_mul by lia. change (0 * 2 ^ 8 / 2 ^ 16) with 0. change (0x80000000 / 2 ^ 16) with 0x8000.
  rewrite !Z.lor_0_r, <-Z.land_ones, Z.land_lor_distr_l, !Z.land_ones by lia. change (0x8000 mod 2 ^ 8) with 0. rewrite Z.lor_0_r. apply Z.mod_small. lia.
Qed.

Section facts.
Context (dev : device) (cfg : Z -> Z) (Hdev : answers dev cfg).

Lemma read_ok tr a : 0 <= a < 2 ^ 32 -> exists tr', read_config dev tr a = (tr', cfg a).
Proof.
  intros Ha. destruct Hdev as [Hc Hd]. unfold read_config, ind, outd. change (u16 CONFIG_ADDRESS) with CONFIG_ADDRESS. change (u16 CONFIG_DATA) with CONFIG_DATA.
  rewrite (u32_small a Ha), Hd, (u32_small _ (Hc a)). eauto.
Qed.

Lemma probe_ok p l tr b s : 0 <= b < 0x100 -> 0 <= s < 0x100 -> bar_ok cfg (b, s) -> fp_seq p l -> sp_capacity p = 32 ->
  match described cfg (b, s) with
  | Some d => if zlen l <? 32 then exists p' tr', probe dev p tr b s = Ret (p', tr') /\ fp_seq p' (l ++ [d]) /\ sp_capacity p' = 32 else probe dev p tr b s = Panic
  | None => exists tr', probe dev p tr b s = Ret (p, tr')
  end.
Proof.
  intros Hb Hs Hbar Hp Hcap. pose proof (fun reg => loc2addr_u32 b s reg Hb Hs) as Hu. unfold probe, described, bar_ok, register in *. cbn [fst snd] in Hbar.
  destruct (read_ok tr (loc2addr b s 0 0)) as [tr1 ->]; [apply Hu; lia|]. change 0xFFFF with (2 ^ 16 - 1). rewrite land_ones_mod by lia.
  destruct (Z.eqb_spec (cfg (loc2addr b s 0 0) mod 2 ^ 16) (2 ^ 16 - 1)) as [Ev|Ev]; cbn [orb]; [eauto|].
  destruct (read_ok tr1 (loc2addr b s 0 3)) as [tr2 ->]; [apply Hu; lia|]. rewrite land_7F_FF, Z.shiftr_div_pow2 by lia.
  destruct (Z.eqb_spec (cfg (loc2addr b s 0 3) / 2 ^ 16 mod 2 ^ 7) 0) as [Eh|Eh]; cbn [negb]; [|eauto].
  destruct (read_ok tr2 (loc2addr b s 0 4)) as [tr3 ->]; [apply Hu; lia|]. destruct (read_ok tr3 (loc2addr b s 0 15)) as [tr4 ->]; [apply Hu; lia|].
  set (r0 := cfg (loc2addr b s 0 0)) in *. set (r4 := cfg (loc2addr b s 0 4)) in *. set (r15 := cfg (loc2addr b s 0 15)) in *.
  assert (0 <= r0 < 2 ^ 32) as Hr0 by apply (proj1 Hdev).
  assert (u16 (Z.shiftr r0 16) = r0 / 2 ^ 16) as -> by (rewrite Z.shiftr_div_pow2 by lia; unfold u16; apply Z.mod_small; dlia).
  change 0xFF with (2 ^ 8 - 1). rewrite (land_ones_mod r15) by lia. change 3 with (2 ^ 2 - 1). change (0xF) with (2 ^ 4 - 1). rewrite !land_lnot_mod by lia.
  match goal with |- context [mbind ?k (if ?c then _ else _)] => assert ((if c then Ret (mk_device b s (r0 mod 2 ^ 16) (r0 / 2 ^ 16) (r4 / 2 ^ 2 * 2 ^ 2) false (r15 mod 2 ^ 8))
      else passert (Z.land r4 6 =? 0);; Ret (mk_device b s (r0 mod 2 ^ 16) (r0 / 2 ^ 16) (r4 / 2 ^ 4 * 2 ^ 4) true (r15 mod 2 ^ 8))) =
      Ret (mk_device b s (r0 mod 2 ^ 16) (r0 / 2 ^ 16) (if Z.odd r4 then r4 / 4 * 4 else r4 / 16 * 16) (negb (Z.odd r4)) (r15 mod 2 ^ 8))) as ->;
      [|rewrite mbind_Ret] end.
  { rewrite land_1, Zmod_odd. destruct (Z.odd r4) eqn:Eo; cbn [Z.eqb negb]; [reflexivity|]. destruct Hbar as [Hbar|Hbar]; [discriminate|].
    rewrite land_6 by (rewrite Zmod_odd, Eo; reflexivity). rewrite (proj2 (Z.ltb_lt _ _)) by exact Hbar. reflexivity. }
  destruct (Z.ltb_spec (zlen l) 32) as [Hl|Hl].
  - destruct (fp_seq_append p l (mk_device b s (r0 mod 2 ^ 16) (r0 / 2 ^ 16) (if Z.odd r4 then r4 / 4 * 4 else r4 / 16 * 16) (negb (Z.odd r4)) (r15 mod 2 ^ 8)) Hp) as (p' & -> & Hp' & Hc'); [lia|].
    rewrite mbind_Ret. eexists _, _. split; [reflexivity|]. split; [exact Hp'|exact (eq_trans Hc' Hcap)].
  - rewrite (fp_seq_full p l) by (first [exact Hp|lia]). reflexivity.
Qed.

(** The rest of a scan: what is found is added, if there is room. *)
Definition scanned (m : outcome (fixed_pool pci_device * trace)) (l found : list pci_device) : Prop :=
  if zlen (l ++ found) <=? 32 then exists p tr, m = Ret (p, tr) /\ fp_seq p (l ++ found) /\ sp_capacity p = 32 else m = Panic.

Lemma scanned_small m found : scanned m [] found -> zlen found <= 32 -> exists p tr, m = Ret (p, tr) /\ map snd (pool.entries U16_MAX p) = found.
Proof.
  unfold scanned. cbn [app]. intros H Hl. rewrite (proj2 (Z.leb_le _ _)) in H by exact Hl. destruct H as (p & tr & E & Hp & _). exists p, tr.
  split; [exact E|apply fp_seq_entries, Hp].
Qed.

Lemma scanned_large m found : scanned m [] found -> 32 < zlen found -> m = Panic.
Proof. unfold scanned. cbn [app]. intros H Hl. rewrite (proj2 (Z.leb_gt _ _)) in H by exact Hl. exact H. Qed.

Lemma scanned_bind (m : outcome (fixed_pool pci_device * trace)) f l found1 found2 : scanned m l found1 ->
  (forall p tr, fp_seq p (l ++ found1) -> sp_capacity p = 32 -> zlen (l ++ found1) <= 32 -> scanned (f (p, tr)) (l ++ found1) found2) ->
  scanned (mbind f m) l (found1 ++ found2).
Proof.
  intros Hm Hf. unfold scanned in Hm. destruct (Z.leb_spec (zlen (l ++ found1)) 32) as [Hle|Hgt].
  - destruct Hm as (p & tr & -> & Hp & Hc). rewrite mbind_Ret. specialize (Hf p tr Hp Hc Hle). unfold scanned in *. rewrite <-app_assoc in Hf. exact Hf.
  - rewrite Hm. unfold scanned. rewrite app_assoc, zlen_app. pose proof (zlen_nonneg found2). rewrite (proj2 (Z.leb_gt _ _)) by lia. reflexivity.
Qed.

Lemma probe_scanned p l tr b s : 0 <= b < 0x100 -> 0 <= s < 0x100 -> bar_ok cfg (b, s) -> fp_seq p l -> sp_capacity p = 32 -> zlen l <= 32 ->
  scanned (probe dev p tr b s) l (omap (described cfg) [(b, s)]).
Proof.
  intros Hb Hs Hbar Hp Hc Hl. pose proof (probe_ok p l tr b s Hb Hs Hbar Hp Hc) as H. cbn [omap list_omap]. unfold scanned. destruct (described cfg (b, s)) as [d|].
  - rewrite zlen_app. change (zlen [d]) with 1. destruct (Z.ltb_spec (zlen l) 32) as [Hlt|Hge].
    + rewrite (proj2 (Z.leb_le _ _)) by lia. exact H.
    + rewrite (proj2 (Z.leb_gt _ _)) by lia. exact H.
  - rewrite app_nil_r, (proj2 (Z.leb_le _ _)) by exact Hl. destruct H as [tr' ->]. eauto 10.
Qed.

Lemma omap_none {A B} (f : A -> option B) l : (forall x, x ∈ l -> f x = None) -> omap f l = [].
Proof. induction l as [|x l IH]; intros H; [reflexivity|]. cbn. rewrite (H x (list_elem_of_here _ _)). apply IH. intros y Hy. apply H, list_elem_of_further, Hy. Qed.

Lemma omap_app {A B} (f : A -> option B) l1 l2 : omap f (l1 ++ l2) = omap f l1 ++ omap f l2.
Proof. induction l1 as [|x l1 IH]; [reflexivity|]. cbn. destruct (f x); [cbn|]; rewrite IH; reflexivity. Qed.

Lemma slots_scanned slots : forall p l tr b, 0 <= b < 0x100 -> (forall s, s ∈ slots -> 0 <= s < 0x100 /\ bar_ok cfg (b, s)) -> fp_seq p l -> sp_capacity p = 32 -> zlen l <= 32 ->
  scanned (scan_slots dev p tr b slots) l (omap (described cfg) (map (pair b) slots)).
Proof.
  induction slots as [|s slots IH]; intros p l tr b Hb Hs Hp Hc Hl; cbn [scan_slots map].
  - cbn. unfold scanned. rewrite app_nil_r, (proj2 (Z.leb_le _ _)) by exact Hl. eauto 10.
  - change ((b, s) :: map (pair b) slots) with ([(b, s)] ++ map (pair b) slots). rewrite omap_app. destruct (Hs s (list_elem_of_here _ _)) as [Hs1 Hbar].
    apply scanned_bind; [apply probe_scanned; assumption|]. intros p' tr' Hp' Hc' Hl'. apply IH; try assumption. intros s' Hin. apply Hs, list_elem_of_further, Hin.
Qed.

Lemma buses_scanned buses : forall p l tr, (forall b, b ∈ buses -> 0 <= b < 0x100) -> (forall b s, b ∈ buses -> 0 <= s < 0xFF -> bar_ok cfg (b, s)) -> fp_seq p l -> sp_capacity p = 32 -> zlen l <= 32 ->
  scanned (scan_buses dev p tr buses) l (omap (described cfg) (concat (map (fun b => map (pair b) (seqZ 0 0xFF)) buses))).
Proof.
  induction buses as [|b buses IH]; intros p l tr Hb Hbar Hp Hc Hl; cbn [scan_buses map concat].
  - cbn. unfold scanned. rewrite app_nil_r, (proj2 (Z.leb_le _ _)) by exact Hl. eauto 10.
  - rewrite omap_app. apply scanned_bind.
    + apply slots_scanned; try assumption; [apply Hb, list_elem_of_here|]. intros s Hs. apply elem_of_seqZ in Hs. split; [lia|]. apply Hbar; [apply list_elem_of_here|lia].
    + intros p' tr' Hp' Hc' Hl'. apply IH; try assumption; intros; [apply Hb|apply Hbar; [|assumption]]; apply list_elem_of_further; assumption.
Qed.

Lemma init_scanned tr : (forall b s, 0 <= b < 0xFF -> 0 <= s < 0xFF -> bar_ok cfg (b, s)) -> scanned (pci_init dev devices_init tr) [] (omap (described cfg) locations).
Proof.
  intros Hbar. apply buses_scanned; [| |apply fp_seq_new; unfold U16_MAX; lia| |vm_compute; discriminate].
  - intros b Hb. apply elem_of_seqZ in Hb. lia.
  - intros b s Hb Hs. apply elem_of_seqZ in Hb. apply Hbar; lia.
  - apply fp_new_capacity. lia.
Qed.

(** ** Slots of 5 bits

    The address has room for 32 slots: the slot numbers above are slots of
    other buses. *)

Lemma loc2addr_alias b s f r : 0 <= b -> 0 <= s -> loc2addr b s f r = loc2addr (Z.lor b (s / 32)) (s mod 32) f r.
Proof.
  intros Hb Hs. unfold loc2addr. do 3 f_equal. rewrite Z.shiftl_lor, <-Z.lor_assoc. f_equal.
  assert (s = Z.lor (Z.shiftl (s / 32) 5) (s mod 32)) as Es by (rewrite lor_shiftl_add by dlia; dlia).
  rewrite Es at 1. rewrite Z.shiftl_lor, Z.shiftl_shiftl by lia. reflexivity.
Qed.

(** Nothing is found on the buses above 7 when all devices are below. *)
Lemma low_buses : (forall b s, 8 <= b < 0x100 -> 0 <= s < 32 -> register cfg b s 0 mod 2 ^ 16 = 0xFFFF) ->
  omap (described cfg) locations = omap (described cfg) (concat (map (fun b => map (pair b) (seqZ 0 0xFF)) (seqZ 0 8))).
Proof.
  intros Hnone. unfold locations. change (seqZ 0 0xFF) with (seqZ 0 8 ++ seqZ 8 247) at 2. rewrite map_app, concat_app, omap_app, (omap_none _ (concat (map _ (seqZ 8 247)))), app_nil_r; [reflexivity|].
  intros x Hx. apply list_elem_of_In, in_concat in Hx. destruct Hx as (l & Hl & Hx). apply in_map_iff in Hl. destruct Hl as (b & <- & Hb). apply in_map_iff in Hx. destruct Hx as (s & <- & Hs).
  apply list_elem_of_In, elem_of_seqZ in Hb, Hs. unfold described. assert (register cfg b s 0 mod 2 ^ 16 = 0xFFFF) as ->; [|reflexivity].
  unfold register. rewrite loc2addr_alias by lia. apply Hnone; [|dlia]. pose proof (lor_below 8 b (s / 32) ltac:(lia) ltac:(lia) ltac:(dlia)) as Hl. split; [|lia].
  apply Z.le_trans with b; [lia|]. apply Z.ldiff_le; [apply Z.lor_nonneg; dlia|]. apply Z.bits_inj'. intros n Hn. rewrite Z.ldiff_spec, Z.lor_spec, Z.bits_0. destruct (Z.testbit b n); reflexivity.
Qed.

(** Every device is on bus 0. *)
Definition bus0_only : Prop := forall b s, 0 < b < 0x100 -> 0 <= s < 32 -> register cfg b s 0 mod 2 ^ 16 = 0xFFFF.

Lemma alias_none b s : bus0_only -> 0 <= b < 0xFF -> 0 <= s < 0xFF -> 0 < b \/ 32 <= s -> described cfg (b, s) = None.
Proof.
  intros H0 Hb Hs Hor. unfold described. assert (register cfg b s 0 mod 2 ^ 16 = 0xFFFF) as ->; [|reflexivity].
  unfold register. rewrite loc2addr_alias by lia. apply H0; [|dlia]. pose proof (lor_below 8 b (s / 32) ltac:(lia) ltac:(lia) ltac:(dlia)) as Hl. split; [|lia].
  destruct (Z.eq_dec (Z.lor b (s / 32)) 0) as [E|]; [|lia]. apply Z.lor_eq_0_iff in E. dlia.
Qed.

Lemma omap_length {A B} (f : A -> option B) l : (length (omap f l) <= length l)%nat.
Proof. induction l as [|x l IH]; [reflexivity|]. cbn. destruct (f x); cbn; lia. Qed.

Lemma bus0_found : bus0_only -> omap (described cfg) locations = omap (described cfg) (map (pair 0) (seqZ 0 32)).
Proof.
  intros H0. unfold locations. change (seqZ 0 0xFF) with (0 :: seqZ 1 0xFE) at 2. cbn [map concat]. rewrite omap_app, (omap_none _ (concat _)), app_nil_r.
  - change (seqZ 0 0xFF) with (seqZ 0 32 ++ seqZ 32 223). rewrite map_app, omap_app, (omap_none _ (map _ (seqZ 32 223))), app_nil_r; [reflexivity|].
    intros x Hx. apply list_elem_of_fmap in Hx. destruct Hx as (s & -> & Hs). apply elem_of_seqZ in Hs. apply alias_none; [exact H0|lia|lia|lia].
  - intros x Hx. apply list_elem_of_In, in_concat in Hx. destruct Hx as (l & Hl & Hx). apply in_map_iff in Hl. destruct Hl as (b & <- & Hb). apply in_map_iff in Hx. destruct Hx as (s & <- & Hs).
    apply list_elem_of_In, elem_of_seqZ in Hb, Hs. apply alias_none; [exact H0|lia|lia|lia].
Qed.

End facts.
End scan.

(** The scan of a machine with all its devices on bus 0 finds each of them
    once, in the order of their slots, with the vendor, the device number, the
    address and the interrupt line their registers hold, and the table has
    room for all of them; [pci_find_device] then gives the first one that
    matches. *)
Theorem pci_finds_devices (dev : ports.device) (cfg : Z -> Z) (tr : ports.trace) : scan.answers dev cfg ->
  (forall b s, 0 <= b < 0xFF -> 0 <= s < 0xFF -> scan.bar_ok cfg (b, s)) -> scan.bus0_only cfg ->
  let found := omap (scan.described cfg) (map (pair 0) (seqZ 0 32)) in
  exists p tr', pci.pci_init dev pci.devices_init tr = Ret (p, tr') /\ map snd (pool.entries U16_MAX p) = found /\
    forall v d, pci.pci_find_device p v d = find (fun x => (pci.vendor x =? v) && (pci.device_id x =? d)) found.
Proof.
  intros Hdev Hbar H0 found. pose proof (scan.init_scanned dev cfg Hdev tr Hbar) as H. rewrite (scan.bus0_found cfg H0) in H.
  destruct (scan.scanned_small _ _ H) as (p & tr' & E & He).
  - unfold zlen. pose proof (scan.omap_length (scan.described cfg) (map (pair 0) (seqZ 0 32))) as Hl. change (length (map (pair 0) (seqZ 0 32))) with 32%nat in Hl. lia.
  - exists p, tr'. split; [exact E|]. split; [exact He|]. intros v d. unfold pci.pci_find_device. rewrite He. reflexivity.
Qed.

(** A configuration space with one function in a slot of a bus: registers 0,
    3, 4 and 15 of the network card of an emulator *)
Definition one_device (b s : Z) (a : Z) : Z :=
  if a =? pci.loc2addr b s 0 0 then 0x813910EC else if a =? pci.loc2addr b s 0 3 then 0 else if a =? pci.loc2addr b s 0 4 then 0xC001
  else if a =? pci.loc2addr b s 0 15 then 0x10B else 0xFFFFFFFF.

Definition config_ports (cfg : Z -> Z) (tr : ports.trace) (width port : Z) : Z :=
  match tr with ports.Wr _ _ a :: _ => cfg a | _ => 0 end.

Lemma one_device_answers b s : scan.answers (config_ports (one_device b s)) (one_device b s).
Proof.
  split; [|reflexivity]. intros a. unfold one_device. repeat (match goal with |- context [if ?c then _ else _] => destruct c end; [lia|]). lia.
Qed.

(** Addresses of different registers, or of different buses, differ. *)
Lemma other_register b s b' s' reg reg' : 0 <= reg < 64 -> 0 <= reg' < 64 -> reg <> reg' -> (pci.loc2addr b s 0 reg =? pci.loc2addr b' s' 0 reg') = false.
Proof.
  intros Hr Hr' Hne. apply Z.eqb_neq. intros E. apply (f_equal (fun a => a mod 2 ^ 8)) in E. rewrite !scan.loc2addr_reg in E by assumption. lia.
Qed.

Lemma other_bus b s b' s' reg reg' : 0 <= b < 0x100 -> 0 <= b' < 0x100 -> 0 <= s < 32 -> 0 <= s' < 32 -> 0 <= reg < 64 -> 0 <= reg' < 64 -> b <> b' ->
  (pci.loc2addr b s 0 reg =? pci.loc2addr b' s' 0 reg') = false.
Proof.
  intros Hb Hb' Hs Hs' Hr Hr' Hne. apply Z.eqb_neq. intros E. apply (f_equal (fun a => a / 2 ^ 16 mod 2 ^ 8)) in E. rewrite !scan.loc2addr_bus in E by assumption. congruence.
Qed.

Lemma one_device_bars b s x : scan.bar_ok (one_device b s) x.
Proof.
  destruct x as [b' s']. left. unfold scan.register, one_device. cbn [fst snd]. rewrite (other_register b' s' b s 4 0), (other_register b' s' b s 4 3), (other_register b' s' b s 4 15) by lia. destruct (_ =? _); reflexivity.
Qed.

(** The network card in slot 3 of bus 0 is found. *)
Lemma pci_finds_devices_witness : exists p tr, pci.pci_init (config_ports (one_device 0 3)) pci.devices_init [] = Ret (p, tr) /\
  pci.pci_find_device p 0x10EC 0x8139 = Some (pci.mk_device 0 3 0x10EC 0x8139 0xC000 false 11) /\ pci.pci_find_device p 0x8086 0x100E = None.
Proof.
  destruct (pci_finds_devices (config_ports (one_device 0 3)) (one_device 0 3) [] (one_device_answers 0 3)) as (p & tr & E & _ & H).
  - intros b s _ _. apply one_device_bars.
  - intros b s Hb Hs. unfold scan.register, one_device.
    rewrite !other_bus by lia. reflexivity.
  - exists p, tr. split; [exact E|]. rewrite !H. split; vm_compute; reflexivity.
Defined.

(** A card on bus 1 is found three times, and two cards on bus 7 stop the
    system: slot numbers above 31 reach into the bus number, and the table
    overflows. *)
Lemma one_device_elsewhere bus slot b s : 0 <= bus < 8 -> 0 <= slot < 32 -> 8 <= b < 0x100 -> 0 <= s < 32 -> scan.register (one_device bus slot) b s 0 mod 2 ^ 16 = 0xFFFF.
Proof. intros Hbus Hslot Hb Hs. unfold scan.register, one_device. rewrite !other_bus by lia. reflexivity. Qed.

Lemma pci_slots_alias : exists p tr d, pci.pci_init (config_ports (one_device 1 3)) pci.devices_init [] = Ret (p, tr) /\
  map snd (pool.entries U16_MAX p) = [d 0 35; d 1 3; d 1 35] /\ forall b s, d b s = pci.mk_device b s 0x10EC 0x8139 0xC000 false 11.
Proof.
  pose proof (scan.init_scanned _ _ (one_device_answers 1 3) [] (fun b s _ _ => one_device_bars 1 3 (b, s))) as H.
  set (d := fun b s => pci.mk_device b s 0x10EC 0x8139 0xC000 false 11).
  assert (omap (scan.described (one_device 1 3)) scan.locations = [d 0 35; d 1 3; d 1 35]) as E by (rewrite scan.low_buses by (intros; apply one_device_elsewhere; lia); vm_compute; reflexivity). rewrite E in H.
  destruct (scan.scanned_small _ _ H) as (p & tr & Ep & He); [vm_compute; discriminate|]. exists p, tr, d. auto.
Qed.

Definition two_devices (a : Z) : Z := if one_device 7 0 a =? 0xFFFFFFFF then one_device 7 1 a else one_device 7 0 a.

Lemma two_devices_answers : scan.answers (config_ports two_devices) two_devices.
Proof.
  split; [|reflexivity]. intros a. unfold two_devices. destruct (_ =? _); [apply (proj1 (one_device_answers 7 1))|apply (proj1 (one_device_answers 7 0))].
Qed.

Lemma two_devices_bars x : scan.bar_ok two_devices x.
Proof.
  unfold scan.bar_ok, scan.register, two_devices. destruct (_ =? _); [apply (one_device_bars 7 1 x)|apply (one_device_bars 7 0 x)].
Qed.

Lemma pci_bus_7_overflows : pci.pci_init (config_ports two_devices) pci.devices_init [] = Panic.
Proof.
  apply (scan.scanned_large _ _ (scan.init_scanned _ _ two_devices_answers [] (fun b s _ _ => two_devices_bars (b, s)))).
  rewrite scan.low_buses; [vm_compute; reflexivity|]. intros b s Hb Hs. unfold scan.register, two_devices.
  pose proof (one_device_elsewhere 7 1 b s ltac:(lia) ltac:(lia) Hb Hs) as H1. pose proof (one_device_elsewhere 7 0 b s ltac:(lia) ltac:(lia) Hb Hs) as H0. destruct (_ =? _); assumption.
Qed.
