(* ===== verification/Screen.v ===== *)
(** * The text screen (kernel/screen.cc, screen_private.h, support/mem_range.h, serial.cc)

    A buffer is a grid of character cells with a cursor.  Every terminal
    prints into a back buffer of its own; the one that is shown is printed
    into the memory of the display as well. *)

From S2P Require Import Prelude Pool KernelDefs.
From stdpp Require Import gmap list.
#[local] Open Scope Z_scope.

(** ** p2::mem_range over a memory of cells: [lo] and [hi] are its two pointers *)
Module mem_range.

Record t := mk { lo : Z; hi : Z }.

(** [fill] *)
Fixpoint fill_loop (fuel : nat) (mem : list Z) (pos hi v : Z) : outcome (list Z) :=
  match fuel with
  | O => NoFuel
  | S fuel' => if pos <? hi then mem ← arr_set mem pos v; fill_loop fuel' mem (pos + 1) hi v else Ret mem
  end.

Definition fill (mem : list Z) (r : t) (v : Z) : outcome (list Z) := fill_loop (S (Z.to_nat (hi r - lo r))) mem (lo r) (hi r) v.

Definition size (r : t) : Z := u32 (hi r - lo r).

Definition in_bounds (r : t) (idx : Z) : bool := (lo r + idx >=? lo r) && (lo r + idx <? hi r).

(** [operator []] as a value and as the target of an assignment *)
Definition read (mem : list Z) (r : t) (idx : Z) : outcome Z := passert (in_bounds r idx);; arr_get mem (lo r + idx).
Definition write (mem : list Z) (r : t) (idx v : Z) : outcome (list Z) := passert (in_bounds r idx);; arr_set mem (lo r + idx) v.

Definition subrange (r : t) (substart length : Z) : t :=
  let length := if length =? -1 then hi r - lo r - substart else length in
  mk (lo r + substart) (lo r + substart + length).

(** [assign_overlap] of a range of the same memory *)
Fixpoint overlap_loop (n : nat) (mem : list Z) (l r : t) (i : Z) : outcome (list Z) :=
  match n with
  | O => Ret mem
  | S n' => v ← read mem r i; mem ← write mem l i v; overlap_loop n' mem l r (i + 1)
  end.

Definition assign_overlap (mem : list Z) (l r : t) : outcome (list Z) :=
  overlap_loop (Z.to_nat (Z.min (size l) (size r))) mem l r 0.

(** [assign_disjunct] of a range of another memory [rmem] *)
Fixpoint disjunct_loop (n : nat) (mem rmem : list Z) (l r : t) (i : Z) : outcome (list Z) :=
  match n with
  | O => Ret mem
  | S n' => v ← read rmem r i; mem ← write mem l i v; disjunct_loop n' mem rmem l r (i + 1)
  end.

Definition assign_disjunct (mem : list Z) (l : t) (rmem : list Z) (r : t) : outcome (list Z) :=
  disjunct_loop (Z.to_nat (Z.min (size l) (size r))) mem rmem l r 0.

End mem_range.

Module screen.

Definition NUM_COLUMNS : Z := 80.
Definition NUM_ROWS : Z := 25.

Definition entry (bg_color fg_color letter : Z) : Z :=
  u16 (Z.lor (Z.shiftl (Z.lor (Z.shiftl (Z.land bg_color 0xF) 4) (Z.land fg_color 0xF)) 8) (Z.land letter 0x7F)).

Definition blank : Z := entry 0x0 0xF 32.

(** ** class buffer *)

Record buffer := mk_buffer { is_front : bool; cells : list Z; position : Z }.
Implicit Type b : buffer.

(** The range [_buffer] spans the cells. *)
Definition range b : mem_range.t := mem_range.mk 0 (zlen (cells b)).

(** The constructor, over memory that holds [junk] *)
Definition make_buffer (front : bool) (junk : list Z) : outcome buffer :=
  m ← mem_range.fill junk (mem_range.mk 0 (zlen junk)) blank; Ret (mk_buffer front m 0).

(** The rows move up by one; the last one stays. *)
Definition scroll b : outcome buffer :=
  m ← mem_range.assign_overlap (cells b) (mem_range.subrange (range b) 0 (NUM_COLUMNS * (NUM_ROWS - 1))) (mem_range.subrange (range b) NUM_COLUMNS (-1));
  Ret (mk_buffer (is_front b) m (position b)).

Definition clear_rest b : outcome buffer :=
  m ← mem_range.fill (cells b) (mem_range.subrange (range b) (position b) (-1)) blank; Ret (mk_buffer (is_front b) m (position b)).

(** One character of the loop of [print] *)
Definition print_char b (clear_until_end : bool) (c : Z) : outcome (buffer * bool) :=
  let newline := c =? 10 in
  if c =? 8 then
    if position b >? 0 then
      m ← mem_range.write (cells b) (range b) (position b - 1) blank;
      Ret (mk_buffer (is_front b) m (position b - 1), clear_until_end)
    else Ret (b, clear_until_end)
  else
    b ← (if newline then p ← i32 (position b + (NUM_COLUMNS - Z.rem (position b) NUM_COLUMNS)); Ret (mk_buffer (is_front b) (cells b) p) else Ret b);
    '(b, clear_until_end) ←
      (if position b >=? NUM_COLUMNS * NUM_ROWS then
         b ← scroll (mk_buffer (is_front b) (cells b) (position b - NUM_COLUMNS));
         if newline then b ← clear_rest b; Ret (b, clear_until_end) else Ret (b, true)
       else Ret (b, clear_until_end));
    if newline then Ret (b, clear_until_end)
    else
      m ← mem_range.write (cells b) (range b) (position b) (entry 0x0 0xF c);
      Ret (mk_buffer (is_front b) m (position b + 1), clear_until_end).

(** [message] is the memory that can be read behind the pointer. *)
Fixpoint print_loop b (clear_until_end : bool) (message : list Z) (count : Z) : outcome (buffer * bool) :=
  match message with
  | [] => Undef
  | c :: message' =>
      if c =? 0 then Ret (b, clear_until_end)
      else if count =? 0 then Ret (b, clear_until_end)
      else
        count ← (if count =? -1 then Ret count else i32 (count - 1));
        '(b, clear_until_end) ← print_char b clear_until_end c;
        print_loop b clear_until_end message' count
  end.

(** [print], without the move of the cursor of the display *)
Definition print b (message : list Z) (count : Z) : outcome buffer :=
  '(b, clear_until_end) ← print_loop b false message count;
  if clear_until_end : bool then clear_rest b else Ret b.

(** [assign], likewise *)
Definition assign b (other : buffer) : outcome buffer :=
  m ← mem_range.assign_disjunct (cells b) (range b) (cells other) (range other); Ret (mk_buffer (is_front b) m (position other)).

(** ** The display controller and the serial line

    [crt] are the registers behind ports 0x3D4 and 0x3D5, [com] the
    characters sent over the serial line so far. *)

Record devices := mk_dev { crt : gmap Z Z; com : list Z }.

Definition set_cursor (d : devices) (pos : Z) : devices :=
  let pos := u16 pos in mk_dev (<[0x0F := u8 pos]> (<[0x0E := Z.shiftr pos 8]> (crt d))) (com d).

Definition crt_reg (d : devices) (i : Z) : Z := default 0 (crt d !! i).
Definition show_cursor (d : devices) : devices := mk_dev (<[0x0A := Z.land (crt_reg d 0x0A) 0xEF]> (crt d)) (com d).
Definition hide_cursor (d : devices) : devices := mk_dev (<[0x0A := Z.lor (crt_reg d 0x0A) 0x10]> (crt d)) (com d).

Definition send_char (d : devices) (c : Z) : devices := mk_dev (crt d) (com d ++ [c]).

Fixpoint com_loop (n : nat) (d : devices) (data : list Z) (i : Z) : outcome devices :=
  match n with
  | O => Ret d
  | S n' =>
      c ← arr_get data i;
      com_loop n' (if c =? 10 then send_char (send_char d 13) 10 else send_char d c) data (i + 1)
  end.

Definition com_send (d : devices) (data : list Z) (count : Z) : outcome devices := com_loop (Z.to_nat count) d data 0.

Definition update_cursor (d : devices) b : devices := if is_front b then set_cursor d (position b) else d.

(** ** The state of screen.cc *)

Record t := mk {
  front_buffer : buffer;
  buffers : fixed_pool buffer;
  current_buffer : Z;
  target_buffer : Z;
  dev : devices
}.
Implicit Type s : t.

Definition set_front s (b : buffer) : t := mk b (buffers s) (current_buffer s) (target_buffer s) (dev s).
Definition set_buffers s (p : fixed_pool buffer) : t := mk (front_buffer s) p (current_buffer s) (target_buffer s) (dev s).
Definition set_current s (h : Z) : t := mk (front_buffer s) (buffers s) h (target_buffer s) (dev s).
Definition set_dev s (d : devices) : t := mk (front_buffer s) (buffers s) (current_buffer s) (target_buffer s) d.

(** The global objects; the display memory holds [junk]. *)
Definition initial (junk : list Z) (d : devices) : outcome t :=
  f ← make_buffer true junk; Ret (mk f (new_fixed_pool 16) U16_MAX U16_MAX d).

Definition screen_create_buffer s (junk : list Z) : outcome (t * Z) :=
  b ← make_buffer false junk;
  '(p, h) ← pool.emplace_anywhere U16_MAX (buffers s) b;
  Ret (set_buffers s p, h).

Definition screen_set_target_buffer s (h : Z) : t := mk (front_buffer s) (buffers s) (current_buffer s) h (dev s).

Definition screen_switch_buffer s (h : Z) : outcome t :=
  if current_buffer s =? h then Ret s
  else
    buf ← pool.get U16_MAX (buffers s) h;
    f ← assign (front_buffer s) buf;
    let d := update_cursor (dev s) f in
    Ret (set_dev (set_front (set_current s h) f) (show_cursor (set_cursor d (position buf)))).

Definition screen_init s (junk : list Z) : outcome t :=
  '(s, h) ← screen_create_buffer (set_dev s (hide_cursor (dev s))) junk;
  screen_switch_buffer (screen_set_target_buffer s h) h.

(** [strlen] of the memory behind a pointer *)
Fixpoint strlen (message : list Z) : outcome Z :=
  match message with
  | [] => Undef
  | c :: message' => if c =? 0 then Ret 0 else n ← strlen message'; Ret (n + 1)
  end.

Definition screen_print s (h : Z) (message : list Z) (count : Z) : outcome t :=
  count ← (if count =? -1 then strlen message else Ret count);
  s ← (if h =? 0 then d ← com_send (dev s) message count; Ret (set_dev s d) else Ret s);
  s ← (if h =? current_buffer s then
         f ← print (front_buffer s) message count;
         Ret (set_dev (set_front s f) (update_cursor (dev s) f))
       else Ret s);
  buf ← pool.get U16_MAX (buffers s) h;
  b ← print buf message count;
  p ← pool.modify U16_MAX (buffers s) h (fun _ => b);
  Ret (set_buffers s p).

(** The global function [print] *)
Definition print_target s (message : list Z) (count : Z) : outcome t :=
  count ← (if count =? -1 then strlen message else Ret count);
  screen_print s (target_buffer s) message count.

Definition screen_seek s (h pos : Z) : outcome t :=
  p ← pool.modify U16_MAX (buffers s) h (fun b => mk_buffer (is_front b) (cells b) pos);
  let s := set_buffers s p in
  if h =? current_buffer s then
    let f := mk_buffer (is_front (front_buffer s)) (cells (front_buffer s)) pos in
    Ret (set_dev (set_front s f) (set_cursor (dev s) pos))
  else Ret s.

End screen.
