(* ===== verification/ScreenFacts.v ===== *)
(** * Printing on the screen

    What [print] leaves in a buffer, and what the display shows. *)

From S2P Require Import Prelude Pool KernelDefs Screen.
From stdpp Require Import gmap list.
#[local] Open Scope Z_scope.

Module cells.

(** ** Ranges as lists *)

Lemma arr_set_in {A} (l : list A) i v : 0 <= i < zlen l -> arr_set l i v = Ret (<[Z.to_nat i := v]> l).
Proof. intros H. rewrite arr_set_Ret by exact H. unfold zset. rewrite (proj2 (Z.leb_le 0 i)) by lia. reflexivity. Qed.

Lemma fill_loop_list v : forall n fuel pre mid post, length mid = n -> (n < fuel)%nat ->
  mem_range.fill_loop fuel (pre ++ mid ++ post) (zlen pre) (zlen pre + Z.of_nat n) v = Ret (pre ++ replicate n v ++ post).
Proof.
  induction n as [|n IH]; intros fuel pre mid post Hm Hf; (destruct fuel as [|fuel]; [lia|]); cbn [mem_range.fill_loop].
  - destruct mid; [|discriminate]. rewrite (proj2 (Z.ltb_ge _ _)) by lia. reflexivity.
  - destruct mid as [|x mid]; [discriminate|]. rewrite (proj2 (Z.ltb_lt _ _)) by lia. pose proof (zlen_nonneg pre).
    rewrite arr_set_in by (rewrite !zlen_app, zlen_cons; pose proof (zlen_nonneg mid); pose proof (zlen_nonneg post); lia). rewrite mbind_Ret.
    unfold zlen at 1. rewrite Nat2Z.id, insert_app_r_alt, Nat.sub_diag by lia. cbn [app insert list_insert].
    replace (pre ++ v :: mid ++ post) with ((pre ++ [v]) ++ mid ++ post) by (rewrite <-app_assoc; reflexivity).
    replace (zlen pre + 1) with (zlen (pre ++ [v])) by (rewrite zlen_app; reflexivity).
    replace (zlen pre + Z.of_nat (S n)) with (zlen (pre ++ [v]) + Z.of_nat n) by (rewrite zlen_app; unfold zlen; simpl; lia).
    rewrite IH by (simpl in Hm; lia). rewrite <-app_assoc. reflexivity.
Qed.

(** Filling from [p] to the end *)
Lemma fill_to_end (m : list Z) p v : 0 <= p <= zlen m ->
  mem_range.fill m (mem_range.mk p (zlen m)) v = Ret (take (Z.to_nat p) m ++ replicate (length m - Z.to_nat p) v).
Proof.
  intros Hp. unfold mem_range.fill. cbn [mem_range.lo mem_range.hi]. unfold zlen in Hp.
  pose proof (fill_loop_list v (length m - Z.to_nat p) (S (Z.to_nat (zlen m - p))) (take (Z.to_nat p) m) (drop (Z.to_nat p) m) []) as H.
  rewrite !app_nil_r, take_drop in H. unfold zlen in *. rewrite length_take, length_drop in H.
  replace (Z.of_nat (Z.to_nat p `min` length m)) with p in H by lia. replace (p + Z.of_nat (length m - Z.to_nat p)) with (Z.of_nat (length m)) in H by lia.
  apply H; lia.
Qed.

Lemma read_in mem r i v : 0 <= i -> mem_range.lo r + i < mem_range.hi r -> znth mem (mem_range.lo r + i) = Some v -> mem_range.read mem r i = Ret v.
Proof.
  intros Hi Hhi Hv. unfold mem_range.read, mem_range.in_bounds, arr_get. rewrite (proj2 (Z.geb_le _ _)), (proj2 (Z.ltb_lt _ _)), Hv by lia. reflexivity.
Qed.

Lemma write_in mem r i v : 0 <= i -> 0 <= mem_range.lo r -> mem_range.lo r + i < mem_range.hi r -> mem_range.hi r <= zlen mem ->
  mem_range.write mem r i v = Ret (<[Z.to_nat (mem_range.lo r + i) := v]> mem).
Proof.
  intros Hi Hlo Hhi Hm. unfold mem_range.write, mem_range.in_bounds. rewrite (proj2 (Z.geb_le _ _)), (proj2 (Z.ltb_lt _ _)) by lia. cbn [andb passert].
  rewrite mbind_Ret. apply arr_set_in. lia.
Qed.

(** Copying a range down by [k] cells inside one memory *)
Lemma overlap_shift (k : nat) lo1 hi1 : (0 < k)%nat -> 0 <= lo1 -> forall n pre mid, (k + n <= length mid)%nat -> hi1 = zlen pre + Z.of_nat n -> lo1 <= zlen pre ->
  mem_range.overlap_loop n (pre ++ mid) (mem_range.mk lo1 hi1) (mem_range.mk (lo1 + Z.of_nat k) (zlen (pre ++ mid))) (zlen pre - lo1) =
  Ret (pre ++ take n (drop k mid) ++ drop n mid).
Proof.
  intros Hk Hlo0. induction n as [|n IH]; intros pre mid Hlen Hhi Hlo; cbn [mem_range.overlap_loop]; [reflexivity|].
  destruct mid as [|x mid]; [simpl in Hlen; lia|]. assert (exists y, (x :: mid) !! k = Some y) as [y Hy] by (apply lookup_lt_is_Some; lia).
  pose proof (zlen_nonneg pre). assert (zlen (pre ++ x :: mid) = zlen pre + 1 + zlen mid) as Hz by (rewrite zlen_app, zlen_cons; lia). assert (zlen mid = Z.of_nat (length mid)) by reflexivity. simpl in Hlen.
  rewrite (read_in _ _ _ y); cbn [mem_range.lo mem_range.hi]; [|lia|lia|].
  2:{ replace (lo1 + Z.of_nat k + (zlen pre - lo1)) with (zlen pre + Z.of_nat k) by lia. rewrite znth_app_r by lia.
      unfold znth. rewrite (proj2 (Z.leb_le _ _)) by lia. replace (Z.to_nat _) with k by lia. exact Hy. }
  rewrite mbind_Ret, write_in; cbn [mem_range.lo mem_range.hi]; [|lia|lia|lia|lia]. rewrite mbind_Ret.
  replace (lo1 + (zlen pre - lo1)) with (zlen pre) by lia. unfold zlen at 1. rewrite Nat2Z.id, insert_app_r_alt, Nat.sub_diag by lia. cbn [insert list_insert].
  assert (zlen (pre ++ [y]) = zlen pre + 1) as Hz' by (rewrite zlen_app; reflexivity).
  replace (zlen (pre ++ x :: mid)) with (zlen ((pre ++ [y]) ++ mid)) by (rewrite Hz, zlen_app, Hz'; lia).
  replace (pre ++ y :: mid) with ((pre ++ [y]) ++ mid) by (rewrite <-app_assoc; reflexivity).
  replace (zlen pre - lo1 + 1) with (zlen (pre ++ [y]) - lo1) by lia. rewrite IH by lia.
  rewrite <-app_assoc. destruct k as [|k]; [lia|]. cbn [drop app]. rewrite (drop_S mid y k Hy). reflexivity.
Qed.

(** Copying another memory of the same size *)
Lemma disjunct_all lo1 : forall n pre mid rpre rmid, length mid = n -> length rmid = n -> length pre = length rpre -> lo1 = 0 ->
  mem_range.disjunct_loop n (pre ++ mid) (rpre ++ rmid) (mem_range.mk lo1 (zlen (pre ++ mid))) (mem_range.mk 0 (zlen (rpre ++ rmid))) (zlen pre) = Ret (pre ++ rmid).
Proof.
  induction n as [|n IH]; intros pre mid rpre rmid Hm Hr Hp ->; cbn [mem_range.disjunct_loop].
  - destruct mid, rmid; try discriminate. reflexivity.
  - destruct mid as [|x mid], rmid as [|y rmid]; try discriminate. pose proof (zlen_nonneg pre). pose proof (zlen_nonneg mid). pose proof (zlen_nonneg rmid).
    assert (zlen rpre = zlen pre) as Hz by (unfold zlen; lia).
    rewrite (read_in _ _ _ y); cbn [mem_range.lo mem_range.hi]; [|lia|rewrite zlen_app, zlen_cons; lia|].
    2:{ rewrite Z.add_0_l, znth_app_r by lia. replace (zlen pre - zlen rpre) with 0 by lia. reflexivity. }
    rewrite mbind_Ret, write_in; cbn [mem_range.lo mem_range.hi]; [|lia|lia|rewrite zlen_app, zlen_cons; lia|lia]. rewrite mbind_Ret, Z.add_0_l.
    unfold zlen at 1. rewrite Nat2Z.id, insert_app_r_alt, Nat.sub_diag by lia. cbn [insert list_insert].
    replace (zlen (pre ++ x :: mid)) with (zlen ((pre ++ [y]) ++ mid)) by (rewrite !zlen_app, zlen_cons; unfold zlen; simpl; lia).
    replace (pre ++ y :: mid) with ((pre ++ [y]) ++ mid) by (rewrite <-app_assoc; reflexivity).
    replace (rpre ++ y :: rmid) with ((rpre ++ [y]) ++ rmid) by (rewrite <-app_assoc; reflexivity).
    replace (zlen pre + 1) with (zlen (pre ++ [y])) by (rewrite zlen_app; reflexivity).
    rewrite IH by (rewrite ?length_app; simpl in *; lia). rewrite <-app_assoc. reflexivity.
Qed.

End cells.

Module printing.
Import screen.

Definition CELLS : Z := NUM_COLUMNS * NUM_ROWS.

(** A buffer with its cursor on the screen, or just behind it *)
Definition wf (b : buffer) : Prop := zlen (cells b) = CELLS /\ 0 <= position b <= CELLS.

(** ** The reference: a typewriter

    The cursor moves on with each letter; when it has left the last row, the
    rows move up and an empty row appears, at once. *)

Definition grid : Type := list Z * Z.

Definition blanks (n : Z) : list Z := replicate (Z.to_nat n) blank.
Definition rows_up (m : list Z) : list Z := drop (Z.to_nat NUM_COLUMNS) m ++ blanks NUM_COLUMNS.

Definition type_char (g : grid) (c : Z) : grid :=
  let (m, p) := g in
  if c =? 8 then if p >? 0 then (<[Z.to_nat (p - 1) := blank]> m, p - 1) else (m, p)
  else if c =? 10 then
    let p := (p / NUM_COLUMNS + 1) * NUM_COLUMNS in
    if p >=? CELLS then (rows_up m, p - NUM_COLUMNS) else (m, p)
  else
    let (m, p) := if p >=? CELLS then (rows_up m, p - NUM_COLUMNS) else (m, p) in
    (<[Z.to_nat p := entry 0x0 0xF c]> m, p + 1).

Definition type (g : grid) (cs : list Z) : grid := fold_left type_char cs g.

(** A message in which no newline follows a letter that made the rows move up,
    and none is printed with the cursor behind the last cell *)
Fixpoint regular (g : grid) (scrolled : bool) (cs : list Z) : bool :=
  match cs with
  | [] => true
  | c :: cs' =>
      negb ((c =? 10) && (scrolled || (g.2 =? CELLS))) &&
      regular (type_char g c) (scrolled || (negb (c =? 8) && negb (c =? 10) && (g.2 >=? CELLS))) cs'
  end.

(** ** The steps of [print] *)

Lemma scroll_ok b : zlen (cells b) = CELLS ->
  scroll b = Ret (mk_buffer (is_front b) (drop (Z.to_nat 80) (cells b) ++ drop (Z.to_nat 1920) (cells b)) (position b)).
Proof.
  intros Hl. unfold scroll, range, mem_range.subrange, mem_range.assign_overlap, mem_range.size. rewrite Hl.
  cbn [mem_range.lo mem_range.hi].
  change (NUM_COLUMNS * (NUM_ROWS - 1) =? -1) with false. change (-1 =? -1) with true. cbv iota.
  change (0 + 0 + NUM_COLUMNS * (NUM_ROWS - 1)) with 1920. change (0 + 0) with 0. change (0 + NUM_COLUMNS) with 80. change (80 + (CELLS - 0 - NUM_COLUMNS)) with 2000.
  change (Z.min (u32 (1920 - 0)) (u32 (2000 - 80))) with 1920.
  pose proof (cells.overlap_shift (Z.to_nat 80) 0 1920 ltac:(lia) ltac:(lia) (Z.to_nat 1920) [] (cells b)) as H. cbn [app] in H. change (zlen (@nil Z)) with 0 in H.
  unfold CELLS, NUM_COLUMNS, NUM_ROWS in Hl. rewrite Hl in H. rewrite !Z2Nat.id in H by lia. change (0 + 80) with 80 in H. change (80 * 25) with 2000 in H. change (0 - 0) with 0 in H.
  rewrite H by (unfold zlen in Hl; lia). rewrite mbind_Ret. do 3 f_equal. apply take_ge. rewrite length_drop. unfold zlen in Hl. lia.
Qed.

Lemma clear_ok b : wf b -> clear_rest b = Ret (mk_buffer (is_front b) (take (Z.to_nat (position b)) (cells b) ++ blanks (CELLS - position b)) (position b)).
Proof.
  intros [Hl Hp]. unfold clear_rest, range, mem_range.subrange. cbn [mem_range.lo mem_range.hi]. change (-1 =? -1) with true. cbv iota.
  replace (0 + position b) with (position b) by lia. replace (position b + (zlen (cells b) - 0 - position b)) with (zlen (cells b)) by lia.
  rewrite cells.fill_to_end by lia. rewrite mbind_Ret. unfold blanks. do 4 f_equal. unfold zlen in Hl. lia.
Qed.

Lemma write_ok b i v : zlen (cells b) = CELLS -> 0 <= i < CELLS -> mem_range.write (cells b) (range b) i v = Ret (<[Z.to_nat i := v]> (cells b)).
Proof. intros Hl Hi. rewrite cells.write_in; unfold range; cbn [mem_range.lo mem_range.hi]; rewrite ?Z.add_0_l; reflexivity || lia. Qed.

(** [b] is the grid [g] but for what is cleared at the end of [print]. *)
Record sim (b : buffer) (pending : bool) (g : grid) : Prop := {
  sim_wf : wf b;
  sim_position : position b = g.2;
  sim_length : zlen g.1 = CELLS;
  sim_cells : if pending then take (Z.to_nat g.2) (cells b) = take (Z.to_nat g.2) g.1 /\ drop (Z.to_nat g.2) g.1 = blanks (CELLS - g.2) else cells b = g.1
}.

Lemma zlen_insert (l : list Z) (i : nat) v : zlen (<[i := v]> l) = zlen l.
Proof. unfold zlen. rewrite length_insert. reflexivity. Qed.

Lemma zlen_rows_up m : zlen m = CELLS -> zlen (rows_up m) = CELLS.
Proof. unfold rows_up, blanks, CELLS, NUM_COLUMNS, NUM_ROWS, zlen. rewrite length_app, length_drop, length_replicate. lia. Qed.

(** Writing cell [i] of both, with the cursor at [i] afterwards, or behind it *)
Lemma sim_write f b (pending : bool) m i v p : zlen (cells b) = CELLS -> zlen m = CELLS -> 0 <= i < CELLS -> (p = i /\ v = blank \/ p = i + 1) ->
  (if pending then take (Z.to_nat i) (cells b) = take (Z.to_nat i) m /\ drop (S (Z.to_nat i)) m = blanks (CELLS - i - 1) else cells b = m) ->
  sim (mk_buffer f (<[Z.to_nat i := v]> (cells b)) p) pending (<[Z.to_nat i := v]> m, p).
Proof.
  intros Hb Hm Hi Hp H. constructor; [split; cbn [cells position]; [rewrite zlen_insert; exact Hb|lia]|reflexivity|cbn [fst]; rewrite zlen_insert; exact Hm|].
  cbn [fst snd cells]. destruct pending; [|congruence]. destruct H as [Ht Hd].
  assert (<[Z.to_nat i := v]> (cells b) = take (Z.to_nat i) (cells b) ++ v :: drop (S (Z.to_nat i)) (cells b)) as E1 by (rewrite insert_take_drop by (unfold zlen in Hb; lia); reflexivity).
  assert (<[Z.to_nat i := v]> m = take (Z.to_nat i) m ++ v :: drop (S (Z.to_nat i)) m) as E2 by (rewrite insert_take_drop by (unfold zlen in Hm; lia); reflexivity).
  assert (length (take (Z.to_nat i) m) = Z.to_nat i) as Hlen by (rewrite length_take; unfold zlen in Hm; lia).
  rewrite E1, E2, Ht. destruct Hp as [[-> ->] | ->].
  - rewrite !take_app_length', drop_app_length' by (symmetry; exact Hlen). split; [reflexivity|]. rewrite Hd. unfold blanks. replace (Z.to_nat (CELLS - i)) with (S (Z.to_nat (CELLS - i - 1))) by lia. reflexivity.
  - replace (Z.to_nat (i + 1)) with (length (take (Z.to_nat i) m) + 1)%nat by lia. rewrite !take_app_add, drop_app_add. split; [reflexivity|]. cbn [drop]. rewrite drop_0, Hd.
    f_equal. lia.
Qed.

Lemma take_full (m : list Z) : zlen m = CELLS -> take (Z.to_nat CELLS) m = m.
Proof. intros H. apply take_ge. unfold zlen in H. lia. Qed.

(** A pending clear loses its effect once the cursor has filled the row. *)
Lemma sim_full b pending g : sim b pending g -> g.2 = CELLS -> cells b = g.1.
Proof.
  intros [[Hl _] _ Hg Hc] Hp. destruct pending; [|exact Hc]. destruct Hc as [Ht _]. rewrite Hp, !take_full in Ht by assumption. exact Ht.
Qed.

Lemma step_backspace b pending g : sim b pending g -> exists b', print_char b pending 8 = Ret (b', pending) /\ sim b' pending (type_char g 8).
Proof.
  intros Hs. pose proof Hs as [[Hl Hr] Hp Hg Hc]. destruct g as [m p]. cbn [fst snd] in *. unfold print_char, type_char. change (8 =? 8) with true. cbv iota.
  rewrite Hp. destruct (p >? 0) eqn:E; [|exists b; auto]. rewrite write_ok, mbind_Ret by (assumption || lia). eexists. split; [reflexivity|].
  apply sim_write; [exact Hl|exact Hg|lia|left; auto|]. destruct pending; [|exact Hc]. destruct Hc as [Ht Hd]. replace (S (Z.to_nat (p - 1))) with (Z.to_nat p) by lia. split.
  - assert (take (Z.to_nat (p - 1)) (take (Z.to_nat p) (cells b)) = take (Z.to_nat (p - 1)) (take (Z.to_nat p) m)) as H by congruence.
    rewrite !take_take in H. replace (Z.to_nat (p - 1) `min` Z.to_nat p)%nat with (Z.to_nat (p - 1)) in H by lia. exact H.
  - rewrite Hd. f_equal. lia.
Qed.

Lemma scrolled_blank m : zlen m = CELLS -> take (Z.to_nat 1920) (drop (Z.to_nat 80) m ++ drop (Z.to_nat 1920) m) ++ blanks (CELLS - 1920) = rows_up m.
Proof.
  intros Hm. unfold rows_up. rewrite take_app_length' by (rewrite length_drop; unfold zlen, CELLS, NUM_COLUMNS, NUM_ROWS in Hm; lia). reflexivity.
Qed.

Lemma step_newline b g : sim b false g -> g.2 <> CELLS -> exists b', print_char b false 10 = Ret (b', false) /\ sim b' false (type_char g 10).
Proof.
  intros [[Hl Hr] Hp Hg Hc] Hne. destruct g as [m p]. cbn [fst snd] in *. unfold print_char, type_char. change (10 =? 8) with false. change (10 =? 10) with true. cbv iota.
  unfold CELLS, NUM_COLUMNS, NUM_ROWS in *. rewrite Z.rem_mod_nonneg, Hp by lia.
  pose proof (Z.div_mod p 80). pose proof (Z.mod_pos_bound p 80). rewrite i32_Ret by (unfold INT_MIN, INT_MAX; lia). rewrite !mbind_Ret. cbn [position cells is_front].
  replace (p + (80 - p mod 80)) with ((p / 80 + 1) * 80) by lia. destruct ((p / 80 + 1) * 80 >=? 80 * 25) eqn:E.
  - assert ((p / 80 + 1) * 80 = 2000) as -> by lia. change (2000 - 80) with 1920. rewrite scroll_ok by exact Hl. rewrite mbind_Ret. cbn [position cells is_front].
    rewrite clear_ok, !mbind_Ret.
    + cbn [position cells is_front]. eexists. split; [reflexivity|]. rewrite Hc, scrolled_blank by assumption.
      constructor; [split; cbn [cells position]; [apply zlen_rows_up, Hg|unfold CELLS, NUM_COLUMNS, NUM_ROWS; lia]|reflexivity|apply zlen_rows_up, Hg|reflexivity].
    + split; cbn [cells position]; [|unfold CELLS, NUM_COLUMNS, NUM_ROWS; lia]. unfold CELLS, NUM_COLUMNS, NUM_ROWS. rewrite zlen_app. unfold zlen in *. rewrite !length_drop. lia.
  - rewrite !mbind_Ret. eexists. split; [reflexivity|]. constructor; [split; cbn [cells position]; [exact Hl|unfold CELLS, NUM_COLUMNS, NUM_ROWS; lia]|reflexivity|exact Hg|exact Hc].
Qed.

Lemma step_letter b pending g c : sim b pending g -> c <> 8 -> c <> 10 ->
  exists b', print_char b pending c = Ret (b', pending || (g.2 >=? CELLS)) /\ sim b' (pending || (g.2 >=? CELLS)) (type_char g c).
Proof.
  intros Hs H8 H10. pose proof Hs as [[Hl Hr] Hp Hg Hc]. destruct g as [m p]. cbn [fst snd] in *. unfold print_char, type_char.
  rewrite (proj2 (Z.eqb_neq c 8)), (proj2 (Z.eqb_neq c 10)) by assumption. rewrite !mbind_Ret. change (NUM_COLUMNS * NUM_ROWS) with CELLS. rewrite Hp.
  destruct (p >=? CELLS) eqn:E.
  - assert (p = CELLS) as -> by lia. pose proof (sim_full _ _ _ Hs eq_refl) as Hfull. cbn [fst] in Hfull. change (CELLS - NUM_COLUMNS) with 1920.
    rewrite scroll_ok by exact Hl. rewrite !mbind_Ret. cbn [position cells is_front]. rewrite Hfull.
    set (m1 := drop (Z.to_nat 80) m ++ drop (Z.to_nat 1920) m). assert (zlen m1 = CELLS) as Hm1.
    { unfold m1, CELLS, NUM_COLUMNS, NUM_ROWS in *. rewrite zlen_app. unfold zlen in *. rewrite !length_drop. lia. }
    change (range (mk_buffer (is_front b) m1 1920)) with (range (mk_buffer (is_front b) m1 1920)).
    rewrite (write_ok (mk_buffer (is_front b) m1 1920)), mbind_Ret by (exact Hm1 || (unfold CELLS, NUM_COLUMNS, NUM_ROWS; lia)). eexists. rewrite orb_true_r. split; [reflexivity|].
    apply sim_write; [exact Hm1|apply zlen_rows_up, Hg|unfold CELLS, NUM_COLUMNS, NUM_ROWS; lia|right; reflexivity|]. cbn [cells].
    assert (length (drop (Z.to_nat 80) m) = Z.to_nat 1920) as Hd by (rewrite length_drop; unfold zlen, CELLS, NUM_COLUMNS, NUM_ROWS in Hg; lia).
    unfold m1, rows_up, NUM_COLUMNS. rewrite !take_app_length' by (symmetry; exact Hd). split; [reflexivity|].
    replace (S (Z.to_nat 1920)) with (length (drop (Z.to_nat 80) m) + 1)%nat by lia. rewrite drop_app_add. unfold blanks. rewrite drop_replicate. reflexivity.
  - rewrite !mbind_Ret, orb_false_r, write_ok, mbind_Ret by (assumption || lia). eexists. split; [rewrite ?Hp; reflexivity|].
    apply sim_write; [exact Hl|exact Hg|lia|right; reflexivity|]. destruct pending; [|exact Hc]. destruct Hc as [Ht Hd]. split; [exact Ht|].
    replace (S (Z.to_nat p)) with (Z.to_nat p + 1)%nat by lia. rewrite <-drop_drop, Hd. unfold blanks. rewrite drop_replicate. f_equal. lia.
Qed.

(** ** The loop *)

(** The characters [print] processes: those before the terminator, or [count] *)
Definition printed (message : list Z) (count : Z) (cs : list Z) : Prop :=
  exists next rest, message = cs ++ next :: rest /\ ~ (0 ∈ cs) /\
    (count = -1 /\ next = 0 \/ 0 <= count <= INT_MAX /\ (zlen cs = count \/ zlen cs <= count /\ next = 0)).

Fixpoint char_loop (b : buffer) (f : bool) (cs : list Z) : outcome (buffer * bool) :=
  match cs with [] => Ret (b, f) | c :: cs' => '(b, f) ← print_char b f c; char_loop b f cs' end.

Lemma print_loop_chars cs : forall b f message count, printed message count cs -> print_loop b f message count = char_loop b f cs.
Proof.
  induction cs as [|c cs IH]; intros b f message count (next & rest & -> & Hn & Hc); cbn [app print_loop char_loop].
  - destruct (Z.eqb_spec next 0) as [|Hne]; [reflexivity|]. destruct Hc as [[_ Hz]|[_ [Hz|[_ Hz]]]]; [congruence| |congruence].
    change (zlen []) with 0 in Hz. subst count. reflexivity.
  - rewrite (proj2 (Z.eqb_neq c 0)) by (intros ->; apply Hn, list_elem_of_here). pose proof (zlen_nonneg cs) as Hcs. rewrite zlen_cons in Hc.
    rewrite (proj2 (Z.eqb_neq count 0)) by lia.
    assert (~ (0 ∈ cs)) as Hn' by (intros H; apply Hn, list_elem_of_further, H).
    destruct Hc as [[-> Hz]|[Hr Hc]].
    + change (-1 =? -1) with true. cbv iota. rewrite mbind_Ret. destruct (print_char b f c) as [[b1 f1]| | |]; [|reflexivity..]. rewrite !mbind_Ret.
      apply IH. exists next, rest. auto 6.
    + rewrite (proj2 (Z.eqb_neq count (-1))), i32_Ret, mbind_Ret by (unfold INT_MIN, INT_MAX in *; lia).
      destruct (print_char b f c) as [[b1 f1]| | |]; [|reflexivity..]. rewrite !mbind_Ret. apply IH. exists next, rest.
      split; [reflexivity|]. split; [exact Hn'|]. right. unfold INT_MAX in *. lia.
Qed.

Lemma sim_refl b : wf b -> sim b false (cells b, position b).
Proof. intros Hw. constructor; [exact Hw|reflexivity|exact (proj1 Hw)|reflexivity]. Qed.

(** The flag does not steer the loop. *)
Lemma print_char_flag b f c : print_char b f c = '(b', f') ← print_char b false c; Ret (b', f || f').
Proof.
  unfold print_char. destruct (c =? 8); [destruct (position b >? 0); [destruct (mem_range.write _ _ _ _)|]; rewrite ?mbind_Ret, ?orb_false_r; reflexivity|].
  destruct (c =? 10); rewrite ?mbind_Ret.
  - destruct (i32 _); [|reflexivity..]. rewrite !mbind_Ret. destruct (_ >=? _); [|rewrite !mbind_Ret, orb_false_r; reflexivity].
    destruct (scroll _); [|reflexivity..]. rewrite !mbind_Ret. destruct (clear_rest _); [|reflexivity..]. rewrite !mbind_Ret, orb_false_r. reflexivity.
  - destruct (_ >=? _); [destruct (scroll _); [|reflexivity..]|]; rewrite !mbind_Ret; destruct (mem_range.write _ _ _ _); try reflexivity; rewrite !mbind_Ret, ?orb_true_r, ?orb_false_r; reflexivity.
Qed.

(** A newline with the cursor behind the last cell keeps it there. *)
Lemma newline_behind b : wf b -> position b = CELLS -> exists b', print_char b false 10 = Ret (b', false) /\ wf b'.
Proof.
  intros [Hl _] Hp. unfold print_char. change (10 =? 8) with false. change (10 =? 10) with true. cbv iota. rewrite Hp.
  change (CELLS + (NUM_COLUMNS - Z.rem CELLS NUM_COLUMNS)) with 2080. rewrite i32_Ret, !mbind_Ret by (unfold INT_MIN, INT_MAX; lia). cbn [position cells is_front].
  change (2080 >=? NUM_COLUMNS * NUM_ROWS) with true. cbv iota. change (2080 - NUM_COLUMNS) with 2000. rewrite scroll_ok by exact Hl. rewrite mbind_Ret. cbn [position cells is_front].
  set (m1 := drop _ _ ++ _). assert (zlen m1 = CELLS) as Hm1.
  { unfold m1, CELLS, NUM_COLUMNS, NUM_ROWS in *. rewrite zlen_app. unfold zlen in *. rewrite !length_drop. lia. }
  assert (wf (mk_buffer (is_front b) m1 2000)) as Hw by (split; [exact Hm1|unfold CELLS, NUM_COLUMNS, NUM_ROWS; cbn [position]; lia]).
  rewrite clear_ok, !mbind_Ret by exact Hw. cbn [position cells is_front]. eexists. split; [reflexivity|].
  split; cbn [cells position]; [|exact (proj2 Hw)]. rewrite take_ge by (unfold zlen, CELLS, NUM_COLUMNS, NUM_ROWS in Hm1; lia). change (blanks (CELLS - 2000)) with (@nil Z). rewrite app_nil_r. exact Hm1.
Qed.

Lemma print_char_total b f c : wf b -> exists b' f', print_char b f c = Ret (b', f') /\ wf b'.
Proof.
  intros Hw. enough (exists b' f', print_char b false c = Ret (b', f') /\ wf b') as (b' & f' & E & Hw') by (rewrite print_char_flag, E, mbind_Ret; eauto).
  pose proof (sim_refl b Hw) as Hs. destruct (Z.eq_dec c 8) as [->|H8]; [destruct (step_backspace _ _ _ Hs) as (b' & E & [Hw' _ _ _]); eauto|].
  destruct (Z.eq_dec c 10) as [->|H10].
  - destruct (Z.eq_dec (position b) CELLS) as [He|Hne]; [destruct (newline_behind b Hw He) as (b' & E & Hw'); eauto|].
    destruct (step_newline _ _ Hs Hne) as (b' & E & [Hw' _ _ _]). eauto.
  - destruct (step_letter _ _ _ c Hs H8 H10) as (b' & E & [Hw' _ _ _]). eauto.
Qed.

Lemma char_loop_total cs : forall b f, wf b -> exists b' f', char_loop b f cs = Ret (b', f') /\ wf b'.
Proof.
  induction cs as [|c cs IH]; intros b f Hw; cbn [char_loop]; [eauto|]. destruct (print_char_total b f c Hw) as (b1 & f1 & -> & Hw1). rewrite mbind_Ret. auto.
Qed.

(** [print] returns, whatever the message *)
Lemma print_total b message count cs : wf b -> printed message count cs -> exists b', print b message count = Ret b' /\ wf b'.
Proof.
  intros Hw Hp. unfold print. rewrite (print_loop_chars cs) by exact Hp. destruct (char_loop_total cs b false Hw) as (b1 & f1 & -> & Hw1). rewrite mbind_Ret.
  destruct f1; [|eauto]. rewrite clear_ok by exact Hw1. eexists. split; [reflexivity|]. destruct Hw1 as [Hl Hr]. split; cbn [cells position]; [|exact Hr].
  unfold blanks. rewrite zlen_app, zlen_replicate by lia. unfold zlen in *. rewrite length_take. lia.
Qed.

(** ** Printing, on lists

    What the steps do to a buffer with its cursor on the screen, without the
    loops of the ranges *)

Definition scrolled (m : list Z) : list Z := drop (Z.to_nat 80) m ++ drop (Z.to_nat 1920) m.
Definition cleared b : buffer := mk_buffer (is_front b) (take (Z.to_nat (position b)) (cells b) ++ blanks (CELLS - position b)) (position b).

Definition list_char b (f : bool) (c : Z) : buffer * bool :=
  let (p, m) := (position b, cells b) in
  if c =? 8 then if p >? 0 then (mk_buffer (is_front b) (<[Z.to_nat (p - 1) := blank]> m) (p - 1), f) else (b, f)
  else if c =? 10 then
    let p := p + (NUM_COLUMNS - Z.rem p NUM_COLUMNS) in
    (if p >=? CELLS then cleared (mk_buffer (is_front b) (scrolled m) (p - NUM_COLUMNS)) else mk_buffer (is_front b) m p, f)
  else
    let (p, m) := if p >=? CELLS then (p - NUM_COLUMNS, scrolled m) else (p, m) in
    (mk_buffer (is_front b) (<[Z.to_nat p := entry 0x0 0xF c]> m) (p + 1), f || (position b >=? CELLS)).

Definition list_print b (cs : list Z) : buffer :=
  let (b, f) := fold_left (fun '(b, f) c => list_char b f c) cs (b, false) in if f then cleared b else b.

Lemma zlen_scrolled m : zlen m = CELLS -> zlen (scrolled m) = CELLS.
Proof. unfold scrolled, CELLS, NUM_COLUMNS, NUM_ROWS. rewrite zlen_app. unfold zlen. rewrite !length_drop. lia. Qed.

Lemma list_char_ok b f c : wf b -> print_char b f c = Ret (list_char b f c).
Proof.
  intros [Hl Hr]. unfold print_char, list_char. destruct (c =? 8); [destruct (Z.gtb_spec (position b) 0); [rewrite write_ok by (assumption || lia)|]; reflexivity|].
  change (NUM_COLUMNS * NUM_ROWS) with CELLS. destruct (c =? 10).
  - pose proof (Z.rem_bound_pos (position b) NUM_COLUMNS) as Hm. unfold CELLS, NUM_COLUMNS, NUM_ROWS in *. rewrite i32_Ret, !mbind_Ret by (unfold INT_MIN, INT_MAX; lia). cbn [position cells is_front].
    destruct (Z.geb_spec (position b + (80 - Z.rem (position b) 80)) (80 * 25)); [|reflexivity].
    rewrite scroll_ok, !mbind_Ret by exact Hl. rewrite clear_ok, !mbind_Ret; [reflexivity|]. split; cbn [cells position]; [apply zlen_scrolled, Hl|unfold CELLS, NUM_COLUMNS, NUM_ROWS; lia].
  - rewrite mbind_Ret. destruct (Z.geb_spec (position b) CELLS).
    + rewrite scroll_ok, !mbind_Ret by exact Hl. rewrite write_ok, mbind_Ret, orb_true_r; [reflexivity|apply zlen_scrolled, Hl|unfold CELLS, NUM_COLUMNS, NUM_ROWS in *; cbn [position]; lia].
    + rewrite !mbind_Ret, write_ok, mbind_Ret, orb_false_r by (assumption || lia). reflexivity.
Qed.

Lemma list_loop_ok cs : forall b f, wf b -> char_loop b f cs = Ret (fold_left (fun '(b, f) c => list_char b f c) cs (b, f)).
Proof.
  induction cs as [|c cs IH]; intros b f Hw; cbn [char_loop fold_left]; [reflexivity|]. destruct (print_char_total b f c Hw) as (b1 & f1 & E & Hw1).
  rewrite E. rewrite list_char_ok in E by exact Hw. injection E as ->. rewrite mbind_Ret. apply IH, Hw1.
Qed.

Lemma list_print_ok b message count cs : wf b -> printed message count cs -> print b message count = Ret (list_print b cs).
Proof.
  intros Hw Hp. unfold print, list_print. rewrite (print_loop_chars cs) by exact Hp. destruct (char_loop_total cs b false Hw) as (b1 & f1 & E & Hw1).
  rewrite E. rewrite list_loop_ok in E by exact Hw. injection E as ->. rewrite mbind_Ret. destruct f1; [apply clear_ok, Hw1|reflexivity].
Qed.

Lemma char_loop_sim cs : forall b pending g, sim b pending g -> regular g pending cs = true -> exists b' pending', char_loop b pending cs = Ret (b', pending') /\ sim b' pending' (type g cs).
Proof.
  induction cs as [|c cs IH]; intros b pending g Hs Hreg; cbn [char_loop regular] in *; [eauto|]. apply andb_prop in Hreg. destruct Hreg as [Hq Hreg].
  change (type g (c :: cs)) with (type (type_char g c) cs).
  destruct (Z.eqb_spec c 8) as [->|H8]; [cbn [negb andb] in Hreg; rewrite orb_false_r in Hreg; destruct (step_backspace _ _ _ Hs) as (b1 & -> & Hs1); rewrite mbind_Ret; auto|].
  destruct (Z.eqb_spec c 10) as [->|H10].
  - cbn [negb andb] in Hreg, Hq. rewrite orb_false_r in Hreg. destruct pending; [discriminate|]. cbn [orb] in Hq. destruct (Z.eqb_spec g.2 CELLS) as [|Hne]; [discriminate|].
    destruct (step_newline _ _ Hs Hne) as (b1 & -> & Hs1). rewrite mbind_Ret. auto.
  - cbn [negb andb] in Hreg. destruct (step_letter _ _ _ c Hs H8 H10) as (b1 & -> & Hs1). rewrite mbind_Ret. auto.
Qed.

Lemma print_types b message count cs : wf b -> printed message count cs -> regular (cells b, position b) false cs = true ->
  exists b', print b message count = Ret b' /\ wf b' /\ (cells b', position b') = type (cells b, position b) cs.
Proof.
  intros Hw Hp Hreg. unfold print. rewrite (print_loop_chars cs) by exact Hp. destruct (char_loop_sim cs b false _ (sim_refl b Hw) Hreg) as (b1 & f1 & -> & [Hw1 Hp1 Hg Hc]).
  rewrite mbind_Ret. destruct f1; [|exists b1; split; [reflexivity|]; split; [exact Hw1|]; rewrite Hp1, Hc; destruct (type _ _); reflexivity].
  rewrite clear_ok by exact Hw1. eexists. split; [reflexivity|]. destruct Hc as [Ht Hd]. cbn [cells position]. rewrite Hp1, Ht, <-Hd, take_drop. split.
  - split; cbn [cells position]; [exact Hg|]. rewrite <-Hp1. exact (proj2 Hw1).
  - destruct (type _ _); reflexivity.
Qed.

End printing.

Module display.
Import screen printing.

(** ** The front buffer and the back buffer print the same *)

Definition as_front (f : bool) (b : buffer) : buffer := mk_buffer f (cells b) (position b).

Lemma as_front_eq b : as_front (is_front b) b = b.
Proof. destruct b. reflexivity. Qed.

Lemma scroll_front f b : scroll (as_front f b) = b' ← scroll b; Ret (as_front f b').
Proof. unfold scroll, range, as_front. cbn [cells position is_front]. destruct (mem_range.assign_overlap _ _ _); reflexivity. Qed.

Lemma clear_front f b : clear_rest (as_front f b) = b' ← clear_rest b; Ret (as_front f b').
Proof. unfold clear_rest, range, as_front. cbn [cells position is_front]. destruct (mem_range.fill _ _ _); reflexivity. Qed.

Lemma print_char_front f b u c : print_char (as_front f b) u c = '(b', u') ← print_char b u c; Ret (as_front f b', u').
Proof.
  unfold print_char. change (position (as_front f b)) with (position b). change (cells (as_front f b)) with (cells b). change (range (as_front f b)) with (range b).
  destruct (c =? 8); [destruct (position b >? 0); [destruct (mem_range.write _ _ _ _)|]; reflexivity|].
  destruct (c =? 10); rewrite ?mbind_Ret.
  - destruct (i32 _) as [p| | |]; [|reflexivity..]. rewrite !mbind_Ret. cbn [cells position is_front]. destruct (_ >=? _); [|rewrite !mbind_Ret; reflexivity].
    change (mk_buffer (is_front (as_front f b)) (cells b) (p - NUM_COLUMNS)) with (as_front f (mk_buffer (is_front b) (cells b) (p - NUM_COLUMNS))). rewrite scroll_front.
    destruct (scroll _) as [b1| | |]; [|reflexivity..]. rewrite !mbind_Ret, clear_front. destruct (clear_rest b1); reflexivity.
  - destruct (_ >=? _).
    + change (mk_buffer (is_front (as_front f b)) (cells (as_front f b)) (position (as_front f b) - NUM_COLUMNS)) with (as_front f (mk_buffer (is_front b) (cells b) (position b - NUM_COLUMNS))). rewrite scroll_front.
      destruct (scroll _) as [b1| | |]; [|reflexivity..]. rewrite !mbind_Ret. change (range (as_front f b1)) with (range b1). cbn [cells position is_front as_front].
      destruct (mem_range.write _ _ _ _); reflexivity.
    + rewrite !mbind_Ret. change (range (as_front f b)) with (range b). change (cells (as_front f b)) with (cells b). change (position (as_front f b)) with (position b). destruct (mem_range.write _ _ _ _); reflexivity.
Qed.

Lemma print_loop_front f message : forall b u count, print_loop (as_front f b) u message count = '(b', u') ← print_loop b u message count; Ret (as_front f b', u').
Proof.
  induction message as [|c message IH]; intros b u count; cbn [print_loop]; [reflexivity|]. destruct (c =? 0); [reflexivity|]. destruct (count =? 0); [reflexivity|].
  destruct (if count =? -1 then Ret count else i32 (count - 1)); [|reflexivity..]. rewrite !mbind_Ret, print_char_front.
  destruct (print_char b u c) as [[b1 u1]| | |]; [|reflexivity..]. rewrite !mbind_Ret. apply IH.
Qed.

Lemma print_front f b message count : print (as_front f b) message count = b' ← print b message count; Ret (as_front f b').
Proof.
  unfold print. rewrite print_loop_front. destruct (print_loop b false message count) as [[b1 u1]| | |]; [|reflexivity..]. rewrite !mbind_Ret.
  destruct u1; [apply clear_front|reflexivity].
Qed.

(** [print] keeps the kind and the size of a buffer. *)
Lemma print_front_kept b message count b' : print b message count = Ret b' -> is_front b' = is_front b.
Proof.
  intros E. pose proof (print_front (is_front b) b message count) as H. rewrite as_front_eq, E, mbind_Ret in H. injection H as ->. reflexivity.
Qed.

(** ** What is shown *)

(** The cursor registers of the display *)
Definition cursor_at (d : devices) (p : Z) : Prop := crt_reg d 0x0E * 256 + crt_reg d 0x0F = u16 p.

(** The display shows the current buffer. *)
Record coherent (s : t) : Prop := {
  co_front : is_front (front_buffer s) = true /\ zlen (cells (front_buffer s)) = CELLS;
  co_buffers : exists m, fpm 16 (buffers s) m /\ (forall h b, m !! h = Some b -> zlen (cells b) = CELLS /\ is_front b = false) /\
    (current_buffer s = U16_MAX \/ exists b, m !! current_buffer s = Some b /\ front_buffer s = as_front true b /\ cursor_at (dev s) (position b))
}.

(** One call of an operation of screen.cc *)
Inductive step : t -> t -> Prop :=
| S_create s junk s' h : zlen junk = CELLS -> screen_create_buffer s junk = Ret (s', h) -> step s s'
| S_switch s h s' : screen_switch_buffer s h = Ret s' -> step s s'
| S_target s h : step s (screen_set_target_buffer s h)
| S_print s h message count s' : screen_print s h message count = Ret s' -> step s s'
| S_print_target s message count s' : print_target s message count = Ret s' -> step s s'
| S_seek s h pos s' : screen_seek s h pos = Ret s' -> step s s'.

Inductive reach : t -> Prop :=
| R_init junk junk' d s0 s : zlen junk = CELLS -> zlen junk' = CELLS -> initial junk d = Ret s0 -> screen_init s0 junk' = Ret s -> reach s
| R_step s s' : reach s -> step s s' -> reach s'.

Lemma make_buffer_ok f junk : make_buffer f junk = Ret (mk_buffer f (replicate (length junk) blank) 0).
Proof.
  unfold make_buffer. rewrite cells.fill_to_end by (pose proof (zlen_nonneg junk); lia). rewrite mbind_Ret. change (Z.to_nat 0) with 0%nat. rewrite Nat.sub_0_r. reflexivity.
Qed.

Lemma cursor_set d p : cursor_at (set_cursor d p) p.
Proof.
  unfold cursor_at, set_cursor, crt_reg. cbn [crt]. rewrite lookup_insert_ne, !lookup_insert_eq by discriminate. cbn [default].
  unfold u8. rewrite Z.shiftr_div_pow2 by lia. pose proof (Z.div_mod (u16 p) (2 ^ 8)). change (2 ^ 8) with 256 in *. unfold id. lia.
Qed.

Lemma cursor_show d p : cursor_at d p -> cursor_at (show_cursor d) p.
Proof. unfold cursor_at, show_cursor, crt_reg. cbn [crt]. rewrite !lookup_insert_ne by discriminate. auto. Qed.

Lemma com_send_crt d data count d' : com_send d data count = Ret d' -> crt d' = crt d.
Proof.
  unfold com_send. generalize 0 as i. revert d. induction (Z.to_nat count) as [|n IH]; intros d i E; cbn [com_loop] in E; [congruence|].
  bind_ret E. apply IH in E. rewrite E. destruct (a =? 10); reflexivity.
Qed.

Lemma assign_ok b other : zlen (cells b) = CELLS -> zlen (cells other) = CELLS -> assign b other = Ret (as_front (is_front b) other).
Proof.
  intros Hb Ho. unfold assign, range, mem_range.assign_disjunct, mem_range.size. cbn [mem_range.lo mem_range.hi]. rewrite Ho, Hb.
  change (Z.min (u32 (CELLS - 0)) (u32 (CELLS - 0))) with CELLS.
  pose proof (cells.disjunct_all 0 (Z.to_nat CELLS) [] (cells b) [] (cells other)) as H. cbn [app] in H. rewrite Hb, Ho in H. change (zlen (@nil Z)) with 0 in H.
  rewrite H by (reflexivity || (unfold zlen in *; lia)). reflexivity.
Qed.

Lemma create_coherent s junk s' h : coherent s -> zlen junk = CELLS -> screen_create_buffer s junk = Ret (s', h) -> coherent s'.
Proof.
  intros [Hf (m & Hm & Hb & Hc)] Hj E. unfold screen_create_buffer in E. rewrite make_buffer_ok, mbind_Ret in E. bind_ret E. destruct a as [p i]. injection E as <- <-.
  destruct (fpm_emplace_inv _ _ _ _ _ _ Hm Es) as (Hp & Hi & _). constructor; [exact Hf|]. exists (<[i := mk_buffer false (replicate (length junk) blank) 0]> m). split; [exact Hp|]. split.
  - intros h b Hh. apply lookup_insert_Some in Hh. destruct Hh as [[_ <-]|[_ Hh]]; [|eauto]. split; [|reflexivity]. cbn [cells]. unfold zlen in *. rewrite length_replicate. exact Hj.
  - destruct Hc as [Hc|(b & Hcb & H)]; [left; exact Hc|right]. exists b. split; [|exact H]. cbn [current_buffer set_buffers]. rewrite lookup_insert_ne by congruence. exact Hcb.
Qed.

Lemma switch_coherent s h s' : coherent s -> screen_switch_buffer s h = Ret s' -> coherent s'.
Proof.
  intros Hco E. pose proof Hco as [[Hf Hfl] (m & Hm & Hb & Hc)]. unfold screen_switch_buffer in E. destruct (current_buffer s =? h); [congruence|].
  rewrite (fpm_get _ _ _ _ Hm) in E. destruct (m !! h) as [b|] eqn:Hh; [|discriminate]. rewrite mbind_Ret in E. destruct (Hb h b Hh) as [Hbl _].
  rewrite assign_ok, mbind_Ret, Hf in E by assumption. injection E as <-. constructor; [split; [reflexivity|exact Hbl]|].
  exists m. split; [exact Hm|]. split; [exact Hb|]. right. exists b. split; [exact Hh|]. split; [reflexivity|]. apply cursor_show, cursor_set.
Qed.

(** [print] on the front buffer and on the back buffer *)
Lemma arr_set_length (l : list Z) i v : ensures (arr_set l i v) (fun l' => zlen l' = zlen l).
Proof.
  destruct (decide (0 <= i < zlen l)) as [H|H]; [rewrite cells.arr_set_in by exact H; apply zlen_insert|].
  destruct (arr_set l i v) eqn:E; [|exact I..]. exfalso. apply H. unfold arr_set in E. repeat case_match; try discriminate. lia.
Qed.

Lemma write_length mem r i v : ensures (mem_range.write mem r i v) (fun m => zlen m = zlen mem).
Proof. unfold mem_range.write. eapply ensures_bind; [apply ensures_eq|]. intros ? _. apply arr_set_length. Qed.

Lemma fill_length v fuel : forall mem pos hi, ensures (mem_range.fill_loop fuel mem pos hi v) (fun m => zlen m = zlen mem).
Proof.
  induction fuel as [|fuel IH]; intros mem pos hi; cbn [mem_range.fill_loop]; [exact I|]. destruct (pos <? hi); [|reflexivity].
  eapply ensures_bind; [apply arr_set_length|]. intros m Hm. eapply ensures_mono; [apply IH|]. intros m' Hm'. congruence.
Qed.

Lemma overlap_length l r n : forall mem i, ensures (mem_range.overlap_loop n mem l r i) (fun m => zlen m = zlen mem).
Proof.
  induction n as [|n IH]; intros mem i; cbn [mem_range.overlap_loop]; [reflexivity|]. eapply ensures_bind; [apply ensures_eq|]. intros v _.
  eapply ensures_bind; [apply write_length|]. intros m Hm. eapply ensures_mono; [apply IH|]. intros m' Hm'. congruence.
Qed.

Definition same_size (b b' : buffer) : Prop := zlen (cells b') = zlen (cells b).

Lemma scroll_length b : ensures (scroll b) (same_size b).
Proof. unfold scroll. eapply ensures_bind; [apply overlap_length|]. intros m Hm. exact Hm. Qed.

Lemma clear_length b : ensures (clear_rest b) (same_size b).
Proof. unfold clear_rest. eapply ensures_bind; [apply fill_length|]. intros m Hm. exact Hm. Qed.

Lemma print_char_length b f c : ensures (print_char b f c) (fun r => same_size b r.1).
Proof.
  unfold print_char, same_size. destruct (c =? 8).
  - destruct (position b >? 0); [|reflexivity]. eapply ensures_bind; [apply write_length|]. intros m Hm. exact Hm.
  - eapply (ensures_bind _ _ (same_size b)); [destruct (c =? 10); [eapply ensures_bind; [apply ensures_eq|]|]; intros; reflexivity|]. intros b1 H1.
    eapply (ensures_bind _ _ (fun r => same_size b r.1)).
    + destruct (_ >=? _); [|exact H1]. eapply ensures_bind; [apply scroll_length|]. intros b2 H2. unfold same_size in *. cbn [cells] in H2.
      destruct (c =? 10); [eapply ensures_bind; [apply clear_length|]; intros b3 H3; unfold same_size in H3|]; simpl; congruence.
    + intros [b2 f2] H2. unfold same_size in *. cbn [fst] in H2. destruct (c =? 10); [exact H2|].
      eapply ensures_bind; [apply write_length|]. intros m Hm. cbn [fst cells ensures]. simpl in *. congruence.
Qed.

Lemma print_loop_length message : forall b f count, ensures (print_loop b f message count) (fun r => same_size b r.1).
Proof.
  induction message as [|c message IH]; intros b f count; cbn [print_loop]; [exact I|]. destruct (c =? 0); [reflexivity|]. destruct (count =? 0); [reflexivity|].
  eapply ensures_bind; [apply ensures_eq|]. intros n _. eapply ensures_bind; [apply print_char_length|]. intros [b1 f1] H1.
  eapply ensures_mono; [apply IH|]. intros r H2. unfold same_size in *. simpl in *. congruence.
Qed.

Lemma print_length b message count b' : zlen (cells b) = CELLS -> print b message count = Ret b' -> zlen (cells b') = CELLS.
Proof.
  intros Hb E. enough (same_size b b') as H by (unfold same_size in H; congruence). refine (ensures_elim _ (same_size b) _ _ E).
  unfold print. eapply ensures_bind; [apply print_loop_length|]. intros [b1 f1] H1. simpl in H1. destruct f1; [|exact H1].
  eapply ensures_mono; [apply clear_length|]. intros b2 H2. unfold same_size in *. congruence.
Qed.

Lemma print_coherent s h message count s' : coherent s -> screen_print s h message count = Ret s' -> coherent s'.
Proof.
  intros [[Hf Hfl] (m & Hm & Hb & Hc)] E. unfold screen_print in E. bind_ret E. rename a into n. bind_ret E. rename a into s1. bind_ret E. rename a into s2.
  assert (buffers s1 = buffers s /\ current_buffer s1 = current_buffer s /\ front_buffer s1 = front_buffer s /\ crt (dev s1) = crt (dev s)) as (B1 & C1 & F1 & D1).
  { destruct (h =? 0); [|injection Es0 as <-; auto]. bind_ret Es0. injection Es0 as <-. apply com_send_crt in Es2. auto. }
  assert (buffers s2 = buffers s /\ current_buffer s2 = current_buffer s) as (B2 & C2).
  { rewrite <-B1, <-C1. destruct (h =? current_buffer s1); [|injection Es1 as <-; auto]. bind_ret Es1. injection Es1 as <-. auto. }
  rewrite B2, (fpm_get _ _ _ _ Hm) in E. destruct (m !! h) as [b|] eqn:Hh; [|discriminate]. rewrite mbind_Ret in E. bind_ret E. rename a into b'.
  destruct (fpm_modify _ _ _ h b (fun _ => b') Hm Hh) as (p & Ep & Hp & _). rewrite Ep, mbind_Ret in E. injection E as <-. destruct (Hb h b Hh) as [Hbl Hbf].
  pose proof (print_length _ _ _ _ Hbl Es2) as Hbl'. pose proof (print_front_kept _ _ _ _ Es2) as Hbf'.
  assert (forall h0 b0, <[h := b']> m !! h0 = Some b0 -> zlen (cells b0) = CELLS /\ is_front b0 = false) as Hb'.
  { intros h0 b0 H0. apply lookup_insert_Some in H0. destruct H0 as [[_ <-]|[_ H0]]; [split; congruence|eauto]. }
  destruct (Z.eqb_spec h (current_buffer s1)) as [Heq|Hne].
  - bind_ret Es1. rename a into f. injection Es1 as <-. destruct Hc as [Hc|(b0 & Hcb & Hfb & _)].
    + exfalso. pose proof (fpm_dom_cap _ _ _ _ _ Hm Hh). unfold U16_MAX in Hc. rewrite C1 in Heq. lia.
    + replace b0 with b in * by congruence. rewrite F1, Hfb, print_front, Es2, mbind_Ret in Es3. injection Es3 as <-.
      constructor; [split; [reflexivity|exact Hbl']|]. exists (<[h := b']> m). split; [exact Hp|]. split; [exact Hb'|]. right. exists b'.
      split; [cbn [current_buffer set_buffers set_dev set_front]; rewrite <-Heq; apply lookup_insert_eq|]. split; [reflexivity|]. apply cursor_set.
  - injection Es1 as <-. constructor; [rewrite <-F1 in *; split; assumption|]. exists (<[h := b']> m). split; [exact Hp|]. split; [exact Hb'|].
    cbn [current_buffer front_buffer dev set_buffers]. rewrite C1, F1. destruct Hc as [Hc|(b0 & Hcb & Hfb & Hcu)]; [left; exact Hc|right]. exists b0.
    split; [rewrite lookup_insert_ne by congruence; exact Hcb|]. split; [exact Hfb|]. unfold cursor_at, crt_reg in *. rewrite D1. exact Hcu.
Qed.

Lemma seek_coherent s h pos s' : coherent s -> screen_seek s h pos = Ret s' -> coherent s'.
Proof.
  intros [[Hf Hfl] (m & Hm & Hb & Hc)] E. unfold screen_seek in E. bind_ret E. rename a into p.
  destruct (m !! h) as [b|] eqn:Hh; [|rewrite (fpm_modify_panic _ _ _ _ _ Hm Hh) in Es; discriminate].
  destruct (fpm_modify _ _ _ h b (fun b => mk_buffer (is_front b) (cells b) pos) Hm Hh) as (p' & Ep & Hp & _). rewrite Ep in Es. injection Es as ->. destruct (Hb h b Hh) as [Hbl Hbf].
  set (b' := mk_buffer (is_front b) (cells b) pos) in Hp.
  assert (forall h0 b0, <[h := b']> m !! h0 = Some b0 -> zlen (cells b0) = CELLS /\ is_front b0 = false) as Hb'.
  { intros h0 b0 H0. apply lookup_insert_Some in H0. destruct H0 as [[_ <-]|[_ H0]]; [auto|eauto]. }
  cbn [current_buffer set_buffers front_buffer dev] in E. destruct (Z.eqb_spec h (current_buffer s)) as [Heq|Hne]; injection E as <-.
  - destruct Hc as [Hc|(b0 & Hcb & Hfb & _)]; [exfalso; pose proof (fpm_dom_cap _ _ _ _ _ Hm Hh); unfold U16_MAX in Hc; lia|].
    constructor; [split; [exact Hf|exact Hfl]|]. exists (<[h := b']> m). split; [exact Hp|]. split; [exact Hb'|]. right. exists b'.
    split; [cbn [current_buffer set_buffers set_dev set_front]; rewrite <-Heq; apply lookup_insert_eq|]. split; [|apply cursor_set].
    cbn [front_buffer set_dev set_front]. replace b0 with b in Hfb by congruence. rewrite Hfb. reflexivity.
  - constructor; [split; assumption|]. exists (<[h := b']> m). split; [exact Hp|]. split; [exact Hb'|]. destruct Hc as [Hc|(b0 & Hcb & Hfb & Hcu)]; [left; exact Hc|right].
    exists b0. split; [cbn [current_buffer set_buffers]; rewrite lookup_insert_ne by congruence; exact Hcb|auto].
Qed.

Lemma print_target_print s message count s' : print_target s message count = Ret s' -> exists n, screen_print s (target_buffer s) message n = Ret s'.
Proof. unfold print_target. intros E. bind_ret E. eauto. Qed.

Lemma step_coherent s s' : coherent s -> step s s' -> coherent s'.
Proof.
  intros Hco Hs. destruct Hs; eauto using create_coherent, switch_coherent, print_coherent, seek_coherent.
  - destruct Hco as [H1 H2]. constructor; [exact H1|exact H2].
  - destruct (print_target_print _ _ _ _ H) as [n Hn]. eauto using print_coherent.
Qed.

Lemma initial_coherent junk d s : zlen junk = CELLS -> initial junk d = Ret s -> coherent s.
Proof.
  intros Hj E. unfold initial in E. rewrite make_buffer_ok, mbind_Ret in E. injection E as <-. constructor.
  - split; [reflexivity|]. cbn [front_buffer cells]. unfold zlen in *. rewrite length_replicate. exact Hj.
  - exists ∅. split; [apply fpm_new; unfold U16_MAX; lia|]. split; [intros h b; rewrite lookup_empty; discriminate|left; reflexivity].
Qed.

Lemma init_coherent s junk s' : coherent s -> zlen junk = CELLS -> screen_init s junk = Ret s' -> coherent s'.
Proof.
  intros [H1 (m & Hm & Hb & Hc)] Hj E. unfold screen_init in E. bind_ret E. destruct a as [s1 h].
  assert (coherent s1) as [H1' H2'].
  { apply (create_coherent (set_dev s (hide_cursor (dev s))) junk s1 h); [|exact Hj|exact Es]. constructor; [exact H1|]. exists m. split; [exact Hm|]. split; [exact Hb|].
    destruct Hc as [Hc|(b & Hcb & Hfb & Hcu)]; [left; exact Hc|right]. exists b. split; [exact Hcb|]. split; [exact Hfb|].
    unfold cursor_at, hide_cursor, crt_reg in *. cbn [dev set_dev crt]. rewrite !lookup_insert_ne by discriminate. exact Hcu. }
  apply (switch_coherent (screen_set_target_buffer s1 h) h); [|exact E]. constructor; assumption.
Qed.

Lemma reach_coherent s : reach s -> coherent s.
Proof. induction 1; eauto using step_coherent, init_coherent, initial_coherent. Qed.

(** Once a buffer is shown, one is shown for ever. *)
Lemma switch_current s h s' : coherent s -> screen_switch_buffer s h = Ret s' -> s' = s \/ current_buffer s' <> U16_MAX.
Proof.
  intros [_ (m & Hm & _)] E. unfold screen_switch_buffer in E. destruct (current_buffer s =? h); [left; congruence|right].
  rewrite (fpm_get _ _ _ _ Hm) in E. destruct (m !! h) as [b|] eqn:Hh; [|discriminate]. bind_ret E. injection Es as <-. bind_ret E. injection E as <-.
  pose proof (fpm_dom_cap _ _ _ _ _ Hm Hh). cbn [current_buffer set_dev set_front set_current]. unfold U16_MAX. lia.
Qed.

Lemma print_current s h message count s' : screen_print s h message count = Ret s' -> current_buffer s' = current_buffer s.
Proof.
  intros E. unfold screen_print in E. bind_ret E. bind_ret E. bind_ret E. bind_ret E. bind_ret E. bind_ret E. injection E as <-. cbn [current_buffer set_buffers].
  assert (current_buffer a0 = current_buffer s) as H0 by (destruct (h =? 0); [bind_ret Es0|]; injection Es0 as <-; reflexivity). rewrite <-H0.
  destruct (h =? current_buffer a0); [bind_ret Es1|]; injection Es1 as <-; reflexivity.
Qed.

Lemma step_current s s' : coherent s -> step s s' -> current_buffer s <> U16_MAX -> current_buffer s' <> U16_MAX.
Proof.
  intros Hco Hs Hne. destruct Hs as [s junk s' h _ E|s h s' E|s h|s h message count s' E|s message count s' E|s h pos s' E].
  - unfold screen_create_buffer in E. bind_ret E. bind_ret E. destruct a0. injection E as <- _. exact Hne.
  - destruct (switch_current _ _ _ Hco E) as [->|H]; assumption.
  - exact Hne.
  - rewrite (print_current _ _ _ _ _ E). exact Hne.
  - destruct (print_target_print _ _ _ _ E) as [n En]. rewrite (print_current _ _ _ _ _ En). exact Hne.
  - unfold screen_seek in E. bind_ret E. destruct (_ =? _); injection E as <-; exact Hne.
Qed.

Lemma reach_current s : reach s -> current_buffer s <> U16_MAX.
Proof.
  induction 1 as [junk junk' d s0 s Hj Hj' E0 E|s s' Hr IH Hs]; [|exact (step_current _ _ (reach_coherent _ Hr) Hs IH)].
  pose proof (initial_coherent _ _ _ Hj E0) as [H1 (m & Hm & Hb & Hc)]. unfold screen_init in E. bind_ret E. destruct a as [s1 h].
  assert (current_buffer s0 = U16_MAX) as H0 by (unfold initial in E0; bind_ret E0; injection E0 as <-; reflexivity).
  unfold screen_create_buffer in Es. rewrite make_buffer_ok, mbind_Ret in Es. bind_ret Es. destruct a as [p i]. injection Es as <- <-.
  destruct (fpm_emplace_inv _ _ _ _ _ _ Hm Es0) as (_ & _ & Hi). unfold screen_switch_buffer in E. cbn [current_buffer screen_set_target_buffer set_buffers set_dev buffers] in E. rewrite H0 in E.
  rewrite (proj2 (Z.eqb_neq U16_MAX i)) in E by (unfold U16_MAX; lia). bind_ret E. bind_ret E. injection E as <-. cbn [current_buffer set_dev set_front set_current]. unfold U16_MAX. lia.
Qed.

(** ** Printing into a buffer *)

(** Handle [h] is a buffer whose cursor is on the screen. *)
Definition printable (s : t) (h : Z) : Prop :=
  coherent s /\ exists m b, fpm 16 (buffers s) m /\ m !! h = Some b /\ wf b.

Lemma com_loop_total data n : forall d i, 0 <= i -> i + Z.of_nat n <= zlen data -> exists d', com_loop n d data i = Ret d'.
Proof.
  induction n as [|n IH]; intros d i H0 Hn; cbn [com_loop]; [eauto|]. assert (exists c, znth data i = Some c) as [c Hc].
  { unfold znth. rewrite (proj2 (Z.leb_le 0 i)) by lia. apply lookup_lt_is_Some. unfold zlen in Hn. lia. }
  unfold arr_get. rewrite Hc, mbind_Ret. apply IH; lia.
Qed.

Lemma com_send_total d data count : count <= zlen data -> exists d', com_send d data count = Ret d'.
Proof. intros Hc. apply com_loop_total; [lia|]. pose proof (zlen_nonneg data). lia. Qed.

Lemma strlen_cs cs rest : ~ (0 ∈ cs) -> strlen (cs ++ 0 :: rest) = Ret (zlen cs).
Proof.
  induction cs as [|c cs IH]; intros Hn; [reflexivity|]. cbn [app strlen]. rewrite (proj2 (Z.eqb_neq c 0)) by (intros ->; apply Hn, list_elem_of_here).
  rewrite IH, mbind_Ret by (intros H; apply Hn, list_elem_of_further, H). rewrite zlen_cons. reflexivity.
Qed.

(** Printing a C string *)
Lemma screen_print_cs s h cs rest : printable s h -> ~ (0 ∈ cs) -> zlen cs <= INT_MAX ->
  exists s', screen_print s h (cs ++ 0 :: rest) (-1) = Ret s' /\ printable s' h.
Proof.
  intros [Hco (m & b & Hm & Hh & Hw)] Hn Hlen. pose proof (zlen_nonneg cs) as Hz.
  enough (exists s', screen_print s h (cs ++ 0 :: rest) (-1) = Ret s' /\ exists m b, fpm 16 (buffers s') m /\ m !! h = Some b /\ wf b) as (s' & E & H).
  { exists s'. split; [exact E|]. split; [exact (print_coherent _ _ _ _ _ Hco E)|exact H]. }
  assert (printed (cs ++ 0 :: rest) (zlen cs) cs) as Hp by (exists 0, rest; split; [reflexivity|]; split; [exact Hn|]; right; lia).
  destruct (print_total b _ _ _ Hw Hp) as (b' & Eb & Hw'). unfold screen_print. change (-1 =? -1) with true. cbv iota. rewrite strlen_cs, mbind_Ret by exact Hn.
  assert (exists s1, (if h =? 0 then d ← com_send (dev s) (cs ++ 0 :: rest) (zlen cs); Ret (set_dev s d) else Ret s) = Ret s1 /\ buffers s1 = buffers s /\ current_buffer s1 = current_buffer s /\ front_buffer s1 = front_buffer s) as (s1 & -> & B1 & C1 & F1).
  { destruct (h =? 0); [|eauto]. destruct (com_send_total (dev s) (cs ++ 0 :: rest) (zlen cs)) as (d' & ->); [rewrite zlen_app, zlen_cons; pose proof (zlen_nonneg rest); lia|].
    rewrite mbind_Ret. eexists. split; [reflexivity|auto]. }
  rewrite mbind_Ret.
  assert (exists s2, (if h =? current_buffer s1 then f ← print (front_buffer s1) (cs ++ 0 :: rest) (zlen cs); Ret (set_dev (set_front s1 f) (update_cursor (dev s1) f)) else Ret s1) = Ret s2 /\ buffers s2 = buffers s) as (s2 & -> & B2).
  { destruct (Z.eqb_spec h (current_buffer s1)) as [Heq|]; [|eauto]. destruct Hco as [_ (m0 & Hm0 & _ & Hc)].
    assert (forall i, m0 !! i = m !! i) as Hmm by (intros i; rewrite <-(fpm_at _ _ _ i Hm0), <-(fpm_at _ _ _ i Hm); reflexivity).
    destruct Hc as [Hc|(b0 & Hb0 & Hf & _)]; [exfalso; pose proof (fpm_dom_cap _ _ _ _ _ Hm Hh); unfold U16_MAX in Hc; lia|].
    rewrite Hmm, <-C1, <-Heq, Hh in Hb0. injection Hb0 as <-. rewrite F1, Hf, print_front, Eb, !mbind_Ret. eexists. split; [reflexivity|exact B1]. }
  rewrite mbind_Ret, B2, (fpm_get _ _ _ _ Hm), Hh, mbind_Ret, Eb, mbind_Ret.
  destruct (fpm_modify _ _ _ h b (fun _ => b') Hm Hh) as (p & -> & Hp' & _). rewrite mbind_Ret. eexists. split; [reflexivity|].
  exists (<[h := b']> m), b'. split; [exact Hp'|]. split; [apply lookup_insert_eq|exact Hw'].
Qed.

(** Printing a C string into the buffer that is shown *)
Lemma screen_print_front s cs rest s' : wf (front_buffer s) -> ~ (0 ∈ cs) -> zlen cs <= INT_MAX ->
  screen_print s (current_buffer s) (cs ++ 0 :: rest) (-1) = Ret s' -> front_buffer s' = list_print (front_buffer s) cs.
Proof.
  intros Hw Hn Hlen E. pose proof (zlen_nonneg cs). unfold screen_print in E. change (-1 =? -1) with true in E. cbv iota in E. rewrite strlen_cs, mbind_Ret in E by exact Hn.
  assert (printed (cs ++ 0 :: rest) (zlen cs) cs) as Hp by (exists 0, rest; split; [reflexivity|]; split; [exact Hn|]; right; lia).
  bind_ret E. assert (front_buffer a = front_buffer s /\ current_buffer a = current_buffer s) as [Hf Hc] by (destruct (current_buffer s =? 0); [bind_ret Es|]; injection Es as <-; auto).
  rewrite Hc, Z.eqb_refl, Hf, (list_print_ok _ _ _ cs Hw Hp), !mbind_Ret in E. bind_ret E. bind_ret E. bind_ret E. injection E as <-. reflexivity.
Qed.

(** Starting the screen: its first buffer is shown, and can be printed into. *)
Lemma start_printable junk junk' d : zlen junk = CELLS -> zlen junk' = CELLS ->
  exists s0 s, initial junk d = Ret s0 /\ screen_init s0 junk' = Ret s /\ printable s (current_buffer s) /\ front_buffer s = mk_buffer true (replicate (length junk') blank) 0.
Proof.
  intros Hj Hj'. unfold initial. rewrite make_buffer_ok, mbind_Ret. eexists. set (s0 := mk _ _ _ _ _).
  assert (coherent s0) as Hco by (apply (initial_coherent junk d); [exact Hj|unfold initial; rewrite make_buffer_ok; reflexivity]).
  set (b := mk_buffer false (replicate (length junk') blank) 0).
  assert (wf b) as Hw by (split; cbn [cells position b]; [unfold zlen in *; rewrite length_replicate; exact Hj'|unfold CELLS, NUM_COLUMNS, NUM_ROWS; lia]).
  assert (fpm 16 (new_fixed_pool (T := buffer) 16) ∅) as Hp by (apply fpm_new; unfold U16_MAX; lia).
  destruct (fpm_emplace_anywhere 16 (new_fixed_pool 16) ∅ b Hp) as (p & h & E & Hp' & _ & Hh); [rewrite map_size_empty; lia|].
  assert (exists s, screen_init s0 junk' = Ret s /\ current_buffer s = h /\ buffers s = p /\ front_buffer s = as_front true b) as (s & Es & Hc & Hb & Hf).
  { unfold screen_init, screen_create_buffer. rewrite make_buffer_ok, mbind_Ret. cbn [set_dev buffers s0]. fold b. rewrite E, !mbind_Ret.
    unfold screen_switch_buffer. cbn [current_buffer screen_set_target_buffer set_buffers set_dev s0 buffers front_buffer]. rewrite (proj2 (Z.eqb_neq U16_MAX h)) by (unfold U16_MAX; lia).
    rewrite (fpm_get _ _ _ h Hp'), lookup_insert_eq, mbind_Ret, assign_ok; [|cbn [cells]; unfold zlen in *; rewrite length_replicate; exact Hj|exact (proj1 Hw)].
    rewrite mbind_Ret. eexists. split; [reflexivity|]. split; [reflexivity|]. split; reflexivity. }
  exists s. split; [reflexivity|]. split; [exact Es|]. split; [|exact Hf]. split; [exact (init_coherent _ _ _ Hco Hj' Es)|]. exists (<[h := b]> ∅), b.
  rewrite Hb, Hc. split; [exact Hp'|]. split; [apply lookup_insert_eq|exact Hw].
Qed.

End display.

(** C25: [print] returns for every message, from every position of the cursor on
    the screen, and leaves the cursor on the screen: it never leaves the
    buffer.  When the message is regular (no newline is printed after a letter
    has moved the rows up in the same call, nor with the cursor behind the last
    cell), the buffer is what a typewriter leaves that clears the new row as
    soon as the rows move up: putting off the clearing is not visible. *)
Theorem print_is_typewriter (b : screen.buffer) (message : list Z) (count : Z) (cs : list Z) :
  printing.wf b -> printing.printed message count cs ->
  exists b', screen.print b message count = Ret b' /\ printing.wf b' /\
    (printing.regular (screen.cells b, screen.position b) false cs = true ->
     (screen.cells b', screen.position b') = printing.type (screen.cells b, screen.position b) cs).
Proof.
  intros Hw Hp. destruct (printing.print_total b message count cs Hw Hp) as (b' & E & Hw'). exists b'. split; [exact E|]. split; [exact Hw'|].
  intros Hreg. destruct (printing.print_types b message count cs Hw Hp Hreg) as (b2 & E2 & _ & H). congruence.
Qed.

Lemma print_is_typewriter_witness : exists b', screen.print (screen.mk_buffer false (replicate 2000 screen.blank) 1999) [65; 66; 0] (-1) = Ret b' /\
  screen.position b' = 1921 /\ znth (screen.cells b') 1919 = Some (screen.entry 0 15 65) /\ znth (screen.cells b') 1920 = Some (screen.entry 0 15 66).
Proof.
  destruct (print_is_typewriter (screen.mk_buffer false (replicate 2000 screen.blank) 1999) [65; 66; 0] (-1) [65; 66]) as (b' & E & _ & H).
  - split; [reflexivity|]. vm_compute. split; discriminate.
  - exists 0, []. split; [reflexivity|]. split; [vm_compute; set_solver|]. left. auto.
  - exists b'. split; [exact E|]. specialize (H ltac:(vm_compute; reflexivity)). split; [apply (f_equal snd) in H; cbn [snd] in H; rewrite H; vm_compute; reflexivity|]. apply (f_equal fst) in H. cbn [fst] in H. rewrite H. vm_compute. auto.
Defined.

(** Two messages that are not regular.  A screen of X and a cursor behind the
    last cell: after "a", newline, "b" the rest of the row of "a" still shows
    the X that was there before; after a newline alone, and a letter, the row
    of X in front of it is on the screen twice. *)
Definition full_of_X : screen.buffer := screen.mk_buffer false (replicate 2000 (screen.entry 0 15 88)) 2000.

Definition last_row_digits : screen.buffer :=
  screen.mk_buffer false (replicate 1920 screen.blank ++ replicate 80 (screen.entry 0 15 49)) 2000.

(** Cell [i] after printing some messages *)
Fixpoint cell_after (b : screen.buffer) (messages : list (list Z)) (i : Z) : outcome (option Z) :=
  match messages with
  | [] => Ret (znth (screen.cells b) i)
  | m :: ms => b ← screen.print b m (-1); cell_after b ms i
  end.

Lemma cell_after_lists messages : forall b i, printing.wf b -> Forall (fun cs => ~ (0 ∈ cs)) messages ->
  cell_after b (map (fun cs => cs ++ [0]) messages) i = Ret (znth (screen.cells (fold_left printing.list_print messages b)) i).
Proof.
  induction messages as [|cs ms IH]; intros b i Hw Hn; cbn [cell_after map fold_left]; [reflexivity|]. apply Forall_cons in Hn. destruct Hn as [Hn Hns].
  assert (printing.printed (cs ++ [0]) (-1) cs) as Hp by (exists 0, []; auto). destruct (printing.print_total b _ _ _ Hw Hp) as (b' & E & Hw').
  rewrite E. rewrite (printing.list_print_ok _ _ _ _ Hw Hp) in E. injection E as ->. rewrite mbind_Ret. apply IH; assumption.
Qed.

Lemma print_leaves_stale_cells :
  cell_after full_of_X [[97; 10; 98; 0]] 1840 = Ret (Some (screen.entry 0 15 97)) /\
  cell_after full_of_X [[97; 10; 98; 0]] 1841 = Ret (Some (screen.entry 0 15 88)) /\
  cell_after full_of_X [[97; 0]; [10; 0]; [98; 0]] 1841 = Ret (Some screen.blank).
Proof.
  assert (printing.wf full_of_X) as Hw by (split; [reflexivity|vm_compute; split; discriminate]).
  pose proof (fun ms i H => cell_after_lists ms full_of_X i Hw H) as H. split; [|split].
  - apply (eq_trans (H [[97; 10; 98]] 1840 ltac:(repeat constructor; set_solver))). vm_compute. reflexivity.
  - apply (eq_trans (H [[97; 10; 98]] 1841 ltac:(repeat constructor; set_solver))). vm_compute. reflexivity.
  - apply (eq_trans (H [[97]; [10]; [98]] 1841 ltac:(repeat constructor; set_solver))). vm_compute. reflexivity.
Qed.

Lemma print_duplicates_row :
  cell_after last_row_digits [[10; 0]; [97; 0]] 1760 = Ret (Some (screen.entry 0 15 49)) /\
  cell_after last_row_digits [[10; 0]; [97; 0]] 1840 = Ret (Some (screen.entry 0 15 49)) /\
  cell_after last_row_digits [[97; 0]] 1760 = Ret (Some screen.blank).
Proof.
  assert (printing.wf last_row_digits) as Hw by (split; [reflexivity|vm_compute; split; discriminate]).
  pose proof (fun ms i H => cell_after_lists ms last_row_digits i Hw H) as H. split; [|split].
  - apply (eq_trans (H [[10]; [97]] 1760 ltac:(repeat constructor; set_solver))). vm_compute. reflexivity.
  - apply (eq_trans (H [[10]; [97]] 1840 ltac:(repeat constructor; set_solver))). vm_compute. reflexivity.
  - apply (eq_trans (H [[97]] 1760 ltac:(repeat constructor; set_solver))). vm_compute. reflexivity.
Qed.

(** C19: the display shows the buffer that was switched to last, and its cursor,
    after any sequence of operations. *)
Theorem screen_shows_current (s : screen.t) : display.reach s ->
  exists m b, fpm 16 (screen.buffers s) m /\ m !! screen.current_buffer s = Some b /\
    screen.cells (screen.front_buffer s) = screen.cells b /\ screen.position (screen.front_buffer s) = screen.position b /\
    display.cursor_at (screen.dev s) (screen.position b).
Proof.
  intros Hr. pose proof (display.reach_current s Hr) as Hne. destruct (display.reach_coherent s Hr) as [_ (m & Hm & _ & [Hc|(b & Hcb & Hf & Hcu)])]; [tauto|].
  exists m, b. rewrite Hf. auto.
Qed.

(** A screen after its initialisation and one message *)
Definition start (junk junk' message : list Z) : outcome screen.t :=
  s0 ← screen.initial junk (screen.mk_dev ∅ []);
  s ← screen.screen_init s0 junk';
  screen.screen_print s (screen.current_buffer s) message (-1).

Lemma start_reach junk junk' message s : zlen junk = printing.CELLS -> zlen junk' = printing.CELLS -> start junk junk' message = Ret s -> display.reach s.
Proof.
  intros Hj Hj' E. unfold start in E. bind_ret E. bind_ret E. apply (display.R_step a0); [exact (display.R_init _ _ _ _ _ Hj Hj' Es Es0)|exact (display.S_print _ _ _ _ _ E)].
Qed.

Lemma start_shows junk junk' cs : zlen junk = printing.CELLS -> zlen junk' = printing.CELLS -> ~ (0 ∈ cs) -> zlen cs <= INT_MAX ->
  exists s, start junk junk' (cs ++ [0]) = Ret s /\ screen.front_buffer s = printing.list_print (screen.mk_buffer true (replicate (length junk') screen.blank) 0) cs.
Proof.
  intros Hj Hj' Hn Hl. destruct (display.start_printable junk junk' (screen.mk_dev ∅ []) Hj Hj') as (s0 & s & E0 & E1 & Hp & Hf).
  destruct (display.screen_print_cs s _ cs [] Hp Hn Hl) as (s' & E & _). exists s'. unfold start. rewrite E0, mbind_Ret, E1, mbind_Ret. split; [exact E|].
  rewrite <-Hf. apply (display.screen_print_front s cs [] s'); try assumption. rewrite Hf.
  split; cbn [screen.cells screen.position]; [unfold zlen in *; rewrite length_replicate; exact Hj'|vm_compute; split; discriminate].
Qed.

Lemma screen_shows_current_witness : exists s m b, start (replicate 2000 7) (replicate 2000 9) [104; 105; 0] = Ret s /\ m !! screen.current_buffer s = Some b /\
  screen.cells (screen.front_buffer s) = screen.cells b /\ znth (screen.cells (screen.front_buffer s)) 1 = Some (screen.entry 0 15 105) /\
  fpm 16 (screen.buffers s) m.
Proof.
  assert (forall v : Z, zlen (replicate 2000 v) = printing.CELLS) as Hl by (intros v; vm_compute; reflexivity).
  destruct (start_shows _ _ [104; 105] (Hl 7) (Hl 9)) as (s & E & Hf); [set_solver|vm_compute; discriminate|].
  destruct (screen_shows_current s (start_reach _ _ _ s (Hl 7) (Hl 9) E)) as (m & b & Hm & Hb & Hc & _ & _).
  exists s, m, b. split; [exact E|]. split; [exact Hb|]. split; [exact Hc|]. split; [|exact Hm]. rewrite Hf. vm_compute. reflexivity.
Defined.
