(* ===== verification/Sched.v ===== *)
(** * Processes and the scheduler (kernel/process.cc, process_private.h, locks.h)

    The process table, the two intrusive doubly linked queues through it and
    the operations on them.  A context switch is the point where an
    operation ends for its caller: [switch_process] stores the new current
    process, and what the caller does after it (the value [proc_yield]
    returns, the rest of the timer loop, the end of [wait]) is a definition
    of its own that starts from the state in which the caller runs again.
    The links of a process that has not been queued are indeterminate,
    [None]. *)

From S2P Require Import Prelude Pool KernelDefs.
From stdpp Require Import gmap.
#[local] Open Scope Z_scope.

Module sched.
Import kdefs.

Record process := mk_process {
  space_handle : Z;
  file_context : Z;
  suspended : bool;
  terminating : bool;
  exit_status : Z;
  unblock_status : Z;
  prev_process : option Z;
  next_process : option Z;
  waiting_process : option Z;
  last_tick : Z;
  suspension_timeout : Z;
  p_flags : Z;
  kernel_stack_sp : Z
}.

(** The constructor [process(space_handle, file_context, flags)] *)
Definition new_process (space ctx flags : Z) : process :=
  mk_process space ctx false false 0 0 None None None 0 (-1) flags 0.

Definition set_suspended (v : bool) (p : process) : process := mk_process (space_handle p) (file_context p) v (terminating p) (exit_status p) (unblock_status p) (prev_process p) (next_process p) (waiting_process p) (last_tick p) (suspension_timeout p) (p_flags p) (kernel_stack_sp p).
Definition set_exited (status : Z) (p : process) : process := mk_process (space_handle p) (file_context p) (suspended p) true status (unblock_status p) (prev_process p) (next_process p) (waiting_process p) (last_tick p) (suspension_timeout p) (p_flags p) (kernel_stack_sp p).
Definition set_unblock (v : Z) (p : process) : process := mk_process (space_handle p) (file_context p) (suspended p) (terminating p) (exit_status p) v (prev_process p) (next_process p) (waiting_process p) (last_tick p) (suspension_timeout p) (p_flags p) (kernel_stack_sp p).
Definition set_prev (v : Z) (p : process) : process := mk_process (space_handle p) (file_context p) (suspended p) (terminating p) (exit_status p) (unblock_status p) (Some v) (next_process p) (waiting_process p) (last_tick p) (suspension_timeout p) (p_flags p) (kernel_stack_sp p).
Definition set_next (v : Z) (p : process) : process := mk_process (space_handle p) (file_context p) (suspended p) (terminating p) (exit_status p) (unblock_status p) (prev_process p) (Some v) (waiting_process p) (last_tick p) (suspension_timeout p) (p_flags p) (kernel_stack_sp p).
Definition set_waiting (v : Z) (p : process) : process := mk_process (space_handle p) (file_context p) (suspended p) (terminating p) (exit_status p) (unblock_status p) (prev_process p) (next_process p) (Some v) (last_tick p) (suspension_timeout p) (p_flags p) (kernel_stack_sp p).
Definition set_tick (v : Z) (p : process) : process := mk_process (space_handle p) (file_context p) (suspended p) (terminating p) (exit_status p) (unblock_status p) (prev_process p) (next_process p) (waiting_process p) v (suspension_timeout p) (p_flags p) (kernel_stack_sp p).
Definition set_timeout (v : Z) (p : process) : process := mk_process (space_handle p) (file_context p) (suspended p) (terminating p) (exit_status p) (unblock_status p) (prev_process p) (next_process p) (waiting_process p) (last_tick p) v (p_flags p) (kernel_stack_sp p).
Definition set_sp (v : Z) (p : process) : process := mk_process (space_handle p) (file_context p) (suspended p) (terminating p) (exit_status p) (unblock_status p) (prev_process p) (next_process p) (waiting_process p) (last_tick p) (suspension_timeout p) (p_flags p) v.

(** The global state; [END] is the sentinel of the pool. *)
Record t := mk {
  processes : fixed_pool process;
  current_pid : Z;
  running_head : Z;
  suspended_head : Z;
  idle_process : Z;
  tick_count : Z
}.
Definition END : Z := U16_MAX.

Definition init : t := mk (new_fixed_pool 128) END END END END 0.

Definition set_processes (st : t) (v : fixed_pool process) : t := mk v (current_pid st) (running_head st) (suspended_head st) (idle_process st) (tick_count st).
Definition set_current (st : t) (v : Z) : t := mk (processes st) v (running_head st) (suspended_head st) (idle_process st) (tick_count st).
Definition set_idle (st : t) (v : Z) : t := mk (processes st) (current_pid st) (running_head st) (suspended_head st) v (tick_count st).
Definition set_ticks (st : t) (v : Z) : t := mk (processes st) (current_pid st) (running_head st) (suspended_head st) (idle_process st) v.

(** The two list heads the queue functions take a pointer to *)
Inductive queue_ptr := Running | Suspended.
Definition head (q : queue_ptr) (st : t) : Z := match q with Running => running_head st | Suspended => suspended_head st end.
Definition set_head (q : queue_ptr) (st : t) (v : Z) : t :=
  match q with
  | Running => mk (processes st) (current_pid st) v (suspended_head st) (idle_process st) (tick_count st)
  | Suspended => mk (processes st) (current_pid st) (running_head st) v (idle_process st) (tick_count st)
  end.

Definition valid (st : t) (pid : Z) : bool := pool.valid U16_MAX (processes st) pid.
Definition proc (st : t) (pid : Z) : outcome process := pool.get U16_MAX (processes st) pid.
Definition update (st : t) (pid : Z) (f : process -> process) : outcome t :=
  p ← pool.modify U16_MAX (processes st) pid f; Ret (set_processes st p).

(** Reading an indeterminate link is undefined. *)
Definition link (l : option Z) : outcome Z := match l with Some v => Ret v | None => Undef end.

Definition enqueue_front (st : t) (pid : Z) (q : queue_ptr) : outcome t :=
  st ← (if negb (head q st =? END) then update st (head q st) (set_prev pid) else Ret st);
  st ← update st pid (set_next (head q st));
  st ← update st pid (set_prev END);
  Ret (set_head q st pid).

(** [proc] is a reference: its links are read again after each store. *)
Definition dequeue (st : t) (pid : Z) (q : queue_ptr) : outcome t :=
  p ← proc st pid;
  prev ← link (prev_process p);
  st ← (if negb (prev =? END) then next ← link (next_process p); update st prev (set_next next) else Ret st);
  p ← proc st pid;
  next ← link (next_process p);
  st ← (if negb (next =? END) then prev ← link (prev_process p); update st next (set_prev prev) else Ret st);
  if head q st =? pid then
    p ← proc st pid; next ← link (next_process p); Ret (set_head q st next)
  else Ret st.

Definition proc_enqueue (st : t) (pid : Z) : outcome t := enqueue_front st pid Running.

Definition proc_current_pid (st : t) : option Z := if negb (current_pid st =? END) then Some (current_pid st) else None.

(** The walk over the running queue; the fuel bounds the number of processes. *)
Fixpoint decide_loop (fuel : nat) (st : t) (node minimum_tick minimum_pid : Z) : outcome Z :=
  match fuel with
  | O => NoFuel
  | S fuel' =>
      if negb (node =? END) then
        p ← proc st node;
        let better := last_tick p <? minimum_tick in
        next ← link (next_process p);
        decide_loop fuel' st next (if better then last_tick p else minimum_tick) (if better then node else minimum_pid)
      else Ret minimum_pid
  end.

Definition decide_next_process (st : t) : outcome Z :=
  minimum_pid ← decide_loop 129 st (running_head st) (2 ^ 64 - 1) END;
  Ret (if minimum_pid =? END then idle_process st else minimum_pid).

(** The context switch itself ([process::activate]) saves the stack pointer
    of the previous process and loads the new one; the registers and stacks
    are those of the machine. *)
Definition switch_process (st : t) (pid : Z) : outcome t :=
  st ← update st pid (set_tick (tick_count st));
  if current_pid st =? pid then Ret st else Ret (set_current st pid).

Definition proc_switch (st : t) (pid : Z) : outcome t :=
  if bool_decide (proc_current_pid st = Some pid) then Ret st
  else
    p ← proc st pid;
    passert (negb (suspended p));;
    pid ← (if terminating p then decide_next_process st else Ret pid);
    switch_process st pid.

Definition proc_yield (st : t) : outcome t :=
  let st := set_ticks st (u64 (tick_count st + 1)) in
  st ← (if valid st (current_pid st) then update st (current_pid st) (set_tick (tick_count st)) else Ret st);
  pid ← decide_next_process st;
  proc_switch st pid.

(** What [proc_yield] returns when its caller runs again *)
Definition yield_status (st : t) : outcome Z := p ← proc st (current_pid st); Ret (unblock_status p).

Definition proc_suspend (st : t) (pid : Z) : outcome t :=
  p ← proc st pid;
  if suspended p then Ret st
  else
    st ← dequeue st pid Running;
    st ← enqueue_front st pid Suspended;
    update st pid (set_suspended true).

Definition proc_resume (st : t) (pid : Z) : outcome t :=
  p ← proc st pid;
  if negb (suspended p) then Ret st
  else
    st ← dequeue st pid Suspended;
    st ← enqueue_front st pid Running;
    update st pid (set_suspended false).

Definition proc_block (st : t) (pid : Z) : outcome t := st ← proc_suspend st pid; proc_yield st.

Definition proc_unblock_and_switch (st : t) (pid status : Z) : outcome t :=
  if valid st pid then
    st ← update st pid (set_unblock status);
    st ← proc_resume st pid;
    proc_switch st pid
  else Ret st.

(** [process::exit] *)
Definition exit (st : t) (pid status : Z) : outcome t :=
  st ← update st pid (set_exited (to_i32 status));
  p ← proc st pid;
  match waiting_process p with Some w => proc_resume st w | None => Ret st end.

Definition proc_kill (st : t) (pid exit_status : Z) : outcome t :=
  passert (negb (pid =? idle_process st));;
  if negb (valid st pid) then Ret st
  else
    p ← proc st pid;
    st ← dequeue st pid (if suspended p then Suspended else Running);
    exit st pid exit_status.

(** ** System calls *)

Definition syscall_yield (st : t) : outcome t := proc_yield st.

Definition syscall_exit (st : t) (exit_status : Z) : outcome t :=
  match proc_current_pid st with
  | None => Panic
  | Some pid => st ← proc_kill st pid (u32 exit_status); proc_yield st
  end.

Definition kill_caller (st : t) : outcome t :=
  match proc_current_pid st with
  | None => Panic
  | Some pid => st ← proc_kill st pid 15; proc_yield st
  end.

Definition syscall_kill (st : t) (pid : Z) : outcome (t * Z) :=
  st ← proc_kill st (u16 pid) 123; Ret (st, 1).

(** [wait] up to the context switch: what is left to do when the caller runs
    again, or the process to destroy at once *)
Inductive wait_result := WaitReturns (r : Z) | WaitDestroys (pid : Z) | WaitBlocks (pid : Z).

Definition syscall_wait (st : t) (pid : Z) : outcome (t * wait_result) :=
  if negb (valid st (u16 pid)) then Ret (st, WaitReturns 0)
  else
    match proc_current_pid st with
    | None => Ret (st, WaitReturns 1)
    | Some parent_pid =>
        p ← proc st (u16 pid);
        if negb (terminating p) then
          st ← proc_suspend st parent_pid;
          st ← update st (u16 pid) (set_waiting parent_pid);
          st ← proc_yield st;
          Ret (st, WaitBlocks (u16 pid))
        else Ret (st, WaitDestroys (u16 pid))
    end.

(** [wait] when its caller runs again *)
Definition syscall_wait_resumed (st : t) (pid : Z) : outcome wait_result :=
  p ← proc st pid;
  passert (terminating p);;
  Ret (WaitDestroys pid).

Definition syscall_set_timeout (st : t) (timeout : Z) : outcome (t * Z) :=
  match proc_current_pid st with
  | Some pid => st ← update st pid (set_timeout timeout); Ret (st, 0)
  | None => Ret (st, 0)
  end.

Definition syscall_get_timeout (st : t) : outcome Z :=
  match proc_current_pid st with
  | Some pid => p ← proc st pid; Ret (suspension_timeout p)
  | None => Ret 0
  end.

(** ** The timer *)

(** [on_timer_tick] runs in the process the interrupt stopped.  Waking a
    process switches to it: the loop then goes on, from the node it stopped
    at, when that process runs again. *)
Inductive tick_result := TickDone | TickStopped (node : Z).

Fixpoint tick_loop (fuel : nat) (st : t) (node delta_ms : Z) : outcome (t * tick_result) :=
  match fuel with
  | O => NoFuel
  | S fuel' =>
      if negb (node =? END) then
        p ← proc st node;
        if suspension_timeout p >? 0 then
          timeout ← i32 (suspension_timeout p - delta_ms);
          st ← update st node (set_timeout timeout);
          if timeout <=? 0 then
            st' ← proc_unblock_and_switch st node ETIMEOUT;
            if current_pid st' =? current_pid st then
              p ← proc st' node; next ← link (next_process p); tick_loop fuel' st' next delta_ms
            else Ret (st', TickStopped node)
          else next ← link (next_process p); tick_loop fuel' st next delta_ms
        else next ← link (next_process p); tick_loop fuel' st next delta_ms
      else Ret (st, TickDone)
  end.

(** After the loop the handler yields. *)
Definition tick_end (r : t * tick_result) : outcome (t * tick_result) :=
  match r with
  | (st, TickDone) => st ← proc_yield st; Ret (st, TickDone)
  | (st, TickStopped node) => Ret (st, TickStopped node)
  end.

Definition on_timer_tick (st : t) (delta_ms : Z) : outcome (t * tick_result) :=
  r ← tick_loop 129 st (suspended_head st) delta_ms; tick_end r.

(** The rest of the handler, when the interrupted process runs again; it
    still holds a reference to the process it woke. *)
Definition on_timer_tick_resumed (st : t) (node delta_ms : Z) : outcome (t * tick_result) :=
  p ← (if valid st node then proc st node else Undef);
  next ← link (next_process p);
  r ← tick_loop 129 st next delta_ms; tick_end r.

(** ** Condition variables *)

Definition condition_variable : Type := fixed_pool Z.

(** [wait] up to the switch, with the index of the waiter *)
Definition cv_wait (cv : condition_variable) (st : t) : outcome (condition_variable * t * Z) :=
  match proc_current_pid st with
  | None => Panic
  | Some pid =>
      '(cv, idx) ← pool.emplace_anywhere U16_MAX cv pid;
      st ← proc_block st pid;
      Ret (cv, st, idx)
  end.

(** The rest of [wait]: [ret] is what [proc_block] returned. *)
Definition cv_wait_resumed (cv : condition_variable) (idx ret : Z) : outcome (condition_variable * Z) :=
  if (ret <? 0) && pool.valid U16_MAX cv idx then cv ← pool.erase U16_MAX cv idx; Ret (cv, ret) else Ret (cv, ret).

(** [notify] up to the switch; the entry is erased when the notifier runs
    again. *)
Definition cv_notify (cv : condition_variable) (st : t) (idx : Z) : outcome t :=
  pid ← pool.get U16_MAX cv idx; proc_unblock_and_switch st pid 1.

Definition cv_notified (cv : condition_variable) (idx : Z) : outcome condition_variable := pool.erase U16_MAX cv idx.

(** The loops of [notify_one] and [notify_all] look for the next waiter at or
    after [i]; [None] ends them.  [notify_one] starts at 0 and stops after the
    first one, [notify_all] goes on behind it. *)
Definition cv_next (cv : condition_variable) (i : Z) : option Z :=
  find (fun idx => (i <=? idx) && pool.valid U16_MAX cv idx) (seqZ 0 (pool.watermark cv)).

Definition notify_from (cv : condition_variable) (st : t) (i : Z) : outcome (t * option Z) :=
  match cv_next cv i with
  | None => Ret (st, None)
  | Some idx => st ← cv_notify cv st idx; Ret (st, Some idx)
  end.

Definition notify_one (cv : condition_variable) (st : t) : outcome (t * option Z) := notify_from cv st 0.

(** [notify_all] from the start, and when the notifier runs again after waking [idx] *)
Definition notify_all (cv : condition_variable) (st : t) : outcome (t * option Z) := notify_from cv st 0.
Definition notify_all_resumed (cv : condition_variable) (st : t) (idx : Z) : outcome (condition_variable * t * option Z) :=
  cv ← cv_notified cv idx; '(st, r) ← notify_from cv st (idx + 1); Ret (cv, st, r).

End sched.
