(* ===== verification/SchedFacts.v ===== *)
(** * The process queues and the scheduler

    The intrusive lists are two disjoint sequences of processes; the
    scheduler picks the first process that has waited longest. *)

From S2P Require Import Prelude Pool KernelDefs Sched.
From stdpp Require Import gmap.
#[local] Open Scope Z_scope.

Module queues.
Import kdefs sched.

Implicit Types (m : gmap Z process) (l : list Z) (st : t).

(** ** Linked segments *)

Definition pv m (x : Z) : option Z := m !! x ≫= prev_process.
Definition nx m (x : Z) : option Z := m !! x ≫= next_process.

Fixpoint seg m (prev : Z) (l : list Z) (next : Z) : Prop :=
  match l with
  | [] => True
  | x :: l' => pv m x = Some prev /\ nx m x = Some (hd next l') /\ seg m x l' next
  end.

Lemma seg_ext m m' l : forall prev next, (forall x, x ∈ l -> pv m' x = pv m x /\ nx m' x = nx m x) -> seg m prev l next -> seg m' prev l next.
Proof.
  induction l as [|x l IH]; intros prev next H; [auto|]. intros (Hp & Hn & Hs). destruct (H x) as [E1 E2]; [apply list_elem_of_here|].
  simpl. rewrite E1, E2. split; [exact Hp|]. split; [exact Hn|]. apply IH; [|exact Hs]. intros y Hy. apply H, list_elem_of_further, Hy.
Qed.

Lemma hd_app (d : Z) l1 l2 : hd d (l1 ++ l2) = hd (hd d l2) l1.
Proof. destruct l1; reflexivity. Qed.

Lemma last_default l : forall x prev, List.last l x = List.last (x :: l) prev.
Proof. induction l as [|y l IH]; intros x prev; [reflexivity|]. transitivity (List.last l y); [symmetry; apply IH|exact (IH y prev)]. Qed.

Lemma seg_app m l1 l2 : forall prev next, seg m prev (l1 ++ l2) next <-> seg m prev l1 (hd next l2) /\ seg m (List.last l1 prev) l2 next.
Proof.
  induction l1 as [|x l1 IH]; intros prev next; [simpl; tauto|].
  cbn [app seg]. rewrite IH, hd_app. replace (List.last (x :: l1) prev) with (List.last l1 x); [tauto|].
  apply last_default.
Qed.

Lemma seg_valid m l : forall prev next x, seg m prev l next -> x ∈ l -> is_Some (m !! x).
Proof.
  induction l as [|y l IH]; intros prev next x Hs Hx; [apply elem_of_nil in Hx; destruct Hx|]. destruct Hs as (Hp & _ & Hs).
  apply elem_of_cons in Hx. destruct Hx as [->|Hx]; [|eauto]. unfold pv in Hp. destruct (m !! y); [eauto|discriminate].
Qed.

(** The last link of a segment *)
Lemma seg_snoc m l x prev next : seg m prev (l ++ [x]) next <-> seg m prev l x /\ pv m x = Some (List.last l prev) /\ nx m x = Some next.
Proof. rewrite seg_app. simpl. tauto. Qed.

(** ** Updates of one process *)

(** All of a process but its links *)
Definition core (p : process) : process := mk_process (space_handle p) (file_context p) (suspended p) (terminating p) (exit_status p)
  (unblock_status p) None None (waiting_process p) (last_tick p) (suspension_timeout p) (p_flags p) (kernel_stack_sp p).

Definition same_core m m' : Prop := forall x, core <$> m' !! x = core <$> m !! x.

#[local] Instance same_core_preorder : PreOrder same_core.
Proof. split; [intros m x; reflexivity|]. intros a b c H1 H2 x. rewrite (H2 x). apply H1. Qed.

Lemma same_core_lookup m m' x p : same_core m m' -> m !! x = Some p -> exists p', m' !! x = Some p' /\ core p' = core p.
Proof. intros H Hx. specialize (H x). rewrite Hx in H. simpl in H. destruct (m' !! x) as [p'|]; [|discriminate]. exists p'. split; [reflexivity|]. apply (inj Some). exact H. Qed.

(** Everything of the state but the table and the heads *)
Definition same_rest st st' : Prop := current_pid st' = current_pid st /\ idle_process st' = idle_process st /\ tick_count st' = tick_count st.

#[local] Instance same_rest_preorder : PreOrder same_rest.
Proof. split; [intros st; repeat split|]. intros a b c (?&?&?) (?&?&?). repeat split; congruence. Qed.

Lemma update_ok st m x p f : fpm 128 (processes st) m -> m !! x = Some p ->
  exists v, update st x f = Ret (set_processes st v) /\ fpm 128 v (<[x := f p]> m).
Proof.
  intros Hm Hx. unfold update. destruct (fpm_modify _ _ _ _ _ f Hm Hx) as (v & -> & Hv & _). exists v. split; [reflexivity|exact Hv].
Qed.

Lemma proc_ok st m x p : fpm 128 (processes st) m -> m !! x = Some p -> proc st x = Ret p.
Proof. intros Hm Hx. unfold proc. rewrite (fpm_get _ _ _ _ Hm), Hx. reflexivity. Qed.

Lemma valid_ok st m x : fpm 128 (processes st) m -> valid st x = bool_decide (is_Some (m !! x)).
Proof. intros Hm. unfold valid. rewrite (fpm_valid _ _ _ _ Hm). destruct (m !! x); symmetry; [apply bool_decide_true; eauto|apply bool_decide_false]. intros [? ?]. discriminate. Qed.

Lemma not_END st m x : fpm 128 (processes st) m -> is_Some (m !! x) -> x <> END.
Proof. intros Hm [p Hx] ->. pose proof (fpm_dom_cap _ _ _ _ _ Hm Hx). unfold END, U16_MAX in *. lia. Qed.

Lemma same_core_insert m x p q : m !! x = Some p -> core q = core p -> same_core m (<[x := q]> m).
Proof. intros Hx Hq y. destruct (decide (x = y)) as [<-|]; [rewrite lookup_insert_eq, Hx; simpl; congruence|rewrite lookup_insert_ne by assumption; reflexivity]. Qed.

Lemma pv_insert m x p y : pv (<[x := p]> m) y = if decide (x = y) then prev_process p else pv m y.
Proof. unfold pv. case_decide as H; [subst; rewrite lookup_insert_eq; reflexivity|rewrite lookup_insert_ne by exact H; reflexivity]. Qed.

Lemma nx_insert m x p y : nx (<[x := p]> m) y = if decide (x = y) then next_process p else nx m y.
Proof. unfold nx. case_decide as H; [subst; rewrite lookup_insert_eq; reflexivity|rewrite lookup_insert_ne by exact H; reflexivity]. Qed.

(** An update outside a segment, and one that keeps the links *)
Lemma seg_insert_out m prev l next x p : x ∉ l -> seg m prev l next -> seg (<[x := p]> m) prev l next.
Proof. intros Hx. apply seg_ext. intros y Hy. rewrite pv_insert, nx_insert, !decide_False by (intros ->; auto). auto. Qed.

Lemma seg_insert_core m prev l next x p q : m !! x = Some p -> prev_process q = prev_process p -> next_process q = next_process p ->
  seg m prev l next -> seg (<[x := q]> m) prev l next.
Proof.
  intros Hx H1 H2. apply seg_ext. intros y _. rewrite pv_insert, nx_insert. case_decide as E; [|auto]. subst y. unfold pv, nx. rewrite Hx. auto.
Qed.

(** New neighbours for the ends of a segment *)
Lemma seg_set_first m prev y l next p v : NoDup (y :: l) -> m !! y = Some p -> seg m prev (y :: l) next -> seg (<[y := set_prev v p]> m) v (y :: l) next.
Proof.
  intros Hnd Hy (_ & Hn & Hs). apply NoDup_cons in Hnd. simpl. rewrite pv_insert, nx_insert, !decide_True by reflexivity. split; [reflexivity|].
  split; [unfold nx in Hn; rewrite Hy in Hn; exact Hn|]. apply seg_insert_out; tauto.
Qed.

Lemma seg_set_last m prev y l next p v : NoDup (l ++ [y]) -> m !! y = Some p -> seg m prev (l ++ [y]) next -> seg (<[y := set_next v p]> m) prev (l ++ [y]) v.
Proof.
  intros Hnd Hy. rewrite !seg_snoc. intros (Hs & Hp & _). apply NoDup_app in Hnd. destruct Hnd as (_ & Hd & _).
  split; [apply seg_insert_out; [|exact Hs]; intros Hin; apply (Hd y Hin), list_elem_of_here|].
  rewrite pv_insert, nx_insert, !decide_True by reflexivity. unfold pv in Hp. rewrite Hy in Hp. auto.
Qed.

(** ** Putting a process on a queue *)

Definition other (q : queue_ptr) : queue_ptr := match q with Running => Suspended | Suspended => Running end.

(** The outcome of a queue operation: [l'] is the queue [q] now, only links
    changed, and only those of the processes in [touched]. *)
Definition relinked st m q st' m' (l' touched : list Z) : Prop :=
  fpm 128 (processes st') m' /\ seg m' END l' END /\ head q st' = hd END l' /\ head (other q) st' = head (other q) st /\
  same_rest st st' /\ same_core m m' /\ forall y, y ∉ touched -> m' !! y = m !! y.

Lemma enqueue_front_ok st m q l x p : fpm 128 (processes st) m -> seg m END l END -> head q st = hd END l -> NoDup l -> m !! x = Some p -> x ∉ l ->
  exists st' m', enqueue_front st x q = Ret st' /\ relinked st m q st' m' (x :: l) (x :: l).
Proof.
  intros Hm Hs Hh Hnd Hx Hni. unfold enqueue_front.
  assert (exists v m1, (if negb (head q st =? END) then update st (head q st) (set_prev x) else Ret st) = Ret (set_processes st v) /\
    fpm 128 v m1 /\ seg m1 x l END /\ same_core m m1 /\ m1 !! x = Some p /\ (forall y, y ∉ l -> m1 !! y = m !! y)) as (v & m1 & -> & Hm1 & Hs1 & Hc1 & Hx1 & Hy1).
  { rewrite Hh. destruct l as [|y l]; simpl.
    - exists (processes st), m. split; [destruct st; reflexivity|]. repeat (split; [first [assumption|reflexivity]|]). auto.
    - destruct (seg_valid _ _ _ _ y Hs) as [py Hpy]; [apply list_elem_of_here|].
      rewrite (proj2 (Z.eqb_neq _ _)) by (eapply not_END; eauto). simpl.
      destruct (update_ok st m y py (set_prev x) Hm Hpy) as (v & -> & Hv). exists v, (<[y := set_prev x py]> m). split; [reflexivity|]. split; [exact Hv|].
      split; [apply (seg_set_first m END); assumption|]. split; [apply (same_core_insert _ _ py); auto|].
      split; [rewrite lookup_insert_ne by (intros ->; apply Hni, list_elem_of_here); exact Hx|].
      intros z Hz. rewrite lookup_insert_ne; [reflexivity|]. intros ->. apply Hz, list_elem_of_here. }
  rewrite mbind_Ret. set (st1 := set_processes st v). assert (head q st1 = hd END l) as Hh1 by (destruct q; exact Hh).
  destruct (update_ok st1 m1 x p (set_next (head q st1)) Hm1 Hx1) as (v2 & -> & Hv2). rewrite mbind_Ret.
  destruct (update_ok (set_processes st1 v2) _ x (set_next (head q st1) p) (set_prev END) Hv2 (lookup_insert_eq _ _ _)) as (v3 & -> & Hv3). rewrite mbind_Ret.
  eexists _, _. split; [reflexivity|]. rewrite insert_insert_eq in Hv3. split; [destruct q; exact Hv3|].
  split; [|split; [destruct q; reflexivity|]].
  - simpl. rewrite pv_insert, nx_insert, !decide_True by reflexivity. split; [reflexivity|]. split; [cbn; congruence|]. apply seg_insert_out; assumption.
  - split; [destruct q; reflexivity|]. split; [destruct q; repeat split|]. split; [etrans; [exact Hc1|]; apply (same_core_insert _ _ p); auto|].
    intros y Hy. rewrite lookup_insert_ne by (intros ->; apply Hy, list_elem_of_here). apply Hy1. intros Hin. apply Hy, list_elem_of_further, Hin.
Qed.

(** ** Taking a process off a queue *)

Lemma NoDup_middle (l1 l2 : list Z) x : NoDup (l1 ++ x :: l2) -> NoDup l1 /\ NoDup l2 /\ (x ∉ l1) /\ (x ∉ l2) /\ NoDup (l1 ++ l2) /\ forall y, y ∈ l1 -> y ∉ l2.
Proof.
  intros H. apply NoDup_app in H. destruct H as (H1 & Hd & H2). apply NoDup_cons in H2. destruct H2 as [Hx H2].
  assert (forall y, y ∈ l1 -> y ∉ l2) as Hd' by (intros y Hy Hy2; apply (Hd y Hy), list_elem_of_further, Hy2).
  split; [exact H1|]. split; [exact H2|]. split; [intros Hin; apply (Hd x Hin), list_elem_of_here|]. split; [exact Hx|].
  split; [|exact Hd']. apply NoDup_app. auto.
Qed.

Lemma dequeue_ok st m q l1 l2 x p : fpm 128 (processes st) m -> seg m END (l1 ++ x :: l2) END -> head q st = hd END (l1 ++ x :: l2) ->
  NoDup (l1 ++ x :: l2) -> m !! x = Some p ->
  exists st' m', dequeue st x q = Ret st' /\ relinked st m q st' m' (l1 ++ l2) (l1 ++ l2) /\ m' !! x = Some p.
Proof.
  intros Hm Hs Hh Hnd Hx. apply NoDup_middle in Hnd. destruct Hnd as (Hn1 & Hn2 & Hx1 & Hx2 & Hn12 & Hd12).
  apply seg_app in Hs. destruct Hs as [Hs1 (Hpx & Hnxx & Hs2)]. simpl in Hs1, Hpx, Hnxx. unfold pv, nx in Hpx, Hnxx. rewrite Hx in Hpx, Hnxx. simpl in Hpx, Hnxx.
  unfold dequeue. rewrite (proc_ok _ _ _ _ Hm Hx), mbind_Ret, Hpx. cbn [link]. rewrite mbind_Ret, Hnxx. cbn [link].
  assert (exists v m1, (if negb (List.last l1 END =? END) then next ← Ret (hd END l2); update st (List.last l1 END) (set_next next) else Ret st) = Ret (set_processes st v) /\
    fpm 128 v m1 /\ seg m1 END l1 (hd END l2) /\ seg m1 x l2 END /\ same_core m m1 /\ m1 !! x = Some p /\ (forall y, y ∉ l1 -> m1 !! y = m !! y))
    as (v & m1 & -> & Hm1 & Hs11 & Hs12 & Hc1 & Hx1' & Hy1).
  { destruct l1 as [|y l1 _] using rev_ind.
    - exists (processes st), m. simpl. split; [destruct st; reflexivity|]. repeat (split; [first [assumption|reflexivity]|]). auto.
    - rewrite last_last. destruct (seg_valid _ _ _ _ y Hs1) as [py Hpy]; [apply elem_of_app; right; apply list_elem_of_here|].
      rewrite (proj2 (Z.eqb_neq _ _)) by (eapply not_END; eauto). cbn [negb]. rewrite mbind_Ret.
      destruct (update_ok st m y py (set_next (hd END l2)) Hm Hpy) as (v & -> & Hv). exists v, (<[y := set_next (hd END l2) py]> m).
      assert (y ∈ l1 ++ [y]) as Hyin by (apply elem_of_app; right; apply list_elem_of_here).
      split; [reflexivity|]. split; [exact Hv|]. split; [apply (seg_set_last m END y l1 x); assumption|].
      split; [apply seg_insert_out; [apply Hd12, Hyin|exact Hs2]|].
      split; [apply (same_core_insert _ _ py); auto|]. split; [rewrite lookup_insert_ne; [exact Hx|intros ->; exact (Hx1 Hyin)]|].
      intros z Hz. rewrite lookup_insert_ne; [reflexivity|]. intros ->. exact (Hz Hyin). }
  rewrite mbind_Ret, (proc_ok (set_processes st v) m1 x p Hm1 Hx1'), mbind_Ret, Hnxx. cbn [link]. rewrite mbind_Ret, Hpx. cbn [link].
  set (st1 := set_processes st v).
  assert (exists w m2, (if negb (hd END l2 =? END) then prev ← Ret (List.last l1 END); update st1 (hd END l2) (set_prev prev) else Ret st1) = Ret (set_processes st w) /\
    fpm 128 w m2 /\ seg m2 END l1 (hd END l2) /\ seg m2 (List.last l1 END) l2 END /\ same_core m m2 /\ m2 !! x = Some p /\ (forall y, y ∉ l1 ++ l2 -> m2 !! y = m !! y))
    as (w & m2 & -> & Hm2 & Hs21 & Hs22 & Hc2 & Hx2' & Hy2).
  { destruct l2 as [|z l2].
    - exists v, m1. simpl. rewrite app_nil_r. repeat (split; [first [assumption|reflexivity]|]). exact Hy1.
    - cbn [hd]. destruct (seg_valid _ _ _ _ z Hs12) as [pz Hpz]; [apply list_elem_of_here|].
      rewrite (proj2 (Z.eqb_neq _ _)) by (eapply (not_END st1); eauto). cbn [negb]. rewrite mbind_Ret.
      destruct (update_ok st1 m1 z pz (set_prev (List.last l1 END)) Hm1 Hpz) as (w & -> & Hw). exists w, (<[z := set_prev (List.last l1 END) pz]> m1).
      split; [reflexivity|]. split; [exact Hw|].
      split; [apply seg_insert_out; [intros Hin; apply (Hd12 z Hin), list_elem_of_here|exact Hs11]|].
      split; [apply (seg_set_first m1 x); assumption|]. split; [etrans; [exact Hc1|]; apply (same_core_insert _ _ pz); auto|].
      split; [rewrite lookup_insert_ne; [exact Hx1'|intros ->; apply Hx2, list_elem_of_here]|].
      intros y Hy. rewrite elem_of_app in Hy. rewrite lookup_insert_ne; [apply Hy1; tauto|]. intros ->. apply Hy. right. apply list_elem_of_here. }
  rewrite mbind_Ret. set (st2 := set_processes st w). assert (head q st2 = hd END (l1 ++ x :: l2)) as Hh2 by (destruct q; exact Hh).
  assert (seg m2 END (l1 ++ l2) END) as Hs by (apply seg_app; auto).
  rewrite Hh2. destruct l1 as [|y l1]; cbn [app hd].
  - rewrite Z.eqb_refl, (proc_ok st2 m2 x p Hm2 Hx2'), mbind_Ret, Hnxx. cbn [link]. rewrite mbind_Ret. eexists _, m2. split; [reflexivity|].
    split; [|exact Hx2']. unfold relinked. destruct q; repeat (split; [first [assumption|reflexivity|repeat split]|]); exact Hy2.
  - rewrite (proj2 (Z.eqb_neq y x)) by (intros ->; apply Hx1, list_elem_of_here). eexists _, m2. split; [reflexivity|].
    split; [|exact Hx2']. unfold relinked. destruct q; repeat (split; [first [assumption|reflexivity|repeat split]|]); exact Hy2.
Qed.

(** ** The abstract scheduler: a table of processes without links and two sequences *)

Record astate := mk_a { a_procs : gmap Z process; a_run : list Z; a_susp : list Z; a_current : Z; a_idle : Z; a_ticks : Z }.
Implicit Type a : astate.

Definition without (x : Z) (l : list Z) : list Z := filter (fun y => y <> x) l.
Definition a_set a (x : Z) (f : process -> process) : gmap Z process := alter f x (a_procs a).

Definition a_enqueue a (x : Z) : astate := mk_a (a_procs a) (x :: a_run a) (a_susp a) (a_current a) (a_idle a) (a_ticks a).
Definition a_suspend a (x : Z) : astate :=
  if decide (x ∈ a_run a) then mk_a (a_set a x (set_suspended true)) (without x (a_run a)) (x :: a_susp a) (a_current a) (a_idle a) (a_ticks a) else a.
Definition a_resume a (x : Z) : astate :=
  if decide (x ∈ a_susp a) then mk_a (a_set a x (set_suspended false)) (x :: a_run a) (without x (a_susp a)) (a_current a) (a_idle a) (a_ticks a) else a.
Definition a_update a (x : Z) (f : process -> process) : astate := mk_a (a_set a x f) (a_run a) (a_susp a) (a_current a) (a_idle a) (a_ticks a).
Definition a_kill a (x status : Z) : astate :=
  let a1 := mk_a (a_set a x (set_exited (to_i32 status))) (without x (a_run a)) (without x (a_susp a)) (a_current a) (a_idle a) (a_ticks a) in
  match a_procs a !! x ≫= waiting_process with Some w => a_resume a1 w | None => a1 end.

(** The process to run: the first one whose tick is the smallest *)
Definition tick_of (ps : gmap Z process) (x : Z) : Z := default 0 (last_tick <$> ps !! x).
Fixpoint pick (tick : Z -> Z) (l : list Z) : option Z :=
  match l with
  | [] => None
  | x :: l' => match pick tick l' with Some y => if tick y <? tick x then Some y else Some x | None => Some x end
  end.
Definition a_decide a : Z := default (a_idle a) (pick (tick_of (a_procs a)) (a_run a)).

Definition a_switch a (x : Z) : astate :=
  mk_a (a_set a x (set_tick (a_ticks a))) (a_run a) (a_susp a) x (a_idle a) (a_ticks a).
Definition a_tick a : astate :=
  mk_a (a_set a (a_current a) (set_tick (a_ticks a + 1))) (a_run a) (a_susp a) (a_current a) (a_idle a) (a_ticks a + 1).
Definition a_yield a : astate := a_switch (a_tick a) (a_decide (a_tick a)).

(** ** The relation *)

Record inv st m (R S : list Z) : Prop := {
  inv_map : fpm 128 (processes st) m;
  inv_run : seg m END R END /\ running_head st = hd END R;
  inv_susp : seg m END S END /\ suspended_head st = hd END S;
  inv_nodup : NoDup (R ++ S);
  inv_run_flags : forall x p, x ∈ R -> m !! x = Some p -> suspended p = false /\ terminating p = false;
  inv_susp_flags : forall x p, x ∈ S -> m !! x = Some p -> suspended p = true /\ terminating p = false
}.

Definition implements st a : Prop :=
  exists m, inv st m (a_run a) (a_susp a) /\ a_procs a = core <$> m /\
    current_pid st = a_current a /\ idle_process st = a_idle a /\ tick_count st = a_ticks a.

(** A relinked state has the same processes. *)
Lemma same_core_eq m m' : same_core m m' <-> core <$> m' = core <$> m.
Proof. split; [intros H; apply map_eq; intros x; rewrite !lookup_fmap; apply H|]. intros H x. rewrite <-!lookup_fmap, H. reflexivity. Qed.

Lemma core_flags p q : core p = core q -> suspended p = suspended q /\ terminating p = terminating q /\ last_tick p = last_tick q /\ waiting_process p = waiting_process q.
Proof. intros H. injection H. auto. Qed.

Lemma same_core_flags m m' x p' : same_core m m' -> m' !! x = Some p' -> exists p, m !! x = Some p /\ core p' = core p.
Proof. intros H Hx. specialize (H x). rewrite Hx in H. simpl in H. destruct (m !! x) as [p|]; [|discriminate]. exists p. split; [reflexivity|]. apply (inj Some). exact H. Qed.

Lemma without_split l1 l2 x : x ∉ l1 -> x ∉ l2 -> without x (l1 ++ x :: l2) = l1 ++ l2.
Proof.
  intros H1 H2. assert (forall l, x ∉ l -> without x l = l) as Hid.
  { induction l as [|y l IH]; intros Hl; [reflexivity|]. unfold without in *. rewrite filter_cons_True by (intros ->; apply Hl, list_elem_of_here).
    f_equal. apply IH. intros Hin. apply Hl, list_elem_of_further, Hin. }
  unfold without in *. rewrite filter_app, filter_cons_False by (intros H; exact (H eq_refl)). rewrite !Hid by assumption. reflexivity.
Qed.

Lemma without_not_in l x : x ∉ l -> without x l = l.
Proof. intros H. pose proof (without_split l [] x H (not_elem_of_nil x)) as E. unfold without in *. rewrite filter_app, filter_cons_False, filter_nil, app_nil_r in E by (intros E'; exact (E' eq_refl)). rewrite E. apply app_nil_r. Qed.

(** ** The operations *)

(** A change of a process that leaves its links alone *)
Definition link_free (f : process -> process) : Prop :=
  forall p, core (f p) = f (core p) /\ prev_process (f p) = prev_process p /\ next_process (f p) = next_process p.

Lemma core_insert m x p f : link_free f -> m !! x = Some p -> core <$> <[x := f p]> m = alter f x (core <$> m).
Proof.
  intros Hf Hx. rewrite fmap_insert, (proj1 (Hf p)). apply map_eq. intros y. destruct (decide (x = y)) as [<-|Hne].
  - rewrite lookup_insert_eq, lookup_alter_eq, lookup_fmap, Hx. reflexivity.
  - rewrite lookup_insert_ne, lookup_alter_ne by assumption. reflexivity.
Qed.

Lemma head_processes q st v : head q (set_processes st v) = head q st.
Proof. destruct q; reflexivity. Qed.

(** From one queue to the front of the other *)
Lemma move_ok st m q l1 l2 l' x p f : fpm 128 (processes st) m -> seg m END (l1 ++ x :: l2) END -> head q st = hd END (l1 ++ x :: l2) ->
  seg m END l' END -> head (other q) st = hd END l' -> NoDup ((l1 ++ x :: l2) ++ l') -> m !! x = Some p -> link_free f ->
  exists st' m', (st ← dequeue st x q; st ← enqueue_front st x (other q); update st x f) = Ret st' /\ fpm 128 (processes st') m' /\
    seg m' END (l1 ++ l2) END /\ head q st' = hd END (l1 ++ l2) /\ seg m' END (x :: l') END /\ head (other q) st' = x /\
    same_rest st st' /\ core <$> m' = alter f x (core <$> m).
Proof.
  intros Hm Hs Hh Hs' Hh' Hnd Hx Hf. apply NoDup_app in Hnd. destruct Hnd as (Hnd & Hd & Hnd').
  assert (x ∉ l') as Hxl' by (apply Hd, elem_of_app; right; apply list_elem_of_here).
  assert (forall y, y ∈ l1 ++ l2 -> y ∉ l') as Hd12.
  { intros y Hy. apply Hd. rewrite elem_of_app in *. destruct Hy; [auto|right; apply list_elem_of_further; assumption]. }
  destruct (dequeue_ok st m q l1 l2 x p Hm Hs Hh Hnd Hx) as (st1 & m1 & -> & (Hm1 & Hs1 & Hh1 & Ho1 & Hr1 & Hc1 & Hy1) & Hx1). rewrite mbind_Ret.
  assert (seg m1 END l' END) as Hs1'.
  { eapply seg_ext; [|exact Hs']. intros y Hy. unfold pv, nx. rewrite (Hy1 y); [auto|]. intros Hin. exact (Hd12 y Hin Hy). }
  destruct (enqueue_front_ok st1 m1 (other q) l' x p Hm1 Hs1' ltac:(congruence) Hnd' Hx1 Hxl') as (st2 & m2 & -> & (Hm2 & Hs2 & Hh2 & Ho2 & Hr2 & Hc2 & Hy2)). rewrite mbind_Ret.
  destruct (same_core_lookup _ _ _ _ Hc2 Hx1) as (p2 & Hp2 & Hcp2).
  apply NoDup_middle in Hnd. destruct Hnd as (_ & _ & Hxl1 & Hxl2 & _ & _).
  assert (seg m2 END (l1 ++ l2) END) as Hs2'.
  { eapply seg_ext; [|exact Hs1]. intros y Hy. unfold pv, nx. rewrite (Hy2 y); [auto|]. rewrite elem_of_cons. intros [->|Hin]; [|exact (Hd12 y Hy Hin)].
    apply elem_of_app in Hy. tauto. }
  destruct (update_ok st2 m2 x p2 f Hm2 Hp2) as (v & -> & Hv). exists (set_processes st2 v), (<[x := f p2]> m2). split; [reflexivity|]. split; [exact Hv|].
  destruct (Hf p2) as (_ & F1 & F2). split; [apply (seg_insert_core _ _ _ _ _ p2); assumption|].
  rewrite !head_processes. split; [destruct q; exact (eq_trans Ho2 Hh1)|]. split; [apply (seg_insert_core _ _ _ _ _ p2); assumption|]. split; [exact Hh2|].
  split; [etrans; [exact Hr1|exact Hr2]|]. rewrite (core_insert _ _ _ _ Hf Hp2). f_equal. apply same_core_eq in Hc1, Hc2. congruence.
Qed.

Lemma link_free_suspended b : link_free (set_suspended b).
Proof. intros p. auto. Qed.

(** Flags under a change of one process *)
Lemma alter_core_flags m m' x f y p' : core <$> m' = alter f x (core <$> m) -> link_free f -> m' !! y = Some p' ->
  exists p, m !! y = Some p /\ core p' = core (if decide (y = x) then f p else p).
Proof.
  intros E Hf Hy. assert (core <$> m' !! y = alter f x (core <$> m) !! y) as H by (rewrite <-lookup_fmap, E; reflexivity).
  rewrite Hy in H. case_decide as Hd.
  - subst y. rewrite lookup_alter_eq, lookup_fmap in H. destruct (m !! x) as [p|]; [|discriminate]. exists p. split; [reflexivity|].
    rewrite (proj1 (Hf p)). apply (inj Some). exact H.
  - rewrite lookup_alter_ne, lookup_fmap in H by congruence. destruct (m !! y) as [p|]; [|discriminate]. exists p. split; [reflexivity|].
    apply (inj Some). exact H.
Qed.

Lemma elem_split l x : x ∈ l -> exists l1 l2, l = l1 ++ x :: l2.
Proof. apply list_elem_of_split. Qed.

(** The invariant from the side of one queue *)
Definition flag (q : queue_ptr) : bool := match q with Running => false | Suspended => true end.

Record qinv st m q (l l' : list Z) : Prop := {
  q_map : fpm 128 (processes st) m;
  q_seg : seg m END l END /\ head q st = hd END l;
  q_seg' : seg m END l' END /\ head (other q) st = hd END l';
  q_nodup : NoDup (l ++ l');
  q_flags : forall x p, x ∈ l -> m !! x = Some p -> suspended p = flag q /\ terminating p = false;
  q_flags' : forall x p, x ∈ l' -> m !! x = Some p -> suspended p = flag (other q) /\ terminating p = false
}.

Lemma inv_q st m q R S : inv st m R S <-> qinv st m q (match q with Running => R | Suspended => S end) (match q with Running => S | Suspended => R end).
Proof.
  destruct q; (split; intros []; constructor; simpl in *; auto); rewrite Permutation_app_comm; assumption.
Qed.

Lemma qinv_move st m q l1 l2 l' x : qinv st m q (l1 ++ x :: l2) l' ->
  exists st' m', (st ← dequeue st x q; st ← enqueue_front st x (other q); update st x (set_suspended (flag (other q)))) = Ret st' /\
    qinv st' m' q (l1 ++ l2) (x :: l') /\ same_rest st st' /\ core <$> m' = alter (set_suspended (flag (other q))) x (core <$> m).
Proof.
  intros [Hm [Hs Hh] [Hs' Hh'] Hnd Hf Hf']. assert (x ∈ l1 ++ x :: l2) as Hin by (apply elem_of_app; right; apply list_elem_of_here).
  destruct (seg_valid _ _ _ _ x Hs Hin) as [p Hx]. pose proof (link_free_suspended (flag (other q))) as Hlf.
  destruct (move_ok st m q l1 l2 l' x p (set_suspended (flag (other q))) Hm Hs Hh Hs' Hh' Hnd Hx Hlf) as (st' & m' & E & Hm' & Hs1 & Hh1 & Hs2 & Hh2 & Hr & Hc).
  exists st', m'. split; [exact E|]. split; [|split; assumption].
  apply NoDup_app in Hnd. destruct Hnd as (Hn1 & Hn2 & Hn3). pose proof (NoDup_middle _ _ _ Hn1) as (_ & _ & Hx1 & Hx2 & Hn12 & _).
  assert (x ∉ l1 ++ l2) as Hx12 by (rewrite elem_of_app; tauto).
  assert (forall y, y ∈ l1 ++ l2 -> y ∈ l1 ++ x :: l2) as Hsub by (intros y; rewrite !elem_of_app, elem_of_cons; tauto).
  constructor; try assumption; try (split; assumption).
  - apply NoDup_app. split; [exact Hn12|]. split; [|constructor; [apply Hn2, Hin|exact Hn3]].
    intros y Hy. rewrite elem_of_cons. intros [->|Hy']; [exact (Hx12 Hy)|]. exact (Hn2 y (Hsub y Hy) Hy').
  - intros y p' Hy Hy'. destruct (alter_core_flags _ _ _ _ _ _ Hc Hlf Hy') as (r & Hr' & Hcr). apply core_flags in Hcr.
    rewrite decide_False in Hcr by (intros ->; exact (Hx12 Hy)). destruct (Hf y r (Hsub y Hy) Hr'). destruct Hcr as (? & ? & _). split; congruence.
  - intros y p' Hy Hy'. destruct (alter_core_flags _ _ _ _ _ _ Hc Hlf Hy') as (r & Hr' & Hcr). apply core_flags in Hcr. destruct Hcr as (C1 & C2 & _).
    case_decide as Hd.
    + subst y. destruct (Hf x r Hin Hr'). cbn in C1, C2. split; congruence.
    + apply elem_of_cons in Hy. destruct Hy as [->|Hy]; [congruence|]. destruct (Hf' y r Hy Hr'). split; congruence.
Qed.

Lemma implements_intro st st' a m m' R S ps : same_rest st st' -> inv st' m' R S -> core <$> m' = ps ->
  current_pid st = a_current a -> idle_process st = a_idle a -> tick_count st = a_ticks a ->
  implements st' (mk_a ps R S (a_current a) (a_idle a) (a_ticks a)).
Proof. intros (H1 & H2 & H3) Hinv <- ? ? ?. exists m'. split; [exact Hinv|]. cbn. repeat split; congruence. Qed.

Lemma suspend_refines st a x : implements st a -> x ∈ a_run a \/ x ∈ a_susp a ->
  exists st', proc_suspend st x = Ret st' /\ implements st' (a_suspend a x).
Proof.
  intros (m & Hinv & Hp & Hcur & Hidle & Htick) Hin. pose proof (proj1 (inv_q _ _ Running _ _) Hinv) as Hq. destruct Hinv as [Hm [HsR HhR] [HsS HhS] Hnd HfR HfS].
  unfold proc_suspend, a_suspend. destruct (decide (x ∈ a_run a)) as [HR|HR].
  - destruct (seg_valid _ _ _ _ x HsR HR) as [p Hx]. rewrite (proc_ok _ _ _ _ Hm Hx), mbind_Ret, (proj1 (HfR x p HR Hx)).
    destruct (list_elem_of_split _ _ HR) as (l1 & l2 & E). rewrite E in *.
    destruct (qinv_move st m Running l1 l2 (a_susp a) x Hq) as (st' & m' & E' & Hq' & Hr & Hc). exists st'. split; [exact E'|].
    apply NoDup_app in Hnd. pose proof (NoDup_middle _ _ _ (proj1 Hnd)) as (_ & _ & Hx1 & Hx2 & _). rewrite without_split by assumption.
    apply (implements_intro st st' a m m'); try assumption; [|unfold a_set; rewrite Hp; exact Hc]. exact (proj2 (inv_q _ _ Running _ _) Hq').
  - destruct Hin as [Hin|Hin]; [contradiction|]. destruct (seg_valid _ _ _ _ x HsS Hin) as [p Hx].
    rewrite (proc_ok _ _ _ _ Hm Hx), mbind_Ret, (proj1 (HfS x p Hin Hx)). exists st. split; [reflexivity|]. exists m. split; [constructor; auto|auto].
Qed.

Lemma resume_refines st a x p : implements st a -> a_procs a !! x = Some p -> x ∈ a_susp a \/ suspended p = false ->
  exists st', proc_resume st x = Ret st' /\ implements st' (a_resume a x).
Proof.
  intros (m & Hinv & Hp & Hcur & Hidle & Htick) Hpx Hin. pose proof (proj1 (inv_q _ _ Suspended _ _) Hinv) as Hq. destruct Hinv as [Hm [HsR HhR] [HsS HhS] Hnd HfR HfS].
  rewrite Hp, lookup_fmap in Hpx. destruct (m !! x) as [px|] eqn:Hx; [|discriminate]. injection Hpx as Hpx.
  unfold proc_resume, a_resume. rewrite (proc_ok _ _ _ _ Hm Hx), mbind_Ret. destruct (decide (x ∈ a_susp a)) as [HS|HS].
  - rewrite (proj1 (HfS x px HS Hx)). destruct (list_elem_of_split _ _ HS) as (l1 & l2 & E). rewrite E in *.
    destruct (qinv_move st m Suspended l1 l2 (a_run a) x Hq) as (st' & m' & E' & Hq' & Hr & Hc). exists st'. split; [exact E'|].
    apply NoDup_app in Hnd. pose proof (NoDup_middle _ _ _ (proj2 (proj2 Hnd))) as (_ & _ & Hx1 & Hx2 & _). rewrite without_split by assumption.
    apply (implements_intro st st' a m m'); try assumption; [|unfold a_set; rewrite Hp; exact Hc]. exact (proj2 (inv_q _ _ Suspended _ _) Hq').
  - destruct Hin as [Hin|Hin]; [contradiction|]. replace (suspended px) with false by (rewrite <-Hin, <-Hpx; reflexivity). exists st. split; [reflexivity|].
    exists m. split; [constructor; auto|auto].
Qed.

Lemma enqueue_refines st a x p : implements st a -> a_procs a !! x = Some p -> x ∉ a_run a -> x ∉ a_susp a -> suspended p = false -> terminating p = false ->
  exists st', proc_enqueue st x = Ret st' /\ implements st' (a_enqueue a x).
Proof.
  intros (m & [Hm [HsR HhR] [HsS HhS] Hnd HfR HfS] & Hp & Hcur & Hidle & Htick) Hpx HR HS Hsu Hte.
  rewrite Hp, lookup_fmap in Hpx. destruct (m !! x) as [px|] eqn:Hx; [|discriminate]. apply (inj Some) in Hpx.
  apply NoDup_app in Hnd. destruct Hnd as (Hn1 & Hn2 & Hn3).
  destruct (enqueue_front_ok st m Running (a_run a) x px Hm HsR HhR Hn1 Hx HR) as (st' & m' & E & (Hm' & Hs' & Hh' & Ho' & Hr & Hc & Hy)).
  exists st'. split; [exact E|]. apply (implements_intro st st' a m m'); try assumption; [|rewrite Hp; apply same_core_eq, Hc].
  constructor; try assumption.
  - split; assumption.
  - split; [|exact (eq_trans Ho' HhS)]. eapply seg_ext; [|exact HsS]. intros y Hin. unfold pv, nx. rewrite (Hy y); [auto|]. rewrite elem_of_cons. intros [->|HyR]; [exact (HS Hin)|].
    exact (Hn2 y HyR Hin).
  - simpl. constructor; [rewrite elem_of_app; tauto|]. apply NoDup_app. auto.
  - intros y q Hin Hq. destruct (same_core_flags _ _ _ _ Hc Hq) as (q0 & Hq0 & Hcq). apply core_flags in Hcq. destruct Hcq as (C1 & C2 & _).
    apply elem_of_cons in Hin. destruct Hin as [->|Hin]; [|destruct (HfR y q0 Hin Hq0); split; congruence].
    replace q0 with px in * by congruence. subst p. cbn in Hsu, Hte. split; congruence.
  - intros y q Hin Hq. destruct (same_core_flags _ _ _ _ Hc Hq) as (q0 & Hq0 & Hcq). apply core_flags in Hcq. destruct Hcq as (C1 & C2 & _).
    destruct (HfS y q0 Hin Hq0). split; congruence.
Qed.

(** A change of one process that keeps its links and the flags the queues rely on *)
Definition flag_free (f : process -> process) : Prop :=
  link_free f /\ forall p, suspended (f p) = suspended p /\ terminating (f p) = terminating p.

Lemma update_refines st a x p f : implements st a -> a_procs a !! x = Some p -> flag_free f ->
  exists st', update st x f = Ret st' /\ implements st' (a_update a x f).
Proof.
  intros (m & [Hm [HsR HhR] [HsS HhS] Hnd HfR HfS] & Hp & Hcur & Hidle & Htick) Hpx [Hf Hff].
  rewrite Hp, lookup_fmap in Hpx. destruct (m !! x) as [px|] eqn:Hx; [|discriminate]. destruct (update_ok st m x px f Hm Hx) as (v & E & Hv).
  exists (set_processes st v). split; [exact E|]. pose proof (core_insert m x px f Hf Hx) as Hc. destruct (Hf px) as (_ & F1 & F2).
  assert (forall y q, <[x := f px]> m !! y = Some q -> exists q0, m !! y = Some q0 /\ suspended q = suspended q0 /\ terminating q = terminating q0) as Hold.
  { intros y q Hq. apply lookup_insert_Some in Hq. destruct Hq as [[<- <-]|[_ Hq]]; [|eauto]. exists px. destruct (Hff px). auto. }
  apply (implements_intro st _ a m (<[x := f px]> m)); try assumption; [repeat split| |unfold a_set; rewrite Hp; exact Hc].
  constructor; try assumption; try (split; [apply (seg_insert_core _ _ _ _ _ px); assumption|assumption]).
  - intros y q Hin Hq. destruct (Hold y q Hq) as (q0 & Hq0 & -> & ->). eauto.
  - intros y q Hin Hq. destruct (Hold y q Hq) as (q0 & Hq0 & -> & ->). eauto.
Qed.

(** Removing a queued process and marking it as exited *)
Lemma qinv_exit st m q l1 l2 l' x status : qinv st m q (l1 ++ x :: l2) l' ->
  exists st' m', (st ← dequeue st x q; update st x (set_exited status)) = Ret st' /\ qinv st' m' q (l1 ++ l2) l' /\ same_rest st st' /\
    core <$> m' = alter (set_exited status) x (core <$> m).
Proof.
  intros [Hm [Hs Hh] [Hs' Hh'] Hnd Hf Hf']. assert (x ∈ l1 ++ x :: l2) as Hin by (apply elem_of_app; right; apply list_elem_of_here).
  destruct (seg_valid _ _ _ _ x Hs Hin) as [p Hx]. apply NoDup_app in Hnd. destruct Hnd as (Hn1 & Hn2 & Hn3).
  destruct (dequeue_ok st m q l1 l2 x p Hm Hs Hh Hn1 Hx) as (st1 & m1 & -> & (Hm1 & Hs1 & Hh1 & Ho1 & Hr1 & Hc1 & Hy1) & Hx1). rewrite mbind_Ret.
  pose proof (NoDup_middle _ _ _ Hn1) as (_ & _ & Hxl1 & Hxl2 & Hn12 & _).
  destruct (update_ok st1 m1 x p (set_exited status) Hm1 Hx1) as (v & -> & Hv). exists (set_processes st1 v), (<[x := set_exited status p]> m1).
  assert (link_free (set_exited status)) as Hlf by (intros r; auto).
  assert (core <$> <[x := set_exited status p]> m1 = alter (set_exited status) x (core <$> m)) as Hc by (rewrite (core_insert _ _ _ _ Hlf Hx1); f_equal; apply same_core_eq, Hc1).
  assert (x ∉ l1 ++ l2) as Hx12 by (rewrite elem_of_app; tauto). assert (x ∉ l') as Hx' by (apply Hn2, Hin).
  assert (forall y, y ∈ l1 ++ l2 -> y ∈ l1 ++ x :: l2) as Hsub by (intros y; rewrite !elem_of_app, elem_of_cons; tauto).
  split; [reflexivity|]. split; [|split; [exact Hr1|exact Hc]]. constructor; rewrite ?head_processes.
  - exact Hv.
  - split; [apply seg_insert_out; assumption|exact Hh1].
  - split; [|congruence]. apply seg_insert_out; [exact Hx'|]. eapply seg_ext; [|exact Hs']. intros y Hy. unfold pv, nx. rewrite (Hy1 y); [auto|].
    intros Hy12. exact (Hn2 y (Hsub y Hy12) Hy).
  - apply NoDup_app. split; [exact Hn12|]. split; [|exact Hn3]. intros y Hy. apply Hn2, Hsub, Hy.
  - intros y r Hy Hr. destruct (alter_core_flags _ _ _ _ _ _ Hc Hlf Hr) as (r0 & Hr0 & Hcr). apply core_flags in Hcr.
    rewrite decide_False in Hcr by (intros ->; exact (Hx12 Hy)). destruct (Hf y r0 (Hsub y Hy) Hr0). destruct Hcr as (? & ? & _). split; congruence.
  - intros y r Hy Hr. destruct (alter_core_flags _ _ _ _ _ _ Hc Hlf Hr) as (r0 & Hr0 & Hcr). apply core_flags in Hcr.
    rewrite decide_False in Hcr by (intros ->; exact (Hx' Hy)). destruct (Hf' y r0 Hy Hr0). destruct Hcr as (? & ? & _). split; congruence.
Qed.

(** Who waits for the process must still be able to run. *)
Definition waiter_ok a (x : Z) : Prop :=
  forall w, (a_procs a !! x ≫= waiting_process) = Some w -> w <> x /\ exists p, a_procs a !! w = Some p /\ (w ∈ a_susp a \/ suspended p = false).

Lemma kill_refines st a x status : implements st a -> x <> a_idle a -> x ∈ a_run a \/ x ∈ a_susp a -> waiter_ok a x ->
  exists st', proc_kill st x status = Ret st' /\ implements st' (a_kill a x status).
Proof.
  intros (m & Hinv & Hp & Hcur & Hidle & Htick) Hni Hin Hw.
  assert (exists q p, x ∈ (match q with Running => a_run a | Suspended => a_susp a end) /\ m !! x = Some p /\ (if suspended p then Suspended else Running) = q)
    as (q & p & Hxq & Hx & Hqp).
  { destruct Hinv as [Hm [HsR HhR] [HsS HhS] Hnd HfR HfS]. destruct Hin as [HR|HS].
    - destruct (seg_valid _ _ _ _ x HsR HR) as [p Hx]. exists Running, p. rewrite (proj1 (HfR x p HR Hx)). auto.
    - destruct (seg_valid _ _ _ _ x HsS HS) as [p Hx]. exists Suspended, p. rewrite (proj1 (HfS x p HS Hx)). auto. }
  pose proof (inv_map _ _ _ _ Hinv) as Hm. pose proof (inv_nodup _ _ _ _ Hinv) as Hnd.
  unfold proc_kill. rewrite Hidle, (proj2 (Z.eqb_neq x (a_idle a)) Hni). cbn [negb passert]. rewrite mbind_Ret.
  rewrite (valid_ok _ _ _ Hm), bool_decide_true by eauto. cbn [negb]. rewrite (proc_ok _ _ _ _ Hm Hx), mbind_Ret, Hqp.
  pose proof (proj1 (inv_q _ _ q _ _) Hinv) as Hq. destruct (list_elem_of_split _ _ Hxq) as (l1 & l2 & E). rewrite E in Hq.
  destruct (qinv_exit st m q l1 l2 _ x (to_i32 status) Hq) as (st1 & m1 & E1 & Hq1 & Hr1 & Hc1).
  assert (exists R S, R = without x (a_run a) /\ S = without x (a_susp a) /\ inv st1 m1 R S) as (R & S & -> & -> & Hinv1).
  { eexists _, _. split; [reflexivity|]. split; [reflexivity|]. apply (inv_q _ _ q). apply NoDup_app in Hnd. destruct Hnd as (Hn1 & Hn2 & Hn3).
    assert (NoDup (l1 ++ x :: l2)) as Hn by (rewrite <-E; destruct q; assumption). apply NoDup_middle in Hn. destruct Hn as (_ & _ & Hx1 & Hx2 & _).
    destruct q; rewrite E, (without_split l1 l2) by assumption; rewrite without_not_in; try exact Hq1.
    - apply Hn2, Hxq.
    - intros HR. exact (Hn2 x HR Hxq). }
  assert (implements st1 (mk_a (a_set a x (set_exited (to_i32 status))) (without x (a_run a)) (without x (a_susp a)) (a_current a) (a_idle a) (a_ticks a))) as Him.
  { apply (implements_intro st st1 a m m1); try assumption. unfold a_set. rewrite Hp. exact Hc1. }
  unfold exit. destruct (dequeue st x q) as [st0| | |]; [|discriminate..]. rewrite mbind_Ret in E1 |- *. rewrite E1, mbind_Ret.
  assert (exists p1, m1 !! x = Some p1 /\ waiting_process p1 = (a_procs a !! x ≫= waiting_process)) as (p1 & Hx1 & Hwp).
  { assert (core <$> m1 !! x = Some (set_exited (to_i32 status) (core p))) as H by (rewrite <-lookup_fmap, Hc1, lookup_alter_eq, lookup_fmap, Hx; reflexivity).
    destruct (m1 !! x) as [p1|]; [|discriminate]. exists p1. split; [reflexivity|]. rewrite Hp, lookup_fmap, Hx. apply (inj Some) in H.
    change (waiting_process p1) with (waiting_process (core p1)). rewrite H. reflexivity. }
  rewrite (proc_ok _ _ _ _ (inv_map _ _ _ _ Hinv1) Hx1), mbind_Ret, Hwp. unfold a_kill.
  destruct (a_procs a !! x ≫= waiting_process) as [w|] eqn:Ew; [|exists st1; split; [reflexivity|exact Him]].
  destruct (Hw w Ew) as (Hwx & pw & Hpw & Hsw).
  apply (resume_refines st1 _ w pw Him); cbn [a_procs a_susp].
  - unfold a_set. rewrite lookup_alter_ne by congruence. exact Hpw.
  - destruct Hsw as [Hsw|Hsw]; [left|right; exact Hsw]. unfold without. apply list_elem_of_filter. auto.
Qed.

(** ** Picking the next process *)

Lemma pick_None tick l : pick tick l = None <-> l = [].
Proof. destruct l; simpl; [tauto|]. destruct (pick tick l); [case_match|]; split; discriminate. Qed.

(** The pick is on the list, and nothing on the list has a smaller tick. *)
Lemma pick_min tick l y : pick tick l = Some y -> y ∈ l /\ forall x, x ∈ l -> tick y <= tick x.
Proof.
  revert y. induction l as [|z l IH]; intros y; simpl; [discriminate|]. destruct (pick tick l) as [w|] eqn:E.
  - destruct (IH w eq_refl) as [Hw Hmin]. destruct (Z.ltb_spec (tick w) (tick z)) as [H|H]; intros Hy; injection Hy as <-.
    + split; [apply list_elem_of_further, Hw|]. intros x Hx. apply elem_of_cons in Hx. destruct Hx as [->|Hx]; [lia|auto].
    + split; [apply list_elem_of_here|]. intros x Hx. apply elem_of_cons in Hx. destruct Hx as [->|Hx]; [lia|]. specialize (Hmin x Hx). lia.
  - apply pick_None in E. subst l. intros Hy. injection Hy as <-. split; [apply list_elem_of_here|]. intros x Hx. apply list_elem_of_singleton in Hx. subst. lia.
Qed.

(** ... and the elements before it all have a larger one. *)
Lemma decide_loop_ok st m l : fpm 128 (processes st) m ->
  forall fuel prev mt mp, seg m prev l END -> (length l < fuel)%nat ->
  decide_loop fuel st (hd END l) mt mp =
    Ret (match pick (tick_of (core <$> m)) l with Some y => if tick_of (core <$> m) y <? mt then y else mp | None => mp end).
Proof.
  intros Hm. induction l as [|x l IH]; intros fuel prev mt mp Hs Hf; (destruct fuel as [|fuel]; [simpl in Hf; lia|]); cbn [decide_loop hd].
  - rewrite Z.eqb_refl. reflexivity.
  - destruct (seg_valid _ _ _ _ x Hs) as [p Hx]; [apply list_elem_of_here|]. destruct Hs as (_ & Hn & Hs). unfold nx in Hn. rewrite Hx in Hn. cbn in Hn.
    rewrite (proj2 (Z.eqb_neq _ _)) by (eapply not_END; eauto). cbn [negb]. rewrite (proc_ok _ _ _ _ Hm Hx), mbind_Ret, Hn. cbn [link]. rewrite mbind_Ret.
    rewrite (IH fuel x) by (assumption || simpl in Hf; lia). f_equal. cbn [pick].
    assert (tick_of (core <$> m) x = last_tick p) as Ht by (unfold tick_of; rewrite lookup_fmap, Hx; reflexivity). rewrite Ht.
    destruct (pick (tick_of (core <$> m)) l) as [y|]; [|rewrite Ht; reflexivity].
    destruct (Z.ltb_spec (last_tick p) mt), (Z.ltb_spec (tick_of (core <$> m) y) (last_tick p));
      repeat match goal with |- context [?a <? ?b] => destruct (Z.ltb_spec a b) end; try lia; reflexivity.
Qed.

Lemma run_length st m R S : inv st m R S -> (length R <= 128)%nat.
Proof.
  intros [Hm [Hs _] _ Hnd _ _]. apply NoDup_app in Hnd. destruct Hnd as [Hnd _].
  assert (R ⊆+ seqZ 0 128) as Hsub.
  { apply NoDup_submseteq; [exact Hnd|]. intros x Hx. destruct (seg_valid _ _ _ _ x Hs Hx) as [p Hp]. apply elem_of_seqZ.
    pose proof (fpm_dom_cap _ _ _ _ _ Hm Hp). lia. }
  apply submseteq_length in Hsub. rewrite length_seqZ in Hsub. exact Hsub.
Qed.

(** No tick is in the future. *)
Definition ticks_ok a : Prop := forall x, tick_of (a_procs a) x <= a_ticks a.
Definition idle_ok a : Prop := exists p, a_procs a !! a_idle a = Some p /\ suspended p = false /\ terminating p = false.

Lemma decide_refines st a : implements st a -> (forall x, tick_of (a_procs a) x < 2 ^ 64 - 1) -> decide_next_process st = Ret (a_decide a).
Proof.
  intros (m & Hinv & Hp & Hcur & Hidle & Htick) Ht. pose proof (inv_map _ _ _ _ Hinv) as Hm. destruct (inv_run _ _ _ _ Hinv) as [Hs Hh].
  unfold decide_next_process, a_decide. rewrite Hh, (decide_loop_ok st m (a_run a) Hm 129 END _ _ Hs) by (pose proof (run_length _ _ _ _ Hinv); lia).
  rewrite mbind_Ret, <-Hp, Hidle. destruct (pick (tick_of (a_procs a)) (a_run a)) as [y|] eqn:E; [|rewrite Z.eqb_refl; reflexivity].
  rewrite (proj2 (Z.ltb_lt _ _) (Ht y)). destruct (pick_min _ _ _ E) as [Hy _]. destruct (seg_valid _ _ _ _ y Hs Hy) as [p Hpy].
  rewrite (proj2 (Z.eqb_neq _ _)) by (eapply not_END; eauto). reflexivity.
Qed.

(** Where the decision falls: on a process that may run *)
Lemma decide_runnable st a : implements st a -> idle_ok a ->
  exists p, a_procs a !! a_decide a = Some p /\ suspended p = false /\ terminating p = false.
Proof.
  intros (m & Hinv & Hp & _) Hid. unfold a_decide. destruct (pick (tick_of (a_procs a)) (a_run a)) as [y|] eqn:E; [|exact Hid].
  destruct (pick_min _ _ _ E) as [Hy _]. destruct (seg_valid _ _ _ _ y (proj1 (inv_run _ _ _ _ Hinv)) Hy) as [p Hpy]. exists (core p).
  simpl. rewrite Hp, lookup_fmap, Hpy. split; [reflexivity|]. exact (inv_run_flags _ _ _ _ Hinv y p Hy Hpy).
Qed.

Lemma flag_free_tick v : flag_free (set_tick v).
Proof. split; intros p; auto. Qed.

Lemma alter_tick_twice (ps : gmap Z process) x v : alter (set_tick v) x (alter (set_tick v) x ps) = alter (set_tick v) x ps.
Proof.
  apply map_eq. intros y. destruct (decide (x = y)) as [<-|Hne]; [|rewrite !lookup_alter_ne by exact Hne; reflexivity].
  rewrite !lookup_alter_eq. destruct (ps !! x); reflexivity.
Qed.

Lemma alter_none (ps : gmap Z process) x f : ps !! x = None -> alter f x ps = ps.
Proof. intros H. apply map_eq. intros y. destruct (decide (x = y)) as [<-|Hne]; [rewrite lookup_alter_eq, H; reflexivity|rewrite lookup_alter_ne by exact Hne; reflexivity]. Qed.

(** The table entry of a valid handle *)
Lemma implements_valid st a x : implements st a -> valid st x = bool_decide (is_Some (a_procs a !! x)).
Proof.
  intros (m & Hinv & Hp & _). rewrite (valid_ok _ _ _ (inv_map _ _ _ _ Hinv)), Hp. apply bool_decide_ext. rewrite lookup_fmap, fmap_is_Some. reflexivity.
Qed.

Lemma implements_proc st a x p : implements st a -> a_procs a !! x = Some p -> exists q, proc st x = Ret q /\ core q = p.
Proof.
  intros (m & Hinv & Hp & _) Hx. rewrite Hp, lookup_fmap in Hx. destruct (m !! x) as [q|] eqn:E; [|discriminate]. exists q.
  split; [exact (proc_ok _ _ _ _ (inv_map _ _ _ _ Hinv) E)|]. apply (inj Some). exact Hx.
Qed.

Lemma implements_not_END st a x p : implements st a -> a_procs a !! x = Some p -> x <> END.
Proof.
  intros (m & Hinv & Hp & _) Hx. rewrite Hp, lookup_fmap in Hx. destruct (m !! x) as [q|] eqn:E; [|discriminate].
  eapply not_END; [exact (inv_map _ _ _ _ Hinv)|eauto].
Qed.

(** A switch to a process that is neither the current one, nor suspended, nor dead *)
Lemma switch_refines st a y p : implements st a -> a_procs a !! y = Some p -> suspended p = false -> terminating p = false -> a_current a <> y ->
  exists st', proc_switch st y = Ret st' /\ implements st' (a_switch a y).
Proof.
  intros Him Hp Hs Ht Hne. pose proof Him as (_ & _ & _ & Hcur & _ & Htick). unfold proc_switch, proc_current_pid. rewrite Hcur.
  rewrite bool_decide_false by (case_match; congruence). destruct (implements_proc _ _ _ _ Him Hp) as (q & -> & Hq). rewrite mbind_Ret.
  assert (suspended q = false /\ terminating q = false) as [-> ->] by (rewrite <-Hq in Hs, Ht; auto).
  cbn [negb passert]. rewrite !mbind_Ret. unfold switch_process. rewrite Htick.
  destruct (update_refines st a y p (set_tick (a_ticks a)) Him Hp (flag_free_tick (a_ticks a))) as (st3 & -> & Him3). rewrite mbind_Ret.
  destruct Him3 as (m3 & [] & Hp3 & Hc3 & Hi3 & Ht3). cbn [a_update a_current] in Hc3. rewrite Hc3, (proj2 (Z.eqb_neq _ _) Hne).
  eexists. split; [reflexivity|]. exists m3. split; [constructor; assumption|]. auto.
Qed.

(** A yield: the tick advances, the caller and the next process get it. *)
Lemma yield_refines st a : implements st a -> idle_ok a -> ticks_ok a -> 0 <= a_ticks a -> a_ticks a + 1 < 2 ^ 64 - 1 ->
  exists st', proc_yield st = Ret st' /\ implements st' (a_yield a).
Proof.
  intros Him Hid Hto H0 Hb. unfold proc_yield. pose proof Him as (_ & _ & _ & Hcur & Hidle & Htick).
  set (st1 := set_ticks st (u64 (tick_count st + 1))). set (T := a_ticks a + 1).
  assert (tick_count st1 = T) as HT by (unfold st1; cbn [tick_count set_ticks]; rewrite Htick; apply Z.mod_small; lia).
  assert (implements st1 (mk_a (a_procs a) (a_run a) (a_susp a) (a_current a) (a_idle a) T)) as Him1.
  { destruct Him as (m & [] & Hp & _). exists m. split; [constructor; assumption|]. cbn [a_procs a_current a_idle a_ticks]. auto. }
  set (a2 := mk_a (a_set a (a_current a) (set_tick T)) (a_run a) (a_susp a) (a_current a) (a_idle a) T).
  assert (exists st2, (if valid st1 (current_pid st1) then update st1 (current_pid st1) (set_tick (tick_count st1)) else Ret st1) = Ret st2 /\ implements st2 a2) as (st2 & -> & Him2).
  { rewrite (implements_valid st1 _ _ Him1). cbn [a_procs]. change (current_pid st1) with (current_pid st). rewrite Hcur, HT. case_bool_decide as Hv.
    - destruct Hv as [p Hv]. exact (update_refines st1 _ (a_current a) p (set_tick T) Him1 Hv (flag_free_tick T)).
    - exists st1. split; [reflexivity|]. unfold a2, a_set. rewrite alter_none; [exact Him1|]. destruct (a_procs a !! a_current a); [exfalso; eauto|reflexivity]. }
  rewrite mbind_Ret. assert (forall x, tick_of (a_procs a2) x <= T) as Hto2.
  { intros x. unfold tick_of, a2, a_set. cbn [a_procs]. destruct (decide (a_current a = x)) as [<-|Hne].
    - rewrite lookup_alter_eq. destruct (a_procs a !! a_current a); simpl; lia.
    - rewrite lookup_alter_ne by exact Hne. specialize (Hto x). unfold tick_of in Hto. lia. }
  rewrite (decide_refines st2 a2 Him2), mbind_Ret by (intros x; specialize (Hto2 x); lia).
  assert (idle_ok a2) as Hid2.
  { destruct Hid as (p & Hp & Hs & Ht). unfold idle_ok, a2, a_set. cbn [a_procs a_idle]. destruct (decide (a_current a = a_idle a)) as [E|Hne].
    - rewrite E, lookup_alter_eq, Hp. exists (set_tick T p). auto.
    - rewrite lookup_alter_ne by exact Hne. eauto. }
  destruct (decide_runnable st2 a2 Him2 Hid2) as (p & Hp & Hs & Ht). set (y := a_decide a2) in *.
  change (a_yield a) with (a_switch a2 y). pose proof (implements_not_END _ _ _ _ Him2 Hp) as Hy. pose proof Him2 as (_ & _ & _ & Hcur2 & _ & Htick2). cbn in Hcur2, Htick2.
  unfold proc_switch, proc_current_pid. rewrite Hcur2. destruct (decide (a_current a = y)) as [E|Hne].
  - rewrite E, (proj2 (Z.eqb_neq y END) Hy). cbn [negb]. rewrite bool_decide_true by reflexivity. exists st2. split; [reflexivity|].
    replace (a_switch a2 y) with a2; [exact Him2|]. unfold a_switch, a2. cbn [a_procs a_run a_susp a_idle a_ticks]. f_equal; [|exact E].
    unfold a_set. cbn [a_procs]. rewrite <-E, alter_tick_twice. reflexivity.
  - destruct (switch_refines st2 a2 y p Him2 Hp Hs Ht Hne) as (st3 & E3 & Him3). unfold proc_switch, proc_current_pid in E3. rewrite Hcur2 in E3. eauto.
Qed.

(** ** The contract *)

Inductive op :=
| Spawn (space ctx flags : Z)  (** a process enters the table *)
| Reap (x : Z)                 (** a dead process leaves the table *)
| Enqueue (x : Z)
| Suspend (x : Z)
| Resume (x : Z)
| Kill (x status : Z)
| Yield
| Block (x : Z)
| SetIdle (x : Z).             (** [proc_init] names the idle process *)

Definition step st (o : op) : outcome t :=
  match o with
  | Spawn s c f => '(v, _) ← pool.emplace_anywhere U16_MAX (processes st) (new_process s c f); Ret (set_processes st v)
  | Reap x => v ← pool.erase U16_MAX (processes st) x; Ret (set_processes st v)
  | Enqueue x => proc_enqueue st x
  | Suspend x => proc_suspend st x
  | Resume x => proc_resume st x
  | Kill x status => proc_kill st x status
  | Yield => proc_yield st
  | Block x => proc_block st x
  | SetIdle x => Ret (set_idle st x)
  end.

(** What callers must respect *)
Definition queued a (x : Z) : Prop := x ∈ a_run a \/ x ∈ a_susp a.
Definition allowed a (o : op) : Prop :=
  match o with
  | Spawn _ _ _ => Z.of_nat (base.size (a_procs a)) < 128
  | Reap x => is_Some (a_procs a !! x) /\ ~ queued a x
  | Enqueue x => exists p, a_procs a !! x = Some p /\ ~ queued a x /\ suspended p = false /\ terminating p = false
  | Suspend x => queued a x
  | Resume x => exists p, a_procs a !! x = Some p /\ (x ∈ a_susp a \/ suspended p = false)
  | Kill x _ => x <> a_idle a /\ queued a x /\ waiter_ok a x
  | Yield => idle_ok a /\ a_ticks a + 1 < 2 ^ 64 - 1
  | Block x => queued a x /\ x <> a_idle a /\ idle_ok a /\ a_ticks a + 1 < 2 ^ 64 - 1
  | SetIdle x => is_Some (a_procs a !! x)
  end.

Definition a_with a (ps : gmap Z process) : astate := mk_a ps (a_run a) (a_susp a) (a_current a) (a_idle a) (a_ticks a).

(** What they may rely on *)
Inductive spec a : op -> astate -> Prop :=
| Sp_spawn s c f x : a_procs a !! x = None -> 0 <= x < 128 -> spec a (Spawn s c f) (a_with a (<[x := new_process s c f]> (a_procs a)))
| Sp_reap x : spec a (Reap x) (a_with a (delete x (a_procs a)))
| Sp_enqueue x : spec a (Enqueue x) (a_enqueue a x)
| Sp_suspend x : spec a (Suspend x) (a_suspend a x)
| Sp_resume x : spec a (Resume x) (a_resume a x)
| Sp_kill x status : spec a (Kill x status) (a_kill a x status)
| Sp_yield : spec a Yield (a_yield a)
| Sp_block x : spec a (Block x) (a_yield (a_suspend a x))
| Sp_idle x : spec a (SetIdle x) (mk_a (a_procs a) (a_run a) (a_susp a) (a_current a) x (a_ticks a)).

Definition simulates st a : Prop := implements st a /\ ticks_ok a /\ 0 <= a_ticks a.

Definition a_init : astate := mk_a ∅ [] [] END END 0.

Lemma init_simulates : simulates init a_init.
Proof.
  split; [|split; [intros x; unfold tick_of; simpl; rewrite lookup_empty; reflexivity|reflexivity]]. exists ∅. split.
  - constructor; simpl; auto; try (intros *; rewrite lookup_empty; discriminate); [|constructor]. apply fpm_new. unfold U16_MAX. lia.
  - rewrite fmap_empty. repeat split.
Qed.

(** Ticks under changes of the table *)
Lemma tick_of_alter ps x f y : (forall p, last_tick (f p) = last_tick p) -> tick_of (alter f x ps) y = tick_of ps y.
Proof.
  intros Hf. unfold tick_of. destruct (decide (x = y)) as [<-|Hne]; [rewrite lookup_alter_eq; destruct (ps !! x); simpl; auto|rewrite lookup_alter_ne by exact Hne; reflexivity].
Qed.

Lemma suspend_ticks a x y : tick_of (a_procs (a_suspend a x)) y = tick_of (a_procs a) y /\ a_ticks (a_suspend a x) = a_ticks a.
Proof. unfold a_suspend. case_decide; [|auto]. split; [apply tick_of_alter; auto|reflexivity]. Qed.

Lemma resume_ticks a x y : tick_of (a_procs (a_resume a x)) y = tick_of (a_procs a) y /\ a_ticks (a_resume a x) = a_ticks a.
Proof. unfold a_resume. case_decide; [|auto]. split; [apply tick_of_alter; auto|reflexivity]. Qed.

Lemma kill_ticks a x status y : tick_of (a_procs (a_kill a x status)) y = tick_of (a_procs a) y /\ a_ticks (a_kill a x status) = a_ticks a.
Proof.
  unfold a_kill. destruct (a_procs a !! x ≫= waiting_process) as [w|].
  - destruct (resume_ticks (mk_a (a_set a x (set_exited (to_i32 status))) (without x (a_run a)) (without x (a_susp a)) (a_current a) (a_idle a) (a_ticks a)) w y) as [-> ->].
    split; [apply tick_of_alter; auto|reflexivity].
  - split; [apply tick_of_alter; auto|reflexivity].
Qed.

Lemma tick_of_set ps x v y : tick_of (alter (set_tick v) x ps) y = if decide (y = x /\ is_Some (ps !! x)) then v else tick_of ps y.
Proof.
  unfold tick_of. destruct (decide (x = y)) as [<-|Hne].
  - rewrite lookup_alter_eq. destruct (ps !! x) eqn:E; simpl; [rewrite decide_True by eauto; reflexivity|]. rewrite decide_False; [reflexivity|]. intros [_ [? ?]]. congruence.
  - rewrite lookup_alter_ne by exact Hne. rewrite decide_False; [reflexivity|]. intros [? _]. congruence.
Qed.

Lemma yield_ticks a : ticks_ok a -> ticks_ok (a_yield a) /\ a_ticks (a_yield a) = a_ticks a + 1.
Proof.
  intros H. split; [|reflexivity]. intros x. unfold a_yield, a_switch, a_set. cbn [a_procs a_ticks a_tick]. unfold a_set. rewrite !tick_of_set.
  specialize (H x). repeat case_decide; lia.
Qed.

(** Adding and removing table entries *)
Lemma spawn_refines st a s c f : implements st a -> Z.of_nat (base.size (a_procs a)) < 128 ->
  exists st' x, step st (Spawn s c f) = Ret st' /\ a_procs a !! x = None /\ 0 <= x < 128 /\ implements st' (a_with a (<[x := new_process s c f]> (a_procs a))).
Proof.
  intros (m & Hinv & Hp & Hc & Hi & Ht) Hsz. rewrite Hp, map_size_fmap in Hsz.
  destruct (fpm_emplace_anywhere 128 (processes st) m (new_process s c f) (inv_map _ _ _ _ Hinv) Hsz) as (v & x & E & Hv & Hx & Hr).
  exists (set_processes st v), x. split; [cbn [step]; rewrite E; reflexivity|]. split; [rewrite Hp, lookup_fmap, Hx; reflexivity|]. split; [exact Hr|].
  exists (<[x := new_process s c f]> m). split; [|rewrite Hp; cbn; rewrite fmap_insert; auto].
  destruct Hinv as [Hm [HsR HhR] [HsS HhS] Hnd HfR HfS].
  assert (forall l, seg m END l END -> x ∉ l) as Hout by (intros l Hl Hin; destruct (seg_valid _ _ _ _ x Hl Hin); congruence).
  pose proof (Hout _ HsR) as HxR. pose proof (Hout _ HsS) as HxS. constructor; cbn [a_run a_susp a_with]; try assumption.
  - split; [apply seg_insert_out; assumption|assumption].
  - split; [apply seg_insert_out; assumption|assumption].
  - intros y p Hy. rewrite lookup_insert_ne by (intros ->; auto). eauto.
  - intros y p Hy. rewrite lookup_insert_ne by (intros ->; auto). eauto.
Qed.

Lemma reap_refines st a x : implements st a -> is_Some (a_procs a !! x) -> ~ queued a x ->
  exists st', step st (Reap x) = Ret st' /\ implements st' (a_with a (delete x (a_procs a))).
Proof.
  intros (m & Hinv & Hp & Hc & Hi & Ht) [p Hx] Hq. rewrite Hp, lookup_fmap in Hx. destruct (m !! x) as [q|] eqn:Hm; [|discriminate].
  destruct (fpm_erase _ _ _ _ _ (inv_map _ _ _ _ Hinv) Hm) as (v & E & Hv). exists (set_processes st v). split; [cbn [step]; rewrite E; reflexivity|].
  exists (delete x m). split; [|rewrite Hp; cbn; rewrite fmap_delete; auto]. destruct Hinv as [_ [HsR HhR] [HsS HhS] Hnd HfR HfS].
  assert (forall l, x ∉ l -> seg m END l END -> seg (delete x m) END l END) as Hseg.
  { intros l Hl. apply seg_ext. intros y Hy. unfold pv, nx. rewrite lookup_delete_ne by (intros ->; auto). auto. }
  assert ((x ∉ a_run a) /\ (x ∉ a_susp a)) as [HxR HxS] by (unfold queued in Hq; tauto).
  constructor; cbn [a_run a_susp a_with]; auto.
  - intros y r Hy Hr. apply lookup_delete_Some in Hr. eapply HfR; [exact Hy|apply Hr].
  - intros y r Hy Hr. apply lookup_delete_Some in Hr. eapply HfS; [exact Hy|apply Hr].
Qed.

Lemma suspend_idle a x : x <> a_idle a -> idle_ok a -> idle_ok (a_suspend a x).
Proof.
  intros Hx (p & Hp & H). unfold idle_ok, a_suspend. case_decide; [|eauto]. cbn [a_procs a_idle]. unfold a_set. rewrite lookup_alter_ne by exact Hx. eauto.
Qed.

Lemma step_simulates st a o : simulates st a -> allowed a o -> exists st' a', step st o = Ret st' /\ spec a o a' /\ simulates st' a'.
Proof.
  intros (Him & Hto & H0) Hal. destruct o as [s c f|x|x|x|x|x status| |x|x]; cbn [allowed] in Hal.
  - destruct (spawn_refines st a s c f Him Hal) as (st' & x & E & Hx & Hr & Him'). exists st'. eexists. split; [exact E|]. split; [apply Sp_spawn; eassumption|].
    split; [exact Him'|]. split; [|exact H0]. intros y. unfold tick_of, a_with. cbn [a_procs a_ticks]. destruct (decide (x = y)) as [<-|Hne].
    + rewrite lookup_insert_eq. simpl. exact H0.
    + rewrite lookup_insert_ne by exact Hne. apply Hto.
  - destruct Hal as [Hx Hq]. destruct (reap_refines st a x Him Hx Hq) as (st' & E & Him'). exists st'. eexists. split; [exact E|]. split; [apply Sp_reap|].
    split; [exact Him'|]. split; [|exact H0]. intros y. unfold tick_of, a_with. cbn [a_procs a_ticks]. destruct (decide (x = y)) as [<-|Hne].
    + rewrite lookup_delete_eq. simpl. exact H0.
    + rewrite lookup_delete_ne by exact Hne. apply Hto.
  - destruct Hal as (p & Hp & Hq & Hs & Ht). destruct (enqueue_refines st a x p) as (st' & E & Him'); [unfold queued in Hq; tauto..|].
    exists st', (a_enqueue a x). split; [exact E|]. split; [apply Sp_enqueue|]. split; [exact Him'|]. split; [exact Hto|exact H0].
  - destruct (suspend_refines st a x Him Hal) as (st' & E & Him'). exists st', (a_suspend a x). split; [exact E|]. split; [apply Sp_suspend|].
    split; [exact Him'|]. split; [intros y|]; rewrite ?(proj1 (suspend_ticks a x y)), (proj2 (suspend_ticks a x 0)); auto.
  - destruct Hal as (p & Hp & Hx). destruct (resume_refines st a x p Him Hp Hx) as (st' & E & Him'). exists st', (a_resume a x). split; [exact E|]. split; [apply Sp_resume|].
    split; [exact Him'|]. split; [intros y|]; rewrite ?(proj1 (resume_ticks a x y)), (proj2 (resume_ticks a x 0)); auto.
  - destruct Hal as (Hni & Hq & Hw). destruct (kill_refines st a x status Him Hni Hq Hw) as (st' & E & Him'). exists st', (a_kill a x status). split; [exact E|].
    split; [apply Sp_kill|]. split; [exact Him'|]. split; [intros y|]; rewrite ?(proj1 (kill_ticks a x status y)), (proj2 (kill_ticks a x status 0)); auto.
  - destruct Hal as [Hid Hb]. destruct (yield_refines st a Him Hid Hto H0 Hb) as (st' & E & Him'). exists st', (a_yield a). split; [exact E|]. split; [apply Sp_yield|].
    destruct (yield_ticks a Hto) as [Hto' Ht']. split; [exact Him'|]. split; [exact Hto'|lia].
  - destruct Hal as (Hq & Hni & Hid & Hb). destruct (suspend_refines st a x Him Hq) as (st1 & E1 & Him1).
    assert (ticks_ok (a_suspend a x)) as Hto1 by (intros y; rewrite (proj1 (suspend_ticks a x y)), (proj2 (suspend_ticks a x 0)); auto).
    pose proof (proj2 (suspend_ticks a x 0)) as Ht1.
    destruct (yield_refines st1 _ Him1 (suspend_idle a x Hni Hid) Hto1) as (st2 & E2 & Him2); [lia..|].
    exists st2, (a_yield (a_suspend a x)). split; [cbn [step]; unfold proc_block; rewrite E1; exact E2|]. split; [apply Sp_block|].
    destruct (yield_ticks _ Hto1) as [Hto' Ht']. split; [exact Him2|]. split; [exact Hto'|lia].
  - exists (set_idle st x). eexists. split; [reflexivity|]. split; [apply Sp_idle|]. destruct Him as (m & [] & Hp & Hc & Hi & Ht).
    split; [|split; [exact Hto|exact H0]]. exists m. split; [constructor; assumption|]. cbn. auto.
Qed.

(** ** Fairness *)

Fixpoint a_yields (k : nat) a : astate := match k with O => a | S k' => a_yields k' (a_yield a) end.
Fixpoint yields (k : nat) st : outcome t := match k with O => Ret st | S k' => st ← proc_yield st; yields k' st end.

(** One yield: the ticks afterwards *)
Lemma yield_tick_of a x : (forall y, y ∈ a_run a -> is_Some (a_procs a !! y)) -> x ∈ a_run a ->
  tick_of (a_procs (a_yield a)) x = if decide (x = a_current a \/ x = a_current (a_yield a)) then a_ticks a + 1 else tick_of (a_procs a) x.
Proof.
  intros Hv Hx. unfold a_yield, a_switch. set (a1 := a_tick a). cbn [a_procs a_ticks a_current]. unfold a_set at 1. rewrite tick_of_set.
  assert (is_Some (a_procs a1 !! x)) as H1.
  { unfold a1, a_tick, a_set. cbn [a_procs]. destruct (decide (a_current a = x)) as [<-|Hne]; [rewrite lookup_alter_eq, fmap_is_Some; auto|rewrite lookup_alter_ne by exact Hne; auto]. }
  change (a_ticks a1) with (a_ticks a + 1). destruct (decide (x = a_decide a1)) as [->|Hne].
  - rewrite !decide_True by (auto || tauto). reflexivity.
  - rewrite decide_False by tauto. unfold a1 at 1, a_tick, a_set. cbn [a_procs]. rewrite tick_of_set. destruct (decide (x = a_current a)) as [->|Hne2].
    + rewrite !decide_True by (auto || tauto). reflexivity.
    + rewrite !decide_False by tauto. reflexivity.
Qed.

(** The pick is a running process of smallest tick, after the caller got its new one. *)
Lemma yield_picks a : (forall y, y ∈ a_run a -> is_Some (a_procs a !! y)) -> a_run a <> [] ->
  a_current (a_yield a) ∈ a_run a /\
  forall x, x ∈ a_run a -> (if decide (a_current (a_yield a) = a_current a) then a_ticks a + 1 else tick_of (a_procs a) (a_current (a_yield a)))
                           <= (if decide (x = a_current a) then a_ticks a + 1 else tick_of (a_procs a) x).
Proof.
  intros Hv Hne. unfold a_yield, a_switch. set (a1 := a_tick a). cbn [a_current]. unfold a_decide. change (a_run a1) with (a_run a).
  destruct (pick (tick_of (a_procs a1)) (a_run a)) as [y|] eqn:E; [|apply pick_None in E; contradiction]. destruct (pick_min _ _ _ E) as [Hy Hmin]. simpl.
  split; [exact Hy|]. assert (forall z, z ∈ a_run a -> tick_of (a_procs a1) z = if decide (z = a_current a) then a_ticks a + 1 else tick_of (a_procs a) z) as Ht.
  { intros z Hz. unfold a1, a_tick, a_set. cbn [a_procs]. rewrite tick_of_set. destruct (decide (z = a_current a)) as [->|Hzc]; [rewrite decide_True by auto|rewrite decide_False by tauto]; reflexivity. }
  intros x Hx. rewrite <-!Ht by assumption. auto.
Qed.

Lemma yield_valid a y : is_Some (a_procs a !! y) -> is_Some (a_procs (a_yield a) !! y).
Proof.
  intros H. unfold a_yield, a_switch, a_set, a_tick. cbn [a_procs]. unfold a_set.
  assert (forall (ps : gmap Z process) f x, is_Some (ps !! y) -> is_Some (alter f x ps !! y)) as Ha.
  { intros ps f x Hy. destruct (decide (x = y)) as [<-|Hne]; [rewrite lookup_alter_eq, fmap_is_Some; auto|rewrite lookup_alter_ne by exact Hne; auto]. }
  repeat apply Ha. exact H.
Qed.

(** [W]: those that have not run since the tick was [T]; the others are ahead. *)
Lemma fair_rounds n : forall W a T, length W = n -> NoDup W -> (forall x, x ∈ W -> x ∈ a_run a /\ tick_of (a_procs a) x <= T + 1) -> a_current a ∉ W ->
  (forall x, x ∈ a_run a -> x ∉ W -> x <> a_current a -> T + 2 <= tick_of (a_procs a) x) ->
  (forall y, y ∈ a_run a -> is_Some (a_procs a !! y)) -> T + 1 <= a_ticks a ->
  forall x, x ∈ W -> exists k, (1 <= k <= n)%nat /\ a_current (a_yields k a) = x.
Proof.
  induction n as [|n IH]; intros W a T Hlen Hnd HW Hcur Hrest Hv HT x Hx; [destruct W; [apply elem_of_nil in Hx; destruct Hx|discriminate]|].
  destruct (HW x Hx) as [HxR Hxt]. assert (a_run a <> []) as Hne by (intros E; rewrite E in HxR; apply elem_of_nil in HxR; destruct HxR).
  destruct (yield_picks a Hv Hne) as [Hy Hmin]. set (y := a_current (a_yield a)) in *.
  assert (y ∈ W) as HyW.
  { destruct (decide (y ∈ W)) as [|Hn]; [assumption|exfalso]. specialize (Hmin x HxR). rewrite (decide_False (P := x = a_current a)) in Hmin by (intros ->; auto).
    destruct (decide (y = a_current a)); [lia|]. specialize (Hrest y Hy Hn ltac:(assumption)). lia. }
  destruct (decide (x = y)) as [->|Hxy]; [exists 1%nat; split; [lia|reflexivity]|].
  destruct (list_elem_of_split _ _ HyW) as (l1 & l2 & ->). apply NoDup_middle in Hnd. destruct Hnd as (_ & _ & Hy1 & Hy2 & Hnd & _).
  assert (forall z, z ∈ l1 ++ l2 -> z ∈ l1 ++ y :: l2 /\ z <> y) as Hsub.
  { intros z Hz. rewrite elem_of_app in Hz. split; [rewrite elem_of_app, elem_of_cons; tauto|]. intros ->. tauto. }
  destruct (IH (l1 ++ l2) (a_yield a) T) with (x := x) as (k & Hk & Ek).
  - rewrite length_app in *. cbn [length] in Hlen. lia.
  - exact Hnd.
  - intros z Hz. destruct (Hsub z Hz) as [HzW Hzy]. destruct (HW z HzW) as [HzR Hzt]. split; [exact HzR|]. rewrite yield_tick_of by assumption.
    rewrite decide_False; [exact Hzt|]. intros [->|E]; [exact (Hcur HzW)|exact (Hzy E)].
  - intros Hin. exact (proj2 (Hsub _ Hin) eq_refl).
  - intros z HzR HzW Hzy. change (a_run (a_yield a)) with (a_run a) in HzR. rewrite yield_tick_of by assumption. destruct (decide (z = a_current a \/ z = a_current (a_yield a))) as [Hd|Hd]; [lia|].
    apply Hrest; [exact HzR| |tauto]. rewrite elem_of_app, elem_of_cons. rewrite elem_of_app in HzW. fold y in Hzy. tauto.
  - intros z Hz. apply yield_valid, Hv, Hz.
  - change (a_ticks (a_yield a)) with (a_ticks a + 1). lia.
  - apply elem_of_app. apply elem_of_app in Hx. rewrite elem_of_cons in Hx. tauto.
  - exists (S k). split; [lia|exact Ek].
Qed.

Lemma fair a x : ticks_ok a -> NoDup (a_run a) -> (forall y, y ∈ a_run a -> is_Some (a_procs a !! y)) -> x ∈ a_run a ->
  exists k, (1 <= k <= length (a_run a))%nat /\ a_current (a_yields k a) = x.
Proof.
  intros Hto Hnd Hv Hx. assert (a_run a <> []) as Hne by (intros E; rewrite E in Hx; apply elem_of_nil in Hx; destruct Hx).
  destruct (yield_picks a Hv Hne) as [Hy Hmin]. set (y := a_current (a_yield a)) in *.
  destruct (list_elem_of_split _ _ Hy) as (l1 & l2 & E). rewrite E in Hnd. pose proof (NoDup_middle _ _ _ Hnd) as (_ & _ & Hy1 & Hy2 & Hnd' & _).
  destruct (decide (x = y)) as [->|Hxy]; [exists 1%nat; split; [rewrite E, length_app; simpl; lia|reflexivity]|].
  destruct (fair_rounds (length (l1 ++ l2)) (l1 ++ l2) (a_yield a) (a_ticks a) eq_refl Hnd') with (x := x) as (k & Hk & Ek).
  - intros z Hz. assert (z ∈ a_run a) as HzR by (rewrite E; rewrite !elem_of_app, elem_of_cons in *; tauto). split; [exact HzR|].
    rewrite yield_tick_of by assumption. specialize (Hto z). destruct (decide (z = a_current a \/ z = a_current (a_yield a))); lia.
  - fold y. rewrite elem_of_app. tauto.
  - intros z HzR HzW Hzy. change (a_run (a_yield a)) with (a_run a) in HzR. exfalso. rewrite E, elem_of_app, elem_of_cons in HzR. rewrite elem_of_app in HzW. fold y in Hzy. tauto.
  - intros z Hz. apply yield_valid, Hv, Hz.
  - change (a_ticks (a_yield a)) with (a_ticks a + 1). lia.
  - rewrite E, elem_of_app, elem_of_cons in Hx. rewrite elem_of_app. tauto.
  - exists (S k). split; [|exact Ek]. rewrite E, !length_app in *. simpl. lia.
Qed.

Lemma yield_idle a : idle_ok a -> idle_ok (a_yield a).
Proof.
  intros (p & Hp & Hs & Ht). unfold idle_ok. change (a_idle (a_yield a)) with (a_idle a).
  assert (forall (ps : gmap Z process) v x q, ps !! a_idle a = Some q -> suspended q = false -> terminating q = false ->
    exists q', alter (set_tick v) x ps !! a_idle a = Some q' /\ suspended q' = false /\ terminating q' = false) as Ha.
  { intros ps v x q Hq Hqs Hqt. destruct (decide (x = a_idle a)) as [->|Hne].
    - rewrite lookup_alter_eq, Hq. exists (set_tick v q). auto.
    - rewrite lookup_alter_ne by exact Hne. eauto. }
  unfold a_yield, a_switch, a_tick, a_set. cbn [a_procs]. unfold a_set. destruct (Ha (a_procs a) (a_ticks a + 1) (a_current a) p Hp Hs Ht) as (q & Hq & Hqs & Hqt).
  exact (Ha _ _ _ q Hq Hqs Hqt).
Qed.

Lemma yields_refine k : forall st a, simulates st a -> idle_ok a -> a_ticks a + Z.of_nat k < 2 ^ 64 - 1 ->
  exists st', yields k st = Ret st' /\ simulates st' (a_yields k a).
Proof.
  induction k as [|k IH]; intros st a (Him & Hto & H0) Hid Hb; [exists st; repeat split; auto|]. cbn [yields a_yields].
  destruct (yield_refines st a Him Hid Hto H0) as (st1 & -> & Him1); [lia|]. rewrite mbind_Ret. destruct (yield_ticks a Hto) as [Hto1 Ht1].
  apply IH; [split; [exact Him1|split; [exact Hto1|lia]]|apply yield_idle, Hid|lia].
Qed.

(** ** Waking a blocked process *)

Lemma flag_free_unblock v : flag_free (set_unblock v).
Proof. split; intros p; auto. Qed.

Definition a_unblock a (x status : Z) : astate := a_switch (a_resume (a_update a x (set_unblock status)) x) x.

(** The process runs at once and finds the status. *)
Lemma unblock_refines st a x p status : implements st a -> a_procs a !! x = Some p -> terminating p = false -> x ∈ a_susp a -> a_current a <> x ->
  exists st', proc_unblock_and_switch st x status = Ret st' /\ implements st' (a_unblock a x status) /\ current_pid st' = x /\ yield_status st' = Ret status.
Proof.
  intros Him Hp Ht Hx Hne. unfold proc_unblock_and_switch. rewrite (implements_valid _ _ x Him), bool_decide_true by eauto.
  destruct (update_refines st a x p (set_unblock status) Him Hp (flag_free_unblock status)) as (st1 & -> & Him1). rewrite mbind_Ret.
  assert (a_procs (a_update a x (set_unblock status)) !! x = Some (set_unblock status p)) as Hp1 by (cbn [a_procs a_update]; unfold a_set; rewrite lookup_alter_eq, Hp; reflexivity).
  destruct (resume_refines st1 _ x _ Him1 Hp1 (or_introl Hx)) as (st2 & -> & Him2). rewrite mbind_Ret.
  set (p2 := set_suspended false (set_unblock status p)).
  assert (a_procs (a_resume (a_update a x (set_unblock status)) x) !! x = Some p2) as Hp2.
  { unfold a_resume. rewrite decide_True by exact Hx. cbn [a_procs]. unfold a_set at 1. rewrite lookup_alter_eq, Hp1. reflexivity. }
  assert (a_current (a_resume (a_update a x (set_unblock status)) x) = a_current a) as Hc2 by (unfold a_resume; case_decide; reflexivity).
  destruct (switch_refines st2 _ x p2 Him2 Hp2 eq_refl Ht) as (st3 & -> & Him3); [congruence|]. exists st3. split; [reflexivity|]. split; [exact Him3|].
  pose proof Him3 as (_ & _ & _ & Hcur3 & _). split; [exact Hcur3|]. unfold yield_status. rewrite Hcur3. cbn [a_current a_switch].
  destruct (implements_proc st3 _ x (set_tick (a_ticks (a_resume (a_update a x (set_unblock status)) x)) p2) Him3) as (q & -> & Hq);
    [cbn [a_procs a_switch]; unfold a_set at 1; rewrite lookup_alter_eq, Hp2; reflexivity|]. rewrite mbind_Ret. f_equal.
  change (unblock_status (core q) = status). rewrite Hq. reflexivity.
Qed.

(** ** Processes that are killed twice, or woken after they were killed *)

Fixpoint steps st (os : list op) : outcome t := match os with [] => Ret st | o :: os' => st ← step st o; steps st os' end.

(** Idle process 0 and processes 1, 2, 3, queued in this order *)
Definition demo_procs : list op :=
  [Spawn 0 0 0; SetIdle 0; Spawn 1 1 0; Spawn 2 2 0; Spawn 3 3 0; Enqueue 3; Enqueue 2; Enqueue 1].

(** Killing a process that is already dead links two others into a circle:
    the scheduler never comes back from looking for the next process. *)
Definition demo_killed_twice : list op := demo_procs ++ [Kill 2 0; Suspend 3; Resume 3; Kill 2 0].

Example kill_zombie_hangs_scheduler : exists st, steps init demo_killed_twice = Ret st /\
  forall fuel, decide_loop fuel st (running_head st) (2 ^ 64 - 1) END = NoFuel.
Proof.
  eexists. split; [vm_compute; reflexivity|].
  match goal with |- forall fuel, decide_loop fuel ?s _ _ _ = _ => set (st := s) end.
  assert (forall fuel mt mp node, node = 1 \/ node = 3 -> decide_loop fuel st node mt mp = NoFuel) as H; [|intros fuel; apply H; right; reflexivity].
  induction fuel as [|fuel IH]; intros mt mp node Hn; [reflexivity|]. destruct Hn as [-> | ->]; cbn [decide_loop].
  - change (proc st 1) with (Ret (mk_process 1 1 false false 0 0 (Some 3) (Some 3) None 0 (-1) 0 0)). apply IH. right. reflexivity.
  - change (proc st 3) with (Ret (mk_process 3 3 false false 0 0 (Some 1) (Some 1) None 0 (-1) 0 0)). apply IH. left. reflexivity.
Qed.

(** A process that is killed while it is blocked is run when it is woken. *)
Example notify_runs_zombie : exists st st' p, steps init (demo_procs ++ [Yield; Block 1; Kill 1 0]) = Ret st /\
  proc_unblock_and_switch st 1 1 = Ret st' /\ running_head st' = 1 /\ proc st' 1 = Ret p /\ terminating p = true.
Proof. do 3 eexists. split; [vm_compute; reflexivity|]. split; [vm_compute; reflexivity|]. split; [reflexivity|]. split; vm_compute; reflexivity. Qed.

(** A suspended process is in the table and alive. *)
Lemma suspended_alive st a x : implements st a -> x ∈ a_susp a -> exists p, a_procs a !! x = Some p /\ terminating p = false.
Proof.
  intros (m & Hinv & Hp & _) Hx. destruct (seg_valid _ _ _ _ x (proj1 (inv_susp _ _ _ _ Hinv)) Hx) as [p Hpx]. exists (core p). rewrite Hp, lookup_fmap, Hpx.
  split; [reflexivity|]. apply (inv_susp_flags _ _ _ _ Hinv x p Hx Hpx).
Qed.

(** A state that is reached: an idle process and two that run *)
Lemma two_running : exists st a i x y, simulates st a /\ idle_ok a /\ a_run a = [y; x] /\ a_idle a = i /\ a_ticks a = 0 /\ a_procs a !! y = Some (new_process 2 2 0) /\
  x <> y /\ i <> x /\ i <> y.
Proof.
  destruct (step_simulates _ _ (Spawn 0 0 0) init_simulates ltac:(reflexivity)) as (st1 & a1 & _ & Hs1 & Hsim1).
  inversion Hs1 as [s0 c0 f0 i Hi Hir| | | | | | | |]. subst a1. clear Hs1.
  destruct (step_simulates _ _ (SetIdle i) Hsim1 ltac:(eexists; apply lookup_insert_eq)) as (st2 & a2 & _ & Hs2 & Hsim2).
  inversion Hs2 as [| | | | | | | |i0]. subst a2 i0. clear Hs2.
  destruct (step_simulates _ _ (Spawn 1 1 0) Hsim2) as (st3 & a3 & _ & Hs3 & Hsim3).
  { cbn. rewrite map_size_insert_None by exact Hi. rewrite map_size_empty. lia. }
  inversion Hs3 as [s1 c1 f1 x Hx Hxr| | | | | | | |]. subst a3. clear Hs3. cbn in Hx.
  destruct (step_simulates _ _ (Spawn 2 2 0) Hsim3) as (st4 & a4 & _ & Hs4 & Hsim4).
  { cbn. rewrite !map_size_insert_None by assumption. rewrite map_size_empty. lia. }
  inversion Hs4 as [s2 c2 f2 y Hy Hyr| | | | | | | |]. subst a4. clear Hs4. cbn in Hy.
  assert (x <> y) as Hxy by (intros ->; rewrite lookup_insert_eq in Hy; discriminate).
  assert (i <> x) as Hix by (intros ->; rewrite lookup_insert_eq in Hx; discriminate).
  assert (i <> y) as Hiy by (intros ->; rewrite lookup_insert_ne, lookup_insert_eq in Hy by congruence; discriminate).
  destruct (step_simulates _ _ (Enqueue x) Hsim4) as (st5 & a5 & _ & Hs5 & Hsim5).
  { exists (new_process 1 1 0). cbn. rewrite lookup_insert_ne, lookup_insert_eq by congruence.
    split; [reflexivity|]. split; [intros [H'|H']; apply elem_of_nil in H'; destruct H'|split; reflexivity]. }
  inversion Hs5 as [| |x0| | | | | |]. subst a5 x0. clear Hs5.
  destruct (step_simulates _ _ (Enqueue y) Hsim5) as (st6 & a6 & _ & Hs6 & Hsim6).
  { exists (new_process 2 2 0). cbn. rewrite lookup_insert_eq. split; [reflexivity|]. split; [|split; reflexivity].
    intros [H'|H']; [apply list_elem_of_singleton in H'; congruence|apply elem_of_nil in H'; destruct H']. }
  inversion Hs6 as [| |y0| | | | | |]. subst a6 y0. clear Hs6. eexists st6, _, i, x, y. split; [exact Hsim6|].
  split; [exists (new_process 0 0 0); cbn; split; [|split; reflexivity]; rewrite !lookup_insert_ne by congruence; apply lookup_insert_eq|].
  split; [reflexivity|]. split; [reflexivity|]. split; [reflexivity|]. split; [apply lookup_insert_eq|]. auto.
Qed.

(** The same after a yield: one of the two runs. *)
Lemma one_current : exists st a x, simulates st a /\ idle_ok a /\ a_current a = x /\ x ∈ a_run a /\ x <> a_idle a /\ a_ticks a = 1.
Proof.
  destruct two_running as (st & a & i & x & y & (Him & Hto & H0) & Hid & Hrun & Hi & Ht & Hy & Hxy & Hix & Hiy).
  destruct (yield_refines st a Him Hid Hto H0) as (st' & _ & Him'); [rewrite Ht; reflexivity|]. destruct (yield_ticks a Hto) as [Hto' Ht'].
  exists st', (a_yield a), (a_decide (a_tick a)). split; [split; [exact Him'|]; split; [exact Hto'|lia]|]. split; [exact (yield_idle a Hid)|]. split; [reflexivity|].
  assert (exists z, pick (tick_of (a_procs (a_tick a))) (a_run (a_tick a)) = Some z) as [z Hz].
  { destruct (pick _ _) eqn:E; [eauto|]. apply pick_None in E. change (a_run a = []) in E. congruence. }
  assert (a_decide (a_tick a) = z) as -> by (unfold a_decide; rewrite Hz; reflexivity). apply pick_min in Hz. destruct Hz as [Hz _]. change (z ∈ a_run a) in Hz.
  split; [exact Hz|]. split; [change (z <> a_idle a); rewrite Hrun in Hz; rewrite !elem_of_cons, elem_of_nil in Hz; rewrite Hi; intuition congruence|lia].
Qed.

End queues.

(** C2: the process table and its two intrusive queues behave like a finite
    map and two disjoint sequences.  From the initial state on, every
    operation of the scheduler that respects its contract returns and does
    what its specification says: a new process gets a free handle, enqueueing
    and resuming put a process at the front of the running sequence,
    suspending moves it to the front of the suspended one, killing removes it
    from whichever sequence it is on and resumes who waits for it, and
    yielding switches to the first running process with the smallest tick, or
    to the idle process when none is running.  No link ever dangles and no
    queue walk runs on. *)
Theorem scheduler_refines_sequences :
  queues.simulates sched.init queues.a_init /\
  forall st a o, queues.simulates st a -> queues.allowed a o ->
    exists st' a', queues.step st o = Ret st' /\ queues.spec a o a' /\ queues.simulates st' a'.
Proof. split; [exact queues.init_simulates|]. intros st a o Hs Hal. exact (queues.step_simulates st a o Hs Hal). Qed.

(** C28: no process on the running queue starves: as long as the tick counter
    does not overflow, in every stretch of as many consecutive yields as there
    are running processes each of them gets the processor. *)
Theorem yields_are_fair st a x : queues.simulates st a -> queues.idle_ok a -> x ∈ queues.a_run a ->
  queues.a_ticks a + Z.of_nat (length (queues.a_run a)) < 2 ^ 64 - 1 ->
  exists k st', (1 <= k <= length (queues.a_run a))%nat /\ queues.yields k st = Ret st' /\ sched.current_pid st' = x.
Proof.
  intros Hsim Hid Hx Hb. destruct Hsim as (Him & Hto & H0). pose proof Him as (m & Hinv & Hp & _).
  destruct (queues.fair a x Hto) as (k & Hk & Ek); [|intros y Hy|exact Hx|].
  - pose proof (queues.inv_nodup _ _ _ _ Hinv) as Hnd. apply NoDup_app in Hnd. apply Hnd.
  - rewrite Hp, lookup_fmap, fmap_is_Some. eapply queues.seg_valid; [apply (queues.inv_run _ _ _ _ Hinv)|exact Hy].
  - destruct (queues.yields_refine k st a (conj Him (conj Hto H0)) Hid) as (st' & E & (m' & _ & _ & Hc & _) & _); [lia|].
    exists k, st'. split; [exact Hk|]. split; [exact E|]. congruence.
Qed.

(** Two processes beside the idle one *)
Lemma yields_are_fair_witness : exists st x y k st', x <> y /\ sched.running_head st = y /\ (1 <= k <= 2)%nat /\
  queues.yields k st = Ret st' /\ sched.current_pid st' = x.
Proof.
  destruct queues.two_running as (st & a & i & x & y & Hsim & Hid & Hrun & _ & Ht & _ & Hxy & _). pose proof Hsim as ((m & Hinv & _) & _).
  destruct (yields_are_fair st a x Hsim Hid) as (k & st' & Hk & E & Hc).
  - rewrite Hrun. apply list_elem_of_further, list_elem_of_here.
  - rewrite Hrun, Ht. reflexivity.
  - exists st, x, y, k, st'. rewrite Hrun in Hk. split; [exact Hxy|]. split; [rewrite (proj2 (queues.inv_run _ _ _ _ Hinv)), Hrun; reflexivity|].
    split; [exact Hk|]. split; [exact E|exact Hc].
Defined.
