(* ===== verification/Blocking.v ===== *)
(** * Blocking data queue (kernel/support/blocking_queue.h)

    A byte queue and a condition variable.  The writer is an interrupt and
    never waits; a reader of an empty queue is suspended.  As everywhere, a
    context switch ends an operation: [push_back] ends when the first waiter
    is woken, [pop_front] when the caller waits, and what they do afterwards
    are the definitions with [_resumed]. *)

From S2P Require Import Prelude Queue Pool KernelDefs Sched.
From stdpp Require Import gmap.
#[local] Open Scope Z_scope.

Module blocking.

Record t := mk { queue_of : queue.t Z; signal : sched.condition_variable }.
Implicit Type b : t.

Definition new (storage : list Z) : t := mk (queue.init storage) (new_fixed_pool 16).

Section ops.
Variable MaxLen : Z.

Fixpoint push_loop (n : nat) (q : queue.t Z) (data : list Z) (bytes_written : Z) : outcome (queue.t Z * Z) :=
  match n with
  | O => Ret (q, bytes_written)
  | S n' =>
      c ← arr_get data bytes_written;
      '(q, ok) ← queue.push_back MaxLen q c;
      if ok : bool then push_loop n' q data (bytes_written + 1) else Ret (q, bytes_written)
  end.

(** [push_back] up to the switch to the first waiter, whose index it returns
    with the number of bytes pushed *)
Definition push_back b (st : sched.t) (data : list Z) (length : Z) : outcome (t * sched.t * Z * option Z) :=
  '(q, bytes_written) ← push_loop (Z.to_nat length) (queue_of b) data 0;
  let b := mk q (signal b) in
  if bytes_written =? 0 then Ret (b, st, 0, None)
  else '(st, woken) ← sched.notify_all (signal b) st; Ret (b, st, bytes_written, woken).

(** The notifier runs again after waking [idx]. *)
Definition push_back_resumed b (st : sched.t) (idx : Z) : outcome (t * sched.t * option Z) :=
  '(cv, st, woken) ← sched.notify_all_resumed (signal b) st idx; Ret (mk (queue_of b) cv, st, woken).

(** [while ( _queue.size() > 0 && max_size > 0)]: what is read *)
Fixpoint drain (fuel : nat) (q : queue.t Z) (max_size : Z) : outcome (queue.t Z * list Z) :=
  match fuel with
  | O => NoFuel
  | S fuel' =>
      if (queue.size q >? 0) && (max_size >? 0) then
        '(q, c) ← queue.pop_front MaxLen q;
        '(q, cs) ← drain fuel' q (max_size - 1);
        Ret (q, c :: cs)
      else Ret (q, [])
  end.

Inductive pop_result := Popped (data : list Z) | Failed (ret : Z) | Waits (idx : Z).

Definition drain_all (q : queue.t Z) (max_size : Z) : outcome (queue.t Z * list Z) := drain (S (Z.to_nat (queue.size q))) q max_size.

(** The loop [while (true)], from its start *)
Fixpoint pop_loop (fuel : nat) b (st : sched.t) (max_size : Z) : outcome (t * sched.t * pop_result) :=
  match fuel with
  | O => NoFuel
  | S fuel' =>
      if queue.size (queue_of b) =? 0 then
        '(cv, st, idx) ← sched.cv_wait (signal b) st; Ret (mk (queue_of b) cv, st, Waits idx)
      else
        '(q, data) ← drain_all (queue_of b) max_size;
        match data with
        | [] => pop_loop fuel' (mk q (signal b)) st max_size
        | _ => Ret (mk q (signal b), st, Popped data)
        end
  end.

Definition pop_front (fuel : nat) b (st : sched.t) (max_size : Z) : outcome (t * sched.t * pop_result) :=
  if max_size =? 0 then Ret (b, st, Popped []) else pop_loop fuel b st max_size.

(** The reader runs again; [ret] is what [proc_block] returned. *)
Definition pop_front_resumed (fuel : nat) b (st : sched.t) (max_size idx ret : Z) : outcome (t * sched.t * pop_result) :=
  '(cv, ret) ← sched.cv_wait_resumed (signal b) idx ret;
  let b := mk (queue_of b) cv in
  if ret <? 0 then Ret (b, st, Failed ret)
  else
    '(q, data) ← drain_all (queue_of b) max_size;
    match data with
    | [] => pop_loop fuel (mk q cv) st max_size
    | _ => Ret (mk q cv, st, Popped data)
    end.

Definition full b : bool := queue.full MaxLen (queue_of b).

(** ** Correctness *)

Hypothesis MaxLen_pos : 0 < MaxLen.
Hypothesis MaxLen_int : 2 * MaxLen <= INT_MAX.

Lemma push_loop_rep : forall n q l data done, queue.rep MaxLen q l -> 0 <= done -> done + Z.of_nat n <= zlen data ->
  let room := MaxLen - zlen l in
  exists q', push_loop n q data done = Ret (q', done + Z.min room (Z.of_nat n)) /\
    queue.rep MaxLen q' (l ++ take (Z.to_nat (Z.min room (Z.of_nat n))) (drop (Z.to_nat done) data)).
Proof.
  induction n as [|n IH]; intros q l data done Hr Hd Hlen room; cbn [push_loop].
  - pose proof (queue.rep_cap _ _ _ Hr). exists q. split; [do 2 f_equal; unfold room; lia|]. replace (Z.to_nat _) with 0%nat by lia. rewrite take_0, app_nil_r. exact Hr.
  - pose proof (queue.rep_cap _ _ _ Hr) as Hcap. assert (exists c, znth data done = Some c) as [c Hc].
    { unfold znth. rewrite (proj2 (Z.leb_le 0 done)) by lia. apply lookup_lt_is_Some. unfold zlen in Hlen. lia. }
    unfold arr_get. rewrite Hc, mbind_Ret. destruct (Z.eq_dec (zlen l) MaxLen) as [Hfull|Hroom].
    + rewrite (queue.queue_push_back_full MaxLen MaxLen_pos MaxLen_int q l c Hr Hfull), mbind_Ret. exists q. split; [do 2 f_equal; unfold room; lia|].
      replace (Z.to_nat _) with 0%nat by lia. rewrite take_0, app_nil_r. exact Hr.
    + destruct (queue.queue_push_back_room MaxLen MaxLen_pos MaxLen_int q l c Hr) as (q1 & -> & Hr1); [lia|]. rewrite mbind_Ret.
      destruct (IH q1 (l ++ [c]) data (done + 1) Hr1) as (q2 & -> & Hr2); [lia|lia|]. rewrite zlen_app in *. change (zlen [c]) with 1 in *.
      exists q2. split; [do 2 f_equal; unfold room; lia|]. rewrite <-app_assoc in Hr2. cbn [app] in Hr2.
      assert (drop (Z.to_nat done) data = c :: drop (Z.to_nat (done + 1)) data) as ->.
      { replace (Z.to_nat (done + 1)) with (S (Z.to_nat done)) by lia. apply drop_S. unfold znth in Hc. rewrite (proj2 (Z.leb_le 0 done)) in Hc by lia. exact Hc. }
      replace (Z.to_nat (Z.min room (Z.of_nat (S n)))) with (S (Z.to_nat (Z.min (MaxLen - (zlen l + 1)) (Z.of_nat n)))) by lia. exact Hr2.
Qed.

Lemma drain_rep : forall fuel q l max_size, queue.rep MaxLen q l -> (length l < fuel)%nat ->
  exists q', drain fuel q max_size = Ret (q', take (Z.to_nat max_size) l) /\ queue.rep MaxLen q' (drop (Z.to_nat max_size) l).
Proof.
  induction fuel as [|fuel IH]; intros q l max_size Hr Hf; [lia|]. cbn [drain]. rewrite (queue.queue_rep_len_size _ _ _ Hr).
  destruct l as [|c l].
  - exists q. rewrite take_nil, drop_nil. split; [reflexivity|exact Hr].
  - rewrite zlen_cons. pose proof (zlen_nonneg l). rewrite Z.gtb_ltb, (proj2 (Z.ltb_lt _ _)) by lia. cbn [andb]. destruct (Z.gtb_spec max_size 0) as [Hm|Hm].
    + destruct (queue.queue_pop_front_rep MaxLen MaxLen_pos MaxLen_int q c l Hr) as (q1 & -> & Hr1). rewrite mbind_Ret.
      destruct (IH q1 l (max_size - 1) Hr1) as (q2 & -> & Hr2); [simpl in Hf; lia|]. rewrite mbind_Ret. exists q2.
      replace (Z.to_nat max_size) with (S (Z.to_nat (max_size - 1))) by lia. split; [reflexivity|exact Hr2].
    + exists q. replace (Z.to_nat max_size) with 0%nat by lia. split; [reflexivity|exact Hr].
Qed.

Lemma drain_all_rep q l max_size : queue.rep MaxLen q l ->
  exists q', drain_all q max_size = Ret (q', take (Z.to_nat max_size) l) /\ queue.rep MaxLen q' (drop (Z.to_nat max_size) l).
Proof. intros Hr. apply drain_rep; [exact Hr|]. rewrite (queue.queue_rep_len_size _ _ _ Hr). unfold zlen. lia. Qed.

(** Reading from a queue that holds something *)
Lemma pop_front_rep b l st fuel max_size : queue.rep MaxLen (queue_of b) l -> l <> [] -> 0 < max_size ->
  exists b', pop_front (S fuel) b st max_size = Ret (b', st, Popped (take (Z.to_nat max_size) l)) /\
    queue.rep MaxLen (queue_of b') (drop (Z.to_nat max_size) l) /\ signal b' = signal b.
Proof.
  intros Hr Hl Hm. unfold pop_front. rewrite (proj2 (Z.eqb_neq max_size 0)) by lia. cbn [pop_loop].
  rewrite (queue.queue_rep_len_size _ _ _ Hr). destruct l as [|c l]; [congruence|]. rewrite zlen_cons. pose proof (zlen_nonneg l). rewrite (proj2 (Z.eqb_neq _ 0)) by lia.
  destruct (drain_all_rep _ _ max_size Hr) as (q & -> & Hq). rewrite mbind_Ret.
  replace (Z.to_nat max_size) with (S (Z.to_nat (max_size - 1))) in * by lia. cbn [take]. eexists. split; [reflexivity|]. split; [exact Hq|reflexivity].
Qed.

(** A reader asking for a negative number of bytes never leaves the kernel
    once the queue holds something. *)
Lemma pop_front_negative b l st fuel max_size : queue.rep MaxLen (queue_of b) l -> l <> [] -> max_size < 0 -> pop_front fuel b st max_size = NoFuel.
Proof.
  intros Hr Hl Hm. unfold pop_front. rewrite (proj2 (Z.eqb_neq max_size 0)) by lia. revert b Hr. induction fuel as [|fuel IH]; intros b Hr; [reflexivity|]. cbn [pop_loop].
  rewrite (queue.queue_rep_len_size _ _ _ Hr). assert (zlen l <> 0) by (destruct l; [congruence|rewrite zlen_cons; pose proof (zlen_nonneg l); lia]).
  rewrite (proj2 (Z.eqb_neq _ 0)) by assumption. destruct (drain_all_rep _ _ max_size Hr) as (q & -> & Hq). rewrite mbind_Ret.
  replace (Z.to_nat max_size) with 0%nat in * by lia. rewrite take_0. apply IH. exact Hq.
Qed.

End ops.
End blocking.
