(* ===== verification/Rtl8139.v ===== *)
(** * The network card driver (kernel/rtl8139.cc)

    The card is a device behind ports ([dev]) that also writes into the
    receive ring ([rx_buffer]: what the ring holds after the accesses so far)
    and reads the transmit buffers.  A waiting reader is switched to from
    inside the interrupt handler; where the handler goes on afterwards is a
    [point]. *)

From S2P Require Import Prelude Queue RingBuffer Pool NetUtils KernelDefs Vfs Memory Machine Pci Sched Blocking.
From stdpp Require Import gmap list.
#[local] Open Scope Z_scope.

Module rtl8139.
Import ports.

Definition IDR0 : Z := 0x00.
Definition TSD0 : Z := 0x10.
Definition TSAD0 : Z := 0x20.
Definition RBSTART : Z := 0x30.
Definition CR : Z := 0x37.
Definition CAPR : Z := 0x38.
Definition IMR : Z := 0x3C.
Definition ISR : Z := 0x3E.
Definition RCR : Z := 0x44.
Definition CONFIG1 : Z := 0x52.
Definition MSR : Z := 0x58.
Definition CR_BUFE : Z := 0x0001.
Definition CR_TE : Z := 0x0004.
Definition CR_RE : Z := 0x0008.
Definition CR_RST : Z := 0x0010.
Definition IMR_ROK : Z := 0x0001.
Definition IMR_TOK : Z := 0x0004.
Definition RCR_AAP : Z := 0x0001.
Definition RCR_APM : Z := 0x0002.
Definition RCR_AM : Z := 0x0004.
Definition RCR_AB : Z := 0x0008.
Definition RCR_WRAP : Z := 0x0080.
Definition RCR_RBLEN_8K : Z := 0x0000.
Definition MSR_LINKB : Z := 0x04.
Definition RXS_ROK : Z := 0x0001.
Definition TSR_OWN : Z := 0x00002000.
Definition TSR_TUN : Z := 0x00004000.
Definition TSR_OWC : Z := 0x20000000.
Definition TSR_TABT : Z := 0x40000000.
Definition TSR_CRS : Z := 0x80000000.
Definition CTRL_NET_HW_ADDR : Z := 0x0010.

Definition rx_ring_size : Z := 8 * 1024.
Definition RX_BUFFER : Z := rx_ring_size + 16 + 1500.
Definition FIFO : Z := 10 * 1024.
Definition PENDING : Z := 10 * 1024.

Definition set (flags bits : Z) : bool := negb (Z.land flags bits =? 0).

(** ** State: the static variables, the ports and the scheduler it calls *)

Record t := mk {
  rx_pos : Z;
  tx_buffers : list (list Z);
  tx_cur_write : Z;
  tx_cur_send : Z;
  process_opened : option Z;
  read_fifo : blocking.t;
  pending_tx : queue.t Z;
  buf : list Z;
  io : trace;
  procs : sched.t
}.
Implicit Type st : t.

Definition set_rx_pos v st := mk v (tx_buffers st) (tx_cur_write st) (tx_cur_send st) (process_opened st) (read_fifo st) (pending_tx st) (buf st) (io st) (procs st).
Definition set_cursors w s st := mk (rx_pos st) (tx_buffers st) w s (process_opened st) (read_fifo st) (pending_tx st) (buf st) (io st) (procs st).
Definition set_tx_buffers v st := mk (rx_pos st) v (tx_cur_write st) (tx_cur_send st) (process_opened st) (read_fifo st) (pending_tx st) (buf st) (io st) (procs st).
Definition set_opened v st := mk (rx_pos st) (tx_buffers st) (tx_cur_write st) (tx_cur_send st) v (read_fifo st) (pending_tx st) (buf st) (io st) (procs st).
Definition set_fifo v st := mk (rx_pos st) (tx_buffers st) (tx_cur_write st) (tx_cur_send st) (process_opened st) v (pending_tx st) (buf st) (io st) (procs st).
Definition set_pending v st := mk (rx_pos st) (tx_buffers st) (tx_cur_write st) (tx_cur_send st) (process_opened st) (read_fifo st) v (buf st) (io st) (procs st).
Definition set_buf v st := mk (rx_pos st) (tx_buffers st) (tx_cur_write st) (tx_cur_send st) (process_opened st) (read_fifo st) (pending_tx st) v (io st) (procs st).
Definition set_io v st := mk (rx_pos st) (tx_buffers st) (tx_cur_write st) (tx_cur_send st) (process_opened st) (read_fifo st) (pending_tx st) (buf st) v (procs st).
Definition set_procs v st := mk (rx_pos st) (tx_buffers st) (tx_cur_write st) (tx_cur_send st) (process_opened st) (read_fifo st) (pending_tx st) (buf st) (io st) v.

(** Static storage is zero. *)
Definition initial (procs : sched.t) : t :=
  mk 0 (replicate 4 (replicate 1516 0)) 0 0 None (blocking.new (replicate (Z.to_nat FIFO) 0)) (queue.init (replicate (Z.to_nat PENDING) 0)) (replicate 1600 0) [] procs.

Section driver.
Variable dev : device.
Variable card : pci.pci_device.
(** The receive ring in memory, and where the linker puts the buffers *)
Variable rx_buffer : trace -> list Z.
Variables rx_address tx_address : Z.

Definition port (reg : Z) : Z := pci.iobase card + reg.
Definition out8 (reg v : Z) st : t := set_io (outb (io st) (port reg) v) st.
Definition out16 (reg v : Z) st : t := set_io (outw (io st) (port reg) v) st.
Definition out32 (reg v : Z) st : t := set_io (outd (io st) (port reg) v) st.
Definition in8 (reg : Z) st : t * Z := let '(tr, v) := inb dev (io st) (port reg) in (set_io tr st, v).
Definition in16 (reg : Z) st : t * Z := let '(tr, v) := inw dev (io st) (port reg) in (set_io tr st, v).
Definition in32 (reg : Z) st : t * Z := let '(tr, v) := ind dev (io st) (port reg) in (set_io tr st, v).

(** ** Sending *)

(** [while (length < 60) buffer[length++] = 0;] *)
Fixpoint pad (n : nat) (buffer : list Z) (length : Z) : outcome (list Z * Z) :=
  match n with
  | O => Ret (buffer, length)
  | S n' => if length <? 60 then b ← arr_set buffer length 0; pad n' b (length + 1) else Ret (buffer, length)
  end.

Definition transmit st (data : list Z) (length : Z) : outcome (t * Z) :=
  if tx_cur_write st >=? u32 (tx_cur_send st + 4) then Ret (st, -1)
  else
    let write_desc := tx_cur_write st mod 4 in
    let '(st, current_desc_status) := in32 (TSD0 + write_desc * 4) st in
    if negb (set current_desc_status TSR_OWN) then Ret (st, -1)
    else
      buffer ← arr_get (tx_buffers st) write_desc;
      buffer ← arr_blit buffer 0 data (Z.min length 1500);
      '(buffer, length) ← pad 60 buffer length;
      let st := set_tx_buffers (zset (tx_buffers st) write_desc buffer) st in
      let new_desc_status := Z.lor (Z.land length 0x1FFF) (Z.shiftl 9 16) in
      let st := out32 (TSAD0 + write_desc * 4) (memory.KERNVIRT2PHYS (tx_address + write_desc * 1516)) st in
      let st := out32 (TSD0 + write_desc * 4) new_desc_status st in
      Ret (set_cursors (u32 (tx_cur_write st + 1)) (tx_cur_send st) st, 0).

(** The loop of [write] *)
Fixpoint send_loop (fuel : nat) st : outcome t :=
  match fuel with
  | O => NoFuel
  | S fuel' =>
      if ring_buffer.size (pending_tx st) >=? 2 then
        bytes ← ring_buffer.peek PENDING (pending_tx st) 0 2;
        match bytes with
        | [b0; b1] =>
            let packet_size := bytes.of_le16 b0 b1 in
            if ring_buffer.size (pending_tx st) <? 2 + packet_size then Ret st
            else
              '(q, consumed_header) ← ring_buffer.consume PENDING (pending_tx st) 2;
              passert (consumed_header =? 2);;
              '(q, payload) ← ring_buffer.read_front PENDING q packet_size;
              b ← arr_blit (buf st) 0 payload (zlen payload);
              passert (zlen payload =? packet_size);;
              '(st, _) ← transmit (set_buf b (set_pending q st)) b packet_size;
              send_loop fuel' st
        | _ => Ret st
        end
      else Ret st
  end.

Definition write st (data : list Z) (length : Z) : outcome (t * Z) :=
  passert (length >? 0);;
  let bytes_writable := Z.min (ring_buffer.capacity PENDING) length in
  if zlen data <? bytes_writable then Undef
  else
    '(q, ok) ← ring_buffer.write PENDING (pending_tx st) (take (Z.to_nat bytes_writable) data) (-1);
    if ok : bool then
      st ← send_loop (S (Z.to_nat PENDING)) (set_pending q st);
      Ret (st, bytes_writable)
    else Ret (st, 0).

(** ** The interrupt *)

Fixpoint retire (n : nat) st : t :=
  match n with
  | O => st
  | S n' =>
      if tx_cur_send st <? tx_cur_write st then
        let send_desc := tx_cur_send st mod 4 in
        let '(st, status) := in32 (TSD0 + send_desc * 4) st in
        if set status (Z.lor (Z.lor (Z.lor TSR_TUN TSR_OWC) TSR_TABT) TSR_CRS) || set status TSR_OWN
        then retire n' (set_cursors (tx_cur_write st) (u32 (tx_cur_send st + 1)) st)
        else st
      else st
  end.

(** Where [receive] goes on *)
Inductive point :=
| Next                      (** the head of the loop *)
| PushData (size : Z)       (** the length was pushed *)
| Advance (size : Z).       (** the contents were pushed *)

Definition data_size (packet_size : Z) : Z := u16 (packet_size - 4).

(** The contents that are pushed; the buffer may end first. *)
Definition packet_data (tr : trace) (pos : Z) : list Z := drop (Z.to_nat pos) (rx_buffer tr).

Definition push (k : t -> outcome (t * option (Z * point))) (next : point) st (data : list Z) (length : Z) : outcome (t * option (Z * point)) :=
  '(b, p, _, woken) ← blocking.push_back FIFO (read_fifo st) (procs st) data length;
  let st := set_procs p (set_fifo b st) in
  match woken with Some idx => Ret (st, Some (idx, next)) | None => k st end.

(** [receive], up to its end or to the switch to a waiting reader *)
Fixpoint receive (fuel : nat) (at_ : point) st : outcome (t * option (Z * point)) :=
  match fuel with
  | O => NoFuel
  | S fuel' =>
      match at_ with
      | Next =>
          let '(st, cr) := in8 CR st in
          if set cr CR_BUFE then Ret (st, None)
          else
            let pos := rx_pos st in
              b0 ← arr_get (rx_buffer (io st)) pos;
              b1 ← arr_get (rx_buffer (io st)) (pos + 1);
              b2 ← arr_get (rx_buffer (io st)) (pos + 2);
              b3 ← arr_get (rx_buffer (io st)) (pos + 3);
              let packet_status := bytes.of_le16 b0 b1 in
              let packet_size := bytes.of_le16 b2 b3 in
              let st := set_rx_pos (u16 (pos + 4)) st in
              if negb (set packet_status RXS_ROK) || (packet_size >? 1518) then
                receive fuel' (Advance 0) (out8 CR (Z.lor CR_TE CR_RE) (set_rx_pos 0 st))
              else
                match process_opened st with
                | Some _ => push (receive fuel' (PushData packet_size)) (PushData packet_size) st (bytes.le16 (data_size packet_size)) 2
                | None => receive fuel' (Advance packet_size) st
                end
      | PushData size =>
          push (receive fuel' (Advance size)) (Advance size) st (packet_data (io st) (rx_pos st)) (data_size size)
      | Advance size =>
          let pos := Z.rem (kdefs.ALIGN_UP (rx_pos st + size) 4) rx_ring_size in
          receive fuel' Next (out16 CAPR (pos - 16) (set_rx_pos pos st))
      end
  end.

(** The end of the handler *)
Definition finish st : t :=
  let st := if tx_cur_send st >=? 4 then set_cursors (u32 (tx_cur_write st - 4)) (u32 (tx_cur_send st - 4)) st else st in
  let st := out32 ISR 0xFFFF st in
  set_io (x86.irq_eoi (io st) (pci.irq card)) st.

Definition after_receive (r : t * option (Z * point)) : t * option (Z * point) :=
  let '(st, switched) := r in match switched with Some _ => (st, switched) | None => (finish st, None) end.

(** [int_rtl8139], up to its end or to a switch *)
Definition int_rtl8139 (fuel : nat) st : outcome (t * option (Z * point)) :=
  let '(st, status) := in16 ISR st in
  let st := out16 ISR status st in
  let st := if set status IMR_TOK then retire (Z.to_nat (tx_cur_write st - tx_cur_send st)) st else st in
  if set status IMR_ROK then r ← receive fuel Next st; Ret (after_receive r) else Ret (finish st, None).

(** The handler runs again after it has woken [idx]. *)
Definition int_resumed (fuel : nat) st (idx : Z) (at_ : point) : outcome (t * option (Z * point)) :=
  '(b, p, woken) ← blocking.push_back_resumed (read_fifo st) (procs st) idx;
  let st := set_procs p (set_fifo b st) in
  match woken with
  | Some idx' => Ret (st, Some (idx', at_))
  | None => r ← receive fuel at_ st; Ret (after_receive r)
  end.

(** ** The driver operations *)

Definition open st : t * Z :=
  match process_opened st with
  | Some _ => (st, kdefs.EBUSY)
  | None => (set_opened (sched.proc_current_pid (procs st)) st, 0)
  end.

Definition close st : outcome (t * Z) :=
  match process_opened st with
  | None => Ret (st, kdefs.EINVVAL)
  | Some p =>
      match sched.proc_current_pid (procs st) with
      | None => Panic
      | Some c => if p =? c then Ret (set_opened None st, 0) else Ret (st, kdefs.EINVVAL)
      end
  end.

Definition read (fuel : nat) st (length : Z) : outcome (t * blocking.pop_result) :=
  '(b, p, r) ← blocking.pop_front FIFO fuel (read_fifo st) (procs st) length; Ret (set_procs p (set_fifo b st), r).

Definition read_resumed (fuel : nat) st (length idx ret : Z) : outcome (t * blocking.pop_result) :=
  '(b, p, r) ← blocking.pop_front_resumed FIFO fuel (read_fifo st) (procs st) length idx ret; Ret (set_procs p (set_fifo b st), r).

Definition mac_bytes (mac0 mac1 : Z) : list Z :=
  [Z.land mac0 0xFF; Z.land (Z.shiftr mac0 8) 0xFF; Z.land (Z.shiftr mac0 16) 0xFF; Z.land (Z.shiftr mac0 24) 0xFF; Z.land mac1 0xFF; Z.land (Z.shiftr mac1 8) 0xFF].

(** [print_hwaddress] and [control] read the address in the same way; the
    words that [control] stores are bytes at [param1].  [valid] is the pointer
    check. *)
Definition hwaddress st : t * list Z :=
  let '(st, mac0) := in32 IDR0 st in let '(st, mac1) := in16 (IDR0 + 4) st in (st, mac_bytes mac0 mac1).

Definition control (valid : Z -> bool) st (function param1 : Z) : t * vfs.ctl :=
  if function =? CTRL_NET_HW_ADDR then
    if valid param1 then
      let '(st, mac) := hwaddress st in (st, vfs.CtlRet 0 (imap (fun i b => (param1 + Z.of_nat i, b)) mac))
    else (st, vfs.CtlKilled [])
  else (st, vfs.CtlRet (-1) []).

(** ** Initialisation *)

(** [while ((inb(CR) & CR_RST) != 0);] *)
Fixpoint wait_reset (fuel : nat) st : outcome t :=
  match fuel with
  | O => NoFuel
  | S fuel' => let '(st, v) := in8 CR st in if set v CR_RST then wait_reset fuel' st else Ret st
  end.

(** [rtl8139_init] up to the mount point, once a card was found; [false] when
    there is no link *)
Definition start (fuel : nat) st : outcome (t * bool) :=
  let '(tr, pci_cmd) := pci.pci_read_command dev (io st) card in
  let st := set_io (pci.pci_write_command dev tr card (u16 (Z.lor pci_cmd 4))) st in
  passert (negb (pci.mmio card));;
  let st := out8 CR CR_RST (out8 CONFIG1 0 st) in
  st ← wait_reset fuel st;
  let st := out32 RBSTART (memory.KERNVIRT2PHYS rx_address) st in
  let st := out16 IMR (Z.lor IMR_ROK IMR_TOK) st in
  let st := out32 RCR (Z.lor (Z.lor (Z.lor (Z.lor (Z.lor RCR_WRAP RCR_RBLEN_8K) RCR_AAP) RCR_APM) RCR_AM) RCR_AB) st in
  let st := out8 CR (Z.lor CR_TE CR_RE) st in
  let '(st, msr) := in8 MSR st in
  if set msr MSR_LINKB then Ret (st, false)
  else let '(st, _) := hwaddress st in Ret (st, true).

(** The rest: the interrupt, and the node /dev/eth0; the driver is number
    [driver_no] of the registered ones. *)
Definition register {D} (address : x86.isr -> Z) (junk : list Z) (driver_no : Z) (v : vfs.t D) st (m : x86.t) : outcome (vfs.t D * t * x86.t) :=
  m ← x86.int_register m (x86.IRQ_BASE_INTERRUPT + pci.irq card) (address x86.isr_rtl8139) x86.KERNEL_CODE_SEL x86.gate;
  tr ← x86.irq_enable dev (io st) (pci.irq card);
  '(v, mountpoint) ← vfs.vfs_create_node v vfs.VFS_FILESYSTEM;
  v ← vfs.vfs_set_driver v mountpoint (Some (vfs.Registered driver_no)) 0;
  d ← vfs.vfs_lookup junk v [47; 100; 101; 118; 47];
  v ← vfs.vfs_add_dirent junk v d [101; 116; 104; 48] mountpoint;
  Ret (v, set_io tr st, x86.set_io m tr).

End driver.

(** [rtl8139_init]; the port accesses so far are those of the machine. *)
Definition rtl8139_init {D} (dev : device) (address : x86.isr -> Z) (rx_address : Z) (junk : list Z) (driver_no : Z) (fuel : nat) (devices : fixed_pool pci.pci_device)
    (v : vfs.t D) st (m : x86.t) : outcome (vfs.t D * t * x86.t) :=
  match pci.pci_find_device devices 0x10EC 0x8139 with
  | None => Ret (v, st, m)
  | Some card =>
      '(st, link) ← start dev card rx_address fuel (set_io (x86.io m) st);
      if link : bool then register dev card address junk driver_no v st m else Ret (v, st, x86.set_io m (io st))
  end.

End rtl8139.
