(* ===== verification/Terminal.v ===== *)
(** * Terminals and the keyboard (kernel/terminal.cc, terminal_private.h, keyboard.cc, serial.cc)

    A terminal edits a line in memory and on its screen buffer, and hands
    complete lines to the readers of its device.  The keyboard turns scan
    codes into key codes; the serial line is a second source of keys. *)

From S2P Require Import Prelude Queue Pool Text KernelDefs Vfs Screen Sched Blocking.
From stdpp Require Import gmap.
#[local] Open Scope Z_scope.

Module terminal.
Import screen.

(** ** class terminal *)

Record terminal := mk_terminal { screen_buf : Z; line_buffer : str.t; input_queue : blocking.t }.

Definition QUEUE_SIZE : Z := 1000.

(** The constructor; [storage] is what the queue and the line find in memory. *)
Definition new_terminal (buffer : Z) (line storage : list Z) : outcome terminal :=
  l ← str.new line; Ret (mk_terminal buffer l (blocking.new storage)).

(** [on_key] up to the switch to a waiting reader; [junk] is the storage of
    the copy of the line. *)
Definition on_key (t : terminal) (s : screen.t) (st : sched.t) (junk : list Z) (keycode : Z) : outcome (terminal * screen.t * sched.t * option Z) :=
  if keycode >=? 0x7F then Ret (t, s, st, None)
  else
    let buf := [keycode; 0] in
    let line := line_buffer t in
    if keycode =? 10 then
      if (str.size line >=? str.capacity line - 1) || blocking.full QUEUE_SIZE (input_queue t) then Ret (t, s, st, None)
      else
        line ← str.append line keycode;
        s ← screen_print s (screen_buf t) buf (-1);
        buffer ← str.copy junk line;
        line ← str.clear line;
        '(q, st, bytes_pushed, woken) ← blocking.push_back QUEUE_SIZE (input_queue t) st (str.storage buffer) (str.size buffer);
        passert (negb (bytes_pushed =? 0));;
        Ret (mk_terminal (screen_buf t) line q, s, st, woken)
    else if keycode =? 8 then
      if str.size line >? 0 then
        s ← screen_print s (screen_buf t) [8; 0] (-1);
        line ← str.backspace line;
        Ret (mk_terminal (screen_buf t) line (input_queue t), s, st, None)
      else Ret (t, s, st, None)
    else if (str.size line >=? str.capacity line - 2) || blocking.full QUEUE_SIZE (input_queue t) then Ret (t, s, st, None)
    else
      line ← str.append line keycode;
      s ← screen_print s (screen_buf t) buf (-1);
      Ret (mk_terminal (screen_buf t) line (input_queue t), s, st, None).

Definition focus (t : terminal) (s : screen.t) : outcome screen.t := screen_switch_buffer s (screen_buf t).

Definition terminal_write (t : terminal) (s : screen.t) (data : list Z) (length : Z) : outcome (screen.t * Z) :=
  s ← screen_print s (screen_buf t) data length; Ret (s, length).

Definition terminal_read (fuel : nat) (t : terminal) (st : sched.t) (length : Z) : outcome (terminal * sched.t * blocking.pop_result) :=
  '(q, st, r) ← blocking.pop_front QUEUE_SIZE fuel (input_queue t) st length;
  Ret (mk_terminal (screen_buf t) (line_buffer t) q, st, r).

Definition terminal_read_resumed (fuel : nat) (t : terminal) (st : sched.t) (length idx ret : Z) : outcome (terminal * sched.t * blocking.pop_result) :=
  '(q, st, r) ← blocking.pop_front_resumed QUEUE_SIZE fuel (input_queue t) st length idx ret;
  Ret (mk_terminal (screen_buf t) (line_buffer t) q, st, r).

(** ** The state of terminal.cc, with the screen and the scheduler it calls *)

Record t := mk { terminals : fixed_pool terminal; current_terminal : Z; scr : screen.t; procs : sched.t }.
Implicit Type c : t.

Definition set_scr c (s : screen.t) : t := mk (terminals c) (current_terminal c) s (procs c).
Definition set_procs c (st : sched.t) : t := mk (terminals c) (current_terminal c) (scr c) st.

Definition store c (h : Z) (x : terminal) (s : screen.t) (st : sched.t) : outcome t :=
  p ← pool.modify U16_MAX (terminals c) h (fun _ => x); Ret (mk p (current_terminal c) s st).

Definition focus_terminal c (term_id : Z) : outcome t :=
  if negb (pool.valid U16_MAX (terminals c) term_id) then Ret c
  else
    x ← pool.get U16_MAX (terminals c) term_id;
    s ← focus x (scr c);
    Ret (mk (terminals c) term_id s (procs c)).

Definition term_keypress c (junk : list Z) (keycode : Z) : outcome (t * option Z) :=
  let special_code := u8 (Z.shiftr keycode 8) in
  if (special_code >=? 1) && (special_code <=? 12) then c ← focus_terminal c (special_code - 1); Ret (c, None)
  else
    x ← pool.get U16_MAX (terminals c) (current_terminal c);
    '(x, s, st, woken) ← on_key x (scr c) (procs c) junk keycode;
    c ← store c (current_terminal c) x s st;
    Ret (c, woken).

(** The driver: [write], [read] and [open]. *)
Definition write c (handle : Z) (data : list Z) (length : Z) : outcome (t * Z) :=
  x ← pool.get U16_MAX (terminals c) handle;
  '(s, n) ← terminal_write x (scr c) data length;
  Ret (set_scr c s, n).

Definition read (fuel : nat) c (handle length : Z) : outcome (t * blocking.pop_result) :=
  x ← pool.get U16_MAX (terminals c) handle;
  '(x, st, r) ← terminal_read fuel x (procs c) length;
  c ← store c handle x (scr c) st;
  Ret (c, r).

Definition read_resumed (fuel : nat) c (handle length idx ret : Z) : outcome (t * blocking.pop_result) :=
  x ← pool.get U16_MAX (terminals c) handle;
  '(x, st, r) ← terminal_read_resumed fuel x (procs c) length idx ret;
  c ← store c handle x (scr c) st;
  Ret (c, r).

Definition open (device : vfs.vfs_device) (path : list Z) : outcome Z :=
  passert (match path with [] => true | ch :: _ => ch =? 0 end);; Ret (vfs.vfs_get_opaque device).

(** [create_terminal]; the driver is number [driver_no] of the registered ones *)
Definition create_terminal {D} (junk32 line storage : list Z) (driver_no : Z) (v : vfs.t D) c (name : list Z) (buffer : Z) : outcome (vfs.t D * t) :=
  x ← new_terminal buffer line storage;
  '(p, term_id) ← pool.emplace_anywhere U16_MAX (terminals c) x;
  '(v, term_driver) ← vfs.vfs_create_node v vfs.VFS_CHAR_DEVICE;
  v ← vfs.vfs_set_driver v term_driver (Some (vfs.Registered driver_no)) term_id;
  dev ← vfs.vfs_lookup junk32 v [47; 100; 101; 118; 47];
  v ← vfs.vfs_add_dirent junk32 v dev name term_driver;
  Ret (v, mk p (if current_terminal c =? U16_MAX then term_id else current_terminal c) (scr c) (procs c)).

(** The global objects *)
Definition initial (s : screen.t) (st : sched.t) : t := mk (new_fixed_pool 16) U16_MAX s st.

(** [term_init]: "term0" on the screen that is shown, "term1" to "term4" on
    screens of their own *)
Fixpoint create_terminals {D} (n : nat) (i : Z) (junk32 line storage cells : list Z) (driver_no : Z) (v : vfs.t D) c : outcome (vfs.t D * t) :=
  match n with
  | O => Ret (v, c)
  | S n' =>
      '(s, buffer) ← screen_create_buffer (scr c) cells;
      nm ← fmt.format (replicate 10 0) [116; 101; 114; 109; 37; 100] [fmt.ANum i];
      name ← str.c_str nm;
      '(v, c) ← create_terminal junk32 line storage driver_no v (set_scr c s) name buffer;
      create_terminals n' (i + 1) junk32 line storage cells driver_no v c
  end.

Definition term_init {D} (junk32 line storage cells : list Z) (driver_no : Z) (v : vfs.t D) c : outcome (vfs.t D * t) :=
  '(v, c) ← create_terminal junk32 line storage driver_no v c [116; 101; 114; 109; 48] (current_buffer (scr c));
  create_terminals 4 1 junk32 line storage cells driver_no v c.

(** ** The serial line as a source of keys *)

(** [int_com1]: [pending] is what the receiver holds; a switch to a reader
    ends the handler with the characters that are left. *)
Fixpoint int_com1 c (junk : list Z) (pending : list Z) : outcome (t * list Z * option Z) :=
  match pending with
  | [] => Ret (c, [], None)
  | ch :: pending' =>
      let key := if ch =? 13 then 10 else if ch =? 0x7F then 8 else if ch >=? 0x80 then u16 (ch - 0x100) else ch in
      '(c, woken) ← term_keypress c junk key;
      match woken with Some _ => Ret (c, pending', woken) | None => int_com1 c junk pending' end
  end.

End terminal.

(** ** keyboard.cc *)
Module keyboard.

Record scancode_mapping := mk_map { no_mod : Z; shift_mod : Z; ctrl_mod : Z }.

Definition VK_F (n : Z) : Z := n * 0x100 + 0xFF.
Definition VK_LEFT : Z := 0x11FF.
Definition VK_RIGHT : Z := 0x12FF.
Definition VK_UP : Z := 0x13FF.
Definition VK_DOWN : Z := 0x14FF.

Definition none : scancode_mapping := mk_map (-1) (-1) (-1).

(** The rows of the table up to [VK_DOWN]; the others are zero. *)
Definition mapped : list scancode_mapping := [
  none; mk_map 27 27 27; mk_map 49 33 (-1); mk_map 50 34 (-1); mk_map 51 35 (-1); mk_map 52 36 (-1); mk_map 53 37 (-1); mk_map 54 38 (-1);
  mk_map 55 47 (-1); mk_map 56 40 (-1); mk_map 57 41 (-1); mk_map 48 61 (-1); mk_map 43 63 (-1); mk_map 96 96 (-1); mk_map 8 8 (-1); mk_map 9 9 (-1);
  mk_map 113 81 0x11; mk_map 119 87 0x17; mk_map 101 69 0x05; mk_map 114 82 0x12; mk_map 116 84 0x14; mk_map 121 89 0x19; mk_map 117 85 0x15;
  mk_map 105 73 0x09; mk_map 111 79 (-1); mk_map 112 80 0x10; mk_map 97 65 (-1); mk_map 94 94 (-1); mk_map 10 10 (-1);
  none;
  mk_map 97 65 0x01; mk_map 115 83 0x13; mk_map 100 68 0x04; mk_map 102 70 0x06; mk_map 103 71 0x07; mk_map 104 72 0x08; mk_map 106 74 0x0A;
  mk_map 107 75 0x0B; mk_map 108 76 0x0C; mk_map 111 79 0x0F; mk_map 97 65 (-1); mk_map 60 62 (-1);
  none; mk_map 42 42 (-1);
  mk_map 122 90 0x1A; mk_map 120 88 0x18; mk_map 99 67 0x03; mk_map 118 86 0x16; mk_map 98 66 0x02; mk_map 110 78 0x0E; mk_map 109 77 0x0D;
  mk_map 44 59 (-1); mk_map 46 58 (-1); mk_map 45 95 (-1);
  none; mk_map 65 65 (-1); none; mk_map 32 32 (-1); none;
  mk_map (VK_F 1) (VK_F 1) (-1); mk_map (VK_F 2) (VK_F 2) (-1); mk_map (VK_F 3) (VK_F 3) (-1); mk_map (VK_F 4) (VK_F 4) (-1);
  mk_map (VK_F 5) (VK_F 5) (-1); mk_map (VK_F 6) (VK_F 6) (-1); mk_map (VK_F 7) (VK_F 7) (-1); mk_map (VK_F 8) (VK_F 8) (-1);
  mk_map (VK_F 9) (VK_F 9) (-1); mk_map (VK_F 10) (VK_F 10) (-1); mk_map (VK_F 11) (VK_F 11) (-1);
  none; none; mk_map VK_UP VK_UP (-1); none; none; mk_map VK_LEFT VK_LEFT (-1); none; mk_map VK_RIGHT VK_RIGHT (-1);
  none; none; mk_map VK_DOWN VK_DOWN (-1) ].

Definition scancode_set1_map : list scancode_mapping := mapped ++ replicate (255 - length mapped) (mk_map 0 0 0).

Record state := mk_state { shift_depressed : bool; ctrl_depressed : bool }.

(** What one byte of the controller does: the new state, and the key code if
    it is not zero *)
Definition key_of (k : state) (scancode : Z) : outcome (state * option Z) :=
  if scancode =? 0xE0 then Ret (k, None)
  else
    let break_code := scancode >=? 0x80 in
    let scancode := if break_code then scancode - 0x80 else scancode in
    let k :=
      if (scancode =? 0x2A) || (scancode =? 0x36) then mk_state (negb break_code) (ctrl_depressed k)
      else if scancode =? 0x1D then mk_state (shift_depressed k) (negb break_code)
      else k in
    if break_code then Ret (k, None)
    else
      m ← arr_get scancode_set1_map scancode;
      let key_code := if shift_depressed k then shift_mod m else if ctrl_depressed k then ctrl_mod m else no_mod m in
      Ret (k, if key_code =? 0 then None else Some key_code).

(** The loop of [int_kbd] over the bytes the controller holds: the key code
    it ends with, and the bytes that are left *)
Fixpoint kbd_loop (n : nat) (k : state) (pending : list Z) : outcome (state * list Z * option Z) :=
  match n, pending with
  | S n', scancode :: pending' =>
      '(k, key) ← key_of k scancode;
      match key with Some _ => Ret (k, pending', key) | None => kbd_loop n' k pending' end
  | _, _ => Ret (k, pending, None)
  end.

Definition int_kbd (k : state) (c : terminal.t) (junk pending : list Z) : outcome (state * terminal.t * list Z * option Z) :=
  '(k, pending, key) ← kbd_loop 4 k pending;
  match key with
  | Some key_code => '(c, woken) ← terminal.term_keypress c junk (u16 key_code); Ret (k, c, pending, woken)
  | None => Ret (k, c, pending, None)
  end.

End keyboard.
