(* ===== verification/TerminalFacts.v ===== *)
(** * Typing and reading lines

    What the line editor of a terminal does with keys, what its readers get,
    and how a key on the keyboard wakes a reader. *)

From S2P Require Import Prelude Queue Pool Text KernelDefs Vfs Screen ScreenFacts Sched SchedFacts Blocking Terminal.
From stdpp Require Import gmap list.
#[local] Open Scope Z_scope.

Module editor.
Import terminal.

(** ** The reference: a line and the input handed over so far *)

Definition LINE : Z := 198.
Definition blocked (line input : list Z) : bool := (zlen line >=? LINE) || (zlen input =? QUEUE_SIZE).

(** Is the key the end of a line that is handed over? *)
Definition submits (line input : list Z) (k : Z) : bool := (k =? 10) && negb (zlen input =? QUEUE_SIZE).

Definition edit (line input : list Z) (k : Z) : list Z * list Z :=
  if k >=? 0x7F then (line, input)
  else if k =? 10 then if submits line input k then ([], take (Z.to_nat QUEUE_SIZE) (input ++ line ++ [10])) else (line, input)
  else if k =? 8 then (removelast line, input)
  else if blocked line input then (line, input)
  else (line ++ [k], input).

(** What the key prints *)
Definition echo (line input : list Z) (k : Z) : list Z :=
  if k >=? 0x7F then []
  else if k =? 10 then if submits line input k then [10] else []
  else if k =? 8 then if zlen line >? 0 then [8] else []
  else if blocked line input then [] else [k].

Fixpoint print_keys (s : screen.t) (h : Z) (ks : list Z) : outcome screen.t :=
  match ks with [] => Ret s | k :: ks' => s ← screen.screen_print s h [k; 0] (-1); print_keys s h ks' end.

(** A terminal that holds [line] and [input] *)
Record editing (t : terminal) (line input : list Z) : Prop := {
  ed_line : str.rep (line_buffer t) line;
  ed_capacity : str.capacity (line_buffer t) = 200;
  ed_length : zlen line <= LINE;
  ed_input : queue.rep QUEUE_SIZE (blocking.queue_of (input_queue t)) input
}.

Lemma QUEUE_pos : 0 < QUEUE_SIZE.
Proof. reflexivity. Qed.
Lemma QUEUE_int : 2 * QUEUE_SIZE <= INT_MAX.
Proof. unfold QUEUE_SIZE, INT_MAX. lia. Qed.

Lemma print_key s h k : display.printable s h -> 0 < k -> exists s', screen.screen_print s h [k; 0] (-1) = Ret s' /\ display.printable s' h.
Proof.
  intros Hp Hk. apply (display.screen_print_cs s h [k] []); [exact Hp| |unfold zlen, INT_MAX; simpl; lia]. rewrite list_elem_of_singleton. lia.
Qed.

Lemma full_input t line input : editing t line input -> blocking.full QUEUE_SIZE (input_queue t) = (zlen input =? QUEUE_SIZE).
Proof. intros He. apply queue.queue_rep_full, (ed_input _ _ _ He). Qed.

Lemma size_line t line input : editing t line input -> str.size (line_buffer t) = zlen line.
Proof. intros He. exact (str.rep_position _ _ (ed_line _ _ _ He)). Qed.

Lemma removelast_snoc (l : list Z) c : removelast (l ++ [c]) = l.
Proof. rewrite removelast_app by discriminate. simpl. apply app_nil_r. Qed.

(** Handing over a line; the reader that waits is notified. *)
Lemma submit_line t line input st st' w junk : editing t line input -> zlen junk = 200 -> zlen input <> QUEUE_SIZE ->
  sched.notify_all (blocking.signal (input_queue t)) st = Ret (st', w) ->
  exists l1 l2 buffer q, str.append (line_buffer t) 10 = Ret l1 /\ str.copy junk l1 = Ret buffer /\ str.clear l1 = Ret l2 /\
    blocking.push_back QUEUE_SIZE (input_queue t) st (str.storage buffer) (str.size buffer) = Ret (q, st', Z.min (QUEUE_SIZE - zlen input) (zlen line + 1), w) /\
    editing (mk_terminal (screen_buf t) l2 q) [] (take (Z.to_nat QUEUE_SIZE) (input ++ line ++ [10])) /\ blocking.signal q = blocking.signal (input_queue t).
Proof.
  intros [Hl Hc Hlen Hq] Hj Hne Hn. pose proof (zlen_nonneg line). pose proof (str.str_append _ _ 10 Hl) as Ha. rewrite Hc, (proj2 (Z.ltb_lt _ _)) in Ha by (unfold LINE in Hlen; lia).
  destruct Ha as (l1 & E1 & H1 & C1). assert (zlen (line ++ [10]) = zlen line + 1) as Hz by (rewrite zlen_app; reflexivity).
  destruct (str.str_copy junk l1 _ H1) as (buffer & E2 & H2); [unfold LINE in Hlen; lia|]. destruct (str.str_clear l1 _ H1) as (l2 & E3 & H3 & C3).
  assert (str.size buffer = zlen line + 1) as Hs by (rewrite <-Hz; exact (str.rep_position _ _ H2)). pose proof (str.str_rep_room _ _ H2) as Hroom.
  destruct (blocking.push_loop_rep QUEUE_SIZE QUEUE_pos QUEUE_int (Z.to_nat (str.size buffer)) (blocking.queue_of (input_queue t)) input (str.storage buffer) 0 Hq) as (q & Eq & Hq');
    [lia|unfold str.capacity in Hroom; lia|]. rewrite Hs, Z2Nat.id in Eq, Hq' by lia. rewrite Z.add_0_l in Eq. pose proof (queue.rep_cap _ _ _ Hq) as Hcap.
  exists l1, l2, buffer, (blocking.mk q (blocking.signal (input_queue t))). split; [exact E1|]. split; [exact E2|]. split; [exact E3|]. split; [|split; [constructor|reflexivity]].
  - unfold blocking.push_back. rewrite Hs, Eq, mbind_Ret, (proj2 (Z.eqb_neq _ 0)) by lia. cbn [blocking.signal]. rewrite Hn, mbind_Ret. reflexivity.
  - exact H3.
  - cbn [line_buffer]. congruence.
  - vm_compute. discriminate.
  - cbn [input_queue blocking.queue_of]. rewrite drop_0 in Hq'. destruct (str.str_rep_split _ _ H2) as [rest Hst]. rewrite Hst in Hq'.
    assert (take (Z.to_nat (Z.min (QUEUE_SIZE - zlen input) (zlen line + 1))) ((line ++ [10]) ++ 0 :: rest) = take (Z.to_nat (QUEUE_SIZE - zlen input)) (line ++ [10])) as Ht.
    { destruct (Z.le_ge_cases (QUEUE_SIZE - zlen input) (zlen line + 1)) as [Hle|Hge].
      - rewrite Z.min_l by exact Hle. apply take_app_le. unfold zlen in *. lia.
      - rewrite Z.min_r by exact Hge. rewrite take_app_length', take_ge by (unfold zlen in *; lia). reflexivity. }
    rewrite Ht in Hq'. replace (take (Z.to_nat QUEUE_SIZE) (input ++ line ++ [10])) with (input ++ take (Z.to_nat (QUEUE_SIZE - zlen input)) (line ++ [10])); [exact Hq'|].
    rewrite (take_app_ge input) by (unfold zlen in Hcap; lia). do 2 f_equal. unfold zlen. lia.
Qed.

(** [on_key] on every branch *)
Lemma on_key_edits t line input s st st' w junk k : editing t line input -> display.printable s (screen_buf t) -> zlen junk = 200 -> 0 < k ->
  (if submits line input k then sched.notify_all (blocking.signal (input_queue t)) st = Ret (st', w) else st' = st /\ w = None) ->
  exists t' s', on_key t s st junk k = Ret (t', s', st', w) /\ editing t' (edit line input k).1 (edit line input k).2 /\
    print_keys s (screen_buf t) (echo line input k) = Ret s' /\ display.printable s' (screen_buf t) /\ screen_buf t' = screen_buf t /\
    blocking.signal (input_queue t') = blocking.signal (input_queue t).
Proof.
  intros He Hs Hj Hk Hn. pose proof (size_line _ _ _ He) as Hsz. pose proof (full_input _ _ _ He) as Hf. pose proof (ed_capacity _ _ _ He) as Hcap. pose proof (ed_length _ _ _ He) as Hlen.
  unfold on_key, edit, echo in *. destruct (Z.geb_spec k 0x7F) as [H7|H7].
  { assert (submits line input k = false) as Hsub by (unfold submits; rewrite (proj2 (Z.eqb_neq k 10)) by lia; reflexivity). rewrite Hsub in Hn. destruct Hn as [-> ->].
    exists t, s. repeat (split; [solve [reflexivity|assumption]|]). reflexivity. }
  assert ((zlen line >=? 200 - 1) = false) as H199 by (apply not_true_is_false; rewrite Z.geb_le; unfold LINE in Hlen; lia).
  destruct (Z.eqb_spec k 10) as [->|H10].
  - rewrite Hsz, Hcap, Hf, H199. cbn [orb]. unfold submits in *. change (10 =? 10) with true in *. cbn [andb] in *. destruct (Z.eqb_spec (zlen input) QUEUE_SIZE) as [Hq|Hq]; cbn [negb] in *.
    + destruct Hn as [-> ->]. exists t, s. repeat (split; [solve [reflexivity|assumption]|]). reflexivity.
    + destruct (submit_line t line input st st' w junk He Hj Hq Hn) as (l1 & l2 & buffer & q & E1 & E2 & E3 & E4 & He' & Hsig).
      destruct (print_key s (screen_buf t) 10 Hs ltac:(lia)) as (s1 & Es & Hs1). rewrite E1, mbind_Ret, Es, mbind_Ret, E2, mbind_Ret, E3, mbind_Ret, E4, mbind_Ret.
      pose proof (zlen_nonneg line). pose proof (queue.rep_cap _ _ _ (ed_input _ _ _ He)). rewrite (proj2 (Z.eqb_neq _ 0)) by lia. cbn [negb passert]. rewrite mbind_Ret.
      eexists _, s1. split; [reflexivity|]. split; [exact He'|]. split; [cbn [print_keys]; rewrite Es; reflexivity|]. split; [exact Hs1|]. split; [reflexivity|exact Hsig].
  - assert (submits line input k = false) as Hsub by (unfold submits; rewrite (proj2 (Z.eqb_neq k 10)) by exact H10; reflexivity). rewrite Hsub in Hn. destruct Hn as [-> ->].
    destruct (Z.eqb_spec k 8) as [->|H8].
    + rewrite Hsz. destruct (Z.gtb_spec (zlen line) 0) as [Hpos|Hz].
      * destruct (print_key s (screen_buf t) 8 Hs ltac:(lia)) as (s1 & Es & Hs1). rewrite Es, mbind_Ret.
        destruct (exists_last (l := line)) as (l & c & ->); [intros ->; vm_compute in Hpos; discriminate|].
        destruct (str.str_backspace _ _ _ (ed_line _ _ _ He)) as (l1 & E1 & H1 & C1). rewrite E1, mbind_Ret. eexists _, s1. split; [reflexivity|]. cbn [fst snd]. rewrite removelast_snoc.
        split; [|split; [cbn [print_keys]; rewrite Es; reflexivity|split; [exact Hs1|split; reflexivity]]].
        constructor; [exact H1|cbn [line_buffer]; congruence|rewrite zlen_app in Hlen; change (zlen [c]) with 1 in Hlen; lia|exact (ed_input _ _ _ He)].
      * assert (line = []) as -> by (destruct line; [reflexivity|rewrite zlen_cons in Hz; pose proof (zlen_nonneg line); lia]).
        exists t, s. repeat (split; [solve [reflexivity|assumption]|]). reflexivity.
    + rewrite Hsz, Hcap, Hf. change (200 - 2) with LINE. fold (blocked line input). destruct (blocked line input) eqn:Hb.
      { exists t, s. repeat (split; [solve [reflexivity|assumption]|]). reflexivity. }
      assert (zlen line < LINE) as Hroom by (unfold blocked in Hb; apply orb_false_elim in Hb; destruct Hb as [Hb _]; lia).
      pose proof (str.str_append _ _ k (ed_line _ _ _ He)) as Ha. rewrite Hcap, (proj2 (Z.ltb_lt _ _)) in Ha by (unfold LINE in Hroom; lia). destruct Ha as (l1 & E1 & H1 & C1).
      destruct (print_key s (screen_buf t) k Hs Hk) as (s1 & Es & Hs1). rewrite E1, mbind_Ret, Es, mbind_Ret. eexists _, s1. split; [reflexivity|]. cbn [fst snd].
      split; [|split; [cbn [print_keys]; rewrite Es; reflexivity|split; [exact Hs1|split; reflexivity]]].
      constructor; [exact H1|cbn [line_buffer]; congruence|rewrite zlen_app; change (zlen [k]) with 1; lia|exact (ed_input _ _ _ He)].
Qed.

(** Reading from a terminal that has input *)
Lemma read_edits t line input st fuel n : editing t line input -> input <> [] -> 0 < n ->
  exists t', terminal_read (S fuel) t st n = Ret (t', st, blocking.Popped (take (Z.to_nat n) input)) /\ editing t' line (drop (Z.to_nat n) input) /\
    screen_buf t' = screen_buf t /\ blocking.signal (input_queue t') = blocking.signal (input_queue t).
Proof.
  intros [Hl Hc Hlen Hq] Hne Hn. destruct (blocking.pop_front_rep QUEUE_SIZE QUEUE_pos QUEUE_int _ _ st fuel n Hq Hne Hn) as (q & E & Hq' & Hsig).
  unfold terminal_read. rewrite E, mbind_Ret. eexists. split; [reflexivity|]. split; [constructor; assumption|]. split; [reflexivity|exact Hsig].
Qed.

(** ** Sequences of keys and reads *)

Inductive op := Key (k : Z) | Read (n : Z).

Fixpoint session (junk : list Z) (t : terminal) (s : screen.t) (st : sched.t) (ops : list op) : outcome (terminal * screen.t * sched.t * list Z) :=
  match ops with
  | [] => Ret (t, s, st, [])
  | Key k :: ops' => '(t, s, st, _) ← on_key t s st junk k; session junk t s st ops'
  | Read n :: ops' =>
      '(t, st, r) ← terminal_read 1 t st n;
      '(t, s, st, data') ← session junk t s st ops';
      Ret (t, s, st, (match r with blocking.Popped data => data | _ => [] end) ++ data')
  end.

(** The same on the line and the input: the final line and input, what was
    read and what was printed.  Readers that would have to wait are excluded. *)
Fixpoint edits (line input : list Z) (ops : list op) : option (list Z * list Z * list Z * list Z) :=
  match ops with
  | [] => Some (line, input, [], [])
  | Key k :: ops' =>
      if k >? 0 then
        '(l, i, data, keys) ← edits (edit line input k).1 (edit line input k).2 ops';
        Some (l, i, data, echo line input k ++ keys)
      else None
  | Read n :: ops' =>
      if (n >? 0) && negb (zlen input =? 0) then
        '(l, i, data, keys) ← edits line (drop (Z.to_nat n) input) ops';
        Some (l, i, take (Z.to_nat n) input ++ data, keys)
      else None
  end.

Lemma print_keys_app ks1 : forall s h s1 ks2, print_keys s h ks1 = Ret s1 -> print_keys s h (ks1 ++ ks2) = print_keys s1 h ks2.
Proof. induction ks1 as [|k ks1 IH]; intros s h s1 ks2 E; cbn [print_keys app] in *; [congruence|]. bind_ret E. rewrite mbind_Ret. eauto. Qed.

(** Without waiters nobody is notified. *)
Lemma notify_nobody cv st : fpm 16 cv ∅ -> sched.notify_all cv st = Ret (st, None).
Proof.
  intros Hcv. unfold sched.notify_all, sched.notify_from. assert (sched.cv_next cv 0 = None) as ->; [|reflexivity]. unfold sched.cv_next.
  induction (seqZ 0 (pool.watermark cv)) as [|i l IH]; [reflexivity|]. simpl. rewrite (fpm_valid _ _ _ _ Hcv), lookup_empty, andb_false_r. exact IH.
Qed.

(** Keys of the list do not end a line. *)
Definition quiet (ops : list op) : Prop := forall k, Key k ∈ ops -> k <> 10.

Lemma session_edits junk : zlen junk = 200 -> forall ops t s st line input line' input' data keys,
  editing t line input -> display.printable s (screen_buf t) -> fpm 16 (blocking.signal (input_queue t)) ∅ \/ quiet ops ->
  edits line input ops = Some (line', input', data, keys) ->
  exists t' s', session junk t s st ops = Ret (t', s', st, data) /\ editing t' line' input' /\ print_keys s (screen_buf t) keys = Ret s' /\
    display.printable s' (screen_buf t) /\ screen_buf t' = screen_buf t /\ blocking.signal (input_queue t') = blocking.signal (input_queue t).
Proof.
  intros Hj. induction ops as [|o ops IH]; intros t s st line input line' input' data keys He Hs Hcv E; cbn [edits session] in *; [injection E as <- <- <- <-; exists t, s; auto 10|].
  assert (fpm 16 (blocking.signal (input_queue t)) ∅ \/ quiet ops) as Hcv' by (destruct Hcv as [H|H]; [auto|right; intros k' Hk'; apply H, list_elem_of_further, Hk']).
  destruct o as [k|n].
  - destruct (Z.gtb_spec k 0) as [Hk|]; [|discriminate]. destruct (edits _ _ ops) as [[[[l i] dt] ks]|] eqn:Eo; [|discriminate]. injection E as <- <- <- <-.
    destruct (on_key_edits t line input s st st None junk k He Hs Hj Hk) as (t1 & s1 & E1 & He1 & Hp1 & Hs1 & Hb1 & Hc1).
    { destruct (submits line input k) eqn:Hsub; [|auto]. destruct Hcv as [Hcv|Hcv]; [apply notify_nobody, Hcv|]. exfalso.
      apply (Hcv k (list_elem_of_here _ _)). unfold submits in Hsub. apply andb_prop in Hsub. lia. }
    rewrite E1, mbind_Ret. destruct (IH t1 s1 st _ _ _ _ _ _ He1 ltac:(rewrite Hb1; exact Hs1) ltac:(rewrite Hc1; exact Hcv') Eo) as (t2 & s2 & E2 & He2 & Hp2 & Hs2 & Hb2 & Hc2).
    exists t2, s2. rewrite <-Hb1. split; [exact E2|]. split; [exact He2|]. split; [rewrite (print_keys_app _ _ _ s1) by (rewrite Hb1; exact Hp1); exact Hp2|].
    split; [exact Hs2|]. split; [exact Hb2|congruence].
  - destruct (Z.gtb_spec n 0) as [Hn|]; [|discriminate]. destruct (Z.eqb_spec (zlen input) 0) as [|Hz]; [discriminate|]. cbn [negb andb] in E.
    destruct (edits _ _ ops) as [[[[l i] dt] ks]|] eqn:Eo; [|discriminate]. injection E as <- <- <- <-.
    assert (input <> []) as Hne by (intros ->; apply Hz; reflexivity).
    destruct (read_edits t line input st 0 n He Hne Hn) as (t1 & E1 & He1 & Hb1 & Hc1). rewrite E1, mbind_Ret.
    destruct (IH t1 s st _ _ _ _ _ _ He1 ltac:(rewrite Hb1; exact Hs) ltac:(rewrite Hc1; exact Hcv') Eo) as (t2 & s2 & E2 & He2 & Hp2 & Hs2 & Hb2 & Hc2).
    rewrite E2, mbind_Ret. exists t2, s2. rewrite <-Hb1. split; [reflexivity|]. split; [exact He2|]. split; [exact Hp2|]. split; [exact Hs2|]. split; [exact Hb2|congruence].
Qed.

(** A new terminal *)
Lemma new_editing buffer line storage : zlen line = 200 -> zlen storage = QUEUE_SIZE -> exists t, new_terminal buffer line storage = Ret t /\ editing t [] [] /\
  screen_buf t = buffer /\ fpm 16 (blocking.signal (input_queue t)) ∅.
Proof.
  intros Hl Hs. unfold new_terminal. destruct (str.str_new line) as (l & -> & Hr & Hc); [lia|]. rewrite mbind_Ret. eexists. split; [reflexivity|].
  split; [constructor|split; [reflexivity|]]; cbn [line_buffer input_queue blocking.new blocking.queue_of blocking.signal].
  - exact Hr.
  - congruence.
  - vm_compute. discriminate.
  - apply queue.queue_rep_init; [exact QUEUE_pos|exact Hs].
  - apply fpm_new. unfold U16_MAX. lia.
Qed.

(** ** A waiting reader *)

Lemma cv_next_single cv idx x : fpm 16 cv {[idx := x]} -> sched.cv_next cv 0 = Some idx.
Proof.
  intros Hcv. pose proof (fpm_dom _ _ _ _ _ Hcv (lookup_singleton_eq idx x)) as Hi. unfold sched.cv_next.
  assert (forall l, idx ∈ l -> (forall i, i ∈ l -> 0 <= i) -> find (fun i => (0 <=? i) && pool.valid U16_MAX cv i) l = Some idx) as H; [|apply H; [apply elem_of_seqZ; lia|intros i Hin; apply elem_of_seqZ in Hin; lia]].
  induction l as [|i l IH]; intros Hin Hpos; [apply elem_of_nil in Hin; destruct Hin|]. simpl. rewrite (fpm_valid _ _ _ _ Hcv), (proj2 (Z.leb_le 0 i)) by (apply Hpos, list_elem_of_here).
  cbn [andb]. destruct (decide (idx = i)) as [->|Hne]; [rewrite lookup_singleton_eq; reflexivity|]. rewrite lookup_singleton_ne by exact Hne.
  apply elem_of_cons in Hin. destruct Hin as [Hin|Hin]; [congruence|]. apply IH; [exact Hin|]. intros j Hj. apply Hpos, list_elem_of_further, Hj.
Qed.

(** Process [x] is blocked, and the only one that waits. *)
Record waiting (cv : sched.condition_variable) (st : sched.t) (a : queues.astate) (idx x : Z) : Prop := {
  wt_cv : fpm 16 cv {[idx := x]};
  wt_sched : queues.implements st a;
  wt_proc : exists p, queues.a_procs a !! x = Some p /\ sched.terminating p = false;
  wt_blocked : x ∈ queues.a_susp a /\ queues.a_current a <> x
}.

(** A reader of an empty queue is suspended, and another process runs. *)
Lemma wait_refines cv st a x : fpm 16 cv ∅ -> queues.simulates st a -> queues.idle_ok a -> queues.a_current a = x -> x ∈ queues.a_run a -> x <> queues.a_idle a ->
  queues.a_ticks a + 1 < 2 ^ 64 - 1 ->
  exists cv' st' idx, sched.cv_wait cv st = Ret (cv', st', idx) /\ waiting cv' st' (queues.a_yield (queues.a_suspend a x)) idx x.
Proof.
  intros Hcv (Him & Hto & H0) Hid Hcur Hx Hni Hb. unfold sched.cv_wait, sched.proc_current_pid. pose proof Him as (m & Hinv & Hp & Hc & _). rewrite Hc, Hcur.
  destruct (queues.seg_valid _ _ _ _ x (proj1 (queues.inv_run _ _ _ _ Hinv)) Hx) as [p Hpx].
  assert (queues.a_procs a !! x = Some (queues.core p)) as Hax by (rewrite Hp, lookup_fmap, Hpx; reflexivity).
  destruct (queues.inv_run_flags _ _ _ _ Hinv x p Hx Hpx) as [_ Ht].
  rewrite (proj2 (Z.eqb_neq x sched.END)) by exact (queues.implements_not_END _ _ _ _ Him Hax). cbn [negb].
  destruct (fpm_emplace_anywhere 16 cv ∅ x Hcv) as (cv' & idx & -> & Hcv' & _ & _); [rewrite map_size_empty; lia|]. rewrite mbind_Ret.
  unfold sched.proc_block. destruct (queues.suspend_refines st a x Him (or_introl Hx)) as (st1 & -> & Him1). rewrite mbind_Ret.
  set (a1 := queues.a_suspend a x) in *. assert (forall y, queues.tick_of (queues.a_procs a1) y = queues.tick_of (queues.a_procs a) y /\ queues.a_ticks a1 = queues.a_ticks a) as Htk by (intros y; apply queues.suspend_ticks).
  pose proof (proj2 (Htk 0)) as Hticks. assert (queues.ticks_ok a1) as Hto1 by (intros y; rewrite (proj1 (Htk y)), Hticks; apply Hto).
  assert (queues.idle_ok a1) as Hid1 by exact (queues.suspend_idle a x Hni Hid).
  destruct (queues.yield_refines st1 a1 Him1 Hid1 Hto1) as (st2 & -> & Him2); [lia|lia|]. rewrite mbind_Ret. exists cv', st2, idx. split; [reflexivity|].
  assert (queues.a_run a1 = queues.without x (queues.a_run a) /\ queues.a_susp a1 = x :: queues.a_susp a /\ queues.a_idle a1 = queues.a_idle a) as (Hrun1 & Hsusp1 & Hidle1) by (unfold a1, queues.a_suspend; rewrite decide_True by exact Hx; auto).
  assert (x ∈ queues.a_susp (queues.a_yield a1)) as Hs2 by (change (x ∈ queues.a_susp a1); rewrite Hsusp1; apply list_elem_of_here).
  split; [exact Hcv'|exact Him2|exact (queues.suspended_alive st2 _ x Him2 Hs2)|].
  split; [exact Hs2|]. change (queues.a_decide (queues.a_tick a1) <> x). unfold queues.a_decide.
  change (queues.a_run (queues.a_tick a1)) with (queues.a_run a1). change (queues.a_idle (queues.a_tick a1)) with (queues.a_idle a1). rewrite Hrun1, Hidle1.
  destruct (queues.pick _ _) as [y|] eqn:Ey; [|simpl; congruence]. apply queues.pick_min in Ey. destruct Ey as [Hy _]. apply list_elem_of_filter in Hy. simpl. tauto.
Qed.

(** Reading from a terminal that has no input *)
Lemma read_waits t line st a x fuel n : editing t line [] -> fpm 16 (blocking.signal (input_queue t)) ∅ -> n <> 0 -> queues.simulates st a -> queues.idle_ok a ->
  queues.a_current a = x -> x ∈ queues.a_run a -> x <> queues.a_idle a -> queues.a_ticks a + 1 < 2 ^ 64 - 1 ->
  exists t' st' idx, terminal_read (S fuel) t st n = Ret (t', st', blocking.Waits idx) /\ editing t' line [] /\ screen_buf t' = screen_buf t /\
    waiting (blocking.signal (input_queue t')) st' (queues.a_yield (queues.a_suspend a x)) idx x.
Proof.
  intros [Hl Hc Hlen Hq] Hcv Hn Hsim Hid Hcur Hx Hni Hb. unfold terminal_read, blocking.pop_front. rewrite (proj2 (Z.eqb_neq n 0)) by exact Hn. cbn [blocking.pop_loop].
  rewrite (queue.queue_rep_len_size _ _ _ Hq). change (zlen (@nil Z) =? 0) with true. cbv iota.
  destruct (wait_refines _ st a x Hcv Hsim Hid Hcur Hx Hni Hb) as (cv' & st' & idx & -> & Hw). rewrite !mbind_Ret. eexists _, st', idx.
  split; [reflexivity|]. split; [constructor; assumption|]. split; [reflexivity|exact Hw].
Qed.

Lemma notify_waiting cv st a idx x : waiting cv st a idx x ->
  exists st', sched.notify_all cv st = Ret (st', Some idx) /\ queues.implements st' (queues.a_unblock a x 1) /\ sched.current_pid st' = x /\ sched.yield_status st' = Ret 1.
Proof.
  intros [Hcv Him (p & Hp & Ht) [Hx Hne]]. unfold sched.notify_all, sched.notify_from. rewrite (cv_next_single _ _ _ Hcv). unfold sched.cv_notify.
  rewrite (fpm_get _ _ _ _ Hcv), lookup_singleton_eq, mbind_Ret. destruct (queues.unblock_refines st a x p 1 Him Hp Ht Hx Hne) as (st' & -> & H). rewrite mbind_Ret. eauto.
Qed.

(** The reader goes on: it gets the input. *)
Lemma resumed_edits t line input st fuel n idx : editing t line input -> input <> [] -> 0 < n ->
  exists t', terminal_read_resumed fuel t st n idx 1 = Ret (t', st, blocking.Popped (take (Z.to_nat n) input)) /\ editing t' line (drop (Z.to_nat n) input) /\ screen_buf t' = screen_buf t.
Proof.
  intros [Hl Hc Hlen Hq] Hne Hn. unfold terminal_read_resumed, blocking.pop_front_resumed, sched.cv_wait_resumed. change (1 <? 0) with false. cbn [andb]. rewrite !mbind_Ret.
  cbn [blocking.queue_of]. destruct (blocking.drain_all_rep QUEUE_SIZE QUEUE_pos QUEUE_int _ _ n Hq) as (q & -> & Hq'). rewrite mbind_Ret.
  destruct input as [|c input]; [congruence|]. replace (Z.to_nat n) with (S (Z.to_nat (n - 1))) in * by lia. cbn [take].
  eexists. split; [reflexivity|]. split; [constructor; assumption|reflexivity].
Qed.

End editor.

(** ** The keyboard *)
Module keys.
Import keyboard.

(** The modifiers after a byte of the controller *)
Definition track (k : state) (scancode : Z) : state :=
  if bool_decide (scancode ∈ [0x2A; 0x36]) then mk_state true (ctrl_depressed k)
  else if bool_decide (scancode ∈ [0xAA; 0xB6]) then mk_state false (ctrl_depressed k)
  else if scancode =? 0x1D then mk_state (shift_depressed k) true
  else if scancode =? 0x9D then mk_state (shift_depressed k) false
  else k.

(** The codes the table holds *)
Definition key_code (c : Z) : Prop := c = -1 \/ 1 <= c < 0x7F \/ (exists n, 1 <= n <= 11 /\ c = VK_F n) \/ c = VK_LEFT \/ c = VK_RIGHT \/ c = VK_UP \/ c = VK_DOWN.

Definition key_codeb (c : Z) : bool :=
  (c =? -1) || ((1 <=? c) && (c <? 0x7F)) || existsb (fun n => c =? VK_F n) (seqZ 1 11) || (c =? VK_LEFT) || (c =? VK_RIGHT) || (c =? VK_UP) || (c =? VK_DOWN).

Lemma key_codeb_ok c : key_codeb c = true -> key_code c.
Proof.
  unfold key_codeb, key_code. rewrite !orb_true_iff, andb_true_iff, !Z.eqb_eq, Z.leb_le, Z.ltb_lt.
  intros [[[[[[H|H]|H]|H]|H]|H]|H]; auto 8. apply existsb_exists in H. destruct H as (n & Hn & H). apply list_elem_of_In, elem_of_seqZ in Hn.
  right. right. left. exists n. lia.
Qed.

(** Every byte is handled inside the table. *)
Definition byte_ok (k : state) (sc : Z) : bool :=
  match key_of k sc with
  | Ret (k', key) =>
      bool_decide (shift_depressed k' = shift_depressed (track k sc)) && bool_decide (ctrl_depressed k' = ctrl_depressed (track k sc)) &&
      match key with Some c => key_codeb c | None => true end
  | _ => false
  end.

Lemma all_bytes_ok : forallb (fun sc => forallb (fun sh => forallb (fun ct => byte_ok (mk_state sh ct) sc) [true; false]) [true; false]) (seqZ 0 256) = true.
Proof. vm_compute. reflexivity. Qed.

Lemma key_of_ok k sc : 0 <= sc < 256 -> exists key, key_of k sc = Ret (track k sc, key) /\ forall c, key = Some c -> key_code c.
Proof.
  intros Hsc. destruct k as [sh ct]. pose proof all_bytes_ok as H. rewrite forallb_forall in H. specialize (H sc ltac:(apply list_elem_of_In, elem_of_seqZ; lia)).
  rewrite forallb_forall in H. specialize (H sh ltac:(destruct sh; simpl; auto)). rewrite forallb_forall in H. specialize (H ct ltac:(destruct ct; simpl; auto)).
  unfold byte_ok in H. destruct (key_of _ sc) as [[k' key]| | |]; try discriminate. apply andb_prop in H. destruct H as [H Hk]. apply andb_prop in H. destruct H as [H1 H2].
  apply bool_decide_eq_true in H1, H2. exists key. split; [|intros c ->; apply key_codeb_ok, Hk]. destruct k', (track (mk_state sh ct) sc). simpl in *. congruence.
Qed.

Lemma kbd_loop_ok n : forall k pending, Forall (fun sc => 0 <= sc < 256) pending -> exists used rest key, kbd_loop n k pending = Ret (fold_left track used k, rest, key) /\
  pending = used ++ rest /\ (length used <= n)%nat /\ (forall c, key = Some c -> key_code c) /\ (key = None -> length used = n \/ rest = []).
Proof.
  induction n as [|n IH]; intros k pending Hp; cbn [kbd_loop]; [exists [], pending, None; repeat split; auto; discriminate|].
  destruct pending as [|sc pending]; [exists [], [], None; repeat split; auto; [simpl; lia|discriminate]|]. apply Forall_cons in Hp. destruct Hp as [Hsc Hp].
  destruct (key_of_ok k sc Hsc) as (key & -> & Hkey). rewrite mbind_Ret. destruct key as [c|].
  - exists [sc], pending, (Some c). repeat split; auto; [simpl; lia|discriminate].
  - destruct (IH (track k sc) pending Hp) as (used & rest & key & -> & -> & Hl & Hk & Hd). exists (sc :: used), rest, key.
    split; [reflexivity|]. split; [reflexivity|]. split; [simpl; lia|]. split; [exact Hk|]. intros Hn. destruct (Hd Hn); simpl; [left; lia|auto].
Qed.

End keys.

(** C14: a terminal edits lines.  For every sequence of positive key codes and
    of reads of at least one byte that find input, the terminal hands to
    its readers exactly what the reference editor says: printable keys extend
    the line up to 198 characters, a backspace takes the last one back, a
    newline hands the line over as far as the input queue of 1000 bytes has
    room, other keys do nothing, and every read gets the oldest bytes.  What
    appears on its screen is the echo of exactly the keys that had an effect. *)
Theorem terminal_edits_lines (junk : list Z) (t : terminal.terminal) (s : screen.t) (st : sched.t) (line input : list Z) (ops : list editor.op) (line' input' data keys : list Z) :
  zlen junk = 200 -> editor.editing t line input -> display.printable s (terminal.screen_buf t) -> fpm 16 (blocking.signal (terminal.input_queue t)) ∅ ->
  editor.edits line input ops = Some (line', input', data, keys) ->
  exists t' s', editor.session junk t s st ops = Ret (t', s', st, data) /\ editor.editing t' line' input' /\
    editor.print_keys s (terminal.screen_buf t) keys = Ret s' /\ display.printable s' (terminal.screen_buf t).
Proof.
  intros Hj He Hs Hcv E. destruct (editor.session_edits junk Hj ops t s st line input line' input' data keys He Hs (or_introl Hcv) E) as (t' & s' & H1 & H2 & H3 & H4 & _).
  exists t', s'. auto.
Qed.

(** "hey", a backspace, "!", F5, a newline, "x"; then 3 bytes are read, and 10. *)
Lemma terminal_edits_lines_witness : exists t s t' s', editor.session (replicate 200 7) t s sched.init
  (map editor.Key [104; 101; 121; 8; 33; keyboard.VK_F 5; 10; 120] ++ [editor.Read 3; editor.Read 10]) = Ret (t', s', sched.init, [104; 101; 33; 10]) /\ editor.editing t' [120] [].
Proof.
  assert (forall v : Z, zlen (replicate 2000 v) = printing.CELLS) as Hl by (intros v; vm_compute; reflexivity).
  destruct (display.start_printable (replicate 2000 7) (replicate 2000 9) (screen.mk_dev ∅ []) (Hl 7) (Hl 9)) as (s0 & s & _ & _ & Hs & _).
  destruct (editor.new_editing (screen.current_buffer s) (replicate 200 1) (replicate 1000 2)) as (t & _ & He & Hb & Hcv); [vm_compute; reflexivity|vm_compute; reflexivity|].
  destruct (terminal_edits_lines (replicate 200 7) t s sched.init [] [] (map editor.Key [104; 101; 121; 8; 33; keyboard.VK_F 5; 10; 120] ++ [editor.Read 3; editor.Read 10])
    [120] [] [104; 101; 33; 10] [104; 101; 121; 8; 33; 10; 120]) as (t' & s' & E & He' & _); [vm_compute; reflexivity|exact He|rewrite Hb; exact Hs|exact Hcv|vm_compute; reflexivity|].
  exists t, s, t', s'. auto.
Defined.

(** C16: a process that reads from a terminal without input is suspended
    and another one runs; keys that are typed meanwhile do not disturb it; and
    the newline switches to it at once, whatever the scheduler has done in
    between, and its read returns the line that was typed, or its first [n]
    bytes. *)
Theorem reader_gets_typed_line (junk : list Z) (t : terminal.terminal) (s : screen.t) (st : sched.t) (a : queues.astate) (x n : Z) (fuel : nat) (ks line keys : list Z) :
  editor.editing t [] [] -> fpm 16 (blocking.signal (terminal.input_queue t)) ∅ -> display.printable s (terminal.screen_buf t) -> zlen junk = 200 ->
  queues.simulates st a -> queues.idle_ok a -> queues.a_current a = x -> x ∈ queues.a_run a -> x <> queues.a_idle a -> queues.a_ticks a + 1 < 2 ^ 64 - 1 ->
  0 < n -> ~ (10 ∈ ks) -> editor.edits [] [] (map editor.Key ks) = Some (line, [], [], keys) ->
  exists t1 st1 idx, terminal.terminal_read (S fuel) t st n = Ret (t1, st1, blocking.Waits idx) /\ sched.current_pid st1 <> x /\
    (exists a1, queues.implements st1 a1 /\ x ∈ queues.a_susp a1 /\ queues.a_current a1 <> x) /\
    forall st2 a2, queues.implements st2 a2 -> x ∈ queues.a_susp a2 -> queues.a_current a2 <> x ->
      exists t2 s2 t3 s3 st3 t4, editor.session junk t1 s st2 (map editor.Key ks) = Ret (t2, s2, st2, []) /\
        terminal.on_key t2 s2 st2 junk 10 = Ret (t3, s3, st3, Some idx) /\
        sched.current_pid st3 = x /\ sched.yield_status st3 = Ret 1 /\
        terminal.terminal_read_resumed fuel t3 st3 n idx 1 = Ret (t4, st3, blocking.Popped (take (Z.to_nat n) (line ++ [10]))) /\
        editor.editing t4 [] (drop (Z.to_nat n) (line ++ [10])).
Proof.
  intros He Hcv Hs Hj Hsim Hid Hcur Hx Hni Hb Hn Hks E.
  destruct (editor.read_waits t [] st a x fuel n He Hcv ltac:(lia) Hsim Hid Hcur Hx Hni Hb) as (t1 & st1 & idx & E1 & He1 & Hb1 & Hw).
  exists t1, st1, idx. split; [exact E1|]. destruct Hw as [Hwcv Hwi _ [Hws Hwc]]. pose proof Hwi as (_ & _ & _ & Hc1 & _). split; [congruence|]. split; [eauto|].
  intros st2 a2 Hi2 Hs2 Hc2. assert (editor.quiet (map editor.Key ks)) as Hq.
  { intros k Hk ->. apply list_elem_of_fmap in Hk. destruct Hk as (k' & E' & Hk). injection E' as <-. exact (Hks Hk). }
  destruct (editor.session_edits junk Hj _ t1 s st2 [] [] line [] [] keys He1 ltac:(rewrite Hb1; exact Hs) (or_intror Hq) E) as (t2 & s2 & E2 & He2 & _ & Hp2 & Hb2 & Hsig2).
  assert (editor.waiting (blocking.signal (terminal.input_queue t2)) st2 a2 idx x) as Hw2.
  { rewrite Hsig2. split; [exact Hwcv|exact Hi2| |auto]. exact (queues.suspended_alive st2 a2 x Hi2 Hs2). }
  destruct (editor.notify_waiting _ _ _ _ _ Hw2) as (st3 & En & Hi3 & Hc3 & Hy3).
  destruct (editor.on_key_edits t2 line [] s2 st2 st3 (Some idx) junk 10 He2 ltac:(rewrite Hb2; exact Hp2) Hj ltac:(lia) En) as (t3 & s3 & E3 & He3 & _).
  change (editor.edit line [] 10) with (@nil Z, take (Z.to_nat terminal.QUEUE_SIZE) (line ++ [10])) in He3. cbn [fst snd] in He3.
  rewrite take_ge in He3. 2:{ pose proof (editor.ed_length _ _ _ He2) as Hl. rewrite length_app. unfold editor.LINE, zlen in Hl. unfold terminal.QUEUE_SIZE. simpl. lia. }
  destruct (editor.resumed_edits t3 [] (line ++ [10]) st3 fuel n idx He3 ltac:(destruct line; discriminate) Hn) as (t4 & E4 & He4 & _).
  exists t2, s2, t3, s3, st3, t4. auto 10.
Qed.

(** A process reads 3 bytes; "ls", a backspace, "s" and a newline are typed. *)
Lemma reader_gets_typed_line_witness : exists t s st x t1 st1 idx t2 s2 t3 s3 st3 t4, terminal.terminal_read 1 t st 3 = Ret (t1, st1, blocking.Waits idx) /\ sched.current_pid st1 <> x /\
  editor.session (replicate 200 7) t1 s st1 (map editor.Key [108; 115; 8; 115]) = Ret (t2, s2, st1, []) /\
  terminal.on_key t2 s2 st1 (replicate 200 7) 10 = Ret (t3, s3, st3, Some idx) /\ sched.current_pid st3 = x /\
  terminal.terminal_read_resumed 0 t3 st3 3 idx 1 = Ret (t4, st3, blocking.Popped [108; 115; 10]).
Proof.
  assert (forall v : Z, zlen (replicate 2000 v) = printing.CELLS) as Hl by (intros v; vm_compute; reflexivity).
  destruct (display.start_printable (replicate 2000 7) (replicate 2000 9) (screen.mk_dev ∅ []) (Hl 7) (Hl 9)) as (s0 & s & _ & _ & Hs & _).
  destruct (editor.new_editing (screen.current_buffer s) (replicate 200 1) (replicate 1000 2)) as (t & _ & He & Hb & Hcv); [vm_compute; reflexivity|vm_compute; reflexivity|].
  destruct queues.one_current as (st & a & x & Hsim & Hid & Hcur & Hx & Hni & Ht).
  destruct (reader_gets_typed_line (replicate 200 7) t s st a x 3 0 [108; 115; 8; 115] [108; 115] [108; 115; 8; 115] He Hcv ltac:(rewrite Hb; exact Hs) ltac:(vm_compute; reflexivity)
    Hsim Hid Hcur Hx Hni ltac:(rewrite Ht; reflexivity) ltac:(reflexivity) ltac:(rewrite !elem_of_cons, elem_of_nil; lia) ltac:(vm_compute; reflexivity)) as (t1 & st1 & idx & E1 & Hc1 & (a1 & Hi1 & Hs1 & Hn1) & H).
  destruct (H st1 a1 Hi1 Hs1 Hn1) as (t2 & s2 & t3 & s3 & st3 & t4 & E2 & E3 & Hc3 & _ & E4 & _).
  exists t, s, st, x, t1, st1, idx, t2, s2, t3, s3, st3, t4. auto 10.
Defined.

(** The keyboard interrupt takes at most four bytes that the controller holds,
    up to the first that completes a key.  Every byte is looked up inside the
    scan code table, the modifiers are what the bytes say, and the key code is
    one of the codes of the table: a character below 0x7F, one of the function
    or arrow keys, or the code of a key without meaning. *)
Theorem keyboard_codes (n : nat) (k : keyboard.state) (pending : list Z) : Forall (fun b => 0 <= b < 256) pending ->
  exists used rest key, keyboard.kbd_loop n k pending = Ret (fold_left keys.track used k, rest, key) /\ pending = used ++ rest /\ (length used <= n)%nat /\
    (forall c, key = Some c -> keys.key_code c) /\ (key = None -> length used = n \/ rest = []).
Proof. apply keys.kbd_loop_ok. Qed.

(** The shift key released, "1", then nothing more is taken; control and "c". *)
Lemma keyboard_codes_witness : exists key key', keyboard.kbd_loop 4 (keyboard.mk_state true false) [0xAA; 0x02; 0x82] = Ret (keyboard.mk_state false false, [0x82], key) /\
  keyboard.kbd_loop 4 (keyboard.mk_state false true) [0xE0; 0x2E] = Ret (keyboard.mk_state false true, [], key') /\ key = Some 49 /\ key' = Some 3 /\
  (forall c, key = Some c -> keys.key_code c) /\ (forall c, key' = Some c -> keys.key_code c).
Proof.
  destruct (keyboard_codes 4 (keyboard.mk_state true false) [0xAA; 0x02; 0x82]) as (u & r & key & E & _ & _ & Hk & _); [repeat constructor; lia|].
  destruct (keyboard_codes 4 (keyboard.mk_state false true) [0xE0; 0x2E]) as (u' & r' & key' & E' & _ & _ & Hk' & _); [repeat constructor; lia|].
  exists key, key'. vm_compute in E, E'. injection E as _ _ Ek. injection E' as _ _ Ek'. subst key key'. split; [reflexivity|]. split; [reflexivity|]. auto.
Defined.
