(* ===== verification/Rtl8139Facts.v ===== *)
(** * What the network card driver sends and receives

    The bytes that are written to the device are packets behind their lengths,
    whatever pieces they are written in; the packets in flight stay in their
    buffers until the card is done with them; received packets reach the
    reader in the same framing. *)

From S2P Require Import Prelude Queue RingBuffer Pool NetUtils KernelDefs Memory Machine MachineFacts Pci Sched SchedFacts Blocking TerminalFacts Rtl8139.
From stdpp Require Import gmap list.
#[local] Open Scope Z_scope.

Module framing.
Import rtl8139.

(** ** Packets behind their lengths *)

Definition frame (p : list Z) : list Z := bytes.le16 (zlen p) ++ p.

(** The complete packets at the front of a stream, and the rest *)
Fixpoint frames (n : nat) (l : list Z) : list (list Z) * list Z :=
  match n with
  | O => ([], l)
  | S n' =>
      match l with
      | b0 :: b1 :: rest =>
          let size := bytes.of_le16 b0 b1 in
          if zlen rest <? size then ([], l)
          else let '(ps, r) := frames n' (drop (Z.to_nat size) rest) in (take (Z.to_nat size) rest :: ps, r)
      | _ => ([], l)
      end
  end.

Definition parse (l : list Z) : list (list Z) * list Z := frames (length l) l.

Lemma frames_enough n : forall m l, (length l <= n)%nat -> (length l <= m)%nat -> frames n l = frames m l.
Proof.
  induction n as [|n IH]; intros m l Hn Hm; [destruct l; [destruct m; reflexivity|simpl in Hn; lia]|].
  destruct m as [|m]; [destruct l; [reflexivity|simpl in Hm; lia]|]. destruct l as [|b0 [|b1 rest]]; [reflexivity|reflexivity|]. cbn [frames].
  destruct (zlen rest <? bytes.of_le16 b0 b1); [reflexivity|]. rewrite (IH m) by (rewrite length_drop; simpl in Hn, Hm; lia). reflexivity.
Qed.

Lemma parse_enough n l : (length l <= n)%nat -> frames n l = parse l.
Proof. intros Hn. apply frames_enough; [exact Hn|reflexivity]. Qed.

Lemma parse_step b0 b1 rest : parse (b0 :: b1 :: rest) =
  let size := bytes.of_le16 b0 b1 in
  if zlen rest <? size then ([], b0 :: b1 :: rest) else let '(ps, r) := parse (drop (Z.to_nat size) rest) in (take (Z.to_nat size) rest :: ps, r).
Proof.
  change (parse (b0 :: b1 :: rest)) with (let size := bytes.of_le16 b0 b1 in if zlen rest <? size then ([], b0 :: b1 :: rest)
    else let '(ps, r) := frames (S (length rest)) (drop (Z.to_nat size) rest) in (take (Z.to_nat size) rest :: ps, r)). cbv zeta. destruct (zlen rest <? bytes.of_le16 b0 b1); [reflexivity|].
  rewrite parse_enough by (rewrite length_drop; lia). reflexivity.
Qed.

Lemma parse_app_nil l2 : parse ([] ++ l2) = let '(ps, r) := parse [] in let '(ps2, r2) := parse (r ++ l2) in (ps ++ ps2, r2).
Proof. change (parse []) with (@nil (list Z), @nil Z). cbn [app]. destruct (parse l2). reflexivity. Qed.

(** Reading on after the rest: the stream may come in pieces. *)
Lemma parse_app n : forall l l2, (length l <= n)%nat -> Forall (fun b => 0 <= b < 256) l -> parse (l ++ l2) = let '(ps, r) := parse l in let '(ps2, r2) := parse (r ++ l2) in (ps ++ ps2, r2).
Proof.
  induction n as [|n IH]; intros l l2 Hn Hb; [destruct l; [exact (parse_app_nil l2)|simpl in Hn; lia]|].
  destruct l as [|b0 [|b1 rest]]; [exact (parse_app_nil l2)| change (parse [b0]) with (@nil (list Z), [b0]); cbn [app]; destruct (parse (b0 :: l2)); reflexivity|].
  cbn [app]. rewrite !parse_step. cbv zeta. apply Forall_cons in Hb. destruct Hb as [Hb0 Hb]. apply Forall_cons in Hb. destruct Hb as [Hb1 Hb].
  assert (0 <= bytes.of_le16 b0 b1) as Hs by (unfold bytes.of_le16; lia). pose proof (zlen_nonneg l2). rewrite zlen_app.
  destruct (Z.ltb_spec (zlen rest) (bytes.of_le16 b0 b1)) as [Hlt|Hge].
  - cbn [app]. rewrite parse_step. cbv zeta. rewrite zlen_app. destruct (_ <? _); [reflexivity|]. destruct (parse _) as [ps r]. reflexivity.
  - rewrite (proj2 (Z.ltb_ge _ _)) by lia. rewrite take_app_le, drop_app_le by (unfold zlen in Hge; lia). rewrite IH.
    + destruct (parse (drop _ rest)) as [ps r]. destruct (parse (r ++ l2)). reflexivity.
    + rewrite length_drop. simpl in Hn. lia.
    + apply Forall_drop, Hb.
Qed.

Lemma parse_bytes_n n : forall l, (length l <= n)%nat -> Forall (fun b => 0 <= b < 256) l -> Forall (fun b => 0 <= b < 256) (parse l).2.
Proof.
  induction n as [|n IH]; intros l Hn Hb; [destruct l; [constructor|simpl in Hn; lia]|]. destruct l as [|b0 [|b1 rest]]; [exact Hb|exact Hb|]. rewrite parse_step. cbv zeta.
  destruct (zlen rest <? bytes.of_le16 b0 b1); [exact Hb|]. specialize (IH (drop (Z.to_nat (bytes.of_le16 b0 b1)) rest)). destruct (parse (drop _ rest)) as [ps r]. cbn [snd] in *.
  apply Forall_cons in Hb. destruct Hb as [_ Hb]. apply Forall_cons in Hb. destruct Hb as [_ Hb]. apply IH; [rewrite length_drop; simpl in Hn; lia|apply Forall_drop, Hb].
Qed.

Lemma parse_bytes l : Forall (fun b => 0 <= b < 256) l -> Forall (fun b => 0 <= b < 256) (parse l).2.
Proof. exact (parse_bytes_n (length l) l (Nat.le_refl _)). Qed.

Lemma parse_frame p l : zlen p < 2 ^ 16 -> parse (frame p ++ l) = let '(ps, r) := parse l in (p :: ps, r).
Proof.
  intros Hp. pose proof (zlen_nonneg p). unfold frame, bytes.le16. cbn [app]. rewrite parse_step. cbv zeta. rewrite bytes.of_le16_le16 by lia. rewrite zlen_app.
  pose proof (zlen_nonneg l). rewrite (proj2 (Z.ltb_ge _ _)) by lia. unfold zlen. rewrite Nat2Z.id, take_app_length, drop_app_length. reflexivity.
Qed.

(** What is framed is read back. *)
Lemma parse_frames ps l : Forall (fun p => zlen p < 2 ^ 16) ps -> parse (concat (map frame ps) ++ l) = let '(ps', r) := parse l in (ps ++ ps', r).
Proof.
  induction ps as [|p ps IH]; intros Hp; cbn [map concat app]; [destruct (parse l); reflexivity|]. apply Forall_cons in Hp. destruct Hp as [Hp Hps].
  rewrite <-app_assoc, parse_frame, IH by assumption. destruct (parse l). reflexivity.
Qed.

Lemma parse_all ps : Forall (fun p => 0 < zlen p < 2 ^ 16) ps -> parse (concat (map frame ps)) = (ps, []).
Proof.
  intros Hps. pose proof (parse_frames ps []) as H. rewrite app_nil_r in H. rewrite H by (eapply Forall_impl; [exact Hps|cbn; intros; lia]).
  change (parse []) with (@nil (list Z), @nil Z). cbv iota. rewrite app_nil_r. reflexivity.
Qed.

End framing.

(** ** Packets in flight *)
Module sending.
Import ports rtl8139 framing.

(** What the card gets to send: a packet, padded to the minimal size *)
Definition padded (p : list Z) : list Z := p ++ replicate (Z.to_nat (60 - zlen p)) 0.

Lemma zlen_padded p : zlen (padded p) = Z.max (zlen p) 60.
Proof. unfold padded. rewrite zlen_app, zlen_replicate. lia. Qed.

(** The descriptors [fl] occupies, and the frames there *)
Record window (st : t) (fl : list (list Z)) : Prop := {
  w_send : 0 <= tx_cur_send st < 8;
  w_write : tx_cur_write st = tx_cur_send st + zlen fl;
  w_room : zlen fl <= 4;
  w_count : zlen (tx_buffers st) = 4;
  w_size : forall d b, znth (tx_buffers st) d = Some b -> zlen b = 1516;
  w_flight : forall i f, znth fl i = Some f -> exists b, znth (tx_buffers st) ((tx_cur_send st + i) mod 4) = Some b /\ f `prefix_of` b
}.

(** [st'] differs from [st] at most in the ports and what sending uses. *)
Definition only_sends (st st' : t) : Prop :=
  rx_pos st' = rx_pos st /\ process_opened st' = process_opened st /\ read_fifo st' = read_fifo st /\ procs st' = procs st.

#[local] Instance only_sends_preorder : PreOrder only_sends.
Proof. split; [intros st; repeat split|]. intros a b c (?&?&?&?) (?&?&?&?). repeat split; congruence. Qed.

Lemma znth_nil_inv {A} i (x : A) : znth [] i = Some x -> False.
Proof. unfold znth. destruct (0 <=? i); discriminate. Qed.

Lemma take_zlen (l : list Z) : take (Z.to_nat (zlen l)) l = l.
Proof. apply take_ge. unfold zlen. rewrite Nat2Z.id. reflexivity. Qed.

Lemma prefix_zset (p b : list Z) v : p `prefix_of` b -> zlen p < zlen b -> (p ++ [v]) `prefix_of` zset b (zlen p) v.
Proof.
  intros [rest ->] Hl. destruct rest as [|c rest]; [rewrite app_nil_r in Hl; lia|]. exists rest. unfold zset. rewrite (proj2 (Z.leb_le 0 _)) by apply zlen_nonneg.
  unfold zlen. rewrite Nat2Z.id. rewrite insert_app_r_alt, Nat.sub_diag by reflexivity. rewrite <-app_assoc. reflexivity.
Qed.

Lemma pad_ok n : forall b p, zlen b = 1516 -> zlen p <= 1500 -> p `prefix_of` b -> 60 - zlen p <= Z.of_nat n ->
  exists b', pad n b (zlen p) = Ret (b', Z.max (zlen p) 60) /\ zlen b' = 1516 /\ padded p `prefix_of` b'.
Proof.
  induction n as [|n IH]; intros b p Hb Hp Hpre Hn; cbn [pad].
  - exists b. unfold padded. replace (Z.to_nat (60 - zlen p)) with 0%nat by lia. rewrite app_nil_r. split; [do 2 f_equal; lia|auto].
  - destruct (Z.ltb_spec (zlen p) 60) as [Hlt|Hge].
    + pose proof (zlen_nonneg p). rewrite arr_set_Ret, mbind_Ret by lia. replace (zlen p + 1) with (zlen (p ++ [0])) by (rewrite zlen_app; reflexivity).
      assert (zlen (p ++ [0]) = zlen p + 1) as Hz by (rewrite zlen_app; reflexivity).
      destruct (IH (zset b (zlen p) 0) (p ++ [0])) as (b' & E & Hb' & Hpre'); [rewrite zlen_zset; exact Hb|lia|apply prefix_zset; [exact Hpre|lia]|lia|].
      exists b'. split; [rewrite E; do 2 f_equal; lia|]. split; [exact Hb'|]. unfold padded in *. rewrite Hz, <-app_assoc in Hpre'.
      replace (Z.to_nat (60 - zlen p)) with (S (Z.to_nat (60 - (zlen p + 1)))) by lia. exact Hpre'.
    + exists b. unfold padded. replace (Z.to_nat (60 - zlen p)) with 0%nat by lia. rewrite app_nil_r. split; [do 2 f_equal; lia|auto].
Qed.

Section facts.
Context (dev : device) (card : pci.pci_device) (tx_address : Z).
Hypothesis card_ports : 0 <= pci.iobase card /\ pci.iobase card + 0x100 <= 2 ^ 16.

(** The start of a transmission as the card sees it: descriptor and length *)
Definition launch (e : event) : option (Z * Z) :=
  match e with
  | Wr 4 p v => let d := p - port card TSD0 in if (0 <=? d) && (d <? 16) && (d mod 4 =? 0) then Some (d / 4, v mod 2 ^ 13) else None
  | _ => None
  end.

Definition launched (tr : trace) : list (Z * Z) := omap launch (rev tr).

Lemma launched_cons e tr : launched (e :: tr) = launched tr ++ match launch e with Some x => [x] | None => [] end.
Proof. unfold launched. cbn [rev]. rewrite scan.omap_app. cbn. destruct (launch e); reflexivity. Qed.

Lemma launched_none e tr : launch e = None -> launched (e :: tr) = launched tr.
Proof. intros H. rewrite launched_cons, H. apply app_nil_r. Qed.

Fixpoint launches (w : Z) (fs : list (list Z)) : list (Z * Z) :=
  match fs with [] => [] | f :: fs' => (w mod 4, zlen f) :: launches (w + 1) fs' end.

Lemma launches_app fs1 : forall w fs2, launches w (fs1 ++ fs2) = launches w fs1 ++ launches (w + zlen fs1) fs2.
Proof.
  induction fs1 as [|f fs1 IH]; intros w fs2; cbn [launches app]; [rewrite Z.add_0_r; reflexivity|]. rewrite IH, zlen_cons. do 3 f_equal. lia.
Qed.

(** The length in the low bits of the descriptor *)
Lemma length_bits n : 0 <= n < 2 ^ 13 -> u32 (Z.lor (Z.land n 0x1FFF) (Z.shiftl 9 16)) mod 2 ^ 13 = n.
Proof.
  intros Hn. change 0x1FFF with (2 ^ 13 - 1). rewrite land_ones_mod, (Z.mod_small n) by lia. rewrite u32_small by (apply (lor_below 32); [lia|lia|vm_compute; split; [discriminate|reflexivity]]).
  rewrite <-Z.land_ones, Z.land_lor_distr_l, !Z.land_ones by lia. change (Z.shiftl 9 16 mod 2 ^ 13) with 0. rewrite Z.lor_0_r. apply Z.mod_small, Hn.
Qed.

Lemma launch_tsd d n : 0 <= d < 4 -> 0 <= n < 2 ^ 13 -> launch (Wr 4 (u16 (port card (TSD0 + d * 4))) (u32 (Z.lor (Z.land n 0x1FFF) (Z.shiftl 9 16)))) = Some (d, n).
Proof.
  intros Hd Hn. unfold launch. rewrite length_bits by exact Hn. unfold port, TSD0 in *. rewrite u16_small by lia.
  replace (pci.iobase card + (16 + d * 4) - (pci.iobase card + 16)) with (d * 4) by lia.
  rewrite (proj2 (Z.leb_le 0 _)), (proj2 (Z.ltb_lt _ 16)), Z.mod_mul, Z.div_mul by lia. reflexivity.
Qed.

(** A register that is not a transmit status *)
Lemma launch_other reg v : 0 <= reg < 0x100 -> reg < TSD0 \/ TSD0 + 16 <= reg -> launch (Wr 4 (u16 (port card reg)) v) = None.
Proof.
  intros Hr Ho. unfold launch, port, TSD0 in *. rewrite u16_small by lia.
  destruct (Z.leb_spec 0 (pci.iobase card + reg - (pci.iobase card + 16))), (Z.ltb_spec (pci.iobase card + reg - (pci.iobase card + 16)) 16); try reflexivity. lia.
Qed.

Definition accepts (st st' : t) (fl new : list (list Z)) : Prop :=
  window st' (fl ++ new) /\ tx_cur_send st' = tx_cur_send st /\ launched (io st') = launched (io st) ++ launches (tx_cur_write st) new.

(** The card is done with every descriptor it is asked about. *)
Definition done_with_all : Prop := forall tr d, 0 <= d < 4 -> set (u32 (dev tr 4 (u16 (port card (TSD0 + d * 4))))) TSR_OWN = true.

Lemma transmit_ok st fl p data : window st fl -> zlen p <= 1500 -> p `prefix_of` data -> exists st' r new, transmit dev card tx_address st data (zlen p) = Ret (st', r) /\
  (new = [] \/ new = [padded p]) /\ (done_with_all -> new = take (Z.to_nat (4 - zlen fl)) [padded p]) /\
  accepts st st' fl new /\ only_sends st st' /\ pending_tx st' = pending_tx st /\ buf st' = buf st.
Proof.
  intros [Hs Hw Hr Hc Hz Hf] Hp Hpre. unfold transmit. pose proof (zlen_nonneg fl). pose proof (zlen_nonneg p). rewrite (u32_small (tx_cur_send st + 4)) by lia.
  assert (window st fl) as Hwin by (constructor; assumption).
  assert (accepts st st fl []) as Hnone by (split; [rewrite app_nil_r; exact Hwin|split; [reflexivity|cbn; rewrite app_nil_r; reflexivity]]).
  destruct (Z.geb_spec (tx_cur_write st) (tx_cur_send st + 4)) as [Hfull|Hroom].
  { exists st, (-1), []. split; [reflexivity|]. split; [auto|]. split; [intros _; replace (Z.to_nat (4 - zlen fl)) with 0%nat by lia; reflexivity|].
    split; [exact Hnone|]. split; [reflexivity|auto]. }
  set (d := tx_cur_write st mod 4). assert (0 <= d < 4) as Hd by (apply Z.mod_pos_bound; lia).
  unfold in32, ind. set (v := u32 _). set (st1 := set_io (Rd 4 (u16 (port card (TSD0 + d * 4))) v :: io st) st).
  destruct (set v TSR_OWN) eqn:Hown; cbn [negb].
  2:{ exists st1, (-1), []. split; [reflexivity|]. split; [auto|]. split; [intros Hall; exfalso; specialize (Hall (io st) d Hd); unfold v in Hown; congruence|].
      split; [|split; [repeat split|auto]]. destruct Hwin. split; [rewrite app_nil_r; constructor; assumption|].
      split; [reflexivity|]. cbn [launches]. rewrite app_nil_r. apply launched_none. reflexivity. }
  destruct (znth_lt_Some (tx_buffers st) d) as [b Hb]; [lia|]. change (tx_buffers st1) with (tx_buffers st). unfold arr_get. rewrite Hb, mbind_Ret.
  destruct Hpre as [stale ->]. rewrite Z.min_l by exact Hp. rewrite arr_blit_Ret by (rewrite ?(Hz _ _ Hb), ?zlen_app; try (pose proof (zlen_nonneg stale)); lia). rewrite mbind_Ret.
  assert (take (Z.to_nat (zlen p)) (p ++ stale) = p) as -> by (unfold zlen; rewrite Nat2Z.id; apply take_app_length).
  destruct (pad_ok 60 (blit b (Z.to_nat 0) p) p) as (b' & -> & Hb' & Hpre'); [|exact Hp| |lia|].
  { rewrite <-(Hz _ _ Hb). unfold zlen in *. rewrite length_blit; [reflexivity|]. pose proof (Hz _ _ Hb) as Hbz. unfold zlen in Hbz. simpl. lia. }
  { exists (drop (length p) b). reflexivity. }
  rewrite mbind_Ret. change (tx_buffers st1) with (tx_buffers st).
  eexists _, 0, [padded p]. split; [reflexivity|]. split; [auto|].
  split; [intros _; replace (Z.to_nat (4 - zlen fl)) with (S (Z.to_nat (3 - zlen fl))) by lia; cbn [take]; rewrite take_nil; reflexivity|].
  split; [|split; [repeat split|split; reflexivity]].
  assert (zlen [padded p] = 1) as H1 by reflexivity.
  split; [|split; [reflexivity|]].
  - constructor; cbn [tx_cur_send tx_cur_write tx_buffers set_cursors set_io set_tx_buffers out32 st1].
    + exact Hs.
    + rewrite zlen_app, H1, u32_small by lia. lia.
    + rewrite zlen_app, H1. lia.
    + rewrite zlen_zset. exact Hc.
    + intros d' b'' Hd'. rewrite znth_zset in Hd'. destruct (_ && _); [injection Hd' as <-; exact Hb'|eauto].
    + intros i f Hi. pose proof (znth_Some_lt _ _ _ Hi) as Hil. rewrite zlen_app, H1 in Hil. destruct (Z.lt_ge_cases i (zlen fl)) as [Hlt|Hge].
      * rewrite znth_app_l in Hi by exact Hlt. destruct (Hf i f Hi) as (bi & Hbi & Hpi). exists bi. split; [|exact Hpi]. rewrite znth_zset_ne; [exact Hbi|].
        unfold d. intros Heq. apply (mod_inj_lt (tx_cur_send st + i) (tx_cur_write st) 4) in Heq || (symmetry in Heq; apply (mod_inj_lt (tx_cur_send st + i) (tx_cur_write st) 4) in Heq); lia.
      * assert (i = zlen fl) as -> by lia. rewrite znth_app_r, Z.sub_diag in Hi by lia. injection Hi as <-. exists b'. split; [|exact Hpre'].
        replace ((tx_cur_send st + zlen fl) mod 4) with d by (unfold d; rewrite Hw; reflexivity). apply znth_zset_eq. lia.
  - cbn [launches]. fold d. rewrite zlen_padded. cbn [io set_cursors set_io set_tx_buffers out32 st1]. unfold outd. rewrite launched_cons, launch_tsd by lia. f_equal.
    rewrite launched_none; [apply launched_none; reflexivity|]. apply launch_other; unfold TSAD0, TSD0; lia.
Qed.

Lemma accepts_trans st1 st2 st3 fl n1 n2 : window st1 fl -> accepts st1 st2 fl n1 -> accepts st2 st3 (fl ++ n1) n2 -> accepts st1 st3 fl (n1 ++ n2).
Proof.
  intros Hw (Hw2 & Hs2 & Hl2) (Hw3 & Hs3 & Hl3). split; [rewrite app_assoc; exact Hw3|]. split; [congruence|]. rewrite Hl3, Hl2, launches_app, app_assoc. do 2 f_equal.
  rewrite (w_write _ _ Hw2), (w_write _ _ Hw), Hs2, zlen_app. lia.
Qed.

(** Changing what sending does not look at *)
Lemma window_ext st st' fl : tx_cur_send st' = tx_cur_send st -> tx_cur_write st' = tx_cur_write st -> tx_buffers st' = tx_buffers st -> window st fl -> window st' fl.
Proof. intros Hs Hw Hb []. constructor; rewrite ?Hs, ?Hw, ?Hb; assumption. Qed.

Lemma PENDING_pos : 0 < PENDING.
Proof. reflexivity. Qed.
Lemma PENDING_int : 3 * PENDING <= INT_MAX.
Proof. vm_compute. discriminate. Qed.

Definition small (ps : list (list Z)) : Prop := Forall (fun p => zlen p <= 1500) ps.

Lemma send_loop_ok fuel : forall st fl l, ring_buffer.rep PENDING (pending_tx st) l -> window st fl -> zlen (buf st) = 1600 -> Forall (fun b => 0 <= b < 256) l ->
  small (parse l).1 -> (length l < fuel)%nat ->
  exists st' new, send_loop dev card tx_address fuel st = Ret st' /\ new `sublist_of` map padded (parse l).1 /\
    (done_with_all -> new = take (Z.to_nat (4 - zlen fl)) (map padded (parse l).1)) /\ accepts st st' fl new /\ only_sends st st' /\
    ring_buffer.rep PENDING (pending_tx st') (parse l).2 /\ zlen (buf st') = 1600.
Proof.
  induction fuel as [|fuel IH]; intros st fl l Hr Hw Hbuf Hb Hps Hf; [lia|]. cbn [send_loop]. rewrite (ring_buffer.rb_size PENDING PENDING_int _ _ Hr).
  assert (accepts st st fl []) as Hnone by (split; [rewrite app_nil_r; exact Hw|split; [reflexivity|cbn; rewrite app_nil_r; reflexivity]]).
  assert (exists st' new, Ret st = Ret st' /\ new `sublist_of` map padded [] /\ (done_with_all -> new = take (Z.to_nat (4 - zlen fl)) (map padded [])) /\ accepts st st' fl new /\ only_sends st st' /\ ring_buffer.rep PENDING (pending_tx st') l /\ zlen (buf st') = 1600) as Hstop.
  { exists st, []. split; [reflexivity|]. split; [constructor|]. split; [intros _; cbn [map]; rewrite take_nil; reflexivity|]. split; [exact Hnone|]. split; [reflexivity|auto]. }
  destruct l as [|b0 [|b1 rest]]; [exact Hstop|exact Hstop|]. rewrite !zlen_cons. pose proof (zlen_nonneg rest). rewrite Z.geb_leb, (proj2 (Z.leb_le _ _)) by lia.
  rewrite (ring_buffer.rb_peek PENDING PENDING_pos PENDING_int _ _ 0 2 Hr) by (unfold PENDING; lia). change (take (Z.to_nat 2) (drop (Z.to_nat 0) (b0 :: b1 :: rest))) with [b0; b1]. rewrite mbind_Ret.
  apply Forall_cons in Hb. destruct Hb as [Hb0 Hb]. apply Forall_cons in Hb. destruct Hb as [Hb1 Hb]. set (size := bytes.of_le16 b0 b1). assert (0 <= size) as Hsz by (unfold size, bytes.of_le16; lia).
  rewrite parse_step in *. fold size in Hps |- *. cbv zeta in Hps |- *. destruct (Z.ltb_spec (zlen rest) size) as [Hlt|Hge].
  { rewrite (proj2 (Z.ltb_lt _ _)) by lia. exact Hstop. }
  rewrite (proj2 (Z.ltb_ge _ _)) by lia. destruct (parse (drop (Z.to_nat size) rest)) as [ps r] eqn:Ep. cbn [fst snd] in Hps |- *. apply Forall_cons in Hps. destruct Hps as [Hp Hps].
  destruct (ring_buffer.rb_consume PENDING PENDING_pos PENDING_int _ _ 2 Hr) as (q1 & -> & Hr1); [rewrite !zlen_cons; lia|]. rewrite mbind_Ret. cbn [passert Z.eqb Pos.eqb]. rewrite mbind_Ret.
  change (drop (Z.to_nat 2) (b0 :: b1 :: rest)) with rest in Hr1. destruct (ring_buffer.rb_read_front PENDING PENDING_pos PENDING_int _ _ size Hr1 Hsz) as (q2 & -> & Hr2). rewrite mbind_Ret.
  set (p := take (Z.to_nat size) rest) in *. assert (zlen p = size) as Hzp by (apply zlen_take; lia).
  rewrite arr_blit_Ret by lia. rewrite mbind_Ret, Hzp, Z.eqb_refl. cbn [passert]. rewrite mbind_Ret.
  assert (take (Z.to_nat size) p = p) as -> by (apply take_ge; unfold zlen in Hzp; lia). set (b := blit (buf st) (Z.to_nat 0) p).
  assert (length p <= length (buf st))%nat as Hpl by (unfold zlen in *; lia).
  assert (zlen b = 1600) as Hzb by (rewrite <-Hbuf; unfold zlen, b; rewrite length_blit by (cbn; exact Hpl); reflexivity).
  set (st1 := set_buf b (set_pending q2 st)). destruct (transmit_ok st1 fl p b) as (st2 & ret & new1 & E & Hnew1 & Hall1 & Ha1 & Ho1 & Hpend & Hbuf1).
  { apply (window_ext st); auto. } { exact Hp. } { exists (drop (length p) (buf st)). reflexivity. }
  rewrite Hzp in E. rewrite E, mbind_Ret.
  destruct (IH st2 (fl ++ new1) (drop (Z.to_nat size) rest)) as (st3 & new2 & E3 & Hsub & Hall2 & Ha2 & Ho2 & Hr3 & Hb3).
  { rewrite Hpend. exact Hr2. } { apply Ha1. } { rewrite Hbuf1. exact Hzb. } { apply Forall_drop, Hb. } { rewrite Ep. exact Hps. } { rewrite length_drop. simpl in Hf. lia. }
  rewrite Ep in Hsub, Hall2, Hr3. cbn [fst snd] in Hsub, Hall2, Hr3. exists st3, (new1 ++ new2). split; [exact E3|]. split; [|split].
  - cbn [map]. destruct Hnew1 as [-> | ->]; cbn [app]; constructor; exact Hsub.
  - intros Hall. rewrite (Hall2 Hall), zlen_app. cbn [map]. change (padded p :: map padded ps) with ([padded p] ++ map padded ps). rewrite (Hall1 Hall).
    pose proof (w_room _ _ Hw). destruct (Z.eq_dec (zlen fl) 4) as [E4|Hne].
    + rewrite E4. reflexivity.
    + replace (Z.to_nat (4 - zlen fl)) with (S (Z.to_nat (3 - zlen fl))) by lia. cbn [take app]. rewrite take_nil. change (zlen [padded p]) with 1. cbn [app]. do 2 f_equal. lia.
  - split; [|split; [etrans; [|exact Ho2]; etrans; [|exact Ho1]; repeat split|split; [exact Hr3|exact Hb3]]].
    apply (accepts_trans st st2); [exact Hw| |exact Ha2]. destruct Ha1 as (H1 & H2 & H3). split; [exact H1|]. split; [exact H2|exact H3].
Qed.

(** The state between system calls: the pending bytes and the packets in flight *)
Record sends (st : t) (pend : list Z) (fl : list (list Z)) : Prop := {
  sd_pending : ring_buffer.rep PENDING (pending_tx st) pend;
  sd_window : window st fl;
  sd_buf : zlen (buf st) = 1600;
  sd_bytes : Forall (fun b => 0 <= b < 256) pend
}.

Lemma card_write_ok st pend fl data : sends st pend fl -> Forall (fun b => 0 <= b < 256) data -> 0 < zlen data -> zlen pend + zlen data <= PENDING -> small (parse (pend ++ data)).1 ->
  exists st' new, write dev card tx_address st data (zlen data) = Ret (st', zlen data) /\ new `sublist_of` map padded (parse (pend ++ data)).1 /\
    (done_with_all -> new = take (Z.to_nat (4 - zlen fl)) (map padded (parse (pend ++ data)).1)) /\
    accepts st st' fl new /\ only_sends st st' /\ sends st' (parse (pend ++ data)).2 (fl ++ new).
Proof.
  intros [Hr Hw Hbuf Hb] Hd Hpos Hfit Hps. pose proof (zlen_nonneg pend). unfold write. rewrite Z.gtb_ltb, (proj2 (Z.ltb_lt 0 _)) by lia. cbn [passert]. rewrite mbind_Ret. unfold ring_buffer.capacity.
  rewrite Z.min_r, Z.ltb_irrefl by lia. rewrite (take_zlen data).
  destruct (ring_buffer.rb_append PENDING PENDING_pos PENDING_int _ _ data Hr Hfit) as (q & -> & Hq). rewrite mbind_Ret. pose proof (Forall_app_2 _ _ _ Hb Hd) as Hbytes.
  destruct (send_loop_ok (S (Z.to_nat PENDING)) (set_pending q st) fl (pend ++ data)) as (st' & new & E & Hsub & Hall & Ha & Ho & Hr' & Hb').
  { exact Hq. } { apply (window_ext st); auto. } { exact Hbuf. } { exact Hbytes. } { exact Hps. }
  { pose proof (zlen_app pend data) as Hz. unfold zlen in *. lia. }
  rewrite E, mbind_Ret. exists st', new. split; [reflexivity|]. split; [exact Hsub|]. split; [exact Hall|]. split; [exact Ha|]. split; [exact Ho|]. split; [exact Hr'|apply Ha|exact Hb'|].
  pose proof (parse_bytes (pend ++ data) Hbytes) as Hpb. exact Hpb.
Qed.

(** More than the buffer has room for is refused as a whole. *)
Lemma write_refused st pend fl data : sends st pend fl -> 0 < zlen data <= PENDING -> PENDING < zlen pend + zlen data -> write dev card tx_address st data (zlen data) = Ret (st, 0).
Proof.
  intros [Hr Hw Hbuf Hb] Hd Hfit. pose proof (ring_buffer.rb_len_bound PENDING _ _ Hr). unfold write. rewrite Z.gtb_ltb, (proj2 (Z.ltb_lt 0 _)) by lia. cbn [passert]. rewrite mbind_Ret. unfold ring_buffer.capacity.
  rewrite Z.min_r, Z.ltb_irrefl by lia. rewrite (take_zlen data).
  rewrite (ring_buffer.rb_append_refused PENDING PENDING_pos _ _ data Hr) by (unfold PENDING in *; lia). reflexivity.
Qed.

(** A packet longer than the static buffer is copied over its end. *)
Lemma send_loop_oversized fuel st p : ring_buffer.rep PENDING (pending_tx st) (frame p) -> zlen (buf st) = 1600 -> 1600 < zlen p < 2 ^ 16 -> send_loop dev card tx_address (S fuel) st = Undef.
Proof.
  intros Hq Hbuf Hp. assert (zlen (frame p) = zlen p + 2) as Hz by (unfold frame, bytes.le16; cbn [app]; rewrite !zlen_cons; lia).
  cbn [send_loop]. rewrite (ring_buffer.rb_size PENDING PENDING_int _ _ Hq), Z.geb_leb, (proj2 (Z.leb_le _ _)) by lia.
  rewrite (ring_buffer.rb_peek PENDING PENDING_pos PENDING_int _ _ 0 2 Hq) by (unfold PENDING; lia). change (take (Z.to_nat 2) (drop (Z.to_nat 0) (frame p))) with (bytes.le16 (zlen p)). rewrite mbind_Ret. unfold bytes.le16 at 1.
  rewrite bytes.of_le16_le16 by lia. rewrite (proj2 (Z.ltb_ge _ _)) by lia.
  destruct (ring_buffer.rb_consume PENDING PENDING_pos PENDING_int _ _ 2 Hq) as (q1 & -> & Hr1); [lia|]. rewrite mbind_Ret. cbn [passert Z.eqb Pos.eqb]. rewrite mbind_Ret.
  change (drop (Z.to_nat 2) (frame p)) with p in Hr1. destruct (ring_buffer.rb_read_front PENDING PENDING_pos PENDING_int _ _ (zlen p) Hr1) as (q2 & -> & _); [lia|]. rewrite mbind_Ret, (take_zlen p).
  unfold arr_blit. rewrite Hbuf. destruct ((0 <=? 0) && (0 <=? zlen p) && (0 + zlen p <=? 1600) && (zlen p <=? zlen p)) eqn:E; [lia|reflexivity].
Qed.

Lemma write_oversized st fl p : sends st [] fl -> 1600 < zlen p < 2 ^ 16 -> zlen (frame p) <= PENDING -> write dev card tx_address st (frame p) (zlen (frame p)) = Undef.
Proof.
  intros [Hr Hw Hbuf _] Hp Hfit. assert (zlen (frame p) = zlen p + 2) as Hz by (unfold frame, bytes.le16; cbn [app]; rewrite !zlen_cons; lia). unfold write. rewrite Z.gtb_ltb, (proj2 (Z.ltb_lt 0 _)) by lia. cbn [passert]. rewrite mbind_Ret.
  unfold ring_buffer.capacity. rewrite Z.min_r, Z.ltb_irrefl by lia. rewrite (take_zlen (frame p)). destruct (ring_buffer.rb_append PENDING PENDING_pos PENDING_int _ _ (frame p) Hr) as (q & -> & Hq); [exact Hfit|]. rewrite mbind_Ret.
  rewrite (send_loop_oversized _ (set_pending q st) p Hq Hbuf Hp). reflexivity.
Qed.

(** ** Interrupts *)

(** [st'] differs from [st] at most in what sending does not use. *)
Definition keeps_tx (st st' : t) : Prop :=
  tx_cur_send st' = tx_cur_send st /\ tx_cur_write st' = tx_cur_write st /\ tx_buffers st' = tx_buffers st /\ pending_tx st' = pending_tx st /\ buf st' = buf st /\
  launched (io st') = launched (io st).

#[local] Instance keeps_tx_preorder : PreOrder keeps_tx.
Proof. split; [intros st; repeat split|]. intros a b c (?&?&?&?&?&?) (?&?&?&?&?&?). repeat split; congruence. Qed.

Lemma sends_keeps st st' pend fl : keeps_tx st st' -> sends st pend fl -> sends st' pend fl.
Proof.
  intros (H1 & H2 & H3 & H4 & H5 & H6) [Hr Hw Hbuf Hb]. constructor; [congruence|exact (window_ext _ _ _ H1 H2 H3 Hw)|congruence|exact Hb].
Qed.

Lemma keeps_in32 reg st : keeps_tx st (in32 dev card reg st).1.
Proof. unfold in32, ind. cbn [fst]. repeat split. apply launched_none. reflexivity. Qed.
Lemma keeps_in16 reg st : keeps_tx st (in16 dev card reg st).1.
Proof. unfold in16, inw. cbn [fst]. repeat split. apply launched_none. reflexivity. Qed.
Lemma keeps_in8 reg st : keeps_tx st (in8 dev card reg st).1.
Proof. unfold in8, inb. cbn [fst]. repeat split. apply launched_none. reflexivity. Qed.
Lemma keeps_out8 reg v st : keeps_tx st (out8 card reg v st).
Proof. unfold out8, outb. repeat split. apply launched_none. reflexivity. Qed.
Lemma keeps_out16 reg v st : keeps_tx st (out16 card reg v st).
Proof. unfold out16, outw. repeat split. apply launched_none. reflexivity. Qed.
Lemma keeps_out32 reg v st : 0 <= reg < 0x100 -> reg < TSD0 \/ TSD0 + 16 <= reg -> keeps_tx st (out32 card reg v st).
Proof. intros Hr Ho. unfold out32, outd. repeat split. apply launched_none, launch_other; assumption. Qed.

Lemma keeps_push k next st data n st' sw : (forall st2 r, k st2 = Ret r -> keeps_tx st2 r.1) -> push k next st data n = Ret (st', sw) -> keeps_tx st st'.
Proof.
  intros Hk E. unfold push in E. destruct (blocking.push_back _ _ _ _ _) as [[[[b p] c] woken]| | |]; try discriminate. rewrite mbind_Ret in E.
  destruct woken as [idx|]; [injection E as <- _; repeat split|]. exact (Hk _ _ E).
Qed.

Variable rx_buffer : trace -> list Z.

Lemma keeps_receive fuel : forall at_ st r, receive dev card rx_buffer fuel at_ st = Ret r -> keeps_tx st r.1.
Proof.
  induction fuel as [|fuel IH]; intros at_ st [st' sw] E; [discriminate|]. destruct at_ as [|size|size]; cbn [receive] in E.
  - pose proof (keeps_in8 CR st) as H1. destruct (in8 dev card CR st) as [st1 cr]. cbn [fst] in H1. destruct (set cr CR_BUFE); [injection E as <- _; exact H1|].
    bind_ret E. bind_ret E. bind_ret E. bind_ret E. cbv zeta in E.
    destruct (_ || _) in E.
    + apply IH in E. etrans; [exact H1|]. etrans; [|exact E]. etrans; [|apply keeps_out8]. repeat split.
    + destruct (process_opened _) in E.
      * apply keeps_push in E; [|intros st2 r E2; exact (IH _ _ _ E2)]. etrans; [exact H1|]. etrans; [|exact E]. repeat split.
      * apply IH in E. etrans; [exact H1|]. etrans; [|exact E]. repeat split.
  - apply keeps_push in E; [exact E|intros st2 r E2; exact (IH _ _ _ E2)].
  - apply IH in E. etrans; [|exact E]. etrans; [|apply keeps_out16]. repeat split.
Qed.

Lemma retire_ok n : forall st fl, window st fl -> tx_cur_send st + zlen fl < 8 -> zlen fl <= Z.of_nat n ->
  exists k, 0 <= k <= zlen fl /\ window (retire dev card n st) (drop (Z.to_nat k) fl) /\ launched (io (retire dev card n st)) = launched (io st) /\
    tx_cur_write (retire dev card n st) = tx_cur_write st /\ pending_tx (retire dev card n st) = pending_tx st /\ buf (retire dev card n st) = buf st.
Proof.
  induction n as [|n IH]; intros st fl Hw H8 Hn; cbn [retire].
  - pose proof (zlen_nonneg fl). exists 0. repeat (split; [first [lia|exact Hw|reflexivity]|]). reflexivity.
  - pose proof Hw as [Hs Hwr Hr Hc Hz Hf]. pose proof (zlen_nonneg fl).
    assert (exists k, 0 <= k <= zlen fl /\ window st (drop (Z.to_nat k) fl) /\ launched (io st) = launched (io st) /\ tx_cur_write st = tx_cur_write st /\ pending_tx st = pending_tx st /\ buf st = buf st) as Hstop.
    { exists 0. repeat (split; [first [lia|exact Hw|reflexivity]|]). reflexivity. }
    destruct (Z.ltb_spec (tx_cur_send st) (tx_cur_write st)) as [Hlt|]; [|exact Hstop].
    pose proof (keeps_in32 (TSD0 + tx_cur_send st mod 4 * 4) st) as Hk. destruct (in32 dev card _ st) as [st1 status]. cbn [fst] in Hk. destruct Hk as (K1 & K2 & K3 & K4 & K5 & K6).
    destruct (_ || _).
    2:{ exists 0. rewrite drop_0. split; [lia|]. split; [exact (window_ext _ _ _ K1 K2 K3 Hw)|auto]. }
    destruct fl as [|f fl]; [change (zlen (@nil (list Z))) with 0 in Hwr; lia|]. rewrite zlen_cons in *. pose proof (zlen_nonneg fl).
    destruct (IH (set_cursors (tx_cur_write st1) (u32 (tx_cur_send st1 + 1)) st1) fl) as (k & Hk & Hwk & Hlk & Hwrk & Hpk & Hbk).
    + constructor; cbn [tx_cur_send tx_cur_write tx_buffers set_cursors]; rewrite ?K1, ?K2, ?K3; try assumption; rewrite ?u32_small by lia; try lia.
      intros i g Hi. pose proof (znth_Some_lt _ _ _ Hi). destruct (Hf (i + 1) g) as (b & Hb & Hpre); [rewrite znth_cons_pos by lia; rewrite <-Hi; f_equal; lia|].
      exists b. split; [|exact Hpre]. rewrite <-Hb. do 2 f_equal. lia.
    + cbn [tx_cur_send set_cursors]. rewrite K1, u32_small by lia. lia.
    + lia.
    + exists (k + 1). replace (Z.to_nat (k + 1)) with (S (Z.to_nat k)) by lia. cbn [drop]. split; [lia|]. split; [exact Hwk|].
      cbn [io tx_cur_write pending_tx buf set_cursors] in *. split; [congruence|]. split; [congruence|]. split; congruence.
Qed.

(** Between interrupts the cursors are small, and the write cursor tells which
    descriptor comes next. *)
Definition settled (st : t) : Prop := tx_cur_send st < 4.

Lemma finish_ok st pend fl : sends st pend fl ->
  sends (finish card st) pend fl /\ settled (finish card st) /\ launched (io (finish card st)) = launched (io st) /\ tx_cur_write (finish card st) mod 4 = tx_cur_write st mod 4.
Proof.
  intros [Hr Hw Hbuf Hb]. unfold finish. set (st1 := if tx_cur_send st >=? 4 then _ else st).
  assert (sends st1 pend fl /\ settled st1 /\ io st1 = io st /\ tx_cur_write st1 mod 4 = tx_cur_write st mod 4) as (Hs1 & Hset & Hio & Hmod).
  { unfold st1, settled. destruct (Z.geb_spec (tx_cur_send st) 4) as [Hge|Hlt]; [|split; [constructor; assumption|]; split; [exact Hlt|auto]].
    pose proof Hw as [Hs Hwr Hro Hc Hz Hf]. pose proof (zlen_nonneg fl). assert (u32 (tx_cur_send st - 4) = tx_cur_send st - 4) as E1 by (apply u32_small; lia).
    assert (u32 (tx_cur_write st - 4) = tx_cur_write st - 4) as E2 by (apply u32_small; lia). cbn [tx_cur_send tx_cur_write io set_cursors]. rewrite E1, E2.
    split; [|split; [lia|split; [reflexivity|exact (mod_shift (tx_cur_write st) 1 4 ltac:(lia))]]].
    constructor; [exact Hr| |exact Hbuf|exact Hb]. constructor; cbn [tx_cur_send tx_cur_write tx_buffers set_cursors]; rewrite ?E1, ?E2; try assumption; try lia.
    intros i f Hi. destruct (Hf i f Hi) as (b & Hb' & Hpre). exists b. split; [|exact Hpre]. replace (tx_cur_send st - 4 + i) with (tx_cur_send st + i - 1 * 4) by lia. rewrite mod_shift by lia. exact Hb'. }
  assert (keeps_tx st1 (set_io (x86.irq_eoi (io (out32 card ISR 0xFFFF st1)) (pci.irq card)) (out32 card ISR 0xFFFF st1))) as Hk.
  { etrans; [apply (keeps_out32 ISR 0xFFFF); unfold ISR, TSD0; lia|]. repeat split. cbn [io set_io]. unfold x86.irq_eoi. destruct (_ >=? 8); unfold outb; rewrite !launched_none by reflexivity; reflexivity. }
  pose proof Hk as (K1 & K2 & _ & _ & _ & K6). split; [exact (sends_keeps _ _ _ _ Hk Hs1)|]. unfold settled in *. rewrite K1, K2, K6, Hio. auto.
Qed.

Definition int_result (st st' : t) (sw : option (Z * point)) (pend : list Z) (fl : list (list Z)) : Prop :=
  exists k, 0 <= k <= zlen fl /\ sends st' pend (drop (Z.to_nat k) fl) /\ launched (io st') = launched (io st) /\ tx_cur_write st' mod 4 = tx_cur_write st mod 4 /\ (sw = None -> settled st').

Lemma after_receive_ok st r st' sw pend fl : sends st pend fl -> keeps_tx st r.1 -> after_receive card r = (st', sw) -> int_result st st' sw pend fl.
Proof.
  intros Hs Hk E. destruct r as [st1 sw1]. cbn [fst] in Hk. pose proof (sends_keeps _ _ _ _ Hk Hs) as Hs1. pose proof Hk as (K1 & K2 & _ & _ & _ & K6). pose proof (zlen_nonneg fl).
  unfold after_receive in E. exists 0. rewrite drop_0. split; [lia|]. destruct sw1 as [x|]; injection E as <- <-.
  - split; [exact Hs1|]. split; [exact K6|]. split; [congruence|discriminate].
  - destruct (finish_ok st1 pend fl Hs1) as (F1 & F2 & F3 & F4). split; [exact F1|]. split; [congruence|]. split; [congruence|auto].
Qed.

Lemma int_ok fuel st st' sw pend fl : sends st pend fl -> settled st -> int_rtl8139 dev card rx_buffer fuel st = Ret (st', sw) -> int_result st st' sw pend fl.
Proof.
  intros Hs Hset E. unfold int_rtl8139 in E. pose proof (keeps_in16 ISR st) as Hk1. destruct (in16 dev card ISR st) as [st1 status]. cbn [fst] in Hk1.
  pose proof (keeps_out16 ISR status st1) as Hk2. set (st2 := out16 card ISR status st1) in *. assert (keeps_tx st st2) as Hk by (etrans; eassumption).
  pose proof (sends_keeps _ _ _ _ Hk Hs) as Hs2. pose proof Hk as (K1 & K2 & K3 & K4 & K5 & K6).
  set (st3 := if set status IMR_TOK then retire dev card (Z.to_nat (tx_cur_write st2 - tx_cur_send st2)) st2 else st2) in *.
  assert (exists k, 0 <= k <= zlen fl /\ sends st3 pend (drop (Z.to_nat k) fl) /\ launched (io st3) = launched (io st) /\ tx_cur_write st3 = tx_cur_write st) as (k & Hkr & Hs3 & Hl3 & Hw3).
  { unfold st3. destruct (set status IMR_TOK); [|exists 0; rewrite drop_0; pose proof (zlen_nonneg fl); split; [lia|auto]].
    destruct Hs2 as [Hr Hw Hbuf Hb]. unfold settled in Hset. pose proof (w_write _ _ Hw). pose proof (w_room _ _ Hw).
    destruct (retire_ok (Z.to_nat (tx_cur_write st2 - tx_cur_send st2)) st2 fl Hw) as (k & Hk' & Hwk & Hlk & Hwrk & Hpk & Hbk); [lia|lia|].
    exists k. split; [exact Hk'|]. split; [constructor; [rewrite Hpk; exact Hr|exact Hwk|congruence|exact Hb]|]. split; congruence. }
  assert (forall r, keeps_tx st3 r.1 -> after_receive card r = (st', sw) -> int_result st st' sw pend fl) as Hend.
  { intros r Hkr' Er. destruct (after_receive_ok st3 r st' sw pend _ Hs3 Hkr' Er) as (j & Hj & Hsj & Hlj & Hmj & Hset'). rewrite drop_drop in Hsj. pose proof (zlen_drop fl k ltac:(lia)) as Hzd.
    exists (k + j). split; [lia|]. rewrite Z2Nat.inj_add by lia. split; [exact Hsj|]. split; [congruence|]. split; [congruence|exact Hset']. }
  destruct (set status IMR_ROK).
  - bind_ret E. injection E as E. apply (Hend a); [exact (keeps_receive _ _ _ _ Es)|exact E].
  - injection E as <- <-. apply (Hend (st3, None)); reflexivity.
Qed.

Lemma resumed_ok fuel st idx at_ st' sw pend fl : sends st pend fl -> int_resumed dev card rx_buffer fuel st idx at_ = Ret (st', sw) -> int_result st st' sw pend fl.
Proof.
  intros Hs E. unfold int_resumed in E. destruct (blocking.push_back_resumed _ _ _) as [[[b p] woken]| | |]; try discriminate. rewrite mbind_Ret in E.
  set (st1 := set_procs p (set_fifo b st)) in *. assert (keeps_tx st st1) as Hk by (repeat split). destruct woken as [idx'|].
  - injection E as <- <-. apply (after_receive_ok st (st1, Some (idx', at_)) st1 (Some (idx', at_)) pend fl Hs Hk). reflexivity.
  - bind_ret E. injection E as E. apply (after_receive_ok st a st' sw pend fl Hs); [|exact E]. etrans; [exact Hk|exact (keeps_receive _ _ _ _ Es)].
Qed.

(** ** Everything that can happen

    [stream] are the bytes that were accepted by [write] so far; [sw] is where
    an interrupt handler was left. *)
Inductive history : t -> option (Z * point) -> list Z -> Prop :=
| H_init procs tr : launched tr = [] -> history (set_io tr (initial procs)) None []
| H_write st sw stream data st' r : history st sw stream -> Forall (fun b => 0 <= b < 256) data -> 0 < zlen data <= PENDING -> small (parse (stream ++ data)).1 ->
    write dev card tx_address st data (zlen data) = Ret (st', r) -> history st' sw (stream ++ take (Z.to_nat r) data)
| H_interrupt fuel st stream st' sw : history st None stream -> int_rtl8139 dev card rx_buffer fuel st = Ret (st', sw) -> history st' sw stream
| H_resume fuel st idx at_ stream st' sw : history st (Some (idx, at_)) stream -> int_resumed dev card rx_buffer fuel st idx at_ = Ret (st', sw) -> history st' sw stream
| H_other st sw stream st' : history st sw stream -> keeps_tx st st' -> history st' sw stream.

(** What has been sent, and how much of it the card is done with *)
Record sent (st : t) (sw : option (Z * point)) (stream : list Z) (log : list (list Z)) (k : Z) : Prop := {
  st_bound : 0 <= k <= zlen log;
  st_log : log `sublist_of` map padded (parse stream).1;
  st_launched : launched (io st) = launches 0 log;
  st_sends : sends st (parse stream).2 (drop (Z.to_nat k) log);
  st_next : tx_cur_write st mod 4 = zlen log mod 4;
  st_settled : sw = None -> settled st;
  st_bytes : Forall (fun b => 0 <= b < 256) stream
}.

Lemma launches_mod fs : forall w w', w mod 4 = w' mod 4 -> launches w fs = launches w' fs.
Proof.
  induction fs as [|f fs IH]; intros w w' E; cbn [launches]; [reflexivity|]. rewrite E. f_equal. apply IH. rewrite <-(Z.add_mod_idemp_l w), E, Z.add_mod_idemp_l by lia. reflexivity.
Qed.

(** The packets of a longer stream *)
Lemma parse_more stream data : Forall (fun b => 0 <= b < 256) stream -> parse (stream ++ data) = ((parse stream).1 ++ (parse ((parse stream).2 ++ data)).1, (parse ((parse stream).2 ++ data)).2).
Proof.
  intros Hb. rewrite (parse_app (length stream) stream data (Nat.le_refl _) Hb). destruct (parse stream) as [ps r]. cbn [fst snd]. destruct (parse (r ++ data)). reflexivity.
Qed.

Lemma sent_write st sw stream log k data : sent st sw stream log k -> Forall (fun b => 0 <= b < 256) data -> 0 < zlen data -> zlen (parse stream).2 + zlen data <= PENDING ->
  small (parse (stream ++ data)).1 ->
  exists st' new, write dev card tx_address st data (zlen data) = Ret (st', zlen data) /\ sent st' sw (stream ++ data) (log ++ new) k /\
    (done_with_all -> new = take (Z.to_nat (4 - (zlen log - k))) (map padded (parse ((parse stream).2 ++ data)).1)).
Proof.
  intros [Hk Hlog Hl Hs Hn Hset Hb] Hd Hpos Hfit Hps. rewrite parse_more in Hps by exact Hb. cbn [fst] in Hps. apply Forall_app in Hps. destruct Hps as [_ Hps].
  destruct (card_write_ok st _ _ data Hs Hd Hpos Hfit Hps) as (st' & new & E & Hsub & Hall & (Hw & Hsend & Hlaunch) & _ & Hs'). exists st', new. split; [exact E|].
  assert (zlen (drop (Z.to_nat k) log) = zlen log - k) as Hzd by (apply zlen_drop; lia). split; [|rewrite <-Hzd; exact Hall]. pose proof (zlen_nonneg new).
  constructor.
  - rewrite zlen_app. lia.
  - rewrite parse_more by exact Hb. cbn [fst]. rewrite map_app. apply sublist_app; assumption.
  - rewrite Hlaunch, Hl, launches_app, Z.add_0_l. f_equal. apply launches_mod, Hn.
  - rewrite parse_more by exact Hb. cbn [snd]. rewrite drop_app_le by (unfold zlen in Hk; lia). exact Hs'.
  - rewrite (w_write _ _ Hw), Hsend, zlen_app. pose proof (w_write _ _ (sd_window _ _ _ Hs)) as Hw0. rewrite zlen_app.
    replace (tx_cur_send st + (zlen (drop (Z.to_nat k) log) + zlen new)) with (tx_cur_write st + zlen new) by lia. rewrite <-Z.add_mod_idemp_l, Hn, Z.add_mod_idemp_l by lia. reflexivity.
  - intros E'. specialize (Hset E'). unfold settled in *. congruence.
  - apply Forall_app_2; assumption.
Qed.

Lemma sent_int st sw st' sw' stream log k : sent st sw stream log k -> int_result st st' sw' (parse stream).2 (drop (Z.to_nat k) log) -> exists k', sent st' sw' stream log k'.
Proof.
  intros [Hk Hlog Hl Hs Hn Hset Hb] (j & Hj & Hs' & Hl' & Hm' & Hset'). rewrite zlen_drop in Hj by lia. exists (k + j).
  rewrite drop_drop in Hs'. constructor; try assumption; [lia|congruence| |congruence]. rewrite Z2Nat.inj_add by lia. exact Hs'.
Qed.

Lemma initial_sent procs tr : launched tr = [] -> sent (set_io tr (initial procs)) None [] [] 0.
Proof.
  intros Htr. constructor; [vm_compute; split; discriminate|constructor|exact Htr| |reflexivity|intros _; reflexivity|constructor].
  constructor; [apply queue.queue_rep_init; [reflexivity|vm_compute; reflexivity]| |vm_compute; reflexivity|constructor].
  constructor; cbn [tx_cur_send tx_cur_write tx_buffers set_io initial]; [lia|reflexivity|vm_compute; discriminate|reflexivity| |intros i f Hi; destruct (znth_nil_inv i f Hi)].
  intros d b Hd. assert (b = replicate 1516 0) as ->; [|vm_compute; reflexivity].
  unfold znth in Hd. destruct (0 <=? d); [|discriminate]. apply lookup_replicate_1 in Hd. apply Hd.
Qed.

Lemma history_sent st sw stream : history st sw stream -> exists log k, sent st sw stream log k.
Proof.
  induction 1 as [procs tr Htr|st sw stream data st' r _ (log & k & Hsent) Hd Hz Hps E|fuel st stream st' sw _ (log & k & Hsent) E|fuel st idx at_ stream st' sw _ (log & k & Hsent) E|st sw stream st' _ (log & k & Hsent) Hkeep].
  - exists [], 0. apply initial_sent, Htr.
  - destruct (Z.le_gt_cases (zlen (parse stream).2 + zlen data) PENDING) as [Hfit|Hno].
    + destruct (sent_write _ _ _ _ _ data Hsent Hd ltac:(lia) Hfit Hps) as (st2 & new & E2 & Hs2 & _). rewrite E in E2. injection E2 as -> ->.
      rewrite (take_zlen data). eauto.
    + rewrite (write_refused st _ _ data (st_sends _ _ _ _ _ Hsent) Hz Hno) in E. injection E as <- <-. rewrite take_0, app_nil_r. eauto.
  - destruct (sent_int st None st' sw stream log k Hsent) as [k' Hs']; [|eauto]. apply (int_ok fuel); [apply (st_sends _ _ _ _ _ Hsent)|apply (st_settled _ _ _ _ _ Hsent); reflexivity|exact E].
  - destruct (sent_int st (Some (idx, at_)) st' sw stream log k Hsent) as [k' Hs']; [|eauto]. apply (resumed_ok fuel st idx at_); [apply (st_sends _ _ _ _ _ Hsent)|exact E].
  - exists log, k. destruct Hsent as [Hk Hlog Hl Hs Hn Hset Hb]. pose proof Hkeep as (K1 & K2 & _ & _ & _ & K6). constructor; try assumption; [congruence|exact (sends_keeps _ _ _ _ Hkeep Hs)|congruence|].
    intros E. specialize (Hset E). unfold settled in *. congruence.
Qed.

End facts.
End sending.

(** ** Receiving *)
Module receiving.
Import ports rtl8139 framing.

(** Where the packet behind one of [size] bytes (its checksum included) starts *)
Definition next_pos (pos size : Z) : Z := ((pos + 4 + size + 3) / 4 * 4) mod rx_ring_size.

(** The ring holds packets that were received without error. *)
Inductive ring_holds (mem : list Z) : Z -> list (list Z) -> Z -> Prop :=
| R_nil pos : ring_holds mem pos [] pos
| R_cons pos p ps pos' b0 b1 : znth mem pos = Some b0 -> znth mem (pos + 1) = Some b1 -> set (bytes.of_le16 b0 b1) RXS_ROK = true ->
    znth mem (pos + 2) = Some (u8 (zlen p + 4)) -> znth mem (pos + 3) = Some (u8 (Z.shiftr (zlen p + 4) 8)) -> zlen p + 4 <= 1518 ->
    (forall i, 0 <= i < zlen p -> znth mem (pos + 4 + i) = znth p i) -> ring_holds mem (next_pos pos (zlen p + 4)) ps pos' -> ring_holds mem pos (p :: ps) pos'.

Definition framed_length (ps : list (list Z)) : Z := zlen (concat (map frame ps)).

Lemma framed_length_cons p ps : framed_length (p :: ps) = 2 + zlen p + framed_length ps.
Proof. unfold framed_length, frame, bytes.le16. cbn [map concat]. rewrite zlen_app. cbn [app]. rewrite !zlen_cons. lia. Qed.

Lemma FIFO_pos : 0 < FIFO.
Proof. reflexivity. Qed.
Lemma FIFO_int : 2 * FIFO <= INT_MAX.
Proof. vm_compute. discriminate. Qed.

Section facts.
Context (dev : device) (card : pci.pci_device) (rx_buffer : trace -> list Z).

(** How often the card was told where the reader is *)
Fixpoint positions_told (tr : trace) : Z :=
  match tr with
  | [] => 0
  | Wr 2 p _ :: tr' => if p =? u16 (port card CAPR) then positions_told tr' + 1 else positions_told tr'
  | _ :: tr' => positions_told tr'
  end.

(** The card says that its ring is empty once it was told [total] positions. *)
Definition empty_after (total : Z) : Prop :=
  forall tr, set (u8 (dev tr 1 (u16 (port card CR)))) CR_BUFE = (total <=? positions_told tr).

(** The reader's queue holds [l], and nobody waits for it. *)
Record fifo_holds (st : t) (l : list Z) : Prop := {
  fh_queue : queue.rep FIFO (blocking.queue_of (read_fifo st)) l;
  fh_signal : fpm 16 (blocking.signal (read_fifo st)) ∅
}.

Lemma push_ok k next st l data n : fifo_holds st l -> 0 < n <= zlen data -> zlen l + n <= FIFO ->
  exists b, push k next st data n = k (set_procs (procs st) (set_fifo b st)) /\ fifo_holds (set_procs (procs st) (set_fifo b st)) (l ++ take (Z.to_nat n) data).
Proof.
  intros [Hq Hcv] Hn Hroom. unfold push, blocking.push_back.
  destruct (blocking.push_loop_rep FIFO FIFO_pos FIFO_int (Z.to_nat n) (blocking.queue_of (read_fifo st)) l data 0 Hq) as (q & E & Hq'); [lia|lia|].
  rewrite Z2Nat.id in E, Hq' by lia. rewrite Z.min_r in E, Hq' by lia. rewrite drop_0 in Hq'. rewrite Z.add_0_l in E. rewrite E, mbind_Ret.
  rewrite (proj2 (Z.eqb_neq n 0)) by lia. cbn [blocking.signal]. rewrite (editor.notify_nobody _ (procs st) Hcv), mbind_Ret, mbind_Ret. eexists. split; [reflexivity|].
  split; [exact Hq'|exact Hcv].
Qed.

(** What the handler changes when it receives *)
Record received (st st' : t) (l : list Z) (pos told : Z) : Prop := {
  rc_fifo : fifo_holds st' l;
  rc_pos : rx_pos st' = pos;
  rc_told : positions_told (io st') = told;
  rc_opened : process_opened st' = process_opened st
}.

Lemma le16_take x rest : take (Z.to_nat 2) (bytes.le16 x ++ rest) = bytes.le16 x.
Proof. reflexivity. Qed.

Lemma align_up v : 0 <= v < 2 ^ 31 -> kdefs.ALIGN_UP v 4 = (v + 3) / 4 * 4.
Proof.
  intros Hv. unfold kdefs.ALIGN_UP. rewrite (u32_small (v + 4)), u32_small by lia. change (4 - 1) with (2 ^ 2 - 1). rewrite land_lnot_mod by lia. change (2 ^ 2) with 4. do 2 f_equal. lia.
Qed.

Lemma advance_ok fuel st size : 0 <= rx_pos st + size < 2 ^ 31 ->
  receive dev card rx_buffer (S fuel) (Advance size) st =
  receive dev card rx_buffer fuel Next (out16 card CAPR (((rx_pos st + size + 3) / 4 * 4) mod rx_ring_size - 16) (set_rx_pos (((rx_pos st + size + 3) / 4 * 4) mod rx_ring_size) st)).
Proof.
  intros Hp. cbn [receive]. cbv zeta. rewrite align_up by exact Hp. rewrite Z.rem_mod_nonneg; [reflexivity| |unfold rx_ring_size; lia].
  apply Z.mul_nonneg_nonneg; [apply Z.div_pos; lia|lia].
Qed.

(** One packet *)
Lemma receive_one fuel st l pos p ps pos' : (forall tr, ring_holds (rx_buffer tr) pos (p :: ps) pos') -> rx_pos st = pos -> 0 <= pos <= rx_ring_size - 4 ->
  fifo_holds st l -> is_Some (process_opened st) -> zlen l + 2 + zlen p <= FIFO -> empty_after (positions_told (io st) + 1 + zlen ps) -> 0 < zlen p ->
  exists st', receive dev card rx_buffer (S (S (S fuel))) Next st = receive dev card rx_buffer fuel Next st' /\
    received st st' (l ++ frame p) (next_pos pos (zlen p + 4)) (positions_told (io st) + 1).
Proof.
  intros Hring Hpos Hb Hf [pid Ho] Hroom He Hp0. pose proof (zlen_nonneg ps). remember (S fuel) as f1. remember (S f1) as f2. cbn [receive]. unfold in8, inb. rewrite (He (io st)).
  rewrite (proj2 (Z.leb_gt _ _)) by lia. cbn [rx_pos set_io io]. rewrite Hpos. match goal with |- context [rx_buffer ?tr] => set (tr1 := tr) in * end.
  pose proof (Hring tr1) as H1. inversion H1 as [|pos0 p0 ps0 pos1 b0 b1 Hb0 Hb1 Hok Hb2 Hb3 Hsz Hdata Hrest]. subst pos0 p0 ps0 pos1.
  unfold arr_get. rewrite Hb0, Hb1, Hb2, Hb3, !mbind_Ret. pose proof (zlen_nonneg p). rewrite bytes.of_le16_le16 by lia. rewrite Hok. cbn [negb orb].
  rewrite Z.gtb_ltb, (proj2 (Z.ltb_ge _ _)) by lia. set (st1 := set_rx_pos (u16 (pos + 4)) _). change (process_opened st1) with (process_opened st). rewrite Ho.
  assert (data_size (zlen p + 4) = zlen p) as Hds by (unfold data_size; rewrite Z.add_simpl_r; apply u16_small; lia). rewrite Hds.
  assert (fifo_holds st1 l) as Hf1 by (split; apply Hf).
  destruct (push_ok (receive dev card rx_buffer f2 (PushData (zlen p + 4))) (PushData (zlen p + 4)) st1 l (bytes.le16 (zlen p)) 2 Hf1) as (fb1 & -> & Hf2); [unfold bytes.le16, zlen; simpl; lia|lia|].
  change (take (Z.to_nat 2) (bytes.le16 (zlen p))) with (bytes.le16 (zlen p)) in Hf2. set (st2 := set_procs (procs st1) (set_fifo fb1 st1)) in *. subst f2. cbn [receive]. rewrite Hds.
  assert (rx_pos st2 = pos + 4) as Hpos2 by (cbn [rx_pos st2 st1 set_procs set_fifo set_rx_pos]; apply u16_small; unfold rx_ring_size in *; lia).
  assert (take (Z.to_nat (zlen p)) (packet_data rx_buffer (io st2) (rx_pos st2)) = p /\ zlen p <= zlen (packet_data rx_buffer (io st2) (rx_pos st2))) as [Htake Hlen].
  { rewrite Hpos2. unfold packet_data. pose proof (Hring (io st2)) as H2. inversion H2 as [|pos0 p0 ps0 pos1 c0 c1 _ _ _ _ _ _ Hdata2 _]. subst pos0 p0 ps0 pos1.
    assert (pos + 4 + zlen p <= zlen (rx_buffer (io st2))) as Hin.
    { pose proof (Hdata2 (zlen p - 1) ltac:(lia)) as Hlast. destruct (znth_lt_Some p (zlen p - 1)) as [x Hx]; [lia|]. rewrite Hx in Hlast. apply znth_Some_lt in Hlast. lia. }
    pose proof (zlen_drop (rx_buffer (io st2)) (pos + 4) ltac:(lia)) as Hzd. split; [|lia]. apply znth_eq; [rewrite zlen_take by lia; reflexivity|].
    intros i Hi. rewrite zlen_take in Hi by lia. rewrite znth_take, znth_drop by lia. apply Hdata2. lia. }
  destruct (push_ok (receive dev card rx_buffer f1 (Advance (zlen p + 4))) (Advance (zlen p + 4)) st2 _ (packet_data rx_buffer (io st2) (rx_pos st2)) (zlen p) Hf2) as (fb2 & -> & Hf3); [lia|rewrite zlen_app; unfold bytes.le16; rewrite !zlen_cons; change (zlen (@nil Z)) with 0; lia|].
  rewrite Htake, <-app_assoc in Hf3. change (bytes.le16 (zlen p) ++ p) with (frame p) in Hf3. set (st3 := set_procs (procs st2) (set_fifo fb2 st2)) in *. subst f1.
  assert (rx_pos st3 = pos + 4) as Hpos3 by exact Hpos2. rewrite advance_ok by (rewrite Hpos3; unfold rx_ring_size in *; lia). rewrite Hpos3. eexists. split; [reflexivity|].
  constructor; [split; apply Hf3|reflexivity| |reflexivity].
  cbn [io out16 set_io set_rx_pos st3 st2 st1 set_procs set_fifo]. unfold outw. cbn [positions_told]. rewrite Z.eqb_refl. reflexivity.
Qed.

Lemma next_pos_range pos size : 0 <= next_pos pos size <= rx_ring_size - 4.
Proof. unfold next_pos, rx_ring_size. change (8 * 1024) with 8192. set (v := (pos + 4 + size + 3) / 4). clearbody v. dlia. Qed.

(** All packets *)
Lemma receive_all ps : forall fuel st l pos', (forall tr, ring_holds (rx_buffer tr) (rx_pos st) ps pos') -> 0 <= rx_pos st <= rx_ring_size - 4 ->
  fifo_holds st l -> is_Some (process_opened st) -> zlen l + framed_length ps <= FIFO -> Forall (fun p => 0 < zlen p) ps -> empty_after (positions_told (io st) + zlen ps) -> (3 * length ps < fuel)%nat ->
  exists st', receive dev card rx_buffer fuel Next st = Ret (st', None) /\ received st st' (l ++ concat (map frame ps)) pos' (positions_told (io st) + zlen ps).
Proof.
  induction ps as [|p ps IH]; intros fuel st l pos' Hring Hb Hf Ho Hroom Hpos He Hfuel.
  - destruct fuel as [|fuel]; [simpl in Hfuel; lia|]. cbn [receive]. unfold in8, inb. rewrite (He (io st)), (proj2 (Z.leb_le _ _)) by (change (zlen (@nil (list Z))) with 0; lia).
    eexists. split; [reflexivity|]. cbn [map concat]. rewrite app_nil_r. pose proof (Hring []) as H1. inversion H1. subst. constructor; [split; apply Hf|reflexivity| |reflexivity].
    cbn [io set_io positions_told]. change (zlen (@nil (list Z))) with 0. lia.
  - rewrite framed_length_cons in Hroom. rewrite zlen_cons in He |- *. apply Forall_cons in Hpos. destruct Hpos as [Hp Hpos]. pose proof (zlen_nonneg p).
    destruct fuel as [|[|[|fuel]]]; [simpl in Hfuel; lia|simpl in Hfuel; lia|simpl in Hfuel; lia|].
    assert (0 <= framed_length ps) as Hfl by apply zlen_nonneg.
    destruct (receive_one fuel st l (rx_pos st) p ps pos' Hring eq_refl Hb Hf Ho ltac:(lia)) as (st1 & -> & [Hf1 Hp1 Ht1 Ho1]); [replace (positions_told (io st) + 1 + zlen ps) with (positions_told (io st) + (zlen ps + 1)) by lia; exact He|exact Hp|].
    destruct (IH fuel st1 (l ++ frame p) pos') as (st2 & -> & [Hf2 Hp2 Ht2 Ho2]).
    + intros tr. rewrite Hp1. pose proof (Hring tr) as H1. inversion H1. assumption.
    + rewrite Hp1. apply next_pos_range.
    + exact Hf1.
    + rewrite Ho1. exact Ho.
    + rewrite zlen_app. unfold frame at 1, bytes.le16. cbn [app]. rewrite !zlen_cons. lia.
    + exact Hpos.
    + rewrite Ht1. replace (positions_told (io st) + 1 + zlen ps) with (positions_told (io st) + (zlen ps + 1)) by lia. exact He.
    + simpl in Hfuel. lia.
    + exists st2. split; [reflexivity|]. cbn [map concat]. rewrite app_assoc. constructor; [exact Hf2|exact Hp2|rewrite Ht2, Ht1; lia|congruence].
Qed.

End facts.
End receiving.

(** C12: what is written to the network device is sent, whatever pieces (of 1
    to [PENDING] bytes) it is written in and however interrupts fall in between,
    provided that the packets of the stream have at most 1500 bytes
    ([sending.small]; of longer ones the end is stale, and beyond 1600 bytes
    they overwrite what is behind the buffer).  After any history of such
    writes, interrupts, interrupted interrupts and other calls: the frames the
    card was told to send ([log]) are, in order and with descriptors used in
    turn, some of the packets of the whole byte stream, padded to 60 bytes; at
    most four of them are in flight, and each of those is still unchanged in
    its buffer; the bytes of the incomplete packet at the end are pending.  A
    further write that fits into the pending bytes is accepted as a whole; when
    the card is done with its descriptors the first packets it completes are
    sent, as many as there are free slots, and the others are lost. *)
Theorem rtl8139_sends_stream (dev : ports.device) (card : pci.pci_device) (tx_address : Z) (rx_buffer : ports.trace -> list Z)
    (st : rtl8139.t) (sw : option (Z * rtl8139.point)) (stream : list Z) :
  0 <= pci.iobase card /\ pci.iobase card + 0x100 <= 2 ^ 16 -> sending.history dev card tx_address rx_buffer st sw stream ->
  exists log k, sending.sent card st sw stream log k /\
    forall data, Forall (fun b => 0 <= b < 256) data -> 0 < zlen data -> zlen (framing.parse stream).2 + zlen data <= rtl8139.PENDING ->
      sending.small (framing.parse (stream ++ data)).1 ->
      exists st' new, rtl8139.write dev card tx_address st data (zlen data) = Ret (st', zlen data) /\ sending.sent card st' sw (stream ++ data) (log ++ new) k /\
        (sending.done_with_all dev card -> new = take (Z.to_nat (4 - (zlen log - k))) (map sending.padded (framing.parse ((framing.parse stream).2 ++ data)).1)).
Proof.
  intros Hcard Hh. destruct (sending.history_sent dev card tx_address Hcard rx_buffer st sw stream Hh) as (log & k & Hs). exists log, k. split; [exact Hs|].
  intros data Hd Hpos Hfit Hps. exact (sending.sent_write dev card tx_address Hcard st sw stream log k data Hs Hd Hpos Hfit Hps).
Qed.

(** A card at port 0xC000 that is done at once.  A packet of three bytes and
    the first byte of the next length are written: one frame of 60 bytes is
    sent with descriptor 0. *)
Lemma rtl8139_sends_stream_witness : let card := pci.mk_device 0 3 0x10EC 0x8139 0xC000 false 11 in
  exists st', rtl8139.write (fun _ _ _ => rtl8139.TSR_OWN) card 0xC0100000 (rtl8139.set_io [] (rtl8139.initial sched.init)) [3; 0; 1; 2; 3; 9] 6 = Ret (st', 6) /\
    sending.launched card (rtl8139.io st') = [(0, 60)].
Proof.
  intros card. set (dev := fun (_ : ports.trace) (_ _ : Z) => rtl8139.TSR_OWN).
  assert (sending.history dev card 0xC0100000 (fun _ => []) (rtl8139.set_io [] (rtl8139.initial sched.init)) None []) as Hh by (apply sending.H_init; reflexivity).
  destruct (rtl8139_sends_stream dev card 0xC0100000 (fun _ => []) _ None [] ltac:(cbn; lia) Hh) as (log & k & Hs & Hw).
  destruct (Hw [3; 0; 1; 2; 3; 9]) as (st' & new & E & Hs' & Hall).
  - repeat constructor; lia.
  - reflexivity.
  - vm_compute. discriminate.
  - repeat constructor. vm_compute. discriminate.
  - exists st'. split; [exact E|]. rewrite (sending.st_launched _ _ _ _ _ _ Hs'). pose proof (sending.st_log _ _ _ _ _ _ Hs) as Hlog. apply sublist_nil_r in Hlog. subst log.
    pose proof (sending.st_bound _ _ _ _ _ _ Hs) as Hk. change (zlen (@nil (list Z))) with 0 in *. assert (k = 0) as -> by lia.
    rewrite Hall; [vm_compute; reflexivity|]. intros tr d Hd. reflexivity.
Defined.

(** C22: what the card has put into its ring reaches the reader of the device.  When
    the ring holds the packets [ps] from the read position on, a process has
    opened the device, nobody is waiting and the reader's queue has room, the
    receive loop of the interrupt ends, appends every packet behind its length
    to the queue, in order, tells the card after each of them where it is,
    and leaves everything that sending uses alone.  A reader that takes a
    length and then as many bytes finds the packets again. *)
Theorem rtl8139_receives (dev : ports.device) (card : pci.pci_device) (rx_buffer : ports.trace -> list Z) (st : rtl8139.t) (l : list Z) (ps : list (list Z)) (pos' : Z) (fuel : nat) :
  (forall tr, receiving.ring_holds (rx_buffer tr) (rtl8139.rx_pos st) ps pos') -> 0 <= rtl8139.rx_pos st <= rtl8139.rx_ring_size - 4 ->
  receiving.fifo_holds st l -> is_Some (rtl8139.process_opened st) -> zlen l + receiving.framed_length ps <= rtl8139.FIFO -> Forall (fun p => 0 < zlen p < 2 ^ 16) ps ->
  receiving.empty_after dev card (receiving.positions_told card (rtl8139.io st) + zlen ps) -> (3 * length ps < fuel)%nat ->
  exists st', rtl8139.receive dev card rx_buffer fuel rtl8139.Next st = Ret (st', None) /\
    receiving.received card st st' (l ++ concat (map framing.frame ps)) pos' (receiving.positions_told card (rtl8139.io st) + zlen ps) /\
    sending.keeps_tx card st st' /\ framing.parse (concat (map framing.frame ps)) = (ps, []).
Proof.
  intros Hring Hb Hf Ho Hroom Hps He Hfuel. assert (Forall (fun p => 0 < zlen p) ps) as Hpos by (eapply Forall_impl; [exact Hps|cbn; intros; lia]).
  destruct (receiving.receive_all dev card rx_buffer ps fuel st l pos' Hring Hb Hf Ho Hroom Hpos He Hfuel) as (st' & E & Hr). exists st'. split; [exact E|]. split; [exact Hr|].
  split; [exact (sending.keeps_receive dev card rx_buffer _ _ _ _ E)|]. exact (framing.parse_all ps Hps).
Qed.

(** A ring of two packets, of three bytes and of one *)
Definition two_packets : list Z := [1; 0; 7; 0; 10; 20; 30; 0; 0; 0; 0; 0] ++ [1; 0; 5; 0; 40; 0; 0; 0; 0; 0; 0; 0] ++ replicate (Z.to_nat 9684) 0.

Lemma rtl8139_receives_witness : let card := pci.mk_device 0 3 0x10EC 0x8139 0xC000 false 11 in
  let dev := fun tr (_ _ : Z) => if 2 <=? receiving.positions_told card tr then rtl8139.CR_BUFE else 0 in
  exists st', rtl8139.receive dev card (fun _ => two_packets) 7 rtl8139.Next (rtl8139.set_opened (Some 5) (rtl8139.initial sched.init)) = Ret (st', None) /\
    receiving.fifo_holds st' [3; 0; 10; 20; 30; 1; 0; 40] /\ rtl8139.rx_pos st' = 24.
Proof.
  intros card dev. destruct (rtl8139_receives dev card (fun _ => two_packets) (rtl8139.set_opened (Some 5) (rtl8139.initial sched.init)) [] [[10; 20; 30]; [40]] 24 7) as (st' & E & Hr & _).
  - intros _. refine (receiving.R_cons _ _ _ _ _ 1 0 _ _ _ _ _ _ _ _); try (lazymatch goal with |- forall _, _ => fail | |- receiving.ring_holds _ _ _ _ => fail | _ => vm_compute; first [reflexivity|discriminate] end).
    + intros i Hi. assert (i = 0 \/ i = 1 \/ i = 2) as [-> | [-> | ->]] by (change (zlen [10; 20; 30]) with 3 in Hi; lia); vm_compute; reflexivity.
    + refine (receiving.R_cons _ _ _ _ _ 1 0 _ _ _ _ _ _ _ _); try (lazymatch goal with |- forall _, _ => fail | |- receiving.ring_holds _ _ _ _ => fail | _ => vm_compute; first [reflexivity|discriminate] end).
      * intros i Hi. assert (i = 0) as -> by (change (zlen [40]) with 1 in Hi; lia). vm_compute. reflexivity.
      * assert (receiving.next_pos (receiving.next_pos (rtl8139.rx_pos (rtl8139.set_opened (Some 5) (rtl8139.initial sched.init))) (zlen [10; 20; 30] + 4)) (zlen [40] + 4) = 24) as -> by (vm_compute; reflexivity).
        constructor.
  - vm_compute. split; discriminate.
  - split; [apply queue.queue_rep_init; [reflexivity|vm_compute; reflexivity]|apply fpm_new; unfold U16_MAX; lia].
  - eexists. reflexivity.
  - vm_compute. discriminate.
  - repeat constructor.
  - intros tr. unfold dev. change (receiving.positions_told card (rtl8139.io (rtl8139.set_opened (Some 5) (rtl8139.initial sched.init))) + zlen [[10; 20; 30]; [40]]) with 2. destruct (2 <=? _); reflexivity.
  - vm_compute. lia.
  - exists st'. split; [exact E|]. destruct Hr as [Hf Hp _ _]. split; [exact Hf|exact Hp].
Defined.
