(* ===== verification/Kernel.v ===== *)
(** * Processes in memory (kernel/process.cc, process_private.h, stack_portal.h,
      elf.cc, syscall_utils.h)

    The operations that tie the scheduler, the address spaces and the file
    system together: pointer checks of system calls, stacks written through a
    portal, the creation, forking, replacement and destruction of processes,
    and the loader of program images.  The file system state is the one the
    memory model carries.  Addresses the linker gives are parameters; strings
    in user memory are lists of characters. *)

From S2P Require Import Prelude Pool PageAlloc KernelDefs Text Vfs Memory Sched.
From stdpp Require Import gmap.
#[local] Open Scope Z_scope.

Module kernel.
Import kdefs.

Definition USER_SPACE_STACK_BASE : Z := 0xB0000000.
Definition PROC_KERNEL_STACK_BASE : Z := 0xD0000000.
Definition PROC_USER_SPACE : Z := 0x01.
Definition PROC_KERNEL_ACCESSIBLE : Z := 0x02.

Definition KERNEL_CODE_SEL : Z := 8.
Definition KERNEL_DATA_SEL : Z := 16.
Definition USER_CODE_SEL : Z := 27.
Definition USER_DATA_SEL : Z := 35.

Definition kernel_stack_flags : Z := Z.lor memory.MEM_AREA_READWRITE (Z.lor memory.MEM_AREA_NO_FORK memory.MEM_AREA_RETAIN_EXEC).
Definition user_stack_flags : Z := Z.lor memory.MEM_AREA_READWRITE (Z.lor memory.MEM_AREA_USER memory.MEM_AREA_SYSCALL).
Definition kernel_initial_stack_size : Z := 0x1000 * 10.
Definition user_initial_stack_size : Z := 0x1000.

(** The registers an interrupt saves *)
Record isr_registers := mk_regs {
  r_ds : Z;
  r_edi : Z; r_esi : Z; r_ebp : Z; r_esp : Z; r_ebx : Z; r_edx : Z; r_ecx : Z; r_eax : Z;
  r_error_code : Z;
  r_eip : Z; r_cs : Z; r_eflags : Z;
  r_user_esp : Z; r_ss : Z
}.

(** [isr_registers regs = {}] with the three fields [proc_create] sets *)
Definition entry_regs (cs ds eip : Z) : isr_registers := mk_regs ds 0 0 0 0 0 0 0 0 0 eip cs 0 0 0.

Section ops.
Context {V : Type}.
Implicit Type st : memory.t V.

(** ** Memory through the page tables of the current space *)

Definition store_byte st (virt b : Z) : outcome (memory.t V) :=
  space ← memory.get_space st (memory.current_space st);
  ok ← memory.write_allowed st space virt;
  e ← memory.find_pte st space virt;
  match e with
  | Some e =>
      if (ok : bool) then Ret (memory.set_ram st (memory.write_bytes (memory.ram st) (memory.pte_frame e + Z.land virt 0xFFF) [b])) else Undef
  | None => Undef
  end.

Fixpoint store_bytes st (virt : Z) (data : list Z) : outcome (memory.t V) :=
  match data with
  | [] => Ret st
  | b :: data' => st ← store_byte st virt b; store_bytes st (u32 (virt + 1)) data'
  end.

Definition load_byte st (virt : Z) : outcome Z :=
  space ← memory.get_space st (memory.current_space st);
  e ← memory.find_pte st space virt;
  match e with Some e => Ret (memory.ram st (memory.pte_frame e + Z.land virt 0xFFF)) | None => Undef end.

Definition word_bytes (w : Z) : list Z := (fun k => Z.land (Z.shiftr w (8 * k)) 0xFF) <$> seqZ 0 4.
Definition store_word st (virt w : Z) : outcome (memory.t V) := store_bytes st virt (word_bytes w).
Definition load_word st (virt : Z) : outcome Z :=
  b0 ← load_byte st virt; b1 ← load_byte st (virt + 1); b2 ← load_byte st (virt + 2); b3 ← load_byte st (virt + 3);
  Ret (b0 + 2 ^ 8 * b1 + 2 ^ 16 * b2 + 2 ^ 24 * b3).

(** ** [stack_portal] *)

Record stack_portal := mk_portal { entry_start : Z; entry_end : Z; target_start : Z; target_end : Z; stack_ptr : Z }.

Definition portal_open st (target_space target_stack_base size_bytes : Z) : outcome (memory.t V * stack_portal) :=
  let size := ALIGN_UP size_bytes 0x1000 in
  let start := memory.KERNEL_SCRATCH_BASE in
  let end_ := u32 (memory.KERNEL_SCRATCH_BASE + size) in
  let target := u32 (target_stack_base - size) in
  '(st, retval) ← memory.mem_map_portal st start (u32 (end_ - start)) target_space target memory.MEM_AREA_READWRITE;
  passert (retval >=? 0);;
  Ret (st, mk_portal start end_ target target_stack_base end_).

Definition portal_close st (p : stack_portal) : outcome (memory.t V) :=
  memory.mem_unmap_portal st (entry_start p) (u32 (entry_end p - entry_start p)).

Definition target_address (p : stack_portal) (entry_address : Z) : outcome Z :=
  passert (entry_address >=? entry_start p);;
  passert (entry_address <=? entry_end p);;
  Ret (u32 (target_end p - (entry_end p - entry_address))).

Definition current_pointer (p : stack_portal) : Z := stack_ptr p.
Definition move_ptr (p : stack_portal) (v : Z) : stack_portal := mk_portal (entry_start p) (entry_end p) (target_start p) (target_end p) v.

Definition push st (p : stack_portal) (value : Z) : outcome (memory.t V * stack_portal) :=
  passert (stack_ptr p <=? entry_end p);;
  passert (stack_ptr p >? entry_start p);;
  let ptr := u32 (stack_ptr p - 4) in
  st ← store_word st ptr value;
  Ret (st, move_ptr p ptr).

Definition push_data st (p : stack_portal) (data : list Z) : outcome (memory.t V * stack_portal * Z) :=
  passert (stack_ptr p <=? entry_end p);;
  passert (u32 (stack_ptr p - zlen data) >? entry_start p);;
  let dest := u32 (stack_ptr p - zlen data) in
  st ← store_bytes st dest data;
  Ret (st, move_ptr p (ALIGN_DOWN dest 4), dest).

(** [operator []] counts words from the stack pointer. *)
Definition slot (p : stack_portal) (offset : Z) : Z := u32 (stack_ptr p + 4 * offset).
Definition bytes_used (p : stack_portal) : Z := u32 (entry_end p - stack_ptr p).

Fixpoint push_all st (p : stack_portal) (values : list Z) : outcome (memory.t V * stack_portal) :=
  match values with
  | [] => Ret (st, p)
  | v :: values' => '(st, p) ← push st p v; push_all st p values'
  end.

(** ** The stacks of a process *)

Variable switch_task_iret : Z.
Variable user_proc_cleanup : Z.

(** The pushes of [write_kernel_stack], in order *)
Definition kernel_frame (regs : option isr_registers) : list Z :=
  let get (f : isr_registers -> Z) (d : Z) := match regs with Some r => f r | None => d end in
  [get r_ds USER_DATA_SEL; get r_user_esp 0; 0x202; get r_cs USER_CODE_SEL; get r_eip 0; get r_ds USER_DATA_SEL; switch_task_iret;
   0; get r_ecx 0; get r_edx 0; get r_ebx 0; 0; get r_ebp 0; get r_esi 0; get r_edi 0].

Definition write_kernel_stack st (space : Z) (regs : option isr_registers) : outcome (memory.t V * Z) :=
  '(st, portal) ← portal_open st space PROC_KERNEL_STACK_BASE kernel_initial_stack_size;
  '(st, portal) ← push_all st portal (kernel_frame regs);
  sp ← target_address portal (current_pointer portal);
  st ← portal_close st portal;
  Ret (st, sp).

(** The loop that copies the arguments; [arg_ptrs] is where the vector was pushed. *)
Fixpoint push_args st (p : stack_portal) (arg_ptrs i : Z) (args : list (list Z)) : outcome (memory.t V * stack_portal) :=
  match args with
  | [] => Ret (st, p)
  | a :: args' =>
      '(st, p, entry_pos) ← push_data st p (a ++ [0]);
      target ← target_address p entry_pos;
      st ← store_word st (u32 (arg_ptrs + 4 * i)) target;
      push_args st p arg_ptrs (i + 1) args'
  end.

(** [argv] holds the old pointers, [args] the strings they point to. *)
Definition write_user_stack st (space flags : Z) (argv : list Z) (args : list (list Z)) : outcome (memory.t V * Z) :=
  '(st, p) ← portal_open st space USER_SPACE_STACK_BASE user_initial_stack_size;
  '(st, p, arg_ptrs) ← push_data st p (concat (word_bytes <$> argv));
  '(st, p) ← push_args st p arg_ptrs 0 args;
  argv_target ← target_address p arg_ptrs;
  '(st, p) ← push st p argv_target;
  '(st, p) ← push st p (zlen args);
  '(st, p) ← push st p (if memory.has flags PROC_KERNEL_ACCESSIBLE then user_proc_cleanup else 0);
  sp ← target_address p (current_pointer p);
  st ← portal_close st p;
  Ret (st, sp).

Definition update_userspace_sp st (space user_stack_ptr : Z) : outcome (memory.t V) :=
  '(st, p) ← portal_open st space PROC_KERNEL_STACK_BASE 0x1000;
  ss ← load_word st (slot p (-1));
  passert (ss =? USER_DATA_SEL);;
  st ← store_word st (slot p (-2)) user_stack_ptr;
  portal_close st p.

Definition set_syscall_ret_ip st (space ip : Z) : outcome (memory.t V) :=
  '(st, p) ← portal_open st space PROC_KERNEL_STACK_BASE 0x1000;
  ss ← load_word st (slot p (-1));
  passert (ss =? USER_DATA_SEL);;
  cs ← load_word st (slot p (-4));
  passert (cs =? USER_CODE_SEL);;
  st ← store_word st (slot p (-5)) ip;
  portal_close st p.

End ops.

(** ** The kernel: scheduler, memory and file system *)

Section system.
Context {D : Type}.

Record t := mk { ps : sched.t; ms : memory.t (vfs.t D) }.
Implicit Type k : t.

Definition set_ps k (v : sched.t) : t := mk v (ms k).
Definition set_ms k (v : memory.t (vfs.t D)) : t := mk (ps k) v.
Definition fs k : vfs.t D := memory.vstate (ms k).
Definition set_fs k (v : vfs.t D) : t := set_ms k (memory.set_vstate (ms k) v).

Variable ext : Z -> vfs.driver D.
Variables (junk32 junk64 junk128 junk1024 : list Z).
Variables (switch_task_iret user_proc_cleanup : Z).
Variables (start_READONLY stop_READONLY kernel_end multiboot_last : Z).

Definition current k : outcome Z := match sched.proc_current_pid (ps k) with Some pid => Ret pid | None => Panic end.
Definition proc_get_space k (pid : Z) : outcome Z := p ← sched.proc (ps k) pid; Ret (sched.space_handle p).
Definition proc_get_file_context k (pid : Z) : outcome Z := p ← sched.proc (ps k) pid; Ret (sched.file_context p).

(** A scheduler operation; when it switches, [process::activate] makes the
    space of the new process the current one. *)
Definition run_sched k (ps' : sched.t) : outcome t :=
  if sched.current_pid ps' =? sched.current_pid (ps k) then Ret (set_ps k ps')
  else
    p ← sched.proc ps' (sched.current_pid ps');
    _ ← memory.mem_page_dir (ms k) (sched.space_handle p);
    Ret (mk ps' (memory.mem_set_current_space (ms k) (sched.space_handle p))).

Definition proc_yield k : outcome t := ps' ← sched.proc_yield (ps k); run_sched k ps'.
Definition proc_switch k (pid : Z) : outcome t := ps' ← sched.proc_switch (ps k) pid; run_sched k ps'.

Definition kill_caller k : outcome t := ps' ← sched.kill_caller (ps k); run_sched k ps'.

(** *** Pointers of system calls *)

Definition valid_pointer k (address : Z) : outcome bool :=
  pid ← current k;
  space ← proc_get_space k pid;
  area_flags ← memory.mem_area_flags (ms k) space address;
  Ret (match area_flags with Some f => memory.has f memory.MEM_AREA_SYSCALL | None => false end).

Definition valid_buffer k (address length : Z) : outcome bool :=
  ok ← valid_pointer k address;
  if negb ok then Ret false
  else
    pid ← current k;
    space ← proc_get_space k pid;
    start_area ← memory.mem_find_area (ms k) space address;
    match start_area with
    | None => Ret false
    | Some s =>
        end_area ← memory.mem_find_area (ms k) space (u32 (address + length));
        match end_area with
        | None => Ret false
        | Some e => Ret (s =? e)
        end
    end.

(** *** Creating and destroying processes *)

Definition setup_kernel_stack k (pid : Z) (regs : option isr_registers) : outcome t :=
  p ← sched.proc (ps k) pid;
  '(m, _) ← memory.mem_map_alloc (ms k) (sched.space_handle p) (PROC_KERNEL_STACK_BASE - 0x1000 * 10) PROC_KERNEL_STACK_BASE kernel_stack_flags;
  '(m, sp) ← write_kernel_stack switch_task_iret m (sched.space_handle p) regs;
  q ← sched.update (ps k) pid (sched.set_sp sp);
  Ret (mk q m).

Definition setup_user_stack k (pid : Z) (argv : list Z) (args : list (list Z)) : outcome t :=
  p ← sched.proc (ps k) pid;
  '(m, _) ← memory.mem_map_alloc (ms k) (sched.space_handle p) (USER_SPACE_STACK_BASE - 0x1000 * 1024) USER_SPACE_STACK_BASE user_stack_flags;
  '(m, sp) ← write_user_stack user_proc_cleanup m (sched.space_handle p) (sched.p_flags p) argv args;
  m ← update_userspace_sp m (sched.space_handle p) sp;
  Ret (set_ms k m).

Definition proc_setup_user_stack k (pid : Z) (argv : list Z) (args : list (list Z)) : outcome t := setup_user_stack k pid argv args.

Definition proc_set_syscall_ret k (pid ip : Z) : outcome t :=
  p ← sched.proc (ps k) pid; m ← set_syscall_ret_ip (ms k) (sched.space_handle p) ip; Ret (set_ms k m).

Definition proc_create k (flags entrypoint : Z) : outcome (t * Z) :=
  '(m, space) ← memory.mem_create_space (ms k);
  let mapping_flags :=
    if memory.has flags PROC_KERNEL_ACCESSIBLE
    then Z.lor memory.MEM_AREA_READWRITE (Z.lor memory.MEM_AREA_USER memory.MEM_AREA_SYSCALL) else memory.MEM_AREA_READWRITE in
  m ← memory.mem_map_kernel m space (Z.lor mapping_flags memory.MEM_AREA_RETAIN_EXEC) start_READONLY stop_READONLY kernel_end multiboot_last;
  '(v, r) ← vfs.vfs_create_context (memory.vstate m);
  ctx ← res_value r;
  '(tab, pid) ← pool.emplace_anywhere U16_MAX (sched.processes (ps k)) (sched.new_process space ctx flags);
  let k := mk (sched.set_processes (ps k) tab) (memory.set_vstate m v) in
  k ← setup_kernel_stack k pid
        (Some (if memory.has flags PROC_USER_SPACE then entry_regs USER_CODE_SEL USER_DATA_SEL entrypoint
               else entry_regs KERNEL_CODE_SEL KERNEL_DATA_SEL entrypoint));
  Ret (k, pid).

(** [proc_init] after the registrations; [idle_main] is the entry of the idle process. *)
Definition proc_init k (idle_main : Z) : outcome t :=
  '(k, pid) ← proc_create k PROC_KERNEL_ACCESSIBLE idle_main; Ret (set_ps k (sched.set_idle (ps k) pid)).

(** [proc_run] up to the first switch: it does not return. *)
Definition proc_run k : outcome t := proc_yield k.

(** The end of [kernel_main]: the init program, without arguments *)
Definition start_init k (init_main : Z) : outcome (t * Z) :=
  '(k, init_pid) ← proc_create k (Z.lor PROC_USER_SPACE PROC_KERNEL_ACCESSIBLE) init_main;
  k ← proc_setup_user_stack k init_pid [] [];
  ps' ← sched.proc_enqueue (ps k) init_pid;
  k ← proc_run (set_ps k ps');
  Ret (k, init_pid).

Definition destroy_process k (pid : Z) : outcome t :=
  p ← sched.proc (ps k) pid;
  v ← vfs.vfs_destroy_context ext (fs k) (sched.file_context p);
  m ← memory.mem_destroy_space (memory.set_vstate (ms k) v) (sched.space_handle p);
  tab ← pool.erase U16_MAX (sched.processes (ps k)) pid;
  Ret (mk (sched.set_processes (ps k) tab) m).

(** [wait]: up to the switch, and when the caller runs again; a result says
    the call has returned. *)
Definition finish_wait k (r : sched.wait_result) : outcome (t * option Z) :=
  match r with
  | sched.WaitReturns v => Ret (k, Some v)
  | sched.WaitDestroys pid => k ← destroy_process k pid; Ret (k, Some 1)
  | sched.WaitBlocks _ => Ret (k, None)
  end.

Definition syscall_wait k (pid : Z) : outcome (t * option Z) :=
  '(ps', r) ← sched.syscall_wait (ps k) pid; k ← run_sched k ps'; finish_wait k r.

Definition syscall_wait_resumed k (pid : Z) : outcome (t * option Z) :=
  r ← sched.syscall_wait_resumed (ps k) pid; finish_wait k r.

Definition syscall_fork k (regs : isr_registers) : outcome (t * Z) :=
  parent_pid ← current k;
  space ← proc_get_space k parent_pid;
  ctx ← proc_get_file_context k parent_pid;
  '(m, child_space) ← memory.mem_fork_space (ms k) space space;
  '(v, r) ← vfs.vfs_fork_context ext (memory.vstate m) ctx;
  child_ctx ← res_value r;
  '(tab, child_pid) ← pool.emplace_anywhere U16_MAX (sched.processes (ps k)) (sched.new_process child_space child_ctx 0);
  let k := mk (sched.set_processes (ps k) tab) (memory.set_vstate m v) in
  k ← setup_kernel_stack k child_pid (Some regs);
  q ← sched.proc_enqueue (ps k) child_pid;
  Ret (set_ps k q, child_pid).

(** *** Loading programs *)

Definition PT_LOAD : Z := 1.
Definition PF_X : Z := 1.
Definition PF_W : Z := 2.
Definition PF_R : Z := 4.
Definition ELF_HEADER_SIZE : Z := 52.
Definition PROGRAM_HEADER_SIZE : Z := 32.

(** Little endian fields *)
Definition field (bytes : list Z) (offset size : Z) : Z :=
  foldr (fun b acc => b + 256 * acc) 0 (take (Z.to_nat size) (drop (Z.to_nat offset) bytes)).

Record elf_header := mk_elf {
  e_ident : list Z; e_type : Z; e_machine : Z; e_version : Z; e_entry : Z; e_phoff : Z; e_shoff : Z; e_flags : Z;
  e_ehsize : Z; e_phentsize : Z; e_phnum : Z; e_shentsize : Z; e_shnum : Z; e_shstrndx : Z
}.
Definition parse_elf_header (b : list Z) : elf_header :=
  mk_elf (take 16 b) (field b 16 2) (field b 18 2) (field b 20 4) (field b 24 4) (field b 28 4) (field b 32 4) (field b 36 4)
    (field b 40 2) (field b 42 2) (field b 44 2) (field b 46 2) (field b 48 2) (field b 50 2).

Record elf_program_header := mk_ph {
  p_type : Z; p_offset : Z; p_vaddr : Z; p_paddr : Z; p_filesz : Z; p_memsz : Z; p_flags : Z; p_align : Z
}.
Definition parse_program_header (b : list Z) : elf_program_header :=
  mk_ph (field b 0 4) (field b 4 4) (field b 8 4) (field b 12 4) (field b 16 4) (field b 20 4) (field b 24 4) (field b 28 4).

Definition segment_flags (p_flags : Z) : Z :=
  let flags := memory.MEM_AREA_USER in
  let flags := if memory.has p_flags PF_X then Z.lor flags memory.MEM_AREA_EXECUTABLE else flags in
  let flags := if memory.has p_flags PF_W then Z.lor flags memory.MEM_AREA_READWRITE else flags in
  if memory.has p_flags PF_R then Z.lor flags memory.MEM_AREA_SYSCALL else flags.

(** The loop over the program headers; [pht] is the bytes read into the table. *)
Fixpoint map_program (n : nat) (m : memory.t (vfs.t D)) (space fd : Z) (pht : list Z) : outcome (memory.t (vfs.t D)) :=
  match n with
  | O => Ret m
  | S n' =>
      let ph := parse_program_header pht in
      m ← (if p_type ph =? PT_LOAD then
             '(m, _) ← memory.mem_map_fd m space (ALIGN_DOWN (p_vaddr ph) 0x1000) (ALIGN_UP (u32 (p_vaddr ph + p_memsz ph)) 0x1000)
                         fd (p_offset ph) (p_filesz ph) (segment_flags (p_flags ph));
             Ret m
           else Ret m);
      map_program n' m space fd (drop (Z.to_nat PROGRAM_HEADER_SIZE) pht)
  end.

Definition ident_ok (e : elf_header) : outcome bool :=
  i0 ← arr_get (e_ident e) 0; i1 ← arr_get (e_ident e) 1; i2 ← arr_get (e_ident e) 2; i3 ← arr_get (e_ident e) 3;
  i4 ← arr_get (e_ident e) 4; i5 ← arr_get (e_ident e) 5; i6 ← arr_get (e_ident e) 6;
  Ret ((i0 =? 0x7F) && (i1 =? 69) && (i2 =? 76) && (i3 =? 70) && (i4 =? 1) && (i5 =? 1) && (i6 =? 1)).

Definition elf_map_process k (pid : Z) (filename : list Z) : outcome (t * Z) :=
  ctx ← proc_get_file_context k pid;
  '(v, r) ← vfs.vfs_open ext junk32 (fs k) ctx filename 0;
  let k := set_fs k v in
  match r with
  | failure e => Ret (k, e)
  | success fd =>
      '(v, r) ← vfs.vfs_read ext junk64 (fs k) ctx fd ELF_HEADER_SIZE;
      let k := set_fs k v in
      match r with
      | failure e => Ret (k, e)
      | success (count, bytes) =>
          passert (count =? ELF_HEADER_SIZE);;
          let hdr := parse_elf_header bytes in
          ok ← ident_ok hdr;
          passert ok;;
          passert (e_type hdr =? 2);;
          passert (e_phnum hdr <? 32);;
          '(v, r) ← vfs.vfs_read ext junk64 (fs k) ctx fd (PROGRAM_HEADER_SIZE * e_phnum hdr);
          let k := set_fs k v in
          match r with
          | failure e => Ret (k, e)
          | success (count, pht) =>
              passert (count =? PROGRAM_HEADER_SIZE * e_phnum hdr);;
              space ← proc_get_space k pid;
              m ← map_program (Z.to_nat (e_phnum hdr)) (ms k) space fd pht;
              k ← proc_set_syscall_ret (set_ms k m) pid (e_entry hdr);
              Ret (k, 0)
          end
      end
  end.

(** [copy_argvs]: the strings the user's vector points to, with the pointers;
    offsets into the arena are what is kept.  A bad pointer kills the caller. *)
Inductive copied := Copied (arena : str.t) (offsets : list Z) | BadPointer.

Fixpoint copy_argvs k (argv : list (Z * list Z)) (arena : str.t) (offsets : list Z) (room : nat) : outcome copied :=
  match argv, room with
  | (ptr, text) :: argv', S room' =>
      ok ← valid_pointer k ptr;
      if negb ok then Ret BadPointer
      else
        let offset := str.size arena in
        arena ← str.append_str arena text;
        arena ← str.append arena 0;
        copy_argvs k argv' arena (offsets ++ [offset]) room'
  | _, _ => Ret (Copied arena offsets)
  end.

(** The strings in the arena, read when the user stack is written *)
Definition arena_strings (arena : str.t) (offsets : list Z) : outcome (list (list Z)) :=
  mapM (fun o => str.until_nul (drop (Z.to_nat o) (str.storage arena))) offsets.

Inductive exec_result := ExecReturns (r : Z) | ExecKilled.

(** [arena_base] is the address of the arena on the kernel stack. *)
Definition syscall_exec k (filename_ptr : Z) (filename : list Z) (argv_ptr : Z) (argv : list (Z * list Z)) (arena_base : Z) : outcome (t * exec_result) :=
  ok ← valid_pointer k filename_ptr;
  if negb ok then k ← kill_caller k; Ret (k, ExecKilled)
  else
  ok ← valid_pointer k argv_ptr;
  if negb ok then k ← kill_caller k; Ret (k, ExecKilled)
  else
  pid ← current k;
  ctx ← proc_get_file_context k pid;
  space ← proc_get_space k pid;
  '(v, r) ← vfs.vfs_open ext junk32 (fs k) ctx filename 0;
  let k := set_fs k v in
  match r with
  | failure e => Ret (k, ExecReturns e)
  | success fd =>
      '(v, _) ← vfs.vfs_close ext (fs k) ctx fd;
      let k := set_fs k v in
      image_path ← str.from_cstr_all junk128 filename;
      arg_arena ← str.new junk1024;
      c ← copy_argvs k argv arg_arena [] 32;
      match c with
      | BadPointer => k ← kill_caller k; Ret (k, ExecKilled)
      | Copied arena offsets =>
          if negb (zlen offsets + 1 <? 32) then Undef
          else
            m ← memory.mem_unmap_not_matching (ms k) space memory.MEM_AREA_RETAIN_EXEC;
            v ← vfs.vfs_close_not_matching ext (memory.vstate m) ctx OPEN_RETAIN_EXEC;
            let k := set_ms k (memory.set_vstate m v) in
            path ← str.c_str image_path;
            '(k, result) ← elf_map_process k pid path;
            if result <? 0 then Ret (k, ExecReturns result)
            else
              args ← arena_strings arena offsets;
              k ← proc_setup_user_stack k pid ((fun o => u32 (arena_base + o)) <$> offsets) args;
              Ret (k, ExecReturns 0)
      end
  end.

End system.

End kernel.
