(* ===== verification/KernelFacts.v ===== *)
(** * Pointer checks of system calls

    What the checks of kernel/syscall_utils.h accept, in terms of the areas of
    the calling process. *)

From S2P Require Import Prelude Pool PageAlloc KernelDefs Vfs Memory MemoryFacts MemoryAreas Sched SchedFacts Kernel.
From stdpp Require Import gmap.
#[local] Open Scope Z_scope.

Module checks.
Import kernel.

Section facts.
Context {D : Type}.
Implicit Type k : t (D := D).

(** The current process and its space, with its areas *)
Definition running_in k (ma : gmap Z memory.area_info) : Prop :=
  exists pid p s, sched.proc_current_pid (ps k) = Some pid /\ sched.proc (ps k) pid = Ret p /\
    areas.at_ (ms k) (sched.space_handle p) s /\ areas.space_ok s ma.

(** An area whose addresses system calls accept *)
Definition accepts (a : memory.area_info) : bool := memory.has (memory.a_flags a) memory.MEM_AREA_SYSCALL.

Lemma area_flags_spec (m : memory.t (vfs.t D)) h s ma address : areas.at_ m h s -> areas.space_ok s ma ->
  exists r, memory.mem_area_flags m h address = Ret r /\
    forall f, r = Some f <-> exists i a, ma !! i = Some a /\ areas.covers a address /\ memory.a_flags a = f.
Proof.
  intros Hat Hso. unfold memory.mem_area_flags. destruct (areas.find_area_spec m h s ma address Hat Hso) as (r & -> & Hr). rewrite mbind_Ret.
  destruct r as [i|].
  - destruct (proj1 (Hr i) eq_refl) as (a & Ha & Hc).
    rewrite (areas.at_get _ _ _ Hat), mbind_Ret, (fpm_get _ _ _ _ (areas.so_areas _ _ Hso)), Ha, mbind_Ret. eexists. split; [reflexivity|].
    intros f. split; [intros [= <-]; eauto|]. intros (j & b & Hb & Hcb & <-).
    assert (Some i = Some j) as [= ->] by (apply Hr; eauto). congruence.
  - exists None. split; [reflexivity|]. intros f. split; [discriminate|]. intros (j & b & Hb & Hcb & _). assert (None = Some j) by (apply Hr; eauto). discriminate.
Qed.

Lemma valid_pointer_spec k ma address : running_in k ma ->
  exists b, valid_pointer k address = Ret b /\ (b = true <-> exists i a, ma !! i = Some a /\ areas.covers a address /\ accepts a = true).
Proof.
  intros (pid & p & s & Hc & Hp & Hat & Hso). unfold valid_pointer, current, proc_get_space. rewrite Hc, mbind_Ret, Hp, !mbind_Ret.
  destruct (area_flags_spec _ _ _ _ address Hat Hso) as (r & -> & Hr). rewrite mbind_Ret. eexists. split; [reflexivity|].
  destruct r as [f|].
  - destruct (proj1 (Hr f) eq_refl) as (i & a & Ha & Hca & <-). split; [unfold accepts; eauto|]. intros (j & b & Hb & Hcb & Hacc).
    assert (Some (memory.a_flags a) = Some (memory.a_flags b)) as [= ->] by (apply Hr; eauto). exact Hacc.
  - split; [discriminate|]. intros (j & b & Hb & Hcb & _). assert (None = Some (memory.a_flags b)) by (apply Hr; eauto). discriminate.
Qed.

Lemma valid_buffer_spec k ma address length : running_in k ma ->
  exists b, valid_buffer k address length = Ret b /\
    (b = true <-> exists i a, ma !! i = Some a /\ areas.covers a address /\ areas.covers a (u32 (address + length)) /\ accepts a = true).
Proof.
  intros Hrun. unfold valid_buffer. destruct (valid_pointer_spec k ma address Hrun) as (b & -> & Hb). rewrite mbind_Ret.
  destruct Hrun as (pid & p & s & Hc & Hp & Hat & Hso). destruct b; cbn [negb].
  - destruct (proj1 Hb eq_refl) as (i & a & Ha & Hca & Hacc). unfold current, proc_get_space. rewrite Hc, mbind_Ret, Hp, !mbind_Ret.
    destruct (areas.find_area_spec _ _ s ma address Hat Hso) as (r & -> & Hr). rewrite mbind_Ret. rewrite (proj2 (Hr i)) by eauto.
    destruct (areas.find_area_spec _ _ s ma (u32 (address + length)) Hat Hso) as (r2 & -> & Hr2). rewrite mbind_Ret. destruct r2 as [j|]; eexists; (split; [reflexivity|]).
    + destruct (proj1 (Hr2 j) eq_refl) as (c & Hcj & Hcov). rewrite Z.eqb_eq. split.
      * intros ->. exists j, a. replace c with a in Hcov by congruence. auto.
      * intros (l & d & Hd & Hd1 & Hd2 & _). assert (r = Some l) as -> by (apply Hr; eauto). assert (Some j = Some l) as [= ->] by (apply Hr2; eauto).
        assert (Some l = Some i) as [= ->] by (apply Hr; eauto). reflexivity.
    + split; [discriminate|]. intros (l & d & Hd & _ & Hd2 & _). assert (None = Some l) by (apply Hr2; eauto). discriminate.
  - exists false. split; [reflexivity|]. split; [discriminate|]. intros (i & a & Ha & Hca & _ & Hacc). apply Hb. eauto.
Qed.

End facts.

(** A process with two pages of data *)
Definition demo_boot : memory.t (vfs.t unit) :=
  memory.mk (paging.demo_pages 0xC0100000) (paging.demo_pages 0xC0200000) (Some (paging.demo_pages 0x1000000)) ∅ (new_fixed_pool 128) 0
    (fun _ => 7) (vfs.empty tt).

Definition demo_memory : outcome (memory.t (vfs.t unit)) :=
  '(m, h) ← memory.mem_create_space demo_boot;
  '(m, _) ← memory.mem_map_alloc m h 0x1000 0x3000 user_stack_flags;
  Ret m.

Definition demo_kernel : outcome (t (D := unit)) :=
  m ← demo_memory;
  q ← queues.steps sched.init [queues.Spawn 0 0 0];
  Ret (mk (sched.set_current q 0) m).

Lemma demo_memory_ok m : demo_memory = Ret m -> areas.ok m.
Proof.
  intros E. apply (areas.reach_ok (fun _ _ _ v => Ret (v, 0)) (fun _ _ v => Ret (v, kdefs.failure 0))). unfold demo_memory in E.
  bind_ret E. destruct a as [m1 h]. bind_ret E. destruct a as [m2 j]. injection E as <-.
  apply (areas.R_step _ _ m1); [|eapply areas.S_alloc; eauto]. apply (areas.R_step _ _ demo_boot); [|eapply areas.S_create; eauto].
  apply areas.R_boot. reflexivity.
Qed.

Lemma demo_kernel_running k : demo_kernel = Ret k -> exists ma, running_in k ma.
Proof.
  intros E. unfold demo_kernel in E. destruct demo_memory as [m| | |] eqn:Em; [|discriminate..]. rewrite mbind_Ret in E. bind_ret E. injection E as <-.
  destruct (memory.get_space m 0) as [s| | |] eqn:Eg;
    [|exfalso; revert Eg; replace m with (match demo_memory with Ret x => x | _ => demo_boot end) by (rewrite Em; reflexivity); vm_compute; discriminate..].
  pose proof (ensures_elim _ _ _ (areas.get_space_at m 0 (demo_memory_ok m Em)) Eg) as Hat. destruct (areas.at_space_ok _ _ _ Hat) as [ma Hso].
  exists ma, 0, (sched.new_process 0 0 0), s. split; [reflexivity|]. split; [|split; [exact Hat|exact Hso]].
  vm_compute in Es. injection Es as <-. vm_compute. reflexivity.
Qed.
End checks.

(** C9: the pointer checks of system calls decide exactly this: a pointer is
    accepted when it lies in an area of the calling process that is marked
    for system calls, and a buffer when its first byte and the byte after its
    last one, computed modulo 2^32, lie in one such area.  So a buffer that
    does not wrap around the address space is accepted only if all of it lies
    in that area, and one that ends at the very end of its area is refused. *)
Theorem valid_buffer_exact {D} (k : kernel.t (D := D)) ma address length :
  checks.running_in k ma ->
  (exists b, kernel.valid_pointer k address = Ret b /\
     (b = true <-> exists i a, ma !! i = Some a /\ areas.covers a address /\ checks.accepts a = true)) /\
  (exists b, kernel.valid_buffer k address length = Ret b /\
     (b = true <-> exists i a, ma !! i = Some a /\ areas.covers a address /\ areas.covers a (u32 (address + length)) /\ checks.accepts a = true) /\
     (b = true -> 0 <= address -> 0 <= length -> address + length < 2 ^ 32 ->
        exists i a, ma !! i = Some a /\ checks.accepts a = true /\ forall x, address <= x <= address + length -> areas.covers a x)).
Proof.
  intros Hrun. split; [exact (checks.valid_pointer_spec k ma address Hrun)|].
  destruct (checks.valid_buffer_spec k ma address length Hrun) as (b & E & Hb). exists b. split; [exact E|]. split; [exact Hb|].
  intros Ht Ha Hl Hw. destruct (proj1 Hb Ht) as (i & a & Hi & H1 & H2 & Hacc). exists i, a. split; [exact Hi|]. split; [exact Hacc|].
  intros x Hx. rewrite u32_small in H2 by lia. unfold areas.covers in *. lia.
Qed.

Lemma valid_buffer_exact_witness : exists k (ma : gmap Z memory.area_info), checks.demo_kernel = Ret k /\
  kernel.valid_buffer k 0x1800 0x100 = Ret true /\ kernel.valid_buffer k 0x2F00 0x100 = Ret false /\
  kernel.valid_buffer k 0x1800 0xFFFFFFFF = Ret true /\
  exists i a, ma !! i = Some a /\ checks.accepts a = true /\ forall x, 0x1800 <= x <= 0x1900 -> areas.covers a x.
Proof.
  destruct checks.demo_kernel as [k| | |] eqn:E; [|vm_compute in E; discriminate..].
  destruct (checks.demo_kernel_running k E) as [ma Hrun]. exists k, ma. split; [reflexivity|].
  assert (kernel.valid_buffer k 0x1800 0x100 = Ret true) as H1 by
    (replace k with (match checks.demo_kernel with Ret x => x | _ => k end) by (rewrite E; reflexivity); vm_compute; reflexivity).
  split; [exact H1|]. split; [replace k with (match checks.demo_kernel with Ret x => x | _ => k end) by (rewrite E; reflexivity); vm_compute; reflexivity|].
  split; [replace k with (match checks.demo_kernel with Ret x => x | _ => k end) by (rewrite E; reflexivity); vm_compute; reflexivity|].
  destruct (valid_buffer_exact k ma 0x1800 0x100 Hrun) as [_ (b & Eb & _ & Hin)]. apply Hin; [congruence|lia..].
Defined.
