(* ===== verification/Stacks.v ===== *)
(** * Stacks written through portals

    A portal maps the pages of another space's stack at the scratch window of
    the current one.  What is pushed there is found by the other process at
    the addresses the portal computes. *)

From S2P Require Import Prelude Pool PageAlloc KernelDefs Memory MemoryFacts MemoryAreas MemoryFaults MemoryFork Sched Kernel.
From stdpp Require Import gmap list.
#[local] Open Scope Z_scope.

Module stacks.
Import kdefs kernel memory.

Section facts.
Context {V : Type}.
Implicit Type st : memory.t V.

(** ** What mapping a page leaves alone *)

Lemma write_allowed_pde st SM ND NT DA TA h s v : paging.wf st SM ND NT DA TA -> SM !! h = Some s -> 0 <= v < 2 ^ 32 ->
  write_allowed st s v = Ret true <->
  exists pde e, paging.entry st (sp_page_dir s) (dir_index v) = Some pde /\ has (e_flags pde) MEM_PE_P = true /\ has (e_flags pde) MEM_PE_RW = true /\
    paging.walk st s v = Some e /\ has (e_flags e) MEM_PE_RW = true.
Proof.
  intros Hwf Hs Hv. unfold write_allowed. rewrite (paging.find_pte_walk st SM ND NT DA TA h s v Hwf Hs Hv).
  destruct (paging.wf_entry _ _ _ _ _ _ (sp_page_dir s) (dir_index v) Hwf (or_introl (paging.wf_dir _ _ _ _ _ _ Hwf h s Hs)) (paging.dir_index_range _ Hv)) as (pde & Hp & ->).
  rewrite !mbind_Ret. unfold paging.walk. rewrite Hp. cbn [mbind option_bind]. destruct (has (e_flags pde) MEM_PE_P) eqn:HP; cbn [mbind option_bind].
  - destruct (paging.entry st (table_of pde) (table_index v)) as [e|]; cbn [mbind option_bind]; [|split; [discriminate|intros (? & ? & _ & _ & _ & ? & _); discriminate]].
    destruct (has (e_flags e) MEM_PE_P); [|split; [discriminate|intros (? & ? & _ & _ & _ & ? & _); discriminate]]. split.
    + intros [= H]. apply andb_true_iff in H as [H1 H2]. exists pde, e. auto.
    + intros (pde' & e' & [= <-] & _ & H2 & [= <-] & H1). rewrite H1, H2. reflexivity.
  - split; [discriminate|]. intros (? & ? & _ & _ & _ & ? & _). discriminate.
Qed.

(** Directory entries that are present stay present and keep what they allow. *)
Lemma map_page_pde st SM ND NT DA TA h s virt phys flags st' : paging.wf st SM ND NT DA TA -> SM !! h = Some s -> 0 <= virt < 2 ^ 32 ->
  map_page st h virt phys flags = Ret st' -> forall h' s' i pde, SM !! h' = Some s' ->
  paging.entry st (sp_page_dir s') i = Some pde -> has (e_flags pde) MEM_PE_P = true ->
  exists pde', paging.entry st' (sp_page_dir s') i = Some pde' /\ (has (e_flags pde) MEM_PE_RW = true -> has (e_flags pde') MEM_PE_RW = true).
Proof.
  intros Hwf Hs Hv E h' s' i pde' Hs' Hi HP'. unfold map_page in E.
  destruct (passert (Z.land virt 0xFFF =? 0)); try discriminate. destruct (passert (Z.land phys 0xFFF =? 0)); try discriminate. rewrite !mbind_Ret in E.
  unfold get_space in E. rewrite (fpm_get _ _ _ _ (paging.wf_spaces _ _ _ _ _ _ Hwf)), Hs, mbind_Ret in E. set (fl := Z.land flags _) in E.
  destruct (paging.wf_entry _ _ _ _ _ _ (sp_page_dir s) (dir_index virt) Hwf (or_introl (paging.wf_dir _ _ _ _ _ _ Hwf h s Hs)) (paging.dir_index_range _ Hv)) as (pde & Hpde & Eg).
  rewrite Eg, mbind_Ret in E. pose proof (paging.wf_dir _ _ _ _ _ _ Hwf h' s' Hs') as Hd'.
  assert (forall st1 x e, paging.wf st1 SM ND NT DA x -> forall tb, tb ∈ x -> set_entry st1 tb (table_index virt) e = Ret st' ->
    paging.entry st' (sp_page_dir s') i = paging.entry st1 (sp_page_dir s') i) as Hleaf.
  { intros st1 x e Hwf1 tb Ht Ese. destruct (paging.set_entry_ok _ _ _ _ _ _ tb (table_index virt) e Hwf1 (or_intror Ht) (paging.table_index_range _)) as (st2 & E2 & Hfr & Hent).
    assert (st2 = st') as -> by congruence. exact (proj2 (paging.wf_set_table _ _ _ _ _ _ _ _ _ _ Hwf1 Ht Hfr Hent) h' s' i Hs'). }
  destruct (has (e_flags pde) MEM_PE_P) eqn:HP; cbn [negb andb] in E.
  - destruct (paging.present_table st SM ND NT DA TA h s virt pde fl Hwf Hs Hv Hpde HP) as (st1 & E1 & TA1 & Hwf1 & _ & _ & _ & pde1 & Hpde1 & HP1 & Ht1 & _).
    pose proof E1 as E1'. rewrite E1, !mbind_Ret in E. rewrite (Hleaf st1 TA1 _ Hwf1 (table_of pde) ltac:(rewrite <-Ht1; exact (paging.wf_pde _ _ _ _ _ _ Hwf1 h s _ _ Hs Hpde1 HP1)) E).
    destruct (paging.set_entry_ok _ _ _ _ _ _ (sp_page_dir s) (dir_index virt) (mk_pte (flags12 (Z.lor (e_flags pde) fl)) (e_frame pde)) Hwf (or_introl (paging.wf_dir _ _ _ _ _ _ Hwf h s Hs)) (paging.dir_index_range _ Hv)) as (st2 & E2 & _ & Hent).
    assert (st2 = st1) as -> by congruence. rewrite Hent. case_decide as Hc; [|eauto]. destruct Hc as [Hc ->]. eexists. split; [reflexivity|].
    rewrite Hc, Hpde in Hi. injection Hi as <-. cbn [e_flags]. rewrite !paging.has_RW, paging.testbit_flags12, Z.lor_spec by lia. intros ->. reflexivity.
  - destruct (has flags MEM_PE_P) eqn:HF; cbn [negb] in E; [|injection E as <-; eauto].
    destruct (decide (Z.of_nat (base.size TA) < NT)) as [Hroom|Hno].
    + rewrite paging.has_P in HF. destruct (paging.absent_table st SM ND NT DA TA h s virt pde fl Hwf Hs Hv Hpde HP) as (st1 & st2 & x & E1 & E2 & TA2 & Hwf2 & _ & _ & _ & pde2 & Hpde2 & HP2 & Ht2 & _);
        [unfold fl; rewrite paging.odd_pde_flags; exact HF|exact Hroom|].
      rewrite E1, mbind_Ret, E2, !mbind_Ret in E. rewrite (Hleaf st2 TA2 _ Hwf2 x ltac:(rewrite <-Ht2; exact (paging.wf_pde _ _ _ _ _ _ Hwf2 h s _ _ Hs Hpde2 HP2)) E).
      destruct (paging.alloc_table_ok _ _ _ _ _ _ Hwf Hroom) as (st3 & y & E3 & Hwf3 & _ & Hyd & _ & _ & _ & Hent3). assert (st3 = st1 /\ y = x) as [-> ->] by (split; congruence).
      destruct (paging.set_entry_ok _ _ _ _ _ _ (sp_page_dir s) (dir_index virt) (mk_pte (flags12 fl) (frame20 (Z.shiftr (KERNVIRT2PHYS x) 12))) Hwf3 (or_introl (paging.wf_dir _ _ _ _ _ _ Hwf h s Hs)) (paging.dir_index_range _ Hv)) as (st4 & E4 & _ & Hent4).
      assert (st4 = st2) as -> by congruence. rewrite Hent4, decide_False; [|intros [Hc ->]; rewrite Hc, Hpde in Hi; congruence].
      rewrite Hent3, decide_False by exact (Hyd _ Hd'). eauto.
    + unfold alloc_table in E. rewrite (page_allocator.pa_alloc_exhausted _ _ _ (paging.wf_tabs _ _ _ _ _ _ Hwf) ltac:(lia)) in E. discriminate.
Qed.

(** Mapping a page leaves every other page as writable as it was. *)
Lemma map_page_write st SM ND NT DA TA h s virt phys flags st' : paging.wf st SM ND NT DA TA -> SM !! h = Some s ->
  0 <= virt < 2 ^ 32 -> map_page st h virt phys flags = Ret st' -> paging.mapped st st' SM ND NT DA TA h virt phys flags ->
  forall h' s' v, SM !! h' = Some s' -> 0 <= v < 2 ^ 32 -> ~ (h' = h /\ v / 4096 = virt / 4096) ->
  write_allowed st s' v = Ret true -> write_allowed st' s' v = Ret true.
Proof.
  intros Hwf Hs Hv E (TA' & Hwf' & _ & _ & Hw & _) h' s' v Hs' Hv' Hne Ha. apply (write_allowed_pde st' SM ND NT DA TA' h'); [assumption..|].
  apply (write_allowed_pde st SM ND NT DA TA h') in Ha; [|assumption..]. destruct Ha as (pde & e & Hp & HP & HRW & He & HeRW).
  destruct (map_page_pde st SM ND NT DA TA h s virt phys flags st' Hwf Hs Hv E h' s' _ pde Hs' Hp HP) as (pde' & Hp' & HRW').
  assert (paging.walk st' s' v = Some e) as Hw' by (rewrite (Hw h' s' v Hs' Hv'), decide_False by exact Hne; exact He).
  exists pde', e. split; [exact Hp'|]. split; [|split; [auto|split; assumption]].
  unfold paging.walk in Hw'. rewrite Hp' in Hw'. cbn [mbind option_bind] in Hw'. destruct (has (e_flags pde') MEM_PE_P); [reflexivity|discriminate].
Qed.

(** ** Opening a portal *)

(** Page [off] of the portal: the window of the current space and the page of
    the target lead to the same frame, which is the one that was there, or a
    page nobody held. *)
Definition page_open st st' (A A' : gset Z) (sc sd : space_info) (virt dv af off : Z) : Prop :=
  exists x e e', paging.walk st' sc (virt + off) = Some e /\ pte_frame e = x /\ write_allowed st' sc (virt + off) = Ret true /\
    paging.walk st' sd (dv + off) = Some e' /\ pte_frame e' = x /\
    (paging.walk st sd (dv + off) = Some e' \/ paging.walk st sd (dv + off) = None /\ (x ∉ A) /\ x ∈ A' /\ e_flags e' = page_flags af).

(** Where the page allocator keeps its books *)
Definition books st : option page_allocator.region := page_allocator.phys_bookkeeping <$> user_space_allocator st.

Lemma alloc_page_books st : ensures (alloc_page st) (fun r => books r.1 = books st).
Proof.
  unfold alloc_page, books. destruct (user_space_allocator st) as [a|] eqn:Ea; [|exact I]. unfold page_allocator.alloc_page.
  destruct (negb _); [destruct (0 <? _); [|exact I]; destruct (page_allocator.fs_head a <? _); [|exact I]; simpl; destruct (arr_get _ _); [|exact I..]; reflexivity|].
  destruct (_ <? _); [reflexivity|exact I].
Qed.

Lemma books_same st st' : user_space_allocator st' = user_space_allocator st -> books st' = books st.
Proof. unfold books. intros ->. reflexivity. Qed.

Record opened st st' (SM : gmap Z space_info) (ND NT : Z) (DA TA : gset Z) (N : Z) (A A' : gset Z) (c d : Z) (sc sd : space_info) (virt dv af len : Z) : Prop := {
  op_wf : exists TA', paging.wf st' SM ND NT DA TA' /\ forall x, x ∈ TA -> x ∈ TA';
  op_holds : forking.holds st' N A';
  op_sub : forall x, x ∈ A -> x ∈ A';
  op_spaces : spaces st' = spaces st;
  op_current : current_space st' = current_space st;
  op_ram : ram st' = ram st;
  op_vstate : vstate st' = vstate st;
  op_walk : forall h s v, SM !! h = Some s -> 0 <= v < 2 ^ 32 -> ~ (h = c /\ virt <= v < virt + len) -> ~ (h = d /\ dv <= v < dv + len) ->
    paging.walk st' s v = paging.walk st s v;
  op_page : forall off, 0 <= off < len -> off mod 4096 = 0 -> page_open st st' A A' sc sd virt dv af off;
  op_books : books st' = books st
}.

(** Addresses of two different pages *)
Lemma other_page a b off off' : a mod 4096 = 0 -> b mod 4096 = 0 -> off mod 4096 = 0 -> off' mod 4096 = 0 -> a + off <> b + off' ->
  (a + off) / 4096 <> (b + off') / 4096.
Proof. intros. pose proof (Z.div_mod a 4096). pose proof (Z.div_mod b 4096). pose proof (Z.div_mod off 4096). pose proof (Z.div_mod off' 4096). dlia. Qed.

Lemma page_of p v : p mod 4096 = 0 -> v / 4096 = p / 4096 -> p <= v < p + 4096.
Proof. intros. pose proof (Z.div_mod p 4096). pose proof (Z.div_mod v 4096). pose proof (Z.mod_pos_bound v 4096). lia. Qed.

Lemma new_entry flags phys : Z.odd (page_flags flags) = true -> 0 <= phys < 2 ^ 32 -> phys mod 4096 = 0 ->
  pte_frame (mk_pte (flags12 (page_flags flags)) (frame20 (Z.shiftr phys 12))) = phys.
Proof. intros _ H1 H2. apply faults.pte_frame_page; assumption. Qed.

(** The hypotheses on a portal of [len] bytes *)
Record portal_at (SM : gmap Z space_info) (c d : Z) (sc sd : space_info) (virt dv len : Z) : Prop := {
  pt_c : SM !! c = Some sc;
  pt_d : SM !! d = Some sd;
  pt_virt : 0 <= virt /\ virt + len <= 2 ^ 32 /\ virt mod 4096 = 0;
  pt_dv : 0 <= dv /\ dv + len <= 2 ^ 32 /\ dv mod 4096 = 0;
  pt_len : 0 <= len /\ len mod 4096 = 0;
  pt_apart : virt + len <= dv \/ dv + len <= virt
}.

(** One more page: the walks that do not change, and the pages opened before *)
Lemma opened_extend st st1 st2 SM ND NT DA TA N A A1 A2 c d sc sd virt dv af off L :
  opened st st1 SM ND NT DA TA N A A1 c d sc sd virt dv af off -> portal_at SM c d sc sd virt dv L -> 0 <= off < L -> off mod 4096 = 0 ->
  (exists TA', paging.wf st2 SM ND NT DA TA' /\ forall x, x ∈ TA -> x ∈ TA') -> forking.holds st2 N A2 -> (forall x, x ∈ A1 -> x ∈ A2) ->
  spaces st2 = spaces st1 -> current_space st2 = current_space st1 -> ram st2 = ram st1 -> vstate st2 = vstate st1 -> books st2 = books st1 ->
  (forall h s v, SM !! h = Some s -> 0 <= v < 2 ^ 32 -> ~ (h = c /\ v / 4096 = (virt + off) / 4096) -> ~ (h = d /\ v / 4096 = (dv + off) / 4096) ->
     paging.walk st2 s v = paging.walk st1 s v /\ (write_allowed st1 s v = Ret true -> write_allowed st2 s v = Ret true)) ->
  page_open st st2 A A2 sc sd virt dv af off ->
  opened st st2 SM ND NT DA TA N A A2 c d sc sd virt dv af (off + 4096).
Proof.
  intros [] [Hc Hd (Hv & Hv2 & Hva) (Hdv & Hdv2 & Hda) (HL & HLa) Hap] Hoff Hoa Hwf2 Hh2 Hsub Es Ec Er Ev Eb Hout Hpg. constructor; auto; try congruence.
  - intros h s v Hs Hvr Hnc Hnd. destruct (Hout h s v Hs Hvr) as [-> _].
    + intros [-> E]. apply page_of in E; [|rewrite Z.add_mod, Hva, Hoa by lia; reflexivity]. apply Hnc. split; [reflexivity|lia].
    + intros [-> E]. apply page_of in E; [|rewrite Z.add_mod, Hda, Hoa by lia; reflexivity]. apply Hnd. split; [reflexivity|lia].
    + apply (op_walk0 h); [assumption..|intros [? ?]; apply Hnc; split; [assumption|lia]|intros [? ?]; apply Hnd; split; [assumption|lia]].
  - intros o Ho Hom. destruct (decide (o = off)) as [->|Hne]; [exact Hpg|]. destruct (op_page0 o) as (x & e & e' & H1 & H2 & H3 & H4 & H5 & H6); [dlia|assumption|].
    assert (o < off) as Hlt by dlia.
    assert (L mod 4096 = 0) as _ by exact HLa. assert (o + 4096 <= L) as HoL by dlia.
    destruct (Hout c sc (virt + o) Hc ltac:(lia)) as [W1 P1];
      [intros [_ E]; revert E; apply other_page; lia || assumption|intros [_ E]; revert E; apply other_page; lia || assumption|].
    destruct (Hout d sd (dv + o) Hd ltac:(lia)) as [W2 _];
      [intros [_ E]; revert E; apply other_page; lia || assumption|intros [_ E]; revert E; apply other_page; lia || assumption|].
    exists x, e, e'. rewrite W1, W2. split; [exact H1|]. split; [exact H2|]. split; [exact (P1 H3)|]. split; [exact H4|]. split; [exact H5|].
    destruct H6 as [H6|(H6 & H7 & H8 & H9)]; [left; exact H6|right; auto].
Qed.

(** The step of the loop: the page of the target, or a new one, at the window *)
Definition portal_round st (d virt dv flags af : Z) (sd : space_info) : outcome (t V) :=
  e ← find_pte st sd dv;
  match e with
  | Some e => map_page st (current_space st) virt (pte_frame e) (page_flags flags)
  | None => '(st, phys_address) ← alloc_page st; st ← map_page st (current_space st) virt phys_address (page_flags flags); map_page st d dv phys_address (page_flags af)
  end.

(** What mapping one page does, with the permissions of the others *)
Lemma map_page_out st SM ND NT DA TA h s virt phys flags : paging.wf st SM ND NT DA TA -> SM !! h = Some s ->
  0 <= virt < 2 ^ 32 -> virt mod 4096 = 0 -> 0 <= phys < 2 ^ 32 -> phys mod 4096 = 0 ->
  safely (map_page st h virt phys (page_flags flags)) (fun st' => (exists TA', paging.wf st' SM ND NT DA TA' /\ forall x, x ∈ TA -> x ∈ TA') /\ paging.outside st st' /\
    (forall h' s' v, SM !! h' = Some s' -> 0 <= v < 2 ^ 32 -> ~ (h' = h /\ v / 4096 = virt / 4096) ->
       paging.walk st' s' v = paging.walk st s' v /\ (write_allowed st s' v = Ret true -> write_allowed st' s' v = Ret true)) /\
    (has flags MEM_AREA_READWRITE = true -> write_allowed st' s virt = Ret true) /\
    exists e, paging.walk st' s virt = Some e /\ pte_frame e = phys /\ e_flags e = page_flags flags).
Proof.
  intros Hwf Hs Hv Hva Hp Hpa. destruct (faults.page_flags_range flags) as (Hfl & Hodd & HRW).
  pose proof (forking.map_page_safely st SM ND NT DA TA h s virt phys (page_flags flags) Hwf Hs Hv Hva Hpa) as H.
  destruct (map_page st h virt phys (page_flags flags)) as [st'| | |] eqn:E; simpl in *; auto.
  pose proof (map_page_write st SM ND NT DA TA h s virt phys _ st' Hwf Hs Hv E H) as Hwr.
  destruct H as (TA' & Hwf' & Hsub & Hout & Hw & Hal). split; [eauto|]. split; [exact Hout|]. split.
  { intros h' s' v Hs' Hv' Hne. split; [rewrite (Hw h' s' v Hs' Hv'), decide_False by exact Hne; reflexivity|apply (Hwr h'); assumption]. }
  split; [intros Hrw; apply Hal; [rewrite paging.has_P; exact Hodd|congruence|exact Hs]|].
  rewrite (Hw h s virt Hs Hv), decide_True, Hodd by auto. eexists. split; [reflexivity|]. split; [apply new_entry; assumption|].
  cbn [e_flags]. unfold flags12. apply Z.mod_small. exact Hfl.
Qed.

Lemma portal_round_opens st st1 SM ND NT DA TA N A A1 c d sc sd virt dv flags af off L :
  opened st st1 SM ND NT DA TA N A A1 c d sc sd virt dv af off -> portal_at SM c d sc sd virt dv L -> 0 <= off < L -> off mod 4096 = 0 ->
  has flags MEM_AREA_READWRITE = true -> current_space st = c ->
  safely (portal_round st1 d (virt + off) (dv + off) flags af sd) (fun st2 => exists A2, opened st st2 SM ND NT DA TA N A A2 c d sc sd virt dv af (off + 4096)).
Proof.
  intros Ho Hpt Hoff Hoa Hrw Hcur. pose proof Hpt as [Hc Hd (Hv & Hv2 & Hva) (Hdv & Hdv2 & Hda) (HL & HLa) Hap]. destruct (op_wf _ _ _ _ _ _ _ _ _ _ _ _ _ _ _ _ _ _ Ho) as (TA1 & Hwf1 & Hsub1).
  assert (off + 4096 <= L) as HoL by dlia. assert ((virt + off) mod 4096 = 0) as Hpa by (rewrite Z.add_mod, Hva, Hoa by lia; reflexivity). assert ((dv + off) mod 4096 = 0) as Hqa by (rewrite Z.add_mod, Hda, Hoa by lia; reflexivity).
  assert (0 <= virt + off < 2 ^ 32 /\ 0 <= dv + off < 2 ^ 32) as [Hp Hq] by lia.
  assert (~ (d = c /\ (dv + off) / 4096 = (virt + off) / 4096)) as Hne by (intros [_ E]; revert E; apply other_page; lia || assumption).
  assert (paging.walk st1 sd (dv + off) = paging.walk st sd (dv + off)) as Hold by (apply (op_walk _ _ _ _ _ _ _ _ _ _ _ _ _ _ _ _ _ _ Ho d sd); [assumption..|intros [_ ?]; lia|intros [_ ?]; lia]).
  unfold portal_round. rewrite (paging.find_pte_walk st1 SM ND NT DA TA1 d sd (dv + off) Hwf1 Hd Hq), mbind_Ret. destruct (paging.walk st1 sd (dv + off)) as [e|] eqn:Ee.
  - replace (current_space st1) with c by (rewrite (op_current _ _ _ _ _ _ _ _ _ _ _ _ _ _ _ _ _ _ Ho); symmetry; exact Hcur). destruct (forking.pte_frame_aligned e) as [Hfr Hfa].
    eapply safely_mono; [exact (map_page_out st1 SM ND NT DA TA1 c sc (virt + off) (pte_frame e) flags Hwf1 Hc Hp Hpa Hfr Hfa)|].
    intros st2 ((TA2 & Hwf2 & Hsub2) & [O1 O2 O3 O4 O5 O6] & Hout & Hal & e2 & W2 & F2 & _). exists A1. eapply (opened_extend st st1 st2); eauto.
    + destruct (op_holds _ _ _ _ _ _ _ _ _ _ _ _ _ _ _ _ _ _ Ho) as (u & Hu & Hr). exists u. rewrite O3. auto.
    + apply books_same. exact O3.
    + exists (pte_frame e), e2, e. split; [exact W2|]. split; [exact F2|]. split; [auto|]. split; [|split; [reflexivity|left; congruence]].
      rewrite (proj1 (Hout d sd _ Hd Hq Hne)). exact Ee.
  - eapply safely_bind; [exact (safely_both _ _ _ (forking.alloc_page_safely st1 N A1 (op_holds _ _ _ _ _ _ _ _ _ _ _ _ _ _ _ _ _ _ Ho)) (alloc_page_books st1))|].
    intros [st2 x] ((u & E2 & Hrep & Hx & Hxr & Hxa) & Hbk). simpl in *. subst st2. set (st2 := set_user_alloc st1 (Some u)).
    replace (current_space st2) with c by (unfold st2; cbn; rewrite (op_current _ _ _ _ _ _ _ _ _ _ _ _ _ _ _ _ _ _ Ho); symmetry; exact Hcur).
    assert (paging.wf st2 SM ND NT DA TA1) as Hwf2 by (apply (faults.wf_same st1); auto).
    eapply safely_bind; [exact (map_page_out st2 SM ND NT DA TA1 c sc (virt + off) x flags Hwf2 Hc Hp Hpa Hxr Hxa)|].
    intros st3 ((TA3 & Hwf3 & Hsub3) & [O1 O2 O3 O4 O5 O6] & Hout3 & Hal3 & e3 & W3 & F3 & _).
    eapply safely_mono; [exact (map_page_out st3 SM ND NT DA TA3 d sd (dv + off) x af Hwf3 Hd Hq Hqa Hxr Hxa)|].
    intros st4 ((TA4 & Hwf4 & Hsub4) & [P1 P2 P3 P4 P5 P6] & Hout4 & _ & e4 & W4 & F4 & G4). exists ({[x]} ∪ A1).
    assert (~ (c = d /\ (virt + off) / 4096 = (dv + off) / 4096)) as Hne' by (intros [-> E]; apply Hne; auto).
    apply (opened_extend st st1 st4 SM ND NT DA TA N A A1 ({[x]} ∪ A1) c d sc sd virt dv af off L Ho Hpt Hoff Hoa);
      [exists TA4; split; auto|exists u; rewrite P3, O3; auto|set_solver|rewrite P1; exact O1|rewrite P4; exact O4|rewrite P5; exact O5|rewrite P6; exact O6|rewrite <-Hbk; apply books_same; rewrite P3; exact O3| |].
    + intros h s v Hs Hvr Hn1 Hn2. destruct (Hout3 h s v Hs Hvr Hn1) as [W P]. destruct (Hout4 h s v Hs Hvr Hn2) as [W' P']. rewrite W', W.
      split; [reflexivity|]. intros Ha. apply P', P. exact Ha.
    + destruct (Hout4 c sc _ Hc Hp Hne') as [W P]. exists x, e3, e4. split; [congruence|]. split; [exact F3|]. split; [auto|]. split; [exact W4|]. split; [exact F4|]. right. split; [congruence|].
      split; [intros Hin; apply Hx; exact (op_sub _ _ _ _ _ _ _ _ _ _ _ _ _ _ _ _ _ _ Ho x Hin)|]. split; [set_solver|exact G4].
Qed.

Lemma portal_loop_opens st SM ND NT DA TA N A c d sc sd virt dv flags af L : portal_at SM c d sc sd virt dv L -> has flags MEM_AREA_READWRITE = true -> current_space st = c ->
  forall n fuel off st1 A1, (n < fuel)%nat -> L = off + 4096 * Z.of_nat n -> 0 <= off -> off mod 4096 = 0 ->
  opened st st1 SM ND NT DA TA N A A1 c d sc sd virt dv af off ->
  safely (portal_loop fuel st1 virt L d dv flags af off) (fun st2 => exists A2, opened st st2 SM ND NT DA TA N A A2 c d sc sd virt dv af L).
Proof.
  intros Hpt Hrw Hcur. pose proof Hpt as [Hc Hd (Hv & Hv2 & Hva) (Hdv & Hdv2 & Hda) (HL & HLa) Hap]. induction n as [|n IH]; intros fuel off st1 A1 Hf Hend H0 Hoa Ho; (destruct fuel as [|fuel]; [lia|]); cbn [portal_loop].
  - replace L with off by lia. rewrite Z.ltb_irrefl. simpl. eauto.
  - rewrite (proj2 (Z.ltb_lt off L)) by lia. destruct (op_wf _ _ _ _ _ _ _ _ _ _ _ _ _ _ _ _ _ _ Ho) as (TA1 & Hwf1 & Hsub1).
    unfold get_space. rewrite (fpm_get _ _ _ _ (paging.wf_spaces _ _ _ _ _ _ Hwf1)), Hd, mbind_Ret.
    rewrite (u32_small (virt + off)), (u32_small (dv + off)) by lia.
    pose proof (portal_round_opens st st1 SM ND NT DA TA N A A1 c d sc sd virt dv flags af off L Ho Hpt ltac:(lia) Hoa Hrw Hcur) as H. unfold portal_round in H.
    destruct (find_pte st1 sd (dv + off)) as [e| | |]; simpl in H |- *; try contradiction; [|exact I].
    eapply safely_bind; [destruct e; exact H|]. intros st2 (A2 & Ho2). apply (IH fuel (off + 4096) st2 A2); [lia|lia|lia| |exact Ho2].
    rewrite Z.add_mod, Hoa by lia. reflexivity.
Qed.

(** [portal_open] over an area that covers the pages *)
Lemma portal_open_opens st SM ND NT DA TA N A d sd sc ma i a base size n : let L := 4096 * Z.of_nat n in
  paging.wf st SM ND NT DA TA -> areas.ok st -> forking.holds st N A -> SM !! current_space st = Some sc -> SM !! d = Some sd ->
  areas.space_ok sd ma -> ma !! i = Some a -> a_type a = AREA_ALLOC -> areas.covers a (base - L) -> areas.covers a (base - 1) ->
  ALIGN_UP size 0x1000 = L -> 0 < L -> L <= base -> base <= KERNEL_SCRATCH_BASE -> base mod 4096 = 0 -> KERNEL_SCRATCH_BASE + L < 2 ^ 32 ->
  safely (portal_open st d base size) (fun r => r.2 = mk_portal KERNEL_SCRATCH_BASE (KERNEL_SCRATCH_BASE + L) (base - L) base (KERNEL_SCRATCH_BASE + L) /\
    exists A', opened st r.1 SM ND NT DA TA N A A' (current_space st) d sc sd KERNEL_SCRATCH_BASE (base - L) (a_flags a) L).
Proof.
  intros L Hwf Hok Hh Hc Hd Hso Hi Hty Hcs Hce Hsz HL HLb Hbase Hba Htop. assert (KERNEL_SCRATCH_BASE = 3758096384) as Hscr by reflexivity.
  unfold portal_open. rewrite Hsz, (u32_small (base - L)), (u32_small (KERNEL_SCRATCH_BASE + L)) by lia. replace (KERNEL_SCRATCH_BASE + L - KERNEL_SCRATCH_BASE) with L by lia. rewrite (u32_small L) by lia.
  unfold mem_map_portal. rewrite (u32_small (base - L + L - 1)) by lia. replace (base - L + L - 1) with (base - 1) by lia.
  destruct (areas.find_area_spec st d sd ma (base - L) (forking.wf_at _ _ _ _ _ _ _ _ Hwf Hok Hd) Hso) as (r1 & -> & Hr1). rewrite mbind_Ret, (proj2 (Hr1 i)) by eauto.
  destruct (areas.find_area_spec st d sd ma (base - 1) (forking.wf_at _ _ _ _ _ _ _ _ Hwf Hok Hd) Hso) as (r2 & -> & Hr2). rewrite mbind_Ret, (proj2 (Hr2 i)) by eauto.
  unfold get_space. rewrite (fpm_get _ _ _ _ (paging.wf_spaces _ _ _ _ _ _ Hwf)), Hd, mbind_Ret, (fpm_get _ _ _ _ (areas.so_areas _ _ Hso)), Hi, mbind_Ret, Hty, !Z.eqb_refl.
  cbn [passert]. rewrite !mbind_Ret.
  assert (portal_at SM (current_space st) d sc sd KERNEL_SCRATCH_BASE (base - L) L) as Hpt.
  { constructor; auto; try lia; try reflexivity; split; try lia; try (split; [lia|]); try reflexivity.
    - unfold L. rewrite Zminus_mod, Hba, (Z.mul_comm 4096), Z_mod_mult. reflexivity.
    - unfold L. rewrite Z.mul_comm. apply Z_mod_mult. }
  assert (opened st st SM ND NT DA TA N A A (current_space st) d sc sd KERNEL_SCRATCH_BASE (base - L) (a_flags a) 0) as Ho.
  { constructor; auto; [eauto|]. intros off ?. lia. }
  pose proof (portal_loop_opens st SM ND NT DA TA N A (current_space st) d sc sd KERNEL_SCRATCH_BASE (base - L) MEM_AREA_READWRITE (a_flags a) L Hpt eq_refl eq_refl n (page_rounds 0 L) 0 st A) as H.
  destruct (portal_loop (page_rounds 0 L) st KERNEL_SCRATCH_BASE L d (base - L) MEM_AREA_READWRITE (a_flags a) 0); simpl in *; try (apply H; auto; unfold page_rounds, L; dlia).
  split; [reflexivity|]. apply H; auto; unfold page_rounds, L; dlia.
Qed.

(** ** Writing through a window *)

(** The page [lo] of the current space is writable and leads to frame [x]. *)
Record window st (lo x : Z) : Prop := {
  wi_lo : lo mod 4096 = 0 /\ 0 <= lo /\ lo + 4096 < 2 ^ 32;
  wi_page : exists SM ND NT DA TA sc e, paging.wf st SM ND NT DA TA /\ SM !! current_space st = Some sc /\
    paging.walk st sc lo = Some e /\ pte_frame e = x /\ write_allowed st sc lo = Ret true
}.

Lemma window_ram st r lo x : window st lo x -> window (set_ram st r) lo x.
Proof.
  intros [H (SM & ND & NT & DA & TA & sc & e & Hwf & Hc & Hw & Hx & Ha)]. constructor; [exact H|]. exists SM, ND, NT, DA, TA, sc, e.
  split; [apply (faults.wf_same st); auto|]. auto.
Qed.

Lemma znth_neg {A} (l : list A) k : k < 0 -> znth l k = None.
Proof. intros H. destruct (znth l k) eqn:E; [|reflexivity]. apply znth_Some_lt in E. lia. Qed.

(** [r'] is [r] with [data] written at [p]. *)
Definition wrote (r r' : Z -> Z) (p : Z) (data : list Z) : Prop := forall y, r' y = write_bytes r p data y.

(** [data] is found at [p]. *)
Definition bytes_at (r : Z -> Z) (p : Z) (data : list Z) : Prop := forall k b, znth data k = Some b -> r (p + k) = b.

Lemma wrote_at r r' p data : wrote r r' p data -> bytes_at r' p data.
Proof. intros H k b Hk. rewrite (H _). unfold write_bytes. replace (p + k - p) with k by lia. rewrite Hk. reflexivity. Qed.

Lemma wrote_out r r' p data y : wrote r r' p data -> ~ (p <= y < p + zlen data) -> r' y = r y.
Proof. intros H Hy. rewrite (H _). unfold write_bytes. destruct (znth data (y - p)) eqn:E; [|reflexivity]. apply znth_Some_lt in E. lia. Qed.

Lemma bytes_at_keep r r' p data : bytes_at r p data -> (forall y, p <= y < p + zlen data -> r' y = r y) -> bytes_at r' p data.
Proof. intros H Hk k b Hb. pose proof (znth_Some_lt _ _ _ Hb). rewrite Hk by lia. auto. Qed.

Lemma page_offset lo v : lo mod 4096 = 0 -> lo <= v < lo + 4096 -> v / 4096 = lo / 4096 /\ Z.land v 0xFFF = v - lo.
Proof.
  intros Hlo Hv. split; [dlia|]. change 0xFFF with (Z.ones 12). rewrite Z.land_ones by lia. change (2 ^ 12) with 4096. dlia.
Qed.

Lemma store_byte_window st lo x v b : window st lo x -> lo <= v < lo + 4096 -> store_byte st v b = Ret (set_ram st (write_bytes (ram st) (x + (v - lo)) [b])).
Proof.
  intros [(Hlo & H0 & H1) (SM & ND & NT & DA & TA & sc & e & Hwf & Hc & Hw & Hx & Ha)] Hv. destruct (page_offset lo v Hlo Hv) as [Hp Ho].
  assert (0 <= v < 2 ^ 32 /\ 0 <= lo < 2 ^ 32) as [Hvr Hlr] by lia. unfold store_byte, get_space. rewrite (fpm_get _ _ _ _ (paging.wf_spaces _ _ _ _ _ _ Hwf)), Hc, mbind_Ret.
  assert (write_allowed st sc v = Ret true) as ->.
  { apply (write_allowed_pde st SM ND NT DA TA (current_space st)); [assumption..|]. apply (write_allowed_pde st SM ND NT DA TA (current_space st)) in Ha; [|assumption..].
    rewrite (forking.walk_page st sc v lo Hvr Hlr Hp). apply paging.index_page in Hp; [|assumption..]. destruct Hp as [-> _]. exact Ha. }
  rewrite mbind_Ret, (paging.find_pte_walk st SM ND NT DA TA _ sc v Hwf Hc Hvr), mbind_Ret, (forking.walk_page st sc v lo Hvr Hlr Hp), Hw, Hx, Ho. reflexivity.
Qed.

Lemma store_bytes_window st lo x data : window st lo x -> forall v, lo <= v -> v + zlen data <= lo + 4096 ->
  exists r', store_bytes st v data = Ret (set_ram st r') /\ wrote (ram st) r' (x + (v - lo)) data.
Proof.
  intros Hw. revert st Hw. induction data as [|b data IH]; intros st Hw v Hv Hl.
  - exists (ram st). split; [destruct st; reflexivity|]. intros y. unfold write_bytes. destruct (znth [] (y - (x + (v - lo)))) as [b|] eqn:E; [|reflexivity]. apply znth_Some_lt in E. unfold zlen in E. simpl in E. lia.
  - rewrite zlen_cons in Hl. pose proof (zlen_nonneg data). cbn [store_bytes]. rewrite (store_byte_window st lo x) by (assumption || lia). rewrite mbind_Ret.
    destruct (wi_lo _ _ _ Hw) as (_ & ? & ?). rewrite u32_small by lia.
    destruct (IH (set_ram st (write_bytes (ram st) (x + (v - lo)) [b])) (window_ram _ _ _ _ Hw) (v + 1)) as (r' & E & Hr); [lia..|].
    exists r'. split; [exact E|]. intros y. rewrite (Hr y). cbn [ram set_ram]. unfold write_bytes. replace (y - (x + (v + 1 - lo))) with (y - (x + (v - lo)) - 1) by lia.
    set (k := y - (x + (v - lo))). destruct (Z.lt_trichotomy k 0) as [Hk|[Hk|Hk]].
    + rewrite !znth_neg by lia. reflexivity.
    + rewrite Hk, !znth_cons_0, znth_neg by lia. reflexivity.
    + rewrite (znth_cons_pos b data) by lia.
      destruct (znth data (k - 1)); [reflexivity|]. rewrite znth_ge_None by (unfold zlen; simpl; lia). reflexivity.
Qed.

(** ** Words *)

Lemma zlen_word w : zlen (word_bytes w) = 4.
Proof. reflexivity. Qed.

Lemma word_byte w k : 0 <= k < 4 -> znth (word_bytes w) k = Some ((w / 2 ^ (8 * k)) mod 256).
Proof.
  intros Hk. unfold word_bytes, znth. rewrite (proj2 (Z.leb_le 0 k)) by lia. rewrite list_lookup_fmap, lookup_seqZ_lt by lia. simpl.
  change 255 with (Z.ones 8). rewrite Z.land_ones, Z.shiftr_div_pow2 by lia. do 3 f_equal. f_equal. lia.
Qed.

Lemma word_value w b0 b1 b2 b3 : 0 <= w < 2 ^ 32 -> znth (word_bytes w) 0 = Some b0 -> znth (word_bytes w) 1 = Some b1 ->
  znth (word_bytes w) 2 = Some b2 -> znth (word_bytes w) 3 = Some b3 -> b0 + 2 ^ 8 * b1 + 2 ^ 16 * b2 + 2 ^ 24 * b3 = w.
Proof.
  intros Hw. rewrite !word_byte by lia. intros [= <-] [= <-] [= <-] [= <-]. change (2 ^ (8 * 0)) with 1. change (2 ^ (8 * 1)) with 256. change (2 ^ (8 * 2)) with 65536. change (2 ^ (8 * 3)) with 16777216. dlia.
Qed.

Lemma word_bytes_length (l : list Z) : zlen (concat (word_bytes <$> l)) = 4 * zlen l.
Proof. induction l as [|w l IH]; [reflexivity|]. rewrite fmap_cons. cbn [concat]. rewrite zlen_app, IH, zlen_word, zlen_cons. lia. Qed.

Lemma align_down_word v : ALIGN_DOWN v 4 = v / 4 * 4.
Proof. unfold ALIGN_DOWN. change (4 - 1) with (Z.ones 2). rewrite <-Z.ldiff_land, Z.ldiff_ones_r, Z.shiftr_div_pow2, Z.shiftl_mul_pow2 by lia. reflexivity. Qed.

(** ** Pushing

    A portal whose top page is the window at [lo], with the stack pointer at
    offset [o] of that page.  The operations only change memory. *)
Section pushing.
Context (st : t V) (lo x es ts te : Z).
Hypothesis Hwin : window st lo x.
Hypothesis Hes : 0 <= es <= lo.

Definition at_offset (o : Z) : stack_portal := mk_portal es (lo + 4096) ts te (lo + o).

Lemma push_word_ok r o w : 4 <= o <= 4096 -> exists r', push (set_ram st r) (at_offset o) w = Ret (set_ram st r', at_offset (o - 4)) /\ wrote r r' (x + (o - 4)) (word_bytes w).
Proof.
  intros Ho. destruct (wi_lo _ _ _ Hwin) as (_ & H0 & H1). unfold push, at_offset. cbn [stack_ptr entry_end entry_start]. rewrite Z.gtb_ltb.
  rewrite (proj2 (Z.leb_le _ _)) by lia. rewrite (proj2 (Z.ltb_lt _ _)) by lia. cbn [passert]. rewrite !mbind_Ret, u32_small by lia.
  destruct (store_bytes_window (set_ram st r) lo x (word_bytes w) (window_ram _ _ _ _ Hwin) (lo + o - 4)) as (r' & E & Hr); [lia|rewrite zlen_word; lia|].
  unfold store_word. rewrite E, mbind_Ret. exists r'. split; [unfold move_ptr; cbn; do 3 f_equal; lia|]. cbn [ram set_ram] in Hr. replace (x + (o - 4)) with (x + (lo + o - 4 - lo)) by lia. exact Hr.
Qed.

Lemma push_data_ok r o data : 0 < o - zlen data -> o <= 4096 ->
  exists r', push_data (set_ram st r) (at_offset o) data = Ret (set_ram st r', at_offset ((o - zlen data) / 4 * 4), lo + (o - zlen data)) /\
    wrote r r' (x + (o - zlen data)) data.
Proof.
  intros Ho Ho2. pose proof (zlen_nonneg data). destruct (wi_lo _ _ _ Hwin) as (Ha & H0 & H1). unfold push_data, at_offset. cbn [stack_ptr entry_end entry_start].
  rewrite (u32_small (lo + o - zlen data)) by lia. rewrite Z.gtb_ltb, (proj2 (Z.leb_le _ _)) by lia. rewrite (proj2 (Z.ltb_lt _ _)) by lia. cbn [passert]. rewrite !mbind_Ret.
  destruct (store_bytes_window (set_ram st r) lo x data (window_ram _ _ _ _ Hwin) (lo + o - zlen data)) as (r' & E & Hr); [lia|lia|].
  rewrite E, mbind_Ret. exists r'. split.
  - unfold move_ptr. cbn [entry_start entry_end target_start target_end]. rewrite align_down_word. repeat f_equal; [|lia]. dlia.
  - cbn [ram set_ram] in Hr. replace (x + (o - zlen data)) with (x + (lo + o - zlen data - lo)) by lia. exact Hr.
Qed.

Lemma store_word_ok r o w : 0 <= o <= 4092 -> exists r', store_word (set_ram st r) (lo + o) w = Ret (set_ram st r') /\ wrote r r' (x + o) (word_bytes w).
Proof.
  intros Ho. destruct (store_bytes_window (set_ram st r) lo x (word_bytes w) (window_ram _ _ _ _ Hwin) (lo + o)) as (r' & E & Hr); [lia|rewrite zlen_word; lia|].
  exists r'. split; [exact E|]. cbn [ram set_ram] in Hr. replace (x + o) with (x + (lo + o - lo)) by lia. exact Hr.
Qed.

Lemma target_ok q o : 0 <= q <= 4096 -> te - 4096 + q < 2 ^ 32 -> 4096 <= te -> target_address (at_offset o) (lo + q) = Ret (te - 4096 + q).
Proof.
  intros Hq Ht Hte. unfold target_address, at_offset. cbn [entry_start entry_end target_end]. rewrite Z.geb_leb, !(proj2 (Z.leb_le _ _)) by lia. cbn [passert]. rewrite !mbind_Ret.
  f_equal. replace (te - (lo + 4096 - (lo + q))) with (te - 4096 + q) by lia. apply u32_small. lia.
Qed.

Lemma push_all_ok ws : forall r o, 4 * zlen ws <= o <= 4096 ->
  exists r', push_all (set_ram st r) (at_offset o) ws = Ret (set_ram st r', at_offset (o - 4 * zlen ws)) /\
    (forall i w, znth ws i = Some w -> bytes_at r' (x + (o - 4 * (i + 1))) (word_bytes w)) /\
    (forall y, ~ (x + (o - 4 * zlen ws) <= y < x + o) -> r' y = r y).
Proof.
  induction ws as [|w ws IH]; intros r o Ho.
  - exists r. split; [cbn [push_all]; do 3 f_equal; unfold zlen; simpl; lia|]. split; [|reflexivity]. intros i w Hi. apply znth_Some_lt in Hi. unfold zlen in Hi. simpl in Hi. lia.
  - rewrite zlen_cons in Ho. pose proof (zlen_nonneg ws). cbn [push_all]. destruct (push_word_ok r o w ltac:(lia)) as (r1 & E1 & W1). rewrite E1, mbind_Ret.
    destruct (IH r1 (o - 4) ltac:(lia)) as (r2 & E2 & B2 & K2). exists r2. rewrite zlen_cons. split; [rewrite E2; do 3 f_equal; lia|]. split.
    + intros i w' Hi. pose proof (znth_Some_lt _ _ _ Hi) as Hr. destruct (decide (i = 0)) as [->|Hn].
      * rewrite znth_cons_0 in Hi. injection Hi as <-. apply (bytes_at_keep r1); [exact (wrote_at _ _ _ _ W1)|]. rewrite zlen_word. intros y Hy. apply K2. lia.
      * rewrite znth_cons_pos in Hi by lia. replace (x + (o - 4 * (i + 1))) with (x + (o - 4 - 4 * (i - 1 + 1))) by lia. apply B2. exact Hi.
    + intros y Hy. rewrite K2 by lia. apply (wrote_out _ _ _ _ _ W1). rewrite zlen_word. lia.
Qed.

End pushing.

(** *** The argument vector *)

(** Offsets of the strings below [o], and of the stack pointer behind them *)
Fixpoint arg_places (o : Z) (args : list (list Z)) : list Z :=
  match args with
  | [] => []
  | a :: args' => let q := o - (zlen a + 1) in q :: arg_places (q / 4 * 4) args'
  end.

Fixpoint args_end (o : Z) (args : list (list Z)) : Z :=
  match args with
  | [] => o
  | a :: args' => args_end ((o - (zlen a + 1)) / 4 * 4) args'
  end.

Lemma args_end_le args : forall o, args_end o args <= o.
Proof.
  induction args as [|a args IH]; intros o; cbn [args_end]; [lia|]. pose proof (IH ((o - (zlen a + 1)) / 4 * 4)). pose proof (zlen_nonneg a). dlia.
Qed.

Lemma zlen_arg_places args : forall o, zlen (arg_places o args) = zlen args.
Proof. induction args as [|a args IH]; intros o; cbn [arg_places]; [reflexivity|]. cbv zeta. rewrite !zlen_cons, IH. reflexivity. Qed.

(** Argument [j] of the vector at [vo]: a pointer to a copy of the string *)
Definition arg_at (r : Z -> Z) (x te vo o j q : Z) (a : list Z) : Prop :=
  bytes_at r (x + q) (a ++ [0]) /\ bytes_at r (x + vo + 4 * j) (word_bytes (te - 4096 + q)) /\ q + zlen a + 1 <= o.

Section arguments.
Context (st : t V) (lo x es ts te : Z).
Hypothesis Hwin : window st lo x.
Hypothesis Hes : 0 <= es <= lo.
Hypothesis Hte : 4096 <= te < 2 ^ 32.

Lemma push_args_ok args : forall r o i vo, 0 < args_end o args -> o <= vo -> 0 <= i -> vo + 4 * (i + zlen args) <= 4096 ->
  exists r', push_args (set_ram st r) (at_offset lo es ts te o) (lo + vo) i args = Ret (set_ram st r', at_offset lo es ts te (args_end o args)) /\
    (forall j a q, znth args j = Some a -> znth (arg_places o args) j = Some q -> args_end o args <= q /\ arg_at r' x te vo o (i + j) q a) /\
    (forall y, ~ (x + args_end o args <= y < x + o) -> ~ (x + vo + 4 * i <= y < x + vo + 4 * (i + zlen args)) -> r' y = r y).
Proof.
  destruct (wi_lo _ _ _ Hwin) as (Hlo & Hl0 & Hl1). induction args as [|a args IH]; intros r o i vo Hend Hov Hi Hv.
  - exists r. split; [reflexivity|]. split; [|reflexivity]. intros j a q Hj. apply znth_Some_lt in Hj. unfold zlen in Hj. simpl in Hj. lia.
  - cbn [args_end arg_places push_args] in *. cbv zeta in *. rewrite zlen_cons in Hv. pose proof (zlen_nonneg a). pose proof (zlen_nonneg args).
    assert (zlen (a ++ [0]) = zlen a + 1) as Hz by (rewrite zlen_app; reflexivity). set (q := o - (zlen a + 1)) in *.
    pose proof (args_end_le args (q / 4 * 4)) as Hle. assert (q / 4 * 4 <= q) as Hq4 by dlia.
    destruct (push_data_ok st lo x es ts te Hwin Hes r o (a ++ [0])) as (r1 & E1 & W1); [lia|lia|]. rewrite Hz in E1, W1. fold q in E1, W1. rewrite E1, mbind_Ret.
    rewrite (target_ok lo es ts te Hes q (q / 4 * 4)), mbind_Ret by lia. rewrite u32_small by lia. replace (lo + vo + 4 * i) with (lo + (vo + 4 * i)) by lia.
    destruct (store_word_ok st lo x Hwin r1 (vo + 4 * i) (te - 4096 + q)) as (r2 & E2 & W2); [lia|]. rewrite E2, mbind_Ret.
    destruct (IH r2 (q / 4 * 4) (i + 1) vo Hend ltac:(lia) ltac:(lia) ltac:(lia)) as (r3 & E3 & B3 & K3). exists r3. split; [exact E3|]. split.
    + intros j b p Hj Hp. pose proof (znth_Some_lt _ _ _ Hj). destruct (decide (j = 0)) as [->|Hn].
      * rewrite znth_cons_0 in Hj. rewrite znth_cons_0 in Hp. injection Hj as <-. injection Hp as <-. split; [lia|]. split; [|split; [|lia]].
        -- apply (bytes_at_keep r1); [exact (wrote_at _ _ _ _ W1)|]. rewrite Hz. intros y Hy. rewrite K3 by lia. apply (wrote_out _ _ _ _ _ W2). rewrite zlen_word. lia.
        -- replace (i + 0) with i by lia. replace (x + vo + 4 * i) with (x + (vo + 4 * i)) by lia. apply (bytes_at_keep r2); [exact (wrote_at _ _ _ _ W2)|]. rewrite zlen_word. intros y Hy. apply K3; lia.
      * rewrite znth_cons_pos in Hj by lia. rewrite znth_cons_pos in Hp by lia. destruct (B3 (j - 1) b p Hj Hp) as (G1 & G2 & G3 & G4). split; [lia|]. split; [exact G2|]. split; [|lia].
        replace (i + j) with (i + 1 + (j - 1)) by lia. exact G3.
    + intros y Hy1 Hy2. rewrite zlen_cons in Hy2. rewrite K3 by lia. rewrite (wrote_out _ _ _ _ _ W2) by (rewrite zlen_word; lia). apply (wrote_out _ _ _ _ _ W1). rewrite Hz. lia.
Qed.

(** The image of the stack: what the process finds above [sp] *)
Record args_image (r : Z -> Z) (x te : Z) (ret : Z) (args : list (list Z)) (sp : Z) : Prop := {
  ai_sp : 0 <= sp /\ sp mod 4 = 0;
  ai_ret : bytes_at r (x + sp) (word_bytes ret);
  ai_argc : bytes_at r (x + sp + 4) (word_bytes (zlen args));
  ai_argv : bytes_at r (x + sp + 8) (word_bytes (te - 4 * zlen args));
  ai_args : forall j a, znth args j = Some a -> exists q, sp + 12 <= q /\ arg_at r x te (4096 - 4 * zlen args) (4096 - 4 * zlen args) j q a
}.

(** The pushes of [write_user_stack] *)
Definition user_pushes (st : t V) (p : stack_portal) (argv : list Z) (args : list (list Z)) (ret : Z) : outcome (t V * stack_portal) :=
  '(st, p, arg_ptrs) ← push_data st p (concat (word_bytes <$> argv));
  '(st, p) ← push_args st p arg_ptrs 0 args;
  argv_target ← target_address p arg_ptrs;
  '(st, p) ← push st p argv_target;
  '(st, p) ← push st p (zlen args);
  push st p ret.

Definition stack_used (args : list (list Z)) : Z := 4096 - args_end (4096 - 4 * zlen args) args + 12.

Lemma args_end_aligned args : forall o, o mod 4 = 0 -> args_end o args mod 4 = 0.
Proof. induction args as [|a args IH]; intros o Ho; cbn [args_end]; [exact Ho|]. apply IH. apply Z_mod_mult. Qed.

Lemma user_pushes_ok r argv args ret : zlen argv = zlen args -> stack_used args <= 4096 ->
  exists r', user_pushes (set_ram st r) (at_offset lo es ts te 4096) argv args ret = Ret (set_ram st r', at_offset lo es ts te (4096 - stack_used args)) /\
    args_image r' x te ret args (4096 - stack_used args) /\
    (forall y, ~ (x + (4096 - stack_used args) <= y < x + 4096) -> r' y = r y).
Proof.
  intros Hargv Hroom. unfold stack_used in *. set (n := zlen args) in *. set (e := args_end (4096 - 4 * n) args) in *. pose proof (zlen_nonneg args).
  pose proof (args_end_le args (4096 - 4 * n)) as Hle. fold e in Hle. destruct (wi_lo _ _ _ Hwin) as (Hlo & Hl0 & Hl1).
  assert (e mod 4 = 0) as He4 by (apply args_end_aligned; dlia).
  replace (4096 - (4096 - e + 12)) with (e - 12) by lia. unfold user_pushes. fold n.
  destruct (push_data_ok st lo x es ts te Hwin Hes r 4096 (concat (word_bytes <$> argv))) as (r1 & E1 & W1); [rewrite word_bytes_length; lia|lia|].
  rewrite word_bytes_length, Hargv in E1, W1. fold n in E1, W1. replace ((4096 - 4 * n) / 4 * 4) with (4096 - 4 * n) in E1 by dlia. rewrite E1, mbind_Ret.
  destruct (push_args_ok args r1 (4096 - 4 * n) 0 (4096 - 4 * n)) as (r2 & E2 & B2 & K2); [lia|lia|lia|lia|]. fold e in E2, B2, K2. rewrite E2, mbind_Ret.
  rewrite (target_ok lo es ts te Hes (4096 - 4 * n) e), mbind_Ret by lia.
  destruct (push_word_ok st lo x es ts te Hwin Hes r2 e (te - 4096 + (4096 - 4 * n))) as (r3 & E3 & W3); [lia|]. rewrite E3, mbind_Ret.
  destruct (push_word_ok st lo x es ts te Hwin Hes r3 (e - 4) n) as (r4 & E4 & W4); [lia|]. rewrite E4, mbind_Ret.
  destruct (push_word_ok st lo x es ts te Hwin Hes r4 (e - 4 - 4) ret) as (r5 & E5 & W5); [lia|]. rewrite E5.
  assert (forall y, ~ (x + (e - 12) <= y < x + e) -> r5 y = r2 y) as Hkeep.
  { intros y Hy. rewrite (wrote_out _ _ _ _ _ W5), (wrote_out _ _ _ _ _ W4), (wrote_out _ _ _ _ _ W3) by (rewrite zlen_word; lia). reflexivity. }
  exists r5. split; [do 3 f_equal; lia|]. split.
  - constructor.
    + split; [lia|]. dlia.
    + replace (x + (e - 12)) with (x + (e - 4 - 4 - 4)) by lia. exact (wrote_at _ _ _ _ W5).
    + replace (x + (e - 12) + 4) with (x + (e - 4 - 4)) by lia. apply (bytes_at_keep r4); [exact (wrote_at _ _ _ _ W4)|]. rewrite zlen_word. intros y Hy. apply (wrote_out _ _ _ _ _ W5). rewrite zlen_word. lia.
    + replace (x + (e - 12) + 8) with (x + (e - 4)) by lia. replace (te - 4 * zlen args) with (te - 4096 + (4096 - 4 * n)) by (unfold n; lia).
      apply (bytes_at_keep r3); [exact (wrote_at _ _ _ _ W3)|]. rewrite zlen_word. intros y Hy. rewrite (wrote_out _ _ _ _ _ W5), (wrote_out _ _ _ _ _ W4) by (rewrite zlen_word; lia). reflexivity.
    + intros j a Hj. pose proof (znth_Some_lt _ _ _ Hj) as Hjr. destruct (znth_lt_Some (arg_places (4096 - 4 * n) args) j) as [q Hq]; [rewrite zlen_arg_places; exact Hjr|].
      destruct (B2 j a q Hj Hq) as (H1 & H2 & H3 & H4). exists q. split; [lia|]. change (0 + j) with j in H3. fold n. pose proof (zlen_nonneg a). split; [|split; [|exact H4]].
      * apply (bytes_at_keep r2); [exact H2|]. intros y Hy. apply Hkeep. lia.
      * apply (bytes_at_keep r2); [exact H3|]. rewrite zlen_word. intros y Hy. apply Hkeep. lia.
  - intros y Hy. rewrite Hkeep by lia. rewrite K2 by lia. apply (wrote_out _ _ _ _ _ W1). rewrite word_bytes_length, Hargv. fold n. lia.
Qed.

End arguments.

(** ** Closing a portal *)

Lemma unmap_portal_loop_ok SM ND NT DA sc c virt L : SM !! c = Some sc -> 0 <= virt -> virt + L <= 2 ^ 32 -> virt mod 4096 = 0 ->
  forall n fuel off st TA, (n < fuel)%nat -> L = off + 4096 * Z.of_nat n -> 0 <= off -> off mod 4096 = 0 -> paging.wf st SM ND NT DA TA -> current_space st = c ->
  safely (unmap_portal_loop fuel st virt L off) (fun st' => (exists TA', paging.wf st' SM ND NT DA TA' /\ forall x, x ∈ TA -> x ∈ TA') /\ paging.outside st st' /\
    forall h s v, SM !! h = Some s -> 0 <= v < 2 ^ 32 -> paging.walk st' s v = if decide (h = c /\ virt + off <= v < virt + L) then None else paging.walk st s v).
Proof.
  intros Hc Hv HvL Hva. induction n as [|n IH]; intros fuel off st TA Hf Hend H0 Hoa Hwf Hcur; (destruct fuel as [|fuel]; [lia|]); cbn [unmap_portal_loop].
  - replace L with off by lia. rewrite Z.ltb_irrefl. simpl. split; [eauto|]. split; [constructor; reflexivity|]. intros h s v _ _. rewrite decide_False by lia. reflexivity.
  - rewrite (proj2 (Z.ltb_lt off L)), (u32_small (virt + off)), Hcur by lia. assert ((virt + off) mod 4096 = 0) as Hpa by (rewrite Z.add_mod, Hva, Hoa by lia; reflexivity).
    eapply safely_bind; [apply (forking.map_page_safely st SM ND NT DA TA c sc (virt + off) 0xDEAD0000 0 Hwf Hc); [lia|exact Hpa|reflexivity]|].
    intros st1 (TA1 & Hwf1 & Hsub1 & [O1 O2 O3 O4 O5 O6] & W1 & _).
    eapply safely_mono; [apply (IH fuel (off + 4096) st1 TA1); [lia|lia|lia|rewrite Z.add_mod, Hoa by lia; reflexivity|exact Hwf1|congruence]|].
    intros st2 ((TA2 & Hwf2 & Hsub2) & [P1 P2 P3 P4 P5 P6] & W2). split; [eauto|]. split; [constructor; congruence|].
    intros h s v Hs Hvr. rewrite (W2 h s v Hs Hvr). case_decide as D2; [rewrite decide_True by lia; reflexivity|]. rewrite (W1 h s v Hs Hvr). change (Z.odd 0) with false.
    case_decide as D1.
    + destruct D1 as [-> E]. apply page_of in E; [|exact Hpa]. rewrite decide_True by lia. reflexivity.
    + rewrite decide_False; [reflexivity|]. intros [-> Hr]. apply D1. split; [reflexivity|].
      assert (virt + off <= v < virt + off + 4096) by lia. symmetry. apply Z.div_unique with (v - (virt + off)); [lia|]. dlia.
Qed.

(** What a portal session to the top [L] bytes below [base] of space [d]
    leaves: memory changed in the frame [x] of the top page only, the pages
    present, the window gone, everything else as before. *)
Record session st st' (SM : gmap Z space_info) (ND NT : Z) (DA TA : gset Z) (N : Z) (A A' : gset Z) (d : Z) (sc sd : space_info) (base L af x : Z) : Prop := {
  ss_wf : exists TA', paging.wf st' SM ND NT DA TA' /\ forall y, y ∈ TA -> y ∈ TA';
  ss_holds : forking.holds st' N A';
  ss_sub : forall y, y ∈ A -> y ∈ A';
  ss_spaces : spaces st' = spaces st;
  ss_current : current_space st' = current_space st;
  ss_vstate : vstate st' = vstate st;
  ss_ram : forall y, ~ (x <= y < x + 4096) -> ram st' y = ram st y;
  ss_walk : forall h s v, SM !! h = Some s -> 0 <= v < 2 ^ 32 -> ~ (h = current_space st /\ KERNEL_SCRATCH_BASE <= v < KERNEL_SCRATCH_BASE + L) ->
    ~ (h = d /\ base - L <= v < base) -> paging.walk st' s v = paging.walk st s v;
  ss_window : forall v, KERNEL_SCRATCH_BASE <= v < KERNEL_SCRATCH_BASE + L -> paging.walk st' sc v = None;
  ss_page : forall off, 0 <= off < L -> off mod 4096 = 0 -> exists e, paging.walk st' sd (base - L + off) = Some e /\
    (paging.walk st sd (base - L + off) = Some e \/
     paging.walk st sd (base - L + off) = None /\ (pte_frame e ∉ A) /\ pte_frame e ∈ A' /\ e_flags e = page_flags af);
  ss_top : exists e, paging.walk st' sd (base - 4096) = Some e /\ pte_frame e = x;
  ss_books : books st' = books st
}.

(** The top page of an open portal is a window. *)
Lemma opened_top st st1 SM ND NT DA TA N A A' d sc sd base af L : let c := current_space st in
  opened st st1 SM ND NT DA TA N A A' c d sc sd KERNEL_SCRATCH_BASE (base - L) af L -> SM !! c = Some sc -> 4096 <= L -> L mod 4096 = 0 -> KERNEL_SCRATCH_BASE + L < 2 ^ 32 ->
  exists x, window st1 (KERNEL_SCRATCH_BASE + L - 4096) x /\ exists e, paging.walk st1 sd (base - 4096) = Some e /\ pte_frame e = x.
Proof.
  intros c Ho Hc HL HLa Htop. assert (KERNEL_SCRATCH_BASE = 3758096384) as Hscr by reflexivity.
  destruct (op_page _ _ _ _ _ _ _ _ _ _ _ _ _ _ _ _ _ _ Ho (L - 4096)) as (x & e & e' & H1 & H2 & H3 & H4 & H5 & _); [lia|dlia|].
  exists x. split.
  - constructor; [split; [|lia]; rewrite Hscr; dlia|]. destruct (op_wf _ _ _ _ _ _ _ _ _ _ _ _ _ _ _ _ _ _ Ho) as (TA' & Hwf & _). exists SM, ND, NT, DA, TA', sc, e.
    split; [exact Hwf|]. split; [rewrite (op_current _ _ _ _ _ _ _ _ _ _ _ _ _ _ _ _ _ _ Ho); exact Hc|].
    replace (KERNEL_SCRATCH_BASE + L - 4096) with (KERNEL_SCRATCH_BASE + (L - 4096)) by lia. auto.
  - exists e'. replace (base - 4096) with (base - L + (L - 4096)) by lia. auto.
Qed.

(** Writing in the top page of an open portal, and closing it *)
Lemma portal_close_session st st1 r p SM ND NT DA TA N A A' d sc sd base af n x : let L := 4096 * Z.of_nat n in
  opened st st1 SM ND NT DA TA N A A' (current_space st) d sc sd KERNEL_SCRATCH_BASE (base - L) af L -> SM !! current_space st = Some sc -> SM !! d = Some sd ->
  0 < L -> L <= base -> base <= KERNEL_SCRATCH_BASE -> KERNEL_SCRATCH_BASE + L < 2 ^ 32 ->
  (exists e, paging.walk st1 sd (base - 4096) = Some e /\ pte_frame e = x) -> (forall y, ~ (x <= y < x + 4096) -> r y = ram st1 y) ->
  entry_start p = KERNEL_SCRATCH_BASE -> entry_end p = KERNEL_SCRATCH_BASE + L ->
  safely (portal_close (set_ram st1 r) p) (fun st' => session st st' SM ND NT DA TA N A A' d sc sd base L af x /\ ram st' = r).
Proof.
  intros L Ho Hc Hd HL HLb Hbase Htop (e & He & Hx) Hr Hp1 Hp2. assert (KERNEL_SCRATCH_BASE = 3758096384) as Hscr by reflexivity.
  unfold portal_close, mem_unmap_portal. rewrite Hp1, Hp2. replace (KERNEL_SCRATCH_BASE + L - KERNEL_SCRATCH_BASE) with L by lia. rewrite u32_small by lia.
  destruct (op_wf _ _ _ _ _ _ _ _ _ _ _ _ _ _ _ _ _ _ Ho) as (TA1 & Hwf1 & Hsub1).
  assert (paging.wf (set_ram st1 r) SM ND NT DA TA1) as Hwf2 by (apply (faults.wf_same st1); auto).
  eapply safely_mono; [apply (unmap_portal_loop_ok SM ND NT DA sc (current_space st) KERNEL_SCRATCH_BASE L Hc ltac:(lia) ltac:(lia) eq_refl n _ 0 _ TA1); [unfold page_rounds, L; dlia|unfold L; lia|lia|reflexivity|exact Hwf2|exact (op_current _ _ _ _ _ _ _ _ _ _ _ _ _ _ _ _ _ _ Ho)]|].
  intros st2 ((TA2 & Hwf & Hsub2) & [O1 O2 O3 O4 O5 O6] & W). split; [|exact O5].
  assert (forall h s v, SM !! h = Some s -> 0 <= v < 2 ^ 32 -> paging.walk st2 s v = if decide (h = current_space st /\ KERNEL_SCRATCH_BASE <= v < KERNEL_SCRATCH_BASE + L) then None else paging.walk st1 s v) as W'.
  { intros h s v Hs Hvr. rewrite (W h s v Hs Hvr), Z.add_0_r. case_decide; [reflexivity|]. apply faults.walk_same. reflexivity. }
  constructor.
  - exists TA2. auto.
  - destruct (op_holds _ _ _ _ _ _ _ _ _ _ _ _ _ _ _ _ _ _ Ho) as (u & Hu & Hrep). exists u. rewrite O3. auto.
  - exact (op_sub _ _ _ _ _ _ _ _ _ _ _ _ _ _ _ _ _ _ Ho).
  - rewrite O1. exact (op_spaces _ _ _ _ _ _ _ _ _ _ _ _ _ _ _ _ _ _ Ho).
  - rewrite O4. exact (op_current _ _ _ _ _ _ _ _ _ _ _ _ _ _ _ _ _ _ Ho).
  - rewrite O6. exact (op_vstate _ _ _ _ _ _ _ _ _ _ _ _ _ _ _ _ _ _ Ho).
  - intros y Hy. rewrite O5. cbn [ram set_ram]. rewrite Hr by exact Hy. rewrite (op_ram _ _ _ _ _ _ _ _ _ _ _ _ _ _ _ _ _ _ Ho). reflexivity.
  - intros h s v Hs Hvr Hn1 Hn2. rewrite (W' h s v Hs Hvr), decide_False by exact Hn1. apply (op_walk _ _ _ _ _ _ _ _ _ _ _ _ _ _ _ _ _ _ Ho h); [assumption..|].
    intros [-> ?]. apply Hn2. split; [reflexivity|lia].
  - intros v Hv. rewrite (W' _ sc v Hc), decide_True by (auto; lia). reflexivity.
  - intros off Hoff Hoa. destruct (op_page _ _ _ _ _ _ _ _ _ _ _ _ _ _ _ _ _ _ Ho off Hoff Hoa) as (y & e1 & e2 & _ & _ & _ & H4 & H5 & H6). exists e2.
    rewrite (W' d sd _ Hd), decide_False by lia. split; [exact H4|]. rewrite H5. exact H6.
  - exists e. rewrite (W' d sd _ Hd), decide_False by lia. auto.
  - rewrite (books_same _ _ O3). exact (op_books _ _ _ _ _ _ _ _ _ _ _ _ _ _ _ _ _ _ Ho).
Qed.

(** ** The writers of the stacks *)

(** What a portal needs: a stack area of the space [d] over [L] bytes below [base] *)
Record stack_area st (SM : gmap Z space_info) (ND NT : Z) (DA TA : gset Z) (N : Z) (A : gset Z) (d : Z) (sc sd : space_info) (base L af : Z) : Prop := {
  sa_wf : paging.wf st SM ND NT DA TA;
  sa_ok : areas.ok st;
  sa_holds : forking.holds st N A;
  sa_current : SM !! current_space st = Some sc;
  sa_space : SM !! d = Some sd;
  sa_area : exists ma i a, areas.space_ok sd ma /\ ma !! i = Some a /\ a_type a = AREA_ALLOC /\ a_flags a = af /\
    areas.covers a (base - L) /\ areas.covers a (base - 1)
}.

(** A portal that is opened, written in its top page and closed *)
Definition portal_session {B R} st (d base size : Z) (f : t V -> stack_portal -> outcome (t V * (stack_portal * B))) (fin : t V -> B -> R) : outcome R :=
  '(st, p) ← portal_open st d base size; '(st, (p, b)) ← f st p; st ← portal_close st p; Ret (fin st b).

Lemma with_portal {B R} st SM ND NT DA TA N A d sc sd base af n size (f : t V -> stack_portal -> outcome (t V * (stack_portal * B))) (fin : t V -> B -> R)
    (Q : Z -> (Z -> Z) -> B -> Prop) : let L := 4096 * Z.of_nat n in let lo := KERNEL_SCRATCH_BASE + L - 4096 in
  stack_area st SM ND NT DA TA N A d sc sd base L af -> ALIGN_UP size 0x1000 = L ->
  0 < L -> L <= base -> base <= KERNEL_SCRATCH_BASE -> base mod 4096 = 0 -> KERNEL_SCRATCH_BASE + L < 2 ^ 32 ->
  (forall st1 x, window st1 lo x -> ram st1 = ram st ->
     safely (f st1 (at_offset lo KERNEL_SCRATCH_BASE (base - L) base 4096)) (fun r =>
       exists r' o, r.1 = set_ram st1 r' /\ r.2.1 = at_offset lo KERNEL_SCRATCH_BASE (base - L) base o /\ Q x r' r.2.2 /\
         forall y, ~ (x <= y < x + 4096) -> r' y = ram st y)) ->
  safely (portal_session st d base size f fin) (fun r => exists st' b A' x, r = fin st' b /\
    session st st' SM ND NT DA TA N A A' d sc sd base L af x /\ Q x (ram st') b).
Proof.
  intros L lo [Hwf Hok Hh Hc Hd (ma & i & a & Hso & Hi & Hty & <- & Hcs & Hce)] Hsz HL HLb Hbase Hba Htop Hf. unfold portal_session.
  eapply safely_bind; [exact (portal_open_opens st SM ND NT DA TA N A d sd sc ma i a base size n Hwf Hok Hh Hc Hd Hso Hi Hty Hcs Hce Hsz HL HLb Hbase Hba Htop)|].
  intros [st1 p] (Ep & A' & Ho). cbn [fst snd] in *. subst p. fold L in Ho.
  destruct (opened_top st st1 SM ND NT DA TA N A A' d sc sd base (a_flags a) L Ho Hc) as (x & Hwin & He); [unfold L; lia|unfold L; rewrite Z.mul_comm; apply Z_mod_mult|exact Htop|].
  replace (mk_portal _ _ _ _ _) with (at_offset lo KERNEL_SCRATCH_BASE (base - L) base 4096) by (unfold at_offset, lo; f_equal; lia).
  pose proof (op_ram _ _ _ _ _ _ _ _ _ _ _ _ _ _ _ _ _ _ Ho) as Er.
  eapply safely_bind; [exact (Hf st1 x Hwin Er)|]. intros [st2 [p b]] (r' & o & E2 & Ep & HQ & Hr'). cbn [fst snd] in *. subst st2 p.
  eapply safely_bind.
  { apply (portal_close_session st st1 r' (at_offset lo KERNEL_SCRATCH_BASE (base - L) base o) SM ND NT DA TA N A A' d sc sd base (a_flags a) n x Ho Hc Hd HL HLb Hbase Htop He); [intros y Hy; rewrite Er; auto|reflexivity|].
    unfold at_offset, lo. cbn [entry_end]. fold L. lia. }
  intros st3 [Hs E3]. simpl. exists st3, b, A', x. rewrite E3. auto.
Qed.

(** [write_user_stack]: the new process finds the image at the pointer that is returned. *)
Definition cleanup_address (user_proc_cleanup flags : Z) : Z := if has flags PROC_KERNEL_ACCESSIBLE then user_proc_cleanup else 0.

Lemma write_user_stack_session cleanup st d flags argv args :
  write_user_stack cleanup st d flags argv args =
  portal_session st d USER_SPACE_STACK_BASE user_initial_stack_size
    (fun st p => '(st, p) ← user_pushes st p argv args (cleanup_address cleanup flags); sp ← target_address p (current_pointer p); Ret (st, (p, sp))) pair.
Proof.
  unfold write_user_stack, portal_session, user_pushes, cleanup_address. destruct (portal_open st d _ _) as [[st1 p]| | |]; [simpl|reflexivity..].
  destruct (push_data st1 p _) as [[[st2 p2] ap]| | |]; [simpl|reflexivity..]. destruct (push_args st2 p2 ap 0 args) as [[st3 p3]| | |]; [simpl|reflexivity..].
  destruct (target_address p3 ap) as [tg| | |]; [simpl|reflexivity..]. destruct (push st3 p3 tg) as [[st4 p4]| | |]; [simpl|reflexivity..].
  destruct (push st4 p4 _) as [[st5 p5]| | |]; [simpl|reflexivity..]. destruct (push st5 p5 _) as [[st6 p6]| | |]; [simpl|reflexivity..].
  destruct (target_address p6 _); reflexivity.
Qed.

Lemma write_user_stack_ok cleanup st SM ND NT DA TA N A d sc sd af flags argv args :
  stack_area st SM ND NT DA TA N A d sc sd USER_SPACE_STACK_BASE 4096 af -> zlen argv = zlen args -> stack_used args <= 4096 ->
  safely (write_user_stack cleanup st d flags argv args) (fun r => r.2 = USER_SPACE_STACK_BASE - stack_used args /\ exists A' x,
    session st r.1 SM ND NT DA TA N A A' d sc sd USER_SPACE_STACK_BASE 4096 af x /\
    args_image (ram r.1) x USER_SPACE_STACK_BASE (cleanup_address cleanup flags) args (4096 - stack_used args) /\
    forall y, ~ (x + 4096 - stack_used args <= y < x + 4096) -> ram r.1 y = ram st y).
Proof.
  intros Hsa Hargv Hroom. rewrite write_user_stack_session. assert (0 <= stack_used args) as Hused by (unfold stack_used; pose proof (args_end_le args (4096 - 4 * zlen args)); pose proof (zlen_nonneg args); lia).
  set (Q := fun x r' sp => sp = USER_SPACE_STACK_BASE - stack_used args /\ args_image r' x USER_SPACE_STACK_BASE (cleanup_address cleanup flags) args (4096 - stack_used args) /\
    forall y, ~ (x + 4096 - stack_used args <= y < x + 4096) -> r' y = ram st y).
  eapply safely_mono; [apply (with_portal st SM ND NT DA TA N A d sc sd USER_SPACE_STACK_BASE af 1 user_initial_stack_size _ pair Q Hsa); [reflexivity|lia|vm_compute; discriminate..|reflexivity|reflexivity|]|].
  - intros st1 x Hwin Er. change (4096 * Z.of_nat 1) with 4096. set (lo := KERNEL_SCRATCH_BASE + 4096 - 4096) in *.
    destruct (user_pushes_ok st1 lo x KERNEL_SCRATCH_BASE (USER_SPACE_STACK_BASE - 4096) USER_SPACE_STACK_BASE Hwin ltac:(vm_compute; split; discriminate) ltac:(vm_compute; split; discriminate || reflexivity)
      (ram st1) argv args (cleanup_address cleanup flags) Hargv Hroom) as (r' & E & Him & Hk).
    replace (set_ram st1 (ram st1)) with st1 in E by (destruct st1; reflexivity). rewrite E, mbind_Ret. unfold current_pointer. cbn [at_offset stack_ptr].
    assert (USER_SPACE_STACK_BASE = 2952790016) as Hub by reflexivity.
    change (mk_portal KERNEL_SCRATCH_BASE (lo + 4096) (USER_SPACE_STACK_BASE - 4096) USER_SPACE_STACK_BASE (lo + (4096 - stack_used args)))
      with (at_offset lo KERNEL_SCRATCH_BASE (USER_SPACE_STACK_BASE - 4096) USER_SPACE_STACK_BASE (4096 - stack_used args)).
    rewrite target_ok by (first [lia | vm_compute; split; discriminate]). rewrite mbind_Ret. simpl.
    exists r', (4096 - stack_used args). split; [reflexivity|]. split; [reflexivity|]. split; [|intros y Hy; rewrite <-Er; apply Hk; lia].
    split; [lia|]. split; [exact Him|]. intros y Hy. rewrite <-Er. apply Hk. lia.
  - intros r (st' & sp & A' & x & -> & Hs & -> & Him & Hk). split; [reflexivity|]. exists A', x. auto.
Qed.

(** [write_kernel_stack]: the frame of the context switch, from the top down *)
Lemma write_kernel_stack_session switch st d regs :
  write_kernel_stack switch st d regs =
  portal_session st d PROC_KERNEL_STACK_BASE kernel_initial_stack_size
    (fun st p => '(st, p) ← push_all st p (kernel_frame switch regs); sp ← target_address p (current_pointer p); Ret (st, (p, sp))) pair.
Proof.
  unfold write_kernel_stack, portal_session. generalize (kernel_frame switch regs) as ws. intros ws. destruct (portal_open st d _ _) as [[st1 p]| | |]; [simpl|reflexivity..].
  destruct (push_all st1 p ws) as [[st2 p2]| | |]; [simpl|reflexivity..]. destruct (target_address p2 _); reflexivity.
Qed.

(** The words of a frame that ends at the top of the page [x] *)
Definition frame_at (r : Z -> Z) (x : Z) (ws : list Z) : Prop := forall i w, znth ws i = Some w -> bytes_at r (x + (4096 - 4 * (i + 1))) (word_bytes w).

Definition frame_size : Z := 60.

Lemma write_kernel_stack_ok switch st SM ND NT DA TA N A d sc sd af regs :
  stack_area st SM ND NT DA TA N A d sc sd PROC_KERNEL_STACK_BASE 0xA000 af ->
  safely (write_kernel_stack switch st d regs) (fun r => r.2 = PROC_KERNEL_STACK_BASE - frame_size /\ exists A' x,
    session st r.1 SM ND NT DA TA N A A' d sc sd PROC_KERNEL_STACK_BASE 0xA000 af x /\ frame_at (ram r.1) x (kernel_frame switch regs)).
Proof.
  intros Hsa. rewrite write_kernel_stack_session.
  set (Q := fun x r' sp => sp = PROC_KERNEL_STACK_BASE - frame_size /\ frame_at r' x (kernel_frame switch regs)).
  eapply safely_mono; [apply (with_portal st SM ND NT DA TA N A d sc sd PROC_KERNEL_STACK_BASE af 10 kernel_initial_stack_size _ pair Q Hsa); [reflexivity|lia|vm_compute; discriminate..|reflexivity|reflexivity|]|].
  - intros st1 x Hwin Er. change (4096 * Z.of_nat 10) with 0xA000. set (lo := KERNEL_SCRATCH_BASE + 0xA000 - 4096) in *.
    destruct (push_all_ok st1 lo x KERNEL_SCRATCH_BASE (PROC_KERNEL_STACK_BASE - 0xA000) PROC_KERNEL_STACK_BASE Hwin ltac:(vm_compute; split; discriminate) (kernel_frame switch regs) (ram st1) 4096) as (r' & E & B & K); [vm_compute; split; discriminate|].
    replace (set_ram st1 (ram st1)) with st1 in E by (destruct st1; reflexivity). rewrite E, mbind_Ret. change (zlen (kernel_frame switch regs)) with 15 in *.
    unfold current_pointer. cbn [at_offset stack_ptr].
    change (mk_portal KERNEL_SCRATCH_BASE (lo + 4096) (PROC_KERNEL_STACK_BASE - 0xA000) PROC_KERNEL_STACK_BASE (lo + (4096 - 4 * 15)))
      with (at_offset lo KERNEL_SCRATCH_BASE (PROC_KERNEL_STACK_BASE - 0xA000) PROC_KERNEL_STACK_BASE (4096 - 4 * 15)).
    rewrite target_ok by (vm_compute; repeat split; first [discriminate|reflexivity]). rewrite mbind_Ret. simpl.
    exists r', 4036. split; [reflexivity|]. split; [reflexivity|]. split; [split; [reflexivity|exact B]|]. intros y Hy. rewrite <-Er. apply K. lia.
  - intros r (st' & sp & A' & x & -> & Hs & -> & Hf). split; [reflexivity|]. exists A', x. auto.
Qed.

(** Loads in a window *)
Lemma load_byte_window st lo x v : window st lo x -> lo <= v < lo + 4096 -> load_byte st v = Ret (ram st (x + (v - lo))).
Proof.
  intros [(Hlo & H0 & H1) (SM & ND & NT & DA & TA & sc & e & Hwf & Hc & Hw & Hx & Ha)] Hv. destruct (page_offset lo v Hlo Hv) as [Hp Ho].
  assert (0 <= v < 2 ^ 32 /\ 0 <= lo < 2 ^ 32) as [Hvr Hlr] by lia. unfold load_byte, get_space. rewrite (fpm_get _ _ _ _ (paging.wf_spaces _ _ _ _ _ _ Hwf)), Hc, mbind_Ret.
  rewrite (paging.find_pte_walk st SM ND NT DA TA _ sc v Hwf Hc Hvr), mbind_Ret, (forking.walk_page st sc v lo Hvr Hlr Hp), Hw, Hx, Ho. reflexivity.
Qed.

Lemma load_word_window st lo x v : window st lo x -> lo <= v -> v + 4 <= lo + 4096 -> exists w, load_word st v = Ret w.
Proof. intros Hw H1 H2. unfold load_word. rewrite !(load_byte_window st lo x) by (assumption || lia). rewrite !mbind_Ret. eauto. Qed.

(** The slots [update_userspace_sp] and [set_syscall_ret_ip] overwrite: the
    stack pointer and the instruction pointer the interrupt return loads *)
Definition write_slot (checks : list (Z * Z)) (index w : Z) (st : t V) (p : stack_portal) : outcome (t V * (stack_portal * unit)) :=
  st ← (fix go l := match l with
                    | [] => store_word st (slot p index) w
                    | (i, v) :: l' => x ← load_word st (slot p i); passert (x =? v);; go l'
                    end) checks;
  Ret (st, (p, tt)).

Lemma update_userspace_sp_session st d sp :
  update_userspace_sp st d sp = portal_session st d PROC_KERNEL_STACK_BASE 0x1000 (write_slot [(-1, USER_DATA_SEL)] (-2) sp) (fun st _ => st).
Proof.
  unfold update_userspace_sp, portal_session, write_slot. destruct (portal_open st d _ _) as [[st1 p]| | |]; [simpl|reflexivity..].
  destruct (load_word st1 _); [simpl|reflexivity..]. destruct (_ =? _); [simpl|reflexivity]. destruct (store_word st1 _ _); [simpl|reflexivity..]. destruct (portal_close _ _); reflexivity.
Qed.

Lemma set_syscall_ret_ip_session st d ip :
  set_syscall_ret_ip st d ip = portal_session st d PROC_KERNEL_STACK_BASE 0x1000 (write_slot [(-1, USER_DATA_SEL); (-4, USER_CODE_SEL)] (-5) ip) (fun st _ => st).
Proof.
  unfold set_syscall_ret_ip, portal_session, write_slot. destruct (portal_open st d _ _) as [[st1 p]| | |]; [simpl|reflexivity..].
  destruct (load_word st1 (slot p (-1))) as [w1| | |]; [simpl|reflexivity..]. destruct (w1 =? _); [simpl|reflexivity].
  destruct (load_word st1 (slot p (-4))) as [w4| | |]; [simpl|reflexivity..]. destruct (w4 =? _); [simpl|reflexivity].
  destruct (store_word st1 _ _); [simpl|reflexivity..]. destruct (portal_close _ _); reflexivity.
Qed.

Lemma write_slot_ok st lo x ts index w checks : window st lo x -> lo = KERNEL_SCRATCH_BASE -> -1024 <= index < 0 -> (forall i v, (i, v) ∈ checks -> -1024 <= i < 0) ->
  safely (write_slot checks index w st (at_offset lo lo ts PROC_KERNEL_STACK_BASE 4096)) (fun r =>
    exists r', r = (set_ram st r', (at_offset lo lo ts PROC_KERNEL_STACK_BASE 4096, tt)) /\ wrote (ram st) r' (x + (4096 + 4 * index)) (word_bytes w)).
Proof.
  intros Hwin Hlo Hi. pose proof (wi_lo _ _ _ Hwin) as (_ & H0 & H1). assert (forall i, -1024 <= i < 0 -> slot (at_offset lo lo ts PROC_KERNEL_STACK_BASE 4096) i = lo + (4096 + 4 * i)) as Hslot.
  { intros i Hir. unfold slot, at_offset. cbn [stack_ptr]. rewrite u32_small by lia. lia. }
  induction checks as [|[i v] checks IH]; intros Hch; unfold write_slot in *.
  - rewrite Hslot by lia. destruct (store_word_ok st lo x Hwin (ram st) (4096 + 4 * index) w) as (r' & E & W); [lia|].
    replace (set_ram st (ram st)) with st in E by (destruct st; reflexivity). rewrite E, mbind_Ret. simpl. eauto.
  - assert (-1024 <= i < 0) as Hir by (eapply Hch; left). rewrite (Hslot i Hir). destruct (load_word_window st lo x (lo + (4096 + 4 * i)) Hwin) as (y & ->); [lia..|]. rewrite mbind_Ret.
    destruct (y =? v); cbn [passert]; [rewrite mbind_Ret; apply IH; intros j u Hj; apply (Hch j u); right; exact Hj|exact I].
Qed.

Lemma write_slot_session st SM ND NT DA TA N A d sc sd af checks index w :
  stack_area st SM ND NT DA TA N A d sc sd PROC_KERNEL_STACK_BASE 4096 af -> -1024 <= index < 0 -> (forall i v, (i, v) ∈ checks -> -1024 <= i < 0) ->
  safely (portal_session st d PROC_KERNEL_STACK_BASE 0x1000 (write_slot checks index w) (fun st _ => st)) (fun st' => exists A' x,
    session st st' SM ND NT DA TA N A A' d sc sd PROC_KERNEL_STACK_BASE 4096 af x /\ wrote (ram st) (ram st') (x + (4096 + 4 * index)) (word_bytes w)).
Proof.
  intros Hsa Hi Hch. set (Q := fun x r' (_ : unit) => wrote (ram st) r' (x + (4096 + 4 * index)) (word_bytes w)).
  eapply safely_mono; [apply (with_portal st SM ND NT DA TA N A d sc sd PROC_KERNEL_STACK_BASE af 1 0x1000 _ (fun st _ => st) Q Hsa); [reflexivity|lia|vm_compute; discriminate..|reflexivity|reflexivity|]|].
  - intros st1 x Hwin Er. change (4096 * Z.of_nat 1) with 4096. replace (KERNEL_SCRATCH_BASE + 4096 - 4096) with KERNEL_SCRATCH_BASE in * by lia.
    eapply safely_mono; [exact (write_slot_ok st1 KERNEL_SCRATCH_BASE x (PROC_KERNEL_STACK_BASE - 4096) index w checks Hwin eq_refl Hi Hch)|].
    intros r (r' & -> & W). exists r', 4096. simpl. rewrite Er in W. split; [reflexivity|]. split; [reflexivity|]. split; [exact W|].
    intros y Hy. apply (wrote_out _ _ _ _ _ W). rewrite zlen_word. lia.
  - intros r (st' & b & A' & x & -> & Hs & W). exists A', x. auto.
Qed.

End facts.
End stacks.
