(* ===== verification/Launch.v ===== *)
(** * Starting a program

    A process that is created and given a stack starts its program: the
    interrupt return at the top of its kernel stack leads to the entry point,
    with the stack pointer at a copy of the arguments. *)

From S2P Require Import Prelude Pool PageAlloc KernelDefs Text Vfs Memory MemoryFacts MemoryAreas MemoryFaults MemoryFork Sched Kernel Stacks.
From stdpp Require Import gmap list.
#[local] Open Scope Z_scope.

Module launch.
Import kdefs kernel memory stacks.

Section facts.
Context {V : Type}.
Implicit Types st m : memory.t V.

(** ** Building a space *)

(** Addresses the image of the kernel may take up *)
Definition KERNEL_LIMIT : Z := PROC_KERNEL_STACK_BASE - 0xA000.
Definition in_kernel (v : Z) : Prop := KERNEL_VIRTUAL_BASE <= v < KERNEL_LIMIT.

(** Areas and kernel pages are added to space [d]: nothing else changes. *)
Record grown st st' (SM : gmap Z space_info) (ND NT : Z) (DA TA : gset Z) (d : Z) (sd sd' : space_info) : Prop := {
  gr_wf : exists TA', paging.wf st' (<[d := sd']> SM) ND NT DA TA' /\ forall x, x ∈ TA -> x ∈ TA';
  gr_ok : areas.ok st';
  gr_dir : sp_page_dir sd' = sp_page_dir sd;
  gr_user : user_space_allocator st' = user_space_allocator st;
  gr_current : current_space st' = current_space st;
  gr_ram : ram st' = ram st;
  gr_vstate : vstate st' = vstate st;
  gr_walk : forall h s v, SM !! h = Some s -> h <> d -> 0 <= v < 2 ^ 32 -> paging.walk st' s v = paging.walk st s v;
  gr_low : forall v, 0 <= v < 2 ^ 32 -> ~ in_kernel v -> paging.walk st' sd' v = paging.walk st sd v
}.

Lemma grown_trans st st1 st2 SM ND NT DA TA TA1 d sd sd1 sd2 : grown st st1 SM ND NT DA TA d sd sd1 -> (forall x, x ∈ TA -> x ∈ TA1) ->
  grown st1 st2 (<[d := sd1]> SM) ND NT DA TA1 d sd1 sd2 -> grown st st2 SM ND NT DA TA d sd sd2.
Proof.
  intros [] Hsub []. constructor; try congruence; auto.
  - destruct gr_wf1 as (TA2 & Hwf & H). rewrite insert_insert_eq in Hwf. eauto.
  - intros h s v Hs Hne Hv. rewrite (gr_walk1 h s v), (gr_walk0 h s v); auto. rewrite lookup_insert_ne by congruence. exact Hs.
  - intros v Hv Hk. rewrite gr_low1, gr_low0 by assumption. reflexivity.
Qed.

Lemma grown_refl st SM ND NT DA TA d sd : paging.wf st SM ND NT DA TA -> areas.ok st -> SM !! d = Some sd -> grown st st SM ND NT DA TA d sd sd.
Proof. intros Hwf Hok Hs. constructor; auto. exists TA. rewrite insert_id by exact Hs. auto. Qed.

(** Areas *)
Lemma respaced_grown st st' SM ND NT DA TA d sd sd' : areas.ok st' -> paging.wf st' (<[d := sd']> SM) ND NT DA TA -> sp_page_dir sd' = sp_page_dir sd ->
  faults.respaced st st' -> grown st st' SM ND NT DA TA d sd sd'.
Proof.
  intros Hok Hwf Hd []. constructor; auto.
  - eauto.
  - intros h s v _ _ _. apply faults.walk_same. exact rs_tables.
  - intros v _ _. rewrite (faults.walk_same st st' sd' v rs_tables). apply forking.walk_dir. exact Hd.
Qed.

(** ** The areas of a space *)

(** Bounds, type, flags and, for a mapped file, what is mapped *)
Definition view_of (mf : gmap Z file_map_info) (a : area_info) : Z * Z * Z * Z * option file_map_info :=
  (a_start a, a_end a, a_type a, a_flags a, if a_type a =? AREA_FILE then mf !! a_info a else None).

Definition has_view (sd : space_info) (l : list (Z * Z * Z * Z * option file_map_info)) : Prop :=
  exists ma mf, areas.space_ok sd ma /\ fpm 16 (sp_file_maps sd) mf /\ forall t, t ∈ l <-> exists i a, ma !! i = Some a /\ view_of mf a = t.

Lemma fpm_unique {T} cap (p : fixed_pool T) ma mb : fpm cap p ma -> fpm cap p mb -> ma = mb.
Proof.
  intros Ha Hb. apply map_eq. intros i. pose proof (fpm_get _ _ _ i Ha) as E. rewrite (fpm_get _ _ _ i Hb) in E. destruct (ma !! i), (mb !! i); congruence.
Qed.

Lemma add_area_exact st SM ND NT DA TA d sd a : paging.wf st SM ND NT DA TA -> SM !! d = Some sd ->
  ensures (add_area st d a) (fun r => exists p, paging.wf r.1 (<[d := mk_space (sp_page_dir sd) p (sp_linear_maps sd) (sp_file_maps sd)]> SM) ND NT DA TA /\ faults.respaced st r.1 /\
    forall ma, fpm 32 (sp_areas sd) ma -> fpm 32 p (<[r.2 := a]> ma) /\ ma !! r.2 = None).
Proof.
  intros Hwf Hs. unfold add_area, get_space. rewrite (fpm_get _ _ _ _ (paging.wf_spaces _ _ _ _ _ _ Hwf)), Hs, mbind_Ret.
  eapply ensures_bind; [apply ensures_eq|]. intros [p k] E.
  destruct (faults.update_space_wf st SM ND NT DA TA d sd (fun s => mk_space (sp_page_dir s) p (sp_linear_maps s) (sp_file_maps s)) Hwf Hs eq_refl) as (st' & -> & Hwf' & Hr).
  rewrite mbind_Ret. exists p. split; [exact Hwf'|]. split; [exact Hr|]. intros ma Hma. destruct (fpm_emplace_inv _ _ _ _ _ _ Hma E) as (H1 & H2 & _). auto.
Qed.

Lemma add_area_view st SM ND NT DA TA d sd a : paging.wf st SM ND NT DA TA -> areas.ok st -> SM !! d = Some sd ->
  safely (add_area st d a) (fun r => areas.ok r.1 -> exists sd', grown st r.1 SM ND NT DA TA d sd sd' /\ sp_file_maps sd' = sp_file_maps sd /\
    forall ma, areas.space_ok sd ma -> areas.space_ok sd' (<[r.2 := a]> ma) /\ ma !! r.2 = None).
Proof.
  intros Hwf Hok Hs. pose proof (forking.add_area_safely st d sd a (forking.wf_at _ _ _ _ _ _ _ _ Hwf Hok Hs)) as H1.
  pose proof (add_area_exact st SM ND NT DA TA d sd a Hwf Hs) as H2. destruct (add_area st d a) as [[st' k]| | |]; simpl in *; auto.
  destruct H2 as (p & Hwf' & Hr & Hp). intros Hok'. eexists. split; [apply respaced_grown; [exact Hok'|exact Hwf'|reflexivity|exact Hr]|]. split; [reflexivity|].
  intros ma Hso. destruct (Hp ma (areas.so_areas _ _ Hso)) as [Hp1 Hk]. split; [|exact Hk].
  pose proof (forking.wf_at _ _ _ _ _ _ d _ Hwf' Hok' (lookup_insert_eq _ _ _)) as Hat. destruct (areas.at_space_ok _ _ _ Hat) as [mb Hsob].
  replace (<[k := a]> ma) with mb; [exact Hsob|]. exact (fpm_unique _ _ _ _ (areas.so_areas _ _ Hsob) Hp1).
Qed.

(** Adding to the view *)
Lemma has_view_add sd sd' l k a ma mf mf' : has_view sd l -> areas.space_ok sd ma -> fpm 16 (sp_file_maps sd) mf -> fpm 16 (sp_file_maps sd') mf' ->
  (forall j, is_Some (mf !! j) -> mf' !! j = mf !! j) -> areas.space_ok sd' (<[k := a]> ma) -> ma !! k = None -> has_view sd' (view_of mf' a :: l).
Proof.
  intros (ma0 & mf0 & Hso0 & Hmf0 & Hl) Hso Hmf Hmf' Hkeep Hso' Hk. replace ma0 with ma in * by (eapply forking.space_map_unique; eauto). replace mf0 with mf in * by (eapply fpm_unique; eauto).
  assert (forall i b, ma !! i = Some b -> view_of mf' b = view_of mf b) as Hview.
  { intros i b Hi. unfold view_of. destruct (Z.eqb_spec (a_type b) AREA_FILE) as [Ht|]; [|reflexivity]. rewrite Hkeep; [reflexivity|].
    destruct (areas.so_file _ _ Hso) as (mf1 & Hmf1 & Hf). replace mf1 with mf in * by (eapply fpm_unique; eauto). eauto. }
  exists (<[k := a]> ma), mf'. split; [exact Hso'|]. split; [exact Hmf'|]. intros t. rewrite elem_of_cons, Hl. split.
  - intros [->|(i & b & Hi & <-)]; [exists k, a; split; [apply lookup_insert_eq|reflexivity]|]. exists i, b. split; [rewrite lookup_insert_ne; [exact Hi|congruence]|exact (Hview i b Hi)].
  - intros (i & b & Hi & <-). apply lookup_insert_Some in Hi. destruct Hi as [[_ <-]|[_ Hi]]; [left; reflexivity|right]. exists i, b. split; [exact Hi|]. symmetry. exact (Hview i b Hi).
Qed.

Lemma mem_map_alloc_grown st SM ND NT DA TA d sd a b f : paging.wf st SM ND NT DA TA -> areas.ok st -> SM !! d = Some sd ->
  safely (mem_map_alloc st d a b f) (fun r => exists sd' ma, grown st r.1 SM ND NT DA TA d sd sd' /\ areas.space_ok sd' (<[r.2 := mk_area a b AREA_ALLOC f 0]> ma) /\
    ma !! r.2 = None /\ areas.space_ok sd ma /\ forall l, has_view sd l -> has_view sd' ((a, b, AREA_ALLOC, f, None) :: l)).
Proof.
  intros Hwf Hok Hs. pose proof (areas.mem_map_alloc_ok st d a b f Hok) as H2. revert H2. unfold mem_map_alloc. pose proof (forking.wf_at _ _ _ _ _ _ _ _ Hwf Hok Hs) as Hat.
  pose proof (forking.overlaps_safely st d sd a b Hat) as Ho. destruct (areas.at_space_ok _ _ _ Hat) as [ma Hso].
  destruct (overlaps_existing_area st d a b) as [o| | |]; simpl in Ho; try contradiction; [|intros _; exact I]. rewrite !mbind_Ret. destruct o; cbn [negb passert]; [intros _; exact I|]. rewrite !mbind_Ret.
  pose proof (add_area_view st SM ND NT DA TA d sd (mk_area a b AREA_ALLOC f 0) Hwf Hok Hs) as H. destruct (add_area st d _) as [[st' k]| | |]; simpl in H |- *; auto.
  intros Hadd. destruct (H (areas.added_ok _ _ _ _ _ Hadd)) as (sd' & Hg & Hfm & Hma). destruct (Hma ma Hso) as [Hso' Hk].
  exists sd', ma. split; [exact Hg|]. split; [exact Hso'|]. split; [exact Hk|]. split; [exact Hso|]. intros l Hl. pose proof Hl as (_ & mf & _ & Hmf & _).
  exact (has_view_add sd sd' l k _ ma mf mf Hl Hso Hmf ltac:(rewrite Hfm; exact Hmf) (fun _ _ => eq_refl) Hso' Hk).
Qed.

Lemma mem_map_fd_grown st SM ND NT DA TA d sd a b fd o n f : paging.wf st SM ND NT DA TA -> areas.ok st -> SM !! d = Some sd ->
  safely (mem_map_fd st d a b fd o n f) (fun r => exists sd' ma i, grown st r.1 SM ND NT DA TA d sd sd' /\ areas.space_ok sd' (<[r.2 := i]> ma) /\ ma !! r.2 = None /\ areas.space_ok sd ma /\
    forall l, has_view sd l -> has_view sd' ((a, b, AREA_FILE, f, Some (mk_file fd o n)) :: l)).
Proof.
  intros Hwf Hok Hs. pose proof (areas.mem_map_fd_ok st d a b fd o n f Hok) as H2. revert H2. unfold mem_map_fd.
  pose proof (forking.wf_at _ _ _ _ _ _ _ _ Hwf Hok Hs) as Hat. pose proof (forking.overlaps_safely st d sd a b Hat) as Ho. destruct (areas.at_space_ok _ _ _ Hat) as [ma Hso].
  destruct (overlaps_existing_area st d a b) as [ov| | |]; simpl in Ho; try contradiction; [|intros _; exact I]. rewrite !mbind_Ret. destruct ov; cbn [negb passert]; [intros _; exact I|]. rewrite !mbind_Ret.
  destruct (fd >? 2); cbn [passert]; [|intros _; exact I]. rewrite !mbind_Ret. destruct (areas.so_file _ _ Hso) as (mf & Hmf & _).
  pose proof (areas.add_file_at st d sd ma (mk_file fd o n) Hat Hso) as Hat1. unfold add_file, get_space in *. rewrite (fpm_get _ _ _ _ (paging.wf_spaces _ _ _ _ _ _ Hwf)), Hs, mbind_Ret in *.
  pose proof (forking.emplace_safely _ _ _ (mk_file fd o n) Hmf) as Hem. destruct (pool.emplace_anywhere U16_MAX (sp_file_maps sd) (mk_file fd o n)) as [[p j]| | |] eqn:Ej; simpl in Hem; try contradiction; [|intros _; exact I].
  rewrite !mbind_Ret in *. destruct (fpm_emplace_inv _ _ _ _ _ _ Hmf Ej) as (Hmf' & Hj & _).
  destruct (faults.update_space_wf st SM ND NT DA TA d sd (fun s => mk_space (sp_page_dir s) (sp_areas s) (sp_linear_maps s) p) Hwf Hs eq_refl) as (st1 & E1 & Hwf1 & Hr1).
  rewrite E1 in *. rewrite mbind_Ret in *. simpl in Hat1. destruct Hat1 as (s1 & Hat1 & Hso1 & _). pose proof (areas.at_ok _ _ _ Hat1) as Hok1.
  set (sd1 := mk_space (sp_page_dir sd) (sp_areas sd) (sp_linear_maps sd) p) in *. assert (s1 = sd1) as -> by (apply (forking.at_unique st1 d); [exact Hat1|]; eapply forking.wf_at; [exact Hwf1|exact Hok1|apply lookup_insert_eq]).
  pose proof (respaced_grown st st1 SM ND NT DA TA d sd sd1 Hok1 Hwf1 eq_refl Hr1) as Hg1. set (i := mk_area a b AREA_FILE f j).
  pose proof (add_area_view st1 _ ND NT DA TA d sd1 i Hwf1 Hok1 (lookup_insert_eq _ _ _)) as H. rewrite mbind_Ret. fold i.
  destruct (add_area st1 d i) as [[st' k]| | |]; simpl in H |- *; auto. intros (j' & Hadd).
  destruct (H (areas.added_ok _ _ _ _ _ Hadd)) as (sd' & Hg & Hfm & Hma). destruct (Hma ma Hso1) as [Hso' Hk]. exists sd', ma, i.
  split; [exact (grown_trans _ _ _ _ _ _ _ _ _ _ _ _ _ Hg1 (fun x H => H) Hg)|]. split; [exact Hso'|]. split; [exact Hk|]. split; [exact Hso|]. intros l Hl.
  assert (fpm 16 (sp_file_maps sd') (<[j := mk_file fd o n]> mf)) as Hmf2 by (rewrite Hfm; exact Hmf').
  pose proof (has_view_add sd sd' l k i ma mf _ Hl Hso Hmf Hmf2) as Hv. replace (Some (mk_file fd o n)) with ((<[j := mk_file fd o n]> mf) !! j) by apply lookup_insert_eq.
  apply Hv; [|exact Hso'|exact Hk]. intros h [y Hh]. rewrite lookup_insert_ne; [reflexivity|congruence].
Qed.

(** ** The pages of the kernel *)
Lemma eager_loop_grown SM ND NT DA d sd end_ flags : SM !! d = Some sd -> end_ mod 4096 = 0 -> end_ <= KERNEL_LIMIT ->
  forall n fuel st TA virt phys, (n < fuel)%nat -> (virt < end_ -> end_ = virt + 4096 * Z.of_nat n) -> KERNEL_VIRTUAL_BASE <= virt -> virt mod 4096 = 0 ->
  0 <= phys < 2 ^ 32 -> phys mod 4096 = 0 -> paging.wf st SM ND NT DA TA -> areas.ok st ->
  safely (eager_loop fuel st d virt end_ phys flags) (fun st' => grown st st' SM ND NT DA TA d sd sd).
Proof.
  intros Hs Hea Hel. assert (KERNEL_VIRTUAL_BASE = 3221225472 /\ KERNEL_LIMIT = 3489619968) as [Hkb Hkl] by (split; reflexivity).
  induction n as [|n IH]; intros fuel st TA virt phys Hf Hend Hv Hva Hp Hpa Hwf Hok; (destruct fuel as [|fuel]; [lia|]); cbn [eager_loop].
  - destruct (Z.ltb_spec virt end_); [lia|]. apply grown_refl; assumption.
  - destruct (Z.ltb_spec virt end_) as [Hlt|Hge]; [|apply grown_refl; assumption]. specialize (Hend Hlt).
    pose proof (areas.map_page_keeps st d virt phys (page_flags flags)) as Hkeep. unfold areas.keeps_ in Hkeep.
    pose proof (map_page_out st SM ND NT DA TA d sd virt phys flags Hwf Hs ltac:(lia) Hva Hp Hpa) as Hm.
    destruct (map_page st d virt phys (page_flags flags)) as [st1| | |]; simpl in Hm, Hkeep |- *; auto.
    destruct Hm as ((TA1 & Hwf1 & Hsub1) & [O1 O2 O3 O4 O5 O6] & Hout & _). pose proof (areas.ok_keep _ _ Hkeep Hok) as Hok1.
    rewrite (u32_small (virt + 4096)) by lia.
    eapply safely_mono.
    { apply (IH fuel st1 TA1 (virt + 0x1000) (u32 (phys + 0x1000))); [lia|lia|lia|rewrite Z.add_mod, Hva by lia; reflexivity|apply u32_range| |exact Hwf1|exact Hok1].
      unfold u32. rewrite Z.mod_mod_divide by (exists (2 ^ 20); reflexivity). rewrite Z.add_mod, Hpa by lia. reflexivity. }
    intros st2 Hg. assert (grown st st1 SM ND NT DA TA d sd sd) as Hg1.
    { constructor; auto.
      - exists TA1. rewrite insert_id by exact Hs. auto.
      - intros h s v Hs' Hne Hvr. apply (Hout h s v Hs' Hvr). intros [-> _]. congruence.
      - intros v Hvr Hk. apply (Hout d sd v Hs Hvr). intros [_ E]. apply Hk. apply page_of in E; [|exact Hva]. unfold in_kernel. lia. }
    apply (grown_trans st st1 st2 SM ND NT DA TA TA1 d sd sd sd Hg1 Hsub1). rewrite insert_id by exact Hs. exact Hg.
Qed.

Lemma add_linear_grown st SM ND NT DA TA d sd phys : paging.wf st SM ND NT DA TA -> areas.ok st -> SM !! d = Some sd ->
  safely (add_linear st d phys) (fun r => exists sd', grown st r.1 SM ND NT DA TA d sd sd').
Proof.
  intros Hwf Hok Hs. pose proof (forking.wf_at _ _ _ _ _ _ _ _ Hwf Hok Hs) as Hat. destruct (areas.at_space_ok _ _ _ Hat) as [ma Hso].
  pose proof (forking.add_linear_safely st d sd phys Hat) as H1. pose proof (areas.add_linear_at st d sd ma phys Hat Hso) as H2.
  unfold add_linear, get_space in *. rewrite (fpm_get _ _ _ _ (paging.wf_spaces _ _ _ _ _ _ Hwf)), Hs, mbind_Ret in *.
  destruct (pool.emplace_anywhere U16_MAX (sp_linear_maps sd) (mk_linear phys)) as [[p k]| | |]; [|exact I|destruct H1..]. rewrite !mbind_Ret in *.
  destruct (faults.update_space_wf st SM ND NT DA TA d sd (fun s => mk_space (sp_page_dir s) (sp_areas s) p (sp_file_maps s)) Hwf Hs eq_refl) as (st' & E & Hwf' & Hr).
  rewrite E in *. rewrite mbind_Ret in *. simpl in H2 |- *. destruct H2 as (s' & Hat' & _). eexists. apply respaced_grown; [exact (areas.at_ok _ _ _ Hat')|exact Hwf'|reflexivity|exact Hr].
Qed.

Lemma eager_grown st SM ND NT DA TA d sd start end_ flags : paging.wf st SM ND NT DA TA -> areas.ok st -> SM !! d = Some sd ->
  KERNEL_VIRTUAL_BASE <= start -> start mod 4096 = 0 -> end_ mod 4096 = 0 -> end_ <= KERNEL_LIMIT -> start <= KERNEL_LIMIT ->
  safely (mem_map_linear_eager st d start end_ (KERNVIRT2PHYS start) flags) (fun r => exists sd', grown st r.1 SM ND NT DA TA d sd sd').
Proof.
  intros Hwf Hok Hs Hst Hsa Hea Hel Hsl. assert (KERNEL_VIRTUAL_BASE = 3221225472 /\ KERNEL_LIMIT = 3489619968) as [Hkb Hkl] by (split; reflexivity).
  pose proof (areas.mem_map_linear_eager_ok st d start end_ (KERNVIRT2PHYS start) flags Hok) as Hend. revert Hend. unfold mem_map_linear_eager.
  pose proof (forking.overlaps_safely st d sd start end_ (forking.wf_at _ _ _ _ _ _ _ _ Hwf Hok Hs)) as Ho.
  destruct (overlaps_existing_area st d start end_) as [o| | |]; simpl in Ho; try contradiction; [|intros _; exact I]. rewrite !mbind_Ret. destruct o; cbn [negb passert]; [intros _; exact I|]. rewrite !mbind_Ret.
  assert (0 <= KERNVIRT2PHYS start < 2 ^ 32 /\ KERNVIRT2PHYS start mod 4096 = 0) as [Hp Hpa].
  { unfold KERNVIRT2PHYS. split; [apply u32_range|]. rewrite u32_small by lia. dlia. }
  pose proof (eager_loop_grown SM ND NT DA d sd end_ flags Hs Hea Hel (Z.to_nat ((end_ - start) / 4096)) (page_rounds start end_) st TA start (KERNVIRT2PHYS start)) as Hl.
  destruct (eager_loop (page_rounds start end_) st d start end_ (KERNVIRT2PHYS start) flags) as [st1| | |]; simpl in Hl |- *; [| intros _; first [exact I | apply Hl; auto; unfold page_rounds; dlia]..].
  destruct Hl as [(TA1 & Hwf1 & Hsub1) Hok1 Hd1 Hu1 Hc1 Hr1 Hv1 Hw1 Hlo1]; auto; [unfold page_rounds; dlia|intros; dlia|].
  assert (grown st st1 SM ND NT DA TA d sd sd) as Hg1 by (constructor; eauto). rewrite insert_id in Hwf1 by exact Hs.
  pose proof (add_linear_grown st1 SM ND NT DA TA1 d sd (KERNVIRT2PHYS start) Hwf1 Hok1 Hs) as Hl2.
  destruct (add_linear st1 d (KERNVIRT2PHYS start)) as [[st2 k]| | |]; simpl in Hl2 |- *; [|intros _; exact Hl2..]. destruct Hl2 as (sd2 & Hg2).
  pose proof (gr_wf _ _ _ _ _ _ _ _ _ _ Hg2) as (TA2 & Hwf2 & Hsub2).
  pose proof (add_area_view st2 (<[d := sd2]> SM) ND NT DA TA2 d sd2 (mk_area start end_ AREA_LINEAR_MAP flags k) Hwf2 (gr_ok _ _ _ _ _ _ _ _ _ _ Hg2) (lookup_insert_eq _ _ _)) as Hl3.
  destruct (add_area st2 d _) as [[st3 j]| | |]; simpl in Hl3 |- *; [|intros _; exact Hl3..]. intros (k' & Hadd).
  destruct Hl3 as (sd3 & Hg3 & _); [exact (areas.added_ok _ _ _ _ _ Hadd)|]. exists sd3.
  apply (grown_trans st st1 st3 SM ND NT DA TA TA1 d sd sd sd3 Hg1 Hsub1). rewrite insert_id by exact Hs.
  exact (grown_trans st1 st2 st3 SM ND NT DA TA1 TA2 d sd sd2 sd3 Hg2 Hsub2 Hg3).
Qed.

(** Addresses the linker and the boot loader give, and where the allocator
    keeps its books: all of the image lies below the stacks of the kernel. *)
Definition page_in_kernel (v : Z) : Prop := KERNEL_VIRTUAL_BASE <= v <= KERNEL_LIMIT /\ v mod 4096 = 0.

Fixpoint segments_in_kernel (segments : list (Z * Z)) (current last : Z) : Prop :=
  match segments with
  | [] => True
  | (virt, flags) :: segments' =>
      (virt <> current -> last <> -1 -> page_in_kernel current /\ page_in_kernel virt) /\ segments_in_kernel segments' virt flags
  end.

Lemma map_segments_grown d segments : forall st SM ND NT DA TA sd current last, paging.wf st SM ND NT DA TA -> areas.ok st -> SM !! d = Some sd ->
  segments_in_kernel segments current last ->
  safely (map_segments st d segments current last) (fun st' => exists sd', grown st st' SM ND NT DA TA d sd sd').
Proof.
  induction segments as [|[virt flags] segments IH]; intros st SM ND NT DA TA sd current last Hwf Hok Hs Hall; cbn [map_segments].
  { simpl. exists sd. apply grown_refl; assumption. }
  destruct Hall as [Hseg Hall].
  assert (safely (if negb (virt =? current) && negb (last =? -1) then
              '(st, _) ← mem_map_linear_eager st d current virt (KERNVIRT2PHYS current) (u16 last); passert (virt >=? current);; Ret st
            else Ret st) (fun st' => exists sd', grown st st' SM ND NT DA TA d sd sd')) as Hstep.
  { destruct (Z.eqb_spec virt current) as [->|Hv]; [cbn; exists sd; apply grown_refl; assumption|]. destruct (Z.eqb_spec last (-1)) as [->|Hl]; [cbn; exists sd; apply grown_refl; assumption|].
    cbn [negb andb]. destruct (Hseg Hv Hl) as [[[? ?] ?] [[? ?] ?]].
    eapply safely_bind; [apply (eager_grown st SM ND NT DA TA d sd current virt (u16 last)); assumption|]. intros [st1 k] (sd1 & Hg). simpl in Hg.
    destruct (virt >=? current); simpl; eauto. }
  eapply safely_bind; [exact Hstep|]. intros st1 (sd1 & Hg1). destruct (gr_wf _ _ _ _ _ _ _ _ _ _ Hg1) as (TA1 & Hwf1 & Hsub1).
  eapply safely_mono; [apply (IH st1 (<[d := sd1]> SM) ND NT DA TA1 sd1 virt flags Hwf1 (gr_ok _ _ _ _ _ _ _ _ _ _ Hg1) (lookup_insert_eq _ _ _) Hall)|].
  intros st2 (sd2 & Hg2). exists sd2. exact (grown_trans _ _ _ _ _ _ _ _ _ _ _ _ _ Hg1 Hsub1 Hg2).
Qed.

(** The image of the kernel, as linked, and the books of the allocator *)
Record linked st (start_READONLY stop_READONLY kernel_end multiboot_last : Z) : Prop := {
  li_ro : page_in_kernel (ALIGN_UP start_READONLY 0x1000);
  li_stop : page_in_kernel (ALIGN_DOWN stop_READONLY 0x1000);
  li_end : page_in_kernel (ALIGN_UP (Z.max multiboot_last kernel_end) 0x1000);
  li_books : forall a, user_space_allocator st = Some a -> page_in_kernel (PHYS2KERNVIRT (page_allocator.start (page_allocator.phys_bookkeeping a))) /\
    page_in_kernel (PHYS2KERNVIRT (page_allocator.end_ (page_allocator.phys_bookkeeping a)))
}.

Lemma mem_map_kernel_grown st SM ND NT DA TA d sd flags start_READONLY stop_READONLY kernel_end multiboot_last : paging.wf st SM ND NT DA TA -> areas.ok st -> SM !! d = Some sd ->
  linked st start_READONLY stop_READONLY kernel_end multiboot_last ->
  safely (mem_map_kernel st d flags start_READONLY stop_READONLY kernel_end multiboot_last) (fun st' => exists sd', grown st st' SM ND NT DA TA d sd sd').
Proof.
  intros Hwf Hok Hs [H1 H2 H3 H4]. unfold mem_map_kernel. destruct (user_space_allocator st) as [a|] eqn:Ea; [|exact I]. destruct (H4 a eq_refl) as [H5 H6].
  apply map_segments_grown; [assumption..|]. assert (page_in_kernel KERNEL_VIRTUAL_BASE) as H0 by (split; [vm_compute; split; discriminate|reflexivity]).
  cbn [segments_in_kernel]. repeat split; try congruence; intros; first [apply H0 | apply H1 | apply H2 | apply H3 | apply H5 | apply H6 | idtac].
Qed.

(** ** The stacks of a new space *)

(** [m] comes from [m0] by building the space [d]: the other spaces keep their
    pages (the scratch window of the current one aside), and no page that was
    held has changed. *)
Record building m0 m (SM : gmap Z space_info) (ND NT : Z) (DA : gset Z) (N : Z) (A0 A : gset Z) (d : Z) (sd : space_info) : Prop := {
  bu_new : SM !! d = None;
  bu_wf : exists TA, paging.wf m (<[d := sd]> SM) ND NT DA TA;
  bu_ok : areas.ok m;
  bu_holds : forking.holds m N A;
  bu_sub : forall x, x ∈ A0 -> x ∈ A;
  bu_current : current_space m = current_space m0;
  bu_ram : forall x o, x ∈ A0 -> 0 <= o < 4096 -> ram m (x + o) = ram m0 (x + o);
  bu_walk : forall h s v, SM !! h = Some s -> 0 <= v < 2 ^ 32 -> ~ (h = current_space m0 /\ KERNEL_SCRATCH_BASE <= v < KERNEL_SCRATCH_BASE + 0xA000) ->
    paging.walk m s v = paging.walk m0 s v;
  bu_books : books m = books m0
}.

Lemma building_grown m0 m m' SM ND NT DA TA N A0 A d sd sd' : building m0 m SM ND NT DA N A0 A d sd -> 
  grown m m' (<[d := sd]> SM) ND NT DA TA d sd sd' -> building m0 m' SM ND NT DA N A0 A d sd'.
Proof.
  intros [] []. constructor; auto; try congruence.
  - destruct gr_wf0 as (TA' & Hwf & _). rewrite insert_insert_eq in Hwf. eauto.
  - destruct bu_holds0 as (u & Hu & Hr). exists u. split; [congruence|exact Hr].
  - intros x o Hx Ho. rewrite gr_ram0. auto.
  - intros h s v Hs Hv Hn. rewrite (gr_walk0 h s v); [eauto|rewrite lookup_insert_ne; [exact Hs|congruence]|congruence|exact Hv].
  - rewrite (books_same _ _ gr_user0). exact bu_books0.
Qed.

(** A page of the stack: absent before, or taken since the start *)
Definition own_page m (A0 : gset Z) (sd : space_info) (v : Z) : Prop :=
  paging.walk m sd v = None \/ exists e, paging.walk m sd v = Some e /\ (pte_frame e ∉ A0).

Lemma session_frame m m' SM ND NT DA TA N A A' d sc sd base L af x A0 : session m m' SM ND NT DA TA N A A' d sc sd base L af x -> (forall y, y ∈ A0 -> y ∈ A) ->
  4096 <= L -> L mod 4096 = 0 -> own_page m A0 sd (base - 4096) -> (x ∉ A0) /\ 0 <= x < 2 ^ 32 /\ x mod 4096 = 0.
Proof.
  intros Hs Hsub HL HLa Hown. destruct (ss_top _ _ _ _ _ _ _ _ _ _ _ _ _ _ _ _ _ Hs) as (e & He & <-). split; [|apply forking.pte_frame_aligned].
  destruct (ss_page _ _ _ _ _ _ _ _ _ _ _ _ _ _ _ _ _ Hs (L - 4096)) as (e' & He' & Ho); [lia|dlia|]. replace (base - L + (L - 4096)) with (base - 4096) in * by lia. replace e' with e in * by congruence.
  destruct Hown as [Hn|(e2 & H2 & H3)]; destruct Ho as [Ho|(Ho & Hf & _)]; [congruence|intros Hx; exact (Hf (Hsub _ Hx))|congruence|congruence].
Qed.

Lemma building_session m0 m m' SM ND NT DA TA N A0 A A' d sc sd base L af x : building m0 m SM ND NT DA N A0 A d sd ->
  session m m' (<[d := sd]> SM) ND NT DA TA N A A' d sc sd base L af x -> 4096 <= L <= 0xA000 -> L mod 4096 = 0 -> own_page m A0 sd (base - 4096) ->
  (forall y, y ∈ A0 -> 0 <= y /\ y mod 4096 = 0) -> building m0 m' SM ND NT DA N A0 A' d sd.
Proof.
  intros Hb Hs HL HLa Hown HA0. destruct (session_frame m m' _ _ _ _ _ _ _ _ _ _ _ _ _ _ _ A0 Hs (bu_sub _ _ _ _ _ _ _ _ _ _ _ Hb) ltac:(lia) HLa Hown) as (Hx & Hxr & Hxa).
  destruct Hb, Hs. constructor; auto; try congruence.
  - destruct ss_wf0 as (TA' & Hwf & _). eauto.
  - eapply areas.ok_keep; eauto.
  - intros y o Hy Ho. rewrite ss_ram0; [auto|]. destruct (HA0 y Hy) as [_ Hya]. apply forking.pages_apart; auto. congruence.
  - intros h s v Hs Hv Hn. rewrite (ss_walk0 h s v).
    + eauto.
    + rewrite lookup_insert_ne; [exact Hs|congruence].
    + exact Hv.
    + intros [-> ?]. apply Hn. split; [congruence|lia].
    + intros [-> _]. congruence.
Qed.

(** The current space is one of the others, or the one that is built. *)
Definition has_current m0 (SM : gmap Z space_info) (d : Z) : Prop := current_space m0 = d \/ is_Some (SM !! current_space m0).

Lemma has_current_space m0 SM d sd : has_current m0 SM d -> exists sc, (<[d := sd]> SM) !! current_space m0 = Some sc.
Proof.
  intros [->|[sc Hsc]]; [exists sd; apply lookup_insert_eq|]. destruct (decide (d = current_space m0)) as [->|Hne]; [exists sd; apply lookup_insert_eq|].
  exists sc. rewrite lookup_insert_ne by exact Hne. exact Hsc.
Qed.

(** A stack area in the space under construction *)
Lemma building_area m0 m m' SM ND NT DA TA N A0 A d sd sd' ma k a b af : building m0 m SM ND NT DA N A0 A d sd -> has_current m0 SM d ->
  grown m m' (<[d := sd]> SM) ND NT DA TA d sd sd' -> areas.space_ok sd' (<[k := mk_area a b AREA_ALLOC af 0]> ma) -> forall L, 0 < L -> a <= b - L ->
  exists TA' sc, stack_area m' (<[d := sd']> SM) ND NT DA TA' N A d sc sd' b L af.
Proof.
  intros Hb Hsc Hg Hso L HL Hab. pose proof (building_grown _ _ _ _ _ _ _ _ _ _ _ _ _ _ Hb Hg) as [H0 (TA' & Hwf) H2 H3 H4 H5 H6 H7 _]. destruct (has_current_space m0 SM d sd' Hsc) as [sc Hc]. exists TA', sc. constructor; auto.
  - rewrite H5. exact Hc.
  - apply lookup_insert_eq.
  - exists (<[k := mk_area a b AREA_ALLOC af 0]> ma), k, (mk_area a b AREA_ALLOC af 0). split; [exact Hso|]. split; [apply lookup_insert_eq|].
    unfold areas.covers. cbn. repeat split; lia.
Qed.

(** An anonymous area over the [L] bytes below [base] *)
Definition has_stack (sd : space_info) (base L af : Z) : Prop :=
  exists ma i a, areas.space_ok sd ma /\ ma !! i = Some a /\ a_type a = AREA_ALLOC /\ a_flags a = af /\ areas.covers a (base - L) /\ areas.covers a (base - 1).

Lemma has_stack_add sd sd' base L af k a ma : has_stack sd base L af -> areas.space_ok sd ma -> ma !! k = None -> areas.space_ok sd' (<[k := a]> ma) -> has_stack sd' base L af.
Proof.
  intros (mb & i & b & Hso & Hi & H) Hso' Hk Hnew. replace mb with ma in * by (eapply forking.space_map_unique; eauto).
  exists (<[k := a]> ma), i, b. split; [exact Hnew|]. split; [rewrite lookup_insert_ne; [exact Hi|congruence]|exact H].
Qed.

Lemma new_stack sd' base top af k ma L : areas.space_ok sd' (<[k := mk_area base top AREA_ALLOC af 0]> ma) -> 0 < L -> base <= top - L -> has_stack sd' top L af.
Proof.
  intros Hso HL Hb. eexists _, k, _. split; [exact Hso|]. split; [apply lookup_insert_eq|]. unfold areas.covers. cbn. repeat split; lia.
Qed.

(** The top page of the kernel stack: frame [x], holding the words [ws] *)
Record kernel_stack m (sd : space_info) (A0 A : gset Z) (x : Z) (ws : list Z) : Prop := {
  ks_area : has_stack sd PROC_KERNEL_STACK_BASE 4096 kernel_stack_flags;
  ks_page : exists e, paging.walk m sd (PROC_KERNEL_STACK_BASE - 4096) = Some e /\ pte_frame e = x;
  ks_own : (x ∉ A0) /\ x ∈ A /\ x mod 4096 = 0;
  ks_frame : frame_at (ram m) x ws
}.

Definition pages_ok (A0 : gset Z) : Prop := forall y, y ∈ A0 -> 0 <= y /\ y mod 4096 = 0.

Lemma kernel_stack_built m0 m SM ND NT DA N A0 A d sd switch regs : building m0 m SM ND NT DA N A0 A d sd -> has_current m0 SM d -> pages_ok A0 ->
  paging.walk m sd (PROC_KERNEL_STACK_BASE - 4096) = None ->
  safely ('(m, _) ← mem_map_alloc m d (PROC_KERNEL_STACK_BASE - 0x1000 * 10) PROC_KERNEL_STACK_BASE kernel_stack_flags; write_kernel_stack switch m d regs) (fun r =>
    r.2 = PROC_KERNEL_STACK_BASE - frame_size /\ exists A' sd' x, building m0 r.1 SM ND NT DA N A0 A' d sd' /\ kernel_stack r.1 sd' A0 A' x (kernel_frame switch regs) /\
    (forall v, 0 <= v < KERNEL_VIRTUAL_BASE -> paging.walk r.1 sd' v = paging.walk m sd v) /\ vstate r.1 = vstate m).
Proof.
  intros Hb Hsc HA0 Hnone. destruct (bu_wf _ _ _ _ _ _ _ _ _ _ _ Hb) as (TA & Hwf).
  assert (KERNEL_VIRTUAL_BASE = 3221225472 /\ PROC_KERNEL_STACK_BASE = 3489660928 /\ KERNEL_LIMIT = 3489619968) as (Hkb & Hks & Hkl) by (repeat split; reflexivity).
  eapply safely_bind; [apply (mem_map_alloc_grown m (<[d := sd]> SM) ND NT DA TA d sd _ _ _ Hwf (bu_ok _ _ _ _ _ _ _ _ _ _ _ Hb) (lookup_insert_eq _ _ _))|].
  intros [m1 k] (sd1 & ma & Hg & Hso & Hk & _). cbn [fst snd] in *. pose proof (building_grown _ _ _ _ _ _ _ _ _ _ _ _ _ _ Hb Hg) as Hb1.
  destruct (building_area _ _ _ _ _ _ _ _ _ _ _ _ _ _ _ _ _ _ _ Hb Hsc Hg Hso 0xA000 ltac:(lia) ltac:(lia)) as (TA1 & sc & Hsa).
  eapply safely_mono; [exact (write_kernel_stack_ok switch m1 _ ND NT DA TA1 N A d sc sd1 _ regs Hsa)|].
  intros [m2 sp] (-> & A' & x & Hs & Hf). cbn [fst snd] in *. split; [reflexivity|].
  assert (paging.walk m1 sd1 (PROC_KERNEL_STACK_BASE - 4096) = None) as Hn1 by (rewrite (gr_low _ _ _ _ _ _ _ _ _ _ Hg); [exact Hnone|lia|unfold in_kernel; lia]).
  destruct (session_frame _ _ _ _ _ _ _ _ _ _ _ _ _ _ _ _ _ A0 Hs (bu_sub _ _ _ _ _ _ _ _ _ _ _ Hb1) ltac:(lia) eq_refl (or_introl Hn1)) as (Hx & Hxr & Hxa).
  exists A', sd1, x. split; [exact (building_session m0 m1 m2 SM ND NT DA TA1 N A0 A A' d sc sd1 _ _ _ x Hb1 Hs ltac:(lia) eq_refl (or_introl Hn1) HA0)|]. split.
  - constructor; [eapply new_stack; [exact Hso|lia|lia]|exact (ss_top _ _ _ _ _ _ _ _ _ _ _ _ _ _ _ _ _ Hs)| |exact Hf]. split; [exact Hx|]. split; [|exact Hxa].
    destruct (ss_top _ _ _ _ _ _ _ _ _ _ _ _ _ _ _ _ _ Hs) as (e & He & <-). destruct (ss_page _ _ _ _ _ _ _ _ _ _ _ _ _ _ _ _ _ Hs (0xA000 - 4096)) as (e' & He' & [Ho|(_ & _ & Hin & _)]); [lia|reflexivity| |].
    + replace (PROC_KERNEL_STACK_BASE - 0xA000 + (0xA000 - 4096)) with (PROC_KERNEL_STACK_BASE - 4096) in Ho by lia. congruence.
    + replace (PROC_KERNEL_STACK_BASE - 0xA000 + (0xA000 - 4096)) with (PROC_KERNEL_STACK_BASE - 4096) in He' by lia. replace e with e' by congruence. exact Hin.
  - split; [|rewrite (ss_vstate _ _ _ _ _ _ _ _ _ _ _ _ _ _ _ _ _ Hs); exact (gr_vstate _ _ _ _ _ _ _ _ _ _ Hg)].
    intros v Hv. rewrite (ss_walk _ _ _ _ _ _ _ _ _ _ _ _ _ _ _ _ _ Hs d sd1 v); [apply (gr_low _ _ _ _ _ _ _ _ _ _ Hg); [lia|unfold in_kernel; lia]|apply lookup_insert_eq|lia| |intros [_ ?]; lia].
    intros [_ ?]. assert (KERNEL_SCRATCH_BASE = 3758096384) by reflexivity. lia.
Qed.

Lemma frame_at_keep (r r' : Z -> Z) x ws : frame_at r x ws -> zlen ws <= 1024 -> (forall o, 0 <= o < 4096 -> r' (x + o) = r (x + o)) -> frame_at r' x ws.
Proof.
  intros Hf Hl Hk i w Hi. pose proof (znth_Some_lt _ _ _ Hi). apply (bytes_at_keep r); [exact (Hf i w Hi)|]. rewrite zlen_word. intros y Hy.
  replace y with (x + (y - x)) by lia. apply Hk. lia.
Qed.

(** A word of the frame is overwritten. *)
Lemma frame_at_set (r r' : Z -> Z) x ws i w : frame_at r x ws -> zlen ws <= 1024 -> 0 <= i < zlen ws -> wrote r r' (x + (4096 - 4 * (i + 1))) (word_bytes w) -> frame_at r' x (zset ws i w).
Proof.
  intros Hf Hl Hi Hw j u Hj. destruct (decide (j = i)) as [->|Hne].
  - rewrite znth_zset_eq in Hj by exact Hi. injection Hj as <-. exact (wrote_at _ _ _ _ Hw).
  - rewrite znth_zset_ne in Hj by congruence. pose proof (znth_Some_lt _ _ _ Hj). apply (bytes_at_keep r); [exact (Hf j u Hj)|].
    rewrite zlen_word. intros y Hy. apply (wrote_out _ _ _ _ _ Hw). rewrite zlen_word. lia.
Qed.

(** The user stack: frame [x] holds the image of the arguments. *)
Record user_stack m (sd : space_info) (A0 : gset Z) (x ret : Z) (args : list (list Z)) : Prop := {
  us_page : exists e, paging.walk m sd (USER_SPACE_STACK_BASE - 4096) = Some e /\ pte_frame e = x;
  us_own : (x ∉ A0) /\ x mod 4096 = 0;
  us_image : args_image (ram m) x USER_SPACE_STACK_BASE ret args (4096 - stack_used args)
}.

Lemma args_image_keep (r r' : Z -> Z) x te ret args sp : args_image r x te ret args sp -> sp + 12 <= 4096 - 4 * zlen args ->
  (forall o, 0 <= o < 4096 -> r' (x + o) = r (x + o)) -> args_image r' x te ret args sp.
Proof.
  intros [H1 H2 H3 H4 H5] Hsp Hk. pose proof (zlen_nonneg args). assert (forall p data, 0 <= p -> p + zlen data <= 4096 -> bytes_at r (x + p) data -> bytes_at r' (x + p) data) as Hkeep.
  { intros p data Hp Hl Hb. apply (bytes_at_keep r); [exact Hb|]. intros y Hy. replace y with (x + (y - x)) by lia. apply Hk. lia. }
  constructor; auto.
  - apply Hkeep; [lia|rewrite zlen_word; lia|exact H2].
  - rewrite <-Z.add_assoc in *. apply Hkeep; [lia|rewrite zlen_word; lia|exact H3].
  - rewrite <-Z.add_assoc in *. apply Hkeep; [lia|rewrite zlen_word; lia|exact H4].
  - intros j a Hj. pose proof (znth_Some_lt _ _ _ Hj). destruct (H5 j a Hj) as (q & Hq & G1 & G2 & G3). pose proof (zlen_nonneg a). exists q. split; [exact Hq|]. split; [|split; [|exact G3]].
    + apply Hkeep; [lia|rewrite zlen_app; unfold zlen at 2; simpl; lia|exact G1].
    + rewrite <-Z.add_assoc in *. apply Hkeep; [lia|rewrite zlen_word; lia|exact G2].
Qed.

(** [update_userspace_sp] and [set_syscall_ret_ip] *)
Lemma kernel_slot_written m0 m SM ND NT DA N A0 A d sd x ws checks index w : building m0 m SM ND NT DA N A0 A d sd -> has_current m0 SM d -> pages_ok A0 ->
  kernel_stack m sd A0 A x ws -> zlen ws <= 1024 -> - zlen ws <= index < 0 -> (forall i v, (i, v) ∈ checks -> -1024 <= i < 0) ->
  safely (portal_session m d PROC_KERNEL_STACK_BASE 0x1000 (write_slot checks index w) (fun m _ => m)) (fun m' => exists A',
    building m0 m' SM ND NT DA N A0 A' d sd /\ kernel_stack m' sd A0 A' x (zset ws (- index - 1) w) /\
    (forall y, ~ (x <= y < x + 4096) -> ram m' y = ram m y) /\ (forall y, y ∈ A -> y ∈ A') /\ vstate m' = vstate m /\
    forall v, 0 <= v < KERNEL_VIRTUAL_BASE -> paging.walk m' sd v = paging.walk m sd v).
Proof.
  intros Hb Hsc HA0 [Harea (e & He & Hx) (Hx0 & HxA & Hxa) Hf] Hl Hi Hch. destruct (bu_wf _ _ _ _ _ _ _ _ _ _ _ Hb) as (TA & Hwf).
  assert (KERNEL_VIRTUAL_BASE = 3221225472 /\ PROC_KERNEL_STACK_BASE = 3489660928 /\ KERNEL_SCRATCH_BASE = 3758096384) as (Hkb & Hks & Hkl) by (repeat split; reflexivity).
  destruct (has_current_space m0 SM d sd Hsc) as [sc Hc].
  assert (stack_area m (<[d := sd]> SM) ND NT DA TA N A d sc sd PROC_KERNEL_STACK_BASE 4096 kernel_stack_flags) as Hsa.
  { destruct Hb. constructor; auto; [rewrite bu_current0; exact Hc|apply lookup_insert_eq]. }
  eapply safely_mono; [apply (write_slot_session m _ ND NT DA TA N A d sc sd _ checks index w Hsa); [lia|exact Hch]|].
  intros m' (A' & y & Hs & Hw). exists A'. assert (y = x) as ->.
  { destruct (ss_top _ _ _ _ _ _ _ _ _ _ _ _ _ _ _ _ _ Hs) as (e' & He' & <-). destruct (ss_page _ _ _ _ _ _ _ _ _ _ _ _ _ _ _ _ _ Hs 0) as (e2 & H2 & Ho); [lia|reflexivity|].
    replace (PROC_KERNEL_STACK_BASE - 4096 + 0) with (PROC_KERNEL_STACK_BASE - 4096) in * by lia. destruct Ho as [Ho|[Ho _]]; congruence. }
  split; [|split; [|split; [|split; [|split]]]].
  - apply (building_session m0 m m' SM ND NT DA TA N A0 A A' d sc sd PROC_KERNEL_STACK_BASE 4096 kernel_stack_flags x Hb Hs ltac:(lia) eq_refl); [|exact HA0]. right. exists e. rewrite Hx. auto.
  - constructor; auto.
    + destruct (ss_top _ _ _ _ _ _ _ _ _ _ _ _ _ _ _ _ _ Hs) as (e' & He' & Hx'). exists e'. auto.
    + split; [exact Hx0|]. split; [exact (ss_sub _ _ _ _ _ _ _ _ _ _ _ _ _ _ _ _ _ Hs x HxA)|exact Hxa].
    + apply (frame_at_set (ram m)); [exact Hf|exact Hl|lia|]. replace (4096 - 4 * (- index - 1 + 1)) with (4096 + 4 * index) by lia. exact Hw.
  - exact (ss_ram _ _ _ _ _ _ _ _ _ _ _ _ _ _ _ _ _ Hs).
  - exact (ss_sub _ _ _ _ _ _ _ _ _ _ _ _ _ _ _ _ _ Hs).
  - exact (ss_vstate _ _ _ _ _ _ _ _ _ _ _ _ _ _ _ _ _ Hs).
  - intros v Hv. apply (ss_walk _ _ _ _ _ _ _ _ _ _ _ _ _ _ _ _ _ Hs d); [apply lookup_insert_eq|lia|intros [_ ?]; lia|intros [_ ?]; lia].
Qed.

(** The area of the user stack *)
Definition stack_view : Z * Z * Z * Z * option file_map_info :=
  (USER_SPACE_STACK_BASE - 0x1000 * 1024, USER_SPACE_STACK_BASE, AREA_ALLOC, user_stack_flags, None).

(** Like [process::setup_user_stack] *)
Lemma user_stack_built m0 m SM ND NT DA N A0 A d sd x ws cleanup flags argv args : building m0 m SM ND NT DA N A0 A d sd -> has_current m0 SM d -> pages_ok A0 ->
  kernel_stack m sd A0 A x ws -> 2 <= zlen ws <= 1024 -> paging.walk m sd (USER_SPACE_STACK_BASE - 4096) = None -> zlen argv = zlen args -> stack_used args <= 4096 ->
  safely ('(m, _) ← mem_map_alloc m d (USER_SPACE_STACK_BASE - 0x1000 * 1024) USER_SPACE_STACK_BASE user_stack_flags;
          '(m, sp) ← write_user_stack cleanup m d flags argv args; update_userspace_sp m d sp) (fun m' => exists A' sd' y,
    building m0 m' SM ND NT DA N A0 A' d sd' /\ kernel_stack m' sd' A0 A' x (zset ws 1 (USER_SPACE_STACK_BASE - stack_used args)) /\
    user_stack m' sd' A0 y (cleanup_address cleanup flags) args /\ vstate m' = vstate m /\
    forall l, has_view sd l -> has_view sd' (stack_view :: l)).
Proof.
  intros Hb Hsc HA0 Hks Hl Hnone Hargv Hroom. destruct (bu_wf _ _ _ _ _ _ _ _ _ _ _ Hb) as (TA & Hwf).
  assert (KERNEL_VIRTUAL_BASE = 3221225472 /\ PROC_KERNEL_STACK_BASE = 3489660928 /\ KERNEL_LIMIT = 3489619968 /\ USER_SPACE_STACK_BASE = 2952790016 /\ KERNEL_SCRATCH_BASE = 3758096384)
    as (Hkb & Hkst & Hkl & Hub & Hscr) by (repeat split; reflexivity).
  eapply safely_bind; [apply (mem_map_alloc_grown m (<[d := sd]> SM) ND NT DA TA d sd _ _ _ Hwf (bu_ok _ _ _ _ _ _ _ _ _ _ _ Hb) (lookup_insert_eq _ _ _))|].
  intros [m1 k] (sd1 & ma & Hg & Hso & Hk & Hma & Hview). cbn [fst snd] in *. pose proof (building_grown _ _ _ _ _ _ _ _ _ _ _ _ _ _ Hb Hg) as Hb1.
  destruct (building_area _ _ _ _ _ _ _ _ _ _ _ _ _ _ _ _ _ _ _ Hb Hsc Hg Hso 4096 ltac:(lia) ltac:(lia)) as (TA1 & sc & Hsa).
  eapply safely_bind; [exact (write_user_stack_ok cleanup m1 _ ND NT DA TA1 N A d sc sd1 _ flags argv args Hsa Hargv Hroom)|].
  intros [m2 sp] (Esp & A' & y & Hs & Him & _). cbn [fst snd] in *. subst sp.
  assert (paging.walk m1 sd1 (USER_SPACE_STACK_BASE - 4096) = None) as Hn1 by (rewrite (gr_low _ _ _ _ _ _ _ _ _ _ Hg); [exact Hnone|lia|unfold in_kernel; lia]).
  destruct (session_frame _ _ _ _ _ _ _ _ _ _ _ _ _ _ _ _ _ A0 Hs (bu_sub _ _ _ _ _ _ _ _ _ _ _ Hb1) ltac:(lia) eq_refl (or_introl Hn1)) as (Hy & Hyr & Hya).
  destruct (session_frame _ _ _ _ _ _ _ _ _ _ _ _ _ _ _ _ _ A Hs (fun z H => H) ltac:(lia) eq_refl (or_introl Hn1)) as (HyA & _).
  pose proof (building_session m0 m1 m2 SM ND NT DA TA1 N A0 A A' d sc sd1 _ _ _ y Hb1 Hs ltac:(lia) eq_refl (or_introl Hn1) HA0) as Hb2.
  pose proof Hks as [Harea (e & He & Hx) (Hx0 & HxA & Hxa) Hf]. assert (y <> x) as Hyx by congruence.
  assert (kernel_stack m2 sd1 A0 A' x ws) as Hks2.
  { constructor.
    - exact (has_stack_add sd sd1 _ _ _ k _ ma Harea Hma Hk Hso).
    - exists e. split; [|exact Hx]. rewrite (ss_walk _ _ _ _ _ _ _ _ _ _ _ _ _ _ _ _ _ Hs d sd1); [|apply lookup_insert_eq|lia|intros [_ ?]; lia|intros [_ ?]; lia].
      rewrite (gr_low _ _ _ _ _ _ _ _ _ _ Hg); [exact He|lia|unfold in_kernel; lia].
    - split; [exact Hx0|]. split; [exact (ss_sub _ _ _ _ _ _ _ _ _ _ _ _ _ _ _ _ _ Hs x HxA)|exact Hxa].
    - apply (frame_at_keep (ram m)); [exact Hf|lia|]. intros o Ho. rewrite (ss_ram _ _ _ _ _ _ _ _ _ _ _ _ _ _ _ _ _ Hs), (gr_ram _ _ _ _ _ _ _ _ _ _ Hg); [reflexivity|].
      apply forking.pages_apart; assumption. }
  rewrite update_userspace_sp_session.
  eapply safely_mono; [apply (kernel_slot_written m0 m2 SM ND NT DA N A0 A' d sd1 x ws [(-1, USER_DATA_SEL)] (-2) (USER_SPACE_STACK_BASE - stack_used args) Hb2 Hsc HA0 Hks2); [lia|lia|]|].
  { intros i v Hiv. apply list_elem_of_singleton in Hiv. injection Hiv as -> _. lia. }
  intros m3 (A3 & Hb3 & Hks3 & Hram3 & _ & Hvs3 & Hlow3). exists A3, sd1, y. split; [exact Hb3|]. split; [exact Hks3|]. split; [|split; [|exact Hview]].
  2:{ rewrite Hvs3, (ss_vstate _ _ _ _ _ _ _ _ _ _ _ _ _ _ _ _ _ Hs), (gr_vstate _ _ _ _ _ _ _ _ _ _ Hg). reflexivity. }
  constructor.
  - destruct (ss_top _ _ _ _ _ _ _ _ _ _ _ _ _ _ _ _ _ Hs) as (e' & He' & Hy'). exists e'. split; [rewrite Hlow3 by lia; exact He'|exact Hy'].
  - auto.
  - apply (args_image_keep (ram m2)); [exact Him| |].
    + unfold stack_used. pose proof (args_end_le args (4096 - 4 * zlen args)). lia.
    + intros o Ho. apply Hram3. apply forking.pages_apart; auto.
Qed.

(** ** What the process reads *)

(** The bytes of [data] at address [v] of space [d] *)
Definition reads m (d v : Z) (data : list Z) : Prop := forall i b, znth data i = Some b -> load_byte (set_current m d) (v + i) = Ret b.

Lemma reads_page m SM ND NT DA TA d sd p x v data : paging.wf m SM ND NT DA TA -> SM !! d = Some sd -> p mod 4096 = 0 -> 0 <= p -> p + 4096 <= 2 ^ 32 ->
  (exists e, paging.walk m sd p = Some e /\ pte_frame e = x) -> p <= v -> v + zlen data <= p + 4096 -> bytes_at (ram m) (x + (v - p)) data -> reads m d v data.
Proof.
  intros Hwf Hd Hpa Hp0 Hp1 (e & He & Hx) Hv Hl Hb i b Hi. pose proof (znth_Some_lt _ _ _ Hi). destruct (page_offset p (v + i) Hpa) as [Hpg Ho]; [lia|].
  unfold load_byte, get_space. change (spaces (set_current m d)) with (spaces m). change (current_space (set_current m d)) with d.
  rewrite (fpm_get _ _ _ _ (paging.wf_spaces _ _ _ _ _ _ Hwf)), Hd, mbind_Ret.
  assert (paging.wf (set_current m d) SM ND NT DA TA) as Hwf' by (apply (faults.wf_same m); auto).
  rewrite (paging.find_pte_walk _ _ _ _ _ _ d sd (v + i) Hwf' Hd) by lia. rewrite mbind_Ret, (forking.walk_page _ sd (v + i) p) by (lia || exact Hpg).
  rewrite (faults.walk_same m) by reflexivity. rewrite He, Hx, Ho. change (ram (set_current m d)) with (ram m).
  replace (x + (v + i - p)) with (x + (v - p) + i) by lia. rewrite (Hb i b Hi). reflexivity.
Qed.

Lemma reads_word m d v w : reads m d v (word_bytes w) -> 0 <= w < 2 ^ 32 -> load_word (set_current m d) v = Ret w.
Proof.
  intros H Hw. unfold load_word. destruct (znth_lt_Some (word_bytes w) 0) as [b0 H0]; [vm_compute; split; congruence|]. destruct (znth_lt_Some (word_bytes w) 1) as [b1 H1]; [vm_compute; split; congruence|].
  destruct (znth_lt_Some (word_bytes w) 2) as [b2 H2]; [vm_compute; split; congruence|]. destruct (znth_lt_Some (word_bytes w) 3) as [b3 H3]; [vm_compute; split; congruence|].
  pose proof (H 0 b0 H0) as E0. rewrite Z.add_0_r in E0. rewrite E0, (H 1 b1 H1), (H 2 b2 H2), (H 3 b3 H3), !mbind_Ret. f_equal. exact (word_value w b0 b1 b2 b3 Hw H0 H1 H2 H3).
Qed.

(** The frame of the context switch: word [i] below the top of the kernel stack *)
Definition resumes_with m (d : Z) (frame : list Z) : Prop := forall i w, znth frame i = Some w -> load_word (set_current m d) (PROC_KERNEL_STACK_BASE - 4 * (i + 1)) = Ret w.

(** The stack a program starts on: a return address, the number of arguments
    and a vector of pointers to the strings *)
Definition starts_on m (d sp ret : Z) (args : list (list Z)) : Prop :=
  let st := set_current m d in
  load_word st sp = Ret ret /\ load_word st (sp + 4) = Ret (zlen args) /\ exists argv, load_word st (sp + 8) = Ret argv /\
    forall j a, znth args j = Some a -> exists p, load_word st (argv + 4 * j) = Ret p /\ reads m d p (a ++ [0]).

Lemma kernel_stack_resumes m SM ND NT DA TA d sd A0 A x ws : paging.wf m SM ND NT DA TA -> SM !! d = Some sd -> kernel_stack m sd A0 A x ws -> zlen ws <= 1024 ->
  Forall (fun w => 0 <= w < 2 ^ 32) ws -> resumes_with m d ws.
Proof.
  intros Hwf Hd [_ Hpage _ Hf] Hl Hws i w Hi. pose proof (znth_Some_lt _ _ _ Hi). assert (PROC_KERNEL_STACK_BASE = 3489660928) as Hks by reflexivity.
  apply reads_word; [|rewrite Forall_forall in Hws; apply Hws; unfold znth in Hi; destruct (0 <=? i); [|discriminate]; exact (list_elem_of_lookup_2 _ _ _ Hi)].
  apply (reads_page m SM ND NT DA TA d sd (PROC_KERNEL_STACK_BASE - 4096) x); [assumption..|reflexivity|lia|lia|exact Hpage|lia|rewrite zlen_word; lia|].
  replace (x + (PROC_KERNEL_STACK_BASE - 4 * (i + 1) - (PROC_KERNEL_STACK_BASE - 4096))) with (x + (4096 - 4 * (i + 1))) by lia. exact (Hf i w Hi).
Qed.

Lemma user_stack_starts m SM ND NT DA TA d sd A0 x ret args : paging.wf m SM ND NT DA TA -> SM !! d = Some sd -> user_stack m sd A0 x ret args -> stack_used args <= 4096 ->
  0 <= ret < 2 ^ 32 -> starts_on m d (USER_SPACE_STACK_BASE - stack_used args) ret args.
Proof.
  intros Hwf Hd [Hpage _ [Hsp Hret Hargc Hargv Hargs]] Hroom Hr. assert (USER_SPACE_STACK_BASE = 2952790016) as Hub by reflexivity. pose proof (zlen_nonneg args).
  pose proof (args_end_le args (4096 - 4 * zlen args)) as Hle. unfold stack_used in *. set (e := args_end (4096 - 4 * zlen args) args) in *.
  assert (forall o data, 0 <= o -> o + zlen data <= 4096 -> bytes_at (ram m) (x + o) data -> reads m d (USER_SPACE_STACK_BASE - 4096 + o) data) as Hread.
  { intros o data Ho Hl Hb. apply (reads_page m SM ND NT DA TA d sd (USER_SPACE_STACK_BASE - 4096) x); [assumption..|reflexivity|lia|lia|exact Hpage|lia|lia|].
    replace (x + (USER_SPACE_STACK_BASE - 4096 + o - (USER_SPACE_STACK_BASE - 4096))) with (x + o) by lia. exact Hb. }
  rewrite <-!Z.add_assoc in *. unfold starts_on. split; [|split; [|exists (USER_SPACE_STACK_BASE - 4 * zlen args); split]].
  - apply reads_word; [|exact Hr]. replace (USER_SPACE_STACK_BASE - (4096 - e + 12)) with (USER_SPACE_STACK_BASE - 4096 + (4096 - (4096 - e + 12))) by lia. apply Hread; [lia|rewrite zlen_word; lia|exact Hret].
  - apply reads_word; [|lia]. replace (USER_SPACE_STACK_BASE - (4096 - e + 12) + 4) with (USER_SPACE_STACK_BASE - 4096 + (4096 - (4096 - e + 12) + 4)) by lia. apply Hread; [lia|rewrite zlen_word; lia|exact Hargc].
  - apply reads_word; [|lia]. replace (USER_SPACE_STACK_BASE - (4096 - e + 12) + 8) with (USER_SPACE_STACK_BASE - 4096 + (4096 - (4096 - e + 12) + 8)) by lia. apply Hread; [lia|rewrite zlen_word; lia|exact Hargv].
  - intros j a Hj. pose proof (znth_Some_lt _ _ _ Hj). destruct (Hargs j a Hj) as (q & Hq & G1 & G2 & G3). pose proof (zlen_nonneg a). exists (USER_SPACE_STACK_BASE - 4096 + q). rewrite <-Z.add_assoc in *. split.
    + apply reads_word; [|lia]. replace (USER_SPACE_STACK_BASE - 4 * zlen args + 4 * j) with (USER_SPACE_STACK_BASE - 4096 + (4096 - 4 * zlen args + 4 * j)) by lia. apply Hread; [lia|rewrite zlen_word; lia|exact G2].
    + apply Hread; [lia|rewrite zlen_app; unfold zlen at 2; simpl; lia|exact G1].
Qed.

End facts.
(** Words of a frame *)
Lemma words_set (ws : list Z) i w : 0 <= w < 2 ^ 32 -> Forall (fun w => 0 <= w < 2 ^ 32) ws -> Forall (fun w => 0 <= w < 2 ^ 32) (zset ws i w).
Proof.
  intros Hw Hws. apply Forall_forall. intros u Hu. apply list_elem_of_lookup in Hu as [j Hj]. rewrite <-znth_of_nat in Hj. pose proof (znth_Some_lt _ _ _ Hj) as Hr. rewrite zlen_zset in Hr.
  destruct (decide (i = Z.of_nat j)) as [->|Hne]; [rewrite znth_zset_eq in Hj by exact Hr; congruence|].
  rewrite znth_zset_ne in Hj by exact Hne. rewrite znth_of_nat in Hj. rewrite Forall_forall in Hws. apply Hws. exact (list_elem_of_lookup_2 _ _ _ Hj).
Qed.

(** ** Processes *)

Section processes.
Context {D : Type}.
Implicit Type k : kernel.t (D := D).

(** A kernel whose memory is in order, with a current space; [P]: the processes *)
Record machine k (SM : gmap Z space_info) (ND NT : Z) (DA TA : gset Z) (N : Z) (A : gset Z) (P : gmap Z sched.process) : Prop := {
  ma_wf : paging.wf (ms k) SM ND NT DA TA;
  ma_ok : areas.ok (ms k);
  ma_holds : forking.holds (ms k) N A;
  ma_current : is_Some (SM !! current_space (ms k));
  ma_procs : fpm 128 (sched.processes (ps k)) P;
  ma_contexts : exists CM, fpm 64 (vfs.contexts (vstate (ms k))) CM
}.

(** A process in memory that the scheduler can switch to *)
Record launched k k' (SM : gmap Z space_info) (A : gset Z) (P : gmap Z sched.process) (pid d sp : Z) (frame : list Z) (ret : Z) (args : list (list Z)) : Prop := {
  lc_new : P !! pid = None /\ SM !! d = None;
  lc_proc : exists p, sched.proc (ps k') pid = Ret p /\ sched.space_handle p = d /\ sched.kernel_stack_sp p = PROC_KERNEL_STACK_BASE - frame_size;
  lc_others : forall q, q <> pid -> sched.proc (ps k') q = sched.proc (ps k) q;
  lc_resumes : resumes_with (ms k') d frame;
  lc_starts : starts_on (ms k') d sp ret args;
  lc_spaces : forall h s v, SM !! h = Some s -> 0 <= v < 2 ^ 32 -> ~ (h = current_space (ms k) /\ KERNEL_SCRATCH_BASE <= v < KERNEL_SCRATCH_BASE + 0xA000) ->
    paging.walk (ms k') s v = paging.walk (ms k) s v;
  lc_pages : forall x o, x ∈ A -> 0 <= o < 4096 -> ram (ms k') (x + o) = ram (ms k) (x + o);
  lc_space : exists sd, get_space (ms k') d = Ret sd
}.

(** A new process in the table of the scheduler, on no queue yet *)
Definition ready k k' (P : gmap Z sched.process) (pid : Z) : Prop :=
  ps k' = sched.set_processes (ps k) (sched.processes (ps k')) /\
  exists p, fpm 128 (sched.processes (ps k')) (<[pid := p]> P) /\ sched.suspended p = false /\ sched.terminating p = false /\ sched.last_tick p = 0.

Lemma building_vstate {V} (m0 m : memory.t V) SM ND NT DA N A0 A d sd v : building m0 m SM ND NT DA N A0 A d sd -> building m0 (set_vstate m v) SM ND NT DA N A0 A d sd.
Proof.
  intros [H0 (TA & Hwf) H2 H3 H4 H5 H6 H7 H8]. constructor; auto. exists TA. apply (faults.wf_same m); auto.
Qed.

Lemma create_context_safely {E} (v : vfs.t E) CM : fpm 64 (vfs.contexts v) CM -> safely ('(v, r) ← vfs.vfs_create_context v; ctx ← res_value r; Ret (v, ctx)) (fun r => exists CM', fpm 64 (vfs.contexts r.1) CM').
Proof.
  intros H. unfold vfs.vfs_create_context. destruct (pool.full (vfs.contexts v)); [exact I|].
  pose proof (forking.emplace_safely _ _ _ (new_fixed_pool 16 : vfs.context) H) as Hs. destruct (pool.emplace_anywhere U16_MAX (vfs.contexts v) _) as [[p h]| | |] eqn:Ep; simpl in *; auto.
  destruct (fpm_emplace_inv _ _ _ _ _ _ H Ep) as (H' & _). eauto.
Qed.

(** [process::setup_kernel_stack] of a process in a new space *)
Lemma setup_kernel_stack_ok switch m0 k SM ND NT DA N A0 A P d sd pid p regs : building m0 (ms k) SM ND NT DA N A0 A d sd -> has_current m0 SM d -> pages_ok A0 ->
  paging.walk (ms k) sd (PROC_KERNEL_STACK_BASE - 4096) = None -> fpm 128 (sched.processes (ps k)) P -> P !! pid = Some p -> sched.space_handle p = d ->
  safely (setup_kernel_stack switch k pid regs) (fun k' => exists A' sd' x, building m0 (ms k') SM ND NT DA N A0 A' d sd' /\
    kernel_stack (ms k') sd' A0 A' x (kernel_frame switch regs) /\ (forall v, 0 <= v < KERNEL_VIRTUAL_BASE -> paging.walk (ms k') sd' v = paging.walk (ms k) sd v) /\
    fpm 128 (sched.processes (ps k')) (<[pid := sched.set_sp (PROC_KERNEL_STACK_BASE - frame_size) p]> P) /\
    ps k' = sched.set_processes (ps k) (sched.processes (ps k')) /\ vstate (ms k') = vstate (ms k)).
Proof.
  intros Hb Hsc HA0 Hnone HP Hp Hd. unfold setup_kernel_stack, sched.proc. rewrite (fpm_get _ _ _ _ HP), Hp, mbind_Ret, Hd.
  pose proof (kernel_stack_built m0 (ms k) SM ND NT DA N A0 A d sd switch regs Hb Hsc HA0 Hnone) as H.
  destruct (mem_map_alloc (ms k) d _ _ _) as [[m1 i]| | |]; simpl in H |- *; auto. destruct (write_kernel_stack switch m1 d regs) as [[m2 sp]| | |]; simpl in H |- *; auto.
  destruct H as (-> & A' & sd' & x & Hb' & Hks & Hlow & Hv). unfold sched.update.
  destruct (fpm_modify _ _ _ _ _ (sched.set_sp (PROC_KERNEL_STACK_BASE - frame_size)) HP Hp) as (q & -> & Hq & _). simpl. exists A', sd', x. auto 10.
Qed.

(** A process as [proc_create] leaves it: a kernel stack, and no user stack yet *)
Record created m0 k k' (SM : gmap Z space_info) (ND NT : Z) (DA : gset Z) (N : Z) (A : gset Z) (P : gmap Z sched.process) (pid : Z) (frame : list Z) (flags : Z) : Prop := {
  cr_new : P !! pid = None;
  cr_space : exists x d A' sd y ctx, building m0 (ms k') SM ND NT ({[x]} ∪ DA) N A A' d sd /\ kernel_stack (ms k') sd A A' y frame /\
    paging.walk (ms k') sd (USER_SPACE_STACK_BASE - 4096) = None /\
    fpm 128 (sched.processes (ps k')) (<[pid := sched.set_sp (PROC_KERNEL_STACK_BASE - frame_size) (sched.new_process d ctx flags)]> P);
  cr_contexts : exists CM, fpm 64 (vfs.contexts (vstate (ms k'))) CM;
  cr_sched : ps k' = sched.set_processes (ps k) (sched.processes (ps k'))
}.

(** The registers a new process starts with *)
Definition start_regs (flags entry : Z) : isr_registers :=
  if has flags PROC_USER_SPACE then entry_regs USER_CODE_SEL USER_DATA_SEL entry else entry_regs KERNEL_CODE_SEL KERNEL_DATA_SEL entry.

Lemma pages_held {V} (m : memory.t V) N A : forking.holds m N A -> pages_ok A.
Proof. intros Hh y Hy. destruct (forking.held_page m N A y Hh Hy). lia. Qed.

Lemma proc_create_ok switch start_READONLY stop_READONLY kernel_end multiboot_last k SM ND NT DA TA N A P flags entry :
  machine k SM ND NT DA TA N A P -> linked (ms k) start_READONLY stop_READONLY kernel_end multiboot_last ->
  safely (proc_create switch start_READONLY stop_READONLY kernel_end multiboot_last k flags entry) (fun r =>
    created (ms k) k r.1 SM ND NT DA N A P r.2 (kernel_frame switch (Some (start_regs flags entry))) flags).
Proof.
  intros [Hwf Hok Hh Hcur HP (CM & HCM)] Hli. pose proof (pages_held _ _ _ Hh) as HA.
  assert (KERNEL_VIRTUAL_BASE = 3221225472 /\ PROC_KERNEL_STACK_BASE = 3489660928 /\ KERNEL_LIMIT = 3489619968 /\ USER_SPACE_STACK_BASE = 2952790016) as (Hkb & Hkst & Hkl & Hub) by (repeat split; reflexivity).
  unfold proc_create. fold (start_regs flags entry). eapply safely_bind; [exact (forking.create_space_safely (ms k) SM ND NT DA TA Hwf Hok)|].
  intros [m1 d] (x & Hd & Hok1 & Hwf1 & Hempty & Hold & Hu & Hc & Hv & Hr). cbn [fst snd] in *.
  assert (building (ms k) m1 SM ND NT ({[x]} ∪ DA) N A A d (new_space x)) as Hb1.
  { constructor; eauto; [destruct Hh as (u & Hu' & Hrep); exists u; split; [congruence|exact Hrep]|rewrite Hr; reflexivity|exact (books_same _ _ Hu)]. }
  set (mf := Z.lor _ MEM_AREA_RETAIN_EXEC).
  eapply safely_bind; [apply (mem_map_kernel_grown m1 _ ND NT _ TA d (new_space x) mf _ _ _ _ Hwf1 Hok1 (lookup_insert_eq _ _ _))|].
  { destruct Hli as [L1 L2 L3 L4]. constructor; auto. intros a Ha. apply L4. congruence. }
  intros m2 (sd2 & Hg2). pose proof (building_grown _ _ _ _ _ _ _ _ _ _ _ _ _ _ Hb1 Hg2) as Hb2.
  assert (forall v, 0 <= v < 2 ^ 32 -> ~ in_kernel v -> paging.walk m2 sd2 v = None) as Hnone2 by (intros v Hvr Hk; rewrite (gr_low _ _ _ _ _ _ _ _ _ _ Hg2); auto).
  pose proof (create_context_safely (vstate m2) CM) as Hctx. rewrite (gr_vstate _ _ _ _ _ _ _ _ _ _ Hg2), Hv in Hctx |- *. specialize (Hctx HCM).
  destruct (vfs.vfs_create_context (vstate (ms k))) as [[v r]| | |]; simpl in Hctx |- *; auto. destruct (res_value r) as [ctx| | |]; simpl in Hctx |- *; auto. destruct Hctx as (CM' & HCM').
  pose proof (forking.emplace_safely 128 (sched.processes (ps k)) P (sched.new_process d ctx flags) HP) as Hem.
  destruct (pool.emplace_anywhere U16_MAX (sched.processes (ps k)) (sched.new_process d ctx flags)) as [[tab pid]| | |] eqn:Ep; simpl in Hem |- *; auto. clear Hem.
  destruct (fpm_emplace_inv _ _ _ _ _ _ HP Ep) as (HP' & Hnew & _).
  set (k3 := kernel.mk (sched.set_processes (ps k) tab) (set_vstate m2 v)).
  assert (building (ms k) (ms k3) SM ND NT ({[x]} ∪ DA) N A A d sd2) as Hb3 by (apply building_vstate; exact Hb2).
  assert (forall v, 0 <= v < 2 ^ 32 -> ~ in_kernel v -> paging.walk (ms k3) sd2 v = None) as Hnone3 by (intros w Hw Hk; cbn [k3 ms]; rewrite (faults.walk_same m2) by reflexivity; auto).
  eapply safely_bind.
  { apply (setup_kernel_stack_ok switch (ms k) k3 SM ND NT ({[x]} ∪ DA) N A A (<[pid := sched.new_process d ctx flags]> P) d sd2 pid (sched.new_process d ctx flags) _ Hb3 (or_intror Hcur) HA); [apply Hnone3; [lia|unfold in_kernel; lia]|exact HP'|apply lookup_insert_eq|reflexivity]. }
  intros k4 (A' & sd' & y & Hb4 & Hks & Hlow & HP4 & Hps & Hvs). simpl. constructor; [exact Hnew| |exists CM'; rewrite Hvs; exact HCM'|exact Hps]. exists x, d, A', sd', y, ctx. split; [exact Hb4|]. split; [exact Hks|]. split.
  - rewrite Hlow by lia. apply Hnone3; [lia|unfold in_kernel; lia].
  - rewrite insert_insert_eq in HP4. exact HP4.
Qed.

Lemma setup_user_stack_launches cleanup k0 k SM ND NT DA N A P pid frame flags argv args : created (ms k0) k0 k SM ND NT DA N A P pid frame flags -> pages_ok A ->
  is_Some (SM !! current_space (ms k0)) -> fpm 128 (sched.processes (ps k0)) P -> 2 <= zlen frame <= 1024 -> Forall (fun w => 0 <= w < 2 ^ 32) frame -> 0 <= cleanup < 2 ^ 32 ->
  zlen argv = zlen args -> stack_used args <= 4096 ->
  safely (proc_setup_user_stack cleanup k pid argv args) (fun k' => exists d, launched k0 k' SM A P pid d (USER_SPACE_STACK_BASE - stack_used args)
    (zset frame 1 (USER_SPACE_STACK_BASE - stack_used args)) (cleanup_address cleanup flags) args /\ ready k0 k' P pid).
Proof.
  intros [Hnew (x & d & A' & sd & y & ctx & Hb & Hks & Hnone & HP) _ Hps] HA Hcur HP0 Hl Hws Hcl Hargv Hroom. unfold proc_setup_user_stack, setup_user_stack, sched.proc.
  rewrite (fpm_get _ _ _ _ HP), lookup_insert_eq, mbind_Ret. change (sched.space_handle (sched.set_sp _ _)) with d. change (sched.p_flags (sched.set_sp _ _)) with flags.
  pose proof (user_stack_built (ms k0) (ms k) SM ND NT ({[x]} ∪ DA) N A A' d sd y frame cleanup flags argv args Hb (or_intror Hcur) HA Hks Hl Hnone Hargv Hroom) as H.
  destruct (mem_map_alloc (ms k) d _ _ _) as [[m1 i]| | |]; simpl in H |- *; auto. destruct (write_user_stack cleanup m1 d flags argv args) as [[m2 sp]| | |]; simpl in H |- *; auto.
  destruct (update_userspace_sp m2 d sp) as [m3| | |]; simpl in H |- *; auto. destruct H as (A3 & sd3 & z & Hb3 & Hks3 & Hus & _). exists d. destruct (bu_wf _ _ _ _ _ _ _ _ _ _ _ Hb3) as (TA3 & Hwf3).
  assert (USER_SPACE_STACK_BASE = 2952790016) as Hub by reflexivity.
  assert (12 <= stack_used args) as Hused by (unfold stack_used; pose proof (args_end_le args (4096 - 4 * zlen args)); pose proof (zlen_nonneg args); lia).
  split; [|split; [exact Hps|eexists; split; [exact HP|repeat split]]]. constructor.
  - split; [exact Hnew|exact (bu_new _ _ _ _ _ _ _ _ _ _ _ Hb3)].
  - eexists. split; [unfold sched.proc; cbn [set_ms ps]; rewrite (fpm_get _ _ _ _ HP), lookup_insert_eq; reflexivity|]. split; reflexivity.
  - intros q Hq. unfold sched.proc. cbn [set_ms ps]. rewrite (fpm_get _ _ _ _ HP), lookup_insert_ne, (fpm_get _ _ _ _ HP0) by congruence. reflexivity.
  - apply (kernel_stack_resumes m3 _ ND NT _ TA3 d sd3 A A3 y _ Hwf3 (lookup_insert_eq _ _ _) Hks3); [rewrite zlen_zset; lia|].
    apply words_set; [lia|exact Hws].
  - apply (user_stack_starts m3 _ ND NT _ TA3 d sd3 A z _ args Hwf3 (lookup_insert_eq _ _ _) Hus Hroom). unfold cleanup_address. case_match; lia.
  - intros h s v Hs Hv Hn. exact (bu_walk _ _ _ _ _ _ _ _ _ _ _ Hb3 h s v Hs Hv Hn).
  - intros w o Hw Ho. exact (bu_ram _ _ _ _ _ _ _ _ _ _ _ Hb3 w o Hw Ho).
  - exists sd3. unfold get_space. rewrite (fpm_get _ _ _ _ (paging.wf_spaces _ _ _ _ _ _ Hwf3)). cbn [set_ms ms]. rewrite lookup_insert_eq. reflexivity.
Qed.

(** The first process that is enqueued is the one that runs. *)
Lemma first_enqueued (q : sched.t) P pid p : fpm 128 (sched.processes q) P -> P !! pid = Some p -> sched.running_head q = sched.END ->
  exists t, sched.proc_enqueue q pid = Ret (sched.set_head sched.Running (sched.set_processes q t) pid) /\
    fpm 128 t (<[pid := sched.set_prev sched.END (sched.set_next sched.END p)]> P).
Proof.
  intros HP Hp Hr. unfold sched.proc_enqueue, sched.enqueue_front. cbn [sched.head]. rewrite Hr, Z.eqb_refl. cbn [negb]. rewrite mbind_Ret.
  destruct (fpm_modify _ _ _ _ _ (sched.set_next sched.END) HP Hp) as (t1 & E1 & H1 & _). destruct (fpm_modify _ _ _ _ _ (sched.set_prev sched.END) H1 (lookup_insert_eq _ _ _)) as (t2 & E2 & H2 & _).
  rewrite insert_insert_eq in H2. exists t2. split; [|exact H2]. unfold sched.update, sched.head. rewrite Hr, E1, !mbind_Ret. cbn [sched.set_processes sched.processes]. rewrite E2. reflexivity.
Qed.

Lemma first_yields (q : sched.t) P pid p : fpm 128 (sched.processes q) P -> P !! pid = Some p -> sched.running_head q = pid -> sched.next_process p = Some sched.END ->
  sched.current_pid q = sched.END -> sched.suspended p = false -> sched.terminating p = false -> sched.last_tick p = 0 ->
  exists t, let q1 := sched.set_ticks q (u64 (sched.tick_count q + 1)) in sched.proc_yield q = Ret (sched.set_current (sched.set_processes q1 t) pid) /\
    fpm 128 t (<[pid := sched.set_tick (sched.tick_count q1) p]> P).
Proof.
  intros HP Hp Hr Hn Hc Hs Ht Hl. pose proof (fpm_dom_cap _ _ _ _ _ HP Hp) as Hpid. assert (sched.END = 65535) as HE by reflexivity.
  set (q1 := sched.set_ticks q (u64 (sched.tick_count q + 1))). destruct (fpm_modify _ _ _ _ _ (sched.set_tick (sched.tick_count q1)) HP Hp) as (t & E & H & _). exists t. split; [|exact H].
  assert (sched.proc q1 pid = Ret p) as Hget by (unfold sched.proc; change (sched.processes q1) with (sched.processes q); rewrite (fpm_get _ _ _ _ HP), Hp; reflexivity).
  assert (sched.decide_next_process q1 = Ret pid) as Hdec.
  { unfold sched.decide_next_process. change (sched.running_head q1) with (sched.running_head q). rewrite Hr.
    assert (forall f node mt mp, sched.decide_loop (S f) q1 node mt mp = if negb (node =? sched.END) then
      p ← sched.proc q1 node; next ← sched.link (sched.next_process p); sched.decide_loop f q1 next (if sched.last_tick p <? mt then sched.last_tick p else mt) (if sched.last_tick p <? mt then node else mp)
      else Ret mp) as Hstep by reflexivity.
    change 129%nat with (S (S 127)). rewrite Hstep, (proj2 (Z.eqb_neq pid sched.END)) by lia. cbn [negb]. rewrite Hget, mbind_Ret, Hn, Hl. cbn [sched.link]. rewrite mbind_Ret, Hstep, Z.eqb_refl.
    cbn [negb]. change (0 <? 2 ^ 64 - 1) with true. rewrite mbind_Ret, (proj2 (Z.eqb_neq pid sched.END)) by lia. reflexivity. }
  unfold sched.proc_yield. fold q1. change (sched.current_pid q1) with (sched.current_pid q). unfold sched.valid. change (sched.processes q1) with (sched.processes q). rewrite Hc, (fpm_valid _ _ _ _ HP).
  destruct (P !! sched.END) eqn:EE; [pose proof (fpm_dom_cap _ _ _ _ _ HP EE); lia|]. rewrite mbind_Ret, Hdec, mbind_Ret.
  unfold sched.proc_switch, sched.proc_current_pid. change (sched.current_pid q1) with (sched.current_pid q). rewrite Hc, Z.eqb_refl. cbn [negb].
  rewrite bool_decide_eq_false_2, Hget, mbind_Ret, Hs, Ht by discriminate. cbn [negb passert]. rewrite !mbind_Ret.
  unfold sched.switch_process, sched.update. change (sched.processes q1) with (sched.processes q). rewrite E, !mbind_Ret. change (sched.current_pid (sched.set_processes q1 t)) with (sched.current_pid q).
  rewrite Hc, (proj2 (Z.eqb_neq sched.END pid)) by lia. reflexivity.
Qed.

Lemma user_frame_words switch entry : 0 <= switch < 2 ^ 32 -> 0 <= entry < 2 ^ 32 ->
  Forall (fun w => 0 <= w < 2 ^ 32) (kernel_frame switch (Some (entry_regs USER_CODE_SEL USER_DATA_SEL entry))).
Proof. intros. unfold kernel_frame. cbn. repeat (apply Forall_cons_2; [unfold USER_DATA_SEL, USER_CODE_SEL; lia|]). apply Forall_nil_2. Qed.

(** A kernel with nothing to run starts the init program. *)
Lemma start_init_ok switch cleanup start_READONLY stop_READONLY kernel_end multiboot_last k SM ND NT DA TA N A P init_main :
  machine k SM ND NT DA TA N A P -> linked (ms k) start_READONLY stop_READONLY kernel_end multiboot_last ->
  sched.current_pid (ps k) = sched.END -> sched.running_head (ps k) = sched.END ->
  0 <= switch < 2 ^ 32 -> 0 <= cleanup < 2 ^ 32 -> 0 <= init_main < 2 ^ 32 ->
  safely (start_init switch cleanup start_READONLY stop_READONLY kernel_end multiboot_last k init_main) (fun r => exists d,
    sched.current_pid (ps r.1) = r.2 /\ sched.running_head (ps r.1) = r.2 /\ current_space (ms r.1) = d /\ sched.idle_process (ps r.1) = sched.idle_process (ps k) /\
    let sp := USER_SPACE_STACK_BASE - stack_used [] in
    launched k r.1 SM A P r.2 d sp (zset (kernel_frame switch (Some (entry_regs USER_CODE_SEL USER_DATA_SEL init_main))) 1 sp) cleanup []).
Proof.
  intros Hm Hli Hc Hr Hsw Hcl Him. unfold start_init. set (flags := Z.lor PROC_USER_SPACE PROC_KERNEL_ACCESSIBLE).
  eapply safely_bind; [exact (proc_create_ok switch start_READONLY stop_READONLY kernel_end multiboot_last k SM ND NT DA TA N A P flags init_main Hm Hli)|].
  intros [k1 pid] Hcr. cbn [fst snd] in Hcr. change (start_regs flags init_main) with (entry_regs USER_CODE_SEL USER_DATA_SEL init_main) in Hcr.
  set (frame := kernel_frame switch _) in *.
  pose proof (user_frame_words switch init_main Hsw Him) as Hws. fold frame in Hws.
  eapply safely_bind; [exact (setup_user_stack_launches cleanup k k1 SM ND NT DA N A P pid frame flags [] [] Hcr (pages_held _ _ _ (ma_holds _ _ _ _ _ _ _ _ _ Hm)) (ma_current _ _ _ _ _ _ _ _ _ Hm)
    (ma_procs _ _ _ _ _ _ _ _ _ Hm) ltac:(vm_compute; split; discriminate) Hws Hcl eq_refl ltac:(vm_compute; discriminate))|].
  intros k2 (d & [L1 (p0 & Lp & Ld & Lsp) L3 L4 L5 L6 L7 (sd & L8)] & Hps & p & HP & Hs & Ht & Hl).
  assert (sched.current_pid (ps k2) = sched.END /\ sched.running_head (ps k2) = sched.END) as [Hc2 Hr2] by (rewrite Hps; auto).
  destruct (first_enqueued (ps k2) _ pid p HP (lookup_insert_eq _ _ _) Hr2) as (t & -> & Ht1). rewrite mbind_Ret, insert_insert_eq in *. set (q1 := sched.set_head _ _ _).
  unfold proc_run, proc_yield. change (ps (set_ps k2 q1)) with q1.
  destruct (first_yields q1 _ pid _ Ht1 (lookup_insert_eq _ _ _) eq_refl eq_refl Hc2 Hs Ht Hl) as (t2 & -> & Ht2). rewrite mbind_Ret. rewrite insert_insert_eq in Ht2. set (q2 := sched.set_current _ _).
  set (p2 := sched.set_tick _ _) in Ht2. unfold run_sched. change (ps (set_ps k2 q1)) with q1. change (sched.current_pid q2) with pid. change (sched.current_pid q1) with (sched.current_pid (ps k2)). rewrite Hc2.
  pose proof (fpm_dom_cap _ _ _ _ _ HP (lookup_insert_eq _ _ _)) as Hpid. rewrite (proj2 (Z.eqb_neq pid sched.END)) by (unfold sched.END, U16_MAX; lia).
  assert (sched.proc q2 pid = Ret p2) as Hget by (unfold sched.proc; change (sched.processes q2) with t2; rewrite (fpm_get _ _ _ _ Ht2), lookup_insert_eq; reflexivity).
  unfold sched.proc in Lp. rewrite (fpm_get _ _ _ _ HP), lookup_insert_eq in Lp. injection Lp as <-.
  rewrite Hget, mbind_Ret. change (sched.space_handle p2) with (sched.space_handle p). rewrite Ld. change (ms (set_ps k2 q1)) with (ms k2). unfold mem_page_dir. rewrite L8, !mbind_Ret. simpl.
  exists d. do 3 (split; [reflexivity|]). split; [change (sched.idle_process q2) with (sched.idle_process (ps k2)); rewrite Hps; reflexivity|]. constructor.
  - exact L1.
  - exists p2. auto.
  - intros q Hq. rewrite <-L3 by exact Hq. unfold sched.proc. cbn [ps]. change (sched.processes q2) with t2. rewrite (fpm_get _ _ _ _ Ht2), (fpm_get _ _ _ _ HP), !lookup_insert_ne by congruence. reflexivity.
  - exact L4.
  - exact L5.
  - intros h s v H1 H2 H3. rewrite <-(L6 h s v H1 H2 H3). apply faults.walk_same. reflexivity.
  - exact L7.
  - exists sd. exact L8.
Qed.

End processes.
(** ** Loading a program *)

Section programs.
Context {D : Type}.
Implicit Type k : kernel.t (D := D).

(** The areas a program header table asks for *)
Fixpoint segment_views (n : nat) (fd : Z) (pht : list Z) : list (Z * Z * Z * Z * option file_map_info) :=
  match n with
  | O => []
  | S n' =>
      let ph := parse_program_header pht in
      (if p_type ph =? PT_LOAD
       then [(ALIGN_DOWN (p_vaddr ph) 0x1000, ALIGN_UP (u32 (p_vaddr ph + p_memsz ph)) 0x1000, AREA_FILE, segment_flags (kernel.p_flags ph), Some (mk_file fd (p_offset ph) (p_filesz ph)))]
       else []) ++ segment_views n' fd (drop (Z.to_nat PROGRAM_HEADER_SIZE) pht)
  end.

Lemma has_view_perm sd l l' : has_view sd l -> (forall t, t ∈ l' <-> t ∈ l) -> has_view sd l'.
Proof. intros (ma & mf & H1 & H2 & H3) E. exists ma, mf. split; [exact H1|]. split; [exact H2|]. intros t. rewrite E. apply H3. Qed.

Lemma map_program_grown d fd base L af : forall n (m : memory.t (vfs.t D)) SM ND NT DA TA sd pht, paging.wf m SM ND NT DA TA -> areas.ok m -> SM !! d = Some sd -> has_stack sd base L af ->
  safely (map_program n m d fd pht) (fun m' => exists sd', grown m m' SM ND NT DA TA d sd sd' /\ has_stack sd' base L af /\
    forall l, has_view sd l -> has_view sd' (segment_views n fd pht ++ l)).
Proof.
  induction n as [|n IH]; intros m SM ND NT DA TA sd pht Hwf Hok Hs Hst; cbn [map_program segment_views].
  { simpl. exists sd. split; [apply grown_refl; assumption|]. auto. }
  cbv zeta. set (ph := parse_program_header pht).
  assert (safely (if p_type ph =? PT_LOAD then
             '(m, _) ← mem_map_fd m d (ALIGN_DOWN (p_vaddr ph) 0x1000) (ALIGN_UP (u32 (p_vaddr ph + p_memsz ph)) 0x1000) fd (p_offset ph) (p_filesz ph) (segment_flags (kernel.p_flags ph)); Ret m
           else Ret m) (fun m1 => exists sd1, grown m m1 SM ND NT DA TA d sd sd1 /\ has_stack sd1 base L af /\ forall l, has_view sd l ->
             has_view sd1 ((if p_type ph =? PT_LOAD then [(ALIGN_DOWN (p_vaddr ph) 0x1000, ALIGN_UP (u32 (p_vaddr ph + p_memsz ph)) 0x1000, AREA_FILE, segment_flags (kernel.p_flags ph), Some (mk_file fd (p_offset ph) (p_filesz ph)))] else []) ++ l))) as Hstep.
  { destruct (p_type ph =? PT_LOAD).
    - eapply safely_bind; [apply (mem_map_fd_grown m SM ND NT DA TA d sd); assumption|]. intros [m1 j] (sd1 & ma & i & Hg & Hso & Hj & Hma & Hv). simpl in *.
      exists sd1. split; [exact Hg|]. split; [exact (has_stack_add sd sd1 base L af j i ma Hst Hma Hj Hso)|exact Hv].
    - simpl. exists sd. split; [apply grown_refl; assumption|]. auto. }
  eapply safely_bind; [exact Hstep|]. intros m1 (sd1 & Hg1 & Hst1 & Hv1). destruct (gr_wf _ _ _ _ _ _ _ _ _ _ Hg1) as (TA1 & Hwf1 & Hsub1).
  eapply safely_mono; [apply (IH m1 _ ND NT DA TA1 sd1 (drop (Z.to_nat PROGRAM_HEADER_SIZE) pht) Hwf1 (gr_ok _ _ _ _ _ _ _ _ _ _ Hg1) (lookup_insert_eq _ _ _) Hst1)|].
  intros m2 (sd2 & Hg2 & Hst2 & Hv2). exists sd2. split; [exact (grown_trans _ _ _ _ _ _ _ _ _ _ _ _ _ Hg1 Hsub1 Hg2)|]. split; [exact Hst2|].
  intros l Hl. specialize (Hv2 _ (Hv1 l Hl)). eapply has_view_perm; [exact Hv2|]. intros t. rewrite !elem_of_app. tauto.
Qed.

(** A process that is about to load a program: the kernel stack it was
    interrupted with, no page of the user stack yet; [SM]: the other spaces,
    [A0]: pages it does not use itself *)
Record loading k (SM : gmap Z space_info) (ND NT : Z) (DA : gset Z) (N : Z) (A0 A : gset Z) (P : gmap Z sched.process) (pid : Z) (p : sched.process) (sd : space_info) (x : Z) (frame : list Z) : Prop := {
  lo_wf : exists TA, paging.wf (ms k) (<[sched.space_handle p := sd]> SM) ND NT DA TA;
  lo_ok : areas.ok (ms k);
  lo_new : SM !! sched.space_handle p = None;
  lo_holds : forking.holds (ms k) N A;
  lo_sub : forall y, y ∈ A0 -> y ∈ A;
  lo_current : has_current (ms k) SM (sched.space_handle p);
  lo_stack : kernel_stack (ms k) sd A0 A x frame;
  lo_free : paging.walk (ms k) sd (USER_SPACE_STACK_BASE - 4096) = None;
  lo_procs : fpm 128 (sched.processes (ps k)) P;
  lo_proc : P !! pid = Some p;
  lo_frame : 5 <= zlen frame <= 1024 /\ Forall (fun w => 0 <= w < 2 ^ 32) frame
}.

(** The file system finds an executable behind [filename]: header [hdr] and
    program headers [pht], read through descriptor [fd]. *)
Record executable (ext : Z -> vfs.driver D) (junk32 junk64 : list Z) (v v' : vfs.t D) (ctx : Z) (filename : list Z) (fd : Z) (hdr : elf_header) (pht : list Z) : Prop := {
  ex_bytes : exists v1 v2 bytes, vfs.vfs_open ext junk32 v ctx filename 0 = Ret (v1, success fd) /\
    vfs.vfs_read ext junk64 v1 ctx fd ELF_HEADER_SIZE = Ret (v2, success (ELF_HEADER_SIZE, bytes)) /\ hdr = parse_elf_header bytes /\
    vfs.vfs_read ext junk64 v2 ctx fd (PROGRAM_HEADER_SIZE * e_phnum hdr) = Ret (v', success (PROGRAM_HEADER_SIZE * e_phnum hdr, pht));
  ex_ident : ident_ok hdr = Ret true;
  ex_type : e_type hdr = 2;
  ex_entry : 0 <= e_entry hdr < 2 ^ 32
}.

(** The program in memory, when the system call returns *)
Record loaded k k' (SM : gmap Z space_info) (A0 : gset Z) (d : Z) (l : list (Z * Z * Z * Z * option file_map_info)) (v' : vfs.t D) (sp : Z) (frame : list Z) (ret : Z) (args : list (list Z)) : Prop := {
  ld_resumes : resumes_with (ms k') d frame;
  ld_starts : starts_on (ms k') d sp ret args;
  ld_areas : exists sd, get_space (ms k') d = Ret sd /\ has_view sd l;
  ld_procs : ps k' = ps k;
  ld_files : fs k' = v';
  ld_spaces : forall h s v, SM !! h = Some s -> 0 <= v < 2 ^ 32 -> ~ (h = current_space (ms k) /\ KERNEL_SCRATCH_BASE <= v < KERNEL_SCRATCH_BASE + 0xA000) ->
    paging.walk (ms k') s v = paging.walk (ms k) s v;
  ld_pages : forall x o, x ∈ A0 -> 0 <= o < 4096 -> ram (ms k') (x + o) = ram (ms k) (x + o)
}.

(** [exec] from the loader on *)
Definition load_and_start (ext : Z -> vfs.driver D) (junk32 junk64 : list Z) (cleanup : Z) k (pid : Z) (filename : list Z) (argv : list Z) (args : list (list Z)) : outcome (kernel.t * Z) :=
  '(k, result) ← elf_map_process ext junk32 junk64 k pid filename;
  if result <? 0 then Ret (k, result) else k ← proc_setup_user_stack cleanup k pid argv args; Ret (k, 0).

Lemma loading_building k SM ND NT DA N A0 A P pid p sd x frame v : loading k SM ND NT DA N A0 A P pid p sd x frame ->
  building (ms k) (set_vstate (ms k) v) SM ND NT DA N A0 A (sched.space_handle p) sd /\ kernel_stack (set_vstate (ms k) v) sd A0 A x frame.
Proof.
  intros []. split; [apply building_vstate; constructor; auto|]. destruct lo_stack0 as [H1 (e & He & Hx) H3 H4]. constructor; auto.
  exists e. split; [|exact Hx]. rewrite (faults.walk_same (ms k)) by reflexivity. exact He.
Qed.

Lemma kernel_stack_grown {V} (m m' : memory.t V) SM ND NT DA TA d sd sd' A0 A x ws : kernel_stack m sd A0 A x ws -> grown m m' SM ND NT DA TA d sd sd' ->
  has_stack sd' PROC_KERNEL_STACK_BASE 4096 kernel_stack_flags -> kernel_stack m' sd' A0 A x ws.
Proof.
  intros [H1 (e & He & Hx) H3 H4] Hg Hst. constructor; auto.
  - exists e. split; [|exact Hx]. rewrite (gr_low _ _ _ _ _ _ _ _ _ _ Hg); [exact He|vm_compute; split; congruence|].
    unfold in_kernel. intros [_ H]. vm_compute in H. discriminate.
  - rewrite (gr_ram _ _ _ _ _ _ _ _ _ _ Hg). exact H4.
Qed.

Lemma load_and_start_ok ext junk32 junk64 cleanup k SM ND NT DA N A0 A P pid p sd x frame filename fd hdr pht v' argv args l :
  loading k SM ND NT DA N A0 A P pid p sd x frame -> executable ext junk32 junk64 (fs k) v' (sched.file_context p) filename fd hdr pht ->
  0 <= cleanup < 2 ^ 32 -> zlen argv = zlen args -> stack_used args <= 4096 -> has_view sd l ->
  safely (load_and_start ext junk32 junk64 cleanup k pid filename argv args) (fun r => r.2 = 0 /\
    let sp := USER_SPACE_STACK_BASE - stack_used args in
    loaded k r.1 SM A0 (sched.space_handle p) (stack_view :: segment_views (Z.to_nat (e_phnum hdr)) fd pht ++ l) v' sp
      (zset (zset frame 4 (e_entry hdr)) 1 sp) (cleanup_address cleanup (sched.p_flags p)) args).
Proof.
  intros Hlo [(v1 & v2 & bytes & E1 & E2 & -> & E3) Hid Hty Hen] Hcl Hargv Hroom Hl. set (hdr := parse_elf_header bytes) in *. set (d := sched.space_handle p).
  pose proof (loading_building _ _ _ _ _ _ _ _ _ _ _ _ _ _ v' Hlo) as [Hb Hks]. destruct Hlo as [(TA & Hwf) Hok Hnew Hh Hsub Hcur _ Hfree HP Hp [Hfl Hfw]].
  assert (forall q, sched.processes q = sched.processes (ps k) -> sched.proc q pid = Ret p) as Hproc by (intros q Hq; unfold sched.proc; rewrite Hq, (fpm_get _ _ _ _ HP), Hp; reflexivity).
  assert (pages_ok A0) as HA0 by (intros y Hy; apply (pages_held _ _ _ Hh); auto).
  unfold load_and_start, elf_map_process, proc_get_file_context. rewrite Hproc by reflexivity. rewrite !mbind_Ret, E1, mbind_Ret. cbv zeta.
  change (fs (set_fs k v1)) with v1. rewrite E2, mbind_Ret. cbv zeta. rewrite Z.eqb_refl. cbn [passert]. rewrite mbind_Ret. fold hdr. rewrite Hid, mbind_Ret. cbn [passert]. rewrite mbind_Ret, Hty. cbn [Z.eqb Pos.eqb passert]. rewrite mbind_Ret.
  destruct (e_phnum hdr <? 32); [cbn [passert]|exact I]. rewrite mbind_Ret. change (fs (set_fs (set_fs k v1) v2)) with v2. rewrite E3, mbind_Ret. cbv zeta. rewrite Z.eqb_refl. cbn [passert]. rewrite mbind_Ret.
  unfold proc_get_space. change (ps (set_fs (set_fs (set_fs k v1) v2) v')) with (ps k). rewrite Hproc, !mbind_Ret by reflexivity.
  change (ms (set_fs (set_fs (set_fs k v1) v2) v')) with (set_vstate (ms k) v'). fold d.
  destruct (bu_wf _ _ _ _ _ _ _ _ _ _ _ Hb) as (TAv & Hwfv).
  pose proof (map_program_grown d fd PROC_KERNEL_STACK_BASE 4096 kernel_stack_flags (Z.to_nat (e_phnum hdr)) (set_vstate (ms k) v') _ ND NT DA TAv sd pht Hwfv Hok (lookup_insert_eq _ _ _) (ks_area _ _ _ _ _ _ Hks)) as Hm.
  destruct (map_program _ _ d fd pht) as [m1| | |]; simpl in Hm |- *; auto. destruct Hm as (sd1 & Hg & Hst1 & Hview).
  pose proof (building_grown _ _ _ _ _ _ _ _ _ _ _ _ _ _ Hb Hg) as Hb1. pose proof (kernel_stack_grown _ _ _ _ _ _ _ _ _ _ _ _ _ _ Hks Hg Hst1) as Hks1.
  unfold proc_set_syscall_ret. change (ps (set_ms _ m1)) with (ps k). rewrite Hproc, mbind_Ret by reflexivity. change (ms (set_ms _ m1)) with m1. fold d. rewrite set_syscall_ret_ip_session.
  pose proof (kernel_slot_written (ms k) m1 SM ND NT DA N A0 A d sd1 x frame [(-1, USER_DATA_SEL); (-4, USER_CODE_SEL)] (-5) (e_entry hdr) Hb1 Hcur HA0 Hks1 ltac:(lia) ltac:(lia)) as Hslot.
  destruct (portal_session m1 d _ _ _ _) as [m2| | |]; simpl in Hslot |- *; try (apply Hslot; intros i w Hi; rewrite !elem_of_cons, elem_of_nil in Hi; destruct Hi as [[= -> _]|[[= -> _]|[]]]; lia).
  destruct Hslot as (A2 & Hb2 & Hks2 & _ & _ & Hvs2 & Hlow2); [intros i w Hi; rewrite !elem_of_cons, elem_of_nil in Hi; destruct Hi as [[= -> _]|[[= -> _]|[]]]; lia|].
  unfold proc_setup_user_stack, setup_user_stack. change (ps (set_ms _ m2)) with (ps k). rewrite Hproc, mbind_Ret by reflexivity. change (ms (set_ms _ m2)) with m2. fold d.
  change (- -5 - 1) with 4 in Hks2.
  assert (paging.walk m2 sd1 (USER_SPACE_STACK_BASE - 4096) = None) as Hfree2.
  { rewrite Hlow2 by (vm_compute; split; congruence). rewrite (gr_low _ _ _ _ _ _ _ _ _ _ Hg); [rewrite (faults.walk_same (ms k)) by reflexivity; exact Hfree|vm_compute; split; congruence|].
    unfold in_kernel. intros [H _]. vm_compute in H. apply H. reflexivity. }
  pose proof (user_stack_built (ms k) m2 SM ND NT DA N A0 A2 d sd1 x _ cleanup (sched.p_flags p) argv args Hb2 Hcur HA0 Hks2 ltac:(rewrite zlen_zset; lia) Hfree2 Hargv Hroom) as H.
  destruct (mem_map_alloc m2 d _ _ _) as [[m3 i]| | |]; simpl in H |- *; auto. destruct (write_user_stack cleanup m3 d (sched.p_flags p) argv args) as [[m4 sp]| | |]; simpl in H |- *; auto.
  destruct (update_userspace_sp m4 d sp) as [m5| | |]; simpl in H |- *; auto. destruct H as (A3 & sd3 & y & Hb3 & Hks3 & Hus & Hvs3 & Hv3). split; [reflexivity|].
  destruct (bu_wf _ _ _ _ _ _ _ _ _ _ _ Hb3) as (TA3 & Hwf3). assert (USER_SPACE_STACK_BASE = 2952790016) as Hub by reflexivity.
  assert (12 <= stack_used args) as Hused by (unfold stack_used; pose proof (args_end_le args (4096 - 4 * zlen args)); pose proof (zlen_nonneg args); lia).
  constructor.
  - apply (kernel_stack_resumes m5 _ ND NT _ TA3 d sd3 A0 A3 x _ Hwf3 (lookup_insert_eq _ _ _) Hks3); [rewrite !zlen_zset; lia|]. apply words_set; [lia|]. apply words_set; [exact Hen|exact Hfw].
  - apply (user_stack_starts m5 _ ND NT _ TA3 d sd3 A0 y _ args Hwf3 (lookup_insert_eq _ _ _) Hus Hroom). unfold cleanup_address. case_match; lia.
  - exists sd3. split; [|apply Hv3, Hview, Hl]. unfold get_space. change (ms (set_ms _ m5)) with m5. rewrite (fpm_get _ _ _ _ (paging.wf_spaces _ _ _ _ _ _ Hwf3)), lookup_insert_eq. reflexivity.
  - reflexivity.
  - unfold fs. change (ms (set_ms _ m5)) with m5. rewrite Hvs3, Hvs2, (gr_vstate _ _ _ _ _ _ _ _ _ _ Hg). reflexivity.
  - intros h s v Hs Hv Hn. exact (bu_walk _ _ _ _ _ _ _ _ _ _ _ Hb3 h s v Hs Hv Hn).
  - intros w o Hw Ho. exact (bu_ram _ _ _ _ _ _ _ _ _ _ _ Hb3 w o Hw Ho).
Qed.

(** A process that was created and has no user stack yet can load a program. *)
Lemma created_loading k k' SM ND NT DA TA N A P pid frame flags : machine k SM ND NT DA TA N A P -> created (ms k) k k' SM ND NT DA N A P pid frame flags ->
  5 <= zlen frame <= 1024 -> Forall (fun w => 0 <= w < 2 ^ 32) frame ->
  exists DA' A' P' p sd x, loading k' SM ND NT DA' N A A' P' pid p sd x frame /\ sched.p_flags p = flags.
Proof.
  intros [_ _ _ Hc _ _] [_ (x & d & A' & sd & y & ctx & [Hnew Hwf Hok Hh Hsub Hcur _ _ _] & Hks & Hnone & HP) _ _] Hl Hw.
  set (p := sched.set_sp (PROC_KERNEL_STACK_BASE - frame_size) (sched.new_process d ctx flags)) in *.
  exists ({[x]} ∪ DA), A', (<[pid := p]> P), p, sd, y. split; [|reflexivity]. constructor; auto; [right; rewrite Hcur; exact Hc|apply lookup_insert_eq].
Qed.

Lemma loading_fs k SM ND NT DA N A0 A P pid p sd x frame v : loading k SM ND NT DA N A0 A P pid p sd x frame -> loading (set_fs k v) SM ND NT DA N A0 A P pid p sd x frame.
Proof.
  intros H. pose proof (loading_building _ _ _ _ _ _ _ _ _ _ _ _ _ _ v H) as [Hb Hks]. destruct H as [_ Hok Hnew Hh Hsub Hcur _ Hfree HP Hp Hl].
  constructor; auto. exact (bu_wf _ _ _ _ _ _ _ _ _ _ _ Hb).
Qed.

(** Every process has some areas. *)
Lemma loading_view k SM ND NT DA N A0 A P pid p sd x frame : loading k SM ND NT DA N A0 A P pid p sd x frame -> exists l, has_view sd l.
Proof.
  intros [_ _ _ _ _ _ [(ma & i & a & Hso & _) _ _ _] _ _ _ _]. destruct (areas.so_file _ _ Hso) as (mf & Hmf & _).
  exists (view_of mf <$> (map_to_list ma).*2), ma, mf. split; [exact Hso|]. split; [exact Hmf|]. intros t. rewrite list_elem_of_fmap. split.
  - intros (b & -> & Hb). apply list_elem_of_fmap in Hb as ([j c] & -> & Hc). apply elem_of_map_to_list in Hc. eauto.
  - intros (j & b & Hb & <-). exists b. split; [reflexivity|]. apply list_elem_of_fmap. exists (j, b). split; [reflexivity|]. apply elem_of_map_to_list. exact Hb.
Qed.

End programs.
End launch.

(** C35: a program that [exec] has found starts as the file says. For a process
    that is about to load one (kernel stack in place, user areas gone), a file
    whose header is that of a 32 bit executable and arguments that fit the
    first page of the stack, loading ends in a panic (as it does without
    room, for a table of 32 or more program headers and for segments whose pages
    overlap) or succeeds: the areas of the
    process are those it had, one for each loadable program header with that
    part of the file, and the stack; the frame the system call returns through
    leads to the entry point of the header with the stack pointer at a return
    address, the number of arguments and pointers to copies of them; no other
    space and no page of theirs changes. *)
Theorem exec_loads_program {D} (ext : Z -> vfs.driver D) (junk32 junk64 : list Z) cleanup (k : kernel.t (D := D)) SM ND NT DA N A0 A P pid p sd x frame filename fd hdr pht v' argv args l :
  launch.loading k SM ND NT DA N A0 A P pid p sd x frame ->
  launch.executable ext junk32 junk64 (kernel.fs k) v' (sched.file_context p) filename fd hdr pht ->
  0 <= cleanup < 2 ^ 32 -> zlen argv = zlen args -> stacks.stack_used args <= 4096 -> launch.has_view sd l ->
  safely (launch.load_and_start ext junk32 junk64 cleanup k pid filename argv args) (fun r => r.2 = 0 /\
    let sp := kernel.USER_SPACE_STACK_BASE - stacks.stack_used args in
    launch.loaded k r.1 SM A0 (sched.space_handle p) (launch.stack_view :: launch.segment_views (Z.to_nat (kernel.e_phnum hdr)) fd pht ++ l) v' sp
      (zset (zset frame 4 (kernel.e_entry hdr)) 1 sp) (stacks.cleanup_address cleanup (sched.p_flags p)) args).
Proof. apply launch.load_and_start_ok. Qed.
