(* ===== verification/Userspace.v ===== *)
(** * User programs and the system calls they make (libraries/support/userspace.h,
      the numbers of kernel/syscall_decls.h)

    A program is a computation that makes system calls.  The kernel is a
    parameter: what a call returns, and what it stores through the pointers it
    is given, is a function of the calls made so far.  A call that does not
    come back (exit, a successful exec, a pointer the kernel refuses) ends the
    program.  A failed assertion of a program is [Panic]: it ends the program
    with status 1. *)

From S2P Require Import Prelude Text Words KernelDefs.
From stdpp Require Import strings list.
#[local] Open Scope Z_scope.

Module userspace.

(** ** Text of the programs *)

Fixpoint text (s : string) : list Z :=
  match s with
  | EmptyString => []
  | String c s' => Z.of_N (Ascii.N_of_ascii c) :: text s'
  end.
Arguments text s%_string.

(** ** System calls

    Strings and buffers that a program passes are arguments by value.  The
    argument vector of [exec] is given as it lies in memory. *)

Inductive call :=
| Write (fd : Z) (data : list Z)
| Read (fd length : Z)
| Open (filename : list Z) (flags : Z)
| Close (fd : Z)
| Control (fd function param1 param2 : Z)
| Seek (fd offset relative : Z)
| Tell (fd : Z)
| Mkdir (path : list Z)
| Dup2 (fd alias_fd : Z)
| Fork
| Exec (filename : list Z) (argv : list (option (list Z)))
| Wait (pid : Z)
| Exit (code : Z)
| Shutdown
| Strerror (code len : Z)
| Set_timeout (duration : Z)
| Currenttime.

(** The value of a call and what it has stored: the bytes that were read, the
    numbers behind the pointers of [Tell], [Control] and [Currenttime]. *)
Record reply := mk_reply { value : Z; stored : list Z }.

Definition trace : Type := list (call * option reply).
Definition kernel : Type := trace -> call -> option reply.

Definition prog (A : Type) : Type := kernel -> trace -> outcome (trace * option A).

#[export] Instance prog_ret : MRet prog := fun A a k tr => Ret (tr, Some a).
#[export] Instance prog_bind : MBind prog := fun A B f m k tr =>
  match m k tr with
  | Ret (tr', Some a) => f a k tr'
  | Ret (tr', None) => Ret (tr', None)
  | Panic => Panic
  | Undef => Undef
  | NoFuel => NoFuel
  end.

Definition sys (c : call) : prog reply := fun k tr =>
  let r := k tr c in Ret (tr ++ [(c, r)], r).

Definition syscall (c : call) : prog Z := r ← sys c; mret (value r).

(** Code without system calls *)
Definition pure {A} (o : outcome A) : prog A := fun k tr => a ← o; Ret (tr, Some a).

(** ** userspace.h *)

(** What [puts] and [print] do with a string *)
Definition print (message : list Z) : prog Z := syscall (Write 0 message).

Definition puts (message : list Z) : prog Z := print message;; syscall (Write 0 [10]).

(** The bytes of a formatted text, as many as it is long *)
Definition shown (s : str.t) : list Z := take (Z.to_nat (str.size s)) (str.storage s).

(** [START]: what the program ends with *)
Definition start (main : prog Z) : prog unit := code ← main; syscall (Exit code);; mret tt.

(** The [panic] of a program; it never returns. *)
Definition panic (explanation : list Z) : prog unit :=
  syscall (Write 0 explanation);; syscall (Write 0 [10]);; syscall (Exit 1);; pure NoFuel.

Section userspace.
(** The contents of uninitialised storage of a given size *)
Variable junk : Z -> list Z.

Definition verify (retval : Z) : prog Z :=
  if retval >=? 0 then mret retval
  else
    msg ← pure (fmt.format (junk 128) (text "call failed with code %d") [fmt.ANum (u32 retval)]);
    syscall (Write 2 (shown msg));;
    syscall (Exit 1);;
    mret 1.

(** [p2::puts] *)
Definition puts_format (fd : Z) (msg : str.t) : prog Z :=
  ret ← syscall (Write fd (shown msg)); verify ret.

End userspace.

Definition DIRENT_SIZE : Z := 64.

(** [list_dir]: [mem] is the array of [count] entries, [out] the write
    position in it. *)
Fixpoint list_loop (fuel : nat) (fd : Z) (mem : list Z) (out bytes_left : Z) : prog (Z * list Z * Z) :=
  match fuel with
  | O => pure NoFuel
  | S fuel' =>
      r ← sys (Read fd bytes_left);
      mem ← pure (arr_blit mem out (stored r) (zlen (stored r)));
      if value r >? 0 then list_loop fuel' fd mem (out + value r) (u32 (bytes_left - value r))
      else mret (value r, mem, out)
  end.

Definition list_dir (fd : Z) (dirents : list Z) (count : Z) : prog (Z * list Z) :=
  '(bytes_read, mem, out) ← list_loop (S (S (length dirents))) fd dirents 0 (count * DIRENT_SIZE);
  if bytes_read <? 0 then mret (bytes_read, mem)
  else mret (out / DIRENT_SIZE, mem).

(** [read]: every round reads to the beginning of the buffer. *)
Fixpoint read_loop (fuel : nat) (fd : Z) (buf : list Z) (length total : Z) : prog (Z * list Z) :=
  match fuel with
  | O => pure NoFuel
  | S fuel' =>
      r ← sys (Read fd length);
      buf ← pure (arr_blit buf 0 (stored r) (zlen (stored r)));
      if value r >? 0 then read_loop fuel' fd buf (u32 (length - value r)) (u32 (total + value r))
      else mret (if value r <? 0 then value r else to_i32 total, buf)
  end.

Definition read (fd : Z) (buf : list Z) (length : Z) : prog (Z * list Z) :=
  read_loop (S (S (Z.to_nat length))) fd buf length 0.

(** ** Running programs *)

Lemma run_bind {A B} (m : prog A) (f : A -> prog B) k tr tr' a :
  m k tr = Ret (tr', Some a) -> (m ≫= f) k tr = f a k tr'.
Proof. intros E. unfold mbind, prog_bind. rewrite E. reflexivity. Qed.

Lemma run_gone {A B} (m : prog A) (f : A -> prog B) k tr tr' :
  m k tr = Ret (tr', None) -> (m ≫= f) k tr = Ret (tr', None).
Proof. intros E. unfold mbind, prog_bind. rewrite E. reflexivity. Qed.

Lemma run_panic {A B} (m : prog A) (f : A -> prog B) k tr : m k tr = Panic -> (m ≫= f) k tr = Panic.
Proof. intros E. unfold mbind, prog_bind. rewrite E. reflexivity. Qed.

Lemma run_pure {A B} (o : outcome A) (f : A -> prog B) k tr a : o = Ret a -> (pure o ≫= f) k tr = f a k tr.
Proof. intros ->. reflexivity. Qed.

Lemma run_sys {B} c (f : reply -> prog B) k tr r : k tr c = Some r -> (sys c ≫= f) k tr = f r k (tr ++ [(c, Some r)]).
Proof. intros E. unfold mbind, prog_bind, sys. rewrite E. reflexivity. Qed.

Lemma run_syscall {B} c (f : Z -> prog B) k tr r : k tr c = Some r -> (syscall c ≫= f) k tr = f (value r) k (tr ++ [(c, Some r)]).
Proof. intros E. unfold mbind, prog_bind, syscall, mbind, prog_bind, sys. rewrite E. reflexivity. Qed.

Lemma run_syscall_gone {B} c (f : Z -> prog B) k tr : k tr c = None -> (syscall c ≫= f) k tr = Ret (tr ++ [(c, None)], None).
Proof. intros E. unfold mbind, prog_bind, syscall, mbind, prog_bind, sys. rewrite E. reflexivity. Qed.

Lemma run_assoc {A B C} (m : prog A) (f : A -> prog B) (g : B -> prog C) k tr :
  ((m ≫= f) ≫= g) k tr = (m ≫= fun a => f a ≫= g) k tr.
Proof. unfold mbind, prog_bind. destruct (m k tr) as [[tr' [a|]]| | |]; reflexivity. Qed.

Lemma run_ret {A B} (a : A) (f : A -> prog B) k tr : (mret a ≫= f) k tr = f a k tr.
Proof. reflexivity. Qed.

Lemma verify_ok {B} junk v (f : Z -> prog B) k tr : 0 <= v -> (verify junk v ≫= f) k tr = f v k tr.
Proof. intros H. unfold verify. rewrite Z.geb_leb, (proj2 (Z.leb_le _ _)) by lia. reflexivity. Qed.

End userspace.
