(* ===== verification/Support.v ===== *)
(** * The small headers of the support library
      (support/utils.h, limits.h, optional.h, function.h, logging.h)

    Storage whose objects are constructed and destroyed by hand, optional
    values, closures kept inside their owner, and log lines.  The other files
    use [option] for optional values and data for closures; the theorems here
    say why that is faithful. *)

From S2P Require Import Prelude Text TextFacts Userspace.
From stdpp Require Import strings.
#[local] Open Scope Z_scope.

(** ** utils.h, limits.h *)
Module util.

Definition min (lhs rhs : Z) : Z := if lhs >? rhs then rhs else lhs.
Definition max (lhs rhs : Z) : Z := if lhs >? rhs then lhs else rhs.

Lemma min_Z l r : min l r = Z.min l r.
Proof. unfold min. zbool. Qed.

Lemma max_Z l r : max l r = Z.max l r.
Proof. unfold max. zbool. Qed.

(** The instances of [numeric_limits]; [long] has the width of the target *)
Inductive int_type := uint8_t | uint16_t | uint32_t | uint64_t | long (bits : Z) | int | short | int8_t.

Definition max_of (t : int_type) : Z :=
  match t with
  | uint8_t => 255 | uint16_t => 65535 | uint32_t => 4294967295 | uint64_t => 18446744073709551615
  | long w => 2 ^ (w - 1) - 1 | int => 2147483647 | short => 32767 | int8_t => 127
  end.

(** *** [inplace_object<T>]: what the bytes hold, nothing before [construct] *)
Section object.
Context {T : Type}.

Definition object : Type := option T.
Definition construct (v : T) (o : object) : object := Some v.
Definition get (o : object) : outcome T := match o with Some v => Ret v | None => Undef end.
Definition destruct_ (o : object) : outcome object := _ ← get o; Ret None.

(** [inplace_array<T, N>]: the index is not checked *)
Definition at_ (a : list object) (idx : Z) : outcome T := o ← arr_get a idx; get o.
Definition emplace (a : list object) (idx : Z) (v : T) : outcome (list object) := arr_set a idx (Some v).
Definition destruct_at (a : list object) (idx : Z) : outcome (list object) := _ ← at_ a idx; arr_set a idx None.

(** What is constructed is what is read until it is destroyed; the other
    elements are not touched. *)
Lemma emplace_at a idx v : 0 <= idx < zlen a ->
  exists a', emplace a idx v = Ret a' /\ at_ a' idx = Ret v /\ (forall j, j <> idx -> at_ a' j = at_ a j) /\
    exists a'', destruct_at a' idx = Ret a'' /\ at_ a'' idx = Undef /\ forall j, j <> idx -> at_ a'' j = at_ a j.
Proof.
  intros Hi.
  assert (forall (l : list object) (x : object), zlen l = zlen a -> arr_set l idx x = Ret (zset l idx x)) as Hset.
  { intros l x Hl. unfold arr_set. rewrite Hl. zb_case (0 <=? idx). zb_case (idx <? zlen a). reflexivity. }
  assert (forall (l : list object) (x : object), zlen l = zlen a -> znth (zset l idx x) idx = Some x) as Hget.
  { intros l x Hl. unfold znth, zset. zb_case (0 <=? idx). apply list_lookup_insert_eq. unfold zlen in *. lia. }
  assert (forall (l : list object) (x : object) j, j <> idx -> znth (zset l idx x) j = znth l j) as Hne.
  { intros l x j Hj. unfold znth, zset. zb_case (0 <=? idx). destruct (Z.leb_spec 0 j); [|reflexivity]. apply list_lookup_insert_ne. lia. }
  exists (zset a idx (Some v)). unfold emplace, destruct_at, at_, arr_get. split; [apply Hset; reflexivity|].
  rewrite Hget by reflexivity. split; [reflexivity|]. split; [intros j Hj; rewrite Hne by exact Hj; reflexivity|].
  exists (zset (zset a idx (Some v)) idx None). rewrite !mbind_Ret. cbn [get]. rewrite mbind_Ret.
  split; [apply Hset, zlen_zset|]. split; [rewrite Hget by apply zlen_zset; reflexivity|]. intros j Hj. rewrite !Hne by exact Hj. reflexivity.
Qed.

End object.
End util.

(** The limit of an unsigned type is the largest value that survives the
    conversion to it: one more wraps to zero. *)
Lemma limits_exact :
  Forall (fun '(t, w) => w (util.max_of t) = util.max_of t /\ w (util.max_of t + 1) = 0)
    [(util.uint8_t, u8); (util.uint16_t, u16); (util.uint32_t, u32); (util.uint64_t, u64)] /\
  Forall (fun t => i32 (util.max_of t) = Ret (util.max_of t)) [util.int; util.long 32; util.short; util.int8_t] /\
  i32 (util.max_of util.int + 1) = Undef.
Proof. repeat constructor. Qed.

(** ** optional.h *)
Module optional.
Section types.
Context {T : Type}.

Record t := mk { _value : @util.object T; _is_assigned : bool }.

Definition empty : t := mk None false.
Definition make (v : T) : t := mk (util.construct v None) true.

(** [operator *] and [operator ->] *)
Definition deref (o : t) : outcome T := passert (_is_assigned o);; util.get (_value o).

(** [*o = v]: the reference is taken first *)
Definition write (o : t) (v : T) : outcome t := _ ← deref o; Ret (mk (Some v) (_is_assigned o)).

Definition to_bool (o : t) : bool := _is_assigned o.
Definition value_or (o : t) (d : T) : outcome T := if to_bool o then deref o else Ret d.

(** What clients do with an optional value *)
Inductive op := ODeref | OBool | OValueOr (d : T) | OWrite (v : T) | OAssign (x : option T).
Inductive res := RVal (v : T) | RBool (b : bool) | RUnit.

Definition step (o : t) (p : op) : outcome (t * res) :=
  match p with
  | ODeref => v ← deref o; Ret (o, RVal v)
  | OBool => Ret (o, RBool (to_bool o))
  | OValueOr d => v ← value_or o d; Ret (o, RVal v)
  | OWrite v => o ← write o v; Ret (o, RUnit)
  | OAssign x => Ret (match x with Some v => make v | None => empty end, RUnit)
  end.

Fixpoint run (o : t) (ps : list op) : outcome (list res) :=
  match ps with
  | [] => Ret []
  | p :: ps' => '(o, r) ← step o p; rs ← run o ps'; Ret (r :: rs)
  end.

(** The same on [option] *)
Definition spec_step (x : option T) (p : op) : outcome (option T * res) :=
  match p, x with
  | ODeref, Some v => Ret (x, RVal v)
  | OWrite v, Some _ => Ret (Some v, RUnit)
  | ODeref, None | OWrite _, None => Panic
  | OBool, _ => Ret (x, RBool (bool_decide (is_Some x)))
  | OValueOr d, _ => Ret (x, RVal (default d x))
  | OAssign y, _ => Ret (y, RUnit)
  end.

Fixpoint spec_run (x : option T) (ps : list op) : outcome (list res) :=
  match ps with
  | [] => Ret []
  | p :: ps' => '(x, r) ← spec_step x p; rs ← spec_run x ps'; Ret (r :: rs)
  end.

(** The storage holds a value exactly when the flag says so. *)
Definition rep (o : t) (x : option T) : Prop := _value o = x /\ _is_assigned o = bool_decide (is_Some x).

Lemma rep_step o x p : rep o x ->
  match spec_step x p with
  | Ret (x', r) => exists o', step o p = Ret (o', r) /\ rep o' x'
  | _ => step o p = Panic
  end.
Proof.
  destruct o as [v b]. intros [E1 E2]. cbn in E1, E2. subst v b.
  destruct p as [| |d|v|y], x as [w|]; cbn; try reflexivity; try (eexists; split; [reflexivity|split; reflexivity]).
  all: destruct y; cbn; (eexists; split; [reflexivity|split; reflexivity]).
Qed.

End types.
Arguments t : clear implicits.
Arguments op : clear implicits.
Arguments res : clear implicits.
End optional.

(** An optional value behaves as an [option] whose accessors are partial: from
    an empty one, every sequence of uses gives the same results, and the same
    use panics, as on [option]; the storage is never read before a value has
    been put there. *)
Theorem optional_is_option {T} (ps : list (optional.op T)) : optional.run optional.empty ps = optional.spec_run None ps.
Proof.
  assert (forall ps (o : optional.t T) x, optional.rep o x -> optional.run o ps = optional.spec_run x ps) as H; [|apply H; split; reflexivity].
  clear ps. induction ps as [|p ps IH]; intros o x Hr; [reflexivity|]. cbn [optional.run optional.spec_run].
  pose proof (optional.rep_step o x p Hr) as Hs.
  destruct (optional.spec_step x p) as [[x' r]| | |] eqn:E; [|rewrite Hs; reflexivity|destruct p, x; discriminate E|destruct p, x; discriminate E].
  destruct Hs as (o' & -> & Hr'). rewrite !mbind_Ret, (IH _ _ Hr'). reflexivity.
Qed.

(** ** function.h: a closure in a block of [_MaxSize] bytes *)
Module inplace_fun.
Section types.

(** [S] is what the captured references lead to. *)
Context {A R S : Type} (MaxSize : Z).

(** [callable_impl<T>]: its size and its body *)
Record callable_impl := mk_impl { impl_size : Z; lambda : A -> stM S R }.

Definition t : Type := @util.object callable_impl.

Definition assign (f : t) (c : callable_impl) : outcome t := passert (impl_size c <=? MaxSize);; Ret (Some c).
Definition make (c : callable_impl) : outcome t := assign None c.
Definition call (f : t) (args : A) : stM S R := fun s => c ← util.get f; lambda c args s.

(** A closure that fits is called as it is, whatever was stored before; one
    that does not fit is refused before it is written. *)
Lemma assign_call f c :
  match assign f c with
  | Ret f' => impl_size c <= MaxSize /\ forall args s, call f' args s = lambda c args s
  | Panic => MaxSize < impl_size c
  | _ => False
  end.
Proof. unfold assign, passert. destruct (Z.leb_spec (impl_size c) MaxSize); cbn; [split; [lia|reflexivity]|lia]. Qed.

End types.
Arguments callable_impl : clear implicits.
Arguments t : clear implicits.
End inplace_fun.

(** ** logging.h *)
Module logging.

Inductive level := Debug | Info | Warn | Error.

Definition number (l : level) : Z := match l with Debug => 7 | Info => 6 | Warn => 4 | Error => 3 end.
Definition tag (l : level) : list Z := userspace.text (match l with Debug => "DEBUG " | Info => "INFO  " | Warn => "WARN  " | Error => "ERROR " end).

(** [log_debug(fmt, ...)] and its companions in a line of a file: the level and
    the text that [_log_print] is called with.  [buffer] is
    [debug_out_buffer]. *)
Definition log (l : level) (buffer file line f : list Z) (args : list fmt.arg) : outcome (Z * str.t) :=
  s ← fmt.format buffer (tag l ++ file ++ [58] ++ line ++ [58; 32] ++ f) args;
  Ret (number l, s).
End logging.

(** A log line whose arguments are strings is the tag, the place and the
    message with its arguments filled in, as long as it fits the buffer. *)
Lemma log_line_text (l : logging.level) (buffer file line : list Z) (first : list Z * list Z) (pieces : list (list Z * list Z)) (tail : list Z) :
  let place := logging.tag l ++ file ++ [58] ++ line ++ [58; 32] in
  ~ (37 ∈ file) -> ~ (37 ∈ line) -> Forall (fun p => ~ (37 ∈ p.1)) (first :: pieces) -> ~ (37 ∈ tail) ->
  zlen place + zlen (formats.filled (first :: pieces) tail) < zlen buffer ->
  exists s, logging.log l buffer file line (formats.template (first :: pieces) tail) (map (fun p => fmt.AStr p.2) (first :: pieces)) = Ret (logging.number l, s) /\
    str.rep s (place ++ formats.filled (first :: pieces) tail).
Proof.
  intros place Hf Hl Hp Ht Hz. destruct first as [lit a]. apply Forall_cons in Hp as [Hlit Hp]. cbn [fst] in Hlit.
  assert (~ (37 ∈ logging.tag l)) as Htag by (destruct l; intros H; apply list_elem_of_In in H; vm_compute in H; intuition discriminate).
  assert (~ (37 ∈ place ++ lit)) as Hpl by (unfold place; rewrite !elem_of_app, !elem_of_cons, elem_of_nil; intuition lia).
  assert (formats.filled ((place ++ lit, a) :: pieces) tail = place ++ formats.filled ((lit, a) :: pieces) tail) as Ef by (unfold formats.filled; cbn [map concat fst snd]; rewrite <-!app_assoc; reflexivity).
  destruct (formats.format_strings buffer ((place ++ lit, a) :: pieces) tail) as (s & E & Hr); [constructor; assumption|exact Ht|rewrite Ef, zlen_app; exact Hz|].
  exists s. split; [|rewrite <-Ef; exact Hr]. unfold logging.log. rewrite <-(mbind_Ret (fun s => Ret (logging.number l, s)) s), <-E. f_equal.
  unfold formats.template, place. cbn [map concat fst snd]. rewrite <-!app_assoc. reflexivity.
Qed.
