(* ===== verification/Shell.v ===== *)
(** * The shell, its launcher and ls (programs/shell/shell.cc,
      programs/shell/shell_launcher.cc, programs/ls/ls.cc)

    The shell reads its input in whatever pieces the terminal gives it into a
    static buffer, takes lines from the front of the buffer, and runs each as
    a command in a child process. *)

From S2P Require Import Prelude Pool Text Words KernelDefs Userspace.
From stdpp Require Import strings list.
#[local] Open Scope Z_scope.

Import userspace.

Module shell.

Definition INPUT : Z := 512.
Definition LINE : Z := 128.

(** The static input buffer *)
Record t := mk { input_buffer : list Z; input_buffer_size : Z }.

Definition init : t := mk (replicate (Z.to_nat INPUT) 0) 0.

Section shell.
Variable junk : Z -> list Z.
(** The contents of an uninitialised argument vector *)
Variable junk_argv : list (option (list Z)).

(** The result, [out] and the number of bytes copied to it *)
Definition consume_line_from_buffer (st : t) (out : list Z) (length : Z) : outcome (t * list Z * Z) :=
  nl ← cstring.strnchr (S (S (Z.to_nat (input_buffer_size st)))) (input_buffer st) 0 10 (input_buffer_size st);
  match nl with
  | None => Ret (st, out, 0)
  | Some nl =>
      let nl := nl + 1 in
      let rest := input_buffer_size st - nl in
      let bytes_to_copy := Z.min length nl in
      out ← arr_blit out 0 (input_buffer st) bytes_to_copy;
      buffer ← cstring.memcpy (input_buffer st) 0 nl (Z.to_nat rest);
      Ret (mk buffer (input_buffer_size st - nl), out, bytes_to_copy)
  end.

Fixpoint read_line (fuel : nat) (st : t) (out : list Z) (length : Z) : prog (t * list Z * Z) :=
  match fuel with
  | O => pure NoFuel
  | S fuel' =>
      '(st, out, bytes_read) ← pure (consume_line_from_buffer st out length);
      if negb (bytes_read =? 0) then mret (st, out, bytes_read)
      else
        r ← sys (Read 0 (INPUT - input_buffer_size st));
        buffer ← pure (arr_blit (input_buffer st) (input_buffer_size st) (stored r) (zlen (stored r)));
        let st := mk buffer (input_buffer_size st) in
        if value r <=? 0 then mret (st, out, value r)
        else read_line fuel' (mk buffer (input_buffer_size st + value r)) out length
  end.

(** [execute], in the child *)
Definition execute (line : command_line.t) : prog Z :=
  argv ← pure (command_line.fill_argv line junk_argv);
  name ← pure (command_line.argument line 0);
  retval ← syscall (Exec name argv);
  retval ← (if retval =? kdefs.ENOENT then
              new_filename ← pure (str.from_cstr_all (junk 128) (text "/ramfs/bin/"));
              new_filename ← pure (str.append_str new_filename name);
              path ← pure (str.c_str new_filename);
              syscall (Exec path argv)
            else mret retval);
  if retval <? 0 then
    r ← sys (Strerror retval (LINE - 1));
    message_buf ← pure (arr_blit (junk LINE) 0 (stored r) (zlen (stored r)));
    (if value r >=? 0 then
       message_buf ← pure (arr_set message_buf (LINE - 1) 0);
       message ← pure (str.until_nul message_buf);
       puts message;; mret tt
     else mret tt);;
    mret 127
  else mret 0.

Definition exit_word : list Z := text "exit".

Definition parse_command (command : list Z) : prog unit :=
  line ← pure (c ← command_line.init (junk 256); command_line.parse (junk 256) c command);
  if command_line.num_arguments line =? 0 then mret tt
  else
    name ← pure (command_line.argument line 0);
    cmp ← pure (cstring.strncmp 5 (name ++ [0]) (exit_word ++ [0]));
    if cmp =? 0 then
      puts (text "bye bye");;
      syscall (Exit 0);;
      mret tt
    else
      child_pid ← syscall Fork;
      if negb (child_pid =? 0) then syscall (Wait child_pid);; mret tt
      else code ← execute line; syscall (Exit code);; mret tt.

(** One turn of the loop of [main] *)
Definition turn (st : t) : prog t :=
  syscall (Write 0 (text "> "));;
  '(st, line, ret) ← read_line (S (S (Z.to_nat INPUT))) st (junk LINE) (LINE - 1);
  bytes_read ← verify junk ret;
  if bytes_read =? 0 then puts (text "Malformed line, ignoring");; mret st
  else
    last ← pure (arr_get line (bytes_read - 1));
    if negb (last =? 10) then puts (text "Malformed line, ignoring");; mret st
    else
      line ← pure (arr_set line (bytes_read - 1) 0);
      command ← pure (str.until_nul line);
      parse_command command;;
      mret st.

(** [n] turns of the loop, which has no end *)
Fixpoint turns (n : nat) (st : t) : prog t :=
  match n with
  | O => mret st
  | S n' => st ← turn st; turns n' st
  end.

Definition main (n : nat) : prog t :=
  syscall (Write 0 (text "WELCOME TO SHELL" ++ [10]));; turns n init.

End shell.
End shell.

(** ** shell_launcher.cc *)

Module shell_launcher.

Section launcher.
Variable junk : Z -> list Z.

Definition setup_term_at (filename : list Z) (dest_fd : Z) : prog unit :=
  ret ← syscall (Open filename kdefs.OPEN_RETAIN_EXEC);
  source_fd ← verify junk ret;
  if negb (source_fd =? dest_fd) then
    ret ← syscall (Dup2 source_fd dest_fd);
    verify junk ret;;
    ret ← syscall (Close source_fd);
    verify junk ret;;
    mret tt
  else mret tt.

Definition setup_std_fds (terminal_filename : list Z) : prog unit :=
  setup_term_at terminal_filename 0;; setup_term_at terminal_filename 1;; setup_term_at terminal_filename 2.

Definition ENTRIES : Z := 16.

(** A name that starts with "term" and is not a prefix of "term0" *)
Definition is_terminal (name : list Z) : outcome bool :=
  c1 ← cstring.strncmp 4 name (text "term" ++ [0]);
  if c1 =? 0 then
    len ← cstring.strlen name;
    c2 ← cstring.strncmp (Z.to_nat len) name (text "term0" ++ [0]);
    Ret (negb (c2 =? 0))
  else Ret false.

Fixpoint collect (n : nat) (i : Z) (entries : list Z) (terminals : fixed_pool str.t) : outcome (fixed_pool str.t) :=
  match n with
  | O => Ret terminals
  | S n' =>
      let name := drop (Z.to_nat (i * DIRENT_SIZE)) entries in
      take_it ← is_terminal name;
      terminals ← (if take_it : bool then
                     s ← str.until_nul name;
                     path ← fmt.format (junk 32) (text "/dev/%s") [fmt.AStr s];
                     path ← str.copy (junk 32) path;
                     '(terminals, _) ← pool.emplace_anywhere U16_MAX terminals path;
                     Ret terminals
                   else Ret terminals);
      collect n' (i + 1) entries terminals
  end.

Definition list_terminals (terminals : fixed_pool str.t) : prog (fixed_pool str.t) :=
  ret ← syscall (Open (text "/dev/") 0);
  dir_fd ← verify junk ret;
  '(ret, entries) ← list_dir dir_fd (junk (ENTRIES * DIRENT_SIZE)) ENTRIES;
  num_entries ← verify junk ret;
  ret ← syscall (Close dir_fd);
  verify junk ret;;
  pure (collect (Z.to_nat num_entries) 0 entries terminals).

Definition shell_path : list Z := text "/ramfs/bin/shell".

(** The loop over the terminals *)
Fixpoint launch (terminals : list (Z * str.t)) (child_pids : fixed_pool Z) : prog (fixed_pool Z) :=
  match terminals with
  | [] => mret child_pids
  | (_, term_name) :: terminals' =>
      filename ← pure (str.c_str term_name);
      msg ← pure (fmt.format (junk 64) (text "starting shell for %s" ++ [10]) [fmt.AStr filename]);
      puts_format junk 0 msg;;
      child_pid ← syscall Fork;
      if negb (child_pid =? 0) then
        '(child_pids, _) ← pure (pool.emplace_anywhere U16_MAX child_pids child_pid);
        launch terminals' child_pids
      else
        setup_std_fds filename;;
        ret ← syscall (Exec shell_path [Some shell_path; None]);
        verify junk ret;;
        launch terminals' child_pids
  end.

Fixpoint wait_all (child_pids : list (Z * Z)) : prog unit :=
  match child_pids with
  | [] => mret tt
  | (_, child_pid) :: child_pids' => syscall (Wait child_pid);; wait_all child_pids'
  end.

Definition main : prog Z :=
  terminals ← list_terminals (new_fixed_pool 16);
  child_pids ← launch (pool.entries U16_MAX terminals) (new_fixed_pool 16);
  wait_all (pool.entries U16_MAX child_pids);;
  puts (text "All shells have terminated");;
  mret 0.

End launcher.
End shell_launcher.

(** ** ls.cc *)

Module ls.

Definition ENTRIES : Z := 32.

Section ls.
Variable junk : Z -> list Z.

Fixpoint show (n : nat) (i : Z) (entries : list Z) : prog unit :=
  match n with
  | O => mret tt
  | S n' =>
      name ← pure (str.until_nul (drop (Z.to_nat (i * DIRENT_SIZE)) entries));
      puts name;;
      show n' (i + 1) entries
  end.

Definition main (argv : list (list Z)) : prog Z :=
  pure (passert (0 <? zlen argv));;
  (if negb (zlen argv =? 2) then
     name ← pure (arr_get argv 0);
     msg ← pure (fmt.format (junk 128) (text "Usage: %s dirpath" ++ [10]) [fmt.AStr name]);
     puts_format junk 0 msg;;
     syscall (Exit 1);; mret tt
   else mret tt);;
  path ← pure (arr_get argv 1);
  print path;;
  print [58; 10];;
  fd ← syscall (Open path 0);
  (if fd <? 0 then puts (text "Failed");; syscall (Exit 1);; mret tt else mret tt);;
  '(num_entries, entries) ← list_dir fd (junk (ENTRIES * DIRENT_SIZE)) ENTRIES;
  (if num_entries <? 0 then puts (text "Failed");; syscall (Exit 1);; mret tt else mret tt);;
  syscall (Close fd);;
  show (Z.to_nat num_entries) 0 entries;;
  mret 0.

End ls.
End ls.
