(* ===== verification/ShellFacts.v ===== *)
(** * The shell runs the lines it is given (programs/shell/shell.cc) *)

From S2P Require Import Prelude Pool Text Words KernelDefs Userspace Shell.
From stdpp Require Import strings list.
#[local] Open Scope Z_scope.

Import userspace.

(** ** The line buffer *)

Module lines.
Import shell.

(** The buffer holds the bytes [l]. *)
Record holds (st : t) (l : list Z) : Prop := {
  h_size : input_buffer_size st = zlen l;
  h_length : zlen (input_buffer st) = INPUT;
  h_text : exists rest, input_buffer st = l ++ rest
}.

(** Text without terminator and newline *)
Definition plain (l : list Z) : Prop := ~ (0 ∈ l) /\ ~ (10 ∈ l).

Lemma plain_app l l' : plain (l ++ l') -> plain l /\ plain l'.
Proof. unfold plain. rewrite !elem_of_app. tauto. Qed.

Lemma plain_cons c l : plain (c :: l) -> c <> 0 /\ c <> 10 /\ plain l.
Proof. unfold plain. rewrite !not_elem_of_cons. intuition congruence. Qed.

Lemma plain_check l : forallb (fun c => negb (c =? 0) && negb (c =? 10)) l = true -> plain l.
Proof.
  rewrite forallb_forall. intros H. split; intros Hin; apply list_elem_of_In, H in Hin; discriminate.
Qed.

Lemma strnchr_found w : forall fuel P rest len, plain w -> zlen w < len -> (length w < fuel)%nat ->
  cstring.strnchr fuel (P ++ w ++ 10 :: rest) (zlen P) 10 len = Ret (Some (zlen P + zlen w)).
Proof.
  induction w as [|x w IH]; intros fuel P rest len Hw Hl Hf; (destruct fuel as [|fuel]; [simpl in Hf; lia|]); cbn [cstring.strnchr app].
  - change (zlen (@nil Z)) with 0 in *. rewrite cstring.arr_get_mid, mbind_Ret, Z.eqb_refl, (proj2 (Z.eqb_neq len 0)), Z.add_0_r by lia. reflexivity.
  - apply plain_cons in Hw as (H0 & H10 & Hw). rewrite zlen_cons in *. pose proof (zlen_nonneg w). rewrite cstring.arr_get_mid, mbind_Ret.
    rewrite (proj2 (Z.eqb_neq x 10)), (proj2 (Z.eqb_neq x 0)), (proj2 (Z.eqb_neq len 0)) by (assumption || lia). cbn [orb].
    replace (P ++ x :: w ++ 10 :: rest) with ((P ++ [x]) ++ w ++ 10 :: rest) by (rewrite <-app_assoc; reflexivity).
    replace (zlen P + 1) with (zlen (P ++ [x])) by (rewrite zlen_app; reflexivity). rewrite IH by (assumption || lia || (simpl in Hf; lia)).
    rewrite zlen_app. change (zlen [x]) with 1. do 2 f_equal. lia.
Qed.

(** Nothing found: one byte behind the text is looked at. *)
Lemma strnchr_missing w : forall fuel P x rest, plain w -> (length w < fuel)%nat ->
  cstring.strnchr fuel (P ++ w ++ x :: rest) (zlen P) 10 (zlen w) = Ret None.
Proof.
  induction w as [|y w IH]; intros fuel P x rest Hw Hf; (destruct fuel as [|fuel]; [simpl in Hf; lia|]); cbn [cstring.strnchr app].
  - rewrite cstring.arr_get_mid, mbind_Ret. change (zlen [] =? 0) with true. rewrite orb_true_r. destruct (x =? 10); reflexivity.
  - apply plain_cons in Hw as (H0 & H10 & Hw). rewrite zlen_cons. pose proof (zlen_nonneg w). rewrite cstring.arr_get_mid, mbind_Ret.
    rewrite (proj2 (Z.eqb_neq y 10)), (proj2 (Z.eqb_neq y 0)), (proj2 (Z.eqb_neq (zlen w + 1) 0)) by (assumption || lia). cbn [orb].
    replace (P ++ y :: w ++ x :: rest) with ((P ++ [y]) ++ w ++ x :: rest) by (rewrite <-app_assoc; reflexivity).
    replace (zlen P + 1) with (zlen (P ++ [y])) by (rewrite zlen_app; reflexivity).
    replace (zlen w + 1 - 1) with (zlen w) by lia. apply IH; [assumption|simpl in Hf; lia].
Qed.

Lemma holds_init : holds init [].
Proof. split; [reflexivity|reflexivity|]. exists (replicate (Z.to_nat INPUT) 0). reflexivity. Qed.

Lemma consume_none st l out length : holds st l -> plain l -> zlen l < INPUT -> consume_line_from_buffer st out length = Ret (st, out, 0).
Proof.
  intros [Hs Hl [rest Hr]] Hp Hlt. unfold consume_line_from_buffer. rewrite Hs, Hr. destruct rest as [|x rest].
  { rewrite Hr, app_nil_r in Hl. lia. }
  pose proof (strnchr_missing l (S (S (Z.to_nat (zlen l)))) [] x rest Hp ltac:(unfold zlen; lia)) as E. cbn [app] in E. change (zlen (@nil Z)) with 0 in E.
  rewrite E. reflexivity.
Qed.

(** A line in the buffer is taken out; what does not fit into [out] is lost. *)
Lemma consume_line st w l out room : holds st (w ++ 10 :: l) -> plain w -> 0 <= room <= zlen out ->
  exists st', consume_line_from_buffer st out room =
      Ret (st', take (Z.to_nat (Z.min room (zlen w + 1))) (w ++ [10]) ++ drop (Z.to_nat (Z.min room (zlen w + 1))) out, Z.min room (zlen w + 1)) /\
    holds st' l.
Proof.
  intros [Hs Hl [rest Hr]] Hp Hlen. pose proof (zlen_nonneg w) as Hw0. pose proof (zlen_nonneg l) as Hl0. pose proof (zlen_nonneg rest) as Hr0.
  rewrite zlen_app, zlen_cons in Hs. assert (input_buffer st = (w ++ [10]) ++ l ++ rest) as Hr' by (rewrite Hr, <-!app_assoc; reflexivity).
  assert (zlen (w ++ [10]) = zlen w + 1) as Hw1 by (rewrite zlen_app; reflexivity).
  assert (zlen w + 1 + (zlen l + zlen rest) = INPUT) as Hsum by (rewrite <-Hl, Hr', !zlen_app in *; change (zlen [10]) with 1; lia).
  unfold consume_line_from_buffer. rewrite Hs, Hr.
  pose proof (strnchr_found w (S (S (Z.to_nat (zlen w + (zlen l + 1))))) [] (l ++ rest) (zlen w + (zlen l + 1)) Hp ltac:(lia) ltac:(unfold zlen; lia)) as E.
  cbn [app] in E. change (zlen (@nil Z)) with 0 in E. rewrite Z.add_0_l in E. rewrite <-app_assoc. cbn [app]. rewrite E, mbind_Ret. cbv beta iota zeta.
  replace (w ++ 10 :: l ++ rest) with ((w ++ [10]) ++ l ++ rest) by (rewrite <-app_assoc; reflexivity).
  rewrite arr_blit_Ret by (rewrite ?zlen_app, ?Hw1; change (zlen [10]) with 1; lia). rewrite mbind_Ret.
  replace (zlen w + (zlen l + 1) - (zlen w + 1)) with (zlen l) by lia.
  pose proof (cstring.memcpy_down (Z.to_nat (zlen l)) [] ((w ++ [10]) ++ l ++ rest) (Z.to_nat (zlen w + 1))) as Em. cbn [app] in Em. change (zlen (@nil Z)) with 0 in Em.
  rewrite Z.add_0_l, Z2Nat.id in Em by lia. rewrite Em by (rewrite !length_app; cbn [length]; unfold zlen; lia). rewrite mbind_Ret.
  set (n := Z.min room (zlen w + 1)). assert (0 <= n <= zlen w + 1) as Hn by (unfold n; lia). eexists. split.
  - do 2 f_equal. f_equal. unfold blit. change (Z.to_nat 0) with 0%nat. cbn [take app].
    assert (take (Z.to_nat n) ((w ++ [10]) ++ l ++ rest) = take (Z.to_nat n) (w ++ [10])) as -> by (apply take_app_le; unfold zlen in *; lia).
    rewrite length_take, Nat.min_l by (rewrite length_app; cbn [length]; unfold zlen in *; lia). reflexivity.
  - split; cbn [input_buffer input_buffer_size].
    + lia.
    + rewrite zlen_app. unfold zlen in *. rewrite length_take, !length_drop, !length_app in *. lia.
    + eexists. rewrite drop_app_le, drop_ge by (unfold zlen in *; lia). cbn [app].
      rewrite take_app_length' by (unfold zlen; lia). reflexivity.
Qed.
End lines.

(** ** The input and what the shell does with it *)

Module session.
Import shell lines.

(** The bytes read from descriptor 0 *)
Definition got_by (cr : call * option reply) : list Z :=
  match cr with (Read fd _, Some r) => if fd =? 0 then stored r else [] | _ => [] end.

Definition got (tr : trace) : list Z := concat (map got_by tr).

(** The calls that create, replace and end processes *)
Definition is_act (cr : call * option reply) : bool :=
  match cr.1 with Fork | Exec _ _ | Wait _ | Exit _ => true | _ => false end.

Definition acts (tr : trace) : trace := filter is_act tr.

Lemma got_app tr tr' : got (tr ++ tr') = got tr ++ got tr'.
Proof. unfold got. rewrite map_app, concat_app. reflexivity. Qed.

Lemma acts_app tr tr' : acts (tr ++ tr') = acts tr ++ acts tr'.
Proof. apply filter_app. Qed.

(** The kernel as the shell needs it: reading gives the input from where it
    was left, in pieces of any size, and the other calls of the parent
    return.  [exit] does not. *)
Record interactive (k : kernel) (input : list Z) : Prop := {
  ik_read : forall tr n unread, input = got tr ++ unread -> 0 < n -> unread <> [] -> exists r, k tr (Read 0 n) = Some r /\
    0 < value r <= n /\ exists rest, unread = stored r ++ rest /\ zlen (stored r) = value r;
  ik_write : forall tr data, exists r, k tr (Write 0 data) = Some r;
  ik_fork : forall tr, exists r, k tr Fork = Some r /\ value r <> 0;
  ik_wait : forall tr pid, exists r, k tr (Wait pid) = Some r;
  ik_exit : forall tr code, k tr (Exit code) = None
}.

(** What a line does: calls of the shell, and whether it ends *)
Inductive line_run (l : list Z) : trace -> bool -> Prop :=
| LTooLong : LINE - 2 < zlen l -> line_run l [] false
| LBlank : zlen l <= LINE - 2 -> command_line.words l = [] -> line_run l [] false
| LExit ws : zlen l <= LINE - 2 -> command_line.words l = exit_word :: ws -> line_run l [(Exit 0, None)] true
| LProgram w ws child exited : zlen l <= LINE - 2 -> command_line.words l = w :: ws -> w <> exit_word -> value child <> 0 ->
    line_run l [(Fork, Some child); (Wait (value child), Some exited)] false.

(** What several lines do *)
Inductive lines_run : list (list Z) -> trace -> bool -> Prop :=
| LsNil : lines_run [] [] false
| LsExit l ls new : line_run l new true -> lines_run (l :: ls) new true
| LsNext l ls new more b : line_run l new false -> lines_run ls more b -> lines_run (l :: ls) (new ++ more) b.

(** A line fits into the buffer with its newline, and has at most 32 words. *)
Definition fine (l : list Z) : Prop := plain l /\ zlen l < INPUT /\ zlen (command_line.words (take 255 l)) <= command_line.ARGS.

Section shell.
Variable junk : Z -> list Z.
Variable junk_argv : list (option (list Z)).
Variable k : kernel.
Variable input : list Z.
Hypothesis Hjunk : forall n, 0 <= n -> zlen (junk n) = n.
Hypothesis Hk : interactive k input.

(** [rest] is what the shell has not consumed yet. *)
Definition reading (st : t) (tr : trace) (rest : list Z) : Prop :=
  exists l unread, holds st l /\ rest = l ++ unread /\ input = got tr ++ unread.

Lemma reading_same st tr tr' rest : got tr' = got tr -> reading st tr rest -> reading st tr' rest.
Proof. intros E (l & u & H1 & H2 & H3). exists l, u. rewrite E. auto. Qed.

Lemma buffer_more st l data rest : holds st l -> zlen data = rest -> zlen l + rest <= INPUT ->
  exists buffer, arr_blit (input_buffer st) (input_buffer_size st) data (zlen data) = Ret buffer /\ holds (mk buffer (input_buffer_size st + rest)) (l ++ data).
Proof.
  intros [Hs Hl [r Hr]] Hd Hfit. pose proof (zlen_nonneg data). pose proof (zlen_nonneg l). rewrite Hs. eexists. split; [apply arr_blit_Ret; lia|].
  rewrite Hr in *. unfold zlen at 1 2. rewrite !Nat2Z.id. rewrite firstn_all. split; cbn [input_buffer input_buffer_size].
  - rewrite zlen_app. lia.
  - rewrite <-Hl. unfold zlen. rewrite length_blit; [reflexivity|]. unfold zlen in *. rewrite length_app in *. lia.
  - unfold blit. rewrite take_app_length. rewrite app_assoc. eauto.
Qed.

Lemma read_line_ok fuel : forall st tr w R l unread out room, holds st l -> l ++ unread = w ++ 10 :: R -> input = got tr ++ unread ->
  plain w -> zlen w < INPUT -> 0 < room <= zlen out -> INPUT - zlen l < Z.of_nat fuel ->
  let n := Z.min room (zlen w + 1) in
  exists tr' st', read_line fuel st out room k tr = Ret (tr', Some (st', take (Z.to_nat n) (w ++ [10]) ++ drop (Z.to_nat n) out, n)) /\
    reading st' tr' R /\ acts tr' = acts tr.
Proof.
  induction fuel as [|fuel IH]; intros st tr w R l unread out room Hst Hl Hin Hw Hwl Hroom Hf n.
  { pose proof (h_length _ _ Hst) as H1. destruct (h_text _ _ Hst) as [r Hr]. rewrite Hr, zlen_app in H1. pose proof (zlen_nonneg r). lia. }
  cbn [read_line]. pose proof (zlen_nonneg w). assert ((exists l', l = w ++ 10 :: l') \/ exists w', w = l ++ w' /\ unread = w' ++ 10 :: R) as [[l' ->]|(w' & -> & Hu)].
  { apply app_eq_inv in Hl. destruct Hl as [(x & -> & Hx)|(x & -> & Hx)]; [|right; eauto]. destruct x as [|c x]; [right; exists []; rewrite !app_nil_r; auto|].
    cbn [app] in Hx. injection Hx as <- _. left. eauto. }
  - destruct (consume_line st w l' out room Hst Hw ltac:(lia)) as (st' & E & Hst'). rewrite E. rewrite (run_pure (Ret _) _ k tr _ eq_refl). fold n. cbv beta iota.
    rewrite (proj2 (Z.eqb_neq n 0)) by lia. cbn [negb]. exists tr, st'. split; [reflexivity|]. split; [|reflexivity].
    exists l', unread. split; [exact Hst'|]. split; [|exact Hin]. rewrite <-app_assoc in Hl. apply app_inv_head in Hl. injection Hl as ->. reflexivity.
  - apply plain_app in Hw as Hw'. destruct Hw' as [Hpl _]. rewrite zlen_app in *. pose proof (zlen_nonneg w'). pose proof (zlen_nonneg l).
    rewrite (consume_none st l out room Hst Hpl) by lia. rewrite (run_pure (Ret _) _ k tr _ eq_refl). cbv beta iota. rewrite Z.eqb_refl. cbn [negb].
    assert (unread <> []) as Hne by (rewrite Hu; destruct w'; discriminate).
    rewrite (h_size _ _ Hst). destruct (ik_read _ _ Hk tr (INPUT - zlen l) unread Hin ltac:(lia) Hne) as (r & Er & Hv & more & Hmore & Hlen).
    rewrite (run_sys _ _ k tr r Er). destruct (buffer_more st l (stored r) (value r) Hst Hlen ltac:(lia)) as (buffer & Eb & Hst'). rewrite (h_size _ _ Hst) in *.
    rewrite (run_pure _ _ k _ buffer Eb). cbn [input_buffer_size]. rewrite (proj2 (Z.leb_gt _ _)) by lia.
    edestruct (IH _ (tr ++ [(Read 0 (INPUT - zlen l), Some r)]) (l ++ w') R _ more out room Hst') as (tr' & st' & E & Hr' & Ha); try assumption; try (rewrite !zlen_app; lia).
    + rewrite <-!app_assoc, <-Hmore, Hu. reflexivity.
    + rewrite got_app. cbn. rewrite app_nil_r, <-app_assoc, <-Hmore. exact Hin.
    + exists tr', st'. split; [rewrite E; subst n; rewrite ?zlen_app; reflexivity|]. split; [exact Hr'|]. rewrite Ha, acts_app. cbn. apply app_nil_r.
Qed.

Lemma run_out {B} (f : Z -> prog B) tr data : exists r, (syscall (Write 0 data) ≫= f) k tr = f (value r) k (tr ++ [(Write 0 data, Some r)]).
Proof. destruct (ik_write _ _ Hk tr data) as (r & E). exists r. exact (run_syscall _ _ _ _ _ E). Qed.

(** What printing leaves unchanged *)
Definition quiet (tr tr' : trace) : Prop := got tr' = got tr /\ acts tr' = acts tr.

Lemma quiet_write tr data r : quiet tr (tr ++ [(Write 0 data, r)]).
Proof. split; [rewrite got_app; destruct r; cbn; apply app_nil_r|rewrite acts_app; cbn; apply app_nil_r]. Qed.

Lemma quiet_trans tr1 tr2 tr3 : quiet tr1 tr2 -> quiet tr2 tr3 -> quiet tr1 tr3.
Proof. intros [? ?] [? ?]. split; congruence. Qed.

Lemma run_puts {B} (f : Z -> prog B) tr data : exists tr' v, (puts data ≫= f) k tr = f v k tr' /\ quiet tr tr'.
Proof.
  unfold puts, print. rewrite run_assoc. destruct (run_out (fun _ => syscall (Write 0 [10]) ≫= f) tr data) as (r & E).
  destruct (run_out f (tr ++ [(Write 0 data, Some r)]) [10]) as (r' & E').
  eexists _, _. split; [rewrite <-E'; exact E|]. eapply quiet_trans; apply quiet_write.
Qed.

Lemma no_nul_exit : ~ (0 ∈ exit_word).
Proof. change exit_word with [101; 120; 105; 116]. rewrite !not_elem_of_cons. repeat split; try lia. apply not_elem_of_nil. Qed.

(** A command in the shell itself *)
Lemma parse_command_ok tr l : plain l -> zlen l <= LINE - 2 -> zlen (command_line.words l) <= command_line.ARGS ->
  exists tr' new b, parse_command junk junk_argv l k tr = Ret (tr', if b : bool then None else Some tt) /\ line_run l new b /\
    got tr' = got tr /\ acts tr' = acts tr ++ new.
Proof.
  intros [H0 _] Hl Hws. unfold parse_command.
  pose proof (command_line.parse_line_words (junk 256) (junk 256) l (Hjunk 256 ltac:(lia)) (Hjunk 256 ltac:(lia)) H0) as Hc. cbv zeta in Hc.
  rewrite take_ge in Hc by (unfold zlen, LINE in Hl; lia). rewrite (proj2 (Z.leb_le _ _)) in Hc by lia. destruct Hc as (c & Ec & Hp).
  rewrite (run_pure _ _ k tr c Ec), (command_line.pd_count _ _ Hp). destruct (command_line.words l) as [|w ws] eqn:Ew.
  { exists tr, [], false. split; [reflexivity|]. split; [apply LBlank; assumption|]. rewrite app_nil_r. auto. }
  rewrite (proj2 (Z.eqb_neq _ _)) by (rewrite zlen_cons; pose proof (zlen_nonneg ws); lia).
  rewrite (run_pure _ _ k tr w) by (apply (command_line.pd_args _ _ Hp); reflexivity).
  assert (~ (0 ∈ w)) as Hw0.
  { intros Hin. apply H0. apply (command_line.words_sub l w); [rewrite Ew; apply list_elem_of_here|exact Hin]. }
  destruct (cstring.strncmp_equal exit_word w [] [] Hw0 no_nul_exit) as (z & Ez & Hz).
  rewrite (run_pure _ _ k tr z) by exact Ez. rewrite Hz. destruct (decide (w = exit_word)) as [->|Hne].
  - rewrite bool_decide_eq_true_2 by reflexivity. destruct (run_puts (fun _ => syscall (Exit 0);; mret tt) tr (text "bye bye")) as (tr' & v & -> & Hq1 & Hq2).
    rewrite (run_syscall_gone _ _ k tr' (ik_exit _ _ Hk tr' 0)). eexists _, [(Exit 0, None)], true. split; [reflexivity|].
    split; [eapply LExit; eassumption|]. split; [rewrite got_app; cbn; rewrite app_nil_r; exact Hq1|rewrite acts_app, Hq2; reflexivity].
  - rewrite bool_decide_eq_false_2 by assumption. destruct (ik_fork _ _ Hk tr) as (r & Er & Hr). rewrite (run_syscall _ _ k tr r Er).
    rewrite (proj2 (Z.eqb_neq _ _)) by assumption. cbn [negb]. destruct (ik_wait _ _ Hk (tr ++ [(Fork, Some r)]) (value r)) as (r' & Er').
    rewrite (run_syscall _ _ k _ r' Er'). eexists _, [(Fork, Some r); (Wait (value r), Some r')], false. split; [reflexivity|].
    split; [eapply LProgram; eassumption|]. split; [rewrite !got_app; cbn; rewrite !app_nil_r; reflexivity|rewrite !acts_app, <-app_assoc; reflexivity].
Qed.

Lemma turn_ok st tr l R : reading st tr (l ++ 10 :: R) -> fine l ->
  exists tr' new b st', turn junk junk_argv st k tr = Ret (tr', if b : bool then None else Some st') /\ line_run l new b /\ acts tr' = acts tr ++ new /\ reading st' tr' R.
Proof.
  intros (h & unread & Hst & Hrest & Hin) (Hl & Hlen & Hws). unfold turn. pose proof (zlen_nonneg l).
  destruct (run_out (fun _ => '(st, line, ret) ← read_line (S (S (Z.to_nat INPUT))) st (junk LINE) (LINE - 1);
     bytes_read ← verify junk ret; if bytes_read =? 0 then puts (text "Malformed line, ignoring");; mret st
     else last ← pure (arr_get line (bytes_read - 1)); if negb (last =? 10) then puts (text "Malformed line, ignoring");; mret st
       else line ← pure (arr_set line (bytes_read - 1) 0); command ← pure (str.until_nul line); parse_command junk junk_argv command;; mret st) tr (text "> ")) as (r & ->).
  set (tr1 := tr ++ [(Write 0 (text "> "), Some r)]). destruct (quiet_write tr (text "> ") (Some r)) as [Hg1 Ha1]. fold tr1 in Hg1, Ha1.
  assert (zlen (junk LINE) = LINE) as Hj by (apply Hjunk; unfold LINE; lia).
  destruct (read_line_ok (S (S (Z.to_nat INPUT))) st tr1 l R h unread (junk LINE) (LINE - 1) Hst (eq_sym Hrest) ltac:(rewrite Hg1; exact Hin) Hl Hlen
    ltac:(rewrite Hj; unfold LINE; lia) ltac:(pose proof (zlen_nonneg h); unfold INPUT; lia)) as (tr2 & st' & E & Hr2 & Ha2).
  rewrite (run_bind _ _ k tr1 _ _ E). cbv beta iota. set (n := Z.min (LINE - 1) (zlen l + 1)) in *. assert (0 < n <= LINE - 1) as Hn by (unfold n, LINE; lia).
  rewrite verify_ok by lia. rewrite (proj2 (Z.eqb_neq n 0)) by lia. destruct (Z.le_gt_cases (zlen l) (LINE - 2)) as [Hshort|Hlong].
  - assert (n = zlen l + 1) as En by (unfold n; lia).
    assert (take (Z.to_nat n) (l ++ [10]) ++ drop (Z.to_nat n) (junk LINE) = l ++ 10 :: drop (Z.to_nat n) (junk LINE)) as ->.
    { rewrite take_ge by (rewrite length_app; cbn [length]; unfold zlen in En; lia). rewrite <-app_assoc. reflexivity. }
    replace (n - 1) with (zlen l) by lia. rewrite (run_pure _ _ k tr2 10) by apply cstring.arr_get_mid. change (10 =? 10) with true. cbn [negb].
    rewrite (run_pure _ _ k tr2 (l ++ 0 :: drop (Z.to_nat n) (junk LINE))).
    2:{ rewrite arr_set_Ret by (rewrite zlen_app, zlen_cons; pose proof (zlen_nonneg (drop (Z.to_nat n) (junk LINE))); lia). rewrite str.str_set_mid. reflexivity. }
    rewrite (run_pure _ _ k tr2 l) by (apply cstring.until_nul_app; apply Hl).
    rewrite take_ge in Hws by (unfold zlen, LINE in Hshort; lia).
    destruct (parse_command_ok tr2 l Hl Hshort Hws) as (tr3 & new & b & E3 & Hrun & Hg3 & Ha3). exists tr3, new, b, st'.
    split; [destruct b; [apply run_gone; exact E3|rewrite (run_bind _ _ k tr2 _ _ E3); reflexivity]|].
    split; [exact Hrun|]. split; [rewrite Ha3, Ha2, Ha1; reflexivity|]. eapply reading_same; [exact Hg3|exact Hr2].
  - assert (n = LINE - 1) as En by (unfold n; lia).
    destruct (lookup_lt_is_Some_2 l (Z.to_nat (n - 1))) as [c Hc]; [rewrite En; unfold zlen, LINE in *; lia|].
    rewrite (run_pure _ _ k tr2 c).
    2:{ apply arr_get_Ret. replace (n - 1) with (Z.of_nat (Z.to_nat (n - 1))) by lia. rewrite znth_of_nat, lookup_app_l by (rewrite length_take, length_app; apply lookup_lt_Some in Hc; lia).
        rewrite lookup_take_lt by lia. apply lookup_app_l_Some. exact Hc. }
    assert (c <> 10) as Hc10 by (intros ->; apply Hl; apply list_elem_of_lookup; eauto). rewrite (proj2 (Z.eqb_neq c 10)) by assumption. cbn [negb].
    destruct (run_puts (fun _ => mret st') tr2 (text "Malformed line, ignoring")) as (tr3 & v & E3 & Hq1 & Hq2). exists tr3, [], false, st'.
    split; [exact E3|]. split; [apply LTooLong; lia|]. rewrite app_nil_r. split; [rewrite Hq2, Ha2, Ha1; reflexivity|]. eapply reading_same; [exact Hq1|exact Hr2].
Qed.

Lemma turns_ok ls : forall st tr, reading st tr (concat (map (fun l => l ++ [10]) ls)) -> Forall fine ls ->
  exists tr' new b st', turns junk junk_argv (length ls) st k tr = Ret (tr', if b : bool then None else Some st') /\ lines_run ls new b /\ acts tr' = acts tr ++ new /\
    (b = false -> reading st' tr' []).
Proof.
  induction ls as [|l ls IH]; intros st tr Hr Hf; cbn [length turns].
  { exists tr, [], false, st. split; [reflexivity|]. split; [constructor|]. rewrite app_nil_r. auto. }
  apply Forall_cons in Hf as [Hl Hls]. cbn [map concat] in Hr. rewrite <-app_assoc in Hr.
  destruct (turn_ok st tr l _ Hr Hl) as (tr1 & new1 & b1 & st1 & E1 & Hrun1 & Ha1 & Hr1). destruct b1.
  { exists tr1, new1, true, st1. split; [apply run_gone; exact E1|]. split; [constructor; exact Hrun1|]. split; [exact Ha1|discriminate]. }
  rewrite (run_bind _ _ k tr _ _ E1). destruct (IH st1 tr1 Hr1 Hls) as (tr2 & new2 & b & st2 & E2 & Hrun2 & Ha2 & Hr2).
  exists tr2, (new1 ++ new2), b, st2. split; [exact E2|]. split; [constructor; assumption|]. split; [rewrite Ha2, Ha1, app_assoc; reflexivity|exact Hr2].
Qed.
End shell.
End session.

(** C30: the shell runs the lines it is given, however the terminal cuts up the
    input.  The lines are shorter than its buffer of 512 characters, hold no
    NUL and have at most 32 words: a longer line keeps it reading for ever and
    more words make it panic.  Blank lines and lines of more than 126 characters are passed
    over; the first line whose first word is "exit" ends the shell; for every
    other one it starts one child and waits for it before it goes on.  Nothing
    of one line is taken for part of another, and when no line ends the
    shell, the whole input has been used up. *)
Theorem shell_runs_lines (junk : Z -> list Z) (junk_argv : list (option (list Z))) (k : kernel) (ls : list (list Z)) :
  (forall n, 0 <= n -> zlen (junk n) = n) -> session.interactive k (concat (map (fun l => l ++ [10]) ls)) -> Forall session.fine ls ->
  exists tr new b st, shell.main junk junk_argv (length ls) k [] = Ret (tr, if b : bool then None else Some st) /\
    session.lines_run ls new b /\ session.acts tr = new /\ (b = false -> session.got tr = concat (map (fun l => l ++ [10]) ls)).
Proof.
  intros Hj Hk Hf. unfold shell.main. destruct (session.run_out k _ Hk (fun _ => shell.turns junk junk_argv (length ls) shell.init) [] (text "WELCOME TO SHELL" ++ [10])) as (r & ->).
  destruct (session.turns_ok junk junk_argv k _ Hj Hk ls shell.init ([] ++ [(Write 0 (text "WELCOME TO SHELL" ++ [10]), Some r)])) as (tr & new & b & st & E & Hrun & Ha & Hr).
  - exists [], (concat (map (fun l => l ++ [10]) ls)). split; [apply lines.holds_init|]. auto.
  - exact Hf.
  - exists tr, new, b, st. split; [exact E|]. split; [exact Hrun|]. split; [exact Ha|]. intros Eb. destruct (Hr Eb) as (h & u & _ & Hnil & Hin).
    symmetry in Hnil. apply app_eq_nil in Hnil as [_ ->]. rewrite app_nil_r in Hin. symmetry. exact Hin.
Qed.

(** A terminal that hands out at most three bytes at a time; children get
    process number 7. *)
Definition slow_terminal (input : list Z) (tr : trace) (c : call) : option reply :=
  match c with
  | Read 0 n => let piece := take (Z.to_nat (Z.min 3 n)) (drop (length (session.got tr)) input) in Some (mk_reply (zlen piece) piece)
  | Fork => Some (mk_reply 7 [])
  | Exit _ => None
  | _ => Some (mk_reply 0 [])
  end.

Lemma slow_terminal_interactive input : session.interactive (slow_terminal input) input.
Proof.
  split; try (intros; cbn; eauto; fail). intros tr n unread Hin Hn Hne. cbn [slow_terminal]. eexists. split; [reflexivity|]. cbn [value stored].
  assert (drop (length (session.got tr)) input = unread) as -> by (rewrite Hin at 1; apply drop_app_length).
  assert (0 < zlen unread) by (destruct unread; [congruence|rewrite zlen_cons; pose proof (zlen_nonneg unread); lia]).
  split; [unfold zlen in *; rewrite length_take; lia|]. exists (drop (Z.to_nat (Z.min 3 n)) unread). split; [symmetry; apply take_drop|reflexivity].
Qed.

Lemma shell_runs_lines_witness : let ls := [text "ls  /"; []; text "exit now"] in
  exists tr, shell.main (fun n => replicate (Z.to_nat n) 7) (replicate 32 None) 3 (slow_terminal (concat (map (fun l => l ++ [10]) ls))) [] = Ret (tr, None) /\
    session.acts tr = [(Fork, Some (mk_reply 7 [])); (Wait 7, Some (mk_reply 0 [])); (Exit 0, None)].
Proof.
  intros ls. destruct (shell_runs_lines (fun n => replicate (Z.to_nat n) 7) (replicate 32 None) _ ls
    ltac:(intros; cbv beta; rewrite zlen_replicate; lia) (slow_terminal_interactive _)) as (tr & new & b & st & E & Hrun & Ha & _).
  - repeat constructor; try (apply lines.plain_check; reflexivity); vm_compute; congruence.
  - exists tr. vm_compute in E. injection E as <- Eb. destruct b; [|discriminate]. split; [vm_compute; reflexivity|]. vm_compute. reflexivity.
Defined.

(** ** The child *)

(** What the child does with the words of a command: the program under the
    name it is given, then, when there is no such file, under /ramfs/bin/. *)
Inductive child_run (w : list Z) (argv : list (option (list Z))) : trace -> Prop :=
| CExec : child_run w argv [(Exec w argv, None)]
| CExecBin r : value r = kdefs.ENOENT -> child_run w argv [(Exec w argv, Some r); (Exec (text "/ramfs/bin/" ++ w) argv, None)]
| CFailed r : value r < 0 -> value r <> kdefs.ENOENT -> child_run w argv [(Exec w argv, Some r); (Exit 127, None)]
| CFailedBin r r' : value r = kdefs.ENOENT -> value r' < 0 ->
    child_run w argv [(Exec w argv, Some r); (Exec (text "/ramfs/bin/" ++ w) argv, Some r'); (Exit 127, None)].

Section child.
Import shell lines session.
Variable junk : Z -> list Z.
Variable junk_argv : list (option (list Z)).
Variable k : kernel.
Hypothesis Hjunk : forall n, 0 <= n -> zlen (junk n) = n.

(** The kernel as the child needs it: [exec] comes back only with an error,
    and error texts fit into the buffer they are asked for. *)
Record executing : Prop := {
  ex_write : forall tr data, exists r, k tr (Write 0 data) = Some r;
  ex_exec : forall tr name argv r, k tr (Exec name argv) = Some r -> value r < 0;
  ex_strerror : forall tr code len, exists r, k tr (Strerror code len) = Some r /\ zlen (stored r) <= len;
  ex_exit : forall tr code, k tr (Exit code) = None
}.
Hypothesis Hk : executing.

Lemma puts_quiet {B} (f : Z -> prog B) tr data : exists tr' v, (puts data ≫= f) k tr = f v k tr' /\ acts tr' = acts tr.
Proof.
  unfold puts, print. rewrite run_assoc. destruct (ex_write Hk tr data) as (r & E). rewrite (run_syscall _ _ k tr r E).
  destruct (ex_write Hk (tr ++ [(Write 0 data, Some r)]) [10]) as (r' & E'). rewrite (run_syscall _ _ k _ r' E').
  eexists _, _. split; [reflexivity|]. rewrite !acts_app. cbn. rewrite !app_nil_r. reflexivity.
Qed.

Lemma until_nul_ends l rest : exists w, str.until_nul (l ++ 0 :: rest) = Ret w.
Proof.
  induction l as [|c l IH]; cbn [app str.until_nul]; [eauto|]. destruct (c =? 0); [eauto|]. destruct IH as [w ->]. rewrite mbind_Ret. eauto.
Qed.

(** What [execute] does when [exec] has failed *)
Lemma failed_ok tr code : exists tr', (r ← sys (Strerror code (LINE - 1));
    message_buf ← pure (arr_blit (junk LINE) 0 (stored r) (zlen (stored r)));
    (if value r >=? 0 then message_buf ← pure (arr_set message_buf (LINE - 1) 0); message ← pure (str.until_nul message_buf); puts message;; mret tt else mret tt);;
    mret 127) k tr = Ret (tr', Some 127) /\ acts tr' = acts tr.
Proof.
  destruct (ex_strerror Hk tr code (LINE - 1)) as (r & E & Hlen). rewrite (run_sys _ _ k tr r E). set (tr1 := tr ++ [(Strerror code (LINE - 1), Some r)]).
  assert (acts tr1 = acts tr) as Ha by (unfold tr1; rewrite acts_app; cbn; apply app_nil_r).
  pose proof (Hjunk LINE ltac:(unfold LINE; lia)) as Hj. pose proof (zlen_nonneg (stored r)).
  set (buf := blit (junk LINE) (Z.to_nat 0) (stored r)). rewrite (run_pure _ _ k tr1 buf).
  2:{ rewrite arr_blit_Ret by (unfold LINE in *; lia). unfold zlen at 1. rewrite Nat2Z.id, firstn_all. reflexivity. }
  assert (length buf = 128%nat) as Hb.
  { unfold buf. rewrite length_blit; unfold zlen, LINE in *; [|change (Z.to_nat 0) with 0%nat]; lia. }
  destruct (value r >=? 0); [|exists tr1; split; [reflexivity|exact Ha]].
  rewrite run_assoc. rewrite (run_pure _ _ k tr1 (zset buf (LINE - 1) 0)) by (apply arr_set_Ret; unfold zlen, LINE; lia). rewrite run_assoc.
  assert (exists l rest, zset buf (LINE - 1) 0 = l ++ 0 :: rest) as (l & rest & Ez).
  { exists (take 127 buf), (drop 128 buf). unfold zset, LINE. change (0 <=? 128 - 1) with true. cbv iota. change (Z.to_nat (128 - 1)) with 127%nat.
    rewrite insert_take_drop by lia. reflexivity. }
  rewrite Ez. destruct (until_nul_ends l rest) as [w Ew]. rewrite (run_pure _ _ k tr1 w Ew). rewrite run_assoc.
  destruct (puts_quiet (fun _ => mret tt ≫= fun _ => mret 127) tr1 w) as (tr2 & v & E2 & Ha2). exists tr2. split; [exact E2|congruence].
Qed.

Definition bin_path (w : list Z) : list Z := text "/ramfs/bin/" ++ w.

Lemma bin_path_ok w : ~ (0 ∈ w) -> zlen w + 11 < 128 -> (s ← str.from_cstr_all (junk 128) (text "/ramfs/bin/"); s ← str.append_str s w; str.c_str s) = Ret (bin_path w).
Proof.
  intros H0 Hl. pose proof (Hjunk 128 ltac:(lia)) as Hj. unfold str.from_cstr_all.
  destruct (str.str_from_cstr (junk 128) (text "/ramfs/bin/") (zlen (junk 128) - 1) ltac:(lia)) as (s & -> & _ & Hc & Hr). rewrite mbind_Ret.
  rewrite Hj in Hc, Hr. change (take (Z.to_nat (Z.min (128 - 1) (128 - 1))) (text "/ramfs/bin/")) with (text "/ramfs/bin/") in Hr. specialize (Hr ltac:(discriminate)).
  pose proof (str.str_append_str w s _ Hr) as Ha. change (zlen (text "/ramfs/bin/")) with 11 in Ha. rewrite Hc, (proj2 (Z.ltb_lt _ _)) in Ha by lia.
  destruct Ha as (s' & -> & Hr' & _). rewrite mbind_Ret. apply (str.str_c_str _ _ Hr'). rewrite elem_of_app. intros [H|H]; [|contradiction].
  change (text "/ramfs/bin/") with [47; 114; 97; 109; 102; 115; 47; 98; 105; 110; 47] in H. apply list_elem_of_In in H. vm_compute in H. intuition discriminate.
Qed.

(** [exit(execute(line))] of a parsed line *)
Lemma execute_ok tr c w ws argv : command_line.parsed c (w :: ws) -> command_line.fill_argv c junk_argv = Ret argv -> ~ (0 ∈ w) -> zlen w + 11 < 128 ->
  exists tr' new, (code ← execute junk junk_argv c; syscall (Exit code);; mret tt) k tr = Ret (tr', None) /\ acts tr' = acts tr ++ new /\ child_run w argv new.
Proof.
  intros Hp Ev H0 Hl. pose proof (bin_path_ok w H0 Hl) as Hpath. unfold execute. rewrite run_assoc, (run_pure _ _ k tr argv Ev). rewrite run_assoc.
  rewrite (run_pure _ _ k tr w) by (apply (command_line.pd_args _ _ Hp); reflexivity). rewrite run_assoc. destruct (k tr (Exec w argv)) as [r|] eqn:E1.
  2:{ rewrite (run_syscall_gone _ _ k tr E1). eexists _, _. split; [reflexivity|]. split; [rewrite acts_app; reflexivity|constructor]. }
  rewrite (run_syscall _ _ k tr r E1). set (tr1 := tr ++ [(Exec w argv, Some r)]). assert (acts tr1 = acts tr ++ [(Exec w argv, Some r)]) as Ha1 by (unfold tr1; apply acts_app).
  pose proof (ex_exec Hk _ _ _ _ E1) as Hr. destruct (Z.eqb_spec (value r) kdefs.ENOENT) as [Er|Er].
  - destruct (str.from_cstr_all (junk 128) (text "/ramfs/bin/")) as [s1| | |] eqn:Es1; try discriminate Hpath. rewrite mbind_Ret in Hpath.
    destruct (str.append_str s1 w) as [s2| | |] eqn:Es2; try discriminate Hpath. rewrite mbind_Ret in Hpath.
    rewrite run_assoc, run_assoc, (run_pure (Ret s1) _ k tr1 s1 eq_refl), run_assoc, (run_pure _ _ k tr1 s2 Es2), run_assoc, (run_pure _ _ k tr1 (bin_path w) Hpath).
    destruct (k tr1 (Exec (bin_path w) argv)) as [r'|] eqn:E2.
    2:{ rewrite (run_syscall_gone _ _ k tr1 E2). eexists _, _. split; [reflexivity|].
        split; [rewrite acts_app, Ha1, <-app_assoc; reflexivity|apply (CExecBin w argv r Er)]. }
    rewrite (run_syscall _ _ k tr1 r' E2). pose proof (ex_exec Hk _ _ _ _ E2) as Hr'. rewrite (proj2 (Z.ltb_lt _ _)) by lia.
    destruct (failed_ok (tr1 ++ [(Exec (bin_path w) argv, Some r')]) (value r')) as (tr3 & E3 & Ha3). rewrite (run_bind _ _ k _ _ _ E3).
    rewrite (run_syscall_gone _ _ k tr3 (ex_exit Hk tr3 127)). eexists _, _. split; [reflexivity|].
    split; [rewrite acts_app, Ha3, acts_app, Ha1, <-!app_assoc; reflexivity|apply (CFailedBin w argv r r' Er Hr')].
  - rewrite run_assoc, run_ret, (proj2 (Z.ltb_lt _ _)) by lia. destruct (failed_ok tr1 (value r)) as (tr3 & E3 & Ha3). rewrite (run_bind _ _ k _ _ _ E3).
    rewrite (run_syscall_gone _ _ k tr3 (ex_exit Hk tr3 127)). eexists _, _. split; [reflexivity|].
    split; [rewrite acts_app, Ha3, Ha1, <-!app_assoc; reflexivity|apply (CFailed w argv r Hr Er)].
Qed.
End child.

(** In the child that [fork] creates for a command the shell replaces itself
    by the program: first the name as it is typed, then the file of that name
    in /ramfs/bin, with the words of the line, ended by a null pointer, as
    arguments; when neither can be started the child ends with status 127.  It
    never returns to the loop that reads lines. *)
Theorem shell_child_executes (junk : Z -> list Z) (junk_argv : list (option (list Z))) (k : kernel) (tr : trace) (r : reply) (l w : list Z) (ws : list (list Z)) :
  (forall n, 0 <= n -> zlen (junk n) = n) -> zlen junk_argv = 32 -> executing k -> k tr Fork = Some r -> value r = 0 ->
  lines.plain l -> zlen l <= 255 -> command_line.words l = w :: ws -> zlen ws < 31 -> w <> shell.exit_word -> zlen w + 11 < 128 ->
  exists tr' new argv, shell.parse_command junk junk_argv l k tr = Ret (tr', None) /\ session.acts tr' = session.acts tr ++ (Fork, Some r) :: new /\
    take (length (w :: ws)) argv = Some <$> (w :: ws) /\ znth argv (zlen (w :: ws)) = Some None /\ child_run w argv new.
Proof.
  intros Hj Hv Hk Ef Er [H0 _] Hl Ew Hws Hne Hlw. unfold shell.parse_command.
  pose proof (command_line.parse_line_words (junk 256) (junk 256) l (Hj 256 ltac:(lia)) (Hj 256 ltac:(lia)) H0) as Hc. cbv zeta in Hc.
  rewrite take_ge, Ew in Hc by (unfold zlen in Hl; lia). assert (zlen (w :: ws) < 32) as Hlt by (rewrite zlen_cons; lia). rewrite (proj2 (Z.leb_le _ _)) in Hc by (unfold command_line.ARGS; lia).
  destruct Hc as (c & Ec & Hp). rewrite (run_pure _ _ k tr c Ec), (command_line.pd_count _ _ Hp). rewrite (proj2 (Z.eqb_neq _ _)) by (rewrite zlen_cons; pose proof (zlen_nonneg ws); lia).
  rewrite (run_pure _ _ k tr w) by (apply (command_line.pd_args _ _ Hp); reflexivity).
  assert (~ (0 ∈ w)) as Hw0 by (intros Hin; apply H0; apply (command_line.words_sub l w); [rewrite Ew; apply list_elem_of_here|exact Hin]).
  destruct (cstring.strncmp_equal shell.exit_word w [] [] Hw0 session.no_nul_exit) as (z & Ez & Hz).
  rewrite (run_pure _ _ k tr z) by exact Ez. rewrite Hz, bool_decide_eq_false_2 by assumption. rewrite (run_syscall _ _ k tr r Ef), Er. cbn [negb Z.eqb].
  pose proof (command_line.fill_loop_spec c (w :: ws) Hp (w :: ws) [] junk_argv eq_refl ltac:(unfold zlen in Hv; lia) eq_refl) as Hf. rewrite (proj2 (Z.ltb_lt _ _)) in Hf by lia.
  destruct Hf as (argv & Ev & Ht & Hn). destruct (execute_ok junk junk_argv k Hj Hk (tr ++ [(Fork, Some r)]) c w ws argv Hp) as (tr' & new & E & Ha & Hrun); try assumption.
  { unfold command_line.fill_argv. rewrite (command_line.pd_count _ _ Hp). unfold zlen. rewrite Nat2Z.id. exact Ev. }
  exists tr', new, argv. split; [exact E|]. split; [rewrite Ha, session.acts_app, <-app_assoc; reflexivity|]. auto.
Qed.
