(* ===== verification/Init.v ===== *)
(** * The first program and what the boot loader hands over
      (kernel/init.cc, kernel/multiboot.cc, kernel/tar.h)

    The init program runs in user mode with access to the kernel's memory: it
    turns the modules of the boot loader into files of the RAM file system,
    unpacks the archive among them and starts the program the command line
    names.  What it reads from the boot loader's structures is an argument.
    A failed assertion or panic ends it. *)

From S2P Require Import Prelude Pool PageAlloc Text Words KeyValue KernelDefs Memory Userspace.
From stdpp Require Import strings list.
#[local] Open Scope Z_scope.

Import userspace.

(** ** multiboot.cc *)

Module multiboot.

Record multiboot_mod := mk_mod { mod_start : Z; mod_end : Z; mod_string : list Z }.

(** The members of [multiboot_info] that are used; the command line and the
    module names are the C strings their addresses lead to. *)
Record multiboot_info := mk_info { cmd_line : list Z; mods_count : Z; mods_addr : Z; mods : list multiboot_mod }.

Definition MOD_SIZE : Z := 16.

Definition multiboot_memory_type (type : Z) : list Z :=
  if type =? 1 then text "available"
  else if type =? 2 then text "reserved"
  else if type =? 3 then text "acpi reclaimable"
  else if type =? 4 then text "nvs"
  else if type =? 5 then text "badram"
  else text "n/a".

Fixpoint last_loop (n : nat) (i : Z) (m : list multiboot_mod) (last : Z) : outcome Z :=
  match n with
  | O => Ret last
  | S n' => x ← arr_get m i; last_loop n' (i + 1) m (Z.max last (memory.PHYS2KERNVIRT (mod_end x)))
  end.

Definition multiboot_last_address (h : multiboot_info) : outcome Z :=
  let last := Z.max 0 (memory.PHYS2KERNVIRT (u32 (mods_addr h + MOD_SIZE * mods_count h))) in
  last_loop (Z.to_nat (mods_count h)) 0 (mods h) last.

Lemma last_loop_max n : forall i m last, (Z.to_nat i + n <= length m)%nat -> 0 <= i ->
  exists r, last_loop n i m last = Ret r /\ last <= r /\
    forall j x, i <= j < i + Z.of_nat n -> znth m j = Some x -> memory.PHYS2KERNVIRT (mod_end x) <= r.
Proof.
  induction n as [|n IH]; intros i m last Hl Hi; cbn [last_loop]; [exists last; split; [reflexivity|]; split; [lia|]; intros; lia|].
  destruct (znth_lt_Some m i) as [x Hx]; [unfold zlen; lia|]. rewrite (arr_get_Ret _ _ _ Hx), mbind_Ret.
  destruct (IH (i + 1) m (Z.max last (memory.PHYS2KERNVIRT (mod_end x)))) as (r & E & Hle & Hr); [lia|lia|]. exists r. split; [exact E|]. split; [lia|].
  intros j y Hj Hy. destruct (Z.eq_dec j i) as [->|]; [assert (y = x) as -> by congruence; lia|]. apply (Hr j y); [lia|exact Hy].
Qed.

(** The address is behind all modules: the page allocator, whose memory starts
    behind it, does not hand them out. *)
Lemma last_address_behind (h : multiboot_info) :
  mods_count h = zlen (mods h) -> Forall (fun m => 0 <= mod_end m < 2 ^ 30) (mods h) ->
  exists last, multiboot_last_address h = Ret last /\
    (last < 2 ^ 32 -> Forall (fun m => mod_end m <= memory.KERNVIRT2PHYS last) (mods h)).
Proof.
  intros Hn Hm. unfold multiboot_last_address. rewrite Hn. change (Z.to_nat (zlen (mods h))) with (Z.to_nat (Z.of_nat (length (mods h)))). rewrite Nat2Z.id.
  destruct (last_loop_max (length (mods h)) 0 (mods h) (Z.max 0 (memory.PHYS2KERNVIRT (u32 (mods_addr h + MOD_SIZE * zlen (mods h)))))) as (last & E & Hge & Hall); [lia|lia|].
  exists last. split; [exact E|]. intros Hlt. apply Forall_forall. intros m Hin. apply list_elem_of_lookup in Hin as [j Hj].
  assert (memory.PHYS2KERNVIRT (mod_end m) <= last) as Hle.
  { apply (Hall (Z.of_nat j)); [apply lookup_lt_Some in Hj; lia|]. rewrite znth_of_nat. exact Hj. }
  pose proof (proj1 (Forall_forall _ _) Hm m ltac:(apply list_elem_of_lookup; eauto)) as Hr. cbv beta in Hr.
  unfold memory.PHYS2KERNVIRT, memory.KERNVIRT2PHYS, memory.KERNEL_VIRTUAL_BASE, u32 in *.
  rewrite (Z.mod_small (mod_end m + _)) in Hle by lia. rewrite (Z.mod_small (last - _)) by lia. lia.
Qed.
End multiboot.

(** ** tar.h and init.cc *)

Module init.
Import kdefs multiboot.

(** Offsets of the fields of [tar_entry] *)
Definition TAR_ENTRY : Z := 512.
Definition NAME_END : Z := 99.
Definition SIZE_FIELD : Z := 124.
Definition SIZE_LENGTH : Z := 12.
Definition TYPE_FIELD : Z := 156.
Definition MAGIC_FIELD : Z := 257.
Definition MAGIC_LENGTH : Z := 6.

(** The characters a string constructor finds at a position of a header *)
Fixpoint to_nul (l : list Z) : list Z :=
  match l with
  | [] => []
  | c :: l' => if c =? 0 then [] else c :: to_nul l'
  end.

Definition field (hdr : list Z) (offset : Z) : list Z := to_nul (drop (Z.to_nat offset) hdr).

Section init.
Variable junk : Z -> list Z.

Definition puts_sys (fd : Z) (fm : str.t) : prog Z := syscall (Write fd (shown fm)).

Definition verify (retval : Z) : prog Z :=
  if retval >=? 0 then mret retval
  else
    msg ← pure (fmt.format (junk 128) (text "call failed with code %d") [fmt.ANum (u32 retval)]);
    puts_sys 0 msg;;
    syscall (Exit 1);;
    mret 1.

(** The descriptor of the console *)
Variable kernout : Z.

Definition write_info (path filename : list Z) (start_addr size : Z) : prog Z :=
  msg ← pure (fmt.format (junk 128) (text "init: writing /ramfs%s%s" ++ [10]) [fmt.AStr path; fmt.AStr filename]);
  puts_sys kernout msg;;
  name ← pure (fmt.format (junk 64) (text "/ramfs%s%s") [fmt.AStr path; fmt.AStr filename]);
  name ← pure (str.c_str name);
  ret ← syscall (Open name OPEN_CREATE);
  mod_fd ← verify ret;
  ret ← syscall (Control mod_fd CTRL_RAMFS_SET_FILE_RANGE start_addr size);
  verify ret;;
  ret ← syscall (Close mod_fd);
  verify ret;;
  mret 0.

Fixpoint modules_loop (n : nat) (i : Z) (modules : list multiboot_mod) : prog unit :=
  match n with
  | O => mret tt
  | S n' =>
      m ← pure (arr_get modules i);
      write_info (text "/modules/") (mod_string m) (memory.PHYS2KERNVIRT (mod_start m)) (u32 (mod_end m - mod_start m));;
      modules_loop n' (i + 1) modules
  end.

Definition load_multiboot_modules (mbhdr : multiboot_info) : prog unit :=
  ret ← syscall (Mkdir (text "/ramfs/modules"));
  verify ret;;
  msg ← pure (fmt.format (junk 64) (text "init: mods_count: %d" ++ [10]) [fmt.ANum (mods_count mbhdr)]);
  puts_sys kernout msg;;
  msg ← pure (fmt.format (junk 128) (text "init: cmd_line: " ++ [34] ++ text "%s" ++ [34; 10]) [fmt.AStr (cmd_line mbhdr)]);
  puts_sys kernout msg;;
  modules_loop (Z.to_nat (mods_count mbhdr)) 0 (mods mbhdr).

(** What is done with a header that has been read *)
Definition extract_entry (fd file_mem_start : Z) (hdr : list Z) : prog unit :=
  first ← pure (arr_get hdr 0);
  if first =? 0 then mret tt
  else
    expected_magic ← pure (str.from_cstr_all (junk 6) (text "ustar"));
    magic ← pure (str.from_cstr (junk 6) (field hdr MAGIC_FIELD) MAGIC_LENGTH);
    pure (passert (str.eqb magic expected_magic));;
    last ← pure (arr_get hdr NAME_END);
    pure (passert (last =? 0));;
    entry_name ← pure (str.from_cstr (junk 101) (field hdr 0) 100);
    name ← pure (str.c_str entry_name);
    size ← pure (fmt.tar_parse_octal (junk 13) (field hdr SIZE_FIELD) SIZE_LENGTH);
    r ← sys (Tell fd);
    verify (value r);;
    cur_pos ← pure (match stored r with p :: _ => Ret p | [] => Ret 0 end);
    type ← pure (arr_get hdr TYPE_FIELD);
    (if (type =? 48) || (type =? 0) then
       write_info [47] name (u32 (file_mem_start + cur_pos)) size;; mret tt
     else if type =? 53 then
       buf ← pure (fmt.format (junk 128) (text "/ramfs/%s") [fmt.AStr name]);
       buf ← pure (str.c_str buf);
       ret ← syscall (Mkdir buf);
       verify ret;; mret tt
     else mret tt);;
    ret ← syscall (Seek fd (to_i32 (ALIGN_UP size 512)) SEEK_CUR);
    verify ret;;
    mret tt.

(** The loop: every turn reads a header from the archive. *)
Fixpoint extract_loop (fuel : nat) (fd file_mem_start : Z) (hdr : list Z) : prog unit :=
  match fuel with
  | O => pure NoFuel
  | S fuel' =>
      r ← sys (Read fd TAR_ENTRY);
      hdr ← pure (arr_blit hdr 0 (stored r) (zlen (stored r)));
      n ← verify (value r);
      if n =? TAR_ENTRY then
        extract_entry fd file_mem_start hdr;;
        extract_loop fuel' fd file_mem_start hdr
      else mret tt
  end.

(** The range that [CTRL_RAMFS_GET_FILE_RANGE] stores *)
Definition range_of (r : reply) : Z * Z :=
  match stored r with start :: size :: _ => (start, size) | _ => (0, 0) end.

Definition extract_tar (fuel : nat) (filename : list Z) (start_ptr size_ptr : Z) : prog unit :=
  ret ← syscall (Open filename 0);
  fd ← verify ret;
  r ← sys (Control fd CTRL_RAMFS_GET_FILE_RANGE start_ptr size_ptr);
  verify (value r);;
  let '(file_mem_start, _) := range_of r in
  extract_loop fuel fd file_mem_start (junk TAR_ENTRY);;
  ret ← syscall (Close fd);
  verify ret;;
  mret tt.

Definition setup_term_at (filename : list Z) (dest_fd : Z) : prog unit :=
  ret ← syscall (Open filename OPEN_RETAIN_EXEC);
  source_fd ← verify ret;
  if negb (source_fd =? dest_fd) then
    ret ← syscall (Dup2 source_fd dest_fd);
    verify ret;;
    ret ← syscall (Close source_fd);
    verify ret;;
    mret tt
  else mret tt.

Definition setup_std_fds (stdout_filename : list Z) : prog unit :=
  setup_term_at stdout_filename 0;; setup_term_at stdout_filename 1;; setup_term_at stdout_filename 2.

End init.

Definition init_tar : list Z := text "/ramfs/modules/init.tar".

(** [fuel] bounds the headers of the archive; the pointers are those of the
    local variables of [extract_tar]. *)
Definition init_main (junk : Z -> list Z) (fuel : nat) (start_ptr size_ptr : Z) (multiboot_header : multiboot_info) : prog Z :=
  ret ← syscall (Open (text "/dev/term0") 0);
  kernout ← verify junk ret;
  load_multiboot_modules junk kernout multiboot_header;;
  extract_tar junk kernout fuel init_tar start_ptr size_ptr;;
  attributes ← pure (keyvalue.keyvalue (junk 256) (cmd_line multiboot_header));
  init_command ← pure (keyvalue.lookup attributes (text "init"));
  match init_command with
  | None => pure Panic
  | Some init_command =>
      msg ← pure (fmt.format (junk 256) (text "executing '%s'..." ++ [10]) [fmt.AStr init_command]);
      puts_sys kernout msg;;
      child_pid ← syscall Fork;
      if child_pid =? 0 then
        setup_std_fds junk (text "/dev/term0");;
        ret ← syscall (Exec init_command [Some init_command; Some (cmd_line multiboot_header); None]);
        verify junk ret;;
        mret 0
      else
        syscall (Wait child_pid);;
        syscall Shutdown;;
        mret 0
  end.

End init.
