(* ===== verification/InitFacts.v ===== *)
(** * Unpacking the archive of the init program (kernel/init.cc) *)

From S2P Require Import Prelude Pool Text TextFacts Words KernelDefs Ramfs RamfsIO Memory Userspace Init.
From stdpp Require Import strings list.
#[local] Open Scope Z_scope.

Import userspace kdefs.

(** ** Archives *)

Module tar.
Import init.

Record entry := mk_entry { e_name : list Z; e_type : Z; e_data : list Z }.

Definition magic : list Z := text "ustar".

(** The block [h] describes the entry. *)
Record header_of (h : list Z) (e : entry) : Prop := {
  ho_length : zlen h = TAR_ENTRY;
  ho_name : exists rest, h = e_name e ++ 0 :: rest;
  ho_no_nul : ~ (0 ∈ e_name e);
  ho_name_size : 0 < zlen (e_name e) <= NAME_END;
  ho_name_end : znth h NAME_END = Some 0;
  ho_size : exists ds more, drop (Z.to_nat SIZE_FIELD) h = map (fun d => d + 48) ds ++ more /\ length ds = 11%nat /\ Forall (fun d => 0 <= d < 8) ds /\
    str.value_of 8 ds = zlen (e_data e);
  ho_type : znth h TYPE_FIELD = Some (e_type e);
  ho_magic : take 5 (drop (Z.to_nat MAGIC_FIELD) h) = magic
}.

(** An archive: entries whose data is padded to whole blocks, and empty
    blocks at the end *)
Inductive archive : list entry -> list Z -> Prop :=
| A_end : archive [] []
| A_empty es rest : archive es rest -> archive es (replicate (Z.to_nat TAR_ENTRY) 0 ++ rest)
| A_entry e es h pad rest : header_of h e -> zlen (e_data e) + zlen pad = ALIGN_UP (zlen (e_data e)) 512 -> archive es rest ->
    archive (e :: es) (h ++ e_data e ++ pad ++ rest).

Lemma to_nul_app w rest : ~ (0 ∈ w) -> to_nul (w ++ 0 :: rest) = w.
Proof.
  induction w as [|c w IH]; intros H; cbn [app to_nul]; [reflexivity|]. apply not_elem_of_cons in H as [Hc Hw].
  rewrite (proj2 (Z.eqb_neq c 0)) by congruence. rewrite IH by assumption. reflexivity.
Qed.

(** A text without terminators at a position is at the start of the field. *)
Lemma to_nul_prefix w rest : ~ (0 ∈ w) -> exists more, to_nul (w ++ rest) = w ++ more.
Proof.
  induction w as [|c w IH]; intros H; cbn [app to_nul]; [eauto|]. apply not_elem_of_cons in H as [Hc Hw].
  rewrite (proj2 (Z.eqb_neq c 0)) by congruence. destruct (IH Hw) as [more ->]. eauto.
Qed.

Lemma digits_no_nul ds : Forall (fun d => 0 <= d < 8) ds -> ~ (0 ∈ map (fun d => d + 48) ds).
Proof. intros H Hin. apply list_elem_of_In, in_map_iff in Hin as (d & E & Hd). apply list_elem_of_In in Hd. pose proof (proj1 (Forall_forall _ _) H d Hd). cbv beta in *. lia. Qed.

Lemma text_no_percent l : forallb (fun c => negb (c =? 37)) l = true -> ~ (37 ∈ l).
Proof. rewrite forallb_forall. intros H Hin. apply list_elem_of_In, H in Hin. discriminate. Qed.

(** The texts of a format hold no other flags. *)
Ltac pieces_ok := repeat (apply Forall_cons; split; [apply text_no_percent; reflexivity|]); apply Forall_nil; exact I.

Section fields.
Variable h : list Z.
Variable e : entry.
Hypothesis He : header_of h e.

Lemma field_name : field h 0 = e_name e.
Proof. destruct (ho_name _ _ He) as [rest ->]. unfold field. cbn [Z.to_nat drop]. apply to_nul_app, He. Qed.

Lemma field_size : exists ds more, field h SIZE_FIELD = map (fun d => d + 48) ds ++ more /\ length ds = 11%nat /\ str.value_of 8 ds = zlen (e_data e).
Proof.
  destruct (ho_size _ _ He) as (ds & more & E & Hl & Hd & Hv). unfold field. rewrite E. destruct (to_nul_prefix _ more (digits_no_nul _ Hd)) as [more' ->]. eauto.
Qed.

Lemma field_magic junk : zlen junk = 6 -> exists s, str.from_cstr junk (field h MAGIC_FIELD) MAGIC_LENGTH = Ret s /\ str.text s magic.
Proof.
  intros Hj. destruct (str.str_from_cstr junk (field h MAGIC_FIELD) MAGIC_LENGTH ltac:(lia)) as (s & E & Ht & _ & _). exists s. split; [exact E|].
  rewrite Hj in Ht. change (Z.to_nat (Z.min MAGIC_LENGTH (6 - 1))) with 5%nat in Ht. unfold field in Ht.
  pose proof (ho_magic _ _ He) as Hm. rewrite <-(take_drop 5 (drop (Z.to_nat MAGIC_FIELD) h)), Hm in Ht.
  destruct (to_nul_prefix magic (drop 5 (drop (Z.to_nat MAGIC_FIELD) h))) as [more Em]; [change magic with [117; 115; 116; 97; 114]; intros H; apply list_elem_of_In in H; vm_compute in H; intuition discriminate|].
  rewrite Em in Ht. exact Ht.
Qed.

Lemma first_char : exists c, arr_get h 0 = Ret c /\ c <> 0.
Proof.
  destruct (ho_name _ _ He) as [rest E]. pose proof (ho_no_nul _ _ He) as Hn. pose proof (ho_name_size _ _ He) as Hs.
  destruct (e_name e) as [|c w]; [change (zlen (@nil Z)) with 0 in Hs; lia|]. exists c. apply not_elem_of_cons in Hn as [Hc _].
  split; [|congruence]. rewrite E. reflexivity.
Qed.
End fields.

Lemma magic_ok junk : zlen junk = 6 -> exists s, str.from_cstr_all junk magic = Ret s /\ str.text s magic.
Proof.
  intros Hj. unfold str.from_cstr_all. destruct (str.str_from_cstr junk magic (zlen junk - 1) ltac:(lia)) as (s & E & Ht & _ & _). exists s. split; [exact E|].
  rewrite Hj in Ht. exact Ht.
Qed.
End tar.

(** ** Unpacking *)

Module unpack.
Import init tar.

(** What the calls on a descriptor do to the cursor of its file *)
Definition moves (fd : Z) (cr : call * option reply) : option ramfs_io.fop :=
  match cr with
  | (Read f n, Some _) => if f =? fd then Some (ramfs_io.FRead n) else None
  | (Seek f offset relative, Some _) => if f =? fd then Some (ramfs_io.FSeek offset relative) else None
  | _ => None
  end.

Definition cursor (fd : Z) (content : list Z) (tr : trace) : Z :=
  fold_left (fun pos o => (ramfs_io.cursor_step content pos o).1) (omap (moves fd) tr) 0.

Lemma cursor_app fd content tr cr :
  cursor fd content (tr ++ [cr]) = match moves fd cr with Some o => (ramfs_io.cursor_step content (cursor fd content tr) o).1 | None => cursor fd content tr end.
Proof.
  unfold cursor. rewrite omap_app, fold_left_app. cbn. destruct (moves fd cr); reflexivity.
Qed.

(** The kernel as [extract_tar] needs it: the archive is a file that lies at
    [start] and is read through descriptor [fd] as the RAM file system reads;
    the other calls succeed. *)
Record filing (k : kernel) (filename : list Z) (fd start : Z) (content : list Z) : Prop := {
  fl_fd : 0 <= fd;
  fl_open : forall tr, exists r, k tr (Open filename 0) = Some r /\ value r = fd;
  fl_range : forall tr p q, exists r, k tr (Control fd CTRL_RAMFS_GET_FILE_RANGE p q) = Some r /\ 0 <= value r /\ stored r = [start; zlen content];
  fl_read : forall tr n, 0 <= n -> exists r, k tr (Read fd n) = Some r /\ (value r, stored r) = (ramfs_io.cursor_step content (cursor fd content tr) (ramfs_io.FRead n)).2;
  fl_tell : forall tr, exists r, k tr (Tell fd) = Some r /\ 0 <= value r /\ stored r = [cursor fd content tr];
  fl_seek : forall tr offset relative, exists r, k tr (Seek fd offset relative) = Some r /\ 0 <= value r;
  fl_write : forall tr f data, exists r, k tr (Write f data) = Some r;
  fl_create : forall tr name, exists r, k tr (Open name OPEN_CREATE) = Some r /\ 0 <= value r;
  fl_set : forall tr f a n, exists r, k tr (Control f CTRL_RAMFS_SET_FILE_RANGE a n) = Some r /\ 0 <= value r;
  fl_mkdir : forall tr name, exists r, k tr (Mkdir name) = Some r /\ 0 <= value r;
  fl_close : forall tr f, exists r, k tr (Close f) = Some r /\ 0 <= value r
}.

(** The calls that change the file system *)
Definition is_change (cr : call * option reply) : bool :=
  match cr.1 with
  | Open _ flags => negb (flags =? 0)
  | Control _ f _ _ => f =? CTRL_RAMFS_SET_FILE_RANGE
  | Mkdir _ => true
  | _ => false
  end.

Definition changes (tr : trace) : trace := filter is_change tr.

Lemma changes_app tr tr' : changes (tr ++ tr') = changes tr ++ changes tr'.
Proof. apply filter_app. Qed.

Definition path_of (e : entry) : list Z := text "/ramfs/" ++ e_name e.

(** What is made of the entries: a file over the bytes of each regular file,
    a directory for each directory. *)
Inductive made (mem : Z -> Z) : list entry -> trace -> Prop :=
| M_nil : made mem [] []
| M_file e es fd address r new : e_type e = 48 \/ e_type e = 0 -> ramfs_io.bytes mem address (zlen (e_data e)) = e_data e -> made mem es new ->
    made mem (e :: es) ((Open (path_of e) OPEN_CREATE, Some fd) :: (Control (value fd) CTRL_RAMFS_SET_FILE_RANGE address (zlen (e_data e)), Some r) :: new)
| M_directory e es r new : e_type e = 53 -> made mem es new -> made mem (e :: es) ((Mkdir (path_of e), Some r) :: new)
| M_other e es new : e_type e <> 48 -> e_type e <> 0 -> e_type e <> 53 -> made mem es new -> made mem (e :: es) new.

Section unpack.
Variable junk : Z -> list Z.
Variable k : kernel.
Variables kernout fd start : Z.
Variable filename content : list Z.
Hypothesis Hjunk : forall n, 0 <= n -> zlen (junk n) = n.
Hypothesis Hk : filing k filename fd start content.

(** Calls that leave the cursor alone *)
Definition still (tr tr' : trace) (new : trace) : Prop := cursor fd content tr' = cursor fd content tr /\ changes tr' = changes tr ++ new.

Lemma still_refl tr : still tr tr [].
Proof. split; [reflexivity|]. rewrite app_nil_r. reflexivity. Qed.

Lemma still_trans tr1 tr2 tr3 new1 new2 : still tr1 tr2 new1 -> still tr2 tr3 new2 -> still tr1 tr3 (new1 ++ new2).
Proof. intros [H1 H2] [H3 H4]. split; [congruence|]. rewrite H4, H2, app_assoc. reflexivity. Qed.

Lemma still_step tr c r : moves fd (c, Some r) = None -> still tr (tr ++ [(c, Some r)]) (if is_change (c, Some r) then [(c, Some r)] else []).
Proof. intros Hm. split; [rewrite cursor_app, Hm; reflexivity|]. rewrite changes_app. f_equal. unfold changes. cbn. destruct (is_change (c, Some r)); reflexivity. Qed.

Lemma verify_run {B} v (f : Z -> prog B) tr : 0 <= v -> (verify junk v ≫= f) k tr = f v k tr.
Proof. intros H. unfold verify. rewrite Z.geb_leb, (proj2 (Z.leb_le _ _)) by lia. reflexivity. Qed.

(** A call whose result is verified *)
Lemma call_ok {B} c r (f : Z -> prog B) tr : k tr c = Some r -> 0 <= value r ->
  ((ret ← syscall c; verify junk ret) ≫= f) k tr = f (value r) k (tr ++ [(c, Some r)]).
Proof. intros E Hr. rewrite run_assoc, (run_syscall _ _ k tr r E). apply verify_run. exact Hr. Qed.

Definition name_fits (name : list Z) : Prop := ~ (0 ∈ name) /\ zlen name <= 56.

Lemma write_info_ok tr name address size : name_fits name ->
  exists tr' f r, write_info junk kernout [47] name address size k tr = Ret (tr', Some 0) /\
    still tr tr' [(Open (text "/ramfs/" ++ name) OPEN_CREATE, Some f); (Control (value f) CTRL_RAMFS_SET_FILE_RANGE address size, Some r)].
Proof.
  intros [H0 Hl]. unfold write_info. pose proof (zlen_nonneg name).
  destruct (formats.format_strings (junk 128) [(text "init: writing /ramfs", [47]); ([], name)] [10]) as (msg & Em & _).
  { pieces_ok. }
  { apply (text_no_percent [10] eq_refl). }
  { rewrite Hjunk by lia. unfold formats.filled. cbn [map concat fst snd]. rewrite !zlen_app. change (zlen (text "init: writing /ramfs")) with 20. change (zlen [47]) with 1. change (zlen [10]) with 1. change (zlen (@nil Z)) with 0. lia. }
  rewrite (run_pure _ _ k tr msg Em). unfold puts_sys. destruct (fl_write _ _ _ _ _ Hk tr kernout (shown msg)) as (rw & Ew). rewrite (run_syscall _ _ k tr rw Ew).
  set (tr1 := tr ++ [(Write kernout (shown msg), Some rw)]). pose proof (still_step tr (Write kernout (shown msg)) rw eq_refl) as S1. fold tr1 in S1.
  destruct (formats.format_strings (junk 64) [(text "/ramfs", [47]); ([], name)] []) as (path & Ep & Hp).
  { pieces_ok. }
  { apply not_elem_of_nil. }
  { rewrite Hjunk by lia. unfold formats.filled. cbn [map concat fst snd]. rewrite !zlen_app. change (zlen (text "/ramfs")) with 6. change (zlen [47]) with 1. change (zlen (@nil Z)) with 0. lia. }
  rewrite (run_pure _ _ k tr1 path Ep).
  assert (formats.filled [(text "/ramfs", [47]); ([], name)] [] = text "/ramfs/" ++ name) as Ef.
  { unfold formats.filled. cbn [map concat fst snd]. rewrite !app_nil_r. reflexivity. }
  rewrite Ef in Hp. rewrite (run_pure _ _ k tr1 (text "/ramfs/" ++ name)).
  2:{ apply (str.str_c_str _ _ Hp). rewrite elem_of_app. intros [Hin|Hin]; [|contradiction]. apply list_elem_of_In in Hin. vm_compute in Hin. intuition discriminate. }
  destruct (fl_create _ _ _ _ _ Hk tr1 (text "/ramfs/" ++ name)) as (f & Eo & Hf). rewrite (run_syscall _ _ k tr1 f Eo), (verify_run _ _ _ Hf).
  set (tr2 := tr1 ++ [_]). pose proof (still_step tr1 (Open (text "/ramfs/" ++ name) OPEN_CREATE) f eq_refl) as S2. fold tr2 in S2.
  destruct (fl_set _ _ _ _ _ Hk tr2 (value f) address size) as (r & Es & Hr). rewrite (run_syscall _ _ k tr2 r Es), (verify_run _ _ _ Hr).
  set (tr3 := tr2 ++ [_]). pose proof (still_step tr2 (Control (value f) CTRL_RAMFS_SET_FILE_RANGE address size) r eq_refl) as S3. fold tr3 in S3.
  destruct (fl_close _ _ _ _ _ Hk tr3 (value f)) as (rc & Ec & Hc). rewrite (run_syscall _ _ k tr3 rc Ec), (verify_run _ _ _ Hc).
  pose proof (still_step tr3 (Close (value f)) rc eq_refl) as S4. eexists _, f, r. split; [reflexivity|].
  exact (still_trans _ _ _ _ _ S1 (still_trans _ _ _ _ _ S2 (still_trans _ _ _ _ _ S3 S4))).
Qed.

Lemma mkdir_ok tr name : name_fits name -> exists tr' r,
  (buf ← pure (fmt.format (junk 128) (text "/ramfs/%s") [fmt.AStr name]); buf ← pure (str.c_str buf); ret ← syscall (Mkdir buf); verify junk ret;; mret tt) k tr = Ret (tr', Some tt) /\
  still tr tr' [(Mkdir (text "/ramfs/" ++ name), Some r)].
Proof.
  intros [H0 Hl]. pose proof (zlen_nonneg name). destruct (formats.format_strings (junk 128) [(text "/ramfs/", name)] []) as (path & Ep & Hp).
  { pieces_ok. }
  { apply not_elem_of_nil. }
  { rewrite Hjunk by lia. unfold formats.filled. cbn [map concat fst snd]. rewrite !zlen_app. change (zlen (text "/ramfs/")) with 7. change (zlen (@nil Z)) with 0. lia. }
  rewrite (run_pure _ _ k tr path Ep). assert (formats.filled [(text "/ramfs/", name)] [] = text "/ramfs/" ++ name) as Ef by (unfold formats.filled; cbn [map concat fst snd]; rewrite !app_nil_r; reflexivity).
  rewrite Ef in Hp. rewrite (run_pure _ _ k tr (text "/ramfs/" ++ name)).
  2:{ apply (str.str_c_str _ _ Hp). rewrite elem_of_app. intros [Hin|Hin]; [|contradiction]. apply list_elem_of_In in Hin. vm_compute in Hin. intuition discriminate. }
  destruct (fl_mkdir _ _ _ _ _ Hk tr (text "/ramfs/" ++ name)) as (r & Er & Hr). rewrite (run_syscall _ _ k tr r Er), (verify_run _ _ _ Hr).
  eexists _, r. split; [reflexivity|]. exact (still_step tr (Mkdir (text "/ramfs/" ++ name)) r eq_refl).
Qed.

Variable mem : Z -> Z.
Hypothesis Hcontent : content = ramfs_io.bytes mem start (zlen content).
Hypothesis Hstart : 0 <= start /\ start + zlen content < 2 ^ 32.
Hypothesis Hsize : zlen content < 2 ^ 31 - 512.

(** The data of an entry lies where the file is put. *)
Lemma data_at done data rest : content = done ++ data ++ rest -> ramfs_io.bytes mem (start + zlen done) (zlen data) = data.
Proof.
  intros E. pose proof (zlen_nonneg done). pose proof (zlen_nonneg data). pose proof (zlen_nonneg rest).
  assert (zlen content = zlen done + (zlen data + zlen rest)) as Hz by (rewrite E, !zlen_app; lia).
  assert (take (Z.to_nat (zlen data)) (drop (Z.to_nat (zlen done)) content) = data) as Ht.
  { rewrite E. change (Z.to_nat (zlen done)) with (Z.to_nat (Z.of_nat (length done))). change (Z.to_nat (zlen data)) with (Z.to_nat (Z.of_nat (length data))).
    rewrite !Nat2Z.id, drop_app_length, take_app_length. reflexivity. }
  rewrite <-Ht at 2. rewrite Hcontent, ramfs_io.bytes_window by lia. unfold ramfs_io.bytes. do 2 f_equal. lia.
Qed.

Lemma align_bounds n : 0 <= n < 2 ^ 31 -> n <= ALIGN_UP n 512 < n + 512.
Proof.
  intros H. unfold ALIGN_UP, u32. rewrite (Z.mod_small (n + 512)) by lia. rewrite Z.mod_small by lia. change (512 - 1) with (2 ^ 9 - 1).
  rewrite land_lnot_mod by lia. change (2 ^ 9) with 512. dlia.
Qed.

Definition entry_fits (e : entry) : Prop := zlen (e_name e) <= 56.

(** The name that is taken from a header *)
Lemma name_ok h e : header_of h e -> exists s, str.from_cstr (junk 101) (field h 0) 100 = Ret s /\ str.c_str s = Ret (e_name e).
Proof.
  intros He. rewrite (field_name _ _ He). pose proof (ho_name_size _ _ He) as Hs. pose proof (Hjunk 101 ltac:(lia)) as Hj.
  destruct (str.str_from_cstr (junk 101) (e_name e) 100 ltac:(lia)) as (s & E & _ & _ & Hr). exists s. split; [exact E|]. rewrite Hj in Hr.
  change (Z.to_nat (Z.min 100 (101 - 1))) with 100%nat in Hr. rewrite take_ge in Hr by (unfold zlen, NAME_END in Hs; lia).
  apply (str.str_c_str _ (e_name e)); [|apply He]. apply Hr. intros En. rewrite En in Hs. change (zlen (@nil Z)) with 0 in Hs. lia.
Qed.

(** What is done for the kind of entry *)
Lemma kind_ok tr e address : name_fits (e_name e) -> ramfs_io.bytes mem address (zlen (e_data e)) = e_data e -> exists tr' new,
  (if (e_type e =? 48) || (e_type e =? 0) then write_info junk kernout [47] (e_name e) address (zlen (e_data e));; mret tt
   else if e_type e =? 53 then
     buf ← pure (fmt.format (junk 128) (text "/ramfs/%s") [fmt.AStr (e_name e)]); buf ← pure (str.c_str buf); ret ← syscall (Mkdir buf); verify junk ret;; mret tt
   else mret tt) k tr = Ret (tr', Some tt) /\ still tr tr' new /\ forall es more, made mem es more -> made mem (e :: es) (new ++ more).
Proof.
  intros Hn Hb. destruct (Z.eqb_spec (e_type e) 48) as [E48|N48]; [|destruct (Z.eqb_spec (e_type e) 0) as [E0|N0]; [|destruct (Z.eqb_spec (e_type e) 53) as [E53|N53]]]; cbn [orb].
  1,2: destruct (write_info_ok tr (e_name e) address (zlen (e_data e)) Hn) as (tr' & f & r & E & Hst); rewrite (run_bind _ _ k tr _ _ E);
    eexists _, _; split; [reflexivity|]; split; [exact Hst|]; intros es more Hm; exact (M_file mem e es f address r more ltac:(auto) Hb Hm).
  - destruct (mkdir_ok tr (e_name e) Hn) as (tr' & r & E & Hst). exists tr'. eexists. split; [exact E|]. split; [exact Hst|]. intros es more Hm. exact (M_directory mem e es r more E53 Hm).
  - exists tr, []. split; [reflexivity|]. split; [apply still_refl|]. intros es more Hm. exact (M_other mem e es more N48 N0 N53 Hm).
Qed.

Lemma entry_ok tr h e done pad rest : header_of h e -> entry_fits e -> content = done ++ h ++ e_data e ++ pad ++ rest ->
  zlen (e_data e) + zlen pad = ALIGN_UP (zlen (e_data e)) 512 -> cursor fd content tr = zlen done + TAR_ENTRY ->
  exists tr' new, extract_entry junk kernout fd start h k tr = Ret (tr', Some tt) /\ cursor fd content tr' = zlen (done ++ h ++ e_data e ++ pad) /\
    changes tr' = changes tr ++ new /\ forall es more, made mem es more -> made mem (e :: es) (new ++ more).
Proof.
  intros He Hfit Ec Hpad Hcur. pose proof (ho_length _ _ He) as Hh. pose proof (zlen_nonneg done). pose proof (zlen_nonneg (e_data e)). pose proof (zlen_nonneg pad). pose proof (zlen_nonneg rest).
  assert (zlen content = zlen done + (TAR_ENTRY + (zlen (e_data e) + (zlen pad + zlen rest)))) as Hz by (rewrite Ec, !zlen_app, Hh; reflexivity). unfold TAR_ENTRY in *.
  unfold extract_entry. destruct (first_char _ _ He) as (c & Efc & Hc). rewrite (run_pure _ _ k tr c Efc), (proj2 (Z.eqb_neq c 0)) by exact Hc.
  destruct (magic_ok (junk 6) (Hjunk 6 ltac:(lia))) as (s1 & Es1 & Ht1). rewrite (run_pure _ _ k tr s1 Es1).
  destruct (field_magic _ _ He (junk 6) (Hjunk 6 ltac:(lia))) as (s2 & Es2 & Ht2). rewrite (run_pure _ _ k tr s2 Es2).
  rewrite (run_pure _ _ k tr tt) by (rewrite (str.str_eqb _ _ _ _ Ht2 Ht1), bool_decide_eq_true_2 by reflexivity; reflexivity).
  rewrite (run_pure _ _ k tr 0) by (apply arr_get_Ret, He). rewrite (run_pure _ _ k tr tt) by reflexivity.
  destruct (name_ok _ _ He) as (s & En & Ecs). rewrite (run_pure _ _ k tr s En), (run_pure _ _ k tr (e_name e) Ecs).
  destruct (field_size _ _ He) as (ds & more & Ef & Hds & Hv). rewrite Ef. rewrite (run_pure _ _ k tr (zlen (e_data e))).
  2:{ change SIZE_LENGTH with 12. rewrite (formats.tar_octal_ok (junk 13) ds more (Hjunk 13 ltac:(lia)) Hds), Hv. unfold u32. rewrite Z.mod_small by lia. reflexivity. }
  destruct (fl_tell _ _ _ _ _ Hk tr) as (r & Er & Hr & Est). rewrite (run_sys _ _ k tr r Er), (verify_run _ _ _ Hr), Est.
  set (tr1 := tr ++ [(Tell fd, Some r)]). pose proof (still_step tr (Tell fd) r eq_refl) as S1. fold tr1 in S1.
  rewrite (run_pure (Ret (cursor fd content tr)) _ k tr1 _ eq_refl). rewrite (run_pure _ _ k tr1 (e_type e)) by (apply arr_get_Ret, He).
  assert (u32 (start + cursor fd content tr) = start + zlen (done ++ h)) as -> by (rewrite Hcur, zlen_app, Hh; unfold u32; rewrite Z.mod_small by lia; reflexivity).
  destruct (kind_ok tr1 e (start + zlen (done ++ h))) as (tr2 & new & E2 & S2 & Hm).
  { split; [apply He|exact Hfit]. }
  { apply (data_at (done ++ h) (e_data e) (pad ++ rest)). rewrite Ec, <-!app_assoc. reflexivity. }
  rewrite (run_bind _ _ k tr1 _ _ E2). destruct (fl_seek _ _ _ _ _ Hk tr2 (to_i32 (ALIGN_UP (zlen (e_data e)) 512)) SEEK_CUR) as (r3 & E3 & Hr3).
  rewrite (run_syscall _ _ k tr2 r3 E3), (verify_run _ _ _ Hr3). eexists _, new. split; [reflexivity|]. pose proof (still_trans _ _ _ _ _ S1 S2) as [Sc Sn].
  split; [|split; [rewrite changes_app, Sn; cbn; rewrite app_nil_r; reflexivity|exact Hm]].
  rewrite cursor_app. cbn [moves]. rewrite Z.eqb_refl. unfold ramfs_io.cursor_step. change (SEEK_CUR =? SEEK_CUR) with true. cbv iota. cbn [fst].
  rewrite Sc, Hcur. pose proof (align_bounds (zlen (e_data e)) ltac:(lia)) as Hal. rewrite <-Hpad in *.
  assert (to_i32 (zlen (e_data e) + zlen pad) = zlen (e_data e) + zlen pad) as ->.
  { unfold to_i32, u32. rewrite Z.mod_small by lia. rewrite (proj2 (Z.ltb_lt _ _)) by lia. reflexivity. }
  rewrite (proj2 (Z.ltb_ge _ _)) by lia. rewrite !zlen_app, Hh. lia.
Qed.

(** Reading the next block of the archive *)
Lemma read_block_ok {B} tr hdr done rest (f : Z -> list Z -> prog B) : content = done ++ rest -> cursor fd content tr = zlen done -> zlen hdr = TAR_ENTRY ->
  exists r, let data := take 512 rest in
  (r ← sys (Read fd TAR_ENTRY); hdr ← pure (arr_blit hdr 0 (stored r) (zlen (stored r))); n ← verify junk (value r); f n hdr) k tr =
    f (zlen data) (data ++ drop (length data) hdr) k (tr ++ [(Read fd TAR_ENTRY, Some r)]) /\
  cursor fd content (tr ++ [(Read fd TAR_ENTRY, Some r)]) = zlen done + zlen data /\ changes (tr ++ [(Read fd TAR_ENTRY, Some r)]) = changes tr.
Proof.
  intros Ec Hcur Hh. destruct (fl_read _ _ _ _ _ Hk tr TAR_ENTRY ltac:(unfold TAR_ENTRY; lia)) as (r & Er & Hr). exists r. cbv zeta.
  assert (take (Z.to_nat TAR_ENTRY) (drop (Z.to_nat (cursor fd content tr)) content) = take 512 rest) as Ed.
  { rewrite Hcur, Ec. change (Z.to_nat (zlen done)) with (Z.to_nat (Z.of_nat (length done))). rewrite Nat2Z.id, drop_app_length. reflexivity. }
  cbn [ramfs_io.cursor_step snd] in Hr. rewrite Ed in Hr. injection Hr as Hv Hs. set (data := take 512 rest) in *.
  assert (0 <= zlen data <= TAR_ENTRY) as Hd by (unfold data, zlen, TAR_ENTRY; rewrite length_take; lia).
  rewrite (run_sys _ _ k tr r Er). rewrite (run_pure _ _ k _ (data ++ drop (length data) hdr)).
  2:{ rewrite Hs, arr_blit_Ret by lia. unfold zlen at 1. rewrite Nat2Z.id, firstn_all. reflexivity. }
  rewrite verify_run by lia. rewrite Hv. split; [reflexivity|]. split.
  - rewrite cursor_app. cbn [moves]. rewrite Z.eqb_refl. cbn [ramfs_io.cursor_step fst]. rewrite Ed, Hcur. reflexivity.
  - rewrite changes_app. cbn. apply app_nil_r.
Qed.

Lemma loop_ok es rest : archive es rest -> forall fuel done tr hdr, content = done ++ rest -> cursor fd content tr = zlen done -> zlen hdr = TAR_ENTRY ->
  zlen rest < 512 * Z.of_nat fuel -> Forall entry_fits es ->
  exists tr' new, extract_loop junk kernout fuel fd start hdr k tr = Ret (tr', Some tt) /\ changes tr' = changes tr ++ new /\ made mem es new.
Proof.
  induction 1 as [|es rest Ha IH|e es h pad rest He Hpad Ha IH]; intros fuel done tr hdr Ec Hcur Hh Hf Hfit; (destruct fuel as [|fuel]; [match goal with H : zlen ?l < _ |- _ => pose proof (zlen_nonneg l); lia end|]); cbn [extract_loop].
  - destruct (read_block_ok tr hdr done [] (fun n hdr => if n =? TAR_ENTRY then extract_entry junk kernout fd start hdr;; extract_loop junk kernout fuel fd start hdr else mret tt) Ec Hcur Hh) as (r & -> & _ & Hch).
    eexists _, []. split; [reflexivity|]. split; [rewrite app_nil_r; exact Hch|constructor].
  - set (block := replicate (Z.to_nat TAR_ENTRY) 0) in *. assert (length block = 512%nat) as Hbl by (unfold block; rewrite length_replicate; reflexivity).
    destruct (read_block_ok tr hdr done (block ++ rest) (fun n hdr => if n =? TAR_ENTRY then extract_entry junk kernout fd start hdr;; extract_loop junk kernout fuel fd start hdr else mret tt) Ec Hcur Hh) as (r & -> & Hc & Hch).
    assert (take 512 (block ++ rest) = block) as Et by (rewrite take_app_le, take_ge by lia; reflexivity). rewrite Et in *.
    assert (zlen block = TAR_ENTRY) as Hzb by (unfold zlen; rewrite Hbl; reflexivity). rewrite Hzb, Z.eqb_refl. rewrite (drop_ge hdr) by (unfold zlen, TAR_ENTRY in Hh; lia). rewrite app_nil_r.
    set (tr1 := tr ++ [(Read fd TAR_ENTRY, Some r)]) in *.
    assert (extract_entry junk kernout fd start block k tr1 = Ret (tr1, Some tt)) as Ee by (unfold block; reflexivity). rewrite (run_bind _ _ k tr1 _ _ Ee).
    destruct (IH fuel (done ++ block) tr1 block) as (tr' & new & E & Hn & Hm); try assumption.
    + rewrite Ec, <-app_assoc. reflexivity.
    + rewrite Hc, zlen_app. reflexivity.
    + rewrite zlen_app, Hzb in Hf. unfold TAR_ENTRY in Hf. lia.
    + exists tr', new. split; [exact E|]. split; [rewrite Hn, Hch; reflexivity|exact Hm].
  - apply Forall_cons in Hfit as [Hfe Hfit]. pose proof (ho_length _ _ He) as Hhl.
    destruct (read_block_ok tr hdr done (h ++ e_data e ++ pad ++ rest) (fun n hdr => if n =? TAR_ENTRY then extract_entry junk kernout fd start hdr;; extract_loop junk kernout fuel fd start hdr else mret tt) Ec Hcur Hh) as (r & -> & Hc & Hch).
    assert (take 512 (h ++ e_data e ++ pad ++ rest) = h) as Et by (rewrite take_app_le, take_ge by (unfold zlen, TAR_ENTRY in Hhl; lia); reflexivity). rewrite Et in *.
    rewrite Hhl, Z.eqb_refl. rewrite (drop_ge hdr) by (unfold zlen, TAR_ENTRY in Hh, Hhl; lia). rewrite app_nil_r. set (tr1 := tr ++ [(Read fd TAR_ENTRY, Some r)]) in *.
    destruct (entry_ok tr1 h e done pad rest He Hfe Ec Hpad) as (tr2 & new1 & E2 & Hc2 & Hn2 & Hm2); [rewrite Hc, Hhl; reflexivity|]. rewrite (run_bind _ _ k tr1 _ _ E2).
    destruct (IH fuel (done ++ h ++ e_data e ++ pad) tr2 h) as (tr' & new & E & Hn & Hm); try assumption.
    + rewrite Ec, <-!app_assoc. reflexivity.
    + rewrite !zlen_app, Hhl in Hf. unfold TAR_ENTRY in Hf. pose proof (zlen_nonneg (e_data e)). pose proof (zlen_nonneg pad). lia.
    + exists tr', (new1 ++ new). split; [exact E|]. split; [rewrite Hn, Hn2, Hch, app_assoc; reflexivity|]. apply Hm2. exact Hm.
Qed.
End unpack.
End unpack.

(** C27: the init program unpacks its archive: for an archive that lies in memory
    at [start], whose entry names have at most 56 characters (a longer one makes
    [write_info] panic) and which is read through the RAM file system,
    [extract_tar] returns
    after creating, in the order of the archive, a directory for every
    directory entry and for every regular entry a file whose memory range holds
    exactly the data of the entry; nothing else is changed, and the empty
    blocks at the end stop it. *)
Theorem init_extracts_archive (junk : Z -> list Z) (k : kernel) (mem : Z -> Z) (kernout fd start p q : Z) (filename content : list Z) (es : list tar.entry) (fuel : nat) (tr : trace) :
  (forall n, 0 <= n -> zlen (junk n) = n) -> unpack.filing k filename fd start content -> tar.archive es content -> Forall unpack.entry_fits es ->
  content = ramfs_io.bytes mem start (zlen content) -> 0 <= start /\ start + zlen content < 2 ^ 32 -> zlen content < 2 ^ 31 - 512 ->
  unpack.cursor fd content tr = 0 -> zlen content < 512 * Z.of_nat fuel ->
  exists tr' new, init.extract_tar junk kernout fuel filename p q k tr = Ret (tr', Some tt) /\ unpack.changes tr' = unpack.changes tr ++ new /\ unpack.made mem es new.
Proof.
  intros Hj Hk Ha Hfit Hc Hs Hz Hcur Hf. unfold init.extract_tar. destruct (unpack.fl_open _ _ _ _ _ Hk tr) as (r & Er & Hr). pose proof (unpack.fl_fd _ _ _ _ _ Hk) as Hfd.
  rewrite (run_syscall _ _ k tr r Er), (unpack.verify_run junk k) by lia. rewrite Hr. set (tr1 := tr ++ [_]). pose proof (unpack.still_step fd content tr (Open filename 0) r eq_refl) as S1. fold tr1 in S1.
  destruct (unpack.fl_range _ _ _ _ _ Hk tr1 p q) as (r2 & Er2 & Hr2 & Est). rewrite (run_sys _ _ k tr1 r2 Er2), (unpack.verify_run junk k _ _ _ Hr2).
  unfold init.range_of. rewrite Est. set (tr2 := tr1 ++ [_]). pose proof (unpack.still_step fd content tr1 (Control fd CTRL_RAMFS_GET_FILE_RANGE p q) r2 eq_refl) as S2. fold tr2 in S2.
  destruct (unpack.still_trans _ _ _ _ _ _ _ S1 S2) as [Hc2 Hn2]. cbn in Hn2. rewrite app_nil_r in Hn2.
  destruct (unpack.loop_ok junk k kernout fd start filename content Hj Hk mem Hc Hs Hz es content Ha fuel [] tr2 (junk init.TAR_ENTRY)) as (tr3 & new & E & Hn & Hm); try assumption.
  - reflexivity.
  - rewrite Hc2, Hcur. reflexivity.
  - apply Hj. unfold init.TAR_ENTRY. lia.
  - rewrite (run_bind _ _ k tr2 _ _ E). destruct (unpack.fl_close _ _ _ _ _ Hk tr3 fd) as (r4 & Er4 & Hr4). rewrite (run_syscall _ _ k tr3 r4 Er4), (unpack.verify_run junk k _ _ _ Hr4).
    eexists _, new. split; [reflexivity|]. split; [|exact Hm]. rewrite unpack.changes_app, Hn, Hn2. cbn. rewrite app_nil_r. reflexivity.
Qed.

(** A header block *)
Definition block (name digits : list Z) (type : Z) : list Z :=
  pad_to 124 0 name ++ map (fun d => d + 48) digits ++ replicate 21 0 ++ [type] ++ replicate 100 0 ++ tar.magic ++ replicate 250 0.

Definition digits_of (n : Z) : list Z := replicate 10 0 ++ [n].

Definition small_archive : list Z :=
  block (text "a") (digits_of 2) 48 ++ [104; 105] ++ replicate 510 0 ++ block (text "bin/") (digits_of 0) 53 ++ [] ++ [] ++ replicate 512 0 ++ [].

Lemma block_header name n type data : 0 <= n < 8 -> ~ (0 ∈ name) -> 0 < zlen name <= 56 -> zlen data = n ->
  tar.header_of (block name (digits_of n) type) (tar.mk_entry name type data).
Proof.
  intros Hn H0 Hl Hd. pose proof (zlen_nonneg name). assert (exists pad, pad_to 124 0 name = name ++ 0 :: pad /\ length (name ++ 0 :: pad) = 124%nat) as (pad & Ep & Hp).
  { unfold pad_to. exists (replicate (Z.to_nat (123 - zlen name)) 0). replace (Z.to_nat (124 - zlen name)) with (S (Z.to_nat (123 - zlen name))) by lia.
    split; [reflexivity|]. rewrite length_app. cbn [length]. rewrite length_replicate. unfold zlen in *. lia. }
  assert (forall i, zlen name < i < 124 -> znth (name ++ 0 :: pad) i = Some 0) as Hz.
  { intros i Hi. rewrite <-Ep. unfold pad_to. rewrite znth_app_r by lia. unfold znth. rewrite (proj2 (Z.leb_le _ _)) by lia. apply lookup_replicate_2. lia. }
  unfold block. rewrite Ep. split; cbn [tar.e_name tar.e_type tar.e_data]; try assumption.
  - unfold zlen. rewrite length_app, Hp. reflexivity.
  - eexists. rewrite <-app_assoc. reflexivity.
  - unfold init.NAME_END. lia.
  - unfold init.NAME_END. rewrite znth_app_l by (unfold zlen; lia). apply Hz. lia.
  - exists (digits_of n). eexists. split; [|split; [reflexivity|split]].
    + change (Z.to_nat init.SIZE_FIELD) with 124%nat. rewrite <-Hp at 1. rewrite drop_app_length. reflexivity.
    + unfold digits_of. apply Forall_app. split; [apply Forall_replicate; lia|repeat constructor; lia].
    + rewrite Hd. unfold str.value_of, digits_of. cbn [replicate app fold_left]. lia.
  - rewrite znth_app_r by (unfold zlen, init.TYPE_FIELD; lia). unfold zlen. rewrite Hp. reflexivity.
  - replace (Z.to_nat init.MAGIC_FIELD) with (length (name ++ 0%Z :: pad) + 133)%nat by (rewrite Hp; reflexivity). rewrite drop_app_add. reflexivity.
Qed.

Definition small_entries : list tar.entry := [tar.mk_entry (text "a") 48 [104; 105]; tar.mk_entry (text "bin/") 53 []].

Lemma small_archive_ok : tar.archive small_entries small_archive.
Proof.
  unfold small_archive, small_entries.
  apply (tar.A_entry (tar.mk_entry (text "a") 48 [104; 105]) _ (block (text "a") (digits_of 2) 48) (replicate 510 0)); [|reflexivity|].
  - apply block_header; [lia| |vm_compute; split; congruence|reflexivity]. intros H. apply list_elem_of_In in H. vm_compute in H. intuition discriminate.
  - apply (tar.A_entry (tar.mk_entry (text "bin/") 53 []) _ (block (text "bin/") (digits_of 0) 53) []); [|reflexivity|].
    + apply block_header; [lia| |vm_compute; split; congruence|reflexivity]. intros H. apply list_elem_of_In in H. vm_compute in H. intuition discriminate.
    + change (replicate 512 0 ++ []) with (replicate (Z.to_nat init.TAR_ENTRY) 0 ++ []). repeat constructor.
Qed.

(** A kernel with the archive at address 1000, opened as descriptor 5; files
    that are created get descriptor 6. *)
Definition archive_kernel (content : list Z) (tr : trace) (c : call) : option reply :=
  let cur := unpack.cursor 5 content tr in
  match c with
  | Open _ flags => Some (mk_reply (if flags =? 0 then 5 else 6) [])
  | Read 5 n => let '(v, d) := (ramfs_io.cursor_step content cur (ramfs_io.FRead n)).2 in Some (mk_reply v d)
  | Tell 5 => Some (mk_reply 0 [cur])
  | Control _ _ _ _ => Some (mk_reply 0 [1000; zlen content])
  | _ => Some (mk_reply 0 [])
  end.

Lemma archive_kernel_ok content : unpack.filing (archive_kernel content) (text "t.tar") 5 1000 content.
Proof.
  split; [lia|intros; eexists; split; reflexivity|..]; intros; eexists; first [reflexivity|split; [reflexivity|]]; cbn [value stored]; try (split; [|reflexivity]); try lia.
  - reflexivity.
  - change (OPEN_CREATE =? 0) with false. lia.
Qed.

Definition archive_memory (content : list Z) (a : Z) : Z := default 0 (znth content (a - 1000)).

Lemma init_extracts_archive_witness :
  exists tr', init.extract_tar (fun n => replicate (Z.to_nat n) 7) 0 5 (text "t.tar") 0 0 (archive_kernel small_archive) [] = Ret (tr', Some tt) /\
    unpack.changes tr' = [(Open (text "/ramfs/a") kdefs.OPEN_CREATE, Some (mk_reply 6 [])); (Control 6 kdefs.CTRL_RAMFS_SET_FILE_RANGE 1512 2, Some (mk_reply 0 [1000; 2048]));
      (Mkdir (text "/ramfs/bin/"), Some (mk_reply 0 []))].
Proof.
  destruct (init_extracts_archive (fun n => replicate (Z.to_nat n) 7) (archive_kernel small_archive) (archive_memory small_archive) 0 5 1000 0 0 (text "t.tar") small_archive small_entries 5 [])
    as (tr' & new & E & Hn & Hm).
  - intros. rewrite zlen_replicate. lia.
  - apply archive_kernel_ok.
  - apply small_archive_ok.
  - repeat constructor; vm_compute; congruence.
  - vm_compute. reflexivity.
  - vm_compute. split; congruence.
  - vm_compute. reflexivity.
  - reflexivity.
  - vm_compute. reflexivity.
  - exists tr'. split; [exact E|]. vm_compute in E. injection E as <-. vm_compute. reflexivity.
Defined.

(** A name of 57 characters, which the archive format allows, is too long for
    the path. *)
Example write_info_long_name : init.write_info (fun n => replicate (Z.to_nat n) 7) 0 [47] (replicate 57 97) 1512 2 (archive_kernel small_archive) [] = Panic.
Proof. vm_compute. reflexivity. Qed.
