(* ===== verification/LiveHttpd.v ===== *)
(** * The web server: a protocol stack on the network device
      (programs/live-httpd/main.cc)

    The program opens the network device, reads packets behind their lengths
    from it, gives them to the protocol stack and writes the frames the stack
    sends back to the device in the same form.  Log messages, which go to the
    console, are left out. *)

From S2P Require Import Prelude Pool Text KernelDefs NetUtils Tcp Net Rtl8139 Userspace.
From stdpp Require Import strings list.
#[local] Open Scope Z_scope.

Import userspace.

Module live_httpd.
Import bytes.

(** [file_device::send] *)
Definition send (fd : Z) (data : list Z) : prog Z :=
  pure (passert (zlen data <? 0xFFFF));;
  ret ← syscall (Write fd (le16 (zlen data)));
  if ret <=? 0 then mret ret else syscall (Write fd data).

(** [http_server::on_receive]: what it does with the connection *)
Definition crlf : list Z := [13; 10].

Definition message : list Z :=
  text "HTTP/1.1 200 OK" ++ crlf ++ text "Server: peos2" ++ crlf ++ text "Content-Length: 17" ++ crlf ++
  text "Content-Type: text/plain" ++ crlf ++ text "Connection: Closed" ++ crlf ++ crlf ++ text "Handled by peos2" ++ [10].

Definition on_receive (data : list Z) : list tcp.app_action := [tcp.AppSend message; tcp.AppClose].

Section httpd.
Variable junk : Z -> list Z.
(** The reassembly storage of the stack *)
Variable storage : list Z.

Definition clear_frames (s : net.stack) : net.stack :=
  net.mk_stack (net.hwaddr s) (net.mappings s) (net.active_probes s) (net.local s) (net.netmask s) (net.default_gateway s)
    (net.arp_wait_buffer s) (net.wait_bytes s) (net.next_datagram_id s) (net.reassembly_buffers s) (net.tcp_world s) [].

(** The stack calls the device for every frame; its operations make no other
    system calls, so the frames can be sent when an operation is done. *)
Fixpoint send_all (fd : Z) (frames : list (list Z)) : prog unit :=
  match frames with
  | [] => mret tt
  | f :: frames' => send fd f;; send_all fd frames'
  end.

Definition with_stack (fd : Z) (op : stM net.stack unit) (s : net.stack) : prog net.stack :=
  '(_, s) ← pure (op (clear_frames s));
  send_all fd (net.frames s);;
  mret (clear_frames s).

Definition TIMEOUT_DURATION : Z := 200.
Definition PDU : Z := 1518.

Record t := mk { stack_ : net.stack; last_tick : Z; packet_size : list Z }.

Definition current_time : prog Z :=
  r ← sys Currenttime; pure (match stored r with time :: _ => Ret time | [] => Ret 0 end).

(** One turn of the loop of [feed_data]; the result says whether it goes on. *)
Definition feed_turn (fd : Z) (st : t) : prog (t * bool) :=
  ret ← syscall (Set_timeout TIMEOUT_DURATION);
  verify junk ret;;
  '(ret, size) ← read fd (packet_size st) 2;
  this_tick ← current_time;
  let tick_delta_ms := u32 (this_tick - last_tick st) in
  s ← with_stack fd (net.stack_tick tick_delta_ms) (stack_ st);
  let st := mk s this_tick size in
  if ret =? kdefs.ETIMEOUT then mret (st, true)
  else if ret <? 0 then mret (st, false)
  else
    length ← pure (match size with [b0; b1] => Ret (of_le16 b0 b1) | _ => Undef end);
    '(ret, pdu) ← read fd (junk PDU) length;
    if ret <? 0 then mret (st, false)
    else if negb (ret =? length) then mret (st, true)
    else
      s ← with_stack fd (net.eth_on_receive on_receive storage (take (Z.to_nat length) pdu)) s;
      mret (mk s this_tick size, true).

(** [n] turns at most *)
Fixpoint feed_turns (n : nat) (fd : Z) (st : t) : prog t :=
  match n with
  | O => mret st
  | S n' => '(st, more) ← feed_turn fd st; if more : bool then feed_turns n' fd st else mret st
  end.

Definition feed_data (n : nat) (fd : Z) (s : net.stack) : prog t :=
  last_tick ← current_time;
  feed_turns n fd (mk s last_tick [0; 0]).

(** [configure_ethernet]: an error ends the program. *)
Definition configure_ethernet (fd hwaddr_ptr : Z) (s : net.stack) : prog net.stack :=
  r ← sys (Control fd rtl8139.CTRL_NET_HW_ADDR hwaddr_ptr 0);
  (if negb (value r =? 0) then syscall (Exit 1);; mret tt else mret tt);;
  mret (net.eth_configure (stored r) s).

Definition parse_address (a : list Z) : outcome Z := fmt.parse_ipaddr (S (length a)) a 0 0.

(** The network layer as [main] configures it; the gateway's address is looked
    up at once, so a request for it is sent. *)
Definition configure : stM net.stack unit :=
  local ← lift (parse_address (text "10.0.2.15"));
  netmask ← lift (parse_address (text "255.255.255.255"));
  gateway ← lift (parse_address (text "10.0.2.2"));
  net.ipv4_configure local netmask gateway.

(** The server waits on port 8080. *)
Definition listen (s : net.stack) : outcome net.stack :=
  '(_, w) ← tcp.listen (tcp.mk_endpoint 0 8080) (tcp.set_table_callback true (net.tcp_world s));
  Ret (net.set_tcp w s).

Definition main (n : nat) (hwaddr_ptr : Z) (junk_entry : net.cache_entry) : prog Z :=
  puts (text "Welcome to the network stack!");;
  ret ← syscall (Open (text "/dev/eth0") 0);
  fd ← verify junk ret;
  s ← configure_ethernet fd hwaddr_ptr (net.init junk_entry);
  s ← with_stack fd configure s;
  s ← pure (listen s);
  feed_data n fd s;;
  ret ← syscall (Close fd);
  verify junk ret;;
  mret 0.

End httpd.
End live_httpd.
