(* ===== verification/LiveHttpdFacts.v ===== *)
(** * The web server hands packets from the device to the stack and frames
      from the stack to the device (programs/live-httpd/main.cc) *)

From S2P Require Import Prelude Pool Text KernelDefs NetUtils Tcp Net Rtl8139 Rtl8139Facts Userspace LiveHttpd.
From stdpp Require Import strings list.
#[local] Open Scope Z_scope.

Import userspace.

Module relay.
Import live_httpd.

(** ** What the stack does *)

Inductive step := Tick (delta_ms : Z) | Receive (packet : list Z).

Definition received (steps : list step) : list (list Z) := omap (fun x => match x with Receive p => Some p | Tick _ => None end) steps.

Section spec.
Variable storage : list Z.

Definition do_op (op : stM net.stack unit) (s : net.stack) : outcome (net.stack * list (list Z)) :=
  '(_, s) ← op (clear_frames s);
  passert (forallb (fun f => zlen f <? 0xFFFF) (net.frames s));;
  Ret (clear_frames s, net.frames s).

Definition do_step (x : step) (s : net.stack) : outcome (net.stack * list (list Z)) :=
  match x with
  | Tick delta_ms => do_op (net.stack_tick delta_ms) s
  | Receive p => do_op (net.eth_on_receive on_receive storage p) s
  end.

(** The stack after some steps, and the frames it has sent *)
Fixpoint do_steps (steps : list step) (s : net.stack) : outcome (net.stack * list (list Z)) :=
  match steps with
  | [] => Ret (s, [])
  | x :: steps' => '(s, fs) ← do_step x s; '(s, fs') ← do_steps steps' s; Ret (s, fs ++ fs')
  end.

Lemma do_steps_app a : forall b s, do_steps (a ++ b) s = ('(s, fs) ← do_steps a s; '(s, fs') ← do_steps b s; Ret (s, fs ++ fs')).
Proof.
  induction a as [|x a IH]; intros b s; cbn [app do_steps].
  - rewrite mbind_Ret. destruct (do_steps b s) as [[s' fs]| | |]; reflexivity.
  - destruct (do_step x s) as [[s1 fs1]| | |]; [|reflexivity..]. rewrite !mbind_Ret. rewrite IH. destruct (do_steps a s1) as [[s2 fs2]| | |]; [|reflexivity..].
    rewrite !mbind_Ret. destruct (do_steps b s2) as [[s3 fs3]| | |]; [|reflexivity..]. rewrite !mbind_Ret, app_assoc. reflexivity.
Qed.
End spec.

(** ** The device *)

Definition got_by (fd : Z) (cr : call * option reply) : list Z :=
  match cr with (Read f _, Some r) => if f =? fd then stored r else [] | _ => [] end.

Definition written_by (fd : Z) (cr : call * option reply) : list Z :=
  match cr with (Write f data, Some _) => if f =? fd then data else [] | _ => [] end.

Definition got (fd : Z) (tr : trace) : list Z := concat (map (got_by fd) tr).
Definition written (fd : Z) (tr : trace) : list Z := concat (map (written_by fd) tr).

Lemma relay_got_app fd tr tr' : got fd (tr ++ tr') = got fd tr ++ got fd tr'.
Proof. unfold got. rewrite map_app, concat_app. reflexivity. Qed.

Lemma written_app fd tr tr' : written fd (tr ++ tr') = written fd tr ++ written fd tr'.
Proof. unfold written. rewrite map_app, concat_app. reflexivity. Qed.

(** The kernel as the program needs it: the packets [ps] arrive at the device
    behind their lengths; a read for a length may time out first, and is
    answered completely otherwise, and so is the read for the packet; what is
    written is accepted. *)
Record networked (k : kernel) (fd : Z) (ps : list (list Z)) : Prop := {
  nk_length : forall tr done p rest, ps = done ++ p :: rest -> got fd tr = concat (map framing.frame done) -> exists r, k tr (Read fd 2) = Some r /\
    (value r = kdefs.ETIMEOUT /\ stored r = [] \/ value r = 2 /\ stored r = bytes.le16 (zlen p));
  nk_packet : forall tr done p rest, ps = done ++ p :: rest -> got fd tr = concat (map framing.frame done) ++ bytes.le16 (zlen p) ->
    exists r, k tr (Read fd (zlen p)) = Some r /\ value r = zlen p /\ stored r = p;
  nk_none : forall tr, exists r, k tr (Read fd 0) = Some r /\ value r = 0 /\ stored r = [];
  nk_time : forall tr, exists r t, k tr Currenttime = Some r /\ stored r = [t];
  nk_timeout : forall tr, exists r, k tr (Set_timeout TIMEOUT_DURATION) = Some r /\ 0 <= value r;
  nk_write : forall tr data, exists r, k tr (Write fd data) = Some r /\ 0 < value r
}.

Section relay.
Variable junk : Z -> list Z.
Variable storage : list Z.
Variable k : kernel.
Variable fd : Z.
Variable ps : list (list Z).
Hypothesis Hjunk : forall n, 0 <= n -> zlen (junk n) = n.
Hypothesis Hk : networked k fd ps.

Lemma got_write tr data r : got fd (tr ++ [(Write fd data, Some r)]) = got fd tr.
Proof. rewrite relay_got_app. cbn. apply app_nil_r. Qed.

Lemma written_write tr data r : written fd (tr ++ [(Write fd data, Some r)]) = written fd tr ++ data.
Proof. rewrite written_app. cbn. rewrite Z.eqb_refl, app_nil_r. reflexivity. Qed.

Lemma send_run {B} (f : Z -> prog B) tr data : zlen data < 0xFFFF ->
  exists tr' v, (send fd data ≫= f) k tr = f v k tr' /\ got fd tr' = got fd tr /\ written fd tr' = written fd tr ++ framing.frame data.
Proof.
  intros Hl. unfold send. rewrite run_assoc, (run_pure _ _ k tr tt) by (apply passert_true, Z.ltb_lt; exact Hl). rewrite run_assoc.
  destruct (nk_write _ _ _ Hk tr (bytes.le16 (zlen data))) as (r & E & Hr). rewrite (run_syscall _ _ k tr r E). rewrite (proj2 (Z.leb_gt _ _)) by lia.
  set (tr1 := tr ++ [_]). destruct (nk_write _ _ _ Hk tr1 data) as (r' & E' & _). rewrite (run_syscall _ _ k tr1 r' E').
  eexists _, _. split; [reflexivity|]. unfold tr1. rewrite !got_write, !written_write. split; [reflexivity|]. rewrite <-app_assoc. reflexivity.
Qed.

Lemma send_all_run {B} (f : unit -> prog B) fs : forall tr, forallb (fun f => zlen f <? 0xFFFF) fs = true ->
  exists tr', (send_all fd fs ≫= f) k tr = f tt k tr' /\ got fd tr' = got fd tr /\ written fd tr' = written fd tr ++ concat (map framing.frame fs).
Proof.
  induction fs as [|x fs IH]; intros tr Hs; cbn [send_all].
  - exists tr. split; [reflexivity|]. split; [reflexivity|]. cbn. rewrite app_nil_r. reflexivity.
  - cbn [forallb] in Hs. apply andb_prop in Hs as [Hx Hs]. apply Z.ltb_lt in Hx. rewrite run_assoc.
    destruct (send_run (fun _ => send_all fd fs ≫= f) tr x Hx) as (tr1 & v & -> & Hg1 & Hw1). destruct (IH tr1 Hs) as (tr2 & -> & Hg2 & Hw2).
    exists tr2. split; [reflexivity|]. split; [congruence|]. rewrite Hw2, Hw1, <-app_assoc. reflexivity.
Qed.

Lemma send_all_large fs : forall tr, forallb (fun f => zlen f <? 0xFFFF) fs = false -> send_all fd fs k tr = Panic.
Proof.
  induction fs as [|x fs IH]; intros tr Hs; cbn [send_all forallb] in *; [discriminate|]. destruct (Z.ltb_spec (zlen x) 0xFFFF) as [Hx|Hx].
  - destruct (send_run (fun _ => send_all fd fs) tr x Hx) as (tr1 & v & -> & _). apply IH. exact Hs.
  - apply run_panic. unfold send. apply run_panic. unfold pure. rewrite passert_false by (apply Z.ltb_ge; exact Hx). reflexivity.
Qed.

(** An operation of the stack and the frames it sends *)
Lemma with_stack_run {B} (f : net.stack -> prog B) op s tr :
  match do_op op s with
  | Ret (s', fs) => exists tr', (with_stack fd op s ≫= f) k tr = f s' k tr' /\ got fd tr' = got fd tr /\ written fd tr' = written fd tr ++ concat (map framing.frame fs)
  | Panic => (with_stack fd op s ≫= f) k tr = Panic
  | Undef => (with_stack fd op s ≫= f) k tr = Undef
  | NoFuel => (with_stack fd op s ≫= f) k tr = NoFuel
  end.
Proof.
  unfold do_op, with_stack. rewrite run_assoc. destruct (op (clear_frames s)) as [[u s1]| | |] eqn:E; cbn [mbind outcome_bind]; try reflexivity.
  rewrite (run_pure (Ret (u, s1)) _ k tr _ eq_refl). unfold passert. destruct (forallb _ (net.frames s1)) eqn:Hs.
  - rewrite run_assoc. destruct (send_all_run (fun _ => mret (clear_frames s1) ≫= f) (net.frames s1) tr Hs) as (tr' & Et & Hg & Hw). exists tr'. split; [exact Et|]. auto.
  - rewrite run_assoc. apply run_panic, send_all_large. exact Hs.
Qed.

(** A read that is answered completely, and the empty one that ends it *)
Lemma read_full {B} (f : Z * list Z -> prog B) buf tr r : 0 < value r <= zlen buf -> value r < 2 ^ 31 -> zlen (stored r) = value r -> k tr (Read fd (value r)) = Some r ->
  exists tr', (read fd buf (value r) ≫= f) k tr = f (value r, stored r ++ drop (length (stored r)) buf) k tr' /\ got fd tr' = got fd tr ++ stored r /\ written fd tr' = written fd tr.
Proof.
  intros Hn Hmax Hs E. unfold read. cbn [read_loop]. rewrite run_assoc, (run_sys _ _ k tr r E). rewrite run_assoc. set (tr1 := tr ++ [_]).
  rewrite (run_pure _ _ k tr1 (stored r ++ drop (length (stored r)) buf)).
  2:{ rewrite arr_blit_Ret by lia. change (Z.to_nat (zlen (stored r))) with (Z.to_nat (Z.of_nat (length (stored r)))). rewrite Nat2Z.id, firstn_all. reflexivity. }
  rewrite Z.gtb_ltb, (proj2 (Z.ltb_lt _ _)) by lia. replace (u32 (value r - value r)) with 0 by (rewrite Z.sub_diag; reflexivity).
  destruct (Z.to_nat (value r)) as [|m] eqn:Em; [lia|]. cbn [read_loop]. destruct (nk_none _ _ _ Hk tr1) as (r0 & E0 & Hv0 & Hs0).
  rewrite run_assoc, (run_sys _ _ k tr1 r0 E0), run_assoc, Hs0, Hv0. set (b := stored r ++ drop (length (stored r)) buf).
  rewrite (run_pure _ _ k _ b) by (pose proof (zlen_nonneg b); rewrite arr_blit_Ret by (change (zlen (@nil Z)) with 0; lia); reflexivity).
  change (0 >? 0) with false. cbv iota. rewrite run_ret. change (0 <? 0) with false. cbv iota.
  assert (to_i32 (u32 (0 + value r)) = value r) as ->.
  { unfold to_i32, u32. rewrite Z.add_0_l, Zmod_mod, Z.mod_small by lia. rewrite (proj2 (Z.ltb_lt _ _)) by lia. reflexivity. }
  eexists. split; [reflexivity|]. unfold tr1. rewrite !relay_got_app, !written_app. cbn. rewrite !Z.eqb_refl, Hs0, !app_nil_r. auto.
Qed.

Lemma read_timeout {B} (f : Z * list Z -> prog B) buf n tr r : value r < 0 -> stored r = [] -> k tr (Read fd n) = Some r ->
  exists tr', (read fd buf n ≫= f) k tr = f (value r, buf) k tr' /\ got fd tr' = got fd tr /\ written fd tr' = written fd tr.
Proof.
  intros Hv Hs E. unfold read. cbn [read_loop]. rewrite run_assoc, (run_sys _ _ k tr r E), run_assoc, Hs.
  rewrite (run_pure _ _ k _ buf) by (pose proof (zlen_nonneg buf); rewrite arr_blit_Ret by (change (zlen (@nil Z)) with 0; lia); reflexivity).
  rewrite Z.gtb_ltb, (proj2 (Z.ltb_ge _ _)) by lia. rewrite run_ret, (proj2 (Z.ltb_lt _ _)) by lia. eexists. split; [reflexivity|].
  rewrite relay_got_app, written_app. cbn. rewrite Z.eqb_refl, Hs, !app_nil_r. auto.
Qed.

Lemma time_run {B} (f : Z -> prog B) tr : exists tr' t, (current_time ≫= f) k tr = f t k tr' /\ got fd tr' = got fd tr /\ written fd tr' = written fd tr.
Proof.
  destruct (nk_time _ _ _ Hk tr) as (r & t & E & Hs). unfold current_time. rewrite run_assoc, (run_sys _ _ k tr r E), Hs.
  rewrite (run_pure (Ret t) _ k _ t eq_refl). eexists _, t. split; [reflexivity|]. rewrite relay_got_app, written_app. cbn. rewrite !app_nil_r. auto.
Qed.

Definition fine (p : list Z) : Prop := 0 < zlen p <= PDU.

(** The outcomes of a turn or more that goes along with steps of the stack *)
Definition goes_along {A} (steps : list step) (s : net.stack) (run : outcome (trace * option A)) (ok : net.stack -> list (list Z) -> trace -> A -> Prop) : Prop :=
  match do_steps storage steps s with
  | Ret (s', fs) => exists tr' a, run = Ret (tr', Some a) /\ ok s' fs tr' a
  | Panic => run = Panic
  | Undef => run = Undef
  | NoFuel => run = NoFuel
  end.

Lemma relay_turn_ok st tr done p rest : ps = done ++ p :: rest -> fine p -> got fd tr = concat (map framing.frame done) -> zlen (packet_size st) = 2 ->
  exists delta_ms now, goes_along (Tick delta_ms :: now) (stack_ st) (feed_turn junk storage fd st k tr) (fun s' fs tr' a => stack_ a.1 = s' /\ a.2 = true /\ zlen (packet_size a.1) = 2 /\
      got fd tr' = concat (map framing.frame (done ++ received now)) /\ written fd tr' = written fd tr ++ concat (map framing.frame fs)) /\
    (now = [] \/ now = [Receive p]).
Proof.
  intros Eps Hp Hg Hsz. unfold fine, PDU in Hp. unfold feed_turn. destruct (nk_timeout _ _ _ Hk tr) as (r0 & E0 & Hr0). rewrite (run_syscall _ _ k tr r0 E0), (verify_ok _ _ _ k _ Hr0).
  set (tr0 := tr ++ [_]). assert (got fd tr0 = got fd tr) as Hg0 by (unfold tr0; rewrite relay_got_app; cbn; apply app_nil_r).
  assert (written fd tr0 = written fd tr) as Hw0 by (unfold tr0; rewrite written_app; cbn; apply app_nil_r).
  destruct (nk_length _ _ _ Hk tr0 done p rest Eps ltac:(congruence)) as (r & Er & [[Hv Hs]|[Hv Hs]]).
  - match goal with |- context [(read fd (packet_size st) 2 ≫= ?f) k tr0] => destruct (read_timeout f (packet_size st) 2 tr0 r ltac:(rewrite Hv; reflexivity) Hs Er) as (tr1 & -> & Hg1 & Hw1) end.
    cbv beta iota. match goal with |- context [(current_time ≫= ?f) k tr1] => destruct (time_run f tr1) as (tr2 & t & -> & Hg2 & Hw2) end.
    set (delta := u32 (t - last_tick st)). exists delta, []. split; [|auto]. unfold goes_along. cbn [do_steps do_step].
    match goal with |- context [(with_stack fd ?op ?s ≫= ?f) k tr2] => pose proof (with_stack_run f op s tr2) as Hop end.
    destruct (do_op (net.stack_tick delta) (stack_ st)) as [[s1 fs]| | |]; [|exact Hop..]. destruct Hop as (tr3 & -> & Hg3 & Hw3). rewrite !mbind_Ret.
    rewrite Hv, Z.eqb_refl. eexists _, _. split; [reflexivity|]. cbn [fst snd stack_ packet_size]. split; [reflexivity|]. split; [reflexivity|]. split; [exact Hsz|].
    cbn [received omap list_omap]. rewrite !app_nil_r. split; congruence.
  - assert (zlen (stored r) = 2) as Hls by (rewrite Hs; reflexivity).
    match goal with |- context [(read fd (packet_size st) 2 ≫= ?f) k tr0] => destruct (read_full f (packet_size st) tr0 r ltac:(lia) ltac:(lia) ltac:(lia) ltac:(rewrite Hv; exact Er)) as (tr1 & E1 & Hg1 & Hw1) end.
    rewrite Hv in E1. rewrite E1. clear E1. cbv beta iota. match goal with |- context [(current_time ≫= ?f) k tr1] => destruct (time_run f tr1) as (tr2 & t & -> & Hg2 & Hw2) end.
    set (delta := u32 (t - last_tick st)). exists delta, [Receive p]. split; [|auto]. unfold goes_along. cbn [do_steps do_step].
    match goal with |- context [(with_stack fd ?op ?s ≫= ?f) k tr2] => pose proof (with_stack_run f op s tr2) as Hop end.
    destruct (do_op (net.stack_tick delta) (stack_ st)) as [[s1 fs]| | |]; [|exact Hop..]. destruct Hop as (tr3 & -> & Hg3 & Hw3). rewrite !mbind_Ret.
    change (2 =? kdefs.ETIMEOUT) with false. change (2 <? 0) with false. cbv iota.
    assert (stored r ++ drop (length (stored r)) (packet_size st) = bytes.le16 (zlen p)) as Esz by (rewrite drop_ge by (unfold zlen in Hls, Hsz; lia); rewrite app_nil_r; exact Hs). rewrite Esz.
    rewrite (run_pure _ _ k tr3 (zlen p)) by (unfold bytes.le16; rewrite bytes.of_le16_le16 by lia; reflexivity).
    destruct (nk_packet _ _ _ Hk tr3 done p rest Eps) as (r2 & Er2 & Hv2 & Hs2); [rewrite Hg3, Hg2, Hg1, Hs; congruence|].
    match goal with |- context [(read fd (junk PDU) (zlen p) ≫= ?f) k tr3] =>
      destruct (read_full f (junk PDU) tr3 r2 ltac:(rewrite Hjunk by (unfold PDU; lia); unfold PDU; lia) ltac:(lia) ltac:(rewrite Hs2, Hv2; reflexivity) ltac:(rewrite Hv2; exact Er2)) as (tr4 & E4 & Hg4 & Hw4) end.
    rewrite Hv2 in E4. rewrite E4. clear E4. cbv beta iota. rewrite (proj2 (Z.ltb_ge _ _)) by lia. rewrite Z.eqb_refl. cbn [negb].
    assert (take (Z.to_nat (zlen p)) (stored r2 ++ drop (length (stored r2)) (junk PDU)) = p) as -> by (rewrite Hs2; unfold zlen; rewrite Nat2Z.id, take_app_length; reflexivity).
    match goal with |- context [(with_stack fd ?op ?s ≫= ?f) k tr4] => pose proof (with_stack_run f op s tr4) as Hop end.
    destruct (do_op (net.eth_on_receive on_receive storage p) s1) as [[s2 fs2]| | |]; [|exact Hop..]. destruct Hop as (tr5 & -> & Hg5 & Hw5). rewrite !mbind_Ret.
    eexists _, _. split; [reflexivity|]. cbn [fst snd stack_ packet_size]. split; [reflexivity|]. split; [reflexivity|]. split; [reflexivity|].
    cbn [received omap list_omap]. rewrite app_nil_r. split.
    + rewrite Hg5, Hg4, Hg3, Hg2, Hg1, Hg0, Hg, Hs, Hs2, map_app, concat_app. cbn [map concat]. unfold framing.frame. rewrite app_nil_r, <-!app_assoc. reflexivity.
    + rewrite Hw5, Hw4, Hw3, Hw2, Hw1, Hw0, map_app, concat_app, <-app_assoc. reflexivity.
Qed.

Lemma relay_turns_ok n : forall st tr done rest, ps = done ++ rest -> (n <= length rest)%nat -> Forall fine rest -> got fd tr = concat (map framing.frame done) -> zlen (packet_size st) = 2 ->
  exists steps, received steps `prefix_of` rest /\ goes_along steps (stack_ st) (feed_turns junk storage n fd st k tr) (fun s' fs tr' a => stack_ a = s' /\
      got fd tr' = concat (map framing.frame (done ++ received steps)) /\ written fd tr' = written fd tr ++ concat (map framing.frame fs)).
Proof.
  induction n as [|n IH]; intros st tr done rest Eps Hn Hf Hg Hsz; cbn [feed_turns].
  { exists []. split; [apply prefix_nil|]. unfold goes_along. cbn [do_steps]. eexists _, _. split; [reflexivity|]. cbn. rewrite !app_nil_r. auto. }
  destruct rest as [|p rest]; [simpl in Hn; lia|]. apply Forall_cons in Hf as Hf'. destruct Hf' as [Hp Hrest].
  destruct (relay_turn_ok st tr done p rest Eps Hp Hg Hsz) as (delta & now & Hturn & Hnow). unfold goes_along in Hturn.
  destruct (do_steps storage (Tick delta :: now) (stack_ st)) as [[s1 fs1]| | |] eqn:E1.
  2,3,4: exists (Tick delta :: now); split; [destruct Hnow as [->| ->]; [apply prefix_nil|exists rest; reflexivity]|]; unfold goes_along; rewrite E1; unfold mbind, prog_bind; rewrite Hturn; reflexivity.
  destruct Hturn as (tr1 & [st1 more] & Erun & Hst1 & Hmore & Hsz1 & Hg1 & Hw1). cbn [fst snd] in *. subst more.
  assert (exists rest1, ps = (done ++ received now) ++ rest1 /\ (n <= length rest1)%nat /\ Forall fine rest1 /\ p :: rest = received now ++ rest1) as (rest1 & Eps1 & Hn1 & Hf1 & Er1).
  { destruct Hnow as [->| ->]; cbn [received omap list_omap].
    - exists (p :: rest). rewrite app_nil_r. simpl in Hn. split; [exact Eps|]. split; [simpl; lia|]. auto.
    - exists rest. simpl in Hn. split; [rewrite <-app_assoc; exact Eps|]. split; [lia|]. auto. }
  destruct (IH st1 tr1 (done ++ received now) rest1 Eps1 Hn1 Hf1 Hg1 Hsz1) as (steps & Hpre & Hrun). exists ((Tick delta :: now) ++ steps).
  assert (received ((Tick delta :: now) ++ steps) = received now ++ received steps) as Hrec by (unfold received; rewrite omap_app; reflexivity).
  split; [rewrite Hrec, Er1; apply prefix_app; exact Hpre|]. unfold goes_along in *. rewrite do_steps_app, E1, mbind_Ret, Hst1 in *. rewrite (run_bind _ _ k tr _ _ Erun). cbv beta iota.
  destruct (do_steps storage steps s1) as [[s2 fs2]| | |]; [|exact Hrun..]. rewrite mbind_Ret. destruct Hrun as (tr2 & st2 & E2 & Hst2 & Hg2 & Hw2).
  exists tr2, st2. split; [exact E2|]. split; [exact Hst2|]. split; [rewrite Hg2, Hrec, app_assoc; reflexivity|]. rewrite Hw2, Hw1, map_app, concat_app, app_assoc. reflexivity.
Qed.
End relay.
End relay.

(** C15: the web server is a relay between the device and its protocol stack.
    The device gives a packet as [relay.networked] says: its length, or a
    timeout, and then the whole packet of 1 to 1518 bytes; it takes what is
    written.  Whatever the packets are and however often the reads time out, for
    as many turns as there are packets the stack sees the packets in order, each once and unchanged, with ticks in between;
    what is written to the device is exactly the frames the stack sends, each
    behind its length, so that the driver takes it apart into these frames
    again; and the program stops only when an operation of the stack does. *)
Theorem httpd_relays_packets (junk : Z -> list Z) (storage : list Z) (k : kernel) (fd : Z) (ps : list (list Z)) (s : net.stack) (n : nat) :
  (forall m, 0 <= m -> zlen (junk m) = m) -> relay.networked k fd ps -> Forall relay.fine ps -> (n <= length ps)%nat ->
  exists steps, relay.received steps `prefix_of` ps /\
    relay.goes_along storage steps s (live_httpd.feed_data junk storage n fd s k []) (fun s' fs tr' st => live_httpd.stack_ st = s' /\
      relay.got fd tr' = concat (map framing.frame (relay.received steps)) /\ relay.written fd tr' = concat (map framing.frame fs) /\
      (Forall (fun f => 0 < zlen f) fs -> Forall (fun f => zlen f < 2 ^ 16) fs -> framing.parse (relay.written fd tr') = (fs, []))).
Proof.
  intros Hj Hk Hf Hn. unfold live_httpd.feed_data. destruct (relay.time_run k fd ps Hk (fun t => live_httpd.feed_turns junk storage n fd (live_httpd.mk s t [0; 0])) []) as (tr0 & t & -> & Hg0 & Hw0).
  destruct (relay.relay_turns_ok junk storage k fd ps Hj Hk n (live_httpd.mk s t [0; 0]) tr0 [] ps eq_refl Hn Hf Hg0 eq_refl) as (steps & Hpre & Hrun). exists steps. split; [exact Hpre|].
  unfold relay.goes_along in *. cbn [live_httpd.stack_] in Hrun. destruct (relay.do_steps storage steps s) as [[s' fs]| | |]; [|exact Hrun..].
  destruct Hrun as (tr' & st' & E & Hst & Hg & Hw). exists tr', st'. split; [exact E|]. split; [exact Hst|]. split; [exact Hg|]. rewrite Hw0 in Hw. split; [exact Hw|].
  intros H1 H2. rewrite Hw. cbn [app]. apply framing.parse_all. apply Forall_forall. intros f Hin. pose proof (proj1 (Forall_forall _ _) H1 f Hin). pose proof (proj1 (Forall_forall _ _) H2 f Hin). cbv beta in *. lia.
Qed.

(** A device that hands out a stream of packets without delay *)
Definition ready_device (ps : list (list Z)) (tr : trace) (c : call) : option reply :=
  match c with
  | Read 5 n => let data := take (Z.to_nat n) (drop (length (relay.got 5 tr)) (concat (map framing.frame ps))) in Some (mk_reply (zlen data) data)
  | _ => Some (mk_reply 1 [0])
  end.

Lemma ready_device_ok ps : Forall relay.fine ps -> relay.networked (ready_device ps) 5 ps.
Proof.
  intros Hf. split; try (intros; eexists; cbn; eauto; fail).
  - intros tr done p rest Eps Hg. eexists. split; [reflexivity|]. right. cbn [ready_device value stored]. rewrite Hg, Eps, map_app, concat_app, drop_app_length. split; reflexivity.
  - intros tr done p rest Eps Hg. cbn [ready_device]. eexists. split; [reflexivity|]. cbn [value stored].
    assert (take (Z.to_nat (zlen p)) (drop (length (relay.got 5 tr)) (concat (map framing.frame ps))) = p) as ->; [|split; reflexivity].
    rewrite Hg, Eps, map_app, concat_app. cbn [map concat]. unfold framing.frame at 3. rewrite <-app_assoc, app_assoc, drop_app_length. unfold zlen. rewrite Nat2Z.id. apply take_app_length.
  - intros tr. eexists. split; [reflexivity|]. cbn. lia.
  - intros tr data. eexists. split; [reflexivity|]. cbn. lia.
Qed.

(** A host asks for the hardware address of 10.0.2.15; the stack answers. *)
Definition arp_request : list Z :=
  [255; 255; 255; 255; 255; 255; 2; 0; 0; 0; 0; 9; 8; 6] ++ [0; 1; 8; 0; 6; 4; 0; 1] ++ [2; 0; 0; 0; 0; 9; 10; 0; 2; 2] ++ [0; 0; 0; 0; 0; 0; 10; 0; 2; 15].

Definition arp_answer : list Z :=
  [2; 0; 0; 0; 0; 9; 2; 0; 0; 0; 0; 1; 8; 6] ++ [0; 1; 8; 0; 6; 4; 0; 2] ++ [2; 0; 0; 0; 0; 1; 10; 0; 2; 15] ++ [2; 0; 0; 0; 0; 9; 10; 0; 2; 2].

Definition web_host : outcome net.stack :=
  '(_, s) ← live_httpd.configure (net.eth_configure [2; 0; 0; 0; 0; 1] (net.init (net.mk_cache_entry 0 (replicate 6 0))));
  live_httpd.listen s.

(** What has been sent until then: the request for the gateway's address *)
Example web_host_asks : exists s, web_host = Ret s /\ net.frames s =
  [[255; 255; 255; 255; 255; 255; 2; 0; 0; 0; 0; 1; 8; 6] ++ [0; 1; 8; 0; 6; 4; 0; 1] ++
   [2; 0; 0; 0; 0; 1; 10; 0; 2; 15] ++ [0; 0; 0; 0; 0; 0; 10; 0; 2; 2]].
Proof.
  assert (option_map net.frames (match web_host with Ret s => Some s | _ => None end) = Some
    [[255; 255; 255; 255; 255; 255; 2; 0; 0; 0; 0; 1; 8; 6] ++ [0; 1; 8; 0; 6; 4; 0; 1] ++
     [2; 0; 0; 0; 0; 1; 10; 0; 2; 15] ++ [0; 0; 0; 0; 0; 0; 10; 0; 2; 2]]) as E by (vm_compute; reflexivity).
  destruct web_host as [s| | |]; try discriminate E. injection E as E. eauto.
Qed.

Definition outcome_written (o : outcome (trace * option live_httpd.t)) : option (list Z) :=
  match o with Ret (tr, Some _) => Some (relay.written 5 tr) | _ => None end.

Lemma httpd_relays_packets_witness : exists s tr st, web_host = Ret s /\
  live_httpd.feed_data (fun n => replicate (Z.to_nat n) 7) [] 1 5 s (ready_device [arp_request]) [] = Ret (tr, Some st) /\ framing.parse (relay.written 5 tr) = ([arp_answer], []).
Proof.
  assert (match web_host with Ret _ => true | _ => false end = true) as Eh by (vm_compute; reflexivity).
  destruct web_host as [s| | |] eqn:Es; [|discriminate Eh..].
  assert (match web_host with Ret s => outcome_written (live_httpd.feed_data (fun n => replicate (Z.to_nat n) 7) [] 1 5 s (ready_device [arp_request]) []) | _ => None end = Some (framing.frame arp_answer)) as Ew by (vm_compute; reflexivity).
  rewrite Es in Ew. destruct (httpd_relays_packets (fun n => replicate (Z.to_nat n) 7) [] (ready_device [arp_request]) 5 [arp_request] s 1) as (steps & _ & H).
  - intros. rewrite zlen_replicate. lia.
  - apply ready_device_ok. repeat constructor; vm_compute; congruence.
  - repeat constructor; vm_compute; congruence.
  - simpl. lia.
  - unfold relay.goes_along in H. destruct (relay.do_steps [] steps s) as [[s' fs]| | |]; [|rewrite H in Ew; discriminate Ew..].
    destruct H as (tr & st & E & _ & _ & _ & _). exists s, tr, st. split; [reflexivity|]. split; [exact E|]. rewrite E in Ew. cbn [outcome_written] in Ew. injection Ew as ->. vm_compute. reflexivity.
Defined.

(** [read] passes the start of the buffer in every round: of a packet that
    arrives in two pieces the second one overwrites the first. *)
Definition split_device (tr : trace) (c : call) : option reply :=
  match c, tr with
  | Read _ 3, [] => Some (mk_reply 2 [1; 2])
  | Read _ 1, _ => Some (mk_reply 1 [3])
  | _, _ => Some (mk_reply 0 [])
  end.

Example read_overwrites : exists tr, read 5 [0; 0; 0] 3 split_device [] = Ret (tr, Some (3, [3; 2; 0])).
Proof. eexists. vm_compute. reflexivity. Qed.
