(* ===== verification/Syscalls.v ===== *)
(** * The system call table (kernel/syscalls.cc, the numbers of
      kernel/syscall_decls.h, and the calls of syscall_register in
      filesystem.cc, memory.cc, process.cc and timer.cc)

    A handler is named by a constructor; what it does is a definition of the
    component it belongs to. *)

From S2P Require Import Prelude Text Words KernelDefs Userspace.
From stdpp Require Import strings list.
#[local] Open Scope Z_scope.

Module syscalls.
Import kdefs userspace.

Inductive handler :=
| Syscall_strerror
| Syscall_write | Syscall_read | Syscall_open | Syscall_control | Syscall_close | Syscall_seek | Syscall_tell | Syscall_mkdir | Syscall_dup2
| Syscall_yield | Syscall_exit | Syscall_kill | Syscall_exec | Syscall_fork | Syscall_shutdown | Syscall_wait | Syscall_set_timeout | Syscall_get_timeout
| Syscall_mmap
| Syscall_currenttime.

#[export] Instance handler_eq_dec : EqDecision handler.
Proof. solve_decision. Defined.

Definition SYSCALL_NUM_MAX : Z := 999.

Definition syscall_num (h : handler) : Z :=
  match h with
  | Syscall_strerror => 50
  | Syscall_write => 100
  | Syscall_read => 101
  | Syscall_open => 103
  | Syscall_control => 104
  | Syscall_close => 105
  | Syscall_seek => 106
  | Syscall_tell => 107
  | Syscall_mkdir => 108
  | Syscall_dup2 => 109
  | Syscall_yield => 200
  | Syscall_exit => 201
  | Syscall_kill => 202
  | Syscall_exec => 204
  | Syscall_fork => 205
  | Syscall_shutdown => 206
  | Syscall_wait => 207
  | Syscall_set_timeout => 208
  | Syscall_get_timeout => 209
  | Syscall_mmap => 300
  | Syscall_currenttime => 401
  end.

(** The static table; unset entries are null. *)
Definition table : Type := list (option handler).

Definition no_handlers : table := replicate (Z.to_nat SYSCALL_NUM_MAX) None.

Definition syscall_register (num : Z) (h : handler) (t : table) : outcome table :=
  passert (num <? zlen t);;
  arr_set t num (Some h).

Fixpoint register_all (hs : list handler) (t : table) : outcome table :=
  match hs with
  | [] => Ret t
  | h :: hs' => t ← syscall_register (syscall_num h) h t; register_all hs' t
  end.

(** What each component registers *)
Definition syscalls_init : table -> outcome table := register_all [Syscall_strerror].
Definition timer_init : table -> outcome table := register_all [Syscall_currenttime].
Definition mem_init : table -> outcome table := register_all [Syscall_mmap].
Definition proc_init : table -> outcome table :=
  register_all [Syscall_yield; Syscall_exit; Syscall_kill; Syscall_exec; Syscall_fork; Syscall_shutdown; Syscall_wait; Syscall_set_timeout; Syscall_get_timeout].
Definition vfs_init : table -> outcome table :=
  register_all [Syscall_write; Syscall_read; Syscall_open; Syscall_control; Syscall_close; Syscall_seek; Syscall_tell; Syscall_mkdir; Syscall_dup2].

(** The order of [kernel_main] *)
Definition boot : outcome table :=
  t ← syscalls_init no_handlers;
  t ← timer_init t;
  t ← mem_init t;
  t ← proc_init t;
  vfs_init t.

(** The registers of the interrupted program *)
Record isr_registers := mk_regs { eax : Z; ebx : Z; ecx : Z; edx : Z; esi : Z; edi : Z }.

(** [int_syscall]: the caller is killed for a number outside the table, which
    does not return; otherwise the handler runs with five registers as
    arguments. *)
Inductive dispatch :=
| Kill_caller
| Call (h : handler) (args : list Z).

Definition int_syscall (t : table) (regs : isr_registers) : outcome dispatch :=
  let syscall_num := eax regs in
  if syscall_num >=? zlen t then Ret Kill_caller
  else
    handler ← arr_get t syscall_num;
    match handler with
    | None => Panic
    | Some h => Ret (Call h [ebx regs; ecx regs; edx regs; esi regs; edi regs])
    end.

(** [regs->eax = handler(...)] *)
Definition set_eax (v : Z) (regs : isr_registers) : isr_registers := mk_regs (u32 v) (ebx regs) (ecx regs) (edx regs) (esi regs) (edi regs).

Definition message_of (code : Z) : option (list Z) :=
  if code =? ENOSUPPORT then Some (text "Operation not supported")
  else if code =? ENOENT then Some (text "Entry missing")
  else if code =? ENODIR then Some (text "Path parent isn't a directory")
  else if code =? ENODRIVER then Some (text "Path doesn't contain a mapped driver")
  else if code =? ENOSPACE then Some (text "No space in structure or file")
  else if code =? EINCONSTATE then Some (text "Internal state is inconsistent")
  else if code =? EINVVAL then Some (text "Invalid value")
  else if code =? EBUSY then Some (text "Resource busy")
  else None.

(** [syscall_strerror]: the pointer is checked, the length is not.  The result
    is [None] when the caller is killed. *)
Definition syscall_strerror (valid_pointer : bool) (code : Z) (buf : list Z) (len : Z) : outcome (option (Z * list Z)) :=
  if negb valid_pointer then Ret None
  else
    match message_of code with
    | None => Ret (Some (-1, buf))
    | Some message => buf ← cstring.strncpy buf 0 (message ++ [0]) (Z.to_nat (u32 len)); Ret (Some (0, buf))
    end.

(** ** Programs and handlers *)

(** The handler a call of a program is meant for *)
Definition handler_of (c : call) : handler :=
  match c with
  | Write _ _ => Syscall_write
  | Read _ _ => Syscall_read
  | Open _ _ => Syscall_open
  | Close _ => Syscall_close
  | Control _ _ _ _ => Syscall_control
  | Seek _ _ _ => Syscall_seek
  | Tell _ => Syscall_tell
  | Mkdir _ => Syscall_mkdir
  | Dup2 _ _ => Syscall_dup2
  | Fork => Syscall_fork
  | Exec _ _ => Syscall_exec
  | Wait _ => Syscall_wait
  | Exit _ => Syscall_exit
  | Shutdown => Syscall_shutdown
  | Strerror _ _ => Syscall_strerror
  | Set_timeout _ => Syscall_set_timeout
  | Currenttime => Syscall_currenttime
  end.

(** ** The wrappers of syscall_macros.h *)

(** How many arguments the wrapper of a call has; there is none for [kill]. *)
Definition wrapper_arity (h : handler) : option nat :=
  match h with
  | Syscall_yield | Syscall_fork | Syscall_shutdown | Syscall_get_timeout => Some 0%nat
  | Syscall_close | Syscall_mkdir | Syscall_exit | Syscall_wait | Syscall_set_timeout | Syscall_currenttime => Some 1%nat
  | Syscall_open | Syscall_tell | Syscall_dup2 | Syscall_exec => Some 2%nat
  | Syscall_strerror | Syscall_write | Syscall_read | Syscall_seek => Some 3%nat
  | Syscall_control => Some 4%nat
  | Syscall_mmap => Some 5%nat
  | Syscall_kill => None
  end.

(** The number and the arguments go into registers, the others keep what they
    hold. *)
Definition wrapper_registers (old : isr_registers) (num : Z) (args : list Z) : isr_registers :=
  mk_regs num (nth 0 args (ebx old)) (nth 1 args (ecx old)) (nth 2 args (edx old)) (nth 3 args (esi old)) (nth 4 args (edi old)).

(** [_syscall_name(p1, ...)]: [int 0x90], then eax as an [int]; [run] is what
    the handlers do. [None]: the caller does not run again. *)
Definition syscall_wrapper (t : table) (run : handler -> list Z -> Z) (old : isr_registers) (num : Z) (args : list Z) : outcome (option Z) :=
  let regs := wrapper_registers old num args in
  d ← int_syscall t regs;
  Ret (match d with Kill_caller => None | Call h a => Some (to_i32 (eax (set_eax (run h a) regs))) end).

Definition handlers : list handler :=
  [Syscall_strerror; Syscall_currenttime; Syscall_mmap; Syscall_yield; Syscall_exit; Syscall_kill; Syscall_exec; Syscall_fork; Syscall_shutdown; Syscall_wait;
   Syscall_set_timeout; Syscall_get_timeout; Syscall_write; Syscall_read; Syscall_open; Syscall_control; Syscall_close; Syscall_seek; Syscall_tell; Syscall_mkdir; Syscall_dup2].

Lemma handlers_all h : h ∈ handlers.
Proof. destruct h; apply list_elem_of_In; cbn; tauto. Qed.

(** The handler with a number, by search *)
Definition find_handler (n : Z) : option handler := find (fun h => syscall_num h =? n) handlers.

Lemma find_handler_num h : find_handler (syscall_num h) = Some h.
Proof. destruct h; reflexivity. Qed.

Lemma find_handler_Some n h : find_handler n = Some h -> n = syscall_num h.
Proof. intros H. apply find_some in H as [_ H]. apply Z.eqb_eq in H. congruence. Qed.

Definition boot_table : table := match boot with Ret t => t | _ => [] end.

Lemma boot_ok : boot = Ret boot_table.
Proof. vm_compute. reflexivity. Qed.

Lemma boot_lookup n : 0 <= n < SYSCALL_NUM_MAX -> arr_get boot_table n = Ret (find_handler n).
Proof.
  intros Hn. assert (forallb (fun n => match arr_get boot_table n with Ret x => bool_decide (x = find_handler n) | _ => false end) (seqZ 0 SYSCALL_NUM_MAX) = true) as H by (vm_compute; reflexivity).
  rewrite forallb_forall in H. specialize (H n). cbv beta in H. destruct (arr_get boot_table n) as [x| | |].
  - f_equal. apply (bool_decide_eq_true (x = find_handler n)). apply H. apply list_elem_of_In, elem_of_seqZ. lia.
  - discriminate H. apply list_elem_of_In, elem_of_seqZ. lia.
  - discriminate H. apply list_elem_of_In, elem_of_seqZ. lia.
  - discriminate H. apply list_elem_of_In, elem_of_seqZ. lia.
Qed.
End syscalls.

(** System calls arrive where they are meant to.  After the kernel has started
    no registration has overwritten another; a program that puts the number of
    a call into its register gets the handler of that call with its arguments;
    a number outside the table kills the caller; and a number inside the table
    without a handler fails an assertion of the kernel. *)
Theorem syscalls_reach_handlers (regs : syscalls.isr_registers) : 0 <= syscalls.eax regs < 2 ^ 32 ->
  exists t, syscalls.boot = Ret t /\
    (forall h, syscalls.eax regs = syscalls.syscall_num h -> syscalls.int_syscall t regs =
       Ret (syscalls.Call h [syscalls.ebx regs; syscalls.ecx regs; syscalls.edx regs; syscalls.esi regs; syscalls.edi regs])) /\
    (syscalls.SYSCALL_NUM_MAX <= syscalls.eax regs -> syscalls.int_syscall t regs = Ret syscalls.Kill_caller) /\
    (syscalls.eax regs < syscalls.SYSCALL_NUM_MAX -> (forall h, syscalls.eax regs <> syscalls.syscall_num h) -> syscalls.int_syscall t regs = Panic).
Proof.
  intros He. exists syscalls.boot_table. split; [exact syscalls.boot_ok|]. assert (zlen syscalls.boot_table = syscalls.SYSCALL_NUM_MAX) as Hl by (vm_compute; reflexivity).
  unfold syscalls.int_syscall. rewrite Hl. rewrite Z.geb_leb. split; [|split].
  - intros h Eh. assert (syscalls.syscall_num h < syscalls.SYSCALL_NUM_MAX) as Hh by (destruct h; reflexivity). rewrite (proj2 (Z.leb_gt _ _)) by lia.
    rewrite syscalls.boot_lookup by lia. rewrite mbind_Ret, Eh, syscalls.find_handler_num. reflexivity.
  - intros Hge. rewrite (proj2 (Z.leb_le _ _)) by lia. reflexivity.
  - intros Hlt Hno. rewrite (proj2 (Z.leb_gt _ _)) by lia. rewrite syscalls.boot_lookup by lia. rewrite mbind_Ret.
    destruct (syscalls.find_handler (syscalls.eax regs)) as [h|] eqn:E; [|reflexivity]. apply syscalls.find_handler_Some in E. destruct (Hno h E).
Qed.

Lemma syscalls_reach_handlers_witness : exists t, syscalls.boot = Ret t /\
  syscalls.int_syscall t (syscalls.mk_regs 205 1 2 3 4 5) = Ret (syscalls.Call syscalls.Syscall_fork [1; 2; 3; 4; 5]).
Proof.
  destruct (syscalls_reach_handlers (syscalls.mk_regs 205 1 2 3 4 5) ltac:(cbn; lia)) as (t & E & H & _). exists t. split; [exact E|]. exact (H syscalls.Syscall_fork eq_refl).
Defined.

(** A program that calls a wrapper gets what the handler of that name returns
    for its arguments (the handler does not look at the registers behind
    them), as long as that is an [int]. *)
Theorem wrappers_call_handlers (run : syscalls.handler -> list Z -> Z) (old : syscalls.isr_registers) (h : syscalls.handler) (n : nat) (args : list Z) :
  syscalls.wrapper_arity h = Some n -> length args = n ->
  exists rest, zlen (args ++ rest) = 5 /\
    syscalls.syscall_wrapper syscalls.boot_table run old (syscalls.syscall_num h) args = Ret (Some (to_i32 (u32 (run h (args ++ rest))))) /\
    (- 2 ^ 31 <= run h (args ++ rest) < 2 ^ 31 -> to_i32 (u32 (run h (args ++ rest))) = run h (args ++ rest)).
Proof.
  intros Hn Hl. set (regs := syscalls.wrapper_registers old (syscalls.syscall_num h) args).
  destruct (syscalls_reach_handlers regs) as (t & E & Hd & _); [unfold regs; cbn; destruct h; cbn; lia|]. rewrite syscalls.boot_ok in E. apply Ret_inj in E. subst t.
  specialize (Hd h eq_refl). exists (drop n [syscalls.ebx old; syscalls.ecx old; syscalls.edx old; syscalls.esi old; syscalls.edi old]).
  assert ([syscalls.ebx regs; syscalls.ecx regs; syscalls.edx regs; syscalls.esi regs; syscalls.edi regs] =
    args ++ drop n [syscalls.ebx old; syscalls.ecx old; syscalls.edx old; syscalls.esi old; syscalls.edi old]) as Hargs.
  { assert (n <= 5)%nat by (destruct h; (discriminate Hn || injection Hn; lia)). do 6 (destruct args as [|? args]; [subst n; reflexivity|]). subst n. cbn in *. lia. }
  rewrite <-Hargs. split; [reflexivity|]. unfold syscalls.syscall_wrapper. fold regs. rewrite Hd, mbind_Ret. split; [reflexivity|].
  set (x := run h _). intros Hr. unfold to_i32, u32 in *. destruct (Z.lt_ge_cases x 0).
  - replace (x mod 2 ^ 32) with (x + 2 ^ 32) by (apply Z.mod_unique with (-1); lia). rewrite Z.mod_small by lia. destruct (Z.ltb_spec (x + 2 ^ 32) (2 ^ 31)); lia.
  - rewrite (Z.mod_small x), Z.mod_small by lia. destruct (Z.ltb_spec x (2 ^ 31)); lia.
Qed.

(** The text of an error: for the codes that have one, [strerror] fills exactly
    the [len] bytes it is allowed to, the text first and zeros after it; a text
    that is too long is cut off without a terminator.  A timeout has no text. *)
Lemma strerror_fills (code len : Z) (buf : list Z) : 0 <= len <= zlen buf -> zlen buf < 2 ^ 32 ->
  syscalls.syscall_strerror true code buf len =
    match syscalls.message_of code with
    | Some m => Ret (Some (0, take (Z.to_nat len) (m ++ replicate (Z.to_nat len) 0) ++ drop (Z.to_nat len) buf))
    | None => Ret (Some (-1, buf))
    end.
Proof.
  intros Hl Hb. unfold syscalls.syscall_strerror. cbn [negb]. destruct (syscalls.message_of code) as [m|] eqn:E; [|reflexivity].
  assert (~ (0 ∈ m)) as H0.
  { assert (forallb (fun c => negb (c =? 0)) m = true) as Hm by (unfold syscalls.message_of in E; repeat (destruct (code =? _); [injection E as <-; reflexivity|]); discriminate).
    rewrite forallb_forall in Hm. intros Hin. apply list_elem_of_In, Hm in Hin. discriminate. }
  unfold u32. rewrite Z.mod_small by lia. pose proof (cstring.strncpy_Ret m (Z.to_nat len) [] buf [] H0 ltac:(unfold zlen in Hl; lia)) as Es.
  cbn [app] in Es. change (zlen (@nil Z)) with 0 in Es. rewrite Es. reflexivity.
Qed.
