(* ===== verification/Boot.v ===== *)
(** * Starting the kernel

    [kernel_main] (kernel/main.cc): the order in which the components are
    initialised, from the boot loader's record to the first switch to the
    init program; [panic] (kernel/panic.cc) and the debug line of debug.h, with
    which the kernel stops a process or itself.  The theorem composes the
    initialisation of memory, the creation of the idle process and of the init
    program, and the start of the scheduler; the witness runs them on a
    small machine, and loads a program on it. *)

From S2P Require Import Prelude Pool PageAlloc KernelDefs Text Vfs Ramfs Memory MemoryFacts MemoryAreas MemoryFaults MemoryFork Machine Pci Screen Sched Rtl8139 Terminal Kernel Stacks Launch Userspace Init Syscalls.
From stdpp Require Import gmap list strings.
#[local] Open Scope Z_scope.

Import userspace.

Module boot.
Import kdefs.

(** The state of the drivers, behind the file system *)
Record devices := mk_devices { d_terms : terminal.t; d_files : ramfs.t; d_nic : rtl8139.t }.

(** Everything the kernel keeps *)
Record t := mk {
  cpu : x86.t;
  clock : timer.t;
  handlers : syscalls.table;
  scr : screen.t;
  pci_devices : fixed_pool pci.pci_device;
  system : kernel.t (D := devices)
}.

(** What the boot loader hands over, the members that are used *)
Record loader := mk_loader { magic : Z; flags : Z; info : multiboot.multiboot_info; memory_map : list memory.mmap_entry }.

Definition MULTIBOOT_MAGIC : Z := 0x2BADB002.
Definition MULTIBOOT_INFO_MEM_MAP : Z := 0x40.
Definition INT_PAGEFAULT : Z := 14.

(** Where the linker puts things *)
Record image := mk_image {
  start_READONLY : Z;
  stop_READONLY : Z;
  kernel_end : Z;
  tss_address : Z;
  interrupt_stack_end : Z;
  rx_address : Z;
  switch_task_iret : Z;
  user_proc_cleanup : Z;
  idle_main : Z;
  init_main : Z;
  on_timer_tick : Z;
  isr_address : x86.isr -> Z
}.

(** Memory that is not initialised, and the numbers of the drivers *)
Record stale := mk_stale { junk32 : list Z; line : list Z; storage : list Z; cells : list Z }.
Definition TERM_DRIVER : Z := 0.
Definition RAMFS_DRIVER : Z := 1.
Definition RTL8139_DRIVER : Z := 2.

Section boot.
Variable dev : ports.device.
Variable img : image.
Variable junk : stale.

(** The processor and its chips, up to the keyboard and the serial line;
    [cr0] is the control register. *)
Definition hardware (cr0 : Z) (x : x86.t) : outcome (x86.t * timer.t * syscalls.table) :=
  '(x, _) ← x86.enter_protected_mode dev x cr0 (tss_address img);
  x ← x86.int_init (isr_address img) x (interrupt_stack_end img);
  tr ← x86.pic_init dev (x86.io x);
  h ← syscalls.syscalls_init syscalls.no_handlers;
  '(c, x) ← timer.timer_init dev (isr_address img) timer.initial (x86.set_io x tr);
  h ← syscalls.timer_init h;
  _ ← default (Ret tt) (x86.int_exception x86.isr_breakpoint);
  x ← x86.kbd_init dev (isr_address img) x;
  x ← x86.com_setup_rx dev (isr_address img) x;
  Ret (x, c, h).

(** [mem_init] and [proc_init], with what they register; [free_stack] is
    what the memory behind the page allocator holds. *)
Definition memory_and_processes {D} (l : loader) (free_stack : list Z) (k : kernel.t (D := D)) : outcome (kernel.t (D := D)) :=
  last ← multiboot.multiboot_last_address (info l);
  '(m, _) ← memory.mem_init (kernel.ms k) (memory_map l) free_stack (start_READONLY img) (stop_READONLY img) (kernel_end img) last;
  kernel.proc_init (switch_task_iret img) (start_READONLY img) (stop_READONLY img) (kernel_end img) last (kernel.set_ms k m) (idle_main img).

(** [vfs_init] and the drivers behind the file system *)
Definition file_systems (reset_fuel : nat) (cards : fixed_pool pci.pci_device) (s : screen.t) (q : sched.t) (x : x86.t) (v : vfs.t devices) : outcome (vfs.t devices * x86.t) :=
  v ← vfs.vfs_init v;
  '(v, node) ← vfs.vfs_create_node v vfs.VFS_DIRECTORY;
  root ← vfs.vfs_lookup (junk32 junk) v (text "/");
  v ← vfs.vfs_add_dirent (junk32 junk) v root (text "dev") node;
  '(v, terms) ← terminal.term_init (junk32 junk) (line junk) (storage junk) (cells junk) TERM_DRIVER v (terminal.initial s q);
  '(v, mountpoint) ← vfs.vfs_create_node v vfs.VFS_FILESYSTEM;
  v ← vfs.vfs_set_driver v mountpoint (Some (vfs.Registered RAMFS_DRIVER)) 0;
  root ← vfs.vfs_lookup (junk32 junk) v (text "/");
  v ← vfs.vfs_add_dirent (junk32 junk) v root (text "ramfs") mountpoint;
  files ← ramfs.ramfs_init;
  '(v, nic, x) ← rtl8139.rtl8139_init dev (isr_address img) (rx_address img) (junk32 junk) RTL8139_DRIVER reset_fuel cards v (rtl8139.initial q) x;
  Ret (vfs.set_devs v (mk_devices terms files nic), x).

(** [kernel_main], up to the first switch: the state, and the process that
    runs.  The messages on the screen are left out; [panic] stops here. *)
Definition kernel_main (cr0 : Z) (free_stack : list Z) (reset_fuel : nat) (l : loader) (s : t) : outcome (t * Z) :=
  let x := x86.set_io (cpu s) (x86.com_init (x86.io (cpu s))) in
  sc ← screen.screen_init (scr s) (cells junk);
  passert (magic l =? MULTIBOOT_MAGIC);;
  passert (negb (Z.land (flags l) MULTIBOOT_INFO_MEM_MAP =? 0));;
  '(x, c, h) ← hardware cr0 x;
  k ← memory_and_processes l free_stack (system s);
  x ← x86.int_register x INT_PAGEFAULT (isr_address img x86.isr_pagefault) x86.KERNEL_CODE_SEL x86.gate;
  h ← syscalls.mem_init h;
  h ← syscalls.proc_init h;
  c ← timer.timer_register_tick_callback c (on_timer_tick img);
  '(cards, tr) ← pci.pci_init dev (pci_devices s) (x86.io x);
  h ← syscalls.vfs_init h;
  '(v, x) ← file_systems reset_fuel cards sc (kernel.ps k) (x86.set_io x tr) (kernel.fs k);
  last ← multiboot.multiboot_last_address (info l);
  '(k, init_pid) ← kernel.start_init (switch_task_iret img) (user_proc_cleanup img) (start_READONLY img) (stop_READONLY img) (kernel_end img) last (kernel.set_fs k v) (init_main img);
  Ret (mk x c h sc cards k, init_pid).

End boot.

(** ** panic.cc *)

(** [dbg_break]: the ports through which emulators are switched off *)
Definition dbg_break (tr : ports.trace) : ports.trace := ports.outw (ports.outw (ports.outw tr 0xB004 0x2000) 0x604 0x2000) 0x4004 0x3400.

(** [dbg_puts] and [log]: [buffer] is [debug_out_buffer], which keeps the line. *)
Definition dbg_puts (sc : screen.t) (buffer : list Z) (pid : option Z) (module format : list Z) (args : list fmt.arg) : outcome (list Z * screen.t) :=
  m ← fmt.format buffer (module ++ text "[%d]: " ++ format) (fmt.ANum (default (u32 (-1)) pid) :: args);
  sc ← screen.print_target sc (str.storage m) (-1);
  sc ← screen.print_target sc [10; 0] (-1);
  Ret (str.storage m, sc).

(** [panic] in ring 3: a program that is built into the kernel.  Without a
    current process it would loop, as it does when the call returns. *)
Definition panic_in_program (explanation : list Z) (pid : option Z) : userspace.prog unit :=
  userspace.syscall (userspace.Write 0 (text "PANIC: "));;
  userspace.syscall (userspace.Write 0 explanation);;
  userspace.syscall (userspace.Write 0 [10]);;
  match pid with Some _ => userspace.syscall (userspace.Exit 14);; mret tt | None => mret tt end;;
  userspace.pure NoFuel.

(** [panic] in the kernel: the process that made the interrupt is killed, and
    another one runs; before there are processes it stops ([None]). *)
Definition panic_in_kernel {D} (buffer : list Z) (explanation : list Z) (tr : ports.trace) (sc : screen.t) (k : kernel.t (D := D)) : outcome (ports.trace * screen.t * option (kernel.t (D := D))) :=
  match sched.proc_current_pid (kernel.ps k) with
  | Some pid =>
      '(_, sc) ← dbg_puts sc buffer (Some pid) (text "sys") (text "panic: %s") [fmt.AStr explanation];
      k ← kernel.kill_caller k;
      Ret (dbg_break tr, sc, Some k)
  | None =>
      sc ← screen.print_target sc (text "PANIC! " ++ [0]) (-1);
      sc ← screen.print_target sc (explanation ++ [0]) (-1);
      Ret (dbg_break tr, sc, None)
  end.

(** ** From the boot loader to the first process *)

Section facts.
Import memory stacks launch.

(** Memory before [mem_init]: no space, all pages for directories and tables free *)
Record first {V} (m : memory.t V) (ND NT : Z) : Prop := {
  fi_spaces : spaces m = new_fixed_pool 128;
  fi_dirs : page_allocator.rep (page_dir_allocator m) ND ∅;
  fi_tabs : page_allocator.rep (page_table_allocator m) NT ∅;
  fi_base : 0 < page_allocator.end_ (page_allocator.phys_bookkeeping (page_table_allocator m));
  fi_apart : forall x y, page_allocator.is_page (page_dir_allocator m) ND x -> page_allocator.is_page (page_table_allocator m) NT y -> x <> y
}.

(** What the loader and the linker must see to: a region behind the kernel and
    the modules with room for more than one page, whose first pages, where the
    page allocator keeps its free list, lie like the kernel in the part of
    memory that every space maps. *)
Record layout (entries : list mmap_entry) (free_stack : list Z) (start_READONLY stop_READONLY kernel_end last : Z) : Prop := {
  ly_region : let r := boot_region entries kernel_end last in
    0 <= page_allocator.start r /\ page_allocator.start r + 0x1000 < page_allocator.end_ r /\ page_allocator.end_ r < 2 ^ 32 /\
    zlen free_stack = page_allocator.free_list_size_pages r * 1024 /\
    page_allocator.start r + page_allocator.free_list_size_pages r * 0x1000 <= KERNEL_LIMIT - KERNEL_VIRTUAL_BASE;
  ly_ro : page_in_kernel (ALIGN_UP start_READONLY 0x1000);
  ly_stop : page_in_kernel (ALIGN_DOWN stop_READONLY 0x1000);
  ly_end : page_in_kernel (ALIGN_UP (Z.max last kernel_end) 0x1000)
}.

Lemma aligned_down v : ALIGN_DOWN v 0x1000 mod 4096 = 0.
Proof.
  assert (ALIGN_DOWN v 0x1000 = v / 4096 * 4096) as ->; [|apply Z_mod_mult].
  unfold ALIGN_DOWN. change (0x1000 - 1) with (Z.ones 12). rewrite <-Z.ldiff_land, Z.ldiff_ones_r, Z.shiftr_div_pow2, Z.shiftl_mul_pow2 by lia. reflexivity.
Qed.

Lemma align_up_page v : ALIGN_UP v 0x1000 mod 4096 = 0.
Proof. exact (aligned_down (u32 (u32 (v + 0x1000) - 1))). Qed.

Lemma allocator_books r mem a : page_allocator.page_allocator r mem = Ret a ->
  page_allocator.start (page_allocator.phys_bookkeeping a) = page_allocator.start r.
Proof. unfold page_allocator.page_allocator. intros E. inv_ret. reflexivity. Qed.

Lemma kernel_page v : 0 <= v -> v <= KERNEL_LIMIT - KERNEL_VIRTUAL_BASE -> v mod 4096 = 0 -> page_in_kernel (PHYS2KERNVIRT v).
Proof.
  assert (KERNEL_VIRTUAL_BASE = 3221225472 /\ KERNEL_LIMIT = 3489619968) as [Hb Hl] by (split; reflexivity). intros H0 H1 Hm. unfold page_in_kernel, PHYS2KERNVIRT.
  rewrite u32_small by lia. split; [lia|]. rewrite Z.add_mod, Hm by lia. reflexivity.
Qed.

Lemma mem_init_ok {V} (m : memory.t V) ND NT entries free_stack start_READONLY stop_READONLY kernel_end last :
  first m ND NT -> layout entries free_stack start_READONLY stop_READONLY kernel_end last ->
  safely (mem_init m entries free_stack start_READONLY stop_READONLY kernel_end last) (fun r => exists SM DA TA N, paging.wf r.1 SM ND NT DA TA /\ areas.ok r.1 /\
    forking.holds r.1 N ∅ /\ is_Some (SM !! current_space r.1) /\ vstate r.1 = vstate m /\ linked r.1 start_READONLY stop_READONLY kernel_end last).
Proof.
  intros [F1 F2 F3 F4 F5] [(Hr0 & Hr1 & Hr2 & Hr3 & Hr4) Ly1 Ly2 Ly3]. unfold mem_init. set (r := boot_region entries kernel_end last) in *.
  assert (page_allocator.start r mod 4096 = 0 /\ page_allocator.end_ r mod 4096 = 0) as [Ha1 Ha2] by (split; [apply align_up_page|apply aligned_down]).
  destruct (page_allocator.pa_init r free_stack) as (a & Ea & Hrep & Hend); [lia|lia|exact Ha1|exact Ha2|lia|exact Hr3|]. rewrite Ea, mbind_Ret.
  pose proof (allocator_books _ _ _ Ea) as Hstart. set (m0 := set_user_alloc m (Some a)).
  assert (paging.wf m0 ∅ ND NT ∅ ∅) as Hwf0 by (apply paging.wf_initial; [unfold m0; cbn; rewrite F1; apply fpm_new; unfold U16_MAX; lia|exact F2|exact F3|exact F4|exact F5]).
  assert (areas.ok m0) as Hok0 by (apply (areas.reach_ok (fun _ _ _ v => Ret (v, 0)) (fun _ _ v => Ret (v, failure 0))); apply areas.R_boot; exact F1).
  eapply safely_bind; [exact (forking.create_space_safely m0 ∅ ND NT ∅ ∅ Hwf0 Hok0)|].
  intros [m1 d] (x & Hd & Hok1 & Hwf1 & _ & _ & Hu & Hc & Hv & Hr). cbn [fst snd] in *.
  assert (linked m1 start_READONLY stop_READONLY kernel_end last) as Hli.
  { constructor; auto. intros b Hb. rewrite Hu in Hb. injection Hb as <-. rewrite Hstart, Hend. unfold page_allocator.usable_pages.
    rewrite page_allocator.pa_bookkeeping in Hr4 by lia. fold (page_allocator.region_pages r) in *.
    pose proof (Z.div_pos (page_allocator.region_pages r + 1023) 1024) as Hp. assert (0 <= page_allocator.region_pages r) by (unfold page_allocator.region_pages; apply Z.div_pos; lia).
    split; apply kernel_page; try lia. replace (_ + _) with (page_allocator.start r + (page_allocator.region_pages r + 1023) / 1024 * 4096) by lia. rewrite Z_mod_plus_full. exact Ha1. }
  eapply safely_bind; [exact (mem_map_kernel_grown m1 _ ND NT _ ∅ d (new_space x) _ _ _ _ _ Hwf1 Hok1 (lookup_insert_eq _ _ _) Hli)|].
  intros m2 (sd & Hg). pose proof Hg as [(TA & Hwf2 & _) Hok2 _ Hu2 _ _ Hv2 _ _]. unfold mem_activate_space, mem_page_dir, get_space.
  rewrite (fpm_get _ _ _ _ (paging.wf_spaces _ _ _ _ _ _ Hwf2)), lookup_insert_eq, !mbind_Ret. simpl.
  exists (<[d := sd]> (<[d := new_space x]> ∅)), ({[x]} ∪ ∅), TA, (page_allocator.usable_pages r). split; [apply (faults.wf_same m2); auto|]. split; [exact Hok2|].
  split; [exists a; split; [exact (eq_trans Hu2 Hu)|exact Hrep]|]. split; [cbn [fst current_space set_current]; rewrite lookup_insert_eq; eauto|]. split; [exact (eq_trans Hv2 Hv)|].
  destruct Hli as [L1 L2 L3 L4]. constructor; auto. intros b Hb. apply L4. rewrite <-Hu2. exact Hb.
Qed.

(** The idle process is in memory, nothing runs. *)
Definition idling {D} (k : kernel.t (D := D)) (SM : gmap Z space_info) (ND NT : Z) (DA TA : gset Z) (N : Z) (A : gset Z) (P : gmap Z sched.process)
    (start_READONLY stop_READONLY kernel_end last : Z) : Prop :=
  machine k SM ND NT DA TA N A P /\ linked (kernel.ms k) start_READONLY stop_READONLY kernel_end last /\
  sched.current_pid (kernel.ps k) = sched.END /\ sched.running_head (kernel.ps k) = sched.END /\ is_Some (P !! sched.idle_process (kernel.ps k)).

Lemma linked_books {V} (m m' : memory.t V) start_READONLY stop_READONLY kernel_end last : linked m start_READONLY stop_READONLY kernel_end last -> books m' = books m ->
  linked m' start_READONLY stop_READONLY kernel_end last.
Proof.
  intros [L1 L2 L3 L4] Hb. constructor; auto. intros a Ha. unfold books in Hb. rewrite Ha in Hb. destruct (user_space_allocator m) as [b|]; [|discriminate].
  injection Hb as ->. apply L4. reflexivity.
Qed.

Lemma created_machine {D} (k k' : kernel.t (D := D)) SM ND NT DA TA N A P pid frame flags : machine k SM ND NT DA TA N A P -> created (kernel.ms k) k k' SM ND NT DA N A P pid frame flags ->
  exists SM' DA' TA' A' P', machine k' SM' ND NT DA' TA' N A' P' /\ books (kernel.ms k') = books (kernel.ms k) /\ is_Some (P' !! pid).
Proof.
  intros [_ _ _ [sc Hc] _ _] [_ (x & d & A' & sd & y & ctx & [Hnew (TA' & Hwf) Hok Hh _ Hcur _ _ Hbk] & _ & _ & HP) Hctx _].
  exists (<[d := sd]> SM), ({[x]} ∪ DA), TA', A', (<[pid := sched.set_sp (kernel.PROC_KERNEL_STACK_BASE - frame_size) (sched.new_process d ctx flags)]> P). split; [|split; [exact Hbk|rewrite lookup_insert_eq; eauto]]. constructor; auto.
  rewrite Hcur, lookup_insert_ne by congruence. eauto.
Qed.

Lemma memory_and_processes_ok {D} (img : image) (l : loader) (free_stack : list Z) (k : kernel.t (D := D)) ND NT last :
  first (kernel.ms k) ND NT -> kernel.ps k = sched.init -> (exists CM, fpm 64 (vfs.contexts (kernel.fs k)) CM) -> multiboot.multiboot_last_address (info l) = Ret last ->
  layout (memory_map l) free_stack (start_READONLY img) (stop_READONLY img) (kernel_end img) last ->
  safely (memory_and_processes img l free_stack k) (fun k' => exists SM DA TA N A P, idling k' SM ND NT DA TA N A P (start_READONLY img) (stop_READONLY img) (kernel_end img) last).
Proof.
  intros Hf Hps Hctx Hlast Hly. unfold memory_and_processes. rewrite Hlast, mbind_Ret.
  eapply safely_bind; [exact (mem_init_ok (kernel.ms k) ND NT (memory_map l) free_stack _ _ _ last Hf Hly)|].
  intros [m c] (SM & DA & TA & N & Hwf & Hok & Hh & Hcur & Hv & Hli). cbn [fst] in *. set (k1 := kernel.set_ms k m).
  assert (machine k1 SM ND NT DA TA N ∅ ∅) as Hm1.
  { constructor; auto; [unfold k1; cbn; rewrite Hps; apply fpm_new; unfold U16_MAX; lia|]. destruct Hctx as (CM & HCM). exists CM. unfold kernel.fs in HCM. unfold k1. cbn. rewrite Hv. exact HCM. }
  unfold kernel.proc_init. eapply safely_bind; [exact (proc_create_ok (switch_task_iret img) _ _ _ _ k1 SM ND NT DA TA N ∅ ∅ kernel.PROC_KERNEL_ACCESSIBLE (idle_main img) Hm1 Hli)|].
  intros [k2 pid] Hcr. cbn [fst snd] in Hcr. pose proof (cr_sched _ _ _ _ _ _ _ _ _ _ _ _ _ Hcr) as Hq. destruct (created_machine _ _ _ _ _ _ _ _ _ _ _ _ _ Hm1 Hcr) as (SM' & DA' & TA' & A' & P' & [W1 W2 W3 W4 W5 W6] & Hbk & Hpid).
  simpl. exists SM', DA', TA', N, A', P'. split; [constructor; auto|]. split; [exact (linked_books m _ _ _ _ _ Hli Hbk)|].
  assert (kernel.ps k1 = sched.init) as Hps1 by exact Hps. cbn. rewrite Hq, Hps1. repeat split; auto.
Qed.

(** The drivers leave the file contexts of the processes alone. *)
Definition same_contexts {D X} (v : vfs.t D) (m : outcome (vfs.t D * X)) : Prop := ensures m (fun r => vfs.contexts r.1 = vfs.contexts v).

Lemma create_node_contexts {D} (v : vfs.t D) ty : same_contexts v (vfs.vfs_create_node v ty).
Proof. unfold same_contexts, vfs.vfs_create_node. destruct (pool.emplace_anywhere _ _ _) as [[p h]| | |]; simpl; auto. Qed.

Lemma set_driver_contexts {D} (v : vfs.t D) n d o : ensures (vfs.vfs_set_driver v n d o) (fun v' => vfs.contexts v' = vfs.contexts v).
Proof.
  unfold vfs.vfs_set_driver. destruct (pool.get _ _ _); simpl; auto. destruct (negb _); simpl; auto. destruct (pool.emplace_anywhere _ _ _) as [[p h]| | |]; simpl; auto.
  destruct (pool.modify _ _ _ _); simpl; auto.
Qed.

Lemma add_dirent_contexts {D} (v : vfs.t D) j d name n : ensures (vfs.vfs_add_dirent j v d name n) (fun v' => vfs.contexts v' = vfs.contexts v).
Proof.
  unfold vfs.vfs_add_dirent. destruct (pool.get _ _ _); simpl; auto. destruct (_ =? _); simpl; auto. destruct (str.from_cstr_all _ _); simpl; auto.
  destruct (pool.emplace_anywhere _ _ _) as [[p h]| | |]; simpl; auto. destruct (pool.modify _ _ _ _); simpl; auto.
Qed.

Lemma vfs_init_contexts {D} (v : vfs.t D) : ensures (vfs.vfs_init v) (fun v' => vfs.contexts v' = vfs.contexts v).
Proof.
  unfold vfs.vfs_init. eapply ensures_bind; [apply create_node_contexts|]. intros [v1 r] H1. eapply ensures_bind; [apply create_node_contexts|]. intros [v2 l] H2.
  eapply ensures_mono; [apply set_driver_contexts|]. intros v3 H3. simpl in *. congruence.
Qed.

(** A node with a driver that gets a name: what the drivers do to register *)
Lemma named_node_contexts {D} (v : vfs.t D) j ty d o path name : same_contexts v ('(v, n) ← vfs.vfs_create_node v ty; v ← vfs.vfs_set_driver v n d o; dir ← vfs.vfs_lookup j v path; v ← vfs.vfs_add_dirent j v dir name n; Ret (v, n)).
Proof.
  eapply ensures_bind; [apply create_node_contexts|]. intros [v1 n] H1. eapply ensures_bind; [apply set_driver_contexts|]. intros v2 H2.
  eapply ensures_bind; [apply ensures_eq|]. intros dir _. eapply ensures_bind; [apply add_dirent_contexts|]. intros v3 H3. simpl in *. congruence.
Qed.

Lemma create_terminal_contexts {D} j ln sto no (v : vfs.t D) c name b : same_contexts v (terminal.create_terminal j ln sto no v c name b).
Proof.
  unfold terminal.create_terminal. eapply ensures_bind; [apply ensures_eq|]. intros x _. eapply ensures_bind; [apply ensures_eq|]. intros [p id] _.
  pose proof (named_node_contexts v j vfs.VFS_CHAR_DEVICE (Some (vfs.Registered no)) id [47; 100; 101; 118; 47] name) as H. unfold same_contexts in H.
  destruct (vfs.vfs_create_node v _) as [[v1 n]| | |]; simpl in *; auto. destruct (vfs.vfs_set_driver v1 n _ id) as [v2| | |]; simpl in *; auto.
  destruct (vfs.vfs_lookup j v2 _); simpl in *; auto. destruct (vfs.vfs_add_dirent j v2 _ name n); simpl in *; auto.
Qed.

Lemma term_init_contexts {D} j ln sto cl no (v : vfs.t D) c : same_contexts v (terminal.term_init j ln sto cl no v c).
Proof.
  assert (forall n i (v : vfs.t D) c, same_contexts v (terminal.create_terminals n i j ln sto cl no v c)) as Hloop.
  { induction n as [|n IH]; intros i w d; cbn [terminal.create_terminals]; [reflexivity|]. eapply ensures_bind; [apply ensures_eq|]. intros [s b] _.
    do 2 (eapply ensures_bind; [apply ensures_eq|]; intros ? _). eapply ensures_bind; [apply create_terminal_contexts|]. intros [w1 d1] H1. cbn [fst] in H1.
    eapply ensures_mono; [apply IH|]. intros r Hr. cbv beta in Hr. congruence. }
  unfold terminal.term_init. eapply ensures_bind; [apply create_terminal_contexts|]. intros [v1 c1] H1. cbn [fst] in H1. eapply ensures_mono; [apply Hloop|]. intros r Hr. cbv beta in Hr. congruence.
Qed.

Lemma rtl8139_init_contexts {D} dev address rx j no fuel cards (v : vfs.t D) st m : ensures (rtl8139.rtl8139_init dev address rx j no fuel cards v st m) (fun r => vfs.contexts r.1.1 = vfs.contexts v).
Proof.
  unfold rtl8139.rtl8139_init. destruct (pci.pci_find_device _ _ _) as [card|]; [|reflexivity]. eapply ensures_bind; [apply ensures_eq|]. intros [st1 link] _. destruct link; [|reflexivity].
  unfold rtl8139.register. do 2 (eapply ensures_bind; [apply ensures_eq|]; intros ? _).
  pose proof (named_node_contexts v j vfs.VFS_FILESYSTEM (Some (vfs.Registered no)) 0 [47; 100; 101; 118; 47] [101; 116; 104; 48]) as H. unfold same_contexts in H.
  destruct (vfs.vfs_create_node v _) as [[v1 n]| | |]; simpl in *; auto. destruct (vfs.vfs_set_driver v1 n _ 0) as [v2| | |]; simpl in *; auto.
  destruct (vfs.vfs_lookup j v2 _); simpl in *; auto. destruct (vfs.vfs_add_dirent j v2 _ _ n); simpl in *; auto.
Qed.

Lemma file_systems_contexts dev img junk reset_fuel cards sc q x v : same_contexts v (file_systems dev img junk reset_fuel cards sc q x v).
Proof.
  unfold file_systems. eapply ensures_bind; [apply vfs_init_contexts|]. intros v1 H1. eapply ensures_bind; [apply create_node_contexts|]. intros [v2 n] H2.
  eapply ensures_bind; [apply ensures_eq|]. intros root _. eapply ensures_bind; [apply add_dirent_contexts|]. intros v3 H3. eapply ensures_bind; [apply term_init_contexts|]. intros [v4 terms] H4.
  eapply ensures_bind; [apply create_node_contexts|]. intros [v5 mp] H5. eapply ensures_bind; [apply set_driver_contexts|]. intros v6 H6. eapply ensures_bind; [apply ensures_eq|]. intros root2 _.
  eapply ensures_bind; [apply add_dirent_contexts|]. intros v7 H7. eapply ensures_bind; [apply ensures_eq|]. intros files _. eapply ensures_bind; [apply rtl8139_init_contexts|].
  intros [[v8 nic] x'] H8. simpl in *. congruence.
Qed.

(** The init program is the process that runs: the interrupt return at the top
    of its kernel stack leads to [init_main] in user mode, on a stack without
    arguments, in its own space; the idle process waits. *)
Record init_runs {D} (img : image) (k : kernel.t (D := D)) (pid : Z) : Prop := {
  ir_current : sched.current_pid (kernel.ps k) = pid /\ sched.running_head (kernel.ps k) = pid;
  ir_proc : exists p, sched.proc (kernel.ps k) pid = Ret p /\ sched.space_handle p = current_space (kernel.ms k) /\
    sched.kernel_stack_sp p = kernel.PROC_KERNEL_STACK_BASE - frame_size;
  ir_resumes : resumes_with (kernel.ms k) (current_space (kernel.ms k))
    (zset (kernel.kernel_frame (switch_task_iret img) (Some (kernel.entry_regs kernel.USER_CODE_SEL kernel.USER_DATA_SEL (init_main img)))) 1 (kernel.USER_SPACE_STACK_BASE - stack_used []));
  ir_starts : starts_on (kernel.ms k) (current_space (kernel.ms k)) (kernel.USER_SPACE_STACK_BASE - stack_used []) (user_proc_cleanup img) [];
  ir_idle : sched.idle_process (kernel.ps k) <> pid /\ exists p, sched.proc (kernel.ps k) (sched.idle_process (kernel.ps k)) = Ret p
}.

(** The end of [kernel_main], in a state the drivers have changed the files of *)
Lemma starts_init {D} (img : image) (k : kernel.t (D := D)) v SM ND NT DA TA N A P last :
  idling k SM ND NT DA TA N A P (start_READONLY img) (stop_READONLY img) (kernel_end img) last -> vfs.contexts v = vfs.contexts (kernel.fs k) ->
  0 <= switch_task_iret img < 2 ^ 32 -> 0 <= user_proc_cleanup img < 2 ^ 32 -> 0 <= init_main img < 2 ^ 32 ->
  safely (kernel.start_init (switch_task_iret img) (user_proc_cleanup img) (start_READONLY img) (stop_READONLY img) (kernel_end img) last (kernel.set_fs k v) (init_main img))
    (fun r => init_runs img r.1 r.2).
Proof.
  intros ([W1 W2 W3 W4 W5 (CM & W6)] & Hli & Hc & Hr & [pi Hpi]) Hv Hsw Hcl Him.
  eapply safely_mono; [apply (start_init_ok _ _ _ _ _ _ (kernel.set_fs k v) SM ND NT DA TA N A P); try assumption|].
  - constructor; try assumption; [apply (faults.wf_same (kernel.ms k)); auto|]. exists CM. cbn. rewrite Hv. exact W6.
  - destruct Hli as [L1 L2 L3 L4]. constructor; auto.
  - intros [k' pid] (d & H1 & H2 & <- & H4 & [[Hnew _] L2 L3 L4 L5 _ _ _]). cbn [fst snd] in *. change (kernel.ps (kernel.set_fs k v)) with (kernel.ps k) in *. constructor; auto.
    assert (sched.idle_process (kernel.ps k) <> pid) as Hne by congruence. rewrite H4. split; [exact Hne|]. exists pi. rewrite (L3 _ Hne). unfold sched.proc. rewrite (fpm_get _ _ _ _ W5), Hpi. reflexivity.
Qed.

End facts.
End boot.

(** ** A machine with four megabytes *)
Module demo.
Import boot.
Definition image : image := mk_image 0xC0001000 0xC0002000 0xC0003000 0xC0004000 0xC0005000 0xC0006000 0xC0000010 0xC0000020 0xC0000030 0xC0000040 1 (fun _ => 0xC0000050).
Definition loader : loader := mk_loader MULTIBOOT_MAGIC MULTIBOOT_INFO_MEM_MAP (multiboot.mk_info [] 0 0 []) [memory.mk_mmap 0x100000 0x400000 1].
Definition stale : stale := mk_stale (replicate 32 0) (replicate 128 0) (replicate 256 0) (replicate 4000 0).
Definition scr : screen.t := screen.mk (screen.mk_buffer true [] 0) (new_fixed_pool 16) U16_MAX U16_MAX (screen.mk_dev ∅ []).
Definition files : ramfs.t := ramfs.mk (new_fixed_pool 64) (new_fixed_pool 16) (new_fixed_pool 64) 0 (new_fixed_pool 32).
Definition memory : memory.t (vfs.t devices) :=
  memory.mk (paging.demo_pages 0xC0100000) (paging.demo_pages 0xC0200000) None ∅ (new_fixed_pool 128) U16_MAX (fun _ => 7)
    (vfs.empty (mk_devices (terminal.initial scr sched.init) files (rtl8139.initial sched.init))).
Definition state : boot.t := mk (x86.initial []) timer.initial syscalls.no_handlers scr pci.devices_init (kernel.mk sched.init memory).
Definition free_stack : list Z := replicate 1024 0.

(** The pids and the space when the init program runs *)
Definition started : option (Z * Z * Z) :=
  match (k ← memory_and_processes image loader free_stack (system state);
         kernel.start_init 0xC0000010 0xC0000020 0xC0001000 0xC0002000 0xC0003000 0xC0000000 k 0xC0000040) with
  | Ret (k, pid) => Some (pid, sched.idle_process (kernel.ps k), memory.current_space (kernel.ms k))
  | _ => None
  end.

Lemma memory_first : first memory 99 99.
Proof.
  constructor; [reflexivity|apply paging.demo_pages_rep; [lia|reflexivity]..|cbn; lia|].
  intros x y (i & Hi & ->) (j & Hj & ->). unfold page_allocator.page_no, page_allocator.PAGE. cbn. lia.
Qed.

Lemma loader_layout : layout (memory_map loader) free_stack 0xC0001000 0xC0002000 0xC0003000 0xC0000000.
Proof. constructor; vm_compute; repeat split; discriminate || reflexivity. Qed.

(** A program behind a driver at /bin: one page of code from the file and two
    pages of memory, entered at 0x1000 *)
Definition elf_bytes : list Z :=
  [127; 69; 76; 70; 1; 1; 1; 0; 0; 0; 0; 0; 0; 0; 0; 0] ++ [2; 0; 3; 0; 1; 0; 0; 0; 0; 16; 0; 0; 52; 0; 0; 0; 0; 0; 0; 0; 0; 0; 0; 0] ++
  [52; 0; 32; 0; 1; 0; 0; 0; 0; 0; 0; 0].
Definition segment_bytes : list Z :=
  [1; 0; 0; 0; 0; 16; 0; 0; 0; 16; 0; 0; 0; 16; 0; 0; 0; 8; 0; 0; 0; 24; 0; 0; 5; 0; 0; 0; 0; 16; 0; 0].
Definition program_driver (_ : Z) : vfs.driver unit := {|
  vfs.drv_write := None; vfs.drv_read := Some (fun _ n u => Ret (u, if n =? kernel.ELF_HEADER_SIZE then (n, elf_bytes) else (n, segment_bytes)));
  vfs.drv_open := Some (fun _ _ _ u => Ret (u, 7)); vfs.drv_close := None; vfs.drv_control := None; vfs.drv_seek := None; vfs.drv_tell := None; vfs.drv_mkdir := None |}.
Definition program_files : vfs.t unit :=
  match (v ← vfs.vfs_init (vfs.empty tt); '(v, n) ← vfs.vfs_create_node v vfs.VFS_FILESYSTEM; v ← vfs.vfs_set_driver v n (Some (vfs.Registered 0)) 0;
         vfs.vfs_add_dirent (replicate 32 0) v 0 (text "bin") n) with Ret v => v | _ => vfs.empty tt end.
Definition program_memory : memory.t (vfs.t unit) :=
  memory.mk (paging.demo_pages 0xC0100000) (paging.demo_pages 0xC0200000) None ∅ (new_fixed_pool 128) U16_MAX (fun _ => 7) program_files.

(** A process that can load it *)
Definition idle_kernel : outcome (kernel.t (D := unit)) := memory_and_processes image loader free_stack (kernel.mk sched.init program_memory).
Definition fresh_process : outcome (kernel.t (D := unit) * Z) :=
  k ← idle_kernel; kernel.proc_create 0xC0000010 0xC0001000 0xC0002000 0xC0003000 0xC0000000 k kernel.PROC_USER_SPACE 0x1000.
(** Its standard descriptors *)
Definition std_fds (v : vfs.t unit) (ctx : Z) : outcome (vfs.t unit) :=
  '(v, _) ← vfs.vfs_open program_driver (replicate 32 0) v ctx (text "/bin/in") 0;
  '(v, _) ← vfs.vfs_open program_driver (replicate 32 0) v ctx (text "/bin/out") 0;
  '(v, _) ← vfs.vfs_open program_driver (replicate 32 0) v ctx (text "/bin/err") 0;
  Ret v.
Definition ready_process : outcome (kernel.t (D := unit) * Z) :=
  '(k, pid) ← fresh_process; p ← sched.proc (kernel.ps k) pid; v ← std_fds (kernel.fs k) (sched.file_context p); Ret (kernel.set_fs k v, pid).
Definition run_program (k : kernel.t (D := unit)) (pid : Z) : outcome (kernel.t (D := unit) * Z) :=
  launch.load_and_start program_driver (replicate 32 0) (replicate 64 0) 0xC0000020 k pid (text "/bin/x") [0; 2] [text "x"; text "y"].

(** What the file system says about it *)
Definition read_program (k : kernel.t (D := unit)) (pid : Z) : outcome (option (Z * (Z * list Z) * (Z * list Z))) :=
  p ← sched.proc (kernel.ps k) pid;
  '(v1, r) ← vfs.vfs_open program_driver (replicate 32 0) (kernel.fs k) (sched.file_context p) (text "/bin/x") 0;
  fd ← kdefs.res_value r;
  '(v2, r) ← vfs.vfs_read program_driver (replicate 64 0) v1 (sched.file_context p) fd kernel.ELF_HEADER_SIZE;
  h ← kdefs.res_value r;
  '(v3, r) ← vfs.vfs_read program_driver (replicate 64 0) v2 (sched.file_context p) fd (kernel.PROGRAM_HEADER_SIZE * 1);
  t ← kdefs.res_value r;
  Ret (Some (fd, h, t)).
End demo.

Import boot.

(** C31: the kernel starts the init program. From an empty table of spaces and
    free pages for page tables, with a memory map that leaves room behind the
    kernel and the modules, the memory and process initialisation returns or
    ends in a panic, and so does the start of the init program in any
    state in which the drivers have left the file contexts of processes alone,
    which they do. So when [kernel_main] gets to its first switch, the init
    process is current, on the queue of running processes and in its own
    address space, its kernel stack holds the frame that the interrupt return
    takes to [init_main] in user mode, its user stack holds the return address
    and no arguments, and the idle process stays beside it. *)
Theorem kernel_starts_init (dev : ports.device) (img : image) (junk : stale) cr0 (free_stack : list Z) reset_fuel (l : loader) (s : boot.t) ND NT last :
  first (kernel.ms (system s)) ND NT -> kernel.ps (system s) = sched.init -> vfs.contexts (kernel.fs (system s)) = new_fixed_pool 64 ->
  multiboot.multiboot_last_address (info l) = Ret last ->
  layout (memory_map l) free_stack (start_READONLY img) (stop_READONLY img) (kernel_end img) last ->
  0 <= switch_task_iret img < 2 ^ 32 -> 0 <= user_proc_cleanup img < 2 ^ 32 -> 0 <= init_main img < 2 ^ 32 ->
  safely (memory_and_processes img l free_stack (system s)) (fun k => forall v, vfs.contexts v = vfs.contexts (kernel.fs k) ->
    safely (kernel.start_init (switch_task_iret img) (user_proc_cleanup img) (start_READONLY img) (stop_READONLY img) (kernel_end img) last (kernel.set_fs k v) (init_main img))
      (fun r => init_runs img r.1 r.2)) /\
  ensures (kernel_main dev img junk cr0 free_stack reset_fuel l s) (fun r => init_runs img (system r.1) r.2).
Proof.
  intros Hf Hps Hctx Hlast Hly Hsw Hcl Him. set (Q := fun _ => _). assert (safely (memory_and_processes img l free_stack (system s)) Q) as Hsafe.
  { eapply safely_mono; [apply (memory_and_processes_ok img l free_stack (system s) ND NT last Hf Hps); [exists ∅; rewrite Hctx; apply fpm_new; unfold U16_MAX; lia|exact Hlast|exact Hly]|].
    intros k (SM & DA & TA & N & A & P & Hk) v Hv. apply (starts_init img k v SM ND NT DA TA N A P last Hk); assumption. }
  split; [exact Hsafe|]. unfold kernel_main. do 3 (eapply ensures_bind; [apply ensures_eq|]; intros ? _). eapply ensures_bind; [apply ensures_eq|]. intros [[x c] h] _.
  destruct (memory_and_processes img l free_stack (system s)) as [k| | |]; [rewrite mbind_Ret|exact I..]. do 4 (eapply ensures_bind; [apply ensures_eq|]; intros ? _).
  eapply ensures_bind; [apply ensures_eq|]. intros [cards tr] _. eapply ensures_bind; [apply ensures_eq|]. intros h' _. eapply ensures_bind; [apply ensures_eq|]. intros [v x'] E.
  rewrite Hlast, mbind_Ret. specialize (Hsafe v (ensures_elim _ _ _ (file_systems_contexts _ _ _ _ _ _ _ _ _) E)). destruct (kernel.start_init _ _ _ _ _ _ _ _) as [[k' pid]| | |]; simpl in *; auto.
Qed.

Lemma kernel_starts_init_witness : exists k k' pid, memory_and_processes demo.image demo.loader demo.free_stack (system demo.state) = Ret k /\
  kernel.start_init 0xC0000010 0xC0000020 0xC0001000 0xC0002000 0xC0003000 0xC0000000 k 0xC0000040 = Ret (k', pid) /\
  demo.started = Some (1, 0, 2) /\ init_runs demo.image k' pid.
Proof.
  assert (demo.started = Some (1, 0, 2)) as Hst by (vm_compute; reflexivity).
  destruct (kernel_starts_init (fun _ _ _ => 0) demo.image demo.stale 1 demo.free_stack 0 demo.loader demo.state 99 99 0xC0000000) as [H _];
    [exact demo.memory_first|reflexivity|reflexivity|reflexivity|exact demo.loader_layout|cbn; lia..|].
  unfold demo.started in Hst. destruct (memory_and_processes demo.image demo.loader demo.free_stack (system demo.state)) as [k| | |] eqn:Ek; [rewrite mbind_Ret in Hst|discriminate Hst..].
  specialize (H (kernel.fs k) eq_refl). change (kernel.start_init _ _ _ _ _ _ _ _) with
    (kernel.start_init 0xC0000010 0xC0000020 0xC0001000 0xC0002000 0xC0003000 0xC0000000 (kernel.set_fs k (kernel.fs k)) 0xC0000040) in H.
  replace (kernel.set_fs k (kernel.fs k)) with k in H by (destruct k as [q m]; destruct m; reflexivity).
  destruct (kernel.start_init _ _ _ _ _ _ k _) as [[k' pid]| | |] eqn:E; [|discriminate Hst..]. exists k, k', pid. split; [reflexivity|]. split; [exact E|]. split; [|exact H].
  unfold demo.started. rewrite Ek, mbind_Ret, E. exact Hst.
Defined.

Lemma demo_executable k pid p h : sched.proc (kernel.ps k) pid = Ret p -> demo.read_program k pid = Ret (Some (3, (kernel.ELF_HEADER_SIZE, h), (32, demo.segment_bytes))) ->
  h = demo.elf_bytes -> exists v', launch.executable demo.program_driver (replicate 32 0) (replicate 64 0) (kernel.fs k) v' (sched.file_context p) (text "/bin/x") 3 (kernel.parse_elf_header demo.elf_bytes) demo.segment_bytes.
Proof.
  intros Hp E ->. unfold demo.read_program in E. rewrite Hp, mbind_Ret in E.
  destruct (vfs.vfs_open demo.program_driver (replicate 32 0) _ _ _ _) as [[v1 [fd|e]]| | |] eqn:E1; [|discriminate E..]. rewrite mbind_Ret in E. cbn [kdefs.res_value] in E. rewrite mbind_Ret in E.
  destruct (vfs.vfs_read demo.program_driver (replicate 64 0) v1 _ _ _) as [[v2 [b|e]]| | |] eqn:E2; [|discriminate E..]. rewrite mbind_Ret in E. cbn [kdefs.res_value] in E. rewrite mbind_Ret in E.
  destruct (vfs.vfs_read demo.program_driver (replicate 64 0) v2 _ _ _) as [[v3 [u|e]]| | |] eqn:E3; [|discriminate E..]. rewrite mbind_Ret in E. cbn [kdefs.res_value] in E. rewrite mbind_Ret in E. injection E as -> -> ->.
  exists v3. constructor; [|reflexivity|reflexivity|vm_compute; split; congruence]. exists v1, v2, demo.elf_bytes. auto.
Qed.

(** The process in the demo is one that can load a program. *)
Lemma program_loading k pid : demo.fresh_process = Ret (k, pid) -> exists SM ND NT DA N A P P' p sd x frame,
  launch.loading k SM ND NT DA N A P P' pid p sd x frame /\ sched.proc (kernel.ps k) pid = Ret p /\ sched.p_flags p = kernel.PROC_USER_SPACE.
Proof.
  intros E. unfold demo.fresh_process in E.
  pose proof (memory_and_processes_ok demo.image demo.loader demo.free_stack (kernel.mk sched.init demo.program_memory) 99 99 0xC0000000) as H.
  fold demo.idle_kernel in H. destruct demo.idle_kernel as [k0| | |]; [rewrite mbind_Ret in E|discriminate E..].
  destruct H as (SM & DA & TA & N & A & P & Hm & Hli & _); [|reflexivity| |reflexivity|exact demo.loader_layout|].
  - destruct demo.memory_first. constructor; auto.
  - exists ∅. change (vfs.contexts (kernel.fs _)) with (vfs.contexts demo.program_files). assert (vfs.contexts demo.program_files = new_fixed_pool 64) as -> by (vm_compute; reflexivity). apply fpm_new. unfold U16_MAX. lia.
  - pose proof (launch.proc_create_ok 0xC0000010 _ _ _ _ k0 SM 99 99 DA TA N A P kernel.PROC_USER_SPACE 0x1000 Hm Hli) as Hc. cbn [demo.image start_READONLY stop_READONLY kernel_end] in Hc. rewrite E in Hc. cbn [safely fst snd] in Hc.
    destruct (launch.created_loading _ _ _ _ _ _ _ _ _ _ _ _ _ Hm Hc) as (DA' & A' & P' & p & sd & x & Hlo & Hfl); [vm_compute; split; discriminate| |].
    { apply (launch.user_frame_words 0xC0000010 0x1000); lia. }
    do 12 eexists. split; [exact Hlo|]. split; [|exact Hfl]. unfold sched.proc. rewrite (fpm_get _ _ _ _ (launch.lo_procs _ _ _ _ _ _ _ _ _ _ _ _ _ _ Hlo)), (launch.lo_proc _ _ _ _ _ _ _ _ _ _ _ _ _ _ Hlo). reflexivity.
Qed.

(** What the demo computes: the file is found, and the program is loaded. *)
Definition demo_loads : option (Z * Z * Z) :=
  match demo.ready_process with
  | Ret (k, pid) =>
      match demo.read_program k pid, demo.run_program k pid with
      | Ret (Some (fd, (n, h), (m, t))), Ret (k', r) => if bool_decide (h = demo.elf_bytes /\ t = demo.segment_bytes) then Some (fd, n, m) else None
      | _, _ => None
      end
  | _ => None
  end.

Lemma program_ready k pid : demo.ready_process = Ret (k, pid) -> exists SM ND NT DA N A P P' p sd x frame,
  launch.loading k SM ND NT DA N A P P' pid p sd x frame /\ sched.proc (kernel.ps k) pid = Ret p /\ sched.p_flags p = kernel.PROC_USER_SPACE.
Proof.
  intros E. unfold demo.ready_process in E. destruct demo.fresh_process as [[k0 q]| | |] eqn:E0; [rewrite mbind_Ret in E|discriminate E..].
  destruct (program_loading k0 q E0) as (SM & ND & NT & DA & N & A & P & P' & p & sd & x & frame & Hlo & Hp & Hf). rewrite Hp, mbind_Ret in E.
  destruct (demo.std_fds _ _) as [v| | |]; [rewrite mbind_Ret in E|discriminate E..]. injection E as <- <-.
  do 12 eexists. split; [exact (launch.loading_fs _ _ _ _ _ _ _ _ _ _ _ _ _ _ v Hlo)|]. split; [exact Hp|exact Hf].
Qed.

(** The program with two arguments: it starts at 0x1000, 28 bytes below the
    top of its stack, and returns to no kernel address. *)
Lemma exec_loads_program_witness : exists k k' pid p, demo.ready_process = Ret (k, pid) /\ demo_loads = Some (3, 52, 32) /\ demo.run_program k pid = Ret (k', 0) /\
  sched.proc (kernel.ps k) pid = Ret p /\
  launch.starts_on (kernel.ms k') (sched.space_handle p) (kernel.USER_SPACE_STACK_BASE - 28) 0 [text "x"; text "y"] /\
  kernel.load_word (memory.set_current (kernel.ms k') (sched.space_handle p)) (kernel.PROC_KERNEL_STACK_BASE - 20) = Ret 0x1000.
Proof.
  assert (demo_loads = Some (3, 52, 32)) as Hd by (vm_compute; reflexivity). pose proof Hd as H. unfold demo_loads in H.
  destruct demo.ready_process as [[k pid]| | |] eqn:E; [|discriminate H..]. destruct (program_ready k pid E) as (SM & ND & NT & DA & N & A & P & P' & p & sd & x & frame & Hlo & Hp & Hf).
  destruct (demo.read_program k pid) as [[[[fd [n h]] [m t]]|]| | |] eqn:Er; [|discriminate H..]. destruct (demo.run_program k pid) as [[k' r]| | |] eqn:Erun; [|discriminate H..].
  case_bool_decide as Hb; [|discriminate H]. destruct Hb as [-> ->]. injection H as -> -> ->. destruct (demo_executable k pid p _ Hp Er eq_refl) as [v' Hex].
  destruct (launch.loading_view _ _ _ _ _ _ _ _ _ _ _ _ _ _ Hlo) as [l Hl].
  pose proof (exec_loads_program demo.program_driver (replicate 32 0) (replicate 64 0) 0xC0000020 k SM ND NT DA N A P P' pid p sd x frame (text "/bin/x") 3
    (kernel.parse_elf_header demo.elf_bytes) demo.segment_bytes v' [0; 2] [text "x"; text "y"] l Hlo Hex ltac:(lia) eq_refl ltac:(vm_compute; discriminate) Hl) as Hs.
  fold (demo.run_program k pid) in Hs. rewrite Erun in Hs. cbn [safely fst snd] in Hs. destruct Hs as [-> [Hr Hst _ _ _ _ _]].
  exists k, k', pid, p. split; [reflexivity|]. split; [exact Hd|]. split; [exact Erun|]. split; [exact Hp|]. split; [rewrite Hf in Hst; exact Hst|].
  destruct (launch.lo_frame _ _ _ _ _ _ _ _ _ _ _ _ _ _ Hlo) as [Hlen _].
  apply (Hr 4 0x1000). rewrite znth_zset_ne by discriminate. apply znth_zset_eq. lia.
Defined.
