(* ===== verification/Console.v ===== *)
(** * Diagnostics on the screen (filesystem.cc, memory.cc, process.cc, x86.cc)

    [vfs_print], [mem_print_space], [int_breakpoint], [syscall_shutdown] and
    [idle_main]: they
    change nothing but the screen, but they run in the kernel, so that an
    assertion that fails in them takes a process with it. *)

From S2P Require Import Prelude Queue RingBuffer Pool Text TextFacts Vfs Memory Machine Screen Kernel Userspace Boot.
From stdpp Require Import strings.
#[local] Open Scope Z_scope.

Module console.
Import userspace.

Definition print_text (sc : screen.t) (cs : list Z) : outcome screen.t := screen.print_target sc (cs ++ [0]) (-1).
Definition print_str (sc : screen.t) (s : str.t) : outcome screen.t := screen.print_target sc (str.storage s) (-1).
Definition newline (sc : screen.t) : outcome screen.t := print_text sc [10].

Section vfs_print.
Context {D : Type} (st : vfs.t D).

(** What the stack held where [prefix] and the format are *)
Context (junk : list Z).

(** The prefix: two spaces per level, in 64 bytes *)
Fixpoint indent (s : str.t) (level : nat) : outcome str.t :=
  match level with
  | O => Ret s
  | S level' => s ← str.append_str s [32; 32]; indent s level'
  end.

(** [vfs_print_aux]; [fuel] bounds the calls and the turns of the loop together. *)
Fixpoint vfs_print_aux (fuel : nat) (parent : Z) (level : nat) (sc : screen.t) : outcome screen.t :=
  match fuel with
  | O => NoFuel
  | S fuel' =>
      prefix ← str.new (take 64 junk);
      prefix ← indent prefix level;
      node ← pool.get U16_MAX (vfs.nodes st) parent;
      sc ← print_text sc [32; 32];
      m ← fmt.format (take 64 junk) (text "(type: %x)") [fmt.ANum (vfs.n_type node)];
      sc ← print_str sc m;
      sc ← newline sc;
      if vfs.n_type node =? vfs.VFS_DIRECTORY then
        (fix loop (n : nat) (dirent_idx : Z) (sc : screen.t) : outcome screen.t :=
           match n with
           | O => NoFuel
           | S n' =>
               if dirent_idx =? U16_MAX then Ret sc
               else
                 dirent ← pool.get U16_MAX (vfs.directories st) dirent_idx;
                 sc ← print_str sc prefix;
                 sc ← print_str sc (vfs.d_name dirent);
                 sc ← vfs_print_aux fuel' (vfs.d_node dirent) (S level) sc;
                 loop n' (vfs.d_next dirent) sc
           end) (S (Z.to_nat (pool.watermark (vfs.directories st)))) (vfs.n_info node) sc
      else Ret sc
  end.

Definition vfs_print (fuel : nat) (sc : screen.t) : outcome screen.t :=
  sc ← print_text sc (text "root"); vfs_print_aux fuel (vfs.root_dir st) 1 sc.

Lemma indent_ok level : forall s l, str.rep s l -> zlen l + 2 * Z.of_nat level < str.capacity s ->
  exists s', indent s level = Ret s' /\ str.rep s' (l ++ replicate (2 * level) 32) /\ str.capacity s' = str.capacity s.
Proof.
  induction level as [|level IH]; intros s l Hr Hl; cbn [indent].
  - exists s. rewrite app_nil_r. auto.
  - pose proof (str.str_append_str [32; 32] s l Hr) as Ha. change (zlen [32; 32]) with 2 in Ha. rewrite (proj2 (Z.ltb_lt _ _)) in Ha by lia.
    destruct Ha as (s1 & -> & Hr1 & Hc1). rewrite mbind_Ret.
    destruct (IH s1 (l ++ [32; 32]) Hr1) as (s' & E & Hr' & Hc'); [rewrite zlen_app, Hc1; change (zlen [32; 32]) with 2; lia|].
    exists s'. split; [exact E|]. split; [|congruence]. replace (2 * S level)%nat with (S (S (2 * level))) by lia. cbn [replicate]. rewrite <-app_assoc in Hr'. exact Hr'.
Qed.

Lemma indent_panics level : forall s l, str.rep s l -> str.capacity s <= zlen l + 2 * Z.of_nat level -> indent s level = Panic.
Proof.
  induction level as [|level IH]; intros s l Hr Hl.
  - pose proof (str.str_rep_room s l Hr). lia.
  - cbn [indent]. pose proof (str.str_append_str [32; 32] s l Hr) as Ha. change (zlen [32; 32]) with 2 in Ha.
    destruct (Z.ltb_spec (zlen l + 2) (str.capacity s)); [|rewrite Ha; reflexivity].
    destruct Ha as (s1 & -> & Hr1 & Hc1). rewrite mbind_Ret. apply (IH s1 _ Hr1). rewrite zlen_app, Hc1. change (zlen [32; 32]) with 2. lia.
Qed.

(** A directory below 32 others makes the listing panic: the prefix has 64
    bytes; the levels above it fit. *)
Theorem vfs_print_depth (fuel : nat) (parent : Z) (level : nat) (sc : screen.t) : (64 <= length junk)%nat ->
  ((32 <= level)%nat -> vfs_print_aux (S fuel) parent level sc = Panic) /\
  ((level < 32)%nat -> exists prefix, (p ← str.new (take 64 junk); indent p level) = Ret prefix /\ str.rep prefix (replicate (2 * level) 32)).
Proof.
  intros Hj. assert (zlen (take 64 junk) = 64) as Hz by (unfold zlen; rewrite length_take; lia).
  destruct (str.str_new (take 64 junk)) as (s & E & Hr & Hc); [lia|]. split; intros Hl.
  - cbn [vfs_print_aux]. rewrite E, mbind_Ret, (indent_panics level s [] Hr); [reflexivity|]. rewrite Hc. change (zlen (@nil Z)) with 0. lia.
  - rewrite E, mbind_Ret. destruct (indent_ok level s [] Hr) as (s' & E' & Hr' & _); [rewrite Hc; change (zlen (@nil Z)) with 0; lia|]. exists s'. auto.
Qed.

End vfs_print.

(** [mem_print_space]: one line per area; the buffer of [dbg_puts] is kept
    from line to line. *)
Fixpoint print_areas (areas : fixed_pool memory.area_info) (n : nat) (i : Z) (pid : option Z) (buffer : list Z) (sc : screen.t) : outcome (list Z * screen.t) :=
  match n with
  | O => Ret (buffer, sc)
  | S n' =>
      if negb (pool.valid U16_MAX areas i) then print_areas areas n' (i + 1) pid buffer sc
      else
        area ← pool.get U16_MAX areas i;
        '(buffer, sc) ← boot.dbg_puts sc buffer pid (text "mem") (text "%d: area %p-%p (type %d flags %x)")
          [fmt.ANum i; fmt.ANum (memory.a_start area); fmt.ANum (memory.a_end area); fmt.ANum (memory.a_type area); fmt.ANum (memory.a_flags area)];
        print_areas areas n' (i + 1) pid buffer sc
  end.

Definition mem_print_space {V} (m : memory.t V) (space_handle : Z) (pid : option Z) (buffer : list Z) (sc : screen.t) : outcome (list Z * screen.t) :=
  space ← memory.get_space m space_handle;
  print_areas (memory.sp_areas space) (Z.to_nat (pool.watermark (memory.sp_areas space))) 0 pid buffer sc.

(** [int_breakpoint]: the registers in the order of [to_string] *)
Definition int_breakpoint (junk : list Z) (regs : kernel.isr_registers) (sc : screen.t) : outcome screen.t :=
  sc ← print_text sc (text "== BREAKPOINT =============================");
  sc ← newline sc;
  s ← x86.to_string (take 256 junk)
    [kernel.r_edi regs; kernel.r_esi regs; kernel.r_ebp regs; kernel.r_esp regs; kernel.r_ebx regs; kernel.r_edx regs; kernel.r_ecx regs; kernel.r_eax regs;
     kernel.r_eip regs; kernel.r_cs regs; kernel.r_eflags regs; kernel.r_user_esp regs; kernel.r_ss regs];
  sc ← print_str sc s;
  newline sc.

(** [syscall_shutdown] up to its endless loop *)
Definition syscall_shutdown (tr : ports.trace) (pid : option Z) (buffer : list Z) (sc : screen.t) : outcome (ports.trace * screen.t) :=
  '(_, sc) ← boot.dbg_puts sc buffer pid (text "proc") (text "shutting down...") [];
  Ret (ports.outw (ports.outw (ports.outw tr 0xB004 0x2000) 0x604 0x2000) 0x4004 0x3400, sc).

(** One turn of [idle_main]: the character it shows in the corner, and its
    counter; then it waits for an interrupt. *)
Definition idle_turn (count : Z) : Z * Z := (65 + count, Z.rem (count + 1) 26).

(** The idle process shows capital letters, in their order, for ever. *)
Lemma idle_shows_letters n : forall count, 0 <= count < 26 ->
  let run := Nat.iter n (fun c => (idle_turn c).2) count in 0 <= run < 26 /\ run = (count + Z.of_nat n) mod 26 /\ 65 <= (idle_turn run).1 <= 90.
Proof.
  intros count Hc. cbv zeta. induction n as [|n IH].
  - cbn. rewrite Z.add_0_r, Z.mod_small by lia. lia.
  - rewrite Nat.iter_succ. set (r := Nat.iter n _ count) in *. clearbody r. destruct IH as (IH & E & _).
    assert ((idle_turn r).2 = (r + 1) mod 26) as -> by (cbn; rewrite Z.rem_mod_nonneg by lia; reflexivity).
    split; [dlia|]. split; [rewrite E, Zplus_mod_idemp_l; f_equal; lia|]. cbn [idle_turn fst]. dlia.
Qed.
End console.
