(* ===== verification/UnitTest.v ===== *)
(** * The test harness (support/unittest.h, unittest.cc)

    Test suites are programs that announce test cases, run code and check
    values; [main] runs them one after the other.  A failed check ends the
    process; a panic does too, unless the suite asked for it, in which case it
    jumps back.  The theorem says that the report can be trusted. *)

From S2P Require Import Prelude.
From stdpp Require Import strings pretty.
#[local] Open Scope Z_scope.
#[local] Open Scope string_scope.

Module unittest.

(** What a suite does, step by step; [k] is what follows. *)
Inductive prog : Type :=
| Finish
| Testcase (name : string) (k : prog)
| Assert (holds : bool) (message : string) (k : prog)
| Run {A : Type} (code : outcome A) (k : A -> prog)
| Assert_panic {A : Type} (code : outcome A) (k : prog).

Definition ESC : string := String (Ascii.ascii_of_nat 27) EmptyString.
Definition NL : string := String (Ascii.ascii_of_nat 10) EmptyString.
Definition CR : string := String (Ascii.ascii_of_nat 13) EmptyString.
Definition RED : string := ESC +:+ "[1;31m".
Definition GREEN : string := ESC +:+ "[1;32m".
Definition COLOR_RESET : string := ESC +:+ "[0m".

Definition green_header (header_text : string) : string := GREEN +:+ header_text +:+ " " +:+ COLOR_RESET +:+ " ".
Definition red_header (header_text : string) : string := RED +:+ header_text +:+ " " +:+ COLOR_RESET +:+ " ".

(** ** The state of the process *)
Record state := mk {
  panic_jmp_env : bool;  (* whether a place to jump to is set *)
  current_case : option string;
  cout : string
}.

(** How a piece of the harness ends: it goes on, it has jumped to the place
    that was set, the process has been aborted, or its behaviour is undefined
    (or it never ends). *)
Inductive result (A : Type) : Type :=
| Go (a : A) (s : state)
| Jumped (s : state)
| Aborted (out : string)
| Undefined.
Arguments Go {A} a s.
Arguments Jumped {A} s.
Arguments Aborted {A} out.
Arguments Undefined {A}.

Definition M (A : Type) : Type := state -> result A.

#[export] Instance M_ret : MRet M := fun A a s => Go a s.
#[export] Instance M_bind : MBind M := fun A B f m s =>
  match m s with
  | Go a s' => f a s'
  | Jumped s' => Jumped s'
  | Aborted out => Aborted out
  | Undefined => Undefined
  end.

Definition print (x : string) : M unit := fun s => Go tt (mk (panic_jmp_env s) (current_case s) (cout s +:+ x)).
Definition set_case (c : option string) : M unit := fun s => Go tt (mk (panic_jmp_env s) c (cout s)).
Definition set_panic_jmp (b : bool) : M unit := fun s => Go tt (mk b (current_case s) (cout s)).

Section harness.

(** The clock: given all that has been printed so far, the duration of the
    current case as it is printed, when it is worth printing. *)
Context (elapsed : string -> option string).

(** What a failed assertion of the code under test says *)
Context (explanation : string).

(** The line of a case that has passed, after [out] *)
Definition ok_line (out name : string) : string :=
  match elapsed out with
  | Some ms => green_header "[         OK ]" +:+ "  " +:+ name +:+ " " +:+ " (" +:+ ms +:+ " ms)" +:+ NL
  | None => green_header "[         OK ]" +:+ "  " +:+ name +:+ NL
  end.

Definition fail_lines (name exp : string) : string := red_header "[       FAIL ]" +:+ "  " +:+ name +:+ NL +:+ exp +:+ NL.

(** Printing a name that is not set is undefined. *)
Definition case_report (succeeded : bool) (exp : string) : M unit := fun s =>
  match current_case s with
  | None => Undefined
  | Some name =>
      if succeeded then (print (ok_line (cout s) name);; set_case None) s
      else Aborted (cout s +:+ fail_lines name exp)
  end.

Definition panic {A} : M A := fun s =>
  if panic_jmp_env s then Jumped s
  else match case_report false explanation s with Aborted out => Aborted out | _ => Undefined end.

Definition suite_begin (name : string) : M unit := print (green_header "[------------]" +:+ name +:+ NL);; set_case None.

Definition report_current : M unit := fun s =>
  match current_case s with Some _ => case_report true "" s | None => Go tt s end.

Definition suite_end : M unit := report_current;; print (green_header "[------------]" +:+ "all tests passed" +:+ NL +:+ NL).

Definition testcase (name : string) : M unit :=
  report_current;; print (green_header "[ RUN        ]" +:+ "  " +:+ name +:+ CR);; set_case (Some name).

Definition run_code {A} (code : outcome A) : M A :=
  match code with Ret a => mret a | Panic => panic | Undef | NoFuel => fun _ => Undefined end.

(** [ASSERT_PANIC] *)
Definition assert_panic {A} (code : outcome A) : M unit :=
  set_panic_jmp true;;
  (fun s => match (run_code code;; case_report false "no panic received") s with
            | Jumped s' => Go tt s'
            | r => r
            end);;
  set_panic_jmp false.

Fixpoint exec (p : prog) : M unit :=
  match p with
  | Finish => mret tt
  | Testcase name k => testcase name;; exec k
  | Assert holds message k => (if holds then mret tt else case_report false message);; exec k
  | Run code k => a ← run_code code; exec (k a)
  | Assert_panic code k => assert_panic code;; exec k
  end.

(** [main]: the suites the linker has collected *)
Fixpoint main (suites : list (string * prog)) : M unit :=
  match suites with
  | [] => mret tt
  | (name, fun_) :: suites' => suite_begin name;; exec fun_;; suite_end;; main suites'
  end.

(** The process starts with nothing set and nothing printed. *)
Definition start : state := mk false None "".

(** ** What a suite means, without the harness *)

(** Whether every check holds, no code misbehaves and all panics that are
    asked for happen *)
Fixpoint passes (p : prog) : bool :=
  match p with
  | Finish => true
  | Testcase _ k => passes k
  | Assert holds _ k => holds && passes k
  | Run code k => match code with Ret a => passes (k a) | _ => false end
  | Assert_panic code k => match code with Panic => passes k | _ => false end
  end.

(** The cases that are announced on the way *)
Fixpoint cases (p : prog) : list string :=
  match p with
  | Finish => []
  | Testcase name k => name :: cases k
  | Assert _ _ k => cases k
  | Run code k => match code with Ret a => cases (k a) | _ => [] end
  | Assert_panic _ k => cases k
  end.

(** The report: every case on a line of its own *)
Fixpoint report_cases (out : string) (names : list string) : string :=
  match names with
  | [] => out
  | name :: names' =>
      let out := out +:+ green_header "[ RUN        ]" +:+ "  " +:+ name +:+ CR in
      report_cases (out +:+ ok_line out name) names'
  end.

Fixpoint report (out : string) (suites : list (string * prog)) : string :=
  match suites with
  | [] => out
  | (name, p) :: suites' =>
      let out := report_cases (out +:+ green_header "[------------]" +:+ name +:+ NL) (cases p) in
      report (out +:+ green_header "[------------]" +:+ "all tests passed" +:+ NL +:+ NL) suites'
  end.

(** The text a suite adds, when a case may already be open *)
Definition report_open (s : state) (names : list string) : string :=
  match current_case s with
  | Some name => report_cases (cout s +:+ ok_line (cout s) name) names
  | None => report_cases (cout s) names
  end.

(** A suite that passes goes through, and leaves its last case open. *)
Lemma exec_passes p : forall s, panic_jmp_env s = false -> passes p = true ->
  exists s', exec p s = Go tt s' /\ panic_jmp_env s' = false /\ report_open s' [] = report_open s (cases p).
Proof.
  induction p as [|name k IH|holds message k IH|A code k IH|A code k IH]; intros s Hp H; cbn [passes cases exec] in *.
  - exists s. auto.
  - destruct s as [env cur out]. cbn in Hp. subst env.
    destruct cur as [c|]; cbn.
    + destruct (IH (mk false (Some name) ((out +:+ ok_line out c) +:+ green_header "[ RUN        ]" +:+ "  " +:+ name +:+ CR)) eq_refl H) as (s' & E & Hp' & Hr).
      exists s'. split; [exact E|]. split; [exact Hp'|exact Hr].
    + destruct (IH (mk false (Some name) (out +:+ green_header "[ RUN        ]" +:+ "  " +:+ name +:+ CR)) eq_refl H) as (s' & E & Hp' & Hr).
      exists s'. split; [exact E|]. split; [exact Hp'|exact Hr].
  - destruct holds; [|discriminate H]. apply IH; assumption.
  - destruct code as [a| | |]; try discriminate H. cbn. apply IH; assumption.
  - destruct code as [a| | |]; try discriminate H. destruct s as [env cur out]. cbn in Hp. subst env. apply (IH (mk false cur out)); [reflexivity|exact H].
Qed.

(** One that does not pass never comes to its end, nor does it jump out. *)
Lemma exec_fails p : forall s, panic_jmp_env s = false -> passes p = false -> (exists out, exec p s = Aborted out) \/ exec p s = Undefined.
Proof.
  assert (forall (B : Type) (k : unit -> M B) exp s, (exists out, (case_report false exp ≫= k) s = Aborted out) \/ (case_report false exp ≫= k) s = Undefined) as Hrep.
  { intros B k exp s. unfold mbind, M_bind, case_report. destruct (current_case s); [left; eexists; reflexivity|right; reflexivity]. }
  induction p as [|name k IH|holds message k IH|A code k IH|A code k IH]; intros s Hp H; cbn [passes exec] in *.
  - discriminate H.
  - destruct s as [env cur out]. cbn in Hp. subst env. destruct cur as [c|]; apply IH; first [reflexivity|exact H].
  - destruct holds; [apply IH; assumption|apply Hrep].
  - destruct code as [a| | |]; [apply IH; assumption| |right; reflexivity|right; reflexivity].
    cbn. unfold mbind, M_bind, panic, case_report. rewrite Hp. destruct (current_case s); [left; eexists; reflexivity|right; reflexivity].
  - destruct s as [env cur out]. cbn in Hp. subst env. destruct code as [a| | |]; [|apply (IH (mk false cur out)); [reflexivity|exact H]|right; reflexivity|right; reflexivity].
    destruct cur as [c|]; [left; eexists; reflexivity|right; reflexivity].
Qed.

Lemma main_passes suites : forall s, panic_jmp_env s = false -> current_case s = None ->
  if forallb (fun '(_, p) => passes p) suites
  then main suites s = Go tt (mk false None (report (cout s) suites))
  else (exists out, main suites s = Aborted out) \/ main suites s = Undefined.
Proof.
  induction suites as [|[name p] suites IH]; intros s Hp Hc; cbn [forallb main report].
  { destruct s. cbn in *. subst. reflexivity. }
  destruct s as [env cur out]. cbn in Hp, Hc. subst env cur.
  set (s1 := mk false None (out +:+ green_header "[------------]" +:+ name +:+ NL)).
  assert (forall B (k : unit -> M B), (suite_begin name ≫= k) (mk false None out) = k tt s1) as Hb by reflexivity.
  rewrite Hb. destruct (passes p) eqn:E; cbn [andb].
  - destruct (exec_passes p s1 eq_refl E) as (s2 & E2 & Hp2 & Hr).
    assert (forall B (k : unit -> M B), (exec p ≫= k) s1 = k tt s2) as He by (intros B k; unfold mbind, M_bind; rewrite E2; reflexivity). rewrite He.
    set (s3 := mk false None (report_open s2 [] +:+ green_header "[------------]" +:+ "all tests passed" +:+ NL +:+ NL)).
    assert (forall B (k : unit -> M B), (suite_end ≫= k) s2 = k tt s3) as Hs.
    { intros B k. unfold s3, report_open. destruct s2 as [env2 cur2 out2]. cbn in Hp2. subst env2. destruct cur2; reflexivity. }
    rewrite Hs. specialize (IH s3 eq_refl eq_refl). unfold s3 in IH at 2. cbn [cout] in IH. rewrite Hr in IH. exact IH.
  - destruct (exec_fails p s1 eq_refl E) as [[out' E2]|E2]; [left; exists out'|right]; cbn beta; unfold mbind, M_bind; rewrite E2; reflexivity.
Qed.

End harness.

(** ** Writing suites *)

Definition test (A : Type) : Type := (A -> prog) -> prog.

#[export] Instance test_ret : MRet test := fun A a k => k a.
#[export] Instance test_bind : MBind test := fun A B f m k => m (fun a => f a k).

Definition TESTCASE (name : string) : test unit := fun k => Testcase name (k tt).
Definition run {A} (code : outcome A) : test A := fun k => Run code k.
Definition ASSERT_PANIC {A} (code : outcome A) : test unit := fun k => Assert_panic code (k tt).
Definition suite (t : test unit) : prog := t (fun _ => Finish).

(** [operator <<] *)
Class Shown (A : Type) := shown : A -> string.
#[export] Instance shown_Z : Shown Z := pretty.
#[export] Instance shown_bool : Shown bool := fun b => if b then "1" else "0".
#[export] Instance shown_ptr {A} : Shown (option A) := fun p => match p with Some _ => "pointer" | None => "0" end.

Definition assert_eq {A} `{EqDecision A, Shown A} (value expected : A) (file : string) (line : Z) : test unit := fun k =>
  Assert (bool_decide (value = expected)) (file +:+ ":" +:+ pretty line +:+ ": expected " +:+ shown value +:+ " to equal " +:+ shown expected) (k tt).

Definition assert_neq {A} `{EqDecision A, Shown A} (value expected : A) (file : string) (line : Z) : test unit := fun k =>
  Assert (bool_decide (value <> expected)) ("[" +:+ file +:+ ":" +:+ pretty line +:+ "] expected " +:+ shown value +:+ " to not equal " +:+ shown expected) (k tt).

(** [for (i : l)] with the variables the body changes as a value *)
Fixpoint loop {S} (l : list Z) (body : Z -> S -> test S) (s : S) : test S :=
  match l with
  | [] => mret s
  | i :: l' => s ← body i s; loop l' body s
  end.
End unittest.

(** The report can be trusted: [main] comes to its end exactly when every
    suite passes, and then it has printed one line for every case of every
    suite, and that all tests passed; otherwise the process ends before that
    (or its behaviour is undefined), whatever the clock and the texts of the
    assertions are. *)
Theorem harness_reports (elapsed : string -> option string) (explanation : string) (suites : list (string * unittest.prog)) :
  (forallb (fun '(_, p) => unittest.passes p) suites = true <->
   unittest.main elapsed explanation suites unittest.start = unittest.Go tt (unittest.mk false None (unittest.report elapsed "" suites))) /\
  ((exists s, unittest.main elapsed explanation suites unittest.start = unittest.Go tt s) -> forallb (fun '(_, p) => unittest.passes p) suites = true) /\
  (forall s, unittest.main elapsed explanation suites unittest.start <> unittest.Jumped s).
Proof.
  pose proof (unittest.main_passes elapsed explanation suites unittest.start eq_refl eq_refl) as H.
  destruct (forallb _ suites).
  - rewrite H. split; [tauto|]. split; [tauto|discriminate].
  - destruct H as [[out H]|H]; rewrite H; (split; [split; discriminate|]; split; [intros [s Hs]; discriminate Hs|discriminate]).
Qed.
