(* ===== verification/UnitTests.v ===== *)
(** * The unit tests of the repository (support/unittests, net/unittests)

    The suites of the repository, on the model: every case with the calls and
    the checks of its source, in their order, so that the definitions of the
    other files are seen to behave as the authors of the code expect.  Storage
    that the source leaves uninitialised holds zeros here, and pointers are
    not compared.  To keep the evaluation short, the loops of 10000 and of 1000
    rounds have [MANY] rounds, those of 500 and 1023 rounds have 100, and of the
    TCP queues only the cases with few bytes are kept.  Left out are the cases
    about constructors being called and non-copyable types, which have no
    counterpart, and the suite of the IPv4 layer, whose mocks stand for the
    layers above; [NetTests] has its recorded packets. *)

From S2P Require Import Prelude Queue RingBuffer Pool UnorderedMap PageAlloc FlipBuffer FragBuffer NetUtils SendQueue ReceiveQueue Tcp Net Text Words KeyValue Userspace Support UnitTest.
From stdpp Require Import strings.
#[local] Open Scope Z_scope.

Import unittest.

Module suites.

Definition MANY : Z := 8.
Definition range (n : Z) : list Z := seqZ 0 n.
Definition txt (s : string) : list Z := userspace.text s.
Definition cstr (s : string) : list Z := txt s ++ [0].
Definition zeros (n : Z) : list Z := replicate (Z.to_nat n) 0.

Definition EQ (file : string) {A} `{EqDecision A, Shown A} (line : Z) (value expected : A) : test unit := assert_eq value expected file line.
Definition NEQ (file : string) {A} `{EqDecision A, Shown A} (line : Z) (value expected : A) : test unit := assert_neq value expected file line.

(** ** test_queue.cc *)
Section queue_suite.
#[local] Abbreviation ASSERT_EQ := (EQ "test_queue.cc").
#[local] Abbreviation new n := (queue.init (zeros n)).

Definition queue_suite : prog := suite (
  TESTCASE "push_back fails on queue with zero capacity";;
  '(q, b) ← run (queue.push_back 0 (new 0) 23);
  ASSERT_EQ 7 b false;;

  TESTCASE "push_back returns false when reached capacity";;
  let q := new 4 in
  ASSERT_EQ 13 (queue.size q) 0;;
  '(q, b) ← run (queue.push_back 4 q 1); ASSERT_EQ 14 b true;; ASSERT_EQ 15 (queue.size q) 1;;
  '(q, b) ← run (queue.push_back 4 q 1); ASSERT_EQ 16 b true;; ASSERT_EQ 17 (queue.size q) 2;;
  '(q, b) ← run (queue.push_back 4 q 1); ASSERT_EQ 18 b true;; ASSERT_EQ 19 (queue.size q) 3;;
  '(q, b) ← run (queue.push_back 4 q 1); ASSERT_EQ 20 b true;; ASSERT_EQ 21 (queue.size q) 4;;
  '(q, b) ← run (queue.push_back 4 q 1); ASSERT_EQ 22 b false;; ASSERT_EQ 23 (queue.size q) 4;;

  TESTCASE "push_back can be immediately poped by pop_front";;
  loop (range MANY) (fun i q =>
    '(q, _) ← run (queue.push_back 2 q i);
    '(q, v) ← run (queue.pop_front 2 q);
    ASSERT_EQ 31 v i;; ASSERT_EQ 32 (queue.size q) 0;; mret q) (new 2);;

  TESTCASE "multiple push_back can be poped back by pop_front";;
  loop (range MANY) (fun i q =>
    loop (range 4) (fun a q =>
      q ← loop (range a) (fun b q => '(q, r) ← run (queue.push_back 3 q (i * b)); ASSERT_EQ 42 r true;; mret q) q;
      ASSERT_EQ 45 (queue.size q) a;;
      loop (range a) (fun b q => '(q, v) ← run (queue.pop_front 3 q); ASSERT_EQ 48 v (i * b);; mret q) q) q) (new 3);;
  mret tt).
End queue_suite.

(** ** test_ring_buffer.cc *)
Section ring_buffer_suite.
#[local] Abbreviation ASSERT_EQ := (EQ "test_ring_buffer.cc").
#[local] Abbreviation new n := (queue.init (zeros n)).

(** [write] without an offset appends. *)
Definition write (n : Z) (q : ring_buffer.t) (data : list Z) : test ring_buffer.t := '(q, _) ← run (ring_buffer.write n q data (-1)); mret q.

Definition three (i : Z) : list Z := let a := Z.land i 0xFF in let b := u8 (a * 3) in [a; b; Z.lxor a b].
Definition four (i : Z) : list Z := let a := Z.land i 0xFF in let b := u8 (a * 3) in [a; b; Z.lxor a b; Z.lxor a (Z.lxor a b)].

Definition ring_buffer_suite : prog := suite (
  TESTCASE "queue is initially empty";;
  ASSERT_EQ 8 (ring_buffer.size (new 256)) 0;;

  TESTCASE "write increases size";;
  q ← write 256 (new 256) (zeros 10); ASSERT_EQ 16 (ring_buffer.size q) 10;;
  q ← write 256 q (zeros 10); ASSERT_EQ 18 (ring_buffer.size q) 20;;

  TESTCASE "write can use the whole capacity in one write";;
  q ← write 256 (new 256) (zeros 256); ASSERT_EQ 26 (ring_buffer.size q) 256;;

  TESTCASE "write can use the whole capacity in multiple writes";;
  q ← write 256 (new 256) (zeros 100); q ← write 256 q (zeros 100); q ← write 256 q (zeros 10);
  q ← write 256 q (zeros 40); q ← write 256 q (zeros 6);
  ASSERT_EQ 38 (ring_buffer.size q) 256;;

  TESTCASE "read_front can read data written by write when circling around";;
  loop (range 100) (fun i q =>
    q ← write 256 q (three i);
    '(q, out_data) ← run (ring_buffer.read_front 256 q 3);
    ASSERT_EQ 54 (zlen out_data) 3;;
    d ← run (cstring.memcmp 3 out_data (three i)); ASSERT_EQ 55 d 0;; mret q) (new 256);;

  TESTCASE "read_front can read data written by write in larger blocks";;
  q ← loop (range 64) (fun i q => '(q, wrote) ← run (ring_buffer.write 256 q (four i) (-1)); ASSERT_EQ 70 wrote true;; mret q) (new 256);
  loop (range 32) (fun i q =>
    '(q, out_data) ← run (ring_buffer.read_front 256 q 8);
    ASSERT_EQ 77 (zlen out_data) 8;;
    d ← run (cstring.memcmp 8 out_data (four (2 * i) ++ four (2 * i + 1))); ASSERT_EQ 88 d 0;; mret q) q;;

  TESTCASE "write with offset replaces existing values";;
  q ← write 256 (new 256) (replicate 256%nat 33);
  '(q, _) ← run (ring_buffer.write 256 q (txt "HELLO") 1);
  '(q, buf) ← run (ring_buffer.read_front 256 q 10);
  loop (range 8) (fun i _ => c ← run (arr_get buf i); e ← run (arr_get (txt "!HELLO!!") i); ASSERT_EQ (106 + i) c e;; mret tt) tt;;

  TESTCASE "write with offset after existing values writes 0";;
  '(q, _) ← run (ring_buffer.write 256 (new 256) (txt "HELLO") 4);
  ASSERT_EQ 124 (ring_buffer.size q) 9;;
  '(q, buf) ← run (ring_buffer.read_front 256 q 15);
  ASSERT_EQ 128 (zlen buf) 9;;
  loop (range 9) (fun i _ => c ← run (arr_get buf i); e ← run (arr_get ([0; 0; 0; 0] ++ txt "HELLO") i); ASSERT_EQ (130 + i) c e;; mret tt) tt;;

  TESTCASE "write scenario";;
  '(q, b) ← run (ring_buffer.write 8 (new 8) (txt "BB") 2); ASSERT_EQ 146 b true;;
  '(q, b) ← run (ring_buffer.write 8 q (txt "DD") 6); ASSERT_EQ 147 b true;;
  '(q, b) ← run (ring_buffer.write 8 q (txt "AA") 0); ASSERT_EQ 148 b true;;
  '(q, b) ← run (ring_buffer.write 8 q (txt "CC") 4); ASSERT_EQ 149 b true;;
  '(q, data) ← run (ring_buffer.read_front 8 q 8); ASSERT_EQ 153 (zlen data) 8;;
  d ← run (cstring.strncmp 8 data (txt "AABBCCDD")); ASSERT_EQ 154 d 0).
End ring_buffer_suite.

(** ** test_pool.cc *)
Section pool_suite.
#[local] Abbreviation ASSERT_EQ := (EQ "test_pool.cc").
#[local] Abbreviation ASSERT_NEQ := (NEQ "test_pool.cc").
#[local] Abbreviation push p v := (run (pool.emplace_anywhere U16_MAX p v)).
#[local] Abbreviation erase p i := (run (pool.erase U16_MAX p i)).
#[local] Abbreviation valid p i := (pool.valid U16_MAX p i).
#[local] Abbreviation get p i := (run (pool.get U16_MAX p i)).
#[local] Abbreviation emplace p i v := (run (pool.emplace U16_MAX p i v)).

Definition items (n : Z) : fixed_pool Z := new_fixed_pool n.

Definition pool_suite : prog := suite (
  TESTCASE "created pool has zero size";;
  ASSERT_EQ 9 (pool.size (items 32)) 0;;

  TESTCASE "items can be pushed up until max_capacity_of_type - 1";;
  loop (range 255) (fun i p => '(p, _) ← run (pool.emplace_anywhere 255 p i); mret p) (pool.init 255 (replicate 255%nat (pool.fresh_node 255)));;

  TESTCASE "items can be pushed until the end";;
  '(p, _) ← push (items 4) 1; '(p, _) ← push p 2; '(p, _) ← push p 3; '(p, _) ← push p 4;

  TESTCASE "continuous indexes are allocated";;
  '(p, i) ← push (items 4) 1; ASSERT_EQ 32 i 0;; '(p, i) ← push p 2; ASSERT_EQ 33 i 1;;
  '(p, i) ← push p 3; ASSERT_EQ 34 i 2;; '(p, i) ← push p 4; ASSERT_EQ 35 i 3;;

  TESTCASE "add/remove scenario";;
  p ← loop (range MANY) (fun count p =>
    p ← loop (range 13) (fun i p =>
      '(p, idx) ← push p i; v ← get p idx; ASSERT_EQ 46 v i;; ASSERT_EQ 47 (pool.size p) (i + 1);; mret p) p;
    p ← loop (range 6) (fun i p => erase p i) p;
    loop (range 7) (fun i p => erase p (12 - i)) p) (items 13);
  ASSERT_EQ 62 (pool.size p) 0;;

  TESTCASE "pushing further than the capacity causes panic";;
  '(p, _) ← push (items 3) 1; '(p, _) ← push p 1; '(p, _) ← push p 1;
  ASSERT_PANIC (pool.emplace_anywhere U16_MAX p 1);;

  TESTCASE "valid: all items are invalid at the beginning";;
  loop (range 5) (fun i _ => ASSERT_EQ 154 (valid (items 5) i) false) tt;;

  TESTCASE "valid: only a pushed item is valid";;
  '(p, idx) ← push (items 5) 123; ASSERT_EQ 162 (valid p idx) true;; ASSERT_EQ 163 (valid p (idx + 1)) false;;

  TESTCASE "valid: erasing an item makes it invalid";;
  '(p, idx) ← push (items 5) 123; p ← erase p idx;
  ASSERT_EQ 171 (valid p idx) false;; ASSERT_EQ 172 (valid p (idx + 1)) false;;

  TESTCASE "valid: erasing earlier items make them invalid";;
  '(p, idx) ← push (items 5) 123; '(p, idx2) ← push p 532; '(p, _) ← push p 5511;
  p ← erase p idx; p ← erase p idx2;
  ASSERT_EQ 183 (valid p idx) false;; ASSERT_EQ 184 (valid p idx2) false;; ASSERT_EQ 185 (valid p (idx2 + 1)) true;;

  TESTCASE "valid: erasing all elements make them all invalid";;
  p ← loop (range 5) (fun i p => '(p, _) ← push p i; mret p) (items 5);
  p ← loop (range 5) (fun i p => erase p i) p;
  loop (range 5) (fun i _ => ASSERT_EQ 198 (valid p i) false) tt;;

  TESTCASE "valid: removing last element makes it invalid";;
  '(p, _) ← push (items 5) 0; '(p, _) ← push p 1; '(p, _) ← push p 2;
  p ← erase p 2; ASSERT_EQ 208 (valid p 2) false;;
  p ← erase p 1; ASSERT_EQ 211 (valid p 1) false;;
  p ← erase p 0; ASSERT_EQ 214 (valid p 0) false;;

  TESTCASE "emplace: writing over the end causes panic";;
  ASSERT_PANIC (pool.emplace U16_MAX (items 5) 5 12345);;

  TESTCASE "emplace: writing to the first element increases watermark and size";;
  p ← emplace (items 5) 0 4443;
  ASSERT_EQ 225 (pool.size p) 1;; ASSERT_EQ 226 (pool.watermark p) 1;; v ← get p 0; ASSERT_EQ 227 v 4443;;

  TESTCASE "emplace: pushing after emplacing retains both items";;
  p ← emplace (items 5) 0 214; '(p, _) ← push p 444;
  ASSERT_EQ 234 (pool.size p) 2;; ASSERT_EQ 235 (pool.watermark p) 2;;
  v ← get p 0; ASSERT_EQ 236 v 214;; v ← get p 1; ASSERT_EQ 237 v 444;;

  TESTCASE "emplace: emplacing, push and erase scenario";;
  p ← emplace (items 5) 0 444; '(p, _) ← push p 555; p ← erase p 0; p ← emplace p 0 333; '(p, _) ← push p 666;
  ASSERT_EQ 247 (pool.size p) 3;;
  v ← get p 0; ASSERT_EQ 248 v 333;; v ← get p 1; ASSERT_EQ 249 v 555;; v ← get p 2; ASSERT_EQ 250 v 666;;

  TESTCASE "iterator can be used to get all values";;
  '(p, _) ← push (items 5) 3; '(p, _) ← push p 7; '(p, _) ← push p 11; '(p, _) ← push p 13; p ← erase p 1;
  let it := pool.it_begin U16_MAX p in
  v ← get p it; ASSERT_EQ 262 v 3;; ASSERT_NEQ 263 it (pool.it_end p);;
  let it := pool.it_next U16_MAX p it in
  v ← get p it; ASSERT_EQ 266 v 11;; ASSERT_NEQ 267 it (pool.it_end p);;
  let it := pool.it_next U16_MAX p it in
  v ← get p it; ASSERT_EQ 270 v 13;; ASSERT_NEQ 271 it (pool.it_end p);;
  let it := pool.it_next U16_MAX p it in
  ASSERT_EQ 274 it (pool.it_end p)).
End pool_suite.

(** ** test_page_alloc.cc: the buffers lie at some aligned address *)
Section page_alloc_suite.
#[local] Abbreviation ASSERT_EQ := (EQ "test_page_alloc.cc").
#[local] Abbreviation alloc a := (run (page_allocator.alloc_page a)).
#[local] Abbreviation free a p := (run (page_allocator.free_page a p)).
#[local] Abbreviation free_pages a := (page_allocator.free_pages a).

Definition BASE : Z := 0x100000.
Definition arena (size : Z) : outcome page_allocator.t := page_allocator.page_allocator (page_allocator.mk_region BASE (BASE + size)) (zeros 1024).
Definition alloc_all (a : page_allocator.t) : test page_allocator.t := loop (range 32) (fun _ a => '(a, _) ← alloc a; mret a) a.

Definition page_alloc_suite : prog := suite (
  TESTCASE "too small arena panics";; ASSERT_PANIC (arena 1024);;
  TESTCASE "still too small panics";; ASSERT_PANIC (arena 0x1000);;
  TESTCASE "still too small panics";; ASSERT_PANIC (arena 0x1FFFF);;

  TESTCASE "size for exactly one payload + bookkeeping page is good enough";;
  a ← run (arena 0x2000); ASSERT_EQ 26 (free_pages a) 1;;

  TESTCASE "free_pages: calculated correctly for larger arena";;
  a ← run (arena (0x1000 + 0x1000 * 32)); ASSERT_EQ 33 (free_pages a) 32;;

  TESTCASE "scenario: minimum allocation";;
  a ← run (arena 0x2000);
  '(a, page) ← alloc a; ASSERT_EQ 41 page (BASE + 0x1000);; ASSERT_EQ 42 (free_pages a) 0;;
  a ← free a page; ASSERT_EQ 44 (free_pages a) 1;;
  '(a, page) ← alloc a; ASSERT_EQ 47 page (BASE + 0x1000);;
  ASSERT_PANIC (page_allocator.alloc_page a);;

  TESTCASE "scenario: free list allocation";;
  a ← run (arena (0x1000 + 0x1000 * 32));
  '(a, page1) ← alloc a; ASSERT_EQ 57 (free_pages a) 31;;
  '(a, page2) ← alloc a; ASSERT_EQ 60 (free_pages a) 30;;
  '(a, page3) ← alloc a; ASSERT_EQ 63 (free_pages a) 29;;
  '(a, page4) ← alloc a; ASSERT_EQ 66 (free_pages a) 28;;
  a ← free a page2; ASSERT_EQ 70 (free_pages a) 29;;
  '(a, page2_temp) ← alloc a; ASSERT_EQ 74 page2_temp page2;; ASSERT_EQ 75 (free_pages a) 28;;
  a ← free a page1; a ← free a page2; a ← free a page3; a ← free a page4;
  ASSERT_EQ 83 (free_pages a) 32;;
  a ← alloc_all a;
  ASSERT_EQ 89 (free_pages a) 0;; ASSERT_PANIC (page_allocator.alloc_page a);;

  TESTCASE "scenario: watermark allocation/free";;
  a ← run (arena (0x1000 + 0x1000 * 32));
  '(a, page1) ← alloc a; '(a, page2) ← alloc a; '(a, page3) ← alloc a; '(a, page4) ← alloc a;
  a ← free a page4; ASSERT_EQ 103 (free_pages a) 29;;
  a ← free a page3; ASSERT_EQ 105 (free_pages a) 30;;
  '(a, page3_temp) ← alloc a; ASSERT_EQ 109 (free_pages a) 29;; ASSERT_EQ 110 page3_temp page3;;
  a ← free a page3_temp; ASSERT_EQ 113 (free_pages a) 30;;
  a ← free a page2; ASSERT_EQ 116 (free_pages a) 31;;
  a ← free a page1; ASSERT_EQ 118 (free_pages a) 32;;
  a ← alloc_all a;
  ASSERT_EQ 124 (free_pages a) 0;; ASSERT_PANIC (page_allocator.alloc_page a)).
End page_alloc_suite.

(** ** test_string.cc *)
Section string_suite.
#[local] Abbreviation ASSERT_EQ := (EQ "test_string.cc").
#[local] Abbreviation append s c := (run (str.append s c)).

(** [str()[i]] for the characters of a text and its terminator *)
Definition shows (line : Z) (s : str.t) (expected : list Z) : test unit :=
  loop (range (zlen expected)) (fun i _ => c ← run (str.at_ s i); e ← run (arr_get expected i); ASSERT_EQ (line + i) c e) tt.

Definition equal_is (line : Z) (l r : outcome str.t) (expected : bool) : test unit :=
  l ← run l; r ← run r; ASSERT_EQ line (str.eqb l r) expected.

Definition string_suite : prog := suite (
  TESTCASE "can be created to a good state with internal memory";;
  s ← run (str.new (zeros 64)); ASSERT_EQ 10 (str.size s) 0;; shows 11 s [0];;

  TESTCASE "with internal memory can be appended until end";;
  s ← run (str.new (zeros 7));
  s ← append s 33; s ← append s 33; s ← append s 33; s ← append s 33; s ← append s 33; s ← append s 33;

  TESTCASE "appending over the end causes panic";;
  s ← run (str.new (zeros 3)); s ← append s 35; s ← append s 35; ASSERT_PANIC (str.append s 35);;

  TESTCASE "can be created over an external buffer";;
  s ← run (str.new (zeros 8)); ASSERT_EQ 36 (str.size s) 0;; shows 37 s [0];;

  TESTCASE "external buffer is written to";;
  s ← run (str.new (zeros 16)); s ← run (str.append_str s (txt "Hello"));
  shows 47 s (cstr "Hello");; ASSERT_EQ 53 (str.size s) 5;;

  TESTCASE "copy from char*";;
  s ← run (str.from_cstr_all (zeros 16) (txt "boof")); ASSERT_EQ 61 (str.size s) 4;; shows 62 s (cstr "boof");;

  TESTCASE "copy from char* to short string";;
  s ← run (str.from_cstr_all (zeros 3) (txt "boof")); ASSERT_EQ 72 (str.size s) 2;; shows 73 s (cstr "bo");;

  TESTCASE "larger partial copy from char*";;
  s ← run (str.from_cstr (zeros 3) (txt "moof") 100); ASSERT_EQ 81 (str.size s) 2;; shows 81 s (cstr "mo");;

  TESTCASE "smaller partial copy from char*";;
  s ← run (str.from_cstr (zeros 10) (txt "moof") 3); ASSERT_EQ 89 (str.size s) 3;; shows 90 s (cstr "moo");;

  TESTCASE "equality";;
  let hej := str.from_cstr_all (zeros 18) (txt "hello") in
  equal_is 98 hej (str.from_cstr_all (zeros 18) (txt "hello")) true;;
  equal_is 99 hej (str.from_cstr_all (zeros 18) (txt "hell")) false;;
  equal_is 100 hej (str.from_cstr_all (zeros 18) (txt "hellx")) false;;
  equal_is 101 (str.new (zeros 18)) (str.new (zeros 18)) true;;
  equal_is 102 (str.from_cstr_all (zeros 2) []) (str.from_cstr_all (zeros 2) []) true).
End string_suite.

(** ** test_frag_buffer.cc *)
Section frag_buffer_suite.
#[local] Abbreviation ASSERT_EQ := (EQ "test_frag_buffer.cc").
#[local] Abbreviation new := (run (frag_buffer.frag_buffer 1024 (zeros 1024))).
#[local] Abbreviation size f := (run (frag_buffer.continuous_size f)).

(** [insert(start, data, n)] with a number of bytes nobody looks at *)
Definition fill (f : frag_buffer.t) (start n : Z) : test frag_buffer.t := run (frag_buffer.insert 1024 f start (zeros n) n).
Definition put (f : frag_buffer.t) (start : Z) (s : string) : test frag_buffer.t := run (frag_buffer.insert 1024 f start (txt s) (zlen (txt s))).

Definition frag_buffer_suite : prog := suite (
  TESTCASE "empty buffer has a 0 size";;
  f ← new; n ← size f; ASSERT_EQ 7 n 0;;

  TESTCASE "can fill using sequential non-overlapping writes";;
  f ← new; f ← fill f 0 256; f ← fill f 256 256; f ← fill f 512 256; n ← size f; ASSERT_EQ 21 n 768;;

  TESTCASE "can fill using reverse sequential non-overlapping writes";;
  f ← new; f ← fill f 512 256; f ← fill f 256 256; f ← fill f 0 256; n ← size f; ASSERT_EQ 35 n 768;;

  TESTCASE "can fill with various non-overlapping writes";;
  f ← new; f ← fill f 10 1; f ← fill f 7 3; f ← fill f 0 1; f ← fill f 1 6; f ← fill f 11 120; f ← fill f 131 4;
  n ← size f; ASSERT_EQ 52 n 135;;

  TESTCASE "can fill with one byte writes";;
  f ← new; f ← loop (range 100) (fun i f => fill f i 1) f; n ← size f; ASSERT_EQ 65 n 100;;

  TESTCASE "can fill with overlapping writes";;
  f ← new; f ← fill f 5 100; f ← fill f 1 40; f ← fill f 0 2; f ← fill f 80 150; f ← fill f 80 150;
  n ← size f; ASSERT_EQ 79 n 230;;
  f ← fill f 0 500; n ← size f; ASSERT_EQ 82 n 500;;

  TESTCASE "data is copied correctly";;
  f ← new; f ← put f 5 "HEY"; f ← put f 1 "MOOF"; f ← put f 0 "!"; f ← put f 7 "LLO"; f ← put f 10 "!#!";
  d ← run (cstring.memcmp 13 (frag_buffer.data f) (txt "!MOOFHELLO!#!")); ASSERT_EQ 97 d 0).
End frag_buffer_suite.

(** ** test_unordered_map.cc *)
Section unordered_map_suite.
#[local] Abbreviation ASSERT_EQ := (EQ "test_unordered_map.cc").
#[local] Abbreviation ASSERT_NEQ := (NEQ "test_unordered_map.cc").

Definition map_t : Type := unordered_map.t (P := fixed_pool) (K := Z) (V := Z).
Definition new_map : map_t := new_fixed_pool 16.

(** [map[k] = v]; a new entry holds an indeterminate value first. *)
Definition set (m : map_t) (k v : Z) : test map_t := run (unordered_map.assign m (-1) k v).

Definition unordered_map_suite : prog := suite (
  TESTCASE "find: returns end() when map is empty";;
  ASSERT_EQ 7 (unordered_map.find new_map 1234) None;;

  TESTCASE "can find inserted value";;
  '(m, _) ← run (unordered_map.insert new_map 444 987);
  ASSERT_NEQ 14 (unordered_map.find m 444) None;; ASSERT_EQ 15 (unordered_map.lookup m 444) (Some 987);;

  TESTCASE "size: overwritten items don't increase size";;
  m ← set new_map 3 4; m ← set m 5 4; m ← set m 3 4; ASSERT_EQ 25 (unordered_map.size m) 2;;

  TESTCASE "operator[]: values can be overwritten";;
  m ← set new_map 3 1; m ← set m 5 2; m ← set m 3 3; ASSERT_EQ 35 (unordered_map.lookup m 3) (Some 3);;

  TESTCASE "can be iterated over and entries are overwritten";;
  m ← set new_map 100 1; m ← set m 104 2; m ← set m 100 3; m ← set m 108 4;
  key_values ← loop (range (zlen (sp_entries m))) (fun i kv =>
    e ← run (arr_get (sp_entries m) i); run (arr_set kv ((unordered_map.key e.2 - 100) / 4) (unordered_map.value e.2))) (zeros 3);
  v ← run (arr_get key_values 0); ASSERT_EQ 51 v 3;; v ← run (arr_get key_values 1); ASSERT_EQ 52 v 2;;
  v ← run (arr_get key_values 2); ASSERT_EQ 53 v 4).
End unordered_map_suite.

(** ** test_format.cc *)
Section format_suite.
#[local] Abbreviation ASSERT_EQ := (EQ "test_format.cc").
#[local] Abbreviation char s i := (run (str.at_ s i)).
#[local] Abbreviation format n f args := (fmt.format (zeros n) (txt f) args).

Definition same (line n : Z) (s : str.t) (expected : string) : test unit :=
  e ← run (str.from_cstr_all (zeros n) (txt expected)); ASSERT_EQ line (str.eqb s e) true.

Definition format_suite : prog := suite (
  TESTCASE "empty format string gives empty out string";;
  s ← run (format 64 "" []); c ← char s 0; ASSERT_EQ 7 c 0;;

  TESTCASE "can write to external buffer";;
  s ← run (format 64 "Hello%d!" [fmt.ANum 123]);
  c ← char s 0; ASSERT_EQ 13 c 72;; c ← char s 4; ASSERT_EQ 14 c 111;; c ← char s 5; ASSERT_EQ 15 c 49;;
  c ← char s 8; ASSERT_EQ 16 c 33;; c ← char s 9; ASSERT_EQ 17 c 0;;

  TESTCASE "format without flags results in same string";;
  s ← run (format 32 "hello" []); c ← char s 0; ASSERT_EQ 22 c 104;; c ← char s 4; ASSERT_EQ 23 c 111;; c ← char s 5; ASSERT_EQ 24 c 0;;

  TESTCASE "combined flags scenario";;
  s ← run (format 32 "abc %d def %dgh%dij" [fmt.ANum 10; fmt.ANum 488; fmt.ANum 9111]); same 29 32 s "abc 10 def 488gh9111ij";;

  TESTCASE "can format numbers up until the end";;
  s ← run (format 3 "%d" [fmt.ANum 12]); same 34 3 s "12";;

  TESTCASE "panics when formatting over the end";;
  ASSERT_PANIC (format 3 "%d" [fmt.ANum 123]);;

  TESTCASE "can take length of hexadecimal output";;
  s ← run (format 5 "%04x" [fmt.ANum 0xBEEF]); same 44 5 s "BEEF").
End format_suite.

(** ** test_flip_buffer.cc *)
Section flip_buffer_suite.
#[local] Abbreviation ASSERT_EQ := (EQ "test_flip_buffer.cc").
#[local] Abbreviation ASSERT_NEQ := (NEQ "test_flip_buffer.cc").
#[local] Abbreviation alloc f n := (mret (flip_buffer.alloc 1024 f n)).
#[local] Abbreviation data f h := (flip_buffer.data f h).

Definition flip_buffer_suite : prog := suite (
  TESTCASE "allocating more than _MaxLen returns an invalid handle";;
  '(b, handle) ← alloc flip_buffer.init 1025; ASSERT_EQ 8 (data b handle) None;;

  TESTCASE "can allocate the full _MaxLen";;
  '(b, handle) ← alloc flip_buffer.init 1024; ASSERT_NEQ 14 (data b handle) None;;

  TESTCASE "flipping between buffers invalidates pointers";;
  '(b, handle1) ← alloc flip_buffer.init 512; '(b, handle2) ← alloc b 1024;
  ASSERT_NEQ 23 (data b handle1) None;; ASSERT_NEQ 24 (data b handle2) None;;
  '(b, handle3) ← alloc b 1;
  ASSERT_EQ 27 (data b handle1) None;; ASSERT_NEQ 28 (data b handle2) None;; ASSERT_NEQ 29 (data b handle3) None;;
  '(b, handle4) ← alloc b 1023;
  ASSERT_EQ 32 (data b handle1) None;; ASSERT_NEQ 33 (data b handle2) None;; ASSERT_NEQ 34 (data b handle3) None;; ASSERT_NEQ 35 (data b handle4) None;;
  '(b, handle5) ← alloc b 256;
  ASSERT_EQ 38 (data b handle1) None;; ASSERT_EQ 39 (data b handle2) None;; ASSERT_NEQ 40 (data b handle3) None;;
  ASSERT_NEQ 41 (data b handle4) None;; ASSERT_NEQ 42 (data b handle5) None).
End flip_buffer_suite.

(** ** test_filesystem.cc *)
Section filesystem_suite.

Definition splits (line : Z) (path dir base : string) : test unit :=
  p ← run (str.from_cstr_all (zeros 32) (txt path)); d ← run (str.new (zeros 32)); b ← run (str.new (zeros 32));
  '(d, b) ← run (fmt.dirname (zeros 32) p d b);
  d' ← run (str.from_cstr_all (zeros 32) (txt dir)); b' ← run (str.from_cstr_all (zeros 32) (txt base));
  EQ "test_filesystem.cc" line (str.eqb d d') true;; EQ "test_filesystem.cc" (line + 1) (str.eqb b b') true.

Definition filesystem_suite : prog := suite (
  TESTCASE "dirname: returns full string for path missing file component";; splits 11 "/hello/path/" "/hello/path" "";;
  TESTCASE "dirname: returns last component when last char is not a slash";; splits 20 "/hello/path" "/hello" "path";;
  TESTCASE "dirname: returns an empty path on root file";; splits 29 "/hello" "" "hello").
End filesystem_suite.

(** ** test_function.cc: the closures are smaller than the 16 bytes *)
Section function_suite.
#[local] Abbreviation ASSERT_EQ := (EQ "test_function.cc").

Definition add : inplace_fun.callable_impl (Z * Z) Z unit := inplace_fun.mk_impl 16 (fun '(a, b) s => r ← i32 (a + b); Ret (r, s)).
Definition mul : inplace_fun.callable_impl (Z * Z) Z unit := inplace_fun.mk_impl 16 (fun '(a, b) s => r ← i32 (a * b); Ret (r, s)).
Definition increment : inplace_fun.callable_impl unit unit Z := inplace_fun.mk_impl 16 (fun _ data => data ← i32 (data + 1); Ret (tt, data)).

Definition function_suite : prog := suite (
  TESTCASE "can be instantiated in a number of ways";;
  f1 ← run (inplace_fun.make 16 add); '(r, _) ← run (inplace_fun.call f1 (2, 4) tt); ASSERT_EQ 8 r 6;;

  TESTCASE "can mutate referenced variables";;
  let data := 0 in
  f1 ← run (inplace_fun.make 16 increment); ASSERT_EQ 14 data 0;;
  '(_, data) ← run (inplace_fun.call f1 tt data); ASSERT_EQ 16 data 1;;

  TESTCASE "can be stored in other containers";;
  f ← run (inplace_fun.make 16 add); '(funs, _) ← run (pool.emplace_anywhere U16_MAX (new_fixed_pool 10) f);
  f ← run (inplace_fun.make 16 mul); '(funs, _) ← run (pool.emplace_anywhere U16_MAX funs f);
  f ← run (pool.get U16_MAX funs 0); '(r, _) ← run (inplace_fun.call f (3, 6) tt); ASSERT_EQ 24 r 9;;
  f ← run (pool.get U16_MAX funs 1); '(r, _) ← run (inplace_fun.call f (3, 6) tt); ASSERT_EQ 25 r 18).
End function_suite.

(** ** test_keyvalue.cc, test_utils.cc *)
Section words_suites.
#[local] Abbreviation ASSERT_EQ := (EQ "test_utils.cc").
#[local] Abbreviation ASSERT_NEQ := (NEQ "test_utils.cc").

(** [str(kv[key]) == str(value)] *)
Definition has_value (line : Z) (kv : keyvalue.t) (key value : string) : test unit :=
  v ← run (keyvalue.lookup kv (txt key));
  NEQ "test_keyvalue.cc" line v None;;
  l ← run (str.from_cstr_all (zeros 128) (default [] v)); r ← run (str.from_cstr_all (zeros 128) (txt value));
  EQ "test_keyvalue.cc" line (str.eqb l r) true.

Definition keyvalue_suite : prog := suite (
  TESTCASE "can be constructed";; kv ← run (keyvalue.keyvalue (zeros 10) (txt "hello"));
  TESTCASE "finds attributes and returns correct values";;
  kv ← run (keyvalue.keyvalue (zeros 128) (txt "name=Peter moo=fie")); has_value 17 kv "name" "Peter";; has_value 18 kv "moo" "fie";;
  TESTCASE "ignores non-kv value";;
  kv ← run (keyvalue.keyvalue (zeros 128) (txt "kernel name=Peter moo=fie")); has_value 24 kv "name" "Peter";; has_value 25 kv "moo" "fie").

Definition find_newline (s : list Z) (len : Z) : outcome (option Z) := cstring.strnchr 10 s 0 10 len.

Definition utils_suite : prog := suite (
  TESTCASE "strnchr does not return one past the last character";;
  p ← run (find_newline [10; 0] 0); ASSERT_EQ 6 p None;;
  p ← run (find_newline [104; 10; 0] 1); ASSERT_EQ 7 p None;;
  p ← run (find_newline (txt "moofie" ++ [10; 0]) 6); ASSERT_EQ 8 p None;;
  TESTCASE "strnchr finds the last character";;
  loop [0; 1; 2] (fun i _ =>
    '(s, n) ← run (arr_get [([10; 0], 1); ([104; 10; 0], 2); (txt "moofie" ++ [10; 0], 7)] i);
    p ← run (find_newline s n); ASSERT_NEQ (12 + i) p None;;
    c ← run (arr_get s (default (-1) p)); ASSERT_EQ (16 + i) c 10) tt).
End words_suites.

(** ** net/unittests/tcp/test_receive_queue.cc *)
Section receive_queue_suite.
#[local] Abbreviation ASSERT_EQ := (EQ "test_receive_queue.cc").
#[local] Abbreviation insert q n data := (run (receive_queue.insert q (mk_recv_segment 0 n 0) data)).
#[local] Abbreviation readable_until q := (run (receive_queue.readable_until q)).
#[local] Abbreviation read q n := (run (receive_queue.read_one_segment q n)).
#[local] Abbreviation init := receive_queue.init.

(** Reads a segment and checks where it lies. *)
Definition next_is (line : Z) (q : receive_queue.t) (room len seqnbr : Z) : test (receive_queue.t * list Z) :=
  '(q, (seg, bytes)) ← read q room;
  ASSERT_EQ line (zlen bytes) len;; ASSERT_EQ (line + 1) (rs_seqnbr seg) seqnbr;; mret (q, bytes).

Definition receive_queue_suite : prog := suite (
  TESTCASE "readable_until returns 0 when queue is empty";;
  n ← readable_until init; ASSERT_EQ 9 n 0;;

  TESTCASE "read_one_segment reassembles segments correctly";;
  '(q, b) ← insert init 2 (txt "BB"); ASSERT_EQ 39 b true;;
  '(q, b) ← insert q 7 (txt "DD"); ASSERT_EQ 40 b true;;
  '(q, b) ← insert q 0 (txt "AA"); ASSERT_EQ 41 b true;;
  '(q, b) ← insert q 4 (txt "CCC"); ASSERT_EQ 42 b true;;
  n ← readable_until q; ASSERT_EQ 45 n 2;;
  '(q, d1) ← next_is 54 q 512 2 0; '(q, d2) ← next_is 59 q 512 2 2; '(q, d3) ← next_is 64 q 512 3 4; '(q, d4) ← next_is 69 q 512 2 7;
  n ← readable_until q; ASSERT_EQ 73 n 9;;
  d ← run (cstring.memcmp 9 (d1 ++ d2 ++ d3 ++ d4) (txt "AABBCCCDD")); ASSERT_EQ 74 d 0).
End receive_queue_suite.

(** ** net/unittests/tcp/test_send_queue.cc *)
Section send_queue_suite.
#[local] Abbreviation ASSERT_EQ := (EQ "test_send_queue.cc").
#[local] Abbreviation init := send_queue.init.

(** [write_back({flags, seqnbr, n, n}, data, n, n)] *)
Definition write_seg (q : send_queue.t) (flags seqnbr : Z) (data : list Z) : test (send_queue.t * bool) :=
  let n := zlen data in run (send_queue.write_back q (mk_send_segment flags seqnbr n n) (Some data) n n).

(** Reads a segment and checks its bytes and flags. *)
Definition sends (line : Z) (q : send_queue.t) (data : string) (flags : Z) : test send_queue.t :=
  '(q, r) ← run (send_queue.read_one_segment q 100);
  '(seg, bytes) ← run (match r with Some x => Ret x | None => Undef end);
  ASSERT_EQ line (zlen bytes) (zlen (txt data));;
  d ← run (cstring.memcmp (length (txt data)) bytes (txt data)); ASSERT_EQ (line + 1) d 0;;
  ASSERT_EQ (line + 2) (ss_flags seg) flags;; mret q.

Definition send_queue_suite : prog := suite (
  TESTCASE "empty queue is not readable";; ASSERT_EQ 10 (send_queue.has_readable init) false;;

  TESTCASE "write_back can be read";;
  '(q, b) ← write_seg init 1 0 (txt "AAA"); ASSERT_EQ 49 b true;; '(q, b) ← write_seg q 2 3 (txt "BBBBB"); ASSERT_EQ 50 b true;;
  q ← sends 55 q "AAA" 1; q ← sends 58 q "BBBBB" 2;

  TESTCASE "ack scenario";;
  let q := send_queue.reset init 0 in
  '(q, b) ← write_seg q 1 0 (txt " "); ASSERT_EQ 71 b true;; '(q, b) ← write_seg q 2 1 (txt "ASD"); ASSERT_EQ 72 b true;;
  '(q, b) ← write_seg q 1 4 (txt "AS"); ASSERT_EQ 73 b true;; '(q, b) ← write_seg q 1 6 (txt "HEY"); ASSERT_EQ 74 b true;;
  q ← run (send_queue.ack q 1);
  ASSERT_EQ 80 (send_queue.has_readable q) true;; q ← sends 81 q "ASD" 2;
  ASSERT_EQ 86 (send_queue.has_readable q) true;; q ← sends 87 q "AS" 1;
  q ← run (send_queue.ack q 6);
  ASSERT_EQ 95 (send_queue.has_readable q) true;; q ← sends 96 q "HEY" 1;
  q ← run (send_queue.ack q 9);
  ASSERT_EQ 104 (send_queue.has_readable q) false).
End send_queue_suite.

(** ** net/unittests/tcp/test_connection_table.cc: the state, null there, is [LISTEN] *)
Section connection_table_suite.
#[local] Abbreviation ASSERT_EQ := (EQ "test_connection_table.cc").
#[local] Abbreviation ep a p := (tcp.mk_endpoint a p).

Definition create (w : tcp.world) (remote local : tcp.endpoint) : test (Z * tcp.world) := run (tcp.create_connection remote local tcp.LISTEN w).

Definition connection_table_suite : prog := suite (
  TESTCASE "find_best_match: finds a wildcard connection";;
  '(conn, tab) ← create tcp.init_world (ep 0 0) (ep 0 0);
  ASSERT_EQ 16 (tcp.find_best_match tab (ep 0x11223344 4124) (ep 0x10101010 8888)) (Some conn);;

  TESTCASE "find_best_match: finds the most specific connection";;
  '(_, tab) ← create tcp.init_world (ep 0 0) (ep 0 0);
  '(_, tab) ← create tab (ep 0x44334455 0) (ep 0 0);
  '(_, tab) ← create tab (ep 0x44334455 2412) (ep 0 0);
  '(_, tab) ← create tab (ep 0x44334455 2412) (ep 0x10101010 0);
  '(conn, tab) ← create tab (ep 0x44334455 2412) (ep 0x10101010 8888);
  ASSERT_EQ 34 (tcp.find_best_match tab (ep 0x44334455 2412) (ep 0x10101010 8888)) (Some conn);;

  TESTCASE "find_best_match: finds nothing when there is no match";;
  '(_, tab) ← create tcp.init_world (ep 0 0) (ep 0 8080);
  ASSERT_EQ 48 (tcp.find_best_match tab (ep 0x11223344 4124) (ep 0x10101010 8888)) None).
End connection_table_suite.

(** ** net/unittests/ipv4/test_utils.cc *)
Section ipv4_utils_suite.

Definition address (s : string) : outcome Z := fmt.parse_ipaddr 32 (txt s) 0 0.

Definition checksum_is (line id expected : Z) (dest : string) : test unit :=
  src ← run (address "10.14.0.3"); dst ← run (address dest);
  c ← run (net.ip_checksum (net.mk_ip 5 4 0 (bytes.htons 40) (bytes.htons id) 0 65 6 0 (bytes.htonl src) (bytes.htonl dst)) []);
  EQ "test_utils.cc" line c (bytes.ntohs expected).

Definition ipv4_utils_suite : prog := suite (
  TESTCASE "ipv4_checksum correctly calculates given scenarios";;
  checksum_is 31 1 0x42c2 "83.248.217.4";; checksum_is 38 5 0x000c "217.214.149.216").
End ipv4_utils_suite.

Definition all : list (string * prog) := [
  ("p2::queue", queue_suite); ("p2::ring_buffer", ring_buffer_suite); ("p2::fixed_pool", pool_suite); ("p2::page_alloc", page_alloc_suite);
  ("p2::string", string_suite); ("p2::frag_buffer", frag_buffer_suite); ("p2::unordered_map", unordered_map_suite); ("p2::format", format_suite);
  ("p2::flip_buffer", flip_buffer_suite); ("filesystem_dirname", filesystem_suite); ("p2::inplace_fun", function_suite); ("p2::keyvalue", keyvalue_suite);
  ("p2::utils", utils_suite); ("net::tcp::receive_queue", receive_queue_suite); ("net::tcp::send_queue", send_queue_suite);
  ("net::tcp::connection_table", connection_table_suite); ("ipv4::utils", ipv4_utils_suite)]%string.
End suites.

(** The model passes the unit tests of the repository: the harness, run on
    the suites, comes to its end and prints its whole report. *)
Theorem unit_tests_pass (elapsed : string -> option string) (explanation : string) :
  main elapsed explanation suites.all start = Go tt (mk false None (report elapsed "" suites.all)).
Proof.
  pose proof (main_passes elapsed explanation suites.all start eq_refl eq_refl) as H.
  replace (forallb (fun '(_, p) => passes p) suites.all) with true in H by (vm_compute; reflexivity). exact H.
Qed.
